(* ===== verification/_CoqProject ===== *)
-Q . S2P
Prelude.v
GoTime.v
GoFloat.v
Errors.v
Core.v
GoString.v
GoStrconv.v
GoFmt.v
Timestamp.v
Base64.v
Secrets.v
CheckValues.v
Checks.v
CheckParams.v
Probes.v
ProbeTheorems.v
Plan.v
PlanYaml.v
Adhoc.v
Config.v
Channels.v
Engine.v
EngineFrame.v
EngineShape.v
EngineSafety.v
EngineVerdict.v
EngineContract.v
EngineLimits.v
EngineTermination.v
EngineEvents.v
Queue.v
Listing.v
Paging.v
Timeline.v
Journal.v
JournalTheorems.v
JournalEngine.v
Worker.v
Catalog.v
Scheduler.v
EngineWorld.v
Pve.v
Pbs.v
Providers.v
Execution.v
Proxmox.v
ProxmoxTheorems.v
Guest.v
Storages.v
ProxmoxSafety.v
ProxmoxEngine.v
ProxmoxAdmin.v
ProxmoxAdminTheorems.v
Confidence.v
Story.v
Deliveries.v
Dispatcher.v
DispatcherTheorems.v
DeliveryAttempts.v
Diag.v
Credentials.v
Store.v
Migrations.v
Conformance.v
ConformanceQueue.v
ApiBase.v
PlanCatalog.v
Auth.v
Setup.v
Provision.v
CommandLine.v
ApiPlans.v
ApiRuns.v
Stream.v
ApiChannels.v
ApiWorkloads.v
Routes.v
Answers.v
RoutesTheorems.v
PlanCatalogTheorems.v
