(* ===== verification/Prelude.v ===== *)
(** * RestoreLab: a verification library

    RestoreLab restores a backup of a production workload into a temporary one
    on an isolated network, checks it, grades the drill and deletes what it
    created. This library models the Go code under [src/internal] that decides
    all of this, and proves what makes it correct. This file is the root: the
    documentation of the library, and what its files share (a state monad with
    panics, relational frames, postconditions, text, lists).

    ** The program and its parts

    A recovery plan is parsed, defaulted and validated (internal/plan). A drill of
    it is asked for by a person (internal/api, internal/cli) or by the scheduler
    (internal/scheduler), built by internal/trigger and queued in a database
    (internal/store). Worker processes (internal/worker) claim queued drills,
    hold a lease on them and execute them with the recovery engine
    (internal/recovery), which calls a hypervisor (internal/providers/proxmox), a
    backup server and the check runner (internal/checks) through interfaces of
    internal/core. A sweep of the
    worker settles drills whose worker died. A dispatcher (internal/notify) tells
    channels what changed for a workload, a score (internal/report) sums up its
    history, internal/diag says whether a cluster is ready for a drill, and
    internal/api serves all of this, keeps the plans (internal/catalog) and decides
    who may ask, by tokens and browser sessions (internal/store). The configuration
    (internal/config) is a file whose secrets are sealed with a master key
    (internal/crypto); a running server keeps it in memory with the provider clients
    it gives (internal/cli, internal/providers/factory.go).

    ** The files

    - [Prelude]: this file. [M S A] is [S -> outcome A * S]: a panic keeps the
      state reached, as a deferred function sees it; [Diverge] comes only from a
      loop that used up its fuel. [keeps R m] is a frame (whatever happens, the
      state left is related by [R] to the one before), [post P m R Q] a
      postcondition with a second one for panics.
    - [GoTime], [GoFloat], [GoString], [GoStrconv], [GoFmt], [Base64]: what the
      program uses of the standard library: instants (nanoseconds since year 1) and
      64-bit durations with saturating [Sub] and [Round]; binary64 arithmetic and its
      decimal renderings; ASCII strings; [strconv.ParseFloat] and [Atoi];
      [time.ParseDuration] and [Duration.String]; what [fmt.Sprintf] renders of a
      format and its arguments; base64.
    - [Timestamp] (store/encoding.go): instants as the text the databases sort.
    - [Errors] (core/errors.go): error chains, [errors.Is], retryable errors.
    - [Core] (core/types.go, check.go, proof.go, run.go): the data of a drill.
    - [CheckValues], [Checks] (checks/values.go, registry.go, the judgement of a
      captured value in command.go): the registry runs any [Check].
    - [CheckParams] (checks/params.go): what a check reads of its parameters, over the
      class [TemplateEnv] of text/template. [Probes] (checks/tcp.go, ping.go, dns.go,
      http.go, command.go, reachability.go; core/exec.go): the checks of the registry
      [Default], over the class [ProbeEnv] of the network, of regular expressions and
      of JSON. [ProbeTheorems]: what their verdicts say.
    - [Secrets] (crypto/): the master key, where it is looked for and kept, and sealed
      values; AES-GCM is the class [AEAD] with its law [AEADLaws].
    - [Adhoc] (adhoc/plan.go): the plan that a description of a drill denotes.
    - [Config] (config/): the configuration, what is accepted of it,
      its sealed secrets and its file; YAML and URLs are the class [ConfigEnv].
    - [Channels] (cli/notify.go, root.go): the configuration of a running server, in
      memory and on disk, and the edits of its notification channels.
    - [Plan] (plan/): plans; the cron parser and the zone
      database are the class [ScheduleEnv]. [PlanYaml]: plans as documents, read and
      written, over the class [YamlEnv] of the YAML library and its laws [YamlLaws].
    - [Engine] (recovery/): the workflow, function by function, over the class
      [EngineEnv] of everything the engine calls. The state [ES] is the run
      record, the local variables the deferred function of [Run] reads, and a
      trace of every event emitted and provider call made, with the context it
      was made on and how it ended. [EngineFrame] gives a
      concrete environment and the frame of each step, [EngineShape] follows the trace
      through the workflow, and the theorems are in [EngineSafety],
      [EngineVerdict], [EngineContract], [EngineLimits] and [EngineTermination];
      the last also composes the engine with the registry of [Checks] through
      the class [FaithfulRunner], and [EngineEvents] says what the events of a run
      name.
    - [Queue] (store/queue.go, runs.go): the runs table as a map, each statement
      as a function on it, and all of them as the type [statement].
    - [Listing] (store/list.go): the filters, the order and the limit of a listing,
      over the class [Collation] of the database's order on text; [Paging]
      (api/page.go, api/runs.go): the cursors that continue one.
    - [Timeline] (store/steps.go, checks.go, events.go, values.go): the tables of
      what happened in a run; the JSON library is the class [JSON].
    - [Journal], [JournalTheorems] (journal/): the recorder that hears the
      events of a run and writes them, with a log of its calls to a database
      that may refuse any of them; [JournalEngine] puts it behind the engine.
    - [Worker] (worker/): any number of worker processes over that table, as the
      step relation [step]; a write can be lost, a process can die at any point.
    - [Catalog] (store/plans.go, schedule.go, trigger/): the plans and slots tables
      next to the runs, with their keys and references; [db_op] is everything that
      writes to them; and how a drill is prepared and queued.
    - [Scheduler] (scheduler/): the decision of a slot and a
      pass over the catalogue, over the class [SchedEnv] of clock, identifiers,
      database faults and YAML library; [considered] is the specification
      that the code of a plan's turn refines.
    - [EngineWorld]: an invariant of the trace and of the world that each call of
      the engine keeps is kept by a run.
    - [Pve] (providers/proxmox/client.go, types.go): a request to a Proxmox cluster
      and the reading of what it answers, over the class [PveEnv] of the cluster,
      the context, the clock and the JSON library; every exchange is logged.
      [Proxmox] (provider.go, backups.go, what restores read of storages.go): the
      provider; [ProxmoxTheorems] is its lemma library, [ProxmoxSafety] its
      guards, and [ProxmoxEngine] the provider behind the engine, as the instance
      [proxmox_provider] of [EngineEnv].
    - [ProxmoxAdmin], [ProxmoxAdminTheorems] (bootstrap.go, network_admin.go): the
      provisioning of an account and of the isolated bridge.
    - [Guest] (exec.go, osinfo.go): commands in a guest through its agent; [pve_guest]
      is what a command check of [Probes] is given.
    - [Storages] (storages.go): what a diagnosis reads of a Proxmox cluster.
    - [Pbs] (providers/pbs/): the client of a backup server, over the class [PbsEnv].
    - [Providers] (providers/factory.go, cli/root.go, cli/serve.go): the clients that a
      configuration gives, and those that a server keeps.
    - [Execution] (worker/run.go): what a worker does with a run it claimed, around the
      engine: where the drill lands, and the statements it makes.
    - [Confidence] (report/confidence.go, format.go): the score of a workload.
    - [Story] (notify/story.go, collapse.go, the channels): what is worth telling,
      and the messages; a body is the JSON document it encodes; and a run as a JSON
      document (report/json.go, values.go, format.go). [Deliveries]
      (store/notify.go): what was told to whom, with everything
      that writes to it as [notify_op]. [Dispatcher] (notify/dispatcher.go,
      deliver.go): the two passes, over the class [NotifyEnv] of clock, context,
      database faults and HTTP client; [DispatcherTheorems] refines the decision
      to the specification [worth], [DeliveryAttempts] follows a delivery.
    - [Diag] (diag/): the findings of a diagnosis, over the class
      [DiagEnv] of the provider, the backups and the deliveries it asks.
    - [Credentials] (store/tokens.go, sessions.go): the tables
      of tokens and sessions, with everything that writes to them as [cred_op].
    - [Store] (store/store.go, sqlstore.go, noop.go): the interface of the store as the
      type of its calls, its implementation [sqlStore] over all the tables above,
      and [Noop]. [Conformance], [ConformanceQueue] (store/conformance*.go): the tests
      that both databases are held to, as programs over that interface in a monad
      that notes failures, and their runs on both.
    - [Migrations] (store/dialect.go, migrate.go, open.go, sqlite.go, postgres.go):
      placeholders, the schema of a database step by step, and what opens or migrates
      the one that a configuration names, over the classes [SqlEngine] (what a script
      makes of a schema) and [Surroundings] (what a call meets, and other processes).
    - [ApiBase] (api/problem.go, server.go): requests, answers and problems, over
      the class [ApiEnv] of clock, randomness, hashing, URL parsing and outages.
    - [PlanCatalog], [PlanCatalogTheorems] (catalog/): plan documents.
    - [Auth] (api/auth.go, session.go): who enters, and sessions; it ends with what a
      server is built with (server.go, page.go), the classes
      [Site] (the configuration, the libraries that read documents) and [ProviderSet]
      (the clusters). [Setup] (api/setup.go): the first run. [ApiPlans] (plans.go,
      schedule.go), [ApiRuns] (runs.go, trigger.go), [ApiChannels] (notifications.go)
      and [ApiWorkloads] (workloads.go, meta.go): the handlers. [Stream] (sse.go): the
      stream of events of a run, over the class [StreamEnv] of what a connection meets
      instant by instant, and a client that comes back to it. [Routes] (server.go):
      the routes with their scopes, [serve], which is the whole server, and what each
      handler leaves as it was.
    - [Provision] (cli/provision.go, connect.go, setup.go, init.go): the provisioning of
      a cluster by the command and by the wizard, on a machine: its configuration, its
      key files, the administrator's session, the client of the new token and the
      database, over the class [ProvisionEnv] of randomness, files and the cluster.
    - [CommandLine] (cli/endpoint.go, serve.go, provider.go, network.go, recovery.go,
      cleanup.go): what the other commands decide and change, over the class
      [CommandEnv] of URL parsing and its laws [UrlLaws].
    - [Answers] (total correctness: every handler returns a proper response) and
      [RoutesTheorems]: what a request can do.

    ** What the theorems show

    - The engine (C1 to C9): what it does to the cluster (restores once, only
      into what was allocated and is isolated, touches only its own workload, a dry run
      reads only), what it answers (the contract of [Run], earned verdicts, exactly the
      proof level that was proven, cancellation), that cleanup always disposes of what
      was restored, and that every run comes back; with the journal, that nothing is created before the
      database was told its name (C10).
    - The cluster (C11 to C15): a whole drill stays in the reserved range and
      deletes only what carries its mark, the isolation of what is restored (the devices
      replaced are those that the backup was read to have), the reach of what is provisioned, its token stored before it is used, and a command
      in a guest is started once.
    - The execution of a claimed run (C16, C17): the drill lands where its plan and the
      configuration say, and the statements made are a path of the worker's thread.
    - Plans and checks (C18 to C21): validation is sound and complete; the snapshot a
      worker parses is the plan that was queued; a network where nothing answers fails
      no check; what a command check says of the guest.
    - The queue, the journal and the workers (C22 to C25): what no write undoes, the
      outcome written after the timeline, the round trip of a whole drill; a drill is executed
      at most once.
    - The store and the scheduler (C26 to C28): what the tables promise under any calls,
      that both databases pass the whole conformance suite, and what a pass of the
      scheduler writes and bounds (its limit on the queue up to 50, the size of a listing).
    - The API (C29 to C33): no request goes beyond its scopes, every one is answered by
      a response of the type it announces, a client that follows a run is sent every
      event once, a server is set up at most once, and revocation is final.
    - The diagnosis (C34): it judges a network as a drill does.
    - Reading (C35): the pages of a listing that grows while it is read.
    - Notifications (C36 to C40): no message is queued twice for a run and a channel,
      the messages about verdicts tell where a workload stands on a history of graded
      drills, the decision about a run does what its specification says and no more
      whatever fails, a message is delivered or given up within its attempts (by one
      dispatcher, with its database), and the address of a channel is never written down.
    - Files also prove, without a number: the engine with the registry of checks, that the
      store without a database misleads nobody, that a database is never opened behind
      the program and is migrated in order, that a cancelled drill is never executed, that
      nothing is asked of a cluster without consent, what the wizard hands over, that no
      server is exposed without a token, what adding and removing a provider leaves on
      disk, that an endpoint is normalised once, that a cleanup destroys only what drills
      left, that a drill lands the same from a terminal and from the queue, one restore and one delete per run, the
      names of temporary workloads, retries, captured numbers and their drift, the
      accounting of the registry, the oldest run claimed, the slots of the
      scheduler, the score and its ceiling, identifiers allocated in the reserved
      range, the mark stamped is the mark recognised, what a provisioning may
      write, defaults of plans, cancellation in the queue, what the sweep spares,
      versions of plans, when the fall of a value is announced, the decision of a slot,
      the round trips of a run and of a timestamp, who enters, the life of a session,
      what hardening a workload keeps, the bridge that a provisioning makes, what a
      description of a drill denotes, the configurations accepted, the newest backup of
      a backup server, what a sealed value opens to,
      that keeping provider clients changes no answer, what saving a plan stores, what
      asking for a drill does, what editing a channel does, durations read back, the
      two gates of a deletion, what a response makes of an HTTP check, that an absent
      guest agent is not asked again, that a diagnosis reads only and when its report is good, and the
      gate of a cleanup.

    ** Fuel and bounds

    [waitLoop] of the engine has the fuel [wait_fuel]: the start-up timeout over
    the polling period, plus two; under the laws of a clock ([ClockLaws]) the
    deadline comes first (C9). The wait for a task of the cluster has the
    fuel [task_polls] of its environment. The scheduler's loop has the source's own bound,
    [maxCollapse]. Every other recursion is structural, on the attempts left, the
    checks, the plans or a string.

    ** What is not modelled

    The text and HTML renderings of a report and of logs, the text of the
    migrations, and of the command line its flags, what it prints and the commands
    that only render what the rest answers. Of the API: the HTML form of a report and the files of the
    dashboard, which [serve] answers with nothing, as it does the stream of events,
    modelled on its own in [Stream]; and the redirections of the router for a path
    that is not clean. A message built with [fmt.Sprintf] is kept as its format and
    arguments ([text]) until something reads it ([render]); a body is the JSON
    document it encodes, not its bytes, and an identifier is never unreadable. Encoding
    an answer or a message as JSON never fails. A database is either away for a call or
    carries it out, each statement at once (so is an INSERT guarded by NOT EXISTS, which
    under PostgreSQL may also end in the error of the unique index, with the same table);
    the signal that closes the first run is left out of [Setup]. In [Worker] the
    engine inside a thread is one phase, since its behaviour is the subject of
    [Engine]; runs that the command line executes without the queue are left out
    there. In [Queue], the timeline of a run (steps and checks) is an argument of
    [GetRun]; [GetWholeRun] of [Timeline] reads it from its tables. A handler of the
    API runs alone; only in [Setup] do requests interleave. *)

From Stdlib Require Import ZArith Lia String List.
From Stdlib Require Export SpecFloat.
From stdpp Require Export base tactics numbers list option strings pretty gmap.
From stdpp Require Import relations sorting.

#[global] Open Scope Z_scope.

(** ** Go calls: a value, a panic, or a loop that did not finish *)

(** How a Go call ends. [Diverge] is only ever produced by a loop that ran out
    of the fuel the model gives it. *)
Inductive outcome (A : Type) : Type :=
| Ret (a : A)
| Panic (msg : string)
| Diverge.
Arguments Ret {A} a.
Arguments Panic {A} msg.
Arguments Diverge {A}.

(** A stateful Go computation: explicit state passing, where a panic keeps the
    state reached so far (a deferred function still sees it). *)
Definition M (S A : Type) : Type := S -> outcome A * S.

Section Monad.
Context {S : Type}.

#[export] Instance M_ret : MRet (M S) := fun A a s => (Ret a, s).
#[export] Instance M_bind : MBind (M S) := fun A B k m s =>
  match m s with
  | (Ret a, s') => k a s'
  | (Panic e, s') => (Panic e, s')
  | (Diverge, s') => (Diverge, s')
  end.

Definition get : M S S := fun s => (Ret s, s).
Definition gets {A} (f : S -> A) : M S A := fun s => (Ret (f s), s).
Definition modify (f : S -> S) : M S unit := fun s => (Ret tt, f s).
Definition throw {A} (msg : string) : M S A := fun s => (Panic msg, s).

(** A deferred function with [recover()]: a panic becomes a value, the state
    reached when it was raised is kept. *)
Definition try {A} (m : M S A) : M S (string + A) := fun s =>
  match m s with
  | (Ret a, s') => (Ret (inr a), s')
  | (Panic e, s') => (Ret (inl e), s')
  | (Diverge, s') => (Diverge, s')
  end.
End Monad.

(** ** Relational frames: what a computation keeps of the state

    [keeps R m] says that the state [m] leaves behind is related by [R] to the
    one it started from, however [m] ends. For a preorder [R] it is
    compositional, so a frame of a whole program is the frame of its
    primitives. *)
Section Keeps.
Context {S : Type} (R : relation S) `{!PreOrder R}.

Definition keeps {A} (m : M S A) : Prop := forall s, R s (m s).2.

Lemma keeps_ret {A} (a : A) : keeps (mret a).
Proof. intros s. cbn. reflexivity. Qed.

Lemma keeps_gets {A} (f : S -> A) : keeps (gets f).
Proof. intros s. cbn. reflexivity. Qed.

Lemma keeps_get : keeps get.
Proof. intros s. cbn. reflexivity. Qed.

Lemma keeps_throw {A} msg : keeps (throw (A := A) msg).
Proof. intros s. cbn. reflexivity. Qed.

Lemma keeps_modify f : (forall s, R s (f s)) -> keeps (modify f).
Proof. intros H s. apply H. Qed.

Lemma keeps_bind {A B} (m : M S A) (k : A -> M S B) :
  keeps m -> (forall a, keeps (k a)) -> keeps (mbind k m).
Proof.
  intros Hm Hk s. unfold mbind, M_bind. specialize (Hm s).
  destruct (m s) as [[a|e|] s']; cbn in *; [|done..].
  etransitivity; [exact Hm | apply Hk].
Qed.

Lemma keeps_try {A} (m : M S A) : keeps m -> keeps (try m).
Proof. intros Hm s. unfold try. specialize (Hm s). by destruct (m s) as [[| |] ?]. Qed.

Lemma keeps_if {A} (b : bool) (m1 m2 : M S A) :
  keeps m1 -> keeps m2 -> keeps (if b then m1 else m2).
Proof. by destruct b. Qed.
End Keeps.

Create HintDb keeps.
#[export] Hint Resolve keeps_ret keeps_gets keeps_get keeps_throw : keeps.

(** [keeps_step] strips one layer of the program; [keeps_auto] runs it to the
    primitives, whose frames are in the hint database [keeps]. *)
Ltac keeps_step :=
  match goal with
  | |- forall _, _ => intro
  | |- keeps _ (mbind _ _) => apply keeps_bind; [typeclasses eauto | | ]
  | |- keeps _ (try _) => apply keeps_try
  | |- keeps _ (if ?b then _ else _) => destruct b
  | |- keeps _ (match ?x with _ => _ end) => destruct x
  | |- keeps _ (let _ := _ in _) => cbv zeta
  | |- keeps _ _ => solve [eauto 3 with keeps typeclass_instances]
  end.
Ltac keeps_auto := repeat keeps_step.

(** The relation of states with the same view: whatever the view, a preorder. *)
Definition same_of {A B} (v : A -> B) : relation A := fun a b => v b = v a.

#[export] Instance same_of_preorder {A B} (v : A -> B) : PreOrder (same_of v).
Proof. split; [by intros ? | unfold same_of; intros ???; congruence]. Qed.

(** ** Text

    A Go string built by [fmt.Sprintf] is kept as its format and arguments, which say
    which message it is and whether it is empty; [render] of [GoFmt] gives its
    characters where the program reads them. *)
Inductive text : Type :=
| Lit (s : string)
| Sprintf (fmt : string) (args : list arg)
with arg : Type :=
| AStr (s : string)
| AText (t : text)
| AInt (z : Z)
| ADur (ns : Z)
| ATime (t : Z)
| AFloat (f : spec_float)
| AStrs (l : list string).

Definition text_empty (t : text) : bool :=
  match t with Lit s => bool_decide (s = EmptyString) | Sprintf _ _ => false end.

(** ** Lists *)

(** A list is a sequence of observations extended only at its end. *)
Definition extends {A} (P : A -> Prop) (l l' : list A) : Prop :=
  exists k, l' = l ++ k /\ Forall P k.

#[export] Instance extends_preorder {A} (P : A -> Prop) : PreOrder (extends P).
Proof.
  split.
  - intros l. exists []. by rewrite app_nil_r.
  - intros l1 l2 l3 (k1 & -> & H1) (k2 & -> & H2).
    exists (k1 ++ k2). rewrite app_assoc. split; [done | by apply Forall_app].
Qed.

Lemma extends_snoc {A} (P : A -> Prop) l x : P x -> extends P l (l ++ [x]).
Proof. intros H. exists [x]. split; [done | by apply Forall_singleton]. Qed.

Lemma extends_weaken {A} (P Q : A -> Prop) l l' :
  (forall x, P x -> Q x) -> extends P l l' -> extends Q l l'.
Proof. intros H (k & -> & Hk). exists k. split; [done | eauto using Forall_impl]. Qed.

Lemma extends_Forall {A} (P : A -> Prop) l l' :
  Forall P l -> extends P l l' -> Forall P l'.
Proof. intros Hl (k & -> & Hk). by apply Forall_app. Qed.

(** The number of elements of a list satisfying a boolean test. *)
Definition countb {A} (f : A -> bool) (l : list A) : nat := length (List.filter f l).

Lemma countb_app {A} (f : A -> bool) l1 l2 : countb f (l1 ++ l2) = (countb f l1 + countb f l2)%nat.
Proof. unfold countb. by rewrite List.filter_app, length_app. Qed.

Lemma countb_0 {A} (f : A -> bool) l : Forall (fun x => f x = false) l -> countb f l = 0%nat.
Proof. unfold countb. induction 1 as [|x l Hx _ IH]; cbn; [done | by rewrite Hx]. Qed.

Lemma countb_extends {A} (f : A -> bool) l l' :
  extends (fun x => f x = false) l l' -> countb f l' = countb f l.
Proof. intros (k & -> & Hk). rewrite countb_app, (countb_0 _ k Hk). lia. Qed.

Lemma countb_Permutation {A} (f : A -> bool) l l' : Permutation l l' -> countb f l = countb f l'.
Proof.
  unfold countb. induction 1 as [|x l l' _ IH|x y l|l1 l2 l3 _ IH1 _ IH2]; cbn; [done| | |congruence].
  - destruct (f x); cbn; by rewrite IH.
  - by destruct (f x), (f y).
Qed.

(** Where a list holds at most one element of a kind, it splits around it in
    one way. *)
Lemma unique_split {A} (f : A -> bool) (a b a' b' : list A) x x' :
  Forall (fun y => f y = false) a -> Forall (fun y => f y = false) b ->
  f x' = true -> a ++ x :: b = a' ++ x' :: b' -> a' = a /\ x' = x /\ b' = b.
Proof.
  intros Ha Hb Hx. revert a'. induction Ha as [|y a Hy Ha IH]; intros [|y' a'] E; simpl in *.
  - by injection E as ? ?; subst.
  - injection E as <- E. subst b. apply Forall_app in Hb as [_ Hb]. inversion Hb; congruence.
  - injection E as ? ?. congruence.
  - injection E as <- E. destruct (IH _ E) as (-> & -> & ->). done.
Qed.

Lemma countb_one {A} (f : A -> bool) (a b : list A) x :
  f x = true -> Forall (fun y => f y = false) a -> Forall (fun y => f y = false) b ->
  countb f (a ++ x :: b) = 1%nat.
Proof.
  intros Hx Ha Hb. rewrite countb_app, (countb_0 f a Ha). unfold countb; simpl. rewrite Hx. simpl.
  change (S (countb f b) = 1%nat). by rewrite (countb_0 f b Hb).
Qed.

(** ** Strings *)

Lemma string_length_app (s1 s2 : string) :
  String.length (s1 +:+ s2) = (String.length s1 + String.length s2)%nat.
Proof. induction s1 as [|c s1 IH]; simpl; [done | by rewrite IH]. Qed.

Lemma string_app_assoc (s1 s2 s3 : string) : s1 +:+ (s2 +:+ s3) = (s1 +:+ s2) +:+ s3.
Proof. induction s1 as [|c s1 IH]; [done|].
  change (String c (s1 +:+ (s2 +:+ s3)) = String c ((s1 +:+ s2) +:+ s3)). by rewrite IH.
Qed.

Definition nonempty (s : string) : bool := negb (bool_decide (s = EmptyString)).

Lemma nonempty_spec s : nonempty s = true <-> s <> EmptyString.
Proof. unfold nonempty. case_bool_decide; cbn; split; congruence. Qed.

(** [firstNonEmpty(vals...)]: the local helper of several packages. *)
Fixpoint firstNonEmpty (vals : list string) : string :=
  match vals with
  | [] => EmptyString
  | v :: rest => if nonempty v then v else firstNonEmpty rest
  end.

(** ** Inverting a computation that returned *)

Lemma bind_Ret_inv {S A B} (m : M S A) (k : A -> M S B) s b s' :
  mbind k m s = (Ret b, s') -> exists a s1, m s = (Ret a, s1) /\ k a s1 = (Ret b, s').
Proof.
  unfold mbind, M_bind. destruct (m s) as [[a|e|] s1] eqn:E; [|congruence..]. eauto.
Qed.

Lemma bind_Ret {S A B} (m : M S A) (k : A -> M S B) s a s1 :
  m s = (Ret a, s1) -> mbind k m s = k a s1.
Proof. unfold mbind, M_bind. by intros ->. Qed.

Lemma keeps_Ret {S A} (R : relation S) (m : M S A) s a s' :
  keeps R m -> m s = (Ret a, s') -> R s s'.
Proof. intros H E. specialize (H s). by rewrite E in H. Qed.

Lemma keeps_impl {S A} (R Q : relation S) (m : M S A) :
  keeps R m -> (forall s s', R s s' -> Q s s') -> keeps Q m.
Proof. intros H HQ s. apply HQ, H. Qed.

(** [inv_m H] splits [H : (m ≫= k) s = (Ret b, s')] at its binds, and reads
    [mret] and [throw] off. *)
Ltac inv_m1 H :=
  match type of H with
  | mbind _ _ _ = (Ret _, _) =>
    let a := fresh "a" in let s := fresh "s" in let H1 := fresh "Hm" in let H2 := fresh "Hk" in
    apply bind_Ret_inv in H as (a & s & H1 & H2)
  | mret _ _ = (Ret _, _) => injection H as; subst
  | M_ret _ _ _ = (Ret _, _) => injection H as; subst
  | throw _ _ = (Ret _, _) => discriminate H
  end.

(** ** Computations from a precondition *)

(** [post P m R Q]: run from a state in [P], [m] either returns a value and a
    state in [R], or leaves (however it ends) a state in [Q]. *)
Definition post {S A} (P : S -> Prop) (m : M S A) (R : A -> S -> Prop) (Q : S -> Prop) : Prop :=
  forall s, P s -> match m s with
                   | (Ret a, s') => R a s'
                   | (_, s') => Q s'
                   end.

Lemma post_bind {S A B} P (m : M S A) (k : A -> M S B) R1 R Q :
  post P m R1 Q -> (forall a, post (R1 a) (k a) R Q) -> post P (mbind k m) R Q.
Proof.
  intros Hm Hk s HP. unfold mbind, M_bind. specialize (Hm s HP).
  destruct (m s) as [[a| |] s1]; [|done..]. by apply Hk.
Qed.

Lemma post_ret {S A} (P : S -> Prop) (a : A) (R : A -> S -> Prop) Q :
  (forall s, P s -> R a s) -> post P (mret a) R Q.
Proof. intros H s HP. by apply H. Qed.

Lemma post_weaken {S A} (P P' : S -> Prop) (m : M S A) (R R' : A -> S -> Prop) (Q Q' : S -> Prop) :
  post P' m R' Q' -> (forall s, P s -> P' s) -> (forall a s, R' a s -> R a s) ->
  (forall s, Q' s -> Q s) -> post P m R Q.
Proof.
  intros H HP HR HQ s Hs. specialize (H s (HP s Hs)).
  destruct (m s) as [[| |] ?]; eauto.
Qed.

(** A frame is a postcondition: whatever the frame preserves still holds. *)
Lemma post_keeps {S A} (R : relation S) (P : S -> Prop) (m : M S A) :
  keeps R m -> (forall s s', P s -> R s s' -> P s') -> post P m (fun _ => P) P.
Proof.
  intros Hm HP s Hs. specialize (Hm s). destruct (m s) as [[| |] s']; eauto.
Qed.

Lemma post_frame {S A} (R : relation S) (P Q : S -> Prop) (m : M S A) :
  keeps R m -> (forall s s', P s -> R s s' -> P s') -> (forall s, P s -> Q s) ->
  post P m (fun _ => P) Q.
Proof. intros Hm HP HQ. eapply post_weaken; [by eapply post_keeps | done | done | done]. Qed.

Lemma post_try {S A} (P : S -> Prop) (m : M S A) R Q :
  post P m R Q -> post P (try m) (fun r s => match r with inl _ => Q s | inr a => R a s end) Q.
Proof.
  intros Hm s HP. unfold try. specialize (Hm s HP). by destruct (m s) as [[| |] ?].
Qed.

Lemma post_gets {S A} (P : S -> Prop) (f : S -> A) (R : A -> S -> Prop) Q :
  (forall s, P s -> R (f s) s) -> post P (gets f) R Q.
Proof. intros H s HP. by apply H. Qed.

Lemma post_and {S A} (P : S -> Prop) (m : M S A) (R1 R2 : A -> S -> Prop) (Q1 Q2 : S -> Prop) :
  post P m R1 Q1 -> post P m R2 Q2 ->
  post P m (fun a s => R1 a s /\ R2 a s) (fun s => Q1 s /\ Q2 s).
Proof. intros H1 H2 s HP. specialize (H1 s HP). specialize (H2 s HP). by destruct (m s) as [[| |] ?]. Qed.

Lemma post_pre {S A} (P P' : S -> Prop) (m : M S A) (R : A -> S -> Prop) (Q : S -> Prop) :
  post P' m R Q -> (forall s, P s -> P' s) -> post P m R Q.
Proof. intros H HP s Hs. by apply H, HP. Qed.

(** A fact of a precondition is a hypothesis. *)
Lemma post_fact_l {S A} (F : Prop) (P : S -> Prop) (m : M S A) (R : A -> S -> Prop) (Q : S -> Prop) :
  (F -> post P m R Q) -> post (fun s => F /\ P s) m R Q.
Proof. intros H s [HF HP]. by apply H. Qed.
Lemma post_fact_r {S A} (F : Prop) (P : S -> Prop) (m : M S A) (R : A -> S -> Prop) (Q : S -> Prop) :
  (F -> post P m R Q) -> post (fun s => P s /\ F) m R Q.
Proof. intros H s [HP HF]. by apply H. Qed.

(** ** Total correctness: what is run returns, and what it returns satisfies [P] *)

Definition answers {S A} (P : A -> Prop) (m : M S A) : Prop := forall s, exists a s', m s = (Ret a, s') /\ P a.
Abbreviation returns := (answers (fun _ => True)).
Section Rules.
Context {S : Type}.
Lemma answers_ret {A} (P : A -> Prop) (a : A) : P a -> answers (S := S) P (mret a).
Proof. intros Ha s. by exists a, s. Qed.
Lemma answers_bind {A B} (Q : A -> Prop) (P : B -> Prop) (m : M S A) k :
  answers Q m -> (forall a, Q a -> answers P (k a)) -> answers P (mbind k m).
Proof. intros Hm Hk s. destruct (Hm s) as (a & s1 & E & Ha). rewrite (bind_Ret _ _ _ _ _ E). by apply Hk. Qed.
Lemma answers_gets {A} (f : S -> A) : returns (gets f).
Proof. intros s. by eexists _, _. Qed.
Lemma answers_modify (f : S -> S) : returns (modify f).
Proof. intros s. by eexists _, _. Qed.
End Rules.
Create HintDb answers.
#[export] Hint Resolve answers_gets answers_modify : answers.

(** One layer of the program. *)
Ltac answers_step :=
  match goal with
  | |- forall _, _ => intro
  | |- answers _ (mret _) => apply answers_ret
  | |- answers _ (mbind _ _) => eapply answers_bind; [solve [eauto 3 with answers]|]
  | |- answers _ (if ?b then _ else _) => destruct b
  | |- answers _ (match ?x with _ => _ end) => destruct x eqn:?
  | |- answers _ (let _ := _ in _) => cbv zeta
  | |- answers _ _ => solve [eauto 3 with answers]
  end.
Ltac answers_auto := repeat answers_step; try exact I.

(** ** More lists *)

Lemma extends_elem {A} (P : A -> Prop) l l' x : x ∈ l -> extends P l l' -> x ∈ l'.
Proof. intros Hx (k & -> & _). apply elem_of_app. by left. Qed.

(** A closed equation whose left side evaluates to its right side, by the
    virtual machine alone: nothing is normalised in the goal. *)
Ltac vm_refl := match goal with |- _ = ?y => vm_cast_no_check (eq_refl y) end.

(** Case analysis on the integer comparisons of a goal. *)
Ltac zcases :=
  repeat match goal with
  | |- context [?a <=? ?b] => destruct (Z.leb_spec a b)
  | |- context [?a <? ?b] => destruct (Z.ltb_spec a b)
  end; cbn [andb orb negb].

(** Consecutive integers are in order. *)
Lemma seqZ_sorted i n : StronglySorted Z.le (seqZ i (Z.of_nat n)).
Proof.
  revert i. induction n as [|n IH]; intros i; [constructor|]. rewrite seqZ_cons by lia.
  replace (Z.pred (Z.of_nat (S n))) with (Z.of_nat n) by lia. constructor; [apply IH|].
  apply Forall_forall. intros x Hx%elem_of_seqZ. lia.
Qed.
