(* ===== verification/GoTime.v ===== *)
(** * Instants and durations of Go's [time] package

    An instant is the number of nanoseconds since the zero time of Go
    (0001-01-01T00:00:00Z); a [time.Duration] is a signed 64-bit number of
    nanoseconds. [Sub] saturates the way Go's does, [Round] is Go's rounding,
    and the calendar reading of an instant is the proleptic Gregorian one. *)

From Stdlib Require Import ZArith Lia String.
From S2P Require Import Prelude.

Module Duration.
Definition minDuration : Z := - 2 ^ 63.
Definition maxDuration : Z := 2 ^ 63 - 1.

Definition Nanosecond : Z := 1.
Definition Microsecond : Z := 1000.
Definition Millisecond : Z := 1000000.
Definition Second : Z := 1000000000.
Definition Minute : Z := 60 * Second.
Definition Hour : Z := 60 * Minute.

(** Saturation to the range of a [time.Duration]. *)
Definition sat (d : Z) : Z := Z.max minDuration (Z.min maxDuration d).

(** Two's complement wrap-around of 64-bit arithmetic. *)
Definition wrap (d : Z) : Z := (d + 2 ^ 63) mod 2 ^ 64 - 2 ^ 63.

(** [Duration.Milliseconds]: integer division truncated toward zero. *)
Definition Milliseconds (d : Z) : Z := Z.quot d Millisecond.

(** [lessThanHalf(x, y)]: [x + x < y] on unsigned 64-bit integers. *)
Definition lessThanHalf (x y : Z) : bool := x + x <? y.

(** [Duration.Round]. *)
Definition Round (d m : Z) : Z :=
  if m <=? 0 then d else
  let r := Z.rem d m in
  if d <? 0 then
    let r := - r in
    if lessThanHalf r m then d + r
    else let d1 := wrap (d - m + r) in if d1 <? d then d1 else minDuration
  else
    if lessThanHalf r m then d - r
    else let d1 := wrap (d + m - r) in if d <? d1 then d1 else maxDuration.
End Duration.

Module Time.
Import Duration.

(** The zero [time.Time]. *)
Definition zero : Z := 0.
Definition IsZero (t : Z) : bool := t =? zero.
Definition Add (t d : Z) : Z := t + d.
(** [t.Sub(u)] saturates at the bounds of a duration. *)
Definition Sub (t u : Z) : Z := sat (t - u).
Definition Before (t u : Z) : bool := t <? u.
Definition After (t u : Z) : bool := u <? t.

(** Days since 0001-01-01 to a calendar date (year, month, day), by the
    400-year era decomposition with years starting in March. *)
Definition civil (days : Z) : Z * Z * Z :=
  let z := days + 306 in
  let era := z / 146097 in
  let doe := z mod 146097 in
  let yoe := (doe - doe / 1460 + doe / 36524 - doe / 146096) / 365 in
  let doy := doe - (365 * yoe + yoe / 4 - yoe / 100) in
  let mp := (5 * doy + 2) / 153 in
  let d := doy - (153 * mp + 2) / 5 + 1 in
  let m := if mp <? 10 then mp + 3 else mp - 9 in
  let y := yoe + era * 400 + (if m <=? 2 then 1 else 0) in
  (y, m, d).

Definition day_ns : Z := 24 * Hour.
Definition date (t : Z) : Z * Z * Z := civil (t / day_ns).
(** [time.Unix(sec, 0)]. *)
Definition of_unix (sec : Z) : Z := 719162 * day_ns + sec * Second.
Definition Year (t : Z) : Z := (date t).1.1.
Definition Month (t : Z) : Z := (date t).1.2.
Definition Day (t : Z) : Z := (date t).2.
Definition HourOf (t : Z) : Z := (t mod day_ns) / Hour.
Definition MinuteOf (t : Z) : Z := (t mod Hour) / Minute.
Definition SecondOf (t : Z) : Z := (t mod Minute) / Second.
Definition NanosecondOf (t : Z) : Z := t mod Second.

(** Zero-padded decimal numbers. *)
Definition digit (n : Z) : Ascii.ascii := Ascii.ascii_of_N (Z.to_N (48 + n mod 10)).
Fixpoint pad (width : nat) (n : Z) : string :=
  match width with
  | O => EmptyString
  | S w => pad w (n / 10) +:+ String (digit n) EmptyString
  end.

(** [t.UTC().Format("20060102150405")], for years 0 to 9999. *)
Definition format_compact (t : Z) : string :=
  pad 4 (Year t) +:+ pad 2 (Month t) +:+ pad 2 (Day t) +:+
  pad 2 (HourOf t) +:+ pad 2 (MinuteOf t) +:+ pad 2 (SecondOf t).

(** [t.UTC().Format(time.RFC3339)], for years 0 to 9999. *)
Definition format_rfc3339 (t : Z) : string :=
  pad 4 (Year t) +:+ "-" +:+ pad 2 (Month t) +:+ "-" +:+ pad 2 (Day t) +:+ "T" +:+
  pad 2 (HourOf t) +:+ ":" +:+ pad 2 (MinuteOf t) +:+ ":" +:+ pad 2 (SecondOf t) +:+ "Z".

Example civil_epoch : civil 719162 = (1970, 1, 1).
Proof. reflexivity. Qed.
Example civil_zero : civil 0 = (1, 1, 1).
Proof. reflexivity. Qed.
Example civil_leap : civil (719162 + 11016) = (2000, 2, 29).
Proof. reflexivity. Qed.
End Time.

(** ** Facts the components share *)

Lemma sat_id d : Duration.minDuration <= d <= Duration.maxDuration -> Duration.sat d = d.
Proof. unfold Duration.sat. lia. Qed.

Lemma sat_pos d : 0 < Duration.sat d <-> 0 < d.
Proof. unfold Duration.sat, Duration.minDuration, Duration.maxDuration. lia. Qed.

Lemma sat_le_bound d b : b < Duration.maxDuration -> Duration.minDuration <= b ->
  (Duration.sat d <= b <-> d <= b).
Proof. unfold Duration.sat. lia. Qed.

Lemma length_pad w n : String.length (Time.pad w n) = w.
Proof.
  revert n; induction w as [|w IH]; intros n; simpl; [done|].
  rewrite string_length_app, IH. simpl. lia.
Qed.

Lemma length_format_compact t : String.length (Time.format_compact t) = 14%nat.
Proof. unfold Time.format_compact. rewrite !string_length_app, !length_pad. reflexivity. Qed.
