(* ===== verification/GoFloat.v ===== *)
(** * Go's float64

    A float64 is an IEEE-754 binary64 number in the standard library's
    executable specification ([SpecFloat], precision 53, maximal exponent
    1024). Comparison, arithmetic and the two formatting verbs the source uses
    ([strconv.FormatFloat] with verb 'f' and precision -1 or 1) are defined
    here, together with the order facts the checks rely on. *)

From Stdlib Require Import ZArith Lia String Ascii List.
From S2P Require Import Prelude.

Abbreviation float64 := spec_float.

Definition prec : Z := 53.
Definition emax : Z := 1024.

Definition feqb (x y : float64) : bool := SFeqb x y.
Definition fltb (x y : float64) : bool := SFltb x y.
Definition fleb (x y : float64) : bool := SFleb x y.
Definition fsub (x y : float64) : float64 := SFsub prec emax x y.
Definition fadd (x y : float64) : float64 := SFadd prec emax x y.
Definition fmul (x y : float64) : float64 := SFmul prec emax x y.
Definition fdiv (x y : float64) : float64 := SFdiv prec emax x y.
Definition fabs (x : float64) : float64 := SFabs x.

(** [float64(n)] for an integer. *)
Definition float_of_Z (n : Z) : float64 := binary_normalize prec emax n 0 false.

(** [finite]: neither NaN nor an infinity. *)
Definition finite (f : float64) : bool :=
  match f with S754_zero _ | S754_finite _ _ _ => true | _ => false end.

(** Zero of either sign. *)
Definition is_zero (f : float64) : bool := match f with S754_zero _ => true | _ => false end.

(** ** Decimal formatting *)

(** A positive float as a ratio of two positive integers. *)
Definition ratio_of (m : positive) (e : Z) : Z * Z :=
  if 0 <=? e then (Zpos m * 2 ^ e, 1) else (Zpos m, 2 ^ (- e)).

(** The float nearest to a ratio of positive integers (ties to even). *)
Definition float_of_ratio (neg : bool) (num den : positive) : float64 :=
  let '(q, e, l) := SFdiv_core_binary prec emax (Zpos num) 0 (Zpos den) 0 in
  binary_round_aux prec emax neg q e l.

(** The float nearest to [d * 10^k]. *)
Definition float_of_decimal (neg : bool) (d : Z) (k : Z) : float64 :=
  match d with
  | Zpos p =>
    if 0 <=? k then float_of_ratio neg (Z.to_pos (d * 10 ^ k)) 1
    else float_of_ratio neg p (Z.to_pos (10 ^ (- k)))
  | _ => S754_zero neg
  end.

(** Round half to even of a ratio. *)
Definition round_ratio (num den : Z) : Z :=
  let q := num / den in
  let r := num mod den in
  match (2 * r) ?= den with
  | Lt => q
  | Gt => q + 1
  | Eq => if Z.even q then q else q + 1
  end.

(** [num/den * 10^k], rounded. *)
Definition scaled (num den k : Z) : Z :=
  if 0 <=? k then round_ratio (num * 10 ^ k) den else round_ratio num (den * 10 ^ (- k)).

(** The decimal exponent [p] with [10^(p-1) <= num/den < 10^p], from an
    estimate at most two below it. *)
Definition ge_pow10 (num den p : Z) : bool :=
  if 0 <=? p then den * 10 ^ p <=? num else den <=? num * 10 ^ (- p).
Definition decimal_exponent (num den : Z) : Z :=
  let p0 := (Z.log2 num - Z.log2 den - 1) * 30103 / 100000 in
  let p1 := if ge_pow10 num den p0 then p0 + 1 else p0 in
  let p2 := if ge_pow10 num den p1 then p1 + 1 else p1 in
  if ge_pow10 num den p2 then p2 + 1 else p2.

(** The shortest digits that read back as the same float: (digits, exponent)
    with value digits * 10^exponent. Seventeen digits always suffice for a
    binary64. *)
Fixpoint shortest_from (f : float64) (num den p n : Z) (fuel : nat) : Z * Z :=
  let d := scaled num den (n - p) in
  match fuel with
  | O => (d, p - n)
  | S fuel =>
    if feqb (float_of_decimal false d (p - n)) f then (d, p - n)
    else shortest_from f num den p (n + 1) fuel
  end.
Definition shortest (m : positive) (e : Z) : Z * Z :=
  let '(num, den) := ratio_of m e in
  shortest_from (S754_finite false m e) num den (decimal_exponent num den) 1 16.

(** Decimal digits of a natural number, at least [width] of them. *)
Fixpoint zeros (n : nat) : string :=
  match n with O => EmptyString | S n => String "0" (zeros n) end.
Definition pad_left (width : Z) (s : string) : string :=
  zeros (Z.to_nat (width - Z.of_nat (String.length s))) +:+ s.

(** [digits * 10^k] in positional notation. *)
Definition positional (d k : Z) : string :=
  if 0 <=? k then pretty (d * 10 ^ k)
  else
    let s := pad_left (1 - k) (pretty d) in
    let n := (String.length s - Z.to_nat (- k))%nat in
    String.substring 0 n s +:+ "." +:+ String.substring n (Z.to_nat (- k)) s.

(** The conversion [int64(f)]: truncation; out of range, and for NaN, the value
    that amd64 answers. *)
Definition int_of_float (f : float64) : Z :=
  match f with
  | S754_zero _ => 0
  | S754_finite neg m e =>
    let '(num, den) := ratio_of m e in
    let n := (if neg : bool then -1 else 1) * (num / den) in
    if (- 2 ^ 63 <=? n) && (n <? 2 ^ 63) then n else - 2 ^ 63
  | _ => - 2 ^ 63
  end.

Definition sign_text (neg : bool) : string := if neg then "-" else "".

(** [strconv.FormatFloat(f, 'f', -1, 64)]. *)
Definition format_shortest (f : float64) : string :=
  match f with
  | S754_zero s => sign_text s +:+ "0"
  | S754_infinity s => if s then "-Inf" else "+Inf"
  | S754_nan => "NaN"
  | S754_finite s m e => let '(d, k) := shortest m e in sign_text s +:+ positional d k
  end.

(** [strconv.FormatFloat(f, 'f', 1, 64)]. *)
Definition format_fixed1 (f : float64) : string :=
  match f with
  | S754_zero s => sign_text s +:+ "0.0"
  | S754_infinity s => if s then "-Inf" else "+Inf"
  | S754_nan => "NaN"
  | S754_finite s m e =>
    let '(num, den) := ratio_of m e in sign_text s +:+ positional (scaled num den 1) (-1)
  end.

(** The value of an integer literal written in the source or a witness. *)
Example format_int : format_shortest (float_of_Z 1204331) = "1204331".
Proof. vm_compute. reflexivity. Qed.
Example format_half : format_shortest (float_of_decimal false 15 (-1)) = "1.5".
Proof. vm_compute. reflexivity. Qed.
Example format_tenth : format_shortest (float_of_decimal true 1 (-1)) = "-0.1".
Proof. vm_compute. reflexivity. Qed.
Example format_big : format_shortest (float_of_decimal false 1 21) = "1000000000000000000000".
Proof. vm_compute. reflexivity. Qed.
Example format_denormal : format_shortest (S754_finite false 1 (-1074)) =
  "0." +:+ zeros 323 +:+ "5".
Proof. vm_compute. reflexivity. Qed.
Example format_pct : format_fixed1 (float_of_decimal false 20000000000000004 (-15)) = "20.0".
Proof. vm_compute. reflexivity. Qed.

(** ** The order of the finite floats *)

(** A finite float as a point of the lexicographic order: sign, exponent,
    significand. *)
Definition key (f : float64) : Z * Z * Z :=
  match f with
  | S754_finite false m e => (1, e, Zpos m)
  | S754_finite true m e => (-1, - e, - Zpos m)
  | _ => (0, 0, 0)
  end.
Definition key_le (a b : Z * Z * Z) : Prop :=
  a.1.1 < b.1.1 \/ (a.1.1 = b.1.1 /\ (a.1.2 < b.1.2 \/ (a.1.2 = b.1.2 /\ a.2 <= b.2))).

Lemma fleb_key x y : finite x = true -> finite y = true -> (fleb x y = true <-> key_le (key x) (key y)).
Proof.
  unfold fleb, SFleb, SFcompare, key_le.
  destruct x as [?|?| |[] m1 e1], y as [?|?| |[] m2 e2]; cbn; intros Hx Hy; try done; try lia;
    try (split; [done | lia]).
  all: change (Pos.compare_cont Eq m1 m2) with (Pos.compare m1 m2);
    destruct (Z.compare_spec e1 e2), (Pos.compare_spec m1 m2); cbn; subst; split; intros H'; try done; lia.
Qed.

Lemma fltb_fleb x y : finite x = true -> finite y = true -> fltb x y = negb (fleb y x).
Proof.
  unfold fltb, fleb, SFltb, SFleb, SFcompare.
  destruct x as [[]|?| |[] m1 e1], y as [[]|?| |[] m2 e2]; cbn; intros; try done.
  all: change (Pos.compare_cont Eq m1 m2) with (Pos.compare m1 m2);
    change (Pos.compare_cont Eq m2 m1) with (Pos.compare m2 m1);
    rewrite (Z.compare_antisym e1 e2), (Pos.compare_antisym m1 m2);
    destruct (Z.compare e1 e2), (Pos.compare m1 m2); done.
Qed.

Lemma fleb_total x y : finite x = true -> finite y = true -> fleb x y = true \/ fleb y x = true.
Proof. intros Hx Hy. rewrite !fleb_key by done. unfold key_le. lia. Qed.

Lemma fleb_trans x y z : finite x = true -> finite y = true -> finite z = true ->
  fleb x y = true -> fleb y z = true -> fleb x z = true.
Proof. intros Hx Hy Hz. rewrite !fleb_key by done. unfold key_le. lia. Qed.

Lemma fleb_refl x : finite x = true -> fleb x x = true.
Proof. intros Hx. rewrite fleb_key by done. unfold key_le. lia. Qed.

(** A comparison with what is not a number is false, whatever it is. *)
Lemma fleb_nan_l y : fleb S754_nan y = false.
Proof. reflexivity. Qed.
Lemma fleb_nan_r x : fleb x S754_nan = false.
Proof. by destruct x. Qed.

(** A nonzero float divided by itself is one. *)
Definition fone : float64 := float_of_Z 1.
Lemma fdiv_self m e : fdiv (S754_finite false m e) (S754_finite false m e) = fone.
Proof.
  unfold fdiv, SFdiv, SFdiv_core_binary. rewrite !Z.sub_diag. cbn [xorb].
  change (Z.min (fexp prec emax 0) 0) with (-53). change (0 - -53) with 53.
  cbv iota. rewrite Z.shiftl_mul_pow2 by lia.
  pose proof (Z_div_mod (Z.pos m * 2 ^ 53) (Z.pos m) ltac:(lia)) as Hd.
  destruct (Z.div_eucl (Z.pos m * 2 ^ 53) (Z.pos m)) as [q r]. destruct Hd as [E Hr].
  assert (Hq : q = 2 ^ 53).
  { generalize dependent (2 ^ 53). intros K E. assert (Z.pos m * (K - q) = r) by lia.
    destruct (Z.lt_trichotomy (K - q) 0) as [?|[?|?]]; nia. }
  assert (r = 0) as -> by (subst q; lia). subst q.
  assert (new_location (Z.pos m) 0 = loc_Exact) as ->.
  { unfold new_location, new_location_even, new_location_odd. by destruct (Z.even _). }
  vm_compute. reflexivity.
Qed.

(** ** Integers below 2^53 are exact *)

Section Exact.
Abbreviation bits p := (Zpos (digits2_pos p)).
Lemma bits_bounds p : 2 ^ (bits p - 1) <= Zpos p < 2 ^ bits p.
Proof.
  induction p as [p IH|p IH|]; cbn [digits2_pos]; [| |done].
  all: rewrite Pos2Z.inj_succ; replace (Z.succ (bits p) - 1) with (Z.succ (bits p - 1)) by lia; rewrite !Z.pow_succ_r by lia; lia.
Qed.
Lemma bits_unique p d : 2 ^ (d - 1) <= Zpos p < 2 ^ d -> bits p = d.
Proof.
  intros Hd. pose proof (bits_bounds p) as Hb.
  assert (0 <= d) by (destruct (Z.lt_ge_cases d 0); [rewrite (Z.pow_neg_r 2 d) in Hd; lia|done]).
  assert (bits p - 1 < d) by (apply (Z.pow_lt_mono_r_iff 2); lia).
  assert (d - 1 < bits p) by (apply (Z.pow_lt_mono_r_iff 2); lia). lia.
Qed.
Lemma bits_scaled p q s : 0 <= s -> Zpos q = Zpos p * 2 ^ s -> bits q = bits p + s.
Proof.
  intros Hs E. apply bits_unique. pose proof (bits_bounds p) as Hb. rewrite E.
  replace (bits p + s - 1) with (bits p - 1 + s) by lia. rewrite !Z.pow_add_r by lia. pose proof (Z.pow_pos_nonneg 2 s). nia.
Qed.

(** Shifting out zeros loses nothing. *)
Lemma shr_1_exact z : 0 <= z -> shr_1 (Build_shr_record (2 * z) false false) = Build_shr_record z false false.
Proof. intros Hz. by destruct z. Qed.
Lemma iter_shr_exact n z : 0 <= z -> SpecFloat.iter_pos shr_1 n (Build_shr_record (z * 2 ^ Zpos n) false false) = Build_shr_record z false false.
Proof.
  revert z. induction n as [n IH|n IH|]; intros z Hz; cbn [SpecFloat.iter_pos].
  - replace (z * 2 ^ Zpos (n~1)) with (2 * (z * 2 ^ Zpos n * 2 ^ Zpos n)).
    + rewrite shr_1_exact by (pose proof (Z.pow_pos_nonneg 2 (Zpos n)); nia). rewrite IH by (pose proof (Z.pow_pos_nonneg 2 (Zpos n)); nia). by apply IH.
    + replace (Zpos (n~1)) with (1 + Zpos n + Zpos n) by lia. rewrite !Z.pow_add_r by lia. lia.
  - replace (z * 2 ^ Zpos (n~0)) with (z * 2 ^ Zpos n * 2 ^ Zpos n).
    + rewrite IH by (pose proof (Z.pow_pos_nonneg 2 (Zpos n)); nia). by apply IH.
    + replace (Zpos (n~0)) with (Zpos n + Zpos n) by lia. rewrite Z.pow_add_r by lia. lia.
  - rewrite Z.pow_1_r, Z.mul_comm. by apply shr_1_exact.
Qed.
(** A mantissa of more than 53 bits whose last ones are zeros is rounded to its first
    53 bits. *)
Lemma round_exact m q k e : bits m = 53 -> 0 <= k -> - 1000 <= e + k <= 900 -> Zpos q = Zpos m * 2 ^ k ->
  binary_round_aux prec emax false (Zpos q) e loc_Exact = S754_finite false m (e + k).
Proof.
  intros Hm Hk He Hq. pose proof (bits_scaled m q k Hk Hq) as Hb. unfold binary_round_aux, shr_fexp. cbn [Zdigits2 shr_record_of_loc].
  unfold fexp, emin, prec, emax. rewrite Hb, Hm, Z.max_l by lia. replace (53 + k + e - 53 - e) with k by lia.
  assert (shr (Build_shr_record (Zpos q) false false) e k = (Build_shr_record (Zpos m) false false, e + k)) as ->.
  { destruct k as [|k|]; [|cbn [shr]; by rewrite Hq, iter_shr_exact|lia]. cbn. rewrite Hq. f_equal; [f_equal; lia|lia]. }
  cbn [shr_m loc_of_shr_record round_nearest_even Zdigits2]. rewrite Hm, Z.max_l by lia.
  replace (53 + (e + k) - 53 - (e + k)) with 0 by lia. cbn [shr shr_m].
  destruct (Z.leb_spec (e + k) (1024 - 53)); [done|lia].
Qed.

(** The mantissa of an integer, and its exponent. *)
Definition scaled_to (p m : positive) : Prop := Zpos m = Zpos p * 2 ^ (53 - bits p).
Lemma iter_xO_mul p d : Zpos (Pos.iter xO p d) = Zpos p * 2 ^ Zpos d.
Proof.
  revert p. induction d as [|d IH] using Pos.peano_ind; intros p; [rewrite Z.pow_1_r; cbn; lia|].
  rewrite Pos.iter_succ, Pos2Z.inj_xO, IH, Pos2Z.inj_succ, Z.pow_succ_r by lia. lia.
Qed.
Lemma float_of_pos p : Zpos p < 2 ^ 53 -> exists m, scaled_to p m /\ bits m = 53 /\ float_of_Z (Zpos p) = S754_finite false m (bits p - 53).
Proof.
  intros Hp. pose proof (bits_bounds p) as Hb. assert (bits p <= 53) as Hd.
  { assert (bits p - 1 < 53); [|lia]. apply (Z.pow_lt_mono_r_iff 2); lia. }
  assert (0 < Zpos p * 2 ^ (53 - bits p)) as Hpos by (pose proof (Z.pow_pos_nonneg 2 (53 - bits p)); nia).
  exists (Z.to_pos (Zpos p * 2 ^ (53 - bits p))). unfold scaled_to. rewrite Z2Pos.id by done. split; [done|].
  assert (bits (Z.to_pos (Zpos p * 2 ^ (53 - bits p))) = 53) as Hm.
  { rewrite (bits_scaled p _ (53 - bits p)); [lia|lia|by rewrite Z2Pos.id]. }
  split; [done|]. unfold float_of_Z, binary_normalize, binary_round.
  unfold fexp at 1, emin, prec at 1, emax at 1. rewrite Z.add_0_r, Z.max_l by (unfold prec, emax; lia).
  assert (shl_align p 0 (bits p - 53) = (Z.to_pos (Zpos p * 2 ^ (53 - bits p)), bits p - 53)) as ->.
  { unfold shl_align. rewrite Z.sub_0_r. destruct (bits p - 53) as [|k|k] eqn:Ek; [|lia|].
    - replace (53 - bits p) with 0 by lia. rewrite Z.pow_0_r, Z.mul_1_r. done.
    - replace (53 - bits p) with (Zpos k) by lia. by rewrite <- iter_xO_mul. }
  rewrite (round_exact (Z.to_pos (Zpos p * 2 ^ (53 - bits p))) _ 0 (bits p - 53)); [by rewrite Z.add_0_r|done|done|lia|lia].
Qed.
(** The product of two integers, below 2^53, and what an integer is converted back to. *)
Lemma fmul_exact a b : 0 < a -> 0 < b -> a * b < 2 ^ 53 -> fmul (float_of_Z a) (float_of_Z b) = float_of_Z (a * b).
Proof.
  intros Ha Hb Hab. destruct a as [|a|a]; [lia| |lia]. destruct b as [|b|b]; [lia| |lia].
  destruct (float_of_pos a) as (ma & Sa & Ba & ->); [nia|]. destruct (float_of_pos b) as (mb & Sb & Bb & ->); [nia|].
  change (Zpos a * Zpos b) with (Zpos (a * b)) in *. destruct (float_of_pos (a * b)) as (m & S & B & ->); [done|].
  unfold scaled_to in *. unfold fmul, SFmul. cbn [xorb].
  pose proof (bits_bounds a). pose proof (bits_bounds b). pose proof (bits_bounds (a * b)).
  assert (bits a <= 53 /\ bits b <= 53 /\ bits (a * b) <= 53) as (Da & Db & Dab).
  { split_and!; (assert (forall x, bits x - 1 < 53 -> bits x <= 53) as Hx by lia; apply Hx; apply (Z.pow_lt_mono_r_iff 2); [lia|lia|nia]). }
  assert (bits (a * b) <= bits a + bits b) as Hs.
  { assert (bits (a * b) - 1 < bits a + bits b); [|lia]. apply (Z.pow_lt_mono_r_iff 2); [lia|lia|]. rewrite Z.pow_add_r by lia. nia. }
  assert (bits a - 1 + (bits b - 1) < bits (a * b)) as Hl.
  { apply (Z.pow_lt_mono_r_iff 2); [lia|lia|]. rewrite Z.pow_add_r by lia. nia. }
  rewrite (round_exact m (ma * mb) (53 - bits a + (53 - bits b) - (53 - bits (a * b))) (bits a - 53 + (bits b - 53))).
  - f_equal. lia.
  - done.
  - lia.
  - lia.
  - change (Zpos (ma * mb)) with (Zpos ma * Zpos mb). rewrite Sa, Sb, S. change (Zpos (a * b)) with (Zpos a * Zpos b).
    rewrite Z.mul_assoc. replace (Zpos a * 2 ^ (53 - bits a) * Zpos b * 2 ^ (53 - bits b))
      with (Zpos a * Zpos b * (2 ^ (53 - bits a) * 2 ^ (53 - bits b))) by lia.
    rewrite <- (Z.mul_assoc (Zpos a * Zpos b) (2 ^ (53 - bits (a * b)))), <- !Z.pow_add_r by lia. f_equal. f_equal. lia.
Qed.
Lemma int_of_float_of_Z n : 0 <= n < 2 ^ 53 -> int_of_float (float_of_Z n) = n.
Proof.
  intros Hn. destruct n as [|p|p]; [done| |lia]. destruct (float_of_pos p) as (m & S & B & ->); [lia|]. unfold scaled_to in S.
  pose proof (bits_bounds p). assert (bits p <= 53) as Hd.
  { assert (bits p - 1 < 53); [|lia]. apply (Z.pow_lt_mono_r_iff 2); lia. }
  unfold int_of_float, ratio_of. destruct (Z.leb_spec 0 (bits p - 53)).
  - replace (bits p - 53) with 0 by lia. replace (53 - bits p) with 0 in S by lia. rewrite Z.pow_0_r, Z.mul_1_r, Z.div_1_r, Z.mul_1_l.
    rewrite Z.pow_0_r in S. destruct (_ && _) eqn:E; lia.
  - replace (- (bits p - 53)) with (53 - bits p) by lia. rewrite S, Z.div_mul, Z.mul_1_l by (apply Z.pow_nonzero; lia).
    destruct (_ && _) eqn:E; lia.
Qed.
End Exact.
