(* ===== verification/Errors.v ===== *)
(** * Errors: sentinels, wrapping and [errors.Is]

    Models the errors of internal/core/errors.go and the sentinels the engine,
    the store and the context package add to them. An error is the chain Go
    builds: [fmt.Errorf] with [%w] keeps the wrapped error, [errors.Join] keeps
    all of them, [core.Retryable] marks one as safe to retry. *)

From Stdlib Require Import ZArith String List.
From S2P Require Import Prelude.

(** The sentinel errors compared by identity. *)
Inductive sentinel : Type :=
| ErrNotFound | ErrNoBackup | ErrNotManaged | ErrNetworkNotIsolated | ErrIsolationUnverified
| ErrUnauthorized | ErrInsufficientCapacity | ErrUnsupported | ErrGuestAgentUnavailable
| ErrTimeout | ErrCancelled
| errChecksInconclusive
| context_Canceled | context_DeadlineExceeded.

#[export] Instance sentinel_eq_dec : EqDecision sentinel.
Proof. solve_decision. Defined.

Definition sentinel_text (s : sentinel) : string :=
  match s with
  | ErrNotFound => "not found"
  | ErrNoBackup => "no backup available"
  | ErrNotManaged => "resource is not managed by restorelab"
  | ErrNetworkNotIsolated => "restore network is not isolated"
  | ErrIsolationUnverified => "network isolation could not be verified"
  | ErrUnauthorized => "unauthorized"
  | ErrInsufficientCapacity => "insufficient capacity"
  | ErrUnsupported => "unsupported operation"
  | ErrGuestAgentUnavailable => "guest agent unavailable"
  | ErrTimeout => "timeout"
  | ErrCancelled => "cancelled"
  | errChecksInconclusive => "critical check(s) could not run"
  | context_Canceled => "context canceled"
  | context_DeadlineExceeded => "context deadline exceeded"
  end.

Inductive error : Type :=
| ESentinel (s : sentinel)               (* errors.New, compared by identity *)
| ENew (t : text)                        (* any other leaf error *)
| EWrap (t : text) (inner : error)       (* fmt.Errorf("... %w ...") *)
| ERetryable (inner : error)             (* core.RetryableError *)
| EJoin (e1 e2 : error).                 (* errors.Join of two errors *)

(** [err.Error()]. *)
Fixpoint Error (e : error) : text :=
  match e with
  | ESentinel s => Lit (sentinel_text s)
  | ENew t => t
  | EWrap t _ => t
  | ERetryable e => Error e
  | EJoin e1 e2 => Sprintf "%s\n%s" [AText (Error e1); AText (Error e2)]
  end.

(** The value of a fallible call, mapped. *)
Definition on_ok {A B} (f : A -> B) (r : error + A) : error + B := match r with inl e => inl e | inr a => inr (f a) end.

(** [errors.Is(e, target)] for a sentinel target. *)
Fixpoint Is (e : error) (target : sentinel) : bool :=
  match e with
  | ESentinel s => bool_decide (s = target)
  | ENew _ => false
  | EWrap _ e => Is e target
  | ERetryable e => Is e target
  | EJoin e1 e2 => Is e1 target || Is e2 target
  end.

(** [core.Retryable]: nil stays nil. *)
Definition Retryable (err : option error) : option error := ERetryable <$> err.

(** [core.IsRetryable]: [errors.As] with a [*RetryableError] target. *)
Fixpoint IsRetryable (e : error) : bool :=
  match e with
  | ESentinel _ | ENew _ => false
  | EWrap _ e => IsRetryable e
  | ERetryable _ => true
  | EJoin e1 e2 => IsRetryable e1 || IsRetryable e2
  end.

(** The wrapping [fmt.Errorf("%w: <rest>", s, ...)] of a sentinel. *)
Definition wrap_sentinel (s : sentinel) (fmt : string) (args : list arg) : error :=
  EWrap (Sprintf fmt (AStr (sentinel_text s) :: args)) (ESentinel s).

Lemma Is_retryable e t : Is (ERetryable e) t = Is e t.
Proof. reflexivity. Qed.
