(* ===== verification/Core.v ===== *)
(** * The domain model

    Models internal/core: types.go, run.go, proof.go and check.go. Every string
    enum of the Go code is an inductive type with a constructor per constant. *)

From Stdlib Require Import ZArith Lia String Ascii List.
From S2P Require Import Prelude GoTime Errors.

(** ** Workloads, backups and statuses (types.go) *)

Inductive PowerState := PowerStateRunning | PowerStateStopped | PowerStatePaused | PowerStateUnknown.

#[export] Instance PowerState_eq_dec : EqDecision PowerState.
Proof. solve_decision. Defined.

Record Node := mkNode {
  node_ID : string;
  node_Name : string;
  node_Cluster : string;
  node_Online : bool;
  node_CPUCores : Z;
  node_CPUUsage : spec_float;
  node_MemoryTotalBytes : Z;
  node_MemoryUsedBytes : Z;
  node_DiskTotalBytes : Z;
  node_DiskUsedBytes : Z;
}.

(** [Node.MemoryFreeBytes]: what is left, floored at zero (64-bit subtraction). *)
Definition MemoryFreeBytes (n : Node) : Z :=
  let free := Duration.wrap (node_MemoryTotalBytes n - node_MemoryUsedBytes n) in
  if 0 <? free then free else 0.

Inductive WorkloadKind := WorkloadKindVM | WorkloadKindContainer | WorkloadKindUnknown.

Record Workload := mkWorkload {
  wl_ID : string;
  wl_Name : string;
  wl_Kind : WorkloadKind;
  wl_Node : string;
  wl_Cluster : string;
  wl_Tags : list string;
  wl_CPUCores : Z;
  wl_MemoryBytes : Z;
  wl_DiskBytes : Z;
  wl_PowerState : PowerState;
  wl_Template : bool;
  wl_Managed : bool;
  wl_RecoveryRunID : string;
}.

Inductive VerificationState := VerificationOK | VerificationFailed | VerificationNone | VerificationUnknown.
#[export] Instance VerificationState_eq_dec : EqDecision VerificationState.
Proof. solve_decision. Defined.

Record Backup := mkBackup {
  bk_ID : string;
  bk_WorkloadID : string;
  bk_ProviderID : string;
  bk_Datastore : string;
  bk_Node : string;
  bk_CreatedAt : Z;
  bk_SizeBytes : Z;
  bk_Protected : bool;
  bk_Encrypted : bool;
  bk_Verified : VerificationState;
  bk_Format : string;
  bk_Notes : string;
}.

Record NetworkConfig := mkNetworkConfig {
  net_Bridge : string;
  net_Model : string;
  net_VLANTag : Z;
  net_Firewall : bool;
  net_Isolated : bool;
}.

Record RestoreOptions := mkRestoreOptions {
  ro_TargetWorkloadID : string;
  ro_Name : string;
  ro_Node : string;
  ro_Storage : string;
  ro_Pool : string;
  ro_Network : NetworkConfig;
  ro_CPULimit : Z;
  ro_MemoryLimitMB : Z;
  ro_BandwidthKiBps : Z;
  ro_Start : bool;
  ro_Metadata : gmap string string;
}.

Record RestoreJob := mkRestoreJob {
  job_ID : string;
  job_WorkloadID : string;
  job_Node : string;
  job_StartedAt : Z;
}.

Record TaskState := mkTaskState {
  task_ID : string;
  task_Running : bool;
  task_Success : bool;
  task_ExitCode : string;
  task_Message : string;
}.

Record WorkloadStatus := mkWorkloadStatus {
  ws_ID : string;
  ws_PowerState : PowerState;
  ws_Uptime : Z;
  ws_AgentReady : bool;
  ws_IPs : list string;
  ws_CPUUsage : spec_float;
  ws_MemoryBytes : Z;
}.

(** [isIPv6]: the address holds a colon. *)
Fixpoint isIPv6 (ip : string) : bool :=
  match ip with
  | EmptyString => false
  | String c rest => if Ascii.eqb c ":"%char then true else isIPv6 rest
  end.

(** [WorkloadStatus.PrimaryIP]: the first IPv4 address, else the first one. *)
Fixpoint first_ipv4 (ips : list string) : option string :=
  match ips with
  | [] => None
  | ip :: rest => if negb (isIPv6 ip) then Some ip else first_ipv4 rest
  end.
Definition PrimaryIP (s : WorkloadStatus) : string :=
  match first_ipv4 (ws_IPs s) with
  | Some ip => ip
  | None => match ws_IPs s with ip :: _ => ip | [] => EmptyString end
  end.

(** ** Proof levels (proof.go) *)

(** [ProofOther] stands for a level read back from storage that this build does
    not recognise. *)
Inductive ProofLevel :=
| ProofUnknown | ProofNone | ProofBoot | ProofService | ProofData
| ProofOther (s : string).

#[export] Instance ProofLevel_eq_dec : EqDecision ProofLevel.
Proof. solve_decision. Defined.

Definition Rank (l : ProofLevel) : Z :=
  match l with
  | ProofNone => 0 | ProofBoot => 1 | ProofService => 2 | ProofData => 3
  | ProofUnknown | ProofOther _ => -1
  end.

Definition Recorded (l : ProofLevel) : bool := 0 <=? Rank l.
Definition AtLeast (l other : ProofLevel) : bool := Rank other <=? Rank l.
Definition Raise (l other : ProofLevel) : ProofLevel :=
  if Rank l <? Rank other then other else l.

(** The conversion [ProofLevel(s)] of a Go string. *)
Definition ProofLevel_of_string (s : string) : ProofLevel :=
  if bool_decide (s = "") then ProofUnknown
  else if bool_decide (s = "NONE") then ProofNone
  else if bool_decide (s = "BOOT") then ProofBoot
  else if bool_decide (s = "SERVICE") then ProofService
  else if bool_decide (s = "DATA") then ProofData
  else ProofOther s.

Definition ProofLevel_to_string (l : ProofLevel) : string :=
  match l with
  | ProofUnknown => "" | ProofNone => "NONE" | ProofBoot => "BOOT"
  | ProofService => "SERVICE" | ProofData => "DATA" | ProofOther s => s
  end.

Definition ParseProofLevel (s : string) : ProofLevel * bool :=
  let l := ProofLevel_of_string s in
  if bool_decide (l = ProofUnknown) || Recorded l then (l, true) else (ProofUnknown, false).

(** [ProofLevel.String]. *)
Definition ProofLevel_String (l : ProofLevel) : string :=
  if bool_decide (l = ProofUnknown) then "not recorded" else ProofLevel_to_string l.

Definition Describe (l : ProofLevel) : string :=
  match l with
  | ProofNone => "nothing was verified inside the guest"
  | ProofBoot => "only the boot was verified"
  | ProofService => "the service was verified, the data was not"
  | ProofData => "the service and its data were verified"
  | ProofUnknown | ProofOther _ => "the proof level was not recorded"
  end.

(** ** Checks (check.go) *)

(** A value decoded from YAML into Go's [any]. *)
Inductive any : Type :=
| AnyNil
| AnyString (s : string)
| AnyInt (z : Z)
| AnyFloat (f : spec_float)
| AnyBool (b : bool)
| AnyList (l : list any)
| AnyMap (l : list (string * any)).

#[export] Instance float_eq_dec : EqDecision spec_float.
Proof. solve_decision. Defined.
#[export] Instance any_eq_dec : EqDecision any.
Proof.
  refine (fix go (a b : any) : Decision (a = b) :=
    let _ : EqDecision any := @go in
    match a, b return Decision (a = b) with
    | AnyNil, AnyNil => left eq_refl
    | AnyString s, AnyString s' => cast_if (decide (s = s'))
    | AnyInt z, AnyInt z' => cast_if (decide (z = z'))
    | AnyFloat f, AnyFloat f' => cast_if (decide (f = f'))
    | AnyBool x, AnyBool x' => cast_if (decide (x = x'))
    | AnyList l, AnyList l' => cast_if (decide (l = l'))
    | AnyMap l, AnyMap l' => cast_if (decide (l = l'))
    | _, _ => right _
    end);
  match goal with r : EqDecision any |- _ => clear r end; clear go; abstract congruence.
Defined.

Definition Params := gmap string any.

Record AssertSpec := mkAssertSpec {
  as_Min : option spec_float;
  as_Max : option spec_float;
  as_Equals : option spec_float;
}.

(** [AssertSpec.Any] on a nilable pointer. *)
Definition AssertAny (a : option AssertSpec) : bool :=
  match a with
  | None => false
  | Some a => bool_decide (as_Min a <> None) || bool_decide (as_Max a <> None)
              || bool_decide (as_Equals a <> None)
  end.

Record DriftSpec := mkDriftSpec { ds_MaxDrop : spec_float; ds_MaxDropIsPercent : bool }.

Record CheckConfig := mkCheckConfig {
  cc_Type : string;
  cc_Name : string;
  cc_Timeout : Z;
  cc_Retries : Z;
  cc_RetryInterval : Z;
  cc_Critical : bool;
  cc_Params : Params;
  cc_Proves : ProofLevel;
  cc_Capture : string;
  cc_Assert : option AssertSpec;
  cc_Drift : option DriftSpec;
}.

Inductive CheckStatus := CheckPass | CheckFail | CheckError | CheckSkipped.

#[export] Instance CheckStatus_eq_dec : EqDecision CheckStatus.
Proof. solve_decision. Defined.

(** A value of [CheckResult.Details]: a map of numbers, or anything else. *)
Inductive detail := DNumbers (m : gmap string spec_float) | DOther (t : text).

Record CheckResult := mkCheckResult {
  cr_Name : string;
  cr_Type : string;
  cr_Status : CheckStatus;
  cr_StartedAt : Z;
  cr_CompletedAt : Z;
  cr_Duration : Z;
  cr_Attempts : Z;
  cr_Message : text;
  cr_Details : gmap string detail;
}.

(** [CheckResult.OK]. *)
Definition OK (r : CheckResult) : bool := bool_decide (cr_Status r = CheckPass).

Record ProofCheck := mkProofCheck { pc_Config : CheckConfig; pc_Result : CheckResult }.

(** [ProvenBy]: the highest level among the checks that passed. *)
Definition ProvenBy (checks : list ProofCheck) : ProofLevel :=
  fold_left (fun level c => if OK (pc_Result c) then Raise level (cc_Proves (pc_Config c)) else level)
    checks ProofNone.

(** ** Runs (run.go) *)

Inductive RunState :=
| RunStateEmpty
| RunQueued | RunDiscoveringBackup | RunPreparing | RunRestoring | RunStarting
| RunWaitingForGuest | RunRunningChecks | RunGeneratingReport | RunCleaningUp
| RunSuccess | RunFailed | RunCancelled | RunCleanupFailed | RunInconclusive.

#[export] Instance RunState_eq_dec : EqDecision RunState.
Proof. solve_decision. Defined.

Definition RunState_to_string (s : RunState) : string :=
  match s with
  | RunStateEmpty => ""
  | RunQueued => "QUEUED"
  | RunDiscoveringBackup => "DISCOVERING_BACKUP"
  | RunPreparing => "PREPARING_ENVIRONMENT"
  | RunRestoring => "RESTORING"
  | RunStarting => "STARTING"
  | RunWaitingForGuest => "WAITING_FOR_GUEST"
  | RunRunningChecks => "RUNNING_CHECKS"
  | RunGeneratingReport => "GENERATING_REPORT"
  | RunCleaningUp => "CLEANING_UP"
  | RunSuccess => "SUCCESS"
  | RunFailed => "FAILED"
  | RunCancelled => "CANCELLED"
  | RunCleanupFailed => "CLEANUP_FAILED"
  | RunInconclusive => "INCONCLUSIVE"
  end.

(** [RunState.Terminal]. *)
Definition Terminal (s : RunState) : bool :=
  match s with
  | RunSuccess | RunFailed | RunCancelled | RunCleanupFailed | RunInconclusive => true
  | _ => false
  end.

Inductive StepStatus := StepStatusEmpty | StepPending | StepRunning | StepDone | StepFailed | StepSkipped.

#[export] Instance StepStatus_eq_dec : EqDecision StepStatus.
Proof. solve_decision. Defined.

Record Step := mkStep {
  st_Name : string;
  st_State : RunState;
  st_Status : StepStatus;
  st_StartedAt : Z;
  st_CompletedAt : Z;
  st_Duration : Z;
  st_Message : text;
  st_Err : text;
  st_Details : gmap string detail;
}.

(** [ResultNone] is the empty [RunResult]: no verdict. *)
Inductive RunResult := ResultNone | ResultSuccess | ResultDegraded | ResultFailed.

#[export] Instance RunResult_eq_dec : EqDecision RunResult.
Proof. solve_decision. Defined.

Record RecoveryRun := mkRecoveryRun {
  run_ID : string;
  run_PlanName : string;
  run_PlanID : string;
  run_PlanVersion : Z;
  run_ProviderID : string;
  run_BackupProviderID : string;
  run_SourceWorkloadID : string;
  run_SourceName : string;
  run_TempWorkloadID : string;
  run_TempName : string;
  run_Node : string;
  run_Backup : option Backup;
  run_State : RunState;
  run_Result : RunResult;
  run_ProofLevel : ProofLevel;
  run_StartedAt : Z;
  run_CompletedAt : Z;
  run_Steps : list Step;
  run_Checks : list CheckResult;
  run_RTO : Z;
  run_RTOTarget : Z;
  run_CleanupDone : bool;
  run_Err : text;
}.

(** [RecoveryRun.RTOExceeded]. *)
Definition RTOExceeded (r : RecoveryRun) : bool :=
  (0 <? run_RTOTarget r) && (run_RTOTarget r <? run_RTO r).

(** [RecoveryRun.StepDuration]. *)
Fixpoint step_duration (steps : list Step) (name : string) : Z :=
  match steps with
  | [] => 0
  | s :: rest => if bool_decide (st_Name s = name) then st_Duration s else step_duration rest name
  end.
Definition StepDuration (r : RecoveryRun) (name : string) : Z := step_duration (run_Steps r) name.

(** [RecoveryRun.FailedChecks]. *)
Definition FailedChecks (r : RecoveryRun) : list CheckResult :=
  List.filter (fun c => negb (OK c)) (run_Checks r).

(** ** Field updates of a run *)

Definition set_PlanID (v : string) (r : RecoveryRun) : RecoveryRun :=
    mkRecoveryRun (run_ID r) (run_PlanName r) v (run_PlanVersion r) (run_ProviderID r)
    (run_BackupProviderID r) (run_SourceWorkloadID r) (run_SourceName r) (run_TempWorkloadID
    r) (run_TempName r) (run_Node r) (run_Backup r) (run_State r) (run_Result r)
    (run_ProofLevel r) (run_StartedAt r) (run_CompletedAt r) (run_Steps r) (run_Checks r)
    (run_RTO r) (run_RTOTarget r) (run_CleanupDone r) (run_Err r).
Definition set_PlanVersion (v : Z) (r : RecoveryRun) : RecoveryRun :=
    mkRecoveryRun (run_ID r) (run_PlanName r) (run_PlanID r) v (run_ProviderID r)
    (run_BackupProviderID r) (run_SourceWorkloadID r) (run_SourceName r) (run_TempWorkloadID
    r) (run_TempName r) (run_Node r) (run_Backup r) (run_State r) (run_Result r)
    (run_ProofLevel r) (run_StartedAt r) (run_CompletedAt r) (run_Steps r) (run_Checks r)
    (run_RTO r) (run_RTOTarget r) (run_CleanupDone r) (run_Err r).
Definition set_SourceName (v : string) (r : RecoveryRun) : RecoveryRun :=
    mkRecoveryRun (run_ID r) (run_PlanName r) (run_PlanID r) (run_PlanVersion r)
    (run_ProviderID r) (run_BackupProviderID r) (run_SourceWorkloadID r) v (run_TempWorkloadID
    r) (run_TempName r) (run_Node r) (run_Backup r) (run_State r) (run_Result r)
    (run_ProofLevel r) (run_StartedAt r) (run_CompletedAt r) (run_Steps r) (run_Checks r)
    (run_RTO r) (run_RTOTarget r) (run_CleanupDone r) (run_Err r).
Definition set_TempWorkloadID (v : string) (r : RecoveryRun) : RecoveryRun :=
    mkRecoveryRun (run_ID r) (run_PlanName r) (run_PlanID r) (run_PlanVersion r)
    (run_ProviderID r) (run_BackupProviderID r) (run_SourceWorkloadID r) (run_SourceName r) v
    (run_TempName r) (run_Node r) (run_Backup r) (run_State r) (run_Result r) (run_ProofLevel
    r) (run_StartedAt r) (run_CompletedAt r) (run_Steps r) (run_Checks r) (run_RTO r)
    (run_RTOTarget r) (run_CleanupDone r) (run_Err r).
Definition set_TempName (v : string) (r : RecoveryRun) : RecoveryRun :=
    mkRecoveryRun (run_ID r) (run_PlanName r) (run_PlanID r) (run_PlanVersion r)
    (run_ProviderID r) (run_BackupProviderID r) (run_SourceWorkloadID r) (run_SourceName r)
    (run_TempWorkloadID r) v (run_Node r) (run_Backup r) (run_State r) (run_Result r)
    (run_ProofLevel r) (run_StartedAt r) (run_CompletedAt r) (run_Steps r) (run_Checks r)
    (run_RTO r) (run_RTOTarget r) (run_CleanupDone r) (run_Err r).
Definition set_Node (v : string) (r : RecoveryRun) : RecoveryRun :=
    mkRecoveryRun (run_ID r) (run_PlanName r) (run_PlanID r) (run_PlanVersion r)
    (run_ProviderID r) (run_BackupProviderID r) (run_SourceWorkloadID r) (run_SourceName r)
    (run_TempWorkloadID r) (run_TempName r) v (run_Backup r) (run_State r) (run_Result r)
    (run_ProofLevel r) (run_StartedAt r) (run_CompletedAt r) (run_Steps r) (run_Checks r)
    (run_RTO r) (run_RTOTarget r) (run_CleanupDone r) (run_Err r).
Definition set_Backup (v : option Backup) (r : RecoveryRun) : RecoveryRun :=
    mkRecoveryRun (run_ID r) (run_PlanName r) (run_PlanID r) (run_PlanVersion r)
    (run_ProviderID r) (run_BackupProviderID r) (run_SourceWorkloadID r) (run_SourceName r)
    (run_TempWorkloadID r) (run_TempName r) (run_Node r) v (run_State r) (run_Result r)
    (run_ProofLevel r) (run_StartedAt r) (run_CompletedAt r) (run_Steps r) (run_Checks r)
    (run_RTO r) (run_RTOTarget r) (run_CleanupDone r) (run_Err r).
Definition set_State (v : RunState) (r : RecoveryRun) : RecoveryRun :=
    mkRecoveryRun (run_ID r) (run_PlanName r) (run_PlanID r) (run_PlanVersion r)
    (run_ProviderID r) (run_BackupProviderID r) (run_SourceWorkloadID r) (run_SourceName r)
    (run_TempWorkloadID r) (run_TempName r) (run_Node r) (run_Backup r) v (run_Result r)
    (run_ProofLevel r) (run_StartedAt r) (run_CompletedAt r) (run_Steps r) (run_Checks r)
    (run_RTO r) (run_RTOTarget r) (run_CleanupDone r) (run_Err r).
Definition set_Result (v : RunResult) (r : RecoveryRun) : RecoveryRun :=
    mkRecoveryRun (run_ID r) (run_PlanName r) (run_PlanID r) (run_PlanVersion r)
    (run_ProviderID r) (run_BackupProviderID r) (run_SourceWorkloadID r) (run_SourceName r)
    (run_TempWorkloadID r) (run_TempName r) (run_Node r) (run_Backup r) (run_State r) v
    (run_ProofLevel r) (run_StartedAt r) (run_CompletedAt r) (run_Steps r) (run_Checks r)
    (run_RTO r) (run_RTOTarget r) (run_CleanupDone r) (run_Err r).
Definition set_ProofLevel (v : ProofLevel) (r : RecoveryRun) : RecoveryRun :=
    mkRecoveryRun (run_ID r) (run_PlanName r) (run_PlanID r) (run_PlanVersion r)
    (run_ProviderID r) (run_BackupProviderID r) (run_SourceWorkloadID r) (run_SourceName r)
    (run_TempWorkloadID r) (run_TempName r) (run_Node r) (run_Backup r) (run_State r)
    (run_Result r) v (run_StartedAt r) (run_CompletedAt r) (run_Steps r) (run_Checks r)
    (run_RTO r) (run_RTOTarget r) (run_CleanupDone r) (run_Err r).
Definition set_CompletedAt (v : Z) (r : RecoveryRun) : RecoveryRun :=
    mkRecoveryRun (run_ID r) (run_PlanName r) (run_PlanID r) (run_PlanVersion r)
    (run_ProviderID r) (run_BackupProviderID r) (run_SourceWorkloadID r) (run_SourceName r)
    (run_TempWorkloadID r) (run_TempName r) (run_Node r) (run_Backup r) (run_State r)
    (run_Result r) (run_ProofLevel r) (run_StartedAt r) v (run_Steps r) (run_Checks r)
    (run_RTO r) (run_RTOTarget r) (run_CleanupDone r) (run_Err r).
Definition set_Steps (v : list Step) (r : RecoveryRun) : RecoveryRun :=
    mkRecoveryRun (run_ID r) (run_PlanName r) (run_PlanID r) (run_PlanVersion r)
    (run_ProviderID r) (run_BackupProviderID r) (run_SourceWorkloadID r) (run_SourceName r)
    (run_TempWorkloadID r) (run_TempName r) (run_Node r) (run_Backup r) (run_State r)
    (run_Result r) (run_ProofLevel r) (run_StartedAt r) (run_CompletedAt r) v (run_Checks r)
    (run_RTO r) (run_RTOTarget r) (run_CleanupDone r) (run_Err r).
Definition set_Checks (v : list CheckResult) (r : RecoveryRun) : RecoveryRun :=
    mkRecoveryRun (run_ID r) (run_PlanName r) (run_PlanID r) (run_PlanVersion r)
    (run_ProviderID r) (run_BackupProviderID r) (run_SourceWorkloadID r) (run_SourceName r)
    (run_TempWorkloadID r) (run_TempName r) (run_Node r) (run_Backup r) (run_State r)
    (run_Result r) (run_ProofLevel r) (run_StartedAt r) (run_CompletedAt r) (run_Steps r) v
    (run_RTO r) (run_RTOTarget r) (run_CleanupDone r) (run_Err r).
Definition set_RTO (v : Z) (r : RecoveryRun) : RecoveryRun :=
    mkRecoveryRun (run_ID r) (run_PlanName r) (run_PlanID r) (run_PlanVersion r)
    (run_ProviderID r) (run_BackupProviderID r) (run_SourceWorkloadID r) (run_SourceName r)
    (run_TempWorkloadID r) (run_TempName r) (run_Node r) (run_Backup r) (run_State r)
    (run_Result r) (run_ProofLevel r) (run_StartedAt r) (run_CompletedAt r) (run_Steps r)
    (run_Checks r) v (run_RTOTarget r) (run_CleanupDone r) (run_Err r).
Definition set_CleanupDone (v : bool) (r : RecoveryRun) : RecoveryRun :=
    mkRecoveryRun (run_ID r) (run_PlanName r) (run_PlanID r) (run_PlanVersion r)
    (run_ProviderID r) (run_BackupProviderID r) (run_SourceWorkloadID r) (run_SourceName r)
    (run_TempWorkloadID r) (run_TempName r) (run_Node r) (run_Backup r) (run_State r)
    (run_Result r) (run_ProofLevel r) (run_StartedAt r) (run_CompletedAt r) (run_Steps r)
    (run_Checks r) (run_RTO r) (run_RTOTarget r) v (run_Err r).
Definition set_Err (v : text) (r : RecoveryRun) : RecoveryRun :=
    mkRecoveryRun (run_ID r) (run_PlanName r) (run_PlanID r) (run_PlanVersion r)
    (run_ProviderID r) (run_BackupProviderID r) (run_SourceWorkloadID r) (run_SourceName r)
    (run_TempWorkloadID r) (run_TempName r) (run_Node r) (run_Backup r) (run_State r)
    (run_Result r) (run_ProofLevel r) (run_StartedAt r) (run_CompletedAt r) (run_Steps r)
    (run_Checks r) (run_RTO r) (run_RTOTarget r) (run_CleanupDone r) v.

(** ** The ladder of proof levels: [Raise] computes a maximum *)

Lemma Rank_ge l : -1 <= Rank l.
Proof. destruct l; cbn; lia. Qed.

Lemma Rank_Raise a b : Rank (Raise a b) = Z.max (Rank a) (Rank b).
Proof. unfold Raise. destruct (Z.ltb_spec (Rank a) (Rank b)); lia. Qed.

Lemma Rank_ProvenBy_from checks l :
  Rank (fold_left (fun level c => if OK (pc_Result c) then Raise level (cc_Proves (pc_Config c)) else level)
          checks l)
  = fold_right (fun c r => Z.max (if OK (pc_Result c) then Rank (cc_Proves (pc_Config c)) else -1) r)
      (Rank l) checks.
Proof.
  revert l; induction checks as [|c checks IH]; intros l; cbn; [done|].
  rewrite IH. pose proof (Rank_ge l).
  assert (Hmax : forall x y, fold_right (fun c r => Z.max (if OK (pc_Result c) then Rank (cc_Proves (pc_Config c)) else -1) r) (Z.max x y) checks
    = Z.max x (fold_right (fun c r => Z.max (if OK (pc_Result c) then Rank (cc_Proves (pc_Config c)) else -1) r) y checks)).
  { clear. intros x y. induction checks as [|c checks IH]; cbn; lia. }
  assert (Hlow : forall y, -1 <= y -> -1 <= fold_right (fun c r => Z.max (if OK (pc_Result c) then Rank (cc_Proves (pc_Config c)) else -1) r) y checks).
  { clear. intros y Hy. induction checks as [|c checks IH]; cbn; lia. }
  destruct (OK (pc_Result c)).
  - rewrite Rank_Raise, Z.max_comm. apply Hmax.
  - specialize (Hlow (Rank l)). lia.
Qed.

(** [Terminal] is exactly the list the store writes into its SQL. *)
Definition all_run_states : list RunState :=
  [RunStateEmpty; RunQueued; RunDiscoveringBackup; RunPreparing; RunRestoring; RunStarting;
   RunWaitingForGuest; RunRunningChecks; RunGeneratingReport; RunCleaningUp;
   RunSuccess; RunFailed; RunCancelled; RunCleanupFailed; RunInconclusive].

Lemma all_run_states_complete s : In s all_run_states.
Proof. destruct s; cbn; tauto. Qed.
