(* ===== verification/GoString.v ===== *)
(** * The string functions of Go's standard library the source uses

    Strings are ASCII byte strings: the case mappings and the white space of
    Go's [strings] package are modelled on ASCII. *)

From Stdlib Require Import ZArith Lia String Ascii List.
From stdpp Require Import sorting.
From S2P Require Import Prelude GoFloat Core.

Definition code (c : ascii) : N := N_of_ascii c.

Definition is_lower (c : ascii) : bool := (97 <=? code c)%N && (code c <=? 122)%N.
Definition is_upper (c : ascii) : bool := (65 <=? code c)%N && (code c <=? 90)%N.
Definition is_digit (c : ascii) : bool := (48 <=? code c)%N && (code c <=? 57)%N.

Definition upper_char (c : ascii) : ascii := if is_lower c then ascii_of_N (code c - 32) else c.
Definition lower_char (c : ascii) : ascii := if is_upper c then ascii_of_N (code c + 32) else c.

Fixpoint smap (f : ascii -> ascii) (s : string) : string :=
  match s with EmptyString => EmptyString | String c s => String (f c) (smap f s) end.

Definition ToUpper (s : string) : string := smap upper_char s.
Definition ToLower (s : string) : string := smap lower_char s.

(** '\t', '\n', '\v', '\f', '\r' and ' '. *)
Definition is_space (c : ascii) : bool :=
  ((9 <=? code c)%N && (code c <=? 13)%N) || (code c =? 32)%N.

Fixpoint trim_left_by (p : ascii -> bool) (s : string) : string :=
  match s with
  | EmptyString => EmptyString
  | String c rest => if p c then trim_left_by p rest else s
  end.
Fixpoint srev (s acc : string) : string :=
  match s with EmptyString => acc | String c s => srev s (String c acc) end.
Definition trim_right_by (p : ascii -> bool) (s : string) : string :=
  srev (trim_left_by p (srev s EmptyString)) EmptyString.
Definition trim_by (p : ascii -> bool) (s : string) : string := trim_right_by p (trim_left_by p s).

Definition TrimSpace (s : string) : string := trim_by is_space s.
(** [strings.Trim(s, "-")] for a one-byte cutset. *)
Definition TrimChar (c : ascii) (s : string) : string := trim_by (Ascii.eqb c) s.

Fixpoint existsb_char (p : ascii -> bool) (s : string) : bool :=
  match s with EmptyString => false | String c s => p c || existsb_char p s end.
Definition ContainsAny (s : string) (chars : string) : bool :=
  existsb_char (fun c => existsb_char (Ascii.eqb c) chars) s.

(** [strings.Fields]: the maximal runs of non-space bytes. *)
Fixpoint fields_aux (cur : string) (s : string) : list string :=
  match s with
  | EmptyString => if nonempty cur then [cur] else []
  | String c s =>
    if is_space c then (if nonempty cur then [cur] else []) ++ fields_aux EmptyString s
    else fields_aux (cur +:+ String c EmptyString) s
  end.
Definition Fields (s : string) : list string := fields_aux EmptyString s.

(** What follows the last byte of [s] that is one of [chars], or [s] itself:
    [if i := strings.LastIndexAny(s, chars); i >= 0 { s = s[i+1:] }]. *)
Fixpoint after_last_any (chars : string) (s : string) : string :=
  match s with
  | EmptyString => EmptyString
  | String c rest =>
    if ContainsAny rest chars then after_last_any chars rest
    else if existsb_char (Ascii.eqb c) chars then rest else s
  end.

Definition HasSuffix (s suffix : string) : bool :=
  String.prefix (srev suffix EmptyString) (srev s EmptyString).
Definition TrimSuffix (s suffix : string) : string :=
  if HasSuffix s suffix then String.substring 0 (String.length s - String.length suffix) s else s.

Fixpoint Join (sep : string) (l : list string) : string :=
  match l with
  | [] => EmptyString
  | [s] => s
  | s :: rest => s +:+ sep +:+ Join sep rest
  end.

(** [strings.Split(s, "\n")] for a one-byte separator. *)
Fixpoint split_aux (sep : ascii) (cur : string) (s : string) : list string :=
  match s with
  | EmptyString => [cur]
  | String c s =>
    if Ascii.eqb c sep then cur :: split_aux sep EmptyString s
    else split_aux sep (cur +:+ String c EmptyString) s
  end.
Definition Split (sep : ascii) (s : string) : list string := split_aux sep EmptyString s.

(** ** [sort.Strings]: the order of bytes. *)
Definition str_le (a b : string) : Prop := String.leb a b = true.
#[export] Instance str_le_dec a b : Decision (str_le a b).
Proof. unfold str_le. apply _. Defined.
Definition sort_strings (l : list string) : list string := merge_sort str_le l.
Definition sort_keys {A} (l : list (string * A)) : list (string * A) := merge_sort (fun x y => str_le x.1 y.1) l.

(** ** [fmt]'s %v on a value decoded from YAML: a map in the order of its keys *)

(** %v of a float64 is the shortest %g with exponents below -4 or from 21 up
    written in scientific notation. *)
Definition fmt_v_float (f : float64) : string :=
  match f with
  | S754_finite s m e =>
    let '(d, k) := shortest m e in
    let digits := pretty d in
    let x := k + Z.of_nat (String.length digits) - 1 in
    if (x <? -4) || (21 <=? x) then
      sign_text s +:+ String.substring 0 1 digits
      +:+ (if (1 <? String.length digits)%nat
           then "." +:+ String.substring 1 (String.length digits - 1) digits else "")
      +:+ "e" +:+ (if x <? 0 then "-" else "+") +:+ pad_left 2 (pretty (Z.abs x))
    else format_shortest f
  | _ => format_shortest f
  end.

Fixpoint fmt_v (v : any) : string :=
  match v with
  | AnyNil => "<nil>"
  | AnyString s => s
  | AnyInt z => pretty z
  | AnyFloat f => fmt_v_float f
  | AnyBool b => if b then "true" else "false"
  | AnyList l => "[" +:+ Join " " (map fmt_v l) +:+ "]"
  | AnyMap l => "map[" +:+ Join " " (map (fun kv => kv.1 +:+ ":" +:+ kv.2) (sort_keys (map (fun kv => (kv.1, fmt_v kv.2)) l))) +:+ "]"
  end.

(** ** Facts *)

Lemma Join_nil sep : Join sep [] = EmptyString.
Proof. reflexivity. Qed.

Example map_printed : fmt_v (AnyMap [("b", AnyInt 2); ("a", AnyList [AnyBool true; AnyNil])]) = "map[a:[true <nil>] b:2]".
Proof. reflexivity. Qed.
Example fields_example : Fields "  uname  -a " = ["uname"; "-a"].
Proof. reflexivity. Qed.
Example last_any_example : after_last_any "/\" "C:\Windows\System32\HOSTNAME.exe" = "HOSTNAME.exe".
Proof. reflexivity. Qed.
Example trim_suffix_example : TrimSuffix (ToLower "HOSTNAME.exe") ".exe" = "hostname".
Proof. reflexivity. Qed.

(** ** [strings.Cut], [strings.HasPrefix], [strings.TrimPrefix] *)

Fixpoint Cut (sep : ascii) (s : string) : option (string * string) :=
  match s with
  | EmptyString => None
  | String c s =>
    if Ascii.eqb c sep then Some (EmptyString, s)
    else (fun x => (String c x.1, x.2)) <$> Cut sep s
  end.
Definition HasPrefix (s prefix : string) : bool := String.prefix prefix s.
Definition TrimPrefix (s prefix : string) : string :=
  if HasPrefix s prefix then String.substring (String.length prefix) (String.length s - String.length prefix) s else s.

Lemma HasPrefix_TrimPrefix s p : HasPrefix s p = true -> s = p +:+ TrimPrefix s p.
Proof.
  intros H. unfold TrimPrefix. rewrite H. unfold HasPrefix in H. revert s H. induction p as [|c p IH]; intros s H.
  - cbn. change (s = String.substring 0 (String.length s - 0) s). rewrite Nat.sub_0_r. clear. induction s as [|c s IH]; [done|]. cbn. by f_equal.
  - destruct s as [|c' s]; [done|]. cbn in H. destruct (ascii_dec c c') as [->|]; [|done].
    change (String c' p +:+ ?x) with (String c' (p +:+ x)). cbn. f_equal. by apply IH.
Qed.
Lemma HasPrefix_app p s : HasPrefix (p +:+ s) p = true.
Proof. unfold HasPrefix. induction p as [|c p IH]; [by destruct s|]. change (String.prefix (String c p) (String c (p +:+ s)) = true). cbn. destruct (ascii_dec c c); [exact IH|done]. Qed.
Lemma TrimPrefix_app p s : TrimPrefix (p +:+ s) p = s.
Proof. apply (inj (String.append p)). symmetry. apply HasPrefix_TrimPrefix, HasPrefix_app. Qed.

(** What is trimmed keeps every byte that is not of the cutset. *)
Lemma existsb_char_srev f s acc : existsb_char f (srev s acc) = existsb_char f s || existsb_char f acc.
Proof. revert acc. induction s as [|c s IH]; intros acc; [done|]. cbn. rewrite IH. cbn. by destruct (f c), (existsb_char f s). Qed.
Lemma existsb_char_trim_by p s : existsb_char (fun c => negb (p c)) (trim_by p s) = existsb_char (fun c => negb (p c)) s.
Proof.
  assert (forall s, existsb_char (fun c => negb (p c)) (trim_left_by p s) = existsb_char (fun c => negb (p c)) s) as Hl.
  { clear s. intros s. induction s as [|c s IH]; [done|]. cbn. destruct (p c) eqn:Hc; cbn; rewrite ?Hc; [done|done]. }
  unfold trim_by, trim_right_by. by rewrite existsb_char_srev, Hl, existsb_char_srev, Hl, !orb_false_r.
Qed.
Lemma srev_srev s acc acc' : srev (srev s acc) acc' = srev acc (s +:+ acc').
Proof. revert acc. induction s as [|c s IH]; intros acc; [done|]. cbn [srev]. by rewrite IH. Qed.
Lemma srev_app s t acc : srev (s +:+ t) acc = srev t (srev s acc).
Proof. revert acc. induction s as [|c s IH]; intros acc; [done|]. apply IH. Qed.
Lemma srev_involutive s : srev (srev s EmptyString) EmptyString = s.
Proof. rewrite srev_srev. change (s +:+ EmptyString = s). induction s as [|c s IH]; [done|]. change (String c (s +:+ EmptyString) = String c s). by rewrite IH. Qed.
Lemma trim_left_by_id p s : existsb_char p s = false -> trim_left_by p s = s.
Proof. destruct s as [|c s]; [done|]. cbn. by intros [-> _]%orb_false_iff. Qed.
Lemma trim_right_by_id p s : existsb_char p s = false -> trim_right_by p s = s.
Proof.
  intros Hs. unfold trim_right_by. rewrite trim_left_by_id; [apply srev_involutive|]. rewrite existsb_char_srev. cbn. by rewrite orb_false_r.
Qed.
Lemma TrimSpace_id s : existsb_char is_space s = false -> TrimSpace s = s.
Proof. intros Hs. unfold TrimSpace, trim_by. rewrite trim_left_by_id; by rewrite ?trim_right_by_id. Qed.
Lemma TrimSpace_kept s : existsb_char (fun c => negb (is_space c)) s = true -> TrimSpace s <> "".
Proof. unfold TrimSpace. rewrite <- existsb_char_trim_by. intros H E. by rewrite E in H. Qed.

(** The double quote, and a text between two of them. *)
Definition dquote : string := String "034" EmptyString.
Definition quoted (s : string) : string := dquote +:+ s +:+ dquote.

(** [strings.Contains]. *)
Fixpoint Contains (s sub : string) : bool :=
  String.prefix sub s || match s with EmptyString => false | String _ s => Contains s sub end.

Lemma Cut_app sep s1 s2 :
  existsb_char (fun c => Ascii.eqb c sep) s1 = false -> Cut sep (s1 +:+ String sep s2) = Some (s1, s2).
Proof.
  induction s1 as [|c s1 IH]; intros H.
  - change (Cut sep (String sep s2) = Some ("", s2)). cbn. by rewrite Ascii.eqb_refl.
  - change (Cut sep (String c (s1 +:+ String sep s2)) = Some (String c s1, s2)). cbn in H |- *.
    apply orb_false_iff in H as [-> H]. by rewrite IH.
Qed.
Lemma existsb_char_app p s1 s2 : existsb_char p (s1 +:+ s2) = existsb_char p s1 || existsb_char p s2.
Proof.
  induction s1 as [|c s1 IH]; [done|]. change (String c s1 +:+ s2) with (String c (s1 +:+ s2)). cbn.
  by rewrite IH, orb_assoc.
Qed.

Lemma prefix_app sub s t : String.prefix sub s = true -> String.prefix sub (s +:+ t) = true.
Proof.
  revert s. induction sub as [|c sub IH]; intros s H; [by destruct s, t|]. destruct s as [|c' s]; [done|].
  change (String c' s +:+ t) with (String c' (s +:+ t)). cbn in H |- *. destruct (ascii_dec c c'); [by apply IH|done].
Qed.
Lemma prefix_refl s : String.prefix s s = true.
Proof. induction s as [|c s IH]; [done|]. cbn. by destruct (ascii_dec c c). Qed.
(** A text contains its parts. *)
Lemma Contains_app_l sub s t : Contains s sub = true -> Contains (s +:+ t) sub = true.
Proof.
  induction s as [|c s IH]; intros H.
  - cbn in H. rewrite orb_false_r in H. destruct sub; [|done]. by destruct t.
  - change (String c s +:+ t) with (String c (s +:+ t)). cbn [Contains] in H |- *.
    apply orb_true_iff in H as [H|H]; apply orb_true_iff; [left|right; by apply IH].
    by apply (prefix_app sub (String c s) t) in H.
Qed.
Lemma Contains_app_r sub s t : Contains t sub = true -> Contains (s +:+ t) sub = true.
Proof.
  intros H. induction s as [|c s IH]; [done|]. change (String c s +:+ t) with (String c (s +:+ t)). cbn [Contains].
  apply orb_true_iff. by right.
Qed.
Lemma Contains_refl s : Contains s s = true.
Proof. destruct s as [|c s]; [done|]. cbn [Contains]. by rewrite prefix_refl. Qed.
Lemma Contains_Join sub sep l s : s ∈ l -> Contains s sub = true -> Contains (Join sep l) sub = true.
Proof.
  intros Hin H. induction l as [|x l IH]; [by apply not_elem_of_nil in Hin|].
  destruct l as [|y l]; [by apply list_elem_of_singleton in Hin as ->|]. change (Join sep (x :: y :: l)) with (x +:+ sep +:+ Join sep (y :: l)).
  apply elem_of_cons in Hin as [<-|Hin]; [by apply Contains_app_l|]. apply Contains_app_r, Contains_app_r. by apply IH.
Qed.

(** Trimming twice trims no more. *)
Lemma trim_left_by_idem p s : trim_left_by p (trim_left_by p s) = trim_left_by p s.
Proof. induction s as [|c s IH]; [done|]. cbn. destruct (p c) eqn:Hc; [done|]. cbn. by rewrite Hc. Qed.
Lemma trim_left_by_app p t u : (t = "" \/ trim_left_by p (t +:+ u) = t +:+ u) -> trim_left_by p t = t.
Proof.
  intros [->|E]; [done|]. destruct t as [|c t]; [done|]. change (String c t +:+ u) with (String c (t +:+ u)) in E. cbn in E |- *.
  destruct (p c); [|done]. exfalso. assert (forall s, (String.length (trim_left_by p s) <= String.length s)%nat) as Hl.
  { clear. intros s. induction s as [|c s IH]; [done|]. cbn. destruct (p c); cbn; lia. }
  specialize (Hl (t +:+ u)). rewrite E in Hl. cbn in Hl. lia.
Qed.
Lemma trim_left_by_suffix p s : exists u, s = u +:+ trim_left_by p s.
Proof.
  induction s as [|c s [u IH]]; [by exists ""|]. cbn. destruct (p c); [|by exists ""]. exists (String c u). exact (f_equal (String c) IH).
Qed.
Lemma srev_onto s acc t : srev s acc +:+ t = srev s (acc +:+ t).
Proof. revert acc. induction s as [|c s IH]; intros acc; [done|]. exact (IH (String c acc)). Qed.
Lemma TrimSpace_idem s : TrimSpace (TrimSpace s) = TrimSpace s.
Proof.
  unfold TrimSpace, trim_by. set (l := trim_left_by is_space s). unfold trim_right_by at 2 3.
  destruct (trim_left_by_suffix is_space (srev l "")) as [u Hu]. set (r := trim_left_by is_space (srev l "")) in *.
  assert (trim_left_by is_space (srev r "") = srev r "") as Hl.
  { apply (trim_left_by_app _ _ (srev u "")). right. assert (srev r "" +:+ srev u "" = l) as ->; [|apply trim_left_by_idem].
    rewrite <- (srev_involutive l), Hu, srev_app. generalize (srev u ""). intros t. apply srev_onto. }
  rewrite Hl. unfold trim_right_by. rewrite srev_involutive. unfold r at 1. by rewrite trim_left_by_idem.
Qed.
