(* ===== verification/GoStrconv.v ===== *)
(** * [strconv.ParseFloat]

    The number syntax of Go's standard library, as [ParseFloat(s, 64)] reads
    it: a sign, "inf", "infinity" or "nan" in any case, or a decimal or
    hexadecimal literal with underscores between digits; the value is the
    nearest float64, and a value out of range is an error. *)

From Stdlib Require Import ZArith Lia String Ascii List.
From S2P Require Import Prelude GoTime GoFloat Core GoString.

Definition lower_of (c : ascii) : ascii := lower_char c.
Definition is_hex_letter (c : ascii) : bool :=
  let c := lower_of c in (97 <=? code c)%N && (code c <=? 102)%N.
Definition digit_value (c : ascii) : Z :=
  if is_digit c then Z.of_N (code c) - 48 else Z.of_N (code (lower_of c)) - 87.
Definition is_char (a c : ascii) : bool := Ascii.eqb a c.

(** [underscoreOK]: what was seen last, as the source's [saw]. *)
Inductive saw := SawStart | SawDigit | SawUnderscore | SawOther.
Fixpoint underscore_loop (hex : bool) (last : saw) (s : string) : bool :=
  match s with
  | EmptyString => match last with SawUnderscore => false | _ => true end
  | String c s =>
    if is_digit c || (hex && is_hex_letter c) then underscore_loop hex SawDigit s
    else if is_char "_" c then match last with SawDigit => underscore_loop hex SawUnderscore s | _ => false end
    else match last with SawUnderscore => false | _ => underscore_loop hex SawOther s end
  end.
Definition drop_sign (s : string) : string :=
  match s with
  | String c rest => if is_char "-" c || is_char "+" c then rest else s
  | EmptyString => s
  end.
Definition underscoreOK (s : string) : bool :=
  match drop_sign s with
  | String "0" (String c rest) as s =>
    let c := lower_of c in
    if is_char "b" c || is_char "o" c || is_char "x" c
    then underscore_loop (is_char "x" c) SawDigit rest
    else underscore_loop false SawStart s
  | s => underscore_loop false SawStart s
  end.

(** The digits of the mantissa: their value, how many came after the point,
    whether there was any, whether an underscore was seen, and what follows. *)
Record mantissa := mkMantissa { mant : Z; frac : Z; sawdot : bool; sawdigits : bool; unders : bool }.
Fixpoint mantissa_loop (hex : bool) (m : mantissa) (s : string) : mantissa * string :=
  match s with
  | EmptyString => (m, s)
  | String c rest =>
    if is_char "_" c then mantissa_loop hex (mkMantissa (mant m) (frac m) (sawdot m) (sawdigits m) true) rest
    else if is_char "." c then
      if sawdot m then (m, s)
      else mantissa_loop hex (mkMantissa (mant m) (frac m) true (sawdigits m) (unders m)) rest
    else if is_digit c || (hex && is_hex_letter c) then
      mantissa_loop hex
        (mkMantissa (mant m * (if hex then 16 else 10) + digit_value c)
           (if sawdot m then frac m + 1 else frac m) (sawdot m) true (unders m)) rest
    else (m, s)
  end.

(** The digits of the exponent, which stop growing at 10000. *)
Fixpoint exponent_loop (e : Z) (u : bool) (s : string) : Z * bool * string :=
  match s with
  | EmptyString => (e, u, s)
  | String c rest =>
    if is_char "_" c then exponent_loop e true rest
    else if is_digit c then exponent_loop (if e <? 10000 then e * 10 + digit_value c else e) u rest
    else (e, u, s)
  end.

(** The optional exponent: [None] when it is malformed. *)
Definition exponent (hex : bool) (s : string) : option (Z * bool * string) :=
  match s with
  | String c rest =>
    if is_char (if hex then "p" else "e") (lower_of c) then
      match rest with
      | EmptyString => None
      | String sg rest' =>
        let neg := is_char "-" sg in
        let digits := if neg || is_char "+" sg then rest' else rest in
        match digits with
        | String d _ =>
          if is_digit d then
            let '(e, u, rest) := exponent_loop 0 false digits in
            Some ((if neg then - e else e), u, rest)
          else None
        | EmptyString => None
        end
      end
    else if hex then None else Some (0, false, s)
  | EmptyString => if hex then None else Some (0, false, s)
  end.

(** The float nearest to [d * 2^k]. *)
Definition float_of_dyadic (neg : bool) (d k : Z) : float64 :=
  match d with
  | Zpos p =>
    if 0 <=? k then float_of_ratio neg (Z.to_pos (d * 2 ^ k)) 1
    else float_of_ratio neg p (Z.to_pos (2 ^ (- k)))
  | _ => S754_zero neg
  end.

(** [special]: infinities and NaN, which [ParseFloat] accepts. *)
Definition special (s : string) : option float64 :=
  let signed := match s with String c _ => is_char "-" c || is_char "+" c | _ => false end in
  let neg := match s with String c _ => is_char "-" c | _ => false end in
  let body := ToLower (drop_sign s) in
  if bool_decide (body = "inf") || bool_decide (body = "infinity") then Some (S754_infinity neg)
  else if bool_decide (body = "nan") && negb signed then Some S754_nan
  else None.

Definition is_inf (f : float64) : bool := match f with S754_infinity _ => true | _ => false end.

(** [strconv.ParseFloat(s, 64)]: the value read, an infinity when it is out of
    range, and [None] for a syntax error. *)
Definition read_float (s : string) : option (float64 * bool) :=
  match special s with
  | Some f => Some (f, true)
  | None =>
    let neg := match s with String c _ => is_char "-" c | _ => false end in
    let body := drop_sign s in
    let '(hex, body) :=
      match body with
      | String "0" (String c ((String _ _) as rest)) =>
        if is_char "x" (lower_of c) then (true, rest) else (false, body)
      | _ => (false, body)
      end in
    let '(m, rest) := mantissa_loop hex (mkMantissa 0 0 false false false) body in
    if negb (sawdigits m) then None else
    match exponent hex rest with
    | Some (e, u, EmptyString) =>
      if (unders m || u) && negb (underscoreOK s) then None
      else
        let f := if hex then float_of_dyadic neg (mant m) (e - 4 * frac m)
                 else float_of_decimal neg (mant m) (e - frac m) in
        Some (f, negb (is_inf f))
    | _ => None
    end
  end.
(** [None] stands for a syntax or range error. *)
Definition ParseFloat (s : string) : option float64 :=
  match read_float s with Some (f, true) => Some f | _ => None end.

Example parse_int : ParseFloat "1204331" = Some (float_of_Z 1204331).
Proof. vm_compute. reflexivity. Qed.
Example parse_dec : ParseFloat "-1.5e+3" = Some (float_of_Z (-1500)).
Proof. vm_compute. reflexivity. Qed.
Example parse_hex : ParseFloat "0x1.8p1" = Some (float_of_Z 3).
Proof. vm_compute. reflexivity. Qed.
Example parse_inf : ParseFloat "+Infinity" = Some (S754_infinity false).
Proof. vm_compute. reflexivity. Qed.
Example parse_range : ParseFloat "1e400" = None.
Proof. vm_compute. reflexivity. Qed.
Example parse_underscore : ParseFloat "1_23.50_0_0e+1_2" = Some (float_of_decimal false 1235 11).
Proof. vm_compute. reflexivity. Qed.
Example parse_bad : map ParseFloat [""; "."; "1e"; "_1"; "1 2"; "0x1"; "infinit"; "-nan"] = repeat None 8.
Proof. vm_compute. reflexivity. Qed.

(** ** [strconv.Atoi] *)

Fixpoint decimal_loop (n : Z) (s : string) : option Z :=
  match s with
  | EmptyString => Some n
  | String c s => if is_digit c then decimal_loop (10 * n + (Z.of_N (code c) - 48)) s else None
  end.
Definition Atoi (s : string) : option Z :=
  let '(neg, digits) := match s with
    | String "-"%char s => (true, s)
    | String "+"%char s => (false, s)
    | _ => (false, s)
    end in
  if negb (nonempty digits) then None else
  match decimal_loop 0 digits with
  | Some n =>
    let n := if (neg : bool) then - n else n in
    if (- 2 ^ 63 <=? n) && (n <? 2 ^ 63) then Some n else None
  | None => None
  end.

Example atoi_examples : Atoi "50" = Some 50 /\ Atoi "-7" = Some (-7) /\ Atoi "+7" = Some 7 /\ Atoi "" = None /\
  Atoi "-" = None /\ Atoi "1_0" = None /\ Atoi "9223372036854775808" = None.
Proof. split_and!; reflexivity. Qed.

(** *** [strconv.Itoa], which [pretty] writes, is read back by [Atoi] *)

Lemma pretty_N_char_digit x : is_digit (pretty_N_char x) = true.
Proof. unfold pretty_N_char. by repeat case_match. Qed.
Lemma pretty_N_char_value x : (x < 10)%N -> Z.of_N (code (pretty_N_char x)) = 48 + Z.of_N x.
Proof. intros H. assert (x = 0 \/ x = 1 \/ x = 2 \/ x = 3 \/ x = 4 \/ x = 5 \/ x = 6 \/ x = 7 \/ x = 8 \/ x = 9)%N by lia.
  repeat destruct H0 as [->|H0]; try subst; reflexivity. Qed.

Definition digit_headed (s : string) : bool := match s with String c _ => is_digit c | EmptyString => false end.
Lemma digits_written (x : N) s :
  decimal_loop 0 (pretty_N_go x s) = decimal_loop (Z.of_N x) s /\
  (digit_headed s = true \/ (0 < x)%N -> digit_headed (pretty_N_go x s) = true).
Proof.
  revert s. induction (N.lt_wf_0 x) as [x _ IH]. intros s. destruct (decide (x = 0%N)) as [->|Hx].
  { rewrite pretty_N_go_0. split; [done|]. intros [?|?]; [done|lia]. }
  rewrite pretty_N_go_step by lia. destruct (IH (x `div` 10)%N ltac:(apply N.div_lt; lia) (String (pretty_N_char (x `mod` 10)) s)) as [E H].
  split.
  - rewrite E. cbn [decimal_loop]. rewrite pretty_N_char_digit, pretty_N_char_value by (apply N.mod_lt; lia). f_equal.
    pose proof (N.div_mod x 10 ltac:(lia)). lia.
  - intros _. apply H. left. apply pretty_N_char_digit.
Qed.
Lemma pretty_N_read (x : N) : decimal_loop 0 (pretty x) = Some (Z.of_N x) /\ digit_headed (pretty x) = true.
Proof.
  unfold pretty, pretty_N. destruct (decide (x = 0%N)) as [->|Hx]; [done|].
  destruct (digits_written x "") as [E H]. split; [by rewrite E|]. apply H. right. lia.
Qed.

Lemma Atoi_digits s n : decimal_loop 0 s = Some n -> digit_headed s = true -> 0 <= n ->
  (n < 2 ^ 63 -> Atoi s = Some n) /\ (n <= 2 ^ 63 -> Atoi ("-" +:+ s) = Some (- n)).
Proof.
  intros E Hd Hn. destruct s as [|c s]; [done|]. cbn [digit_headed] in Hd.
  assert (forall m, - 2 ^ 63 <= m < 2 ^ 63 -> (- 2 ^ 63 <=? m) && (m <? 2 ^ 63) = true) as Hrange by lia.
  split; intros Hb.
  - transitivity (match decimal_loop 0 (String c s) with
      | Some n => if (- 2 ^ 63 <=? n) && (n <? 2 ^ 63) then Some n else None | None => None end).
    + destruct c as [[] [] [] [] [] [] [] []]; cbn in Hd; try discriminate; reflexivity.
    + by rewrite E, Hrange by lia.
  - transitivity (match decimal_loop 0 (String c s) with
      | Some n => if (- 2 ^ 63 <=? - n) && (- n <? 2 ^ 63) then Some (- n) else None | None => None end); [reflexivity|].
    by rewrite E, Hrange by lia.
Qed.
Lemma Atoi_pretty n : - 2 ^ 63 <= n < 2 ^ 63 -> Atoi (pretty n) = Some n.
Proof.
  intros Hn. destruct n as [|p|p].
  - reflexivity.
  - destruct (pretty_N_read (Npos p)) as [E H]. change (Atoi (pretty (N.pos p)) = Some (Zpos p)). apply (proj1 (Atoi_digits (pretty (N.pos p)) (Zpos p) E H ltac:(lia))). lia.
  - destruct (pretty_N_read (Npos p)) as [E H].
    change (Atoi ("-" +:+ pretty (N.pos p)) = Some (- Zpos p)).
    apply (proj2 (Atoi_digits (pretty (N.pos p)) (Zpos p) E H ltac:(lia))). lia.
Qed.

(** * Reading a duration

    [time.ParseDuration] of the standard library: a sign, then numbers with an
    optional fraction and a unit. The value is a count of nanoseconds; what does not
    fit in 64 bits is refused. *)

(** [leadingInt]: refused past 2^63. *)
Fixpoint leadingInt (v : Z) (s : string) : option (Z * string) :=
  match s with
  | String c rest =>
    if is_digit c then
      if 2 ^ 63 / 10 <? v then None else
      let v := 10 * v + (Z.of_N (code c) - 48) in
      if 2 ^ 63 <? v then None else leadingInt v rest
    else Some (v, s)
  | EmptyString => Some (v, s)
  end.
(** [leadingFraction]: the digits that still fit, and their scale. *)
Fixpoint leadingFraction (v : Z) (scale : float64) (overflow : bool) (s : string) : Z * float64 * string :=
  match s with
  | String c rest =>
    if is_digit c then
      if overflow then leadingFraction v scale true rest else
      if (2 ^ 63 - 1) / 10 <? v then leadingFraction v scale true rest else
      let v' := 10 * v + (Z.of_N (code c) - 48) in
      if 2 ^ 63 <? v' then leadingFraction v scale true rest
      else leadingFraction v' (fmul scale (float_of_Z 10)) false rest
    else (v, scale, s)
  | EmptyString => (v, scale, s)
  end.
(** The unit: up to a point or a digit. *)
Fixpoint unit_span (s : string) : string * string :=
  match s with
  | String c rest =>
    if Ascii.eqb c "." || is_digit c then ("", s) else let '(u, rest) := unit_span rest in (String c u, rest)
  | EmptyString => ("", "")
  end.
Definition unit_of_text (u : string) : option Z :=
  if bool_decide (u = "ns") then Some Duration.Nanosecond
  else if bool_decide (u ∈ ["us"; "µs"; "μs"]) then Some Duration.Microsecond
  else if bool_decide (u = "ms") then Some Duration.Millisecond
  else if bool_decide (u = "s") then Some Duration.Second
  else if bool_decide (u = "m") then Some Duration.Minute
  else if bool_decide (u = "h") then Some Duration.Hour
  else None.

(** One number with its unit: the nanoseconds it adds, and what follows. *)
Definition one_term (s : string) : option (Z * string) :=
  match s with
  | EmptyString => None
  | String c _ =>
    if negb (Ascii.eqb c "." || is_digit c) then None else
    match leadingInt 0 s with
    | None => None
    | Some (v, rest) =>
      let pre := negb (Nat.eqb (String.length rest) (String.length s)) in
      let '(f, scale, rest', post) :=
        match rest with
        | String "."%char frac =>
          let '(f, scale, after) := leadingFraction 0 (float_of_Z 1) false frac in
          (f, scale, after, negb (Nat.eqb (String.length after) (String.length frac)))
        | _ => (0, float_of_Z 1, rest, false)
        end in
      if negb pre && negb post then None else
      let '(u, rest'') := unit_span rest' in
      match unit_of_text u with
      | None => None
      | Some unit =>
        if 2 ^ 63 / unit <? v then None else
        let v := v * unit + (if 0 <? f then int_of_float (fmul (float_of_Z f) (fdiv (float_of_Z unit) scale)) else 0) in
        if 2 ^ 63 <? v then None else Some (v, rest'')
      end
    end
  end.
(** The sum of the terms; each is longer than the next rest. *)
Fixpoint sum_terms (fuel : nat) (d : Z) (s : string) : option Z :=
  match s, fuel with
  | EmptyString, _ => Some d
  | _, O => None
  | _, S fuel =>
    match one_term s with
    | None => None
    | Some (v, rest) => if 2 ^ 63 <? d + v then None else sum_terms fuel (d + v) rest
    end
  end.

Definition ParseDuration (s : string) : option Z :=
  let '(neg, body) := match s with
    | String "-"%char s => (true, s)
    | String "+"%char s => (false, s)
    | _ => (false, s)
    end in
  if bool_decide (body = "0") then Some 0 else
  if negb (nonempty body) then None else
  match sum_terms (String.length body) 0 body with
  | None => None
  | Some d => if (neg : bool) then Some (- d) else if 2 ^ 63 - 1 <? d then None else Some d
  end.

Example durations :
  map ParseDuration ["5m"; "1h30m"; "-1.5h"; "0"; "300ms"; "1.5us"; ""; "5"; "m"; "1x"; "9223372036854775807ns"; "9223372036854775808ns"; ".5s"; "."]
  = [Some (5 * Duration.Minute); Some (90 * Duration.Minute); Some (- 90 * Duration.Minute); Some 0; Some (300 * Duration.Millisecond);
     Some 1500; None; None; None; None; Some (2 ^ 63 - 1); None; Some (500 * Duration.Millisecond); None].
Proof. vm_compute. reflexivity. Qed.

(** ** The fuel is enough *)

Lemma leadingInt_length v s v' rest : leadingInt v s = Some (v', rest) -> (String.length rest <= String.length s)%nat.
Proof.
  revert v. induction s as [|c s IH]; intros v; cbn [leadingInt]; [by intros [= _ <-]|].
  destruct (is_digit c); [|by intros [= _ <-]]. destruct (_ <? v); [done|]. destruct (2 ^ 63 <? _); [done|]. intros E%IH. cbn. lia.
Qed.
Lemma leadingFraction_length v scale o s : (String.length (leadingFraction v scale o s).2 <= String.length s)%nat.
Proof.
  revert v scale o. induction s as [|c s IH]; intros v scale o; cbn [leadingFraction]; [done|]. destruct (is_digit c); [|done].
  destruct o; [|destruct (_ <? v); [|destruct (2 ^ 63 <? _)]]; etransitivity; try apply IH; cbn; lia.
Qed.
Lemma unit_span_length s : (String.length (unit_span s).2 <= String.length s - String.length (unit_span s).1)%nat /\
  (String.length (unit_span s).1 <= String.length s)%nat.
Proof.
  induction s as [|c s [IH1 IH2]]; [done|]. cbn [unit_span]. destruct (_ || _); [cbn; lia|]. destruct (unit_span s). cbn in *. lia.
Qed.
Lemma one_term_shorter s v rest : one_term s = Some (v, rest) -> (String.length rest < String.length s)%nat.
Proof.
  destruct s as [|c s]; [done|]. unfold one_term. destruct (negb _); [done|]. destruct (leadingInt 0 (String c s)) as [[w r]|] eqn:Ei; [|done].
  apply leadingInt_length in Ei. set (p := match r with String _ _ => _ | _ => _ end).
  assert (String.length p.1.2 <= String.length r)%nat as Hp.
  { subst p. destruct r as [|a r]; [done|]. destruct a as [[] [] [] [] [] [] [] []]; try done.
    pose proof (leadingFraction_length 0 (float_of_Z 1) false r) as Hl. destruct (leadingFraction _ _ _ r) as [[? ?] ?]. cbn in *. lia. }
  destruct p as [[[f scale] r'] post]. cbn [fst snd] in Hp. destruct (_ && _); [done|].
  destruct (unit_span_length r') as [H1 H2]. destruct (unit_span r') as [u r'']. cbn [fst snd] in H1, H2.
  destruct (unit_of_text u) as [unit|] eqn:Eu; [|done]. destruct (_ <? w); [done|]. destruct (2 ^ 63 <? _); [done|]. intros [= _ <-].
  assert (0 < String.length u)%nat by (destruct u; [done|cbn; lia]). lia.
Qed.
(** Any fuel from the length on gives the same. *)
Lemma sum_terms_fuel f1 f2 d s :
  (String.length s <= f1)%nat -> (String.length s <= f2)%nat -> sum_terms f1 d s = sum_terms f2 d s.
Proof.
  revert f2 d s. induction f1 as [|f1 IH]; intros f2 d s H1 H2.
  { destruct s; [by destruct f2|cbn in H1; lia]. }
  destruct s as [|c s]; [by destruct f2|]. destruct f2 as [|f2]; [cbn in H2; lia|]. cbn [sum_terms].
  destruct (one_term (String c s)) as [[v rest]|] eqn:E; [|done]. apply one_term_shorter in E. cbn in E, H1, H2.
  destruct (2 ^ 63 <? d + v); [done|]. apply IH; lia.
Qed.
