(* ===== verification/GoFmt.v ===== *)
(** * [fmt.Sprintf]

    A message that the program builds is kept as its format and arguments ([text] of
    [Prelude]). This file renders one, for the code that searches a message or writes
    it out: the verbs that the source uses, on ASCII. It ends with the round trip of a
    duration through its text. *)

From Stdlib Require Import ZArith Lia String Ascii List.
From S2P Require Import Prelude GoTime GoFloat Core GoString GoStrconv.

(** ** [Duration.String] *)

Fixpoint trim_zeros (s : string) : string :=
  match s with
  | EmptyString => EmptyString
  | String c s =>
    let r := trim_zeros s in if Ascii.eqb c "0"%char && negb (nonempty r) then EmptyString else String c r
  end.
(** [fmtFrac]: the [width] digits of a fraction, without its last zeros. *)
Definition frac_text (width : nat) (frac : Z) : string :=
  if frac =? 0 then "" else "." +:+ trim_zeros (Time.pad width frac).
Definition clock_text (d : Z) : string :=
  let secs := d / Duration.Second in
  let tail := pretty (secs mod 60) +:+ frac_text 9 (d mod Duration.Second) +:+ "s" in
  let mins := secs / 60 in
  if mins =? 0 then tail
  else
    let hours := mins / 60 in
    if hours =? 0 then pretty mins +:+ "m" +:+ tail
    else pretty hours +:+ "h" +:+ pretty (mins mod 60) +:+ "m" +:+ tail.
(** The micro sign, as UTF-8 writes it. *)
Definition micro : string := String "194" (String "181" EmptyString).
Definition magnitude_text (d : Z) : string :=
  if d <? Duration.Microsecond then pretty d +:+ "ns"
  else if d <? Duration.Millisecond then
    pretty (d / Duration.Microsecond) +:+ frac_text 3 (d mod Duration.Microsecond) +:+ micro +:+ "s"
  else if d <? Duration.Second then
    pretty (d / Duration.Millisecond) +:+ frac_text 6 (d mod Duration.Millisecond) +:+ "ms"
  else clock_text d.
Definition Duration_String (d : Z) : string :=
  if d =? 0 then "0s" else if d <? 0 then "-" +:+ magnitude_text (- d) else magnitude_text d.

Example duration_strings :
  map Duration_String [0; 500 * Duration.Millisecond; 1500; 3 * Duration.Second; 3723 * Duration.Second; - 90 * Duration.Second; 1230 * Duration.Millisecond]
  = ["0s"; "500ms"; "1.5" +:+ micro +:+ "s"; "3s"; "1h2m3s"; "-1m30s"; "1.23s"].
Proof. reflexivity. Qed.

(** ** [strconv.Quote] *)

Definition hex_nibble (n : N) : ascii := ascii_of_N (if (n <? 10)%N then 48 + n else 87 + n).
Definition escape (c : ascii) : string :=
  let n := code c in
  let short (l : ascii) := String "\" (String l EmptyString) in
  if (n =? 34)%N || (n =? 92)%N then String "\" (String c EmptyString)
  else if (n =? 7)%N then short "a"%char else if (n =? 8)%N then short "b"%char else if (n =? 12)%N then short "f"%char
  else if (n =? 10)%N then short "n"%char else if (n =? 13)%N then short "r"%char else if (n =? 9)%N then short "t"%char
  else if (n =? 11)%N then short "v"%char
  else if (n <? 32)%N || (126 <? n)%N then "\x" +:+ String (hex_nibble (n / 16)) (String (hex_nibble (n mod 16)) EmptyString)
  else String c EmptyString.
Fixpoint escaped (s : string) : string :=
  match s with EmptyString => EmptyString | String c s => escape c +:+ escaped s end.
Definition Quote (s : string) : string := quoted (escaped s).

(** ** The verbs *)

(** What is print_fn of an argument under a verb and its flags; an instant is in the
    layout of RFC 3339. *)
Definition format_fixed (n : Z) (f : float64) : string :=
  match f with
  | S754_zero s => sign_text s +:+ positional 0 (- n)
  | S754_finite s m e => let '(num, den) := ratio_of m e in sign_text s +:+ positional (scaled num den n) (- n)
  | f => format_shortest f
  end.
Definition print_float (flags : string) (f : float64) : string :=
  if bool_decide (flags = ".0") then format_fixed 0 f
  else if bool_decide (flags = ".1") then format_fixed 1 f
  else if bool_decide (flags = ".2") then format_fixed 2 f
  else fmt_v_float f.
Definition print_as (s : string) (verb : ascii) : string := if Ascii.eqb verb "q" then Quote s else s.
Definition print_fn : Type := string -> ascii -> string.

(** A format, filled with what its arguments print. *)
Fixpoint fill (spec : option string) (fmt : string) (args : list print_fn) : string :=
  match fmt with
  | EmptyString => match spec with Some _ => "%!(NOVERB)" | None => EmptyString end
  | String c fmt =>
    match spec with
    | None => if Ascii.eqb c "%" then fill (Some EmptyString) fmt args else String c (fill None fmt args)
    | Some flags =>
      if Ascii.eqb c "%" then String c (fill None fmt args)
      else if is_lower c || is_upper c then
        match args with
        | [] => "%!" +:+ String c "(MISSING)" +:+ fill None fmt []
        | a :: args => a flags c +:+ fill None fmt args
        end
      else fill (Some (flags +:+ String c EmptyString)) fmt args
    end
  end.

Fixpoint render (t : text) : string :=
  match t with
  | Lit s => s
  | Sprintf fmt args => fill None fmt (map print_arg args)
  end
with print_arg (a : arg) : print_fn := fun flags verb =>
  match a with
  | AStr s => print_as s verb
  | AText t => print_as (render t) verb
  | AInt z => pretty z
  | ADur d => Duration_String d
  | ATime t => Time.format_rfc3339 t
  | AFloat f => print_float flags f
  | AStrs l => "[" +:+ Join " " (map (fun s => print_as s verb) l) +:+ "]"
  end.

Example rendered :
  render (Sprintf "run %q: %w (%d of %d, 100%%)" [AStr "a b"; AText (Sprintf "after %s" [ADur (2 * Duration.Minute)]); AInt 1; AInt 3])
  = "run " +:+ Quote "a b" +:+ ": after 2m0s (1 of 3, 100%)".
Proof. reflexivity. Qed.
Example rendered_floats :
  map (fun f => render (Sprintf "%.0f %.1f %.2f %v" [AFloat f; AFloat f; AFloat f; AFloat f])) [S754_zero false; float_of_decimal true 12345 (-3)]
  = ["0 0.0 0.00 0"; "-12 -12.3 -12.35 -12.345"].
Proof. vm_compute. reflexivity. Qed.

(** ** What [Duration.String] writes, [ParseDuration] reads *)

Lemma is_digit_bounds c : is_digit c = true -> 48 <= Z.of_N (code c) <= 57.
Proof. unfold is_digit. rewrite andb_true_iff, !N.leb_le. lia. Qed.
Lemma decimal_loop_ge n s m : 0 <= n -> decimal_loop n s = Some m -> n <= m.
Proof.
  revert n. induction s as [|c s IH]; intros n Hn; cbn [decimal_loop]; [intros [= ->]; lia|].
  destruct (is_digit c) eqn:Hc; [|done]. apply is_digit_bounds in Hc. intros E. apply IH in E; lia.
Qed.
Lemma decimal_loop_app v s t : decimal_loop v (s +:+ t) = (decimal_loop v s ≫= fun n => decimal_loop n t).
Proof.
  revert v. induction s as [|c s IH]; intros v; [done|]. change (String c s +:+ t) with (String c (s +:+ t)). cbn [decimal_loop].
  destruct (is_digit c); [apply IH|done].
Qed.
Lemma leadingInt_app v s n rest : 0 <= v -> decimal_loop v s = Some n -> n <= 2 ^ 63 -> digit_headed rest = false ->
  leadingInt v (s +:+ rest) = Some (n, rest).
Proof.
  revert v. induction s as [|c s IH]; intros v Hv E Hn Hr.
  - injection E as ->. change ("" +:+ rest) with rest. destruct rest as [|c rest]; [done|]. cbn in Hr |- *. by rewrite Hr.
  - change (String c s +:+ rest) with (String c (s +:+ rest)). cbn [decimal_loop leadingInt] in E |- *.
    destruct (is_digit c) eqn:Hc; [|done]. apply is_digit_bounds in Hc. set (v' := 10 * v + (Z.of_N (code c) - 48)) in *. assert (v' = 10 * v + (Z.of_N (code c) - 48)) as Hv' by done.
    assert (v' <= n) by (eapply decimal_loop_ge; [|exact E]; lia).
    change (2 ^ 63 / 10) with 922337203685477580. change (2 ^ 63) with 9223372036854775808 in *.
    destruct (Z.ltb_spec 922337203685477580 v); [lia|]. destruct (Z.ltb_spec 9223372036854775808 v'); [lia|]. apply IH; [lia|done..].
Qed.
Definition scaled_by (k : nat) (scale : float64) : float64 := Nat.iter k (fun x => fmul x (float_of_Z 10)) scale.
Lemma leadingFraction_app v scale s n rest : 0 <= v -> decimal_loop v s = Some n -> n <= (2 ^ 63 - 1) / 10 -> digit_headed rest = false ->
  leadingFraction v scale false (s +:+ rest) = (n, scaled_by (String.length s) scale, rest).
Proof.
  revert v scale. induction s as [|c s IH]; intros v scale Hv E Hn Hr.
  - injection E as ->. change ("" +:+ rest) with rest. destruct rest as [|c rest]; [done|]. cbn in Hr |- *. by rewrite Hr.
  - change (String c s +:+ rest) with (String c (s +:+ rest)). cbn [decimal_loop leadingFraction] in E |- *.
    destruct (is_digit c) eqn:Hc; [|done]. apply is_digit_bounds in Hc. set (v' := 10 * v + (Z.of_N (code c) - 48)) in *. assert (v' = 10 * v + (Z.of_N (code c) - 48)) as Hv' by done.
    assert (v' <= n) by (eapply decimal_loop_ge; [|exact E]; lia).
    change ((2 ^ 63 - 1) / 10) with 922337203685477580 in *. change (2 ^ 63) with 9223372036854775808.
    destruct (Z.ltb_spec 922337203685477580 v); [lia|]. destruct (Z.ltb_spec 9223372036854775808 v'); [lia|]. rewrite IH by (lia || done).
    unfold scaled_by. cbn [String.length]. by rewrite Nat.iter_succ_r.
Qed.

(** The digits of a fraction. *)
Lemma code_digit n : is_digit (Time.digit n) = true /\ Z.of_N (code (Time.digit n)) = 48 + n mod 10.
Proof.
  unfold Time.digit, is_digit, code. pose proof (Z.mod_pos_bound n 10 ltac:(lia)). rewrite N_ascii_embedding by lia.
  rewrite andb_true_iff, !N.leb_le. lia.
Qed.
Lemma decimal_loop_pad w n v : 0 <= n -> decimal_loop v (Time.pad w n) = Some (v * 10 ^ Z.of_nat w + n mod 10 ^ Z.of_nat w).
Proof.
  revert n v. induction w as [|w IH]; intros n v Hn; cbn [Time.pad].
  - cbn. by rewrite Z.mod_1_r, Z.mul_1_r, Z.add_0_r.
  - rewrite decimal_loop_app, IH by (apply Z.div_pos; lia). cbn [mbind option_bind decimal_loop].
    destruct (code_digit n) as [-> ->]. f_equal. rewrite Nat2Z.inj_succ, Z.pow_succ_r by lia.
    rewrite (Z.rem_mul_r n 10) by lia. lia.
Qed.
Lemma trim_zeros_spec s : exists j, s = trim_zeros s +:+ zeros j.
Proof.
  induction s as [|c s [j IH]]; [by exists 0%nat|]. cbn [trim_zeros].
  destruct (Ascii.eqb_spec c "0"%char) as [->|]; cbn [andb].
  - destruct (nonempty (trim_zeros s)) eqn:E; cbn [negb].
    + exists j. exact (f_equal (String "0") IH).
    + exists (S j). unfold nonempty in E. case_bool_decide as E'; [|done]. rewrite E' in IH. exact (f_equal (String "0") IH).
  - exists j. exact (f_equal (String c) IH).
Qed.
Lemma decimal_loop_zeros v j : decimal_loop v (zeros j) = Some (v * 10 ^ Z.of_nat j).
Proof.
  revert v. induction j as [|j IH]; intros v; [cbn; f_equal; lia|]. cbn [zeros decimal_loop].
  change (is_digit "0") with true. cbn iota. rewrite IH. f_equal. change (Z.of_N (code "0")) with 48. rewrite Nat2Z.inj_succ, Z.pow_succ_r by lia. lia.
Qed.
Lemma zeros_length j : String.length (zeros j) = j.
Proof. induction j as [|j IH]; [done|cbn; lia]. Qed.
Lemma frac_digits w frac : 0 < frac < 10 ^ Z.of_nat w -> exists f k j,
  decimal_loop 0 (trim_zeros (Time.pad w frac)) = Some f /\ String.length (trim_zeros (Time.pad w frac)) = k /\
  (k + j = w)%nat /\ (0 < k)%nat /\ frac = f * 10 ^ Z.of_nat j /\ 0 < f.
Proof.
  intros Hf. destruct (trim_zeros_spec (Time.pad w frac)) as [j Ej]. pose proof (decimal_loop_pad w frac 0 ltac:(lia)) as Hd.
  rewrite Z.mul_0_l, Z.add_0_l, Z.mod_small in Hd by lia. pose proof (length_pad w frac) as Hl.
  set (t := trim_zeros (Time.pad w frac)) in *. clearbody t. rewrite Ej, decimal_loop_app in Hd. rewrite Ej, string_length_app in Hl.
  destruct (decimal_loop 0 t) as [f|] eqn:Ef; [|done]. cbn [mbind option_bind] in Hd. rewrite decimal_loop_zeros in Hd. injection Hd as Hd.
  rewrite zeros_length in Hl.
  assert (0 < f) as Hpos by (apply decimal_loop_ge in Ef; [|lia]; destruct (Z.eq_dec f 0); [subst; lia|lia]).
  exists f, (String.length t), j. split_and!; [done|done|lia| |done|done].
  destruct t; [injection Ef as <-; lia|cbn; lia].
Qed.

(** The value of a fraction of a unit: exact, since its digits are few. *)
Definition fraction_units : list (nat * Z) := [(9%nat, Duration.Second); (6%nat, Duration.Millisecond); (3%nat, Duration.Microsecond)].
Lemma fraction_scale w unit k j : (w, unit) ∈ fraction_units -> (k + j = w)%nat -> (0 < k)%nat ->
  fdiv (float_of_Z unit) (scaled_by k (float_of_Z 1)) = float_of_Z (10 ^ Z.of_nat j).
Proof.
  intros Hw Hk Hp.
  assert (Forall (fun wu => Forall (fun k =>
    fdiv (float_of_Z wu.2) (scaled_by k (float_of_Z 1)) = float_of_Z (10 ^ Z.of_nat (wu.1 - k))) (seq 1 wu.1)) fraction_units) as Ha.
  { unfold fraction_units. repeat (apply Forall_cons; split); try apply Forall_nil; cbn [fst snd seq];
      repeat (apply Forall_cons; split); try apply Forall_nil; vm_compute; reflexivity. }
  rewrite Forall_forall in Ha. specialize (Ha (w, unit) Hw). rewrite Forall_forall in Ha. cbn [fst snd] in Ha.
  rewrite (Ha k) by (apply elem_of_seq; lia). do 3 f_equal. lia.
Qed.
Lemma fraction_units_pow w unit : (w, unit) ∈ fraction_units -> unit = 10 ^ Z.of_nat w /\ (w <= 9)%nat.
Proof. unfold fraction_units. rewrite !elem_of_cons. intros [E|[E|[E|E]]]; [injection E as -> ->; split; [done|lia]..|by apply elem_of_nil in E]. Qed.

(** The units, with what one of them is worth. *)
Definition duration_units : list (string * Z) :=
  [("ns", Duration.Nanosecond); (micro +:+ "s", Duration.Microsecond); ("ms", Duration.Millisecond); ("s", Duration.Second);
   ("m", Duration.Minute); ("h", Duration.Hour)].
Record unit_text (u : string) (unit : Z) : Prop := {
  ut_value : unit_of_text u = Some unit;
  ut_pos : 0 < unit <= 2 ^ 63;
  ut_span rest : digit_headed rest = true \/ rest = "" -> unit_span (u +:+ rest) = (u, rest);
  ut_head rest : digit_headed (u +:+ rest) = false;
  ut_point rest : match u +:+ rest with String "."%char _ => False | _ => True end;
}.
Lemma unit_span_app u rest : unit_span rest = ("", rest) -> existsb_char (fun c => Ascii.eqb c "." || is_digit c) u = false ->
  unit_span (u +:+ rest) = (u, rest).
Proof.
  intros Hr. induction u as [|c u IH]; [done|]. cbn [existsb_char]. intros [Hc Hu]%orb_false_iff.
  change (String c u +:+ rest) with (String c (u +:+ rest)). cbn [unit_span]. by rewrite Hc, IH.
Qed.
Lemma duration_unit_text u unit : (u, unit) ∈ duration_units -> unit_text u unit.
Proof.
  unfold duration_units. rewrite !elem_of_cons. intros H.
  assert (forall rest, digit_headed rest = true \/ rest = "" -> unit_span rest = ("", rest)) as Hr.
  { intros [|c rest] [Hd|Hd]; try done. cbn in Hd |- *. by rewrite Hd, orb_true_r. }
  destruct H as [E|[E|[E|[E|[E|[E|H]]]]]]; [apply pair_equal_spec in E as [-> ->]; split; [reflexivity|done| |reflexivity|by intros]..|by apply elem_of_nil in H].
  all: intros rest Hd; apply unit_span_app; [by apply Hr|reflexivity].
Qed.

(** A number with a unit, and with a fraction. *)
Lemma pretty_read v : 0 <= v -> decimal_loop 0 (pretty v) = Some v /\ digit_headed (pretty v) = true.
Proof.
  intros Hv. destruct v as [|p|p]; [done| |lia]. destruct (pretty_N_read (Npos p)) as [E H]. split; [exact E|exact H].
Qed.
Lemma digit_headed_app s rest : digit_headed s = true -> digit_headed (s +:+ rest) = true.
Proof. by destruct s. Qed.
Definition follows (rest : string) : Prop := digit_headed rest = true \/ rest = "".
Lemma one_term_unfold v f scale post tail u unit rest s :
  digit_headed s = true -> leadingInt 0 s = Some (v, tail) -> (String.length tail < String.length s)%nat ->
  (match tail with
   | String "."%char frac =>
     let '(f, scale, after) := leadingFraction 0 (float_of_Z 1) false frac in
     (f, scale, after, negb (Nat.eqb (String.length after) (String.length frac)))
   | _ => (0, float_of_Z 1, tail, false)
   end) = (f, scale, u +:+ rest, post) ->
  unit_text u unit -> follows rest -> 0 <= v -> v <= 2 ^ 63 / unit ->
  let value := v * unit + (if 0 <? f then int_of_float (fmul (float_of_Z f) (fdiv (float_of_Z unit) scale)) else 0) in
  value <= 2 ^ 63 -> one_term s = Some (value, rest).
Proof.
  intros Hs Hi Hl Ht [Hu _ Hspan _ _] Hr Hv Hb value Hm. destruct s as [|c s]; [done|]. unfold one_term.
  cbn [digit_headed] in Hs. rewrite Hs, orb_true_r, Hi. cbn [negb]. rewrite (proj2 (Nat.eqb_neq _ _)) by lia. rewrite Ht, Hspan, Hu by done. cbn [negb andb].
  destruct (Z.ltb_spec (2 ^ 63 / unit) v); [lia|]. fold value. by destruct (Z.ltb_spec (2 ^ 63) value); [lia|].
Qed.
Lemma headed_length s : digit_headed s = true -> (0 < String.length s)%nat.
Proof. destruct s; [done|cbn; lia]. Qed.
Lemma no_point tail : match tail with String "."%char _ => False | _ => True end ->
  match tail with
  | String "."%char frac =>
    let '(f, scale, after) := leadingFraction 0 (float_of_Z 1) false frac in
    (f, scale, after, negb (Nat.eqb (String.length after) (String.length frac)))
  | _ => (0, float_of_Z 1, tail, false)
  end = (0, float_of_Z 1, tail, false).
Proof. destruct tail as [|[[] [] [] [] [] [] [] []] tail]; done. Qed.
Lemma one_term_int v u unit rest : 0 <= v -> unit_text u unit -> v * unit <= 2 ^ 63 -> follows rest ->
  one_term (pretty v +:+ (u +:+ rest)) = Some (v * unit, rest).
Proof.
  intros Hv Hu Hm Hr. destruct (pretty_read v Hv) as [Hd Hh]. destruct (ut_pos _ _ Hu) as [Hu0 _].
  rewrite (one_term_unfold v 0 (float_of_Z 1) false (u +:+ rest) u unit rest); try done.
  - f_equal. f_equal. cbn. lia.
  - by apply digit_headed_app.
  - apply leadingInt_app; [lia|done|nia|apply Hu].
  - pose proof (headed_length _ Hh). rewrite (string_length_app (pretty v)). lia.
  - apply no_point, Hu.
  - apply Z.div_le_lower_bound; lia.
  - cbn. lia.
Qed.
Lemma one_term_fraction w v frac u unit rest : (w, unit) ∈ fraction_units -> 0 <= v -> unit_text u unit -> 0 <= frac < unit ->
  v * unit + frac <= 2 ^ 63 -> follows rest -> one_term (pretty v +:+ (frac_text w frac +:+ (u +:+ rest))) = Some (v * unit + frac, rest).
Proof.
  intros Hw Hv Hu Hf Hm Hr. destruct (fraction_units_pow w unit Hw) as [Hpow Hw9]. destruct (ut_pos _ _ Hu) as [Hu0 _].
  unfold frac_text. destruct (Z.eqb_spec frac 0) as [->|Hn].
  { change ("" +:+ (u +:+ rest)) with (u +:+ rest). rewrite Z.add_0_r. by apply one_term_int; [|done|lia|]. }
  destruct (frac_digits w frac) as (f & k & j & Hfd & Hk & Hkj & Hk0 & Hfrac & Hf0); [lia|].
  set (t := trim_zeros (Time.pad w frac)) in *. clearbody t. destruct (pretty_read v Hv) as [Hd Hh].
  assert (0 < 10 ^ Z.of_nat j) as Hj by (apply Z.pow_pos_nonneg; lia).
  assert (unit <= 10 ^ 9) as H9 by (rewrite Hpow; apply Z.pow_le_mono_r; lia).
  assert (int_of_float (fmul (float_of_Z f) (fdiv (float_of_Z unit) (scaled_by k (float_of_Z 1)))) = frac) as Hval.
  { rewrite (fraction_scale w unit k j) by done. rewrite fmul_exact, int_of_float_of_Z; lia. }
  set (tail := "." +:+ (t +:+ (u +:+ rest))).
  change (one_term (pretty v +:+ (("." +:+ t) +:+ (u +:+ rest))) = Some (v * unit + frac, rest)).
  rewrite <- (string_app_assoc "." t (u +:+ rest)). fold tail.
  rewrite (one_term_unfold v f (scaled_by k (float_of_Z 1)) true tail u unit rest); try done.
  - rewrite Hval. by destruct (Z.ltb_spec 0 f); [|lia].
  - by apply digit_headed_app.
  - apply leadingInt_app; [lia|done|nia|done].
  - pose proof (headed_length _ Hh). rewrite (string_length_app (pretty v)). lia.
  - change (match tail with String "."%char frac => _ | _ => _ end)
      with (let '(f, scale, after) := leadingFraction 0 (float_of_Z 1) false (t +:+ (u +:+ rest)) in
            (f, scale, after, negb (Nat.eqb (String.length after) (String.length (t +:+ (u +:+ rest)))))).
    assert (f <= (2 ^ 63 - 1) / 10) by (apply Z.div_le_lower_bound; [lia|nia]).
    rewrite (leadingFraction_app 0 _ t f) by (lia || done || apply (ut_head _ _ Hu)). rewrite (string_length_app t), Hk, (proj2 (Nat.eqb_neq _ _)) by lia. done.
  - apply Z.div_le_lower_bound; lia.
  - rewrite Hval. destruct (Z.ltb_spec 0 f); lia.
Qed.

(** One more term of a sum. *)
Lemma sum_step d s v rest n : one_term s = Some (v, rest) -> d + v <= 2 ^ 63 -> sum_terms (String.length rest) (d + v) rest = n ->
  sum_terms (String.length s) d s = n.
Proof.
  intros E Hd Hn. apply one_term_shorter in E as Hl. destruct s as [|c s]; [done|]. cbn [String.length sum_terms]. rewrite E.
  destruct (Z.ltb_spec (2 ^ 63) (d + v)); [lia|]. rewrite <- Hn. apply sum_terms_fuel; cbn in Hl; lia.
Qed.
Lemma string_app_nil_r s : s +:+ "" = s.
Proof. induction s as [|c s IH]; [done|]. exact (f_equal (String c) IH). Qed.
Lemma clock_text_read d : 0 <= d <= 2 ^ 63 -> sum_terms (String.length (clock_text d)) 0 (clock_text d) = Some d /\ digit_headed (clock_text d) = true.
Proof.
  intros Hd. unfold clock_text. cbv zeta.
  assert (unit_text "h" Duration.Hour /\ unit_text "m" Duration.Minute /\ unit_text "s" Duration.Second) as (Hh & Hm & Hs)
    by (split_and!; apply duration_unit_text; unfold duration_units; rewrite !elem_of_cons; tauto).
  set (secs := d / Duration.Second). set (mins := secs / 60).
  set (tail := pretty (secs mod 60) +:+ (frac_text 9 (d mod Duration.Second) +:+ "s")).
  pose proof (Z.mod_pos_bound d Duration.Second ltac:(done)) as Hf. pose proof (Z.mod_pos_bound secs 60 ltac:(done)) as Hs60.
  pose proof (Z.div_mod d Duration.Second ltac:(done)) as Ed. fold secs in Ed. pose proof (Z.div_mod secs 60 ltac:(done)) as Es. fold mins in Es.
  assert (0 <= secs) as Hsecs by (apply Z.div_pos; [lia|done]). assert (0 <= mins) as Hmins by (apply Z.div_pos; lia).
  set (part := secs mod 60 * Duration.Second + d mod Duration.Second).
  assert (d = mins * Duration.Minute + part) as Epart by (unfold part, Duration.Minute; lia).
  assert (0 <= part) as Hpart by (unfold part, Duration.Second in *; nia).
  assert (digit_headed tail = true) as Htail by (apply digit_headed_app, pretty_read; lia).
  assert (forall d0, 0 <= d0 -> d0 + part <= 2 ^ 63 -> sum_terms (String.length tail) d0 tail = Some (d0 + part)) as Hsum.
  { intros d0 H0 Hb. eapply (sum_step d0 tail part ""); [|done|done]. unfold tail, part. rewrite <- (string_app_nil_r "s").
    apply (one_term_fraction 9); [left|lia|done|lia|fold part; lia|by right]. }
  destruct (Z.eqb_spec mins 0) as [E0|Hn0].
  { split; [|done]. rewrite Hsum by lia. f_equal. lia. }
  set (hours := mins / 60). pose proof (Z.mod_pos_bound mins 60 ltac:(done)) as Hm60. pose proof (Z.div_mod mins 60 ltac:(done)) as Em. fold hours in Em.
  assert (0 <= hours) as Hhours by (apply Z.div_pos; lia). assert (Duration.Hour = 60 * Duration.Minute) as EH by done.
  assert (0 < Duration.Minute) as HM by done.
  destruct (Z.eqb_spec hours 0) as [Eh|Hnh].
  - split; [|by apply digit_headed_app, pretty_read].
    eapply sum_step; [apply (one_term_int mins "m" Duration.Minute tail); [lia|done|lia|by left]|lia|]. rewrite Hsum by lia. f_equal. lia.
  - split; [|by apply digit_headed_app, pretty_read].
    assert (digit_headed (pretty (mins mod 60) +:+ ("m" +:+ tail)) = true) as Hmid by (apply digit_headed_app, pretty_read; lia).
    assert (mins * Duration.Minute = hours * Duration.Hour + mins mod 60 * Duration.Minute) as Esplit by (rewrite EH; lia).
    assert (0 <= mins mod 60 * Duration.Minute) by nia.
    eapply sum_step; [apply (one_term_int hours "h" Duration.Hour); [lia|done|lia|by left]|lia|].
    eapply sum_step; [apply (one_term_int (mins mod 60) "m" Duration.Minute tail); [lia|done|lia|by left]|lia|].
    rewrite Hsum by lia. f_equal. lia.
Qed.
Lemma magnitude_text_read d : 0 < d <= 2 ^ 63 ->
  sum_terms (String.length (magnitude_text d)) 0 (magnitude_text d) = Some d /\ digit_headed (magnitude_text d) = true.
Proof.
  intros Hd. unfold magnitude_text.
  assert (unit_text "ns" Duration.Nanosecond /\ unit_text (micro +:+ "s") Duration.Microsecond /\ unit_text "ms" Duration.Millisecond) as (Hn & Hu & Hm)
    by (split_and!; apply duration_unit_text; unfold duration_units; rewrite !elem_of_cons; tauto).
  assert (forall s, one_term s = Some (d, "") -> sum_terms (String.length s) 0 s = Some d) as Hone.
  { intros s E. by apply (sum_step 0 s d "" _ E); [lia|]. }
  assert (forall w unit u, (w, unit) ∈ fraction_units -> unit_text u unit -> unit <= d ->
    let s := pretty (d / unit) +:+ (frac_text w (d mod unit) +:+ u) in sum_terms (String.length s) 0 s = Some d /\ digit_headed s = true) as Hfrac.
  { intros w unit u Hw Hut Hle. destruct (ut_pos _ _ Hut) as [Hp _]. pose proof (Z.div_mod d unit ltac:(lia)). pose proof (Z.mod_pos_bound d unit Hp).
    assert (0 <= d / unit) by (apply Z.div_pos; lia). split; [|by apply digit_headed_app, pretty_read]. apply Hone.
    rewrite <- (string_app_nil_r u). replace d with (d / unit * unit + d mod unit) at 3 by lia.
    apply one_term_fraction; [done..|lia|by right]. }
  destruct (Z.ltb_spec d Duration.Microsecond).
  { split; [|apply digit_headed_app, pretty_read; lia]. apply Hone. rewrite <- (string_app_nil_r "ns").
    rewrite (one_term_int d "ns" Duration.Nanosecond ""); [|lia|done|unfold Duration.Nanosecond; lia|by right].
    by rewrite Z.mul_1_r. }
  destruct (Z.ltb_spec d Duration.Millisecond).
  { apply (Hfrac 3%nat Duration.Microsecond); [|done..]. unfold fraction_units. rewrite !elem_of_cons. tauto. }
  destruct (Z.ltb_spec d Duration.Second).
  { apply (Hfrac 6%nat Duration.Millisecond); [|done..]. unfold fraction_units. rewrite !elem_of_cons. tauto. }
  apply clock_text_read. lia.
Qed.

(** The text of a duration is a duration, the same. *)
Lemma ParseDuration_body s d : digit_headed s = true -> sum_terms (String.length s) 0 s = Some d -> s <> "0" ->
  (d < 2 ^ 63 -> ParseDuration s = Some d) /\ ParseDuration ("-" +:+ s) = Some (- d).
Proof.
  intros Hs Hd Hz. assert (nonempty s = true) as Hn by (destruct s; [done|reflexivity]). split.
  - intros Hb. transitivity (if bool_decide (s = "0") then Some 0 else if negb (nonempty s) then None else
      match sum_terms (String.length s) 0 s with None => None | Some d => if 2 ^ 63 - 1 <? d then None else Some d end).
    + destruct s as [|[[] [] [] [] [] [] [] []] s]; cbn in Hs; try discriminate; reflexivity.
    + rewrite bool_decide_eq_false_2, Hn, Hd by done. cbn [negb]. by destruct (Z.ltb_spec (2 ^ 63 - 1) d); [lia|].
  - transitivity (if bool_decide (s = "0") then Some 0 else if negb (nonempty s) then None else
      match sum_terms (String.length s) 0 s with None => None | Some d => Some (- d) end); [reflexivity|].
    by rewrite bool_decide_eq_false_2, Hn, Hd by done.
Qed.
Lemma Duration_roundtrip d : - 2 ^ 63 <= d < 2 ^ 63 -> ParseDuration (Duration_String d) = Some d.
Proof.
  intros Hd. unfold Duration_String. destruct (Z.eqb_spec d 0) as [->|Hz]; [vm_compute; reflexivity|].
  assert (forall m, 0 < m <= 2 ^ 63 -> magnitude_text m <> "0") as Hne.
  { intros m Hm E. destruct (magnitude_text_read m Hm) as [H _]. rewrite E in H. vm_compute in H. discriminate. }
  destruct (Z.ltb_spec d 0).
  - destruct (magnitude_text_read (- d) ltac:(lia)) as [E H']. rewrite (proj2 (ParseDuration_body _ _ H' E (Hne (- d) ltac:(lia)))). f_equal. lia.
  - destruct (magnitude_text_read d ltac:(lia)) as [E H']. apply (ParseDuration_body _ _ H' E (Hne d ltac:(lia))). lia.
Qed.

(** ** A number is printed without spaces *)

Lemma existsb_char_substring p i n s : existsb_char p s = false -> existsb_char p (String.substring i n s) = false.
Proof.
  revert i n. induction s as [|c s IH]; intros [|i] [|n]; cbn; try done; intros [Hc Hs]%orb_false_iff; rewrite ?Hc; by apply IH.
Qed.
Lemma zeros_no_space k : existsb_char is_space (zeros k) = false.
Proof. by induction k. Qed.
Lemma pretty_N_go_no_space x s : existsb_char is_space s = false -> existsb_char is_space (pretty_N_go x s) = false.
Proof.
  revert s. induction (N.lt_wf_0 x) as [x _ IH]. intros s Hs. destruct (decide (x = 0%N)) as [->|Hx]; [by rewrite pretty_N_go_0|].
  rewrite pretty_N_go_step by lia. apply IH; [apply N.div_lt; lia|]. cbn. rewrite Hs, orb_false_r.
  unfold pretty_N_char. by repeat case_match.
Qed.
Lemma pretty_no_space (z : Z) : existsb_char is_space (pretty z) = false.
Proof.
  assert (forall x : N, existsb_char is_space (pretty x) = false) as HN.
  { intros x. unfold pretty, pretty_N. destruct (decide (x = 0%N)); [done|by apply pretty_N_go_no_space]. }
  destruct z as [|p|p]; [done|apply (HN (Npos p))|exact (HN (Npos p))].
Qed.
Lemma format_shortest_no_space f : existsb_char is_space (format_shortest f) = false.
Proof.
  destruct f as [[]|[]| |sg m e]; try done. cbn [format_shortest]. destruct (shortest m e) as [d k].
  rewrite existsb_char_app. replace (existsb_char is_space (sign_text sg)) with false by (by destruct sg). unfold positional.
  destruct (0 <=? k); [apply pretty_no_space|].
  assert (existsb_char is_space (pad_left (1 - k) (pretty d)) = false) as Hp.
  { unfold pad_left. by rewrite existsb_char_app, zeros_no_space, pretty_no_space. }
  rewrite !existsb_char_app, !existsb_char_substring by done. done.
Qed.
Lemma percent_suffix t : HasSuffix (t +:+ "%") "%" = true /\ TrimSuffix (t +:+ "%") "%" = t.
Proof.
  assert (HasSuffix (t +:+ "%") "%" = true) as Hs by (unfold HasSuffix; rewrite srev_app; cbn; by destruct (srev t "")).
  split; [exact Hs|]. unfold TrimSuffix. rewrite Hs, string_length_app. cbn [String.length]. rewrite Nat.add_sub.
  clear Hs. induction t as [|c t IH]; [done|]. exact (f_equal (String c) IH).
Qed.
