(* ===== verification/Timestamp.v ===== *)
(** * Timestamps as text

    Models formatTime and parseTime of internal/store/encoding.go, and the
    layout the API's cursors use: RFC 3339 in UTC with every nanosecond digit.
    Both engines order these columns as text; that this is the order of the
    instants, and that reading back gives the instant written, is proved here. *)

From Stdlib Require Import ZArith Lia String Ascii List.
From stdpp Require Import sorting.
From S2P Require Import Prelude GoTime GoFloat Core GoString.

(** ** The calendar, from a date to a day *)

Definition leap (y : Z) : bool := (y mod 4 =? 0) && (negb (y mod 100 =? 0) || (y mod 400 =? 0)).
Definition daysIn (m y : Z) : Z :=
  if m =? 2 then (if leap y then 29 else 28)
  else if (m =? 4) || (m =? 6) || (m =? 9) || (m =? 11) then 30 else 31.

(** Days before the year [yoe] of an era, years starting in March. *)
Definition year_start (yoe : Z) : Z := 365 * yoe + yoe / 4 - yoe / 100 + yoe / 400.

(** The day of a date, as [time.Date] counts it: [civil]'s inverse. *)
Definition days_of (y m d : Z) : Z :=
  let y := if m <=? 2 then y - 1 else y in
  let mp := if m <=? 2 then m + 9 else m - 3 in
  let doy := (153 * mp + 2) / 5 + d - 1 in
  y / 400 * 146097 + year_start (y mod 400) + doy - 306.

(** ** [time.Format] and [time.Parse] with the layout
    "2006-01-02T15:04:05.000000000Z" *)

(** [formatTime], for the years 0 to 9999. *)
Definition formatTime (t : Z) : string :=
  Time.pad 4 (Time.Year t) +:+ "-" +:+ Time.pad 2 (Time.Month t) +:+ "-" +:+ Time.pad 2 (Time.Day t) +:+ "T" +:+
  Time.pad 2 (Time.HourOf t) +:+ ":" +:+ Time.pad 2 (Time.MinuteOf t) +:+ ":" +:+ Time.pad 2 (Time.SecondOf t) +:+
  "." +:+ Time.pad 9 (Time.NanosecondOf t) +:+ "Z".

Definition digit_val (c : ascii) : Z := Z.of_N (code c) - 48.
Fixpoint digits (n : Z) (s : string) : option Z :=
  match s with
  | EmptyString => Some n
  | String c s => if is_digit c then digits (10 * n + digit_val c) s else None
  end.
(** [atoi] of package time: an optional sign, then digits. *)
Definition atoi (s : string) : option Z :=
  match s with
  | String "-"%char s => Z.opp <$> digits 0 s
  | String "+"%char s => digits 0 s
  | _ => digits 0 s
  end.

(** [getnum]: two digits, or one when the layout allows it. *)
Definition getnum (fixed : bool) (s : string) : option (Z * string) :=
  match s with
  | String a s1 =>
    if negb (is_digit a) then None else
    match s1 with
    | String b s2 => if is_digit b then Some (10 * digit_val a + digit_val b, s2)
                     else if fixed then None else Some (digit_val a, s1)
    | EmptyString => if fixed then None else Some (digit_val a, s1)
    end
  | EmptyString => None
  end.
Definition literal (c : ascii) (s : string) : option string :=
  match s with String x s => if Ascii.eqb x c then Some s else None | EmptyString => None end.
(** The first [n] bytes, and the rest. *)
Fixpoint split_at (n : nat) (s : string) : option (string * string) :=
  match n, s with
  | O, _ => Some (EmptyString, s)
  | S n, String c s => (fun x => (String c x.1, x.2)) <$> split_at n s
  | S _, EmptyString => None
  end.

(** A guard of the parser. *)
Definition ensure (b : bool) : option unit := if b then Some tt else None.

(** [parseTime]. *)
Definition parseTime (s : string) : option Z :=
  '(year, s) ← split_at 4 s;
  y ← digits 0 year;
  s ← literal "-" s; '(m, s) ← getnum true s; _ ← ensure ((1 <=? m) && (m <=? 12));
  s ← literal "-" s; '(d, s) ← getnum true s;
  s ← literal "T" s; '(hour, s) ← getnum false s; _ ← ensure (hour <? 24);
  s ← literal ":" s; '(mn, s) ← getnum true s; _ ← ensure (mn <? 60);
  s ← literal ":" s; '(sec, s) ← getnum true s; _ ← ensure (sec <? 60);
  '(frac, s) ← split_at 10 s;
  ns ← match frac with
       | String c f => if Ascii.eqb c "." || Ascii.eqb c "," then atoi f else None
       | EmptyString => None
       end;
  _ ← ensure (0 <=? ns);
  s ← literal "Z" s; _ ← ensure (negb (nonempty s));
  _ ← ensure ((1 <=? d) && (d <=? daysIn m y));
  mret (days_of y m d * Time.day_ns + hour * Duration.Hour + mn * Duration.Minute + sec * Duration.Second + ns).

Example parse_format : parseTime (formatTime 63850000000123456789) = Some 63850000000123456789.
Proof. reflexivity. Qed.
Example parse_bad_day : parseTime "2025-02-29T00:00:00.000000000Z" = None.
Proof. reflexivity. Qed.
Example parse_one_digit_hour : parseTime "2024-02-29T7:00:00.000000000Z" = parseTime "2024-02-29T07:00:00.000000000Z".
Proof. reflexivity. Qed.

(** ** The calendar is right *)

(** The year of an era a day belongs to. *)
Definition year_of (doe : Z) : Z := (doe - doe / 1460 + doe / 36524 - doe / 146096) / 365.

Lemma year_of_mono d1 d2 : d1 <= d2 -> year_of d1 <= year_of d2.
Proof.
  intros H. assert (Hstep : forall d, year_of d <= year_of (d + 1)).
  { intros d. unfold year_of. apply Z.div_le_mono; [lia|]. Z.to_euclidean_division_equations. lia. }
  replace d2 with (d1 + Z.of_nat (Z.to_nat (d2 - d1))) by lia. induction (Z.to_nat (d2 - d1)) as [|n IH].
  - rewrite Z.add_0_r. lia.
  - etransitivity; [exact IH|]. replace (d1 + Z.of_nat (S n)) with (d1 + Z.of_nat n + 1) by lia. apply Hstep.
Qed.

(** The years of an era, one by one: where each starts and which are leap. *)
Definition year_ok (y : Z) : bool :=
  (year_of (year_start y) =? y) && (year_of (year_start (y + 1) - 1) =? y) &&
  ((year_start (y + 1) - year_start y) =? (if leap (y + 1) then 366 else 365)).
Lemma years_ok y : 0 <= y < 400 -> year_ok y = true.
Proof.
  assert (H : forallb year_ok (seqZ 0 400) = true) by reflexivity. rewrite forallb_forall in H.
  intros Hy. apply H. apply list_elem_of_In, elem_of_seqZ. lia.
Qed.

Lemma year_of_spec doe : 0 <= doe < 146097 ->
  0 <= year_of doe < 400 /\ year_start (year_of doe) <= doe < year_start (year_of doe + 1).
Proof.
  intros Hd. assert (Hr : 0 <= year_of doe < 400).
  { split; [apply (year_of_mono 0 doe); lia|]. pose proof (year_of_mono doe 146096 ltac:(lia)) as H.
    change (year_of 146096) with 399 in H. lia. }
  split; [done|]. set (y := year_of doe) in *.
  assert (Hs : forall k, 0 <= k < 400 -> year_of (year_start k) = k /\ year_of (year_start (k + 1) - 1) = k).
  { intros k Hk. pose proof (years_ok k Hk) as H. unfold year_ok in H. rewrite !andb_true_iff, !Z.eqb_eq in H. tauto. }
  split.
  - apply Z.nlt_ge. intros Hlt. assert (Hy : y <> 0) by (intros E; rewrite E in Hlt; change (year_start 0) with 0 in Hlt; lia).
    pose proof (year_of_mono doe (year_start y - 1) ltac:(lia)) as H. fold y in H.
    replace y with (y - 1 + 1) in H at 2 by lia. rewrite (proj2 (Hs (y - 1) ltac:(lia))) in H. lia.
  - apply Z.nle_gt. intros Hle. destruct (decide (y = 399)) as [E|Hne].
    { rewrite E in Hle. change (year_start (399 + 1)) with 146097 in Hle. lia. }
    pose proof (year_of_mono _ _ Hle) as H. fold y in H. rewrite (proj1 (Hs (y + 1) ltac:(lia))) in H. lia.
Qed.

Lemma leap_shift y k : leap (y + k * 400) = leap y.
Proof.
  unfold leap. replace (y + k * 400) with (y + (k * 100) * 4) at 1 by lia. rewrite Z_mod_plus_full.
  replace (y + k * 400) with (y + (k * 4) * 100) at 1 by lia. by rewrite !Z_mod_plus_full.
Qed.

(** The parts of [civil]. *)
Record civil_parts (days y m d era yoe doy mp : Z) : Prop := {
  cp_yoe : 0 <= yoe < 400;
  cp_doy : 0 <= doy < year_start (yoe + 1) - year_start yoe;
  cp_day : days = era * 146097 + year_start yoe + doy - 306;
  cp_mp : mp = (5 * doy + 2) / 153;
  cp_d : d = doy - (153 * mp + 2) / 5 + 1;
  cp_ym : 12 * y + m = 12 * (yoe + era * 400) + mp + 3;
  cp_m : 1 <= m <= 12;
  cp_mp_bound : 0 <= mp <= 11;
}.

Lemma civil_spec days :
  exists era yoe doy mp, let '(y, m, d) := Time.civil days in civil_parts days y m d era yoe doy mp.
Proof.
  unfold Time.civil. cbv zeta. set (doe := (days + 306) mod 146097). set (era := (days + 306) / 146097).
  assert (Hd : 0 <= doe < 146097) by (apply Z.mod_pos_bound; lia).
  fold (year_of doe). destruct (year_of_spec doe Hd) as [Hy Hs].
  replace (365 * year_of doe + year_of doe / 4 - year_of doe / 100) with (year_start (year_of doe))
    by (unfold year_start; rewrite (Z.div_small _ 400) by done; lia).
  set (yoe := year_of doe) in *. set (doy := doe - year_start yoe) in *.
  assert (Hlen : year_start (yoe + 1) - year_start yoe <= 366).
  { unfold year_start. Z.to_euclidean_division_equations. lia. }
  assert (Hmp : 0 <= (5 * doy + 2) / 153 <= 11) by (Z.to_euclidean_division_equations; lia).
  assert (Hdays : days + 306 = era * 146097 + doe) by (unfold era, doe; rewrite Z.mul_comm; apply Z.div_mod; lia).
  exists era, yoe, doy, ((5 * doy + 2) / 153). split; [done|lia|lia|done|done| | |done];
    destruct (Z.ltb_spec ((5 * doy + 2) / 153) 10);
    try match goal with |- context [?a <=? 2] => destruct (Z.leb_spec a 2) end; lia.
Qed.

(** Day [doy] of a year starting in March is day [d] of month [mp]. *)
Lemma month_day doy mp : 0 <= doy <= 365 -> mp = (5 * doy + 2) / 153 ->
  let d := doy - (153 * mp + 2) / 5 + 1 in
  let m := if mp <? 10 then mp + 3 else mp - 9 in
  1 <= d /\ (m <> 2 -> forall y, d <= daysIn m y) /\ (m = 2 -> d <= 29 /\ (d = 29 -> doy = 365)).
Proof.
  intros Hd ->. set (f := fun doy => let mp := (5 * doy + 2) / 153 in let d := doy - (153 * mp + 2) / 5 + 1 in
    let m := if mp <? 10 then mp + 3 else mp - 9 in
    (1 <=? d) && (if m =? 2 then (d <=? 29) && (negb (d =? 29) || (doy =? 365)) else d <=? daysIn m 1)).
  assert (H : forallb f (seqZ 0 366) = true) by reflexivity. rewrite forallb_forall in H.
  specialize (H doy ltac:(apply list_elem_of_In, elem_of_seqZ; lia)). unfold f in H. cbv zeta in H |- *.
  apply andb_true_iff in H as [H1 H2]. split; [lia|]. destruct (Z.eqb_spec (if (5 * doy + 2) / 153 <? 10 then (5 * doy + 2) / 153 + 3 else (5 * doy + 2) / 153 - 9) 2) as [E|Hne].
  - apply andb_true_iff in H2 as [H2 H3]. split; [lia|]. intros _. split; [lia|]. intros E'.
    rewrite E' in H3. lia.
  - split; [|lia]. intros _ y. unfold daysIn in *. apply Z.eqb_neq in Hne. rewrite Hne in *. lia.
Qed.

(** The date of a day is a date, and its day is that day. *)
Lemma civil_valid days : let '(y, m, d) := Time.civil days in 1 <= m <= 12 /\ 1 <= d <= daysIn m y.
Proof.
  destruct (civil_spec days) as (era & yoe & doy & mp & H). destruct (Time.civil days) as [[y m] d].
  destruct H as [Hy Hd _ Hmp -> Hym Hm Hb]. split; [done|].
  pose proof (years_ok yoe Hy) as Hok. unfold year_ok in Hok. rewrite !andb_true_iff, !Z.eqb_eq in Hok.
  destruct Hok as [_ Hlen].
  assert (Hd' : 0 <= doy <= 365) by (destruct (leap (yoe + 1)); lia).
  assert (Hm' : m = if mp <? 10 then mp + 3 else mp - 9) by (destruct (Z.ltb_spec mp 10); lia).
  pose proof (month_day doy mp Hd' Hmp) as H. cbv zeta in H. rewrite <- Hm' in H.
  destruct H as (H1 & H2 & H3). split; [done|]. destruct (decide (m = 2)) as [->|Hne]; [|by apply H2].
  destruct (H3 eq_refl) as [H4 H5]. unfold daysIn. cbn.
  assert (Ey : leap y = leap (yoe + 1)). { replace y with (yoe + 1 + era * 400) by lia. apply leap_shift. }
  rewrite Ey. destruct (leap (yoe + 1)) eqn:El; [done|].
  destruct (decide (doy - (153 * mp + 2) / 5 + 1 = 29)) as [E|]; [|lia]. specialize (H5 E). lia.
Qed.

Lemma days_of_civil days : let '(y, m, d) := Time.civil days in days_of y m d = days.
Proof.
  destruct (civil_spec days) as (era & yoe & doy & mp & H). destruct (Time.civil days) as [[y m] d].
  destruct H as [Hy Hd -> Hmp -> Hym Hm Hb]. unfold days_of. cbv zeta.
  assert (Hr : (if m <=? 2 then y - 1 else y) = yoe + era * 400 /\ (if m <=? 2 then m + 9 else m - 3) = mp).
  { destruct (Z.leb_spec m 2); lia. }
  destruct Hr as [-> ->]. rewrite Z_mod_plus_full, Z.div_add, Z.mod_small, Z.div_small by lia. lia.
Qed.

(** ** Reading back what was written *)

(** The years the layout can hold. *)
Definition printable (t : Z) : Prop := 0 <= Time.Year t < 10000.

Lemma digit_digit n : is_digit (Time.digit n) = true /\ digit_val (Time.digit n) = n mod 10.
Proof.
  assert (H : forallb (fun k => is_digit (Time.digit k) && (digit_val (Time.digit k) =? k)) (seqZ 0 10) = true) by reflexivity.
  rewrite forallb_forall in H. pose proof (Z.mod_pos_bound n 10 ltac:(lia)) as Hb.
  specialize (H (n mod 10) ltac:(apply list_elem_of_In, elem_of_seqZ; lia)).
  replace (Time.digit n) with (Time.digit (n mod 10)) by (unfold Time.digit; by rewrite Zmod_mod).
  apply andb_true_iff in H as [H1 H2]. by apply Z.eqb_eq in H2.
Qed.

Lemma digits_app k s1 s2 : digits k (s1 +:+ s2) = (n ← digits k s1; digits n s2).
Proof.
  revert k. induction s1 as [|c s1 IH]; intros k; [done|].
  change (digits k (String c s1 +:+ s2)) with (if is_digit c then digits (10 * k + digit_val c) (s1 +:+ s2) else None).
  cbn. destruct (is_digit c); [apply IH | done].
Qed.

Lemma digits_pad w k n : 0 <= n -> digits k (Time.pad w n) = Some (k * 10 ^ Z.of_nat w + n mod 10 ^ Z.of_nat w).
Proof.
  revert k n. induction w as [|w IH]; intros k n Hn; cbn [Time.pad].
  { cbn. f_equal. rewrite Z.mod_1_r. lia. }
  rewrite digits_app, IH by (apply Z.div_pos; lia). cbn [mbind option_bind digits].
  destruct (digit_digit n) as [-> ->]. f_equal.
  rewrite Nat2Z.inj_succ, Z.pow_succ_r, (Z.rem_mul_r n 10 (10 ^ Z.of_nat w)) by lia. lia.
Qed.

Lemma getnum_pad fixed n s : 0 <= n < 100 -> getnum fixed (Time.pad 2 n +:+ s) = Some (n, s).
Proof.
  intros Hn. change (getnum fixed (String (Time.digit (n / 10)) (String (Time.digit n) s)) = Some (n, s)). unfold getnum.
  destruct (digit_digit (n / 10)) as [-> ->], (digit_digit n) as [-> ->]. cbn [negb]. do 2 f_equal. Z.to_euclidean_division_equations. lia.
Qed.

Lemma split_at_app s1 s2 : split_at (String.length s1) (s1 +:+ s2) = Some (s1, s2).
Proof.
  induction s1 as [|c s1 IH]; [done|]. change (String c s1 +:+ s2) with (String c (s1 +:+ s2)). cbn. by rewrite IH.
Qed.
Lemma split_at_pad w n s : split_at w (Time.pad w n +:+ s) = Some (Time.pad w n, s).
Proof. rewrite <- (length_pad w n) at 1. apply split_at_app. Qed.

Lemma literal_app c s : literal c (String c EmptyString +:+ s) = Some s.
Proof. change (String c EmptyString +:+ s) with (String c s). cbn. by rewrite Ascii.eqb_refl. Qed.

(** The time of day of an instant. *)
Lemma part_spec t b c :
  0 < b -> 0 < c -> 0 <= (t mod (b * c)) / b < c /\ t mod (b * c) = t mod b + b * ((t mod (b * c)) / b).
Proof.
  intros Hb Hc. rewrite Z.rem_mul_r by lia. rewrite Z.add_comm, Z.mul_comm, Z.div_add_l by lia.
  rewrite (Z.div_small (t mod b)), Z.add_0_r by (apply Z.mod_pos_bound; lia).
  split; [apply Z.mod_pos_bound; lia | lia].
Qed.

Lemma clock_parts t :
  0 <= Time.HourOf t < 24 /\ 0 <= Time.MinuteOf t < 60 /\ 0 <= Time.SecondOf t < 60 /\
  0 <= Time.NanosecondOf t < 1000000000 /\
  t = t / Time.day_ns * Time.day_ns + Time.HourOf t * Duration.Hour + Time.MinuteOf t * Duration.Minute +
      Time.SecondOf t * Duration.Second + Time.NanosecondOf t.
Proof.
  unfold Time.HourOf, Time.MinuteOf, Time.SecondOf, Time.NanosecondOf.
  destruct (part_spec t Duration.Second 60 ltac:(done) ltac:(done)) as [H1 E1].
  destruct (part_spec t Duration.Minute 60 ltac:(done) ltac:(done)) as [H2 E2].
  destruct (part_spec t Duration.Hour 24 ltac:(done) ltac:(done)) as [H3 E3].
  replace Time.day_ns with (Duration.Hour * 24) by done.
  change (Duration.Second * 60) with Duration.Minute in *. change (Duration.Minute * 60) with Duration.Hour in *.
  pose proof (Z.mod_pos_bound t Duration.Second ltac:(done)) as H4. change 1000000000 with Duration.Second.
  split_and!; [lia..|]. pose proof (Z.div_mod t (Duration.Hour * 24) ltac:(done)) as H5. lia.
Qed.

Lemma atoi_pad w n : 0 <= n -> atoi (Time.pad (S w) n) = Some (n mod 10 ^ Z.of_nat (S w)).
Proof.
  intros Hn. pose proof (digits_pad (S w) 0 n Hn) as Hd. rewrite Z.mul_0_l, Z.add_0_l in Hd. rewrite <- Hd.
  destruct (Time.pad (S w) n) as [|c s]; [done|]. cbn in Hd |- *. destruct c as [[] [] [] [] [] [] [] []]; done.
Qed.

(** One step of a parser that succeeds. *)
Ltac parse_step := cbn [mbind option_bind ensure].

Lemma parse_formatTime t : printable t -> parseTime (formatTime t) = Some t.
Proof.
  intros Hy. unfold printable, Time.Year, Time.date in Hy.
  pose proof (civil_valid (t / Time.day_ns)) as Hv. pose proof (days_of_civil (t / Time.day_ns)) as Hd.
  unfold formatTime, parseTime, Time.Year, Time.Month, Time.Day, Time.date.
  destruct (Time.civil (t / Time.day_ns)) as [[y m] d]. cbn [fst snd] in *. destruct Hv as [Hm Hdd].
  destruct (clock_parts t) as (Hh & Hmi & Hs & Hns & Ht).
  assert (Hd2 : daysIn m y <= 31) by (unfold daysIn; repeat case_match; lia).
  rewrite split_at_pad. parse_step. rewrite digits_pad, Z.mul_0_l, Z.add_0_l, Z.mod_small by (cbn; lia). parse_step.
  rewrite literal_app. parse_step. rewrite getnum_pad by lia. parse_step.
  replace ((1 <=? m) && (m <=? 12)) with true by lia. parse_step.
  rewrite literal_app. parse_step. rewrite getnum_pad by lia. parse_step.
  rewrite literal_app. parse_step. rewrite getnum_pad by lia. parse_step.
  replace (Time.HourOf t <? 24) with true by lia. parse_step.
  rewrite literal_app. parse_step. rewrite getnum_pad by lia. parse_step.
  replace (Time.MinuteOf t <? 60) with true by lia. parse_step.
  rewrite literal_app. parse_step. rewrite getnum_pad by lia. parse_step.
  replace (Time.SecondOf t <? 60) with true by lia. parse_step.
  change ("." +:+ Time.pad 9 (Time.NanosecondOf t) +:+ "Z") with (("." +:+ Time.pad 9 (Time.NanosecondOf t)) +:+ "Z").
  pose proof (split_at_app ("." +:+ Time.pad 9 (Time.NanosecondOf t)) "Z") as E.
  rewrite string_length_app, length_pad in E. cbn [String.length Nat.add] in E. rewrite E. parse_step.
  change ("." +:+ Time.pad 9 (Time.NanosecondOf t)) with (String "." (Time.pad 9 (Time.NanosecondOf t))).
  cbn [Ascii.eqb orb Bool.eqb]. rewrite atoi_pad, Z.mod_small by (cbn; lia). parse_step.
  replace (0 <=? Time.NanosecondOf t) with true by lia. parse_step.
  change (literal "Z" "Z") with (Some ""). parse_step. change (nonempty "") with false. parse_step. cbn [negb]. parse_step.
  replace ((1 <=? d) && (d <=? daysIn m y)) with true by lia. parse_step. rewrite Hd. cbn. f_equal. lia.
Qed.

(** ** The order of the text is the order of the instants *)

Lemma compare_app a1 a2 b1 b2 :
  String.length a1 = String.length a2 ->
  String.compare (a1 +:+ b1) (a2 +:+ b2) = match String.compare a1 a2 with Eq => String.compare b1 b2 | c => c end.
Proof.
  revert a2. induction a1 as [|c a1 IH]; intros [|c' a2] Hl; try done.
  change (String c a1 +:+ b1) with (String c (a1 +:+ b1)). change (String c' a2 +:+ b2) with (String c' (a2 +:+ b2)).
  cbn. destruct (Ascii.compare c c'); [|done..]. apply IH. by injection Hl.
Qed.

Lemma compare_char c b1 b2 : String.compare (String c EmptyString +:+ b1) (String c EmptyString +:+ b2) = String.compare b1 b2.
Proof. rewrite compare_app by done. cbn. unfold Ascii.compare. by rewrite N.compare_refl. Qed.

Lemma compare_digit n m : Ascii.compare (Time.digit n) (Time.digit m) = (n mod 10 ?= m mod 10).
Proof.
  assert (H : forallb (fun k => forallb (fun j => match Ascii.compare (Time.digit k) (Time.digit j), k ?= j with
    Eq, Eq | Lt, Lt | Gt, Gt => true | _, _ => false end) (seqZ 0 10)) (seqZ 0 10) = true) by reflexivity.
  rewrite forallb_forall in H. pose proof (Z.mod_pos_bound n 10 ltac:(lia)). pose proof (Z.mod_pos_bound m 10 ltac:(lia)).
  specialize (H (n mod 10) ltac:(apply list_elem_of_In, elem_of_seqZ; lia)). rewrite forallb_forall in H.
  specialize (H (m mod 10) ltac:(apply list_elem_of_In, elem_of_seqZ; lia)).
  replace (Time.digit n) with (Time.digit (n mod 10)) by (unfold Time.digit; by rewrite Zmod_mod).
  replace (Time.digit m) with (Time.digit (m mod 10)) by (unfold Time.digit; by rewrite Zmod_mod).
  destruct (Ascii.compare _ _), (_ ?= _); done.
Qed.

Lemma compare_pad w n m :
  0 <= n < 10 ^ Z.of_nat w -> 0 <= m < 10 ^ Z.of_nat w -> String.compare (Time.pad w n) (Time.pad w m) = (n ?= m).
Proof.
  revert n m. induction w as [|w IH]; intros n m Hn Hm; cbn [Time.pad].
  { cbn in *. assert (n = 0) as -> by lia. assert (m = 0) as -> by lia. done. }
  rewrite Nat2Z.inj_succ, Z.pow_succ_r in Hn, Hm by lia.
  rewrite compare_app by (by rewrite !length_pad). rewrite IH by (split; [apply Z.div_pos; lia | apply Z.div_lt_upper_bound; lia]).
  cbn. rewrite compare_digit. pose proof (Z.div_mod n 10 ltac:(lia)). pose proof (Z.div_mod m 10 ltac:(lia)).
  pose proof (Z.mod_pos_bound n 10 ltac:(lia)). pose proof (Z.mod_pos_bound m 10 ltac:(lia)).
  destruct (Z.compare_spec (n / 10) (m / 10)), (Z.compare_spec (n mod 10) (m mod 10)), (Z.compare_spec n m); try done; lia.
Qed.

Lemma year_start_shift y k : year_start (y + k * 400) = year_start y + k * 146097.
Proof.
  unfold year_start. rewrite (Z.div_add y k 400) by lia. replace (k * 400) with (k * 100 * 4) at 2 by lia.
  rewrite Z.div_add by lia. replace (k * 400) with (k * 4 * 100) by lia. rewrite Z.div_add by lia. lia.
Qed.
Lemma year_start_mono a b : a <= b -> year_start a <= year_start b.
Proof. intros. unfold year_start. Z.to_euclidean_division_equations. lia. Qed.

(** A later day has a later date. *)
Lemma civil_mono a b : a < b ->
  let '(y, m, d) := Time.civil a in let '(y', m', d') := Time.civil b in
  12 * y + m < 12 * y' + m' \/ (12 * y + m = 12 * y' + m' /\ d < d').
Proof.
  intros Hab. destruct (civil_spec a) as (era & yoe & doy & mp & H), (civil_spec b) as (era' & yoe' & doy' & mp' & H').
  destruct (Time.civil a) as [[y m] d], (Time.civil b) as [[y' m'] d'].
  destruct H as [Hy Hd Ha -> -> Hym _ Hb], H' as [Hy' Hd' Ha' -> -> Hym' _ Hb'].
  set (Y := yoe + era * 400) in *. set (Y' := yoe' + era' * 400) in *.
  assert (E : year_start Y = year_start yoe + era * 146097) by apply year_start_shift.
  assert (E' : year_start Y' = year_start yoe' + era' * 146097) by apply year_start_shift.
  assert (F' : year_start (Y' + 1) = year_start (yoe' + 1) + era' * 146097).
  { unfold Y'. replace (yoe' + era' * 400 + 1) with (yoe' + 1 + era' * 400) by lia. apply year_start_shift. }
  destruct (Z.lt_trichotomy Y Y') as [Hlt|[Heq|Hgt]]; [left; lia| |].
  - rewrite Heq in *. assert (Hdd : doy < doy') by lia. clear - Hdd Hym Hym' Hd.
    assert ((5 * doy + 2) / 153 <= (5 * doy' + 2) / 153) by (apply Z.div_le_mono; lia).
    destruct (decide ((5 * doy + 2) / 153 = (5 * doy' + 2) / 153)) as [Em|]; [right; rewrite Em in *; lia | left; lia].
  - pose proof (year_start_mono (Y' + 1) Y ltac:(lia)). lia.
Qed.

Lemma civil_compare a b :
  (a ?= b) = let '(y, m, d) := Time.civil a in let '(y', m', d') := Time.civil b in
    match y ?= y' with Eq => match m ?= m' with Eq => d ?= d' | c => c end | c => c end.
Proof.
  pose proof (civil_mono a b) as H1. pose proof (civil_mono b a) as H2.
  pose proof (civil_valid a) as Ha. pose proof (civil_valid b) as Hb.
  destruct (Z.compare_spec a b) as [E|Hlt|Hgt].
  - subst b. destruct (Time.civil a) as [[y m] d]. by rewrite !Z.compare_refl.
  - specialize (H1 Hlt). destruct (Time.civil a) as [[y m] d], (Time.civil b) as [[y' m'] d'].
    destruct (Z.compare_spec y y'); [|done|lia]. destruct (Z.compare_spec m m'); [|done|lia].
    symmetry. apply Z.compare_lt_iff. lia.
  - specialize (H2 Hgt). destruct (Time.civil a) as [[y m] d], (Time.civil b) as [[y' m'] d'].
    destruct (Z.compare_spec y y'); [|lia|done]. destruct (Z.compare_spec m m'); [|lia|done].
    symmetry. apply Z.compare_gt_iff. lia.
Qed.

Lemma formatTime_compare t u : printable t -> printable u -> String.compare (formatTime t) (formatTime u) = (t ?= u).
Proof.
  intros Ht Hu. unfold printable, Time.Year, Time.date in Ht, Hu.
  pose proof (civil_compare (t / Time.day_ns) (u / Time.day_ns)) as Hc.
  pose proof (civil_valid (t / Time.day_ns)) as Vt. pose proof (civil_valid (u / Time.day_ns)) as Vu.
  unfold formatTime, Time.Year, Time.Month, Time.Day, Time.date.
  destruct (Time.civil (t / Time.day_ns)) as [[y m] d], (Time.civil (u / Time.day_ns)) as [[y' m'] d']. cbn [fst snd] in *.
  destruct (clock_parts t) as (Hh & Hmi & Hs & Hns & Et), (clock_parts u) as (Hh' & Hmi' & Hs' & Hns' & Eu).
  assert (Hd2 : forall m y, daysIn m y <= 31) by (intros; unfold daysIn; repeat case_match; lia).
  pose proof (Hd2 m y). pose proof (Hd2 m' y').
  repeat first [rewrite compare_char
    | rewrite compare_app by (by rewrite !length_pad); rewrite compare_pad by (cbn; lia)].
  change (String.compare "Z" "Z") with Eq.
  unfold Time.day_ns, Duration.Hour, Duration.Minute, Duration.Second in *.
  destruct (Z.compare_spec t u) as [E|Hlt|Hgt].
  - subst u. rewrite Z.compare_refl in Hc. rewrite !Z.compare_refl. destruct (y ?= y'), (m ?= m'), (d ?= d'); done.
  - destruct (Z.compare_spec (t / (24 * (60 * (60 * 1000000000)))) (u / (24 * (60 * (60 * 1000000000))))) as [E|?|?].
    + destruct (y ?= y'), (m ?= m'), (d ?= d'); try done.
      repeat match goal with |- context [?a ?= ?b] => destruct (Z.compare_spec a b) end; try done; lia.
    + destruct (y ?= y'), (m ?= m'), (d ?= d'); done.
    + lia.
  - destruct (Z.compare_spec (t / (24 * (60 * (60 * 1000000000)))) (u / (24 * (60 * (60 * 1000000000))))) as [E|?|?].
    + destruct (y ?= y'), (m ?= m'), (d ?= d'); try done.
      repeat match goal with |- context [?a ?= ?b] => destruct (Z.compare_spec a b) end; try done; lia.
    + lia.
    + destruct (y ?= y'), (m ?= m'), (d ?= d'); done.
Qed.

(** ** Theorems *)

(** Timestamps keep what they say and sort as they happened. In the years
    the fixed-width layout can hold, reading a written timestamp gives back
    the very instant, to the nanosecond, and the byte order of two texts is the
    order of their instants: ORDER BY and every comparison of the database on
    these columns are chronological. *)
Theorem timestamps_chronological t u :
  printable t -> printable u ->
  parseTime (formatTime t) = Some t /\ String.compare (formatTime t) (formatTime u) = (t ?= u).
Proof. intros Ht Hu. split; [by apply parse_formatTime | by apply formatTime_compare]. Qed.

Lemma timestamps_chronological_witness :
  let t := 63850000000123456789 in let u := 63850000001000000000 in
  parseTime (formatTime t) = Some t /\ String.compare (formatTime t) (formatTime u) = Lt.
Proof. intros t u. apply (timestamps_chronological t u); split; vm_compute; congruence. Defined.
