(* ===== verification/Base64.v ===== *)
(** * encoding/base64, as the source uses it

    The URL alphabet without padding (cursors and secrets of the API) and the
    standard one with padding (sealed values). *)

From Stdlib Require Import ZArith Lia String Ascii List.
From stdpp Require Import sorting.
From S2P Require Import Prelude GoFloat Core GoString.

Definition byte_of (c : ascii) : Z := Z.of_N (code c).
Definition char_of (b : Z) : ascii := ascii_of_N (Z.to_N b).

(** An encoding: its last two characters, and whether it pads. *)
Record Encoding := mkEncoding { c62 : ascii; c63 : ascii; padded : bool }.
Definition RawURLEncoding : Encoding := mkEncoding "-" "_" false.
Definition StdEncoding : Encoding := mkEncoding "+" "/" true.

Section Base64.
Context (enc : Encoding).

Definition sextet_char (v : Z) : ascii :=
  if v <? 26 then char_of (65 + v) else if v <? 52 then char_of (71 + v)
  else if v <? 62 then char_of (v - 4) else if v =? 62 then c62 enc else c63 enc.
Definition char_sextet (c : ascii) : option Z :=
  if is_upper c then Some (byte_of c - 65) else if is_lower c then Some (byte_of c - 71)
  else if is_digit c then Some (byte_of c + 4)
  else if Ascii.eqb c (c62 enc) then Some 62 else if Ascii.eqb c (c63 enc) then Some 63 else None.

Definition chars (vs : list Z) (pad : nat) (rest : string) : string :=
  foldr (fun v s => String (sextet_char v) s)
    (Nat.iter (if padded enc then pad else O) (String "=") rest) vs.

(** [EncodeToString]. *)
Fixpoint EncodeToString (s : string) : string :=
  match s with
  | EmptyString => EmptyString
  | String a EmptyString =>
    let a := byte_of a in chars [a / 4; a mod 4 * 16] 2 EmptyString
  | String a (String b EmptyString) =>
    let a := byte_of a in let b := byte_of b in
    chars [a / 4; a mod 4 * 16 + b / 16; b mod 16 * 4] 1 EmptyString
  | String a (String b (String c rest)) =>
    let a := byte_of a in let b := byte_of b in let c := byte_of c in
    chars [a / 4; a mod 4 * 16 + b / 16; b mod 16 * 4 + c / 64; c mod 64] 0 (EncodeToString rest)
  end.

(** [DecodeString], after the line breaks it ignores. *)
Definition first_byte (v1 v2 : Z) : ascii := char_of (v1 * 4 + v2 / 16).
Definition second_byte (v2 v3 : Z) : ascii := char_of (v2 mod 16 * 16 + v3 / 4).
Definition third_byte (v3 v4 : Z) : ascii := char_of (v3 mod 4 * 64 + v4).
Fixpoint decode (s : string) : option string :=
  match s with
  | EmptyString => Some EmptyString
  | String c1 (String c2 rest) =>
    v1 ← char_sextet c1; v2 ← char_sextet c2;
    let one := String (first_byte v1 v2) EmptyString in
    match rest with
    | EmptyString => if padded enc then None else Some one
    | String c3 rest =>
      match rest with
      | EmptyString =>
        if padded enc then None
        else v3 ← char_sextet c3; Some (String (first_byte v1 v2) (String (second_byte v2 v3) EmptyString))
      | String c4 rest =>
        if padded enc && Ascii.eqb c3 "=" then
          (if Ascii.eqb c4 "=" && negb (nonempty rest) then Some one else None)
        else
          v3 ← char_sextet c3;
          if padded enc && Ascii.eqb c4 "=" then
            (if negb (nonempty rest) then Some (String (first_byte v1 v2) (String (second_byte v2 v3) EmptyString)) else None)
          else
            v4 ← char_sextet c4;
            (fun s => String (first_byte v1 v2) (String (second_byte v2 v3) (String (third_byte v3 v4) s))) <$> decode rest
      end
    end
  | String _ EmptyString => None
  end.

Fixpoint drop_breaks (s : string) : string :=
  match s with
  | EmptyString => EmptyString
  | String c s => if (code c =? 10)%N || (code c =? 13)%N then drop_breaks s else String c (drop_breaks s)
  end.
Definition DecodeString (s : string) : option string := decode (drop_breaks s).
End Base64.

Example base64_std : EncodeToString StdEncoding "Man" = "TWFu" /\ EncodeToString StdEncoding "Ma" = "TWE=" /\
  EncodeToString StdEncoding "M" = "TQ==" /\ DecodeString StdEncoding "TW
Fu" = Some "Man" /\ DecodeString StdEncoding "TWE" = None.
Proof. vm_compute. split_and!; reflexivity. Qed.

(** ** Decoding what was encoded *)

Section Roundtrip.
Context (enc : Encoding).

(** The two characters an encoding chooses are its own. *)
Definition proper : bool :=
  forallb (fun v => let c := sextet_char enc v in
    match char_sextet enc c with Some v' => v' =? v | None => false end &&
    negb (Ascii.eqb c "=") && negb ((code c =? 10)%N || (code c =? 13)%N)) (seqZ 0 64).
Hypothesis enc_proper : proper = true.

Lemma sextet_ok v : 0 <= v < 64 ->
  char_sextet enc (sextet_char enc v) = Some v /\ Ascii.eqb (sextet_char enc v) "=" = false /\
  ((code (sextet_char enc v) =? 10)%N || (code (sextet_char enc v) =? 13)%N) = false.
Proof.
  intros Hv. unfold proper in enc_proper. rewrite forallb_forall in enc_proper.
  specialize (enc_proper v ltac:(apply list_elem_of_In, elem_of_seqZ; lia)). cbv zeta in enc_proper.
  apply andb_true_iff in enc_proper as [H H3]. apply andb_true_iff in H as [H1 H2].
  apply negb_true_iff in H2, H3. split_and!; [|done..].
  destruct (char_sextet enc (sextet_char enc v)); [|done]. f_equal. lia.
Qed.

Lemma byte_bound c : 0 <= byte_of c < 256.
Proof. unfold byte_of, code. pose proof (N_ascii_bounded c). lia. Qed.
Lemma char_byte c : char_of (byte_of c) = c.
Proof. unfold char_of, byte_of, code. rewrite N2Z.id. apply ascii_N_embedding. Qed.

Lemma drop_breaks_cons c s :
  ((code c =? 10)%N || (code c =? 13)%N) = false -> drop_breaks (String c s) = String c (drop_breaks s).
Proof. intros E. cbn. by rewrite E. Qed.

Lemma string_ind3 (P : string -> Prop) :
  P EmptyString -> (forall a, P (String a EmptyString)) -> (forall a b, P (String a (String b EmptyString))) ->
  (forall a b c s, P s -> P (String a (String b (String c s)))) -> forall s, P s.
Proof.
  intros H0 H1 H2 H3. fix IH 1. intros [|a [|b [|c s]]]; [done|apply H1|apply H2|apply H3, IH].
Qed.

(** The sextets of a byte. *)
Ltac sextets a b c :=
  pose proof (byte_bound a); pose proof (byte_bound b); pose proof (byte_bound c);
  assert (0 <= byte_of a / 4 < 64 /\ 0 <= byte_of a mod 4 * 16 < 64 /\ 0 <= byte_of a mod 4 * 16 + byte_of b / 16 < 64 /\
    0 <= byte_of b mod 16 * 4 < 64 /\ 0 <= byte_of b mod 16 * 4 + byte_of c / 64 < 64 /\ 0 <= byte_of c mod 64 < 64)
    as (? & ? & ? & ? & ? & ?) by (Z.to_euclidean_division_equations; lia).

Ltac read_sextets := repeat match goal with
  | |- context [char_sextet enc (sextet_char enc ?v)] => rewrite (proj1 (sextet_ok v ltac:(assumption))); cbn [mbind option_bind]
  | |- context [Ascii.eqb (sextet_char enc ?v) "="%char] =>
    rewrite (proj1 (proj2 (sextet_ok v ltac:(assumption)))), ?andb_false_r; cbn [mbind option_bind andb negb]
  end.

Lemma encode_clean s : drop_breaks (EncodeToString enc s) = EncodeToString enc s.
Proof.
  induction s as [|a|a b|a b c s IH] using string_ind3; [done|..]; cbn [EncodeToString chars foldr];
    [sextets a a a | sextets a b b | sextets a b c];
    repeat (rewrite drop_breaks_cons by (by apply sextet_ok)); [by destruct (padded enc)..|].
  replace (if padded enc then O else O) with O by (by destruct (padded enc)). cbn [Nat.iter nat_rect]. by rewrite IH.
Qed.

Lemma decode_encode s : decode enc (EncodeToString enc s) = Some s.
Proof.
  induction s as [|a|a b|a b c s IH] using string_ind3; [done|..]; cbn [EncodeToString chars foldr Nat.iter];
    [sextets a a a | sextets a b b | sextets a b c].
  - assert (E : first_byte (byte_of a / 4) (byte_of a mod 4 * 16) = a).
    { unfold first_byte. rewrite <- (char_byte a) at 3. f_equal. Z.to_euclidean_division_equations. lia. }
    destruct (padded enc) eqn:Ep; cbn [Nat.iter nat_rect nat_rec]; cbn [decode]; rewrite Ep;
      read_sextets; cbn; by rewrite E.
  - assert (E : first_byte (byte_of a / 4) (byte_of a mod 4 * 16 + byte_of b / 16) = a).
    { unfold first_byte. rewrite <- (char_byte a) at 3. f_equal. Z.to_euclidean_division_equations. lia. }
    assert (E2 : second_byte (byte_of a mod 4 * 16 + byte_of b / 16) (byte_of b mod 16 * 4) = b).
    { unfold second_byte. rewrite <- (char_byte b) at 3. f_equal. Z.to_euclidean_division_equations. lia. }
    destruct (padded enc) eqn:Ep; cbn [Nat.iter nat_rect nat_rec]; cbn [decode]; rewrite Ep;
      read_sextets; cbn; by rewrite E, E2.
  - assert (E : first_byte (byte_of a / 4) (byte_of a mod 4 * 16 + byte_of b / 16) = a).
    { unfold first_byte. rewrite <- (char_byte a) at 3. f_equal. Z.to_euclidean_division_equations. lia. }
    assert (E2 : second_byte (byte_of a mod 4 * 16 + byte_of b / 16) (byte_of b mod 16 * 4 + byte_of c / 64) = b).
    { unfold second_byte. rewrite <- (char_byte b) at 3. f_equal. Z.to_euclidean_division_equations. lia. }
    assert (E3 : third_byte (byte_of b mod 16 * 4 + byte_of c / 64) (byte_of c mod 64) = c).
    { unfold third_byte. rewrite <- (char_byte c) at 3. f_equal. Z.to_euclidean_division_equations. lia. }
    replace (if padded enc then O else O) with O by (by destruct (padded enc)). cbn [Nat.iter nat_rect nat_rec].
    cbn [decode]. read_sextets. rewrite IH. cbn. by rewrite E, E2, E3.
Qed.

Lemma base64_roundtrip s : DecodeString enc (EncodeToString enc s) = Some s.
Proof. unfold DecodeString. by rewrite encode_clean, decode_encode. Qed.
End Roundtrip.

Lemma RawURL_proper : proper RawURLEncoding = true.
Proof. reflexivity. Qed.
Lemma Std_proper : proper StdEncoding = true.
Proof. reflexivity. Qed.
