(* ===== verification/Secrets.v ===== *)
(** * Secrets

    Models internal/crypto: sealed values (seal.go), the master key as text
    (key.go) and as a file (store.go). AES-GCM, the random bytes, the environment
    and the file system are outside. *)

From Stdlib Require Import ZArith Lia String Ascii List.
From S2P Require Import Prelude GoFloat Errors Core GoString Base64.

(** ** encoding/hex *)

Definition hex_digit (n : N) : ascii := ascii_of_N (if (n <? 10)%N then 48 + n else 87 + n).
Fixpoint hex (s : string) : string :=
  match s with
  | EmptyString => EmptyString
  | String c s => String (hex_digit (code c / 16)) (String (hex_digit (code c mod 16)) (hex s))
  end.
Definition unhex_digit (c : ascii) : option N :=
  if is_digit c then Some (code c - 48)%N
  else if (97 <=? code c)%N && (code c <=? 102)%N then Some (code c - 87)%N
  else if (65 <=? code c)%N && (code c <=? 70)%N then Some (code c - 55)%N else None.
Fixpoint unhex (s : string) : option string :=
  match s with
  | EmptyString => Some EmptyString
  | String _ EmptyString => None
  | String a (String b s) =>
    match unhex_digit a, unhex_digit b, unhex s with
    | Some a, Some b, Some s => Some (String (ascii_of_N (a * 16 + b)) s)
    | _, _, _ => None
    end
  end.

(** ** Keys (key.go) *)

Definition KeySize : nat := 32.
(** A key: [KeySize] bytes. *)
Definition Key : Type := string.
Definition is_key (k : Key) : Prop := String.length k = KeySize.

(** [NewKey], from the random bytes read, or the failure to read them. *)
Definition NewKey (random : error + string) : error + Key :=
  match random with
  | inl e => inl (EWrap (Sprintf "generate master key: %w" [AText (Error e)]) e)
  | inr bytes => inr bytes
  end.

(** [Encode] and [ParseKey]. *)
Definition EncodeKey (k : Key) : string := EncodeToString StdEncoding k.
Definition sized (raw : option string) : option Key :=
  match raw with Some raw => if Nat.eqb (String.length raw) KeySize then Some raw else None | None => None end.
Definition ParseKey (s : string) : error + Key :=
  match sized (DecodeString StdEncoding s) with
  | Some k => inr k
  | None =>
    match sized (unhex s) with
    | Some k => inr k
    | None => inl (ENew (Sprintf "invalid master key: expected %d bytes as base64 or hex, got a value that does not decode to that length" [AInt 32]))
    end
  end.

(** [Wipe]. *)
Definition Wipe (k : Key) : Key := smap (fun _ => zero) k.

(** ** Sealed values (seal.go) *)

Definition sealPrefix : string := "rlsec:v1:".
Definition nonceSize : nat := 12.
Definition IsSealed (s : string) : bool := HasPrefix s sealPrefix.
Definition errAuth : error := ENew (Lit "cannot decrypt secret: wrong master key or corrupted value").

(** AES-256-GCM, by key and nonce: the ciphertext and tag of a plaintext, and the
    plaintext of one that authenticates. *)
Class AEAD := {
  gcm_Seal : Key -> string -> string -> string;
  gcm_Open : Key -> string -> string -> option string;
}.
(** What authenticated encryption promises: exactly what was sealed is opened. *)
Class AEADLaws `{AEAD} := {
  gcm_authentic : forall k nonce c p, gcm_Open k nonce c = Some p <-> c = gcm_Seal k nonce p;
}.

Section Seal.
Context `{AEAD}.

(** [Seal], with the fresh nonce read. *)
Definition Seal (nonce : error + string) (k : Key) (plaintext : string) : error + string :=
  match nonce with
  | inl e => inl (EWrap (Sprintf "seal secret: generate nonce: %w" [AText (Error e)]) e)
  | inr nonce => inr (sealPrefix +:+ EncodeToString StdEncoding (nonce +:+ gcm_Seal k nonce plaintext))
  end.

(** [Open]. *)
Definition Open (k : Key) (sealed : string) : error + string :=
  if negb (HasPrefix sealed "rlsec:") then inl (ENew (Lit "not a sealed value: missing rlsec: prefix"))
  else if negb (HasPrefix sealed sealPrefix) then
    let rest := TrimPrefix sealed "rlsec:" in
    let version := match Cut ":"%char rest with Some (v, _) => v | None => rest end in
    inl (ENew (Sprintf "unsupported sealed value version %q: this build only understands v1" [AStr version]))
  else
    match DecodeString StdEncoding (TrimPrefix sealed sealPrefix) with
    | None => inl errAuth
    | Some raw =>
      if (String.length raw <? nonceSize)%nat then inl errAuth else
      match gcm_Open k (String.substring 0 nonceSize raw) (String.substring nonceSize (String.length raw - nonceSize) raw) with
      | Some plaintext => inr plaintext
      | None => inl errAuth
      end
    end.
End Seal.

(** ** The key file (store.go) *)

(** What a file holds, by its path, and what can fail of an operation on one. *)
Abbreviation Files := (gmap string string).
Inductive read_answer := NotExist | ReadFailed (e : error) | Contents (data : string).
Definition ErrNoKey : error := ENew (Lit "no master key found").

(** [trimTrailingNewline] and [readKeyFile]. *)
Definition is_newline (c : ascii) : bool := (code c =? 10)%N || (code c =? 13)%N.
Definition trimTrailingNewline (s : string) : string := trim_right_by is_newline s.
Definition readKeyFile (path : string) (answer : read_answer) : error + Key :=
  match answer with
  | NotExist => inl ErrNoKey
  | ReadFailed e => inl (EWrap (Sprintf "read master key from %s: %w" [AStr path; AText (Error e)]) e)
  | Contents data =>
    match ParseKey (trimTrailingNewline data) with
    | inl e => inl (EWrap (Sprintf "read master key from %s: %w" [AStr path; AText (Error e)]) e)
    | inr k => inr k
    end
  end.

(** [LoadKey], from the environment, the home directory and the reading of files;
    with the text that says where the key came from. *)
Definition defaultKeyRelPath : string := ".restorelab/master.key".
Definition LoadKey (env : option string) (home : error + string) (read : string -> read_answer) (explicitPath : string) :
    error + (Key * text) :=
  let from_file path := match readKeyFile path (read path) with
                        | inl e => inl e
                        | inr k => inr (k, Sprintf "key file %s" [AStr path])
                        end in
  match env with
  | Some (String _ _ as value) =>
    match ParseKey value with
    | inl e => inl (EWrap (Sprintf "%s: %w" [AStr "RESTORELAB_MASTER_KEY"; AText (Error e)]) e)
    | inr k => inr (k, Sprintf "environment variable %s" [AStr "RESTORELAB_MASTER_KEY"])
    end
  | _ =>
    if nonempty explicitPath then from_file explicitPath else
    match home with
    | inl e => inl (EWrap (Sprintf "resolve home directory: %w" [AText (Error e)]) e)
    | inr home => from_file (home +:+ "/" +:+ defaultKeyRelPath)
    end
  end.

(** [SaveKey]: the file is created and never replaced. [written] is how much of
    the text reached a file whose writing failed. *)
Record save_faults := mkSaveFaults {
  sf_mkdir : option error;
  sf_open : option error;
  sf_write : option (error * nat);
  sf_close : option error;
}.
Definition SaveKey (path dir : string) (k : Key) (faults : save_faults) (fs : Files) : option error * Files :=
  let failed what e := Some (EWrap (Sprintf what [AStr path; AText (Error e)]) e) in
  match sf_mkdir faults with
  | Some e => (Some (EWrap (Sprintf "create key directory %s: %w" [AStr dir; AText (Error e)]) e), fs)
  | None =>
    if bool_decide (is_Some (fs !! path)) then
      (Some (ENew (Sprintf "refusing to overwrite existing master key at %s (remove it first if you really mean to replace it - doing so orphans every secret sealed under the old key)" [AStr path])), fs)
    else
    match sf_open faults with
    | Some e => (failed "create master key file %s: %w" e, fs)
    | None =>
      match sf_write faults with
      | Some (e, written) => (failed "write master key file %s: %w" e, <[path := String.substring 0 written (EncodeKey k)]> fs)
      | None =>
        let fs := <[path := EncodeKey k]> fs in
        match sf_close faults with Some e => (failed "write master key file %s: %w" e, fs) | None => (None, fs) end
      end
    end
  end.
Definition read_file (fs : Files) (path : string) : read_answer :=
  match fs !! path with Some data => Contents data | None => NotExist end.

(** ** Hexadecimal *)

Lemma hex_digit_ok n : (n < 16)%N ->
  unhex_digit (hex_digit n) = Some n /\ is_newline (hex_digit n) = false /\ Ascii.eqb (hex_digit n) "=" = false.
Proof.
  intros Hn. assert (forallb (fun n => bool_decide (unhex_digit (hex_digit n) = Some n) &&
    negb (is_newline (hex_digit n)) && negb (Ascii.eqb (hex_digit n) "=")) (map N.of_nat (seq 0 16)) = true) as H by reflexivity.
  rewrite forallb_forall in H. specialize (H n ltac:(apply in_map_iff; exists (N.to_nat n); split; [lia|apply in_seq; lia])).
  apply andb_true_iff in H as [[H1 H2]%andb_true_iff H3]. apply bool_decide_eq_true in H1. by apply negb_true_iff in H2, H3.
Qed.
Lemma hex_digits c : (code c / 16 < 16 /\ code c mod 16 < 16 /\ code c / 16 * 16 + code c mod 16 = code c)%N.
Proof.
  unfold code. pose proof (N_ascii_bounded c). split_and!.
  - apply N.Div0.div_lt_upper_bound. lia.
  - by apply N.mod_lt.
  - pose proof (N.div_mod' (N_of_ascii c) 16). lia.
Qed.

Lemma unhex_hex s : unhex (hex s) = Some s.
Proof.
  induction s as [|c s IH]; [done|]. destruct (hex_digits c) as (H1 & H2 & H3). cbn.
  rewrite (proj1 (hex_digit_ok _ H1)), (proj1 (hex_digit_ok _ H2)), IH, H3. unfold code. by rewrite ascii_N_embedding.
Qed.
Lemma hex_clean s : existsb_char (fun c => is_newline c || Ascii.eqb c "=") (hex s) = false.
Proof.
  induction s as [|c s IH]; [done|]. destruct (hex_digits c) as (H1 & H2 & _). cbn [hex existsb_char].
  destruct (hex_digit_ok _ H1) as (_ & -> & ->), (hex_digit_ok _ H2) as (_ & -> & ->). exact IH.
Qed.
Lemma hex_length s : String.length (hex s) = (2 * String.length s)%nat.
Proof. induction s as [|c s IH]; [done|]. cbn in *. lia. Qed.

(** ** Keys as text *)

Lemma drop_breaks_cons_newline c s : drop_breaks (String c s) = if is_newline c then drop_breaks s else String c (drop_breaks s).
Proof. done. Qed.
Lemma drop_breaks_none s : existsb_char is_newline s = false -> drop_breaks s = s.
Proof.
  induction s as [|c s IH]; [done|]. rewrite drop_breaks_cons_newline. cbn [existsb_char]. rewrite orb_false_iff. intros [-> Hs]. by rewrite IH.
Qed.
Lemma drop_breaks_clean s : existsb_char is_newline (drop_breaks s) = false.
Proof.
  induction s as [|c s IH]; [done|]. rewrite drop_breaks_cons_newline. destruct (is_newline c) eqn:E; [done|]. cbn [existsb_char]. by rewrite E.
Qed.

Lemma string_ind4 (P : string -> Prop) :
  P EmptyString -> (forall a, P (String a EmptyString)) -> (forall a b, P (String a (String b EmptyString))) ->
  (forall a b c, P (String a (String b (String c EmptyString)))) ->
  (forall a b c d s, P s -> P (String a (String b (String c (String d s))))) -> forall s, P s.
Proof. intros H0 H1 H2 H3 H4. fix IH 1. intros [|a [|b [|c [|d s]]]]; [done|apply H1|apply H2|apply H3|apply H4, IH]. Qed.

(** Without padding, four characters decode to three bytes. *)
Lemma decode_length s r : existsb_char (fun c => Ascii.eqb c "=") s = false -> decode StdEncoding s = Some r ->
  (4 * String.length r = 3 * String.length s)%nat.
Proof.
  revert r. induction s as [|a|a b|a b c|a b c d s IH] using string_ind4; intros r Hs E; cbn in E.
  - by injection E as <-.
  - done.
  - by destruct (char_sextet _ a), (char_sextet _ b).
  - by destruct (char_sextet _ a), (char_sextet _ b).
  - cbn in Hs. rewrite !orb_false_iff in Hs. destruct Hs as (Ha & Hb & Hc & Hd & Hs). rewrite Hc, Hd in E.
    destruct (char_sextet _ a), (char_sextet _ b), (char_sextet _ c), (char_sextet _ d); try done.
    cbn in E. destruct (decode _ s) as [r'|] eqn:Er; [|done]. injection E as <-. specialize (IH r' Hs eq_refl). cbn. lia.
Qed.

Lemma existsb_char_weaken (p q : ascii -> bool) s : (forall c, q c = true -> p c = true) -> existsb_char p s = false -> existsb_char q s = false.
Proof.
  intros H. induction s as [|c s IH]; [done|]. cbn. rewrite !orb_false_iff. intros [Hc Hs]. split; [|by apply IH].
  destruct (q c) eqn:E; [|done]. by rewrite (H c E) in Hc.
Qed.

(** Both ways of writing a key, base64 and hexadecimal, read back as that key: a
    key in hexadecimal is also base64, of another length. *)
Lemma ParseKey_reads k : is_key k -> ParseKey (EncodeKey k) = inr k /\ ParseKey (hex k) = inr k.
Proof.
  intros Hk. unfold ParseKey. split.
  - unfold EncodeKey. rewrite base64_roundtrip by apply Std_proper. unfold sized. by rewrite Hk.
  - assert (sized (DecodeString StdEncoding (hex k)) = None) as ->.
    { pose proof (hex_clean k) as Hc. unfold DecodeString. rewrite drop_breaks_none by (revert Hc; apply existsb_char_weaken; intros c ->; done).
      destruct (decode StdEncoding (hex k)) as [r|] eqn:E; [|done]. apply decode_length in E.
      2: { revert Hc. apply existsb_char_weaken. intros c ->. by rewrite orb_true_r. }
      rewrite hex_length, Hk in E. unfold sized. destruct (Nat.eqb_spec (String.length r) KeySize) as [E'|]; [|done]. unfold KeySize in *. lia. }
    rewrite unhex_hex. unfold sized. by rewrite Hk.
Qed.

(** ** Sealed values *)

Lemma substring_all s : String.substring 0 (String.length s) s = s.
Proof. induction s as [|c s IH]; [done|]. cbn. by rewrite IH. Qed.
Lemma substring_app s t : String.substring 0 (String.length s) (s +:+ t) = s /\
  String.substring (String.length s) (String.length (s +:+ t) - String.length s) (s +:+ t) = t.
Proof.
  induction s as [|c s [IH1 IH2]].
  - split; [by destruct t|]. change (String.substring 0 (String.length t - 0) t = t). by rewrite Nat.sub_0_r, substring_all.
  - split; [|exact IH2]. change (String c (String.substring 0 (String.length s) (s +:+ t)) = String c s). by rewrite IH1.
Qed.
Lemma substring_split n s : (n <= String.length s)%nat ->
  s = String.substring 0 n s +:+ String.substring n (String.length s - n) s /\ String.length (String.substring 0 n s) = n.
Proof.
  revert s. induction n as [|n IH]; intros s Hn.
  - rewrite Nat.sub_0_r, substring_all. by destruct s.
  - destruct s as [|c s]; [cbn in Hn; lia|]. cbn in Hn. destruct (IH s ltac:(lia)) as [E El]. cbn. split; [|by f_equal].
    change (String c s = String c (String.substring 0 n s +:+ String.substring n (String.length s - n) s)). by f_equal.
Qed.

Section Sealing.
Context `{AEADLaws}.

Lemma Open_iff k sealed p :
  Open k sealed = inr p <->
  exists nonce body, String.length nonce = nonceSize /\ sealed = sealPrefix +:+ body /\
    DecodeString StdEncoding body = Some (nonce +:+ gcm_Seal k nonce p).
Proof.
  unfold Open. split.
  - destruct (HasPrefix sealed "rlsec:"); [|done]. destruct (HasPrefix sealed sealPrefix) eqn:Hp; [|done]. cbn [negb].
    apply HasPrefix_TrimPrefix in Hp. destruct (DecodeString _ _) as [raw|] eqn:Hd; [|done].
    destruct (Nat.ltb_spec (String.length raw) nonceSize); [done|]. destruct (substring_split nonceSize raw) as [Er Hn]; [lia|].
    destruct (gcm_Open _ _ _) as [p'|] eqn:Ho; [|done]. intros [= ->]. apply gcm_authentic in Ho. rewrite Ho in Er.
    eexists _, _. split; [exact Hn|]. split; [exact Hp|]. by rewrite Hd, Er at 1.
  - intros (nonce & body & Hn & -> & Hd).
    assert (HasPrefix (sealPrefix +:+ body) "rlsec:" = true) as -> by (apply (HasPrefix_app "rlsec:")).
    rewrite HasPrefix_app, TrimPrefix_app, Hd. cbn [negb].
    assert ((String.length (nonce +:+ gcm_Seal k nonce p) <? nonceSize)%nat = false) as ->.
    { apply Nat.ltb_ge. rewrite <- Hn, string_length_app. lia. }
    destruct (substring_app nonce (gcm_Seal k nonce p)) as [E1 E2]. rewrite <- Hn, E1, E2.
    by rewrite (proj2 (gcm_authentic k nonce _ p) eq_refl).
Qed.

(** Sealing is authenticated. A value opens, under a key, to a text exactly when
    it is that text sealed with that key under some nonce: so what is sealed is
    read back, and a text that was not sealed, was sealed with another key or was
    altered is refused. *)
Theorem Open_spec k sealed p :
  Open k sealed = inr p <->
  exists nonce body, String.length nonce = nonceSize /\ sealed = sealPrefix +:+ body /\
    DecodeString StdEncoding body = Some (nonce +:+ gcm_Seal k nonce p).
Proof. exact (Open_iff k sealed p). Qed.

Lemma Seal_opens nonce k p sealed : Seal (inr nonce) k p = inr sealed -> String.length nonce = nonceSize ->
  IsSealed sealed = true /\ Open k sealed = inr p.
Proof.
  intros [= <-] Hn. split; [apply HasPrefix_app|]. apply Open_iff. eexists nonce, _. split; [done|]. split; [done|].
  apply base64_roundtrip, Std_proper.
Qed.
End Sealing.

(** ** The key file *)

Lemma trim_newlines_none s : existsb_char is_newline s = false -> trimTrailingNewline s = s.
Proof. apply trim_right_by_id. Qed.

Definition save_again (path : string) (fs : Files) (x : string * Key * save_faults) : Files := (SaveKey path x.1.1 x.1.2 x.2 fs).2.
Lemma SaveKey_keeps path dir k faults fs p : is_Some (fs !! p) -> (SaveKey path dir k faults fs).2 !! p = fs !! p.
Proof.
  intros Hp. unfold SaveKey. destruct (sf_mkdir faults); [done|]. case_bool_decide as Hx; [done|].
  assert (path <> p) by (intros ->; by apply Hx). destruct (sf_open faults); [done|]. destruct (sf_write faults) as [[]|]; cbn [snd]; [by rewrite lookup_insert_ne|].
  destruct (sf_close faults); cbn [snd]; by rewrite lookup_insert_ne.
Qed.

(** The master key is written once and read back. Whatever fails, saving a key
    never changes a file that is there; and once a key was saved without an error,
    it is what loading from that path answers, whatever is saved there afterwards. *)
Theorem master_key_kept path dir k faults fs err fs' later home :
  is_key k -> path <> "" -> SaveKey path dir k faults fs = (err, fs') ->
  (forall p, is_Some (fs !! p) -> fs' !! p = fs !! p) /\
  (err = None ->
    LoadKey None home (read_file (foldl (save_again path) fs' later)) path = inr (k, Sprintf "key file %s" [AStr path])).
Proof.
  intros Hk Hpath E. split; [intros p Hp; by rewrite <- (SaveKey_keeps path dir k faults fs p Hp), E|]. intros ->.
  assert (fs' !! path = Some (EncodeKey k)) as Hsaved.
  { unfold SaveKey in E. destruct (sf_mkdir faults); [done|]. case_bool_decide; [done|]. destruct (sf_open faults); [done|].
    destruct (sf_write faults) as [[]|]; [done|]. destruct (sf_close faults); [done|]. injection E as <-. by rewrite lookup_insert_eq. }
  assert (foldl (save_again path) fs' later !! path = Some (EncodeKey k)) as Hlater.
  { clear E. revert fs' Hsaved. induction later as [|x later IH]; intros fs' Hsaved; [done|]. cbn. apply IH.
    unfold save_again. by rewrite SaveKey_keeps by by eexists. }
  unfold LoadKey. apply nonempty_spec in Hpath. rewrite Hpath. unfold read_file. rewrite Hlater. unfold readKeyFile.
  rewrite trim_newlines_none by (unfold EncodeKey; rewrite <- encode_clean by apply Std_proper; apply drop_breaks_clean).
  by rewrite (proj1 (ParseKey_reads k Hk)).
Qed.

(** ** A sealed value *)

(** A toy cipher that is authentic: the key and the nonce, then the plaintext. *)
Module Sealed.
#[export] Instance toy : AEAD := {|
  gcm_Seal k nonce p := k +:+ nonce +:+ p;
  gcm_Open k nonce c := if HasPrefix c (k +:+ nonce) then Some (TrimPrefix c (k +:+ nonce)) else None;
|}.
#[export] Instance toy_laws : AEADLaws.
Proof.
  split. intros k nonce c p. cbn. destruct (HasPrefix c (k +:+ nonce)) eqn:Hp.
  - apply HasPrefix_TrimPrefix in Hp. split; [intros [= <-]; by rewrite string_app_assoc|].
    intros ->. by rewrite string_app_assoc, TrimPrefix_app.
  - split; [done|]. intros ->. by rewrite string_app_assoc, HasPrefix_app in Hp.
Qed.
Definition key : Key := "0123456789abcdef0123456789abcdef".
Definition nonce : string := "nonce-12-byt".

Example sealed_and_opened :
  (match Seal (inr nonce) key "https://discord.com/api/webhooks/1/x" with inr s => Open key s | inl e => inl e end)
    = inr "https://discord.com/api/webhooks/1/x" /\
  Open key "https://discord.com" = inl (ENew (Lit "not a sealed value: missing rlsec: prefix")) /\
  ParseKey (hex key) = inr key.
Proof. vm_compute. split_and!; reflexivity. Qed.

Lemma Open_spec_witness : Open key (sealPrefix +:+ EncodeToString StdEncoding (nonce +:+ gcm_Seal key nonce "secret")) = inr "secret".
Proof. apply (Open_spec key _ "secret"). eexists nonce, _. split; [reflexivity|]. split; [reflexivity|]. vm_compute. reflexivity. Defined.

Lemma master_key_kept_witness :
  LoadKey None (inr "/root") (read_file (foldl (save_again "master.key") (<["master.key" := EncodeKey key]> ∅)
    [("/tmp", "another key of thirty-two bytes!", mkSaveFaults None None None None)])) "master.key"
  = inr (key, Sprintf "key file %s" [AStr "master.key"]).
Proof.
  apply (master_key_kept "master.key" "/tmp" key (mkSaveFaults None None None None) ∅ None (<["master.key" := EncodeKey key]> ∅)
    [("/tmp", "another key of thirty-two bytes!", mkSaveFaults None None None None)] (inr "/root")); reflexivity || discriminate.
Defined.
End Sealed.
