(* ===== verification/CheckValues.v ===== *)
(** * Judging a captured number

    Models internal/checks/values.go: reading the number a check printed,
    the baseline of its history, and the two bounds a plan can state on it. A
    verdict is [None] where the source returns the empty string. *)

From Stdlib Require Import ZArith Lia String Ascii List.
From stdpp Require Import sorting.
From S2P Require Import Prelude GoFloat Errors Core GoString GoStrconv.

(** [truncate] (util.go). *)
Definition truncate (s : string) (max : Z) : string :=
  if Z.of_nat (String.length s) <=? max then s else String.substring 0 (Z.to_nat max) s.

(** ** ParseCaptured *)

(** The lines of an output that hold something. *)
Definition printed (stdout : string) : list string :=
  List.filter nonempty (map TrimSpace (Split "010"%char stdout)).

Definition ParseCaptured (stdout : string) : error + float64 :=
  match printed stdout with
  | [] => inl (ENew (Lit "the command printed nothing to capture"))
  | _ :: _ :: _ as lines =>
    inl (ENew (Sprintf "the command printed %d values and a capture is one measurement: %s"
                 [AInt (Z.of_nat (length lines)); AStr (truncate (Join " / " lines) 120)]))
  | [text] =>
    match ParseFloat text with
    | None => inl (ENew (Sprintf "%q is not a number" [AStr text]))
    | Some value =>
      if negb (finite value) then
        inl (ENew (Sprintf "%q is not a finite number, and a value that compares false against every bound would pass every check forever"
                     [AStr text]))
      else inr value
    end
  end.

(** ** Baseline *)

(** [slices.Sort] on floats that are all finite: any sort of them; the order of
    two zeros of different sign is the only thing left open. *)
Fixpoint insert (v : float64) (l : list float64) : list float64 :=
  match l with
  | [] => [v]
  | x :: rest => if fleb v x then v :: l else x :: insert v rest
  end.
Definition sort (l : list float64) : list float64 := fold_right insert [] l.

Definition ftwo : float64 := float_of_Z 2.

Definition Baseline (values : list float64) : option float64 :=
  let sorted := sort (List.filter finite values) in
  match sorted with
  | [] => None
  | _ :: _ =>
    let mid := (length sorted / 2)%nat in
    if (length sorted mod 2 =? 1)%nat then Some (nth mid sorted S754_nan)
    else Some (fadd (fdiv (nth (mid - 1) sorted S754_nan) ftwo) (fdiv (nth mid sorted S754_nan) ftwo))
  end.

(** ** CheckAssert *)

Definition formatNumber (v : float64) : string := format_shortest v.
Definition formatPercent (pct : float64) : string := TrimSuffix (format_fixed1 pct) ".0".

(** A pointer to a bound, violated. *)
Definition violates (bound : option float64) (bad : float64 -> bool) : bool :=
  match bound with Some b => bad b | None => false end.
Definition bound_text (bound : option float64) : string :=
  match bound with Some b => formatNumber b | None => EmptyString end.

Definition CheckAssert (value : float64) (a : AssertSpec) : option text :=
  if negb (finite value) then
    Some (Sprintf "captured value %s is not a finite number, so no bound can be judged against it"
            [AStr (formatNumber value)])
  else if violates (as_Min a) (fun b => fltb value b) then
    Some (Sprintf "captured value %s is below the declared minimum of %s"
            [AStr (formatNumber value); AStr (bound_text (as_Min a))])
  else if violates (as_Max a) (fun b => fltb b value) then
    Some (Sprintf "captured value %s is above the declared maximum of %s"
            [AStr (formatNumber value); AStr (bound_text (as_Max a))])
  else if violates (as_Equals a) (fun b => negb (feqb value b)) then
    Some (Sprintf "captured value %s is not the declared %s"
            [AStr (formatNumber value); AStr (bound_text (as_Equals a))])
  else None.

(** ** CheckDrift *)

Definition fhundred : float64 := float_of_Z 100.

Definition CheckDrift (value baseline : float64) (d : DriftSpec) : option text :=
  if negb (finite value) || negb (finite baseline) then
    Some (Sprintf "drift cannot be judged: captured value %s against baseline %s is not a finite comparison"
            [AStr (formatNumber value); AStr (formatNumber baseline)])
  else if fleb baseline value then None
  else
    let drop := fsub baseline value in
    if negb (ds_MaxDropIsPercent d) then
      if fleb drop (ds_MaxDrop d) then None
      else Some (Sprintf "captured value %s is %s below the baseline %s, more than the declared max_drop of %s"
                   [AStr (formatNumber value); AStr (formatNumber drop); AStr (formatNumber baseline);
                    AStr (formatNumber (ds_MaxDrop d))])
    else if feqb baseline (S754_zero false) then
      Some (Sprintf "captured value %s fell below a baseline of 0, and no percentage of a zero baseline permits any fall"
              [AStr (formatNumber value)])
    else
      let pct := fmul (fdiv drop (fabs baseline)) fhundred in
      if fleb pct (ds_MaxDrop d) then None
      else Some (Sprintf "captured value %s is %s%% below the baseline %s, more than the declared max_drop of %s%%"
                   [AStr (formatNumber value); AStr (formatPercent pct); AStr (formatNumber baseline);
                    AStr (formatNumber (ds_MaxDrop d))]).

(** The readings on the worked example of the source: a table that collapsed. *)
Example drift_collapse :
  CheckDrift (float_of_Z 0) (float_of_Z 1204331) (mkDriftSpec (float_of_Z 20) true)
  = Some (Sprintf "captured value %s is %s%% below the baseline %s, more than the declared max_drop of %s%%"
            [AStr "0"; AStr "100"; AStr "1204331"; AStr "20"]).
Proof. vm_compute. reflexivity. Qed.
Example baseline_resists :
  Baseline (map float_of_Z [0; 1204331; 1204000; 1203900; 1203800]) = Some (float_of_Z 1203900).
Proof. vm_compute. reflexivity. Qed.
Example parse_rows : ParseCaptured (String "010" (" 1204331 " +:+ String "013" (String "010" ""))) = inr (float_of_Z 1204331).
Proof. vm_compute. reflexivity. Qed.

(** ** Sorting *)

Definition le (x y : float64) : Prop := fleb x y = true.
Definition all_finite (l : list float64) : Prop := Forall (fun x => finite x = true) l.

Lemma insert_perm v l : insert v l ≡ₚ v :: l.
Proof.
  induction l as [|x l IH]; cbn; [done|]. destruct (fleb v x); [done|].
  rewrite IH. apply Permutation_swap.
Qed.
Lemma sort_perm l : sort l ≡ₚ l.
Proof. induction l as [|x l IH]; cbn; [done|]. by rewrite insert_perm, IH. Qed.

Lemma all_finite_perm l l' : l ≡ₚ l' -> all_finite l -> all_finite l'.
Proof. intros H. unfold all_finite. by rewrite H. Qed.

(** [sorted l]: each element is below all that follow. *)
Fixpoint sorted (l : list float64) : Prop :=
  match l with [] => True | x :: l => Forall (le x) l /\ sorted l end.

Lemma insert_sorted v l : finite v = true -> all_finite l -> sorted l -> sorted (insert v l).
Proof.
  intros Hv. induction l as [|x l IH]; cbn [insert sorted]; [by repeat constructor|].
  intros [Hx Hl]%Forall_cons [Hle Hs]. destruct (fleb v x) eqn:E; cbn [sorted].
  - split_and!; [|done..]. constructor; [done|]. apply Forall_forall. intros y Hy.
    apply (fleb_trans v x y); [done | done | | done |].
    + by apply (proj1 (Forall_forall _ _) Hl).
    + by apply (proj1 (Forall_forall _ _) Hle).
  - split; [|by apply IH]. rewrite insert_perm. constructor; [|done].
    destruct (fleb_total v x Hv Hx); [congruence | done].
Qed.
Lemma sort_sorted l : all_finite l -> sorted (sort l).
Proof.
  induction l as [|x l IH]; cbn; [done|]. intros [Hx Hl]%Forall_cons.
  apply insert_sorted; [done | | by apply IH]. by eapply all_finite_perm; [symmetry; apply sort_perm|].
Qed.

Lemma sorted_app a b x y : sorted (a ++ b) -> x ∈ a -> y ∈ b -> le x y.
Proof.
  induction a as [|z a IH]; cbn; [by intros _ ?%elem_of_nil|].
  intros [Hz Hs] [->|Hx]%elem_of_cons Hy; [|by apply IH].
  apply (proj1 (Forall_forall _ _) Hz). apply elem_of_app. by right.
Qed.

Lemma filter_finite l : all_finite (List.filter finite l).
Proof.
  induction l as [|x l IH]; cbn; [constructor|]. destruct (finite x) eqn:E; [by constructor | done].
Qed.

Lemma countb_perm {A} (f : A -> bool) l l' : l ≡ₚ l' -> countb f l = countb f l'.
Proof.
  induction 1 as [|x l l' _ IH|x y l|l1 l2 l3 _ IH1 _ IH2]; [done| | |congruence];
    unfold countb in *; cbn [List.filter].
  - destruct (f x); cbn [length]; congruence.
  - by destruct (f x), (f y).
Qed.

Lemma countb_le {A} (f : A -> bool) l : (countb f l <= length l)%nat.
Proof. unfold countb. induction l as [|x l IH]; cbn; [lia|]. destruct (f x); cbn; lia. Qed.

(** The element in the middle of a sorted list: what a strict majority is above,
    it is above, and what a strict majority is below, it is below. *)
Section Median.
Context (l : list float64) (k : nat) (v : float64).
Hypotheses (Hf : all_finite l) (Hs : sorted l) (Hlen : length l = (2 * k + 1)%nat) (Hv : l !! k = Some v).

Lemma median_split : l = take k l ++ v :: drop (S k) l.
Proof. symmetry. by apply take_drop_middle. Qed.

Lemma median_finite : finite v = true.
Proof. apply (proj1 (Forall_forall _ _) Hf). by eapply list_elem_of_lookup_2. Qed.

Lemma median_below y : y ∈ take k l ++ [v] -> le y v.
Proof.
  intros [Hy|Hy]%elem_of_app; [|apply list_elem_of_singleton in Hy as ->; by apply fleb_refl, median_finite].
  eapply (sorted_app (take k l) (v :: drop (S k) l)); [by rewrite <- median_split | done | apply elem_of_cons; by left].
Qed.

Lemma median_above y : y ∈ v :: drop (S k) l -> le v y.
Proof.
  intros [->|Hy]%elem_of_cons; [by apply fleb_refl, median_finite|].
  eapply (sorted_app (take k l ++ [v]) (drop (S k) l)); [|apply elem_of_app; right; by apply list_elem_of_singleton|done].
  rewrite <- app_assoc. cbn. by rewrite <- median_split.
Qed.

Lemma in_finite y : y ∈ l -> finite y = true.
Proof. apply (proj1 (Forall_forall _ _) Hf). Qed.

Lemma median_ge x : finite x = true -> (k < countb (fun y => fleb x y) l)%nat -> le x v.
Proof.
  intros Hx Hc. destruct (fleb x v) eqn:E; [done|]. exfalso. revert Hc.
  assert (H0 : countb (fun y => fleb x y) (take k l ++ [v]) = 0%nat).
  { apply countb_0, Forall_forall. intros y Hy. destruct (fleb x y) eqn:Ey; [|done].
    assert (Hyl : finite y = true).
    { apply in_finite. rewrite median_split. apply elem_of_app in Hy as [?|?]; apply elem_of_app; [by left|right].
      apply elem_of_cons. left. by apply list_elem_of_singleton. }
    pose proof (median_below y Hy) as Hb. unfold le in Hb.
    rewrite (fleb_trans x y v) in E; [done | done | done | apply median_finite | done | done]. }
  assert (El : countb (fun y => fleb x y) l = countb (fun y => fleb x y) ((take k l ++ [v]) ++ drop (S k) l)).
  { f_equal. rewrite <- app_assoc. cbn. apply median_split. }
  rewrite El, countb_app, H0. pose proof (countb_le (fun y => fleb x y) (drop (S k) l)) as Hl.
  rewrite length_drop in Hl. lia.
Qed.

Lemma median_le x : finite x = true -> (k < countb (fun y => fleb y x) l)%nat -> le v x.
Proof.
  intros Hx Hc. destruct (fleb v x) eqn:E; [done|]. exfalso. revert Hc.
  assert (H0 : countb (fun y => fleb y x) (v :: drop (S k) l) = 0%nat).
  { apply countb_0, Forall_forall. intros y Hy. destruct (fleb y x) eqn:Ey; [|done].
    assert (Hyl : finite y = true) by (apply in_finite; rewrite median_split; apply elem_of_app; by right).
    pose proof (median_above y Hy) as Hb. unfold le in Hb.
    rewrite (fleb_trans v y x) in E; [done | apply median_finite | done | done | done | done]. }
  assert (El : countb (fun y => fleb y x) l = countb (fun y => fleb y x) (take k l ++ v :: drop (S k) l)).
  { f_equal. apply median_split. }
  rewrite El, countb_app, H0. pose proof (countb_le (fun y => fleb y x) (take k l)) as Hl.
  rewrite length_take in Hl. lia.
Qed.
End Median.

Lemma filter_elem {A} (f : A -> bool) l x : x ∈ List.filter f l -> x ∈ l /\ f x = true.
Proof. rewrite !list_elem_of_In. apply List.filter_In. Qed.

Lemma violates_false bound bad : violates bound bad = false <-> forall b, bound = Some b -> bad b = false.
Proof. destruct bound as [b|]; cbn; split; try done; [by intros ? ? [= <-] | by auto]. Qed.

(** ** Theorems *)

(** A captured value is one finite number. [ParseCaptured] accepts an output
    exactly when a single line of it holds something, that line is a number in
    Go's syntax and the number is finite, whatever white space, blank lines and
    carriage returns are around it. *)
Theorem ParseCaptured_spec stdout v :
  ParseCaptured stdout = inr v <->
  finite v = true /\ exists line, printed stdout = [line] /\ ParseFloat line = Some v.
Proof.
  unfold ParseCaptured. split.
  - destruct (printed stdout) as [|line [|? ?]]; try done.
    destruct (ParseFloat line) as [f|] eqn:E; [|done]. destruct (finite f) eqn:Ef; [|done].
    intros [= <-]. eauto.
  - intros (Hf & line & -> & ->). by rewrite Hf.
Qed.

(** The baseline is the median of the finite readings. There is one exactly
    when some reading is finite; when their number is odd it is one of the
    readings, and it lies on the side of any figure where the strict majority of
    the readings lies: one collapsed reading, or one spike, cannot become the
    new normal. *)
Theorem Baseline_median values :
  (Baseline values = None <-> Forall (fun x => finite x = false) values) /\
  (forall b k, Baseline values = Some b -> length (List.filter finite values) = (2 * k + 1)%nat ->
     b ∈ values /\ finite b = true /\
     (forall x, finite x = true ->
        (k < countb (fun y => fleb x y) (List.filter finite values))%nat -> fleb x b = true) /\
     (forall x, finite x = true ->
        (k < countb (fun y => fleb y x) (List.filter finite values))%nat -> fleb b x = true)).
Proof.
  pose proof (sort_perm (List.filter finite values)) as Hp.
  pose proof (filter_finite values) as Hf.
  pose proof (all_finite_perm _ _ (symmetry Hp) Hf) as Hfs.
  pose proof (sort_sorted _ Hf) as Hs. unfold Baseline. split.
  - split.
    + destruct (sort _) as [|x l] eqn:E; [|by destruct (_ =? _)%nat].
      intros _. apply Permutation_nil_l in Hp. apply Forall_forall. intros x Hx.
      destruct (finite x) eqn:Ex; [|done]. exfalso.
      assert (Hin : x ∈ List.filter finite values) by (apply list_elem_of_In, List.filter_In; by rewrite <- list_elem_of_In).
      rewrite <- Hp in Hin. by apply elem_of_nil in Hin.
    + intros Hall. assert (E : List.filter finite values = []).
      { clear -Hall. induction Hall as [|x l Hx _ IH]; cbn; [done | by rewrite Hx]. }
      by rewrite E.
  - intros b k Hb Hlen. rewrite <- (Permutation_length Hp) in Hlen.
    assert (Hmid : (length (sort (List.filter finite values)) / 2)%nat = k).
    { rewrite Hlen, Nat.mul_comm, Nat.div_add_l by lia. cbn. lia. }
    assert (Hmod : (length (sort (List.filter finite values)) mod 2)%nat = 1%nat).
    { rewrite Hlen, Nat.mul_comm, Nat.add_comm, Nat.Div0.mod_add. done. }
    rewrite Hmid, Hmod in Hb.
    assert (Hlk : sort (List.filter finite values) !! k = Some b).
    { destruct (sort (List.filter finite values)) as [|x l]; [done|]. cbn in Hb. injection Hb as <-.
      destruct (nth_lookup_or_length (x :: l) k S754_nan) as [E|E]; [exact E | lia]. }
    split_and!.
    + apply list_elem_of_lookup_2 in Hlk. rewrite Hp in Hlk. by apply filter_elem in Hlk as [? _].
    + by eapply median_finite.
    + intros x Hx Hc. eapply (median_ge (sort (List.filter finite values))); try done. by rewrite (countb_perm _ _ _ Hp).
    + intros x Hx Hc. eapply (median_le (sort (List.filter finite values))); try done. by rewrite (countb_perm _ _ _ Hp).
Qed.

(** [CheckAssert] passes exactly the finite values within the bounds stated,
    both bounds inclusive; NaN and the infinities never pass, whatever is or is
    not bounded. *)
Theorem CheckAssert_spec value a :
  CheckAssert value a = None <->
  finite value = true /\
  (forall b, as_Min a = Some b -> fltb value b = false) /\
  (forall b, as_Max a = Some b -> fltb b value = false) /\
  (forall b, as_Equals a = Some b -> feqb value b = true).
Proof.
  assert (E : CheckAssert value a = None <-> finite value = true /\
    violates (as_Min a) (fun b => fltb value b) = false /\
    violates (as_Max a) (fun b => fltb b value) = false /\
    violates (as_Equals a) (fun b => negb (feqb value b)) = false).
  { unfold CheckAssert. destruct (finite value), (violates (as_Min a) _), (violates (as_Max a) _),
      (violates (as_Equals a) _); cbn; intuition congruence. }
  rewrite E, !violates_false. setoid_rewrite negb_false_iff. done.
Qed.

(** Drift is a floor that cannot be defeated by the arithmetic. A rise is
    never a violation; a value or a baseline that is not a number always is; a
    workload that comes back empty (zero against a positive baseline) violates
    every percentage below one hundred, and every absolute tolerance below the
    baseline; and any fall below a zero baseline violates every percentage. *)
Theorem CheckDrift_floor value baseline d :
  (finite value = true -> finite baseline = true -> fleb baseline value = true -> CheckDrift value baseline d = None) /\
  (finite value && finite baseline = false -> CheckDrift value baseline d <> None) /\
  (is_zero value = true -> finite baseline = true -> fltb value baseline = true ->
     (if ds_MaxDropIsPercent d then fleb fhundred (ds_MaxDrop d) else fleb baseline (ds_MaxDrop d)) = false ->
     CheckDrift value baseline d <> None) /\
  (is_zero baseline = true -> finite value = true -> fltb value baseline = true ->
     ds_MaxDropIsPercent d = true -> CheckDrift value baseline d <> None).
Proof.
  split_and!.
  - intros Hv Hb Hle. unfold CheckDrift. by rewrite Hv, Hb, Hle.
  - unfold CheckDrift. by destruct (finite value), (finite baseline).
  - intros Hz Hb Hlt Hd. destruct value as [sz| | |]; try done.
    destruct baseline as [?| | |[] m e]; try done. unfold CheckDrift. cbn [finite negb orb].
    assert (E : fleb (S754_finite false m e) (S754_zero sz) = false) by (by destruct sz).
    assert (Es : fsub (S754_finite false m e) (S754_zero sz) = S754_finite false m e) by (by destruct sz).
    rewrite E, Es. destruct (ds_MaxDropIsPercent d); cbn [negb]; [|by rewrite Hd].
    change (feqb (S754_finite false m e) (S754_zero false)) with false. cbv iota.
    change (fabs (S754_finite false m e)) with (S754_finite false m e). rewrite fdiv_self.
    assert (Eh : fmul fone fhundred = fhundred) by (vm_compute; reflexivity). rewrite Eh.
    destruct (fleb fhundred (ds_MaxDrop d)); [|done]. by rewrite andb_false_r in Hd || discriminate Hd.
  - intros Hz Hv Hlt Hp. destruct baseline as [sb| | |]; try done. unfold CheckDrift. rewrite Hv, Hp.
    cbn [finite negb orb]. rewrite fltb_fleb in Hlt by done. apply negb_true_iff in Hlt. rewrite Hlt.
    change (feqb (S754_zero sb) (S754_zero false)) with true. done.
Qed.
