(* ===== verification/Checks.v ===== *)
(** * Running checks

    Models internal/checks: the registry that runs configured checks with
    retries, cancellation and panic recovery (registry.go), and the judgement
    of a captured value against its bounds and its history (the second half of
    command.go). The checks themselves, the clock, the context and the history
    reader are operations over an abstract world. *)

From Stdlib Require Import ZArith Lia String List.
From stdpp Require Import sorting.
From S2P Require Import Prelude GoTime GoFloat Errors Core GoString CheckValues.

(** ** The judgement of a captured value (command.go) *)

Definition DetailCaptured := "captured".
Definition DetailBaseline := "baseline".
Definition DetailDriftSkipped := "drift_skipped".
Definition DriftWindow : Z := 5.

(** [displayName] (registry.go). *)
Definition displayName (cfg : CheckConfig) : string :=
  if nonempty (cc_Name cfg) then cc_Name cfg else cc_Type cfg.

Definition zero_result : CheckResult := mkCheckResult "" "" CheckPass Time.zero Time.zero 0 0 (Lit "") ∅.
Definition result_of (status : CheckStatus) (message : text) (details : gmap string detail) : CheckResult :=
  mkCheckResult "" "" status Time.zero Time.zero 0 0 message details.

(** The history reader a target may carry: the values of a check's capture, most
    recent first. *)
Definition BaselineReader (W : Type) : Type := string -> string -> Z -> M W (error + list float64).

Section Capture.
Context {W : Type}.

(** [readBaseline]: the figure, or the reason there is none. *)
Definition readBaseline (reader : option (BaselineReader W)) (cfg : CheckConfig) : M W (text + float64) :=
  match reader with
  | None =>
    mret (inl (Sprintf "drift not judged: no history is available for this workload, so there is nothing to compare %q against"
                 [AStr (cc_Capture cfg)]))
  | Some values =>
    r ← values (displayName cfg) (cc_Capture cfg) DriftWindow;
    match r with
    | inl err => mret (inl (Sprintf "drift not judged: the history could not be read: %v" [AText (Error err)]))
    | inr vs =>
      match Baseline vs with
      | Some baseline => mret (inr baseline)
      | None => mret (inl (Sprintf "drift not judged: no previous drill of this workload measured %q"
                             [AStr (cc_Capture cfg)]))
      end
    end
  end.

(** [evaluateCapture]. *)
Definition evaluateCapture (reader : option (BaselineReader W)) (cfg : CheckConfig) (stdout : string)
    (msg : text) (details : gmap string detail) : M W CheckResult :=
  match ParseCaptured stdout with
  | inl err =>
    mret (result_of CheckFail (Sprintf "could not capture %q: %v" [AStr (cc_Capture cfg); AText (Error err)]) details)
  | inr value =>
    let details := <[DetailCaptured := DNumbers {[cc_Capture cfg := value]}]> details in
    match (match cc_Assert cfg with Some a => CheckAssert value a | None => None end) with
    | Some violation =>
      mret (result_of CheckFail (Sprintf "%s: %s" [AStr (cc_Capture cfg); AText violation]) details)
    | None =>
      match cc_Drift cfg with
      | None => mret (result_of CheckPass msg details)
      | Some drift =>
        rb ← readBaseline reader cfg;
        match rb with
        | inl skipped =>
          let details := <[DetailDriftSkipped := DOther skipped]> details in
          mret (result_of CheckPass (Sprintf "%s (%s)" [AText msg; AText skipped]) details)
        | inr baseline =>
          let details := <[DetailBaseline := DNumbers {[cc_Capture cfg := baseline]}]> details in
          match CheckDrift value baseline drift with
          | Some violation =>
            mret (result_of CheckFail (Sprintf "%s: %s" [AStr (cc_Capture cfg); AText violation]) details)
          | None => mret (result_of CheckPass msg details)
          end
        end
      end
    end
  end.
End Capture.

(** ** The registry (registry.go) *)

(** The surroundings of the registry: the wall clock, the run's context, and the
    select of a retry between the timer and the context. *)
Class CheckEnv (W T : Type) := {
  check_now : W -> Z * W;
  check_ctx_Err : W -> option error;
  check_wait : Z -> W -> option error * W;
}.

(** [core.Check]: its type, and a run bounded by an optional timeout. *)
Record Check (W T : Type) := mkCheck {
  check_Type : string;
  check_Run : option Z -> T -> CheckConfig -> M W CheckResult;
}.
Arguments mkCheck {W T}.
Arguments check_Type {W T}.
Arguments check_Run {W T}.

Section Registry.
Context {W T : Type} `{!CheckEnv W T}.
Abbreviation Check := (Check W T).

Definition Registry : Type := gmap string Check.
Definition New : Registry := ∅.
Definition Register (r : Registry) (c : Check) : Registry := <[check_Type c := c]> r.
Definition Get (r : Registry) (typ : string) : option Check := r !! typ.
Definition Types (r : Registry) : list string := merge_sort String.le (map fst (map_to_list r)).

Definition time_Now : M W Z := fun w => let '(t, w) := check_now w in (Ret t, w).
Definition ctx_err : M W (option error) := gets check_ctx_Err.
Definition wait (d : Z) : M W (option error) := fun w => let '(e, w) := check_wait d w in (Ret e, w).

(** [runAttempt]: one attempt, a panic recovered. *)
Definition runAttempt (check : Check) (target : T) (cfg : CheckConfig) : M W CheckResult :=
  r ← try (check_Run check (if 0 <? cc_Timeout cfg then Some (cc_Timeout cfg) else None) target cfg);
  match r with
  | inr result => mret result
  | inl p =>
    mret (result_of CheckError (Sprintf "check %q panicked: %v" [AStr (check_Type check); AStr p]) ∅)
  end.

(** [unreadCapture]. *)
Definition captured_values (r : CheckResult) : gmap string float64 :=
  match cr_Details r !! DetailCaptured with Some (DNumbers m) => m | _ => ∅ end.
Definition unreadCapture (r : CheckResult) (cfg : CheckConfig) : option text :=
  if negb (nonempty (cc_Capture cfg)) || negb (OK r) then None
  else match captured_values r !! cc_Capture cfg with
       | Some _ => None
       | None =>
         Some (Sprintf "a %s check does not read the value %q that this plan captures, so the bounds on it were never judged"
                 [AStr (cc_Type cfg); AStr (cc_Capture cfg)])
       end.

(** The attempt loop, with [remaining] attempts left of the maximum. *)
Fixpoint attempt_loop (remaining : nat) (attempts : Z) (check : Check) (target : T) (cfg : CheckConfig) :
    M W (CheckResult * Z) :=
  match remaining with
  | O => mret (zero_result, attempts)
  | S remaining =>
    let attempts := attempts + 1 in
    cancelled ← ctx_err;
    match cancelled with
    | Some err =>
      mret (result_of CheckError
              (Sprintf "run cancelled before attempt %d: %v" [AInt attempts; AText (Error err)]) ∅, attempts)
    | None =>
      result ← runAttempt check target cfg;
      if OK result || (match remaining with O => true | S _ => false end) then mret (result, attempts)
      else if 0 <? cc_RetryInterval cfg then
        interrupted ← wait (cc_RetryInterval cfg);
        match interrupted with
        | Some err =>
          mret (result_of CheckError (Sprintf "run cancelled while waiting to retry: %v" [AText (Error err)]) ∅,
                attempts)
        | None => attempt_loop remaining attempts check target cfg
        end
      else attempt_loop remaining attempts check target cfg
    end
  end.

(** The largest number of attempts: [Retries + 1] on a 64-bit int, at least one. *)
Definition max_attempts (cfg : CheckConfig) : Z :=
  let n := Duration.wrap (cc_Retries cfg + 1) in if n <? 1 then 1 else n.

Definition RunOne (r : Registry) (target : T) (cfg : CheckConfig) : M W CheckResult :=
  start ← time_Now;
  let name := displayName cfg in
  match Get r (cc_Type cfg) with
  | None =>
    now ← time_Now;
    mret (mkCheckResult name (cc_Type cfg) CheckError start now (Time.Sub now start) 0
            (Sprintf "unknown check type %q (known types: %s)"
               [AStr (cc_Type cfg); AStr (Join ", " (Types r))]) ∅)
  | Some check =>
    ra ← attempt_loop (Z.to_nat (max_attempts cfg)) 0 check target cfg;
    let '(result, attempts) := (ra : CheckResult * Z) in
    now ← time_Now;
    let result := mkCheckResult name (cc_Type cfg) (cr_Status result) start now (Time.Sub now start)
                    attempts (cr_Message result) (cr_Details result) in
    match unreadCapture result cfg with
    | Some msg =>
      mret (mkCheckResult name (cc_Type cfg) CheckFail start now (Time.Sub now start) attempts msg
              (cr_Details result))
    | None => mret result
    end
  end.

Fixpoint RunAll (r : Registry) (target : T) (cfgs : list CheckConfig) : M W (list CheckResult) :=
  match cfgs with
  | [] => mret []
  | cfg :: cfgs =>
    cancelled ← ctx_err;
    result ←
      (match cancelled with
       | Some err =>
         now ← time_Now;
         mret (mkCheckResult (displayName cfg) (cc_Type cfg) CheckSkipped now now 0 0
                 (Sprintf "run cancelled: %v" [AText (Error err)]) ∅)
       | None => RunOne r target cfg
       end);
    results ← RunAll r target cfgs;
    mret (result :: results)
  end.
End Registry.

(** ** What a result says of its check *)

(** The result is the one of this check, it counts its attempts, and if the check
    passed, the value the plan asked to capture was read. *)
Record accounts (cfg : CheckConfig) (r : CheckResult) : Prop := {
  acc_name : cr_Name r = displayName cfg;
  acc_type : cr_Type r = cc_Type cfg;
  acc_attempts : 0 <= cr_Attempts r <= max_attempts cfg;
  acc_capture : OK r = true -> cc_Capture cfg <> "" -> is_Some (captured_values r !! cc_Capture cfg);
}.

Section Accounting.
Context {W T : Type} `{!CheckEnv W T} (r : Registry (W := W) (T := T)) (target : T).
(** What holds of the world when a check never comes back. *)
Context (Q : W -> Prop).

Lemma max_attempts_pos cfg : 1 <= max_attempts cfg.
Proof. unfold max_attempts. destruct (Z.ltb_spec (Duration.wrap (cc_Retries cfg + 1)) 1); lia. Qed.

Definition checks_stop : Prop :=
  forall typ c to cfg w, Get r typ = Some c ->
    match check_Run c to target cfg w with (Diverge, w') => Q w' | _ => True end.

(** [m] returns, with a value in [R], unless a check did not come back. *)
Definition gives {A} (m : M W A) (R : A -> Prop) : Prop := post (fun _ => True) m (fun a _ => R a) Q.

Lemma gives_bind {A B} (m : M W A) (k : A -> M W B) R1 R :
  gives m R1 -> (forall a, R1 a -> gives (k a) R) -> gives (mbind k m) R.
Proof.
  intros Hm Hk. eapply post_bind; [exact Hm|]. intros a s Ha. by apply Hk.
Qed.
Lemma gives_ret {A} (a : A) (R : A -> Prop) : R a -> gives (mret a) R.
Proof. intros H. by apply post_ret. Qed.
Lemma gives_now : gives time_Now (fun _ => True).
Proof. intros w _. unfold time_Now. by destruct (check_now w). Qed.
Lemma gives_wait d : gives (wait d) (fun _ => True).
Proof. intros w _. unfold wait. by destruct (check_wait d w). Qed.
Lemma gives_ctx_err : gives ctx_err (fun _ => True).
Proof. by intros w _. Qed.
Lemma gives_attempt typ check cfg :
  checks_stop -> Get r typ = Some check -> gives (runAttempt check target cfg) (fun _ => True).
Proof.
  intros Hr Hg. unfold runAttempt. eapply gives_bind with (R1 := fun _ => True).
  - intros w _. unfold try. pose proof (Hr typ check (if 0 <? cc_Timeout cfg then Some (cc_Timeout cfg) else None) cfg w Hg) as H.
    by destruct (check_Run check _ target cfg w) as [[?|?|] ?].
  - intros [p|res] _; by apply gives_ret.
Qed.

Lemma gives_attempts typ check cfg n a :
  checks_stop -> Get r typ = Some check -> 0 <= a ->
  gives (attempt_loop n a check target cfg) (fun ra => 0 <= ra.2 <= a + Z.of_nat n).
Proof.
  intros Hr Hg. revert a; induction n as [|n IH]; intros a Ha; cbn [attempt_loop]; [apply gives_ret; cbn; lia|].
  cbv zeta. eapply gives_bind; [apply gives_ctx_err|]. intros [err|] _; [apply gives_ret; cbn; lia|].
  eapply gives_bind; [by eapply gives_attempt|]. intros res _.
  assert (Hrec : gives (attempt_loop n (a + 1) check target cfg) (fun ra => 0 <= ra.2 <= a + Z.of_nat (S n))).
  { eapply post_weaken; [apply (IH (a + 1)); lia | done | | done]. cbn. intros; lia. }
  destruct (_ || _); [apply gives_ret; cbn; lia|]. destruct (0 <? _); [|exact Hrec].
  eapply gives_bind; [apply gives_wait|]. intros [err|] _; [apply gives_ret; cbn; lia | exact Hrec].
Qed.

Lemma gives_RunOne cfg : checks_stop -> gives (RunOne r target cfg) (accounts cfg).
Proof.
  intros Hr. unfold RunOne. pose proof (max_attempts_pos cfg).
  eapply gives_bind; [apply gives_now|]. intros start _. cbv zeta.
  destruct (Get r (cc_Type cfg)) as [check|] eqn:Hg.
  - eapply gives_bind; [by eapply (gives_attempts (cc_Type cfg)); [| | lia]|].
    intros [res att] Ha. cbn in Ha. eapply gives_bind; [apply gives_now|]. intros now _.
    set (res' := mkCheckResult _ _ _ _ _ _ _ _ _).
    destruct (unreadCapture res' cfg) as [msg|] eqn:Hu; apply gives_ret; split; cbn; try done; try lia.
    intros Hok Hcap. unfold unreadCapture in Hu. rewrite Hok, (proj2 (nonempty_spec _) Hcap) in Hu. cbn in Hu.
    fold res' in Hu |- *. destruct (captured_values res' !! cc_Capture cfg); [by eexists | done].
  - eapply gives_bind; [apply gives_now|]. intros now _. apply gives_ret. split; cbn; try done; lia.
Qed.

Lemma gives_RunAll cfgs : checks_stop -> gives (RunAll r target cfgs) (Forall2 accounts cfgs).
Proof.
  intros Hr. induction cfgs as [|cfg cfgs IH]; cbn [RunAll]; [by apply gives_ret|].
  pose proof (max_attempts_pos cfg).
  eapply gives_bind; [apply gives_ctx_err|]. intros cancelled _.
  eapply (gives_bind _ _ (accounts cfg)).
  { destruct cancelled as [err|]; [|by apply gives_RunOne].
    eapply gives_bind; [apply gives_now|]. intros now _. apply gives_ret. split; cbn; try done; lia. }
  intros res Ha. eapply gives_bind; [exact IH|]. intros results Hres. apply gives_ret. by constructor.
Qed.

End Accounting.

Section Registry_theorems.
Context {W T : Type} `{!CheckEnv W T} (r : Registry (W := W) (T := T)) (target : T).

(** A later registration of a type replaces the earlier one. *)
Lemma Get_Register reg (c : Check W T) typ :
  Get (Register reg c) typ = if decide (check_Type c = typ) then Some c else Get reg typ.
Proof.
  revert reg. unfold Get, Register, Registry. intros reg. destruct (decide (check_Type c = typ)) as [<-|Hn];
    [by apply lookup_insert_eq | by apply lookup_insert_ne].
Qed.

(** Whatever [RunAll] returns accounts for every check. *)
Lemma RunAll_returned cfgs w results w' :
  RunAll r target cfgs w = (Ret results, w') -> Forall2 accounts cfgs results.
Proof.
  intros E. assert (Hs : checks_stop r target (fun _ => True)).
  { intros typ c to cfg w0 _. by destruct (check_Run c to target cfg w0) as [[| |] ?]. }
  pose proof (gives_RunAll r target _ cfgs Hs w I) as H. by rewrite E in H.
Qed.

(** Every check of the registry that is run comes back (or panics). *)
Definition checks_return : Prop :=
  forall typ c to cfg w, Get r typ = Some c -> (check_Run c to target cfg w).1 <> Diverge.

(** The registry accounts for every configured check. Whatever the checks do
    (fail, panic, ignore their value) and whenever the run is cancelled, [RunAll]
    returns exactly one result per configured check, in order, under its display
    name and type, with between zero and its maximal number of attempts; and a
    check that passed although it never read the value the plan captures is
    reported as failed. *)
Theorem RunAll_accounts cfgs w :
  checks_return ->
  exists results w', RunAll r target cfgs w = (Ret results, w') /\ Forall2 accounts cfgs results.
Proof.
  intros Hr. assert (Hs : checks_stop r target (fun _ => False)).
  { intros typ c to cfg w0 Hg. specialize (Hr typ c to cfg w0 Hg).
    by destruct (check_Run c to target cfg w0) as [[| |] ?]. }
  pose proof (gives_RunAll r target _ cfgs Hs w I) as H.
  destruct (RunAll r target cfgs w) as [[results|?|] w']; [by eexists _, _ | done..].
Qed.
End Registry_theorems.

(** ** What a captured value says *)

Section CaptureSpec.
Context {W : Type} (reader : option (BaselineReader W)) (cfg : CheckConfig).

Lemma evaluateCapture_returns stdout msg details w :
  (forall rd a b n w, reader = Some rd -> (rd a b n w).1 <> Diverge) ->
  (evaluateCapture reader cfg stdout msg details w).1 <> Diverge.
Proof.
  intros Hr. unfold evaluateCapture. destruct (ParseCaptured stdout) as [?|value]; [done|].
  destruct (match cc_Assert cfg with Some a => CheckAssert value a | None => None end); [done|].
  destruct (cc_Drift cfg) as [d|]; [|done]. unfold readBaseline, mbind, M_bind.
  destruct reader as [rd|] eqn:E; [|done].
  specialize (Hr rd (displayName cfg) (cc_Capture cfg) DriftWindow w eq_refl).
  destruct (rd _ _ _ w) as [[[?|vs]|?|] ?]; try done.
  destruct (Baseline vs) as [b|]; [|done]. cbn -[CheckDrift]. by destruct (CheckDrift value b d).
Qed.

(** The verdict a value deserves, given the history that could be read. *)
Definition within_bounds (value : float64) (history : option float64) : Prop :=
  (forall a, cc_Assert cfg = Some a -> CheckAssert value a = None) /\
  (forall d b, cc_Drift cfg = Some d -> history = Some b -> CheckDrift value b d = None).

(** A check with a capture passes exactly when one finite number was read and
    it is within every bound the plan states that could be judged: the absolute
    bounds always, the drift whenever the history gave a baseline. A history
    that is missing or cannot be read never fails the check, and is recorded as
    the reason why no drift was judged; the value read is recorded in every
    case, a failed one included. *)
Theorem evaluateCapture_verdict stdout msg details w res w' :
  evaluateCapture reader cfg stdout msg details w = (Ret res, w') ->
  match ParseCaptured stdout with
  | inl _ => cr_Status res = CheckFail
  | inr value =>
    captured_values res !! cc_Capture cfg = Some value /\
    exists history,
      (OK res = true <-> within_bounds value history) /\
      (is_Some (cc_Drift cfg) -> OK res = true -> history = None ->
       is_Some (cr_Details res !! DetailDriftSkipped)) /\
      (forall b, history = Some b -> exists values rd w1,
         reader = Some rd /\ rd (displayName cfg) (cc_Capture cfg) DriftWindow w = (Ret (inr values), w1) /\
         Baseline values = Some b)
  end.
Proof.
  unfold evaluateCapture. destruct (ParseCaptured stdout) as [err|value]; [by intros [= <- <-]|].
  assert (Hcap : forall st m k d, k <> DetailCaptured ->
    captured_values (result_of st m (<[k := d]> (<[DetailCaptured := DNumbers {[cc_Capture cfg := value]}]> details)))
      !! cc_Capture cfg = Some value).
  { intros st m k d Hk. unfold captured_values. cbn. rewrite lookup_insert_ne, lookup_insert_eq by done.
    apply lookup_singleton_eq. }
  assert (Hcap0 : forall st m,
    captured_values (result_of st m (<[DetailCaptured := DNumbers {[cc_Capture cfg := value]}]> details))
      !! cc_Capture cfg = Some value).
  { intros st m. unfold captured_values. cbn. rewrite lookup_insert_eq. apply lookup_singleton_eq. }
  destruct (match cc_Assert cfg with Some a => CheckAssert value a | None => None end) as [v|] eqn:Ha.
  { intros [= <- <-]. split; [apply Hcap0|]. exists None. split_and!; [|done|done].
    split; [done|]. intros [Hb _]. destruct (cc_Assert cfg) as [a|]; [|done]. by rewrite (Hb a eq_refl) in Ha. }
  assert (HA : forall a, cc_Assert cfg = Some a -> CheckAssert value a = None).
  { intros a E. by rewrite E in Ha. }
  destruct (cc_Drift cfg) as [drift|] eqn:Hd.
  2: { intros [= <- <-]. split; [apply Hcap0|]. exists None. split_and!; [|by intros [? ?]|done].
       split; [|done]. intros _. split; [done | by intros]. }
  intros E. apply bind_Ret_inv in E as (rb & w1 & Hrb & E). destruct rb as [skipped|baseline].
  - injection E as <- <-. split; [by apply Hcap|]. exists None.
    split_and!; [split; [|done] | |done]; [intros _; split; [done | by intros] |].
    intros _ _ _. cbn. rewrite lookup_insert_eq. by eexists.
  - assert (Hhist : exists values rd w1, reader = Some rd /\
      rd (displayName cfg) (cc_Capture cfg) DriftWindow w = (Ret (inr values), w1) /\ Baseline values = Some baseline).
    { unfold readBaseline in Hrb. destruct reader as [rd|]; [|done].
      apply bind_Ret_inv in Hrb as (o & w2 & Hrd & Hrb). destruct o as [?|values]; [done|].
      destruct (Baseline values) eqn:Hb; [|done]. injection Hrb as <- <-. by exists values, rd, w2. }
    destruct (CheckDrift value baseline drift) as [v|] eqn:Hdr; injection E as <- <-;
      (split; [by apply Hcap|]); exists (Some baseline); (split_and!; [|done | by intros b [= <-]]).
    + split; [done|]. intros [_ Hdb]. by rewrite (Hdb drift baseline Hd eq_refl) in Hdr.
    + split; [|done]. intros _. split; [done|]. intros d b. rewrite Hd. by intros [= <-] [= <-].
Qed.

(** The history that a target's reader gives in a world, if it gives one. *)
Definition history_given (w : W) : option float64 :=
  match reader with
  | Some rd => match (rd (displayName cfg) (cc_Capture cfg) DriftWindow w).1 with Ret (inr values) => Baseline values | _ => None end
  | None => None
  end.
Lemma readBaseline_given w rb w' : readBaseline reader cfg w = (Ret rb, w') ->
  history_given w = match rb with inl _ => None | inr b => Some b end.
Proof.
  unfold readBaseline, history_given. destruct reader as [rd|]; [|by intros [= <- <-]].
  intros (o & w1 & E & H)%bind_Ret_inv. rewrite E. cbn. destruct o as [?|values]; [by injection H as <- <-|].
  destruct (Baseline values); by injection H as <- <-.
Qed.
(** A capture is judged against the history of the world it is read in. *)
Lemma evaluateCapture_judged stdout msg details w res w' :
  evaluateCapture reader cfg stdout msg details w = (Ret res, w') ->
  cr_Status res <> CheckError /\
  match ParseCaptured stdout with
  | inl _ => OK res = false
  | inr value => captured_values res !! cc_Capture cfg = Some value /\ (OK res = true <-> within_bounds value (history_given w))
  end.
Proof.
  intros E. pose proof (evaluateCapture_verdict _ _ _ _ _ _ E) as Hv. revert E. unfold evaluateCapture.
  destruct (ParseCaptured stdout) as [err|value]; [by intros [= <- <-]|]. destruct Hv as [Hcap _].
  destruct (match cc_Assert cfg with Some a => CheckAssert value a | None => None end) as [v|] eqn:Ha.
  { intros [= <- <-]. split_and!; [done|done|]. split; [done|]. intros [Hb _]. destruct (cc_Assert cfg) as [a|]; [|done].
    by rewrite (Hb a eq_refl) in Ha. }
  assert (Hb : forall a, cc_Assert cfg = Some a -> CheckAssert value a = None) by (intros a Hca; by rewrite Hca in Ha).
  destruct (cc_Drift cfg) as [d|] eqn:Hd.
  2: { intros [= <- <-]. split_and!; [done|done|]. split; [|done]. intros _. split; [done|]. intros d b. by rewrite Hd. }
  intros (rb & w1 & Hrb & E)%bind_Ret_inv. apply readBaseline_given in Hrb. rewrite Hrb.
  destruct rb as [why|baseline]; [injection E as <- <-|destruct (CheckDrift value baseline d) as [v|] eqn:Hc; injection E as <- <-];
    (split_and!; [done|done|]); (split; try done); unfold within_bounds; rewrite Hd.
  - intros [_ Hdr]. by rewrite (Hdr d baseline eq_refl eq_refl) in Hc.
  - intros _. split; [done|]. by intros ? ? [= <-] [= <-].
Qed.
End CaptureSpec.

(** ** The theorems at work *)

(** A clock that ticks at each reading, a context never cancelled, one check that
    reads a count and one that panics. *)
#[export] Instance sim_checks : CheckEnv Z unit := {|
  check_now t := (t, t + 1);
  check_ctx_Err _ := None;
  check_wait d t := (None, t + d);
|}.
Definition sim_reader : BaselineReader Z := fun _ _ _ w => (Ret (inr (map float_of_Z [1204331; 1204000; 0])), w).
Definition sim_command (out : string) : Check Z unit :=
  mkCheck "command" (fun _ _ cfg => evaluateCapture (Some sim_reader) cfg out (Lit "exit 0") ∅).
Definition sim_broken : Check Z unit := mkCheck "dns" (fun _ _ _ => throw "nil map").
Definition sim_registry (out : string) : Registry (W := Z) (T := unit) :=
  Register (Register New (sim_command out)) sim_broken.
Definition sim_cfg (typ : string) : CheckConfig := {|
  cc_Type := typ; cc_Name := ""; cc_Timeout := 0; cc_Retries := 2; cc_RetryInterval := 5; cc_Critical := true;
  cc_Params := ∅; cc_Proves := ProofData; cc_Capture := "orders";
  cc_Assert := Some (mkAssertSpec (Some (float_of_Z 1)) None None);
  cc_Drift := Some (mkDriftSpec (float_of_Z 20) true) |}.

Example sim_statuses :
  match RunAll (sim_registry "1200000") tt (map sim_cfg ["command"; "dns"; "tcp"]) 0 with
  | (Ret results, _) => map (fun r => (cr_Status r, cr_Attempts r)) results
  | _ => []
  end = [(CheckPass, 1); (CheckError, 3); (CheckError, 0)].
Proof. vm_compute. reflexivity. Qed.

Lemma RunAll_accounts_witness :
  exists results w', RunAll (sim_registry "1200000") tt (map sim_cfg ["command"; "dns"]) 0 = (Ret results, w') /\
    Forall2 accounts (map sim_cfg ["command"; "dns"]) results.
Proof.
  apply (RunAll_accounts (sim_registry "1200000") tt (map sim_cfg ["command"; "dns"]) 0).
  intros typ c to cfg w Hg. unfold sim_registry in Hg. rewrite !Get_Register in Hg.
  destruct (decide (check_Type sim_broken = typ)); [injection Hg as <-; discriminate|].
  destruct (decide (check_Type (sim_command "1200000") = typ)); [|discriminate Hg]. injection Hg as <-.
  apply evaluateCapture_returns. by intros rd a b k w0 [= <-].
Defined.

(** The table came back empty: the value is recorded and the check fails. *)
Lemma evaluateCapture_verdict_witness :
  exists res, evaluateCapture (Some sim_reader) (sim_cfg "command") "0" (Lit "exit 0") ∅ 0 = (Ret res, 0) /\
    captured_values res !! "orders" = Some (float_of_Z 0).
Proof.
  eexists. assert (E : evaluateCapture (Some sim_reader) (sim_cfg "command") "0" (Lit "exit 0") ∅ 0
    = (Ret (result_of CheckFail (Sprintf "%s: %s" [AStr "orders"; AText (Sprintf "captured value %s is below the declared minimum of %s" [AStr "0"; AStr "1"])])
        (<[DetailCaptured := DNumbers {["orders" := float_of_Z 0]}]> ∅)), 0)) by (vm_compute; reflexivity).
  split; [exact E|]. pose proof (evaluateCapture_verdict (Some sim_reader) (sim_cfg "command") "0" (Lit "exit 0") ∅ 0 _ _ E) as H.
  assert (P : ParseCaptured "0" = inr (float_of_Z 0)) by (vm_compute; reflexivity). rewrite P in H.
  exact (proj1 H).
Defined.
