(* ===== verification/CheckParams.v ===== *)
(** * The parameters of a check

    Models internal/checks/params.go: the reading of the free-form parameters of a
    check, and their expansion as templates over the variables of its target. The
    library text/template is the class [TemplateEnv]. The state is the list of the
    problems met so far, as the source accumulates it. *)

From Stdlib Require Import ZArith Lia String Ascii List.
From S2P Require Import Prelude GoTime GoFloat Errors Core GoString GoStrconv GoFmt.

(** [template.New(name).Option("missingkey=error").Parse] and [Execute]. *)
Class TemplateEnv := {
  template : Type;
  template_Parse : string -> string -> error + template;
  template_Execute : template -> gmap string string -> error + string;
}.

(** %T of a decoded value. *)
Definition type_name (v : any) : string :=
  match v with
  | AnyNil => "<nil>"
  | AnyString _ => "string"
  | AnyInt _ => "int"
  | AnyFloat _ => "float64"
  | AnyBool _ => "bool"
  | AnyList _ => "[]interface {}"
  | AnyMap _ => "map[string]interface {}"
  end.

(** [toInt]: a decoded integer has 64 bits. *)
Definition toInt (v : any) : error + Z :=
  match v with
  | AnyInt t => inr t
  | AnyFloat t => inr (int_of_float t)
  | AnyString t =>
    match Atoi (TrimSpace t) with
    | Some n => inr n
    | None => inl (ENew (Sprintf "expected an integer, got %q" [AStr t]))
    end
  | v => inl (ENew (Sprintf "expected an integer, got %s" [AStr (type_name v)]))
  end.

(** [strconv.ParseBool]. *)
Definition ParseBool (s : string) : option bool :=
  if bool_decide (s ∈ ["1"; "t"; "T"; "true"; "TRUE"; "True"]) then Some true
  else if bool_decide (s ∈ ["0"; "f"; "F"; "false"; "FALSE"; "False"]) then Some false
  else None.

(** [errors.Join]. *)
Definition join_errors (errs : list error) : option error :=
  match errs with [] => None | e :: errs => Some (fold_left EJoin errs e) end.

(** The problems met so far. *)
Abbreviation Reading := (M (list error)).
Definition addErrf (fmt : string) (args : list arg) : Reading unit :=
  modify (fun errs => errs ++ [ENew (Sprintf fmt args)]).
Definition addErr_of (fmt : string) (args : list arg) (err : error) : Reading unit :=
  modify (fun errs => errs ++ [EWrap (Sprintf fmt (args ++ [AText (Error err)])) err]).

Section Params.
Context `{TemplateEnv} (raw : Params) (vars : gmap string string).

(** [expand]: what cannot be expanded stays as it is, and is a problem. *)
Definition expand (key s : string) : Reading string :=
  if negb (Contains s "{{") then mret s else
  match template_Parse key s with
  | inl err => _ ← addErr_of "param %q: invalid template: %w" [AStr key] err; mret s
  | inr t =>
    match template_Execute t vars with
    | inl err => _ ← addErr_of "param %q: template references an unknown variable: %w" [AStr key] err; mret s
    | inr s' => mret s'
    end
  end.

(** A string, or what %v prints of another value. *)
Definition string_of (v : any) : string := match v with AnyString s => s | v => fmt_v v end.

(** [String], [RequireString] and [Any]. *)
Definition p_String (key def : string) : Reading string :=
  match raw !! key with Some v => expand key (string_of v) | None => mret def end.
Definition p_RequireString (key : string) : Reading string :=
  match raw !! key with
  | None => _ ← addErrf "param %q is required" [AStr key]; mret ""
  | Some _ =>
    s ← p_String key "";
    if nonempty (TrimSpace s) then mret s
    else _ ← addErrf "param %q must not be empty" [AStr key]; mret s
  end.
Definition p_Any (key : string) : Reading (option any) :=
  match raw !! key with
  | None => mret None
  | Some (AnyString s) => s ← expand key s; mret (Some (AnyString s))
  | Some v => mret (Some v)
  end.

(** [Int] and [RequireInt]. *)
Definition int_or (key : string) (def : Z) (v : any) : Reading Z :=
  match toInt v with
  | inl err => _ ← addErr_of "param %q: %w" [AStr key] err; mret def
  | inr n => mret n
  end.
Definition p_Int (key : string) (def : Z) : Reading Z :=
  match raw !! key with None => mret def | Some v => int_or key def v end.
Definition p_RequireInt (key : string) : Reading Z :=
  match raw !! key with
  | None => _ ← addErrf "param %q is required" [AStr key]; mret 0
  | Some v => int_or key 0 v
  end.

(** [Bool] and [Duration]. *)
Definition p_Bool (key : string) (def : bool) : Reading bool :=
  match raw !! key with
  | None => mret def
  | Some (AnyBool t) => mret t
  | Some (AnyString t) =>
    match ParseBool (TrimSpace t) with
    | Some b => mret b
    | None => _ ← addErrf "param %q: expected a boolean, got %q" [AStr key; AStr t]; mret def
    end
  | Some v => _ ← addErrf "param %q: expected a boolean, got %s" [AStr key; AStr (type_name v)]; mret def
  end.
Definition p_Duration (key : string) (def : Z) : Reading Z :=
  match raw !! key with
  | None => mret def
  | Some (AnyString t) =>
    s ← expand key t;
    match ParseDuration (TrimSpace s) with
    | Some d => mret d
    | None => _ ← addErrf "param %q: expected a duration (e.g. %s), got %q" [AStr key; AStr (quoted "500ms"); AStr s]; mret def
    end
  | Some (AnyInt t) => mret (Duration.wrap (t * Duration.Second))
  | Some (AnyFloat t) => mret (int_of_float (fmul t (float_of_Z Duration.Second)))
  | Some v => _ ← addErrf "param %q: expected a duration, got %s" [AStr key; AStr (type_name v)]; mret def
  end.

(** [StringSlice] and [IntSlice]: nil when the key is not there. *)
Fixpoint expand_all (key : string) (l : list any) : Reading (list string) :=
  match l with
  | [] => mret []
  | v :: l => s ← expand key (string_of v); rest ← expand_all key l; mret (s :: rest)
  end.
Definition p_StringSlice (key : string) : Reading (list string) :=
  match raw !! key with
  | None => mret []
  | Some (AnyList t) => expand_all key t
  | Some (AnyString t) => s ← expand key t; mret [s]
  | Some v => _ ← addErrf "param %q: expected a list of strings, got %s" [AStr key; AStr (type_name v)]; mret []
  end.
Fixpoint ints_of (key : string) (l : list any) : Reading (list Z) :=
  match l with
  | [] => mret []
  | v :: l =>
    match toInt v with
    | inl err => _ ← addErr_of "param %q: %w" [AStr key] err; ints_of key l
    | inr n => rest ← ints_of key l; mret (n :: rest)
    end
  end.
Definition p_IntSlice (key : string) : Reading (list Z) :=
  match raw !! key with
  | None => mret []
  | Some (AnyList t) => ints_of key t
  | Some v => _ ← addErrf "param %q: expected a list of integers, got %s" [AStr key; AStr (type_name v)]; mret []
  end.

(** [Map] and [StringMap], in the order the entries are listed. *)
Definition p_Map (key : string) : Reading (list (string * any)) :=
  match raw !! key with
  | None => mret []
  | Some (AnyMap t) => mret t
  | Some v => _ ← addErrf "param %q: expected a mapping, got %s" [AStr key; AStr (type_name v)]; mret []
  end.
Fixpoint expand_entries (key : string) (l : list (string * any)) : Reading (list (string * string)) :=
  match l with
  | [] => mret []
  | (k, v) :: l =>
    s ← expand (key +:+ "." +:+ k) (string_of v);
    rest ← expand_entries key l;
    mret ((k, s) :: rest)
  end.
Definition p_StringMap (key : string) : Reading (list (string * string)) :=
  m ← p_Map key;
  expand_entries key m.
End Params.
