(* ===== verification/Probes.v ===== *)
(** * The checks

    Models the built-in checks of internal/checks (command.go, tcp.go, http.go, dns.go,
    ping.go), how they classify a network failure (reachability.go and its tables of
    errnos), and what a guest executor is (internal/core/exec.go). The network, the
    regular expressions and the JSON library are the class [ProbeEnv]. *)

From Stdlib Require Import ZArith Lia String Ascii List.
From S2P Require Import Prelude GoTime GoFloat Errors Core GoString GoStrconv GoFmt CheckValues Checks CheckParams.

(** ** Running a command in a guest (exec.go) *)

Record ExecRequest := mkExecRequest { er_Argv : list string; er_Input : string; er_MaxOutputBytes : Z }.
Record ExecResult := mkExecResult { xr_ExitCode : Z; xr_Stdout : string; xr_Stderr : string; xr_Truncated : bool; xr_Signal : string }.
Record GuestOS := mkGuestOS { os_Family : string; os_ID : string; os_Name : string; os_PrettyName : string; os_Version : string }.
Definition GuestOSWindows : string := "windows".
Definition GuestOSLinux : string := "linux".
(** [GuestOS.String]. *)
Definition GuestOS_String (g : GuestOS) : string :=
  if nonempty (os_PrettyName g) then os_PrettyName g
  else if nonempty (os_Name g) && nonempty (os_Version g) then os_Name g +:+ " " +:+ os_Version g
  else if nonempty (os_Name g) then os_Name g
  else if nonempty (os_ID g) then os_ID g
  else "unknown".

(** [GuestExecutor], and the [GuestOSDetector] that it may be as well. *)
Record GuestExecutor (W : Type) := mkGuestExecutor {
  ge_ExecInGuest : string -> ExecRequest -> M W (error + ExecResult);
  ge_GuestOS : option (string -> M W (error + GuestOS));
}.
Arguments mkGuestExecutor {W}.
Arguments ge_ExecInGuest {W}.
Arguments ge_GuestOS {W}.

(** [Target], and [TemplateVars]: the variables of the plan come first. *)
Record CheckTarget (W : Type) := mkCheckTarget {
  ct_IP : string;
  ct_IPs : list string;
  ct_WorkloadID : string;
  ct_Node : string;
  ct_Name : string;
  ct_Vars : gmap string string;
  ct_Exec : option (GuestExecutor W);
  ct_Baseline : option (BaselineReader W);
}.
Arguments mkCheckTarget {W}.
Arguments ct_IP {W}.
Arguments ct_WorkloadID {W}.
Arguments ct_Node {W}.
Arguments ct_Name {W}.
Arguments ct_Vars {W}.
Arguments ct_Exec {W}.
Arguments ct_Baseline {W}.
Definition TemplateVars {W} (t : CheckTarget W) : gmap string string :=
  ct_Vars t ∪ list_to_map [("ip", ct_IP t); ("id", ct_WorkloadID t); ("node", ct_Node t); ("name", ct_Name t); ("target", ct_IP t)].

(** ** Silence and answers (reachability.go) *)

(** What the classification looks for in an error: [errors.Is] is that of [Errors],
    the rest is what [errors.As] finds. *)
Record DNSError := mkDNSError { dn_Err : string; dn_Name : string; dn_IsNotFound : bool; dn_IsTimeout : bool }.
Record NetError := mkNetError {
  ne_err : error;
  ne_errno : option Z;
  ne_timeout : bool;
  ne_dns : option DNSError;
  ne_permission : bool;   (* os.IsPermission *)
}.

(** The error numbers of a platform. *)
Record Errnos := mkErrnos { connReset : Z; hostUnreach : Z; netUnreach : Z; answeredErrnos : list Z; silentErrnos : list Z }.
Definition unix_errnos : Errnos := mkErrnos 104 113 101 [111; 104] [110; 112; 113; 101; 100].
Definition windows_errnos : Errnos := mkErrnos 10054 10065 10051 [10061; 10054] [10060; 10064; 10065; 10051; 10050].
Definition other_errnos : Errnos := mkErrnos 0 0 0 [] [].

Definition answeredCause (p : Errnos) (errno : Z) : string :=
  if errno =? connReset p then "connection reset" else "connection refused".
Definition silentCause (p : Errnos) (errno : Z) : string :=
  if errno =? hostUnreach p then "no route to host" else if errno =? netUnreach p then "network unreachable" else "no answer".
Definition one_of (l : list Z) (n : Z) : bool := existsb (Z.eqb n) l.
(** What an errno says, if it is in a table. *)
Definition errno_failure (p : Errnos) (e : NetError) : option (text * bool) :=
  match ne_errno e with
  | None => None
  | Some n =>
    if one_of (answeredErrnos p) n then Some (Lit (answeredCause p n), false)
    else if one_of (silentErrnos p) n then Some (Lit (silentCause p n), true)
    else None
  end.
Definition dialFailure (p : Errnos) (e : NetError) : text * bool :=
  if Is (ne_err e) context_DeadlineExceeded then (Lit "timed out", true)
  else if Is (ne_err e) context_Canceled then (Lit "cancelled", false)
  else match errno_failure p e with
       | Some r => r
       | None =>
         if ne_timeout e then (Lit "timed out", true) else
         match ne_dns e with
         | Some d =>
           if dn_IsNotFound d then (Sprintf "no such host: %s" [AStr (dn_Name d)], false)
           else if dn_IsTimeout d then (Sprintf "no answer resolving %s" [AStr (dn_Name d)], true)
           else (Sprintf "%s: %s" [AStr (dn_Err d); AStr (dn_Name d)], false)
         | None => (Error (ne_err e), false)
         end
       end.

Definition noRouteHint : string :=
  "nothing answered: either this machine has no route into the isolated recovery network, " +:+
  "or the guest never brought its own network up. A check of this kind can only work when RestoreLab runs " +:+
  "somewhere that can reach the recovery network; a cmd: check runs inside the guest and needs no route at all".

(** [isPermissionError] (util.go). *)
Definition isPermissionError (e : NetError) : bool :=
  ne_permission e || match ne_errno e with Some n => (n =? 1) || (n =? 13) | None => false end
  || let msg := ToLower (render (Error (ne_err e))) in
     existsb (Contains msg) ["operation not permitted"; "permission denied"; "access is denied"; "forbidden by its access permissions"].

(** [net.JoinHostPort]. *)
Definition JoinHostPort (host port : string) : string :=
  if isIPv6 host then "[" +:+ host +:+ "]:" +:+ port else host +:+ ":" +:+ port.

(** ** The network and the libraries *)

Record HttpProbe := mkHttpProbe {
  hp_Method : string; hp_URL : string; hp_Headers : list (string * string); hp_Body : string;
  hp_InsecureTLS : bool; hp_FollowRedirects : bool;
}.
(** A response: what its body gives before it ends, or breaks off. *)
Record HttpAnswer := mkHttpAnswer { ha_StatusCode : Z; ha_Body : string; ha_Cut : option error }.
Record PingStats := mkPingStats { ps_Sent : Z; ps_Recv : Z; ps_AvgRtt : Z; ps_Loss : float64 }.

(** A call takes the deadline of the attempt and gives its latency with its result. *)
Class ProbeEnv (W : Type) := {
  errnos : Errnos;
  regexp_Compile : string -> error + (string -> bool);
  json_Unmarshal : string -> error + any;
  tcp_Dial : option Z -> string -> M W ((NetError + unit) * Z);
  tcp_Read : string -> M W (string * option error);
  http_NewRequest : HttpProbe -> option error;
  http_Do : option Z -> HttpProbe -> M W ((NetError + HttpAnswer) * Z);
  dns_LookupIPAddr : option Z -> string -> string -> M W ((NetError + list (string * bool)) * Z);
  dns_LookupCNAME : option Z -> string -> string -> M W ((NetError + string) * Z);
  dns_LookupMX : option Z -> string -> string -> M W ((NetError + list (string * Z)) * Z);
  dns_LookupTXT : option Z -> string -> string -> M W ((NetError + list string) * Z);
  ping_NewPinger : string -> M W (option error);
  ping_Run : option Z -> string -> Z -> Z -> Z -> bool -> M W (option NetError * PingStats);
}.

(** What [Details] holds. *)
Definition d_float (f : float64) : detail := DOther (Sprintf "%v" [AFloat f]).
Definition d_int (n : Z) : detail := DOther (Sprintf "%v" [AInt n]).
Definition d_string (s : string) : detail := DOther (Sprintf "%v" [AStr s]).
Definition d_strings (l : list string) : detail := DOther (Sprintf "%v" [AStrs l]).
Definition d_bool (b : bool) : detail := d_string (if b then "true" else "false").
Definition milliseconds (d : Z) : float64 := fdiv (float_of_Z d) (float_of_Z Duration.Millisecond).
Definition latency_detail (latency : Z) : gmap string detail := {["latency_ms" := d_float (milliseconds latency)]}.

Section Probes.
Context {W : Type} `{!TemplateEnv} `{!ProbeEnv W}.
Abbreviation Check := (Check W (CheckTarget W)).

Definition failed (fmt : string) (args : list arg) : gmap string detail -> CheckResult := result_of CheckFail (Sprintf fmt args).
Definition errored (fmt : string) (args : list arg) : gmap string detail -> CheckResult := result_of CheckError (Sprintf fmt args).
Definition passed (fmt : string) (args : list arg) : gmap string detail -> CheckResult := result_of CheckPass (Sprintf fmt args).

(** What a check does with its parameters, unless there is a problem with them. *)
Definition with_params {A} (m : Reading A) (k : A -> M W CheckResult) : M W CheckResult :=
  match m [] with
  | (Ret a, errs) =>
    match join_errors errs with
    | Some err => mret (result_of CheckError (Error err) ∅)
    | None => k a
    end
  | (Panic e, _) => throw e
  | (Diverge, _) => fun w => (Diverge, w)
  end.

(** ** TCP (tcp.go) *)

Definition formatLatency (d : Z) : Z :=
  if d <? Duration.Millisecond then Duration.Round d (10 * Duration.Microsecond) else Duration.Round d Duration.Millisecond.

Record tcp_params := mkTcpParams { tp_host : string; tp_port : Z; tp_banner : string }.
Definition read_tcp (target : CheckTarget W) (cfg : CheckConfig) : Reading tcp_params :=
  let raw := cc_Params cfg in let vars := TemplateVars target in
  host ← p_String raw vars "host" (ct_IP target);
  port ← p_RequireInt raw "port";
  banner ← p_String raw vars "expect_banner" "";
  mret (mkTcpParams host port banner).
(** What a banner is worth. *)
Definition judge_banner (addr expected banner : string) (rerr : option error) (details : gmap string detail) : CheckResult :=
  let details := <["banner" := d_string banner]> details in
  if negb (nonempty banner) then
    failed "connected to %s but no banner received: %v" [AStr addr; AText (match rerr with Some e => Error e | None => Lit "<nil>" end)] details
  else if negb (Contains banner expected) then
    failed "connected to %s but banner %q does not contain %q" [AStr addr; AStr (truncate banner 120); AStr expected] details
  else passed "connected to %s, banner matched %q" [AStr addr; AStr expected] details.
Definition TCPCheck_Run (to : option Z) (target : CheckTarget W) (cfg : CheckConfig) : M W CheckResult :=
  with_params (read_tcp target cfg) (fun p =>
    if negb (nonempty (TrimSpace (tp_host p))) then
      mret (errored "tcp: no host (target has no IP and params.host is empty)" [] ∅) else
    let addr := JoinHostPort (tp_host p) (pretty (tp_port p)) in
    r ← tcp_Dial to addr;
    let '(dialled, latency) := (r : (NetError + unit) * Z) in
    match dialled with
    | inl err =>
      let '(cause, silent) := dialFailure errnos err in
      let said := [AText cause; AStr addr; ADur (formatLatency latency)] in
      mret (if (silent : bool) then errored "%s on %s after %s - %s" (said ++ [AStr noRouteHint]) (latency_detail latency)
            else failed "%s on %s after %s" said (latency_detail latency))
    | inr _ =>
      if negb (nonempty (tp_banner p)) then
        mret (passed "connected to %s in %s" [AStr addr; ADur (formatLatency latency)] (latency_detail latency)) else
      b ← tcp_Read addr;
      mret (judge_banner addr (tp_banner p) b.1 b.2 (latency_detail latency))
    end).
Definition TCPCheck : Check := mkCheck "tcp" TCPCheck_Run.

(** ** ICMP (ping.go) *)

Record ping_params := mkPingParams { pp_host : string; pp_count : Z; pp_interval : Z; pp_privileged : bool }.
Definition read_ping (target : CheckTarget W) (cfg : CheckConfig) : Reading ping_params :=
  let raw := cc_Params cfg in let vars := TemplateVars target in
  host ← p_String raw vars "host" (ct_IP target);
  count ← p_Int raw "count" 3;
  interval ← p_Duration raw vars "interval" (500 * Duration.Millisecond);
  privileged ← p_Bool raw "privileged" false;
  mret (mkPingParams host count interval privileged).
(** The verdict: the replies that came, unless the ping itself could not be made. *)
Definition judge_ping (host : string) (runErr : option NetError) (stats : PingStats) : CheckResult :=
  let details : gmap string detail :=
    list_to_map [("packets_sent", d_int (ps_Sent stats)); ("packets_recv", d_int (ps_Recv stats));
                 ("avg_rtt_ms", d_float (milliseconds (ps_AvgRtt stats))); ("packet_loss", d_float (ps_Loss stats))] in
  let judged :=
    if ps_Recv stats =? 0 then
      errored "no replies from %s (%d/%d packets, 100%% loss) - %s"
        [AStr host; AInt (ps_Recv stats); AInt (ps_Sent stats); AStr noRouteHint] details
    else passed "%d/%d replies, avg %.2fms" [AInt (ps_Recv stats); AInt (ps_Sent stats); AFloat (milliseconds (ps_AvgRtt stats))] details in
  match runErr with
  | Some e =>
    if isPermissionError e then
      errored "ping %s: %v (ICMP socket denied; set privileged: true and grant CAP_NET_RAW / run elevated, or leave unprivileged if your OS supports it)"
        [AStr host; AText (Error (ne_err e))] details
    else if negb (Is (ne_err e) context_DeadlineExceeded) && negb (Is (ne_err e) context_Canceled) then
      errored "ping %s: %v" [AStr host; AText (Error (ne_err e))] details
    else judged
  | None => judged
  end.
Definition PingCheck_Run (to : option Z) (target : CheckTarget W) (cfg : CheckConfig) : M W CheckResult :=
  with_params (read_ping target cfg) (fun p =>
    let host := pp_host p in
    if negb (nonempty (TrimSpace host)) then
      mret (errored "ping: no host (target has no IP and params.host is empty)" [] ∅) else
    let count := if pp_count p <? 1 then 1 else pp_count p in
    let interval := if pp_interval p <? Duration.Millisecond then Duration.Millisecond else pp_interval p in
    made ← ping_NewPinger host;
    match made with
    | Some err => mret (errored "ping %s: could not resolve host: %v" [AStr host; AText (Error err)] ∅)
    | None =>
      r ← ping_Run to host count interval (Duration.wrap (Duration.wrap (interval * count) + 2 * Duration.Second)) (pp_privileged p);
      mret (judge_ping host r.1 r.2)
    end).
Definition PingCheck : Check := mkCheck "ping" PingCheck_Run.

(** ** DNS (dns.go) *)

Record dns_params := mkDnsParams { dq_name : string; dq_server : string; dq_port : Z; dq_type : string; dq_expect : list string }.
Definition read_dns (target : CheckTarget W) (cfg : CheckConfig) : Reading dns_params :=
  let raw := cc_Params cfg in let vars := TemplateVars target in
  name ← p_RequireString raw vars "name";
  server ← p_String raw vars "server" (ct_IP target);
  port ← p_Int raw "port" 53;
  qtype ← p_String raw vars "type" "A";
  expect ← p_StringSlice raw vars "expect";
  mret (mkDnsParams name server port (ToUpper qtype) expect).
(** The query and its answers, as texts; none for a type of record that is not
    supported. The resolver dials the server of the parameters. *)
Definition answers_of {A} (f : A -> list string) (m : M W ((NetError + A) * Z)) : M W ((NetError + list string) * Z) :=
  r ← m;
  mret (match r.1 with inl e => inl e | inr a => inr (f a) end, r.2).
Definition lookup_answers (to : option Z) (p : dns_params) : option (M W ((NetError + list string) * Z)) :=
  let server := JoinHostPort (dq_server p) (pretty (dq_port p)) in
  let name := dq_name p in
  let of_family (v4 : bool) (ips : list (string * bool)) := map fst (List.filter (fun ip => Bool.eqb v4 ip.2) ips) in
  if bool_decide (dq_type p = "A") then Some (answers_of (of_family true) (dns_LookupIPAddr to server name))
  else if bool_decide (dq_type p = "AAAA") then Some (answers_of (of_family false) (dns_LookupIPAddr to server name))
  else if bool_decide (dq_type p = "CNAME") then
    Some (answers_of (fun cname => [TrimSuffix cname "."]) (dns_LookupCNAME to server name))
  else if bool_decide (dq_type p = "MX") then
    Some (answers_of (map (fun mx => TrimSuffix mx.1 "." +:+ " " +:+ pretty mx.2)) (dns_LookupMX to server name))
  else if bool_decide (dq_type p = "TXT") then Some (answers_of id (dns_LookupTXT to server name))
  else None.
(** [containsString] (util.go). *)
Definition containsString (l : list string) (s : string) : bool := existsb (fun v => bool_decide (v = s)) l.
Definition judge_answers (p : dns_params) (answers : list string) (latency : Z) : CheckResult :=
  let details := <["answers" := d_strings answers]> (latency_detail latency) in
  let query := [AStr (dq_type p); AStr (dq_name p); AStr (dq_server p); AInt (dq_port p)] in
  let joined := AStr (Join ", " answers) in
  match answers with
  | [] => failed "query %s %s via %s:%d returned no answers" query details
  | _ =>
    match dq_expect p with
    | [] => passed "query %s %s via %s:%d -> %s" (query ++ [joined]) details
    | expect =>
      match List.filter (containsString answers) expect with
      | [] => failed "query %s %s via %s:%d -> %s (expected one of %s)" (query ++ [joined; AStr (Join ", " expect)]) details
      | matched => passed "query %s %s via %s:%d -> %s (matched %s)" (query ++ [joined; AStr (Join ", " matched)]) details
      end
    end
  end.
Definition DNSCheck_Run (to : option Z) (target : CheckTarget W) (cfg : CheckConfig) : M W CheckResult :=
  with_params (read_dns target cfg) (fun p =>
    if negb (nonempty (TrimSpace (dq_server p))) then
      mret (errored "dns: no server (target has no IP and params.server is empty)" [] ∅) else
    match lookup_answers to p with
    | None => mret (errored "dns: unsupported record type %q (supported: A, AAAA, CNAME, MX, TXT)" [AStr (dq_type p)] ∅)
    | Some query =>
      r ← query;
      let '(answers, latency) := (r : (NetError + list string) * Z) in
      match answers with
      | inl err =>
        let '(cause, silent) := dialFailure errnos err in
        let asked := [AStr (dq_type p); AStr (dq_name p); AStr (dq_server p); AInt (dq_port p)] in
        let after := ADur (Duration.Round latency Duration.Millisecond) in
        mret (if (silent : bool)
              then errored "query %s %s via %s:%d: %s after %s - %s" (asked ++ [AText cause; after; AStr noRouteHint]) (latency_detail latency)
              else failed "query %s %s via %s:%d failed after %s: %v" (asked ++ [after; AText (Error (ne_err err))]) (latency_detail latency))
      | inr answers => mret (judge_answers p answers latency)
      end
    end).
Definition DNSCheck : Check := mkCheck "dns" DNSCheck_Run.

(** ** HTTP (http.go) *)

Definition defaultMaxBodyBytes : Z := 1048576.
Definition maxBodySnippet : Z := 512.

Record http_params := mkHttpParams {
  h_url : string; h_method : string; h_expectedStatus : Z; h_expectedStatuses : list Z;
  h_headers : list (string * string); h_body : string; h_bodyContains : string; h_bodyMatches : string;
  h_jsonPath : string; h_jsonEquals : option any; h_insecureTLS : bool; h_followRedirects : bool; h_maxBodyBytes : Z;
}.
Definition read_http (target : CheckTarget W) (cfg : CheckConfig) : Reading http_params :=
  let raw := cc_Params cfg in let vars := TemplateVars target in
  url ← p_RequireString raw vars "url";
  method ← p_String raw vars "method" "GET";
  status ← p_Int raw "expected_status" 200;
  statuses ← p_IntSlice raw "expected_statuses";
  headers ← p_StringMap raw vars "headers";
  body ← p_String raw vars "body" "";
  contains ← p_String raw vars "body_contains" "";
  matches ← p_String raw vars "body_matches" "";
  path ← p_String raw vars "json_path" "";
  equals ← p_Any raw vars "json_equals";
  insecure ← p_Bool raw "insecure_tls" false;
  follow ← p_Bool raw "follow_redirects" true;
  bytes ← p_Int raw "max_body_bytes" defaultMaxBodyBytes;
  mret (mkHttpParams url (ToUpper method) status statuses headers body contains matches path equals insecure follow
          (if bytes <=? 0 then defaultMaxBodyBytes else bytes)).

(** [describeHTTPErr]: what follows the quoted URL. *)
Definition describeHTTPErr (err : error) : string :=
  let msg := render (Error err) in
  match Cut "034" msg with
  | Some (_, after) =>
    match Cut "034" after with
    | Some (_, rest) => let rest := TrimPrefix rest ": " in if nonempty rest then rest else msg
    | None => msg
    end
  | None => msg
  end.
Definition intsToString (ints : list Z) : string := "[" +:+ Join ", " (map pretty ints) +:+ "]".

(** [jsonPathLookup]: one part of the path, and the loop. *)
Definition json_child (node : any) (part : string) : text + any :=
  match node with
  | AnyMap l =>
    match List.find (fun kv => bool_decide (kv.1 = part)) l with
    | Some kv => inr kv.2
    | None => inl (Sprintf "key %q not found" [AStr part])
    end
  | AnyList l =>
    match Atoi part with
    | None => inl (Sprintf "expected an array index, got %q" [AStr part])
    | Some idx =>
      match (if idx <? 0 then None else l !! Z.to_nat idx) with
      | Some v => inr v
      | None => inl (Sprintf "array index %d out of range (length %d)" [AInt idx; AInt (Z.of_nat (length l))])
      end
    end
  | v => inl (Sprintf "cannot descend into %s at %q" [AStr (type_name v); AStr part])
  end.
Fixpoint descend (cur : any) (parts : list string) : text + any :=
  match parts with
  | [] => inr cur
  | part :: parts =>
    if negb (nonempty part) then descend cur parts else
    match json_child cur part with inl err => inl err | inr v => descend v parts end
  end.
Definition jsonPathLookup (root : any) (path : string) : text + any := descend root (Split "." path).

(** [jsonValuesEqual]. *)
Definition toFloatValue (v : any) : option float64 :=
  match v with AnyFloat f => Some f | AnyInt n => Some (float_of_Z n) | _ => None end.
Definition jsonValuesEqual (got want : any) : bool :=
  match toFloatValue got, toFloatValue want with
  | Some gf, Some wf => feqb gf wf
  | _, _ => bool_decide (fmt_v got = fmt_v want)
  end.

(** [io.ReadAll] of the first [n] bytes of a body. *)
Definition read_body (n : Z) (a : HttpAnswer) : error + string :=
  if n <=? Z.of_nat (String.length (ha_Body a)) then inr (String.substring 0 (Z.to_nat n) (ha_Body a))
  else match ha_Cut a with Some err => inl err | None => inr (ha_Body a) end.
Definition status_wanted (p : http_params) (status : Z) : bool :=
  match h_expectedStatuses p with [] => status =? h_expectedStatus p | l => one_of l status end.
(** The verdict on a body, after its status; [line] is the request and its status. *)
Definition judge_json (p : http_params) (line : list arg) (data : string) (details : gmap string detail) : option CheckResult :=
  if negb (nonempty (h_jsonPath p)) then None else
  match json_Unmarshal data with
  | inl err => Some (failed "%s %s -> %d but body is not valid JSON: %v" (line ++ [AText (Error err)]) details)
  | inr root =>
    match jsonPathLookup root (h_jsonPath p) with
    | inl err => Some (failed "%s %s -> %d but json_path %q: %v" (line ++ [AStr (h_jsonPath p); AText err]) details)
    | inr got =>
      match h_jsonEquals p with
      | Some want =>
        if jsonValuesEqual got want then None
        else Some (failed "%s %s -> %d but json_path %q = %v (expected %v)"
                     (line ++ [AStr (h_jsonPath p); AStr (fmt_v got); AStr (fmt_v want)]) details)
      | None => None
      end
    end
  end.
Definition judge_matches (p : http_params) (line : list arg) (data : string) (details : gmap string detail) : option CheckResult :=
  if negb (nonempty (h_bodyMatches p)) then judge_json p line data details else
  match regexp_Compile (h_bodyMatches p) with
  | inl err => Some (errored "http: invalid body_matches regex %q: %v" [AStr (h_bodyMatches p); AText (Error err)] details)
  | inr re =>
    if re data then judge_json p line data details
    else Some (failed "%s %s -> %d but body does not match /%s/ (body: %s)" (line ++ [AStr (h_bodyMatches p); AStr (truncate data 200)]) details)
  end.
Definition judge_body (p : http_params) (line : list arg) (data : string) (details : gmap string detail) : option CheckResult :=
  if nonempty (h_bodyContains p) && negb (Contains data (h_bodyContains p)) then
    Some (failed "%s %s -> %d but body does not contain %q (body: %s)" (line ++ [AStr (h_bodyContains p); AStr (truncate data 200)]) details)
  else judge_matches p line data details.
Definition judge_response (p : http_params) (a : HttpAnswer) (latency : Z) : CheckResult :=
  let status := ha_StatusCode a in
  let line := [AStr (h_method p); AStr (h_url p); AInt status] in
  let after := ADur (Duration.Round latency Duration.Millisecond) in
  let details := <["status_code" := d_int status]> (latency_detail latency) in
  match read_body (h_maxBodyBytes p) a with
  | inl err => failed "%s %s -> %d but reading the body failed: %v" (line ++ [AText (Error err)]) details
  | inr data =>
    let details := <["body_size" := d_int (Z.of_nat (String.length data))]> (<["body_snippet" := d_string (truncate data maxBodySnippet)]> details) in
    if negb (status_wanted p status) then
      let wanted := match h_expectedStatuses p with [] => pretty (h_expectedStatus p) | l => intsToString l end in
      failed "%s %s -> %d (expected %s) in %s" (line ++ [AStr wanted; after]) details
    else default (passed "%s %s -> %d in %s" (line ++ [after]) details) (judge_body p line data details)
  end.
Definition http_Run (to : option Z) (target : CheckTarget W) (cfg : CheckConfig) : M W CheckResult :=
  with_params (read_http target cfg) (fun p =>
    let line := [AStr (h_method p); AStr (h_url p)] in
    let req := mkHttpProbe (h_method p) (h_url p) (h_headers p) (h_body p) (h_insecureTLS p) (h_followRedirects p) in
    match http_NewRequest req with
    | Some err => mret (errored "http: invalid request %s %s: %v" (line ++ [AText (Error err)]) ∅)
    | None =>
      r ← http_Do to req;
      let '(resp, latency) := (r : (NetError + HttpAnswer) * Z) in
      match resp with
      | inl err =>
        let '(cause, silent) := dialFailure errnos err in
        let after := ADur (Duration.Round latency Duration.Millisecond) in
        mret (if (silent : bool) then errored "%s %s: %s after %s - %s" (line ++ [AText cause; after; AStr noRouteHint]) (latency_detail latency)
              else failed "%s %s failed after %s: %s" (line ++ [after; AStr (describeHTTPErr (ne_err err))]) (latency_detail latency))
      | inr a => mret (judge_response p a latency)
      end
    end).
Definition newHTTPCheck (typ : string) : Check := mkCheck typ http_Run.

(** ** A command in the guest (command.go) *)

Definition defaultMaxOutputBytes : Z := 65536.
Definition defaultShell : string := "/bin/sh".

(** [autoShell]: the interpreter, and why it is only the default. *)
Definition autoShell (exec : GuestExecutor W) (id : string) : M W (string * option error) :=
  match ge_GuestOS exec with
  | None => mret (defaultShell, None)
  | Some detect =>
    r ← detect id;
    mret (match r with
          | inl err => (defaultShell, Some err)
          | inr os =>
            if bool_decide (os_Family os = GuestOSWindows) then ("cmd", None)
            else if bool_decide (os_Family os = GuestOSLinux) then (defaultShell, None)
            else (defaultShell, Some (ENew (Sprintf "the guest agent reported an OS this check does not recognise (%s)" [AStr (GuestOS_String os)])))
          end)
  end.
Definition shellFallbackNote (detectErr : option error) (shell : string) : text :=
  match detectErr with
  | None => Lit ""
  | Some err =>
    Sprintf "%s" [AText (Sprintf " (the guest OS could not be detected, so %q was used by default: %v; set %s on the check to name the interpreter yourself)"
      [AStr shell; AText (Error err); AStr (quoted "shell")])]
  end.
Definition resolveShellArgv (shell run : string) : error + list string :=
  if bool_decide (shell = "sh") || bool_decide (shell = "/bin/sh") then inr ["/bin/sh"; "-c"; run]
  else if bool_decide (shell = "bash") then inr ["bash"; "-c"; run]
  else if bool_decide (shell = "cmd") then inr ["cmd"; "/c"; run]
  else if bool_decide (shell = "powershell") then inr ["powershell"; "-NoProfile"; "-NonInteractive"; "-Command"; run]
  else if ContainsAny shell "/\" then inr [shell; "-c"; run]
  else inl (ENew (Sprintf "command: unrecognized shell %q (use an interpreter path, or one of: sh, bash, cmd, powershell)" [AStr shell])).
Definition commandEvidence (stdout stderr : string) : text :=
  let out := AStr (truncate stdout 200) in let err := AStr (truncate stderr 200) in
  if nonempty stderr && nonempty stdout then Sprintf ": stdout %q, stderr %q" [out; err]
  else if nonempty stderr then Sprintf ": stderr %q" [err]
  else if nonempty stdout then Sprintf ": stdout %q" [out]
  else Lit " (no output)".

(** A parameter that is not there is none. *)
Record command_params := mkCommandParams {
  cp_run : option string; cp_argv : option (list string); cp_shell : string;
  cp_expect : option string; cp_contains : option string; cp_matches : option string;
  cp_exit : Z; cp_input : string; cp_max : Z;
}.
Definition when_set {A} (raw : Params) (key : string) (m : Reading A) : Reading (option A) :=
  match raw !! key with Some _ => a ← m; mret (Some a) | None => mret None end.
Definition read_command (target : CheckTarget W) (cfg : CheckConfig) : Reading command_params :=
  let raw := cc_Params cfg in let vars := TemplateVars target in
  run ← when_set raw "run" (p_RequireString raw vars "run");
  argv ← when_set raw "argv" (p_StringSlice raw vars "argv");
  shell ← p_String raw vars "shell" "";
  expect ← when_set raw "expect" (p_String raw vars "expect" "");
  contains ← when_set raw "stdout_contains" (p_String raw vars "stdout_contains" "");
  matches ← when_set raw "stdout_matches" (p_String raw vars "stdout_matches" "");
  exit ← p_Int raw "expect_exit_code" 0;
  input ← p_String raw vars "input" "";
  max ← p_Int raw "max_output_bytes" defaultMaxOutputBytes;
  mret (mkCommandParams run argv shell expect contains matches exit input max).

(** The contracts that a command declares for itself: the result of one that does not
    hold, and the first of them. *)
Definition broken_exit (p : command_params) (res : ExecResult) (details : gmap string detail) : option CheckResult :=
  if xr_ExitCode res =? cp_exit p then None
  else Some (failed "exit code %d, want %d%s"
    [AInt (xr_ExitCode res); AInt (cp_exit p); AText (commandEvidence (TrimSpace (xr_Stdout res)) (TrimSpace (xr_Stderr res)))] details).
Definition broken_expect (p : command_params) (stdout : string) (details : gmap string detail) : option CheckResult :=
  expect ← cp_expect p;
  if bool_decide (TrimSpace stdout = expect) then None
  else Some (failed "stdout %q, want %q" [AStr (truncate (TrimSpace stdout) 200); AStr (truncate expect 200)] details).
Definition broken_contains (p : command_params) (stdout : string) (details : gmap string detail) : option CheckResult :=
  sub ← cp_contains p;
  if Contains stdout sub then None
  else Some (failed "stdout does not contain %q (stdout: %q)" [AStr sub; AStr (truncate stdout 200)] details).
Definition broken_matches (p : command_params) (stdout : string) (details : gmap string detail) : option CheckResult :=
  pattern ← cp_matches p;
  match regexp_Compile pattern with
  | inl err => Some (errored "command: invalid stdout_matches regex %q: %v" [AStr pattern; AText (Error err)] details)
  | inr re =>
    if re stdout then None
    else Some (failed "stdout does not match /%s/ (stdout: %q)" [AStr pattern; AStr (truncate stdout 200)] details)
  end.
Definition broken_contract (p : command_params) (res : ExecResult) (details : gmap string detail) : option CheckResult :=
  head (omap id [broken_exit p res details; broken_expect p (xr_Stdout res) details;
                 broken_contains p (xr_Stdout res) details; broken_matches p (xr_Stdout res) details]).

Definition command_details (argv : list string) (res : ExecResult) : gmap string detail :=
  list_to_map [("exit_code", d_int (xr_ExitCode res)); ("stdout", d_string (truncate (xr_Stdout res) 512));
               ("stderr", d_string (truncate (xr_Stderr res) 512)); ("truncated", d_bool (xr_Truncated res)); ("argv", d_strings argv)].
(** What a command that came back is worth: its value is read only when every
    contract holds. *)
Definition judge_command (target : CheckTarget W) (cfg : CheckConfig) (p : command_params) (argv : list string) (res : ExecResult) :
    M W CheckResult :=
  let details := command_details argv res in
  match broken_contract p res details with
  | Some r => mret r
  | None =>
    let trimmed := TrimSpace (xr_Stdout res) in
    let msg := if nonempty trimmed then Sprintf "exit %d, stdout %q" [AInt (xr_ExitCode res); AStr (truncate trimmed 200)]
               else Sprintf "exit %d" [AInt (xr_ExitCode res)] in
    if nonempty (cc_Capture cfg) then evaluateCapture (ct_Baseline target) cfg (xr_Stdout res) msg details
    else mret (result_of CheckPass msg details)
  end.
Definition not_run (argv : list string) (note err : text) (is_agent : bool) : CheckResult :=
  if is_agent then
    errored "command: guest agent unavailable: %v (install and start qemu-guest-agent in the guest, then enable the QEMU guest agent on the VM)%s"
      [AText err; AText note] ∅
  else errored "command: could not run %q in the guest: %v%s" [AStr (Join " " argv); AText err; AText note] ∅.
Definition run_command (exec : GuestExecutor W) (target : CheckTarget W) (cfg : CheckConfig) (p : command_params)
    (argv : list string) (note : text) : M W CheckResult :=
  r ← ge_ExecInGuest exec (ct_WorkloadID target) (mkExecRequest argv (cp_input p) (cp_max p));
  match r with
  | inl err => mret (not_run argv note (Error err) (Is err ErrGuestAgentUnavailable))
  | inr res => judge_command target cfg p argv res
  end.
(** The command line of the parameters: it is an argument of [run_command] once its
    interpreter is known. *)
Definition run_line (exec : GuestExecutor W) (target : CheckTarget W) (cfg : CheckConfig) (p : command_params) (run : string) : M W CheckResult :=
  sd ← (if nonempty (TrimSpace (cp_shell p)) then mret (cp_shell p, None) else autoShell exec (ct_WorkloadID target));
  let '(shell, detectErr) := (sd : string * option error) in
  match resolveShellArgv shell run with
  | inl err => mret (result_of CheckError (Error err) ∅)
  | inr argv => run_command exec target cfg p argv (shellFallbackNote detectErr shell)
  end.
Definition CommandCheck_Run (to : option Z) (target : CheckTarget W) (cfg : CheckConfig) : M W CheckResult :=
  with_params (read_command target cfg) (fun p =>
    let with_exec (k : GuestExecutor W -> M W CheckResult) : M W CheckResult :=
      match ct_Exec target with
      | Some exec => k exec
      | None => mret (errored "command: this check needs a provider that can run commands in the guest (no guest executor configured for this target); the workload needs the QEMU guest agent installed and enabled" [] ∅)
      end in
    match cp_run p, cp_argv p with
    | None, None | Some _, Some _ => mret (errored "command: exactly one of %q or %q is required" [AStr "run"; AStr "argv"] ∅)
    | None, Some [] => mret (errored "command: param %q must not be empty" [AStr "argv"] ∅)
    | None, Some argv => with_exec (fun exec => run_command exec target cfg p argv (shellFallbackNote None (cp_shell p)))
    | Some run, None => with_exec (fun exec => run_line exec target cfg p run)
    end).
Definition CommandCheck : Check := mkCheck "command" CommandCheck_Run.

(** ** The registry of all checks (registry.go) *)

Definition Default : Registry (W := W) (T := CheckTarget W) :=
  fold_left Register [PingCheck; TCPCheck; newHTTPCheck "http"; newHTTPCheck "https"; DNSCheck; CommandCheck] New.
End Probes.
