(* ===== verification/ProbeTheorems.v ===== *)
(** * What a check says

    The checks of [Probes]: they always come back when what they ask does, silence is
    never taken for a failure of the workload, and what passes satisfies what its
    parameters state. *)

From Stdlib Require Import ZArith Lia String Ascii List.
From S2P Require Import Prelude GoTime GoFloat Errors Core GoString GoStrconv GoFmt CheckValues Checks CheckParams Probes.

(** ** Reading parameters *)

Section Reading.
Context `{TemplateEnv} (raw : Params) (vars : gmap string string).

Lemma addErrf_returns fmt args : returns (addErrf fmt args).
Proof. apply answers_modify. Qed.
Lemma addErr_of_returns fmt args err : returns (addErr_of fmt args err).
Proof. apply answers_modify. Qed.
Hint Resolve addErrf_returns addErr_of_returns : answers.
Lemma expand_returns key s : returns (expand vars key s).
Proof. unfold expand. answers_auto. Qed.
Hint Resolve expand_returns : answers.
Lemma p_String_returns key def : returns (p_String raw vars key def).
Proof. unfold p_String. answers_auto. Qed.
Hint Resolve p_String_returns : answers.
Lemma p_RequireString_returns key : returns (p_RequireString raw vars key).
Proof. unfold p_RequireString. answers_auto. Qed.
Lemma p_Any_returns key : returns (p_Any raw vars key).
Proof. unfold p_Any. answers_auto. Qed.
Lemma int_or_returns key def v : returns (int_or key def v).
Proof. unfold int_or. answers_auto. Qed.
Hint Resolve int_or_returns : answers.
Lemma p_Int_returns key def : returns (p_Int raw key def).
Proof. unfold p_Int. answers_auto. Qed.
Lemma p_RequireInt_returns key : returns (p_RequireInt raw key).
Proof. unfold p_RequireInt. answers_auto. Qed.
Lemma p_Bool_returns key def : returns (p_Bool raw key def).
Proof. unfold p_Bool. answers_auto. Qed.
Lemma p_Duration_returns key def : returns (p_Duration raw vars key def).
Proof. unfold p_Duration. answers_auto. Qed.
Lemma expand_all_returns key l : returns (expand_all vars key l).
Proof. induction l; cbn [expand_all]; answers_auto. Qed.
Lemma ints_of_returns key l : returns (ints_of key l).
Proof. induction l; cbn [ints_of]; answers_auto. Qed.
Lemma expand_entries_returns key l : returns (expand_entries vars key l).
Proof. induction l; cbn [expand_entries]; answers_auto. Qed.
Hint Resolve expand_all_returns ints_of_returns expand_entries_returns : answers.
Lemma p_StringSlice_returns key : returns (p_StringSlice raw vars key).
Proof. unfold p_StringSlice. answers_auto. Qed.
Lemma p_IntSlice_returns key : returns (p_IntSlice raw key).
Proof. unfold p_IntSlice. answers_auto. Qed.
Lemma p_StringMap_returns key : returns (p_StringMap raw vars key).
Proof. unfold p_StringMap, p_Map. eapply (answers_bind (fun _ => True)); [|intros m _; apply expand_entries_returns]. answers_auto. Qed.
End Reading.
#[export] Hint Resolve p_String_returns p_RequireString_returns p_Any_returns p_Int_returns p_RequireInt_returns
  p_Bool_returns p_Duration_returns p_StringSlice_returns p_IntSlice_returns p_StringMap_returns : answers.

Section Reads.
Context {W : Type} `{!TemplateEnv} `{!ProbeEnv W} (target : CheckTarget W) (cfg : CheckConfig).

Lemma read_tcp_returns : returns (read_tcp target cfg).
Proof. unfold read_tcp. answers_auto. Qed.
Lemma read_ping_returns : returns (read_ping target cfg).
Proof. unfold read_ping. answers_auto. Qed.
Lemma read_dns_returns : returns (read_dns target cfg).
Proof. unfold read_dns. answers_auto. Qed.
Lemma read_http_returns : returns (read_http target cfg).
Proof. unfold read_http. answers_auto. Qed.
Lemma when_set_returns {A} raw key (m : Reading A) : returns m -> returns (when_set raw key m).
Proof. intros Hm. unfold when_set. answers_auto. Qed.
Hint Resolve when_set_returns : answers.
Lemma read_command_returns : returns (read_command target cfg).
Proof. unfold read_command. answers_auto. Qed.

(** A check whose parameters have a problem asks nothing of anyone; else it goes on. *)
Lemma with_params_cases {A} (m : Reading A) (k : A -> M W CheckResult) w : returns m ->
  (exists err, with_params m k w = (Ret (result_of CheckError (Error err) ∅), w)) \/
  (exists a, m [] = (Ret a, []) /\ with_params m k w = k a w).
Proof.
  intros Hm. destruct (Hm []) as (a & errs & E & _). unfold with_params. rewrite E.
  destruct errs as [|e errs]; [right; by exists a|]. left. by exists (fold_left EJoin errs e).
Qed.
Lemma with_params_Ret {A} (m : Reading A) (k : A -> M W CheckResult) w r w' : returns m -> with_params m k w = (Ret r, w') ->
  cr_Status r = CheckError \/ exists a, m [] = (Ret a, []) /\ k a w = (Ret r, w').
Proof.
  intros Hm E. destruct (with_params_cases m k w Hm) as [[err E']|(a & Ha & E')]; rewrite E' in E; [injection E as <- _; by left|right; by exists a].
Qed.
End Reads.

(** ** Silence *)

(** The numbers with which a platform says that nothing answered. *)
Inductive silent_errno : Errnos -> Z -> Prop :=
| unix_ETIMEDOUT : silent_errno unix_errnos 110
| unix_EHOSTDOWN : silent_errno unix_errnos 112
| unix_EHOSTUNREACH : silent_errno unix_errnos 113
| unix_ENETUNREACH : silent_errno unix_errnos 101
| unix_ENETDOWN : silent_errno unix_errnos 100
| windows_WSAETIMEDOUT : silent_errno windows_errnos 10060
| windows_WSAEHOSTDOWN : silent_errno windows_errnos 10064
| windows_WSAEHOSTUNREACH : silent_errno windows_errnos 10065
| windows_WSAENETUNREACH : silent_errno windows_errnos 10051
| windows_WSAENETDOWN : silent_errno windows_errnos 10050.
(** The errors of a call that nothing answered: the deadline of the attempt passed;
    or the call was not cut off by a cancellation, and the system says that nobody
    was there, or that it waited in vain, or the resolver never answered. *)
Inductive no_answer (platform : Errnos) (e : NetError) : Prop :=
| na_deadline : Is (ne_err e) context_DeadlineExceeded = true -> no_answer platform e
| na_errno n : Is (ne_err e) context_Canceled = false -> ne_errno e = Some n -> silent_errno platform n -> no_answer platform e
| na_timeout : Is (ne_err e) context_Canceled = false -> ne_errno e = None -> ne_timeout e = true -> no_answer platform e
| na_resolver d : Is (ne_err e) context_Canceled = false -> ne_errno e = None -> ne_dns e = Some d ->
    dn_IsNotFound d = false -> dn_IsTimeout d = true -> no_answer platform e.
Lemma no_answer_silent platform e : no_answer platform e -> (dialFailure platform e).2 = true.
Proof.
  unfold dialFailure, errno_failure. intros [->|n -> -> []| -> -> -> | d -> -> -> -> ->];
    try done; destruct (Is (ne_err e) context_DeadlineExceeded); try done. by destruct (ne_timeout e).
Qed.

Section Silence.
Context {W : Type} `{!TemplateEnv} `{!ProbeEnv W} (target : CheckTarget W).

(** A call that nothing answers; and a network where nothing does. *)
Definition unanswered {A} (m : M W ((NetError + A) * Z)) : Prop :=
  forall w, exists e l w', m w = (Ret (inl e, l), w') /\ no_answer errnos e.
Record silent : Prop := {
  silent_tcp to addr : unanswered (tcp_Dial to addr);
  silent_http to q : unanswered (http_Do to q);
  silent_ip to server name : unanswered (dns_LookupIPAddr to server name);
  silent_cname to server name : unanswered (dns_LookupCNAME to server name);
  silent_mx to server name : unanswered (dns_LookupMX to server name);
  silent_txt to server name : unanswered (dns_LookupTXT to server name);
  silent_pinger host : returns (ping_NewPinger host);
  silent_ping to host count interval timeout privileged :
    answers (fun r => ps_Recv r.2 = 0) (ping_Run to host count interval timeout privileged);
}.
Context (Hs : silent).

Definition could_not_run (r : CheckResult) : Prop := cr_Status r = CheckError.
Lemma with_params_answers {A} (m : Reading A) (k : A -> M W CheckResult) :
  returns m -> (forall a, answers could_not_run (k a)) -> answers could_not_run (with_params m k).
Proof.
  intros Hm Hk w. destruct (with_params_cases m k w Hm) as [[err E]|(a & _ & E)]; rewrite E; [by eexists _, _|apply Hk].
Qed.
Lemma unanswered_bind {A} (m : M W ((NetError + A) * Z)) (k : (NetError + A) * Z -> M W CheckResult) :
  unanswered m -> (forall e l, (dialFailure errnos e).2 = true -> answers could_not_run (k (inl e, l))) ->
  answers could_not_run (mbind k m).
Proof. intros Hm Hk w. destruct (Hm w) as (e & l & w' & E & Hd). rewrite (bind_Ret _ _ _ _ _ E). by apply Hk, no_answer_silent. Qed.

(** The end of the checks that dial. *)
Ltac silence := let e := fresh in let l := fresh in let H := fresh in
  intros e l H; cbn beta iota zeta; destruct (dialFailure errnos e); cbn in H; subst; by apply answers_ret.

Lemma tcp_silent to cfg : answers could_not_run (TCPCheck_Run to target cfg).
Proof.
  apply with_params_answers; [apply read_tcp_returns|]. intros p. destruct (negb _); [by apply answers_ret|].
  apply unanswered_bind; [apply Hs|]. silence.
Qed.
Lemma http_silent to cfg : answers could_not_run (http_Run to target cfg).
Proof.
  apply with_params_answers; [apply read_http_returns|]. intros p. cbv zeta.
  case_match; [by apply answers_ret|]. apply unanswered_bind; [apply Hs|]. silence.
Qed.
Lemma answers_of_silent {A} (f : A -> list string) m : unanswered m -> unanswered (answers_of f m).
Proof. intros Hm w. destruct (Hm w) as (e & l & w' & E & Hd). exists e, l, w'. split; [|done]. unfold answers_of. by rewrite (bind_Ret _ _ _ _ _ E). Qed.
Lemma lookup_silent to p query : lookup_answers to p = Some query -> unanswered query.
Proof.
  unfold lookup_answers. cbv zeta.
  repeat (case_bool_decide; [intros [= <-]; apply answers_of_silent, Hs|]). done.
Qed.
Lemma dns_silent to cfg : answers could_not_run (DNSCheck_Run to target cfg).
Proof.
  apply with_params_answers; [apply read_dns_returns|]. intros p. destruct (negb _); [by apply answers_ret|].
  destruct (lookup_answers to p) as [query|] eqn:E; [|by apply answers_ret].
  apply unanswered_bind; [by eapply lookup_silent|]. silence.
Qed.
Lemma judge_ping_silent host e stats : ps_Recv stats = 0 -> could_not_run (judge_ping host e stats).
Proof. intros Hr. unfold judge_ping. rewrite Hr. destruct e as [e|]; [|done]. destruct (isPermissionError e); [done|]. by destruct (_ && _). Qed.
Lemma ping_silent to cfg : answers could_not_run (PingCheck_Run to target cfg).
Proof.
  apply with_params_answers; [apply read_ping_returns|]. intros p. cbv zeta. case_match; [by apply answers_ret|].
  eapply answers_bind; [apply Hs|]. intros [err|] _; [by apply answers_ret|].
  eapply answers_bind; [apply Hs|]. intros r Hr. apply answers_ret. by apply judge_ping_silent.
Qed.

Lemma Default_silent typ c to cfg : Get Default typ = Some c -> typ <> "command" -> answers could_not_run (check_Run c to target cfg).
Proof.
  intros Hc Hn. unfold Default in Hc. cbn [fold_left] in Hc. rewrite !Get_Register in Hc.
  repeat (case_decide as Ht; [injection Hc as <-; first [by destruct Hn; rewrite <- Ht | apply dns_silent | apply http_silent | apply tcp_silent | apply ping_silent]|clear Ht]).
  pose proof (lookup_empty typ : Get (W := W) (T := CheckTarget W) New typ = None). congruence.
Qed.
End Silence.

Section SilentRun.
Context {W : Type} `{!TemplateEnv} `{!ProbeEnv W} `{!CheckEnv W (CheckTarget W)} (target : CheckTarget W).

Lemma time_Now_returns : returns (time_Now (T := CheckTarget W)).
Proof. intros w. unfold time_Now. destruct (check_now w) as [t w']. by exists t, w'. Qed.
Lemma wait_returns d : returns (wait (T := CheckTarget W) d).
Proof. intros w. unfold wait. destruct (check_wait d w) as [e w']. by exists e, w'. Qed.
Lemma ctx_err_returns : returns (ctx_err (T := CheckTarget W)).
Proof. apply answers_gets. Qed.
Hint Resolve time_Now_returns wait_returns ctx_err_returns : answers.

(** A check that cannot run is not run better by trying again. *)
Lemma attempts_could_not_run c cfg n a : (forall to cfg, answers could_not_run (check_Run c to target cfg)) -> (0 < n)%nat ->
  answers (fun ra => could_not_run ra.1) (attempt_loop n a c target cfg).
Proof.
  intros Hc. revert a. induction n as [|n IH]; intros a Hn; [lia|]. cbn [attempt_loop]. cbv zeta.
  eapply answers_bind; [apply ctx_err_returns|]. intros [err|] _; [by apply answers_ret|].
  eapply (answers_bind could_not_run).
  { intros w. unfold runAttempt, try, mbind, M_bind.
    destruct (Hc (if 0 <? cc_Timeout cfg then Some (cc_Timeout cfg) else None) cfg w) as (r & w' & -> & Hr). by exists r, w'. }
  intros r Hr. unfold OK. rewrite bool_decide_eq_false_2 by congruence. cbn [orb].
  destruct n as [|n]; [by apply answers_ret|].
  destruct (0 <? _); [|apply IH; lia]. eapply answers_bind; [apply wait_returns|].
  intros [err|] _; [by apply answers_ret|apply IH; lia].
Qed.
Lemma RunOne_could_not_run r cfg : (forall c, Get r (cc_Type cfg) = Some c -> forall to cfg, answers could_not_run (check_Run c to target cfg)) ->
  answers could_not_run (RunOne r target cfg).
Proof.
  intros Hc. unfold RunOne. eapply answers_bind; [apply time_Now_returns|]. intros start _. cbv zeta.
  destruct (Get r (cc_Type cfg)) as [c|] eqn:E.
  - pose proof (max_attempts_pos cfg). eapply answers_bind; [apply attempts_could_not_run; [by apply Hc|lia]|]. intros [res a] Hr. cbn in Hr.
    eapply answers_bind; [apply time_Now_returns|]. intros now _. unfold unreadCapture, OK. cbn [cr_Status].
    rewrite bool_decide_eq_false_2 by congruence. rewrite orb_true_r. by apply answers_ret.
  - eapply answers_bind; [apply time_Now_returns|]. intros now _. by apply answers_ret.
Qed.

(** C20: a network where nothing answers fails no check. When every call to the
    network ends with nobody having answered (the attempt's deadline, an error
    number of the platform that says so, a timeout, a silent resolver; not a
    cancellation, which cuts a call off and says nothing of the far end), whatever
    checks a plan asks of the network, with whatever parameters, timeouts and
    retries, the registry comes back with a result for each that says that it could
    not run (or was skipped, when the run is cancelled); none is a failure of the
    workload, and none passes. *)
Theorem silence_is_no_verdict cfgs : silent -> Forall (fun cfg => cc_Type cfg <> "command") cfgs ->
  answers (Forall2 (fun cfg r => cr_Name r = displayName cfg /\ (cr_Status r = CheckError \/ cr_Status r = CheckSkipped)) cfgs)
    (RunAll Default target cfgs).
Proof.
  intros Hs Hn w.
  assert (answers (Forall (fun r => cr_Status r = CheckError \/ cr_Status r = CheckSkipped)) (RunAll Default target cfgs)) as Ha.
  { induction Hn as [|cfg cfgs Hn _ IH]; cbn [RunAll]; [by apply answers_ret|].
    eapply answers_bind; [apply ctx_err_returns|]. intros err _.
    eapply (answers_bind (fun r => cr_Status r = CheckError \/ cr_Status r = CheckSkipped)).
    - destruct err as [err|]; [eapply answers_bind; [apply time_Now_returns|]; intros now _; apply answers_ret; by right|].
      intros w0. destruct (RunOne_could_not_run Default cfg (fun c Hc to cfg' => Default_silent target Hs _ c to cfg' Hc Hn) w0)
        as (r & w1 & E & Hr). exists r, w1. split; [done|]. by left.
    - intros r Hr. eapply answers_bind; [exact IH|]. intros rs Hrs. apply answers_ret. by constructor. }
  destruct (Ha w) as (rs & w' & E & Hrs). exists rs, w'. split; [done|].
  apply RunAll_returned in E. clear -E Hrs. induction E as [|cfg r cfgs rs Hr _ IH]; constructor; inversion Hrs; subst; auto.
  split; [apply Hr|done].
Qed.
End SilentRun.

(** ** What a command says *)

Section Command.
Context {W : Type} {TE : TemplateEnv} {PE : ProbeEnv W} (target : CheckTarget W) (cfg : CheckConfig).

(** The contracts that a command states for itself. *)
Record contract_holds (p : command_params) (res : ExecResult) : Prop := {
  ch_exit : xr_ExitCode res = cp_exit p;
  ch_expect e : cp_expect p = Some e -> TrimSpace (xr_Stdout res) = e;
  ch_contains sub : cp_contains p = Some sub -> Contains (xr_Stdout res) sub = true;
  ch_matches pattern : cp_matches p = Some pattern -> exists re, regexp_Compile pattern = inr re /\ re (xr_Stdout res) = true;
}.
Lemma first_broken {A} (l : list (option A)) : head (omap id l) = None <-> Forall (fun x => x = None) l.
Proof.
  induction l as [|[a|] l IH]; cbn; [split; [constructor|done]| |].
  - split; [done|]. intros H. by inversion H.
  - rewrite IH. split; [by constructor|by inversion 1].
Qed.
Lemma broken_contract_spec p res details : broken_contract p res details = None <-> contract_holds p res.
Proof.
  unfold broken_contract. rewrite first_broken, !Forall_cons. unfold broken_exit, broken_expect, broken_contains, broken_matches.
  split.
  - intros (H1 & H2 & H3 & H4 & _). split.
    + destruct (Z.eqb_spec (xr_ExitCode res) (cp_exit p)); [done|discriminate].
    + intros e E. rewrite E in H2. cbn in H2. by case_bool_decide.
    + intros e E. rewrite E in H3. cbn in H3. by destruct (Contains _ _).
    + intros e E. rewrite E in H4. cbn in H4. destruct (regexp_Compile e) as [|re]; [done|]. exists re. by destruct (re _).
  - intros [H1 H2 H3 H4]. split_and!; [by rewrite H1, Z.eqb_refl|..|constructor].
    + destruct (cp_expect p) as [e|]; [|done]. cbn. by rewrite bool_decide_eq_true_2 by auto.
    + destruct (cp_contains p) as [e|]; [|done]. cbn. by rewrite H3.
    + destruct (cp_matches p) as [e|]; [|done]. cbn. destruct (H4 e eq_refl) as (re & -> & ->). done.
Qed.
Lemma first_is_one {A} (l : list (option A)) a : head (omap id l) = Some a -> Some a ∈ l.
Proof.
  induction l as [|[b|] l IH]; cbn; [done| |].
  - intros [= <-]. left.
  - intros H. right. by apply IH.
Qed.
Lemma broken_contract_status p res details r : broken_contract p res details = Some r -> cr_Status r = CheckFail \/ cr_Status r = CheckError.
Proof.
  intros H%first_is_one. unfold broken_exit, broken_expect, broken_contains, broken_matches in H.
  rewrite !elem_of_cons in H. destruct H as [H|[H|[H|[H|H]]]]; [| | | |by apply elem_of_nil in H].
  - destruct (_ =? _); [done|injection H as ->; by left].
  - destruct (cp_expect p) as [e|]; [|done]. cbn in H. destruct (bool_decide _); [done|injection H as ->; by left].
  - destruct (cp_contains p) as [e|]; [|done]. cbn in H. destruct (Contains _ _); [done|injection H as ->; by left].
  - destruct (cp_matches p) as [e|]; [|done]. cbn in H. destruct (regexp_Compile e) as [|re]; [injection H as ->; by right|].
    destruct (re _); [done|injection H as ->; by left].
Qed.

(** What was read of the value that the plan captures, if it captures one: it is within
    its bounds, given the history. *)
Definition value_holds (stdout : string) (r : CheckResult) (history : option float64) : Prop :=
  cc_Capture cfg = "" \/
  exists value, ParseCaptured stdout = inr value /\ captured_values r !! cc_Capture cfg = Some value /\ within_bounds cfg value history.

(** No pattern that the parameters state is malformed. *)
Definition pattern_compiles (p : command_params) : Prop :=
  forall pattern, cp_matches p = Some pattern -> exists re, regexp_Compile pattern = inr re.
Lemma broken_contract_compiles p res details r : pattern_compiles p -> broken_contract p res details = Some r -> cr_Status r = CheckFail.
Proof.
  intros Hp H%first_is_one. unfold broken_exit, broken_expect, broken_contains, broken_matches in H.
  rewrite !elem_of_cons in H. destruct H as [H|[H|[H|[H|H]]]]; [| | | |by apply elem_of_nil in H].
  - destruct (_ =? _); [done|by injection H as ->].
  - destruct (cp_expect p) as [e|]; [|done]. cbn in H. destruct (bool_decide _); [done|by injection H as ->].
  - destruct (cp_contains p) as [e|]; [|done]. cbn in H. destruct (Contains _ _); [done|by injection H as ->].
  - destruct (cp_matches p) as [e|] eqn:Em; [|done]. cbn in H. destruct (Hp e Em) as [re Hre]. rewrite Hre in H.
    destruct (re _); [done|by injection H as ->].
Qed.

(** The history the value is judged against: what the target's reader gives in the
    world the command left. *)
Abbreviation history := (history_given (ct_Baseline target) cfg).

Lemma judge_command_verdict p argv res w r w' : judge_command target cfg p argv res w = (Ret r, w') ->
  (cr_Status r = CheckError \/ (OK r = true <-> contract_holds p res /\ value_holds (xr_Stdout res) r (history w))) /\
  (pattern_compiles p -> cr_Status r <> CheckError).
Proof.
  unfold judge_command. cbv zeta. destruct (broken_contract _ _ _) as [b|] eqn:Eb.
  { intros [= <- <-]. split; [|by intros Hp; rewrite (broken_contract_compiles _ _ _ _ Hp Eb)].
    destruct (broken_contract_status _ _ _ _ Eb) as [Hf|He]; [right|by left].
    unfold OK. rewrite bool_decide_eq_false_2 by congruence. split; [done|]. intros [Hc _].
    by rewrite (proj2 (broken_contract_spec p res (command_details argv res)) Hc) in Eb. }
  assert (contract_holds p res) as Hc by (by eapply broken_contract_spec).
  destruct (nonempty (cc_Capture cfg)) eqn:En.
  - intros E. apply nonempty_spec in En. apply evaluateCapture_judged in E as [Hne E]. split; [right|done].
    destruct (ParseCaptured (xr_Stdout res)) as [err|value] eqn:Ev.
    + rewrite E. split; [done|]. intros [_ [?|(value & Hv & _)]]; congruence.
    + destruct E as (Hcap & Hok). rewrite Hok. split; [intros Hb; split; [done|]; right; by exists value|].
      intros [_ [?|(value' & Hv & _ & Hb)]]; [done|]. assert (value' = value) as -> by congruence. done.
  - intros [= <- <-]. split; [right|done]. split; [|done]. intros _. split; [done|]. left.
    unfold nonempty in En. by case_bool_decide.
Qed.

(** The interpreter of a command line: the one the parameters name, or else the one
    of the system that the guest agent reports, /bin/sh when it reports none. *)
Definition interpreter (exec : GuestExecutor W) (p : command_params) (w : W) (shell : string) (w1 : W) : Prop :=
  if nonempty (TrimSpace (cp_shell p)) then shell = cp_shell p /\ w1 = w
  else match ge_GuestOS exec with
       | None => shell = "/bin/sh" /\ w1 = w
       | Some detect => exists answer, detect (ct_WorkloadID target) w = (Ret answer, w1) /\
           shell = match answer with
                   | inr os => if bool_decide (os_Family os = GuestOSWindows) then "cmd" else "/bin/sh"
                   | inl _ => "/bin/sh"
                   end
       end.
(** How the command of the parameters is run. *)
Definition command_argv (exec : GuestExecutor W) (p : command_params) (w : W) (argv : list string) (w1 : W) : Prop :=
  (cp_run p = None /\ cp_argv p = Some argv /\ argv <> [] /\ w1 = w) \/
  exists run shell, cp_run p = Some run /\ cp_argv p = None /\ interpreter exec p w shell w1 /\ resolveShellArgv shell run = inr argv.

(** The guest of the target answered the command of the parameters. *)
Record guest_answered (w : W) (exec : GuestExecutor W) (p : command_params) (argv : list string) (w1 : W) (res : ExecResult) (w2 : W) : Prop := {
  ga_exec : ct_Exec target = Some exec;
  ga_params : read_command target cfg [] = (Ret p, []);
  ga_argv : command_argv exec p w argv w1;
  ga_answer : ge_ExecInGuest exec (ct_WorkloadID target) (mkExecRequest argv (cp_input p) (cp_max p)) w1 = (Ret (inr res), w2);
}.

Lemma autoShell_interpreter exec p w shell det w1 : nonempty (TrimSpace (cp_shell p)) = false ->
  autoShell exec (ct_WorkloadID target) w = (Ret (shell, det), w1) -> interpreter exec p w shell w1.
Proof.
  intros En. unfold autoShell, interpreter. rewrite En. destruct (ge_GuestOS exec) as [detect|]; [|by intros [= <- <- <-]].
  intros (answer & w2 & E & H)%bind_Ret_inv. exists answer.
  destruct answer as [err|os]; [by injection H as <- <- <-|].
  destruct (bool_decide (os_Family os = GuestOSWindows)); [by injection H as <- <- <-|].
  destruct (bool_decide (os_Family os = GuestOSLinux)); by injection H as <- <- <-.
Qed.
(** The interpreter is found as it is described, whatever the note on it. *)
Lemma interpreter_found exec p w shell w1 : interpreter exec p w shell w1 ->
  exists det, (if nonempty (TrimSpace (cp_shell p)) then mret (cp_shell p, None) else autoShell exec (ct_WorkloadID target)) w
    = (Ret (shell, det : option error), w1).
Proof.
  unfold interpreter, autoShell. destruct (nonempty _); [intros [-> ->]; by eexists|].
  destruct (ge_GuestOS exec) as [detect|]; [|intros [-> ->]; by eexists].
  intros (answer & E & ->). rewrite (bind_Ret _ _ _ _ _ E). destruct answer as [err|os]; [by eexists|].
  destruct (bool_decide (os_Family os = GuestOSWindows)); [by eexists|].
  destruct (bool_decide (os_Family os = GuestOSLinux)); by eexists.
Qed.

Lemma run_command_cases exec p argv note w r w' : run_command exec target cfg p argv note w = (Ret r, w') ->
  cr_Status r = CheckError \/
  exists res w1, ge_ExecInGuest exec (ct_WorkloadID target) (mkExecRequest argv (cp_input p) (cp_max p)) w = (Ret (inr res), w1) /\
    judge_command target cfg p argv res w1 = (Ret r, w').
Proof.
  intros ([err|res] & w1 & Ex & E)%bind_Ret_inv; [|right; by exists res, w1].
  injection E as <- <-. left. unfold not_run. by destruct (Is err ErrGuestAgentUnavailable).
Qed.
Lemma command_cases to w r w' : CommandCheck_Run to target cfg w = (Ret r, w') ->
  cr_Status r = CheckError \/
  exists exec p argv w1 res w2, guest_answered w exec p argv w1 res w2 /\ judge_command target cfg p argv res w2 = (Ret r, w').
Proof.
  intros E. apply with_params_Ret in E as [?|(p & Hp & E)]; [by left| |apply read_command_returns].
  destruct (ct_Exec target) as [exec|] eqn:Hx; [|left; destruct (cp_run p), (cp_argv p) as [[|? ?]|]; by injection E as <- _].
  destruct (cp_run p) as [run|] eqn:Er, (cp_argv p) as [argv|] eqn:Ea; cbv zeta in E; [injection E as <- _; by left| | |injection E as <- _; by left].
  - apply bind_Ret_inv in E as ([shell det] & w1 & Hs & E).
    destruct (resolveShellArgv shell run) as [err|argv] eqn:Es; [injection E as <- _; by left|].
    destruct (run_command_cases _ _ _ _ _ _ _ E) as [?|(res & w2 & Ha & Hj)]; [by left|right].
    exists exec, p, argv, w1, res, w2. split; [split; try done|done]. right. exists run, shell. split_and!; try done.
    destruct (nonempty (TrimSpace (cp_shell p))) eqn:En; [|by eapply autoShell_interpreter].
    unfold interpreter. rewrite En. by injection Hs as <- _ <-.
  - destruct argv as [|a argv]; [injection E as <- _; by left|].
    destruct (run_command_cases _ _ _ _ _ _ _ E) as [?|(res & w2 & Ha & Hj)]; [by left|right].
    exists exec, p, (a :: argv), w, res, w2. split; [split; try done|done]. by left.
Qed.
Lemma answered_judged to w exec p argv w1 res w2 : guest_answered w exec p argv w1 res w2 ->
  CommandCheck_Run to target cfg w = judge_command target cfg p argv res w2.
Proof.
  intros [Hx Hp Hc Ha]. unfold CommandCheck_Run, with_params. rewrite Hp. cbn [join_errors]. rewrite Hx.
  assert (forall note, run_command exec target cfg p argv note w1 = judge_command target cfg p argv res w2) as Hrun
    by (intros note; unfold run_command; by rewrite (bind_Ret _ _ _ _ _ Ha)).
  destruct Hc as [(-> & -> & Hne & ->)|(run & shell & -> & -> & Hi & Hs)]; [destruct argv; [done|apply Hrun]|].
  unfold run_line. destruct (interpreter_found _ _ _ _ _ Hi) as [det E]. rewrite (bind_Ret _ _ _ _ _ E), Hs. apply Hrun.
Qed.

(** C21: a command speaks only for the guest it ran in. Unless it reports that it could
    not run, a command check had its command, the one of its parameters (through the
    interpreter they name, or else the one of the system the guest agent reports),
    run in the guest of the target and answered; and it passes exactly when the answer
    honours every contract that the parameters state (exit code, output, pattern) and
    the value that the plan captures was read and is within its bounds, its drift being
    judged against the history that the target's reader gives once the command is
    done, when it gives one. And it never reports that it could not run when the guest
    answered, unless the pattern it was given is malformed. *)
Theorem command_verdict to w r w' : CommandCheck_Run to target cfg w = (Ret r, w') ->
  (cr_Status r = CheckError \/
   exists exec p argv w1 res w2, guest_answered w exec p argv w1 res w2 /\
     (OK r = true <-> contract_holds p res /\ value_holds (xr_Stdout res) r (history w2))) /\
  (forall exec p argv w1 res w2, guest_answered w exec p argv w1 res w2 -> pattern_compiles p -> cr_Status r <> CheckError).
Proof.
  intros E. split.
  - destruct (command_cases _ _ _ _ E) as [?|(exec & p & argv & w1 & res & w2 & Hg & Hj)]; [by left|].
    destruct (judge_command_verdict _ _ _ _ _ _ Hj) as [[?|Hok] _]; [by left|right]. by exists exec, p, argv, w1, res, w2.
  - intros exec p argv w1 res w2 Hg. rewrite (answered_judged _ _ _ _ _ _ _ _ Hg) in E.
    by apply judge_command_verdict in E as [_ ?].
Qed.
End Command.

(** ** What a response says *)

Section Http.
Context {W : Type} {TE : TemplateEnv} {PE : ProbeEnv W} (target : CheckTarget W).

(** What the parameters state of a response. *)
Record body_holds (p : http_params) (data : string) : Prop := {
  bh_contains : h_bodyContains p <> "" -> Contains data (h_bodyContains p) = true;
  bh_matches : h_bodyMatches p <> "" -> exists re, regexp_Compile (h_bodyMatches p) = inr re /\ re data = true;
  bh_json : h_jsonPath p <> "" -> exists root got, json_Unmarshal data = inr root /\ jsonPathLookup root (h_jsonPath p) = inr got /\
    forall want, h_jsonEquals p = Some want -> jsonValuesEqual got want = true;
}.
Definition response_holds (p : http_params) (a : HttpAnswer) : Prop :=
  status_wanted p (ha_StatusCode a) = true /\ exists data, read_body (h_maxBodyBytes p) a = inr data /\ body_holds p data.

Lemma judge_json_spec p line data details :
  judge_json p line data details = None <-> (h_jsonPath p <> "" -> exists root got, json_Unmarshal data = inr root /\
    jsonPathLookup root (h_jsonPath p) = inr got /\ forall want, h_jsonEquals p = Some want -> jsonValuesEqual got want = true).
Proof.
  unfold judge_json. destruct (nonempty (h_jsonPath p)) eqn:En; cbn [negb].
  - apply nonempty_spec in En. destruct (json_Unmarshal data) as [err|root].
    { split; [done|]. intros H. by destruct (H En) as (? & ? & ? & _). }
    destruct (jsonPathLookup root (h_jsonPath p)) as [err|got] eqn:El.
    { split; [done|]. intros H. destruct (H En) as (? & ? & [= <-] & ? & _). congruence. }
    destruct (h_jsonEquals p) as [want|]; [|split; [|done]; intros _ _; exists root, got; by split_and!].
    destruct (jsonValuesEqual got want) eqn:Eq; split; try done.
    + intros _ _. exists root, got. split_and!; [done..|]. by intros ? [= <-].
    + intros H. destruct (H En) as (? & ? & [= <-] & Hg & Hw). specialize (Hw want eq_refl). congruence.
  - split; [|done]. intros _ H. apply nonempty_spec in H. congruence.
Qed.
Lemma judge_matches_spec p line data details : judge_matches p line data details = None <->
  (h_bodyMatches p <> "" -> exists re, regexp_Compile (h_bodyMatches p) = inr re /\ re data = true) /\ judge_json p line data details = None.
Proof.
  unfold judge_matches. destruct (nonempty (h_bodyMatches p)) eqn:Em; cbn [negb].
  - apply nonempty_spec in Em. destruct (regexp_Compile (h_bodyMatches p)) as [err|re] eqn:Er.
    { split; [done|]. intros [H _]. destruct (H Em) as (? & ? & _). congruence. }
    destruct (re data) eqn:Ed; split; try done.
    + intros Hj. split; [|done]. intros _. by exists re.
    + by intros [_ ?].
    + intros [H _]. destruct (H Em) as (? & ? & ?). congruence.
  - split; [|by intros [_ ?]]. intros Hj. split; [|done]. intros H%nonempty_spec. congruence.
Qed.
Lemma judge_body_spec p line data details : judge_body p line data details = None <-> body_holds p data.
Proof.
  unfold judge_body. destruct (nonempty (h_bodyContains p) && _) eqn:Ec.
  - apply andb_true_iff in Ec as [Hn%nonempty_spec Hc%negb_true_iff]. split; [done|]. intros [H _ _]. specialize (H Hn). congruence.
  - rewrite judge_matches_spec, judge_json_spec. split; [|by intros [_ ? ?]]. intros [Hm Hj]. split; [|done..].
    intros Hn%nonempty_spec. rewrite Hn in Ec. by apply negb_false_iff in Ec.
Qed.
Lemma judge_body_status p line data details r : judge_body p line data details = Some r -> cr_Status r <> CheckPass.
Proof. unfold judge_body, judge_matches, judge_json. intros E Hs. repeat case_match; simplify_eq; cbn in Hs; discriminate. Qed.
Lemma judge_response_spec p a latency : OK (judge_response p a latency) = true <-> response_holds p a.
Proof.
  unfold judge_response, response_holds. cbv zeta. destruct (read_body _ a) as [err|data].
  { split; [done|]. intros (_ & ? & ? & _). done. }
  destruct (status_wanted p (ha_StatusCode a)); cbn [negb].
  2: { split; [done|]. by intros [? _]. }
  destruct (judge_body _ _ _ _) as [r|] eqn:Eb; cbn [default].
  - apply judge_body_status in Eb as Hr. unfold OK. rewrite bool_decide_eq_false_2 by done. split; [done|].
    intros (_ & ? & [= <-] & Hb). by rewrite (proj2 (judge_body_spec p _ _ _) Hb) in Eb.
  - split; [intros _|done]. split; [done|]. exists data. split; [done|]. by eapply judge_body_spec.
Qed.

Definition http_request_of (p : http_params) : HttpProbe :=
  mkHttpProbe (h_method p) (h_url p) (h_headers p) (h_body p) (h_insecureTLS p) (h_followRedirects p).

(** An HTTP check fails or passes by what a server said. Unless it reports that it
    could not run, the request of its parameters was made, and either the far end
    refused it (and the check failed), or there was a response, and the check passed
    exactly when its status is wanted and its body, up to the limit on its size,
    honours what the parameters state of it. *)
Theorem http_verdict to cfg w r w' : http_Run to target cfg w = (Ret r, w') ->
  cr_Status r = CheckError \/
  exists p result latency,
    read_http target cfg [] = (Ret p, []) /\ http_Do to (http_request_of p) w = (Ret (result, latency), w') /\
    match result with
    | inl err => (dialFailure errnos err).2 = false /\ cr_Status r = CheckFail
    | inr a => OK r = true <-> response_holds p a
    end.
Proof.
  intros E. apply with_params_Ret in E as [?|(p & Hp & E)]; [by left| |apply read_http_returns].
  cbv zeta in E. fold (http_request_of p) in E. destruct (http_NewRequest _); [injection E as <- _; by left|].
  apply bind_Ret_inv in E as ([result latency] & w1 & Hd & E). destruct result as [err|a].
  - destruct (dialFailure errnos err) as [cause []] eqn:Ef; injection E as <- <-; [by left|right].
    exists p, (inl err), latency. rewrite Ef. by split_and!.
  - injection E as <- <-. right. exists p, (inr a), latency. split_and!; [done..|]. apply judge_response_spec.
Qed.
End Http.

(** ** The checks at work *)

Module Lab.
(** Templates with variables only. *)
Fixpoint execute (fuel : nat) (s : string) (vars : gmap string string) : error + string :=
  match fuel, s with
  | S fuel, String c rest =>
    if HasPrefix s "{{ ." then
      match Cut " " (TrimPrefix s "{{ .") with
      | Some (name, rest) =>
        match vars !! name with
        | Some v => on_ok (fun t => v +:+ t) (execute fuel (TrimPrefix rest "}}") vars)
        | None => inl (ENew (Sprintf "map has no entry for key %q" [AStr name]))
        end
      | None => inl (ENew (Lit "unclosed action"))
      end
    else on_ok (String c) (execute fuel rest vars)
  | _, _ => inr ""
  end.
#[local] Instance templates : TemplateEnv := {|
  template := string;
  template_Parse _ s := inr s;
  template_Execute s vars := execute (S (String.length s)) s vars;
|}.

(** A clock, and a network that does not answer but for one page. *)
#[local] Instance clock : CheckEnv Z (CheckTarget Z) := {|
  check_now t := (t, t + 1);
  check_ctx_Err _ := None;
  check_wait d t := (None, t + d);
|}.
Definition timed_out : NetError := mkNetError (ENew (Lit "connect: connection timed out")) (Some 110) false None false.
Definition silence {A} : M Z ((NetError + A) * Z) := fun w => (Ret (inl timed_out, 3 * Duration.Second), w + 3).
Definition network (page : option HttpAnswer) : ProbeEnv Z := {|
  errnos := unix_errnos;
  regexp_Compile _ := inr (fun _ => true);
  json_Unmarshal s := if bool_decide (s = "ok") then inr (AnyMap [("db", AnyString "up")]) else inl (ENew (Lit "invalid character"));
  tcp_Dial _ _ := silence;
  tcp_Read _ := mret ("", None);
  http_NewRequest _ := None;
  http_Do _ _ := match page with Some a => mret (inr a, Duration.Millisecond) | None => silence end;
  dns_LookupIPAddr _ _ _ := silence;
  dns_LookupCNAME _ _ _ := silence;
  dns_LookupMX _ _ _ := silence;
  dns_LookupTXT _ _ _ := silence;
  ping_NewPinger _ := mret None;
  ping_Run _ _ count _ _ _ := mret (None, mkPingStats count 0 0 (float_of_Z 100));
|}.

Definition params (l : list (string * any)) : Params := list_to_map l.
Definition check (typ : string) (l : list (string * any)) : CheckConfig :=
  mkCheckConfig typ "" (5 * Duration.Second) 1 Duration.Second true (params l) ProofService "" None None.
Definition executor (stdout : string) : GuestExecutor Z :=
  mkGuestExecutor (fun _ _ => mret (inr (mkExecResult 0 stdout "" false ""))) (Some (fun _ => mret (inr (mkGuestOS "linux" "debian" "" "" "")))).
Definition restored (stdout : string) : CheckTarget Z :=
  mkCheckTarget "10.99.0.5" ["10.99.0.5"] "9001" "pve1" "db" ∅ (Some (executor stdout)) (Some sim_reader).

Definition network_checks : list CheckConfig :=
  [check "tcp" [("port", AnyInt 5432)]; check "http" [("url", AnyString "http://{{ .ip }}:3000/health")];
   check "dns" [("name", AnyString "db.lab")]; check "ping" []].
Lemma silence_is_no_verdict_witness :
  exists results w', RunAll (Default (ProbeEnv0 := network None)) (restored "") network_checks 0 = (Ret results, w') /\
    Forall2 (fun cfg r => cr_Name r = displayName cfg /\ (cr_Status r = CheckError \/ cr_Status r = CheckSkipped)) network_checks results.
Proof.
  assert (forall A, unanswered (ProbeEnv0 := network None) (@silence A)) as Hs by (intros A w; eexists _, _, _; split; [reflexivity|apply (na_errno _ _ 110); [reflexivity..|apply unix_ETIMEDOUT]]).
  apply (silence_is_no_verdict (ProbeEnv0 := network None) (restored "") network_checks).
  - split; intros; [apply Hs|apply Hs|apply Hs|apply Hs|apply Hs|apply Hs|intros w; by eexists _, _|intros w; by eexists _, _].
  - repeat constructor; discriminate.
Defined.

Definition count_orders : CheckConfig :=
  mkCheckConfig "command" "orders" 0 0 0 true
    (params [("run", AnyString "psql -tAc 'select count(*) from orders' {{ .name }}"); ("expect_exit_code", AnyInt 0)])
    ProofData "orders" (Some (mkAssertSpec (Some (float_of_Z 1)) None None)) None.
Definition answer (o : outcome CheckResult) : CheckResult := match o with Ret r => r | _ => zero_result end.
Definition counted (stdout : string) : outcome CheckResult * Z :=
  CommandCheck_Run (ProbeEnv0 := network None) None (restored stdout) count_orders 0.
Example the_table_is_empty : map (fun s => cr_Status (answer (counted s).1)) ["1204331"; "0"; "permission denied"] = [CheckPass; CheckFail; CheckFail].
Proof. vm_compute. reflexivity. Qed.
Lemma command_verdict_witness :
  exists exec p argv w1 res w2,
    guest_answered (TE := templates) (restored "1204331") count_orders 0 exec p argv w1 res w2 /\
    (OK (answer (counted "1204331").1) = true <-> contract_holds (PE := network None) p res /\
       value_holds count_orders (xr_Stdout res) (answer (counted "1204331").1) (history_given (Some sim_reader) count_orders w2)).
Proof.
  assert (E : counted "1204331" = (Ret (answer (counted "1204331").1), 0)) by (vm_compute; reflexivity).
  destruct (command_verdict (PE := network None) (restored "1204331") count_orders None 0 (answer (counted "1204331").1) 0 E) as [[H|H] _]; [|exact H].
  exfalso. vm_compute in H. discriminate.
Defined.

Definition health : CheckConfig :=
  check "http" [("url", AnyString "http://{{ .ip }}/health"); ("json_path", AnyString "db"); ("json_equals", AnyString "up")].
Definition page (body : string) : option HttpAnswer := Some (mkHttpAnswer 200 body None).
Definition fetched (body : string) : outcome CheckResult * Z :=
  http_Run (ProbeEnv0 := network (page body)) None (restored "") health 0.
Example pages : map (fun b => cr_Status (answer (fetched b).1)) ["ok"; "<html>"] = [CheckPass; CheckFail].
Proof. vm_compute. reflexivity. Qed.
Lemma http_verdict_witness :
  cr_Status (answer (fetched "ok").1) = CheckError \/
  exists p result latency,
    read_http (restored "") health [] = (Ret p, []) /\ http_Do (ProbeEnv := network (page "ok")) None (http_request_of p) 0 = (Ret (result, latency), 0) /\
    match result with
    | inl err => (dialFailure unix_errnos err).2 = false /\ cr_Status (answer (fetched "ok").1) = CheckFail
    | inr a => OK (answer (fetched "ok").1) = true <-> response_holds (PE := network (page "ok")) p a
    end.
Proof.
  apply (http_verdict (PE := network (page "ok")) (restored "") None health 0 (answer (fetched "ok").1) 0). vm_compute. reflexivity.
Defined.
End Lab.
