(* ===== verification/Plan.v ===== *)
(** * Recovery plans

    Models internal/plan: the plan a user writes (plan.go), its defaults and
    its validation, its schedule field (schedule.go) and the proof level it
    would establish (proof.go). The cron parser and the zone database are code
    outside the repository: they are the operations of [ScheduleEnv]. *)

From Stdlib Require Import ZArith Lia String Ascii List.
From S2P Require Import Prelude GoTime GoFloat Errors Core GoString.

Import Duration.

(** ** The plan data *)

Definition DefaultStartupTimeout : Z := 5 * Minute.
Definition DefaultCheckTimeout : Z := 30 * Duration.Second.
Definition DefaultRestoreTimeout : Z := 60 * Minute.
Definition DefaultRetryInterval : Z := 5 * Duration.Second.
Definition DefaultGuestPollEvery : Z := 3 * Duration.Second.

Inductive BackupStrategy :=
| StrategyEmpty | StrategyLatest | StrategySpecific | StrategyOther (s : string).

Record WorkloadRef := mkWorkloadRef { wr_Provider : string; wr_ID : string; wr_Name : string }.

Record BackupSpec := mkBackupSpec {
  bs_Provider : string;
  bs_Strategy : BackupStrategy;
  bs_ID : string;
  bs_MaxAge : Z;
}.

Record RestoreSpec := mkRestoreSpec {
  rs_Node : string;
  rs_Storage : string;
  rs_Pool : string;
  rs_Network : string;
  rs_Bridge : string;
  rs_CPULimit : Z;
  rs_MemoryLimitMB : Z;
  rs_BandwidthKiBps : Z;
  rs_Timeout : Z;
}.

Record StartupSpec := mkStartupSpec {
  ss_Skip : bool;
  ss_Timeout : Z;
  ss_WaitForIP : option bool;
  ss_WaitForAgent : option bool;
  ss_IP : string;
}.

Record CleanupSpec := mkCleanupSpec { cs_Always : option bool; cs_KeepOnFailure : bool }.

Record CheckSpec := mkCheckSpec {
  ck_Type : string;
  ck_Name : string;
  ck_Timeout : Z;
  ck_Retries : Z;
  ck_RetryInterval : Z;
  ck_Critical : option bool;
  ck_Params : Params;
  ck_Proves : string;
  ck_Capture : string;
  ck_Assert : option AssertSpec;
  ck_Drift : option DriftSpec;
}.

Record Plan := mkPlan {
  pl_Name : string;
  pl_Description : string;
  pl_Tags : list string;
  pl_Workload : WorkloadRef;
  pl_Backup : BackupSpec;
  pl_Restore : RestoreSpec;
  pl_Startup : StartupSpec;
  pl_Checks : list CheckSpec;
  pl_Cleanup : CleanupSpec;
  pl_RTOTarget : Z;
  pl_Schedule : string;
  pl_ScheduleTimezone : string;
}.

Definition is_true_ptr (b : option bool) : bool := match b with Some true => true | _ => false end.

Definition WaitsForIP (s : StartupSpec) : bool := is_true_ptr (ss_WaitForIP s).
Definition WaitsForAgent (s : StartupSpec) : bool := is_true_ptr (ss_WaitForAgent s).
Definition CleanupAlways (c : CleanupSpec) : bool :=
  match cs_Always c with None => true | Some b => b end.
Definition IsCritical (c : CheckSpec) : bool :=
  match ck_Critical c with None => true | Some b => b end.

(** [Duration.Or]. *)
Definition Or (d fallback : Z) : Z := if d =? 0 then fallback else d.

(** [CheckSpec.DisplayName]. *)
Definition DisplayName (c : CheckSpec) : string :=
  if nonempty (ck_Name c) then ck_Name c
  else match ck_Params c !! "port" with
       | Some port => ToUpper (ck_Type c) +:+ " " +:+ fmt_v port
       | None => ToUpper (ck_Type c)
       end.

(** ** What a check proves (proof.go) *)

(** [commandLine]: the [run] string, or the [argv] list joined by spaces. *)
Definition any_string (v : any) : option string := match v with AnyString s => Some s | _ => None end.
Definition commandLine (params : Params) : option string :=
  match params !! "run" with
  | Some (AnyString run) => Some run
  | _ =>
    match params !! "argv" with
    | Some (AnyList raw) => Join " " <$> mapM any_string raw
    | _ => None
    end
  end.

Definition programName (arg : string) : string :=
  TrimSuffix (ToLower (after_last_any "/\" arg)) ".exe".

Definition livenessCommands : list string := ["hostname"; "uname"; "whoami"; "true"; "echo"; "ver"].
Definition livenessCheckTypes : list string := ["ping"].

(** The bytes that chain or pipe a command line: ampersand, bar, semicolon and
    newline. *)
Definition chain_chars : string := String "&" (String "|" (String ";" (String "010" EmptyString))).

Definition isLivenessCommand (params : Params) : bool :=
  match commandLine params with
  | None => false
  | Some cmd =>
    if ContainsAny cmd chain_chars then false
    else match Fields cmd with
         | [] => false
         | prog :: _ => bool_decide (programName prog ∈ livenessCommands)
         end
  end.

Definition provesTheData (c : CheckSpec) : bool := nonempty (ck_Capture c) && AssertAny (ck_Assert c).

(** [CheckSpec.ProvenLevel]: a declaration wins, else the level is deduced. *)
Definition deducedLevel (c : CheckSpec) : ProofLevel :=
  if provesTheData c then ProofData
  else if bool_decide (ck_Type c = "command") && isLivenessCommand (ck_Params c) then ProofBoot
  else if bool_decide (ck_Type c ∈ livenessCheckTypes) then ProofBoot
  else ProofService.

Definition CheckProvenLevel (c : CheckSpec) : ProofLevel :=
  if nonempty (ck_Proves c) then
    let '(l, ok) := ParseProofLevel (ToUpper (ck_Proves c)) in
    if ok && Recorded l then l else deducedLevel c
  else deducedLevel c.

(** [Plan.ProvenLevel]. *)
Definition PlanProvenLevel (p : Plan) : ProofLevel :=
  if ss_Skip (pl_Startup p) || bool_decide (pl_Checks p = []) then ProofNone
  else fold_left (fun level c => Raise level (CheckProvenLevel c)) (pl_Checks p) ProofNone.

Definition planProofPhrases (l : ProofLevel) : string :=
  match l with
  | ProofNone => "no check runs inside the guest"
  | ProofBoot => "only the boot would be verified"
  | ProofService => "the service would be verified, the data would not"
  | ProofData => "the service and its data would be verified"
  | ProofUnknown | ProofOther _ => ""
  end.

Definition ProofSummary (p : Plan) : string :=
  let l := PlanProvenLevel p in ProofLevel_String l +:+ ", " +:+ planProofPhrases l.

(** [CheckSpec.ToCore]. *)
Definition ToCore (c : CheckSpec) : CheckConfig :=
  {| cc_Type := ck_Type c;
     cc_Name := DisplayName c;
     cc_Timeout := Or (ck_Timeout c) DefaultCheckTimeout;
     cc_Retries := ck_Retries c;
     cc_RetryInterval := Or (ck_RetryInterval c) DefaultRetryInterval;
     cc_Critical := IsCritical c;
     cc_Params := ck_Params c;
     cc_Proves := CheckProvenLevel c;
     cc_Capture := ck_Capture c;
     cc_Assert := ck_Assert c;
     cc_Drift := ck_Drift c |}.

(** ** Defaults *)

Definition guestAgentCheckTypes : list string := ["command"].
Definition is_guest_agent_check (c : CheckSpec) : bool := bool_decide (ck_Type c ∈ guestAgentCheckTypes).

Definition needsNetwork (p : Plan) : bool :=
  bool_decide (pl_Checks p = []) || existsb (fun c => negb (is_guest_agent_check c)) (pl_Checks p).
Definition needsGuestAgent (p : Plan) : bool := existsb is_guest_agent_check (pl_Checks p).

Definition default_ptr (o : option bool) (want : bool) : option bool :=
  match o with None => Some want | Some b => Some b end.

Definition check_defaults (c : CheckSpec) : CheckSpec :=
  mkCheckSpec (ck_Type c) (ck_Name c)
    (if ck_Timeout c =? 0 then DefaultCheckTimeout else ck_Timeout c)
    (ck_Retries c)
    (if ck_RetryInterval c =? 0 then DefaultRetryInterval else ck_RetryInterval c)
    (ck_Critical c) (ck_Params c) (ck_Proves c) (ck_Capture c) (ck_Assert c) (ck_Drift c).

Definition ApplyDefaults (p : Plan) : Plan :=
  let b := pl_Backup p in
  let r := pl_Restore p in
  let s := pl_Startup p in
  {| pl_Name := pl_Name p;
     pl_Description := pl_Description p;
     pl_Tags := pl_Tags p;
     pl_Workload := pl_Workload p;
     pl_Backup :=
       mkBackupSpec (bs_Provider b)
         (match bs_Strategy b with StrategyEmpty => StrategyLatest | st => st end)
         (bs_ID b) (bs_MaxAge b);
     pl_Restore :=
       mkRestoreSpec (rs_Node r) (rs_Storage r) (rs_Pool r)
         (if nonempty (rs_Network r) then rs_Network r else "isolated")
         (rs_Bridge r) (rs_CPULimit r) (rs_MemoryLimitMB r) (rs_BandwidthKiBps r)
         (if rs_Timeout r =? 0 then DefaultRestoreTimeout else rs_Timeout r);
     pl_Startup :=
       mkStartupSpec (ss_Skip s)
         (if ss_Timeout s =? 0 then DefaultStartupTimeout else ss_Timeout s)
         (default_ptr (ss_WaitForIP s) (negb (ss_Skip s) && negb (nonempty (ss_IP s)) && needsNetwork p))
         (default_ptr (ss_WaitForAgent s) (negb (ss_Skip s) && needsGuestAgent p))
         (ss_IP s);
     pl_Checks := map check_defaults (pl_Checks p);
     pl_Cleanup :=
       mkCleanupSpec (default_ptr (cs_Always (pl_Cleanup p)) true) (cs_KeepOnFailure (pl_Cleanup p));
     pl_RTOTarget := pl_RTOTarget p;
     pl_Schedule := pl_Schedule p;
     pl_ScheduleTimezone := pl_ScheduleTimezone p |}.

(** ** The schedule field *)

(** Code outside the repository: the zone database behind [time.LoadLocation]
    and [time.Local], and the cron library. [spec_Next spec loc t] is the
    instant [spec.Next(t.In(loc))]; [wall_clock loc t] is the reading of [t] on
    the wall clock of [loc], as the instant that reads the same in UTC. *)
Class ScheduleEnv := {
  Location : Type;
  CronSpec : Type;
  time_Local : Location;
  time_UTC : Location;
  LoadLocation : string -> error + Location;
  ParseStandard : string -> error + CronSpec;
  spec_Next : CronSpec -> Location -> Z -> Z;
  wall_clock : Location -> Z -> Z;
}.

Section Schedule.
Context `{ScheduleEnv}.

Record Schedule := mkSchedule { sc_Expr : string; sc_Location : Location; sc_spec : CronSpec }.

(** [Schedule.Next]. *)
Definition Next (s : Schedule) (after : Z) : Z := spec_Next (sc_spec s) (sc_Location s) after.

Definition ParseSchedule (expr timezone : string) : error + option Schedule :=
  if negb (nonempty expr) then
    if nonempty timezone then
      inl (ENew (Sprintf "schedule_timezone is set to %q but there is no schedule for it to qualify"
                   [AStr timezone]))
    else inr None
  else
    match (if nonempty timezone then
             match LoadLocation timezone with
             | inl err => inl (EWrap (Sprintf "schedule_timezone %q is not a known timezone: %w"
                                        [AStr timezone; AText (Error err)]) err)
             | inr loc => inr loc
             end
           else inr time_Local) with
    | inl err => inl err
    | inr loc =>
      match ParseStandard expr with
      | inl err => inl (EWrap (Sprintf "schedule %q is not a valid cron expression: %w"
                                 [AStr expr; AText (Error err)]) err)
      | inr spec => inr (Some (mkSchedule expr loc spec))
      end
    end.

(** ** Validation *)

Definition capturingCheckTypes : list string := ["command"].

Definition statesATolerance (d : option DriftSpec) : bool :=
  match d with None => false | Some d => fltb (S754_zero false) (ds_MaxDrop d) end.

Definition note (b : bool) (t : text) : list text := if b then [t] else [].

Definition is_some {A} (o : option A) : bool := match o with Some _ => true | None => false end.

(** The messages one check adds, given the names seen before it, and the
    names seen after it. *)
Definition validate_check (i : Z) (c : CheckSpec) (seen : list string) : list text * list string :=
  if negb (nonempty (ck_Type c)) then ([Sprintf "checks[%d].type is required" [AInt i]], seen)
  else
    let name := DisplayName c in
    (note (negb (ParseProofLevel (ToUpper (ck_Proves c))).2)
       (Sprintf "checks[%d].proves = %q: must be one of none, boot, service, data"
          [AInt i; AStr (ck_Proves c)])
     ++ note (nonempty (ck_Capture c) && nonempty (ck_Type c)
              && negb (bool_decide (ck_Type c ∈ capturingCheckTypes)))
       (Sprintf "checks[%d].capture: a %s check does not read a value; only a command check does"
          [AInt i; AStr (ck_Type c)])
     ++ note (is_some (ck_Assert c) && negb (AssertAny (ck_Assert c)))
       (Sprintf "checks[%d].assert states no bound: set min, max or equals" [AInt i])
     ++ note (is_some (ck_Assert c) && negb (nonempty (ck_Capture c)))
       (Sprintf "checks[%d].assert has nothing to bound: set capture to name the value it applies to"
          [AInt i])
     ++ note (is_some (ck_Drift c) && negb (nonempty (ck_Capture c)))
       (Sprintf "checks[%d].drift has nothing to compare: set capture to name the value it bounds"
          [AInt i])
     ++ note (is_some (ck_Drift c) && negb (statesATolerance (ck_Drift c)))
       (Sprintf "checks[%d].drift.max_drop must be a positive tolerance (%q or a number of units), got %v"
          [AInt i; AStr "10%"; AFloat (default S754_nan (ds_MaxDrop <$> ck_Drift c))])
     ++ note (bool_decide (name ∈ seen))
       (Sprintf "checks[%d]: duplicate check name %q, set an explicit name" [AInt i; AStr name]),
     name :: seen).

Fixpoint validate_checks (i : Z) (cs : list CheckSpec) (seen : list string) : list text :=
  match cs with
  | [] => []
  | c :: cs => let '(errs, seen) := validate_check i c seen in errs ++ validate_checks (i + 1) cs seen
  end.

(** Every structural problem of the plan, in the order they are reported. *)
Definition validate_errors (p : Plan) : list text :=
  note (negb (nonempty (TrimSpace (pl_Name p)))) (Lit "name is required")
  ++ note (negb (nonempty (wr_ID (pl_Workload p)))) (Lit "workload.id is required")
  ++ note (negb (nonempty (wr_Provider (pl_Workload p)))) (Lit "workload.provider is required")
  ++ (match bs_Strategy (pl_Backup p) with
      | StrategyLatest => []
      | StrategySpecific =>
        note (negb (nonempty (bs_ID (pl_Backup p)))) (Sprintf "backup.id is required with strategy %q" [AStr "specific"])
      | StrategyEmpty =>
        [Sprintf "backup.strategy %q is not supported (latest, specific)" [AStr ""]]
      | StrategyOther s =>
        [Sprintf "backup.strategy %q is not supported (latest, specific)" [AStr s]]
      end)
  ++ note (rs_CPULimit (pl_Restore p) <? 0) (Lit "restore.cpu_limit must be positive")
  ++ note (rs_MemoryLimitMB (pl_Restore p) <? 0) (Lit "restore.memory_limit must be positive")
  ++ note (ss_Skip (pl_Startup p) && negb (bool_decide (pl_Checks p = [])))
       (Lit "checks cannot run when startup.skip is set")
  ++ (match ParseSchedule (pl_Schedule p) (pl_ScheduleTimezone p) with
      | inl err => [Error err]
      | inr _ => []
      end)
  ++ validate_checks 0 (pl_Checks p) [].

(** [strings.Join], of texts. *)
Fixpoint join_texts (sep : string) (l : list text) : text :=
  match l with
  | [] => Lit ""
  | [t] => t
  | t :: l => Sprintf ("%s" +:+ sep +:+ "%s") [AText t; AText (join_texts sep l)]
  end.
(** [Plan.Validate]. *)
Definition Validate (p : Plan) : option error :=
  let bullet := String "010" "  - " in
  match validate_errors p with
  | [] => None
  | errs => Some (ENew (Sprintf ("invalid plan:" +:+ bullet +:+ "%s") [AText (join_texts bullet errs)]))
  end.

(** [Parse], from the document the YAML decoder (a library outside the
    repository) read, or the error it answered. *)
Definition Parse (decoded : error + Plan) : error + Plan :=
  match decoded with
  | inl err => inl (EWrap (Sprintf "parse plan: %w" [AText (Error err)]) err)
  | inr p =>
    let p := ApplyDefaults p in
    match Validate p with
    | Some err => inl err
    | None => inr p
    end
  end.
End Schedule.

(** * Recovery plans: what validation guarantees

    A plan is valid exactly when it is well formed, defaulting is a projection
    that touches nothing the plan states, and the level a run can prove is
    bounded by the one the plan announces. *)

Section Specification.
Context `{ScheduleEnv}.

(** ** What a well-formed plan is *)

(** A check on its own: its level is one of the four, it captures only where a
    value can be read, and its bounds have a value to bound. *)
Record well_formed_check (c : CheckSpec) : Prop := {
  wc_type : ck_Type c <> "";
  wc_proves : (ParseProofLevel (ToUpper (ck_Proves c))).2 = true;
  wc_capture : ck_Capture c <> "" -> ck_Type c = "command";
  wc_assert : forall a, ck_Assert c = Some a -> AssertAny (Some a) = true /\ ck_Capture c <> "";
  wc_drift : forall d, ck_Drift c = Some d -> statesATolerance (Some d) = true /\ ck_Capture c <> "";
}.

Record well_formed (p : Plan) : Prop := {
  wf_name : TrimSpace (pl_Name p) <> "";
  wf_workload : wr_ID (pl_Workload p) <> "" /\ wr_Provider (pl_Workload p) <> "";
  wf_backup : bs_Strategy (pl_Backup p) = StrategyLatest \/
    (bs_Strategy (pl_Backup p) = StrategySpecific /\ bs_ID (pl_Backup p) <> "");
  wf_limits : 0 <= rs_CPULimit (pl_Restore p) /\ 0 <= rs_MemoryLimitMB (pl_Restore p);
  wf_skip : ss_Skip (pl_Startup p) = true -> pl_Checks p = [];
  wf_schedule : exists sched, ParseSchedule (pl_Schedule p) (pl_ScheduleTimezone p) = inr sched;
  wf_checks : Forall well_formed_check (pl_Checks p);
  wf_names : NoDup (map DisplayName (pl_Checks p));
}.

Lemma note_nil b t : note b t = [] <-> b = false.
Proof. by destruct b. Qed.

Lemma nonempty_false s : nonempty s = false <-> s = "".
Proof. unfold nonempty. case_bool_decide; naive_solver. Qed.

Lemma negb_nonempty s : negb (nonempty s) = false <-> s <> "".
Proof. rewrite negb_false_iff. apply nonempty_spec. Qed.

Lemma is_some_true {A} (o : option A) : is_some o = true <-> o <> None.
Proof. by destruct o. Qed.

(** One check adds no message exactly when it is well formed and its name is
    new. *)
Lemma validate_check_nil i c seen :
  (validate_check i c seen).1 = [] <-> well_formed_check c /\ DisplayName c ∉ seen.
Proof.
  unfold validate_check. destruct (nonempty (ck_Type c)) eqn:Ht; cbn [negb fst].
  2: { apply nonempty_false in Ht. split; [discriminate | intros [[] _]; done]. }
  rewrite !app_nil, !note_nil, !andb_false_iff, !negb_false_iff, !bool_decide_eq_true, !bool_decide_eq_false,
    !nonempty_spec, !nonempty_false.
  apply nonempty_spec in Ht. split.
  - intros (Hp & Hc & Ha1 & Ha2 & Hd1 & Hd2 & Hs). split; [split|]; try done.
    + intros Hcap. destruct Hc as [[?|?]|Hc]; [done..|]. by apply list_elem_of_singleton in Hc.
    + intros a Ea. rewrite Ea in Ha1, Ha2. destruct Ha1 as [|Ha1], Ha2 as [|Ha2]; done.
    + intros d Ed. rewrite Ed in Hd1, Hd2. destruct Hd1 as [|Hd1], Hd2 as [|Hd2]; done.
  - intros [[? Hp Hc Ha Hd] Hs]. unfold capturingCheckTypes.
    destruct (ck_Assert c) as [a|] eqn:Ea, (ck_Drift c) as [d|] eqn:Ed; cbn;
      try destruct (Ha a eq_refl); try destruct (Hd d eq_refl);
      (split_and!; [done | | try (right; done); try (left; done).. | done]);
      destruct (decide (ck_Capture c = "")) as [->|Hcap]; try (left; left; done);
      right; rewrite (Hc Hcap); by apply list_elem_of_singleton.
Qed.

Lemma validate_check_seen i c seen :
  ck_Type c <> "" -> (validate_check i c seen).2 = DisplayName c :: seen.
Proof. intros Ht%nonempty_spec. unfold validate_check. by rewrite Ht. Qed.

Lemma validate_checks_nil cs i seen :
  validate_checks i cs seen = [] <->
  Forall well_formed_check cs /\ NoDup (map DisplayName cs) /\
  (forall c, c ∈ cs -> DisplayName c ∉ seen).
Proof.
  revert i seen; induction cs as [|c cs IH]; intros i seen; cbn [validate_checks map].
  { split; [intros _; split_and!; [constructor|constructor|by intros c ?%elem_of_nil] | done]. }
  pose proof (validate_check_nil i c seen) as Hc. pose proof (validate_check_seen i c seen) as Hs.
  destruct (validate_check i c seen) as [errs seen']. cbn in Hc, Hs.
  rewrite app_nil, Hc, IH, Forall_cons, NoDup_cons. split.
  - intros [[Hw Hn] (Hf & Hd & Ha)]. rewrite (Hs (wc_type _ Hw)) in Ha. split_and!; try done.
    + intros (c' & E & Hin)%list_elem_of_fmap. apply (Ha c' Hin). rewrite <- E. apply elem_of_cons. by left.
    + intros c' [->|Hin]%elem_of_cons; [done|]. intros Hin'. apply (Ha c' Hin). by apply elem_of_cons; right.
  - intros ([Hw Hf] & [Hn Hd] & Ha). rewrite (Hs (wc_type _ Hw)). split_and!; try done.
    + apply Ha, elem_of_cons. by left.
    + intros c' Hin [E|Hin']%elem_of_cons.
      * apply Hn. rewrite <- E. by apply list_elem_of_fmap_2.
      * by apply (Ha c'); [apply elem_of_cons; right|].
Qed.

(** C18: [Validate] is sound and complete: it answers nil for exactly the plans
    that are well formed: identified workload, supported backup selection,
    limits that are not negative, a schedule that parses, no checks on a guest
    that is not started, checks with distinct display names, and captures,
    bounds and tolerances that have something to apply to. *)
Theorem Validate_spec p : Validate p = None <-> well_formed p.
Proof.
  assert (E : Validate p = None <-> validate_errors p = []).
  { unfold Validate. by destruct (validate_errors p). }
  rewrite E. unfold validate_errors.
  rewrite !app_nil, !note_nil, !negb_nonempty, andb_false_iff, !Z.ltb_ge, negb_false_iff,
    bool_decide_eq_true, validate_checks_nil. split.
  - intros (? & ? & ? & Hb & ? & ? & Hs & Hsch & ? & ? & _). split; try done.
    + destruct (bs_Strategy (pl_Backup p)); try done; [by left | right].
      split; [done|]. by apply note_nil, negb_nonempty in Hb.
    + intros Hsk. destruct Hs; [congruence | done].
    + destruct (ParseSchedule _ _); [done | by eexists].
  - intros [? [? ?] Hb [? ?] Hs [sched Hsch] ? ?]. split_and!; try done.
    + destruct Hb as [->|[-> Hid]]; [done|]. by apply note_nil, negb_nonempty.
    + destruct (ss_Skip (pl_Startup p)); [right; by apply Hs | by left].
    + by rewrite Hsch.
    + by intros c _ ?%elem_of_nil.
Qed.

(** ** Defaults *)

Lemma default_ptr_idem o b b' : default_ptr (default_ptr o b) b' = default_ptr o b.
Proof. by destruct o. Qed.

Lemma DisplayName_defaults c : DisplayName (check_defaults c) = DisplayName c.
Proof. reflexivity. Qed.

Lemma check_defaults_idem c : check_defaults (check_defaults c) = check_defaults c.
Proof. unfold check_defaults; cbn. destruct (ck_Timeout c =? 0) eqn:E1, (ck_RetryInterval c =? 0) eqn:E2;
  rewrite ?E1, ?E2; reflexivity. Qed.

(** [ApplyDefaults] only fills in what the plan leaves unset: applied twice it
    changes nothing more, it keeps which checks run, what each of them proves
    and every field the plan stated, and the plan it leaves has a backup
    strategy, timeouts that are not zero and no policy left unset. *)
Theorem ApplyDefaults_fills p :
  ApplyDefaults (ApplyDefaults p) = ApplyDefaults p /\
  PlanProvenLevel (ApplyDefaults p) = PlanProvenLevel p /\
  map DisplayName (pl_Checks (ApplyDefaults p)) = map DisplayName (pl_Checks p) /\
  map ToCore (pl_Checks (ApplyDefaults p)) = map ToCore (pl_Checks p) /\
  bs_Strategy (pl_Backup (ApplyDefaults p)) <> StrategyEmpty /\
  rs_Timeout (pl_Restore (ApplyDefaults p)) <> 0 /\ ss_Timeout (pl_Startup (ApplyDefaults p)) <> 0 /\
  ss_WaitForIP (pl_Startup (ApplyDefaults p)) <> None /\
  ss_WaitForAgent (pl_Startup (ApplyDefaults p)) <> None /\
  (WaitsForIP (pl_Startup (ApplyDefaults p)) = true -> ss_WaitForIP (pl_Startup p) = None ->
     ss_Skip (pl_Startup p) = false /\ ss_IP (pl_Startup p) = "" /\ needsNetwork p = true).
Proof.
  assert (HN : needsNetwork (ApplyDefaults p) = needsNetwork p).
  { unfold needsNetwork. cbn. f_equal; [by destruct (pl_Checks p)|].
    induction (pl_Checks p) as [|c cs IH]; cbn; [done | by rewrite IH]. }
  split_and!.
  - unfold ApplyDefaults; cbn. f_equal.
    + by destruct (bs_Strategy (pl_Backup p)).
    + f_equal; [by destruct (nonempty (rs_Network (pl_Restore p))) eqn:E; rewrite ?E|].
      by destruct (rs_Timeout (pl_Restore p) =? 0) eqn:E; rewrite ?E.
    + rewrite !default_ptr_idem. f_equal. by destruct (ss_Timeout (pl_Startup p) =? 0) eqn:E; rewrite ?E.
    + rewrite map_map. apply map_ext. apply check_defaults_idem.
    + by rewrite default_ptr_idem.
  - unfold PlanProvenLevel; cbn.
    assert (E : bool_decide (map check_defaults (pl_Checks p) = []) = bool_decide (pl_Checks p = []))
      by (by destruct (pl_Checks p)).
    rewrite E. destruct (_ || _); [done|]. clear E. generalize ProofNone.
    induction (pl_Checks p) as [|c cs IH]; intros l; cbn; [done | apply IH].
  - cbn. rewrite map_map. by apply map_ext.
  - cbn. rewrite map_map. apply map_ext. intros c. unfold ToCore, check_defaults, Or; cbn.
    by destruct (ck_Timeout c =? 0) eqn:E1, (ck_RetryInterval c =? 0) eqn:E2; rewrite ?E1, ?E2.
  - cbn. by destruct (bs_Strategy (pl_Backup p)).
  - cbn. destruct (Z.eqb_spec (rs_Timeout (pl_Restore p)) 0); [by vm_compute | done].
  - cbn. destruct (Z.eqb_spec (ss_Timeout (pl_Startup p)) 0); [by vm_compute | done].
  - cbn. by destruct (ss_WaitForIP (pl_Startup p)).
  - cbn. by destruct (ss_WaitForAgent (pl_Startup p)).
  - cbn. intros Hw Hn. unfold WaitsForIP in Hw. cbn in Hw. rewrite Hn in Hw. cbn in Hw.
    destruct (ss_Skip (pl_Startup p)), (nonempty (ss_IP (pl_Startup p))) eqn:E, (needsNetwork p); try done.
    by apply nonempty_false in E.
Qed.
End Specification.

(** ** What the checks can prove *)

Lemma Rank_raise_from {A} (f : A -> ProofLevel) cs l :
  Rank (fold_left (fun level c => Raise level (f c)) cs l)
  = fold_right (fun c r => Z.max (Rank (f c)) r) (Rank l) cs.
Proof.
  revert l; induction cs as [|c cs IH]; intros l; cbn; [done|]. rewrite IH, Rank_Raise, Z.max_comm.
  clear IH. induction cs as [|c' cs IH]; cbn; lia.
Qed.

Lemma Rank_PlanProvenLevel p :
  (ss_Skip (pl_Startup p) = true -> pl_Checks p = []) ->
  Rank (PlanProvenLevel p) = fold_right (fun c r => Z.max (Rank (CheckProvenLevel c)) r) 0 (pl_Checks p).
Proof.
  intros Hs. unfold PlanProvenLevel. destruct (pl_Checks p) as [|c cs] eqn:E.
  - by rewrite orb_true_r.
  - destruct (ss_Skip (pl_Startup p)); [by specialize (Hs eq_refl)|].
    rewrite bool_decide_false by done. cbn [orb]. apply (Rank_raise_from CheckProvenLevel _ ProofNone).
Qed.

(** Whatever the results, checks prove at most what the plan announces, and
    exactly that when all of them pass. *)
Lemma proven_at_most p results :
  (ss_Skip (pl_Startup p) = true -> pl_Checks p = []) ->
  Rank (ProvenBy (zip_with mkProofCheck (map ToCore (pl_Checks p)) results)) <= Rank (PlanProvenLevel p) /\
  (Forall (fun r => OK r = true) results -> length results = length (pl_Checks p) ->
   Rank (ProvenBy (zip_with mkProofCheck (map ToCore (pl_Checks p)) results)) = Rank (PlanProvenLevel p)).
Proof.
  intros Hs. rewrite Rank_PlanProvenLevel by done. unfold ProvenBy. rewrite Rank_ProvenBy_from.
  change (Rank ProofNone) with 0. clear Hs. revert results.
  induction (pl_Checks p) as [|c cs IH]; intros [|r rs]; cbn; try (split; [lia | done]).
  - split; [|done]. clear IH. induction cs as [|c' cs IH]; cbn; lia.
  - destruct (IH rs) as [H1 H2]. split.
    + destruct (OK r); [lia|]. pose proof (Rank_ge (CheckProvenLevel c)). lia.
    + intros Hf Hl. inversion Hf as [|? ? Hr Hf']. rewrite Hr, H2; [done | done | lia].
Qed.
