(* ===== verification/PlanYaml.v ===== *)
(** * Plans as documents

    Models how a plan is read from YAML and written to it: the tags of the structs of
    plan/plan.go, [CheckSpec.UnmarshalYAML] and [MarshalYAML], and those of durations
    (duration.go), bounds and tolerances (values.go). The YAML library is the class
    [YamlEnv]: it parses a text to a node, reads nodes into Go values and writes trees;
    [YamlLaws] states that it reads what it writes. *)

From Stdlib Require Import ZArith Lia String Ascii List.
From S2P Require Import Prelude GoTime GoFloat Errors Core GoString GoStrconv GoFmt CheckParams Plan.

(** ** The library *)

(** [node_any] is [node.Decode] into an [any], [node_map] into a map of them,
    [node_entries] the keys of a mapping, each once, with their nodes. *)
Class YamlEnv := {
  node : Type;
  yaml_parse : string -> error + node;
  yaml_encode : any -> error + string;
  node_null : node -> bool;
  node_any : node -> error + any;
  node_map : node -> error + gmap string any;
  node_entries : node -> error + gmap string node;
  node_items : node -> error + list node;
  node_string : node -> error + string;
  node_int : node -> error + Z;
  node_bool : node -> error + bool;
  node_float : node -> error + float64;
  yaml_unknown : string -> string -> error;
  yaml_TypeError : list error -> error;
  type_errors : error -> option (list error);
  duration_error : string -> error;
}.

(** A decoding: an error that stops it, and the errors of types met so far, which do
    not. *)
Definition Decoding (A : Type) : Type := list error -> (error + A) * list error.
#[export] Instance Decoding_ret : MRet Decoding := fun A a errs => (inr a, errs).
#[export] Instance Decoding_bind : MBind Decoding := fun A B k d errs =>
  match d errs with (inl e, errs) => (inl e, errs) | (inr a, errs) => k a errs end.
Definition stop {A} (e : error) : Decoding A := fun errs => (inl e, errs).
Definition noted {A} (es : list error) (zero : A) : Decoding A := fun errs => (inr zero, errs ++ es).

Section Documents.
Context {YE : YamlEnv}.

(** A value: null leaves it as it is, an [UnmarshalYAML] method is not called on it. *)
Definition scalar {A} (conv : node -> error + A) (zero : A) (n : node) : Decoding A :=
  if node_null n then mret zero else match conv n with inl e => noted [e] zero | inr a => mret a end.
Definition unmarshaled {A} (f : node -> error + A) (zero : A) (n : node) : Decoding A :=
  if node_null n then mret zero else
  match f n with
  | inr a => mret a
  | inl e => match type_errors e with Some es => noted es zero | None => stop e end
  end.
Definition pointer {A} (d : A -> node -> Decoding A) (zero : A) (n : node) : Decoding (option A) :=
  if node_null n then mret None else a ← d zero n; mret (Some a).
Definition field {A} (m : gmap string node) (key : string) (d : A -> node -> Decoding A) (zero : A) : Decoding A :=
  match m !! key with Some n => d zero n | None => mret zero end.
(** A null in a list is left out. *)
Fixpoint items {A} (d : A -> node -> Decoding A) (zero : A) (ns : list node) : Decoding (list A) :=
  match ns with
  | [] => mret []
  | n :: ns => if node_null n then items d zero ns else a ← d zero n; l ← items d zero ns; mret (a :: l)
  end.
Definition sequence {A} (d : A -> node -> Decoding A) (zero : A) (empty : list A) (n : node) : Decoding (list A) :=
  if node_null n then mret empty else match node_items n with inl e => noted [e] empty | inr ns => items d zero ns end.
(** A struct; with [KnownFields], a key that it has no field for is an error. *)
Definition unknown_errors (typ : string) (keys : list string) (m : gmap string node) : list error :=
  map (fun kv => yaml_unknown kv.1 typ) (List.filter (fun kv => negb (bool_decide (kv.1 ∈ keys))) (map_to_list m)).
Definition struct {A} (known : option (string * list string)) (body : gmap string node -> Decoding A) (zero : A) (n : node) : Decoding A :=
  if node_null n then mret zero else
  match node_entries n with
  | inl e => noted [e] zero
  | inr m =>
    _ ← match known with Some (typ, keys) => noted (unknown_errors typ keys m) tt | None => mret tt end;
    body m
  end.

Definition text_ : string -> node -> Decoding string := scalar node_string.
Definition int_ : Z -> node -> Decoding Z := scalar node_int.
Definition bool_ : bool -> node -> Decoding bool := scalar node_bool.
Definition float_ : float64 -> node -> Decoding float64 := scalar node_float.

(** What [Decode] answers. *)
Definition decoded_as {A} (d : Decoding A) : error + A :=
  match d [] with (inl e, _) => inl e | (inr a, []) => inr a | (inr _, errs) => inl (yaml_TypeError errs) end.

(** ** Durations, bounds, tolerances (duration.go, values.go) *)

(** [Duration.UnmarshalYAML]. *)
Definition Duration_UnmarshalYAML (n : node) : error + Z :=
  match node_any n with
  | inl e => inl e
  | inr (AnyString v) =>
    match ParseDuration v with
    | Some d => inr d
    | None => inl (EWrap (Sprintf "invalid duration %q: %w" [AStr v; AText (Error (duration_error v))]) (duration_error v))
    end
  | inr (AnyInt v) => inr (Duration.wrap (v * Duration.Second))
  | inr (AnyFloat v) => inr (int_of_float (fmul v (float_of_Z Duration.Second)))
  | inr AnyNil => inr 0
  | inr v => inl (ENew (Sprintf "invalid duration value %v (%s)" [AStr (fmt_v v); AStr (type_name v)]))
  end.
Definition duration_ : Z -> node -> Decoding Z := unmarshaled Duration_UnmarshalYAML.
(** [Duration.MarshalYAML]. *)
Definition duration_yaml (d : Z) : any := if d =? 0 then AnyNil else AnyString (Duration_String d).

(** [parseTolerance]. *)
Definition parseTolerance (s : string) : error + float64 :=
  match ParseFloat (TrimSpace s) with
  | None => inl (ENew (Sprintf "invalid max_drop %q: write a percentage like %s or a number of units" [AStr s; AStr (quoted "10%")]))
  | Some f =>
    if GoFloat.finite f then inr f
    else inl (ENew (Sprintf "invalid max_drop %q: a tolerance that compares false against every value is a check that passes forever" [AStr s]))
  end.
(** [maxDrop.UnmarshalYAML]: the tolerance, and whether it is a percentage. *)
Definition maxDrop_UnmarshalYAML (n : node) : error + (float64 * bool) :=
  match node_any n with
  | inl err => inl (EWrap (Sprintf "invalid max_drop: %w" [AText (Error err)]) err)
  | inr (AnyString v) =>
    let s := TrimSpace v in
    if HasSuffix s "%" then on_ok (fun f => (f, true)) (parseTolerance (TrimSuffix s "%"))
    else on_ok (fun f => (f, false)) (parseTolerance s)
  | inr (AnyInt v) => inr (float_of_Z v, false)
  | inr (AnyFloat v) =>
    if GoFloat.finite v then inr (v, false)
    else inl (ENew (Sprintf "invalid max_drop %v: a tolerance that compares false against every value is a check that passes forever" [AFloat v]))
  | inr v => inl (ENew (Sprintf "invalid max_drop %v (%s): write a percentage like %s or a number of units"
                          [AStr (fmt_v v); AStr (type_name v); AStr (quoted "10%")]))
  end.
(** The blocks of the file, as the bounds of the runtime: [assertSpec], [driftSpec] and
    their [core]. *)
Definition no_bounds : AssertSpec := mkAssertSpec None None None.
Definition assert_ : AssertSpec -> node -> Decoding AssertSpec :=
  struct None (fun m =>
    min ← field m "min" (fun _ => pointer float_ (S754_zero false)) None;
    max ← field m "max" (fun _ => pointer float_ (S754_zero false)) None;
    equals ← field m "equals" (fun _ => pointer float_ (S754_zero false)) None;
    mret (mkAssertSpec min max equals)).
Definition no_tolerance : DriftSpec := mkDriftSpec (S754_zero false) false.
Definition drift_ : DriftSpec -> node -> Decoding DriftSpec :=
  struct None (fun m =>
    drop ← field m "max_drop" (unmarshaled maxDrop_UnmarshalYAML) (S754_zero false, false);
    mret (mkDriftSpec drop.1 drop.2)).

(** [assertYAML] and [driftYAML]. *)
Definition stated (fields : list (string * option any)) : list (string * any) :=
  omap (fun kv => pair kv.1 <$> kv.2) fields.
Definition assertYAML (a : AssertSpec) : any :=
  AnyMap (stated [("min", AnyFloat <$> as_Min a); ("max", AnyFloat <$> as_Max a); ("equals", AnyFloat <$> as_Equals a)]).
Definition driftYAML (d : DriftSpec) : any :=
  if ds_MaxDropIsPercent d then AnyMap [("max_drop", AnyString (format_shortest (ds_MaxDrop d) +:+ "%"))]
  else AnyMap [("max_drop", AnyFloat (ds_MaxDrop d))].

(** ** A check (plan.go) *)

Definition reservedCheckKeys : list string :=
  ["type"; "name"; "timeout"; "retries"; "retry_interval"; "critical"; "proves"; "capture"; "assert"; "drift"].

(** The fields that [CheckSpec.UnmarshalYAML] reads for itself; the parameters come
    from the mapping as a whole. *)
Definition decode_head (params : Params) : CheckSpec -> node -> Decoding CheckSpec :=
  struct None (fun m =>
    typ ← field m "type" text_ "";
    name ← field m "name" text_ "";
    timeout ← field m "timeout" duration_ 0;
    retries ← field m "retries" int_ 0;
    interval ← field m "retry_interval" duration_ 0;
    critical ← field m "critical" (fun _ => pointer bool_ false) None;
    proves ← field m "proves" text_ "";
    capture ← field m "capture" text_ "";
    assert ← field m "assert" (fun _ => pointer assert_ no_bounds) None;
    drift ← field m "drift" (fun _ => pointer drift_ no_tolerance) None;
    mret (mkCheckSpec typ name timeout retries interval critical params proves (TrimSpace capture) assert drift)).
Definition no_check : CheckSpec := mkCheckSpec "" "" 0 0 0 None ∅ "" "" None None.
Definition free_params (raw : gmap string any) : Params := filter (fun kv => kv.1 ∉ reservedCheckKeys) raw.
Definition CheckSpec_UnmarshalYAML (n : node) : error + CheckSpec :=
  match node_map n with
  | inl err => inl (EWrap (Sprintf "check must be a mapping: %w" [AText (Error err)]) err)
  | inr raw => decoded_as (decode_head (free_params raw) no_check n)
  end.

(** [CheckSpec.MarshalYAML]: the parameters, then the typed fields, which win. *)
Definition put (key : string) (v : option any) (out : gmap string any) : gmap string any :=
  match v with Some v => <[key := v]> out | None => out end.
Definition unless {A} (zero : bool) (v : A) : option A := if zero then None else Some v.
Definition CheckSpec_MarshalYAML (c : CheckSpec) : gmap string any :=
  put "drift" (driftYAML <$> ck_Drift c) (
  put "assert" (assertYAML <$> ck_Assert c) (
  put "capture" (unless (negb (nonempty (ck_Capture c))) (AnyString (ck_Capture c))) (
  put "proves" (unless (negb (nonempty (ck_Proves c))) (AnyString (ck_Proves c))) (
  put "critical" (AnyBool <$> ck_Critical c) (
  put "retry_interval" (unless (ck_RetryInterval c =? 0) (duration_yaml (ck_RetryInterval c))) (
  put "retries" (unless (ck_Retries c =? 0) (AnyInt (ck_Retries c))) (
  put "timeout" (unless (ck_Timeout c =? 0) (duration_yaml (ck_Timeout c))) (
  put "name" (unless (negb (nonempty (ck_Name c))) (AnyString (ck_Name c))) (
  put "type" (Some (AnyString (ck_Type c))) (ck_Params c)))))))))).
Definition check_yaml (c : CheckSpec) : any := AnyMap (map_to_list (CheckSpec_MarshalYAML c)).

(** ** A plan: the tags of its structs *)

Definition strategy_text (s : BackupStrategy) : string :=
  match s with StrategyEmpty => "" | StrategyLatest => "latest" | StrategySpecific => "specific" | StrategyOther s => s end.
Definition strategy_of (s : string) : BackupStrategy :=
  if bool_decide (s = "") then StrategyEmpty else if bool_decide (s = "latest") then StrategyLatest
  else if bool_decide (s = "specific") then StrategySpecific else StrategyOther s.

Definition workload_ : WorkloadRef -> node -> Decoding WorkloadRef :=
  struct (Some ("plan.WorkloadRef", ["provider"; "id"; "name"])) (fun m =>
    provider ← field m "provider" text_ "";
    id ← field m "id" text_ "";
    name ← field m "name" text_ "";
    mret (mkWorkloadRef provider id name)).
Definition backup_ : BackupSpec -> node -> Decoding BackupSpec :=
  struct (Some ("plan.BackupSpec", ["provider"; "strategy"; "id"; "max_age"])) (fun m =>
    provider ← field m "provider" text_ "";
    strategy ← field m "strategy" text_ "";
    id ← field m "id" text_ "";
    age ← field m "max_age" duration_ 0;
    mret (mkBackupSpec provider (strategy_of strategy) id age)).
Definition restore_ : RestoreSpec -> node -> Decoding RestoreSpec :=
  struct (Some ("plan.RestoreSpec", ["node"; "storage"; "pool"; "network"; "bridge"; "cpu_limit"; "memory_limit"; "bandwidth_limit"; "timeout"])) (fun m =>
    node ← field m "node" text_ "";
    storage ← field m "storage" text_ "";
    pool ← field m "pool" text_ "";
    network ← field m "network" text_ "";
    bridge ← field m "bridge" text_ "";
    cpu ← field m "cpu_limit" int_ 0;
    memory ← field m "memory_limit" int_ 0;
    bandwidth ← field m "bandwidth_limit" int_ 0;
    timeout ← field m "timeout" duration_ 0;
    mret (mkRestoreSpec node storage pool network bridge cpu memory bandwidth timeout)).
Definition startup_ : StartupSpec -> node -> Decoding StartupSpec :=
  struct (Some ("plan.StartupSpec", ["skip"; "timeout"; "wait_for_ip"; "wait_for_agent"; "ip"])) (fun m =>
    skip ← field m "skip" bool_ false;
    timeout ← field m "timeout" duration_ 0;
    wait_ip ← field m "wait_for_ip" (fun _ => pointer bool_ false) None;
    wait_agent ← field m "wait_for_agent" (fun _ => pointer bool_ false) None;
    ip ← field m "ip" text_ "";
    mret (mkStartupSpec skip timeout wait_ip wait_agent ip)).
Definition cleanup_ : CleanupSpec -> node -> Decoding CleanupSpec :=
  struct (Some ("plan.CleanupSpec", ["always"; "keep_on_failure"])) (fun m =>
    always ← field m "always" (fun _ => pointer bool_ false) None;
    keep ← field m "keep_on_failure" bool_ false;
    mret (mkCleanupSpec always keep)).
Definition no_workload : WorkloadRef := mkWorkloadRef "" "" "".
Definition no_backup : BackupSpec := mkBackupSpec "" StrategyEmpty "" 0.
Definition no_restore : RestoreSpec := mkRestoreSpec "" "" "" "" "" 0 0 0 0.
Definition no_startup : StartupSpec := mkStartupSpec false 0 None None "".
Definition no_cleanup : CleanupSpec := mkCleanupSpec None false.
Definition no_plan : Plan := mkPlan "" "" [] no_workload no_backup no_restore no_startup [] no_cleanup 0 "" "".
Definition plan_keys : list string :=
  ["name"; "description"; "tags"; "workload"; "backup"; "restore"; "startup"; "checks"; "cleanup"; "rto_target"; "schedule"; "schedule_timezone"].
Definition decode_plan : Plan -> node -> Decoding Plan :=
  struct (Some ("plan.Plan", plan_keys)) (fun m =>
    name ← field m "name" text_ "";
    description ← field m "description" text_ "";
    tags ← field m "tags" (sequence text_ "") [];
    workload ← field m "workload" workload_ no_workload;
    backup ← field m "backup" backup_ no_backup;
    restore ← field m "restore" restore_ no_restore;
    startup ← field m "startup" startup_ no_startup;
    checks ← field m "checks" (sequence (unmarshaled CheckSpec_UnmarshalYAML) no_check) [];
    cleanup ← field m "cleanup" cleanup_ no_cleanup;
    rto ← field m "rto_target" duration_ 0;
    schedule ← field m "schedule" text_ "";
    timezone ← field m "schedule_timezone" text_ "";
    mret (mkPlan name description tags workload backup restore startup checks cleanup rto schedule timezone)).
(** The document that [Parse] is given. *)
Definition plan_Unmarshal (document : string) : error + Plan :=
  match yaml_parse document with inl e => inl e | inr n => decoded_as (decode_plan no_plan n) end.

(** The other way, without what is empty where the tag says so. *)
Definition text_yaml (s : string) : option any := unless (negb (nonempty s)) (AnyString s).
Definition int_yaml (n : Z) : option any := unless (n =? 0) (AnyInt n).
Definition bool_yaml (b : bool) : option any := unless (negb b) (AnyBool b).
Definition span_yaml (d : Z) : option any := unless (d =? 0) (duration_yaml d).
Definition workload_yaml (w : WorkloadRef) : any :=
  AnyMap (stated [("provider", Some (AnyString (wr_Provider w))); ("id", Some (AnyString (wr_ID w))); ("name", text_yaml (wr_Name w))]).
Definition backup_yaml (b : BackupSpec) : any :=
  AnyMap (stated [("provider", text_yaml (bs_Provider b)); ("strategy", text_yaml (strategy_text (bs_Strategy b)));
                  ("id", text_yaml (bs_ID b)); ("max_age", span_yaml (bs_MaxAge b))]).
Definition restore_yaml (r : RestoreSpec) : any :=
  AnyMap (stated [("node", text_yaml (rs_Node r)); ("storage", text_yaml (rs_Storage r)); ("pool", text_yaml (rs_Pool r));
                  ("network", text_yaml (rs_Network r)); ("bridge", text_yaml (rs_Bridge r)); ("cpu_limit", int_yaml (rs_CPULimit r));
                  ("memory_limit", int_yaml (rs_MemoryLimitMB r)); ("bandwidth_limit", int_yaml (rs_BandwidthKiBps r));
                  ("timeout", span_yaml (rs_Timeout r))]).
Definition startup_yaml (s : StartupSpec) : any :=
  AnyMap (stated [("skip", bool_yaml (ss_Skip s)); ("timeout", span_yaml (ss_Timeout s)); ("wait_for_ip", AnyBool <$> ss_WaitForIP s);
                  ("wait_for_agent", AnyBool <$> ss_WaitForAgent s); ("ip", text_yaml (ss_IP s))]).
Definition cleanup_yaml (c : CleanupSpec) : any :=
  AnyMap (stated [("always", AnyBool <$> cs_Always c); ("keep_on_failure", bool_yaml (cs_KeepOnFailure c))]).
Definition plan_yaml (p : Plan) : any :=
  AnyMap (stated [
    ("name", Some (AnyString (pl_Name p)));
    ("description", text_yaml (pl_Description p));
    ("tags", unless (bool_decide (pl_Tags p = [])) (AnyList (map AnyString (pl_Tags p))));
    ("workload", Some (workload_yaml (pl_Workload p)));
    ("backup", Some (backup_yaml (pl_Backup p)));
    ("restore", Some (restore_yaml (pl_Restore p)));
    ("startup", Some (startup_yaml (pl_Startup p)));
    ("checks", Some (AnyList (map check_yaml (pl_Checks p))));
    ("cleanup", Some (cleanup_yaml (pl_Cleanup p)));
    ("rto_target", span_yaml (pl_RTOTarget p));
    ("schedule", text_yaml (pl_Schedule p));
    ("schedule_timezone", text_yaml (pl_ScheduleTimezone p))]).
Definition plan_Marshal (p : Plan) : error + string := yaml_encode (plan_yaml p).
End Documents.

(** ** What is written is read *)

(** A duration and an integer have 64 bits. *)
Definition in64 (z : Z) : Prop := - 2 ^ 63 <= z < 2 ^ 63.
(** A value without floats, whose integers have 64 bits. A mapping is listed in the
    order of its keys. *)
Fixpoint plain (v : any) : Prop :=
  match v with
  | AnyFloat _ => False
  | AnyInt z => in64 z
  | AnyList l => fold_right (fun v P => plain v /\ P) True l
  | AnyMap l => fold_right (fun kv P => plain kv.2 /\ P) True l /\ sort_keys l = l /\ NoDup (map fst l)
  | _ => True
  end.

(** The library reads what it writes: [written v n] says that the node [n] was read
    where the tree [v] was written. A float without a fraction may come back as an
    integer, and the sign of a negative zero is lost. *)
Class YamlLaws {YE : YamlEnv} := {
  written : any -> node -> Prop;
  encode_read v s : yaml_encode v = inr s -> exists n, yaml_parse s = inr n /\ written v n;
  written_null v n : written v n -> node_null n = match v with AnyNil => true | _ => false end;
  written_string s n : written (AnyString s) n -> node_string n = inr s /\ node_any n = inr (AnyString s);
  written_int z n : in64 z -> written (AnyInt z) n -> node_int n = inr z;
  written_bool b n : written (AnyBool b) n -> node_bool n = inr b;
  written_float f n : f <> S754_zero true -> written (AnyFloat f) n ->
    node_float n = inr f /\ (node_any n = inr (AnyFloat f) \/ exists z, node_any n = inr (AnyInt z) /\ float_of_Z z = f);
  written_list l n : written (AnyList l) n -> exists ns, node_items n = inr ns /\ Forall2 written l ns;
  written_map l n : NoDup (map fst l) -> written (AnyMap l) n -> exists m, node_entries n = inr m /\
    forall k, match (list_to_map l : gmap string any) !! k with
              | Some v => exists n', m !! k = Some n' /\ written v n' | None => m !! k = None end;
  written_values l n : NoDup (map fst l) -> written (AnyMap l) n -> exists raw, node_map n = inr raw /\
    forall k, match (list_to_map l : gmap string any) !! k with
              | Some v => exists v', raw !! k = Some v' /\ (plain v -> v' = v) | None => raw !! k = None end;
}.

Section Written.
Context {YE : YamlEnv} {YL : YamlLaws}.

Definition reads {A} (d : Decoding A) (a : A) : Prop := forall errs, d errs = (inr a, errs).
Lemma reads_ret {A} (a : A) : reads (mret a) a.
Proof. by intros errs. Qed.
Lemma reads_bind {A B} (d : Decoding A) (k : A -> Decoding B) a b : reads d a -> reads (k a) b -> reads (d ≫= k) b.
Proof. intros Hd Hk errs. unfold mbind, Decoding_bind. rewrite Hd. apply Hk. Qed.
Lemma reads_decoded {A} (d : Decoding A) a : reads d a -> decoded_as d = inr a.
Proof. intros Hd. unfold decoded_as. by rewrite Hd. Qed.

Lemma written_not_null v n : written v n -> v <> AnyNil -> node_null n = false.
Proof. intros Hw Hv. rewrite (written_null v n Hw). by destruct v. Qed.
Lemma reads_scalar {A} (conv : node -> error + A) zero v n a :
  written v n -> v <> AnyNil -> conv n = inr a -> reads (scalar conv zero n) a.
Proof. intros Hw Hv Hc errs. unfold scalar. by rewrite (written_not_null v n), Hc. Qed.
Lemma reads_unmarshaled {A} (f : node -> error + A) zero v n a :
  written v n -> v <> AnyNil -> f n = inr a -> reads (unmarshaled f zero n) a.
Proof. intros Hw Hv Hc errs. unfold unmarshaled. by rewrite (written_not_null v n), Hc. Qed.
Lemma reads_pointer {A} (d : A -> node -> Decoding A) zero v n a :
  written v n -> v <> AnyNil -> reads (d zero n) a -> reads (pointer d zero n) (Some a).
Proof. intros Hw Hv Hd. unfold pointer. rewrite (written_not_null v n) by done. eapply reads_bind; [exact Hd|apply reads_ret]. Qed.

Lemma reads_text s n zero : written (AnyString s) n -> reads (text_ zero n) s.
Proof. intros Hw. eapply reads_scalar; [done..|]. by apply written_string. Qed.
Lemma reads_int z n zero : in64 z -> written (AnyInt z) n -> reads (int_ zero n) z.
Proof. intros Hz Hw. eapply reads_scalar; [done..|]. by apply written_int. Qed.
Lemma reads_bool b n zero : written (AnyBool b) n -> reads (bool_ zero n) b.
Proof. intros Hw. eapply reads_scalar; [done..|]. by apply written_bool. Qed.
Lemma reads_float f n zero : f <> S754_zero true -> written (AnyFloat f) n -> reads (float_ zero n) f.
Proof. intros Hf Hw. eapply reads_scalar; [done..|]. by apply written_float. Qed.
Lemma reads_duration d n zero : in64 d -> d <> 0 -> written (duration_yaml d) n -> reads (duration_ zero n) d.
Proof.
  intros Hd Hz. unfold duration_yaml. destruct (Z.eqb_spec d 0); [done|]. intros Hw. eapply reads_unmarshaled; [done..|].
  unfold Duration_UnmarshalYAML. apply written_string in Hw as [_ ->]. by rewrite Duration_roundtrip.
Qed.

(** The fields of a mapping, where [f] says what was written under each key. *)
Definition mapping (m : gmap string node) (f : string -> option any) : Prop :=
  forall k, match f k with Some v => exists n, m !! k = Some n /\ written v n | None => m !! k = None end.
Lemma reads_field {A} m f k (d : A -> node -> Decoding A) zero a : mapping m f ->
  match f k with Some v => forall n, written v n -> reads (d zero n) a | None => a = zero end ->
  reads (field m k d zero) a.
Proof.
  intros Hm Hf. specialize (Hm k). unfold field. destruct (f k) as [v|].
  - destruct Hm as (n & -> & Hw). by apply Hf.
  - rewrite Hm. subst. apply reads_ret.
Qed.
Lemma reads_text_field m f k s : mapping m f -> f k = text_yaml s -> reads (field m k text_ "") s.
Proof.
  intros Hm Hf. eapply reads_field; [done|]. rewrite Hf. unfold text_yaml, unless, nonempty. case_bool_decide; cbn; [done|].
  intros ? ?. by apply reads_text.
Qed.
Lemma reads_int_field m f k z : mapping m f -> f k = int_yaml z -> in64 z -> reads (field m k int_ 0) z.
Proof.
  intros Hm Hf Hz. eapply reads_field; [done|]. rewrite Hf. unfold int_yaml, unless. destruct (Z.eqb_spec z 0); [done|].
  intros ? ?. by apply reads_int.
Qed.
Lemma reads_bool_field m f k b : mapping m f -> f k = bool_yaml b -> reads (field m k bool_ false) b.
Proof. intros Hm Hf. eapply reads_field; [done|]. rewrite Hf. destruct b; cbn; [|done]. intros ? ?. by apply reads_bool. Qed.
Lemma reads_span_field m f k d : mapping m f -> f k = span_yaml d -> in64 d -> reads (field m k duration_ 0) d.
Proof.
  intros Hm Hf Hd. eapply reads_field; [done|]. rewrite Hf. unfold span_yaml, unless. destruct (Z.eqb_spec d 0); [done|].
  intros ? ?. by apply reads_duration.
Qed.
Lemma reads_flag_field m f k b : mapping m f -> f k = AnyBool <$> b -> reads (field m k (fun _ => pointer bool_ false) None) b.
Proof.
  intros Hm Hf. eapply reads_field; [done|]. rewrite Hf. destruct b as [b|]; [|done]. intros n Hw.
  eapply reads_pointer; [done..|]. by apply reads_bool.
Qed.
Lemma reads_bound_field m f k b : mapping m f -> b <> Some (S754_zero true) -> f k = AnyFloat <$> b ->
  reads (field m k (fun _ => pointer float_ (S754_zero false)) None) b.
Proof.
  intros Hm Hb Hf. eapply reads_field; [done|]. rewrite Hf. destruct b as [b|]; [|done]. intros n Hw.
  eapply reads_pointer; [done..|]. apply reads_float; [congruence|done].
Qed.

(** The fields of a struct. *)
Definition stated_at (fs : list (string * option any)) (k : string) : option any :=
  match List.find (fun kv => String.eqb kv.1 k) fs with Some kv => kv.2 | None => None end.
Lemma stated_keys fs : NoDup (map fst fs) -> NoDup (map fst (stated fs)).
Proof.
  induction fs as [|[k [v|]] fs IH]; cbn; [constructor| |]; rewrite !NoDup_cons; [|tauto]. intros [Hk Hnd]. split; [|tauto].
  intros Hin. apply Hk. clear -Hin. induction fs as [|[k' [v'|]] fs IH]; cbn in Hin |- *; [done| |]; rewrite ?elem_of_cons in *; tauto.
Qed.
Lemma stated_lookup fs k : NoDup (map fst fs) -> (list_to_map (stated fs) : gmap string any) !! k = stated_at fs k.
Proof.
  unfold stated_at. induction fs as [|[k' v] fs IH]; intros Hnd; [done|]. cbn [map fst] in Hnd. apply NoDup_cons in Hnd as [Hk Hnd].
  cbn [List.find fst]. destruct (String.eqb_spec k' k) as [->|Hn].
  - destruct v as [v|]; cbn [snd]; [by cbn; rewrite lookup_insert_eq|]. change (stated ((k, None) :: fs)) with (stated fs). rewrite IH by done.
    destruct (List.find _ fs) as [[k' v]|] eqn:Ef; [|done]. apply List.find_some in Ef as [Hin He%String.eqb_eq]. cbn in He. subst.
    destruct Hk. apply list_elem_of_In, in_map_iff. by exists (k, v).
  - destruct v as [v|]; [|by apply IH]. change (stated ((k', Some v) :: fs)) with ((k', v) :: stated fs). cbn [list_to_map foldr].
    cbn. rewrite lookup_insert_ne by done. by apply IH.
Qed.
Lemma stated_at_key fs k : stated_at fs k <> None -> k ∈ map fst fs.
Proof.
  unfold stated_at. destruct (List.find _ fs) as [[k' v]|] eqn:E; [|done]. intros _. apply List.find_some in E as [Hin He%String.eqb_eq].
  cbn in He. subst. apply list_elem_of_In, in_map_iff. by exists (k, v).
Qed.
Lemma reads_struct {A} fs known body (zero : A) n a : NoDup (map fst fs) ->
  match known with Some (_, keys) => keys = map fst fs | None => True end ->
  (forall m, mapping m (stated_at fs) -> reads (body m) a) -> written (AnyMap (stated fs)) n -> reads (struct known body zero n) a.
Proof.
  intros Hnd Hk Hb Hw. unfold struct. rewrite (written_not_null _ _ Hw) by done.
  destruct (written_map _ _ (stated_keys fs Hnd) Hw) as (m & -> & Hm).
  assert (mapping m (stated_at fs)) as Hmap by (intros k; specialize (Hm k); by rewrite stated_lookup in Hm).
  eapply reads_bind; [|by apply Hb]. destruct known as [[typ keys]|]; [|apply reads_ret]. subst keys.
  assert (unknown_errors typ (map fst fs) m = []) as Hu; [|intros errs; unfold noted; by rewrite Hu, app_nil_r].
  unfold unknown_errors. destruct (List.filter _ _) as [|[k v] l] eqn:E; [done|]. exfalso.
  assert (In (k, v) (List.filter (fun kv => negb (bool_decide (kv.1 ∈ map fst fs))) (map_to_list m))) as [Hin Hnk]%filter_In by (rewrite E; by left).
  apply list_elem_of_In, elem_of_map_to_list in Hin. apply negb_true_iff, bool_decide_eq_false in Hnk. apply Hnk, stated_at_key.
  specialize (Hmap k). cbn. intros Hn. rewrite Hn, Hin in Hmap. done.
Qed.

(** *** Bounds and checks *)

(** What a check must be to be written and read back: its parameters hold no float and
    no key of its own, its bounds no negative zero, its tolerance is finite, and, when
    it is a percentage, printed as [strconv] promises, by digits that give it back. *)
Definition readable_bound (b : option float64) : Prop := b <> Some (S754_zero true).
Record check_readable (c : CheckSpec) : Prop := {
  cr_timeout : in64 (ck_Timeout c);
  cr_retries : in64 (ck_Retries c);
  cr_interval : in64 (ck_RetryInterval c);
  cr_plain : map_Forall (fun _ v => plain v) (ck_Params c);
  cr_assert : forall a, ck_Assert c = Some a -> readable_bound (as_Min a) /\ readable_bound (as_Max a) /\ readable_bound (as_Equals a);
  cr_drift : forall d, ck_Drift c = Some d -> GoFloat.finite (ds_MaxDrop d) = true /\
    if ds_MaxDropIsPercent d then ParseFloat (format_shortest (ds_MaxDrop d)) = Some (ds_MaxDrop d) else ds_MaxDrop d <> S754_zero true;
}.
(** What the decoding of a check makes sure of. *)
Record check_decoded (c : CheckSpec) : Prop := {
  cd_params k : k ∈ reservedCheckKeys -> ck_Params c !! k = None;
  cd_capture : TrimSpace (ck_Capture c) = ck_Capture c;
}.

Ltac distinct := apply (bool_decide_unpack _); vm_compute; exact I.
Lemma reads_assert a n zero : readable_bound (as_Min a) -> readable_bound (as_Max a) -> readable_bound (as_Equals a) ->
  written (assertYAML a) n -> reads (assert_ zero n) a.
Proof.
  intros H1 H2 H3. eapply reads_struct; [distinct|done|].
  intros m Hm. destruct a as [lo hi eq].
  eapply reads_bind; [by apply (reads_bound_field m _ _ lo Hm)|]. eapply reads_bind; [by apply (reads_bound_field m _ _ hi Hm)|].
  eapply reads_bind; [by apply (reads_bound_field m _ _ eq Hm)|apply reads_ret].
Qed.

Lemma reads_drift d n zero : GoFloat.finite (ds_MaxDrop d) = true ->
  (if ds_MaxDropIsPercent d then ParseFloat (format_shortest (ds_MaxDrop d)) = Some (ds_MaxDrop d) else ds_MaxDrop d <> S754_zero true) ->
  written (driftYAML d) n -> reads (drift_ zero n) d.
Proof.
  intros Hf Hd Hw. destruct d as [drop pct]. cbn [ds_MaxDrop ds_MaxDropIsPercent] in *.
  assert (forall v, written (AnyMap [("max_drop", v)]) n -> v <> AnyNil ->
    (forall n', written v n' -> maxDrop_UnmarshalYAML n' = inr (drop, pct)) -> reads (drift_ zero n) (mkDriftSpec drop pct)) as Hread.
  { intros v Hv Hnil Hun. eapply (reads_struct [("max_drop", Some v)]); [distinct|done| |exact Hv]. intros m Hm.
    eapply reads_bind; [|apply (reads_ret (mkDriftSpec (drop, pct).1 (drop, pct).2))].
    eapply reads_field; [done|]. cbn. intros n' Hn'. eapply reads_unmarshaled; [done..|by apply Hun]. }
  unfold driftYAML in Hw. cbn [ds_MaxDrop ds_MaxDropIsPercent] in Hw. destruct pct; (eapply Hread; [exact Hw|done|]); intros n' Hn'; unfold maxDrop_UnmarshalYAML.
  - apply written_string in Hn' as [_ ->]. cbv zeta. pose proof (format_shortest_no_space drop) as Hns.
    destruct (percent_suffix (format_shortest drop)) as [Hs Ht].
    rewrite TrimSpace_id by (by rewrite existsb_char_app, Hns). rewrite Hs, Ht. unfold parseTolerance. by rewrite TrimSpace_id, Hd, Hf.
  - apply written_float in Hn' as [_ [->|(z & -> & <-)]]; [by rewrite Hf|done|done].
Qed.

(** What was written under each key of a check. *)
Lemma lookup_put k v out k' : put k v out !! k' = match (if String.eqb k k' then v else None) with Some v => Some v | None => out !! k' end.
Proof.
  unfold put. destruct (String.eqb_spec k k') as [->|Hk]; destruct v as [v|]; [by rewrite lookup_insert_eq|done|by rewrite lookup_insert_ne|done].
Qed.
Lemma free_key k c : k ∉ reservedCheckKeys -> CheckSpec_MarshalYAML c !! k = ck_Params c !! k.
Proof.
  unfold reservedCheckKeys. rewrite !not_elem_of_cons. intros Hk. unfold CheckSpec_MarshalYAML. rewrite !lookup_put.
  rewrite !(fun a b => proj2 (String.eqb_neq a b)) by naive_solver. done.
Qed.
Lemma reserved_keys c : (forall k, k ∈ reservedCheckKeys -> ck_Params c !! k = None) ->
  let f k := CheckSpec_MarshalYAML c !! k in
  (f "type" = Some (AnyString (ck_Type c)) /\ f "name" = text_yaml (ck_Name c) /\ f "timeout" = span_yaml (ck_Timeout c) /\
   f "retries" = int_yaml (ck_Retries c) /\ f "retry_interval" = span_yaml (ck_RetryInterval c)) /\
  (f "critical" = AnyBool <$> ck_Critical c /\ f "proves" = text_yaml (ck_Proves c) /\ f "capture" = text_yaml (ck_Capture c) /\
   f "assert" = assertYAML <$> ck_Assert c /\ f "drift" = driftYAML <$> ck_Drift c).
Proof.
  intros Hp f. subst f. cbv beta. unfold CheckSpec_MarshalYAML. rewrite !lookup_put. cbn [String.eqb Ascii.eqb Bool.eqb].
  rewrite !Hp by (unfold reservedCheckKeys; rewrite !elem_of_cons; tauto).
  unfold text_yaml, span_yaml, int_yaml, unless. split_and!; try done; by repeat case_match.
Qed.
Lemma reads_said_field m f k s : mapping m f -> f k = Some (AnyString s) -> reads (field m k text_ "") s.
Proof. intros Hm Hf. eapply reads_field; [done|]. rewrite Hf. intros ?. apply reads_text. Qed.
Lemma reads_block_field {A} m f k (d : A -> node -> Decoding A) zero (a : option A) (yaml : A -> any) : mapping m f -> f k = yaml <$> a ->
  (forall x, yaml x <> AnyNil) -> (forall x n, a = Some x -> written (yaml x) n -> reads (d zero n) x) ->
  reads (field m k (fun _ => pointer d zero) None) a.
Proof.
  intros Hm Hf Hy Hd. eapply reads_field; [done|]. rewrite Hf. destruct a as [x|]; [|done]. intros n Hw.
  eapply reads_pointer; [done|apply Hy|]. by apply Hd.
Qed.
(** One field after the other, each found by the text of its key. *)
Ltac stated_here := solve [eassumption | cbn [stated_at List.find fst snd String.eqb Ascii.eqb Bool.eqb]; reflexivity].
Ltac read_field Hm :=
  first [ eapply (reads_said_field _ _ _ _ Hm); stated_here | eapply (reads_text_field _ _ _ _ Hm); stated_here
        | eapply (reads_int_field _ _ _ _ Hm); stated_here | eapply (reads_bool_field _ _ _ _ Hm); stated_here
        | eapply (reads_span_field _ _ _ _ Hm); stated_here | eapply (reads_flag_field _ _ _ _ Hm); stated_here ].

Lemma reads_check c n zero : check_decoded c -> check_readable c -> written (check_yaml c) n -> reads (unmarshaled CheckSpec_UnmarshalYAML zero n) c.
Proof.
  intros [Hp Hc] Hr Hw. eapply reads_unmarshaled; [exact Hw|done|]. unfold CheckSpec_UnmarshalYAML.
  assert (NoDup (map fst (map_to_list (CheckSpec_MarshalYAML c)))) as Hnd by apply NoDup_fst_map_to_list.
  destruct (written_values _ _ Hnd Hw) as (raw & -> & Hraw). rewrite list_to_map_to_list in Hraw.
  assert (free_params raw = ck_Params c) as ->.
  { apply map_eq. intros k. unfold free_params. specialize (Hraw k). destruct (decide (k ∈ reservedCheckKeys)) as [Hk|Hk].
    - transitivity (@None any); [|symmetry; by apply Hp]. apply map_lookup_filter_None. right. intros v _. cbn. tauto.
    - rewrite free_key in Hraw by done. change (filter (fun kv => kv.1 ∉ reservedCheckKeys) raw !! k = ck_Params c !! k).
      destruct (ck_Params c !! k) as [v|] eqn:Ek.
      + destruct Hraw as (v' & Hv' & Hpl). rewrite (Hpl (cr_plain c Hr k v Ek)) in Hv'. by apply map_lookup_filter_Some.
      + apply map_lookup_filter_None. by left. }
  destruct (written_map _ _ Hnd Hw) as (m & Hm & Hmap). rewrite list_to_map_to_list in Hmap.
  change (mapping m (fun k => CheckSpec_MarshalYAML c !! k)) in Hmap. apply reads_decoded. unfold decode_head, struct.
  rewrite (written_not_null _ _ Hw), Hm by done. eapply reads_bind; [apply reads_ret|].
  destruct (reserved_keys c Hp) as [(K1 & K2 & K3 & K4 & K5) (K6 & K7 & K8 & K9 & K10)].
  eapply reads_bind; [exact (reads_said_field _ _ _ _ Hmap K1)|]. eapply reads_bind; [exact (reads_text_field _ _ _ _ Hmap K2)|].
  eapply reads_bind; [exact (reads_span_field _ _ _ _ Hmap K3 (cr_timeout c Hr))|].
  eapply reads_bind; [exact (reads_int_field _ _ _ _ Hmap K4 (cr_retries c Hr))|].
  eapply reads_bind; [exact (reads_span_field _ _ _ _ Hmap K5 (cr_interval c Hr))|].
  eapply reads_bind; [exact (reads_flag_field _ _ _ _ Hmap K6)|]. eapply reads_bind; [exact (reads_text_field _ _ _ _ Hmap K7)|].
  eapply reads_bind; [exact (reads_text_field _ _ _ _ Hmap K8)|].
  eapply reads_bind; [apply (reads_block_field _ _ _ _ _ (ck_Assert c) assertYAML Hmap K9); [done|]; intros a n' Ea; destruct (cr_assert c Hr a Ea) as (? & ? & ?); by apply reads_assert|].
  eapply reads_bind; [apply (reads_block_field _ _ _ _ _ (ck_Drift c) driftYAML Hmap K10); [intros [? []]; done|]; intros d n' Ed; destruct (cr_drift c Hr d Ed); by apply reads_drift|].
  rewrite Hc. destruct c. apply reads_ret.
Qed.

(** *** A plan *)

Lemma reads_items {A} (d : A -> node -> Decoding A) zero yaml l ns : (forall a, yaml a <> AnyNil) ->
  Forall2 written (map yaml l) ns -> Forall (fun a => forall n, written (yaml a) n -> reads (d zero n) a) l -> reads (items d zero ns) l.
Proof.
  intros Hy Hw Hd. revert ns Hw. induction Hd as [|a l Ha _ IH]; intros ns Hw; inversion Hw as [|? n ? ns' Hn Hns]; subst; [apply reads_ret|].
  cbn [items]. rewrite (written_not_null _ _ Hn) by apply Hy. eapply reads_bind; [by apply Ha|]. eapply reads_bind; [by apply IH|apply reads_ret].
Qed.
Lemma reads_sequence {A} (d : A -> node -> Decoding A) zero yaml l n : (forall a, yaml a <> AnyNil) ->
  written (AnyList (map yaml l)) n -> Forall (fun a => forall n, written (yaml a) n -> reads (d zero n) a) l -> reads (sequence d zero [] n) l.
Proof.
  intros Hy Hw Hd. unfold sequence. rewrite (written_not_null _ _ Hw) by done. destruct (written_list _ _ Hw) as (ns & -> & Hns).
  by eapply reads_items.
Qed.
Lemma reads_workload w n zero : written (workload_yaml w) n -> reads (workload_ zero n) w.
Proof.
  eapply reads_struct; [distinct|done|]. intros m Hm. destruct w. repeat (eapply reads_bind; [read_field Hm|]). apply reads_ret.
Qed.
Lemma reads_backup b n zero : in64 (bs_MaxAge b) -> strategy_of (strategy_text (bs_Strategy b)) = bs_Strategy b ->
  written (backup_yaml b) n -> reads (backup_ zero n) b.
Proof.
  intros Ha Hs. eapply reads_struct; [distinct|done|]. intros m Hm. destruct b. repeat (eapply reads_bind; [read_field Hm|]).
  cbn in Hs |- *. rewrite Hs. apply reads_ret.
Qed.
Lemma reads_restore r n zero : in64 (rs_CPULimit r) -> in64 (rs_MemoryLimitMB r) -> in64 (rs_BandwidthKiBps r) -> in64 (rs_Timeout r) ->
  written (restore_yaml r) n -> reads (restore_ zero n) r.
Proof.
  intros H1 H2 H3 H4. eapply reads_struct; [distinct|done|]. intros m Hm. destruct r. repeat (eapply reads_bind; [read_field Hm|]). apply reads_ret.
Qed.
Lemma reads_startup s n zero : in64 (ss_Timeout s) -> written (startup_yaml s) n -> reads (startup_ zero n) s.
Proof.
  intros H1. eapply reads_struct; [distinct|done|]. intros m Hm. destruct s. repeat (eapply reads_bind; [read_field Hm|]). apply reads_ret.
Qed.
Lemma reads_cleanup c n zero : written (cleanup_yaml c) n -> reads (cleanup_ zero n) c.
Proof.
  eapply reads_struct; [distinct|done|]. intros m Hm. destruct c. repeat (eapply reads_bind; [read_field Hm|]). apply reads_ret.
Qed.


(** What a plan must be, and what its decoding makes sure of. *)
Record plan_readable (p : Plan) : Prop := {
  pr_spans : in64 (bs_MaxAge (pl_Backup p)) /\ in64 (rs_Timeout (pl_Restore p)) /\ in64 (ss_Timeout (pl_Startup p)) /\ in64 (pl_RTOTarget p);
  pr_limits : in64 (rs_CPULimit (pl_Restore p)) /\ in64 (rs_MemoryLimitMB (pl_Restore p)) /\ in64 (rs_BandwidthKiBps (pl_Restore p));
  pr_checks : Forall check_readable (pl_Checks p);
}.
Record plan_decoded (p : Plan) : Prop := {
  pd_strategy : strategy_of (strategy_text (bs_Strategy (pl_Backup p))) = bs_Strategy (pl_Backup p);
  pd_checks : Forall check_decoded (pl_Checks p);
}.
Lemma reads_whole_field {A} m f k (d : A -> node -> Decoding A) v zero a : mapping m f -> f k = Some v ->
  (forall n, written v n -> reads (d zero n) a) -> reads (field m k d zero) a.
Proof. intros Hm Hk Hd. eapply reads_field; [exact Hm|]. by rewrite Hk. Qed.
Lemma reads_plan p n zero : plan_decoded p -> plan_readable p -> written (plan_yaml p) n -> reads (decode_plan zero n) p.
Proof.
  intros [Hst Hcd] [(Hs1 & Hs2 & Hs3 & Hs4) (Hl1 & Hl2 & Hl3) Hcr]. eapply reads_struct; [distinct|reflexivity|]. intros m Hm.
  eapply reads_bind; [read_field Hm|]. eapply reads_bind; [read_field Hm|].
  eapply (reads_bind _ _ (pl_Tags p)).
  { eapply reads_field; [exact Hm|]. cbn [stated_at List.find fst snd String.eqb Ascii.eqb Bool.eqb]. unfold unless. case_bool_decide as Ht; [done|].
    intros n' Hn'. apply (reads_sequence _ _ AnyString); [done|exact Hn'|]. apply Forall_forall. intros s _ ?. apply reads_text. }
  eapply reads_bind; [eapply (reads_whole_field _ _ _ _ _ _ _ Hm); [reflexivity|intros; by apply reads_workload]|].
  eapply reads_bind; [eapply (reads_whole_field _ _ _ _ _ _ _ Hm); [reflexivity|intros; by apply reads_backup]|].
  eapply reads_bind; [eapply (reads_whole_field _ _ _ _ _ _ _ Hm); [reflexivity|intros; by apply reads_restore]|].
  eapply reads_bind; [eapply (reads_whole_field _ _ _ _ _ _ _ Hm); [reflexivity|intros; by apply reads_startup]|].
  eapply (reads_bind _ _ (pl_Checks p)).
  { eapply (reads_whole_field _ _ _ _ _ _ _ Hm); [reflexivity|]. intros n' Hn'. apply (reads_sequence _ _ check_yaml); [done|exact Hn'|].
    apply Forall_forall. intros c Hc n'' Hw. rewrite Forall_forall in Hcd, Hcr. apply reads_check; auto. }
  eapply reads_bind; [eapply (reads_whole_field _ _ _ _ _ _ _ Hm); [reflexivity|intros; by apply reads_cleanup]|].
  repeat (eapply reads_bind; [read_field Hm|]). destruct p. apply reads_ret.
Qed.

(** *** What a decoding makes sure of *)

Definition yields {A} (P : A -> Prop) (d : Decoding A) : Prop := forall errs a errs', d errs = (inr a, errs') -> P a.
Lemma yields_ret {A} (P : A -> Prop) a : P a -> yields P (mret a).
Proof. by intros Ha errs ? ? [= <- _]. Qed.
Lemma yields_noted {A} (P : A -> Prop) es a : P a -> yields P (noted es a).
Proof. by intros Ha errs ? ? [= <- _]. Qed.
Lemma yields_any {A} (d : Decoding A) : yields (fun _ => True) d.
Proof. by intros errs ? ? _. Qed.
Lemma yields_bind {A B} (Q : A -> Prop) (P : B -> Prop) d (k : A -> Decoding B) :
  yields Q d -> (forall a, Q a -> yields P (k a)) -> yields P (d ≫= k).
Proof.
  intros Hd Hk errs b errs'. unfold mbind, Decoding_bind. destruct (d errs) as [[e|a] errs1] eqn:E; [done|]. apply Hk. by eapply Hd.
Qed.
Lemma yields_then {A B} (P : B -> Prop) (d : Decoding A) (k : A -> Decoding B) : (forall a, yields P (k a)) -> yields P (d ≫= k).
Proof. intros Hk. eapply yields_bind; [apply yields_any|]. intros a _. apply Hk. Qed.
Lemma yields_struct {A} (P : A -> Prop) known body zero n : P zero -> (forall m, yields P (body m)) -> yields P (struct known body zero n).
Proof.
  intros Hz Hb. unfold struct. destruct (node_null n); [by apply yields_ret|]. destruct (node_entries n) as [e|m]; [by apply yields_noted|].
  apply yields_then. intros _. apply Hb.
Qed.
Lemma yields_field {A} (P : A -> Prop) m k d zero : P zero -> (forall n, yields P (d zero n)) -> yields P (field m k d zero).
Proof. intros Hz Hd. unfold field. destruct (m !! k); [apply Hd|by apply yields_ret]. Qed.
Lemma yields_pointer {A} (P : option A -> Prop) d zero n : P None -> yields (fun a => P (Some a)) (d zero n) -> yields P (pointer d zero n).
Proof.
  intros Hn Hd. unfold pointer. destruct (node_null n); [by apply yields_ret|]. eapply yields_bind; [exact Hd|]. intros a Ha. by apply yields_ret.
Qed.
Lemma yields_unmarshaled {A} (P : A -> Prop) f zero n : P zero -> (forall n a, f n = inr a -> P a) -> yields P (unmarshaled f zero n).
Proof.
  intros Hz Hf. unfold unmarshaled. destruct (node_null n); [by apply yields_ret|]. destruct (f n) as [e|a] eqn:E; [|apply yields_ret; by eapply Hf].
  destruct (type_errors e); [by apply yields_noted|]. by intros errs ? ?.
Qed.
Lemma yields_sequence {A} (P : A -> Prop) d zero n : (forall n, yields P (d zero n)) -> yields (Forall P) (sequence d zero [] n).
Proof.
  intros Hd. unfold sequence. destruct (node_null n); [by apply yields_ret|]. destruct (node_items n) as [e|ns]; [by apply yields_noted|].
  induction ns as [|m ns IH]; cbn [items]; [by apply yields_ret|]. destruct (node_null m); [done|].
  eapply yields_bind; [apply Hd|]. intros a Ha. eapply yields_bind; [exact IH|]. intros l Hl. apply yields_ret. by constructor.
Qed.
Lemma yields_decoded {A} (P : A -> Prop) (d : Decoding A) a : yields P d -> decoded_as d = inr a -> P a.
Proof.
  intros Hd. unfold decoded_as. destruct (d []) as [[e|a'] errs] eqn:E; [done|]. apply Hd in E. by destruct errs; intros [= <-].
Qed.

Lemma CheckSpec_decoded n c : CheckSpec_UnmarshalYAML n = inr c -> check_decoded c.
Proof.
  unfold CheckSpec_UnmarshalYAML. destruct (node_map n) as [e|raw]; [done|]. apply yields_decoded. apply yields_struct.
  - by split.
  - intros m. do 10 (apply yields_then; intros ?). apply yields_ret. split; cbn; [|by apply TrimSpace_idem].
    intros k Hk. unfold free_params. apply map_lookup_filter_None. right. intros v _. cbn. tauto.
Qed.
Lemma strategy_of_text s : strategy_of (strategy_text (strategy_of s)) = strategy_of s.
Proof.
  assert (s = "" \/ s = "latest" \/ s = "specific" \/ strategy_of s = StrategyOther s) as [->|[->|[->|E]]]; [|done..|by rewrite E].
  unfold strategy_of. repeat case_bool_decide; tauto.
Qed.
Lemma decode_plan_decoded n p : decoded_as (decode_plan no_plan n) = inr p -> plan_decoded p.
Proof.
  apply yields_decoded. apply yields_struct; [by split|]. intros m. do 4 (apply yields_then; intros ?).
  eapply (yields_bind (fun b => strategy_of (strategy_text (bs_Strategy b)) = bs_Strategy b)).
  { apply yields_field; [done|]. intros n'. apply yields_struct; [done|]. intros m'. do 4 (apply yields_then; intros ?). apply yields_ret, strategy_of_text. }
  intros b Hb. do 2 (apply yields_then; intros ?). eapply (yields_bind (Forall check_decoded)).
  { apply yields_field; [done|]. intros n'. apply yields_sequence. intros n''. apply yields_unmarshaled; [by split|]. apply CheckSpec_decoded. }
  intros cs Hcs. do 4 (apply yields_then; intros ?). by apply yields_ret.
Qed.

(** Defaults change nothing of that. *)
Lemma ApplyDefaults_decoded p : plan_decoded p -> plan_decoded (ApplyDefaults p).
Proof.
  intros [Hs Hc]. split; cbn.
  - by destruct (bs_Strategy (pl_Backup p)).
  - apply Forall_map. eapply Forall_impl; [exact Hc|]. by intros c [? ?].
Qed.

(** C19: A stored plan is the plan that is executed. The plan that a document denotes, once
    read, completed with its defaults, validated and written as the snapshot of a
    queued drill, is read back from that snapshot as the same plan, to the last
    check, parameter, bound and tolerance, if its parameters hold no float and its
    bounds are numbers that survive being printed. *)
Theorem snapshot_is_the_plan `{!ScheduleEnv} document p snapshot :
  Parse (plan_Unmarshal document) = inr p -> plan_readable p -> plan_Marshal p = inr snapshot ->
  Parse (plan_Unmarshal snapshot) = inr p.
Proof.
  intros Hp Hr Hs. unfold Parse in Hp. destruct (plan_Unmarshal document) as [e|q] eqn:Hq; [done|].
  destruct (Validate (ApplyDefaults q)) as [e|] eqn:Hv; [done|]. injection Hp as <-.
  unfold plan_Unmarshal in Hq. destruct (yaml_parse document) as [e|n]; [done|]. apply decode_plan_decoded, ApplyDefaults_decoded in Hq.
  destruct (encode_read _ _ Hs) as (n' & Hn' & Hw).
  assert (plan_Unmarshal snapshot = inr (ApplyDefaults q)) as ->.
  { unfold plan_Unmarshal. rewrite Hn'. by apply reads_decoded, reads_plan. }
  unfold Parse. rewrite (proj1 (ApplyDefaults_fills q)), Hv. done.
Qed.
End Written.

(** ** A plan at work *)

Module Documents.
(** A library for two documents: the one of a user, and the one that was stored. *)
Definition wrong_type : error := ENew (Lit "yaml: unmarshal errors").
Definition tree_map (v : any) : error + gmap string any :=
  match v with AnyNil => inr ∅ | AnyMap l => inr (list_to_map l) | _ => inl wrong_type end.
Definition library (written_by_hand stored : any) : YamlEnv := {|
  node := any;
  yaml_parse s := if bool_decide (s = "nightly.yaml") then inr written_by_hand else if bool_decide (s = "snapshot") then inr stored else inl (ENew (Lit "EOF"));
  yaml_encode v := if bool_decide (v = stored) then inr "snapshot" else inl wrong_type;
  node_null v := match v with AnyNil => true | _ => false end;
  node_any v := inr v;
  node_map := tree_map;
  node_entries := tree_map;
  node_items v := match v with AnyList l => inr l | _ => inl wrong_type end;
  node_string v := match v with AnyString s => inr s | _ => inl wrong_type end;
  node_int v := match v with AnyInt z => inr z | _ => inl wrong_type end;
  node_bool v := match v with AnyBool b => inr b | _ => inl wrong_type end;
  node_float v := match v with AnyFloat f => inr f | AnyInt z => inr (float_of_Z z) | _ => inl wrong_type end;
  yaml_unknown k t := ENew (Sprintf "field %s not found in type %s" [AStr k; AStr t]);
  yaml_TypeError es := match es with [] => wrong_type | e :: _ => e end;
  type_errors _ := None;
  duration_error s := ENew (Sprintf "time: invalid duration %q" [AStr s]);
|}.
Lemma library_laws hand stored : YamlLaws (YE := library hand stored).
Proof.
  refine {| written := fun v (n : @node (library hand stored)) => @eq any n v |}; cbn.
  - intros v s. case_bool_decide as E; [|done]. intros [= <-]. exists stored. by rewrite bool_decide_eq_false_2, bool_decide_eq_true_2.
  - by intros v n ->.
  - by intros s n ->.
  - by intros z n _ ->.
  - by intros b n ->.
  - intros f n _ ->. split; [done|by left].
  - intros l n ->. exists l. split; [done|]. by induction l; constructor.
  - intros l n _ ->. eexists. split; [done|]. intros k. destruct (_ !! k) as [v|] eqn:E; [by exists v|done].
  - intros l n _ ->. eexists. split; [done|]. intros k. destruct (_ !! k) as [v|] eqn:E; [by exists v|done].
Qed.

Definition by_hand : any :=
  AnyMap [("name", AnyString "nightly"); ("workload", AnyMap [("provider", AnyString "pve"); ("id", AnyString "101")]);
          ("backup", AnyMap [("max_age", AnyString "26h")]);
          ("startup", AnyMap [("timeout", AnyInt 90)]);
          ("checks", AnyList [
             AnyMap [("type", AnyString "tcp"); ("port", AnyInt 5432); ("retries", AnyInt 3)]; AnyNil;
             AnyMap [("type", AnyString "command"); ("run", AnyString "psql -tAc 'select count(*) from orders'"); ("capture", AnyString " orders ");
                     ("timeout", AnyString "1m30.5s"); ("critical", AnyBool true); ("assert", AnyMap [("min", AnyInt 1)]);
                     ("drift", AnyMap [("max_drop", AnyString "12.5%")])]])].
#[local] Instance calendar : ScheduleEnv := {|
  Location := unit; CronSpec := unit; time_Local := tt; time_UTC := tt;
  LoadLocation _ := inr tt; ParseStandard _ := inr tt; spec_Next _ _ t := t; wall_clock _ t := t;
|}.
Definition parsed (stored : any) (document : string) : error + Plan := Parse (plan_Unmarshal (YE := library by_hand stored) document).
Definition nightly : Plan := match parsed AnyNil "nightly.yaml" with inr p => p | inl _ => no_plan end.
Definition stored : any := plan_yaml nightly.
Example the_checks : map (fun c => (DisplayName c, ck_Timeout c, ck_Capture c)) (pl_Checks nightly)
  = [("TCP 5432", 30 * Duration.Second, ""); ("COMMAND", 90500 * Duration.Millisecond, "orders")].
Proof. vm_compute. reflexivity. Qed.
Lemma snapshot_is_the_plan_witness : pl_Name nightly = "nightly" /\ parsed stored "snapshot" = inr nightly.
Proof.
  split; [vm_compute; reflexivity|].
  apply (snapshot_is_the_plan (YL := library_laws by_hand stored) "nightly.yaml" nightly "snapshot"); [vm_compute; reflexivity| |vm_compute; reflexivity].
  assert (forall z, ((- 2 ^ 63 <=? z) && (z <? 2 ^ 63)) = true -> in64 z) as H64.
  { unfold in64. intros z [?%Z.leb_le ?%Z.ltb_lt]%andb_true_iff. lia. }
  split; [split_and!; by apply H64|split_and!; by apply H64|].
  assert (exists c1 c2, pl_Checks nightly = [c1; c2] /\ check_readable c1 /\ check_readable c2) as (c1 & c2 & -> & ? & ?); [|by apply Forall_cons; split; [|apply Forall_singleton]].
  eexists _, _. split; [vm_compute; reflexivity|].
  split; (split; [by apply H64..| |cbn|cbn]).
  1, 4: apply map_Forall_to_list; match goal with |- Forall _ ?l => let l' := eval vm_compute in l in replace l with l' by (vm_compute; reflexivity) end;
    apply Forall_singleton; solve [done|by apply H64].
  - done.
  - done.
  - by intros a [= <-].
  - by intros d [= <-].
Defined.
End Documents.
