(* ===== verification/Adhoc.v ===== *)
(** * Ad hoc drills

    Models internal/adhoc: a drill described by a workload and a handful of
    overrides, from the command line or from the API, and the shorthand of its
    checks. *)

From Stdlib Require Import ZArith Lia String Ascii List.
From S2P Require Import Prelude GoTime GoFloat Errors Core GoString GoStrconv Plan.

(** [Options]. *)
Record AdhocOptions := mkAdhocOptions {
  ao_WorkloadID : string;
  ao_ProviderID : string;
  ao_BackupProvider : string;
  ao_Backup : string;
  ao_Node : string;
  ao_Storage : string;
  ao_Pool : string;
  ao_Network : string;
  ao_Checks : list string;
  ao_CheckRetries : Z;
  ao_CheckInterval : Z;
  ao_StartupTimeout : Z;
  ao_RTOTarget : Z;
  ao_CPULimit : Z;
  ao_MemoryLimitMB : Z;
  ao_SkipStartup : bool;
}.

Definition DefaultCheckRetries : Z := 5.
Definition DefaultCheckInterval : Z := 5 * Duration.Second.
Definition AdhocCheckTimeout : Z := 15 * Duration.Second.
Definition DefaultCheck : string := "cmd:hostname".

(** [applyDefaults]. *)
Definition applyDefaults (o : AdhocOptions) : AdhocOptions :=
  mkAdhocOptions (ao_WorkloadID o) (ao_ProviderID o) (ao_BackupProvider o) (ao_Backup o) (ao_Node o) (ao_Storage o)
    (ao_Pool o) (ao_Network o)
    (if negb (ao_SkipStartup o) && bool_decide (ao_Checks o = []) then [DefaultCheck] else ao_Checks o)
    (if ao_CheckRetries o =? 0 then DefaultCheckRetries else ao_CheckRetries o)
    (if ao_CheckInterval o =? 0 then DefaultCheckInterval else ao_CheckInterval o)
    (ao_StartupTimeout o) (ao_RTOTarget o) (ao_CPULimit o) (ao_MemoryLimitMB o) (ao_SkipStartup o).

(** A check of a type and its parameters, all else absent. *)
Definition shorthand (type : string) (params : Params) : CheckSpec :=
  mkCheckSpec type "" 0 0 0 None params "" "" None None.
Definition bad_check (spec expected : string) : error :=
  ENew (Sprintf ("invalid check %q: expected " +:+ expected) [AStr spec]).

(** [ParseCheckSpec]. *)
Definition ParseCheckSpec (spec : string) : error + CheckSpec :=
  if bool_decide (spec = "ping") then inr (shorthand "ping" ∅)
  else if HasPrefix spec "http://" || HasPrefix spec "https://" then inr (shorthand "http" {["url" := AnyString spec]})
  else if HasPrefix spec "tcp:" then
    match Atoi (TrimPrefix spec "tcp:") with
    | Some port =>
      if (port <? 1) || (65535 <? port) then inl (bad_check spec "tcp:PORT with a port between 1 and 65535")
      else inr (shorthand "tcp" {["port" := AnyInt port]})
    | None => inl (bad_check spec "tcp:PORT with a port between 1 and 65535")
    end
  else if HasPrefix spec "cmd:" then
    let run := TrimPrefix spec "cmd:" in
    if negb (nonempty (TrimSpace run)) then inl (bad_check spec "cmd:COMMAND")
    else inr (shorthand "command" {["run" := AnyString run]})
  else if HasPrefix spec "dns:" then
    let name := TrimPrefix spec "dns:" in
    if negb (nonempty name) then inl (bad_check spec "dns:NAME") else inr (shorthand "dns" {["name" := AnyString name]})
  else inl (ENew (Sprintf "unknown check %q: expected ping, tcp:PORT, http(s)://..., dns:NAME, or cmd:COMMAND" [AStr spec])).

(** The retries, the interval and the timeout of a drill's check. *)
Definition with_budget (o : AdhocOptions) (c : CheckSpec) : CheckSpec :=
  mkCheckSpec (ck_Type c) (ck_Name c) (if ck_Timeout c =? 0 then AdhocCheckTimeout else ck_Timeout c)
    (ao_CheckRetries o) (ao_CheckInterval o) (ck_Critical c) (ck_Params c) (ck_Proves c) (ck_Capture c) (ck_Assert c) (ck_Drift c).
Fixpoint parse_checks (o : AdhocOptions) (specs : list string) : error + list CheckSpec :=
  match specs with
  | [] => inr []
  | s :: specs =>
    match ParseCheckSpec s with
    | inl e => inl e
    | inr c => match parse_checks o specs with inl e => inl e | inr cs => inr (with_budget o c :: cs) end
    end
  end.

(** The plan before its defaults. *)
Definition drill_plan (o : AdhocOptions) (checks : list CheckSpec) : Plan :=
  let specific := nonempty (ao_Backup o) && negb (bool_decide (ao_Backup o = "latest")) in
  {| pl_Name := "adhoc-" +:+ ao_WorkloadID o;
     pl_Description := ""; pl_Tags := [];
     pl_Workload := mkWorkloadRef (ao_ProviderID o) (ao_WorkloadID o) "";
     pl_Backup := mkBackupSpec (ao_BackupProvider o) (if specific then StrategySpecific else StrategyLatest)
                    (if specific then ao_Backup o else "") 0;
     pl_Restore := mkRestoreSpec (ao_Node o) (ao_Storage o) (ao_Pool o) (ao_Network o) "" (ao_CPULimit o) (ao_MemoryLimitMB o) 0 0;
     pl_Startup := mkStartupSpec (ao_SkipStartup o) (ao_StartupTimeout o) None None "";
     pl_Checks := checks;
     pl_Cleanup := mkCleanupSpec None false;
     pl_RTOTarget := ao_RTOTarget o;
     pl_Schedule := ""; pl_ScheduleTimezone := "" |}.

Section Plans.
Context `{ScheduleEnv}.

(** [Plan]. *)
Definition AdhocPlan (o : AdhocOptions) : error + Plan :=
  let o := applyDefaults o in
  match (if ao_SkipStartup o then inr [] else parse_checks o (ao_Checks o)) with
  | inl e => inl e
  | inr checks =>
    let p := ApplyDefaults (drill_plan o checks) in
    match Validate p with Some e => inl e | None => inr p end
  end.
End Plans.

(** ** What the shorthand says *)

(** The checks that a text stands for, as its help describes them. *)
Inductive denotes : string -> CheckSpec -> Prop :=
| denotes_ping : denotes "ping" (shorthand "ping" ∅)
| denotes_http url : HasPrefix url "http://" || HasPrefix url "https://" = true ->
    denotes url (shorthand "http" {["url" := AnyString url]})
| denotes_tcp digits port : Atoi digits = Some port -> 1 <= port <= 65535 ->
    denotes ("tcp:" +:+ digits) (shorthand "tcp" {["port" := AnyInt port]})
| denotes_command run : TrimSpace run <> "" ->
    denotes ("cmd:" +:+ run) (shorthand "command" {["run" := AnyString run]})
| denotes_dns name : name <> "" -> denotes ("dns:" +:+ name) (shorthand "dns" {["name" := AnyString name]}).

Lemma ParseCheckSpec_denotes spec c : ParseCheckSpec spec = inr c <-> denotes spec c.
Proof.
  split.
  - unfold ParseCheckSpec. case_bool_decide as Hping; [intros [= <-]; subst; constructor|].
    destruct (HasPrefix spec "http://" || _) eqn:Hhttp; [intros [= <-]; by constructor|].
    destruct (HasPrefix spec "tcp:") eqn:Htcp.
    { apply HasPrefix_TrimPrefix in Htcp. destruct (Atoi _) as [port|] eqn:Hp; [|done].
      destruct ((port <? 1) || (65535 <? port)) eqn:Hr; [done|]. intros [= <-]. rewrite Htcp at 1. constructor; [done|lia]. }
    destruct (HasPrefix spec "cmd:") eqn:Hcmd.
    { apply HasPrefix_TrimPrefix in Hcmd. destruct (nonempty (TrimSpace _)) eqn:Hn; [|done].
      intros [= <-]. rewrite Hcmd at 1. constructor. by apply nonempty_spec. }
    destruct (HasPrefix spec "dns:") eqn:Hdns; [|done].
    apply HasPrefix_TrimPrefix in Hdns. destruct (nonempty (TrimPrefix spec "dns:")) eqn:Hn; [|done].
    intros [= <-]. rewrite Hdns at 1. constructor. by apply nonempty_spec.
  - intros [|url Hu|digits port Hp Hr|run Hr|name Hn]; [done|..].
    + unfold ParseCheckSpec. case_bool_decide as Hping; [by subst|]. by rewrite Hu.
    + unfold ParseCheckSpec. case_bool_decide as Hping; [done|]. rewrite HasPrefix_app, TrimPrefix_app, Hp.
      by replace ((port <? 1) || (65535 <? port)) with false by lia.
    + unfold ParseCheckSpec. case_bool_decide as Hping; [done|]. rewrite HasPrefix_app, TrimPrefix_app.
      apply nonempty_spec in Hr. rewrite Hr. reflexivity.
    + unfold ParseCheckSpec. case_bool_decide as Hping; [done|]. rewrite HasPrefix_app, TrimPrefix_app.
      apply nonempty_spec in Hn. rewrite Hn. reflexivity.
Qed.

Lemma parse_checks_denotes o specs cs :
  parse_checks o specs = inr cs <-> exists cs', Forall2 denotes specs cs' /\ cs = map (with_budget o) cs'.
Proof.
  revert cs. induction specs as [|s specs IH]; intros cs; cbn [parse_checks].
  { split; [intros [= <-]; by exists []|]. intros (cs' & Hf & ->). by inversion Hf. }
  destruct (ParseCheckSpec s) as [e|c] eqn:Hs.
  { split; [done|]. intros (cs' & Hf & _). inversion Hf as [|? c ? ? Hd]; subst. apply ParseCheckSpec_denotes in Hd. congruence. }
  apply ParseCheckSpec_denotes in Hs. destruct (parse_checks o specs) as [e|cs1].
  { split; [done|]. intros (cs' & Hf & _). inversion Hf as [|? ? ? l ? Hl]; subst. discriminate (proj2 (IH _) (ex_intro _ l (conj Hl eq_refl))). }
  destruct (proj1 (IH cs1) eq_refl) as (l & Hl & ->). split.
  - intros [= <-]. exists (c :: l). split; [by constructor|done].
  - intros (cs' & Hf & ->). inversion Hf as [|? c' ? l' Hd Hl']; subst. cbn. f_equal. f_equal.
    + f_equal. apply ParseCheckSpec_denotes in Hs, Hd. congruence.
    + assert (inr (A := error) (map (with_budget o) l) = inr (map (with_budget o) l')) as [= E]; [|done].
      apply (proj2 (IH _)). by exists l'.
Qed.

(** The checks a description asks for. *)
Definition wanted (o : AdhocOptions) : list string :=
  if bool_decide (ao_Checks o = []) then [DefaultCheck] else ao_Checks o.

Lemma denotes_well_formed spec c : denotes spec c -> well_formed_check (check_defaults c).
Proof. by intros []; constructor. Qed.
Lemma budget_well_formed o c : well_formed_check (check_defaults c) -> well_formed_check (check_defaults (with_budget o c)).
Proof. by intros []; constructor. Qed.

Section Acceptance.
Context `{ScheduleEnv}.

Lemma drill_plan_well_formed o cs :
  Forall (fun c => well_formed_check (check_defaults c)) cs -> (ao_SkipStartup o = true -> cs = []) ->
  well_formed (ApplyDefaults (drill_plan o cs)) <->
  (ao_WorkloadID o <> "" /\ ao_ProviderID o <> "") /\ (0 <= ao_CPULimit o /\ 0 <= ao_MemoryLimitMB o) /\ NoDup (map DisplayName cs).
Proof.
  intros Hcs Hskip. assert (map DisplayName (map check_defaults cs) = map DisplayName cs) as Hnames by (rewrite map_map; by apply map_ext).
  split.
  - intros [_ [Hw Hp] _ Hl _ _ _ Hn]. cbn in *. by rewrite Hnames in Hn.
  - intros ((Hw & Hp) & Hl & Hn). constructor; cbn; try done.
    + by apply TrimSpace_kept.
    + destruct (nonempty (ao_Backup o)) eqn:Hb; [|by left]. apply nonempty_spec in Hb. case_bool_decide; [by left|by right].
    + intros E. by rewrite (Hskip E).
    + by eexists.
    + by apply Forall_map.
    + by rewrite Hnames.
Qed.

Lemma AdhocPlan_accepts o p :
  AdhocPlan o = inr p <->
  (ao_WorkloadID o <> "" /\ ao_ProviderID o <> "") /\ (0 <= ao_CPULimit o /\ 0 <= ao_MemoryLimitMB o) /\
  exists cs, (if ao_SkipStartup o then cs = [] else Forall2 denotes (wanted o) cs) /\ NoDup (map DisplayName cs) /\
    p = ApplyDefaults (drill_plan o (map (with_budget (applyDefaults o)) cs)).
Proof.
  set (o' := applyDefaults o). set (parsed := if ao_SkipStartup o then inr [] else parse_checks o' (ao_Checks o')).
  assert (forall checks, parsed = inr checks <->
    exists cs, (if ao_SkipStartup o then cs = [] else Forall2 denotes (wanted o) cs) /\ checks = map (with_budget o') cs) as Hparsed.
  { intros checks. unfold parsed. destruct (ao_SkipStartup o) eqn:Hs.
    - split; [intros [= <-]; by exists []|]. by intros (cs & -> & ->).
    - rewrite parse_checks_denotes. unfold o', applyDefaults, wanted. cbn. by rewrite Hs. }
  assert (forall cs, (if ao_SkipStartup o then cs = [] else Forall2 denotes (wanted o) cs) ->
    Validate (ApplyDefaults (drill_plan o (map (with_budget o') cs))) = None <->
    (ao_WorkloadID o <> "" /\ ao_ProviderID o <> "") /\ (0 <= ao_CPULimit o /\ 0 <= ao_MemoryLimitMB o) /\ NoDup (map DisplayName cs)) as Hvalid.
  { intros cs Hcs. rewrite Validate_spec, drill_plan_well_formed.
    - by rewrite map_map, (map_ext (fun c => DisplayName (with_budget o' c)) DisplayName).
    - apply Forall_map. destruct (ao_SkipStartup o); [by subst|]. apply Forall_forall. intros c Hc.
      apply list_elem_of_lookup in Hc as (i & Hi). apply (Forall2_lookup_r _ _ _ _ _ Hcs) in Hi as (s & _ & Hd).
      by eapply budget_well_formed, denotes_well_formed.
    - intros E. rewrite E in Hcs. by subst. }
  change (AdhocPlan o) with (match parsed with inl e => inl e | inr checks =>
    let p := ApplyDefaults (drill_plan o checks) in match Validate p with Some e => inl e | None => inr p end end).
  destruct parsed as [e|checks].
  - split; [done|]. intros (_ & _ & cs & Hcs & _ & _). by discriminate (proj2 (Hparsed _) (ex_intro _ cs (conj Hcs eq_refl))).
  - destruct (proj1 (Hparsed checks) eq_refl) as (cs & Hcs & ->). specialize (Hvalid cs Hcs). cbn zeta.
    destruct (Validate _) as [e|].
    + split; [done|]. intros (Hw & Hl & cs' & Hcs' & Hn & _).
      assert (map (with_budget o') cs = map (with_budget o') cs') as E by (pose proof (proj2 (Hparsed _) (ex_intro _ cs' (conj Hcs' eq_refl))) as E; congruence).
      assert (map DisplayName cs = map DisplayName cs') as En.
      { transitivity (map DisplayName (map (with_budget o') cs)); [by rewrite map_map; apply map_ext|]. rewrite E, map_map. by apply map_ext. }
      rewrite En in Hvalid. by discriminate (proj2 Hvalid (conj Hw (conj Hl Hn))).
    + destruct (proj1 Hvalid eq_refl) as (Hw & Hl & Hn). split.
      * intros [= <-]. split; [exact Hw|split; [exact Hl|]]. by exists cs.
      * intros (_ & _ & cs' & Hcs' & _ & ->).
        pose proof (proj2 (Hparsed _) (ex_intro _ cs' (conj Hcs' eq_refl))) as E. apply (inj inr) in E. by rewrite <- E.
Qed.

(** A description of a drill is accepted exactly when it names a workload and a
    provider, its limits are not negative, and the checks it asks for, the default
    one when there are none, are each written as the help says and have distinct
    display names; and what is run is then that description and nothing else, every
    check with the drill's retries, interval and a bounded attempt. *)
Theorem AdhocPlan_spec o p :
  AdhocPlan o = inr p <->
  (ao_WorkloadID o <> "" /\ ao_ProviderID o <> "") /\ (0 <= ao_CPULimit o /\ 0 <= ao_MemoryLimitMB o) /\
  exists cs, (if ao_SkipStartup o then cs = [] else Forall2 denotes (wanted o) cs) /\ NoDup (map DisplayName cs) /\
    p = ApplyDefaults (drill_plan o (map (with_budget (applyDefaults o)) cs)).
Proof. exact (AdhocPlan_accepts o p). Qed.

(** A drill described by its workload alone needs no route to the guest: it waits
    for the agent and runs one command through it. *)
Lemma default_drill_needs_no_route o p :
  AdhocPlan o = inr p -> ao_Checks o = [] -> ao_SkipStartup o = false ->
  WaitsForIP (pl_Startup p) = false /\ WaitsForAgent (pl_Startup p) = true /\ map commandLine (map ck_Params (pl_Checks p)) = [Some "hostname"].
Proof.
  intros (_ & _ & cs & Hcs & _ & ->)%AdhocPlan_accepts Hno Hskip. unfold wanted in Hcs. rewrite Hskip, Hno in Hcs. cbn in Hcs.
  inversion Hcs as [|? c ? l Hd Hl]; subst. inversion Hl; subst. apply ParseCheckSpec_denotes in Hd. vm_compute in Hd. injection Hd as <-.
  cbn. by rewrite Hskip.
Qed.

(** Two checks of one type have one name, and a description cannot give them
    others. *)
Lemma one_check_of_a_type o c1 c2 p : ao_SkipStartup o = false -> ao_Checks o = ["cmd:" +:+ c1; "cmd:" +:+ c2] -> AdhocPlan o <> inr p.
Proof.
  intros Hskip Hcs (_ & _ & cs & Hd & Hn & _)%AdhocPlan_accepts. unfold wanted in Hd. rewrite Hskip, Hcs in Hd. cbn in Hd.
  inversion Hd as [|? k1 ? l H1 Hl]; subst. inversion Hl as [|? k2 ? l' H2 Hl']; subst. inversion Hl'; subst.
  assert (forall run k, denotes ("cmd:" +:+ run) k -> DisplayName k = "COMMAND") as Hname.
  { intros run k Hk. inversion Hk; subst; try done. }
  apply NoDup_cons in Hn as [Hn _]. apply Hn. rewrite (Hname _ _ H1), (Hname _ _ H2). by left.
Qed.
End Acceptance.

(** ** Drills described *)
Module Described.
#[local] Instance no_schedule : ScheduleEnv := {|
  Location := unit;
  CronSpec := unit;
  time_Local := tt;
  time_UTC := tt;
  LoadLocation _ := inl (ENew (Lit "unknown"));
  ParseStandard _ := inl (ENew (Lit "unknown"));
  spec_Next _ _ t := t;
  wall_clock _ t := t;
|}.
Definition options (checks : list string) : AdhocOptions :=
  mkAdhocOptions "104" "pve" "" "" "" "" "" "" checks 0 0 0 0 0 0 false.
Definition accepted (checks : list string) : option (list string) :=
  match AdhocPlan (options checks) with inr p => Some (map DisplayName (pl_Checks p)) | inl _ => None end.

Example descriptions :
  accepted [] = Some ["COMMAND"] /\
  accepted ["ping"; "tcp:22"; "tcp:5432"; "https://shop.lab/health"; "dns:shop.lab"; "cmd:systemctl is-active nginx"]
    = Some ["PING"; "TCP 22"; "TCP 5432"; "HTTP"; "DNS"; "COMMAND"] /\
  accepted ["tcp:0"] = None /\ accepted ["tcp:+22"; "tcp:22"] = None /\ accepted ["cmd:  "] = None /\
  accepted ["cmd:systemctl is-active nginx"; "cmd:pg_isready"] = None.
Proof. vm_compute. split_and!; reflexivity. Qed.
End Described.
