(* ===== verification/Config.v ===== *)
(** * The configuration

    Models internal/config: the configuration and its defaults (config.go), its
    accessors (accessors.go), its validation (validate.go), and how it is written
    to disk (io.go). The YAML library, [url.Parse], [net.ParseIP] and the file
    system are outside. *)

From Stdlib Require Import ZArith Lia String Ascii List.
From stdpp Require Import strings.
From S2P Require Import Prelude GoTime Errors Core GoString Base64 Secrets Plan.

(** ** The data (config.go) *)

Record Provider := mkProvider {
  prv_ID : string;
  prv_Kind : string;
  prv_Roles : list string;
  prv_Endpoint : string;
  prv_TokenID : string;
  prv_TokenSecret : string;
  prv_Insecure : bool;
  prv_Fingerprint : string;
  prv_CACertPath : string;
  prv_Node : string;
  prv_BackupStorage : string;
  prv_Pool : string;
  prv_TempIDMin : Z;
  prv_TempIDMax : Z;
  prv_Datastore : string;
  prv_PVEStorage : string;
}.
Record Network := mkNetwork { nw_Bridge : string; nw_VLANTag : Z; nw_Firewall : bool; nw_Isolated : bool }.
Record Limits := mkLimits { lm_MaxConcurrentRestores : Z; lm_MaxRecoveryMemoryMB : Z; lm_MaxRecoveryDiskGB : Z }.
Record Defaults := mkDefaults {
  df_Provider : string;
  df_BackupProvider : string;
  df_Network : string;
  df_Node : string;
  df_Storage : string;
}.
Record Notification := mkNotification { nf_ID : string; nf_Kind : string; nf_URL : string; nf_Enabled : option bool }.
Record SchedulerConfig := mkSchedulerConfig { sch_Enabled : option bool; sch_GracePeriod : Z; sch_MaxQueueDepth : Z }.
Record Config := mkConfig {
  cg_Version : Z;
  cg_Providers : list Provider;
  cg_Networks : gmap string Network;
  cg_Limits : Limits;
  cg_Defaults : Defaults;
  cg_DatabaseURL : string;
  cg_Scheduler : SchedulerConfig;
  cg_BaseURL : string;
  cg_Notifications : list Notification;
}.
Definition set_Providers (l : list Provider) (c : Config) : Config :=
  mkConfig (cg_Version c) l (cg_Networks c) (cg_Limits c) (cg_Defaults c) (cg_DatabaseURL c) (cg_Scheduler c) (cg_BaseURL c) (cg_Notifications c).
Definition set_Notifications (l : list Notification) (c : Config) : Config :=
  mkConfig (cg_Version c) (cg_Providers c) (cg_Networks c) (cg_Limits c) (cg_Defaults c) (cg_DatabaseURL c) (cg_Scheduler c) (cg_BaseURL c) l.
Definition with_secret (secret : string) (p : Provider) : Provider :=
  mkProvider (prv_ID p) (prv_Kind p) (prv_Roles p) (prv_Endpoint p) (prv_TokenID p) secret (prv_Insecure p) (prv_Fingerprint p)
    (prv_CACertPath p) (prv_Node p) (prv_BackupStorage p) (prv_Pool p) (prv_TempIDMin p) (prv_TempIDMax p) (prv_Datastore p) (prv_PVEStorage p).
Definition with_url (url : string) (n : Notification) : Notification := mkNotification (nf_ID n) (nf_Kind n) url (nf_Enabled n).

(** [New], [networkToCore], [SchedulerEnabled] and [On]. *)
Definition NewConfig : Config :=
  mkConfig 1 [] {["isolated" := mkNetwork "vmbr99" 0 false true]} (mkLimits 1 16384 500) (mkDefaults "" "" "" "" "") ""
    (mkSchedulerConfig None 0 0) "" [].
Definition networkToCore (n : Network) : NetworkConfig :=
  mkNetworkConfig (nw_Bridge n) "" (nw_VLANTag n) (nw_Firewall n) (nw_Isolated n).
Definition SchedulerEnabled (c : Config) : bool := default true (sch_Enabled (cg_Scheduler c)).
Definition On (n : Notification) : bool := default true (nf_Enabled n).

(** ** Lists with a key *)

Section Keyed.
Context {A : Type} (key : A -> string).

(** The first element with a key, what replaces it, and the list without it. *)
Definition keyed (id : string) (l : list A) : option A := List.find (fun a => bool_decide (key a = id)) l.
Fixpoint alter_first (f : A -> A) (id : string) (l : list A) : list A :=
  match l with
  | [] => []
  | a :: l => if bool_decide (key a = id) then f a :: l else a :: alter_first f id l
  end.
Definition upsert (a : A) (l : list A) : list A :=
  match keyed (key a) l with Some _ => alter_first (fun _ => a) (key a) l | None => l ++ [a] end.
Fixpoint remove_first (id : string) (l : list A) : list A :=
  match l with
  | [] => []
  | a :: l => if bool_decide (key a = id) then l else a :: remove_first id l
  end.
End Keyed.

(** ** Accessors (accessors.go) *)

Definition provider_of (id : string) (c : Config) : error + Provider :=
  match keyed prv_ID id (cg_Providers c) with
  | Some p => inr p
  | None => inl (ENew (Sprintf "no provider %q in config" [AStr id]))
  end.
Definition ProvidersByRole (role : string) (c : Config) : list Provider :=
  List.filter (fun p => bool_decide (role ∈ prv_Roles p)) (cg_Providers c).
Definition network_of (name : string) (c : Config) : error + Network :=
  match cg_Networks c !! name with
  | Some n => inr n
  | None => inl (ENew (Sprintf "no network profile %q in config" [AStr name]))
  end.
Definition ResolveNetwork (name : string) (c : Config) : error + NetworkConfig :=
  match network_of name c with inl e => inl e | inr n => inr (networkToCore n) end.
Definition Upsert (p : Provider) (c : Config) : Config := set_Providers (upsert prv_ID p (cg_Providers c)) c.
Definition channel_of (id : string) (c : Config) : error + Notification :=
  match keyed nf_ID id (cg_Notifications c) with
  | Some n => inr n
  | None => inl (ENew (Sprintf "no notification channel %q in config" [AStr id]))
  end.
Definition UpsertNotification (n : Notification) (c : Config) : Config :=
  set_Notifications (upsert nf_ID n (cg_Notifications c)) c.
Definition RemoveNotification (id : string) (c : Config) : error + Config :=
  match keyed nf_ID id (cg_Notifications c) with
  | Some _ => inr (set_Notifications (remove_first nf_ID id (cg_Notifications c)) c)
  | None => inl (ENew (Sprintf "no notification channel %q in config" [AStr id]))
  end.

(** [Redacted], of a provider and of a channel. *)
Definition RedactedProvider (p : Provider) : Provider := if nonempty (prv_TokenSecret p) then with_secret "***" p else p.
Definition RedactedNotification (n : Notification) : Notification := if nonempty (nf_URL n) then with_url "***" n else n.

Section Sealed.
Context `{AEAD}.

(** [Secret] and [Target]: a value that is not sealed is refused. *)
Definition Secret (k : Key) (p : Provider) : error + string :=
  if negb (IsSealed (prv_TokenSecret p)) then
    inl (ENew (Sprintf "provider %q has an unsealed token_secret; re-add it (e.g. `restorelab provider add`) so it is sealed with the current master key" [AStr (prv_ID p)]))
  else match Open k (prv_TokenSecret p) with
       | inl e => inl (EWrap (Sprintf "provider %q: %w" [AStr (prv_ID p); AText (Error e)]) e)
       | inr s => inr s
       end.
Definition Target (k : Key) (n : Notification) : error + string :=
  if negb (IsSealed (nf_URL n)) then
    inl (ENew (Sprintf "notification channel %q has an unsealed url; re-add it (e.g. `restorelab notify add`) so it is sealed with the current master key" [AStr (nf_ID n)]))
  else match Open k (nf_URL n) with
       | inl e => inl (EWrap (Sprintf "notification channel %q: %w" [AStr (nf_ID n); AText (Error e)]) e)
       | inr s => inr s
       end.

(** [SetProviderSecret]. *)
Definition SetProviderSecret (id plaintext : string) (nonce : error + string) (k : Key) (c : Config) : option error * Config :=
  match provider_of id c with
  | inl e => (Some e, c)
  | inr _ =>
    match Seal nonce k plaintext with
    | inl e => (Some (EWrap (Sprintf "seal secret for provider %q: %w" [AStr id; AText (Error e)]) e), c)
    | inr sealed => (None, set_Providers (alter_first prv_ID (with_secret sealed) id (cg_Providers c)) c)
    end
  end.
End Sealed.

(** ** Validation (validate.go) *)

Definition validKinds : list string := ["proxmox"; "pbs"].
Definition validRoles : list string := ["hypervisor"; "backup"].
Definition notificationKinds : list string := ["discord"; "slack"; "webhook"].
Definition isNotificationKind (kind : string) : bool := bool_decide (kind ∈ notificationKinds).

(** What [url.Parse] reads of a URL: its scheme, its host and the host without the
    port; whether [net.ParseIP] reads a loopback address; the YAML of a
    configuration, and the configuration that a strict decoding of one reads. *)
Class ConfigEnv := {
  url_Parts : string -> option (string * string * string);
  ip_Loopback : string -> bool;
  yaml_EncodeConfig : Config -> error + string;
  yaml_DecodeConfig : string -> error + Config;
}.

Section Validation.
Context `{AEAD} `{ConfigEnv}.

Definition isLoopback (host : string) : bool := bool_decide (host = "localhost") || ip_Loopback host.

(** A URL with a scheme and a host. *)
Definition absolute (raw : string) : option (string * string * string) :=
  match url_Parts raw with
  | Some (scheme, host, hostname) => if nonempty scheme && nonempty host then Some (scheme, host, hostname) else None
  | None => None
  end.

(** [ValidateNotificationURL]. *)
Definition ValidateNotificationURL (raw : string) : option error :=
  if negb (nonempty raw) then Some (ENew (Lit "url is required"))
  else if IsSealed raw then None
  else match absolute raw with
       | None => Some (ENew (Lit "url is not a valid URL"))
       | Some (scheme, _, hostname) =>
         if negb (bool_decide (scheme = "https")) && negb (isLoopback hostname)
         then Some (ENew (Sprintf "url scheme %q must be https (http is only allowed to a loopback address, because a webhook url is a bearer credential)" [AStr scheme]))
         else None
       end.

(** [SetNotificationURL]. *)
Definition SetNotificationURL (id plaintext : string) (nonce : error + string) (k : Key) (c : Config) : option error * Config :=
  match channel_of id c with
  | inl e => (Some e, c)
  | inr _ =>
    match ValidateNotificationURL plaintext with
    | Some e => (Some (EWrap (Sprintf "notification channel %q: %w" [AStr id; AText (Error e)]) e), c)
    | None =>
      match Seal nonce k plaintext with
      | inl e => (Some (EWrap (Sprintf "seal url for notification channel %q: %w" [AStr id; AText (Error e)]) e), c)
      | inr sealed => (None, set_Notifications (alter_first nf_ID (with_url sealed) id (cg_Notifications c)) c)
      end
    end
  end.

(** The identifier of an element of a list: present, and not met before. *)
Definition validate_id (what noun : string) (i : Z) (id : string) (seen : list string) : list text * list string :=
  if negb (nonempty id) then ([Sprintf (what +:+ "[%d]: id is required") [AInt i]], seen)
  else if bool_decide (id ∈ seen) then ([Sprintf (what +:+ "[%d]: duplicate " +:+ noun +:+ " id %q") [AInt i; AStr id]], seen)
  else ([], id :: seen).

Definition validate_provider (i : Z) (p : Provider) : list text :=
  note (negb (bool_decide (prv_Kind p ∈ validKinds)))
    (Sprintf "providers[%d] (%s): kind %q is not supported (proxmox, pbs)" [AInt i; AStr (prv_ID p); AStr (prv_Kind p)])
  ++ concat (map (fun r => note (negb (bool_decide (r ∈ validRoles)))
       (Sprintf "providers[%d] (%s): role %q is not supported (hypervisor, backup)" [AInt i; AStr (prv_ID p); AStr r])) (prv_Roles p))
  ++ (if negb (nonempty (prv_Endpoint p)) then [Sprintf "providers[%d] (%s): endpoint is required" [AInt i; AStr (prv_ID p)]]
      else match absolute (prv_Endpoint p) with
           | None => [Sprintf "providers[%d] (%s): endpoint %q is not a valid URL" [AInt i; AStr (prv_ID p); AStr (prv_Endpoint p)]]
           | Some (scheme, _, _) =>
             note (negb (bool_decide (scheme ∈ ["https"; "http"])))
               (Sprintf "providers[%d] (%s): endpoint scheme %q must be http or https" [AInt i; AStr (prv_ID p); AStr scheme])
           end)
  ++ note (bool_decide (prv_Kind p = "proxmox") && negb (prv_TempIDMin p =? 0) && negb (prv_TempIDMax p =? 0) &&
           (prv_TempIDMax p <=? prv_TempIDMin p))
       (Sprintf "providers[%d] (%s): temp_id_min must be less than temp_id_max" [AInt i; AStr (prv_ID p)]).

Definition validate_channel (i : Z) (n : Notification) : list text :=
  note (negb (isNotificationKind (nf_Kind n)))
    (Sprintf "notifications[%d] (%s): kind %q is not supported (%s)"
       [AInt i; AStr (nf_ID n); AStr (nf_Kind n); AStr (Join ", " notificationKinds)])
  ++ (if negb (nonempty (nf_URL n)) then [Sprintf "notifications[%d] (%s): url is required" [AInt i; AStr (nf_ID n)]]
      else if HasPrefix (nf_URL n) "rlsec:" then []
      else match ValidateNotificationURL (nf_URL n) with
           | Some e => [Sprintf "notifications[%d] (%s): %v" [AInt i; AStr (nf_ID n); AText (Error e)]]
           | None => []
           end).

(** A list validated in order, with the identifiers met. *)
Fixpoint validate_all {A} (what noun : string) (key : A -> string) (f : Z -> A -> list text) (i : Z) (l : list A) (seen : list string) : list text :=
  match l with
  | [] => []
  | a :: l => let '(errs, seen) := validate_id what noun i (key a) seen in
              errs ++ f i a ++ validate_all what noun key f (i + 1) l seen
  end.

Definition validate_network (c : Config) : list text :=
  let name := df_Network (cg_Defaults c) in
  if negb (nonempty name) then [] else
  match cg_Networks c !! name with
  | None => [Sprintf "defaults.network %q does not name a network profile in networks" [AStr name]]
  | Some n => note (negb (nw_Isolated n))
      (Sprintf "defaults.network %q is not marked isolated: true; a non-isolated network must never be the default, only an explicit per-plan choice" [AStr name])
  end.

(** [Validate]. *)
Definition config_errors (c : Config) : list text :=
  validate_all "providers" "provider" prv_ID validate_provider 0 (cg_Providers c) []
  ++ validate_all "notifications" "notification" nf_ID validate_channel 0 (cg_Notifications c) []
  ++ note (nonempty (cg_BaseURL c) && negb (is_some (absolute (cg_BaseURL c))))
       (Sprintf "server.base_url %q is not an absolute URL (it needs a scheme and a host, e.g. https://restorelab.example.com)" [AStr (cg_BaseURL c)])
  ++ validate_network c.
Definition ValidateConfig (c : Config) : option error :=
  match config_errors c with
  | [] => None
  | errs => Some (ENew (Sprintf "invalid config:\n  - %s" (map AText errs)))
  end.

(** ** On disk (io.go) *)

Inductive load_error := ConfigNotFound (path : string) | LoadFailed (e : error).
(** [Load], from what reading the file answers. *)
Definition Load (path : string) (answer : read_answer) : load_error + Config :=
  match answer with
  | NotExist => inl (ConfigNotFound path)
  | ReadFailed e => inl (LoadFailed (EWrap (Sprintf "read config %s: %w" [AStr path; AText (Error e)]) e))
  | Contents data =>
    match yaml_DecodeConfig data with
    | inl e => inl (LoadFailed (EWrap (Sprintf "parse config %s: %w" [AStr path; AText (Error e)]) e))
    | inr c => match ValidateConfig c with Some e => inl (LoadFailed e) | None => inr c end
    end
  end.

(** What [Save] refuses to write. *)
Definition unsealed (c : Config) : option error :=
  match List.find (fun p => nonempty (prv_TokenSecret p) && negb (IsSealed (prv_TokenSecret p))) (cg_Providers c) with
  | Some p => Some (ENew (Sprintf "refusing to save config: provider %q has an unsealed token_secret (use Config.SetProviderSecret to seal it before saving)" [AStr (prv_ID p)]))
  | None =>
    match List.find (fun n => nonempty (nf_URL n) && negb (IsSealed (nf_URL n))) (cg_Notifications c) with
    | Some n => Some (ENew (Sprintf "refusing to save config: notification %q has an unsealed url (use Config.SetNotificationURL to seal it before saving)" [AStr (nf_ID n)]))
    | None => None
    end
  end.
(** [Save]: what may fail, in order: the directory, the encoding, the temporary file
    (with the format of its error), the renaming. The temporary file is removed
    when anything failed. *)
Record config_faults := mkConfigFaults {
  cf_mkdir : option error;
  cf_temp : option (string * error);
  cf_rename : option error;
}.
Definition no_config_faults : config_faults := mkConfigFaults None None None.
Definition SaveConfig (path dir : string) (c : Config) (faults : config_faults) (file : option string) : option error * option string :=
  match unsealed c with
  | Some e => (Some e, file)
  | None =>
    match cf_mkdir faults with
    | Some e => (Some (EWrap (Sprintf "create config directory %s: %w" [AStr dir; AText (Error e)]) e), file)
    | None =>
      match yaml_EncodeConfig c with
      | inl e => (Some (EWrap (Sprintf "encode config: %w" [AText (Error e)]) e), file)
      | inr data =>
        match cf_temp faults with
        | Some (what, e) => (Some (EWrap (Sprintf what [AText (Error e)]) e), file)
        | None =>
          match cf_rename faults with
          | Some e => (Some (EWrap (Sprintf "replace config file %s: %w" [AStr path; AText (Error e)]) e), file)
          | None => (None, Some data)
          end
        end
      end
    end
  end.
End Validation.

(** * What the configuration promises

    Validation accepts exactly the configurations that are well formed, the lists
    of providers and of channels behave as maps, what is sealed is read back, and
    no secret is ever written in the clear. *)

(** ** Lists with a key are maps *)

Section Keyed.
Context {A : Type} (key : A -> string).

Lemma keyed_cons id a l : keyed key id (a :: l) = if bool_decide (key a = id) then Some a else keyed key id l.
Proof. done. Qed.
Lemma keyed_key id l a : keyed key id l = Some a -> key a = id.
Proof. intros E. apply List.find_some in E as [_ E]. by apply bool_decide_eq_true in E. Qed.
Lemma keyed_alter f id j l : (forall a, key (f a) = key a) ->
  keyed key j (alter_first key f id l) = if bool_decide (j = id) then f <$> keyed key j l else keyed key j l.
Proof.
  intros Hf. induction l as [|a l IH]; [by case_bool_decide|]. cbn [alter_first]. destruct (bool_decide_reflect (key a = id)) as [Ha|Ha].
  - rewrite !keyed_cons, Hf. destruct (bool_decide_reflect (j = id)) as [Hj|Hj]; case_bool_decide as Hk; try done; congruence.
  - rewrite !keyed_cons, IH. destruct (bool_decide_reflect (key a = j)), (bool_decide_reflect (j = id)); congruence.
Qed.
Lemma keyed_alter_const a j l : is_Some (keyed key (key a) l) ->
  keyed key j (alter_first key (fun _ => a) (key a) l) = if bool_decide (j = key a) then Some a else keyed key j l.
Proof.
  induction l as [|b l IH]; [by intros [? ?]|]. rewrite keyed_cons. cbn [alter_first]. destruct (bool_decide_reflect (key b = key a)) as [Hb|Hb].
  - intros _. rewrite !keyed_cons, Hb. by case_bool_decide as H1; case_bool_decide as H2; congruence.
  - intros Hl. rewrite !keyed_cons, (IH Hl). destruct (bool_decide_reflect (key b = j)), (bool_decide_reflect (j = key a)); congruence.
Qed.
Lemma keyed_app id l1 l2 : keyed key id (l1 ++ l2) = match keyed key id l1 with Some a => Some a | None => keyed key id l2 end.
Proof. induction l1 as [|a l1 IH]; [done|]. rewrite <- app_comm_cons, !keyed_cons, IH. by case_bool_decide. Qed.
Lemma keyed_upsert a j l : keyed key j (upsert key a l) = if bool_decide (j = key a) then Some a else keyed key j l.
Proof.
  unfold upsert. destruct (keyed key (key a) l) eqn:E.
  - apply keyed_alter_const. by rewrite E.
  - rewrite keyed_app, keyed_cons. destruct (bool_decide_reflect (j = key a)) as [->|Hj].
    + rewrite E. by rewrite bool_decide_eq_true_2.
    + destruct (keyed key j l); [done|]. by rewrite bool_decide_eq_false_2.
Qed.
Lemma keys_alter f id l : (forall a, key (f a) = key a) -> map key (alter_first key f id l) = map key l.
Proof. intros Hf. induction l as [|a l IH]; [done|]. cbn. case_bool_decide; cbn; by rewrite ?Hf, ?IH. Qed.
Lemma keys_alter_const a l : map key (alter_first key (fun _ => a) (key a) l) = map key l.
Proof. induction l as [|b l IH]; [done|]. cbn. case_bool_decide as H; cbn; by rewrite ?H, ?IH. Qed.
Lemma keyed_none id l : keyed key id l = None <-> id ∉ map key l.
Proof.
  induction l as [|a l IH]; [split; [intros _; apply not_elem_of_nil|done]|]. rewrite keyed_cons. cbn [map]. rewrite not_elem_of_cons, <- IH.
  case_bool_decide as H; split; [done|intros [? ?]; congruence|intros E; split; congruence|tauto].
Qed.
Lemma upsert_keys a l : NoDup (map key l) -> NoDup (map key (upsert key a l)).
Proof.
  intros Hl. unfold upsert. destruct (keyed key (key a) l) eqn:E; [by rewrite keys_alter_const|].
  rewrite map_app. apply NoDup_app. split_and!; [done| |apply NoDup_singleton]. cbn. apply keyed_none in E.
  intros x Hx ->%list_elem_of_singleton. done.
Qed.
Lemma keyed_remove id j l : NoDup (map key l) -> keyed key j (remove_first key id l) = if bool_decide (j = id) then None else keyed key j l.
Proof.
  induction l as [|a l IH]; [by intros _; case_bool_decide|]. cbn [map remove_first]. rewrite NoDup_cons. intros [Ha Hl].
  destruct (bool_decide_reflect (key a = id)) as [<-|Hid].
  - rewrite keyed_cons. destruct (bool_decide_reflect (j = key a)) as [->|Hj]; [by apply keyed_none|]. by rewrite bool_decide_eq_false_2 by congruence.
  - rewrite !keyed_cons, IH by done. destruct (bool_decide_reflect (key a = j)), (bool_decide_reflect (j = id)); congruence.
Qed.
End Keyed.

(** ** Validation *)

Section Validation.
Context `{AEAD} `{ConfigEnv}.

Record valid_provider (p : Provider) : Prop := {
  vp_kind : prv_Kind p ∈ validKinds;
  vp_roles : Forall (fun r => r ∈ validRoles) (prv_Roles p);
  vp_endpoint : exists scheme host hostname, absolute (prv_Endpoint p) = Some (scheme, host, hostname) /\
    (scheme = "https" \/ scheme = "http");
  vp_range : prv_Kind p = "proxmox" -> prv_TempIDMin p <> 0 -> prv_TempIDMax p <> 0 -> prv_TempIDMin p < prv_TempIDMax p;
}.
Record valid_channel (n : Notification) : Prop := {
  vn_kind : nf_Kind n ∈ notificationKinds;
  vn_url : nf_URL n <> "";
  vn_safe : HasPrefix (nf_URL n) "rlsec:" = true \/ ValidateNotificationURL (nf_URL n) = None;
}.
Record valid_config (c : Config) : Prop := {
  vc_providers : Forall (fun p => prv_ID p <> "" /\ valid_provider p) (cg_Providers c);
  vc_provider_ids : NoDup (map prv_ID (cg_Providers c));
  vc_channels : Forall (fun n => nf_ID n <> "" /\ valid_channel n) (cg_Notifications c);
  vc_channel_ids : NoDup (map nf_ID (cg_Notifications c));
  vc_base : cg_BaseURL c <> "" -> is_Some (absolute (cg_BaseURL c));
  vc_network : df_Network (cg_Defaults c) <> "" ->
    exists n, cg_Networks c !! df_Network (cg_Defaults c) = Some n /\ nw_Isolated n = true;
}.

(** Nothing is read of the empty URL, which is not an error. *)
Lemma absolute_empty : url_Parts "" = Some ("", "", "") -> absolute "" = None.
Proof. unfold absolute. by intros ->. Qed.

Lemma concat_nil {A} (l : list (list A)) : concat l = [] <-> Forall (fun x => x = []) l.
Proof.
  induction l as [|x l IH]; [split; [by constructor|done]|]. cbn. rewrite app_nil, IH. split.
  - intros [-> Hl]. by constructor.
  - intros Hl. by inversion Hl.
Qed.

Lemma validate_provider_nil i p : url_Parts "" = Some ("", "", "") -> validate_provider i p = [] <-> valid_provider p.
Proof.
  intros Hempty. unfold validate_provider. rewrite !app_nil, !note_nil, concat_nil, Forall_map, negb_false_iff, bool_decide_eq_true.
  assert (forall e : option (string * string * string), (exists scheme host hostname, e = Some (scheme, host, hostname) /\ (scheme = "https" \/ scheme = "http")) <->
    match e with Some (scheme, _, _) => scheme ∈ ["https"; "http"] | None => False end) as Hscheme.
  { intros [[[scheme host] hostname]|]; [|split; [by intros (? & ? & ? & ? & _)|done]]. split.
    - intros (? & ? & ? & [= -> -> ->] & [->| ->]); repeat constructor.
    - intros Hs. eexists _, _, _. split; [done|]. apply elem_of_cons in Hs as [->|Hs]; [by left|apply list_elem_of_singleton in Hs; by right]. }
  assert (forall i, (if negb (nonempty (prv_Endpoint p)) then [Sprintf "providers[%d] (%s): endpoint is required" [AInt i; AStr (prv_ID p)]]
      else match absolute (prv_Endpoint p) with
           | None => [Sprintf "providers[%d] (%s): endpoint %q is not a valid URL" [AInt i; AStr (prv_ID p); AStr (prv_Endpoint p)]]
           | Some (scheme, _, _) => note (negb (bool_decide (scheme ∈ ["https"; "http"])))
               (Sprintf "providers[%d] (%s): endpoint scheme %q must be http or https" [AInt i; AStr (prv_ID p); AStr scheme])
           end) = [] <-> exists scheme host hostname, absolute (prv_Endpoint p) = Some (scheme, host, hostname) /\ (scheme = "https" \/ scheme = "http")) as Hend.
  { intros j. rewrite Hscheme. destruct (nonempty (prv_Endpoint p)) eqn:Hn; cbn [negb].
    - destruct (absolute _) as [[[scheme ?] ?]|]; [|done]. by rewrite note_nil, negb_false_iff, bool_decide_eq_true.
    - apply nonempty_false in Hn. rewrite Hn, (absolute_empty Hempty). done. }
  rewrite Hend, !andb_false_iff, !negb_false_iff, bool_decide_eq_false. split.
  - intros (Hk & Hr & He & Hrange). constructor; [done| |done|].
    + eapply Forall_impl; [exact Hr|]. intros r. by rewrite note_nil, negb_false_iff, bool_decide_eq_true.
    + intros E ? ?. destruct Hrange as [[[?|?]|?]|?]; [done|lia..].
  - intros [Hk Hr He Hrange]. split_and!; [done| |done|].
    + eapply Forall_impl; [exact Hr|]. intros r. by rewrite note_nil, negb_false_iff, bool_decide_eq_true.
    + destruct (decide (prv_Kind p = "proxmox")) as [E|]; [|by left; left; left]. specialize (Hrange E).
      destruct (Z.eq_dec (prv_TempIDMin p) 0) as [->|]; [by left; left; right|].
      destruct (Z.eq_dec (prv_TempIDMax p) 0) as [->|]; [by left; right|]. right. apply Z.leb_gt. lia.
Qed.

Lemma validate_channel_nil i n : validate_channel i n = [] <-> valid_channel n.
Proof.
  unfold validate_channel, isNotificationKind. rewrite app_nil, note_nil, negb_false_iff, bool_decide_eq_true.
  destruct (nonempty (nf_URL n)) eqn:Hn; cbn [negb].
  2: { apply nonempty_false in Hn. split; [by intros []|intros []; done]. }
  apply nonempty_spec in Hn. destruct (HasPrefix _ "rlsec:") eqn:Hp; [|destruct (ValidateNotificationURL _) eqn:Hv]; split.
  - intros [? _]. constructor; [done..|by left].
  - by intros [].
  - by intros [].
  - intros [_ _ [|]]; congruence.
  - intros [? _]. constructor; [done..|by right].
  - by intros [].
Qed.

Lemma validate_all_nil {A} what noun (key : A -> string) f (P : A -> Prop) l :
  (forall i a, f i a = [] <-> P a) -> forall i seen,
  validate_all what noun key f i l seen = [] <->
  Forall (fun a => key a <> "" /\ P a) l /\ NoDup (map key l) /\ (forall a, a ∈ l -> key a ∉ seen).
Proof.
  intros Hf. induction l as [|a l IH]; intros i seen; cbn [validate_all map].
  { split; [intros _; split_and!; [constructor|constructor|by intros a ?%elem_of_nil]|done]. }
  unfold validate_id. destruct (nonempty (key a)) eqn:Hn; cbn [negb].
  2: { apply nonempty_false in Hn. split; [done|]. intros (Hl & _). inversion Hl as [|? ? [? _]]. congruence. }
  apply nonempty_spec in Hn. case_bool_decide as Hseen.
  { split; [done|]. intros (_ & _ & Hs). by destruct (Hs a); [left|]. }
  cbn [app]. rewrite app_nil, Hf, IH, Forall_cons, NoDup_cons. split.
  - intros (HP & Hl & Hd & Hs). split_and!; [done..| |done|].
    + intros (b & E & Hin)%list_elem_of_fmap. apply (Hs b Hin). rewrite <- E. by left.
    + intros b [->|Hin]%elem_of_cons; [done|]. intros Hb. apply (Hs b Hin). by right.
  - intros ([[_ HP] Hl] & [Hna Hd] & Hs). split_and!; [done..|].
    intros b Hin [E|Hb]%elem_of_cons; [|by apply (Hs b); [right|]]. apply Hna. rewrite <- E. by apply list_elem_of_fmap_2.
Qed.

(** The validation of a configuration is sound and complete: it answers nil for
    exactly those whose providers and channels are identified and supported, whose
    webhooks are sealed or safe to post to, whose reserved ranges are not empty, and
    whose default network is declared isolated. *)
Theorem ValidateConfig_spec c : url_Parts "" = Some ("", "", "") -> ValidateConfig c = None <-> valid_config c.
Proof.
  intros Hempty. assert (ValidateConfig c = None <-> config_errors c = []) as -> by (unfold ValidateConfig; by destruct (config_errors c)).
  unfold config_errors. rewrite !app_nil, note_nil, andb_false_iff, negb_false_iff,
    (validate_all_nil _ _ _ _ valid_provider _ (fun i p => validate_provider_nil i p Hempty)),
    (validate_all_nil _ _ _ _ valid_channel _ validate_channel_nil).
  assert (validate_network c = [] <-> (df_Network (cg_Defaults c) <> "" ->
    exists n, cg_Networks c !! df_Network (cg_Defaults c) = Some n /\ nw_Isolated n = true)) as ->.
  { unfold validate_network. destruct (nonempty _) eqn:Hn; cbn [negb].
    - apply nonempty_spec in Hn. destruct (cg_Networks c !! _) as [n|]; [|split; [done|intros Hx; by destruct (Hx Hn) as (? & ? & _)]].
      rewrite note_nil, negb_false_iff. split; [intros E _; by exists n|]. intros Hx. by destruct (Hx Hn) as (? & [= <-] & ?).
    - apply nonempty_false in Hn. split; [done|]. done. }
  split.
  - intros ((Hp & Hpd & _) & (Hn & Hnd & _) & Hb & Hnet). constructor; try done.
    intros Hbase. destruct Hb as [Hb|Hb]; [by apply nonempty_false in Hb|]. destruct (absolute (cg_BaseURL c)) as [x|]; [by exists x|done].
  - intros [Hp Hpd Hn Hnd Hb Hnet]. split_and!; try done; try (intros a _; apply not_elem_of_nil).
    destruct (nonempty (cg_BaseURL c)) eqn:Hne; [right|by left]. apply nonempty_spec in Hne. destruct (Hb Hne) as [x ->]. done.
Qed.
End Validation.

(** ** Secrets *)

Section Secrets.
Context `{AEADLaws} `{ConfigEnv}.

Definition sealed_or_absent (s : string) : Prop := s = "" \/ IsSealed s = true.
Record secrets_sealed (c : Config) : Prop := {
  sealed_tokens : Forall (fun p => sealed_or_absent (prv_TokenSecret p)) (cg_Providers c);
  sealed_urls : Forall (fun n => sealed_or_absent (nf_URL n)) (cg_Notifications c);
}.

Lemma find_None {A} (f : A -> bool) l : List.find f l = None <-> Forall (fun a => f a = false) l.
Proof.
  induction l as [|a l IH]; [split; [by constructor|done]|]. cbn. rewrite Forall_cons. destruct (f a); [split; [done|by intros [? _]]|].
  rewrite IH. tauto.
Qed.
Lemma unsealed_spec c : unsealed c = None <-> secrets_sealed c.
Proof.
  assert (forall s, nonempty s && negb (IsSealed s) = false <-> sealed_or_absent s) as Hs.
  { intros s. unfold sealed_or_absent. rewrite andb_false_iff, negb_false_iff, nonempty_false. done. }
  unfold unsealed. destruct (List.find _ (cg_Providers c)) as [p|] eqn:Ep.
  { split; [done|]. intros [Hp _]. apply List.find_some in Ep as [Hin Ep]. rewrite Forall_forall in Hp.
    apply list_elem_of_In, Hp, Hs in Hin. congruence. }
  apply find_None in Ep. destruct (List.find _ (cg_Notifications c)) as [n|] eqn:En.
  { split; [done|]. intros [_ Hn]. apply List.find_some in En as [Hin En]. rewrite Forall_forall in Hn.
    apply list_elem_of_In, Hn, Hs in Hin. congruence. }
  apply find_None in En. split; [|done]. intros _. split; eapply Forall_impl; try done; intros x Hx; by apply Hs.
Qed.

Lemma SaveConfig_cases path dir c faults file :
  let '(err, file') := SaveConfig path dir c faults file in
  (err <> None /\ file' = file) \/
  (err = None /\ secrets_sealed c /\ exists data, yaml_EncodeConfig c = inr data /\ file' = Some data).
Proof.
  unfold SaveConfig. destruct (unsealed c) eqn:Hu; [by left|]. apply unsealed_spec in Hu.
  destruct (cf_mkdir faults); [by left|]. destruct (yaml_EncodeConfig c) as [|data]; [by left|].
  destruct (cf_temp faults) as [[]|]; [by left|]. destruct (cf_rename faults); [by left|]. right. split_and!; [done..|by exists data].
Qed.

(** No secret is written in the clear, and no half of a configuration either.
    Whatever fails, saving leaves the file as it was and says so, or replaces it
    with the whole configuration, every token and every webhook of which is
    sealed. *)
Theorem SaveConfig_sealed path dir c faults file :
  let '(err, file') := SaveConfig path dir c faults file in
  (err <> None /\ file' = file) \/
  (err = None /\ secrets_sealed c /\ exists data, yaml_EncodeConfig c = inr data /\ file' = Some data).
Proof. exact (SaveConfig_cases path dir c faults file). Qed.

Lemma channel_of_set id f c j : (forall n, nf_ID (f n) = nf_ID n) ->
  channel_of j (set_Notifications (alter_first nf_ID f id (cg_Notifications c)) c) =
    if bool_decide (j = id) then on_ok f (channel_of j c) else channel_of j c.
Proof.
  intros Hf. unfold channel_of. cbn [cg_Notifications set_Notifications]. rewrite keyed_alter by done.
  destruct (bool_decide_reflect (j = id)); [|done]. by destruct (keyed nf_ID j _).
Qed.

Lemma SetNotificationURL_cases id url nonce k c :
  (exists e, SetNotificationURL id url nonce k c = (Some e, c)) \/
  exists n, channel_of id c = inr n /\ ValidateNotificationURL url = None /\ exists bytes sealed, nonce = inr bytes /\ Seal nonce k url = inr sealed /\
    SetNotificationURL id url nonce k c = (None, set_Notifications (alter_first nf_ID (with_url sealed) id (cg_Notifications c)) c).
Proof.
  unfold SetNotificationURL. destruct (channel_of id c) as [e|n]; [by left; exists e|].
  destruct (ValidateNotificationURL url); [left; by eexists|]. destruct nonce as [e|bytes]; [left; by eexists|].
  right. exists n. split_and!; [done|done|]. eexists bytes, _. split_and!; done.
Qed.

(** A webhook is sealed on the way in and read back on the way out. Setting a
    channel's URL either changes nothing, or keeps the channel's name, kind and
    state, stores a sealed value that opens to that URL, and leaves every other
    channel alone. *)
Theorem webhook_roundtrip id url bytes k c c' :
  String.length bytes = nonceSize -> SetNotificationURL id url (inr bytes) k c = (None, c') ->
  exists n n', channel_of id c = inr n /\ channel_of id c' = inr n' /\
    nf_ID n' = id /\ nf_Kind n' = nf_Kind n /\ nf_Enabled n' = nf_Enabled n /\
    IsSealed (nf_URL n') = true /\ Target k n' = inr url /\ ValidateNotificationURL url = None /\
    (forall j, j <> id -> channel_of j c' = channel_of j c) /\ (secrets_sealed c -> secrets_sealed c').
Proof.
  intros Hb E. destruct (SetNotificationURL_cases id url (inr bytes) k c) as [(e & E')|(n & En & Hv & b & sealed & [= <-] & Hs & E')];
    rewrite E in E'; [done|]. injection E' as ->. destruct (Seal_opens _ _ _ _ Hs Hb) as [Hsealed Hopen].
  exists n, (with_url sealed n). rewrite channel_of_set, bool_decide_eq_true_2, En by done.
  split_and!; try done.
  - unfold channel_of in En. destruct (keyed nf_ID id _) as [n0|] eqn:Ek; [|done]. injection En as <-. by apply keyed_key in Ek.
  - unfold Target. cbn [nf_URL with_url]. by rewrite Hsealed, Hopen.
  - intros j Hj. by rewrite channel_of_set, bool_decide_eq_false_2 by done.
  - intros [Ht Hu]. split; [done|]. cbn. clear -Hu Hsealed. induction Hu as [|m l Hm Hl IH]; [constructor|]. cbn.
    case_bool_decide; constructor; try done. by right.
Qed.
End Secrets.

(** ** A configuration *)

Module Lab.
Import Sealed.
(** A reader of URLs of one host. *)
#[export] Instance paths : ConfigEnv := {|
  url_Parts s := if HasPrefix s "https://" then Some ("https", "hooks.lab", "hooks.lab") else if nonempty s then None else Some ("", "", "");
  ip_Loopback _ := false;
  yaml_EncodeConfig c := inr (Join "," (map (fun n => nf_ID n +:+ "=" +:+ nf_URL n) (cg_Notifications c)));
  yaml_DecodeConfig _ := inl (ENew (Lit "yaml"));
|}.
Definition pve (min max : Z) : Provider :=
  mkProvider "pve" "proxmox" ["hypervisor"; "backup"] "https://pve.lab" "root@pam!lab" "" false "" "" "" "" "" min max "" "".
Definition lab (min max : Z) : Config := set_Notifications [mkNotification "ops" "slack" "https://hooks.lab/T0/B0" None] (set_Providers [pve min max] NewConfig).

Lemma ValidateConfig_spec_witness :
  (ValidateConfig (lab 9000 9099) = None <-> valid_config (lab 9000 9099)) /\ ValidateConfig (lab 9000 9099) = None /\
  ValidateConfig (lab 9000 9000) <> None.
Proof. split; [apply (ValidateConfig_spec (lab 9000 9099)); reflexivity|]. split; [vm_compute; reflexivity|vm_compute; discriminate]. Defined.

Lemma webhook_roundtrip_witness :
  let c' := (SetNotificationURL "ops" "https://hooks.lab/T1/B1" (inr nonce) key (lab 9000 9099)).2 in
  exists n n', channel_of "ops" (lab 9000 9099) = inr n /\ channel_of "ops" c' = inr n' /\
    nf_ID n' = "ops" /\ nf_Kind n' = nf_Kind n /\ nf_Enabled n' = nf_Enabled n /\
    IsSealed (nf_URL n') = true /\ Target key n' = inr "https://hooks.lab/T1/B1" /\ ValidateNotificationURL "https://hooks.lab/T1/B1" = None /\
    (forall j, j <> "ops" -> channel_of j c' = channel_of j (lab 9000 9099)) /\ (secrets_sealed (lab 9000 9099) -> secrets_sealed c').
Proof. apply (webhook_roundtrip "ops" "https://hooks.lab/T1/B1" nonce key (lab 9000 9099)); reflexivity. Defined.
End Lab.
