(* ===== verification/Channels.v ===== *)
(** * The channels of a running server

    Models [cliNotifications] of internal/cli/notify.go, with [config] of root.go:
    the configuration that a server keeps in memory and on disk, and what the API
    and the dispatcher see of its notification channels. *)

From Stdlib Require Import ZArith Lia String Ascii List.
From stdpp Require Import strings.
From S2P Require Import Prelude GoTime Errors Core GoString Base64 Secrets Plan Config.

(** [api.NotificationChannel]: a channel without its URL. *)
Record NotificationChannel := mkNotificationChannel {
  nc_ID : string;
  nc_Kind : string;
  nc_Host : string;
  nc_Enabled : bool;
}.

(** The configuration in memory, once it was loaded, and the file. *)
Record Cli := mkCli { cl_cfg : option Config; cl_file : option string; cl_time : nat }.
Definition set_cl_cfg (c : Config) (s : Cli) : Cli := mkCli (Some c) (cl_file s) (cl_time s).
Definition set_cl_file (f : option string) (s : Cli) : Cli := mkCli (cl_cfg s) f (S (cl_time s)).

(** The master key, the paths of the file, and in order: the nonces read, and what
    fails of writing the file. *)
Class CliEnv := {
  cli_key : error + Key;
  cli_path : string;
  cli_dir : string;
  cli_nonce : nat -> error + string;
  cli_faults : nat -> config_faults;
}.

Section Channels.
Context `{AEAD} `{ConfigEnv} `{CliEnv}.
Abbreviation CM := (M Cli).

(** [app.config]. *)
Definition load_error_of (e : load_error) : error :=
  match e with
  | ConfigNotFound path => EWrap (Sprintf "%w: %s" [AStr "config file not found"; AStr path]) (ENew (Lit "config file not found"))
  | LoadFailed e => e
  end.
Definition app_config : CM (error + Config) := fun s =>
  match cl_cfg s with
  | Some c => (Ret (inr c), s)
  | None =>
    match Load cli_path (match cl_file s with Some data => Contents data | None => NotExist end) with
    | inl e => (Ret (inl (load_error_of e)), s)
    | inr c => (Ret (inr c), set_cl_cfg c s)
    end
  end.

(** [channelHost]. *)
Definition channelHost (n : Notification) (key : Key) : string :=
  match Target key n with
  | inl _ => ""
  | inr target => match url_Parts target with Some (_, host, _) => host | None => "" end
  end.
(** [Channels], of a configuration that was read. *)
Definition channel_view (n : Notification) : NotificationChannel :=
  mkNotificationChannel (nf_ID n) (nf_Kind n) (match cli_key with inr key => channelHost n key | inl _ => "" end) (On n).
Definition Channels : CM (list NotificationChannel) :=
  cfg ← app_config;
  mret (match cfg with inl _ => [] | inr c => map channel_view (cg_Notifications c) end).

(** [configured]: what the dispatcher reads at every tick. *)
Definition configured : CM (list Notification) :=
  cfg ← app_config;
  mret (match cfg with inl _ => [] | inr c => cg_Notifications c end).

(** The configuration written, and validated before. *)
Definition write_config (c : Config) : CM (option error) := fun s =>
  let '(err, file) := SaveConfig cli_path cli_dir c (cli_faults (cl_time s)) (cl_file s) in (Ret err, set_cl_file file s).
Definition persist (c : Config) : CM (option error) :=
  match ValidateConfig c with Some e => mret (Some e) | None => write_config c end.
Definition read_nonce : CM (error + string) := fun s => (Ret (cli_nonce (cl_time s)), mkCli (cl_cfg s) (cl_file s) (S (cl_time s))).

(** [storedNotification]. *)
Definition storedNotification (c : Config) (id : string) : error + Notification :=
  match channel_of id c with
  | inl _ => inl (ENew (Sprintf "channel %q does not exist yet, so there is no stored url to keep: send one" [AStr id]))
  | inr n => inr n
  end.

(** [Save]: the configuration in memory is changed first. *)
Definition SaveChannel (ch : NotificationChannel) (target : string) : CM (option error) :=
  cfg ← app_config;
  match cfg with
  | inl e => mret (Some e)
  | inr cfg =>
    match cli_key with
    | inl e => mret (Some e)
    | inr key =>
      let entry url := mkNotification (nc_ID ch) (nc_Kind ch) url (Some (nc_Enabled ch)) in
      if nonempty target then
        let cfg := UpsertNotification (entry "") cfg in
        _ ← modify (set_cl_cfg cfg);
        nonce ← read_nonce;
        let '(err, cfg) := SetNotificationURL (nc_ID ch) target nonce key cfg in
        _ ← modify (set_cl_cfg cfg);
        match err with Some e => mret (Some e) | None => persist cfg end
      else
        match storedNotification cfg (nc_ID ch) with
        | inl e => mret (Some e)
        | inr stored =>
          let cfg := UpsertNotification (entry (nf_URL stored)) cfg in
          _ ← modify (set_cl_cfg cfg);
          persist cfg
        end
    end
  end.

(** [Remove]: the configuration in memory is changed first; it is not validated. *)
Definition RemoveChannel (id : string) : CM (option error) :=
  cfg ← app_config;
  match cfg with
  | inl e => mret (Some e)
  | inr cfg =>
    match RemoveNotification id cfg with
    | inl e => mret (Some e)
    | inr cfg =>
      _ ← modify (set_cl_cfg cfg);
      write_config cfg
    end
  end.

(** [Target]. *)
Definition ChannelTarget (id : string) : CM (error + string) :=
  cfg ← app_config;
  match cfg with
  | inl e => mret (inl e)
  | inr cfg =>
    match cli_key with
    | inl e => mret (inl e)
    | inr key => mret (match channel_of id cfg with inl e => inl e | inr n => Target key n end)
    end
  end.
End Channels.

(** ** What an edit does *)

Section Edits.
Context `{AEADLaws} `{ConfigEnv} `{CliEnv}.

Lemma channel_of_upsert n j c :
  channel_of j (UpsertNotification n c) = if bool_decide (j = nf_ID n) then inr n else channel_of j c.
Proof. unfold channel_of, UpsertNotification. cbn [cg_Notifications set_Notifications]. rewrite keyed_upsert. by case_bool_decide. Qed.

(** What is on disk is what is in memory, valid and sealed. *)
Definition persisted (c : Config) (s : Cli) : Prop :=
  cl_cfg s = Some c /\ ValidateConfig c = None /\ secrets_sealed c /\ exists data, yaml_EncodeConfig c = inr data /\ cl_file s = Some data.

Lemma persist_cases c s : cl_cfg s = Some c ->
  exists r s', persist c s = (Ret r, s') /\ cl_cfg s' = Some c /\
    match r with Some _ => cl_file s' = cl_file s | None => persisted c s' end.
Proof.
  intros Hc. unfold persist. destruct (ValidateConfig c) eqn:Hv; [by eexists (Some _), s|].
  unfold write_config. pose proof (SaveConfig_cases cli_path cli_dir c (cli_faults (cl_time s)) (cl_file s)) as Hs.
  destruct (SaveConfig _ _ _ _ _) as [err file]. eexists err, _. split; [done|]. split; [done|].
  destruct Hs as [[Herr ->]|(-> & Hsealed & data & Hd & ->)]; [by destruct err|]. split_and!; try done. by exists data.
Qed.

(** What became of a channel that was edited: its kind and its state are those asked
    for, its webhook the new one or, when none was given, the one it had. *)
Definition edited (ch : NotificationChannel) (target : string) (k : Key) (c c' : Config) : Prop :=
  (exists n, channel_of (nc_ID ch) c' = inr n /\ nf_Kind n = nc_Kind ch /\ On n = nc_Enabled ch /\
    (if nonempty target then Target k n = inr target /\ ValidateNotificationURL target = None
     else exists old, channel_of (nc_ID ch) c = inr old /\ nf_URL n = nf_URL old)) /\
  (forall j, j <> nc_ID ch -> channel_of j c' = channel_of j c).

(** Editing a channel loses nothing. When it succeeds, the channel has the kind
    and the state asked for, posts to the webhook that was given or else to the one
    it had, every other channel is as it was, and the file holds the configuration
    in memory, valid and with every secret sealed; when it fails, the file is as it
    was. *)
Theorem SaveChannel_spec ch target k c s :
  cl_cfg s = Some c -> cli_key = inr k -> (forall t b, cli_nonce t = inr b -> String.length b = nonceSize) ->
  exists r s', SaveChannel ch target s = (Ret r, s') /\
    match r with
    | Some _ => cl_file s' = cl_file s
    | None => exists c', persisted c' s' /\ edited ch target k c c'
    end.
Proof.
  intros Hc Hk Hn. unfold SaveChannel. assert (app_config s = (Ret (inr c), s)) as Hcfg by (unfold app_config; by rewrite Hc).
  rewrite (bind_Ret _ _ _ _ _ Hcfg), Hk.
  destruct (nonempty target) eqn:Ht.
  - set (entry := mkNotification (nc_ID ch) (nc_Kind ch) "" (Some (nc_Enabled ch))). set (c1 := UpsertNotification entry c).
    rewrite (bind_Ret (modify (set_cl_cfg c1)) _ s tt (set_cl_cfg c1 s) eq_refl). set (s1 := set_cl_cfg c1 s).
    set (s2 := mkCli (cl_cfg s1) (cl_file s1) (S (cl_time s1))).
    rewrite (bind_Ret read_nonce _ s1 (cli_nonce (cl_time s)) s2 eq_refl).
    destruct (SetNotificationURL_cases (nc_ID ch) target (cli_nonce (cl_time s)) k c1)
      as [(e & ->)|(n & En & Hv & b & sealed & Hb & Hs & ->)].
    + rewrite (bind_Ret (modify (set_cl_cfg c1)) _ s2 tt (set_cl_cfg c1 s2) eq_refl). by eexists (Some e), _.
    + unfold c1 in En. rewrite channel_of_upsert, bool_decide_eq_true_2 in En by done. injection En as <-.
      set (c2 := set_Notifications _ c1). rewrite (bind_Ret (modify (set_cl_cfg c2)) _ s2 tt (set_cl_cfg c2 s2) eq_refl).
      destruct (persist_cases c2 (set_cl_cfg c2 s2) eq_refl) as (r & s' & E & Hc' & Hr). exists r, s'. split; [exact E|].
      destruct r; [exact Hr|]. exists c2. split; [exact Hr|]. rewrite Hb in Hs. destruct (Seal_opens _ _ _ _ Hs (Hn _ _ Hb)) as [Hse Ho].
      split.
      * exists (with_url sealed entry). unfold c2. rewrite channel_of_set, bool_decide_eq_true_2 by done.
        unfold c1. rewrite channel_of_upsert, bool_decide_eq_true_2, Ht by done. split_and!; try done.
        unfold Target. cbn [nf_URL with_url]. by rewrite Hse, Ho.
      * intros j Hj. unfold c2. rewrite channel_of_set, bool_decide_eq_false_2 by done. unfold c1.
        by rewrite channel_of_upsert, bool_decide_eq_false_2.
  - unfold storedNotification. destruct (channel_of (nc_ID ch) c) as [e|old] eqn:Ho; [by eexists (Some _), s|].
    set (c1 := UpsertNotification (mkNotification (nc_ID ch) (nc_Kind ch) (nf_URL old) (Some (nc_Enabled ch))) c).
    rewrite (bind_Ret (modify (set_cl_cfg c1)) _ s tt (set_cl_cfg c1 s) eq_refl).
    destruct (persist_cases c1 (set_cl_cfg c1 s) eq_refl) as (r & s' & E & Hc' & Hr). exists r, s'. split; [exact E|].
    destruct r; [exact Hr|]. exists c1. split; [exact Hr|]. unfold edited, c1. rewrite Ht. split.
    + eexists. rewrite channel_of_upsert, bool_decide_eq_true_2 by done. split_and!; [done..|]. by exists old.
    + intros j Hj. by rewrite channel_of_upsert, bool_decide_eq_false_2.
Qed.
End Edits.

(** ** A refused edit *)

Module Edits.
Import Sealed Config.Lab.
(** A server whose disk is full from its second write on. *)
#[local] Instance server : CliEnv := {|
  cli_key := inr key;
  cli_path := "config.yaml";
  cli_dir := "/etc";
  cli_nonce _ := inr nonce;
  cli_faults t := if (t <? 2)%nat then no_config_faults else mkConfigFaults None (Some ("write temp config file: %w", ENew (Lit "no space left"))) None;
|}.
Definition before : Cli := mkCli (Some NewConfig) None 0.
Definition hooked : Cli := (SaveChannel (mkNotificationChannel "ops" "slack" "" true) "https://hooks.lab/T0/B0" before).2.
Definition names (s : Cli) : list (string * string) := match (Channels s).1 with Ret l => map (fun c => (nc_ID c, nc_Host c)) l | _ => [] end.

Lemma SaveChannel_spec_witness :
  exists r s', SaveChannel (mkNotificationChannel "ops" "slack" "" true) "https://hooks.lab/T0/B0" before = (Ret r, s') /\
    match r with
    | Some _ => cl_file s' = cl_file before
    | None => exists c', persisted c' s' /\ edited (mkNotificationChannel "ops" "slack" "" true) "https://hooks.lab/T0/B0" key NewConfig c'
    end.
Proof.
  apply (SaveChannel_spec (mkNotificationChannel "ops" "slack" "" true) "https://hooks.lab/T0/B0" key NewConfig before);
    [reflexivity|reflexivity|]. intros t b E. injection E as <-. reflexivity.
Defined.

Example a_channel_added : (ChannelTarget "ops" hooked).1 = Ret (inr "https://hooks.lab/T0/B0") /\ names hooked = [("ops", "hooks.lab")].
Proof. vm_compute. split; reflexivity. Qed.

(** The edit is refused, the file is as it was, and the channel is live: the API
    lists it and the dispatcher posts to it until the server restarts. *)
Example refused_and_live :
  let '(r, s) := SaveChannel (mkNotificationChannel "spy" "webhook" "" true) "https://evil.lab/x" hooked in
  (match r with Ret (Some _) => true | _ => false end) = true /\ cl_file s = cl_file hooked /\
  names s = [("ops", "hooks.lab"); ("spy", "hooks.lab")].
Proof. vm_compute. split_and!; reflexivity. Qed.
(** Removed from memory only, too. *)
Example removed_until_restart :
  let '(r, s) := RemoveChannel "ops" hooked in
  (match r with Ret (Some _) => true | _ => false end) = true /\ cl_file s = cl_file hooked /\ names s = [].
Proof. vm_compute. split_and!; reflexivity. Qed.
End Edits.
