(* ===== verification/Engine.v ===== *)
(** * The recovery engine: definitions

    Models internal/recovery (engine.go, steps.go, cleanup.go, retry.go,
    naming.go, events.go): the workflow that restores a backup into a temporary
    workload, checks it, grades the run and always cleans up.

    The providers, the check runner, the clock and the context are the
    operations of [EngineEnv] over an abstract world. The engine's own state is
    the run record, the local variables of [Run] its deferred function reads,
    and a trace of everything observable: each event emitted and each provider
    call made, with the context it was made on and how it ended. *)

From Stdlib Require Import ZArith Lia String Ascii List.
From S2P Require Import Prelude GoTime GoFloat Errors Core GoString Plan.

(** ** Step names *)

Definition StepDiscoverBackup := "discover_backup".
Definition StepPrepareEnvironment := "prepare_environment".
Definition StepRestore := "restore".
Definition StepStart := "start".
Definition StepWaitForGuest := "wait_for_guest".
Definition StepRunChecks := "run_checks".
Definition StepCleanup := "cleanup".

(** ** Naming (naming.go) *)

Definition maxTempNameLen : Z := 63.

(** [sanitizeSlug]: the builder [b] and the flag [prevDash] of the loop. *)
Fixpoint slug_loop (s : string) (b : string) (prevDash : bool) : string :=
  match s with
  | EmptyString => b
  | String r s =>
    if is_lower r || is_digit r then slug_loop s (b +:+ String r EmptyString) false
    else if negb prevDash && (0 <? Z.of_nat (String.length b)) then slug_loop s (b +:+ "-") true
    else slug_loop s b prevDash
  end.
Definition sanitizeSlug (s : string) : string := TrimChar "-" (slug_loop (ToLower s) EmptyString false).

Definition slen (s : string) : Z := Z.of_nat (String.length s).

(** [tempWorkloadName]. *)
Definition tempWorkloadName (sourceID : string) (at_ : Z) : string :=
  let slug := sanitizeSlug sourceID in
  let ts := Time.format_compact at_ in
  let name := "restorelab-" +:+ slug +:+ "-" +:+ ts in
  if slen name <=? maxTempNameLen then name else
  let overflow := slen name - maxTempNameLen in
  let slug := if slen slug <=? overflow then EmptyString
              else String.substring 0 (Z.to_nat (slen slug - overflow)) slug in
  let slug := TrimChar "-" slug in
  if nonempty slug then "restorelab-" +:+ slug +:+ "-" +:+ ts
  else "restorelab-" +:+ ts.

(** [workloadMetadata]. *)
Definition MetadataManaged := "restorelab_managed".
Definition MetadataRecoveryRunID := "restorelab_run_id".
Definition MetadataSourceID := "restorelab_source_id".
Definition MetadataCreatedAt := "restorelab_created_at".
Definition workloadMetadata (runID sourceID : string) (at_ : Z) : gmap string string :=
  <[MetadataManaged := "true"]> (<[MetadataRecoveryRunID := runID]>
    (<[MetadataSourceID := sourceID]> (<[MetadataCreatedAt := Time.format_rfc3339 at_]> ∅))).

(** [criticalMap]: later checks overwrite earlier ones of the same name; a
    missing key reads as false. *)
Definition criticalMap (p : Plan) : gmap string bool :=
  fold_left (fun m c => <[DisplayName c := IsCritical c]> m) (pl_Checks p) ∅.
Definition critical_lookup (m : gmap string bool) (name : string) : bool := default false (m !! name).

(** [stepEnd]: the zero time when the step never ran or never finished. *)
Fixpoint stepEnd (steps : list Step) (name : string) : Z :=
  match steps with
  | [] => Time.zero
  | s :: rest =>
    if negb (bool_decide (st_Name s = name)) then stepEnd rest name
    else match st_Status s with
         | StepDone | StepFailed | StepSkipped => st_CompletedAt s
         | _ => stepEnd rest name
         end
  end.

(** [computeRTO]. *)
Definition computeRTO (run : RecoveryRun) (startedAt : Z) : Z :=
  let end_ := stepEnd (run_Steps run) StepRunChecks in
  if negb (Time.IsZero end_) then Time.Sub end_ startedAt else
  let end_ := stepEnd (run_Steps run) StepWaitForGuest in
  if negb (Time.IsZero end_) then Time.Sub end_ startedAt else 0.

Definition checkMessage (r : CheckResult) : text :=
  match cr_Status r with
  | CheckPass => Sprintf "check %q passed" [AStr (cr_Name r)]
  | CheckSkipped => Sprintf "check %q skipped" [AStr (cr_Name r)]
  | CheckError =>
    if negb (text_empty (cr_Message r))
    then Sprintf "check %q could not run: %s" [AStr (cr_Name r); AText (cr_Message r)]
    else Sprintf "check %q could not run" [AStr (cr_Name r)]
  | CheckFail =>
    if negb (text_empty (cr_Message r))
    then Sprintf "check %q failed: %s" [AStr (cr_Name r); AText (cr_Message r)]
    else Sprintf "check %q failed" [AStr (cr_Name r)]
  end.

Definition stepStatusForCheck (s : CheckStatus) : StepStatus :=
  match s with CheckPass => StepDone | CheckSkipped => StepSkipped | _ => StepFailed end.

Definition humanStepStart (name : string) : string :=
  if bool_decide (name = StepDiscoverBackup) then "Looking for a backup to restore"
  else if bool_decide (name = StepPrepareEnvironment) then "Preparing the isolated restore environment"
  else if bool_decide (name = StepRestore) then "Restoring backup into a temporary workload"
  else if bool_decide (name = StepStart) then "Starting the restored workload"
  else if bool_decide (name = StepWaitForGuest) then "Waiting for the guest to come up"
  else if bool_decide (name = StepRunChecks) then "Running checks"
  else if bool_decide (name = StepCleanup) then "Cleaning up the temporary workload"
  else name.

(** ** Events (events.go) *)

Record Event := mkEvent {
  ev_RunID : string;
  ev_At : Z;
  ev_State : RunState;
  ev_Step : string;
  ev_Status : StepStatus;
  ev_Message : text;
  ev_Check : option CheckResult;
  ev_Err : text;
  ev_TempWorkloadID : string;
  ev_Node : string;
}.

(** [eventFor] followed by the assignments every emit makes. *)
Definition eventFor (run : RecoveryRun) (at_ : Z) (state : RunState) (step : string)
    (status : StepStatus) (message : text) (check : option CheckResult) (err : text) : Event :=
  mkEvent (run_ID run) at_ state step status message check err (run_TempWorkloadID run) (run_Node run).

(** ** The engine's surroundings *)

(** The run's own context, or the detached one cleanup builds for itself. *)
Inductive ctxkind := CtxRun | CtxDetached.

#[export] Instance ctxkind_eq_dec : EqDecision ctxkind.
Proof. solve_decision. Defined.

Record Target := mkTarget {
  tg_IP : string;
  tg_IPs : list string;
  tg_WorkloadID : string;
  tg_Node : string;
  tg_Name : string;
  tg_Exec : bool;        (* whether an in-guest executor is attached *)
  tg_Baseline : bool;    (* whether a history reader is attached *)
}.

(** The dependencies of [Deps] and the optional capabilities a provider may
    implement. A nil pointer with a nil error is [inr None]. *)
Class EngineEnv (W : Type) := {
  hv_ID : string;
  backups_ID : string;
  hv_GetWorkload : ctxkind -> string -> M W (error + option Workload);
  hv_GetStatus : ctxkind -> string -> M W (error + option WorkloadStatus);
  hv_AllocateWorkloadID : ctxkind -> M W (error + string);
  hv_Restore : ctxkind -> Backup -> RestoreOptions -> M W (error + option RestoreJob);
  hv_WaitForJob : ctxkind -> option RestoreJob -> M W (error + option TaskState);
  hv_Start : ctxkind -> string -> M W (error + unit);
  hv_Stop : ctxkind -> string -> M W (error + unit);
  hv_Delete : ctxkind -> string -> M W (error + unit);
  hv_NetworkValidator : option (ctxkind -> string -> NetworkConfig -> M W (error + unit));
  hv_CapacityReporter : option (ctxkind -> string -> M W (error + option Node));
  hv_finalizer : option (ctxkind -> RestoreOptions -> M W (error + unit));
  hv_GuestExecutor : bool;
  has_baselines : bool;
  backups_ListBackups : ctxkind -> string -> M W (error + list Backup);
  backups_GetLatestBackup : ctxkind -> string -> M W (error + option Backup);
  checks_RunAll : ctxkind -> Target -> list CheckConfig -> M W (list CheckResult);
  env_now : W -> Z * W;
  env_sleep : ctxkind -> Z -> W -> option error * W;
  ctx_Err : W -> option sentinel;
  uuid_NewString : W -> string;
}.

(** A provider call, as the trace keeps it. *)
Inductive provider_call :=
| CallGetWorkload (id : string)
| CallListBackups (id : string)
| CallGetLatestBackup (id : string)
| CallValidateIsolation (node : string) (network : NetworkConfig)
| CallNodeCapacity (node : string)
| CallAllocateWorkloadID
| CallRestore (backup : Backup) (opts : RestoreOptions)
| CallWaitForJob
| CallFinalizeRestore (opts : RestoreOptions)
| CallStart (id : string)
| CallGetStatus (id : string)
| CallStop (id : string)
| CallDelete (id : string)
| CallRunAll.

(** How a call ended; the identifier an allocation returned, the status a poll
    read and the results of the checks are kept. *)
Inductive call_end :=
| EndOk
| EndID (id : string)
| EndStatus (st : option WorkloadStatus)
| EndChecks (results : list CheckResult)
| EndErr (e : error)
| EndPanic
| EndDiverge.

Inductive obs :=
| OEvent (e : Event)
| OCall (ctx : ctxkind) (c : provider_call) (r : call_end).

Section Engine.
Context {W : Type} `{!EngineEnv W}.

Record ES := mkES {
  es_world : W;
  es_run : RecoveryRun;
  es_trace : list obs;
  es_tempID : string;
  es_node : string;
  es_needsCleanup : bool;
}.

Definition set_es_world (w : W) (s : ES) : ES :=
  mkES w (es_run s) (es_trace s) (es_tempID s) (es_node s) (es_needsCleanup s).
Definition set_es_run (r : RecoveryRun) (s : ES) : ES :=
  mkES (es_world s) r (es_trace s) (es_tempID s) (es_node s) (es_needsCleanup s).
Definition observe (o : obs) (s : ES) : ES :=
  mkES (es_world s) (es_run s) (es_trace s ++ [o]) (es_tempID s) (es_node s) (es_needsCleanup s).
Definition set_es_temp (id node : string) (s : ES) : ES :=
  mkES (es_world s) (es_run s) (es_trace s) id node (es_needsCleanup s).
Definition set_es_needsCleanup (b : bool) (s : ES) : ES :=
  mkES (es_world s) (es_run s) (es_trace s) (es_tempID s) (es_node s) b.

(** ** Primitives *)

Definition run_ : M ES RecoveryRun := gets es_run.
Definition update_run (f : RecoveryRun -> RecoveryRun) : M ES unit :=
  modify (fun s => set_es_run (f (es_run s)) s).
Definition emit (e : Event) : M ES unit := modify (observe (OEvent e)).
Definition now : M ES Z := fun s =>
  let '(t, w) := env_now (es_world s) in (Ret t, set_es_world w s).
Definition sleep (ctx : ctxkind) (d : Z) : M ES (option error) := fun s =>
  let '(e, w) := env_sleep ctx d (es_world s) in (Ret e, set_es_world w s).

Definition call_end_of {A} (ok : A -> call_end) (o : outcome (error + A)) : call_end :=
  match o with
  | Ret (inl e) => EndErr e
  | Ret (inr a) => ok a
  | Panic _ => EndPanic
  | Diverge => EndDiverge
  end.

(** One provider call: it runs in the world and leaves its observation. *)
Definition call_with {A} (ok : A -> call_end) (ctx : ctxkind) (c : provider_call)
    (op : M W (error + A)) : M ES (error + A) := fun s =>
  let '(o, w) := op (es_world s) in
  (o, observe (OCall ctx c (call_end_of ok o)) (set_es_world w s)).
Definition call {A} : ctxkind -> provider_call -> M W (error + A) -> M ES (error + A) :=
  call_with (fun _ => EndOk).

(** A call that returns no error. *)
Definition call_total {A} (ok : A -> call_end) (ctx : ctxkind) (c : provider_call) (op : M W A) :
    M ES A := fun s =>
  let '(o, w) := op (es_world s) in
  (o, observe (OCall ctx c (match o with Ret a => ok a | Panic _ => EndPanic | Diverge => EndDiverge end))
        (set_es_world w s)).

(** Dereferencing a pointer that may be nil. *)
Definition deref {A} (o : option A) : M ES A :=
  match o with
  | Some a => mret a
  | None => throw "invalid memory address or nil pointer dereference"
  end.

(** ** Retry (retry.go) *)

(** The loop body with [remaining] attempts after this one. The callback's
    captured variable is the right side of its result. *)
Fixpoint retry_loop {A} (ctx : ctxkind) (remaining : nat) (backoff : Z) (fn : M ES (error + A)) :
    M ES (error + A) :=
  r ← fn;
  match r with
  | inr a => mret (inr a)
  | inl err =>
    if negb (IsRetryable err) then mret (inl err)
    else match remaining with
         | O => mret (inl err)
         | S remaining =>
           serr ← sleep ctx backoff;
           match serr with
           | Some _ => mret (inl err)
           | None => retry_loop ctx remaining backoff fn
           end
         end
  end.
Definition retry {A} (ctx : ctxkind) (attempts : Z) (backoff : Z) (fn : M ES (error + A)) :
    M ES (error + A) :=
  let attempts := if attempts <? 1 then 1 else attempts in
  retry_loop ctx (Z.to_nat (attempts - 1)) backoff fn.

(** ** Steps of the timeline *)

Definition beginStep (name : string) (state : RunState) : M ES nat :=
  _ ← update_run (set_State state);
  started ← now;
  run ← run_;
  let step := mkStep name state StepRunning started Time.zero 0 (Lit "") (Lit "") ∅ in
  _ ← update_run (set_Steps (run_Steps run ++ [step]));
  run' ← run_;
  _ ← emit (eventFor run' started state name StepRunning (Lit (humanStepStart name)) None (Lit ""));
  mret (length (run_Steps run)).

Definition endStep (idx : nat) (status : StepStatus) (message : text) (err : option error) : M ES unit :=
  completed ← now;
  run ← run_;
  match run_Steps run !! idx with
  | None => throw "index out of range"
  | Some st =>
    let errText := match err with Some e => Error e | None => st_Err st end in
    let st' := mkStep (st_Name st) (st_State st) status (st_StartedAt st) completed
                 (Time.Sub completed (st_StartedAt st)) message errText (st_Details st) in
    _ ← update_run (set_Steps (<[idx := st']> (run_Steps run)));
    run' ← run_;
    emit (eventFor run' completed (st_State st) (st_Name st) status message None
            (match err with Some e => Error e | None => Lit "" end))
  end.

(** A step that fails: it is closed as failed and the error is returned. *)
Definition failStep {A} (idx : nat) (message : text) (err : error) : M ES (error + A) :=
  _ ← endStep idx StepFailed message (Some err);
  mret (inl err).

(** ** Grading *)

Definition markFailed (err : error) : M ES unit :=
  update_run (fun r => set_Err (Error err) (set_State RunFailed (set_Result ResultFailed r))).
Definition markInconclusive (err : error) : M ES unit :=
  update_run (fun r => set_Err (Error err) (set_Result ResultNone (set_State RunInconclusive r))).
Definition markCancelled (err : error) : M ES unit :=
  update_run (fun r => set_Err (Sprintf "run cancelled: %v" [AText (Error err)])
                         (set_Result ResultNone (set_State RunCancelled r))).

(** Some check that is not critical ran and came back bad. *)
Definition noncritical_failure (p : Plan) (checks : list CheckResult) : bool :=
  let critical := criticalMap p in
  existsb (fun c => bool_decide (cr_Status c = CheckFail) && negb (critical_lookup critical (cr_Name c)))
    checks.
Definition gradeSuccess (p : Plan) : M ES unit :=
  update_run (fun r =>
    let degraded := if RTOExceeded r then true else noncritical_failure p (run_Checks r) in
    set_Result (if degraded then ResultDegraded else ResultSuccess) (set_State RunSuccess r)).

Definition finalize : M ES unit :=
  run ← run_;
  _ ← (if Time.IsZero (run_CompletedAt run)
       then t ← now; update_run (set_CompletedAt t)
       else mret tt);
  update_run (fun r => if bool_decide (run_State r = RunStateEmpty) then set_State RunFailed r else r).

Definition combineErrors (workflowErr cleanupErr : option error) : option error :=
  match workflowErr, cleanupErr with
  | Some e1, Some e2 => Some (EJoin e1 e2)
  | Some e, None => Some e
  | None, Some e => Some e
  | None, None => None
  end.

(** ** Discovering the backup *)

Definition resolveSourceName : M ES unit :=
  run ← run_;
  r ← call CtxRun (CallGetWorkload (run_SourceWorkloadID run))
        (hv_GetWorkload CtxRun (run_SourceWorkloadID run));
  match r with
  | inl _ => mret tt
  | inr ow =>
    w ← deref ow;
    _ ← update_run (fun r => if nonempty (wl_Name w) then set_SourceName (wl_Name w) r else r);
    update_run (fun r => if nonempty (run_Node r) then r else set_Node (wl_Node w) r)
  end.

Definition resolveBackup (p : Plan) : M ES (error + option Backup) :=
  match bs_Strategy (pl_Backup p) with
  | StrategySpecific =>
    r ← call CtxRun (CallListBackups (wr_ID (pl_Workload p)))
          (backups_ListBackups CtxRun (wr_ID (pl_Workload p)));
    match r with
    | inl err => mret (inl err)
    | inr backups =>
      match List.find (fun b => bool_decide (bk_ID b = bs_ID (pl_Backup p))) backups with
      | Some found => mret (inr (Some found))
      | None => mret (inl (ESentinel ErrNoBackup))
      end
    end
  | _ =>
    call CtxRun (CallGetLatestBackup (wr_ID (pl_Workload p)))
      (backups_GetLatestBackup CtxRun (wr_ID (pl_Workload p)))
  end.

Definition staleBackup (p : Plan) (age : Z) : error :=
  ENew (Sprintf "STALE BACKUP: newest backup for %s is %s old, plan requires max_age %s. Recovery aborted, your backups are stale"
          [AStr (wr_ID (pl_Workload p)); ADur (Duration.Round age Duration.Second);
           ADur (bs_MaxAge (pl_Backup p))]).

Definition discoverBackup (p : Plan) : M ES (error + unit) :=
  idx ← beginStep StepDiscoverBackup RunDiscoveringBackup;
  _ ← resolveSourceName;
  r ← resolveBackup p;
  match r with
  | inl err => failStep idx (Lit "no usable backup found") err
  | inr backup =>
    let maxAge := bs_MaxAge (pl_Backup p) in
    stale ← (if 0 <? maxAge then
               t ← now;
               b ← deref backup;
               let age := Time.Sub t (bk_CreatedAt b) in
               mret (if maxAge <? age then Some (staleBackup p age) else None)
             else mret None);
    match stale with
    | Some err => failStep idx (Error err) err
    | None =>
      _ ← update_run (set_Backup backup);
      b ← deref backup;
      _ ← endStep idx StepDone
            (Sprintf "using backup %s from %s" [AStr (bk_ID b); ATime (bk_CreatedAt b)]) None;
      mret (inr tt)
    end
  end.

(** ** Preparing the environment *)

Definition noNode : error :=
  ENew (Lit "no node to restore onto: set restore.node in the plan, --node, or defaults.node in the config").

Record RunOptions := mkRunOptions {
  op_RunID : string;
  op_Network : NetworkConfig;
  op_Node : string;
  op_Storage : string;
  op_Pool : string;
  op_DryRun : bool;
  op_KeepWorkload : bool;
}.

Definition resolveNode (p : Plan) (opts : RunOptions) : M ES (error + string) :=
  run ← run_;
  let node := firstNonEmpty [op_Node opts; rs_Node (pl_Restore p); run_Node run] in
  let node := if nonempty node then node
              else match run_Backup run with Some b => bk_Node b | None => node end in
  if nonempty node
  then _ ← update_run (set_Node node); mret (inr node)
  else mret (inl noNode).

Definition notIsolated : error :=
  wrap_sentinel ErrNetworkNotIsolated
    "%s: restore network is not marked isolated; refusing to restore production data onto it" [].

Definition checkNetworkIsolation (node : string) (network : NetworkConfig) : M ES (error + unit) :=
  if negb (net_Isolated network) then mret (inl notIsolated)
  else match hv_NetworkValidator with
       | None => mret (inr tt)
       | Some validate =>
         r ← call CtxRun (CallValidateIsolation node network) (validate CtxRun node network);
         match r with
         | inr _ => mret (inr tt)
         | inl err => if Is err ErrIsolationUnverified then mret (inr tt) else mret (inl err)
         end
       end.

Definition humanBytes (b : Z) : text := Sprintf "%d MiB" [AInt (Z.quot b (1024 * 1024))].

Definition insufficientCapacity (node : string) (free needed : Z) : error :=
  wrap_sentinel ErrInsufficientCapacity "%s: node %s has %s free, restore needs %s"
    [AStr node; AText (humanBytes free); AText (humanBytes needed)].

Definition checkCapacity (node : string) (memoryLimitMB : Z) : M ES (error + unit) :=
  if memoryLimitMB <=? 0 then mret (inr tt)
  else match hv_CapacityReporter with
       | None => mret (inr tt)
       | Some report =>
         r ← call CtxRun (CallNodeCapacity node) (report CtxRun node);
         match r with
         | inl err => mret (inl err)
         | inr on =>
           n ← deref on;
           let needed := Duration.wrap (memoryLimitMB * 1024 * 1024) in
           let free := MemoryFreeBytes n in
           if free <? needed then mret (inl (insufficientCapacity node free needed))
           else mret (inr tt)
         end
       end.

(** The identity [prepareEnvironment] hands on: id, name, metadata, node. *)
Record Prepared := mkPrepared {
  pr_tempID : string;
  pr_tempName : string;
  pr_metadata : gmap string string;
  pr_node : string;
}.

Definition prepareEnvironment (p : Plan) (opts : RunOptions) : M ES (error + Prepared) :=
  idx ← beginStep StepPrepareEnvironment RunPreparing;
  rn ← resolveNode p opts;
  match rn with
  | inl err => failStep idx (Lit "no target node") err
  | inr node =>
    ri ← checkNetworkIsolation node (op_Network opts);
    match ri with
    | inl err => failStep idx (Lit "network isolation check failed") err
    | inr _ =>
      rc ← checkCapacity node (rs_MemoryLimitMB (pl_Restore p));
      match rc with
      | inl err => failStep idx (Lit "capacity check failed") err
      | inr _ =>
        ra ← call_with EndID CtxRun CallAllocateWorkloadID (hv_AllocateWorkloadID CtxRun);
        match ra with
        | inl err => failStep idx (Lit "could not allocate a temporary workload id") err
        | inr tempID =>
          t1 ← now;
          let tempName := tempWorkloadName (wr_ID (pl_Workload p)) t1 in
          run ← run_;
          t2 ← now;
          let metadata := workloadMetadata (run_ID run) (wr_ID (pl_Workload p)) t2 in
          _ ← update_run (fun r => set_Node node (set_TempName tempName (set_TempWorkloadID tempID r)));
          _ ← endStep idx StepDone
                (Sprintf "allocated temporary workload %s (%s) on node %s"
                   [AStr tempID; AStr tempName; AStr node]) None;
          mret (inr (mkPrepared tempID tempName metadata node))
        end
      end
    end
  end.

(** ** Restoring *)

Definition restoreOptions (p : Plan) (opts : RunOptions) (pr : Prepared) : RestoreOptions :=
  {| ro_TargetWorkloadID := pr_tempID pr;
     ro_Name := pr_tempName pr;
     ro_Node := pr_node pr;
     ro_Storage := firstNonEmpty [op_Storage opts; rs_Storage (pl_Restore p)];
     ro_Pool := firstNonEmpty [op_Pool opts; rs_Pool (pl_Restore p)];
     ro_Network := op_Network opts;
     ro_CPULimit := rs_CPULimit (pl_Restore p);
     ro_MemoryLimitMB := rs_MemoryLimitMB (pl_Restore p);
     ro_BandwidthKiBps := rs_BandwidthKiBps (pl_Restore p);
     ro_Start := false;
     ro_Metadata := pr_metadata pr |}.

Definition restoreFailed (msg : string) : error := ENew (Sprintf "restore failed: %s" [AStr msg]).

Definition restoreWorkload (p : Plan) (opts : RunOptions) (pr : Prepared) : M ES (error + unit) :=
  idx ← beginStep StepRestore RunRestoring;
  let restoreOpts := restoreOptions p opts pr in
  run ← run_;
  backup ← deref (run_Backup run);
  rj ← call CtxRun (CallRestore backup restoreOpts) (hv_Restore CtxRun backup restoreOpts);
  match rj with
  | inl err => failStep idx (Lit "restore submission failed") err
  | inr job =>
    _ ← modify (set_es_needsCleanup true);
    rw ← retry CtxRun 3 (2 * Duration.Second)
           (call CtxRun CallWaitForJob (hv_WaitForJob CtxRun job));
    match rw with
    | inl waitErr => failStep idx (Lit "restore job wait failed") waitErr
    | inr task =>
      let failed :=
        match task with
        | None => Some "restore task reported failure"
        | Some t =>
          if task_Success t then None
          else if nonempty (task_Message t) then Some (task_Message t)
          else Some "restore task reported failure"
        end in
      match failed with
      | Some msg => failStep idx (Lit msg) (restoreFailed msg)
      | None =>
        rf ← (match hv_finalizer with
              | None => mret (inr tt)
              | Some fin => call CtxRun (CallFinalizeRestore restoreOpts) (fin CtxRun restoreOpts)
              end);
        match rf with
        | inl ferr => failStep idx (Lit "post-restore hardening failed") ferr
        | inr _ =>
          _ ← endStep idx StepDone (Sprintf "restore completed onto %s" [AStr (pr_tempID pr)]) None;
          mret (inr tt)
        end
      end
    end
  end.

(** ** Starting, and waiting for the guest *)

Definition startWorkload (p : Plan) (tempID : string) : M ES (error + unit) :=
  idx ← beginStep StepStart RunStarting;
  if ss_Skip (pl_Startup p) then
    _ ← endStep idx StepSkipped (Lit "startup skipped by plan (restore-only drill)") None;
    mret (inr tt)
  else
    r ← retry CtxRun 3 (2 * Duration.Second) (call CtxRun (CallStart tempID) (hv_Start CtxRun tempID));
    match r with
    | inl err => failStep idx (Lit "failed to power on the restored workload") err
    | inr _ => _ ← endStep idx StepDone (Lit "workload powered on") None; mret (inr tt)
    end.

Definition pollStatus (tempID : string) : M ES (error + option WorkloadStatus) :=
  retry CtxRun 3 Duration.Second
    (call_with EndStatus CtxRun (CallGetStatus tempID) (hv_GetStatus CtxRun tempID)).

Definition guestReady (s : WorkloadStatus) (p : Plan) : bool :=
  if negb (bool_decide (ws_PowerState s = PowerStateRunning)) then false
  else if WaitsForAgent (pl_Startup p) && negb (ws_AgentReady s) then false
  else if nonempty (ss_IP (pl_Startup p)) then true
  else if WaitsForIP (pl_Startup p) then nonempty (PrimaryIP s)
  else true.

Definition describeStatus (s : option WorkloadStatus) : text :=
  match s with
  | None => Lit "no status"
  | Some s => Sprintf "power=%s %s ips=%v"
      [AStr (match ws_PowerState s with
             | PowerStateRunning => "running" | PowerStateStopped => "stopped"
             | PowerStatePaused => "paused" | PowerStateUnknown => "unknown" end);
       AStr (if ws_AgentReady s then "agent=yes" else "agent=no"); AStrs (ws_IPs s)]
  end.

Definition ipSuffix (ip : string) : text :=
  if nonempty ip then Sprintf " (%s)" [AStr ip] else Lit "".

Definition mkRunTarget (run : RecoveryRun) (tempID ip : string) (ips : list string) : Target :=
  mkTarget ip ips tempID (run_Node run) (run_SourceName run) hv_GuestExecutor has_baselines.

Definition guestTimeout (timeout : Z) (last : option WorkloadStatus) : error :=
  wrap_sentinel ErrTimeout "%s: guest not ready after %s (last seen: %s)"
    [ADur timeout; AText (describeStatus last)].

Definition waitInterrupted (serr : error) : error :=
  EWrap (Sprintf "wait for guest interrupted: %w" [AText (Error serr)]) serr.

(** The polling loop of [waitForGuest]. *)
Fixpoint waitLoop (fuel : nat) (p : Plan) (tempID : string) (idx : nat) (timeout deadline : Z) :
    M ES (error + Target) :=
  match fuel with
  | O => fun s => (Diverge, s)
  | S fuel =>
    rs ← pollStatus tempID;
    match rs with
    | inl err => failStep idx (Lit "could not query guest status") err
    | inr status =>
      s ← deref status;
      if guestReady s p then
        _ ← (if ws_AgentReady s
             then update_run (fun r => set_ProofLevel (Raise (run_ProofLevel r) ProofBoot) r)
             else mret tt);
        run ← run_;
        let ip := if nonempty (ss_IP (pl_Startup p)) then ss_IP (pl_Startup p) else PrimaryIP s in
        let target := mkRunTarget run tempID ip (ws_IPs s) in
        _ ← endStep idx StepDone (Sprintf "guest is up%s" [AText (ipSuffix ip)]) None;
        mret (inr target)
      else
        t1 ← now;
        if negb (Time.Before t1 deadline) then
          let err := guestTimeout timeout (Some s) in failStep idx (Error err) err
        else
          t2 ← now;
          let remaining := Time.Sub deadline t2 in
          let wait := if remaining <? DefaultGuestPollEvery then remaining else DefaultGuestPollEvery in
          serr ← sleep CtxRun wait;
          match serr with
          | Some serr => failStep idx (Lit "interrupted while waiting for guest") (waitInterrupted serr)
          | None => waitLoop fuel p tempID idx timeout deadline
          end
    end
  end.

(** Rounds the loop can need: one poll interval each, one short round before
    the deadline and one that finds it passed. *)
Definition wait_fuel (p : Plan) : nat :=
  (2 + Z.to_nat (ss_Timeout (pl_Startup p) / DefaultGuestPollEvery))%nat.

Definition waitForGuest (p : Plan) (tempID : string) : M ES (error + Target) :=
  idx ← beginStep StepWaitForGuest RunWaitingForGuest;
  if ss_Skip (pl_Startup p) then
    _ ← endStep idx StepSkipped (Lit "startup skipped, guest was not booted") None;
    run ← run_;
    mret (inr (mkRunTarget run tempID "" []))
  else
    let timeout := ss_Timeout (pl_Startup p) in
    t0 ← now;
    waitLoop (wait_fuel p) p tempID idx timeout (Time.Add t0 timeout).

(** ** Running the checks *)

Definition checksFailed (names : list string) : error :=
  ENew (Sprintf "critical check(s) failed: %v" [AStrs names]).
Definition checksInconclusive (names : list string) : error :=
  wrap_sentinel errChecksInconclusive "%s: %v" [AStrs names].

(** The two lists [runChecks] sorts the critical checks that did not pass
    into: those that failed, and those that could not be evaluated. *)
Definition not_passed (critical : gmap string bool) (r : CheckResult) : bool :=
  negb (OK r || negb (critical_lookup critical (cr_Name r))).
Definition unevaluated (critical : gmap string bool) (results : list CheckResult) : list string :=
  map cr_Name (List.filter (fun r => not_passed critical r && bool_decide (cr_Status r = CheckError)) results).
Definition failedCritical (critical : gmap string bool) (results : list CheckResult) : list string :=
  map cr_Name
    (List.filter (fun r => not_passed critical r && negb (bool_decide (cr_Status r = CheckError))) results).

Fixpoint emit_checks (results : list CheckResult) : M ES unit :=
  match results with
  | [] => mret tt
  | r :: rest =>
    run ← run_;
    t ← now;
    _ ← emit (eventFor run t RunRunningChecks StepRunChecks (stepStatusForCheck (cr_Status r))
                (checkMessage r) (Some r) (Lit ""));
    emit_checks rest
  end.

Definition runChecks (p : Plan) (target : Target) : M ES (error + unit) :=
  idx ← beginStep StepRunChecks RunRunningChecks;
  let cfgs := map ToCore (pl_Checks p) in
  results ← call_total EndChecks CtxRun CallRunAll (checks_RunAll CtxRun target cfgs);
  _ ← update_run (set_Checks results);
  let proven := zip_with mkProofCheck cfgs results in
  _ ← update_run (fun r => set_ProofLevel (Raise (run_ProofLevel r) (ProvenBy proven)) r);
  _ ← emit_checks results;
  let critical := criticalMap p in
  match failedCritical critical results, unevaluated critical results with
  | (_ :: _) as names, _ => let err := checksFailed names in failStep idx (Error err) err
  | [], (_ :: _) as names => let err := checksInconclusive names in failStep idx (Error err) err
  | [], [] =>
    _ ← endStep idx StepDone
          (Sprintf "%d check(s) completed" [AInt (Z.of_nat (length results))]) None;
    mret (inr tt)
  end.

(** ** Dry run *)

(** A dry run marks its own failures. *)
Definition dryFail (idx : nat) (message : text) (err : error) : M ES (option error) :=
  _ ← endStep idx StepFailed message (Some err);
  _ ← markFailed err;
  mret (Some err).

Definition runDryRun (p : Plan) (opts : RunOptions) : M ES (option error) :=
  rd ← discoverBackup p;
  match rd with
  | inl err => _ ← markFailed err; mret (Some err)
  | inr _ =>
    idx ← beginStep StepPrepareEnvironment RunPreparing;
    rn ← resolveNode p opts;
    match rn with
    | inl err => dryFail idx (Lit "no target node") err
    | inr node =>
      ri ← checkNetworkIsolation node (op_Network opts);
      match ri with
      | inl err => dryFail idx (Lit "network isolation check failed") err
      | inr _ =>
        rc ← checkCapacity node (rs_MemoryLimitMB (pl_Restore p));
        match rc with
        | inl err => dryFail idx (Lit "capacity check failed") err
        | inr _ =>
          _ ← update_run (set_Node node);
          _ ← endStep idx StepDone (Lit "dry run: restore plan validated, nothing was created") None;
          _ ← update_run (fun r => set_CleanupDone true (set_Result ResultSuccess (set_State RunSuccess r)));
          mret None
        end
      end
    end
  end.

(** ** Cleanup (cleanup.go) *)

Definition recordCleanupSkipped (message : text) : M ES unit :=
  idx ← beginStep StepCleanup RunCleaningUp;
  _ ← endStep idx StepSkipped message None;
  update_run (set_CleanupDone false).

(** The run did not complete, as cleanup policy reads it. *)
Definition incomplete (r : RecoveryRun) : bool :=
  bool_decide (run_Result r = ResultFailed) || bool_decide (run_State r = RunFailed)
  || bool_decide (run_State r = RunCancelled) || bool_decide (run_State r = RunInconclusive).

Definition orphaned (tempID node : string) (derr : error) : error :=
  EWrap (Sprintf "cleanup: orphaned workload %s on node %s: %w"
           [AStr tempID; AStr node; AText (Error derr)]) derr.

Definition orphanMessage (tempID node runID : string) (derr : error) : text :=
  Sprintf "ORPHANED WORKLOAD: failed to delete temporary workload %s on node %s (run %s). Remove it manually: %v"
    [AStr tempID; AStr node; AStr runID; AText (Error derr)].

Definition destroy (tempID node : string) (gradedState : RunState) : M ES (option error) :=
  idx ← beginStep StepCleanup RunCleaningUp;
  _ ← retry CtxDetached 3 (2 * Duration.Second)
        (call CtxDetached (CallStop tempID) (hv_Stop CtxDetached tempID));
  rd ← call CtxDetached (CallDelete tempID) (hv_Delete CtxDetached tempID);
  match rd with
  | inl derr =>
    run ← run_;
    let msg := orphanMessage tempID node (run_ID run) derr in
    _ ← update_run (fun r => set_Err msg (set_State RunCleanupFailed (set_CleanupDone false r)));
    _ ← endStep idx StepFailed msg (Some derr);
    mret (Some (orphaned tempID node derr))
  | inr _ =>
    _ ← update_run (set_CleanupDone true);
    _ ← endStep idx StepDone (Sprintf "temporary workload %s removed" [AStr tempID]) None;
    _ ← update_run (set_State gradedState);
    mret None
  end.

Definition cleanup (p : Plan) (opts : RunOptions) (tempID node : string) (needsCleanup : bool) :
    M ES (option error) :=
  if negb needsCleanup then _ ← update_run (set_CleanupDone true); mret None
  else
    run ← run_;
    let gradedState := run_State run in
    let skip (message : text) : M ES (option error) :=
      _ ← recordCleanupSkipped message;
      _ ← update_run (set_State gradedState);
      mret None in
    if op_KeepWorkload opts then
      skip (Sprintf "cleanup skipped: KeepWorkload requested. Workload %s on node %s left running, remove it by hand"
              [AStr tempID; AStr node])
    else if incomplete run && cs_KeepOnFailure (pl_Cleanup p) then
      skip (Sprintf "cleanup skipped: keep_on_failure is set. Workload %s on node %s left running for debugging, remove it by hand"
              [AStr tempID; AStr node])
    else if negb (incomplete run) && negb (CleanupAlways (pl_Cleanup p)) then
      skip (Sprintf "cleanup skipped by plan policy (cleanup.always: false). Workload %s left on node %s"
              [AStr tempID; AStr node])
    else destroy tempID node gradedState.

(** ** The whole run (engine.go) *)

(** [newRun], on the world the run starts in: its start time is the first
    reading of the clock. *)
Definition newRun (p : Plan) (opts : RunOptions) (w : W) : ES :=
  let id := if nonempty (op_RunID opts) then op_RunID opts else uuid_NewString w in
  let '(started, w) := env_now w in
  let run := {|
    run_ID := id; run_PlanName := pl_Name p; run_PlanID := ""; run_PlanVersion := 0;
    run_ProviderID := hv_ID; run_BackupProviderID := backups_ID;
    run_SourceWorkloadID := wr_ID (pl_Workload p);
    run_SourceName := firstNonEmpty [wr_Name (pl_Workload p); wr_ID (pl_Workload p)];
    run_TempWorkloadID := ""; run_TempName := "";
    run_Node := firstNonEmpty [op_Node opts; rs_Node (pl_Restore p)];
    run_Backup := None; run_State := RunQueued; run_Result := ResultNone;
    run_ProofLevel := ProofNone; run_StartedAt := started; run_CompletedAt := Time.zero;
    run_Steps := []; run_Checks := []; run_RTO := 0; run_RTOTarget := pl_RTOTarget p;
    run_CleanupDone := false; run_Err := Lit "" |} in
  mkES w run [] "" "" false.

(** A step that ended with an error marks the run failed and stops the
    workflow there. *)
Definition orFail {A} (m : M ES (error + A)) (k : A -> M ES (option error)) : M ES (option error) :=
  r ← m;
  match r with
  | inl err => _ ← markFailed err; mret (Some err)
  | inr a => k a
  end.

Definition measureRTO : M ES unit := update_run (fun r => set_RTO (computeRTO r (run_StartedAt r)) r).

(** The body of [Run] before its deferred function; the result is the
    [workflowErr] the deferred function reads. *)
Definition workflow (p : Plan) (opts : RunOptions) : M ES (option error) :=
  if op_DryRun opts then runDryRun p opts
  else
    orFail (discoverBackup p) (fun _ =>
    orFail (prepareEnvironment p opts) (fun pr =>
    _ ← modify (set_es_temp (pr_tempID pr) (pr_node pr));
    orFail (restoreWorkload p opts pr) (fun _ =>
    orFail (startWorkload p (pr_tempID pr)) (fun _ =>
    orFail (waitForGuest p (pr_tempID pr)) (fun target =>
    if bool_decide (pl_Checks p = []) then
      _ ← measureRTO;
      _ ← gradeSuccess p;
      mret None
    else
      cerr ← runChecks p target;
      _ ← measureRTO;
      match cerr with
      | inl err =>
        _ ← (if Is err errChecksInconclusive then markInconclusive err else markFailed err);
        mret (Some err)
      | inr _ => _ ← gradeSuccess p; mret None
      end))))).

(** What the deferred function does with a recovered panic. *)
Definition panicError (msg : string) : error :=
  ENew (Sprintf "internal error (recovered panic): %v" [AStr msg]).

(** The deferred function from the cancellation check on. *)
Definition canceled (s : ES) : bool := bool_decide (ctx_Err (es_world s) = Some context_Canceled).

Definition settle_workflow (r : string + option error) : M ES (option error) :=
  match r with
  | inl msg => let perr := panicError msg in _ ← markFailed perr; mret (Some perr)
  | inr workflowErr =>
    c ← gets canceled;
    match workflowErr with
    | Some err => _ ← (if (c : bool) then markCancelled err else mret tt); mret workflowErr
    | None => mret workflowErr
    end
  end.

Definition run_body (p : Plan) (opts : RunOptions) : M ES (option error) :=
  r ← try (workflow p opts);
  workflowErr ← settle_workflow r;
  s ← get;
  cleanupErr ← cleanup p opts (es_tempID s) (es_node s) (es_needsCleanup s);
  _ ← finalize;
  mret (combineErrors workflowErr cleanupErr).

(** [Engine.Run]: how it ended (the error it returned) and the state it left,
    whose [es_run] is the run it returned. *)
Definition Run (p : Plan) (opts : RunOptions) (w : W) : outcome (option error) * ES :=
  run_body p opts (newRun p opts w).
End Engine.
