(* ===== verification/EngineFrame.v ===== *)
(** * Frames of the recovery engine

    What each function of [Engine] keeps: the trace only grows, by events and
    by calls the function is allowed to make, and the parts of the run record
    and of the deferred function's variables it does not touch stay the same.
    Every lemma is compositional ([keeps_auto]); they are the library the
    engine's theorems are proved with. *)

From Stdlib Require Import ZArith Lia String List.
From S2P Require Import Prelude GoTime Errors Core Checks Plan Engine.

(** ** What a call may be *)

(** Events are always allowed; a call is allowed by a boolean test. *)
Definition allow (f : ctxkind -> provider_call -> bool) (o : obs) : Prop :=
  match o with OEvent _ => True | OCall ctx c _ => f ctx c = true end.

Definition is_run_ctx (ctx : ctxkind) : bool := bool_decide (ctx = CtxRun).

(** The calls that read: they create, change and destroy nothing. *)
Definition reads (ctx : ctxkind) (c : provider_call) : bool :=
  is_run_ctx ctx &&
  match c with
  | CallGetWorkload _ | CallListBackups _ | CallGetLatestBackup _ | CallValidateIsolation _ _
  | CallNodeCapacity _ | CallWaitForJob | CallGetStatus _ | CallRunAll => true
  | _ => false
  end.

Definition reads_or_allocates (ctx : ctxkind) (c : provider_call) : bool :=
  reads ctx c || (is_run_ctx ctx && match c with CallAllocateWorkloadID => true | _ => false end).

(** The workload a mutating call acts on. *)
Definition target_of (c : provider_call) : option string :=
  match c with
  | CallRestore _ opts | CallFinalizeRestore opts => Some (ro_TargetWorkloadID opts)
  | CallStart id | CallStop id | CallDelete id => Some id
  | _ => None
  end.

(** After the restore was submitted: reads, and hardening or starting [id]. *)
Definition after_restore (id : string) (ctx : ctxkind) (c : provider_call) : bool :=
  reads ctx c ||
  (is_run_ctx ctx &&
   match c with
   | CallFinalizeRestore opts => bool_decide (ro_TargetWorkloadID opts = id)
   | CallStart id' => bool_decide (id' = id)
   | _ => false
   end).

(** What cleanup may do: stop [id], on the detached context. *)
Definition stops (id : string) (ctx : ctxkind) (c : provider_call) : bool :=
  bool_decide (ctx = CtxDetached) &&
  match c with CallStop id' => bool_decide (id' = id) | _ => false end.

Section Frame.
Context {W : Type} `{!EngineEnv W}.

(** ** The frame relation *)

(** [fr P rho]: the trace grew by observations in [P], the run changed within
    [rho], and the deferred function's variables are the same. *)
Definition fr (P : obs -> Prop) (rho : relation RecoveryRun) (s s' : ES (W := W)) : Prop :=
  extends P (es_trace s) (es_trace s') /\
  rho (es_run s) (es_run s') /\
  es_tempID s' = es_tempID s /\ es_node s' = es_node s /\ es_needsCleanup s' = es_needsCleanup s.

#[export] Instance fr_preorder P rho `{!PreOrder rho} : PreOrder (fr P rho).
Proof.
  split.
  - intros s. split_and!; reflexivity.
  - intros s1 s2 s3 (Ht & Hr & ? & ? & ?) (Ht' & Hr' & ? & ? & ?).
    split_and!; [by etransitivity | by etransitivity | congruence..].
Qed.

Lemma fr_weaken (P Q : obs -> Prop) (rho sigma : relation RecoveryRun) s s' :
  (forall o, P o -> Q o) -> (forall r r', rho r r' -> sigma r r') -> fr P rho s s' -> fr Q sigma s s'.
Proof. intros HP Hr (Ht & ? & ? & ? & ?). split_and!; eauto using extends_weaken. Qed.

(** What every step of the workflow keeps of the run: who it is, when it
    started, what it was asked. *)
Definition same_id (r r' : RecoveryRun) : Prop :=
  run_ID r' = run_ID r /\ run_StartedAt r' = run_StartedAt r /\
  run_SourceWorkloadID r' = run_SourceWorkloadID r /\ run_RTOTarget r' = run_RTOTarget r /\
  run_PlanName r' = run_PlanName r.

(** ... and, outside the step that allocates it, the temporary identity, and
    outside the grading, the verdict. *)
Definition same_temp (r r' : RecoveryRun) : Prop :=
  same_id r r' /\ run_TempWorkloadID r' = run_TempWorkloadID r /\ run_TempName r' = run_TempName r.
Definition same_verdict (r r' : RecoveryRun) : Prop :=
  same_temp r r' /\ run_Result r' = run_Result r /\ run_CompletedAt r' = run_CompletedAt r.

#[export] Instance same_id_preorder : PreOrder same_id.
Proof. split; [by intros ? | unfold same_id; intros ???; intuition congruence]. Qed.
#[export] Instance same_temp_preorder : PreOrder same_temp.
Proof. split; [by intros ? | unfold same_temp, same_id; intros ???; intuition congruence]. Qed.
#[export] Instance same_verdict_preorder : PreOrder same_verdict.
Proof. split; [by intros ? | unfold same_verdict, same_temp, same_id; intros ???; intuition congruence]. Qed.

(** ** The primitives *)
Section Primitives.
Context (f : ctxkind -> provider_call -> bool) (rho : relation RecoveryRun) `{!PreOrder rho}.
Abbreviation R := (fr (allow f) rho).

Lemma fr_update_run g : (forall r, rho r (g r)) -> keeps R (update_run g).
Proof. intros H s. split_and!; [reflexivity | apply H | done..]. Qed.

Lemma fr_emit e : keeps R (emit e).
Proof. intros s. split_and!; [by apply extends_snoc | reflexivity | done..]. Qed.

Lemma fr_now : keeps R now.
Proof. intros s. unfold now. destruct (env_now _). split_and!; reflexivity. Qed.

Lemma fr_sleep ctx d : keeps R (sleep ctx d).
Proof. intros s. unfold sleep. destruct (env_sleep _ _ _). split_and!; reflexivity. Qed.

Lemma fr_call_with {A} ok ctx c (op : M W (error + A)) :
  f ctx c = true -> keeps R (call_with ok ctx c op).
Proof.
  intros Hf s. unfold call_with. destruct (op (es_world s)) as [o w].
  split_and!; [by apply extends_snoc | reflexivity | done..].
Qed.

Lemma fr_call {A} ctx c (op : M W (error + A)) : f ctx c = true -> keeps R (call ctx c op).
Proof. apply fr_call_with. Qed.

Lemma fr_call_total {A} ok ctx c (op : M W A) : f ctx c = true -> keeps R (call_total ok ctx c op).
Proof.
  intros Hf s. unfold call_total. destruct (op (es_world s)) as [o w].
  split_and!; [by apply extends_snoc | reflexivity | done..].
Qed.

Lemma fr_deref {A} (o : option A) : keeps R (deref o).
Proof. destruct o; [apply keeps_ret | apply keeps_throw]; typeclasses eauto. Qed.

Lemma fr_run : keeps R run_.
Proof. apply keeps_gets. typeclasses eauto. Qed.

Lemma fr_retry_loop {A} ctx n b (fn : M ES (error + A)) : keeps R fn -> keeps R (retry_loop ctx n b fn).
Proof.
  intros Hfn. induction n as [|n IH]; cbn [retry_loop];
    (apply keeps_bind; [typeclasses eauto | done | intros [e|a]];
     [destruct (negb (IsRetryable e)) | ]; try (apply keeps_ret; typeclasses eauto)).
  apply keeps_bind; [typeclasses eauto | apply fr_sleep | intros [e'|]];
    [apply keeps_ret; typeclasses eauto | done].
Qed.

Lemma fr_retry {A} ctx n b (fn : M ES (error + A)) : keeps R fn -> keeps R (retry ctx n b fn).
Proof. apply fr_retry_loop. Qed.
End Primitives.
End Frame.

#[export] Hint Resolve fr_update_run fr_emit fr_now fr_sleep fr_call_with fr_call fr_call_total
  fr_deref fr_run fr_retry : keeps.

(** The record equations a frame of an update asks for. *)
Ltac solve_same :=
  intros; unfold same_verdict, same_temp, same_id; cbn;
  repeat match goal with |- context [if ?b then _ else _] => destruct b; cbn end;
  split_and!; reflexivity.
#[export] Hint Extern 1 (same_verdict _ _) => solve_same : keeps.
#[export] Hint Extern 1 (same_temp _ _) => solve_same : keeps.
#[export] Hint Extern 1 (same_id _ _) => solve_same : keeps.
#[export] Hint Extern 2 (_ = true) => reflexivity : keeps.

Section Steps.
Context {W : Type} `{!EngineEnv W} (f : ctxkind -> provider_call -> bool).
Abbreviation V := (fr (W := W) (allow f) same_verdict).

Lemma fr_beginStep name st : keeps V (beginStep name st).
Proof. unfold beginStep. keeps_auto. Qed.

Lemma fr_endStep idx st m e : keeps V (endStep idx st m e).
Proof. unfold endStep. keeps_auto. Qed.

Lemma fr_failStep {A} idx m e : keeps V (failStep (A := A) idx m e).
Proof. unfold failStep, endStep. keeps_auto. Qed.

Lemma fr_emit_checks l : keeps V (emit_checks l).
Proof. induction l as [|r l IH]; cbn [emit_checks]; keeps_auto. Qed.

Hypothesis reads_f : forall ctx c, reads ctx c = true -> f ctx c = true.

Ltac readable := apply reads_f; reflexivity.
Hint Extern 1 (f _ _ = true) => readable : keeps.
Hint Resolve fr_beginStep fr_endStep fr_failStep fr_emit_checks : keeps.

Lemma fr_resolveSourceName : keeps V resolveSourceName.
Proof. unfold resolveSourceName. keeps_auto. Qed.

Lemma fr_resolveBackup p : keeps V (resolveBackup p).
Proof. unfold resolveBackup. keeps_auto. Qed.
Hint Resolve fr_resolveSourceName fr_resolveBackup : keeps.

Lemma fr_discoverBackup p : keeps V (discoverBackup p).
Proof. unfold discoverBackup. keeps_auto. Qed.

Lemma fr_resolveNode p opts : keeps V (resolveNode p opts).
Proof. unfold resolveNode. keeps_auto. Qed.

Lemma fr_checkNetworkIsolation node net : keeps V (checkNetworkIsolation node net).
Proof. unfold checkNetworkIsolation. keeps_auto. Qed.

Lemma fr_checkCapacity node m : keeps V (checkCapacity node m).
Proof. unfold checkCapacity. keeps_auto. Qed.

Lemma fr_pollStatus id : keeps V (pollStatus id).
Proof. unfold pollStatus. keeps_auto. Qed.
Hint Resolve fr_pollStatus : keeps.

Lemma fr_waitLoop fuel p id idx t d : keeps V (waitLoop fuel p id idx t d).
Proof.
  induction fuel as [|fuel IH]; cbn [waitLoop]; [intros s; reflexivity|]. keeps_auto.
Qed.
Hint Resolve fr_waitLoop : keeps.

Lemma fr_waitForGuest p id : keeps V (waitForGuest p id).
Proof. unfold waitForGuest. keeps_auto. Qed.

Lemma fr_runChecks p tg : keeps V (runChecks p tg).
Proof. unfold runChecks. cbv zeta. keeps_auto. Qed.

Lemma fr_startWorkload p id :
  f CtxRun (CallStart id) = true -> keeps V (startWorkload p id).
Proof. intros Hs. unfold startWorkload. keeps_auto. Qed.
End Steps.

#[export] Hint Resolve fr_beginStep fr_endStep fr_failStep fr_emit_checks fr_discoverBackup fr_resolveNode
  fr_checkNetworkIsolation fr_checkCapacity fr_waitForGuest fr_runChecks fr_startWorkload : keeps.

(** * A simulated hypervisor

    A concrete instance of [EngineEnv], small enough to evaluate: the world is
    a clock and what the providers answer. The engine's theorems are applied to
    runs of this environment, which shows that their hypotheses can hold. *)

Record Sim := mkSim {
  sim_clock : Z;
  sim_delete : option error;            (* what Delete answers *)
  sim_check : CheckStatus;              (* how the check ends *)
  sim_booting : nat;                    (* polls before the guest is up *)
  sim_canceled : bool;                  (* the run's context was canceled *)
}.

Definition sim_op {A} (f : Sim -> A) : M Sim (error + A) := fun w => (Ret (inr (f w)), w).
Definition sim_tick (d : Z) (w : Sim) : Sim :=
  mkSim (sim_clock w + d) (sim_delete w) (sim_check w) (sim_booting w) (sim_canceled w).
Definition sim_boot (w : Sim) : Sim :=
  mkSim (sim_clock w) (sim_delete w) (sim_check w) (pred (sim_booting w)) (sim_canceled w).

Definition sim_backup : Backup :=
  mkBackup "pbs/vm/101/1" "101" "pbs" "store" "pve1" 1000 4096 false false VerificationOK "vma" "".

Definition sim_status (w : Sim) : WorkloadStatus :=
  let up := bool_decide (sim_booting w = 0%nat) in
  mkWorkloadStatus "9001" (if up then PowerStateRunning else PowerStateStopped) 1 up ["10.0.0.7"]
    (S754_zero false) 1.

Definition sim_result (w : Sim) (c : CheckConfig) : CheckResult :=
  mkCheckResult (displayName c) (cc_Type c) (sim_check w) (sim_clock w) (sim_clock w) 0 1 (Lit "") ∅.

#[export] Instance sim_env : EngineEnv Sim := {|
  hv_ID := "pve";
  backups_ID := "pbs";
  hv_GetWorkload _ id := sim_op (fun _ =>
    Some (mkWorkload id "db" WorkloadKindVM "pve1" "" [] 1 1 1 PowerStateRunning false false ""));
  hv_GetStatus _ _ := fun w => (Ret (inr (Some (sim_status w))), sim_boot w);
  hv_AllocateWorkloadID _ := sim_op (fun _ => "9001");
  hv_Restore _ _ ro := sim_op (fun w =>
    Some (mkRestoreJob "UPID:1" (ro_TargetWorkloadID ro) (ro_Node ro) (sim_clock w)));
  hv_WaitForJob _ _ := sim_op (fun _ => Some (mkTaskState "UPID:1" false true "OK" ""));
  hv_Start _ _ := sim_op (fun _ => tt);
  hv_Stop _ _ := sim_op (fun _ => tt);
  hv_Delete _ _ := fun w =>
    (Ret (match sim_delete w with Some e => inl e | None => inr tt end), w);
  hv_NetworkValidator := Some (fun _ _ _ => sim_op (fun _ => tt));
  hv_CapacityReporter := None;
  hv_finalizer := None;
  hv_GuestExecutor := true;
  has_baselines := false;
  backups_ListBackups _ _ := sim_op (fun _ => [sim_backup]);
  backups_GetLatestBackup _ _ := sim_op (fun _ => Some sim_backup);
  checks_RunAll _ _ cfgs := fun w => (Ret (map (sim_result w) cfgs), w);
  env_now w := (sim_clock w, w);
  env_sleep _ d w := (None, sim_tick (Z.max 0 d) w);
  ctx_Err w := if sim_canceled w then Some context_Canceled else None;
  uuid_NewString _ := "run-1";
|}.

Definition sim_world : Sim := mkSim (739000 * Time.day_ns) None CheckPass 1 false.

Definition sim_check_spec : CheckSpec :=
  mkCheckSpec "tcp" "ssh" (30 * Duration.Second) 0 0 None ∅ "" "" None None.

Definition sim_plan : Plan := {|
  pl_Name := "db drill"; pl_Description := ""; pl_Tags := [];
  pl_Workload := mkWorkloadRef "pve" "101" "db";
  pl_Backup := mkBackupSpec "pbs" StrategyLatest "" 0;
  pl_Restore := mkRestoreSpec "pve1" "" "" "isolated" "" 0 0 0 (60 * Duration.Minute);
  pl_Startup := mkStartupSpec false (5 * Duration.Minute) (Some false) (Some true) "";
  pl_Checks := [sim_check_spec];
  pl_Cleanup := mkCleanupSpec (Some true) false;
  pl_RTOTarget := 0; pl_Schedule := ""; pl_ScheduleTimezone := "" |}.

Definition sim_opts : RunOptions :=
  mkRunOptions "" (mkNetworkConfig "vmbr9" "virtio" 0 false true) "" "" "" false false.
Definition sim_dry : RunOptions :=
  mkRunOptions "" (mkNetworkConfig "vmbr9" "virtio" 0 false true) "" "" "" true false.

(** The whole drill, evaluated. *)
Example sim_run_succeeds :
  let '(o, s) := Run sim_plan sim_opts sim_world in
  o = Ret None /\ run_State (es_run s) = RunSuccess /\ run_Result (es_run s) = ResultSuccess /\
  run_ProofLevel (es_run s) = ProofService /\ run_CleanupDone (es_run s) = true /\
  run_TempName (es_run s) = "restorelab-101-20240425000000".
Proof. vm_compute. split_and!; reflexivity. Qed.

Example sim_check_fails :
  let '(o, s) := Run sim_plan sim_opts (mkSim 7 None CheckFail 0 false) in
  o = Ret (Some (checksFailed ["ssh"])) /\ run_State (es_run s) = RunFailed /\
  run_Result (es_run s) = ResultFailed /\ run_CleanupDone (es_run s) = true.
Proof. vm_compute. split_and!; reflexivity. Qed.

Example sim_delete_fails :
  let '(o, s) := Run sim_plan sim_opts (mkSim 7 (Some (ESentinel ErrTimeout)) CheckPass 0 false) in
  o <> Ret None /\ run_State (es_run s) = RunCleanupFailed /\ run_Result (es_run s) = ResultSuccess /\
  run_CleanupDone (es_run s) = false.
Proof. vm_compute. split_and!; (reflexivity || discriminate). Qed.
