(* ===== verification/EngineShape.v ===== *)
(** * The shape of every run's trace

    One lemma per step of the workflow, from the state the step starts in to
    the states it can leave, put together into [run_shape]: whatever the
    providers answer, panic on or never return from, the trace of a run is a
    read-only prefix, at most one restore of the identity that prefix
    allocated and announced, and a cleanup tail that touches that identity
    alone. *)

From Stdlib Require Import ZArith Lia String List.
From S2P Require Import Prelude GoTime Errors Core Plan Engine EngineFrame.

Section Shape.
Context {W : Type} `{!EngineEnv W}.
Abbreviation ES := (Engine.ES (W := W)).

(** ** What is known of the trace when a restore is submitted *)

Definition allocated (id : string) (t : list obs) : Prop :=
  OCall CtxRun CallAllocateWorkloadID (EndID id) ∈ t.

(** A listener was told the temporary identity and its node. *)
Definition announced (id node : string) (t : list obs) : Prop :=
  exists e, OEvent e ∈ t /\ ev_TempWorkloadID e = id /\ ev_Node e = node.

(** The network was marked isolated, and a provider that can prove isolation
    proved it or said that it could not read the configuration. *)
Definition isolation_proven (opts : RunOptions) (node : string) (t : list obs) : Prop :=
  net_Isolated (op_Network opts) = true /\
  (hv_NetworkValidator = None \/
   exists r, OCall CtxRun (CallValidateIsolation node (op_Network opts)) r ∈ t /\
     (r = EndOk \/ exists e, r = EndErr e /\ Is e ErrIsolationUnverified = true)).

Record prepared (opts : RunOptions) (id node : string) (t : list obs) : Prop := {
  prep_reads : Forall (allow reads_or_allocates) t;
  prep_allocated : allocated id t;
  prep_announced : announced id node t;
  prep_isolated : isolation_proven opts node t;
}.

(** The observations of cleanup: stops on the detached context, then at most
    one delete followed by events. *)
Definition cleanup_tail (id : string) (t : list obs) : Prop :=
  Forall (allow (stops id)) t \/
  exists u r v, t = u ++ OCall CtxDetached (CallDelete id) r :: v /\
    Forall (allow (stops id)) u /\ Forall (allow (fun _ _ => false)) v.

(** The call that submitted the restore, and the trace around it. *)
Record submission := mkSubmission {
  sb_before : list obs;
  sb_backup : Backup;
  sb_opts : RestoreOptions;
  sb_end : call_end;
  sb_after : list obs;
}.

Record submitted (opts : RunOptions) (id node : string) (needs : bool) (x : submission)
    (t tail : list obs) : Prop := {
  sub_trace : t = sb_before x ++ OCall CtxRun (CallRestore (sb_backup x) (sb_opts x)) (sb_end x)
                    :: sb_after x ++ tail;
  sub_prepared : prepared opts id node (sb_before x);
  sub_after : Forall (allow (after_restore id)) (sb_after x);
  sub_target : ro_TargetWorkloadID (sb_opts x) = id;
  sub_node : ro_Node (sb_opts x) = node;
  sub_network : ro_Network (sb_opts x) = op_Network opts;
  sub_nostart : ro_Start (sb_opts x) = false;
  sub_needs : needs = true <-> sb_end x = EndOk;
}.

(** ** The states between the steps *)

Definition Fresh (s : ES) : Prop :=
  Forall (allow reads) (es_trace s) /\ es_needsCleanup s = false.

Definition Ready (opts : RunOptions) (pr : Prepared) (s : ES) : Prop :=
  prepared opts (pr_tempID pr) (pr_node pr) (es_trace s) /\ es_needsCleanup s = false.

Definition Named (pr : Prepared) (s : ES) : Prop :=
  es_tempID s = pr_tempID pr /\ es_node s = pr_node pr.

Definition Submitted (opts : RunOptions) (pr : Prepared) (s : ES) : Prop :=
  Named pr s /\
  exists x, submitted opts (pr_tempID pr) (pr_node pr) (es_needsCleanup s) x (es_trace s) [].

(** However the workflow ends. *)
Definition Ended (opts : RunOptions) (s : ES) : Prop :=
  (Forall (allow reads_or_allocates) (es_trace s) /\ es_needsCleanup s = false) \/
  exists pr, Submitted opts pr s.

Lemma reads_allocates ctx c : reads ctx c = true -> reads_or_allocates ctx c = true.
Proof. unfold reads_or_allocates. by intros ->. Qed.

Lemma reads_after id ctx c : reads ctx c = true -> after_restore id ctx c = true.
Proof. unfold after_restore. by intros ->. Qed.

Lemma allow_mono (f g : ctxkind -> provider_call -> bool) o :
  (forall ctx c, f ctx c = true -> g ctx c = true) -> allow f o -> allow g o.
Proof. destruct o; cbn; eauto. Qed.

Lemma Fresh_Ended opts s : Fresh s -> Ended opts s.
Proof.
  intros [H Hn]. left. split; [|done]. eapply Forall_impl; [exact H|].
  intros o. apply allow_mono, reads_allocates.
Qed.

Lemma Ready_Ended opts pr s : Ready opts pr s -> Ended opts s.
Proof. intros [[H _ _ _] Hn]. by left. Qed.

Lemma Submitted_Ended opts pr s : Submitted opts pr s -> Ended opts s.
Proof. right. eauto. Qed.

(** ** What survives a frame *)

Lemma prepared_extends opts id node t t' :
  prepared opts id node t -> extends (allow reads_or_allocates) t t' -> prepared opts id node t'.
Proof.
  intros [Hr Ha (e & He & ? & ?) (Hn & Hv)] Hx.
  pose proof (extends_Forall _ _ _ Hr Hx). destruct Hx as (k & -> & _).
  split; [done | | |]; unfold allocated, announced, isolation_proven in *.
  - apply elem_of_app. by left.
  - exists e. rewrite elem_of_app. eauto.
  - split; [done|]. destruct Hv as [|(r & ? & ?)]; [by left | right; exists r].
    rewrite elem_of_app. eauto.
Qed.

Lemma Fresh_fr rho s s' : Fresh s -> fr (allow reads) rho s s' -> Fresh s'.
Proof. intros [H Hn] (Hx & _ & _ & _ & Hn'). split; [by eapply extends_Forall | congruence]. Qed.

Lemma Submitted_fr opts pr rho s s' :
  Submitted opts pr s -> fr (allow (after_restore (pr_tempID pr))) rho s s' -> Submitted opts pr s'.
Proof.
  intros [[? ?] (x & [Ht ? ? ? ? ? ? Hn])] (Hx & _ & ? & ? & Hn').
  split; [split; congruence|]. destruct Hx as (k & Hk & HP).
  exists (mkSubmission (sb_before x) (sb_backup x) (sb_opts x) (sb_end x) (sb_after x ++ k)).
  split; cbn; [| done | by apply Forall_app | done.. | by rewrite Hn'].
  rewrite Hk, Ht, !app_nil_r, <- app_assoc. reflexivity.
Qed.

(** ** The steps before the restore *)

Lemma post_fr_reads rho `{!PreOrder rho} (P : ES -> Prop) {A} (m : M ES A) :
  keeps (fr (allow reads) rho) m -> (forall s s', P s -> fr (allow reads) rho s s' -> P s') ->
  post P m (fun _ => P) P.
Proof. intros Hk HP. by eapply post_keeps. Qed.

(** A read: [Fresh], and everything already in the trace, survives it. *)
Definition Isolated (opts : RunOptions) (node : string) (s : ES) : Prop :=
  Fresh s /\ isolation_proven opts node (es_trace s).

Definition Allocated (opts : RunOptions) (id node : string) (s : ES) : Prop :=
  Forall (allow reads_or_allocates) (es_trace s) /\ es_needsCleanup s = false /\
  allocated id (es_trace s) /\ isolation_proven opts node (es_trace s).

Lemma isolation_proven_app opts node t k :
  isolation_proven opts node t -> isolation_proven opts node (t ++ k).
Proof.
  intros (Hn & [|(r & Hin & ?)]); (split; [done|]); [by left | right; exists r].
  rewrite elem_of_app. eauto.
Qed.

Lemma Isolated_fr opts node rho s s' : Isolated opts node s -> fr (allow reads) rho s s' -> Isolated opts node s'.
Proof.
  intros [Hf Hi] Hx. split; [by eapply Fresh_fr|]. destruct Hx as ((k & -> & _) & _).
  by apply isolation_proven_app.
Qed.

Lemma Allocated_fr opts id node rho s s' :
  Allocated opts id node s -> fr (allow reads) rho s s' -> Allocated opts id node s'.
Proof.
  intros (Hr & Hn & Ha & Hi) (Hx & _ & _ & _ & Hn'). split_and!.
  - eapply extends_Forall; [done|]. eapply extends_weaken; [|exact Hx].
    intros o. apply allow_mono, reads_allocates.
  - congruence.
  - destruct Hx as (k & -> & _). apply elem_of_app. by left.
  - destruct Hx as (k & -> & _). by apply isolation_proven_app.
Qed.

Lemma post_Fresh {A} (m : M ES A) :
  keeps (fr (allow reads) same_verdict) m -> post Fresh m (fun _ => Fresh) Fresh.
Proof. intros. eapply (post_fr_reads same_verdict); [done | intros; by eapply Fresh_fr]. Qed.

Lemma discoverBackup_post p : post Fresh (discoverBackup p) (fun _ => Fresh) Fresh.
Proof. apply post_Fresh. keeps_auto. Qed.

Lemma checkNetworkIsolation_post opts node :
  post Fresh (checkNetworkIsolation node (op_Network opts))
    (fun r s => match r with inl _ => Fresh s | inr _ => Isolated opts node s end) Fresh.
Proof.
  unfold checkNetworkIsolation.
  destruct (net_Isolated (op_Network opts)) eqn:Hiso; cbn [negb].
  2: { apply post_ret. done. }
  destruct hv_NetworkValidator as [validate|] eqn:Hv.
  2: { apply post_ret. intros s Hs. split; [done|]. split; [done|]. by left. }
  intros s [Hr Hn]. unfold mbind, M_bind, call, call_with.
  destruct (validate CtxRun node (op_Network opts) (es_world s)) as [o w].
  assert (HF : forall r, Fresh (observe (OCall CtxRun (CallValidateIsolation node (op_Network opts)) r)
                                 (set_es_world w s))).
  { intros r. split; cbn; [|done]. apply Forall_app. split; [done | by apply Forall_singleton]. }
  assert (HI : forall r, (r = EndOk \/ exists e, r = EndErr e /\ Is e ErrIsolationUnverified = true) ->
    Isolated opts node (observe (OCall CtxRun (CallValidateIsolation node (op_Network opts)) r)
                          (set_es_world w s))).
  { intros r Hr'. split; [apply HF|]. split; [done|]. right. exists r. split; [|done].
    cbn. apply elem_of_app. right. by apply list_elem_of_singleton. }
  destruct o as [[e|[]]|?|]; cbn [call_end_of]; try apply HF.
  - destruct (Is e ErrIsolationUnverified) eqn:He; [apply HI | apply HF]. eauto.
  - apply HI. by left.
Qed.

Lemma allocate_post opts node :
  post (Isolated opts node)
    (call_with EndID CtxRun CallAllocateWorkloadID (hv_AllocateWorkloadID CtxRun))
    (fun r s => match r with inl _ => Ended opts s | inr id => Allocated opts id node s end)
    (Ended opts).
Proof.
  intros s [[Hr Hn] Hi]. unfold call_with.
  destruct (hv_AllocateWorkloadID CtxRun (es_world s)) as [o w].
  assert (HA : forall r, Forall (allow reads_or_allocates)
                 (es_trace s ++ [OCall CtxRun CallAllocateWorkloadID r])).
  { intros r. apply Forall_app. split; [|by apply Forall_singleton].
    eapply Forall_impl; [exact Hr|]. intros o'. apply allow_mono, reads_allocates. }
  destruct o as [[e|id]|?|]; cbn [call_end_of]; try (left; split; cbn; auto; fail).
  split_and!; cbn; [apply HA | done | | by apply isolation_proven_app].
  apply elem_of_app. right. by apply list_elem_of_singleton.
Qed.

Lemma Submitted_fr' opts pr s s' rho :
  Submitted opts pr s -> fr (allow reads) rho s s' -> Submitted opts pr s'.
Proof.
  intros H Hf. eapply Submitted_fr; [done|]. eapply fr_weaken; [| done | done].
  intros o. apply allow_mono, reads_after.
Qed.

Lemma Allocated_Ended opts id node s : Allocated opts id node s -> Ended opts s.
Proof. intros (? & ? & _). by left. Qed.

Lemma Isolated_Ended opts node s : Isolated opts node s -> Ended opts s.
Proof. intros [? _]. by apply Fresh_Ended. Qed.

(** Closing a step announces the identity the run carries. *)
Lemma endStep_announces opts id node idx st m e :
  post (fun s => Allocated opts id node s /\ run_TempWorkloadID (es_run s) = id /\ run_Node (es_run s) = node)
    (endStep idx st m e)
    (fun _ s => prepared opts id node (es_trace s) /\ es_needsCleanup s = false) (Ended opts).
Proof.
  intros s (HA & Hid & Hnode). unfold endStep, now, run_, update_run, emit, gets, modify, mbind, M_bind, throw.
  destruct (env_now (es_world s)) as [t w]; cbn.
  destruct (run_Steps (es_run s) !! idx) as [stp|]; cbn; [|by eapply Allocated_Ended].
  destruct HA as (Hr & Hn & Ha & Hi). split; [|done]. split; cbn.
  - apply Forall_app. split; [done | by apply Forall_singleton].
  - apply elem_of_app. by left.
  - eexists. split; [apply elem_of_app; right; by apply list_elem_of_singleton|].
    by split.
  - by apply isolation_proven_app.
Qed.

Lemma failStep_post {A} (P : ES -> Prop) idx m e (R : error + A -> ES -> Prop) Q :
  (forall s s', P s -> fr (allow reads) same_verdict s s' -> P s') ->
  (forall s, P s -> R (inl e) s) -> (forall s, P s -> Q s) ->
  post P (failStep idx m e) R Q.
Proof.
  intros HP HR HQ. unfold failStep. eapply post_bind.
  - eapply post_frame; [apply fr_endStep | exact HP | exact HQ].
  - intros ?. by apply post_ret.
Qed.

Lemma prepareEnvironment_post p opts :
  post Fresh (prepareEnvironment p opts)
    (fun r s => match r with inl _ => Ended opts s | inr pr => Ready opts pr s end) (Ended opts).
Proof.
  unfold prepareEnvironment.
  assert (HF : forall {A} (m : M ES A), keeps (fr (allow reads) same_verdict) m ->
    post Fresh m (fun _ => Fresh) (Ended opts)).
  { intros. eapply post_frame; [done | intros; by eapply Fresh_fr | apply Fresh_Ended]. }
  assert (Hfail : forall P idx m e, (forall s s', P s -> fr (allow reads) same_verdict s s' -> P s') ->
    (forall s, P s -> Ended opts s) ->
    post P (failStep (A := Prepared) idx m e)
      (fun r s => match r with inl _ => Ended opts s | inr pr => Ready opts pr s end) (Ended opts)).
  { intros P idx m e HP HE. by eapply (failStep_post P). }
  eapply post_bind; [apply HF; keeps_auto|]. intros idx.
  eapply post_bind; [apply HF; keeps_auto|]. intros [err|node].
  { apply Hfail; [intros; by eapply Fresh_fr | apply Fresh_Ended]. }
  eapply post_bind.
  { eapply post_weaken; [apply checkNetworkIsolation_post with (opts := opts) | done | | apply Fresh_Ended].
    intros r s Hr. exact Hr. }
  intros [err|[]].
  { apply Hfail; [intros; by eapply Fresh_fr | apply Fresh_Ended]. }
  eapply post_bind.
  { eapply post_frame; [apply (fr_checkCapacity reads); auto | intros; by eapply Isolated_fr
      | apply (Isolated_Ended opts node)]. }
  intros [err|[]].
  { apply Hfail; [intros; by eapply Isolated_fr | apply (Isolated_Ended opts node)]. }
  eapply post_bind; [apply allocate_post|]. intros [err|id].
  { apply Hfail; [| done]. intros s s' [[Hr Hn]|(pr & Hs)] Hx.
    - left. destruct Hx as (Hx & _ & _ & _ & Hn'). split; [|congruence].
      eapply extends_Forall; [done|]. eapply extends_weaken; [|exact Hx].
      intros o. apply allow_mono, reads_allocates.
    - right. exists pr. by eapply Submitted_fr'. }
  assert (HA : forall {A} (m : M ES A), keeps (fr (allow reads) same_verdict) m ->
    post (Allocated opts id node) m (fun _ => Allocated opts id node) (Ended opts)).
  { intros. eapply post_frame; [done | intros; by eapply Allocated_fr | apply (Allocated_Ended opts id node)]. }
  eapply post_bind; [apply HA; keeps_auto|]. intros t1.
  eapply post_bind; [apply HA; keeps_auto|]. intros run.
  eapply post_bind; [apply HA; keeps_auto|]. intros t2.
  eapply post_bind with (R1 := fun _ s => Allocated opts id node s /\
    run_TempWorkloadID (es_run s) = id /\ run_Node (es_run s) = node).
  { intros s HAs. cbn. split_and!; [exact HAs | done..]. }
  intros _. eapply post_bind; [apply endStep_announces|]. intros ?.
  by apply post_ret.
Qed.

(** ** The restore *)

Lemma restore_call_post opts pr b ro :
  ro_TargetWorkloadID ro = pr_tempID pr -> ro_Node ro = pr_node pr ->
  ro_Network ro = op_Network opts -> ro_Start ro = false ->
  post (fun s => Ready opts pr s /\ Named pr s)
    (call CtxRun (CallRestore b ro) (hv_Restore CtxRun b ro))
    (fun r s => match r with
                | inl _ => Submitted opts pr s
                | inr _ => Submitted opts pr (set_es_needsCleanup true s)
                end)
    (Submitted opts pr).
Proof.
  intros Ht Hno Hn Hst s [[Hp Hnd] Hnm]. unfold call, call_with.
  destruct (hv_Restore CtxRun b ro (es_world s)) as [o w].
  assert (HS : forall r needs, (needs = true <-> r = EndOk) ->
    submitted opts (pr_tempID pr) (pr_node pr) needs
      (mkSubmission (es_trace s) b ro r []) (es_trace s ++ [OCall CtxRun (CallRestore b ro) r]) []).
  { intros r needs Hr. by split. }
  destruct o as [[e|j]|?|]; cbn [call_end_of];
    (split; [exact Hnm|]; eexists; apply HS; cbn; try rewrite Hnd; split; congruence).
Qed.

Lemma Ready_fr opts pr rho s s' : Ready opts pr s -> fr (allow reads) rho s s' -> Ready opts pr s'.
Proof.
  intros [Hp Hn] (Hx & _ & _ & _ & Hn'). split; [|congruence].
  eapply prepared_extends; [done|]. eapply extends_weaken; [|exact Hx].
  intros o. apply allow_mono, reads_allocates.
Qed.

Lemma Named_fr pr P rho s s' : Named pr s -> fr P rho s s' -> Named pr s'.
Proof. intros [? ?] (_ & _ & ? & ? & _). split; congruence. Qed.

Lemma post_Submitted opts pr {A} (m : M ES A) :
  keeps (fr (allow (after_restore (pr_tempID pr))) same_verdict) m ->
  post (Submitted opts pr) m (fun _ => Submitted opts pr) (Ended opts).
Proof.
  intros Hm. eapply post_frame; [exact Hm | intros; by eapply Submitted_fr | apply (Submitted_Ended opts pr)].
Qed.

Hint Resolve reads_after : keeps.

Lemma after_start id : after_restore id CtxRun (CallStart id) = true.
Proof. unfold after_restore; cbn. by rewrite bool_decide_true. Qed.

Lemma after_finalize id ro :
  ro_TargetWorkloadID ro = id -> after_restore id CtxRun (CallFinalizeRestore ro) = true.
Proof. intros <-. unfold after_restore; cbn. by rewrite bool_decide_true. Qed.
Hint Resolve after_start after_finalize : keeps.

Lemma Submitted_failStep opts pr {A} idx m e :
  post (Submitted opts pr) (failStep (A := A) idx m e)
    (fun r s => match r with inl _ => Ended opts s | inr _ => Submitted opts pr s end) (Ended opts).
Proof.
  eapply failStep_post; [intros; by eapply Submitted_fr' | | apply Submitted_Ended].
  intros s Hs. by apply (Submitted_Ended opts pr).
Qed.

Lemma post_ok {A} opts pr (a : A) :
  post (Submitted opts pr) (mret (inr a))
    (fun (r : error + A) s => match r with inl _ => Ended opts s | inr _ => Submitted opts pr s end)
    (Ended opts).
Proof. by apply post_ret. Qed.

Lemma restoreWorkload_post p opts pr :
  post (fun s => Ready opts pr s /\ Named pr s) (restoreWorkload p opts pr)
    (fun r s => match r with inl _ => Ended opts s | inr _ => Submitted opts pr s end) (Ended opts).
Proof.
  unfold restoreWorkload. cbv zeta.
  assert (HR : forall {A} (m : M ES A), keeps (fr (allow reads) same_verdict) m ->
    post (fun s => Ready opts pr s /\ Named pr s) m (fun _ s => Ready opts pr s /\ Named pr s) (Ended opts)).
  { intros A m Hm. eapply post_frame; [exact Hm | | intros s [? _]; by eapply Ready_Ended].
    intros s s' [? ?] ?. split; [by eapply Ready_fr | by eapply Named_fr]. }
  eapply post_bind; [apply HR; keeps_auto|]. intros idx.
  eapply post_bind; [apply HR; keeps_auto|]. intros run.
  eapply post_bind; [apply HR; keeps_auto|]. intros backup.
  eapply post_bind.
  { eapply post_weaken; [by apply (restore_call_post opts pr) | done | intros a s H; exact H
      | apply (Submitted_Ended opts pr)]. }
  intros [err|job]; [apply Submitted_failStep|].
  eapply post_bind with (R1 := fun _ => Submitted opts pr). { intros s Hs. exact Hs. } intros ?.
  eapply post_bind; [apply post_Submitted; keeps_auto|]. intros [waitErr|task]; [apply Submitted_failStep|].
  destruct (match task with
    | Some t => if task_Success t then None
      else if nonempty (task_Message t) then Some (task_Message t) else Some "restore task reported failure"
    | None => Some "restore task reported failure" end) as [msg|]; [apply Submitted_failStep|].
  eapply post_bind; [apply post_Submitted; keeps_auto|]. intros [ferr|?]; [apply Submitted_failStep|].
  eapply post_bind; [apply post_Submitted; keeps_auto|]. intros ?. apply post_ok.
Qed.

(** ** The workflow *)

Lemma post_Ended {A} opts (m : M ES A) :
  keeps (fr (allow (fun _ _ => false)) same_temp) m -> post (Ended opts) m (fun _ => Ended opts) (Ended opts).
Proof.
  intros Hm. eapply post_keeps; [exact Hm|]. intros s s' [[Hr Hn]|(pr & Hs)] Hx.
  - left. destruct Hx as (Hx & _ & _ & _ & Hn'). split; [|congruence].
    eapply extends_Forall; [done|]. eapply extends_weaken; [|exact Hx].
    intros o. by apply allow_mono.
  - right. exists pr. eapply Submitted_fr; [done|]. eapply fr_weaken; [|done|exact Hx].
    intros o. by apply allow_mono.
Qed.

Lemma orFail_post {A} opts P (m : M ES (error + A)) (k : A -> M ES (option error)) R :
  post P m (fun r s => match r with inl _ => Ended opts s | inr a => R a s end) (Ended opts) ->
  (forall a, post (R a) (k a) (fun _ => Ended opts) (Ended opts)) ->
  post P (orFail m k) (fun _ => Ended opts) (Ended opts).
Proof.
  intros Hm Hk. unfold orFail. eapply post_bind; [exact Hm|]. intros [err|a]; [|apply Hk].
  eapply post_bind; [apply post_Ended; unfold markFailed; keeps_auto|]. intros ?. by apply post_ret.
Qed.

Lemma runDryRun_frame p opts : keeps (fr (allow reads) same_temp) (runDryRun (W := W) p opts).
Proof.
  assert (Hw : forall {A} (m : M ES A), keeps (fr (allow reads) same_verdict) m ->
    keeps (fr (allow reads) same_temp) m).
  { intros A m Hm. eapply keeps_impl; [exact Hm|]. intros s s' H. eapply fr_weaken; [done | | exact H].
    by intros r r' [? _]. }
  unfold runDryRun, dryFail, markFailed. repeat first
    [ progress keeps_step | apply Hw; solve [keeps_auto] ].
Qed.

Lemma workflow_post p opts : post Fresh (workflow p opts) (fun _ => Ended opts) (Ended opts).
Proof.
  unfold workflow. destruct (op_DryRun opts).
  { eapply post_weaken; [eapply post_keeps; [apply runDryRun_frame | intros; by eapply Fresh_fr] | done
      | intros a s H; by apply Fresh_Ended | intros s H; by apply Fresh_Ended]. }
  eapply orFail_post with (R := fun _ => Fresh).
  { eapply post_weaken; [apply discoverBackup_post | done | | apply Fresh_Ended].
    intros [e|?] s Hs; [by apply Fresh_Ended | done]. }
  intros ?. eapply orFail_post; [apply prepareEnvironment_post|]. intros pr.
  eapply post_bind with (R1 := fun _ s => Ready opts pr s /\ Named pr s).
  { intros s [? ?]. by split. }
  intros ?. eapply orFail_post; [apply restoreWorkload_post|]. intros ?.
  assert (HS : forall {A} (m : M ES (error + A)), keeps (fr (allow (after_restore (pr_tempID pr))) same_verdict) m ->
    post (Submitted opts pr) m
      (fun r s => match r with inl _ => Ended opts s | inr _ => Submitted opts pr s end) (Ended opts)).
  { intros A m Hm. eapply post_weaken; [by apply post_Submitted | done | | done].
    intros [e|?] s Hs; [by apply (Submitted_Ended opts pr) | done]. }
  eapply orFail_post with (R := fun _ => Submitted opts pr); [apply HS; keeps_auto|]. intros ?.
  eapply orFail_post with (R := fun _ => Submitted opts pr); [apply HS; keeps_auto|]. intros target.
  assert (HE : forall {A} (m : M ES A), keeps (fr (allow (after_restore (pr_tempID pr))) same_temp) m ->
    post (Submitted opts pr) m (fun _ => Ended opts) (Ended opts)).
  { intros A m Hm. eapply post_weaken;
      [eapply post_frame; [exact Hm | intros; by eapply Submitted_fr | apply (Submitted_Ended opts pr)]
      | done | intros; by apply (Submitted_Ended opts pr) | done]. }
  apply HE. unfold measureRTO, gradeSuccess, markInconclusive, markFailed.
  assert (Hrc : keeps (fr (allow (after_restore (pr_tempID pr))) same_temp) (runChecks p target)).
  { eapply keeps_impl; [apply fr_runChecks, reads_after|]. intros s s' H.
    eapply fr_weaken; [done | | exact H]. by intros r r' [? _]. }
  keeps_auto.
Qed.

(** ** Cleanup *)

Definition no_call (_ : ctxkind) (_ : provider_call) : bool := false.

Definition Stopping (opts : RunOptions) (id node : string) (s : ES) : Prop :=
  exists x tail, submitted opts id node (es_needsCleanup s) x (es_trace s) tail /\
    Forall (allow (stops id)) tail.

(** However cleanup ends. *)
Definition Cleaned (opts : RunOptions) (s : ES) : Prop :=
  (Forall (allow reads_or_allocates) (es_trace s) /\ es_needsCleanup s = false) \/
  exists id node x tail, submitted opts id node (es_needsCleanup s) x (es_trace s) tail /\
    cleanup_tail id tail.

Lemma submitted_extends opts id node needs x t tail k :
  submitted opts id node needs x t tail -> submitted opts id node needs x (t ++ k) (tail ++ k).
Proof.
  intros [Ht ? ? ? ? ? ? ?]. split; try done.
  rewrite Ht, <- app_assoc. cbn. by rewrite <- app_assoc.
Qed.

Lemma cleanup_tail_app id t k :
  cleanup_tail id t -> Forall (allow no_call) k -> cleanup_tail id (t ++ k).
Proof.
  intros [Ht|(u & r & v & -> & Hu & Hv)] Hk.
  - left. apply Forall_app. split; [done|]. eapply Forall_impl; [exact Hk|].
    intros o. by apply allow_mono.
  - right. exists u, r, (v ++ k). rewrite <- app_assoc. split_and!; [done..|]. by apply Forall_app.
Qed.

Lemma Stopping_fr opts id node rho s s' :
  Stopping opts id node s -> fr (allow (stops id)) rho s s' -> Stopping opts id node s'.
Proof.
  intros (x & tail & Hs & Ht) ((k & Hk & HP) & _ & _ & _ & Hn). exists x, (tail ++ k).
  rewrite Hk, Hn. split; [by apply submitted_extends | by apply Forall_app].
Qed.

Lemma Stopping_Cleaned opts id node s : Stopping opts id node s -> Cleaned opts s.
Proof. intros (x & tail & Hs & Ht). right. exists id, node, x, tail. split; [done | by left]. Qed.

Lemma Cleaned_fr opts rho s s' : Cleaned opts s -> fr (allow no_call) rho s s' -> Cleaned opts s'.
Proof.
  intros [[Hr Hn]|(id & node & x & tail & Hs & Ht)] ((k & Hk & HP) & _ & _ & _ & Hn').
  - left. rewrite Hk, Hn'. split; [|done]. apply Forall_app. split; [done|].
    eapply Forall_impl; [exact HP|]. intros o. by apply allow_mono.
  - right. exists id, node, x, (tail ++ k). rewrite Hk, Hn'.
    split; [by apply submitted_extends | by apply cleanup_tail_app].
Qed.

Lemma Submitted_Stopping opts pr s : Submitted opts pr s -> Stopping opts (pr_tempID pr) (pr_node pr) s.
Proof. intros [_ (x & Hx)]. by exists x, []. Qed.

Lemma Ended_Cleaned opts s : Ended opts s -> Cleaned opts s.
Proof. intros [H|(pr & H)]; [by left|]. by eapply Stopping_Cleaned, Submitted_Stopping. Qed.

Lemma delete_post opts id node :
  post (Stopping opts id node) (call CtxDetached (CallDelete id) (hv_Delete CtxDetached id))
    (fun _ => Cleaned opts) (Cleaned opts).
Proof.
  intros s (x & tail & Hs & Ht). unfold call, call_with.
  destruct (hv_Delete CtxDetached id (es_world s)) as [o w].
  assert (HC : forall r, Cleaned opts (observe (OCall CtxDetached (CallDelete id) r) (set_es_world w s))).
  { intros r. right. exists id, node, x, (tail ++ [OCall CtxDetached (CallDelete id) r]).
    split; [by apply submitted_extends|]. right. by exists tail, r, []. }
  destruct o as [[e|[]]|?|]; apply HC.
Qed.

Lemma post_Cleaned {A} opts (m : M ES A) rho `{!PreOrder rho} :
  keeps (fr (allow no_call) rho) m -> post (Cleaned opts) m (fun _ => Cleaned opts) (Cleaned opts).
Proof. intros Hm. eapply post_keeps; [exact Hm | intros; by eapply Cleaned_fr]. Qed.

Lemma stops_stop id : stops id CtxDetached (CallStop id) = true.
Proof. unfold stops. by rewrite !bool_decide_true. Qed.
Hint Resolve stops_stop : keeps.

Lemma destroy_post opts id node node' g :
  post (Stopping opts id node) (destroy id node' g) (fun _ => Cleaned opts) (Cleaned opts).
Proof.
  assert (HS : forall {A} (m : M ES A), keeps (fr (allow (stops id)) same_verdict) m ->
    post (Stopping opts id node) m (fun _ => Stopping opts id node) (Cleaned opts)).
  { intros A m Hm. eapply post_frame; [exact Hm | intros; by eapply Stopping_fr
      | apply (Stopping_Cleaned opts id node)]. }
  unfold destroy.
  eapply post_bind; [apply HS; keeps_auto|]. intros idx.
  eapply post_bind; [apply HS; keeps_auto|]. intros ?.
  eapply post_bind; [apply delete_post|]. intros [derr|?]; cbv beta;
    apply (post_Cleaned opts _ same_verdict); keeps_auto.
Qed.

Lemma cleanup_post p opts s0 :
  post (fun s => Ended opts s /\ s = s0)
    (cleanup p opts (es_tempID s0) (es_node s0) (es_needsCleanup s0))
    (fun _ => Cleaned opts) (Cleaned opts).
Proof.
  assert (HC : forall (m : M ES (option error)), keeps (fr (allow no_call) same_verdict) m ->
    post (fun s => Ended opts s /\ s = s0) m (fun _ => Cleaned opts) (Cleaned opts)).
  { intros m Hm s [HE ->]. by apply (post_Cleaned opts m same_verdict), Ended_Cleaned. }
  unfold cleanup. destruct (es_needsCleanup s0) eqn:Hn; cbn [negb].
  2: { apply HC. keeps_auto. }
  eapply post_bind with (R1 := fun _ s => Ended opts s /\ s = s0); [by apply post_gets|].
  intros run. cbv zeta.
  unfold recordCleanupSkipped.
  repeat (case_match; [apply HC; keeps_auto|]).
  intros s [[[_ Hn']|(pr & Hs)] ->]; [congruence|].
  pose proof Hs as [[Hid Hnode] _]. rewrite Hid.
  apply (destroy_post opts (pr_tempID pr) (pr_node pr)). by apply Submitted_Stopping.
Qed.

Lemma settle_post opts r : post (Ended opts) (settle_workflow r) (fun _ => Ended opts) (Ended opts).
Proof.
  apply post_Ended. unfold settle_workflow, markFailed, markCancelled. cbv zeta. keeps_auto.
Qed.

Lemma Fresh_newRun p opts w : Fresh (newRun p opts w).
Proof. unfold newRun. destruct (env_now w). by split. Qed.

(** The shape of every run, however it ends. *)
Lemma run_shape p opts w : Cleaned opts (Run p opts w).2.
Proof.
  enough (H : post Fresh (run_body p opts) (fun _ => Cleaned opts) (Cleaned opts)).
  { specialize (H _ (Fresh_newRun p opts w)). unfold Run. by destruct (run_body _ _ _) as [[| |] ?]. }
  unfold run_body.
  eapply post_bind with (R1 := fun _ => Ended opts).
  { eapply post_weaken; [apply post_try, workflow_post | done | | apply Ended_Cleaned].
    intros [?|?] ? Hs0; exact Hs0. }
  intros r. eapply post_bind with (R1 := fun _ => Ended opts).
  { eapply post_weaken; [apply settle_post | done | done | apply Ended_Cleaned]. }
  intros werr. eapply post_bind with (R1 := fun s0 s => Ended opts s /\ s = s0).
  { intros s Hs. by split. }
  intros s0. eapply post_bind; [apply cleanup_post|]. intros cerr.
  eapply post_bind with (R1 := fun _ => Cleaned opts).
  { apply (post_Cleaned opts _ same_id). unfold finalize. keeps_auto. }
  intros ?. by apply post_ret.
Qed.
End Shape.
