(* ===== verification/EngineSafety.v ===== *)
(** * Safety of every run of the recovery engine

    Consequences of [EngineShape.run_shape]: what the engine may do to a
    hypervisor, in every run, however the providers behave and however the run
    ends (a panic and a call that never returns included). *)

From Stdlib Require Import ZArith Lia String List.
From S2P Require Import Prelude GoTime Errors Core Plan Engine EngineFrame EngineShape.

(** ** Kinds of observation *)

Definition is_call (g : provider_call -> bool) (o : obs) : bool :=
  match o with OCall _ c _ => g c | OEvent _ => false end.
Definition is_restore : obs -> bool := is_call (fun c => match c with CallRestore _ _ => true | _ => false end).
Definition is_delete : obs -> bool := is_call (fun c => match c with CallDelete _ => true | _ => false end).
Definition is_stop : obs -> bool := is_call (fun c => match c with CallStop _ => true | _ => false end).
Definition is_alloc : obs -> bool := is_call (fun c => match c with CallAllocateWorkloadID => true | _ => false end).

(** The calls made on the detached context. *)
Definition is_detached (o : obs) : bool :=
  match o with OCall CtxDetached _ _ => true | _ => false end.

(** A call that creates, changes or destroys a workload. *)
Definition mutates (c : provider_call) : bool :=
  match target_of c with Some _ => true | None => false end.

(** A frame excludes a kind of observation its test never allows. *)
Lemma allow_excludes (f : ctxkind -> provider_call -> bool) (g : obs -> bool) t :
  (forall ctx c r, f ctx c = true -> g (OCall ctx c r) = false) -> (forall e, g (OEvent e) = false) ->
  Forall (allow f) t -> Forall (fun o => g o = false) t.
Proof. intros Hc He H. eapply Forall_impl; [exact H|]. intros [e|ctx c r]; cbn; auto. Qed.

Ltac excludes :=
  eapply allow_excludes; [| done | eassumption];
  let ctx := fresh in let c := fresh in
  intros ctx c ?; unfold reads_or_allocates, reads, after_restore, reads, stops, is_run_ctx;
  destruct ctx, c; cbn; done.

Section Safety.
Context {W : Type} `{!EngineEnv W} (p : Plan) (opts : RunOptions) (w : W).
Abbreviation s := (Run p opts w).2.
Abbreviation trace := (es_trace (Run p opts w).2).

(** The two shapes a trace can have, with the positions of its calls. *)
Lemma trace_cases :
  (Forall (allow reads_or_allocates) trace /\ es_needsCleanup s = false) \/
  exists id node x tail, submitted opts id node (es_needsCleanup s) x trace tail /\ cleanup_tail id tail.
Proof. exact (run_shape p opts w). Qed.

Lemma tail_no_restore id t : cleanup_tail id t -> Forall (fun o => is_restore o = false) t.
Proof.
  intros [H|(u & r & v & -> & Hu & Hv)]; [excludes|].
  apply Forall_app; split; [excludes|]. constructor; [done | excludes].
Qed.

(** Nothing but the submission restores in a submitted trace. *)
Lemma submitted_around id node needs x t tail :
  submitted opts id node needs x t tail -> cleanup_tail id tail ->
  Forall (fun o => is_restore o = false) (sb_before x) /\
  Forall (fun o => is_restore o = false) (sb_after x ++ tail).
Proof.
  intros [_ [Hr _ _ _] Ha _ _ _ _ _] Htail. split; [excludes|].
  apply Forall_app. split; [excludes | by eapply tail_no_restore].
Qed.

Lemma submitted_unique id node needs x t tail pre ctx b ro r post :
  submitted opts id node needs x t tail -> cleanup_tail id tail ->
  t = pre ++ OCall ctx (CallRestore b ro) r :: post ->
  pre = sb_before x /\ OCall ctx (CallRestore b ro) r = OCall CtxRun (CallRestore (sb_backup x) (sb_opts x)) (sb_end x) /\
  post = sb_after x ++ tail.
Proof.
  intros Hs Htail E. pose proof (submitted_around _ _ _ _ _ _ Hs Htail) as [Hb Ha].
  rewrite (sub_trace _ _ _ _ _ _ _ Hs) in E.
  by apply (unique_split is_restore) in E.
Qed.

(** C1: a run submits a restore at most once, and guarded. Wherever the trace of
    a run holds a restore, on whatever context, it is the only one of the trace;
    it was submitted on the run's own context, after its target was allocated by
    the hypervisor and announced to the listener together with the node it is
    restored onto, only onto a network that is marked isolated and that, where
    the provider can validate networks, the provider proved isolated on that
    node or said it could not read; always onto the network the run was given
    and never with the workload started. *)
Theorem restore_guarded pre ctx b ro r post :
  trace = pre ++ OCall ctx (CallRestore b ro) r :: post ->
  ctx = CtxRun /\ Forall (fun o => is_restore o = false) (pre ++ post) /\
  allocated (ro_TargetWorkloadID ro) pre /\
  announced (ro_TargetWorkloadID ro) (ro_Node ro) pre /\ isolation_proven opts (ro_Node ro) pre /\
  ro_Network ro = op_Network opts /\ net_Isolated (ro_Network ro) = true /\ ro_Start ro = false.
Proof.
  intros E. destruct trace_cases as [[Hr _]|(id & node & x & tail & Hs & Ht)].
  - rewrite E in Hr. apply Forall_app in Hr as [_ Hr]. inversion Hr as [|? ? Hc]; by destruct ctx.
  - destruct (submitted_unique _ _ _ _ _ _ _ _ _ _ _ _ Hs Ht E) as (-> & [= -> -> -> ->] & ->).
    pose proof (submitted_around _ _ _ _ _ _ Hs Ht) as Hno.
    destruct Hs as [_ [_ Hal Han Hi] _ <- <- Hn Hst _]. split_and!; try done; [by apply Forall_app|].
    rewrite Hn. apply Hi.
Qed.

Lemma allow_mutates t :
  Forall (allow reads_or_allocates) t -> Forall (fun o => is_call mutates o = false) t.
Proof. intros. excludes. Qed.

(** The call of a submitted trace that mutates a workload mutates the one the
    prefix allocated, and comes after that prefix. *)
Lemma submitted_mutation id node needs x t tail pre ctx c r post tgt :
  submitted opts id node needs x t tail -> cleanup_tail id tail ->
  t = pre ++ OCall ctx c r :: post -> target_of c = Some tgt ->
  tgt = id /\ exists k, pre = sb_before x ++ k.
Proof.
  intros [Ht Hp Ha Hid _ Hn Hs _] Htail E Htgt. rewrite Ht in E.
  pose proof (allow_mutates _ (prep_reads _ _ _ _ Hp)) as Hb.
  assert (Hm : is_call mutates (OCall ctx c r) = true). { cbn. unfold mutates. by rewrite Htgt. }
  assert (Hpos : exists k, pre = sb_before x ++ k /\
    OCall CtxRun (CallRestore (sb_backup x) (sb_opts x)) (sb_end x) :: sb_after x ++ tail
      = k ++ OCall ctx c r :: post).
  { apply app_eq_app in E as [k [[E1 E2]|[E1 E2]]]; [|by exists k].
    destruct k as [|o k]; simpl in E2.
    - exists []. rewrite app_nil_r in *. by subst.
    - injection E2 as <- _. rewrite E1 in Hb. apply Forall_app in Hb as [_ Hb].
      inversion Hb; congruence. }
  destruct Hpos as (k & -> & E'). split; [|by exists k].
  assert (Hall : Forall (fun o => match o with OEvent _ => True
                   | OCall _ c _ => forall i, target_of c = Some i -> i = id end)
    (OCall CtxRun (CallRestore (sb_backup x) (sb_opts x)) (sb_end x) :: sb_after x ++ tail)).
  { constructor; [cbn; congruence|]. apply Forall_app. split.
    - eapply Forall_impl; [exact Ha|]. intros [e|cx c' r']; [done|].
      unfold allow, after_restore. cbn. intros Hal i Hi.
      destruct cx, c'; cbn in Hal; try discriminate; cbn in Hi; injection Hi as <-;
        by case_bool_decide.
    - assert (Hst : forall u, Forall (allow (stops id)) u -> Forall (fun o => match o with OEvent _ => True
                   | OCall _ c _ => forall i, target_of c = Some i -> i = id end) u).
      { intros u Hu. eapply Forall_impl; [exact Hu|]. intros [e|cx c' r']; [done|].
        unfold allow, stops. intros Hal i Hi. destruct c'; rewrite ?andb_false_r in Hal; try discriminate.
        cbn in Hi. injection Hi as <-. apply andb_true_iff in Hal as [_ Hal]. by case_bool_decide. }
      destruct Htail as [Hu|(u & r' & v & -> & Hu & Hv)]; [by apply Hst|].
      apply Forall_app. split; [by apply Hst|]. constructor; [cbn; congruence|].
      eapply Forall_impl; [exact Hv|]. by intros [e|cx c' r'']. }
  rewrite E' in Hall. apply Forall_app in Hall as [_ Hall]. inversion Hall as [|? ? H]. by apply H.
Qed.

Lemma mutation_allocated pre ctx c r post id :
  trace = pre ++ OCall ctx c r :: post -> target_of c = Some id ->
  allocated id pre /\ exists node, announced id node pre.
Proof.
  intros E Hc. destruct trace_cases as [[Hr _]|(id' & node & x & tail & Hs & Ht)].
  - apply allow_mutates in Hr. rewrite E in Hr. apply Forall_app in Hr as [_ Hr].
    inversion Hr as [|? ? Hm]. cbn in Hm. unfold mutates in Hm. by rewrite Hc in Hm.
  - destruct (submitted_mutation _ _ _ _ _ _ _ _ _ _ _ _ Hs Ht E Hc) as [-> [k ->]].
    destruct Hs as [_ [_ Hal (e & He & ? & ?) _] _ _ _ _ _ _].
    split; [apply elem_of_app; by left|]. exists node, e. rewrite elem_of_app. auto.
Qed.

(** C2: every call that creates, changes, starts, stops or deletes a workload
    names a workload identity that was allocated for this run before that call
    and announced before it; the engine never touches another workload. *)
Theorem only_own_workload pre ctx c r post id :
  trace = pre ++ OCall ctx c r :: post -> target_of c = Some id ->
  allocated id pre /\ exists node, announced id node pre.
Proof. exact (mutation_allocated pre ctx c r post id). Qed.

(** A run submits at most one restore and at most one delete, which is
    never retried; workloads are stopped and deleted on the detached context of
    the cleanup only, and nothing else runs on that context. *)
Theorem call_budget :
  (countb is_restore trace <= 1)%nat /\ (countb is_delete trace <= 1)%nat /\
  Forall (fun o => is_detached o = (is_stop o || is_delete o)) trace.
Proof.
  destruct trace_cases as [[Hr _]|(id & node & x & tail & [-> Hp Ha _ _ _ _ _] & Ht)].
  - assert (Hx : Forall (fun o => is_restore o = false) trace) by excludes.
    assert (Hd : Forall (fun o => is_delete o = false) trace) by excludes.
    rewrite (countb_0 _ _ Hx), (countb_0 _ _ Hd). split_and!; [lia..|].
    eapply Forall_impl; [exact Hr|]. intros [e|[] []]; done.
  - destruct Hp as [Hr _ _ _].
    assert (Hx : Forall (fun o => is_restore o = false) (sb_after x ++ tail)).
    { apply Forall_app. split; [excludes | by eapply tail_no_restore]. }
    rewrite (countb_one is_restore) by (done || excludes).
    assert (Hd : Forall (fun o => is_delete o = false) (sb_before x)) by excludes.
    assert (Hd' : Forall (fun o => is_delete o = false) (sb_after x)) by excludes.
    assert (Hb : Forall (fun o => is_detached o = (is_stop o || is_delete o)) (sb_before x)).
    { eapply Forall_impl; [exact Hr|]. intros [e|[] []]; done. }
    assert (Hb' : Forall (fun o => is_detached o = (is_stop o || is_delete o)) (sb_after x)).
    { eapply Forall_impl; [exact Ha|]. intros [e|[] []]; done. }
    assert (Hst : forall u, Forall (allow (stops id)) u ->
      Forall (fun o => is_detached o = (is_stop o || is_delete o)) u /\
      Forall (fun o => is_delete o = false) u).
    { intros u Hu. split; [|excludes]. eapply Forall_impl; [exact Hu|]. intros [e|[] []]; done. }
    split; [lia|]. rewrite countb_app, (countb_0 _ _ Hd). unfold countb; simpl.
    change (length (List.filter is_delete (sb_after x ++ tail))) with (countb is_delete (sb_after x ++ tail)).
    rewrite countb_app, (countb_0 _ _ Hd').
    destruct Ht as [Hu|(u & r & v & -> & Hu & Hv)].
    + destruct (Hst _ Hu) as [H1 H2]. rewrite (countb_0 _ _ H2). split; [lia|].
      apply Forall_app; split; [done|]. constructor; [done|]. by apply Forall_app.
    + destruct (Hst _ Hu) as [H1 H2].
      assert (Hv' : Forall (fun o => is_delete o = false) v) by excludes.
      rewrite (countb_one is_delete) by done. split; [lia|].
      apply Forall_app; split; [done|]. constructor; [done|].
      apply Forall_app; split; [done|]. apply Forall_app; split; [done|]. constructor; [done|].
      eapply Forall_impl; [exact Hv|]. by intros [e|cx c r'].
Qed.

End Safety.

(** ** The theorems at work *)

(** The restore is observation 9 of the simulated drill. *)
Lemma restore_guarded_witness :
  let t := es_trace (Run sim_plan sim_opts sim_world).2 in
  exists pre b ro r post, t = pre ++ OCall CtxRun (CallRestore b ro) r :: post /\
    Forall (fun o => is_restore o = false) (pre ++ post) /\
    allocated (ro_TargetWorkloadID ro) pre /\
    announced (ro_TargetWorkloadID ro) (ro_Node ro) pre /\ isolation_proven sim_opts (ro_Node ro) pre /\
    ro_Network ro = op_Network sim_opts /\ net_Isolated (ro_Network ro) = true /\ ro_Start ro = false.
Proof.
  intros t. exists (take 9 t). do 3 eexists. exists (drop 10 t).
  assert (E : t = take 9 t ++ OCall CtxRun (CallRestore sim_backup
    (restoreOptions sim_plan sim_opts (mkPrepared "9001" "restorelab-101-20240425000000"
      (workloadMetadata "run-1" "101" (739000 * Time.day_ns)) "pve1"))) EndOk :: drop 10 t)
    by (vm_compute; reflexivity).
  split; [exact E | exact (proj2 (restore_guarded sim_plan sim_opts sim_world _ _ _ _ _ _ E))].
Defined.

Lemma only_own_workload_witness :
  let t := es_trace (Run sim_plan sim_opts sim_world).2 in
  exists pre post, t = pre ++ OCall CtxDetached (CallDelete "9001") EndOk :: post /\
    allocated "9001" pre /\ exists node, announced "9001" node pre.
Proof.
  intros t. exists (take 25 t), (drop 26 t).
  assert (E : t = take 25 t ++ OCall CtxDetached (CallDelete "9001") EndOk :: drop 26 t)
    by (vm_compute; reflexivity).
  split; [exact E|]. exact (only_own_workload sim_plan sim_opts sim_world _ _ _ _ _ _ E eq_refl).
Defined.
