(* ===== verification/EngineVerdict.v ===== *)
(** * The verdict of a run

    What the run record says when [Run] returns, and what it took to say it:
    the state, result and error agree with what the workflow returned, a
    success needs every critical check, the proof level is the one the guest
    agent and the passed checks established, and cleanup either destroyed the
    workload, kept it because policy says so, or reported that it could not. *)

From Stdlib Require Import ZArith Lia String List.
From S2P Require Import Prelude GoTime Errors Core Plan Engine EngineFrame EngineShape EngineSafety.

(** ** Views of the run *)

(** What the grading reads and writes, apart from the state. *)
Definition grade_view (r : RecoveryRun) :=
  (run_ID r, run_Result r, run_Checks r, run_RTO r, run_RTOTarget r, run_ProofLevel r).
(** All of the run except its timeline. *)
Definition outcome_view (r : RecoveryRun) := (grade_view r, run_State r, run_Err r, run_CleanupDone r).
(** What has been proven so far. *)
Definition proof_view (r : RecoveryRun) := (run_Checks r, run_ProofLevel r).

Definition any_call (_ : ctxkind) (_ : provider_call) : bool := true.
(** The calls that prove nothing: all but the polls of the guest and the
    checks. *)
Definition quiet_call (_ : ctxkind) (c : provider_call) : bool :=
  match c with CallGetStatus _ | CallRunAll => false | _ => true end.

Ltac solve_view :=
  intros; unfold same_of, outcome_view, grade_view, proof_view; cbn;
  repeat match goal with |- context [if ?b then _ else _] => destruct b; cbn end; reflexivity.
#[export] Hint Extern 1 (same_of _ _ _) => solve_view : keeps.

(** Some status of the guest said that it was up, as the plan asks it. *)
Definition ready_seen (p : Plan) (t : list obs) : Prop :=
  exists id st, OCall CtxRun (CallGetStatus id) (EndStatus (Some st)) ∈ t /\ guestReady st p = true.
(** The critical checks all passed, and the result says whether anything else
    went wrong. *)
Definition critical_passed (p : Plan) (r : RecoveryRun) : Prop :=
  forall c, c ∈ run_Checks r -> critical_lookup (criticalMap p) (cr_Name c) = true -> OK c = true.
Definition graded_as (p : Plan) (r : RecoveryRun) : RunResult :=
  if RTOExceeded r || noncritical_failure p (run_Checks r) then ResultDegraded else ResultSuccess.

(** The evidence in a trace. A poll proves the boot when the guest is up the way
    the plan asks it and its agent answers; the results of the checks are the
    ones their runner returned last. *)
Definition boots (p : Plan) (o : obs) : bool :=
  match o with
  | OCall CtxRun (CallGetStatus _) (EndStatus (Some st)) => guestReady st p && ws_AgentReady st
  | _ => false
  end.
Definition boot_level (p : Plan) (t : list obs) : ProofLevel :=
  if existsb (boots p) t then ProofBoot else ProofNone.
Definition reported (t : list obs) : list CheckResult :=
  List.fold_left (fun l o => match o with OCall _ CallRunAll (EndChecks l') => l' | _ => l end) t [].

Arguments reported : simpl never.

Lemma boots_app p t o : existsb (boots p) (t ++ [o]) = existsb (boots p) t || boots p o.
Proof. rewrite existsb_app. cbn. by rewrite orb_false_r. Qed.
Lemma reported_app t k l : reported t = l ->
  reported (t ++ k) = List.fold_left (fun l o => match o with OCall _ CallRunAll (EndChecks l') => l' | _ => l end) k l.
Proof. unfold reported. rewrite List.fold_left_app. by intros ->. Qed.

(** Quiet observations leave the evidence as it is. *)
Lemma boot_level_quiet p t t' : extends (allow quiet_call) t t' -> existsb (boots p) t' = existsb (boots p) t.
Proof.
  intros (k & -> & Hk). rewrite existsb_app.
  enough (existsb (boots p) k = false) as -> by apply orb_false_r.
  induction Hk as [|[e|[] []] k Ho Hk IH]; done.
Qed.
Lemma reported_quiet t t' : extends (allow quiet_call) t t' -> reported t' = reported t.
Proof.
  intros (k & -> & Hk). rewrite (reported_app _ _ _ eq_refl). generalize (reported t).
  induction Hk as [|[e|ctx []] k Ho Hk IH]; intros l; cbn; done.
Qed.

(** The proof level of the run, from the evidence for it. *)
Definition checks_level (p : Plan) (r : RecoveryRun) : ProofLevel :=
  ProvenBy (zip_with mkProofCheck (map ToCore (pl_Checks p)) (run_Checks r)).
(** No critical check failed, but some could not be evaluated. *)
Definition undecided (p : Plan) (r : RecoveryRun) : Prop :=
  failedCritical (criticalMap p) (run_Checks r) = [] /\ unevaluated (criticalMap p) (run_Checks r) <> [].

(** What the workflow's result says of the run it leaves. *)
Definition settled (p : Plan) (werr : option error) (r : RecoveryRun) : Prop :=
  match werr with
  | None => run_State r = RunSuccess /\ (run_Result r = ResultSuccess \/ run_Result r = ResultDegraded)
  | Some e =>
    (run_State r = RunFailed /\ run_Result r = ResultFailed /\ run_Err r = Error e) \/
    (run_State r = RunInconclusive /\ run_Result r = ResultNone /\ run_Err r = Error e /\ undecided p r)
  end.

Section Verdict.
Context {W : Type} `{!EngineEnv W}.
Abbreviation ES := (Engine.ES (W := W)).

(** These results are what the check runner returned, in this run, for the
    checks of the plan. *)
Definition ran_checks (p : Plan) (l : list CheckResult) (s : ES) : Prop :=
  OCall CtxRun CallRunAll (EndChecks l) ∈ es_trace s /\
  exists target w w', checks_RunAll CtxRun target (map ToCore (pl_Checks p)) w = (Ret l, w').

(** The proof level is the one the evidence gives. *)
Definition evidence (p : Plan) (s : ES) : Prop :=
  let r := es_run s in
  run_ProofLevel r = Raise (boot_level p (es_trace s)) (checks_level p r) /\
  run_Checks r = reported (es_trace s) /\
  (run_Checks r = [] \/ ran_checks p (run_Checks r) s).

(** A success that is not a dry run: the guest was up and the checks decided. *)
Definition earned (p : Plan) (s : ES) : Prop :=
  let r := es_run s in
  critical_passed p r /\ run_Result r = graded_as p r /\
  (ss_Skip (pl_Startup p) = true \/ ready_seen p (es_trace s)) /\
  (pl_Checks p = [] \/ ran_checks p (run_Checks r) s).

(** The trace grows quietly, and the view of the run is the same. *)
Definition vr {B} (v : RecoveryRun -> B) (s s' : ES) : Prop :=
  extends (allow quiet_call) (es_trace s) (es_trace s') /\ v (es_run s') = v (es_run s).

#[export] Instance vr_preorder {B} (v : RecoveryRun -> B) : PreOrder (vr v).
Proof.
  split; [by intros ?|]. intros s1 s2 s3 [? ?] [? ?]. split; [by etransitivity | congruence].
Qed.

Lemma vr_of_fr {B} (v : RecoveryRun -> B) {A} (m : M ES A) :
  keeps (fr (allow quiet_call) (same_of v)) m -> keeps (vr v) m.
Proof.
  intros H. eapply keeps_impl; [exact H|]. by intros s s' (Hx & Hv & _).
Qed.

Lemma vr_view {B C} (v : RecoveryRun -> B) (u : RecoveryRun -> C) {A} (m : M ES A) :
  (forall r r', v r' = v r -> u r' = u r) -> keeps (vr v) m -> keeps (vr u) m.
Proof. intros Hu H. eapply keeps_impl; [exact H|]. intros s s' [? ?]. split; auto. Qed.

Lemma vr_world f : (forall s : ES, es_trace (f s) = es_trace s /\ es_run (f s) = es_run s) ->
  forall {B} (v : RecoveryRun -> B), keeps (vr v) (modify f).
Proof. intros H B v s. destruct (H s) as [Ht Hr]. unfold vr; cbn. rewrite Ht, Hr. split; reflexivity. Qed.

Lemma proof_of_outcome r r' : outcome_view r' = outcome_view r -> proof_view r' = proof_view r.
Proof. unfold outcome_view, grade_view, proof_view. intros E. injection E. intros. congruence. Qed.

(** The primitives, with every frame. *)
Section Views.
Context {B : Type} (v : RecoveryRun -> B).

Ltac by_fr := apply vr_of_fr; eauto with keeps typeclass_instances.

Lemma vr_update g : (forall r, v (g r) = v r) -> keeps (vr v) (update_run g).
Proof. intros H. apply vr_of_fr, fr_update_run. intros r. apply H. Qed.
Lemma vr_emit e : keeps (vr v) (emit e).
Proof. by_fr. Qed.
Lemma vr_now : keeps (vr v) now.
Proof. by_fr. Qed.
Lemma vr_run : keeps (vr v) run_.
Proof. by_fr. Qed.
Lemma vr_call_with {A} ok ctx c (op : M W (error + A)) : quiet_call ctx c = true ->
  keeps (vr v) (call_with ok ctx c op).
Proof. intros. by_fr. Qed.
Lemma vr_call {A} ctx c (op : M W (error + A)) : quiet_call ctx c = true -> keeps (vr v) (call ctx c op).
Proof. intros. by_fr. Qed.
Lemma vr_deref {A} (o : option A) : keeps (vr v) (deref o).
Proof. by_fr. Qed.
Lemma vr_sleep ctx d : keeps (vr v) (sleep ctx d).
Proof. by_fr. Qed.
Lemma vr_needs b : keeps (vr v) (modify (set_es_needsCleanup b)).
Proof. by apply vr_world. Qed.
Lemma vr_temp id node : keeps (vr v) (modify (set_es_temp id node)).
Proof. by apply vr_world. Qed.
Lemma vr_retry {A} ctx n b ok c (op : M W (error + A)) : quiet_call ctx c = true ->
  keeps (vr v) (retry ctx n b (call_with ok ctx c op)).
Proof. intros. by_fr. Qed.
End Views.
Hint Resolve vr_emit vr_now vr_run vr_call_with vr_call vr_deref vr_sleep vr_needs vr_temp vr_retry : keeps.
Hint Extern 1 (keeps (vr _) (update_run _)) => apply vr_update; solve_view : keeps.
Hint Extern 1 (keeps (vr _) (retry _ _ _ (call _ _ _))) => apply vr_retry; reflexivity : keeps.

Lemma endStep_outcome idx st m e : keeps (vr outcome_view) (endStep idx st m e).
Proof. unfold endStep. keeps_auto. Qed.
Lemma emit_checks_outcome l : keeps (vr outcome_view) (emit_checks l).
Proof. induction l as [|r l IH]; cbn [emit_checks]; keeps_auto. Qed.
Lemma endStep_proof idx st m e : keeps (vr proof_view) (endStep idx st m e).
Proof. eapply vr_view; [apply proof_of_outcome | apply endStep_outcome]. Qed.
Lemma beginStep_proof name st : keeps (vr proof_view) (beginStep name st).
Proof. unfold beginStep. keeps_auto. Qed.
Lemma emit_checks_proof l : keeps (vr proof_view) (emit_checks l).
Proof. eapply vr_view; [apply proof_of_outcome | apply emit_checks_outcome]. Qed.
Hint Resolve emit_checks_proof beginStep_proof endStep_proof endStep_outcome emit_checks_outcome : keeps.
Lemma failStep_proof {A} idx m e : keeps (vr proof_view) (failStep (A := A) idx m e).
Proof. unfold failStep. keeps_auto. Qed.
Hint Resolve failStep_proof : keeps.

(** ** The steps that prove nothing *)

Lemma discoverBackup_proof p : keeps (vr proof_view) (discoverBackup p).
Proof. unfold discoverBackup, resolveSourceName, resolveBackup. keeps_auto. Qed.
Lemma resolveNode_proof p opts : keeps (vr proof_view) (resolveNode p opts).
Proof. unfold resolveNode. keeps_auto. Qed.
Lemma isolation_proof node net : keeps (vr proof_view) (checkNetworkIsolation node net).
Proof. unfold checkNetworkIsolation. keeps_auto. Qed.
Lemma capacity_proof node m : keeps (vr proof_view) (checkCapacity node m).
Proof. unfold checkCapacity. keeps_auto. Qed.
Hint Resolve discoverBackup_proof resolveNode_proof isolation_proof capacity_proof : keeps.
Lemma prepareEnvironment_proof p opts : keeps (vr proof_view) (prepareEnvironment p opts).
Proof. unfold prepareEnvironment. keeps_auto. Qed.
Lemma restoreWorkload_proof p opts pr : keeps (vr proof_view) (restoreWorkload p opts pr).
Proof. unfold restoreWorkload. cbv zeta. keeps_auto. Qed.
Lemma startWorkload_proof p id : keeps (vr proof_view) (startWorkload p id).
Proof. unfold startWorkload. keeps_auto. Qed.
Lemma mark_proof err : keeps (vr proof_view) (markFailed err).
Proof. unfold markFailed. keeps_auto. Qed.
Lemma runDryRun_proof p opts : keeps (vr proof_view) (runDryRun p opts).
Proof. unfold runDryRun, dryFail, markFailed. keeps_auto. Qed.
Lemma cleanup_proof p opts id node n : keeps (vr proof_view) (cleanup p opts id node n).
Proof. unfold cleanup, recordCleanupSkipped, destroy. cbv zeta. keeps_auto. Qed.
Hint Resolve prepareEnvironment_proof restoreWorkload_proof startWorkload_proof discoverBackup_proof
  mark_proof runDryRun_proof cleanup_proof : keeps.

(** ** Waiting for the guest *)

(** Nothing is proven yet. *)
Definition Early (p : Plan) (s : ES) : Prop :=
  run_Checks (es_run s) = [] /\ run_ProofLevel (es_run s) = ProofNone /\
  boot_level p (es_trace s) = ProofNone /\ reported (es_trace s) = [].
Definition Booted (p : Plan) (s : ES) : Prop :=
  run_Checks (es_run s) = [] /\ run_ProofLevel (es_run s) = boot_level p (es_trace s) /\
  reported (es_trace s) = [] /\ (ss_Skip (pl_Startup p) = true \/ ready_seen p (es_trace s)).
Definition Evident (p : Plan) (s : ES) : Prop := evidence p s.
(** A poll was just answered: only its answer can have proved the boot. *)
Definition Polled (p : Plan) (id : string) (st : option WorkloadStatus) (s : ES) : Prop :=
  let o := OCall CtxRun (CallGetStatus id) (EndStatus st) in
  run_Checks (es_run s) = [] /\ run_ProofLevel (es_run s) = ProofNone /\ reported (es_trace s) = [] /\
  boot_level p (es_trace s) = (if boots p o then ProofBoot else ProofNone) /\ o ∈ es_trace s.

Lemma Early_newRun p opts w : Early p (newRun p opts w).
Proof. unfold newRun. by destruct (env_now w). Qed.

Lemma ready_seen_mono p P t t' : ready_seen p t -> extends P t t' -> ready_seen p t'.
Proof. intros (id & st & ? & ?) ?. exists id, st. split; [by eapply extends_elem | done]. Qed.

Lemma proof_inv r r' : proof_view r' = proof_view r ->
  run_Checks r' = run_Checks r /\ run_ProofLevel r' = run_ProofLevel r.
Proof. apply pair_equal_spec. Qed.

(** A frame keeps the evidence of the trace. *)
Lemma vr_inv p (s s' : ES) : vr proof_view s s' ->
  run_Checks (es_run s') = run_Checks (es_run s) /\ run_ProofLevel (es_run s') = run_ProofLevel (es_run s) /\
  boot_level p (es_trace s') = boot_level p (es_trace s) /\ reported (es_trace s') = reported (es_trace s).
Proof. intros [Hx [? ?]%proof_inv]. unfold boot_level. by rewrite (boot_level_quiet p _ _ Hx), (reported_quiet _ _ Hx). Qed.

Lemma Early_vr p s s' : Early p s -> vr proof_view s s' -> Early p s'.
Proof. intros H (E1 & E2 & E3 & E4)%(vr_inv p). unfold Early. by rewrite E1, E2, E3, E4. Qed.
Lemma Booted_vr p s s' : Booted p s -> vr proof_view s s' -> Booted p s'.
Proof.
  intros (H1 & H2 & H3 & H4) Hv. pose proof (vr_inv p _ _ Hv) as (E1 & E2 & E3 & E4). destruct Hv as [Hx _].
  unfold Booted. rewrite E1, E2, E3, E4. intuition eauto using ready_seen_mono.
Qed.
Lemma Evident_vr p s s' : Evident p s -> vr proof_view s s' -> Evident p s'.
Proof.
  intros (H1 & H2 & Hc) Hv. pose proof (vr_inv p _ _ Hv) as (E1 & E2 & E3 & E4). destruct Hv as [Hx _].
  unfold Evident, evidence, checks_level, ran_checks in *. rewrite E1, E2, E3, E4. split_and!; [done..|].
  destruct Hc as [|[? ?]]; [by left | right; split; [by eapply extends_elem | done]].
Qed.

Lemma Booted_Evident p s : Booted p s -> Evident p s.
Proof.
  intros (Hc & Hb & Hr & _). split_and!; [| congruence | by left].
  unfold checks_level. rewrite Hc, Hb. unfold boot_level. by destruct (pl_Checks p), (existsb _ _).
Qed.
Lemma Early_Evident p s : Early p s -> Evident p s.
Proof.
  intros (Hc & Hl & Hb & Hr). split_and!; [| congruence | by left].
  unfold checks_level. rewrite Hc, Hl, Hb. by destruct (pl_Checks p).
Qed.

(** A computation that keeps the proof view keeps each of these. *)
Lemma post_Early {A} p (m : M ES A) :
  keeps (vr proof_view) m -> post (Early p) m (fun _ => Early p) (Evident p).
Proof. intros H. eapply post_frame; [exact H | apply Early_vr | apply Early_Evident]. Qed.
Lemma post_Booted {A} p (m : M ES A) :
  keeps (vr proof_view) m -> post (Booted p) m (fun _ => Booted p) (Evident p).
Proof. intros H. eapply post_frame; [exact H | apply Booted_vr | apply Booted_Evident]. Qed.
Lemma post_Evident {A} p (m : M ES A) :
  keeps (vr proof_view) m -> post (Evident p) m (fun _ => Evident p) (Evident p).
Proof. intros H. eapply post_keeps; [exact H | apply Evident_vr]. Qed.

Lemma failStep_Early {A} p idx m e :
  post (Early p) (failStep (A := A) idx m e)
    (fun r s => match r with inl _ => Evident p s | inr _ => Booted p s end) (Evident p).
Proof.
  unfold failStep. eapply post_bind; [apply (post_Early p); keeps_auto|]. intros ?.
  apply post_ret. apply Early_Evident.
Qed.

(** One poll. *)
Lemma poll_post p id :
  post (Early p) (call_with EndStatus CtxRun (CallGetStatus id) (hv_GetStatus CtxRun id))
    (fun r s => match r with inl _ => Early p s | inr st => Polled p id st s end) (Early p).
Proof.
  intros s (Hc & Hl & Hb & Hr). unfold call_with.
  assert (Hb' : existsb (boots p) (es_trace s) = false) by (unfold boot_level in Hb; by destruct (existsb _ _)).
  destruct (hv_GetStatus CtxRun id (es_world s)) as [[[e|st]|?|] w]; unfold Early, Polled, boot_level; cbn;
    rewrite boots_app, Hb', (reported_app _ _ _ Hr); cbn; split_and!; try done.
  apply elem_of_app. right. by apply list_elem_of_singleton.
Qed.

Lemma pollStatus_post p id :
  post (Early p) (pollStatus id)
    (fun r s => match r with inl _ => Early p s | inr st => Polled p id st s end) (Evident p).
Proof.
  unfold pollStatus, retry. set (k := Z.to_nat _). clearbody k.
  induction k as [|k IH]; cbn [retry_loop];
    (eapply post_bind; [eapply post_weaken; [apply poll_post | done | intros r s H; exact H | apply Early_Evident]|]);
    intros [e|st]; try (by apply post_ret); destruct (negb (IsRetryable e)); try (by apply post_ret).
  eapply post_bind; [apply (post_Early p); keeps_auto|]. intros [e'|]; [by apply post_ret | exact IH].
Qed.

Lemma guestReady_running st p : guestReady st p = true -> ws_PowerState st = PowerStateRunning.
Proof. unfold guestReady. case_bool_decide; done. Qed.

Lemma waitLoop_post fuel p id idx timeout deadline :
  post (Early p) (waitLoop fuel p id idx timeout deadline)
    (fun r s => match r with inl _ => Evident p s | inr _ => Booted p s end) (Evident p).
Proof.
  induction fuel as [|fuel IH]; cbn [waitLoop]. { intros s Hs. by apply Early_Evident. }
  eapply post_bind; [apply (pollStatus_post p)|]. intros [err|st]; [apply failStep_Early|].
  eapply post_bind with (R1 := fun st' => Polled p id (Some st')).
  { intros s Hs. destruct st as [st|]; cbn; [done|]. destruct Hs as (? & ? & ? & ? & _). by apply Early_Evident. }
  intros st'. destruct (guestReady st' p) eqn:Hg.
  - eapply post_bind with (R1 := fun _ => Booted p).
    { intros s (Hc & Hl & Hr & Hb & Hin). assert (Hy : ready_seen p (es_trace s)) by by exists id, st'.
      cbn in Hb. rewrite Hg in Hb. cbn in Hb.
      destruct (ws_AgentReady st'); unfold Booted; cbn; rewrite Hl, Hb; split_and!; auto. }
    intros ?. eapply post_bind; [apply post_Booted; keeps_auto|]. intros run. cbv zeta.
    eapply post_bind; [apply post_Booted; keeps_auto|]. intros ?. by apply post_ret.
  - apply (post_pre _ (Early p)).
    2: { intros s (Hc & Hl & Hr & Hb & _). cbn in Hb. by rewrite Hg in Hb. }
    eapply post_bind; [apply (post_Early p); keeps_auto|]. intros t1.
    destruct (negb (Time.Before t1 deadline)); [apply failStep_Early|].
    eapply post_bind; [apply (post_Early p); keeps_auto|]. intros t2. cbv zeta.
    eapply post_bind; [apply (post_Early p); keeps_auto|]. intros [serr|]; [apply failStep_Early | exact IH].
Qed.

Lemma waitForGuest_post p id :
  post (Early p) (waitForGuest p id)
    (fun r s => match r with inl _ => Evident p s | inr _ => Booted p s end) (Evident p).
Proof.
  unfold waitForGuest. eapply post_bind; [apply (post_Early p); keeps_auto|]. intros idx.
  destruct (ss_Skip (pl_Startup p)) eqn:Hs.
  - eapply post_bind; [apply (post_Early p); keeps_auto|]. intros ?.
    eapply post_bind; [apply (post_Early p); keeps_auto|]. intros run. apply post_ret.
    intros s (Hc & Hl & Hb & Hr). unfold Booted. rewrite Hl, Hb. auto.
  - eapply post_bind; [apply (post_Early p); keeps_auto|]. intros t0. apply waitLoop_post.
Qed.

(** ** The checks *)

Lemma filter_nil_elem {A} (f : A -> bool) l x : List.filter f l = [] -> x ∈ l -> f x = false.
Proof.
  intros E Hx. destruct (f x) eqn:Hf; [|done]. apply list_elem_of_In in Hx.
  pose proof (proj2 (List.filter_In f x l) (conj Hx Hf)) as Hin. by rewrite E in Hin.
Qed.

Lemma no_failure_passed crit l :
  failedCritical crit l = [] -> unevaluated crit l = [] ->
  forall c, c ∈ l -> critical_lookup crit (cr_Name c) = true -> OK c = true.
Proof.
  unfold failedCritical, unevaluated. intros Hf Hu c Hc Hcrit.
  apply map_eq_nil in Hf. apply map_eq_nil in Hu.
  pose proof (filter_nil_elem _ _ _ Hf Hc) as H1. pose proof (filter_nil_elem _ _ _ Hu Hc) as H2. cbn in H1, H2.
  unfold not_passed in *. rewrite Hcrit in *. destruct (OK c); [done|]. cbn in *.
  by destruct (bool_decide (cr_Status c = CheckError)).
Qed.

(** The checks ran: what they returned is in the run and in its proof level. *)
Definition Checked (p : Plan) (results : list CheckResult) (s : ES) : Prop :=
  run_Checks (es_run s) = results /\ Evident p s /\ ran_checks p results s /\
  (ss_Skip (pl_Startup p) = true \/ ready_seen p (es_trace s)).

(** The runner just returned these results: they are not in the run yet. *)
Definition Reported (p : Plan) (results : list CheckResult) (s : ES) : Prop :=
  run_ProofLevel (es_run s) = boot_level p (es_trace s) /\ reported (es_trace s) = results /\
  ran_checks p results s /\ (ss_Skip (pl_Startup p) = true \/ ready_seen p (es_trace s)).

Lemma Checked_vr p l s s' : Checked p l s -> vr proof_view s s' -> Checked p l s'.
Proof.
  intros (Hc & He & Hr & Hy) Hv. pose proof (Evident_vr _ _ _ He Hv). destruct Hv as [Hx [E1 _]%proof_inv].
  unfold ran_checks in *. destruct Hr as [Hr Hx'].
  split_and!; [congruence | done | split; [by eapply extends_elem | done] | intuition eauto using ready_seen_mono].
Qed.

Lemma post_Checked {A} p l (m : M ES A) :
  keeps (vr proof_view) m -> post (Checked p l) m (fun _ => Checked p l) (Evident p).
Proof. intros H. eapply post_frame; [exact H | apply Checked_vr | by intros s (_ & ? & _)]. Qed.

Lemma runAll_post p target :
  post (Booted p)
    (call_total EndChecks CtxRun CallRunAll (checks_RunAll CtxRun target (map ToCore (pl_Checks p))))
    (Reported p) (Evident p).
Proof.
  intros s (Hc & Hl & Hr & Hy). unfold call_total.
  assert (Hb : forall r, boot_level p (es_trace s ++ [OCall CtxRun CallRunAll r]) = boot_level p (es_trace s)).
  { intros r. unfold boot_level. by rewrite boots_app, orb_false_r. }
  assert (HE : forall r w, (forall l, r <> EndChecks l) ->
    Evident p (observe (OCall CtxRun CallRunAll r) (set_es_world w s))).
  { intros r w Hne. apply Booted_Evident. unfold Booted. cbn. rewrite Hb, (reported_app _ _ _ Hr).
    split_and!; [done..| by destruct r; try done; destruct (Hne results) |].
    destruct Hy; [by left | right]. eapply ready_seen_mono; [done | by apply (extends_snoc (fun _ => True))]. }
  destruct (checks_RunAll _ _ _ _) as [[l|?|] w] eqn:E; [| by apply HE..].
  unfold Reported. cbn. rewrite Hb, (reported_app _ _ _ Hr). split_and!; [done..| |].
  - split; [|by eexists _, _, _]. cbn. apply elem_of_app. right. by apply list_elem_of_singleton.
  - destruct Hy; [by left | right]. eapply ready_seen_mono; [done | by apply (extends_snoc (fun _ => True))].
Qed.

Lemma record_checks_post p results :
  post (Reported p results)
    (_ ← update_run (set_Checks results);
     update_run (fun r => set_ProofLevel (Raise (run_ProofLevel r)
       (ProvenBy (zip_with mkProofCheck (map ToCore (pl_Checks p)) results))) r))
    (fun _ => Checked p results) (Evident p).
Proof.
  intros s (Hl & Hr & Hran & Hy). unfold mbind, M_bind. cbn. unfold Checked, Evident, evidence, checks_level. cbn.
  rewrite Hl, Hr. split_and!; [done | done | done | right; exact Hran | exact Hran | exact Hy].
Qed.

Lemma post_assoc {A B C} (P : ES -> Prop) (m : M ES A) (k : A -> M ES B) (h : B -> M ES C) R Q :
  post P (mbind h (mbind k m)) R Q -> post P (mbind (fun a => mbind h (k a)) m) R Q.
Proof.
  intros H s HP. specialize (H s HP). unfold mbind, M_bind in *. by destruct (m s) as [[| |] ?].
Qed.

(** What the step's result says of the critical checks. *)
Definition judged (p : Plan) (r : error + unit) (run : RecoveryRun) : Prop :=
  match r with
  | inr _ => critical_passed p run
  | inl err => Is err errChecksInconclusive = true -> undecided p run
  end.

Lemma runChecks_post p target :
  post (Booted p) (runChecks p target)
    (fun r s => (exists l, Checked p l s) /\ judged p r (es_run s)) (Evident p).
Proof.
  unfold runChecks. cbv zeta.
  eapply post_bind; [apply post_Booted; keeps_auto|]. intros idx.
  eapply post_bind; [apply runAll_post|]. intros results.
  apply post_assoc. eapply post_bind; [apply record_checks_post|]. intros ?.
  eapply post_bind; [apply post_Checked; keeps_auto|]. intros ?.
  destruct (failedCritical (criticalMap p) results) as [|n ns] eqn:Hf;
    [destruct (unevaluated (criticalMap p) results) as [|n ns] eqn:Hu|];
    unfold failStep; (eapply post_bind; [apply (post_Checked p results); keeps_auto|]); intros ?; apply post_ret;
    intros s Hs; (split; [by eexists|]); destruct Hs as [Hc _]; cbn; unfold critical_passed, undecided;
    rewrite ?Hc; [intros c; by eapply no_failure_passed | by rewrite Hf, Hu | done].
Qed.
End Verdict.

#[export] Hint Resolve vr_emit vr_now vr_run vr_call_with vr_call vr_deref vr_sleep vr_needs vr_temp
  vr_retry emit_checks_proof beginStep_proof endStep_proof endStep_outcome emit_checks_outcome
  failStep_proof prepareEnvironment_proof restoreWorkload_proof startWorkload_proof discoverBackup_proof
  mark_proof runDryRun_proof cleanup_proof : keeps.
#[export] Hint Extern 1 (keeps (vr _) (update_run _)) => apply vr_update; solve_view : keeps.
#[export] Hint Extern 1 (keeps (vr _) (retry _ _ _ (call _ _ _))) => apply vr_retry; reflexivity : keeps.
