(* ===== verification/EngineContract.v ===== *)
(** * The contract of [Engine.Run]

    The theorems a caller of the engine relies on when [Run] returns, put
    together from [EngineVerdict] (what the workflow says) and from what
    cleanup does with it. *)

From Stdlib Require Import ZArith Lia String List.
From S2P Require Import Prelude GoTime Errors Core Plan Engine EngineFrame EngineShape EngineSafety.
From S2P Require Import Plan EngineVerdict.

(** Policy keeps the workload of this run instead of destroying it. *)
Definition retained (p : Plan) (opts : RunOptions) (r : RecoveryRun) : bool :=
  op_KeepWorkload opts || (incomplete r && cs_KeepOnFailure (pl_Cleanup p))
  || (negb (incomplete r) && negb (CleanupAlways (pl_Cleanup p))).

Section Contract.
Context {W : Type} `{!EngineEnv W} (p : Plan) (opts : RunOptions).
Abbreviation ES := (Engine.ES (W := W)).

Definition Verdict (werr : option error) (s : ES) : Prop :=
  settled p werr (es_run s) /\ Evident p s /\
  (werr = None -> op_DryRun opts = false -> earned p s).

Lemma post_any {A} (P : ES -> Prop) (m : M ES A) : post P m (fun _ _ => True) (fun _ => True).
Proof. intros s _. by destruct (m s) as [[| |] ?]. Qed.

(** ** The workflow *)

Lemma markFailed_verdict err : post (Evident p) (markFailed err) (fun _ => Verdict (Some err)) (Evident p).
Proof.
  intros s Hs. cbn. split_and!; [left; done | | done].
  eapply Evident_vr; [exact Hs|]. split; reflexivity.
Qed.

Lemma orFail_verdict {A} P (m : M ES (error + A)) (k : A -> M ES (option error)) (R : A -> ES -> Prop) :
  post P m (fun r s => match r with inl _ => Evident p s | inr a => R a s end) (Evident p) ->
  (forall a, post (R a) (k a) Verdict (Evident p)) -> post P (orFail m k) Verdict (Evident p).
Proof.
  intros Hm Hk. unfold orFail. eapply post_bind; [exact Hm|]. intros [err|a]; [|apply Hk].
  eapply post_bind; [apply markFailed_verdict|]. intros ?. by apply post_ret.
Qed.

Lemma post_Early_or {A} (m : M ES (error + A)) : keeps (vr proof_view) m ->
  post (Early p) m (fun r s => match r with inl _ => Evident p s | inr _ => Early p s end) (Evident p).
Proof.
  intros H. eapply post_weaken; [by apply (post_Early p) | done | | done].
  intros [e|a] s Hs; [by apply Early_Evident | done].
Qed.

Lemma dryFail_settled idx m err :
  post (fun _ : ES => True) (dryFail idx m err) (fun r s => settled p r (es_run s)) (fun _ => True).
Proof.
  unfold dryFail. eapply post_bind; [apply post_any|]. intros ?. intros s _. by left.
Qed.

Lemma runDryRun_settled :
  post (fun _ : ES => True) (runDryRun p opts) (fun r s => settled p r (es_run s)) (fun _ => True).
Proof.
  unfold runDryRun. eapply post_bind; [apply post_any|]. intros [err|?]; [intros s _; by left|].
  eapply post_bind; [apply post_any|]. intros idx.
  eapply post_bind; [apply post_any|]. intros [err|node]; [apply dryFail_settled|].
  eapply post_bind; [apply post_any|]. intros [err|?]; [apply dryFail_settled|].
  eapply post_bind; [apply post_any|]. intros [err|?]; [apply dryFail_settled|].
  eapply post_bind; [apply post_any|]. intros ?. eapply post_bind; [apply post_any|]. intros ?.
  intros s _. hnf. simpl. auto.
Qed.

(** Grading a run whose critical checks all passed. *)
Lemma grade_verdict (P : ES -> Prop) :
  (forall s, P s -> Evident p s /\ critical_passed p (es_run s) /\
     (ss_Skip (pl_Startup p) = true \/ ready_seen p (es_trace s)) /\
     (pl_Checks p = [] \/ ran_checks p (run_Checks (es_run s)) s)) ->
  post P (_ ← measureRTO; _ ← gradeSuccess p; mret None) Verdict (Evident p).
Proof.
  intros H s Hs. destruct (H s Hs) as (He & Hc & Hy & Hr). cbn. unfold Verdict, settled, earned. cbn.
  split_and!; [done | | by eapply Evident_vr; [exact He | split; reflexivity] | intros _ _; done].
  destruct (if RTOExceeded _ then true else _); auto.
Qed.

Lemma judged_verdict target :
  post (Booted p) (cerr ← runChecks p target; _ ← measureRTO;
    match cerr with
    | inl err =>
      _ ← (if Is err errChecksInconclusive then markInconclusive err else markFailed err); mret (Some err)
    | inr _ => _ ← gradeSuccess p; mret None
    end) Verdict (Evident p).
Proof.
  eapply post_bind; [apply runChecks_post|]. intros [err|[]].
  - intros s [[l (Hc & He & _)] Hj]. cbn in Hj.
    assert (Hv : forall f, (forall r, proof_view (f r) = proof_view r) ->
      Evident p (set_es_run (f (es_run s)) s)).
    { intros f Hf. eapply Evident_vr; [exact He|]. split; [reflexivity | apply Hf]. }
    cbn. destruct (Is err errChecksInconclusive); cbn.
    + split_and!; [right; split_and!; [done..|by apply Hj] | by apply Hv | done].
    + split_and!; [by left | by apply Hv | done].
  - apply grade_verdict. intros s [[l (Hc & He & Hr & Hy)] Hj]. cbn in Hj. split_and!; [done..|].
    right. by rewrite Hc.
Qed.

Lemma workflow_verdict : post (Early p) (workflow p opts) Verdict (Evident p).
Proof.
  unfold workflow. destruct (op_DryRun opts) eqn:Hd.
  { eapply post_weaken; [eapply post_and; [apply (post_Early p), runDryRun_proof
      | eapply post_pre; [apply runDryRun_settled | done]] | done | | by intros s []].
    intros werr s [He Hs]. split_and!; [done | by apply Early_Evident | by rewrite Hd]. }
  eapply orFail_verdict; [apply post_Early_or; keeps_auto|]. intros ?.
  eapply orFail_verdict; [apply post_Early_or; keeps_auto|]. intros pr.
  eapply post_bind; [apply (post_Early p); keeps_auto|]. intros ?.
  eapply orFail_verdict; [apply post_Early_or; keeps_auto|]. intros ?.
  eapply orFail_verdict; [apply post_Early_or; keeps_auto|]. intros ?.
  eapply orFail_verdict; [apply waitForGuest_post|]. intros target.
  case_bool_decide as Hc; [|apply judged_verdict].
  apply grade_verdict. intros s Hb. pose proof (Booted_Evident _ _ Hb) as He.
  destruct Hb as (Hl & _ & _ & Hy). split_and!; [done | | done | by left].
  unfold critical_passed. rewrite Hl. by intros c ?%elem_of_nil.
Qed.

(** ** Cleanup *)

(** What the end of cleanup says, from the run [r0] it was handed. *)
Definition disposed (id node : string) (needs : bool) (r0 : RecoveryRun) (cerr : option error) (s : ES) : Prop :=
  let r := es_run s in
  grade_view r = grade_view r0 /\
  match cerr with
  | None =>
    run_State r = run_State r0 /\ run_Err r = run_Err r0 /\
    run_CleanupDone r = negb (needs && retained p opts r0) /\
    (needs = true -> retained p opts r0 = false -> OCall CtxDetached (CallDelete id) EndOk ∈ es_trace s)
  | Some e =>
    needs = true /\ retained p opts r0 = false /\ run_State r = RunCleanupFailed /\ run_CleanupDone r = false /\
    exists derr, e = orphaned id node derr /\ run_Err r = orphanMessage id node (run_ID r0) derr /\
      OCall CtxDetached (CallDelete id) (EndErr derr) ∈ es_trace s
  end.

(** The grading of [r0] is untouched. *)
Definition Grading (r0 : RecoveryRun) (s : ES) : Prop :=
  (grade_view (es_run s), run_Err (es_run s)) = (grade_view r0, run_Err r0).

Lemma beginStep_grade name st : keeps (vr (W := W) (fun r => (grade_view r, run_Err r))) (beginStep name st).
Proof. unfold beginStep. keeps_auto. Qed.

Lemma endStep_grade idx st m e : keeps (vr (W := W) (fun r => (grade_view r, run_Err r))) (endStep idx st m e).
Proof.
  eapply vr_view; [|apply endStep_outcome]. unfold outcome_view. intros r r' E. injection E.
  intros. unfold grade_view. congruence.
Qed.

Lemma post_Grading {A} r0 (m : M ES A) : keeps (vr (fun r => (grade_view r, run_Err r))) m ->
  post (Grading r0) m (fun _ => Grading r0) (fun _ => True).
Proof.
  intros H. eapply post_frame; [exact H | | done]. intros s s' Hs [_ E]. unfold Grading in *. by rewrite E.
Qed.

(** Closing the step: the run's outcome and what the trace holds survive. *)
Lemma endStep_keeps (P : RecoveryRun -> Prop) o idx st m e :
  (forall r r', outcome_view r' = outcome_view r -> P r -> P r') ->
  post (fun s : ES => P (es_run s) /\ o ∈ es_trace s) (endStep idx st m e)
    (fun _ s => P (es_run s) /\ o ∈ es_trace s) (fun _ => True).
Proof.
  intros HP. eapply post_frame; [apply endStep_outcome | | done].
  intros s s' [Hp Ho] [Hx Hv]. split; [by eapply HP | by eapply extends_elem].
Qed.

Lemma outcome_inv r r' : outcome_view r' = outcome_view r ->
  grade_view r' = grade_view r /\ run_State r' = run_State r /\ run_Err r' = run_Err r /\
  run_CleanupDone r' = run_CleanupDone r.
Proof. unfold outcome_view. rewrite !pair_equal_spec. tauto. Qed.

Lemma Grading_inv r0 s :
  Grading r0 s -> grade_view (es_run s) = grade_view r0 /\ run_Err (es_run s) = run_Err r0.
Proof. apply pair_equal_spec. Qed.

Lemma delete_seen r0 id :
  post (Grading r0) (call CtxDetached (CallDelete id) (hv_Delete CtxDetached id))
    (fun r s => Grading r0 s /\
      OCall CtxDetached (CallDelete id) (match r with inl e => EndErr e | inr _ => EndOk end) ∈ es_trace s)
    (fun _ => True).
Proof.
  intros s Hs. unfold call, call_with. destruct (hv_Delete CtxDetached id (es_world s)) as [[[e|[]]|?|] w];
    try done; (split; [exact Hs|]); cbn; apply elem_of_app; right; by apply list_elem_of_singleton.
Qed.

(** A delete that failed. *)
Lemma orphan_outcome r0 id node idx derr :
  retained p opts r0 = false ->
  post (fun s : ES => Grading r0 s /\ OCall CtxDetached (CallDelete id) (EndErr derr) ∈ es_trace s)
    (run ← run_;
     let msg := orphanMessage id node (run_ID run) derr in
     _ ← update_run (fun r => set_Err msg (set_State RunCleanupFailed (set_CleanupDone false r)));
     _ ← endStep idx StepFailed msg (Some derr); mret (Some (orphaned id node derr)))
    (disposed id node true r0) (fun _ => True).
Proof.
  intros Hr. set (Q := fun r : RecoveryRun => grade_view r = grade_view r0 /\
    run_State r = RunCleanupFailed /\ run_CleanupDone r = false /\
    run_Err r = orphanMessage id node (run_ID r0) derr).
  eapply post_bind with (R1 := fun run s => run = es_run s /\ Grading r0 s /\
    OCall CtxDetached (CallDelete id) (EndErr derr) ∈ es_trace s); [by apply post_gets|].
  intros run. cbv zeta.
  eapply post_bind with (R1 := fun _ s => Q (es_run s) /\
    OCall CtxDetached (CallDelete id) (EndErr derr) ∈ es_trace s).
  { intros s (-> & [Hg _]%Grading_inv & Hin). unfold Q. cbn. split_and!; try done.
    unfold grade_view in Hg. by injection Hg as ->. }
  intros ?. eapply post_bind; [eapply (endStep_keeps Q)|].
  { intros r r' (E1 & E2 & E3 & E4)%outcome_inv (? & ? & ? & ?). unfold Q. split_and!; congruence. }
  intros ?. apply post_ret. intros s [(? & ? & ? & ?) ?]. split_and!; try done. by exists derr.
Qed.

Lemma destroy_outcome r0 id node :
  retained p opts r0 = false ->
  post (Grading r0) (destroy id node (run_State r0)) (disposed id node true r0) (fun _ => True).
Proof.
  intros Hr. unfold destroy.
  eapply post_bind; [apply post_Grading, beginStep_grade|]. intros idx.
  eapply post_bind; [apply post_Grading; keeps_auto|]. intros ?.
  eapply post_bind; [apply delete_seen|]. intros [derr|[]]; [by apply orphan_outcome|].
  set (Q := fun r : RecoveryRun => grade_view r = grade_view r0 /\ run_Err r = run_Err r0 /\
    run_CleanupDone r = true).
  eapply post_bind with (R1 := fun _ s => Q (es_run s) /\
    OCall CtxDetached (CallDelete id) EndOk ∈ es_trace s).
  { intros s [[Hg He]%Grading_inv Hin]. done. }
  intros ?. eapply post_bind; [eapply (endStep_keeps Q)|].
  { intros r r' (E1 & E2 & E3 & E4)%outcome_inv (? & ? & ?). unfold Q. split_and!; congruence. }
  intros ?. intros s [(Hg & He & Hd) Hin]. hnf. simpl. unfold disposed. simpl. rewrite Hr.
  split_and!; done.
Qed.

Lemma skip_outcome r0 id node m :
  retained p opts r0 = true ->
  post (Grading r0) (_ ← recordCleanupSkipped m; _ ← update_run (set_State (run_State r0)); mret None)
    (disposed id node true r0) (fun _ => True).
Proof.
  intros Hr. unfold recordCleanupSkipped.
  eapply post_bind with (R1 := fun _ s => Grading r0 s /\ run_CleanupDone (es_run s) = false).
  { eapply post_bind; [apply post_Grading, beginStep_grade|]. intros idx.
    eapply post_bind; [apply post_Grading, endStep_grade|]. intros ?. intros s Hs. done. }
  intros ?. intros s [[Hg He]%Grading_inv Hd]. hnf. simpl. unfold disposed. simpl. rewrite Hr.
  split_and!; congruence || done.
Qed.

Lemma cleanup_outcome s0 id node needs :
  post (fun s => s = s0) (cleanup p opts id node needs) (disposed id node needs (es_run s0)) (fun _ => True).
Proof.
  unfold cleanup. destruct needs; cbn [negb].
  2: { intros s ->. hnf. simpl. unfold disposed. simpl. split_and!; done. }
  eapply post_bind with (R1 := fun run s => run = es_run s0 /\ Grading (es_run s0) s).
  { apply post_gets. by intros s ->. }
  intros run. cbv zeta.
  assert (H : run = es_run s0 -> forall m, post (Grading (es_run s0)) m (disposed id node true (es_run s0)) (fun _ => True) ->
    post (fun s => run = es_run s0 /\ Grading (es_run s0) s) m (disposed id node true (es_run s0)) (fun _ => True)).
  { intros -> m Hm. eapply post_pre; [exact Hm | by intros s []]. }
  intros s [Hrun Hg]. revert s Hg. subst run.
  destruct (op_KeepWorkload opts) eqn:Hk; [|destruct (incomplete (es_run s0)) eqn:Hi];
    cbn [negb andb]; [| destruct (cs_KeepOnFailure _) eqn:Hf | destruct (CleanupAlways _) eqn:Ha];
    cbn [negb]; first [apply skip_outcome | apply destroy_outcome];
    unfold retained; rewrite ?Hk, ?Hi, ?Hf, ?Ha; reflexivity.
Qed.

(** ** The whole run *)

(** The workflow's outcome after the deferred function looked at the panic and
    at the context. *)
Definition concluded (werr : option error) (r : RecoveryRun) : Prop :=
  settled p werr r \/
  exists e, werr = Some e /\ run_State r = RunCancelled /\ run_Result r = ResultNone /\
    run_Err r = Sprintf "run cancelled: %v" [AText (Error e)].

Definition Concluded (werr : option error) (s : ES) : Prop :=
  concluded werr (es_run s) /\ Evident p s /\
  (werr = None -> op_DryRun opts = false -> earned p s).

Lemma settle_concluded r :
  post (fun s => match r with inl _ => Evident p s | inr werr => Verdict werr s end)
    (settle_workflow r) Concluded (Evident p).
Proof.
  assert (HV : forall werr s, Verdict werr s -> Concluded werr s).
  { intros werr s (? & ? & ?). split_and!; [by left | done..]. }
  unfold settle_workflow. destruct r as [msg|[err|]]; cbv zeta.
  - eapply post_bind; [apply markFailed_verdict|]. intros ?. apply post_ret, HV.
  - intros s Hs. unfold mbind, M_bind, gets. cbn. destruct (canceled s); cbn; [|by apply HV].
    destruct Hs as (_ & He & _). split_and!; [right; by exists err | | done].
    eapply Evident_vr; [exact He | split; reflexivity].
  - intros s Hs. unfold mbind, M_bind, gets. cbn. by apply HV.
Qed.

Lemma earned_grade s s' P :
  grade_view (es_run s') = grade_view (es_run s) -> extends P (es_trace s) (es_trace s') ->
  earned p s -> earned p s'.
Proof.
  unfold grade_view. rewrite !pair_equal_spec. intros (((((_ & E1) & E2) & E3) & E4) & _) Hx (Hc & Hg & Hy & Hr).
  unfold earned, critical_passed, graded_as, RTOExceeded, ran_checks in *. rewrite E1, E2, E3, E4.
  split_and!; [done..| |]; [|destruct Hr as [|[? ?]]]; intuition eauto using ready_seen_mono, extends_elem.
Qed.

(** The calls cleanup may make: none at all when there is nothing to clean up or
    policy keeps the workload. *)
Definition tears (needs : bool) (r0 : RecoveryRun) (_ : ctxkind) (c : provider_call) : bool :=
  needs && negb (retained p opts r0) && match c with CallStop _ | CallDelete _ => true | _ => false end.

Abbreviation anything := (fun _ _ : RecoveryRun => True).

Lemma cleanup_calls s0 id node needs :
  post (fun s => s = s0) (cleanup p opts id node needs)
    (fun _ s => fr (allow (tears needs (es_run s0))) anything s0 s) (fun _ => True).
Proof.
  assert (Hpre : PreOrder anything) by by split.
  assert (Hskip : forall m, keeps (fr (W := W) (allow (tears needs (es_run s0))) anything)
    (_ ← recordCleanupSkipped m; _ ← update_run (set_State (run_State (es_run s0))); mret (None : option error))).
  { intros m. unfold recordCleanupSkipped, beginStep, endStep. keeps_auto. }
  assert (Hdestroy : needs && negb (retained p opts (es_run s0)) = true ->
    keeps (fr (W := W) (allow (tears needs (es_run s0))) anything) (destroy id node (run_State (es_run s0)))).
  { intros Hr.
    assert (Hs : forall i, tears needs (es_run s0) CtxDetached (CallStop i) = true) by (intros i; unfold tears; by rewrite Hr).
    assert (Hd : forall i, tears needs (es_run s0) CtxDetached (CallDelete i) = true) by (intros i; unfold tears; by rewrite Hr).
    unfold destroy, beginStep, endStep. cbv zeta. keeps_auto. }
  intros s ->.
  enough (Hfr : fr (allow (tears needs (es_run s0))) anything s0 (cleanup p opts id node needs s0).2)
    by (by destruct (cleanup p opts id node needs s0) as [[| |] ?]).
  unfold cleanup. destruct needs; cbn [negb]; [|by split_and!].
  unfold mbind at 1, M_bind at 1, run_, gets. cbv zeta.
  destruct (op_KeepWorkload opts) eqn:Hk; [apply Hskip|].
  destruct (incomplete (es_run s0)) eqn:Hi; cbn [negb andb];
    [destruct (cs_KeepOnFailure _) eqn:Hf | destruct (CleanupAlways _) eqn:Ha]; cbn [negb];
    first [apply Hskip | apply Hdestroy; unfold retained; rewrite ?Hk, ?Hi, ?Hf, ?Ha; reflexivity].
Qed.

(** Finalizing closes the run's timeline and touches nothing else of a run that
    has a terminal state. *)
Definition Finishing (r0 : RecoveryRun) (t0 : list obs) (needs : bool) (s : ES) : Prop :=
  outcome_view (es_run s) = outcome_view r0 /\ es_trace s = t0 /\ es_needsCleanup s = needs.

Lemma finalize_post r0 t0 needs :
  Terminal (run_State r0) = true ->
  post (Finishing r0 t0 needs) finalize (fun _ => Finishing r0 t0 needs) (fun _ => True).
Proof.
  intros Ht. unfold finalize. eapply post_bind with (R1 := fun _ => Finishing r0 t0 needs); [by intros s Hs|].
  intros run. eapply post_bind with (R1 := fun _ => Finishing r0 t0 needs).
  { destruct (Time.IsZero _); [|by intros s Hs].
    intros s Hs. unfold mbind, M_bind, now. cbn. by destruct (env_now _). }
  intros ? s (Hv & ? & ?). cbn. split_and!; [|done..].
  pose proof (outcome_inv _ _ Hv) as (_ & -> & _). by destruct (run_State r0).
Qed.

Lemma concluded_terminal werr r : concluded werr r -> Terminal (run_State r) = true.
Proof. intros [H|(e & -> & -> & _)]; [|done]. destruct werr; cbn in H; [destruct H as [[-> _]|[-> _]] | destruct H as [-> _]]; done. Qed.

Lemma disposed_terminal id node needs r0 cerr s :
  Terminal (run_State r0) = true -> disposed id node needs r0 cerr s -> Terminal (run_State (es_run s)) = true.
Proof. intros Ht [_ Hd]. destruct cerr; [destruct Hd as (_ & _ & -> & _) | destruct Hd as [-> _]]; done. Qed.

(** How a run that returned ended, from the state [s0] its workflow left. *)
Record ending (e : option error) (s : ES) (werr cerr : option error) (s0 : ES) : Prop := {
  end_error : e = combineErrors werr cerr;
  end_concluded : concluded werr (es_run s0);
  end_grade : grade_view (es_run s) = grade_view (es_run s0);
  end_disposed : disposed (es_tempID s0) (es_node s0) (es_needsCleanup s0) (es_run s0) cerr s;
  end_evident : Evident p s;
  end_earned : werr = None -> op_DryRun opts = false -> earned p s;
  end_shape : Ended opts s0;
  end_calls : extends (allow (tears (es_needsCleanup s0) (es_run s0))) (es_trace s0) (es_trace s);
}.

Lemma cleanup_ending werr s0 :
  Concluded werr s0 -> Ended opts s0 ->
  post (fun s => s = s0)
    (cleanupErr ← cleanup p opts (es_tempID s0) (es_node s0) (es_needsCleanup s0);
     _ ← finalize; mret (combineErrors werr cleanupErr))
    (fun e s => exists cerr, ending e s werr cerr s0) (fun _ => True).
Proof.
  intros (Hc & He & Ha) Hend.
  eapply post_bind with (R1 := fun cerr s =>
    disposed (es_tempID s0) (es_node s0) (es_needsCleanup s0) (es_run s0) cerr s /\
    extends (allow (tears (es_needsCleanup s0) (es_run s0))) (es_trace s0) (es_trace s) /\ vr proof_view s0 s).
  { intros s ->. pose proof (cleanup_outcome s0 (es_tempID s0) (es_node s0) (es_needsCleanup s0) s0 eq_refl) as H1.
    pose proof (cleanup_calls s0 (es_tempID s0) (es_node s0) (es_needsCleanup s0) s0 eq_refl) as H2.
    pose proof (cleanup_proof p opts (es_tempID s0) (es_node s0) (es_needsCleanup s0) s0) as H3.
    destruct (cleanup p opts _ _ _ s0) as [[cerr|?|] s1]; cbn in *; [|done..].
    split_and!; [done | apply H2 | done]. }
  intros cerr s1 (Hd & Hn & Hv).
  pose proof (disposed_terminal _ _ _ _ _ _ (concluded_terminal _ _ Hc) Hd) as Ht.
  pose proof (finalize_post (es_run s1) (es_trace s1) (es_needsCleanup s1) Ht s1 (conj eq_refl (conj eq_refl eq_refl)))
    as Hf.
  unfold mbind, M_bind. destruct (finalize s1) as [[[]|?|] s2]; [|done..]. cbn. exists cerr.
  destruct Hf as ((Hg & Hst & Her & Hcd)%outcome_inv & Htr & Hnd).
  assert (Hev : Evident p s2).
  { eapply Evident_vr; [exact He|]. destruct Hv as [Hx Hp]. split; [by rewrite Htr|].
    rewrite <- Hp. unfold grade_view in Hg. unfold proof_view. rewrite !pair_equal_spec in *. tauto. }
  destruct Hd as [Hgr Hd]. split; [done | done | congruence | | done | | done | by rewrite Htr].
  - unfold disposed. rewrite Hg, Hgr, Hst, Her, Hcd, Htr. by split.
  - intros E1 E2. destruct Hv as [Hx _]. eapply earned_grade; [| |by apply Ha]; [congruence|].
    rewrite Htr. exact Hx.
Qed.

Lemma run_ending w e s :
  Run p opts w = (Ret e, s) -> exists werr cerr s0, ending e s werr cerr s0.
Proof.
  intros E.
  enough (H : post (fun s => Early p s /\ Fresh s) (run_body p opts)
    (fun e s => exists werr cerr s0, ending e s werr cerr s0) (fun _ => True)).
  { specialize (H _ (conj (Early_newRun p opts w) (Fresh_newRun p opts w))). unfold Run in E. by rewrite E in H. }
  assert (HW : post (fun s => Early p s /\ Fresh s) (workflow p opts)
    (fun r s => Verdict r s /\ Ended opts s) (fun s => Evident p s /\ Ended opts s)).
  { apply post_and; [eapply post_pre; [apply workflow_verdict | by intros ? []]
      | eapply post_pre; [apply workflow_post | by intros ? []]]. }
  unfold run_body. eapply post_bind.
  { eapply post_weaken; [apply post_try, HW | done | intros r s' H; exact H | done]. }
  intros r. eapply post_bind with (R1 := fun werr s => Concluded werr s /\ Ended opts s).
  { eapply post_weaken with (Q' := fun s => Evident p s /\ Ended opts s)
      (P' := fun s => match r with inl _ => Evident p s | inr werr => Verdict werr s end /\ Ended opts s);
      [apply post_and; eapply post_pre;
        [apply settle_concluded | by intros ? [H _]; apply H | apply settle_post | by intros ? [_ H]; apply H]
      | | done | done].
    intros s' Hs'. cbn in Hs'. by destruct r. }
  intros werr s0 [Hs0 Hend]. pose proof (cleanup_ending werr s0 Hs0 Hend s0 eq_refl) as H.
  unfold mbind, M_bind, get in *. cbn. destruct (cleanup _ _ _ _ _ s0) as [[?|?|] s1]; try done.
  destruct (finalize s1) as [[?|?|] ?]; try done. destruct H as [cerr H]. by exists werr, cerr, s0.
Qed.

(** The restore a run was answered is the one its workflow submitted, and the
    workload cleanup is handed is its target. *)
Lemma ending_restored e s werr cerr s0 b ro :
  ending e s werr cerr s0 -> OCall CtxRun (CallRestore b ro) EndOk ∈ es_trace s ->
  es_needsCleanup s0 = true /\ es_tempID s0 = ro_TargetWorkloadID ro /\ es_node s0 = ro_Node ro /\
  Forall (fun o => is_delete o = false) (es_trace s0).
Proof.
  intros [_ _ _ _ _ _ Hsh (k & Hk & Hal)] Hin. rewrite Hk in Hin.
  apply elem_of_app in Hin as [Hin|Hin].
  2: { rewrite Forall_forall in Hal. specialize (Hal _ Hin). cbn in Hal. unfold tears in Hal.
       by rewrite andb_false_r in Hal. }
  destruct Hsh as [[Hr _]|(pr & [Hid Hnode] & x & Hs)].
  - rewrite Forall_forall in Hr. by specialize (Hr _ Hin).
  - apply list_elem_of_split in Hin as (pre & post & E).
    destruct (submitted_unique opts _ _ _ _ _ _ _ _ _ _ _ _ Hs (or_introl (Forall_nil_2 _)) E)
      as (_ & [= -> -> Hend] & _).
    destruct Hs as [Ht [Hr _ _ _] Ha Htg Hno _ _ Hn]. split_and!; [by apply Hn | congruence..|].
    rewrite Ht, app_nil_r. apply Forall_app. split; [excludes|]. constructor; [done | excludes].
Qed.

(** ** The theorems *)

(** C3: the contract of [Engine.Run]. Whenever it returns, the run is in a
    terminal state, the returned error is nil exactly when the state is SUCCESS,
    and the result is the one the state stands for: SUCCESS or DEGRADED for a
    success, FAILED for a failure, none for a run that was cancelled or could
    not be decided; only a cleanup that failed leaves any of them. *)
Theorem run_contract w e s :
  Run p opts w = (Ret e, s) ->
  Terminal (run_State (es_run s)) = true /\
  (e = None <-> run_State (es_run s) = RunSuccess) /\
  match run_State (es_run s) with
  | RunSuccess => run_Result (es_run s) = ResultSuccess \/ run_Result (es_run s) = ResultDegraded
  | RunFailed => run_Result (es_run s) = ResultFailed
  | RunCancelled | RunInconclusive => run_Result (es_run s) = ResultNone
  | _ => True
  end.
Proof.
  intros (werr & cerr & s0 & [He Hc Hg [Hgr Hd] _ _ _ _])%run_ending.
  assert (HR : run_Result (es_run s) = run_Result (es_run s0)).
  { unfold grade_view in Hg. rewrite !pair_equal_spec in Hg. tauto. }
  destruct cerr as [ce|].
  - destruct Hd as (_ & _ & -> & _). subst e. split_and!; [done | | done]. by destruct werr.
  - destruct Hd as (-> & _). rewrite HR. subst e.
    destruct werr as [we|]; [destruct Hc as [[(-> & -> & _)|(-> & -> & _)]|(? & _ & -> & -> & _)]
      | destruct Hc as [[-> Hr]|(? & ? & _)]; [|done]]; cbn; split_and!; done.
Qed.

Lemma earned_run w e s :
  Run p opts w = (Ret e, s) -> op_DryRun opts = false ->
  run_Result (es_run s) = ResultSuccess \/ run_Result (es_run s) = ResultDegraded ->
  earned p s.
Proof.
  intros (werr & cerr & s0 & [_ Hc Hg _ _ Ha _ _])%run_ending Hdry HR. apply Ha; [|done].
  destruct werr as [we|]; [|done]. exfalso.
  assert (E : run_Result (es_run s) = run_Result (es_run s0)).
  { unfold grade_view in Hg. rewrite !pair_equal_spec in Hg. tauto. }
  rewrite E in HR. by destruct Hc as [[(_ & Hr & _)|(_ & Hr & _)]|(? & _ & _ & Hr & _)];
    rewrite Hr in HR; destruct HR.
Qed.

(** C4: a verdict of SUCCESS or DEGRADED is earned. In a run that is not a dry
    run every critical check of the plan that produced a result passed, those
    results are the ones the check runner returned, the guest had been seen up
    (unless the plan skips its startup), and DEGRADED means exactly that the
    recovery time objective was exceeded or a check that is not critical failed. *)
Theorem success_is_earned w e s :
  Run p opts w = (Ret e, s) -> op_DryRun opts = false ->
  run_Result (es_run s) = ResultSuccess \/ run_Result (es_run s) = ResultDegraded ->
  earned p s.
Proof. apply earned_run. Qed.

(** C5: cleanup always disposes of the workload. When [Run] returns after the
    hypervisor accepted a restore, either policy says that the workload stays,
    and then no delete was sent at all and the run says that it was not cleaned
    up; or the delete of that restore's target succeeded and the run says so; or
    that delete failed and the run ends as CLEANUP_FAILED, says that it was not
    cleaned up and names the orphan, by its identity and the node it was restored
    onto. *)
Theorem cleanup_always w e s b ro :
  Run p opts w = (Ret e, s) -> OCall CtxRun (CallRestore b ro) EndOk ∈ es_trace s ->
  let id := ro_TargetWorkloadID ro in
  (retained p opts (es_run s) = true /\ run_CleanupDone (es_run s) = false /\
     run_State (es_run s) <> RunCleanupFailed /\ Forall (fun o => is_delete o = false) (es_trace s)) \/
  (OCall CtxDetached (CallDelete id) EndOk ∈ es_trace s /\
     run_CleanupDone (es_run s) = true /\ run_State (es_run s) <> RunCleanupFailed /\
     retained p opts (es_run s) = false) \/
  (exists derr, OCall CtxDetached (CallDelete id) (EndErr derr) ∈ es_trace s /\
     run_CleanupDone (es_run s) = false /\ run_State (es_run s) = RunCleanupFailed /\
     run_Err (es_run s) = orphanMessage id (ro_Node ro) (run_ID (es_run s)) derr).
Proof.
  intros (werr & cerr & s0 & Hending)%run_ending Hin. cbv zeta.
  destruct (ending_restored _ _ _ _ _ _ _ Hending Hin) as (Hn & Hid & Hnode & Hnd).
  destruct Hending as [_ Hc Hg [_ Hd] _ _ _ (k & Hk & Hal)].
  rewrite Hn, Hid, Hnode in *. pose proof (concluded_terminal _ _ Hc) as Ht.
  assert (Hncf : run_State (es_run s0) <> RunCleanupFailed).
  { intros E. destruct Hc as [H|(? & _ & H & _)]; [|congruence].
    destruct werr; cbn in H; rewrite E in H; [destruct H as [[? _]|[? _]] | destruct H as [? _]]; done. }
  unfold grade_view in Hg. rewrite !pair_equal_spec in Hg. destruct Hg as (((((Hrid & HR) & _) & _) & _) & _).
  destruct cerr as [ce|].
  - right. right. destruct Hd as (_ & _ & Hst & Hcd & derr & _ & Herr & Hdel). exists derr. by rewrite Hrid.
  - destruct Hd as (Hst & _ & Hcd & Hdel). cbn in Hcd.
    assert (Hret : retained p opts (es_run s) = retained p opts (es_run s0)).
    { unfold retained, incomplete. by rewrite HR, Hst. }
    destruct (retained p opts (es_run s0)) eqn:Er; [left | right; left]; rewrite Hret, Hst, Hcd; [|auto].
    split_and!; [done..|]. rewrite Hk. apply Forall_app. split; [done|].
    eapply Forall_impl; [exact Hal|]. intros [ev|cx c r]; cbn; unfold tears; by rewrite ?Er.
Qed.

Lemma run_evident w : evidence p (Run p opts w).2.
Proof.
  pose proof (Early_newRun p opts w) as HE.
  enough (H : post (Early p) (run_body p opts) (fun _ => Evident p) (Evident p)).
  { specialize (H _ HE). unfold Run. by destruct (run_body p opts (newRun p opts w)) as [[| |] ?]. }
  unfold run_body. eapply post_bind.
  { eapply post_weaken with (Q' := Evident p); [apply post_try, workflow_verdict | done | intros r s' H; exact H | done]. }
  intros r. eapply post_bind with (R1 := fun _ => Evident p).
  { eapply post_weaken; [apply settle_concluded | | by intros ? ? (_ & ? & _) | done].
    intros s' Hs'. destruct r; [done | apply Hs']. }
  intros werr. eapply post_bind with (R1 := fun _ => Evident p); [by intros s Hs|]. intros s0.
  eapply post_bind; [apply post_Evident; keeps_auto|]. intros cerr.
  eapply post_bind; [apply post_Evident; unfold finalize; keeps_auto|]. intros ?. by apply post_ret.
Qed.

(** C6: the proof level is exactly what was proven. In every run, however it
    ends, it is the higher of the boot level and of the levels of the checks
    that passed: the boot level is BOOT when a poll of the run saw the guest up
    the way the plan asks it with its agent answering, and NONE when no poll did;
    and the checks of the run are the results their runner returned last, for the
    checks of the plan, or none when it returned nothing. *)
Theorem proof_level_earned w :
  evidence p (Run p opts w).2.
Proof. apply run_evident. Qed.

(** A drill never proves more than its plan announces: whatever the providers,
    the guest and the checks answer, the level recorded is at most the level the
    plan's summary promises, or BOOT. *)
Theorem proof_level_bounded w :
  (ss_Skip (pl_Startup p) = true -> pl_Checks p = []) ->
  Rank (run_ProofLevel (es_run (Run p opts w).2)) <= Z.max (Rank ProofBoot) (Rank (PlanProvenLevel p)).
Proof.
  intros Hs. destruct (run_evident w) as [-> _]. rewrite Rank_Raise. unfold checks_level.
  pose proof (proj1 (proven_at_most p (run_Checks (es_run (Run p opts w).2)) Hs)).
  unfold boot_level. destruct (existsb _ _); cbn in *; lia.
Qed.

(** An INCONCLUSIVE run is one where no critical check failed and at least
    one could not be evaluated. *)
Theorem inconclusive_is_undecided w e s :
  Run p opts w = (Ret e, s) -> run_State (es_run s) = RunInconclusive -> undecided p (es_run s).
Proof.
  intros (werr & cerr & s0 & [_ Hc Hg [_ Hd] _ _ _ _])%run_ending Hst.
  assert (E : run_Checks (es_run s) = run_Checks (es_run s0)).
  { unfold grade_view in Hg. rewrite !pair_equal_spec in Hg. tauto. }
  unfold undecided. rewrite E. destruct cerr as [ce|]; [destruct Hd as (_ & _ & Hs & _); congruence|].
  destruct Hd as (Hs & _). rewrite Hs in Hst.
  destruct Hc as [H|(? & _ & H & _)]; [|congruence]. destruct werr; cbn in H;
    [destruct H as [[? _]|(_ & _ & _ & H)]; [congruence | exact H] | destruct H as [? _]; congruence].
Qed.
End Contract.

(** ** The theorems at work *)

Lemma run_contract_witness :
  let r := Run sim_plan sim_opts sim_world in
  r = (Ret None, r.2) /\ Terminal (run_State (es_run r.2)) = true /\ run_State (es_run r.2) = RunSuccess.
Proof.
  intros r. assert (E : r = (Ret None, r.2)) by (vm_compute; reflexivity).
  destruct (run_contract sim_plan sim_opts sim_world None r.2 E) as (Ht & Hs & _).
  split; [exact E | split; [exact Ht | exact (proj1 Hs eq_refl)]].
Defined.

Lemma success_is_earned_witness :
  let r := Run sim_plan sim_opts sim_world in
  r = (Ret None, r.2) /\ earned sim_plan r.2.
Proof.
  intros r. assert (E : r = (Ret None, r.2)) by (vm_compute; reflexivity).
  split; [exact E|]. apply (success_is_earned sim_plan sim_opts sim_world None r.2 E eq_refl).
  left. vm_compute. reflexivity.
Defined.

(** A delete that fails. *)
Definition sim_stuck : Sim := mkSim 7 (Some (ESentinel ErrTimeout)) CheckPass 0 false.

Lemma cleanup_always_witness :
  let r := Run sim_plan sim_opts sim_stuck in
  exists e b ro, r = (Ret e, r.2) /\ OCall CtxRun (CallRestore b ro) EndOk ∈ es_trace r.2 /\
  exists derr, OCall CtxDetached (CallDelete "9001") (EndErr derr) ∈ es_trace r.2 /\
     run_State (es_run r.2) = RunCleanupFailed /\
     run_Err (es_run r.2) = orphanMessage "9001" "pve1" (run_ID (es_run r.2)) derr.
Proof.
  intros r. exists (Some (orphaned "9001" "pve1" (ESentinel ErrTimeout))), sim_backup.
  exists (restoreOptions sim_plan sim_opts (mkPrepared "9001" "restorelab-101-00010101000000"
      (workloadMetadata "run-1" "101" 7) "pve1")).
  assert (E : r = (Ret (Some (orphaned "9001" "pve1" (ESentinel ErrTimeout))), r.2)) by (vm_compute; reflexivity).
  assert (N : OCall CtxRun (CallRestore sim_backup (restoreOptions sim_plan sim_opts
      (mkPrepared "9001" "restorelab-101-00010101000000" (workloadMetadata "run-1" "101" 7) "pve1"))) EndOk
    ∈ es_trace r.2).
  { apply (list_elem_of_lookup_2 _ 9). vm_compute. reflexivity. }
  split; [exact E | split; [exact N|]].
  destruct (cleanup_always sim_plan sim_opts sim_stuck _ r.2 _ _ E N) as [(_ & _ & H & _)|[(_ & _ & H & _)|H]].
  - exfalso. apply H. vm_compute. reflexivity.
  - exfalso. apply H. vm_compute. reflexivity.
  - destruct H as (derr & H1 & _ & H2 & H3). exists derr. exact (conj H1 (conj H2 H3)).
Defined.

Lemma inconclusive_is_undecided_witness :
  let r := Run sim_plan sim_opts (mkSim 7 None CheckError 0 false) in
  exists e, r = (Ret e, r.2) /\ run_State (es_run r.2) = RunInconclusive /\ undecided sim_plan (es_run r.2).
Proof.
  intros r. exists (Some (checksInconclusive ["ssh"])).
  assert (E : r = (Ret (Some (checksInconclusive ["ssh"])), r.2)) by (vm_compute; reflexivity).
  assert (N : run_State (es_run r.2) = RunInconclusive) by (vm_compute; reflexivity).
  split; [exact E | split; [exact N|]].
  exact (inconclusive_is_undecided sim_plan sim_opts (mkSim 7 None CheckError 0 false) _ r.2 E N).
Defined.

Lemma proof_level_bounded_witness :
  Rank (run_ProofLevel (es_run (Run sim_plan sim_opts sim_world).2))
  <= Z.max (Rank ProofBoot) (Rank (PlanProvenLevel sim_plan)).
Proof. apply (proof_level_bounded sim_plan sim_opts sim_world). intros H. discriminate H. Defined.
