(* ===== verification/EngineLimits.v ===== *)
(** * Dry runs, cancellation, names, retries and termination

    The remaining guarantees of the recovery engine: a dry run only reads, a
    cancelled run is reported as such, names fit what hypervisors accept, a
    retried call is bounded, and every run comes back. *)

From Stdlib Require Import ZArith Lia String Ascii List.
From S2P Require Import Prelude GoTime Errors Core GoString Plan Engine EngineFrame EngineShape EngineSafety.
From S2P Require Import EngineVerdict EngineContract.

(** ** Names *)

(** A character of a name: a lower-case letter, a digit or a dash. *)
Definition name_char (c : ascii) : bool := is_lower c || is_digit c || Ascii.eqb "-"%char c.
Fixpoint all_chars (f : ascii -> bool) (s : string) : bool :=
  match s with EmptyString => true | String c s => f c && all_chars f s end.

(** A retried call, as it appears in the trace: [k] calls whose errors were
    retryable, then the one that settled it. *)
Definition retried (ctx : ctxkind) (c : provider_call) (errs : list error) (last : call_end) : list obs :=
  map (fun e => OCall ctx c (EndErr e)) errs ++ [OCall ctx c last].

Lemma all_chars_app f s1 s2 : all_chars f (s1 +:+ s2) = all_chars f s1 && all_chars f s2.
Proof. induction s1 as [|c s1 IH]; simpl; [done | by rewrite IH, andb_assoc]. Qed.

Lemma all_chars_srev f s acc : all_chars f (srev s acc) = all_chars f s && all_chars f acc.
Proof.
  revert acc; induction s as [|c s IH]; intros acc; simpl; [done|].
  rewrite IH. simpl. destruct (f c), (all_chars f s); reflexivity.
Qed.

Lemma length_srev s acc : String.length (srev s acc) = (String.length s + String.length acc)%nat.
Proof. revert acc; induction s as [|c s IH]; intros acc; simpl; [done | rewrite IH; simpl; lia]. Qed.

Lemma trim_left_spec f p s :
  (all_chars f s = true -> all_chars f (trim_left_by p s) = true) /\
  (String.length (trim_left_by p s) <= String.length s)%nat.
Proof.
  induction s as [|c s [IH1 IH2]]; simpl; [done|]. destruct (p c); [|done].
  split; [intros [_ H]%andb_true_iff; auto | lia].
Qed.

Lemma trim_spec f p s :
  (all_chars f s = true -> all_chars f (trim_by p s) = true) /\
  (String.length (trim_by p s) <= String.length s)%nat.
Proof.
  unfold trim_by, trim_right_by. destruct (trim_left_spec f p s) as [H1 H2].
  destruct (trim_left_spec f p (srev (trim_left_by p s) EmptyString)) as [H3 H4].
  rewrite all_chars_srev, !length_srev in *. simpl in *. split; [|lia].
  intros H. rewrite H3; [done|]. by rewrite H1.
Qed.

Lemma substring_spec f n s :
  (all_chars f s = true -> all_chars f (String.substring 0 n s) = true) /\
  (String.length (String.substring 0 n s) <= n)%nat.
Proof.
  revert s; induction n as [|n IH]; intros [|c s]; simpl; try (split; [done | lia]).
  destruct (IH s) as [H1 H2]. split; [|lia].
  intros [-> H]%andb_true_iff. simpl. auto.
Qed.

Lemma slug_loop_chars s b prev :
  all_chars name_char b = true -> all_chars name_char (slug_loop s b prev) = true.
Proof.
  revert b prev; induction s as [|r s IH]; intros b prev Hb; simpl; [done|].
  destruct (is_lower r || is_digit r) eqn:Hr.
  - apply IH. rewrite all_chars_app, Hb. simpl. unfold name_char. by rewrite Hr.
  - destruct (negb prev && _); apply IH; [by rewrite all_chars_app, Hb | done].
Qed.

Lemma sanitizeSlug_chars s : all_chars name_char (sanitizeSlug s) = true.
Proof. unfold sanitizeSlug, TrimChar. apply trim_spec. by apply slug_loop_chars. Qed.

Lemma digit_char n : name_char (Time.digit n) = true.
Proof.
  unfold Time.digit. pose proof (Z.mod_pos_bound n 10 ltac:(lia)) as H.
  assert (C : n mod 10 = 0 \/ n mod 10 = 1 \/ n mod 10 = 2 \/ n mod 10 = 3 \/ n mod 10 = 4 \/
    n mod 10 = 5 \/ n mod 10 = 6 \/ n mod 10 = 7 \/ n mod 10 = 8 \/ n mod 10 = 9) by lia.
  by destruct C as [->|[->|[->|[->|[->|[->|[->|[->|[->| ->]]]]]]]]].
Qed.

Lemma pad_chars w n : all_chars name_char (Time.pad w n) = true.
Proof.
  revert n; induction w as [|w IH]; intros n; simpl; [done|]. rewrite all_chars_app, IH. simpl.
  by rewrite digit_char.
Qed.

Lemma compact_chars t : all_chars name_char (Time.format_compact t) = true.
Proof. unfold Time.format_compact. by rewrite !all_chars_app, !pad_chars. Qed.

(** The name of a temporary workload is one every hypervisor accepts: at most
    63 bytes, made of lower-case letters, digits and dashes only, beginning with
    "restorelab-" and ending with the timestamp that tells runs apart, whatever
    the identifier of the source is. *)
Theorem tempWorkloadName_valid sourceID at_ :
  slen (tempWorkloadName sourceID at_) <= maxTempNameLen /\
  all_chars name_char (tempWorkloadName sourceID at_) = true /\
  exists middle, tempWorkloadName sourceID at_ = "restorelab-" +:+ middle +:+ Time.format_compact at_.
Proof.
  unfold tempWorkloadName, slen, maxTempNameLen. cbv zeta.
  pose proof (sanitizeSlug_chars sourceID) as Hc. set (slug := sanitizeSlug sourceID) in *. clearbody slug.
  set (ts := Time.format_compact at_).
  assert (Hts : String.length ts = 14%nat) by apply length_format_compact.
  assert (Htc : all_chars name_char ts = true) by apply compact_chars.
  clearbody ts.
  assert (Hlen : forall m, Z.of_nat (String.length ("restorelab-" +:+ m +:+ "-" +:+ ts)) =
    26 + Z.of_nat (String.length m)).
  { intros m. rewrite !string_length_app, Hts. simpl String.length. lia. }
  rewrite Hlen. destruct (Z.leb_spec (26 + Z.of_nat (String.length slug)) 63) as [Hle|Hgt].
  - rewrite Hlen. split_and!; [lia | by rewrite !all_chars_app, Hc, Htc|].
    exists (slug +:+ "-"). by rewrite <- string_app_assoc.
  - set (cut := if _ <=? _ then _ else _).
    assert (Hcut : all_chars name_char cut = true /\ Z.of_nat (String.length cut) <= 37).
    { subst cut. destruct (Z.leb_spec (Z.of_nat (String.length slug)) (26 + Z.of_nat (String.length slug) - 63));
        [lia|]. destruct (substring_spec name_char (Z.to_nat (Z.of_nat (String.length slug) -
          (26 + Z.of_nat (String.length slug) - 63))) slug) as [H1 H2]. split; [auto | lia]. }
    clearbody cut. destruct Hcut as [Hcc Hcl].
    destruct (trim_spec name_char (Ascii.eqb "-"%char) cut) as [H1 H2]. unfold TrimChar.
    set (m := trim_by _ cut) in *. clearbody m. destruct (nonempty m).
    + rewrite Hlen. split_and!; [lia | by rewrite !all_chars_app, H1, Htc|].
      exists (m +:+ "-"). by rewrite <- string_app_assoc.
    + rewrite string_length_app, Hts. simpl String.length.
      split_and!; [lia | by rewrite all_chars_app, Htc | by exists EmptyString].
Qed.

Section Limits.
Context {W : Type} `{!EngineEnv W} (p : Plan) (opts : RunOptions).
Abbreviation ES := (Engine.ES (W := W)).

(** ** Dry runs *)

(** C7: a dry run changes nothing on any hypervisor: it makes read calls only, on
    the run's own context, allocates no identity and leaves nothing to clean up. *)
Theorem dry_run_reads_only w :
  op_DryRun opts = true ->
  Forall (allow reads) (es_trace (Run p opts w).2) /\ es_needsCleanup (Run p opts w).2 = false /\
  run_TempWorkloadID (es_run (Run p opts w).2) = "".
Proof.
  intros Hd.
  set (R := fun s s' : ES => fr (allow reads) same_temp s s').
  enough (H : post (fun s : ES => Fresh s /\ run_TempWorkloadID (es_run s) = "") (run_body p opts)
    (fun _ s => Fresh s /\ run_TempWorkloadID (es_run s) = "")
    (fun s => Fresh s /\ run_TempWorkloadID (es_run s) = "")).
  { assert (H0 : Fresh (newRun p opts w) /\ run_TempWorkloadID (es_run (newRun p opts w)) = "").
    { split; [apply Fresh_newRun|]. unfold newRun. by destruct (env_now w). }
    specialize (H _ H0). unfold Run. destruct (run_body p opts (newRun p opts w)) as [[?|?|] s];
      destruct H as [[? ?] ?]; done. }
  set (P := fun s : ES => Fresh s /\ run_TempWorkloadID (es_run s) = "").
  assert (HP : forall s s', P s -> R s s' -> P s').
  { intros s s' [Hf Ht] Hr. split; [by eapply Fresh_fr|]. destruct Hr as (_ & (_ & E & _) & _). by rewrite E. }
  assert (HK : forall {A} (m : M ES A), keeps R m -> post P m (fun _ => P) P).
  { intros A m Hm. eapply post_keeps; [exact Hm | exact HP]. }
  unfold run_body. eapply post_bind with (R1 := fun _ => P).
  { eapply post_weaken; [apply post_try, HK | done | intros r s Hs; by destruct r | done].
    unfold workflow. rewrite Hd. apply runDryRun_frame. }
  intros r. eapply post_bind with (R1 := fun _ => P).
  { apply HK. unfold R, settle_workflow, markFailed, markCancelled. cbv zeta. keeps_auto. }
  intros werr. eapply post_bind with (R1 := fun s0 s => P s /\ s = s0); [by intros s Hs|].
  intros s0. eapply post_bind with (R1 := fun _ => P).
  { intros s [[[Hr Hn] Ht] ->]. unfold cleanup. rewrite Hn. cbn. by split. }
  intros cerr. eapply post_bind with (R1 := fun _ => P).
  { apply HK. unfold R, finalize. keeps_auto. }
  intros ?. by apply post_ret.
Qed.

(** ** Cancellation *)

(** What the deferred function is handed, from how the workflow ended. *)
Definition handed (o : outcome (option error)) (r : string + option error) : Prop :=
  match o with Ret werr => r = inr werr | Panic msg => r = inl msg | Diverge => False end.

Lemma run_of_workflow w o s1 e s :
  workflow p opts (newRun p opts w) = (o, s1) -> Run p opts w = (Ret e, s) ->
  exists r werr s2 cerr, handed o r /\ settle_workflow r s1 = (Ret werr, s2) /\
    ending p opts e s werr cerr s2.
Proof.
  intros Hw E. unfold Run, run_body in E. pose proof (Early_newRun p opts w) as HE.
  pose proof (workflow_verdict p opts _ HE) as HV.
  pose proof (workflow_post p opts _ (Fresh_newRun p opts w)) as HS. rewrite Hw in HV, HS.
  assert (Hr : exists r, handed o r /\ try (workflow p opts) (newRun p opts w) = (Ret r, s1)).
  { unfold try. rewrite Hw. destruct o as [werr|msg|]; [by exists (inr werr) | by exists (inl msg) |].
    unfold mbind, M_bind, try in E. by rewrite Hw in E. }
  destruct Hr as (r & Hr & Ht). rewrite (bind_Ret _ _ _ r s1) in E by done.
  assert (HV' : match r with inl _ => Evident p s1 | inr werr => Verdict p opts werr s1 end).
  { destruct o; cbn in Hr; subst; done. }
  assert (HS' : Ended opts s1) by by destruct o.
  apply bind_Ret_inv in E as (werr & s2 & Hs & E).
  pose proof (settle_concluded p opts r s1 HV') as HC. pose proof (settle_post opts r s1 HS') as HD.
  rewrite Hs in HC, HD. rewrite (bind_Ret _ _ _ s2 s2) in E by done.
  pose proof (cleanup_ending p opts werr s2 HC HD s2 eq_refl) as H. rewrite E in H.
  destruct H as [cerr H]. by exists r, werr, s2, cerr.
Qed.

(** C8: cancellation is reported as what it is, and nothing else is reported as
    cancellation. When the workflow returned an error and the context says that
    it was cancelled, the run has no result and ends as CANCELLED (or as
    CLEANUP_FAILED), with an error. A workflow that returned no error, or an
    error while the context stands, never ends as CANCELLED; nor does one that
    panicked, cancelled or not: it ends as FAILED (or as CLEANUP_FAILED), with an
    error. *)
Theorem cancellation_reported w o s1 e s :
  workflow p opts (newRun p opts w) = (o, s1) -> Run p opts w = (Ret e, s) ->
  match o with
  | Ret (Some _) =>
    if canceled s1
    then e <> None /\ run_Result (es_run s) = ResultNone /\
         (run_State (es_run s) = RunCancelled \/ run_State (es_run s) = RunCleanupFailed)
    else run_State (es_run s) <> RunCancelled
  | Ret None => run_State (es_run s) <> RunCancelled
  | Panic _ =>
    e <> None /\ run_Result (es_run s) = ResultFailed /\
    (run_State (es_run s) = RunFailed \/ run_State (es_run s) = RunCleanupFailed)
  | Diverge => False
  end.
Proof.
  intros Hw E. destruct (run_of_workflow w o s1 e s Hw E)
    as (r & werr & s2 & cerr & Hh & Hs & [He _ Hg [_ Hd] _ _ _ _]).
  pose proof (workflow_verdict p opts _ (Early_newRun p opts w)) as HV. rewrite Hw in HV.
  assert (HR : run_Result (es_run s) = run_Result (es_run s2)).
  { unfold grade_view in Hg. rewrite !pair_equal_spec in Hg. tauto. }
  assert (HS : run_State (es_run s) = run_State (es_run s2) \/ run_State (es_run s) = RunCleanupFailed).
  { destruct cerr; [right; tauto | left; tauto]. }
  unfold settle_workflow, mbind, M_bind, gets in Hs.
  destruct o as [[err|]|msg|]; cbn in Hh; [subst r; cbn in Hs..|done].
  - destruct (canceled s1); cbn in Hs; injection Hs as <- <-.
    + cbn in HR, HS. rewrite HR, He. split_and!; [by destruct cerr | done | exact HS].
    + intros Hc. rewrite Hc in HS. destruct HS as [HS|]; [|done]. destruct HV as [HV _]. cbn in HV.
      destruct HV as [[? _]|[? _]]; congruence.
  - injection Hs as <- <-. intros Hc. rewrite Hc in HS. destruct HV as [HV _]. cbn in HV.
    destruct HS, HV; congruence.
  - injection Hs as <- <-. cbn in HR, HS. rewrite HR, He. split_and!; [by destruct cerr | done | exact HS].
Qed.

(** ** Retries *)

(** [Retry] makes between one and [attempts] calls (one when asked for
    less), retries only errors marked retryable, returns what the last call
    answered, and gives up early only on an error that is not retryable (or
    when the wait between two attempts is interrupted). *)
Theorem retry_bounded {A} ctx n b (ok : A -> call_end) c (op : M W (error + A)) s r s' :
  retry ctx n b (call_with ok ctx c op) s = (Ret r, s') ->
  exists errs last, es_trace s' = es_trace s ++ retried ctx c errs last /\
    Forall (fun e => IsRetryable e = true) errs /\ Z.of_nat (length errs) < Z.max 1 n /\
    last = (match r with inl e => EndErr e | inr a => ok a end) /\
    ((forall d w, (env_sleep ctx d w).1 = None) ->
     forall e, r = inl e -> IsRetryable e = true -> Z.of_nat (length errs) + 1 = Z.max 1 n).
Proof.
  unfold retry. set (k := Z.to_nat _). intros E.
  assert (Hk : Z.of_nat k + 1 = Z.max 1 n) by (subst k; destruct (Z.ltb_spec n 1); lia).
  rewrite <- Hk. clearbody k. clear Hk n. revert s E.
  assert (Hc : forall s o s1, call_with ok ctx c op s = (Ret o, s1) ->
    es_trace s1 = es_trace s ++ [OCall ctx c (match o with inl e => EndErr e | inr a => ok a end)]).
  { intros s o s1. unfold call_with. destruct (op (es_world s)) as [[[e|a]|?|] w];
      intros H; by inversion H. }
  assert (Hone : forall k (s s1 : ES) o, es_trace s1 = es_trace s ++ [OCall ctx c (match o with inl e => EndErr e | inr a => ok a end)] ->
    (forall e, o = inl e -> IsRetryable e = true -> k = O) ->
    exists errs last, es_trace s1 = es_trace s ++ retried ctx c errs last /\
      Forall (fun e => IsRetryable e = true) errs /\ Z.of_nat (length errs) < Z.of_nat k + 1 /\
      last = (match o with inl e => EndErr e | inr a => ok a end) /\
      ((forall d w, (env_sleep ctx d w).1 = None) ->
       forall e, o = inl e -> IsRetryable e = true -> Z.of_nat (length errs) + 1 = Z.of_nat k + 1)).
  { intros k0 s s1 o Ht Hk0. exists [], (match o with inl e => EndErr e | inr a => ok a end).
    split_and!; [done | constructor | cbn; lia | done|]. intros _ e He Hr. by rewrite (Hk0 e He Hr). }
  induction k as [|k IH]; intros s E; cbn [retry_loop] in E;
    apply bind_Ret_inv in E as (o & s1 & H1 & E); apply Hc in H1;
    (destruct o as [e|a]; [|injection E as <- <-; by apply (Hone _ s s1 (inr a))]);
    (destruct (IsRetryable e) eqn:Hr; cbn [negb] in E;
      [|injection E as <- <-; apply (Hone _ s s1 (inl e)); [done | intros ? [= <-] ?; congruence]]).
  { injection E as <- <-. by apply (Hone _ s s1 (inl e)). }
  apply bind_Ret_inv in E as (o & s2 & H2 & E). unfold sleep in H2.
  destruct (env_sleep ctx b (es_world s1)) as [o' w] eqn:Hsl. injection H2 as <- <-.
  destruct o' as [serr|].
  - injection E as <- <-. exists [], (EndErr e). split_and!; [done..|cbn; lia|done|].
    intros Hs. specialize (Hs b (es_world s1)). by rewrite Hsl in Hs.
  - destruct (IH _ E) as (errs & last & Ht & Hf & Hl & Hlast & Hex).
    exists (e :: errs), last. split_and!; [| by constructor | cbn [length]; lia | done |].
    + rewrite Ht. cbn. rewrite H1, <- app_assoc. reflexivity.
    + intros Hs e' He' Hr'. specialize (Hex Hs e' He' Hr'). cbn [length]. lia.
Qed.
End Limits.

Lemma dry_run_reads_only_witness :
  op_DryRun sim_dry = true /\ Forall (allow reads) (es_trace (Run sim_plan sim_dry sim_world).2).
Proof. split; [reflexivity | exact (proj1 (dry_run_reads_only sim_plan sim_dry sim_world eq_refl))]. Defined.

(** A drill whose context was cancelled while its check failed. *)
Lemma cancellation_reported_witness :
  let w := mkSim 7 None CheckFail 0 true in
  let s1 := (workflow sim_plan sim_opts (newRun sim_plan sim_opts w)).2 in
  let s := (Run sim_plan sim_opts w).2 in
  canceled s1 = true /\ run_Result (es_run s) = ResultNone /\
  (run_State (es_run s) = RunCancelled \/ run_State (es_run s) = RunCleanupFailed).
Proof.
  intros w s1 s.
  assert (Hw : workflow sim_plan sim_opts (newRun sim_plan sim_opts w) = (Ret (Some (checksFailed ["ssh"])), s1))
    by (vm_compute; reflexivity).
  assert (E : Run sim_plan sim_opts w = (Ret (Some (checksFailed ["ssh"])), s)) by (vm_compute; reflexivity).
  assert (C : canceled s1 = true) by (vm_compute; reflexivity).
  pose proof (cancellation_reported sim_plan sim_opts w _ s1 _ s Hw E) as H.
  cbv beta iota in H. rewrite C in H.
  exact (conj C (proj2 H)).
Defined.

(** Starting the workload of the simulated drill, three attempts allowed. *)
Lemma retry_bounded_witness :
  let m := retry CtxRun 3 0 (call_with (fun _ => EndOk) CtxRun (CallStart "9001") (hv_Start CtxRun "9001")) in
  let s := newRun sim_plan sim_opts sim_world in
  exists errs last, es_trace (m s).2 = es_trace s ++ retried CtxRun (CallStart "9001") errs last /\
    Z.of_nat (length errs) < 3.
Proof.
  intros m s. assert (E : m s = (Ret (inr tt), (m s).2)) by (vm_compute; reflexivity).
  destruct (retry_bounded CtxRun 3 0 _ _ _ _ _ _ E) as (errs & last & H1 & _ & H2 & _).
  exists errs, last. exact (conj H1 H2).
Defined.
