(* ===== verification/EngineTermination.v ===== *)
(** * Every run comes back

    The polling loop of [waitForGuest] is the only loop of the engine whose
    length is decided by the clock. Under the laws of a clock that does not go
    back and of a sleep that lasts as long as it was asked to, the fuel of
    [Engine.wait_fuel] is always enough: the loop, and with it every run,
    returns, provided each provider call does. *)

From Stdlib Require Import ZArith Lia String List.
From S2P Require Import Prelude GoTime Errors Core GoString Checks Plan Engine EngineFrame EngineShape EngineSafety EngineVerdict EngineContract.

(** What time means in a world: a reading of the clock, that no operation of
    the environment moves back. *)
Definition prompt {W A} (clock : W -> Z) (m : M W A) : Prop :=
  forall w, (m w).1 <> Diverge /\ clock w <= clock (m w).2.

Class ClockLaws (W : Type) `{!EngineEnv W} := {
  clock : W -> Z;
  now_law : forall w, clock w <= (env_now w).1 <= clock (env_now w).2;
  sleep_law : forall ctx d w, clock w <= clock (env_sleep ctx d w).2 /\
    ((env_sleep ctx d w).1 = None -> clock w + d <= clock (env_sleep ctx d w).2);
  prompt_GetWorkload ctx id : prompt clock (hv_GetWorkload ctx id);
  prompt_GetStatus ctx id : prompt clock (hv_GetStatus ctx id);
  prompt_Allocate ctx : prompt clock (hv_AllocateWorkloadID ctx);
  prompt_Restore ctx b o : prompt clock (hv_Restore ctx b o);
  prompt_WaitForJob ctx j : prompt clock (hv_WaitForJob ctx j);
  prompt_Start ctx id : prompt clock (hv_Start ctx id);
  prompt_Stop ctx id : prompt clock (hv_Stop ctx id);
  prompt_Delete ctx id : prompt clock (hv_Delete ctx id);
  prompt_Validator f ctx n c : hv_NetworkValidator = Some f -> prompt clock (f ctx n c);
  prompt_Capacity f ctx n : hv_CapacityReporter = Some f -> prompt clock (f ctx n);
  prompt_Finalizer f ctx o : hv_finalizer = Some f -> prompt clock (f ctx o);
  prompt_ListBackups ctx id : prompt clock (backups_ListBackups ctx id);
  prompt_GetLatest ctx id : prompt clock (backups_GetLatestBackup ctx id);
  prompt_RunAll ctx t c : prompt clock (checks_RunAll ctx t c);
}.

Create HintDb returns.
#[export] Hint Resolve prompt_GetWorkload prompt_GetStatus prompt_Allocate prompt_Restore prompt_WaitForJob
  prompt_Start prompt_Stop prompt_Delete prompt_Validator prompt_Capacity prompt_Finalizer
  prompt_ListBackups prompt_GetLatest prompt_RunAll : returns.

Section Termination.
Context {W : Type} `{!EngineEnv W} `{!ClockLaws W}.
Abbreviation ES := (Engine.ES (W := W)).

(** An engine computation that comes back, with a clock that did not go back. *)
Definition returns {A} (m : M ES A) : Prop :=
  forall s, (m s).1 <> Diverge /\ clock (es_world s) <= clock (es_world (m s).2).

Lemma returns_ret {A} (a : A) : returns (mret a).
Proof. intros s. by split. Qed.
Lemma returns_gets {A} (f : ES -> A) : returns (gets f).
Proof. intros s. by split. Qed.
Lemma returns_throw {A} msg : returns (throw (A := A) msg).
Proof. intros s. by split. Qed.
Lemma returns_modify f : (forall s : ES, es_world (f s) = es_world s) -> returns (modify f).
Proof. intros H s. split; [done|]. cbn. by rewrite H. Qed.
Lemma returns_update f : returns (update_run f).
Proof. by apply returns_modify. Qed.
Lemma returns_emit e : returns (emit e).
Proof. by apply returns_modify. Qed.
Lemma returns_now : returns now.
Proof.
  intros s. unfold now. pose proof (now_law (es_world s)). destruct (env_now (es_world s)). cbn in *.
  split; [done | lia].
Qed.
Lemma returns_sleep ctx d : returns (sleep ctx d).
Proof.
  intros s. unfold sleep. pose proof (sleep_law ctx d (es_world s)) as [H _].
  destruct (env_sleep ctx d (es_world s)). by split.
Qed.
Lemma returns_call_with {A} ok ctx c (op : M W (error + A)) : prompt clock op -> returns (call_with ok ctx c op).
Proof. intros H s. specialize (H (es_world s)). unfold call_with. by destruct (op (es_world s)) as [o w]. Qed.
Lemma returns_call {A} ctx c (op : M W (error + A)) : prompt clock op -> returns (call ctx c op).
Proof. apply returns_call_with. Qed.
Lemma returns_call_total {A} ok ctx c (op : M W A) : prompt clock op -> returns (call_total ok ctx c op).
Proof. intros H s. specialize (H (es_world s)). unfold call_total. by destruct (op (es_world s)) as [o w]. Qed.
Lemma returns_deref {A} (o : option A) : returns (deref o).
Proof. destruct o; [apply returns_ret | apply returns_throw]. Qed.
Lemma returns_run : returns run_.
Proof. apply returns_gets. Qed.

Lemma returns_bind {A B} (m : M ES A) (k : A -> M ES B) :
  returns m -> (forall a, returns (k a)) -> returns (mbind k m).
Proof.
  intros Hm Hk s. specialize (Hm s). unfold mbind, M_bind. destruct (m s) as [[a|e|] s1]; cbn in *;
    [|split; [done | lia] | by destruct Hm].
  destruct (Hk a s1). split; [done | lia].
Qed.
Lemma returns_try {A} (m : M ES A) : returns m -> returns (try m).
Proof. intros H s. specialize (H s). unfold try. destruct (m s) as [[?|?|] ?]; cbn in *; destruct H; by split. Qed.

Lemma returns_retry {A} ctx n b (fn : M ES (error + A)) : returns fn -> returns (retry ctx n b fn).
Proof.
  intros Hf. unfold retry. set (k := Z.to_nat _). clearbody k.
  induction k as [|k IH]; cbn [retry_loop]; (apply returns_bind; [done|]); intros [e|a];
    try (apply returns_ret); destruct (negb (IsRetryable e)); try (apply returns_ret).
  apply returns_bind; [apply returns_sleep|]. intros [?|]; [apply returns_ret | exact IH].
Qed.

Hint Resolve returns_ret returns_gets returns_throw returns_update returns_emit returns_now returns_sleep
  returns_call_with returns_call returns_call_total returns_deref returns_run returns_retry : returns.

Ltac returns_step :=
  match goal with
  | |- forall _, _ => intro
  | |- returns (mbind _ _) => apply returns_bind
  | |- returns (try _) => apply returns_try
  | |- returns (if ?b then _ else _) => destruct b eqn:?
  | |- returns (match ?x with _ => _ end) => destruct x eqn:?
  | |- returns (modify _) => by apply returns_modify
  | |- returns _ => solve [eauto 3 with returns]
  end.
Ltac returns_auto := repeat returns_step.

Lemma returns_beginStep n st : returns (beginStep n st).
Proof. unfold beginStep. returns_auto. Qed.
Lemma returns_endStep i st m e : returns (endStep i st m e).
Proof. unfold endStep. cbv zeta. returns_auto. Qed.
Hint Resolve returns_beginStep returns_endStep : returns.
Lemma returns_failStep {A} i m e : returns (failStep (A := A) i m e).
Proof. unfold failStep. returns_auto. Qed.
Lemma returns_emit_checks l : returns (emit_checks l).
Proof. induction l as [|r l IH]; cbn [emit_checks]; returns_auto. Qed.
Hint Resolve returns_failStep returns_emit_checks : returns.
Lemma returns_discoverBackup p : returns (discoverBackup p).
Proof. unfold discoverBackup, resolveSourceName, resolveBackup. cbv zeta. returns_auto. Qed.
Lemma returns_resolveNode p opts : returns (resolveNode p opts).
Proof. unfold resolveNode. cbv zeta. returns_auto. Qed.
Lemma returns_isolation node net : returns (checkNetworkIsolation node net).
Proof. unfold checkNetworkIsolation. returns_auto. Qed.
Lemma returns_capacity node m : returns (checkCapacity node m).
Proof. unfold checkCapacity. cbv zeta. returns_auto. Qed.
Hint Resolve returns_discoverBackup returns_resolveNode returns_isolation returns_capacity : returns.
Lemma returns_prepareEnvironment p opts : returns (prepareEnvironment p opts).
Proof. unfold prepareEnvironment. cbv zeta. returns_auto. Qed.
Lemma returns_restoreWorkload p opts pr : returns (restoreWorkload p opts pr).
Proof. unfold restoreWorkload. cbv zeta. returns_auto. Qed.
Lemma returns_startWorkload p id : returns (startWorkload p id).
Proof. unfold startWorkload. returns_auto. Qed.
Lemma returns_runChecks p t : returns (runChecks p t).
Proof. unfold runChecks. cbv zeta. returns_auto. Qed.
Lemma returns_runDryRun p opts : returns (runDryRun p opts).
Proof. unfold runDryRun, dryFail, markFailed. returns_auto. Qed.
Lemma returns_cleanup p opts id node n : returns (cleanup p opts id node n).
Proof. unfold cleanup, destroy, recordCleanupSkipped. cbv zeta. returns_auto. Qed.

(** ** The polling loop *)

(** Enough rounds are left at this reading of the clock: one per poll interval
    before the deadline, and one to find it passed. *)
Definition enough (fuel : nat) (deadline c : Z) : Prop :=
  (1 <= fuel)%nat /\ (deadline <= c \/ deadline - c < DefaultGuestPollEvery * (Z.of_nat fuel - 1)).

(** From a reading of the clock on, a computation comes back. *)
Definition returns_from {A} (c : Z) (m : M ES A) : Prop :=
  forall s, c <= clock (es_world s) -> (m s).1 <> Diverge /\ clock (es_world s) <= clock (es_world (m s).2).

Lemma returns_from_any {A} c (m : M ES A) : returns m -> returns_from c m.
Proof. intros H s _. apply H. Qed.

Lemma returns_from_bind {A B} c (m : M ES A) (k : A -> M ES B) :
  returns m -> (forall a, returns_from c (k a)) -> returns_from c (mbind k m).
Proof.
  intros Hm Hk s Hc. specialize (Hm s). unfold mbind, M_bind. destruct (m s) as [[a|e|] s1]; cbn in *;
    [|split; [done | lia] | by destruct Hm].
  destruct (Hk a s1); [lia|]. split; [done | lia].
Qed.

(** Reading the clock, and sleeping, move the reading the rest starts from. *)
Lemma returns_from_now {B} c (k : Z -> M ES B) :
  (forall t, c <= t -> returns_from t (k t)) -> returns_from c (mbind k now).
Proof.
  intros Hk s Hc. unfold mbind, M_bind, now. pose proof (now_law (es_world s)) as H.
  destruct (env_now (es_world s)) as [t w]. cbn in H |- *.
  destruct (Hk t ltac:(lia) (set_es_world w s)) as [H1 H2]; cbn in *; [lia|]. split; [done | lia].
Qed.

Lemma returns_from_sleep {B} c ctx d (k : option error -> M ES B) :
  (forall e, returns (k (Some e))) -> returns_from (Z.max c (c + d)) (k None) ->
  returns_from c (mbind k (sleep ctx d)).
Proof.
  intros Hs Hn s Hc. unfold mbind, M_bind, sleep. pose proof (sleep_law ctx d (es_world s)) as [H1 H2].
  destruct (env_sleep ctx d (es_world s)) as [[e|] w]; cbn in H1, H2 |- *.
  - destruct (Hs e (set_es_world w s)). cbn in *. split; [done | lia].
  - specialize (H2 eq_refl). destruct (Hn (set_es_world w s)) as [H3 H4]; cbn in *; [lia|]. split; [done | lia].
Qed.

Lemma round_enough fuel deadline c t1 t2 :
  enough (S fuel) deadline c -> c <= t1 -> t1 < deadline -> t1 <= t2 ->
  let remaining := Time.Sub deadline t2 in
  let wait := if remaining <? DefaultGuestPollEvery then remaining else DefaultGuestPollEvery in
  enough fuel deadline (Z.max t2 (t2 + wait)).
Proof.
  unfold enough, Time.Sub, Duration.sat, Duration.minDuration, Duration.maxDuration, DefaultGuestPollEvery,
    Duration.Second.
  intros [_ [H|H]] H1 H2 H3; [lia|]. cbv zeta. split; [nia|].
  destruct (Z.ltb_spec (Z.max (- 2 ^ 63) (Z.min (2 ^ 63 - 1) (deadline - t2))) (3 * 1000000000)).
  - left. lia.
  - right. lia.
Qed.

Lemma enough_mono fuel deadline c c' : enough fuel deadline c -> c <= c' -> enough fuel deadline c'.
Proof. unfold enough, DefaultGuestPollEvery, Duration.Second. intros [? [?|?]] ?; (split; [done|]); lia. Qed.

Lemma waitLoop_returns fuel p id idx timeout deadline c :
  enough fuel deadline c -> returns_from c (waitLoop fuel p id idx timeout deadline).
Proof.
  revert c; induction fuel as [|fuel IH]; intros c He; [by destruct He; lia|]. cbn [waitLoop].
  apply returns_from_bind; [unfold pollStatus; returns_auto|]. intros [err|st].
  { apply returns_from_any. returns_auto. }
  apply returns_from_bind; [apply returns_deref|]. intros st'. destruct (guestReady st' p).
  { apply returns_from_any. cbv zeta. returns_auto. }
  apply returns_from_now. intros t1 Ht1. destruct (Z.ltb_spec t1 deadline) as [Hb|Hb];
    unfold Time.Before; [rewrite (proj2 (Z.ltb_lt _ _)) by done | rewrite (proj2 (Z.ltb_ge _ _)) by done];
    cbn [negb]; [|apply returns_from_any; cbv zeta; returns_auto].
  apply returns_from_now. intros t2 Ht2. cbv zeta. apply returns_from_sleep; [intros e; returns_auto|].
  apply IH. eapply (round_enough fuel deadline c t1 t2); done.
Qed.

Lemma wait_fuel_enough p t0 :
  enough (wait_fuel p) (Time.Add t0 (ss_Timeout (pl_Startup p))) t0.
Proof.
  unfold enough, wait_fuel, Time.Add, DefaultGuestPollEvery, Duration.Second. split; [lia|].
  right. set (d := ss_Timeout (pl_Startup p)).
  pose proof (Z.div_mod d (3 * 1000000000) ltac:(lia)).
  pose proof (Z.mod_pos_bound d (3 * 1000000000) ltac:(lia)).
  destruct (Z.ltb_spec d 0); lia.
Qed.

Lemma waitForGuest_returns p id : returns (waitForGuest p id).
Proof.
  unfold waitForGuest. apply returns_bind; [returns_auto|]. intros idx.
  destruct (ss_Skip (pl_Startup p)); [returns_auto|]. cbv zeta.
  intros s. apply (returns_from_now (clock (es_world s))); [|lia]. intros t0 Ht0.
  apply waitLoop_returns, wait_fuel_enough.
Qed.

Hint Resolve returns_prepareEnvironment returns_restoreWorkload returns_startWorkload returns_runChecks
  returns_runDryRun returns_cleanup waitForGuest_returns : returns.

(** C9: every run comes back: as long as each provider call returns or panics
    and time passes, [Run] returns or panics; the polling loop ends, in at most
    [wait_fuel] rounds. *)
Theorem run_comes_back p opts w : (Run p opts w).1 <> Diverge.
Proof.
  enough (H : returns (run_body p opts)) by apply H.
  unfold run_body, workflow, orFail, settle_workflow, markFailed, markCancelled, markInconclusive,
    measureRTO, gradeSuccess, finalize. cbv zeta. returns_auto.
Qed.
End Termination.

(** The simulated hypervisor keeps the laws of a clock. *)
#[export] Instance sim_laws : ClockLaws Sim.
Proof.
  refine {| clock := sim_clock |}; intros; unfold prompt; cbn; intros; try (split; [done | lia]).
  - lia.
  - match goal with H : hv_NetworkValidator = _ |- _ => cbn in H; injection H as <- end. split; [done | cbn; lia].
  - match goal with H : _ = Some _ |- _ => discriminate H end.
  - match goal with H : _ = Some _ |- _ => discriminate H end.
Defined.

(** A guest that takes 1000 polls to boot is given up on, and the run returns. *)
Lemma run_comes_back_witness :
  (Run sim_plan sim_opts (mkSim 7 None CheckPass 1000 false)).1 <> Diverge.
Proof. exact (run_comes_back sim_plan sim_opts (mkSim 7 None CheckPass 1000 false)). Defined.

(** * The engine and its check runner

    What the engine needs of the runner it calls is the class [FaithfulRunner];
    the registry of [Checks] provides it. Against that interface, a successful
    drill passed every critical check of its plan, by name. *)

(** The runner returns one result per check, in order, under its display name. *)
Class FaithfulRunner (W : Type) `{!EngineEnv W} := runner_names :
  forall ctx target cfgs w results w',
    checks_RunAll ctx target cfgs w = (Ret results, w') ->
    Forall2 (fun cfg r => cr_Name r = displayName cfg) cfgs results.

(** Every critical check of the plan has a result that passed. *)
Definition critical_checks_passed (p : Plan) (results : list CheckResult) : Prop :=
  forall c, c ∈ pl_Checks p -> IsCritical c = true ->
    exists r, r ∈ results /\ cr_Name r = DisplayName c /\ OK r = true.

(** A runner that is the registry is faithful. *)
Lemma registry_faithful {W T} `{!EngineEnv W} `{!CheckEnv W T} (reg : Registry (W := W) (T := T))
    (tg : ctxkind -> Target -> T) :
  (forall ctx t cfgs w, checks_RunAll ctx t cfgs w = RunAll reg (tg ctx t) cfgs w) -> FaithfulRunner W.
Proof.
  intros H ctx target cfgs w results w' E. rewrite H in E. apply RunAll_returned in E.
  induction E as [|cfg r cfgs results Ha _ IH]; constructor; [apply Ha | exact IH].
Qed.

(** ** The critical map *)

Lemma critical_fold cs m name :
  name ∉ map DisplayName cs ->
  fold_left (fun m c => <[DisplayName c := IsCritical c]> m) cs m !! name = (m : gmap string bool) !! name.
Proof.
  revert m; induction cs as [|c cs IH]; intros m Hn; cbn in *; [done|].
  apply not_elem_of_cons in Hn as [Hc Hn]. rewrite IH by done. by rewrite lookup_insert_ne by congruence.
Qed.

Lemma critical_lookup_spec p c :
  NoDup (map DisplayName (pl_Checks p)) -> c ∈ pl_Checks p ->
  critical_lookup (criticalMap p) (DisplayName c) = IsCritical c.
Proof.
  unfold critical_lookup, criticalMap. generalize (∅ : gmap string bool).
  induction (pl_Checks p) as [|c' cs IH]; intros m Hn Hc; [by apply elem_of_nil in Hc|].
  cbn in *. apply NoDup_cons in Hn as [Hd Hn]. apply elem_of_cons in Hc as [->|Hc].
  - rewrite critical_fold by done. by rewrite lookup_insert_eq.
  - by apply IH.
Qed.

(** The name a check runs under is the one the plan shows. *)
Lemma nonempty_app s1 s2 : nonempty s2 = true -> nonempty (s1 +:+ s2) = true.
Proof. intros H. apply nonempty_spec. destruct s1; [by apply nonempty_spec | done]. Qed.

Lemma displayName_ToCore c : displayName (ToCore c) = DisplayName c.
Proof.
  unfold displayName, ToCore; cbn. destruct (nonempty (DisplayName c)) eqn:E; [done|].
  apply nonempty_false in E. rewrite E. unfold DisplayName in E.
  destruct (nonempty (ck_Name c)) eqn:En; [by apply nonempty_spec in En|].
  destruct (ck_Params c !! "port").
  - exfalso. assert (H : nonempty (ToUpper (ck_Type c) +:+ (" " +:+ fmt_v a)) = true) by by apply nonempty_app.
    rewrite E in H. discriminate H.
  - destruct (ck_Type c); [done | discriminate E].
Qed.

Section Runner.
Context {W : Type} `{!EngineEnv W} `{!FaithfulRunner W} (p : Plan) (opts : RunOptions).

Lemma named_result cs results c :
  Forall2 (fun cfg r => cr_Name r = displayName cfg) (map ToCore cs) results -> c ∈ cs ->
  exists r, r ∈ results /\ cr_Name r = DisplayName c.
Proof.
  revert results; induction cs as [|c' cs IH]; intros results H Hc; [by apply elem_of_nil in Hc|].
  cbn in H. inversion H as [|? r ? rs Hr Hrs]; subst. apply elem_of_cons in Hc as [->|Hc].
  - exists r. rewrite displayName_ToCore in Hr. split; [apply elem_of_cons; by left | done].
  - destruct (IH rs Hrs Hc) as (r' & ? & ?). exists r'. split; [apply elem_of_cons; by right | done].
Qed.

(** A drill that is graded SUCCESS or DEGRADED passed every critical check of
    its plan. The plan's checks have distinct display names (which validation
    guarantees), the runner accounts for each of them, and the run is not a dry
    run: then each check the plan calls critical has a result under its name,
    and that result is a pass. *)
Theorem success_passes_every_critical_check w e s :
  NoDup (map DisplayName (pl_Checks p)) ->
  Run p opts w = (Ret e, s) -> op_DryRun opts = false ->
  run_Result (es_run s) = ResultSuccess \/ run_Result (es_run s) = ResultDegraded ->
  critical_checks_passed p (run_Checks (es_run s)).
Proof.
  intros Hn E Hdry HR. destruct (earned_run p opts w e s E Hdry HR) as (Hc & _ & _ & [Hr|Hr]);
    intros c Hin Hcrit; [by rewrite Hr, elem_of_nil in Hin|].
  destruct Hr as [_ (target & w0 & w1 & Hrun)]. apply runner_names in Hrun.
  destruct (named_result _ _ c Hrun Hin) as (r & Hrin & Hname). exists r. split_and!; [done..|].
  apply Hc; [done|]. rewrite Hname. by rewrite critical_lookup_spec.
Qed.
End Runner.

(** The simulated drill: its runner names each result after the check. *)
#[export] Instance sim_faithful : FaithfulRunner Sim.
Proof.
  intros ctx target cfgs w results w' E. injection E as <- _.
  induction cfgs as [|c cfgs IH]; cbn; constructor; [reflexivity | exact IH].
Qed.

Lemma success_passes_every_critical_check_witness :
  let r := Run sim_plan sim_opts sim_world in
  r = (Ret None, r.2) /\ critical_checks_passed sim_plan (run_Checks (es_run r.2)).
Proof.
  intros r. assert (E : r = (Ret None, r.2)) by (vm_compute; reflexivity). split; [exact E|].
  assert (Hn : NoDup (map DisplayName (pl_Checks sim_plan))).
  { apply NoDup_cons. split; [apply not_elem_of_nil | constructor]. }
  apply (success_passes_every_critical_check sim_plan sim_opts sim_world None r.2 Hn E eq_refl).
  left. vm_compute. reflexivity.
Defined.
