(* ===== verification/EngineEvents.v ===== *)
(** * What the events of a run name

    Every event a run emits carries the run's identifier, and the temporary
    workload it names is the run's one, on its node, or none before it was
    allocated: a listener that records the first name it hears has recorded the
    only one. *)

From Stdlib Require Import ZArith Lia String List.
From S2P Require Import Prelude GoTime Errors Core Plan Engine EngineFrame.

(** An update of the run that leaves its names. *)
Ltac solve_names := intros; cbn; repeat match goal with |- context [if ?b then _ else _] => destruct b; cbn end; by split_and!.

Section Events.
Context {W : Type} `{!EngineEnv W}.
Abbreviation ES := (Engine.ES (W := W)).

(** An event that names the run [id] and the workload [temp], on [node] when
    the node is settled. *)
Definition says (settled : bool) (id temp node : string) (o : obs) : Prop :=
  match o with
  | OEvent e => ev_RunID e = id /\ ev_TempWorkloadID e = temp /\ (settled = true -> ev_Node e = node)
  | OCall _ _ _ => True
  end.

(** The names of the run stay, its node too once it is settled, and what was
    emitted says them. *)
Definition nv (settled : bool) (s s' : ES) : Prop :=
  run_ID (es_run s') = run_ID (es_run s) /\ run_TempWorkloadID (es_run s') = run_TempWorkloadID (es_run s) /\
  (settled = true -> run_Node (es_run s') = run_Node (es_run s)) /\
  extends (says settled (run_ID (es_run s)) (run_TempWorkloadID (es_run s)) (run_Node (es_run s))) (es_trace s) (es_trace s').

#[export] Instance nv_preorder b : PreOrder (nv b).
Proof.
  split.
  - intros s. unfold nv. split_and!; reflexivity.
  - intros s1 s2 s3 (I1 & T1 & N1 & X1) (I2 & T2 & N2 & X2). rewrite I1, T1 in *.
    split_and!; [done..|intros Hb; by rewrite N2, N1|]. etransitivity; [exact X1|].
    destruct X2 as (k & -> & Hk). exists k. split; [done|]. eapply Forall_impl; [exact Hk|].
    intros [e|? ? ?]; [|done]. cbn. intros (? & ? & H). split_and!; [done..|]. intros Hb. by rewrite H, N1.
Qed.

Section Frame.
Context (b : bool).
Abbreviation nvb := (nv b).

(** ** The primitives *)

Lemma nv_update g :
  (forall r, run_ID (g r) = run_ID r /\ run_TempWorkloadID (g r) = run_TempWorkloadID r /\ (b = true -> run_Node (g r) = run_Node r)) -> keeps nvb (update_run g).
Proof. intros H s. destruct (H (es_run s)) as (? & ? & ?). split_and!; [done..|reflexivity]. Qed.
Lemma nv_now : keeps nvb now.
Proof. intros s. unfold now. destruct (env_now _). split_and!; reflexivity. Qed.
Lemma nv_run : keeps nvb run_.
Proof. intros s. cbn. reflexivity. Qed.
Lemma nv_sleep ctx d : keeps nvb (sleep ctx d).
Proof. intros s. unfold sleep. destruct (env_sleep _ _ _). split_and!; reflexivity. Qed.
Lemma nv_deref {A} (o : option A) : keeps nvb (deref o).
Proof. destruct o; intros s; cbn; reflexivity. Qed.
Lemma nv_call_with {A} ok ctx c (op : M W (error + A)) : keeps nvb (call_with ok ctx c op).
Proof. intros s. unfold call_with. destruct (op _). split_and!; [done..|]. by apply extends_snoc. Qed.
Lemma nv_call {A} ctx c (op : M W (error + A)) : keeps nvb (call ctx c op).
Proof. apply nv_call_with. Qed.
Lemma nv_call_total {A} ok ctx c (op : M W A) : keeps nvb (call_total ok ctx c op).
Proof. intros s. unfold call_total. destruct (op _). split_and!; [done..|]. by apply extends_snoc. Qed.
Lemma nv_needs v : keeps nvb (modify (set_es_needsCleanup v)).
Proof. intros s. split_and!; reflexivity. Qed.
Lemma nv_temp id node : keeps nvb (modify (set_es_temp id node)).
Proof. intros s. split_and!; reflexivity. Qed.
Lemma nv_get : keeps nvb get.
Proof. intros s. cbn. reflexivity. Qed.

Hint Resolve nv_now nv_run nv_sleep nv_deref nv_call_with nv_call nv_call_total nv_needs nv_temp nv_get : keeps.
Hint Extern 1 (keeps nvb (update_run _)) => apply nv_update; solve_names : keeps.

Lemma nv_retry {A} ctx n back (fn : M ES (error + A)) : keeps nvb fn -> keeps nvb (retry ctx n back fn).
Proof.
  intros Hf. unfold retry. generalize (Z.to_nat ((if n <? 1 then 1 else n) - 1)). intros k.
  induction k as [|k IH]; cbn [retry_loop]; keeps_auto.
Qed.
Hint Extern 1 (keeps nvb (retry _ _ _ (call _ _ _))) => apply nv_retry, nv_call : keeps.
Hint Extern 1 (keeps nvb (retry _ _ _ (call_with _ _ _ _))) => apply nv_retry, nv_call_with : keeps.

(** ** The functions that emit *)

Lemma nv_beginStep name st : keeps nvb (beginStep name st).
Proof.
  intros s. unfold beginStep, update_run, now, run_, emit, gets, modify, mbind, M_bind, mret, M_ret. cbn.
  destruct (env_now _) as [t w]. cbn. split_and!; [done..|]. by apply extends_snoc.
Qed.

Lemma nv_endStep idx st m e : keeps nvb (endStep idx st m e).
Proof.
  intros s. unfold endStep, update_run, now, run_, emit, gets, modify, mbind, M_bind. cbn.
  destruct (env_now _) as [t w]. cbn. destruct (run_Steps (es_run s) !! idx); cbn; split_and!; try done; first [by apply extends_snoc | reflexivity].
Qed.

Lemma nv_emit_checks l : keeps nvb (emit_checks l).
Proof.
  induction l as [|c l IH]; cbn [emit_checks]; [keeps_auto|]. intros s.
  unfold now, run_, emit, gets, modify, mbind, M_bind. cbn. destruct (env_now _) as [t w]. cbn.
  match goal with |- nvb s (emit_checks l ?s1).2 => transitivity s1; [|apply IH] end.
  split_and!; [done..|]. by apply extends_snoc.
Qed.
Hint Resolve nv_beginStep nv_endStep nv_emit_checks : keeps.

Lemma nv_failStep {A} idx m e : keeps nvb (failStep (A := A) idx m e).
Proof. unfold failStep. keeps_auto. Qed.
Hint Resolve nv_failStep : keeps.

(** ** The steps *)

Lemma nv_markFailed err : keeps nvb (markFailed err).
Proof. unfold markFailed. keeps_auto. Qed.
Hint Resolve nv_markFailed : keeps.
Lemma nv_isolation node net : keeps nvb (checkNetworkIsolation node net).
Proof. unfold checkNetworkIsolation. keeps_auto. Qed.
Lemma nv_capacity node m : keeps nvb (checkCapacity node m).
Proof. unfold checkCapacity. keeps_auto. Qed.
Hint Resolve nv_isolation nv_capacity : keeps.
Lemma nv_restoreWorkload p opts pr : keeps nvb (restoreWorkload p opts pr).
Proof. unfold restoreWorkload. cbv zeta. keeps_auto. Qed.
Lemma nv_startWorkload p id : keeps nvb (startWorkload p id).
Proof. unfold startWorkload. keeps_auto. Qed.
Lemma nv_pollStatus id : keeps nvb (pollStatus id).
Proof. unfold pollStatus. keeps_auto. Qed.
Hint Resolve nv_pollStatus : keeps.
Lemma nv_waitLoop fuel p id idx t d : keeps nvb (waitLoop fuel p id idx t d).
Proof. induction fuel as [|fuel IH]; cbn [waitLoop]; [intros s; reflexivity|]. keeps_auto. Qed.
Hint Resolve nv_waitLoop : keeps.
Lemma nv_waitForGuest p id : keeps nvb (waitForGuest p id).
Proof. unfold waitForGuest. keeps_auto. Qed.
Lemma nv_runChecks p tg : keeps nvb (runChecks p tg).
Proof. unfold runChecks. cbv zeta. keeps_auto. Qed.
Lemma nv_cleanup p opts id node n : keeps nvb (cleanup p opts id node n).
Proof. unfold cleanup, recordCleanupSkipped, destroy. cbv zeta. keeps_auto. Qed.
Lemma nv_settle r : keeps nvb (settle_workflow r).
Proof. unfold settle_workflow, markCancelled. keeps_auto. Qed.
Lemma nv_finalize : keeps nvb finalize.
Proof. unfold finalize. keeps_auto. Qed.
End Frame.

Hint Resolve nv_now nv_run nv_sleep nv_deref nv_call_with nv_call nv_call_total nv_needs nv_temp nv_get : keeps.
Hint Extern 1 (keeps (nv _) (update_run _)) => apply nv_update; solve_names : keeps.
Hint Extern 1 (keeps (nv _) (retry _ _ _ (call _ _ _))) => apply nv_retry, nv_call : keeps.
Hint Extern 1 (keeps (nv _) (retry _ _ _ (call_with _ _ _ _))) => apply nv_retry, nv_call_with : keeps.
Hint Resolve nv_beginStep nv_endStep nv_emit_checks nv_failStep nv_markFailed nv_isolation nv_capacity
  nv_restoreWorkload nv_startWorkload nv_waitForGuest nv_runChecks nv_cleanup nv_settle nv_finalize : keeps.

(** Before the workload is named, its node may still move. *)
Lemma nv_discoverBackup p : keeps (nv false) (discoverBackup p).
Proof. unfold discoverBackup, resolveSourceName, resolveBackup. keeps_auto. Qed.
Lemma nv_resolveNode p opts : keeps (nv false) (resolveNode p opts).
Proof. unfold resolveNode. keeps_auto. Qed.
Hint Resolve nv_discoverBackup nv_resolveNode : keeps.
Lemma nv_runDryRun p opts : keeps (nv false) (runDryRun p opts).
Proof. unfold runDryRun, dryFail. keeps_auto. Qed.
Hint Resolve nv_runDryRun : keeps.

(** ** The whole run *)

(** Every event so far says the run's identifier and its workload, on its node,
    or none. *)
Definition Good (s : ES) : Prop :=
  Forall (fun o => says false (run_ID (es_run s)) "" "" o \/
    says true (run_ID (es_run s)) (run_TempWorkloadID (es_run s)) (run_Node (es_run s)) o) (es_trace s).
Definition Unnamed (s : ES) : Prop := Good s /\ run_TempWorkloadID (es_run s) = "" /\
  Forall (fun o => says false (run_ID (es_run s)) "" "" o) (es_trace s).

Lemma Good_nv s s' : Good s -> nv true s s' -> Good s'.
Proof.
  unfold Good. intros H (I & T & N & k & E & Hk). rewrite E, I, T, N by done. apply Forall_app. split; [done|].
  eapply Forall_impl; [exact Hk|]. by right.
Qed.
Lemma Unnamed_nv b s s' : Unnamed s -> nv b s s' -> Unnamed s'.
Proof.
  intros (_ & E & H) (I & T & _ & k & Ek & Hk). rewrite E in *.
  assert (Hs : Forall (fun o => says false (run_ID (es_run s')) "" "" o) (es_trace s')).
  { rewrite Ek, I. apply Forall_app. split; [done|]. eapply Forall_impl; [exact Hk|]. intros [e|? ? ?]; [|done].
    cbn. intros (? & ? & _). by split_and!. }
  unfold Unnamed, Good. split_and!; [|done..]. eapply Forall_impl; [exact Hs|]. by left.
Qed.

Lemma post_Good {A} (m : M ES A) : keeps (nv true) m -> post Good m (fun _ => Good) Good.
Proof. intros Hm. eapply post_keeps; [exact Hm | apply Good_nv]. Qed.
Lemma post_Unnamed b {A} (m : M ES A) : keeps (nv b) m -> post Unnamed m (fun _ => Unnamed) Good.
Proof. intros Hm. eapply post_frame; [exact Hm | apply (Unnamed_nv b) | by intros s []]. Qed.

Lemma prepareEnvironment_names p opts : post Unnamed (prepareEnvironment p opts) (fun _ => Good) Good.
Proof.
  assert (Hfail : forall A idx m e, post Unnamed (failStep (A := A) idx m e) (fun _ => Good) Good).
  { intros A idx m e. eapply post_weaken; [apply (post_Unnamed false); auto with keeps|done|by intros ? ? []|done]. }
  unfold prepareEnvironment.
  eapply post_bind; [apply (post_Unnamed false); auto with keeps|]. intros idx.
  eapply post_bind; [apply (post_Unnamed false); auto with keeps|]. intros [e|node]; [apply Hfail|].
  eapply post_bind; [apply (post_Unnamed false); auto with keeps|]. intros [e|?]; [apply Hfail|].
  eapply post_bind; [apply (post_Unnamed false); auto with keeps|]. intros [e|?]; [apply Hfail|].
  eapply post_bind; [apply (post_Unnamed false); auto with keeps|]. intros [e|id]; [apply Hfail|].
  eapply post_bind; [apply (post_Unnamed false); auto with keeps|]. intros t1. cbv zeta.
  eapply post_bind; [apply (post_Unnamed false); auto with keeps|]. intros run.
  eapply post_bind; [apply (post_Unnamed false); auto with keeps|]. intros t2.
  eapply (post_bind _ _ _ (fun _ => Good)).
  - intros s (_ & _ & H). cbn. unfold Good. cbn. eapply Forall_impl; [exact H|]. by left.
  - intros ?. apply post_Good. keeps_auto.
Qed.

Lemma orFail_names {A} P (m : M ES (error + A)) R (k : A -> M ES (option error)) :
  post P m (fun _ => R) Good -> (forall s, R s -> Good s) ->
  (forall a, post R (k a) (fun _ => Good) Good) -> post P (orFail m k) (fun _ => Good) Good.
Proof.
  intros Hm HR Hk. unfold orFail. eapply post_bind; [exact Hm|]. intros [e|a]; [|apply Hk].
  eapply post_pre; [apply post_Good; keeps_auto | exact HR].
Qed.

Lemma workflow_names p opts : post Unnamed (workflow p opts) (fun _ => Good) Good.
Proof.
  unfold workflow. destruct (op_DryRun opts).
  { eapply post_weaken; [apply (post_Unnamed false); auto with keeps|done|by intros ? ? []|done]. }
  eapply (orFail_names _ _ Unnamed); [apply (post_Unnamed false); auto with keeps|by intros ? []|]. intros ?.
  eapply (orFail_names _ _ Good); [apply prepareEnvironment_names|done|]. intros pr.
  apply post_Good. unfold orFail, measureRTO, gradeSuccess, markInconclusive. cbv zeta. keeps_auto.
Qed.

Lemma run_names p opts w : Good (Run p opts w).2.
Proof.
  assert (H0 : Unnamed (newRun p opts w)).
  { unfold newRun. destruct (env_now w). split; [constructor | done]. }
  assert (H : post Unnamed (run_body p opts) (fun _ => Good) Good).
  { unfold run_body. eapply post_bind; [apply post_try, workflow_names|]. intros r.
    eapply (post_pre _ Good); [apply post_Good; keeps_auto|]. by destruct r. }
  specialize (H _ H0). unfold Run. by destruct (run_body p opts (newRun p opts w)) as [[| |] s].
Qed.
End Events.
