(* ===== verification/Queue.v ===== *)
(** * The run queue in the database

    Models internal/store/queue.go, runs.go and the reads of list.go the queue
    depends on. The [runs] table is a map from the primary key to a row, and
    each statement of the source is a function on it: what it matches, what it
    writes, and how many rows that was. A text column where the source maps ""
    to NULL is a string, [lease_owner] (which it does not) an option; a
    timestamp column is the instant whose fixed-width text the source stores. *)

From Stdlib Require Import ZArith Lia String Ascii List.
From stdpp Require Import sorting.
From S2P Require Import Prelude GoTime Errors Core GoString.

(** ** Errors of the store *)

Inductive store_error :=
| ErrNotFound (id : string)
| ErrAmbiguous (id : string)
| ErrNoWork
| ErrDuplicate
| ErrSettled (id : string) (state : RunState)
| ErrNotLeased (id owner : string)
| ErrConstraint (id : string)
| ErrVersionConflict
| ErrSlotNeedsRun.

(** ** The table *)

Record Row := mkRow {
  row_plan_name : string;
  row_plan_snapshot : string;
  row_plan_id : string;
  row_plan_version : Z;
  row_provider_id : string;
  row_backup_provider_id : string;
  row_source_workload_id : string;
  row_source_name : string;
  row_temp_workload_id : string;
  row_temp_name : string;
  row_node : string;
  row_backup : option Backup;
  row_state : RunState;
  row_result : RunResult;
  row_started_at : Z;
  row_completed_at : option Z;
  row_queued_at : option Z;
  row_rto_ms : Z;
  row_rto_target_ms : Z;
  row_cleanup_done : bool;
  row_err : text;
  row_proof_level : ProofLevel;
  row_lease_owner : option string;
  row_lease_expires_at : option Z;
  row_cancel_requested_at : option Z;
}.

Abbreviation Table := (gmap string Row).

(** [formatNullTime] and [parseNullTime] (encoding.go): the zero time is NULL. *)
Definition formatNullTime (t : Z) : option Z := if Time.IsZero t then None else Some t.
Definition parseNullTime (c : option Z) : Z := default Time.zero c.

(** ** Statements *)

(** [terminalStates], as the SQL spells them. *)
Definition terminalStates : list RunState :=
  [RunSuccess; RunFailed; RunCancelled; RunCleanupFailed; RunInconclusive].
Definition settled_row (r : Row) : bool := bool_decide (row_state r ∈ terminalStates).

(** An UPDATE of the row with this key when it matches; the number of rows. *)
Definition update (id : string) (matches : Row -> bool) (f : Row -> Row) (t : Table) : Z * Table :=
  match t !! id with
  | Some r => if matches r then (1, <[id := f r]> t) else (0, t)
  | None => (0, t)
  end.
Definition always (_ : Row) : bool := true.

(** An INSERT: the primary key refuses a second row of the same id. *)
Definition insert_row (id : string) (r : Row) (t : Table) : store_error + Table :=
  match t !! id with Some _ => inl (ErrConstraint id) | None => inr (<[id := r]> t) end.

Definition with_state (s : RunState) (r : Row) : Row :=
  mkRow (row_plan_name r) (row_plan_snapshot r) (row_plan_id r) (row_plan_version r) (row_provider_id r)
    (row_backup_provider_id r) (row_source_workload_id r) (row_source_name r) (row_temp_workload_id r)
    (row_temp_name r) (row_node r) (row_backup r) s (row_result r) (row_started_at r) (row_completed_at r)
    (row_queued_at r) (row_rto_ms r) (row_rto_target_ms r) (row_cleanup_done r) (row_err r)
    (row_proof_level r) (row_lease_owner r) (row_lease_expires_at r) (row_cancel_requested_at r).
Definition with_err (e : text) (r : Row) : Row :=
  mkRow (row_plan_name r) (row_plan_snapshot r) (row_plan_id r) (row_plan_version r) (row_provider_id r)
    (row_backup_provider_id r) (row_source_workload_id r) (row_source_name r) (row_temp_workload_id r)
    (row_temp_name r) (row_node r) (row_backup r) (row_state r) (row_result r) (row_started_at r)
    (row_completed_at r) (row_queued_at r) (row_rto_ms r) (row_rto_target_ms r) (row_cleanup_done r) e
    (row_proof_level r) (row_lease_owner r) (row_lease_expires_at r) (row_cancel_requested_at r).
Definition with_lease (owner : option string) (expires : option Z) (r : Row) : Row :=
  mkRow (row_plan_name r) (row_plan_snapshot r) (row_plan_id r) (row_plan_version r) (row_provider_id r)
    (row_backup_provider_id r) (row_source_workload_id r) (row_source_name r) (row_temp_workload_id r)
    (row_temp_name r) (row_node r) (row_backup r) (row_state r) (row_result r) (row_started_at r)
    (row_completed_at r) (row_queued_at r) (row_rto_ms r) (row_rto_target_ms r) (row_cleanup_done r)
    (row_err r) (row_proof_level r) owner expires (row_cancel_requested_at r).
Definition with_cancel (at_ : Z) (r : Row) : Row :=
  mkRow (row_plan_name r) (row_plan_snapshot r) (row_plan_id r) (row_plan_version r) (row_provider_id r)
    (row_backup_provider_id r) (row_source_workload_id r) (row_source_name r) (row_temp_workload_id r)
    (row_temp_name r) (row_node r) (row_backup r) (row_state r) (row_result r) (row_started_at r)
    (row_completed_at r) (row_queued_at r) (row_rto_ms r) (row_rto_target_ms r) (row_cleanup_done r)
    (row_err r) (row_proof_level r) (row_lease_owner r) (row_lease_expires_at r) (Some at_).
Definition with_completed (at_ : option Z) (r : Row) : Row :=
  mkRow (row_plan_name r) (row_plan_snapshot r) (row_plan_id r) (row_plan_version r) (row_provider_id r)
    (row_backup_provider_id r) (row_source_workload_id r) (row_source_name r) (row_temp_workload_id r)
    (row_temp_name r) (row_node r) (row_backup r) (row_state r) (row_result r) (row_started_at r) at_
    (row_queued_at r) (row_rto_ms r) (row_rto_target_ms r) (row_cleanup_done r) (row_err r)
    (row_proof_level r) (row_lease_owner r) (row_lease_expires_at r) (row_cancel_requested_at r).
Definition with_temp (id node : string) (r : Row) : Row :=
  mkRow (row_plan_name r) (row_plan_snapshot r) (row_plan_id r) (row_plan_version r) (row_provider_id r)
    (row_backup_provider_id r) (row_source_workload_id r) (row_source_name r) id (row_temp_name r) node
    (row_backup r) (row_state r) (row_result r) (row_started_at r) (row_completed_at r) (row_queued_at r)
    (row_rto_ms r) (row_rto_target_ms r) (row_cleanup_done r) (row_err r) (row_proof_level r)
    (row_lease_owner r) (row_lease_expires_at r) (row_cancel_requested_at r).

(** [Enqueue]. *)
Definition queued_row (run : RecoveryRun) (planYAML : string) (at_ : Z) : Row :=
  mkRow (run_PlanName run) planYAML (run_PlanID run) (run_PlanVersion run) (run_ProviderID run)
    (run_BackupProviderID run) (run_SourceWorkloadID run) (run_SourceName run) "" "" "" None
    RunQueued ResultNone at_ None (Some at_) 0 (Duration.Milliseconds (run_RTOTarget run)) false (Lit "")
    ProofNone None None None.
Definition Enqueue (run : RecoveryRun) (planYAML : string) (at_ : Z) (t : Table) : store_error + Table :=
  insert_row (run_ID run) (queued_row run planYAML at_) t.

(** [CreateRun]. *)
Definition created_row (run : RecoveryRun) (planYAML : string) : Row :=
  mkRow (run_PlanName run) planYAML (run_PlanID run) (run_PlanVersion run) (run_ProviderID run)
    (run_BackupProviderID run) (run_SourceWorkloadID run) (run_SourceName run) (run_TempWorkloadID run)
    (run_TempName run) (run_Node run) (run_Backup run) (run_State run) (run_Result run)
    (run_StartedAt run) (formatNullTime (run_CompletedAt run)) None (Duration.Milliseconds (run_RTO run))
    (Duration.Milliseconds (run_RTOTarget run)) (run_CleanupDone run) (run_Err run) (run_ProofLevel run)
    None None None.
Definition CreateRun (run : RecoveryRun) (planYAML : string) (t : Table) : store_error + Table :=
  insert_row (run_ID run) (created_row run planYAML) t.

(** [UpdateRun]: the fields that change as a run progresses. *)
Definition updated_row (run : RecoveryRun) (r : Row) : Row :=
  mkRow (row_plan_name r) (row_plan_snapshot r) (row_plan_id r) (row_plan_version r) (row_provider_id r)
    (row_backup_provider_id r) (row_source_workload_id r) (run_SourceName run) (run_TempWorkloadID run)
    (run_TempName run) (run_Node run) (run_Backup run) (run_State run) (run_Result run) (row_started_at r)
    (formatNullTime (run_CompletedAt run)) (row_queued_at r) (Duration.Milliseconds (run_RTO run))
    (Duration.Milliseconds (run_RTOTarget run)) (run_CleanupDone run) (run_Err run) (run_ProofLevel run)
    (row_lease_owner r) (row_lease_expires_at r) (row_cancel_requested_at r).
Definition UpdateRun (run : RecoveryRun) (t : Table) : Table :=
  (update (run_ID run) always (updated_row run) t).2.

(** [SetTempWorkload]. *)
Definition SetTempWorkload (id tempID node : string) (t : Table) : Table :=
  (update id always (with_temp tempID node) t).2.

(** [SetState]: never over a state the run has already settled into. *)
Definition SetState (id : string) (state : RunState) (t : Table) : Table :=
  (update id (fun r => negb (settled_row r)) (with_state state) t).2.

(** [SetRunError]. *)
Definition SetRunError (id : string) (message : text) (t : Table) : Table :=
  (update id always (with_err message) t).2.

(** [RequestCancel]: settled at once, asked, or an error. *)
Definition unclaimed (r : Row) : bool :=
  bool_decide (row_state r = RunQueued) && bool_decide (row_lease_owner r = None).
Definition RequestCancel (id : string) (at_ : Z) (t : Table) : (store_error + bool) * Table :=
  let '(settled, t1) := update id unclaimed
      (fun r => with_cancel at_ (with_completed (Some at_) (with_state RunCancelled r))) t in
  if settled =? 1 then (inr true, t1) else
  let '(asked, t2) := update id (fun r => negb (settled_row r)) (with_cancel at_) t1 in
  if asked =? 1 then (inr false, t2) else
  match t2 !! id with
  | None => (inl (ErrNotFound id), t2)
  | Some r => (inl (ErrSettled id (row_state r)), t2)
  end.

(** [CancelRequested]. *)
Definition CancelRequested (id : string) (t : Table) : store_error + bool :=
  match t !! id with
  | None => inl (ErrNotFound id)
  | Some r => inr (bool_decide (row_cancel_requested_at r <> None))
  end.

(** ** Reads that choose a row *)

(** The rows of the table, as pairs of key and row. *)
Definition rows (t : Table) : list (string * Row) := map_to_list t.

(** ORDER BY queued_at: an instant, a missing one first. *)
Definition queued_key (r : Row) : Z := match row_queued_at r with Some at_ => at_ + 1 | None => 0 end.

(** ... ORDER BY f LIMIT 1: a row that is minimal for [f]. *)
Fixpoint first_by (f : Row -> Z) (l : list (string * Row)) : option (string * Row) :=
  match l with
  | [] => None
  | x :: l =>
    match first_by f l with
    | Some y => if f y.2 <? f x.2 then Some y else Some x
    | None => Some x
    end
  end.

(** [ActiveRunForWorkload]: its oldest run that has not settled, or "". *)
Definition ActiveRunForWorkload (workloadID : string) (t : Table) : string :=
  match first_by row_started_at
          (List.filter (fun x => bool_decide (row_source_workload_id x.2 = workloadID) && negb (settled_row x.2))
             (rows t)) with
  | Some (id, _) => id
  | None => ""
  end.

(** [QueuedRun]: what a worker needs to execute a run. *)
Record QueuedRun := mkQueuedRun {
  q_ID : string;
  q_PlanName : string;
  q_ProviderID : string;
  q_BackupProviderID : string;
  q_SourceWorkloadID : string;
  q_PlanSnapshot : string;
  q_QueuedAt : Z;
}.
Definition scanQueuedRun (id : string) (r : Row) : QueuedRun :=
  mkQueuedRun id (row_plan_name r) (row_provider_id r) (row_backup_provider_id r) (row_source_workload_id r)
    (row_plan_snapshot r) (parseNullTime (row_queued_at r)).

(** [ClaimRun]: one transaction that selects the oldest claimable row and takes
    it, provided that nobody took it in between. *)
Definition take (owner : string) (until : Z) (r : Row) : Row := with_lease (Some owner) (Some until) r.
Definition ClaimRun (owner : string) (lease now : Z) (t : Table) : (store_error + QueuedRun) * Table :=
  match first_by queued_key (List.filter (fun x => unclaimed x.2) (rows t)) with
  | None => (inl ErrNoWork, t)
  | Some (id, r) =>
    let '(n, t') := update id (fun r => bool_decide (row_lease_owner r = None))
                      (take owner (Time.Add now lease)) t in
    if n =? 1 then (inr (scanQueuedRun id r), t') else (inl ErrNoWork, t)
  end.

(** [RenewLease]: only the holder extends its lease. *)
Definition RenewLease (id owner : string) (until : Z) (t : Table) : option store_error * Table :=
  let '(n, t') := update id (fun r => bool_decide (row_lease_owner r = Some owner))
                    (fun r => with_lease (row_lease_owner r) (Some until) r) t in
  if n =? 1 then (None, t') else (Some (ErrNotLeased id owner), t').

(** [FinishLease]: the expiry is cleared, the owner stays. *)
Definition FinishLease (id : string) (t : Table) : Table :=
  (update id always (fun r => with_lease (row_lease_owner r) None r) t).2.

(** [RunLease]. *)
Definition RunLease (id : string) (t : Table) : store_error + string * Z :=
  match t !! id with
  | None => inl (ErrNotFound id)
  | Some r => inr (default "" (row_lease_owner r), parseNullTime (row_lease_expires_at r))
  end.

(** [StaleRuns]: claimed, not settled, and past the lease. *)
Definition stale (now : Z) (r : Row) : bool :=
  bool_decide (row_lease_owner r <> None) && negb (settled_row r) &&
  match row_lease_expires_at r with Some e => e <? now | None => false end.
Definition queued_le (x y : string * Row) : Prop := queued_key x.2 <= queued_key y.2.
#[export] Instance queued_le_dec x y : Decision (queued_le x y).
Proof. unfold queued_le. apply _. Defined.
Definition StaleRuns (now : Z) (t : Table) : list QueuedRun :=
  map (fun x => scanQueuedRun x.1 x.2)
    (merge_sort queued_le (List.filter (fun x => stale now x.2) (rows t))).

(** The order in which the database sorts text: the collation of the engine. *)
Class Collation := { collate : string -> string -> bool }.

(** ** Reading a run back *)

(** The two database engines. What differs here is the case of LIKE. *)
Inductive dialect := SQLite | Postgres.
Definition same_char (d : dialect) (a b : ascii) : bool :=
  match d with SQLite => Ascii.eqb (lower_char a) (lower_char b) | Postgres => Ascii.eqb a b end.

(** [s LIKE p || '%']: a percent sign stands for any text, an underscore for any
    character; under PostgreSQL a backslash takes the character after it as it is, the
    percent sign that is appended included. *)
Fixpoint like_prefix (d : dialect) (p s : string) : bool :=
  match p with
  | EmptyString => true
  | String c p' =>
    if Ascii.eqb c "%" then
      (fix any (s : string) : bool :=
         like_prefix d p' s || match s with EmptyString => false | String _ s' => any s' end) s
    else if (match d with Postgres => true | SQLite => false end) && Ascii.eqb c "\" then
      match p' with
      | EmptyString => bool_decide (s = "%")
      | String e p'' => match s with EmptyString => false | String x s' => Ascii.eqb e x && like_prefix d p'' s' end
      end
    else match s with
         | EmptyString => false
         | String x s' => (Ascii.eqb c "_" || same_char d c x) && like_prefix d p' s'
         end
  end.

(** [resolveRunID]: an exact match wins, else the only run the prefix matches. *)
Definition resolveRunID (d : dialect) (idOrPrefix : string) (t : Table) : store_error + string :=
  match t !! idOrPrefix with
  | Some _ => inr idOrPrefix
  | None =>
    match List.filter (like_prefix d idOrPrefix) (map fst (rows t)) with
    | [] => inl (ErrNotFound idOrPrefix)
    | [id] => inr id
    | _ => inl (ErrAmbiguous idOrPrefix)
    end
  end.

(** [GetRun], up to the timeline, which lives in other tables. *)
Definition read_run (id : string) (r : Row) (steps : list Step) (checks : list CheckResult) : RecoveryRun :=
  {| run_ID := id; run_PlanName := row_plan_name r; run_PlanID := row_plan_id r;
     run_PlanVersion := row_plan_version r; run_ProviderID := row_provider_id r;
     run_BackupProviderID := row_backup_provider_id r;
     run_SourceWorkloadID := row_source_workload_id r; run_SourceName := row_source_name r;
     run_TempWorkloadID := row_temp_workload_id r; run_TempName := row_temp_name r; run_Node := row_node r;
     run_Backup := row_backup r; run_State := row_state r; run_Result := row_result r;
     run_ProofLevel := (ParseProofLevel (ProofLevel_to_string (row_proof_level r))).1;
     run_StartedAt := row_started_at r; run_CompletedAt := parseNullTime (row_completed_at r);
     run_Steps := steps; run_Checks := checks;
     run_RTO := Duration.wrap (row_rto_ms r * Duration.Millisecond);
     run_RTOTarget := Duration.wrap (row_rto_target_ms r * Duration.Millisecond);
     run_CleanupDone := row_cleanup_done r; run_Err := row_err r |}.
Definition GetRun (d : dialect) (idOrPrefix : string) (steps : list Step) (checks : list CheckResult) (t : Table) :
    store_error + RecoveryRun :=
  match resolveRunID d idOrPrefix t with
  | inl err => inl err
  | inr id =>
    match t !! id with
    | None => inl (ErrNotFound idOrPrefix)
    | Some r => inr (read_run id r steps checks)
    end
  end.

(** What a listing that asks for no size is cut to. *)
Definition DefaultListLimit : nat := 50.

(** ** The statements, as one type *)

(** Everything the program writes to the table. *)
Inductive statement :=
| StEnqueue (run : RecoveryRun) (planYAML : string) (at_ : Z)
| StCreateRun (run : RecoveryRun) (planYAML : string)
| StUpdateRun (run : RecoveryRun)
| StSetTempWorkload (id tempID node : string)
| StSetState (id : string) (state : RunState)
| StSetRunError (id : string) (message : text)
| StRequestCancel (id : string) (at_ : Z)
| StClaimRun (owner : string) (lease now : Z)
| StRenewLease (id owner : string) (until : Z)
| StFinishLease (id : string).

Definition or_unchanged (t : Table) (r : store_error + Table) : Table :=
  match r with inl _ => t | inr t' => t' end.
Definition apply_statement (st : statement) (t : Table) : Table :=
  match st with
  | StEnqueue run y at_ => or_unchanged t (Enqueue run y at_ t)
  | StCreateRun run y => or_unchanged t (CreateRun run y t)
  | StUpdateRun run => UpdateRun run t
  | StSetTempWorkload id temp node => SetTempWorkload id temp node t
  | StSetState id state => SetState id state t
  | StSetRunError id m => SetRunError id m t
  | StRequestCancel id at_ => (RequestCancel id at_ t).2
  | StClaimRun owner lease now => (ClaimRun owner lease now t).2
  | StRenewLease id owner until => (RenewLease id owner until t).2
  | StFinishLease id => FinishLease id t
  end.
Definition is_update (st : statement) : bool := match st with StUpdateRun _ => true | _ => false end.

(** ** What an update does to a row *)

Lemma update_spec id m f t k :
  (update id m f t).2 !! k =
  if decide (k = id) then (fun r => if m r then f r else r) <$> t !! k else t !! k.
Proof.
  unfold update. destruct (decide (k = id)) as [->|Hk].
  - destruct (t !! id) as [r|] eqn:E; cbn; [|by rewrite E].
    destruct (m r); cbn; [by rewrite lookup_insert_eq | by rewrite E].
  - destruct (t !! id) as [r|]; [|done]. destruct (m r); [|done]. by apply lookup_insert_ne.
Qed.

Lemma update_count id m f t :
  (update id m f t).1 = 1 <-> exists r, t !! id = Some r /\ m r = true.
Proof.
  unfold update. destruct (t !! id) as [r|]; cbn; [destruct (m r) eqn:E; cbn|];
    (split; [try done; eauto | intros (r' & ? & ?); simplify_eq; congruence || done]).
Qed.

(** A row and one of its successors: what no statement changes, and what each
    changes only in one direction. *)
Record row_le (update : bool) (r r' : Row) : Prop := {
  rl_snapshot : row_plan_snapshot r' = row_plan_snapshot r;
  rl_workload : row_source_workload_id r' = row_source_workload_id r;
  rl_plan : row_plan_id r' = row_plan_id r /\ row_plan_version r' = row_plan_version r;
  rl_queued : row_queued_at r' = row_queued_at r;
  rl_owner : row_lease_owner r <> None -> row_lease_owner r' = row_lease_owner r;
  rl_settled : update = false -> settled_row r = true -> row_state r' = row_state r;
}.

Lemma row_le_refl b r : row_le b r r.
Proof. by split. Qed.
Hint Resolve row_le_refl : core.

Lemma update_row_le b id m f t k r :
  t !! k = Some r -> (forall r, m r = true -> row_le b r (f r)) ->
  exists r', (update id m f t).2 !! k = Some r' /\ row_le b r r'.
Proof.
  intros E Hf. rewrite update_spec, E. destruct (decide (k = id)); cbn; [|eauto].
  eexists. split; [done|]. destruct (m r) eqn:Em; auto.
Qed.

Lemma row_le_trans b r1 r2 r3 : row_le b r1 r2 -> row_le b r2 r3 -> row_le b r1 r3.
Proof.
  intros [A1 A2 [A3 A3'] A4 A5 A6] [B1 B2 [B3 B3'] B4 B5 B6]. split; try congruence.
  - split; congruence.
  - intros H. rewrite <- (A5 H). apply B5. by rewrite (A5 H).
  - intros Hb H. rewrite <- (A6 Hb H). apply B6; [done|]. unfold settled_row in *. by rewrite (A6 Hb H).
Qed.

Lemma first_by_in f l x : first_by f l = Some x -> x ∈ l.
Proof.
  revert x; induction l as [|y l IH]; cbn; [done|]. intros x E. apply elem_of_cons.
  destruct (first_by f l) as [z|]; [destruct (f z.2 <? f y.2)|]; injection E as <-; auto.
Qed.
Lemma first_by_min f l x y : first_by f l = Some x -> y ∈ l -> f x.2 <= f y.2.
Proof.
  revert x; induction l as [|z l IH]; cbn; [done|]. intros x E [->|Hy]%elem_of_cons.
  - destruct (first_by f l) as [w|]; [destruct (Z.ltb_spec (f w.2) (f z.2))|]; injection E as <-; lia.
  - destruct (first_by f l) as [w|] eqn:Ew.
    + specialize (IH w eq_refl Hy). destruct (Z.ltb_spec (f w.2) (f z.2)); injection E as <-; lia.
    + destruct l; [by apply elem_of_nil in Hy|]. cbn in Ew. by destruct (first_by f l) as [?|]; [destruct (_ <? _)|].
Qed.
Lemma first_by_none f l : first_by f l = None <-> l = [].
Proof.
  destruct l as [|x l]; [done|]. cbn. destruct (first_by f l); [destruct (_ <? _)|]; done.
Qed.

Lemma in_rows t id r f : (id, r) ∈ List.filter f (rows t) <-> t !! id = Some r /\ f (id, r) = true.
Proof.
  unfold rows. rewrite list_elem_of_In, List.filter_In, <- list_elem_of_In. by rewrite elem_of_map_to_list.
Qed.

Lemma insert_row_le b id r0 t k r :
  t !! k = Some r -> exists r', or_unchanged t (insert_row id r0 t) !! k = Some r' /\ row_le b r r'.
Proof.
  intros E. unfold insert_row. destruct (t !! id) as [r1|] eqn:Ei; cbn; [eauto|].
  exists r. split; [|done]. rewrite lookup_insert_ne; congruence.
Qed.

(** ** Theorems *)

Lemma ClaimRun_spec owner lease now t :
  match ClaimRun owner lease now t with
  | (inl e, t') => e = ErrNoWork /\ t' = t /\ forall id r, t !! id = Some r -> unclaimed r = false
  | (inr q, t') => exists r,
      t !! q_ID q = Some r /\ unclaimed r = true /\ q = scanQueuedRun (q_ID q) r /\
      (forall id r', t !! id = Some r' -> unclaimed r' = true -> queued_key r <= queued_key r') /\
      t' = <[q_ID q := take owner (Time.Add now lease) r]> t
  end.
Proof.
  unfold ClaimRun. destruct (first_by queued_key _) as [[id r]|] eqn:E.
  - pose proof (first_by_in _ _ _ E) as [Hr Hu]%in_rows. cbn in Hu.
    assert (Hl : row_lease_owner r = None).
    { unfold unclaimed in Hu. apply andb_true_iff in Hu as [_ Hu]. by apply bool_decide_eq_true in Hu. }
    unfold update. rewrite Hr, Hl, bool_decide_true by done. cbn. exists r. split_and!; try done.
    intros id' r' Hr' Hu'. apply (first_by_min queued_key _ (id, r) (id', r') E). by apply in_rows.
  - split_and!; [done..|]. intros id r Hr. apply first_by_none in E. destruct (unclaimed r) eqn:Hu; [|done].
    assert (Hin : (id, r) ∈ List.filter (fun x => unclaimed x.2) (rows t)) by by apply in_rows.
    rewrite E in Hin. by apply elem_of_nil in Hin.
Qed.

(** The queue takes the oldest run that nobody took. [ClaimRun] answers that
    there is no work exactly when no row is queued without an owner; otherwise
    it returns such a row, none queued earlier, as it was queued, makes the
    caller its owner until the lease ends, and changes no other row. *)
Theorem ClaimRun_oldest owner lease now t :
  match ClaimRun owner lease now t with
  | (inl e, t') => e = ErrNoWork /\ t' = t /\ forall id r, t !! id = Some r -> unclaimed r = false
  | (inr q, t') => exists r,
      t !! q_ID q = Some r /\ unclaimed r = true /\ q = scanQueuedRun (q_ID q) r /\
      (forall id r', t !! id = Some r' -> unclaimed r' = true -> queued_key r <= queued_key r') /\
      t' = <[q_ID q := take owner (Time.Add now lease) r]> t
  end.
Proof. apply ClaimRun_spec. Qed.

Lemma ClaimRun_row owner lease now t k r :
  t !! k = Some r -> exists r', (ClaimRun owner lease now t).2 !! k = Some r' /\
    (r' = r \/ (unclaimed r = true /\ r' = take owner (Time.Add now lease) r)).
Proof.
  intros E. unfold ClaimRun. destruct (first_by queued_key _) as [[id r1]|] eqn:Ef; [|eauto].
  pose proof (first_by_in _ _ _ Ef) as [Hr Hu]%in_rows. cbn in Hu.
  unfold update. rewrite Hr. destruct (bool_decide (row_lease_owner r1 = None)); cbn; [|eauto].
  destruct (decide (k = id)) as [->|Hk]; [|rewrite lookup_insert_ne by done; eauto].
  rewrite lookup_insert_eq. simplify_eq. eauto.
Qed.

Lemma apply_row_le st t id r :
  t !! id = Some r ->
  exists r', apply_statement st t !! id = Some r' /\ row_le (is_update st) r r'.
Proof.
  intros E. destruct st as [run y at_|run y|run|k temp node|k state|k m|k at_|owner lease now|k owner until|k];
    cbn [apply_statement is_update].
  - by apply insert_row_le.
  - by apply insert_row_le.
  - apply update_row_le; [done|]. intros r0 _. by split.
  - apply update_row_le; [done|]. intros r0 _. by split.
  - apply update_row_le; [done|]. intros r0 Hr. split; try done. intros _ Hs. by rewrite Hs in Hr.
  - apply update_row_le; [done|]. intros r0 _. by split.
  - unfold RequestCancel.
    pose proof (update_row_le false k unclaimed
      (fun r => with_cancel at_ (with_completed (Some at_) (with_state RunCancelled r))) t id r E) as H1.
    destruct (update k unclaimed _ t) as [n t1]. cbn in H1.
    destruct H1 as (r1 & E1 & L1).
    { intros r0 Hu. split; try done. cbn. intros _ Hs. unfold unclaimed in Hu.
      apply andb_true_iff in Hu as [Hu _]. apply bool_decide_eq_true in Hu.
      unfold settled_row in Hs. rewrite Hu in Hs. discriminate Hs. }
    destruct (n =? 1); [by exists r1|].
    pose proof (update_row_le false k (fun r => negb (settled_row r)) (with_cancel at_) t1 id r1 E1) as H2.
    destruct (update k _ _ t1) as [n2 t2]. cbn in H2. destruct H2 as (r2 & E2 & L2); [by split|].
    exists r2. split; [|by eapply row_le_trans]. destruct (n2 =? 1); [done|]. by destruct (t2 !! k).
  - destruct (ClaimRun_row owner lease now t id r E) as (r' & E' & [->|[Hu ->]]); [by exists r|].
    eexists. split; [done|]. split; try done. cbn. intros Hn. unfold unclaimed in Hu.
    apply andb_true_iff in Hu as [_ Hu]. by apply bool_decide_eq_true in Hu.
  - unfold RenewLease. pose proof (update_row_le false k (fun r => bool_decide (row_lease_owner r = Some owner))
      (fun r => with_lease (row_lease_owner r) (Some until) r) t id r E) as H.
    destruct (update k _ _ t) as [n t1]. cbn in H. destruct H as (r' & E' & L); [by split|].
    exists r'. destruct (n =? 1); done.
  - apply update_row_le; [done|]. intros r0 _. by split.
Qed.

(** C22: what no write to the queue undoes. Whatever statement is executed, a row
    stays in the table with the plan it was queued with, its workload, its
    provenance and its queue time; an owner, once set, is never cleared nor
    replaced; and a state the run has settled into changes under none of them but
    [UpdateRun]. *)
Theorem statement_row_le st t id r :
  t !! id = Some r ->
  exists r', apply_statement st t !! id = Some r' /\ row_le (is_update st) r r'.
Proof. apply apply_row_le. Qed.

Lemma RequestCancel_cases id at_ t :
  match RequestCancel id at_ t with
  | (inr true, t') => exists r, t !! id = Some r /\ unclaimed r = true /\
      t' = <[id := with_cancel at_ (with_completed (Some at_) (with_state RunCancelled r))]> t
  | (inr false, t') => exists r, t !! id = Some r /\ unclaimed r = false /\ settled_row r = false /\
      t' = <[id := with_cancel at_ r]> t /\ CancelRequested id t' = inr true
  | (inl e, t') => t' = t /\
      match t !! id with
      | None => e = ErrNotFound id
      | Some r => settled_row r = true /\ e = ErrSettled id (row_state r)
      end
  end.
Proof.
  unfold RequestCancel, update, CancelRequested. destruct (t !! id) as [r|] eqn:E; cbn.
  2: { rewrite E. cbn. rewrite E. done. }
  destruct (unclaimed r) eqn:Hu; cbn; [by exists r|]. rewrite E. destruct (settled_row r) eqn:Hs; cbn.
  - rewrite E. done.
  - rewrite lookup_insert_eq. exists r. split_and!; done.
Qed.

(** Cancelling is decided once. [RequestCancel] says that a run is settled
    exactly when it was queued and nobody owned it, and then it is CANCELLED, at
    that time, and can never be claimed; it says that it was asked when the run
    has not settled otherwise, and only leaves the request for its worker; else
    the run does not exist or has already settled, and nothing changes. *)
Theorem RequestCancel_spec id at_ t :
  match RequestCancel id at_ t with
  | (inr true, t') => exists r, t !! id = Some r /\ unclaimed r = true /\
      t' = <[id := with_cancel at_ (with_completed (Some at_) (with_state RunCancelled r))]> t
  | (inr false, t') => exists r, t !! id = Some r /\ unclaimed r = false /\ settled_row r = false /\
      t' = <[id := with_cancel at_ r]> t /\ CancelRequested id t' = inr true
  | (inl e, t') => t' = t /\
      match t !! id with
      | None => e = ErrNotFound id
      | Some r => settled_row r = true /\ e = ErrSettled id (row_state r)
      end
  end.
Proof. apply RequestCancel_cases. Qed.

(** A duration as a column of milliseconds keeps it. *)
Definition truncate_ms (d : Z) : Z := d - Z.rem d Duration.Millisecond.

Lemma ms_roundtrip d : Duration.minDuration <= d <= Duration.maxDuration ->
  Duration.wrap (Duration.Milliseconds d * Duration.Millisecond) = truncate_ms d.
Proof.
  intros Hd. unfold truncate_ms, Duration.Milliseconds, Duration.wrap, Duration.Millisecond in *.
  unfold Duration.minDuration, Duration.maxDuration in Hd.
  pose proof (Z.quot_rem' d 1000000). pose proof (Z.rem_bound_abs d 1000000 ltac:(lia)).
  assert (0 <= d -> 0 <= Z.rem d 1000000) by (intros; apply Z.rem_nonneg; lia).
  assert (d <= 0 -> Z.rem d 1000000 <= 0) by (intros; apply Z.rem_nonpos; lia).
  rewrite Z.mod_small; lia.
Qed.

Lemma nulltime_roundtrip z : parseNullTime (formatNullTime z) = z.
Proof. unfold parseNullTime, formatNullTime, Time.IsZero. destruct (Z.eqb_spec z Time.zero); cbn; congruence. Qed.

(** The history says what happened. After the row of a run was created and
    updated with its outcome, reading it back by its identifier (with its
    timeline) gives that outcome, with the plan, the workload and the start it
    was created with, durations cut to the millisecond, and a proof level that
    this build knows unchanged. *)
Theorem run_roundtrip d start run planYAML t t1 steps checks :
  CreateRun start planYAML t = inr t1 -> run_ID run = run_ID start ->
  (run_ProofLevel run = ProofUnknown \/ Recorded (run_ProofLevel run) = true) ->
  Duration.minDuration <= run_RTO run <= Duration.maxDuration ->
  Duration.minDuration <= run_RTOTarget run <= Duration.maxDuration ->
  GetRun d (run_ID run) steps checks (UpdateRun run t1) = inr
    {| run_ID := run_ID run; run_PlanName := run_PlanName start; run_PlanID := run_PlanID start;
       run_PlanVersion := run_PlanVersion start; run_ProviderID := run_ProviderID start;
       run_BackupProviderID := run_BackupProviderID start;
       run_SourceWorkloadID := run_SourceWorkloadID start; run_SourceName := run_SourceName run;
       run_TempWorkloadID := run_TempWorkloadID run; run_TempName := run_TempName run;
       run_Node := run_Node run; run_Backup := run_Backup run; run_State := run_State run;
       run_Result := run_Result run; run_ProofLevel := run_ProofLevel run;
       run_StartedAt := run_StartedAt start; run_CompletedAt := run_CompletedAt run;
       run_Steps := steps; run_Checks := checks; run_RTO := truncate_ms (run_RTO run);
       run_RTOTarget := truncate_ms (run_RTOTarget run); run_CleanupDone := run_CleanupDone run;
       run_Err := run_Err run |}.
Proof.
  unfold CreateRun, insert_row. destruct (t !! run_ID start) eqn:E; [done|]. intros [= <-] Hid Hp Hr Ht.
  assert (Hl : UpdateRun run (<[run_ID start := created_row start planYAML]> t) !! run_ID run
    = Some (updated_row run (created_row start planYAML))).
  { unfold UpdateRun. rewrite update_spec, decide_True by done. rewrite Hid, lookup_insert_eq. done. }
  unfold GetRun, resolveRunID. rewrite Hl. rewrite Hl. unfold read_run; cbn.
  rewrite !ms_roundtrip, nulltime_roundtrip by done. repeat f_equal.
  destruct Hp as [->|Hp]; [done|]. by destruct (run_ProofLevel run).
Qed.

(** ** The theorems at work *)

Definition sample_run : RecoveryRun :=
  {| run_ID := "r1"; run_PlanName := "nightly"; run_PlanID := ""; run_PlanVersion := 0;
     run_ProviderID := "pve"; run_BackupProviderID := ""; run_SourceWorkloadID := "101";
     run_SourceName := ""; run_TempWorkloadID := "9001"; run_TempName := "restorelab-101"; run_Node := "pve1";
     run_Backup := None; run_State := RunSuccess; run_Result := ResultSuccess; run_ProofLevel := ProofData;
     run_StartedAt := 5; run_CompletedAt := 9; run_Steps := []; run_Checks := []; run_RTO := 1234567;
     run_RTOTarget := 0; run_CleanupDone := true; run_Err := Lit "" |}.

Lemma statement_row_le_witness :
  exists r', apply_statement (StSetState "r1" RunFailed) {["r1" := created_row sample_run "yaml"]} !! "r1" = Some r' /\
    row_state r' = RunSuccess.
Proof.
  destruct (statement_row_le (StSetState "r1" RunFailed) {["r1" := created_row sample_run "yaml"]} "r1"
    (created_row sample_run "yaml") (lookup_singleton_eq _ _)) as (r' & E & L).
  exists r'. split; [exact E | exact (rl_settled _ _ _ L eq_refl eq_refl)].
Defined.

Lemma run_roundtrip_witness :
  exists run, GetRun SQLite "r1" [] [] (UpdateRun sample_run {["r1" := created_row sample_run "yaml"]}) = inr run /\
    run_RTO run = 1000000.
Proof.
  eexists. split; [apply (run_roundtrip SQLite sample_run sample_run "yaml" ∅ _ [] []); try reflexivity;
    first [right; reflexivity | unfold Duration.minDuration, Duration.maxDuration; cbn; lia] | reflexivity].
Defined.
