(* ===== verification/Listing.v ===== *)
(** * The listings of runs

    Models internal/store/list.go: the newest-first listing with its filter and
    its keyset position, and the last run of each workload; with what makes the
    pages of a listing fit together. *)

From Stdlib Require Import ZArith Lia String List.
From stdpp Require Import sorting.
From S2P Require Import Prelude GoTime Core Queue.

(** [RunSummary]. *)
Record RunSummary := mkRunSummary {
  sum_ID : string;
  sum_PlanName : string;
  sum_PlanID : string;
  sum_SourceWorkloadID : string;
  sum_SourceName : string;
  sum_State : RunState;
  sum_Result : RunResult;
  sum_StartedAt : Z;
  sum_CompletedAt : Z;
  sum_RTO : Z;
  sum_RTOTarget : Z;
  sum_CleanupDone : bool;
  sum_ProofLevel : ProofLevel;
}.

(** [Position]: a run's place in the listing order. *)
Record Position := mkPosition { pos_StartedAt : Z; pos_ID : string }.
#[export] Instance Position_eq_dec : EqDecision Position.
Proof. solve_decision. Defined.

(** [Filter]; the empty values restrict nothing. *)
Record Filter := mkFilter {
  fl_WorkloadID : string;
  fl_State : RunState;
  fl_Result : RunResult;
  fl_Since : Z;
  fl_Limit : Z;
  fl_After : option Position;
  fl_NotTerminal : bool;
}.
Definition no_filter : Filter := mkFilter "" RunStateEmpty ResultNone Time.zero 0 None false.

(** [scanRunSummary]. *)
Definition scanRunSummary (x : string * Row) : RunSummary :=
  let r := x.2 in
  mkRunSummary x.1 (row_plan_name r) (row_plan_id r) (row_source_workload_id r) (row_source_name r) (row_state r)
    (row_result r) (row_started_at r) (parseNullTime (row_completed_at r))
    (Duration.wrap (row_rto_ms r * Duration.Millisecond)) (Duration.wrap (row_rto_target_ms r * Duration.Millisecond))
    (row_cleanup_done r) (ParseProofLevel (ProofLevel_to_string (row_proof_level r))).1.

Definition pos_of (x : string * Row) : Position := mkPosition (row_started_at x.2) x.1.
Definition sum_pos (s : RunSummary) : Position := mkPosition (sum_StartedAt s) (sum_ID s).

Section Listing.
Context `{Collation}.

(** [started_at < ? OR (started_at = ? AND id < ?)]. *)
Definition older (a b : Position) : bool :=
  (pos_StartedAt a <? pos_StartedAt b) ||
  ((pos_StartedAt a =? pos_StartedAt b) && (collate (pos_ID a) (pos_ID b) && negb (bool_decide (pos_ID a = pos_ID b)))).

(** ORDER BY started_at DESC, id DESC. *)
Definition newest_first (x y : string * Row) : Prop := older (pos_of x) (pos_of y) = false.
#[export] Instance newest_first_dec x y : Decision (newest_first x y).
Proof. unfold newest_first. apply _. Defined.
Definition newest (l : list (string * Row)) : list (string * Row) := merge_sort newest_first l.

(** The WHERE clause [ListRuns] assembles. *)
Definition matches (f : Filter) (x : string * Row) : bool :=
  let r := x.2 in
  (negb (nonempty (fl_WorkloadID f)) || bool_decide (row_source_workload_id r = fl_WorkloadID f)) &&
  (bool_decide (fl_State f = RunStateEmpty) || bool_decide (row_state r = fl_State f)) &&
  (bool_decide (fl_Result f = ResultNone) || bool_decide (row_result r = fl_Result f)) &&
  (Time.IsZero (fl_Since f) || (fl_Since f <=? row_started_at r)) &&
  (negb (fl_NotTerminal f) || negb (settled_row r)) &&
  match fl_After f with Some p => older (pos_of x) p | None => true end.

Definition limit_of (n : Z) : nat := if n <=? 0 then DefaultListLimit else Z.to_nat n.

(** The rows of a listing, without its limit. *)
Definition listing (f : Filter) (t : Table) : list (string * Row) := newest (List.filter (matches f) (rows t)).

(** [ListRuns]. *)
Definition ListRuns (f : Filter) (t : Table) : list RunSummary :=
  map scanRunSummary (list.take (limit_of (fl_Limit f)) (listing f t)).

(** The filter of the queue and whatever is running. *)
Definition unsettled : Filter := mkFilter "" RunStateEmpty ResultNone Time.zero 0 None true.
Lemma length_pending t :
  length (ListRuns unsettled t) = Nat.min DefaultListLimit (countb (fun x => negb (settled_row x.2)) (rows t)).
Proof.
  unfold ListRuns. rewrite length_map, length_take. f_equal. unfold listing, newest, countb.
  rewrite (Permutation_length (merge_sort_Permutation _ _)). f_equal. apply filter_ext. intros x.
  unfold matches. cbn. by rewrite andb_true_r.
Qed.

(** The newest run of a workload: ROW_NUMBER() over its partition is one. *)
Definition last_of (workloadID : string) (t : Table) : option (string * Row) :=
  head (newest (List.filter (fun x => bool_decide (row_source_workload_id x.2 = workloadID)) (rows t))).

(** [LastRuns]. *)
Definition LastRuns (workloadIDs : list string) (t : Table) : gmap string RunSummary :=
  foldr (fun w m => match last_of w t with Some x => <[w := scanRunSummary x]> m | None => m end) ∅ workloadIDs.
End Listing.

(** ** The order of the listing *)

(** What any collation gives: a total order on text. *)
Class CollationLaws `{Collation} := {
  collate_total a b : collate a b = true \/ collate b a = true;
  collate_trans a b c : collate a b = true -> collate b c = true -> collate a c = true;
  collate_anti a b : collate a b = true -> collate b a = true -> a = b;
}.

Section Order.
Context `{CollationLaws}.

(** [older] as a proposition. *)
Lemma older_spec a b :
  older a b = true <->
  pos_StartedAt a < pos_StartedAt b \/
  (pos_StartedAt a = pos_StartedAt b /\ collate (pos_ID a) (pos_ID b) = true /\ pos_ID a <> pos_ID b).
Proof.
  unfold older. rewrite orb_true_iff, !andb_true_iff, negb_true_iff, bool_decide_eq_false, Z.ltb_lt, Z.eqb_eq. tauto.
Qed.

Lemma older_irrefl a : older a a = false.
Proof. apply not_true_iff_false. rewrite older_spec. intros [?|(_ & _ & ?)]; [lia|done]. Qed.
Lemma older_trans a b c : older a b = true -> older b c = true -> older a c = true.
Proof.
  rewrite !older_spec. intros [?|(E1 & C1 & N1)] [?|(E2 & C2 & N2)]; [left; lia..|].
  right. split_and!; [congruence | by eapply collate_trans|]. intros E. rewrite E in C1.
  apply N2. by apply collate_anti.
Qed.
Lemma older_total a b : a <> b -> older a b = true \/ older b a = true.
Proof.
  intros Hne. rewrite !older_spec. destruct (Z.lt_trichotomy (pos_StartedAt a) (pos_StartedAt b)) as [?|[E|?]]; [auto| |auto].
  assert (pos_ID a <> pos_ID b) by (destruct a, b; cbn in *; congruence).
  destruct (collate_total (pos_ID a) (pos_ID b)); [left | right]; right; auto.
Qed.
Lemma older_asym a b : older a b = true -> older b a = false.
Proof.
  intros H1. apply not_true_iff_false. intros H2. pose proof (older_trans _ _ _ H1 H2) as H3.
  by rewrite older_irrefl in H3.
Qed.

#[export] Instance newest_total : Total newest_first.
Proof.
  intros x y. unfold newest_first. destruct (older (pos_of x) (pos_of y)) eqn:E; [right; by apply older_asym | by left].
Qed.
#[export] Instance newest_trans : Transitive newest_first.
Proof.
  intros x y z. unfold newest_first. intros H1 H2. apply not_true_iff_false. intros H3.
  destruct (decide (pos_of x = pos_of y)) as [E|Hne]; [by rewrite E, H2 in H3|].
  destruct (older_total _ _ Hne) as [?|H4]; [congruence|]. pose proof (older_trans _ _ _ H4 H3). congruence.
Qed.

Lemma newest_sorted l : StronglySorted newest_first (newest l).
Proof. apply StronglySorted_merge_sort; apply _. Qed.
Lemma newest_perm l : newest l ≡ₚ l.
Proof. apply merge_sort_Permutation. Qed.

(** Two rows of one table at one position are one row. *)
Lemma rows_unique t x y : x ∈ rows t -> y ∈ rows t -> newest_first x y -> newest_first y x -> x = y.
Proof.
  destruct x as [i r], y as [j s]. unfold rows. rewrite !elem_of_map_to_list. intros Hi Hj H1 H2.
  destruct (decide (pos_of (i, r) = pos_of (j, s))) as [E|Hne].
  - injection E as _ E. cbn in E. subst j. congruence.
  - unfold newest_first in *. destruct (older_total _ _ Hne); congruence.
Qed.

(** A sorted permutation of rows of a table is their listing. *)
Lemma newest_unique t l1 l2 :
  (forall x, x ∈ l1 -> x ∈ rows t) -> StronglySorted newest_first l1 -> l1 ≡ₚ l2 -> l1 = newest l2.
Proof.
  intros Hin Hs Hp. apply (StronglySorted_unique_strong newest_first); [|done|apply newest_sorted|by rewrite newest_perm].
  intros x y Hx Hy. rewrite newest_perm, <- Hp in Hy. apply (rows_unique t); auto.
Qed.

Definition after (p : Position) (f : Filter) : Filter :=
  mkFilter (fl_WorkloadID f) (fl_State f) (fl_Result f) (fl_Since f) (fl_Limit f) (Some p) (fl_NotTerminal f).

Lemma matches_after p f x : fl_After f = None -> matches (after p f) x = matches f x && older (pos_of x) p.
Proof. intros E. unfold matches. rewrite E. cbn. by rewrite andb_true_r. Qed.

Lemma filter_filter {A} (f g : A -> bool) l : List.filter f (List.filter g l) = List.filter (fun x => g x && f x) l.
Proof. induction l as [|x l IH]; [done|]. cbn. destruct (g x); cbn; [destruct (f x)|]; by rewrite IH. Qed.
Lemma filter_Permutation {A} (f : A -> bool) l1 l2 : l1 ≡ₚ l2 -> List.filter f l1 ≡ₚ List.filter f l2.
Proof.
  induction 1; cbn; repeat case_match; try done; [by constructor|by constructor|by etransitivity].
Qed.
Lemma filter_all {A} (f : A -> bool) l : Forall (fun x => f x = true) l -> List.filter f l = l.
Proof. induction 1 as [|x l E _ IH]; [done|]. cbn. by rewrite E, IH. Qed.
Lemma filter_none {A} (f : A -> bool) l : Forall (fun x => f x = false) l -> List.filter f l = [].
Proof. induction 1 as [|x l E _ IH]; [done|]. cbn. by rewrite E. Qed.
Lemma sorted_filter {A} (R : relation A) (f : A -> bool) l : StronglySorted R l -> StronglySorted R (List.filter f l).
Proof.
  induction 1 as [|x l Hl IH Hx]; [constructor|]. cbn. destruct (f x); [|done]. constructor; [done|].
  rewrite !Forall_forall in *. intros y Hy. apply Hx. apply list_elem_of_In in Hy. apply filter_In in Hy as [Hy _].
  by apply list_elem_of_In.
Qed.

(** The rows a condition holds of, newest first. *)
Lemma elem_newest (f : string * Row -> bool) t x :
  x ∈ newest (List.filter f (rows t)) <-> t !! x.1 = Some x.2 /\ f x = true.
Proof. rewrite newest_perm, list_elem_of_In. destruct x as [id r]. rewrite <- list_elem_of_In, in_rows. done. Qed.
Lemma newest_NoDup (f : string * Row -> bool) t : NoDup (newest (List.filter f (rows t))).
Proof. rewrite newest_perm. apply NoDup_ListNoDup, List.NoDup_filter, NoDup_ListNoDup, NoDup_map_to_list. Qed.
Lemma newest_rows (f : string * Row -> bool) t x : x ∈ newest (List.filter f (rows t)) -> x ∈ rows t.
Proof. rewrite elem_newest. destruct x. intros [Hx _]. by apply elem_of_map_to_list. Qed.

(** What lies after a position is a filter of the whole. *)
Lemma newest_after (f : string * Row -> bool) p t :
  newest (List.filter (fun x => f x && older (pos_of x) p) (rows t)) =
  List.filter (fun x => older (pos_of x) p) (newest (List.filter f (rows t))).
Proof.
  symmetry. apply (newest_unique t).
  - intros x Hx. apply list_elem_of_In, filter_In in Hx as [Hx _]. by eapply newest_rows, list_elem_of_In.
  - apply sorted_filter, newest_sorted.
  - by rewrite (filter_Permutation _ _ _ (newest_perm _)), filter_filter.
Qed.

(** What lies after one of the rows is what follows it. *)
Lemma newest_split (f : string * Row -> bool) t l1 x l2 :
  newest (List.filter f (rows t)) = l1 ++ x :: l2 ->
  newest (List.filter (fun y => f y && older (pos_of y) (pos_of x)) (rows t)) = l2.
Proof.
  intros Hl. rewrite newest_after, Hl, List.filter_app. cbn. rewrite older_irrefl.
  pose proof (newest_sorted (List.filter f (rows t))) as Hs. rewrite Hl in Hs. apply StronglySorted_app in Hs as (Hc & _ & Hs2).
  rewrite filter_none, filter_all; [done| |].
  - inversion Hs2 as [|? ? Hs3 Hx]; subst. apply Forall_forall. intros y Hy.
    rewrite Forall_forall in Hx. specialize (Hx y Hy). unfold newest_first in Hx.
    destruct (decide (pos_of x = pos_of y)) as [Ep|Hne].
    + exfalso. assert (x = y) as <-.
      { apply (rows_unique t); [apply (newest_rows f); rewrite Hl; set_solver.. | |];
          unfold newest_first; by rewrite Ep, older_irrefl. }
      pose proof (newest_NoDup f t) as Hn. rewrite Hl in Hn. apply NoDup_app in Hn as (_ & _ & Hn).
      by apply NoDup_cons in Hn as [? _].
    + destruct (older_total _ _ Hne); congruence.
  - apply Forall_forall. intros y Hy. exact (Hc y x Hy ltac:(left)).
Qed.

Lemma listing_sorted f t : StronglySorted newest_first (listing f t).
Proof. apply newest_sorted. Qed.
Lemma elem_listing f t x : x ∈ listing f t <-> t !! x.1 = Some x.2 /\ matches f x = true.
Proof. apply elem_newest. Qed.
Lemma listing_rows f t x : x ∈ listing f t -> x ∈ rows t.
Proof. apply newest_rows. Qed.
Lemma listing_NoDup f t : NoDup (listing f t).
Proof. apply newest_NoDup. Qed.

(** ** Continuing a listing *)

Lemma listing_matches_after p f t :
  fl_After f = None -> listing (after p f) t = newest (List.filter (fun x => matches f x && older (pos_of x) p) (rows t)).
Proof.
  intros E. unfold listing. by rewrite (filter_ext _ (fun x => matches f x && older (pos_of x) p)) by (intros; by apply matches_after).
Qed.
(** What lies after a position is the rest of the listing. *)
Lemma listing_after p f t :
  fl_After f = None -> listing (after p f) t = List.filter (fun x => older (pos_of x) p) (listing f t).
Proof. intros E. rewrite listing_matches_after by done. apply newest_after. Qed.
(** The rest of a listing after one of its rows. *)
Lemma listing_split f t l1 x l2 :
  fl_After f = None -> listing f t = l1 ++ x :: l2 -> listing (after (pos_of x) f) t = l2.
Proof. intros E Hl. rewrite listing_matches_after by done. by apply newest_split with (l1 := l1). Qed.
End Order.

(** The order of the bytes, SQLite's default collation. *)
Definition byte_order : Collation := {| collate a b := bool_decide (String.le a b) |}.
Lemma byte_order_laws : @CollationLaws byte_order.
Proof.
  split; cbn; setoid_rewrite bool_decide_eq_true.
  - intros a b. apply (total String.le).
  - intros a b c. apply (transitivity (R := String.le)).
  - intros a b. apply (anti_symm String.le).
Qed.
