(* ===== verification/Paging.v ===== *)
(** * The paged listing of the API

    Models internal/api/page.go (limits and cursors) and the listing handler of
    internal/api/runs.go, over the listing of [Listing]. The rendering of a
    row as JSON is left out: an item is the summary it renders. *)

From Stdlib Require Import ZArith Lia String Ascii List.
From stdpp Require Import sorting.
From S2P Require Import Prelude GoTime Core GoString GoStrconv Timestamp Base64 Queue Listing.

Definition maxPageSize : Z := 200.

(** [page]; no cursor when nothing follows. *)
Record page := mkPage { pg_Items : list RunSummary; pg_NextCursor : string }.

(** [encodeCursor]. *)
Definition encodeCursor (p : Position) : string :=
  EncodeToString RawURLEncoding (formatTime (pos_StartedAt p) +:+ "|" +:+ pos_ID p).

(** [decodeCursor]: why it is refused, or the position. *)
Definition decodeCursor (s : string) : string + Position :=
  match DecodeString RawURLEncoding s with
  | None => inl "cursor is not valid base64url"
  | Some raw =>
    match Cut "|" raw with
    | Some (at_, id) =>
      if negb (nonempty id) then inl "cursor is malformed" else
      match parseTime at_ with
      | None => inl "cursor carries an unreadable timestamp"
      | Some t => inr (mkPosition t id)
      end
    | None => inl "cursor is malformed"
    end
  end.

(** [parseLimit]. *)
Definition parseLimit (raw : string) : string + Z :=
  if negb (nonempty raw) then inr (Z.of_nat DefaultListLimit) else
  match Atoi raw with
  | None => inl "limit must be a number"
  | Some n =>
    if n <=? 0 then inl "limit must be greater than zero"
    else if maxPageSize <? n then inr maxPageSize else inr n
  end.

Section Paging.
Context `{Collation}.

Definition with_limit (n : Z) (p : option Position) (f : Filter) : Filter :=
  mkFilter (fl_WorkloadID f) (fl_State f) (fl_Result f) (fl_Since f) n p (fl_NotTerminal f).

(** [handleListRuns]: the query's limit and cursor, and the filter the other
    parameters make, which continues nothing. *)
Definition handleListRuns (limit cursor : string) (f : Filter) (t : Table) : string + page :=
  match parseLimit limit with
  | inl err => inl err
  | inr n =>
    let pos := if nonempty cursor then match decodeCursor cursor with inl err => inl err | inr p => inr (Some p) end
               else inr (fl_After f) in
    match pos with
    | inl err => inl err
    | inr p =>
      let runs := ListRuns (with_limit (n + 1) p f) t in
      let next := match runs !! Z.to_nat (n - 1) with
                  | Some last => if n <? Z.of_nat (length runs) then encodeCursor (sum_pos last) else ""
                  | None => ""
                  end in
      inr (mkPage (list.take (Z.to_nat n) runs) next)
    end
  end.

(** A client that follows the cursors; each request may find another table. *)
Fixpoint crawl (fuel : nat) (limit cursor : string) (f : Filter) (ts : nat -> Table) : option (list RunSummary) :=
  match fuel with
  | O => None
  | S fuel =>
    match handleListRuns limit cursor f (ts O) with
    | inl _ => None
    | inr pg =>
      if nonempty (pg_NextCursor pg)
      then app (pg_Items pg) <$> crawl fuel limit (pg_NextCursor pg) f (fun i => ts (S i))
      else Some (pg_Items pg)
    end
  end.
End Paging.

(** ** Cursors *)

Lemma formatTime_no_bar t : existsb_char (fun c => Ascii.eqb c "|") (formatTime t) = false.
Proof.
  assert (Hd : forall n, Ascii.eqb (Time.digit n) "|" = false).
  { intros n. destruct (digit_digit n) as [H _]. destruct (Ascii.eqb_spec (Time.digit n) "|") as [E|]; [|done].
    by rewrite E in H. }
  assert (Hp : forall w n, existsb_char (fun c => Ascii.eqb c "|") (Time.pad w n) = false).
  { induction w as [|w IH]; intros n; cbn [Time.pad]; [done|]. rewrite existsb_char_app, IH. cbn. by rewrite Hd. }
  unfold formatTime. by rewrite !existsb_char_app, !Hp.
Qed.

Lemma cursor_roundtrip p :
  printable (pos_StartedAt p) -> pos_ID p <> "" -> decodeCursor (encodeCursor p) = inr p.
Proof.
  intros Ht Hid. unfold decodeCursor, encodeCursor. rewrite base64_roundtrip by apply RawURL_proper.
  change ("|" +:+ pos_ID p) with (String "|" (pos_ID p)). rewrite Cut_app by apply formatTime_no_bar.
  rewrite (proj2 (nonempty_spec _) Hid), parse_formatTime by done. by destruct p.
Qed.

Lemma encodeCursor_nonempty p : nonempty (encodeCursor p) = true.
Proof.
  apply nonempty_spec. intros E. unfold encodeCursor in E.
  assert (H : DecodeString RawURLEncoding (EncodeToString RawURLEncoding (formatTime (pos_StartedAt p) +:+ "|" +:+ pos_ID p)) = Some "")
    by by rewrite E.
  rewrite base64_roundtrip in H by apply RawURL_proper. injection H as H.
  assert (L : String.length (formatTime (pos_StartedAt p) +:+ "|" +:+ pos_ID p) = 0%nat) by by rewrite H.
  rewrite !string_length_app in L. apply Nat.eq_add_0 in L as [_ L]. by apply Nat.eq_add_0 in L as [L _].
Qed.

Lemma parseLimit_pos raw n : parseLimit raw = inr n -> 1 <= n <= maxPageSize.
Proof.
  unfold parseLimit, maxPageSize. destruct (negb (nonempty raw)); [intros [= <-]; unfold DefaultListLimit; lia|].
  destruct (Atoi raw) as [k|]; [|done]. zcases; try done; intros [= <-]; lia.
Qed.

(** ** Following the cursors *)

Section Crawl.
Context `{CollationLaws}.

(** [t'] is [t] with newer runs. *)
Definition grown (t t' : Table) : Prop :=
  (forall id r, t !! id = Some r -> t' !! id = Some r) /\
  (forall id r x, t' !! id = Some r -> t !! id = None -> x ∈ rows t -> older (pos_of x) (pos_of (id, r)) = true).

Lemma in_table t x : x ∈ rows t <-> t !! x.1 = Some x.2.
Proof. destruct x. apply elem_of_map_to_list. Qed.

(** What follows a row does not see newer ones. *)
Lemma listing_grown f t t' x :
  fl_After f = None -> grown t t' -> x ∈ rows t -> listing (after (pos_of x) f) t' = listing (after (pos_of x) f) t.
Proof.
  intros Hf [Hold Hnew] Hx. symmetry. unfold listing at 2. apply (newest_unique t').
  - intros y Hy. apply listing_rows in Hy. apply in_table in Hy. apply in_table. auto.
  - apply listing_sorted.
  - apply NoDup_Permutation; [apply listing_NoDup| |].
    { apply NoDup_ListNoDup, List.NoDup_filter, NoDup_ListNoDup, NoDup_map_to_list. }
    intros [id r]. rewrite elem_listing, list_elem_of_In, <- list_elem_of_In, in_rows. cbn [fst snd].
    split; intros [H1 H2]; split; auto.
    destruct (t !! id) as [r'|] eqn:E; [|].
    + apply Hold in E as E'. congruence.
    + exfalso. rewrite matches_after in H2 by done. apply andb_true_iff in H2 as [_ H2].
      specialize (Hnew id r x H1 E Hx). apply older_asym in Hnew. congruence.
Qed.

(** One request: a page of what its listing holds, and where it stopped. *)
Lemma page_of limit cursor n p f t l :
  parseLimit limit = inr n -> (nonempty cursor = true -> decodeCursor cursor = inr p) ->
  listing (with_limit (n + 1) (if nonempty cursor then Some p else fl_After f) f) t = l ->
  handleListRuns limit cursor f t = inr (mkPage (map scanRunSummary (list.take (Z.to_nat n) l))
    (match l !! Z.to_nat (n - 1) with
     | Some x => if n <? Z.of_nat (length l) then encodeCursor (pos_of x) else ""
     | None => ""
     end)).
Proof.
  intros Hn Hc Hl. pose proof (parseLimit_pos _ _ Hn) as Hb. unfold handleListRuns. rewrite Hn.
  replace (if nonempty cursor then match decodeCursor cursor with inl err => inl err | inr q => inr (Some q) end
           else inr (fl_After f)) with (inr (if nonempty cursor then Some p else fl_After f) : string + option Position)
    by (destruct (nonempty cursor); [by rewrite Hc | done]).
  unfold ListRuns. rewrite Hl. cbn [fl_Limit with_limit]. unfold limit_of.
  replace (n + 1 <=? 0) with false by lia. do 2 f_equal.
  - rewrite firstn_map, firstn_firstn. do 2 f_equal. lia.
  - rewrite length_map, length_take. change (map scanRunSummary) with (fmap (M := list) scanRunSummary).
    rewrite list_lookup_fmap, lookup_take_lt by lia.
    destruct (l !! Z.to_nat (n - 1)) as [x|]; [|done]. cbn [fmap option_fmap option_map].
    destruct (Z.ltb_spec n (Z.of_nat (Z.to_nat (n + 1) `min` length l))), (Z.ltb_spec n (Z.of_nat (length l))); done || lia.
Qed.

(** The page that ends a listing, or the one after which it goes on. *)
Lemma page_rest (n : Z) (l : list (string * Row)) :
  1 <= n ->
  (match l !! Z.to_nat (n - 1) with
   | Some x => if n <? Z.of_nat (length l) then encodeCursor (pos_of x) else "" | None => "" end = "" /\
   list.take (Z.to_nat n) l = l) \/
  exists y, match l !! Z.to_nat (n - 1) with
    | Some x => if n <? Z.of_nat (length l) then encodeCursor (pos_of x) else "" | None => "" end = encodeCursor (pos_of y) /\
    l = list.take (Z.to_nat (n - 1)) l ++ y :: list.drop (Z.to_nat n) l.
Proof.
  intros Hn. destruct (l !! Z.to_nat (n - 1)) as [y|] eqn:Ey.
  - destruct (Z.ltb_spec n (Z.of_nat (length l))); [right | left; split; [done|apply take_ge; lia]].
    exists y. split; [done|]. pose proof (take_drop_middle l _ _ Ey) as Hs.
    by replace (S (Z.to_nat (n - 1))) with (Z.to_nat n) in Hs by lia.
  - apply lookup_ge_None in Ey. left. split; [done|]. apply take_ge. lia.
Qed.

Lemma crawl_after limit n f t ts fuel l1 x l2 :
  parseLimit limit = inr n -> fl_After f = None -> (forall i, grown t (ts i)) ->
  (forall y, y ∈ rows t -> printable (row_started_at y.2) /\ y.1 <> "") ->
  listing f t = l1 ++ x :: l2 -> (length l2 < fuel)%nat ->
  crawl fuel limit (encodeCursor (pos_of x)) f ts = Some (map scanRunSummary l2).
Proof.
  intros Hn Hf Hts Ht. pose proof (parseLimit_pos _ _ Hn) as Hb.
  revert ts l1 x l2 Hts. induction fuel as [|fuel IH]; intros ts l1 x l2 Hts Hl Hfuel; [lia|].
  assert (Hx : x ∈ rows t) by (apply (listing_rows f); rewrite Hl; set_solver).
  destruct (Ht x Hx) as [Hp Hid]. cbn [crawl].
  rewrite (page_of limit (encodeCursor (pos_of x)) n (pos_of x) f (ts 0%nat) l2); [|done|intros _; by apply cursor_roundtrip|].
  2:{ rewrite encodeCursor_nonempty.
    change (listing (after (pos_of x) f) (ts 0%nat) = l2).
    rewrite (listing_grown _ t) by auto. by eapply listing_split. }
  cbn [pg_Items pg_NextCursor]. destruct (page_rest n l2) as [[-> E]|(y & -> & E)]; [lia|by rewrite E|].
  rewrite encodeCursor_nonempty.
  rewrite (IH (fun i => ts (S i)) (l1 ++ x :: list.take (Z.to_nat (n - 1)) l2) y (list.drop (Z.to_nat n) l2)).
  - cbn. by rewrite <- map_app, take_drop.
  - auto.
  - by rewrite <- app_assoc, <- app_comm_cons, <- E.
  - apply (f_equal length) in E. rewrite length_app in E. cbn in E. rewrite length_drop. lia.
Qed.

(** C35: following the cursors reads the whole history once. A client that asks
    for the first page and then follows [next_cursor] until there is none, with
    any page size the API accepts, receives exactly the runs its filter selects,
    each once, from the newest to the oldest, whatever newer runs are added while it
    pages, those that were there staying as they are; and it needs at most one request
    more than there are runs. *)
Theorem pages_cover_listing limit n f t ts fuel :
  parseLimit limit = inr n -> fl_After f = None ->
  (forall y, y ∈ rows t -> printable (row_started_at y.2) /\ y.1 <> "") ->
  ts O = t -> (forall i, grown t (ts i)) -> (length (listing f t) < fuel)%nat ->
  crawl fuel limit "" f ts = Some (map scanRunSummary (listing f t)) /\
  NoDup (listing f t) /\ StronglySorted newest_first (listing f t) /\
  (forall x, x ∈ listing f t <-> t !! x.1 = Some x.2 /\ matches f x = true).
Proof.
  intros Hn Hf Ht Hts0 Hts Hfuel. split_and!; [|apply listing_NoDup|apply listing_sorted|intros x; apply elem_listing].
  pose proof (parseLimit_pos _ _ Hn) as Hb. destruct fuel as [|fuel]; [lia|]. cbn [crawl]. rewrite Hts0.
  rewrite (page_of limit "" n (mkPosition 0 "") f t (listing f t)); [|done|done|].
  2:{ change (nonempty "") with false. cbn iota. rewrite Hf. unfold listing, with_limit. by destruct f; cbn in *; subst. }
  cbn [pg_Items pg_NextCursor]. destruct (page_rest n (listing f t)) as [[-> E]|(y & -> & E)]; [lia|by rewrite E|].
  rewrite encodeCursor_nonempty.
  rewrite (crawl_after limit n f t (fun i => ts (S i)) fuel (list.take (Z.to_nat (n - 1)) (listing f t)) y
    (list.drop (Z.to_nat n) (listing f t))); auto.
  - cbn. by rewrite <- map_app, take_drop.
  - apply (f_equal length) in E. rewrite length_app in E. cbn in E. rewrite length_drop. lia.
Qed.
End Crawl.

(** ** The theorem at work *)

Module Dashboard.
#[local] Existing Instance byte_order.
#[local] Existing Instance byte_order_laws.

Definition a_run (at_ : Z) : Row :=
  created_row {| run_ID := ""; run_PlanName := "nightly"; run_PlanID := ""; run_PlanVersion := 0;
     run_ProviderID := "pve"; run_BackupProviderID := ""; run_SourceWorkloadID := "101"; run_SourceName := "";
     run_TempWorkloadID := ""; run_TempName := ""; run_Node := ""; run_Backup := None; run_State := RunSuccess;
     run_Result := ResultSuccess; run_ProofLevel := ProofData; run_StartedAt := at_; run_CompletedAt := 0;
     run_Steps := []; run_Checks := []; run_RTO := 0; run_RTOTarget := 0; run_CleanupDone := true; run_Err := Lit "" |} "".
(** Two drills of one instant, and an older one; another starts meanwhile. *)
Definition monday : Table := {["r1" := a_run 7; "r2" := a_run 7; "r3" := a_run 5]}.
Definition tuesday : Table := <["r4" := a_run 9]> monday.

Example a_page : map sum_ID <$> crawl 4 "2" "" no_filter (fun i => match i with O => monday | _ => tuesday end)
  = Some ["r2"; "r1"; "r3"].
Proof. vm_compute. reflexivity. Qed.

Lemma monday_rows y : y ∈ rows monday -> y = ("r1", a_run 7) \/ y = ("r2", a_run 7) \/ y = ("r3", a_run 5).
Proof.
  destruct y as [id r]. unfold rows. rewrite elem_of_map_to_list. unfold monday.
  rewrite !lookup_insert_Some, lookup_singleton_Some. naive_solver.
Qed.
Lemma grown_tuesday i : grown monday (match i with O => monday | _ => tuesday end).
Proof.
  destruct i; (split; [|]).
  - done.
  - congruence.
  - intros id r E. unfold tuesday. rewrite lookup_insert_ne; [done|]. intros <-. by vm_compute in E.
  - intros id r x E En Hx. unfold tuesday in E. apply lookup_insert_Some in E as [[<- <-]|[_ E]]; [|congruence].
    by apply monday_rows in Hx as [->|[->| ->]].
Qed.

Lemma pages_cover_listing_witness :
  crawl 4 "2" "" no_filter (fun i => match i with O => monday | _ => tuesday end) =
    Some (map scanRunSummary (listing no_filter monday)) /\ NoDup (listing no_filter monday).
Proof.
  destruct (pages_cover_listing "2" 2 no_filter monday (fun i => match i with O => monday | _ => tuesday end) 4
    eq_refl eq_refl) as (H1 & H2 & _).
  - intros y Hy. apply monday_rows in Hy as [->|[->| ->]]; (split; [split; vm_compute; congruence | discriminate]).
  - reflexivity.
  - apply grown_tuesday.
  - vm_compute. lia.
  - exact (conj H1 H2).
Defined.
End Dashboard.
