(* ===== verification/Timeline.v ===== *)
(** * The timeline of a run in the database

    Models internal/store/steps.go, checks.go, events.go and values.go: the
    tables that hold what happened during a run next to the [runs] table, and
    [GetRun] with its whole timeline. The JSON library is outside the
    repository: what encoding a value and decoding it gives back, if anything,
    is [JSON]. *)

From Stdlib Require Import ZArith Lia String Ascii List.
From stdpp Require Import sorting.
From S2P Require Import Prelude GoTime GoFloat Errors Core Queue.

(** What a value is after [json.Marshal] and [json.Unmarshal]; [None] when it
    cannot be encoded. *)
Class JSON := {
  json_details : gmap string detail -> option (gmap string detail);
  json_check : CheckResult -> option CheckResult;
}.

(** [store.Event]. *)
Record StoredEvent := mkStoredEvent {
  se_Seq : Z;
  se_At : Z;
  se_State : RunState;
  se_Step : string;
  se_Status : StepStatus;
  se_Message : text;
  se_Check : option CheckResult;
  se_Err : text;
}.

Record Timeline := mkTimeline {
  tl_runs : Table;
  tl_steps : gmap (string * Z) Step;
  tl_checks : gmap (string * Z) CheckResult;
  tl_events : gmap (string * Z) StoredEvent;
  tl_values : gmap (string * Z * string) float64;
}.

Section Timeline.
Context `{JSON}.

(** The reference to the run that every row of the timeline holds. *)
Definition has_run (runID : string) (t : Timeline) : bool := bool_decide (is_Some (tl_runs t !! runID)).

(** ** Writing *)

(** A step as its columns keep it. *)
Definition stored_step (s : Step) (details : gmap string detail) : Step :=
  mkStep (st_Name s) (st_State s) (st_Status s) (st_StartedAt s) (st_CompletedAt s)
    (Duration.wrap (Duration.Milliseconds (st_Duration s) * Duration.Millisecond)) (st_Message s) (st_Err s) details.

(** [SaveStep]: written twice, the second replaces the first. *)
Definition SaveStep (runID : string) (seq : Z) (s : Step) (t : Timeline) : option Timeline :=
  match json_details (st_Details s) with
  | None => None
  | Some details =>
    if has_run runID t then
      Some (mkTimeline (tl_runs t) (<[(runID, seq) := stored_step s details]> (tl_steps t)) (tl_checks t)
              (tl_events t) (tl_values t))
    else None
  end.

Definition stored_check (c : CheckResult) (details : gmap string detail) : CheckResult :=
  mkCheckResult (cr_Name c) (cr_Type c) (cr_Status c) (cr_StartedAt c) (cr_CompletedAt c)
    (Duration.wrap (Duration.Milliseconds (cr_Duration c) * Duration.Millisecond)) (cr_Attempts c) (cr_Message c)
    details.

(** [SaveCheck]. *)
Definition SaveCheck (runID : string) (seq : Z) (c : CheckResult) (t : Timeline) : option Timeline :=
  match json_details (cr_Details c) with
  | None => None
  | Some details =>
    if has_run runID t then
      Some (mkTimeline (tl_runs t) (tl_steps t) (<[(runID, seq) := stored_check c details]> (tl_checks t))
              (tl_events t) (tl_values t))
    else None
  end.

(** [AppendEvent]: the first write of a sequence number is the one that stays. *)
Definition stored_event (e : StoredEvent) (check : option CheckResult) : StoredEvent :=
  mkStoredEvent (se_Seq e) (se_At e) (se_State e) (se_Step e) (se_Status e) (se_Message e) check (se_Err e).
Definition AppendEvent (runID : string) (e : StoredEvent) (t : Timeline) : option Timeline :=
  let write (check : option CheckResult) :=
    if has_run runID t then
      Some (mkTimeline (tl_runs t) (tl_steps t) (tl_checks t)
              (match tl_events t !! (runID, se_Seq e) with
               | Some _ => tl_events t
               | None => <[(runID, se_Seq e) := stored_event e check]> (tl_events t)
               end) (tl_values t))
    else None in
  match se_Check e with
  | None => write None
  | Some c => match json_check c with None => None | Some c => write (Some c) end
  end.

(** [SaveCheckValue]. *)
Definition SaveCheckValue (runID : string) (seq : Z) (name : string) (v : float64) (t : Timeline) : option Timeline :=
  if has_run runID t then
    Some (mkTimeline (tl_runs t) (tl_steps t) (tl_checks t) (tl_events t) (<[(runID, seq, name) := v]> (tl_values t)))
  else None.

(** ** Reading *)

(** The rows of a run, ORDER BY seq. *)
Definition seqs_of {A} (runID : string) (t : gmap (string * Z) A) : list Z :=
  merge_sort Z.le (omap (fun k => if bool_decide (k.1 = runID) then Some k.2 else None) (map fst (map_to_list t))).
Definition by_seq {A} (runID : string) (t : gmap (string * Z) A) : list A :=
  omap (fun seq => t !! (runID, seq)) (seqs_of runID t).

Definition loadSteps (runID : string) (t : Timeline) : list Step := by_seq runID (tl_steps t).
Definition loadChecks (runID : string) (t : Timeline) : list CheckResult := by_seq runID (tl_checks t).

(** [Events]: those after a sequence number. *)
Definition Events (runID : string) (afterSeq : Z) (t : Timeline) : list StoredEvent :=
  omap (fun seq => if afterSeq <? seq then tl_events t !! (runID, seq) else None) (seqs_of runID (tl_events t)).

(** [GetRun] with its timeline. *)
Definition GetWholeRun (d : dialect) (idOrPrefix : string) (t : Timeline) : store_error + RecoveryRun :=
  match resolveRunID d idOrPrefix (tl_runs t) with
  | inl err => inl err
  | inr id => GetRun d id (loadSteps id t) (loadChecks id t) (tl_runs t)
  end.

(** [RunCheckValues]: everything one run measured. *)
Definition RunCheckValues (runID : string) (t : Timeline) : gmap (Z * string) float64 :=
  list_to_map (omap (fun kv => if bool_decide (kv.1.1.1 = runID) then Some ((kv.1.1.2, kv.1.2), kv.2) else None)
                 (map_to_list (tl_values t))).

(** [CapturedValues]: what the drills of a workload that reached a verdict
    measured, ORDER BY started_at DESC, id DESC. *)
Context `{Collation}.
Definition reading : Type := (Z * string) * float64.
Definition newer (a b : reading) : Prop :=
  b.1.1 < a.1.1 \/ (b.1.1 = a.1.1 /\ collate b.1.2 a.1.2 = true).
#[export] Instance newer_dec a b : Decision (newer a b).
Proof. unfold newer. apply _. Defined.
Definition readings (workloadID checkName valueName : string) (t : Timeline) : list reading :=
  omap (fun kv =>
    let '((runID, seq), name, v) := kv : (string * Z) * string * float64 in
    match tl_runs t !! runID, tl_checks t !! (runID, seq) with
    | Some r, Some c =>
      if bool_decide (row_source_workload_id r = workloadID) && bool_decide (cr_Name c = checkName) &&
         bool_decide (name = valueName) && negb (bool_decide (row_result r = ResultNone))
      then Some ((row_started_at r, runID), v) else None
    | _, _ => None
    end) (map_to_list (tl_values t)).
Definition CapturedValues (workloadID checkName valueName : string) (limit : Z) (t : Timeline) : list float64 :=
  map snd (list.take (if limit <=? 0 then DefaultListLimit else Z.to_nat limit)
             (merge_sort newer (readings workloadID checkName valueName t))).
End Timeline.

(** ** The rows of a run, in order *)

Lemma elem_seqs {A} (id : string) (t : gmap (string * Z) A) k : k ∈ seqs_of id t <-> is_Some (t !! (id, k)).
Proof.
  unfold seqs_of. rewrite (merge_sort_Permutation Z.le), list_elem_of_omap. split.
  - intros ([i k'] & Hin & E). cbn in E. case_bool_decide; [|done]. simplify_eq.
    apply list_elem_of_fmap in Hin as ([k0 x] & -> & Hin). apply elem_of_map_to_list in Hin. by exists x.
  - intros [x E]. exists (id, k). cbn. rewrite bool_decide_true by done. split; [|done].
    apply list_elem_of_fmap. exists ((id, k), x). split; [done|]. by apply elem_of_map_to_list.
Qed.

Lemma nodup_seqs {A} (id : string) (t : gmap (string * Z) A) : NoDup (seqs_of id t).
Proof.
  unfold seqs_of. rewrite (merge_sort_Permutation Z.le).
  pose proof (NoDup_fst_map_to_list t) as Hn. change (NoDup (map fst (map_to_list t))) in Hn. revert Hn. generalize (map fst (map_to_list t)).
  intros l. induction l as [|[i k] l IH]; intros Hn; [constructor|]. apply NoDup_cons in Hn as [Hk Hn]. cbn.
  case_bool_decide; [|by apply IH]. constructor; [|by apply IH]. rewrite list_elem_of_omap.
  intros ([i' k'] & Hin & E). cbn in E. case_bool_decide; simplify_eq. done.
Qed.
Lemma sorted_seqs {A} (id : string) (t : gmap (string * Z) A) : StronglySorted Z.le (seqs_of id t).
Proof. unfold seqs_of. apply Sorted_StronglySorted; [intros ???; lia|]. apply Sorted_merge_sort. intros x y. lia. Qed.
