(* ===== verification/Journal.v ===== *)
(** * The journal: a drill recorded as it happens

    Models internal/journal: the recorder that mirrors the engine's events into
    the database (journal.go) and the history a drift check reads (values.go). No
    failure of the database is an error here: each call to the store happens or
    does not, as [jn_away] says, and the recorder goes on. *)

From Stdlib Require Import ZArith Lia String List.
From stdpp Require Import sorting.
From S2P Require Import Prelude GoTime GoFloat Errors Core Checks Engine Queue Timeline.

(** ** The calls to the store *)

Inductive jwrite :=
| WCreateRun (run : RecoveryRun) (planYAML : string)
| WSetTempWorkload (runID temp node : string)
| WAppendEvent (runID : string) (e : StoredEvent)
| WSaveCheck (runID : string) (seq : Z) (c : CheckResult)
| WSaveStep (runID : string) (seq : Z) (s : Step)
| WSaveCheckValue (runID : string) (seq : Z) (name : string) (v : float64)
| WUpdateRun (run : RecoveryRun).

(** The fields of [Recorder]. *)
Record Recorder := mkRecorder {
  rc_planName : string;
  rc_providerID : string;
  rc_sourceID : string;
  rc_sourceName : string;
  rc_planYAML : string;
  rc_planID : string;
  rc_planVersion : Z;
  rc_runID : string;
  rc_tempWorkloadID : string;
  rc_eventSeq : Z;
  rc_checkSeq : Z;
}.

(** [New]; [AttachTo], [Prepare] and [FromPlan] set their fields. *)
Definition NewRecorder : Recorder := mkRecorder "" "" "" "" "" "" 0 "" "" 0 0.
Definition AttachTo (runID : string) (r : Recorder) : Recorder :=
  mkRecorder (rc_planName r) (rc_providerID r) (rc_sourceID r) (rc_sourceName r) (rc_planYAML r) (rc_planID r)
    (rc_planVersion r) runID (rc_tempWorkloadID r) (rc_eventSeq r) (rc_checkSeq r).
Definition PrepareRecorder (planName providerID sourceID sourceName planYAML : string) (r : Recorder) : Recorder :=
  mkRecorder planName providerID sourceID sourceName planYAML (rc_planID r) (rc_planVersion r) (rc_runID r)
    (rc_tempWorkloadID r) (rc_eventSeq r) (rc_checkSeq r).
Definition FromPlan (planID : string) (version : Z) (r : Recorder) : Recorder :=
  mkRecorder (rc_planName r) (rc_providerID r) (rc_sourceID r) (rc_sourceName r) (rc_planYAML r) planID version
    (rc_runID r) (rc_tempWorkloadID r) (rc_eventSeq r) (rc_checkSeq r).
Definition set_temp (temp : string) (r : Recorder) : Recorder :=
  mkRecorder (rc_planName r) (rc_providerID r) (rc_sourceID r) (rc_sourceName r) (rc_planYAML r) (rc_planID r)
    (rc_planVersion r) (rc_runID r) temp (rc_eventSeq r) (rc_checkSeq r).
Definition set_seqs (eventSeq checkSeq : Z) (r : Recorder) : Recorder :=
  mkRecorder (rc_planName r) (rc_providerID r) (rc_sourceID r) (rc_sourceName r) (rc_planYAML r) (rc_planID r)
    (rc_planVersion r) (rc_runID r) (rc_tempWorkloadID r) eventSeq checkSeq.

(** ** Recording *)

(** The state: the recorder, the database, the calls made so far with whether
    they succeeded. *)
Record Jn := mkJn { jn_rec : Recorder; jn_db : Timeline; jn_log : list (jwrite * bool) }.

Section Journal.
Context `{JSON} (jn_away : nat -> bool).

Definition apply_jwrite (w : jwrite) (t : Timeline) : option Timeline :=
  let on_runs (runs : Table) := mkTimeline runs (tl_steps t) (tl_checks t) (tl_events t) (tl_values t) in
  match w with
  | WCreateRun run y => match CreateRun run y (tl_runs t) with inl _ => None | inr runs => Some (on_runs runs) end
  | WSetTempWorkload id temp node => Some (on_runs (SetTempWorkload id temp node (tl_runs t)))
  | WAppendEvent id e => AppendEvent id e t
  | WSaveCheck id seq c => SaveCheck id seq c t
  | WSaveStep id seq s => SaveStep id seq s t
  | WSaveCheckValue id seq name v => SaveCheckValue id seq name v t
  | WUpdateRun run => Some (on_runs (UpdateRun run (tl_runs t)))
  end.

(** One call to the store: whether it succeeded. *)
Definition store_call (w : jwrite) : M Jn bool := fun s =>
  match (if jn_away (length (jn_log s)) then None else apply_jwrite w (jn_db s)) with
  | Some db => (Ret true, mkJn (jn_rec s) db (jn_log s ++ [(w, true)]))
  | None => (Ret false, mkJn (jn_rec s) (jn_db s) (jn_log s ++ [(w, false)]))
  end.
Definition the_recorder : M Jn Recorder := gets jn_rec.
Definition set_recorder (f : Recorder -> Recorder) : M Jn unit :=
  modify (fun s => mkJn (f (jn_rec s)) (jn_db s) (jn_log s)).

(** The row [Emit] creates when the first event arrives. *)
Definition start_run (r : Recorder) (e : Event) : RecoveryRun :=
  {| run_ID := ev_RunID e; run_PlanName := rc_planName r; run_PlanID := rc_planID r;
     run_PlanVersion := rc_planVersion r; run_ProviderID := rc_providerID r; run_BackupProviderID := "";
     run_SourceWorkloadID := rc_sourceID r; run_SourceName := rc_sourceName r; run_TempWorkloadID := "";
     run_TempName := ""; run_Node := ""; run_Backup := None; run_State := ev_State e; run_Result := ResultNone;
     run_ProofLevel := ProofUnknown; run_StartedAt := ev_At e; run_CompletedAt := Time.zero; run_Steps := [];
     run_Checks := []; run_RTO := 0; run_RTOTarget := 0; run_CleanupDone := false; run_Err := Lit "" |}.

(** The part of [Emit] that names the temporary workload, once. *)
Definition name_temp (e : Event) : M Jn unit :=
  r ← the_recorder;
  if nonempty (ev_TempWorkloadID e) && negb (nonempty (rc_tempWorkloadID r)) then
    _ ← set_recorder (set_temp (ev_TempWorkloadID e));
    _ ← store_call (WSetTempWorkload (rc_runID r) (ev_TempWorkloadID e) (ev_Node e));
    mret tt
  else mret tt.

(** The part of [Emit] that records the event and its check. *)
Definition record_event (e : Event) : M Jn unit :=
  r ← the_recorder;
  let seq := rc_eventSeq r + 1 in
  let checkSeq := rc_checkSeq r in
  _ ← set_recorder (set_seqs seq (match ev_Check e with Some _ => checkSeq + 1 | None => checkSeq end));
  _ ← store_call (WAppendEvent (rc_runID r)
        (mkStoredEvent seq (ev_At e) (ev_State e) (ev_Step e) (ev_Status e) (ev_Message e) (ev_Check e) (ev_Err e)));
  match ev_Check e with
  | Some c => (_ ← store_call (WSaveCheck (rc_runID r) checkSeq c); mret tt)
  | None => mret tt
  end.

Definition emit_named (e : Event) : M Jn unit := _ ← name_temp e; record_event e.

(** [Emit]. *)
Definition Emit (e : Event) : M Jn unit :=
  r ← the_recorder;
  if nonempty (rc_runID r) then emit_named e
  else if negb (nonempty (ev_RunID e)) then mret tt
  else
    _ ← set_recorder (AttachTo (ev_RunID e));
    _ ← store_call (WCreateRun (start_run r e) (rc_planYAML r));
    emit_named e.

(** [capturedValues], by name. *)
Definition capturedValues (c : CheckResult) : list (string * float64) :=
  let m := captured_values c in
  omap (fun name => (fun v => (name, v)) <$> m !! name) (merge_sort String.le (map fst (map_to_list m))).

(** The loops of [Finish]: each stops at the first call that fails. *)
Fixpoint save_steps (runID : string) (i : Z) (steps : list Step) : M Jn unit :=
  match steps with
  | [] => mret tt
  | s :: steps =>
    store_call (WSaveStep runID i s) ≫= fun ok : bool =>
    if ok then save_steps runID (i + 1) steps else mret tt
  end.
Fixpoint save_values (runID : string) (i : Z) (values : list (string * float64)) : M Jn bool :=
  match values with
  | [] => mret false
  | (name, v) :: values =>
    store_call (WSaveCheckValue runID i name v) ≫= fun ok : bool =>
    if ok then save_values runID i values else mret true
  end.
Fixpoint save_checks (runID : string) (i : Z) (valuesFailed : bool) (checks : list CheckResult) : M Jn unit :=
  match checks with
  | [] => mret tt
  | c :: checks =>
    store_call (WSaveCheck runID i c) ≫= fun ok : bool =>
    if negb ok then mret tt else
    (if valuesFailed then mret true else save_values runID i (capturedValues c)) ≫= fun failed : bool =>
    save_checks runID (i + 1) failed checks
  end.

(** [Finish] after the run has its row: the timeline, then the outcome. *)
Definition finish_recorded (run : RecoveryRun) : M Jn unit :=
  _ ← save_steps (run_ID run) 0 (run_Steps run);
  _ ← save_checks (run_ID run) 0 false (run_Checks run);
  _ ← store_call (WUpdateRun run);
  mret tt.

(** [Finish], of a run that is not nil. *)
Definition Finish (run : RecoveryRun) : M Jn unit :=
  r ← the_recorder;
  if nonempty (rc_runID r) then finish_recorded run
  else
    let run := if nonempty (rc_planID r) then set_PlanVersion (rc_planVersion r) (set_PlanID (rc_planID r) run)
               else run in
    store_call (WCreateRun run (rc_planYAML r)) ≫= fun ok : bool =>
    if negb ok then mret tt
    else _ ← set_recorder (AttachTo (run_ID run)); finish_recorded run.

(** The events of a drill, in order. *)
Fixpoint emit_all (es : list Event) : M Jn unit :=
  match es with
  | [] => mret tt
  | e :: es => _ ← Emit e; emit_all es
  end.

(** [Baselines]: the reader of one workload's history, [None] when there is
    nothing to read from. *)
Definition Baselines `{Collation} (store : option Timeline) (workloadID : string) :
    option (string -> string -> Z -> list float64) :=
  match store with
  | None => None
  | Some t =>
    if nonempty workloadID then Some (fun checkName valueName limit => CapturedValues workloadID checkName valueName limit t)
    else None
  end.
End Journal.
