(* ===== verification/JournalTheorems.v ===== *)
(** * What the journal guarantees

    The order of the writes of a drill, what they leave in the database, and the
    journal together with the engine: nothing is created on a cluster that the
    database cannot point back to. *)

From Stdlib Require Import ZArith Lia String List.
From stdpp Require Import sorting.
From S2P Require Import Prelude GoTime GoFloat Errors Core Checks Plan Engine EngineFrame Queue Timeline Journal.

(** ** Replaying a log *)

Section Replay.
Context `{JSON}.

(** What the calls of a log left in the database: those that failed changed
    nothing. *)
Definition replay1 (t : Timeline) (wb : jwrite * bool) : Timeline :=
  if wb.2 then default t (apply_jwrite wb.1 t) else t.
Definition replay (l : list (jwrite * bool)) (t : Timeline) : Timeline := fold_left replay1 l t.

Lemma replay_app l1 l2 t : replay (l1 ++ l2) t = replay l2 (replay l1 t).
Proof. apply fold_left_app. Qed.

(** [s'] is [s] after calls that satisfy [P]. *)
Definition logs (P : jwrite -> Prop) (s s' : Jn) : Prop :=
  exists l, jn_log s' = jn_log s ++ l /\ Forall (fun wb => P wb.1) l /\ jn_db s' = replay l (jn_db s).

#[export] Instance logs_preorder P : PreOrder (logs P).
Proof.
  split.
  - intros s. exists []. by rewrite app_nil_r.
  - intros s1 s2 s3 (l1 & E1 & H1 & D1) (l2 & E2 & H2 & D2). exists (l1 ++ l2).
    rewrite replay_app, <- D1, <- D2, E2, E1, app_assoc. split_and!; [done|by apply Forall_app|done].
Qed.

Context (jn_away : nat -> bool).

(** A computation that returns, and whose calls satisfy [P]. *)
Definition writes (P : jwrite -> Prop) {A} (m : M Jn A) : Prop :=
  forall s, exists a s', m s = (Ret a, s') /\ logs P s s'.

Lemma writes_ret P {A} (a : A) : writes P (mret a).
Proof. intros s. exists a, s. by split. Qed.
Lemma writes_bind P {A B} (m : M Jn A) (k : A -> M Jn B) :
  writes P m -> (forall a, writes P (k a)) -> writes P (mbind k m).
Proof.
  intros Hm Hk s. destruct (Hm s) as (a & s1 & E & H1). destruct (Hk a s1) as (b & s2 & E2 & H2).
  exists b, s2. rewrite (bind_Ret _ _ _ _ _ E). split; [done | by etransitivity].
Qed.
Lemma writes_call P w : P w -> writes P (store_call jn_away w).
Proof.
  intros HP s. unfold store_call. set (r := if jn_away _ then None else _).
  assert (Hr : r = None \/ apply_jwrite w (jn_db s) = r) by (unfold r; destruct (jn_away _); [by left | by right]).
  destruct r as [db|].
  - destruct Hr as [?|Hr]; [done|]. eexists _, _. split; [done|]. exists [(w, true)]. split_and!; [done|by constructor|].
    cbn. unfold replay1. cbn. by rewrite Hr.
  - eexists _, _. split; [done|]. exists [(w, false)]. split_and!; [done|by constructor|done].
Qed.
Lemma writes_recorder P : writes P the_recorder.
Proof. intros s. eexists _, _. by split. Qed.
Lemma writes_set P f : writes P (set_recorder f).
Proof. intros s. eexists _, _. split; [reflexivity|]. exists []. cbn. by rewrite app_nil_r. Qed.
Lemma writes_weaken (P Q : jwrite -> Prop) {A} (m : M Jn A) : (forall w, P w -> Q w) -> writes P m -> writes Q m.
Proof.
  intros HPQ Hm s. destruct (Hm s) as (a & s1 & E & l & E1 & H1 & D1). exists a, s1. split; [done|].
  exists l. split_and!; [done| |done]. eapply Forall_impl; [exact H1|]. auto.
Qed.
End Replay.

Create HintDb writes.
#[export] Hint Resolve writes_ret writes_recorder writes_set : writes.
Ltac writes_step :=
  match goal with
  | |- forall _, _ => intro
  | |- writes _ (mbind _ _) => apply writes_bind
  | |- writes _ (if ?b then _ else _) => destruct b
  | |- writes _ (match ?x with _ => _ end) => destruct x
  | |- writes _ (let _ := _ in _) => cbv zeta
  | |- writes _ (store_call _ _) => apply writes_call
  | |- writes _ _ => solve [eauto 3 with writes]
  | |- _ => done
  end.
Ltac writes_auto := repeat writes_step.

Section Order.
Context `{JSON} (jn_away : nat -> bool).

(** The timeline of the run [id]: neither its row nor another run's. *)
Definition timeline_of (id : string) (w : jwrite) : Prop :=
  match w with
  | WSaveStep i _ _ | WSaveCheck i _ _ | WSaveCheckValue i _ _ _ => i = id
  | _ => False
  end.

Lemma save_steps_writes id i l : writes (timeline_of id) (save_steps jn_away id i l).
Proof. revert i. induction l as [|s l IH]; intros i; cbn [save_steps]; writes_auto. Qed.
Lemma save_values_writes id i l : writes (timeline_of id) (save_values jn_away id i l).
Proof. induction l as [|[name v] l IH]; cbn [save_values]; writes_auto. Qed.
Hint Resolve save_values_writes : writes.
Lemma save_checks_writes id i b l : writes (timeline_of id) (save_checks jn_away id i b l).
Proof.
  revert i b. induction l as [|c l IH]; intros i b; cbn [save_checks]; writes_auto.
Qed.

(** A row of the timeline leaves the runs alone. *)
Lemma timeline_runs id w t t' : timeline_of id w -> apply_jwrite w t = Some t' -> tl_runs t' = tl_runs t.
Proof.
  destruct w; cbn; try done; intros _; unfold SaveStep, SaveCheck, SaveCheckValue; repeat case_match; intros; simplify_eq; done.
Qed.
Lemma replay_timeline id l t : Forall (fun wb => timeline_of id wb.1) l -> tl_runs (replay l t) = tl_runs t.
Proof.
  revert t. induction l as [|[w b] l IH]; intros t Hl; [done|]. inversion Hl as [|? ? Hw Hl']; subst.
  change (tl_runs (replay l (replay1 t (w, b))) = tl_runs t). rewrite IH by done. unfold replay1. cbn. destruct b; [|done].
  destruct (apply_jwrite w t) as [t'|] eqn:E; [|done]. cbn. by eapply timeline_runs.
Qed.

Lemma finish_recorded_order run s :
  exists l b s', finish_recorded jn_away run s = (Ret tt, s') /\ Forall (fun wb => timeline_of (run_ID run) wb.1) l /\
    jn_log s' = jn_log s ++ l ++ [(WUpdateRun run, b)] /\
    jn_db s' = replay (l ++ [(WUpdateRun run, b)]) (jn_db s).
Proof.
  unfold finish_recorded.
  destruct (save_steps_writes (run_ID run) 0 (run_Steps run) s) as (a1 & s1 & E1 & l1 & L1 & P1 & D1).
  rewrite (bind_Ret _ _ _ _ _ E1).
  destruct (save_checks_writes (run_ID run) 0 false (run_Checks run) s1) as (a2 & s2 & E2 & l2 & L2 & P2 & D2).
  rewrite (bind_Ret _ _ _ _ _ E2). unfold store_call, mbind, M_bind.
  exists (l1 ++ l2). destruct (jn_away _); cbn.
  - exists false. eexists. split; [reflexivity|]. cbn. split_and!; [by apply Forall_app| |].
    + by rewrite L2, L1, !app_assoc.
    + by rewrite !replay_app, <- D1, <- D2.
  - exists true. eexists. split; [reflexivity|]. cbn. split_and!; [by apply Forall_app| |].
    + by rewrite L2, L1, !app_assoc.
    + by rewrite !replay_app, <- D1, <- D2.
Qed.
End Order.

(** ** Rows by sequence number *)

(** Rows written one after the other from [i] on. *)
Fixpoint put_seq {A} (id : string) (i : Z) (l : list A) (t : gmap (string * Z) A) : gmap (string * Z) A :=
  match l with
  | [] => t
  | x :: l => put_seq id (i + 1) l (<[(id, i) := x]> t)
  end.

Lemma put_seq_lookup {A} id i (l : list A) t k :
  put_seq id i l t !! (id, k) = if (i <=? k) && (k <? i + Z.of_nat (length l)) then l !! Z.to_nat (k - i) else t !! (id, k).
Proof.
  revert i t. induction l as [|x l IH]; intros i t; cbn [put_seq length].
  - zcases; (done || lia).
  - rewrite IH. destruct (decide (k = i)) as [->|Hk].
    + rewrite lookup_insert_eq, Z.sub_diag. zcases; (done || lia).
    + rewrite lookup_insert_ne by congruence. zcases; try (done || lia).
      replace (Z.to_nat (k - i)) with (S (Z.to_nat (k - (i + 1)))) by lia. done.
Qed.

Lemma put_seq_other {A} id i (l : list A) t id' k : id' <> id -> put_seq id i l t !! (id', k) = t !! (id', k).
Proof.
  intros Hne. revert i t. induction l as [|x l IH]; intros i t; [done|]. cbn [put_seq].
  rewrite IH, lookup_insert_ne by congruence. done.
Qed.

(** A run whose rows are [l], from [i] on, reads back as [l]. *)
Lemma seqs_range {A} (id : string) (i : Z) (l : list A) (t : gmap (string * Z) A) :
  (forall k, t !! (id, k) = if (i <=? k) && (k <? i + Z.of_nat (length l)) then l !! Z.to_nat (k - i) else None) ->
  seqs_of id t = seqZ i (Z.of_nat (length l)).
Proof.
  intros H. apply (StronglySorted_unique Z.le).
  - apply sorted_seqs.
  - apply seqZ_sorted.
  - apply NoDup_Permutation; [apply nodup_seqs | apply NoDup_seqZ|]. intros k. rewrite elem_seqs, elem_of_seqZ, H.
    zcases; (split; [try lia; by intros []|]); intros ?; try lia. apply lookup_lt_is_Some. lia.
Qed.

Lemma omap_range {A} (f : Z -> option A) i (l : list A) :
  (forall j x, l !! j = Some x -> f (i + Z.of_nat j) = Some x) -> omap f (seqZ i (Z.of_nat (length l))) = l.
Proof.
  revert i. induction l as [|x l IH]; intros i H; [done|]. cbn [length].
  rewrite seqZ_cons by lia. cbn. pose proof (H 0%nat x eq_refl) as H0. change (i + Z.of_nat 0) with (i + 0) in H0.
  rewrite Z.add_0_r in H0. rewrite H0. f_equal.
  replace (Z.pred (Z.of_nat (S (length l)))) with (Z.of_nat (length l)) by lia. apply IH.
  intros j y Hj. specialize (H (S j) y Hj). rewrite <- H. f_equal. lia.
Qed.

Lemma by_seq_range {A} (id : string) (l : list A) (t : gmap (string * Z) A) :
  (forall k, t !! (id, k) = if (0 <=? k) && (k <? Z.of_nat (length l)) then l !! Z.to_nat k else None) ->
  by_seq id t = l.
Proof.
  intros H. unfold by_seq. rewrite (seqs_range id 0 l) by (intros k; by rewrite H, Z.sub_0_r).
  apply omap_range. intros j x Hj. rewrite H. pose proof (lookup_lt_Some _ _ _ Hj).
  zcases; try lia. rewrite Z.add_0_l, Nat2Z.id. done.
Qed.

(** ** A drill recorded while the database answers *)

Section Recorded.
Context `{JSON} (jn_away : nat -> bool) (up : forall n, jn_away n = false).

(** What the database keeps of a step, a check and an event. *)
Definition kept_step (s : Step) : Step := stored_step s (default ∅ (json_details (st_Details s))).
Definition kept_check (c : CheckResult) : CheckResult := stored_check c (default ∅ (json_details (cr_Details c))).
Definition numbered (seq : Z) (e : Event) : StoredEvent :=
  mkStoredEvent seq (ev_At e) (ev_State e) (ev_Step e) (ev_Status e) (ev_Message e) (ev_Check e ≫= json_check) (ev_Err e).
Fixpoint numbered_from (seq : Z) (es : list Event) : list StoredEvent :=
  match es with [] => [] | e :: es => numbered seq e :: numbered_from (seq + 1) es end.

Definition step_encodable (s : Step) : Prop := is_Some (json_details (st_Details s)).
Definition check_encodable (c : CheckResult) : Prop := is_Some (json_details (cr_Details c)) /\ is_Some (json_check c).

Lemma call_ok w s t :
  apply_jwrite w (jn_db s) = Some t -> store_call jn_away w s = (Ret true, mkJn (jn_rec s) t (jn_log s ++ [(w, true)])).
Proof. intros E. unfold store_call. by rewrite up, E. Qed.

Lemma save_steps_run id i l s :
  Forall step_encodable l -> has_run id (jn_db s) = true ->
  exists log, save_steps jn_away id i l s = (Ret tt, mkJn (jn_rec s)
    (mkTimeline (tl_runs (jn_db s)) (put_seq id i (map kept_step l) (tl_steps (jn_db s))) (tl_checks (jn_db s))
       (tl_events (jn_db s)) (tl_values (jn_db s))) log).
Proof.
  revert i s. induction l as [|x l IH]; intros i s Hl Hr; cbn [save_steps].
  - exists (jn_log s). by destruct s as [? [] ?].
  - inversion Hl as [|? ? [d Hd] Hl']; subst. erewrite bind_Ret; [|apply call_ok; cbn; unfold SaveStep; by rewrite Hd, Hr].
    assert (Hk : kept_step x = stored_step x d) by (unfold kept_step; by rewrite Hd). cbn [put_seq map]. rewrite Hk.
    match goal with |- context [save_steps _ _ _ _ ?s1] => destruct (IH (i + 1) s1 Hl') as [log E]; [exact Hr|] end.
    rewrite E. by exists log.
Qed.

Lemma save_values_run id i l s :
  has_run id (jn_db s) = true ->
  exists log vals, save_values jn_away id i l s = (Ret false, mkJn (jn_rec s)
    (mkTimeline (tl_runs (jn_db s)) (tl_steps (jn_db s)) (tl_checks (jn_db s)) (tl_events (jn_db s)) vals) log).
Proof.
  revert s. induction l as [|[name v] l IH]; intros s Hr; cbn [save_values].
  - exists (jn_log s), (tl_values (jn_db s)). by destruct s as [? [] ?].
  - erewrite bind_Ret; [|apply call_ok; cbn; unfold SaveCheckValue; by rewrite Hr]. cbn.
    match goal with |- context [save_values _ _ _ _ ?s1] => destruct (IH s1) as (log & vals & E); [exact Hr|] end.
    rewrite E. by exists log, vals.
Qed.

Lemma save_checks_run id i l s :
  Forall check_encodable l -> has_run id (jn_db s) = true ->
  exists log vals, save_checks jn_away id i false l s = (Ret tt, mkJn (jn_rec s)
    (mkTimeline (tl_runs (jn_db s)) (tl_steps (jn_db s)) (put_seq id i (map kept_check l) (tl_checks (jn_db s)))
       (tl_events (jn_db s)) vals) log).
Proof.
  revert i s. induction l as [|x l IH]; intros i s Hl Hr; cbn [save_checks].
  - exists (jn_log s), (tl_values (jn_db s)). by destruct s as [? [] ?].
  - inversion Hl as [|? ? [[d Hd] _] Hl']; subst. erewrite bind_Ret; [|apply call_ok; cbn; unfold SaveCheck; by rewrite Hd, Hr].
    assert (Hk : kept_check x = stored_check x d) by (unfold kept_check; by rewrite Hd). cbn [negb put_seq map]. rewrite Hk.
    match goal with |- context [mbind _ _ ?s1] => destruct (save_values_run id i (capturedValues x) s1) as (log1 & v1 & E1); [exact Hr|] end.
    erewrite bind_Ret; [|exact E1]. cbn.
    match goal with |- context [save_checks _ _ _ _ _ ?s1] => destruct (IH (i + 1) s1 Hl') as (log & vals & E); [exact Hr|] end.
    rewrite E. by exists log, vals.
Qed.

(** What one event leaves: its line, its check, and the name of the temporary
    workload the first time there is one. *)
Definition named_runs (id : string) (e : Event) (r : Recorder) (runs : Table) : Table :=
  if nonempty (ev_TempWorkloadID e) && negb (nonempty (rc_tempWorkloadID r))
  then SetTempWorkload id (ev_TempWorkloadID e) (ev_Node e) runs else runs.
Definition named_rec (e : Event) (r : Recorder) : Recorder :=
  if nonempty (ev_TempWorkloadID e) && negb (nonempty (rc_tempWorkloadID r)) then set_temp (ev_TempWorkloadID e) r else r.

Definition event_encodable (e : Event) : Prop := forall c, ev_Check e = Some c -> check_encodable c.

Lemma has_run_named id i e r t :
  has_run i t = true ->
  has_run i (mkTimeline (named_runs id e r (tl_runs t)) (tl_steps t) (tl_checks t) (tl_events t) (tl_values t)) = true.
Proof.
  unfold has_run, named_runs. rewrite !bool_decide_eq_true. cbn. intros Hr. destruct (_ && _); [|done].
  unfold SetTempWorkload. rewrite update_spec. destruct (decide _); [|done]. by rewrite fmap_is_Some.
Qed.

Lemma name_temp_run e s :
  exists log, name_temp jn_away e s = (Ret tt, mkJn (named_rec e (jn_rec s))
    (mkTimeline (named_runs (rc_runID (jn_rec s)) e (jn_rec s) (tl_runs (jn_db s))) (tl_steps (jn_db s)) (tl_checks (jn_db s))
       (tl_events (jn_db s)) (tl_values (jn_db s))) log).
Proof.
  destruct s as [r [runs steps checks events values] log0]. unfold name_temp, named_rec, named_runs. cbn.
  unfold mbind, M_bind. cbn. destruct (_ && _); cbn; [|by eexists].
  unfold store_call. rewrite up. cbn. by eexists.
Qed.

Definition check_count (e : Event) : Z := match ev_Check e with Some _ => 1 | None => 0 end.

Lemma record_event_run id e s :
  rc_runID (jn_rec s) = id -> has_run id (jn_db s) = true -> event_encodable e ->
  tl_events (jn_db s) !! (id, rc_eventSeq (jn_rec s) + 1) = None ->
  exists log, record_event jn_away e s = (Ret tt, mkJn
    (set_seqs (rc_eventSeq (jn_rec s) + 1) (rc_checkSeq (jn_rec s) + check_count e) (jn_rec s))
    (mkTimeline (tl_runs (jn_db s)) (tl_steps (jn_db s))
       (put_seq id (rc_checkSeq (jn_rec s)) (map kept_check (option_list (ev_Check e))) (tl_checks (jn_db s)))
       (<[(id, rc_eventSeq (jn_rec s) + 1) := numbered (rc_eventSeq (jn_rec s) + 1) e]> (tl_events (jn_db s)))
       (tl_values (jn_db s))) log).
Proof.
  intros <- Hr He Hn. unfold record_event, check_count, numbered.
  unfold the_recorder. erewrite (bind_Ret (gets jn_rec)) by reflexivity. cbv zeta.
  unfold set_recorder. erewrite (bind_Ret (modify _)) by reflexivity. cbn [jn_rec jn_db jn_log].
  destruct (ev_Check e) as [c|] eqn:Ec.
  - destruct (He c Ec) as [[d Hd] [c' Hc']].
    assert (Hk : kept_check c = stored_check c d) by (unfold kept_check; by rewrite Hd).
    erewrite bind_Ret; [|apply call_ok; cbn; unfold AppendEvent; cbn [se_Check]; rewrite Hc', Hr; cbn [se_Seq]; by rewrite Hn].
    erewrite bind_Ret; [|apply call_ok; cbn; unfold SaveCheck; rewrite Hd; unfold has_run in Hr |- *; cbn [tl_runs]; by rewrite Hr].
    eexists. cbn. rewrite Hk, Hc'. reflexivity.
  - erewrite bind_Ret; [|apply call_ok; cbn; unfold AppendEvent; cbn [se_Check]; rewrite Hr; cbn [se_Seq]; by rewrite Hn].
    eexists. cbn. rewrite Z.add_0_r. reflexivity.
Qed.

Lemma Emit_run id e s :
  rc_runID (jn_rec s) = id -> id <> "" -> has_run id (jn_db s) = true -> event_encodable e ->
  tl_events (jn_db s) !! (id, rc_eventSeq (jn_rec s) + 1) = None ->
  exists log, Emit jn_away e s = (Ret tt, mkJn
    (set_seqs (rc_eventSeq (jn_rec s) + 1) (rc_checkSeq (jn_rec s) + check_count e) (named_rec e (jn_rec s)))
    (mkTimeline (named_runs id e (jn_rec s) (tl_runs (jn_db s))) (tl_steps (jn_db s))
       (put_seq id (rc_checkSeq (jn_rec s)) (map kept_check (option_list (ev_Check e))) (tl_checks (jn_db s)))
       (<[(id, rc_eventSeq (jn_rec s) + 1) := numbered (rc_eventSeq (jn_rec s) + 1) e]> (tl_events (jn_db s)))
       (tl_values (jn_db s))) log).
Proof.
  intros Hid Hne Hr He Hn. unfold Emit, the_recorder. erewrite (bind_Ret (gets jn_rec)) by reflexivity.
  rewrite Hid, (proj2 (nonempty_spec id) Hne). unfold emit_named.
  destruct (name_temp_run e s) as [log1 E1]. rewrite (bind_Ret _ _ _ _ _ E1). rewrite Hid.
  set (s1 := mkJn _ _ log1).
  assert (F : rc_runID (named_rec e (jn_rec s)) = id /\ rc_eventSeq (named_rec e (jn_rec s)) = rc_eventSeq (jn_rec s) /\
    rc_checkSeq (named_rec e (jn_rec s)) = rc_checkSeq (jn_rec s)) by (unfold named_rec; by destruct (_ && _)).
  destruct F as (F1 & F2 & F3).
  destruct (record_event_run id e s1) as [log2 E2]; [done|by apply has_run_named|done|cbn; by rewrite F2|].
  exists log2. rewrite E2. cbn. by rewrite F2, F3.
Qed.

Lemma put_seq_app {A} (id : string) i (l1 l2 : list A) t :
  put_seq id i (l1 ++ l2) t = put_seq id (i + Z.of_nat (length l1)) l2 (put_seq id i l1 t).
Proof.
  revert i t. induction l1 as [|x l1 IH]; intros i t; cbn [app put_seq length].
  - by rewrite Z.add_0_r.
  - rewrite IH. f_equal. lia.
Qed.

(** A row that an update leaves as it would the row [r]. *)
Definition updates_like (r r' : Row) : Prop := forall run, updated_row run r' = updated_row run r.

Lemma named_runs_row id e rc runs r :
  runs !! id = Some r -> exists r', named_runs id e rc runs !! id = Some r' /\ updates_like r r'.
Proof.
  intros E. unfold named_runs. destruct (_ && _); [|by exists r]. unfold SetTempWorkload.
  rewrite update_spec, decide_True, E by done. cbn. by eexists.
Qed.

(** The state a list of events leaves. *)
Record recorded (id : string) (es : list Event) (s s' : Jn) : Prop := {
  rd_id : rc_runID (jn_rec s') = id;
  rd_run : forall r, tl_runs (jn_db s) !! id = Some r -> exists r', tl_runs (jn_db s') !! id = Some r' /\ updates_like r r';
  rd_steps : tl_steps (jn_db s') = tl_steps (jn_db s);
  rd_checks : tl_checks (jn_db s') =
    put_seq id (rc_checkSeq (jn_rec s)) (map kept_check (omap ev_Check es)) (tl_checks (jn_db s));
  rd_events : tl_events (jn_db s') =
    put_seq id (rc_eventSeq (jn_rec s) + 1) (numbered_from (rc_eventSeq (jn_rec s) + 1) es) (tl_events (jn_db s));
}.

Lemma emit_all_run id es s r :
  rc_runID (jn_rec s) = id -> id <> "" -> tl_runs (jn_db s) !! id = Some r -> Forall event_encodable es ->
  (forall k, rc_eventSeq (jn_rec s) < k -> tl_events (jn_db s) !! (id, k) = None) ->
  exists s', emit_all jn_away es s = (Ret tt, s') /\ recorded id es s s'.
Proof.
  revert s r. induction es as [|e es IH]; intros s r Hid Hne Hr Hes Hev; cbn [emit_all].
  { exists s. split; [done|]. split; [done| |done..]. intros r0 Hr0. by exists r0. }
  inversion Hes as [|? ? He Hes']; subst.
  destruct (Emit_run _ e s eq_refl Hne) as [log E]; [unfold has_run; rewrite Hr; by apply bool_decide_eq_true|done|apply Hev; lia|].
  rewrite (bind_Ret _ _ _ _ _ E). set (s1 := mkJn _ _ log) in *. set (id := rc_runID (jn_rec s)) in *.
  destruct (named_runs_row id e (jn_rec s) _ r Hr) as (r1 & Hr1 & Hu1).
  assert (Hid1 : rc_runID (jn_rec s1) = id) by (cbn; unfold named_rec; by destruct (_ && _)).
  destruct (IH s1 r1 Hid1 Hne Hr1 Hes') as (s2 & E2 & [A1 A2 A3 A4 A5]).
  { intros k Hk. cbn in Hk |- *. rewrite lookup_insert_ne by (intros [=]; lia). apply Hev. lia. }
  exists s2. split; [done|]. split; [done| | | |].
  - intros r0 Hr0. simplify_eq. destruct (A2 r1 Hr1) as (r2 & Hr2 & Hu2). exists r2. split; [done|].
    intros run. by rewrite Hu2, Hu1.
  - by rewrite A3.
  - rewrite A4. cbn. destruct (ev_Check e) as [c|] eqn:Ec; unfold check_count; rewrite Ec; cbn; [done|by rewrite Z.add_0_r].
  - rewrite A5. cbn. done.
Qed.

Lemma length_numbered seq es : length (numbered_from seq es) = length es.
Proof. revert seq. induction es as [|e es IH]; intros seq; cbn; [done|by rewrite IH]. Qed.

Lemma events_range (id : string) (es : list Event) (t : gmap (string * Z) StoredEvent) :
  (forall k, t !! (id, k) = None) ->
  omap (fun seq => if 0 <? seq then put_seq id 1 (numbered_from 1 es) t !! (id, seq) else None)
    (seqs_of id (put_seq id 1 (numbered_from 1 es) t)) = numbered_from 1 es.
Proof.
  intros Ht. rewrite (seqs_range id 1 (numbered_from 1 es)) by (intros k; by rewrite put_seq_lookup, Ht).
  apply omap_range. intros j x Hj. pose proof (lookup_lt_Some _ _ _ Hj). rewrite put_seq_lookup. zcases; try lia.
  replace (Z.to_nat (1 + Z.of_nat j - 1)) with j by lia. done.
Qed.

(** The run that the history shows: the run that ended, under the plan, the
    workload and the start of its row [r], to the millisecond. *)
Definition as_recorded (run : RecoveryRun) (r : Row) : RecoveryRun :=
  {| run_ID := run_ID run; run_PlanName := row_plan_name r; run_PlanID := row_plan_id r;
     run_PlanVersion := row_plan_version r; run_ProviderID := row_provider_id r;
     run_BackupProviderID := row_backup_provider_id r; run_SourceWorkloadID := row_source_workload_id r;
     run_SourceName := run_SourceName run; run_TempWorkloadID := run_TempWorkloadID run;
     run_TempName := run_TempName run; run_Node := run_Node run; run_Backup := run_Backup run;
     run_State := run_State run; run_Result := run_Result run; run_ProofLevel := run_ProofLevel run;
     run_StartedAt := row_started_at r; run_CompletedAt := run_CompletedAt run;
     run_Steps := map kept_step (run_Steps run); run_Checks := map kept_check (run_Checks run);
     run_RTO := truncate_ms (run_RTO run); run_RTOTarget := truncate_ms (run_RTOTarget run);
     run_CleanupDone := run_CleanupDone run; run_Err := run_Err run |}.

Definition in_range (d : Z) : Prop := Duration.minDuration <= d <= Duration.maxDuration.

Lemma read_updated id run r steps checks :
  run_ID run = id -> (run_ProofLevel run = ProofUnknown \/ Recorded (run_ProofLevel run) = true) ->
  in_range (run_RTO run) -> in_range (run_RTOTarget run) ->
  steps = map kept_step (run_Steps run) -> checks = map kept_check (run_Checks run) ->
  read_run id (updated_row run r) steps checks = as_recorded run r.
Proof.
  intros <- Hp H1 H2 -> ->. unfold read_run, as_recorded. cbn. rewrite !ms_roundtrip, nulltime_roundtrip by done.
  f_equal. destruct Hp as [->|Hp]; [done|]. by destruct (run_ProofLevel run).
Qed.

Lemma Finish_run run s r :
  rc_runID (jn_rec s) = run_ID run -> run_ID run <> "" -> tl_runs (jn_db s) !! run_ID run = Some r ->
  Forall step_encodable (run_Steps run) -> Forall check_encodable (run_Checks run) ->
  exists log vals, Finish jn_away run s = (Ret tt, mkJn (jn_rec s)
    (mkTimeline (UpdateRun run (tl_runs (jn_db s)))
       (put_seq (run_ID run) 0 (map kept_step (run_Steps run)) (tl_steps (jn_db s)))
       (put_seq (run_ID run) 0 (map kept_check (run_Checks run)) (tl_checks (jn_db s)))
       (tl_events (jn_db s)) vals) log).
Proof.
  intros Hid Hne Hr Hs Hc. unfold Finish, the_recorder. erewrite (bind_Ret (gets jn_rec)) by reflexivity.
  rewrite Hid, (proj2 (nonempty_spec _) Hne). unfold finish_recorded.
  assert (Hh : has_run (run_ID run) (jn_db s) = true) by (unfold has_run; rewrite Hr; by apply bool_decide_eq_true).
  destruct (save_steps_run (run_ID run) 0 (run_Steps run) s Hs Hh) as [log1 E1]. rewrite (bind_Ret _ _ _ _ _ E1).
  match goal with |- context [mbind _ _ ?s1] =>
    destruct (save_checks_run (run_ID run) 0 (run_Checks run) s1 Hc Hh) as (log2 & vals & E2) end.
  rewrite (bind_Ret _ _ _ _ _ E2). erewrite bind_Ret; [|apply call_ok; cbn; reflexivity]. cbn. by eexists _, vals.
Qed.
End Recorded.

(** ** Theorems *)

Section Theorems.
Context `{JSON} (jn_away : nat -> bool).

(** From one state to another, a run was recorded: the timeline first, then the
    outcome, once and last. Wherever the writes stop before it, the table of runs is
    still as it was. *)
Definition outcome_last (run : RecoveryRun) (s s' : Jn) : Prop :=
  exists ws b, jn_log s' = jn_log s ++ ws ++ [(WUpdateRun run, b)] /\
    jn_db s' = replay (ws ++ [(WUpdateRun run, b)]) (jn_db s) /\
    Forall (fun wb => timeline_of (run_ID run) wb.1) ws /\
    forall k, tl_runs (replay (list.take k ws) (jn_db s)) = tl_runs (jn_db s).
Lemma finish_recorded_last run s : exists s', finish_recorded jn_away run s = (Ret tt, s') /\ outcome_last run s s'.
Proof.
  destruct (finish_recorded_order jn_away run s) as (ws & b & s' & E & Hw & Hl & Hd).
  exists s'. split; [done|]. exists ws, b. split_and!; [done..|]. intros k. eapply replay_timeline.
  rewrite <- (take_drop k ws) in Hw. by apply Forall_app in Hw as [Hw _].
Qed.

(** The run as [Finish] files it when it has no row: under the plan it came from. *)
Definition filed (r : Recorder) (run : RecoveryRun) : RecoveryRun :=
  if nonempty (rc_planID r) then set_PlanVersion (rc_planVersion r) (set_PlanID (rc_planID r) run) else run.

(** C23: the outcome of a drill is its last write. However the database fails,
    finishing a run that the recorder knows writes the timeline first and the outcome
    last, once: at whatever point the process dies before that write, no row of the
    runs table has changed, so no run that had a row is seen settled without its
    story. A run of which nothing was recorded yet is given its row first, in one
    write: when that write fails nothing else is tried and the database is as it was,
    and when it succeeds the timeline and the outcome follow it as above (that row
    says how the run ended from the start). *)
Theorem Finish_outcome_last run s :
  exists s', Finish jn_away run s = (Ret tt, s') /\
  if nonempty (rc_runID (jn_rec s)) then outcome_last run s s'
  else
    let run := filed (jn_rec s) run in
    let row := WCreateRun run (rc_planYAML (jn_rec s)) in
    (jn_log s' = jn_log s ++ [(row, false)] /\ jn_db s' = jn_db s) \/
    exists s1, apply_jwrite row (jn_db s) = Some (jn_db s1) /\ jn_log s1 = jn_log s ++ [(row, true)] /\ outcome_last run s1 s'.
Proof.
  unfold Finish, the_recorder. erewrite (bind_Ret (gets jn_rec)) by reflexivity.
  destruct (nonempty (rc_runID (jn_rec s))); [apply finish_recorded_last|]. cbv zeta. fold (filed (jn_rec s) run).
  set (run' := filed (jn_rec s) run). set (row := WCreateRun run' _). unfold store_call, mbind at 1, M_bind at 1.
  destruct (jn_away _); [eexists; split; [reflexivity|]; by left|].
  destruct (apply_jwrite row (jn_db s)) as [db|] eqn:Ea; [|eexists; split; [reflexivity|]; by left].
  cbn [negb]. set (s1 := mkJn (AttachTo (run_ID run') (jn_rec s)) db (jn_log s ++ [(row, true)])).
  destruct (finish_recorded_last run' s1) as (s' & E & Hs'). exists s'. split; [exact E|]. right. by exists s1.
Qed.

(** C24: the history tells the whole drill. When the database answers and every
    detail can be encoded, a queued run that is recorded as it happens and then
    finished reads back, by its identifier, as the run that ended: its verdict
    and its times, every step and every check in order, under the plan, the
    workload and the start of its row; and its events replay in the order
    they were emitted, numbered from one. *)
Theorem journal_roundtrip d id run es s r :
  (forall n, jn_away n = false) -> id <> "" -> run_ID run = id -> rc_runID (jn_rec s) = id ->
  rc_eventSeq (jn_rec s) = 0 -> rc_checkSeq (jn_rec s) = 0 -> tl_runs (jn_db s) !! id = Some r ->
  (forall k, tl_steps (jn_db s) !! (id, k) = None /\ tl_checks (jn_db s) !! (id, k) = None /\
     tl_events (jn_db s) !! (id, k) = None) ->
  Forall event_encodable es -> Forall step_encodable (run_Steps run) -> Forall check_encodable (run_Checks run) ->
  (length (omap ev_Check es) <= length (run_Checks run))%nat ->
  (run_ProofLevel run = ProofUnknown \/ Recorded (run_ProofLevel run) = true) ->
  in_range (run_RTO run) -> in_range (run_RTOTarget run) ->
  exists s', (_ ← emit_all jn_away es; Finish jn_away run) s = (Ret tt, s') /\
    GetWholeRun d id (jn_db s') = inr (as_recorded run r) /\
    Events id 0 (jn_db s') = numbered_from 1 es.
Proof.
  intros Hup Hne Hrun Hid Hes Hcs Hr Hfresh He Hs Hc Hlen Hp H1 H2.
  destruct (emit_all_run jn_away Hup id es s r Hid Hne Hr He) as (s1 & E1 & [A1 A2 A3 A4 A5]).
  { intros k _. apply Hfresh. }
  destruct (A2 r Hr) as (r1 & Hr1 & Hu1). rewrite Hcs in A4. rewrite Hes in A5. subst id.
  destruct (Finish_run jn_away Hup run s1 r1 A1 Hne Hr1 Hs Hc) as (log & vals & E2).
  eexists. rewrite (bind_Ret _ _ _ _ _ E1). split; [exact E2|]. cbn [jn_db]. split.
  - assert (Hl : UpdateRun run (tl_runs (jn_db s1)) !! run_ID run = Some (updated_row run r)).
    { unfold UpdateRun. rewrite update_spec, decide_True, Hr1 by done. cbn. by rewrite Hu1. }
    unfold GetWholeRun, GetRun, resolveRunID. cbn [tl_runs]. rewrite Hl, Hl, Hl. f_equal. apply read_updated; try done.
    + apply by_seq_range. intros k. cbn [tl_steps]. rewrite put_seq_lookup, A3, Z.add_0_l, Z.sub_0_r.
      zcases; try done; apply Hfresh.
    + apply by_seq_range. intros k. cbn [tl_checks]. rewrite put_seq_lookup, A4, put_seq_lookup, !Z.add_0_l, !Z.sub_0_r, !length_map.
      zcases; try done; try lia; apply Hfresh.
  - unfold Events. cbn [tl_events]. rewrite A5. apply events_range. intros k. apply Hfresh.
Qed.
End Theorems.

(** ** The theorems at work *)

Module Recording.
#[local] Instance plain : JSON := {| json_details d := Some d; json_check c := Some c |}.

Definition ended : RecoveryRun :=
  {| run_ID := "r1"; run_PlanName := "nightly"; run_PlanID := ""; run_PlanVersion := 0;
     run_ProviderID := "pve"; run_BackupProviderID := ""; run_SourceWorkloadID := "101";
     run_SourceName := ""; run_TempWorkloadID := "9001"; run_TempName := "restorelab-101"; run_Node := "pve1";
     run_Backup := None; run_State := RunSuccess; run_Result := ResultSuccess; run_ProofLevel := ProofData;
     run_StartedAt := 5; run_CompletedAt := 9;
     run_Steps := [mkStep "restore" RunRestoring StepDone 5 7 2 (Lit "") (Lit "") ∅];
     run_Checks := [mkCheckResult "ssh" "tcp" CheckPass 7 8 1 1 (Lit "up") ∅];
     run_RTO := 4000000; run_RTOTarget := 0; run_CleanupDone := true; run_Err := Lit "" |}.
Definition row0 : Row := queued_row ended "yaml" 1.
Definition queued : Jn := mkJn (AttachTo "r1" NewRecorder) (mkTimeline {["r1" := row0]} ∅ ∅ ∅ ∅) [].
Definition line (step : string) (check : option CheckResult) : Event :=
  mkEvent "r1" 6 RunRestoring step StepRunning (Lit "") check (Lit "") "9001" "pve1".
Definition lines : list Event := [line "restore" None; line "run_checks" (head (run_Checks ended))].

(** The database is away every other call: the outcome is still tried last; and a
    run that was never recorded. *)
Lemma Finish_outcome_last_witness :
  (exists s', Finish Nat.even ended queued = (Ret tt, s') /\ outcome_last ended queued s') /\
  exists s1 s', Finish (fun _ => false) ended (mkJn NewRecorder (mkTimeline ∅ ∅ ∅ ∅ ∅) []) = (Ret tt, s') /\
    is_Some (tl_runs (jn_db s1) !! "r1") /\ outcome_last ended s1 s'.
Proof.
  split; [exact (Finish_outcome_last Nat.even ended queued)|].
  destruct (Finish_outcome_last (fun _ => false) ended (mkJn NewRecorder (mkTimeline ∅ ∅ ∅ ∅ ∅) []))
    as (s' & E & [[Hl _]|(s1 & Ha & _ & Ho)]).
  - exfalso. vm_compute in E. injection E as <-. vm_compute in Hl. discriminate.
  - exists s1, s'. split; [exact E|]. split; [|exact Ho].
    apply (f_equal (fun o => match o with Some t => tl_runs t !! "r1" | None => None end)) in Ha.
    rewrite <- Ha. eexists. vm_compute. reflexivity.
Defined.

Lemma journal_roundtrip_witness :
  exists s', (_ ← emit_all (fun _ => false) lines; Finish (fun _ => false) ended) queued = (Ret tt, s') /\
    GetWholeRun SQLite "r1" (jn_db s') = inr (as_recorded ended row0) /\
    Events "r1" 0 (jn_db s') = numbered_from 1 lines.
Proof.
  apply (journal_roundtrip (fun _ => false) SQLite "r1" ended lines queued row0); try reflexivity; try discriminate.
  - intros k. split_and!; apply lookup_empty.
  - apply Forall_cons. split; [intros c E; discriminate E|]. apply Forall_singleton. intros c _.
    split; eexists; reflexivity.
  - apply Forall_singleton. eexists. reflexivity.
  - apply Forall_singleton. split; eexists; reflexivity.
  - right. reflexivity.
  - split; vm_compute; discriminate.
  - split; vm_compute; discriminate.
Defined.
End Recording.
