(* ===== verification/JournalEngine.v ===== *)
(** * The journal listening to the engine

    [Engine.Run] emits, [Journal.Emit] writes: at any point of any run, what the
    database was told of the temporary workload, and in particular at the point
    where the restore is submitted. *)

From Stdlib Require Import ZArith Lia String List.
From S2P Require Import Prelude GoTime GoFloat Errors Core Checks Plan Engine EngineFrame EngineShape.
From S2P Require Import EngineSafety EngineEvents Queue Timeline Journal JournalTheorems.

(** What a listener hears of a trace. *)
Definition heard (t : list obs) : list Event :=
  omap (fun o => match o with OEvent e => Some e | OCall _ _ _ => None end) t.

Lemma heard_app t1 t2 : heard (t1 ++ t2) = heard t1 ++ heard t2.
Proof. unfold heard. by rewrite omap_app. Qed.
Lemma elem_heard e t : e ∈ heard t <-> OEvent e ∈ t.
Proof.
  unfold heard. rewrite list_elem_of_omap. split; [|by exists (OEvent e)].
  intros ([e'|? ? ?] & H & [=]); by subst.
Qed.

(** The names a log gives to temporary workloads. *)
Definition names_in (l : list (jwrite * bool)) : list (string * string * string) :=
  omap (fun wb => match wb.1 with WSetTempWorkload id temp node => Some (id, temp, node) | _ => None end) l.

Lemma names_app l1 l2 : names_in (l1 ++ l2) = names_in l1 ++ names_in l2.
Proof. unfold names_in. by rewrite omap_app. Qed.

(** An event of the run [id] that names [temp] on [node], or nothing. *)
Definition about (id temp node : string) (e : Event) : Prop :=
  ev_RunID e = id /\ (ev_TempWorkloadID e = "" \/ (ev_TempWorkloadID e = temp /\ ev_Node e = node)).

(** ** What one event, then many, have written down *)

Section Names.
Context `{JSON} (jn_away : nat -> bool) (id temp node : string).
Hypothesis id_nonempty : id <> "".
Hypothesis temp_nonempty : temp <> "".

(** What the recorder of the drill writes while it listens. *)
Definition drill_write (w : jwrite) : Prop :=
  match w with
  | WCreateRun run _ => run_ID run = id
  | WSetTempWorkload i t n => i = id /\ t = temp /\ n = node
  | WAppendEvent i _ | WSaveCheck i _ _ => i = id
  | _ => False
  end.

(** The recorder before and after [es]: it attached itself to the run, and wrote
    the workload's name down the first time it heard it. *)
Definition listening (r : Recorder) : Prop :=
  (rc_runID r = "" \/ rc_runID r = id) /\ (rc_tempWorkloadID r = "" \/ rc_tempWorkloadID r = temp).
Definition hears (e : Event) (r : Recorder) : bool := nonempty (ev_TempWorkloadID e) && negb (nonempty (rc_tempWorkloadID r)).
Definition hears_any (es : list Event) (r : Recorder) : bool :=
  existsb (fun e => nonempty (ev_TempWorkloadID e)) es && negb (nonempty (rc_tempWorkloadID r)).

Record wrote (names : list (string * string * string)) (s s' : Jn) (k : list (jwrite * bool)) : Prop := {
  wr_log : jn_log s' = jn_log s ++ k;
  wr_db : jn_db s' = replay k (jn_db s);
  wr_writes : Forall (fun wb => drill_write wb.1) k;
  wr_names : names_in k = names;
}.

Lemma wrote_trans n1 n2 s1 s2 s3 k1 k2 :
  wrote n1 s1 s2 k1 -> wrote n2 s2 s3 k2 -> wrote (n1 ++ n2) s1 s3 (k1 ++ k2).
Proof.
  intros [L1 D1 F1 N1] [L2 D2 F2 N2]. split.
  - by rewrite L2, L1, app_assoc.
  - by rewrite replay_app, <- D1.
  - by apply Forall_app.
  - by rewrite names_app, N1, N2.
Qed.

(** A computation that returns, of which the names and the recorder are known. *)
Definition tells (names : list (string * string * string)) {A} (m : M Jn A) (s : Jn) (r : Recorder) : Prop :=
  exists a s' k, m s = (Ret a, s') /\ wrote names s s' k /\ jn_rec s' = r.

Lemma tells_bind n1 n2 {A B} (m : M Jn A) (f : A -> M Jn B) s r1 r2 :
  tells n1 m s r1 -> (forall a s1, jn_rec s1 = r1 -> tells n2 (f a) s1 r2) -> tells (n1 ++ n2) (mbind f m) s r2.
Proof.
  intros (a & s1 & k1 & E1 & W1 & R1) Hf. destruct (Hf a s1 R1) as (b & s2 & k2 & E2 & W2 & R2).
  exists b, s2, (k1 ++ k2). rewrite (bind_Ret _ _ _ _ _ E1). split_and!; [done|by eapply wrote_trans|done].
Qed.

Lemma tells_call w s : drill_write w -> tells (names_in [(w, true)]) (store_call jn_away w) s (jn_rec s).
Proof.
  intros Hw. unfold tells, store_call. set (o := if jn_away _ then None else _).
  assert (Ho : o = None \/ o = apply_jwrite w (jn_db s)) by (unfold o; destruct (jn_away _); [by left | by right]).
  destruct o as [db|]; eexists _, _, [(w, _)].
  - split; [reflexivity|]. destruct Ho as [?|Ho]; [done|]. split; [|done]. split; [done| |by constructor|done].
    unfold replay, replay1. cbn. by rewrite <- Ho.
  - split; [reflexivity|]. split; [|done]. split; [done..|by constructor|by destruct w].
Qed.

Lemma tells_set f s : tells [] (set_recorder f) s (f (jn_rec s)).
Proof. exists tt, (mkJn (f (jn_rec s)) (jn_db s) (jn_log s)), []. split_and!; [done| |done]. split; [by rewrite app_nil_r|done..]. Qed.
Lemma tells_ret {A} (a : A) s : tells [] (mret a) s (jn_rec s).
Proof. exists a, s, []. split_and!; [done| |done]. split; [by rewrite app_nil_r|done..]. Qed.
Lemma tells_recorder {B} n (f : Recorder -> M Jn B) s r : tells n (f (jn_rec s)) s r -> tells n (r ← the_recorder; f r) s r.
Proof. done. Qed.

Definition told (b : bool) : list (string * string * string) := if b then [(id, temp, node)] else [].

Lemma name_temp_tells e s :
  about id temp node e -> rc_runID (jn_rec s) = id ->
  tells (told (hears e (jn_rec s))) (name_temp jn_away e) s (if hears e (jn_rec s) then set_temp temp (jn_rec s) else jn_rec s).
Proof.
  intros [_ He] Hid. unfold name_temp. apply tells_recorder. fold (hears e (jn_rec s)).
  destruct (hears e (jn_rec s)) eqn:Hh; [|apply tells_ret].
  destruct He as [He|[-> ->]]; [unfold hears in Hh; by rewrite He in Hh|]. rewrite Hid.
  apply (tells_bind [] _ _ _ _ (set_temp temp (jn_rec s))); [apply tells_set|]. intros _ s1 <-.
  apply (tells_bind (told true) [] _ _ _ (jn_rec s1)); [by apply (tells_call (WSetTempWorkload id temp node))|].
  intros _ s2 <-. apply tells_ret.
Qed.

Lemma record_event_tells e s :
  rc_runID (jn_rec s) = id ->
  tells [] (record_event jn_away e) s (set_seqs (rc_eventSeq (jn_rec s) + 1)
    (match ev_Check e with Some _ => rc_checkSeq (jn_rec s) + 1 | None => rc_checkSeq (jn_rec s) end) (jn_rec s)).
Proof.
  intros Hid. unfold record_event. apply tells_recorder. cbv zeta. rewrite Hid.
  eapply (tells_bind [] []); [apply tells_set|]. intros _ s1 <-.
  eapply (tells_bind [] []); [by apply (tells_call (WAppendEvent id _))|]. intros _ s2 <-.
  destruct (ev_Check e); [|apply tells_ret].
  eapply (tells_bind [] []); [by apply (tells_call (WSaveCheck id _ _))|]. intros _ s3 <-. apply tells_ret.
Qed.

Definition after_event (e : Event) (r : Recorder) : Recorder :=
  let r := if hears e r then set_temp temp r else r in
  set_seqs (rc_eventSeq r + 1) (match ev_Check e with Some _ => rc_checkSeq r + 1 | None => rc_checkSeq r end) r.

Lemma after_event_rec e r :
  rc_runID (after_event e r) = rc_runID r /\
  rc_tempWorkloadID (after_event e r) = if hears e r then temp else rc_tempWorkloadID r.
Proof. unfold after_event. by destruct (hears e r). Qed.

Lemma emit_named_tells e s :
  about id temp node e -> rc_runID (jn_rec s) = id ->
  tells (told (hears e (jn_rec s))) (emit_named jn_away e) s (after_event e (jn_rec s)).
Proof.
  intros He Hid. unfold emit_named. rewrite <- (app_nil_r (told _)).
  eapply tells_bind; [by apply name_temp_tells|]. intros _ s1 E. unfold after_event. rewrite <- E.
  apply record_event_tells. rewrite E. by destruct (hears e (jn_rec s)).
Qed.

Lemma Emit_tells e s :
  about id temp node e -> listening (jn_rec s) ->
  tells (told (hears e (jn_rec s))) (Emit jn_away e) s (after_event e (AttachTo id (jn_rec s))).
Proof.
  intros He [Hid _]. unfold Emit. apply tells_recorder. destruct Hid as [Hid|Hid]; rewrite Hid.
  - cbn [nonempty negb]. assert (Hr : ev_RunID e = id) by apply He.
    rewrite Hr, (proj2 (nonempty_spec id) id_nonempty). cbn [negb].
    eapply (tells_bind []); [apply tells_set|]. intros _ s1 E1.
    eapply (tells_bind []); [apply tells_call; cbn; exact Hr|]. intros _ s2 E2. rewrite E1 in E2.
    change (hears e (jn_rec s)) with (hears e (AttachTo id (jn_rec s))). rewrite <- E2.
    apply emit_named_tells; [done|by rewrite E2].
  - rewrite (proj2 (nonempty_spec id) id_nonempty).
    replace (AttachTo id (jn_rec s)) with (jn_rec s); [by apply emit_named_tells|].
    destruct s as [[] ? ?]. cbn in *. by subst.
Qed.

Lemma emit_all_tells es s :
  Forall (about id temp node) es -> listening (jn_rec s) ->
  exists r, tells (told (hears_any es (jn_rec s))) (emit_all jn_away es) s r.
Proof.
  intros Hes. revert s. induction Hes as [|e es He Hes IH]; intros s Hs; cbn [emit_all].
  { exists (jn_rec s). apply tells_ret. }
  destruct (Emit_tells e s He Hs) as (a & s1 & k1 & E1 & W1 & R1).
  assert (F : listening (jn_rec s1) /\
    hears_any es (jn_rec s1) = hears_any es (jn_rec s) && negb (hears e (jn_rec s))).
  { rewrite R1. destruct (after_event_rec e (AttachTo id (jn_rec s))) as [Hi Ht]. unfold listening, hears_any.
    rewrite Hi, Ht. change (hears e (AttachTo id (jn_rec s))) with (hears e (jn_rec s)).
    destruct (hears e (jn_rec s)).
    - rewrite (proj2 (nonempty_spec _) temp_nonempty), !andb_false_r. auto.
    - rewrite andb_true_r. cbn. split; [|done]. split; [by right | apply Hs]. }
  destruct F as [Hl Hh]. destruct (IH s1 Hl) as [r (a2 & s2 & k2 & E2 & W2 & R2)].
  exists r, a2, s2, (k1 ++ k2). rewrite (bind_Ret _ _ _ _ _ E1). split_and!; [done| |done].
  replace (told (hears_any (e :: es) (jn_rec s))) with
    (told (hears e (jn_rec s)) ++ told (hears_any es (jn_rec s1))); [by eapply wrote_trans|].
  rewrite Hh. unfold hears_any, hears. cbn.
  destruct (nonempty (ev_TempWorkloadID e)), (nonempty (rc_tempWorkloadID (jn_rec s))), (existsb _ es); done.
Qed.

(** ** The row points back *)

Definition points (r : Row) : Prop := row_temp_workload_id r = temp /\ row_node r = node.

Lemma replay_points k t r :
  Forall (fun wb => drill_write wb.1) k -> tl_runs t !! id = Some r ->
  (WSetTempWorkload id temp node, true) ∈ k \/ points r ->
  exists r', tl_runs (replay k t) !! id = Some r' /\ points r'.
Proof.
  revert t r. induction k as [|[w b] k IH]; intros t r Hk Hr Hp.
  { destruct Hp as [Hp|Hp]; [inversion Hp | by exists r]. }
  inversion Hk as [|? ? Hw Hk']; subst. cbn in Hw.
  change (exists r', tl_runs (replay k (replay1 t (w, b))) !! id = Some r' /\ points r').
  assert (Hstep : exists r1, tl_runs (replay1 t (w, b)) !! id = Some r1 /\
    (points r -> points r1) /\ ((w, b) = (WSetTempWorkload id temp node, true) -> points r1)).
  { unfold replay1. cbn. destruct b; [|exists r; split_and!; [done..|intros [=]]].
    destruct w; cbn in Hw |- *; try done.
    - exists r. split_and!; [|done|intros [=]]. unfold CreateRun, insert_row. rewrite Hw, Hr. done.
    - destruct Hw as (-> & -> & ->). unfold SetTempWorkload. rewrite update_spec, decide_True, Hr by done. cbn.
      eexists. split; [done|]. by split_and!.
    - exists r. split_and!; [|done|intros [=]]. unfold AppendEvent. repeat case_match; done.
    - exists r. split_and!; [|done|intros [=]]. unfold SaveCheck. repeat case_match; done. }
  destruct Hstep as (r1 & Hr1 & H1 & H2). apply (IH _ r1); [done..|].
  destruct Hp as [Hp|Hp]; [|auto]. apply elem_of_cons in Hp as [Hp|Hp]; [symmetry in Hp|]; auto.
Qed.
End Names.

(** ** Theorems *)

Section Theorems.
Context {W : Type} `{!EngineEnv W} `{JSON} (jn_away : nat -> bool).

(** What a listener heard before the restore is of this run. *)
Lemma heard_about p opts w pre b ro r post :
  let run := es_run (Run p opts w).2 in
  es_trace (Run p opts w).2 = pre ++ OCall CtxRun (CallRestore b ro) r :: post -> ro_TargetWorkloadID ro <> "" ->
  run_TempWorkloadID run = ro_TargetWorkloadID ro /\
  Forall (about (run_ID run) (ro_TargetWorkloadID ro) (run_Node run)) (heard pre) /\
  exists e, e ∈ heard pre /\ ev_TempWorkloadID e = ro_TargetWorkloadID ro.
Proof.
  intros run E Hne. assert (Hann : exists e, e ∈ heard pre /\ ev_TempWorkloadID e = ro_TargetWorkloadID ro).
  { destruct (trace_cases p opts w) as [[Hr _]|(id & node & x & tail & Hs & Ht)].
    - rewrite E in Hr. apply Forall_app in Hr as [_ Hr]. inversion Hr as [|? ? Hc]; done.
    - destruct (submitted_unique _ _ _ _ _ _ _ _ _ _ _ _ _ Hs Ht E) as (-> & [= -> -> ->] & _).
      destruct Hs as [_ [_ _ (e & He & ? & _) _] _ Hid _ _ _ _]. exists e. rewrite elem_heard, Hid. by split. }
  pose proof (run_names p opts w) as Hn. unfold Good in Hn. fold run in Hn. rewrite E in Hn.
  apply Forall_app in Hn as [Hn _].
  assert (Hsays : forall e, e ∈ heard pre -> ev_RunID e = run_ID run /\
    (ev_TempWorkloadID e = "" \/ ev_TempWorkloadID e = run_TempWorkloadID run /\ ev_Node e = run_Node run)).
  { intros e He%elem_heard. rewrite Forall_forall in Hn. specialize (Hn _ He). cbn in Hn.
    destruct Hn as [(? & ? & _)|(? & ? & ?)]; [auto|]. split; [done|]. right. auto. }
  assert (Htemp : run_TempWorkloadID run = ro_TargetWorkloadID ro).
  { destruct Hann as (e & He & Et). destruct (Hsays e He) as [_ [E0|[E0 _]]]; congruence. }
  split_and!; [done| |done]. rewrite <- Htemp. apply Forall_forall. exact Hsays.
Qed.

(** C10: nothing is created on a cluster before the journal was told how to find
    it again. At the moment a run submits its restore, however the providers and
    the database behave, the recorder that heard the run so far has asked the
    database exactly once to name a temporary workload, and that name is the
    restore's target on the run's node, under the run's identifier; and when the
    call succeeded, the row of the run points at the workload. *)
Theorem workload_written_down p opts w pre b ro r post s :
  let run := es_run (Run p opts w).2 in
  es_trace (Run p opts w).2 = pre ++ OCall CtxRun (CallRestore b ro) r :: post ->
  run_ID run <> "" -> ro_TargetWorkloadID ro <> "" ->
  rc_runID (jn_rec s) = "" \/ rc_runID (jn_rec s) = run_ID run -> rc_tempWorkloadID (jn_rec s) = "" ->
  exists s' k, emit_all jn_away (heard pre) s = (Ret tt, s') /\ jn_log s' = jn_log s ++ k /\
    names_in k = [(run_ID run, ro_TargetWorkloadID ro, run_Node run)] /\
    forall row, tl_runs (jn_db s) !! run_ID run = Some row ->
      (WSetTempWorkload (run_ID run) (ro_TargetWorkloadID ro) (run_Node run), true) ∈ k ->
      exists row', tl_runs (jn_db s') !! run_ID run = Some row' /\
        row_temp_workload_id row' = ro_TargetWorkloadID ro /\ row_node row' = run_Node run.
Proof.
  intros run E Hid Htemp Hrec Hnew. destruct (heard_about p opts w _ _ _ _ _ E Htemp) as (_ & Hall & Hann). fold run in Hall.
  destruct (emit_all_tells jn_away (run_ID run) (ro_TargetWorkloadID ro) (run_Node run) Hid Htemp (heard pre) s Hall)
    as (rc & [] & s' & k & Es & [L D F N] & _).
  { split; [done | by left]. }
  exists s', k. split_and!; [done..| |].
  - rewrite N. unfold told, hears_any. rewrite Hnew.
    replace (existsb _ (heard pre)) with true; [done|]. symmetry. apply existsb_exists.
    destruct Hann as (e & He & Et). exists e. rewrite <- list_elem_of_In, Et. by rewrite (proj2 (nonempty_spec _) Htemp).
  - intros row Hrow Hk. rewrite D. eapply replay_points; [exact F | exact Hrow | by left].
Qed.
End Theorems.

(** ** The theorem at work *)

Module Listening.
#[local] Instance plain : JSON := {| json_details d := Some d; json_check c := Some c |}.

(** The trace of the drill of [EngineFrame] around its restore, and its names. *)
Definition sim_restore : RestoreOptions :=
  restoreOptions sim_plan sim_opts (mkPrepared "9001" "restorelab-101-20240425000000"
    (workloadMetadata "run-1" "101" (739000 * Time.day_ns)) "pve1").
Lemma sim_split :
  let t := es_trace (Run sim_plan sim_opts sim_world).2 in
  t = list.take 9 t ++ OCall CtxRun (CallRestore sim_backup sim_restore) EndOk :: list.drop 10 t.
Proof. vm_compute. reflexivity. Qed.
Lemma sim_id : run_ID (es_run (Run sim_plan sim_opts sim_world).2) = "run-1".
Proof. vm_refl. Qed.
Lemma sim_node : run_Node (es_run (Run sim_plan sim_opts sim_world).2) = "pve1".
Proof. vm_refl. Qed.

(** A drill that hears of its own run, the database away every third call. *)
Lemma workload_written_down_witness :
  let pre := list.take 9 (es_trace (Run sim_plan sim_opts sim_world).2) in
  exists s' k, emit_all (fun n => bool_decide (n mod 3 = 1)%nat) (heard pre)
      (mkJn NewRecorder (mkTimeline ∅ ∅ ∅ ∅ ∅) []) = (Ret tt, s') /\
    jn_log s' = k /\ names_in k = [("run-1", "9001", "pve1")].
Proof.
  intros pre. pose proof (workload_written_down (fun n => bool_decide (n mod 3 = 1)%nat) sim_plan sim_opts sim_world _ _ _ _ _
    (mkJn NewRecorder (mkTimeline ∅ ∅ ∅ ∅ ∅) []) sim_split) as H.
  cbv zeta in H. rewrite sim_id, sim_node in H.
  specialize (H ltac:(discriminate) ltac:(discriminate) (or_introl eq_refl) eq_refl).
  destruct H as (s' & k & H1 & H2 & H3 & _).
  exists s', k. exact (conj H1 (conj H2 H3)).
Defined.
End Listening.
