(* ===== verification/Worker.v ===== *)
(** * The workers, the queue and the cluster

    Models internal/worker (worker.go, run.go, reconcile.go) over the table of
    [Queue]: any number of worker processes share the database, each runs
    drills in threads, sweeps for interrupted runs, and can die at any point.
    Every write to the database is a step of its own, and may be lost. What
    happened to the clusters and who took what is the log of the system.

    A thread that runs a drill is the function [execute]; the engine inside it
    is one phase, in which the thread mirrors states, names the temporary
    workload and renews its lease. *)

From Stdlib Require Import ZArith Lia String List.
From stdpp Require Import relations.
From S2P Require Import Prelude GoTime Errors Core Queue.

(** ** State *)

(** Where a claimed drill is: claimed, marked in flight, run by the engine,
    returned, recorded; or failed before the engine started. *)
Inductive tphase :=
| TTaken (q : QueuedRun)
| TMarked (q : QueuedRun)
| TRunning
| TFinishing (run : RecoveryRun)
| TUpdated
| TFailing
| TFailed.

(** Where the sweep of a process is: between two sweeps, going through the runs
    that were stale, or settling one of them. *)
Inductive rphase :=
| RIdle
| RSweep (l : list QueuedRun)
| RSettle (q : QueuedRun) (l : list QueuedRun)
| RGot (q : QueuedRun) (temp node : string) (l : list QueuedRun)
| RState (q : QueuedRun) (state : RunState) (reason : text) (l : list QueuedRun)
| RError (q : QueuedRun) (reason : text) (l : list QueuedRun)
| RLease (q : QueuedRun) (l : list QueuedRun).

Record Proc := mkProc {
  p_owner : string;
  p_lease : Z;
  p_inFlight : gset string;
  p_threads : gmap string tphase;
  p_sweep : rphase;
}.

(** What the rest of the world can observe: a run was cancelled before anybody
    took it, a process claimed a run, started the engine on a plan, or deleted
    a workload. *)
Inductive effect :=
| ECancelled (id : string)
| EClaim (pid : nat) (id : string)
| EStart (pid : nat) (id plan : string)
| EDelete (pid : nat) (id temp : string).

Record Sys := mkSys { s_db : Table; s_procs : gmap nat Proc; s_log : list effect }.

Definition sys_init : Sys := mkSys ∅ ∅ [].

(** ** Threads (run.go) *)

Definition interrupted : text := Lit "interrupted: the worker running this drill did not survive".
Definition reason_unreachable (temp node : string) (err : error) : text :=
  Sprintf "%s; the temporary workload %s on node %s could not be reached to be removed: %v"
    [AText interrupted; AStr temp; AStr node; AText (Error err)].
Definition reason_orphan (temp node : string) (err : error) : text :=
  Sprintf "%s; ORPHANED WORKLOAD: %s on node %s could not be removed: %v"
    [AText interrupted; AStr temp; AStr node; AText (Error err)].

(** One step of the thread that executes [id]: what it writes, what the world
    sees, and where it is next ([None] when it is over). *)
Inductive thread_step (pid : nat) (p : Proc) (id : string) :
    tphase -> option statement -> option effect -> option tphase -> Prop :=
| ts_mark q : thread_step pid p id (TTaken q) None None (Some (TMarked q))
| ts_start q : thread_step pid p id (TMarked q) None (Some (EStart pid id (q_PlanSnapshot q))) (Some TRunning)
| ts_fail q : thread_step pid p id (TMarked q) None None (Some TFailing)
| ts_fail_state : thread_step pid p id TFailing (Some (StSetState id RunFailed)) None (Some TFailed)
| ts_fail_lease : thread_step pid p id TFailed (Some (StFinishLease id)) None None
| ts_mirror state : thread_step pid p id TRunning (Some (StSetState id state)) None (Some TRunning)
| ts_temp temp node :
    thread_step pid p id TRunning (Some (StSetTempWorkload id temp node)) None (Some TRunning)
| ts_renew until :
    thread_step pid p id TRunning (Some (StRenewLease id (p_owner p) until)) None (Some TRunning)
| ts_return run : run_ID run = id -> thread_step pid p id TRunning None None (Some (TFinishing run))
| ts_update run : thread_step pid p id (TFinishing run) (Some (StUpdateRun run)) None (Some TUpdated)
| ts_lease : thread_step pid p id TUpdated (Some (StFinishLease id)) None None.

(** The process after that step: [markInFlight], [clearInFlight] and the phase. *)
Definition thread_moved (p : Proc) (id : string) (next : option tphase) : Proc :=
  match next with
  | Some ph =>
    mkProc (p_owner p) (p_lease p) ({[id]} ∪ p_inFlight p) (<[id := ph]> (p_threads p)) (p_sweep p)
  | None => mkProc (p_owner p) (p_lease p) (p_inFlight p ∖ {[id]}) (delete id (p_threads p)) (p_sweep p)
  end.

(** ** The sweep (reconcile.go) *)

Inductive sweep_step (pid : nat) (p : Proc) (db : Table) :
    rphase -> option statement -> option effect -> rphase -> Prop :=
| ss_begin now : sweep_step pid p db RIdle None None (RSweep (StaleRuns now db))
| ss_end : sweep_step pid p db (RSweep []) None None RIdle
| ss_skip q l : q_ID q ∈ p_inFlight p -> sweep_step pid p db (RSweep (q :: l)) None None (RSweep l)
| ss_settle q l : q_ID q ∉ p_inFlight p -> sweep_step pid p db (RSweep (q :: l)) None None (RSettle q l)
| ss_unread q l : sweep_step pid p db (RSettle q l) None None (RSweep l)
| ss_read q l r : db !! q_ID q = Some r ->
    sweep_step pid p db (RSettle q l) None None (RGot q (row_temp_workload_id r) (row_node r) l)
| ss_nothing q node l : sweep_step pid p db (RGot q "" node l) None None (RState q RunFailed interrupted l)
| ss_unreachable q temp node l err : temp <> "" ->
    sweep_step pid p db (RGot q temp node l) None None (RState q RunFailed (reason_unreachable temp node err) l)
| ss_deleted q temp node l : temp <> "" ->
    sweep_step pid p db (RGot q temp node l) None (Some (EDelete pid (q_ID q) temp))
      (RState q RunFailed interrupted l)
| ss_orphan q temp node l err : temp <> "" ->
    sweep_step pid p db (RGot q temp node l) None (Some (EDelete pid (q_ID q) temp))
      (RState q RunCleanupFailed (reason_orphan temp node err) l)
| ss_state q state reason l :
    sweep_step pid p db (RState q state reason l) (Some (StSetState (q_ID q) state)) None (RError q reason l)
| ss_error q reason l :
    sweep_step pid p db (RError q reason l) (Some (StSetRunError (q_ID q) reason)) None (RLease q l)
| ss_lease q l : sweep_step pid p db (RLease q l) (Some (StFinishLease (q_ID q))) None (RSweep l).

Definition swept (p : Proc) (next : rphase) : Proc :=
  mkProc (p_owner p) (p_lease p) (p_inFlight p) (p_threads p) next.

(** ** The system *)

(** A write happens, or is lost (the database is away: every caller goes on). *)
Definition wrote (st : option statement) (db db' : Table) : Prop :=
  db' = db \/ exists s, st = Some s /\ db' = apply_statement s db.

Definition logged (e : option effect) (log : list effect) : list effect :=
  match e with Some e => e :: log | None => log end.

Inductive step : Sys -> Sys -> Prop :=
| sys_enqueue s run y at_ : step s (mkSys (apply_statement (StEnqueue run y at_) (s_db s)) (s_procs s) (s_log s))
| sys_cancel s id at_ :
    step s (mkSys (RequestCancel id at_ (s_db s)).2 (s_procs s)
              (logged (match (RequestCancel id at_ (s_db s)).1 with inr true => Some (ECancelled id) | _ => None end)
                 (s_log s)))
| sys_spawn s pid owner lease :
    s_procs s !! pid = None ->
    step s (mkSys (s_db s) (<[pid := (mkProc owner lease ∅ ∅ RIdle)]> (s_procs s)) (s_log s))
| sys_crash s pid : step s (mkSys (s_db s) (delete pid (s_procs s)) (s_log s))
| sys_claim s pid p now q db' :
    s_procs s !! pid = Some p ->
    ClaimRun (p_owner p) (p_lease p) now (s_db s) = (inr q, db') ->
    step s (mkSys db'
              (<[pid := (mkProc (p_owner p) (p_lease p) (p_inFlight p)
                          (<[q_ID q := TTaken q]> (p_threads p)) (p_sweep p))]> (s_procs s))
              (EClaim pid (q_ID q) :: s_log s))
| sys_thread s pid p id ph st e next db' :
    s_procs s !! pid = Some p -> p_threads p !! id = Some ph ->
    thread_step pid p id ph st e next -> wrote st (s_db s) db' ->
    step s (mkSys db' (<[pid := thread_moved p id next]> (s_procs s)) (logged e (s_log s)))
| sys_sweep s pid p st e next db' :
    s_procs s !! pid = Some p ->
    sweep_step pid p (s_db s) (p_sweep p) st e next -> wrote st (s_db s) db' ->
    step s (mkSys db' (<[pid := swept p next]> (s_procs s)) (logged e (s_log s))).

Definition reachable (s : Sys) : Prop := rtc step sys_init s.

(** The runs that were claimed, those an engine was started on, and those that
    were cancelled before anybody took them. *)
Definition claims (log : list effect) : list string :=
  omap (fun e => match e with EClaim _ id => Some id | _ => None end) log.
Definition starts (log : list effect) : list string :=
  omap (fun e => match e with EStart _ id _ => Some id | _ => None end) log.
Definition cancels (log : list effect) : list string :=
  omap (fun e => match e with ECancelled id => Some id | _ => None end) log.

(** ** The invariant *)

(** A run that ended before anybody took it. *)
Definition dead (r : Row) : Prop := settled_row r = true /\ row_lease_owner r = None.
(** A thread that has not started the engine yet. *)
Definition waiting (ph : tphase) : option QueuedRun :=
  match ph with TTaken q | TMarked q => Some q | _ => None end.

Record inv (s : Sys) : Prop := {
  inv_claims : NoDup (claims (s_log s));
  inv_owned : forall id, id ∈ claims (s_log s) -> exists r, s_db s !! id = Some r /\ row_lease_owner r <> None;
  inv_thread : forall pid p id ph, s_procs s !! pid = Some p -> p_threads p !! id = Some ph ->
    EClaim pid id ∈ s_log s;
  inv_starts : NoDup (starts (s_log s)) /\ forall id, id ∈ starts (s_log s) -> id ∈ claims (s_log s);
  inv_waiting : forall pid p id ph q, s_procs s !! pid = Some p -> p_threads p !! id = Some ph ->
    waiting ph = Some q -> (id ∉ starts (s_log s)) /\ q_ID q = id /\
    exists r, s_db s !! id = Some r /\ row_plan_snapshot r = q_PlanSnapshot q;
  inv_returned : forall pid p id run, s_procs s !! pid = Some p -> p_threads p !! id = Some (TFinishing run) ->
    run_ID run = id;
  inv_plan : forall pid id plan, EStart pid id plan ∈ s_log s ->
    EClaim pid id ∈ s_log s /\ exists r, s_db s !! id = Some r /\ row_plan_snapshot r = plan;
  inv_dead : forall id, id ∈ cancels (s_log s) -> exists r, s_db s !! id = Some r /\ dead r;
  inv_flying : forall pid p id ph, s_procs s !! pid = Some p -> p_threads p !! id = Some ph ->
    (forall q, ph <> TTaken q) -> id ∈ p_inFlight p;
}.

(** ** What a write keeps of the table *)

Definition db_le (db db' : Table) : Prop := forall id r, db !! id = Some r ->
  exists r', db' !! id = Some r' /\ row_plan_snapshot r' = row_plan_snapshot r /\
    (row_lease_owner r <> None -> row_lease_owner r' <> None).

Lemma db_le_refl db : db_le db db.
Proof. intros id r E. by exists r. Qed.

Lemma db_le_apply st db : db_le db (apply_statement st db).
Proof.
  intros id r E. destruct (apply_row_le st db id r E) as (r' & E' & [H1 _ _ _ H2 _]).
  exists r'. split_and!; [done..|]. intros H. by rewrite H2.
Qed.

Lemma db_le_wrote st db db' : wrote st db db' -> db_le db db'.
Proof. intros [->|(s & _ & ->)]; [apply db_le_refl | apply db_le_apply]. Qed.

(** A dead run stays dead: it is not queued, it has no owner to renew or to
    finish it, and only the thread that owns a run updates it. *)
Lemma dead_apply st db id r :
  db !! id = Some r -> dead r -> (forall run, st = StUpdateRun run -> run_ID run <> id) ->
  exists r', apply_statement st db !! id = Some r' /\ dead r'.
Proof.
  intros E [Hs Ho] Hu.
  assert (Hup : forall k m f, (forall r, m r = true -> k = id -> dead r -> dead (f r)) ->
    exists r', (update k m f db).2 !! id = Some r' /\ dead r').
  { intros k m f Hf. rewrite update_spec, E. destruct (decide (id = k)) as [->|]; cbn; [|by exists r].
    eexists. split; [done|]. destruct (m r) eqn:Em; [|done]. by apply Hf. }
  assert (Hun : unclaimed r = false).
  { unfold unclaimed. destruct (bool_decide (row_state r = RunQueued)) eqn:Eq; [|done].
    apply bool_decide_eq_true in Eq. unfold settled_row in Hs. by rewrite Eq in Hs. }
  destruct st as [run y at_|run y|run|k temp node|k state|k m|k at_|owner lease now|k owner until|k];
    cbn [apply_statement].
  - destruct (insert_row_le false (run_ID run) (queued_row run y at_) db id r E) as (r' & E' & [_ _ _ _ _ H]).
    unfold Enqueue, insert_row in *. destruct (db !! run_ID run) eqn:Ei; cbn in *; [by exists r|].
    exists r. split; [|done]. rewrite lookup_insert_ne; congruence.
  - unfold CreateRun, insert_row. destruct (db !! run_ID run) eqn:Ei; cbn; [by exists r|].
    exists r. split; [|done]. rewrite lookup_insert_ne; congruence.
  - unfold UpdateRun. rewrite update_spec, decide_False, E by (intros ->; by eapply Hu). by exists r.
  - apply Hup. intros ? _ _ [? ?]. by split.
  - apply Hup. intros r0 Hr _ [Hs0 _]. by rewrite Hs0 in Hr.
  - apply Hup. intros ? _ _ [? ?]. by split.
  - pose proof (RequestCancel_cases k at_ db) as H. destruct (RequestCancel k at_ db) as [[e|[]] db']; cbn.
    + destruct H as [-> _]. by exists r.
    + destruct H as (r0 & E0 & H0 & ->). destruct (decide (k = id)) as [->|]; [congruence|].
      exists r. by rewrite lookup_insert_ne.
    + destruct H as (r0 & E0 & _ & H0 & -> & _). destruct (decide (k = id)) as [->|]; [congruence|].
      exists r. by rewrite lookup_insert_ne.
  - destruct (ClaimRun_row owner lease now db id r E) as (r' & E' & [->|[H _]]); [by exists r | congruence].
  - unfold RenewLease. pose proof (Hup k (fun r => bool_decide (row_lease_owner r = Some owner))
      (fun r => with_lease (row_lease_owner r) (Some until) r)) as H.
    destruct (update k _ _ db) as [n db']. cbn in H. destruct (n =? 1); apply H; intros ? _ _ [? ?]; by split.
  - apply Hup. intros ? _ _ [? ?]. by split.
Qed.

Definition dead_le (ids : list string) (db db' : Table) : Prop :=
  forall id r, id ∈ ids -> db !! id = Some r -> dead r -> exists r', db' !! id = Some r' /\ dead r'.

Lemma dead_le_wrote ids st db db' :
  wrote st db db' -> (forall run, st = Some (StUpdateRun run) -> run_ID run ∉ ids) -> dead_le ids db db'.
Proof.
  intros [->|(s & -> & ->)] Hu id r Hid E Hd; [by exists r|].
  apply (dead_apply s db id r E Hd). intros run -> <-. by apply (Hu run).
Qed.

(** ** The logs *)

Lemma elem_claims log id : id ∈ claims log <-> exists pid, EClaim pid id ∈ log.
Proof.
  unfold claims. rewrite list_elem_of_omap. split.
  - intros (e & He & E). destruct e; simplify_eq. eauto.
  - intros (pid & H). by exists (EClaim pid id).
Qed.
Lemma elem_starts log id : id ∈ starts log <-> exists pid plan, EStart pid id plan ∈ log.
Proof.
  unfold starts. rewrite list_elem_of_omap. split.
  - intros (e & He & E). destruct e; simplify_eq. eauto.
  - intros (pid & plan & H). by exists (EStart pid id plan).
Qed.

(** Owned rows were not cancelled before they were taken. *)
Lemma inv_owned_alive s id : inv s -> id ∈ claims (s_log s) -> id ∉ cancels (s_log s).
Proof.
  intros I Hc Hx. destruct (inv_owned _ I id Hc) as (r & E & Ho). destruct (inv_dead _ I id Hx) as (r' & E' & Hd).
  simplify_eq. by destruct Hd.
Qed.

(** ** Preservation *)

(** A step that starts, claims and cancels nothing: each thread it leaves was
    there, and only moved forward. *)
Lemma inv_quiet s db' procs' log' :
  inv s -> db_le (s_db s) db' -> dead_le (cancels (s_log s)) (s_db s) db' ->
  claims log' = claims (s_log s) -> starts log' = starts (s_log s) -> cancels log' = cancels (s_log s) ->
  (forall e, e ∈ s_log s -> e ∈ log') -> (forall pid id plan, EStart pid id plan ∈ log' -> EStart pid id plan ∈ s_log s) ->
  (forall pid p' id ph, procs' !! pid = Some p' -> p_threads p' !! id = Some ph ->
     exists p ph0, s_procs s !! pid = Some p /\ p_threads p !! id = Some ph0 /\
       (waiting ph = waiting ph0 \/ waiting ph = None) /\ (forall run, ph = TFinishing run -> run_ID run = id) /\
       ((forall q, ph <> TTaken q) -> id ∈ p_inFlight p')) ->
  inv (mkSys db' procs' log').
Proof.
  intros I Hdb Hdead Hc Hs Hx Hin Hst Hth. split; cbn [s_db s_procs s_log]; rewrite ?Hc, ?Hs, ?Hx.
  - apply I.
  - intros id Hid. destruct (inv_owned _ I id Hid) as (r & E & Ho).
    destruct (Hdb id r E) as (r' & E' & _ & H). eauto.
  - intros pid p' id ph Hp Ht. destruct (Hth _ _ _ _ Hp Ht) as (p & ph0 & Hp0 & Ht0 & _).
    apply Hin. by eapply inv_thread.
  - apply I.
  - intros pid p' id ph q Hp Ht Hw. destruct (Hth _ _ _ _ Hp Ht) as (p & ph0 & Hp0 & Ht0 & [Hq|Hq] & _);
      [|congruence]. rewrite Hq in Hw. destruct (inv_waiting _ I _ _ _ _ _ Hp0 Ht0 Hw) as (? & ? & r & E & Er).
    destruct (Hdb id r E) as (r' & E' & Hsn & _). split_and!; [done..|]. exists r'. split; [done | congruence].
  - intros pid p' id run Hp Ht. destruct (Hth _ _ _ _ Hp Ht) as (p & ph0 & _ & _ & _ & Hr & _). auto.
  - intros pid id plan H. destruct (inv_plan _ I pid id plan (Hst _ _ _ H)) as (Hcl & r & E & Er).
    split; [auto|]. destruct (Hdb id r E) as (r' & E' & Hsn & _). exists r'. split; [done | congruence].
  - intros id Hid. destruct (inv_dead _ I id Hid) as (r & E & Hd). by apply (Hdead id r).
  - intros pid p' id ph Hp Ht Hq. destruct (Hth _ _ _ _ Hp Ht) as (p & ph0 & _ & _ & _ & _ & Hf). auto.
Qed.

Lemma inv_init : inv sys_init.
Proof.
  split; cbn [s_db s_procs s_log sys_init]; try (intros; simplify_map_eq; fail).
  - constructor.
  - by intros id ?%elem_of_nil.
  - split; [constructor | by intros id ?%elem_of_nil].
  - by intros pid id plan ?%elem_of_nil.
  - by intros id ?%elem_of_nil.
Qed.

(** Threads that a step leaves where they were. *)
Lemma same_thread s pid p id ph :
  inv s -> s_procs s !! pid = Some p -> p_threads p !! id = Some ph ->
  exists p0 ph0, s_procs s !! pid = Some p0 /\ p_threads p0 !! id = Some ph0 /\
    (waiting ph = waiting ph0 \/ waiting ph = None) /\ (forall run, ph = TFinishing run -> run_ID run = id) /\
    ((forall q, ph <> TTaken q) -> id ∈ p_inFlight p).
Proof.
  intros I Hp Ht. exists p, ph. split_and!; [done..|by left| |].
  - intros run ->. by eapply inv_returned.
  - intros Hq. by eapply inv_flying.
Qed.

Lemma db_le_dead s st db' :
  inv s -> wrote st (s_db s) db' ->
  (forall run, st = Some (StUpdateRun run) -> run_ID run ∈ claims (s_log s)) ->
  dead_le (cancels (s_log s)) (s_db s) db'.
Proof.
  intros I Hw Hu. eapply dead_le_wrote; [exact Hw|]. intros run E Hx. by eapply inv_owned_alive; [|apply Hu|].
Qed.

(** A write alone: of any statement but the update of a run nobody took. *)
Lemma inv_write s st db' :
  inv s -> wrote st (s_db s) db' ->
  (forall run, st = Some (StUpdateRun run) -> run_ID run ∈ claims (s_log s)) ->
  inv (mkSys db' (s_procs s) (s_log s)).
Proof.
  intros I Hw Hu. apply (inv_quiet s); [done|by eapply db_le_wrote|by eapply db_le_dead|done..|].
  intros pid p id ph Hp Ht. by eapply same_thread.
Qed.

Lemma inv_cancel s id at_ :
  inv s -> inv (mkSys (RequestCancel id at_ (s_db s)).2 (s_procs s)
    (logged (match (RequestCancel id at_ (s_db s)).1 with inr true => Some (ECancelled id) | _ => None end) (s_log s))).
Proof.
  intros I. set (db' := (RequestCancel id at_ (s_db s)).2).
  assert (Hw : wrote (Some (StRequestCancel id at_)) (s_db s) db') by (right; by eexists).
  assert (I' : inv (mkSys db' (s_procs s) (s_log s))).
  { by eapply inv_write. }
  pose proof (RequestCancel_cases id at_ (s_db s)) as H. fold db' in H |- *.
  destruct (RequestCancel id at_ (s_db s)) as [[e|[]] db1] eqn:E; try exact I'. cbn [fst].
  destruct H as (r & Er & Hr & Hdb). subst db'. cbn [snd] in *.
  destruct I' as [A1 A2 A3 A4 A5 A6 A7 A8 A9]. split; cbn [s_db s_procs s_log logged] in *; try done.
  - intros pid p id' ph Hp Ht. apply elem_of_cons. right. by eapply A3.
  - intros pid id' plan [?|H]%elem_of_cons; [done|]. destruct (A7 pid id' plan H) as (? & ?).
    split; [by apply elem_of_cons; right | done].
  - intros id' [->|H]%elem_of_cons; [|by apply A8]. rewrite Hdb, lookup_insert_eq. eexists. split; [done|].
    split; [done|]. cbn. unfold unclaimed in Hr. apply andb_true_iff in Hr as [_ Hr]. by apply bool_decide_eq_true in Hr.
Qed.

Lemma inv_claim s pid p now q db' :
  inv s -> s_procs s !! pid = Some p -> ClaimRun (p_owner p) (p_lease p) now (s_db s) = (inr q, db') ->
  inv (mkSys db'
    (<[pid := (mkProc (p_owner p) (p_lease p) (p_inFlight p)
                (<[q_ID q := TTaken q]> (p_threads p)) (p_sweep p))]> (s_procs s))
    (EClaim pid (q_ID q) :: s_log s)).
Proof.
  intros I Hp E. assert (Hw : wrote (Some (StClaimRun (p_owner p) (p_lease p) now)) (s_db s) db').
  { right. eexists. split; [done|]. cbn. by rewrite E. }
  assert (I' : inv (mkSys db' (s_procs s) (s_log s))).
  { by eapply inv_write. }
  pose proof (ClaimRun_spec (p_owner p) (p_lease p) now (s_db s)) as H. rewrite E in H.
  destruct H as (r & Er & Hu & Hq & _ & Hdb).
  assert (Hnone : row_lease_owner r = None).
  { unfold unclaimed in Hu. apply andb_true_iff in Hu as [_ Hu]. by apply bool_decide_eq_true in Hu. }
  assert (Hfresh : q_ID q ∉ claims (s_log s)).
  { intros Hc. destruct (inv_owned _ I _ Hc) as (r' & Er' & Ho). by simplify_eq. }
  assert (Hrow : db' !! q_ID q = Some (take (p_owner p) (Time.Add now (p_lease p)) r)).
  { rewrite Hdb. apply lookup_insert_eq. }
  destruct I' as [A1 A2 A3 A4 A5 A6 A7 A8 A9]. cbn [s_db s_procs s_log] in *.
  assert (Hns : q_ID q ∉ starts (s_log s)) by (intros Hs; by apply Hfresh, (inv_starts _ I)).
  split; cbn [s_db s_procs s_log].
  - change (NoDup (q_ID q :: claims (s_log s))). by constructor.
  - change (claims (EClaim pid (q_ID q) :: s_log s)) with (q_ID q :: claims (s_log s)).
    intros id [->|H]%elem_of_cons; [|by apply A2]. eexists. split; [exact Hrow | done].
  - intros pid' p' id ph Hp' Ht. apply elem_of_cons. destruct (decide (pid' = pid)) as [->|Hne].
    + rewrite lookup_insert_eq in Hp'. injection Hp' as <-. cbn in Ht.
      destruct (decide (id = q_ID q)) as [->|]; [by left | right].
      rewrite lookup_insert_ne in Ht by done. by eapply (A3 pid p).
    + right. rewrite lookup_insert_ne in Hp' by done. by eapply A3.
  - change (starts (EClaim pid (q_ID q) :: s_log s)) with (starts (s_log s)).
    change (claims (EClaim pid (q_ID q) :: s_log s)) with (q_ID q :: claims (s_log s)).
    split; [apply A4|]. intros id H. apply elem_of_cons. right. by apply A4.
  - change (starts (EClaim pid (q_ID q) :: s_log s)) with (starts (s_log s)).
    intros pid' p' id ph q' Hp' Ht Hwt. destruct (decide (pid' = pid)) as [->|Hne].
    + rewrite lookup_insert_eq in Hp'. injection Hp' as <-. cbn in Ht.
      destruct (decide (id = q_ID q)) as [->|].
      * rewrite lookup_insert_eq in Ht. injection Ht as <-. cbn in Hwt. injection Hwt as <-.
        split_and!; [done..|]. eexists. split; [exact Hrow|]. cbn. by rewrite Hq.
      * rewrite lookup_insert_ne in Ht by done. by eapply (A5 pid p).
    + rewrite lookup_insert_ne in Hp' by done. by eapply A5.
  - intros pid' p' id run Hp' Ht. destruct (decide (pid' = pid)) as [->|Hne].
    + rewrite lookup_insert_eq in Hp'. injection Hp' as <-. cbn in Ht.
      destruct (decide (id = q_ID q)) as [->|]; [by rewrite lookup_insert_eq in Ht|].
      rewrite lookup_insert_ne in Ht by done. by eapply (A6 pid p).
    + rewrite lookup_insert_ne in Hp' by done. by eapply A6.
  - intros pid' id plan [?|H]%elem_of_cons; [done|]. destruct (A7 pid' id plan H) as (? & ?).
    split; [by apply elem_of_cons; right | done].
  - exact A8.
  - intros pid' p' id ph Hp' Ht Hq'. destruct (decide (pid' = pid)) as [->|Hne].
    + rewrite lookup_insert_eq in Hp'. injection Hp' as <-. cbn in Ht |- *.
      destruct (decide (id = q_ID q)) as [->|].
      * rewrite lookup_insert_eq in Ht. injection Ht as <-. by specialize (Hq' q).
      * rewrite lookup_insert_ne in Ht by done. by eapply (A9 pid p).
    + rewrite lookup_insert_ne in Hp' by done. by eapply A9.
Qed.

(** A step of a thread that is not the start of the engine. *)
Lemma thread_step_quiet pid p id ph st e next :
  thread_step pid p id ph st e next ->
  match next with
  | Some ph' => (waiting ph' = waiting ph \/ waiting ph' = None) /\
      (forall run, ph' = TFinishing run -> run_ID run = id)
  | None => True
  end /\
  (forall run, st = Some (StUpdateRun run) -> ph = TFinishing run) /\
  (e = None \/ exists q, ph = TMarked q /\ st = None /\ e = Some (EStart pid id (q_PlanSnapshot q)) /\ next = Some TRunning).
Proof. by destruct 1; (split; [|split]); try split; eauto 6; intros; simplify_eq. Qed.

Lemma inv_moved s pid p id ph st e next db' :
  inv s -> s_procs s !! pid = Some p -> p_threads p !! id = Some ph ->
  thread_step pid p id ph st e next -> wrote st (s_db s) db' ->
  inv (mkSys db' (<[pid := thread_moved p id next]> (s_procs s)) (s_log s)).
Proof.
  intros I Hp Ht Hs Hw. destruct (thread_step_quiet _ _ _ _ _ _ _ Hs) as (Hn & Hu & _).
  apply (inv_quiet s); [done|by eapply db_le_wrote| |done..|].
  { eapply db_le_dead; [done..|]. intros run E. specialize (Hu run E) as ->.
    rewrite (inv_returned _ I _ _ _ _ Hp Ht). apply elem_claims. exists pid. by eapply inv_thread. }
  intros pid' p' id' ph' Hp' Ht'. destruct (decide (pid' = pid)) as [->|Hne].
  2: { rewrite lookup_insert_ne in Hp' by done. by eapply same_thread. }
  rewrite lookup_insert_eq in Hp'. injection Hp' as <-.
  destruct (decide (id' = id)) as [->|Hid]; destruct next as [ph1|]; cbn [thread_moved p_threads p_inFlight] in *.
  - rewrite lookup_insert_eq in Ht'. injection Ht' as <-. exists p, ph. destruct Hn.
    split_and!; [done..|]. intros _. set_solver.
  - by rewrite lookup_delete_eq in Ht'.
  - rewrite lookup_insert_ne in Ht' by done.
    destruct (same_thread s pid p id' ph' I Hp Ht') as (p0 & ph0 & H1 & H2 & H3 & H4 & H5).
    exists p0, ph0. split_and!; [done..|]. intros Hq. specialize (H5 Hq). set_solver.
  - rewrite lookup_delete_ne in Ht' by done.
    destruct (same_thread s pid p id' ph' I Hp Ht') as (p0 & ph0 & H1 & H2 & H3 & H4 & H5).
    exists p0, ph0. split_and!; [done..|]. intros Hq. specialize (H5 Hq). set_solver.
Qed.

(** Who took a run. *)
Lemma claim_unique log pid1 pid2 id :
  NoDup (claims log) -> EClaim pid1 id ∈ log -> EClaim pid2 id ∈ log -> pid1 = pid2.
Proof.
  induction log as [|e log IH]; [by intros _ ?%elem_of_nil|]. intros Hn H1 H2.
  assert (Hin : forall pid, EClaim pid id ∈ log -> id ∈ claims log) by (intros; apply elem_claims; eauto).
  apply elem_of_cons in H1 as [<-|H1]; apply elem_of_cons in H2 as [H2|H2].
  - by injection H2.
  - apply NoDup_cons in Hn as [Hn _]. by destruct Hn; eapply Hin.
  - subst e. apply NoDup_cons in Hn as [Hn _]. by destruct Hn; eapply Hin.
  - apply IH; [|done..]. by destruct e; try apply Hn; apply NoDup_cons in Hn as [_ Hn].
Qed.

Lemma inv_start s pid p id q :
  inv s -> s_procs s !! pid = Some p -> p_threads p !! id = Some (TMarked q) ->
  inv (mkSys (s_db s) (<[pid := thread_moved p id (Some TRunning)]> (s_procs s))
        (EStart pid id (q_PlanSnapshot q) :: s_log s)).
Proof.
  intros I Hp Ht.
  assert (Hcl : EClaim pid id ∈ s_log s) by by eapply inv_thread.
  destruct (inv_waiting _ I _ _ _ _ q Hp Ht eq_refl) as (Hns & _ & r & Er & Hr).
  pose proof (inv_moved s pid p id _ _ _ _ (s_db s) I Hp Ht (ts_start pid p id q) (or_introl eq_refl)) as I'.
  destruct I' as [A1 A2 A3 A4 A5 A6 A7 A8 A9]. cbn [s_db s_procs s_log] in *.
  split; cbn [s_db s_procs s_log]; try done.
  - intros pid' p' id' ph Hp' Ht'. apply elem_of_cons. right. by eapply A3.
  - change (starts (EStart pid id (q_PlanSnapshot q) :: s_log s)) with (id :: starts (s_log s)).
    change (claims (EStart pid id (q_PlanSnapshot q) :: s_log s)) with (claims (s_log s)).
    destruct A4 as [A4 A4']. split; [by constructor|]. intros id' [->|H]%elem_of_cons; [|auto].
    apply elem_claims. eauto.
  - change (starts (EStart pid id (q_PlanSnapshot q) :: s_log s)) with (id :: starts (s_log s)).
    intros pid' p' id' ph q' Hp' Ht' Hw. destruct (A5 _ _ _ _ _ Hp' Ht' Hw) as (H1 & H2 & H3).
    split; [|done]. intros [->|?]%elem_of_cons; [|done].
    assert (pid' = pid) as -> by (eapply claim_unique; [exact A1|by eapply A3|done]).
    rewrite lookup_insert_eq in Hp'. injection Hp' as <-. cbn in Ht'. rewrite lookup_insert_eq in Ht'.
    by injection Ht' as <-.
  - intros pid' id' plan [H|H]%elem_of_cons.
    + injection H as -> -> ->. split; [by apply elem_of_cons; right | eauto].
    + destruct (A7 _ _ _ H) as [? ?]. split; [by apply elem_of_cons; right | done].
Qed.

Lemma sweep_step_quiet pid p db ph st e next :
  sweep_step pid p db ph st e next ->
  (forall run, st <> Some (StUpdateRun run)) /\ (e = None \/ exists id temp, e = Some (EDelete pid id temp)).
Proof. by destruct 1; split; eauto. Qed.

Lemma inv_step s s' : inv s -> step s s' -> inv s'.
Proof.
  intros I Hs. destruct Hs as
    [s run y at_|s id at_|s pid owner lease Hn|s pid|s pid p now q db' Hp E
    |s pid p id ph st e next db' Hp Ht Hs Hw|s pid p st e next db' Hp Hs Hw].
  - apply (inv_write s (Some (StEnqueue run y at_))); [done|right; by eexists|by intros run' [=]].
  - by apply inv_cancel.
  - apply (inv_quiet s); [done|apply db_le_refl|by intros ? r; exists r|done..|].
    intros pid' p' id' ph Hp' Ht. destruct (decide (pid' = pid)) as [->|Hne].
    + rewrite lookup_insert_eq in Hp'. by injection Hp' as <-.
    + rewrite lookup_insert_ne in Hp' by done. by eapply same_thread.
  - apply (inv_quiet s); [done|apply db_le_refl|by intros ? r; exists r|done..|].
    intros pid' p' id' ph [_ Hp']%lookup_delete_Some Ht. by eapply same_thread.
  - by eapply inv_claim.
  - destruct (thread_step_quiet _ _ _ _ _ _ _ Hs) as (_ & _ & [->|(q & -> & -> & -> & ->)]).
    + by eapply inv_moved.
    + destruct Hw as [->|(? & [=] & _)]. by apply inv_start.
  - destruct (sweep_step_quiet _ _ _ _ _ _ _ Hs) as (Hu & He).
    apply (inv_quiet s); [done|by eapply db_le_wrote| |..].
    { eapply db_le_dead; [done..|]. intros run ->. by destruct (Hu run). }
    1-5: destruct He as [->|(id & temp & ->)]; cbn [logged]; try done.
    + intros e' H. apply elem_of_cons. by right.
    + by intros pid' id' plan [?|?]%elem_of_cons.
    + intros pid' p' id' ph Hp' Ht'. destruct (decide (pid' = pid)) as [->|Hne].
      * rewrite lookup_insert_eq in Hp'. injection Hp' as <-. by apply (same_thread s pid p id' ph).
      * rewrite lookup_insert_ne in Hp' by done. by eapply same_thread.
Qed.

Lemma inv_reachable s : reachable s -> inv s.
Proof.
  apply (rtc_ind_r inv sys_init); [apply inv_init|]. intros y z _ Hs I. by eapply inv_step.
Qed.

(** ** Theorems *)

(** C25: a drill runs at most once. However many worker processes share the
    database, whenever they crash and whatever writes are lost, no run is claimed
    twice and no engine is started twice on the same run; an engine is started
    only by the process that claimed the run, on the plan that the run's row has
    carried since it was queued; and two live threads of the same run are the
    same thread. *)
Theorem drill_runs_once s :
  reachable s ->
  NoDup (claims (s_log s)) /\ NoDup (starts (s_log s)) /\
  (forall pid id plan, EStart pid id plan ∈ s_log s ->
     EClaim pid id ∈ s_log s /\ exists r, s_db s !! id = Some r /\ row_plan_snapshot r = plan) /\
  (forall pid1 pid2 p1 p2 id ph1 ph2,
     s_procs s !! pid1 = Some p1 -> p_threads p1 !! id = Some ph1 ->
     s_procs s !! pid2 = Some p2 -> p_threads p2 !! id = Some ph2 -> pid1 = pid2).
Proof.
  intros I%inv_reachable. split_and!; [apply I|apply I|apply I|].
  intros pid1 pid2 p1 p2 id ph1 ph2 H1 H2 H3 H4.
  eapply claim_unique; [apply I|by eapply inv_thread..].
Qed.

(** Cancelling a queued drill stops it. A run whose cancellation was answered
    "settled" is never claimed and never executed, before or after, by any worker,
    and its row keeps the outcome. *)
Theorem cancelled_never_runs s id :
  reachable s -> ECancelled id ∈ s_log s ->
  (forall pid, EClaim pid id ∉ s_log s) /\ (forall pid plan, EStart pid id plan ∉ s_log s) /\
  exists r, s_db s !! id = Some r /\ settled_row r = true /\ row_lease_owner r = None.
Proof.
  intros I%inv_reachable H.
  assert (Hc : id ∈ cancels (s_log s)) by (apply list_elem_of_omap; by eexists).
  assert (Hn : forall pid, EClaim pid id ∉ s_log s).
  { intros pid Hp. eapply inv_owned_alive; [done|apply elem_claims; by exists pid|done]. }
  split_and!; [done| |].
  - intros pid plan Hs. by destruct (inv_plan _ I _ _ _ Hs) as [?%Hn ?].
  - destruct (inv_dead _ I id Hc) as (r & E & ? & ?). eauto.
Qed.

(** The sweep leaves this process's own drills alone. While a thread of a
    process drives a run (from the moment it is marked in flight until the thread
    is over), the sweep of that process does not take the run to settle it, even
    when its lease has expired. *)
Theorem sweep_spares_own_drills s pid p id ph q l st e :
  reachable s -> s_procs s !! pid = Some p -> p_threads p !! id = Some ph ->
  (forall q, ph <> TTaken q) -> q_ID q = id ->
  ~ sweep_step pid p (s_db s) (RSweep (q :: l)) st e (RSettle q l).
Proof.
  intros I%inv_reachable Hp Ht Hq Hid Hs. inversion Hs as [| | |?? Hn| | | | | | | | |]; subst.
  destruct Hn. by eapply inv_flying.
Qed.

(** ** The theorems at work *)

(** A drill queued, claimed by process 7, marked in flight and started. *)
Definition q1 : QueuedRun := scanQueuedRun "r1" (queued_row sample_run "yaml" 5).
Definition db1 : Table := {["r1" := take "w" 20 (queued_row sample_run "yaml" 5)]}.
Definition proc1 (ph : tphase) : Proc := mkProc "w" 10 {["r1"]} {["r1" := ph]} RIdle.
Definition traced (ph : tphase) (log : list effect) : Sys := mkSys db1 {[7%nat := proc1 ph]} log.

Lemma traced_marked : reachable (traced (TMarked q1) [EClaim 7 "r1"]).
Proof.
  set (s1 := mkSys {["r1" := queued_row sample_run "yaml" 5]} ∅ []).
  set (s2 := mkSys {["r1" := queued_row sample_run "yaml" 5]} {[7%nat := mkProc "w" 10 ∅ ∅ RIdle]} []).
  set (s3 := mkSys db1 {[7%nat := mkProc "w" 10 ∅ {["r1" := TTaken q1]} RIdle]} [EClaim 7 "r1"]).
  apply (rtc_l _ _ s1); [vm_cast_no_check (sys_enqueue sys_init sample_run "yaml" 5)|].
  apply (rtc_l _ _ s2); [vm_cast_no_check (sys_spawn s1 7 "w" 10 eq_refl)|].
  apply (rtc_l _ _ s3); [vm_cast_no_check (sys_claim s2 7 (mkProc "w" 10 ∅ ∅ RIdle) 10 q1 db1 eq_refl eq_refl)|].
  apply rtc_once.
  vm_cast_no_check (sys_thread s3 7 (mkProc "w" 10 ∅ {["r1" := TTaken q1]} RIdle) "r1" (TTaken q1) None None
    (Some (TMarked q1)) db1 eq_refl eq_refl (ts_mark _ _ _ q1) (or_introl eq_refl)).
Qed.

Lemma traced_started : reachable (traced TRunning [EStart 7 "r1" "yaml"; EClaim 7 "r1"]).
Proof.
  eapply rtc_r; [apply traced_marked|].
  vm_cast_no_check (sys_thread (traced (TMarked q1) [EClaim 7 "r1"]) 7 (proc1 (TMarked q1)) "r1" (TMarked q1) None
    (Some (EStart 7 "r1" "yaml")) (Some TRunning) db1 eq_refl eq_refl (ts_start _ _ _ q1) (or_introl eq_refl)).
Qed.

Lemma drill_runs_once_witness :
  NoDup (starts (s_log (traced TRunning [EStart 7 "r1" "yaml"; EClaim 7 "r1"]))) /\
  exists r, db1 !! "r1" = Some r /\ row_plan_snapshot r = "yaml".
Proof.
  destruct (drill_runs_once _ traced_started) as (_ & H1 & H2 & _). split; [exact H1|].
  destruct (H2 7%nat "r1" "yaml") as (_ & H); [apply list_elem_of_here | exact H].
Defined.

Definition cancelled1 : Sys :=
  mkSys (RequestCancel "r1" 9 {["r1" := queued_row sample_run "yaml" 5]}).2 ∅ [ECancelled "r1"].
Lemma cancelled1_reachable : reachable cancelled1.
Proof.
  set (s1 := mkSys {["r1" := queued_row sample_run "yaml" 5]} ∅ []).
  apply (rtc_l _ _ s1); [vm_cast_no_check (sys_enqueue sys_init sample_run "yaml" 5)|].
  apply rtc_once. vm_cast_no_check (sys_cancel s1 "r1" 9).
Qed.
Lemma cancelled_never_runs_witness :
  EStart 7 "r1" "yaml" ∉ s_log cancelled1 /\ exists r, s_db cancelled1 !! "r1" = Some r /\ row_lease_owner r = None.
Proof.
  destruct (cancelled_never_runs cancelled1 "r1" cancelled1_reachable (list_elem_of_here _ _)) as (_ & H1 & r & Hr & _ & Ho).
  exact (conj (H1 7%nat "yaml") (ex_intro _ r (conj Hr Ho))).
Defined.

Lemma sweep_spares_own_drills_witness :
  p_threads (proc1 TRunning) !! "r1" = Some TRunning /\
  ~ sweep_step 7 (proc1 TRunning) db1 (RSweep [q1]) None None (RSettle q1 []).
Proof.
  split; [reflexivity|].
  apply (sweep_spares_own_drills (traced TRunning [EStart 7 "r1" "yaml"; EClaim 7 "r1"]) 7 (proc1 TRunning) "r1"
    TRunning q1 [] None None traced_started); [reflexivity|reflexivity|discriminate|reflexivity].
Defined.
