(* ===== verification/Catalog.v ===== *)
(** * The plan catalogue and the slots of the scheduler

    Models internal/store/plans.go and internal/store/schedule.go: the [plans]
    and [schedule_slots] tables next to the [runs] table of [Queue], with the
    keys and foreign keys of migrations 0004 and 0006 that the statements meet. *)

From Stdlib Require Import ZArith Lia String Ascii List.
From stdpp Require Import sorting.
From S2P Require Import Prelude GoTime Errors Core Plan Queue.

(** ** The tables *)

(** [store.Plan]. *)
Record StoredPlan := mkStoredPlan {
  sp_ID : string;
  sp_Name : string;
  sp_Description : string;
  sp_WorkloadID : string;
  sp_ProviderID : string;
  sp_YAML : string;
  sp_Version : Z;
  sp_CreatedAt : Z;
  sp_UpdatedAt : Z;
}.

(** [SlotOutcome]. *)
Inductive SlotOutcome := SlotQueued | SlotSkipped.
#[export] Instance SlotOutcome_eq_dec : EqDecision SlotOutcome.
Proof. solve_decision. Defined.

(** [Slot]. *)
Record Slot := mkSlot {
  slot_PlanID : string;
  slot_SlotAt : Z;
  slot_DecidedAt : Z;
  slot_Outcome : SlotOutcome;
  slot_Reason : text;
  slot_RunID : string;
}.

Abbreviation PlanTable := (gmap string StoredPlan).
Abbreviation SlotTable := (gmap (string * Z) Slot).
Record DB := mkDB { db_runs : Table; db_plans : PlanTable; db_slots : SlotTable }.

(** ** The catalogue (plans.go) *)

Definition named (name : string) (x : string * StoredPlan) : bool := bool_decide (sp_Name x.2 = name).
Definition plan_rows (t : PlanTable) : list (string * StoredPlan) := map_to_list t.

(** [resolvePlanRef]: a name, else an id, else the only id with this prefix. *)
Definition resolvePlanRef (d : dialect) (ref : string) (t : PlanTable) : store_error + string :=
  if negb (nonempty ref) then inl (ErrNotFound ref) else
  match List.filter (named ref) (plan_rows t) with
  | (id, _) :: _ => inr id
  | [] =>
    match t !! ref with
    | Some _ => inr ref
    | None =>
      match List.filter (like_prefix d ref) (map fst (plan_rows t)) with
      | [] => inl (ErrNotFound ref)
      | [id] => inr id
      | _ => inl (ErrAmbiguous ref)
      end
    end
  end.

(** [CreatePlan]: a taken name is a duplicate, a taken key a constraint. *)
Definition first_version (p : StoredPlan) : StoredPlan :=
  mkStoredPlan (sp_ID p) (sp_Name p) (sp_Description p) (sp_WorkloadID p) (sp_ProviderID p) (sp_YAML p) 1
    (sp_CreatedAt p) (sp_UpdatedAt p).
Definition CreatePlan (p : StoredPlan) (db : DB) : store_error + DB :=
  if existsb (named (sp_Name p)) (plan_rows (db_plans db)) then inl ErrDuplicate else
  match db_plans db !! sp_ID p with
  | Some _ => inl (ErrConstraint (sp_ID p))
  | None => inr (mkDB (db_runs db) (<[sp_ID p := first_version p]> (db_plans db)) (db_slots db))
  end.

(** [UpdatePlan]: the next version, provided that the one read is still there. *)
Definition next_version (p old : StoredPlan) : StoredPlan :=
  mkStoredPlan (sp_ID old) (sp_Name p) (sp_Description p) (sp_WorkloadID p) (sp_ProviderID p) (sp_YAML p)
    (sp_Version old + 1) (sp_CreatedAt old) (sp_UpdatedAt p).
Definition UpdatePlan (d : dialect) (p : StoredPlan) (expected : Z) (db : DB) : store_error + DB :=
  match resolvePlanRef d (sp_ID p) (db_plans db) with
  | inl err => inl err
  | inr id =>
    match db_plans db !! id with
    | None => inl ErrVersionConflict
    | Some old =>
      if (0 <? expected) && negb (sp_Version old =? expected) then inl ErrVersionConflict else
      if existsb (fun x => named (sp_Name p) x && negb (bool_decide (x.1 = id))) (plan_rows (db_plans db))
      then inl (ErrConstraint (sp_Name p))
      else inr (mkDB (db_runs db) (<[id := next_version p old]> (db_plans db)) (db_slots db))
    end
  end.

(** [GetPlan]. *)
Definition GetPlan (d : dialect) (ref : string) (db : DB) : store_error + StoredPlan :=
  match resolvePlanRef d ref (db_plans db) with
  | inl err => inl err
  | inr id => match db_plans db !! id with Some p => inr p | None => inl (ErrNotFound ref) end
  end.

(** [DeletePlan]: its slots go with it, its runs only lose the link. *)
Definition forget_plan (id : string) (r : Row) : Row :=
  if bool_decide (row_plan_id r = id) then
    mkRow (row_plan_name r) (row_plan_snapshot r) "" (row_plan_version r) (row_provider_id r)
      (row_backup_provider_id r) (row_source_workload_id r) (row_source_name r) (row_temp_workload_id r)
      (row_temp_name r) (row_node r) (row_backup r) (row_state r) (row_result r) (row_started_at r)
      (row_completed_at r) (row_queued_at r) (row_rto_ms r) (row_rto_target_ms r) (row_cleanup_done r)
      (row_err r) (row_proof_level r) (row_lease_owner r) (row_lease_expires_at r) (row_cancel_requested_at r)
  else r.
Definition DeletePlan (d : dialect) (ref : string) (db : DB) : store_error + DB :=
  match resolvePlanRef d ref (db_plans db) with
  | inl err => inl err
  | inr id =>
    match db_plans db !! id with
    | None => inl (ErrNotFound ref)
    | Some _ =>
      inr (mkDB (forget_plan id <$> db_runs db) (delete id (db_plans db))
             (filter (fun x => x.1.1 <> id) (db_slots db)))
    end
  end.

Section Listing.
Context `{Collation}.

Definition name_le (x y : StoredPlan) : Prop := collate (sp_Name x) (sp_Name y) = true.
#[export] Instance name_le_dec x y : Decision (name_le x y).
Proof. unfold name_le. apply _. Defined.

(** [ListPlans]: by name, at most as many as asked, or as the default. *)
Definition ListPlans (workloadID : string) (limit : Z) (db : DB) : list StoredPlan :=
  let matching := List.filter
    (fun p => negb (nonempty workloadID) || bool_decide (sp_WorkloadID p = workloadID))
    (map snd (plan_rows (db_plans db))) in
  list.take (if limit <=? 0 then DefaultListLimit else Z.to_nat limit) (merge_sort name_le matching).
End Listing.

(** ** The slots (schedule.go) *)

(** The run a slot queues, as [ClaimSlot] writes it: the foreign key to the plan
    it came from holds. *)
Definition queue_run (run : RecoveryRun) (planYAML : string) (at_ : Z) (db : DB) : store_error + DB :=
  if nonempty (run_PlanID run) && negb (bool_decide (is_Some (db_plans db !! run_PlanID run)))
  then inl (ErrConstraint (run_PlanID run))
  else match Enqueue run planYAML at_ (db_runs db) with
       | inl err => inl err
       | inr runs => inr (mkDB runs (db_plans db) (db_slots db))
       end.

(** [insertSlotSQL]: refused when the slot was decided; else its foreign keys
    hold. *)
Definition insert_slot (slot : Slot) (db : DB) : store_error + DB :=
  let key := (slot_PlanID slot, slot_SlotAt slot) in
  if bool_decide (is_Some (db_slots db !! key)) then inl ErrDuplicate
  else if negb (bool_decide (is_Some (db_plans db !! slot_PlanID slot))) then inl (ErrConstraint (slot_PlanID slot))
  else if nonempty (slot_RunID slot) && negb (bool_decide (is_Some (db_runs db !! slot_RunID slot)))
  then inl (ErrConstraint (slot_RunID slot))
  else inr (mkDB (db_runs db) (db_plans db) (<[key := slot]> (db_slots db))).

(** [ClaimSlot]: one transaction; an error rolls everything back. *)
Definition ClaimSlot (slot : Slot) (run : option RecoveryRun) (planYAML : string) (db : DB) : store_error + DB :=
  match slot_Outcome slot, run with
  | SlotQueued, None => inl ErrSlotNeedsRun
  | SlotQueued, Some run =>
    match queue_run run planYAML (slot_DecidedAt slot) db with
    | inl err => inl err
    | inr db' => insert_slot slot db'
    end
  | SlotSkipped, _ => insert_slot slot db
  end.

(** ORDER BY slot_at DESC LIMIT 1. *)
Fixpoint latest (l : list Slot) : option Slot :=
  match l with
  | [] => None
  | x :: l =>
    match latest l with
    | Some y => if slot_SlotAt x <? slot_SlotAt y then Some y else Some x
    | None => Some x
    end
  end.

(** [LastSlot]. *)
Definition slots_of (planID : string) (db : DB) : list Slot :=
  List.filter (fun s => bool_decide (slot_PlanID s = planID)) (map snd (map_to_list (db_slots db))).
Definition LastSlot (planID : string) (db : DB) : store_error + Slot :=
  match latest (slots_of planID db) with
  | Some s => inr s
  | None => inl (ErrNotFound planID)
  end.

(** [ListSlots] for the slots of one plan, or of every plan of a workload, most
    recent first. *)
Definition slot_ge (x y : Slot) : Prop := slot_SlotAt y <= slot_SlotAt x.
#[export] Instance slot_ge_dec x y : Decision (slot_ge x y).
Proof. unfold slot_ge. apply _. Defined.
Definition ListSlots (planID workloadID : string) (limit : Z) (db : DB) : list Slot :=
  let matching := List.filter
    (fun s => (negb (nonempty planID) || bool_decide (slot_PlanID s = planID)) &&
              (negb (nonempty workloadID) ||
               match db_plans db !! slot_PlanID s with
               | Some p => bool_decide (sp_WorkloadID p = workloadID)
               | None => false
               end))
    (map snd (map_to_list (db_slots db))) in
  list.take (if limit <=? 0 then DefaultListLimit else Z.to_nat limit) (merge_sort slot_ge matching).

(** ** Everything that writes to the three tables *)

Inductive db_op :=
| OpRuns (st : statement)
| OpCreatePlan (p : StoredPlan)
| OpUpdatePlan (d : dialect) (p : StoredPlan) (expected : Z)
| OpDeletePlan (d : dialect) (ref : string)
| OpClaimSlot (slot : Slot) (run : option RecoveryRun) (planYAML : string).

Definition answer (o : db_op) (db : DB) : store_error + DB :=
  match o with
  | OpRuns st => inr (mkDB (apply_statement st (db_runs db)) (db_plans db) (db_slots db))
  | OpCreatePlan p => CreatePlan p db
  | OpUpdatePlan d p expected => UpdatePlan d p expected db
  | OpDeletePlan d ref => DeletePlan d ref db
  | OpClaimSlot slot run planYAML => ClaimSlot slot run planYAML db
  end.
Definition apply_op (o : db_op) (db : DB) : DB := match answer o db with inl _ => db | inr db' => db' end.
Definition run_ops (ops : list db_op) (db : DB) : DB := fold_left (fun db o => apply_op o db) ops db.
Definition db_empty : DB := mkDB ∅ ∅ ∅.

(** What the tables promise to their readers. *)
Record db_wf (db : DB) : Prop := {
  wf_plan_key : forall id p, db_plans db !! id = Some p -> sp_ID p = id /\ 1 <= sp_Version p;
  wf_name : forall id1 id2 p1 p2, db_plans db !! id1 = Some p1 -> db_plans db !! id2 = Some p2 ->
    sp_Name p1 = sp_Name p2 -> id1 = id2;
  wf_slot_key : forall k s, db_slots db !! k = Some s -> k = (slot_PlanID s, slot_SlotAt s);
  wf_slot_plan : forall k s, db_slots db !! k = Some s -> is_Some (db_plans db !! slot_PlanID s);
  wf_slot_run : forall k s, db_slots db !! k = Some s -> slot_RunID s <> "" -> is_Some (db_runs db !! slot_RunID s);
}.

(** ** What the guards test *)

Lemma in_plan_rows t id p f :
  (id, p) ∈ List.filter f (plan_rows t) <-> t !! id = Some p /\ f (id, p) = true.
Proof.
  unfold plan_rows. rewrite list_elem_of_In, List.filter_In, <- list_elem_of_In. by rewrite elem_of_map_to_list.
Qed.

Lemma existsb_plan_rows f t :
  existsb f (plan_rows t) = false -> forall id p, t !! id = Some p -> f (id, p) = false.
Proof.
  intros H id p E. destruct (f (id, p)) eqn:Ef; [|done]. rewrite <- not_true_iff_false in H. destruct H.
  apply existsb_exists. exists (id, p). split; [|done]. apply list_elem_of_In. by apply elem_of_map_to_list.
Qed.

Lemma ClaimSlot_ok slot run y db db' :
  ClaimSlot slot run y db = inr db' ->
  let key := (slot_PlanID slot, slot_SlotAt slot) in
  db_slots db !! key = None /\ db_slots db' = <[key := slot]> (db_slots db) /\ db_plans db' = db_plans db /\
  is_Some (db_plans db !! slot_PlanID slot) /\
  (slot_RunID slot <> "" -> is_Some (db_runs db' !! slot_RunID slot)) /\
  match slot_Outcome slot with
  | SlotSkipped => db_runs db' = db_runs db
  | SlotQueued => exists r, run = Some r /\ db_runs db !! run_ID r = None /\
      db_runs db' = <[run_ID r := queued_row r y (slot_DecidedAt slot)]> (db_runs db)
  end.
Proof.
  assert (Hins : forall db db', insert_slot slot db = inr db' ->
    db_slots db !! (slot_PlanID slot, slot_SlotAt slot) = None /\
    db_slots db' = <[(slot_PlanID slot, slot_SlotAt slot) := slot]> (db_slots db) /\
    db_plans db' = db_plans db /\ is_Some (db_plans db !! slot_PlanID slot) /\
    (slot_RunID slot <> "" -> is_Some (db_runs db' !! slot_RunID slot)) /\ db_runs db' = db_runs db).
  { intros d d'. unfold insert_slot.
    destruct (db_slots d !! _) eqn:Es; [by rewrite bool_decide_true|].
    rewrite bool_decide_false by (by intros []). case_bool_decide as Hp; [|done]. cbn [negb].
    destruct (nonempty (slot_RunID slot)) eqn:Hn; cbn [andb].
    - case_bool_decide as Hr; [|done]. intros [= <-]. by split_and!.
    - intros [= <-]. split_and!; try done. intros H. by destruct (slot_RunID slot). }
  unfold ClaimSlot. destruct (slot_Outcome slot); [|apply Hins].
  destruct run as [r|]; [|done]. unfold queue_run, Enqueue, insert_row. destruct (_ && _); [done|].
  destruct (db_runs db !! run_ID r) eqn:Er; [done|]. intros H. apply Hins in H. cbn in H.
  destruct H as (H1 & H2 & H3 & H4 & H5 & H6). cbn. split_and!; try done. by exists r.
Qed.

(** A slot is never rewritten; it only goes with its plan. *)
Lemma apply_op_slot o db k s :
  db_slots db !! k = Some s ->
  db_slots (apply_op o db) !! k = Some s \/ (db_slots (apply_op o db) !! k = None /\ db_plans (apply_op o db) !! k.1 = None).
Proof.
  intros E. unfold apply_op. destruct (answer o db) as [e|db'] eqn:Ea; [by left|].
  destruct o as [st|p|d p x|d ref|slot run y]; cbn [answer] in Ea.
  - injection Ea as <-. by left.
  - unfold CreatePlan in Ea. destruct (existsb _ _); [done|]. destruct (db_plans db !! sp_ID p); [done|]. injection Ea as <-. by left.
  - unfold UpdatePlan in Ea. repeat case_match; simplify_eq. by left.
  - unfold DeletePlan in Ea. repeat case_match; simplify_eq. cbn [db_slots db_plans].
    destruct (decide (k.1 = s0)) as [<-|Hne].
    + right. split; [|apply lookup_delete_eq]. apply map_lookup_filter_None. right. intros ? ? Hk. by apply Hk.
    + left. by apply map_lookup_filter_Some.
  - left. apply ClaimSlot_ok in Ea as (Hn & -> & _). rewrite lookup_insert_ne; [done|congruence].
Qed.

Lemma apply_op_run o db id :
  is_Some (db_runs db !! id) -> is_Some (db_runs (apply_op o db) !! id).
Proof.
  intros [r E]. unfold apply_op. destruct (answer o db) as [e|db'] eqn:Ea; [by exists r|].
  destruct o as [st|p|d p x|d ref|slot run y]; cbn [answer] in Ea.
  - injection Ea as <-. cbn. destruct (apply_row_le st _ _ _ E) as (r' & -> & _). by exists r'.
  - unfold CreatePlan in Ea. destruct (existsb _ _); [done|]. destruct (db_plans db !! sp_ID p); [done|]. injection Ea as <-. by exists r.
  - unfold UpdatePlan in Ea. repeat case_match; simplify_eq. by exists r.
  - unfold DeletePlan in Ea. repeat case_match; simplify_eq. cbn. rewrite lookup_fmap, E. by eexists.
  - apply ClaimSlot_ok in Ea as (_ & _ & _ & _ & _ & H). destruct (slot_Outcome slot).
    + destruct H as (r0 & _ & Hn & ->). rewrite lookup_insert_ne by congruence. by exists r.
    + rewrite H. by exists r.
Qed.

Lemma db_wf_op o db : db_wf db -> db_wf (apply_op o db).
Proof.
  intros W. pose proof (apply_op_run o db) as Hruns. unfold apply_op in *.
  destruct (answer o db) as [e|db'] eqn:Ea; [done|].
  destruct o as [st|p|d p x|d ref|slot run y]; cbn [answer] in Ea.
  - injection Ea as <-. destruct W as [A1 A2 A3 A4 A5]. split; cbn [db_plans db_slots] in *; try done.
    intros k s E Hn. apply Hruns. by eapply A5.
  - unfold CreatePlan in Ea. destruct (existsb _ _) eqn:Ex; [done|]. destruct (db_plans db !! sp_ID p) eqn:Ei; [done|].
    injection Ea as <-. destruct W as [A1 A2 A3 A4 A5]. split; cbn [db_plans db_slots db_runs] in *; try done.
    + intros id q [[<- <-]|[_ H]]%lookup_insert_Some; [done | by apply A1].
    + intros id1 id2 p1 p2 [[<- <-]|[_ H1]]%lookup_insert_Some [[<- <-]|[_ H2]]%lookup_insert_Some Hn; [done|..|by eapply A2].
      * apply (existsb_plan_rows _ _ Ex) in H2. unfold named in H2. by apply bool_decide_eq_false in H2.
      * apply (existsb_plan_rows _ _ Ex) in H1. unfold named in H1. by apply bool_decide_eq_false in H1.
    + intros k s E. destruct (A4 k s E) as [q Hq]. destruct (decide (slot_PlanID s = sp_ID p)) as [->|].
      * rewrite lookup_insert_eq. by eexists.
      * rewrite lookup_insert_ne by done. by eexists.
  - unfold UpdatePlan in Ea. destruct (resolvePlanRef d (sp_ID p) (db_plans db)) as [|id]; [done|].
    destruct (db_plans db !! id) as [old|] eqn:Ei; [|done]. destruct (_ && _); [done|].
    destruct (existsb _ _) eqn:Ex; [done|]. injection Ea as <-.
    destruct W as [A1 A2 A3 A4 A5]. split; cbn [db_plans db_slots db_runs] in *; try done.
    + intros id' q [[<- <-]|[_ H]]%lookup_insert_Some; [|by apply A1]. destruct (A1 id old Ei). cbn. split; [done|lia].
    + assert (Hx : forall id' q, id' <> id -> db_plans db !! id' = Some q -> sp_Name q <> sp_Name p).
      { intros id' q Hne H Hn. apply (existsb_plan_rows _ _ Ex) in H. unfold named in H. cbn in H.
        rewrite bool_decide_true in H by done. by rewrite bool_decide_false in H. }
      intros id1 id2 p1 p2 [[<- <-]|[N1 H1]]%lookup_insert_Some [[<- <-]|[N2 H2]]%lookup_insert_Some Hn; [done|..|by eapply A2].
      * by destruct (Hx id2 p2).
      * by destruct (Hx id1 p1).
    + intros k s E. destruct (A4 k s E) as [q Hq]. destruct (decide (slot_PlanID s = id)) as [->|].
      * rewrite lookup_insert_eq. by eexists.
      * rewrite lookup_insert_ne by done. by eexists.
  - unfold DeletePlan in Ea. destruct (resolvePlanRef d ref (db_plans db)) as [|id]; [done|].
    destruct (db_plans db !! id) eqn:Ei; [|done]. injection Ea as <-.
    destruct W as [A1 A2 A3 A4 A5]. split; cbn [db_plans db_slots db_runs] in *.
    + intros id' q [_ H]%lookup_delete_Some. by apply A1.
    + intros id1 id2 p1 p2 [_ H1]%lookup_delete_Some [_ H2]%lookup_delete_Some. by eapply A2.
    + intros k q [H _]%map_lookup_filter_Some. by apply A3.
    + intros k q [H Hk]%map_lookup_filter_Some. cbn in Hk. pose proof (A3 k q H) as ->. cbn in Hk.
      rewrite lookup_delete_ne by done. by eapply A4.
    + intros k q [H _]%map_lookup_filter_Some Hn. apply Hruns. by eapply A5.
  - apply ClaimSlot_ok in Ea as (_ & Hs & Hp & Hpl & Hr & _).
    destruct W as [A1 A2 A3 A4 A5]. split; rewrite ?Hs, ?Hp; try done.
    + intros k s [[<- <-]|[_ H]]%lookup_insert_Some; [done | by apply A3].
    + intros k s [[<- <-]|[_ H]]%lookup_insert_Some; [done | by eapply A4].
    + intros k s [[<- <-]|[_ H]]%lookup_insert_Some Hn; [by apply Hr|]. apply Hruns. by eapply A5.
Qed.

Lemma filter_nil {A} (f : A -> bool) l : (forall x, x ∈ l -> f x = false) -> List.filter f l = [].
Proof.
  induction l as [|x l IH]; [done|]. intros H. cbn. rewrite (H x) by apply list_elem_of_here.
  apply IH. intros y Hy. apply H. by apply list_elem_of_further.
Qed.

(** A key that no plan has taken for a name means the plan it is the key of. *)
Lemma resolvePlanRef_key d id t p :
  t !! id = Some p -> id <> "" -> (forall k q, t !! k = Some q -> sp_Name q <> id) -> resolvePlanRef d id t = inr id.
Proof.
  intros E Hid Hn. unfold resolvePlanRef. replace (nonempty id) with true by by destruct id. cbn [negb].
  rewrite filter_nil, E; [done|]. intros [k q] H%elem_of_map_to_list. unfold named. apply bool_decide_eq_false.
  by eapply Hn.
Qed.

(** ** Theorems *)

Definition same_key (a b : Slot) : Prop := slot_PlanID a = slot_PlanID b /\ slot_SlotAt a = slot_SlotAt b.

(** A slot and its drill are one decision, taken once. When [ClaimSlot]
    succeeds, the slot was undecided and is now recorded, and the run it queues
    is new and now in the queue with the snapshot it was given (none for a
    skipped slot), nothing else having changed; from then on a claim of the same
    slot is refused, whoever makes it and whatever run it brings, and it is
    refused as a duplicate when it skips. A queued slot without its run is
    refused. *)
Theorem ClaimSlot_once slot run y db :
  match ClaimSlot slot run y db with
  | inr db' =>
    let key := (slot_PlanID slot, slot_SlotAt slot) in
    db_slots db !! key = None /\ db_slots db' = <[key := slot]> (db_slots db) /\ db_plans db' = db_plans db /\
    match slot_Outcome slot with
    | SlotSkipped => db_runs db' = db_runs db
    | SlotQueued => exists r, run = Some r /\ db_runs db !! run_ID r = None /\
        db_runs db' = <[run_ID r := queued_row r y (slot_DecidedAt slot)]> (db_runs db)
    end /\
    (forall slot2 run2 y2, same_key slot slot2 -> exists e, ClaimSlot slot2 run2 y2 db' = inl e /\
       (slot_Outcome slot2 = SlotSkipped -> e = ErrDuplicate))
  | inl e => slot_Outcome slot = SlotQueued /\ run = None -> e = ErrSlotNeedsRun
  end.
Proof.
  destruct (ClaimSlot slot run y db) as [e|db'] eqn:E.
  - intros [Ho ->]. unfold ClaimSlot in E. rewrite Ho in E. congruence.
  - destruct (ClaimSlot_ok _ _ _ _ _ E) as (H1 & H2 & H3 & H4 & H5 & H6). cbn. split_and!; try done.
    intros slot2 run2 y2 [Hk1 Hk2]. destruct (ClaimSlot slot2 run2 y2 db') as [e|db2] eqn:E2.
    + exists e. split; [done|]. intros Ho. unfold ClaimSlot, insert_slot in E2.
      rewrite Ho, H2, <- Hk1, <- Hk2, lookup_insert_eq, bool_decide_true in E2 by done. congruence.
    + apply ClaimSlot_ok in E2 as (Hn & _). by rewrite H2, <- Hk1, <- Hk2, lookup_insert_eq in Hn.
Qed.

(** What the tables promise, whatever is written to them in whatever order:
    plans are kept under their own key with a version from 1 and no two share a
    name, a slot is kept under its plan and instant, its plan exists and so does
    the run it names; and a decided slot is never rewritten, it only goes away
    with its plan. *)
Theorem tables_keep_their_promises ops :
  db_wf (run_ops ops db_empty) /\
  forall o k s, db_slots (run_ops ops db_empty) !! k = Some s ->
    db_slots (run_ops (ops ++ [o]) db_empty) !! k = Some s \/
    (db_slots (run_ops (ops ++ [o]) db_empty) !! k = None /\ db_plans (run_ops (ops ++ [o]) db_empty) !! k.1 = None).
Proof.
  split.
  - unfold run_ops. assert (W : db_wf db_empty) by (split; cbn; intros; simplify_map_eq).
    revert W. generalize db_empty. induction ops as [|o ops IH]; [done|]. intros db W. cbn. by apply IH, db_wf_op.
  - intros o k s E. unfold run_ops in *. rewrite fold_left_app. cbn. by apply apply_op_slot.
Qed.

(** Two editors of a plan cannot overwrite each other. An update of a plan
    by its key (which is no plan's name) that states the version it read succeeds
    only on that version; it writes the next one, keeping the creation date, and
    a second update that read the same version is then refused. It is refused
    only for the version, or for a name another plan has. *)
Theorem UpdatePlan_versions d p expected db old :
  db_plans db !! sp_ID p = Some old -> sp_ID p <> "" -> 0 < expected ->
  (forall k q, db_plans db !! k = Some q -> sp_Name q <> sp_ID p) -> sp_Name p <> sp_ID p ->
  match UpdatePlan d p expected db with
  | inr db' =>
    sp_Version old = expected /\ db_plans db' = <[sp_ID p := next_version p old]> (db_plans db) /\
    db_runs db' = db_runs db /\ db_slots db' = db_slots db /\
    (forall p2, sp_ID p2 = sp_ID p -> UpdatePlan d p2 expected db' = inl ErrVersionConflict)
  | inl e => (e = ErrVersionConflict /\ sp_Version old <> expected) \/
      (e = ErrConstraint (sp_Name p) /\ exists k q, k <> sp_ID p /\ db_plans db !! k = Some q /\ sp_Name q = sp_Name p)
  end.
Proof.
  intros E Hid Hx Hn Hp. unfold UpdatePlan at 1. rewrite (resolvePlanRef_key d _ _ old E Hid Hn), E.
  replace (0 <? expected) with true by lia. cbn [andb].
  destruct (Z.eqb_spec (sp_Version old) expected) as [Hv|Hv]; cbn [negb]; [|by left].
  destruct (existsb _ _) eqn:Ex.
  { right. split; [done|]. apply existsb_exists in Ex as ([k q] & Hin & Hk). cbn in Hk.
    apply list_elem_of_In, elem_of_map_to_list in Hin. apply andb_true_iff in Hk as [Hk1 Hk2].
    unfold named in Hk1. apply bool_decide_eq_true in Hk1. cbn in Hk1.
    exists k, q. split_and!; [|done..]. by apply negb_true_iff, bool_decide_eq_false in Hk2. }
  split_and!; try done. intros p2 H2. unfold UpdatePlan. rewrite H2. cbn [db_plans].
  rewrite (resolvePlanRef_key d _ _ (next_version p old)); [|by apply lookup_insert_eq|done|].
  - rewrite lookup_insert_eq. cbn [next_version sp_Version]. rewrite Hv.
    replace (0 <? expected) with true by lia. replace (expected + 1 =? expected) with false by lia. done.
  - intros k q [[<- <-]|[_ H]]%lookup_insert_Some; [done | by eapply Hn].
Qed.

(** ** The theorems at work *)

Definition plan1 : StoredPlan := mkStoredPlan "p1" "nightly" "" "101" "pve" "yaml" 1 5 5.
Definition with_plan1 : DB := mkDB ∅ {["p1" := plan1]} ∅.

Lemma UpdatePlan_versions_witness :
  exists db', UpdatePlan SQLite plan1 1 with_plan1 = inr db' /\
    UpdatePlan SQLite plan1 1 db' = inl ErrVersionConflict.
Proof.
  eexists. split; [reflexivity|].
  apply (UpdatePlan_versions SQLite plan1 1 with_plan1 plan1 (lookup_singleton_eq _ _) ltac:(discriminate)
    ltac:(reflexivity)); [|discriminate|reflexivity].
  intros k q H. unfold with_plan1 in H. cbn [db_plans] in H. apply lookup_singleton_Some in H as [_ <-]. discriminate.
Defined.

(** A name can be the key of another plan: then the reference means the plan of
    that name. *)
Definition plan2 : StoredPlan := mkStoredPlan "p2" "p1" "" "102" "pve" "yaml" 1 5 5.
Example name_shadows_key : GetPlan SQLite "p1" (mkDB ∅ {["p1" := plan1; "p2" := plan2]} ∅) = inr plan2.
Proof. vm_compute. reflexivity. Qed.

(** * Queueing a drill

    Models internal/trigger: the one path by which a request or the scheduler
    turns a plan into a queued run. The YAML encoder is code outside the
    repository, an argument of [Prepare]. *)

(** [Request]. *)
Record Request := mkRequest {
  rq_Plan : option Plan;
  rq_Stored : option StoredPlan;
  rq_DefaultProvider : string;
  rq_ID : string;
  rq_At : Z;
}.

(** [Prepared]. *)
Record Prepared := mkPrepared { pd_Run : RecoveryRun; pd_PlanYAML : string }.

(** How [Prepare] refuses: [ErrAlreadyRunning], a failure of the store or of the
    encoder, or no plan. *)
Inductive prepare_error :=
| NeedsPlan
| StoreFailed (err : store_error)
| AlreadyRunning (workloadID activeRunID : string)
| MarshalFailed (err : error).

(** [ErrAlreadyRunning.Error]. *)
Definition busy_text (workloadID activeRunID : string) : text :=
  Sprintf "run %s is queued or running for workload %s" [AStr activeRunID; AStr workloadID].

(** The run [Prepare] builds. *)
Definition prepared_run (p : Plan) (req : Request) : RecoveryRun :=
  let providerID := if nonempty (wr_Provider (pl_Workload p)) then wr_Provider (pl_Workload p)
                    else rq_DefaultProvider req in
  {| run_ID := rq_ID req; run_PlanName := pl_Name p;
     run_PlanID := match rq_Stored req with Some s => sp_ID s | None => "" end;
     run_PlanVersion := match rq_Stored req with Some s => sp_Version s | None => 0 end;
     run_ProviderID := providerID; run_BackupProviderID := "";
     run_SourceWorkloadID := wr_ID (pl_Workload p); run_SourceName := ""; run_TempWorkloadID := "";
     run_TempName := ""; run_Node := ""; run_Backup := None; run_State := RunQueued; run_Result := ResultNone;
     run_ProofLevel := ProofUnknown; run_StartedAt := Time.zero; run_CompletedAt := Time.zero;
     run_Steps := []; run_Checks := []; run_RTO := 0; run_RTOTarget := pl_RTOTarget p;
     run_CleanupDone := false; run_Err := Lit "" |}.

(** [Prepare], from what the queue answers about the workload: it writes
    nothing. *)
Definition Prepare (marshal : Plan -> error + string) (active : string -> store_error + string) (req : Request) :
    prepare_error + Prepared :=
  match rq_Plan req with
  | None => inl NeedsPlan
  | Some p =>
    let workloadID := wr_ID (pl_Workload p) in
    match active workloadID with
    | inl err => inl (StoreFailed err)
    | inr a =>
      if nonempty a then inl (AlreadyRunning workloadID a) else
      match marshal p with
      | inl err => inl (MarshalFailed err)
      | inr planYAML => inr (mkPrepared (prepared_run p req) planYAML)
      end
    end
  end.

(** [Enqueue]: what [Prepare] built, written to the queue. *)
Definition EnqueueDrill (marshal : Plan -> error + string) (req : Request) (db : DB) :
    (prepare_error + RecoveryRun) * DB :=
  match Prepare marshal (fun w => inr (ActiveRunForWorkload w (db_runs db))) req with
  | inl err => (inl err, db)
  | inr prepared =>
    match queue_run (pd_Run prepared) (pd_PlanYAML prepared) (rq_At req) db with
    | inl err => (inl (StoreFailed err), db)
    | inr db' => (inr (pd_Run prepared), db')
    end
  end.

(** ** One drill per workload *)

(** The runs of a workload that have not settled. *)
Definition active_for (w : string) (r : Row) : Prop := row_source_workload_id r = w /\ settled_row r = false.

(** No workload has two drills in flight. *)
Definition one_drill_per_workload (t : Table) : Prop :=
  forall id1 id2 r1 r2 w, t !! id1 = Some r1 -> t !! id2 = Some r2 ->
    active_for w r1 -> active_for w r2 -> id1 = id2.

(** No run has the empty identifier: [uuid.NewString] makes them. *)
Definition ids_nonempty (t : Table) : Prop := t !! "" = None.

Lemma ActiveRunForWorkload_none t w :
  ids_nonempty t -> ActiveRunForWorkload w t = "" -> forall id r, t !! id = Some r -> ~ active_for w r.
Proof.
  unfold ActiveRunForWorkload. intros Hne. destruct (first_by _ _) as [[k r0]|] eqn:E.
  - intros ->. apply first_by_in, in_rows in E as [E _]. by rewrite Hne in E.
  - intros _ id r Er [Hw Hs]. apply first_by_none in E.
    assert (Hin : (id, r) ∈ List.filter (fun x => bool_decide (row_source_workload_id x.2 = w) && negb (settled_row x.2)) (rows t)).
    { apply in_rows. split; [done|]. cbn. by rewrite Hs, bool_decide_true. }
    rewrite E in Hin. by apply elem_of_nil in Hin.
Qed.

Lemma ActiveRunForWorkload_some t w id :
  ActiveRunForWorkload w t = id -> id <> "" -> exists r, t !! id = Some r /\ active_for w r.
Proof.
  unfold ActiveRunForWorkload. destruct (first_by _ _) as [[k r0]|] eqn:E; [|by intros <-].
  intros -> _. apply first_by_in, in_rows in E as [E Hf]. cbn in Hf. exists r0. split; [done|].
  apply andb_true_iff in Hf as [H1 H2]. apply bool_decide_eq_true in H1. apply negb_true_iff in H2. done.
Qed.

(** Queueing a run for a workload without a drill in flight keeps it so. *)
Lemma queued_one_drill t run y at_ :
  one_drill_per_workload t -> t !! run_ID run = None ->
  (forall id r, t !! id = Some r -> ~ active_for (run_SourceWorkloadID run) r) ->
  one_drill_per_workload (<[run_ID run := queued_row run y at_]> t).
Proof.
  intros H1 Hn Hf id1 id2 r1 r2 w [[<- <-]|[_ E1]]%lookup_insert_Some [[<- <-]|[_ E2]]%lookup_insert_Some A1 A2; [done|..].
  - destruct A1 as [Hw _]. cbn in Hw. subst w. by destruct (Hf id2 r2).
  - destruct A2 as [Hw _]. cbn in Hw. subst w. by destruct (Hf id1 r1).
  - by eapply H1.
Qed.

Lemma Prepare_inv marshal active req pd :
  Prepare marshal active req = inr pd ->
  exists p y, rq_Plan req = Some p /\ active (wr_ID (pl_Workload p)) = inr "" /\ marshal p = inr y /\
    pd = mkPrepared (prepared_run p req) y.
Proof.
  unfold Prepare. destruct (rq_Plan req) as [p|]; [|done]. destruct (active _) as [|a] eqn:Ea; [done|].
  destruct (nonempty a) eqn:Hn; [done|]. destruct (marshal p) as [|y] eqn:Em; [done|]. intros [= <-].
  exists p, y. split_and!; try done. destruct a; [done|]. by rewrite (proj2 (nonempty_spec _)) in Hn.
Qed.

(** One drill per workload. When no workload has two drills in flight and no
    run an empty identifier, asking for a drill keeps it so, and the answer is:
    a run queued under the identifier of the request, with the plan it was asked
    for as its snapshot, for the workload the plan names, by the provider the
    plan names or else the default, when no drill of that workload was in flight;
    or a refusal that changes nothing, and that names a drill that is in flight
    when it says that there is one. *)
Theorem EnqueueDrill_spec marshal req db :
  one_drill_per_workload (db_runs db) -> ids_nonempty (db_runs db) -> rq_ID req <> "" ->
  let '(r, db') := EnqueueDrill marshal req db in
  one_drill_per_workload (db_runs db') /\ ids_nonempty (db_runs db') /\
  match r with
  | inr run => exists p y, rq_Plan req = Some p /\ marshal p = inr y /\ run = prepared_run p req /\
      (forall id r, db_runs db !! id = Some r -> ~ active_for (wr_ID (pl_Workload p)) r) /\
      db_runs db' = <[rq_ID req := queued_row run y (rq_At req)]> (db_runs db)
  | inl err => db' = db /\
      forall w a, err = AlreadyRunning w a -> exists r, db_runs db !! a = Some r /\ active_for w r
  end.
Proof.
  intros H1 Hne Hid. unfold EnqueueDrill. destruct (Prepare _ _ req) as [err|pd] eqn:E.
  - split_and!; try done. intros w a ->. unfold Prepare in E. destruct (rq_Plan req) as [p|]; [|done].
    destruct (nonempty _) eqn:Hn; [|by destruct (marshal p)]. injection E as <- <-.
    by eapply ActiveRunForWorkload_some; [|apply nonempty_spec].
  - apply Prepare_inv in E as (p & y & Hp & [= Ha] & Hm & ->). cbn [pd_Run pd_PlanYAML].
    pose proof (ActiveRunForWorkload_none _ _ Hne Ha) as Hf.
    unfold queue_run, Enqueue, insert_row. destruct (_ && _); [done|].
    destruct (db_runs db !! run_ID (prepared_run p req)) eqn:Er; [done|]. cbn [db_runs].
    split_and!.
    + by apply queued_one_drill.
    + unfold ids_nonempty. by rewrite lookup_insert_ne.
    + by exists p, y.
Qed.

(** ** The theorems at work *)

Definition nightly_plan : Plan := {|
  pl_Name := "nightly"; pl_Description := ""; pl_Tags := [];
  pl_Workload := mkWorkloadRef "" "101" "db";
  pl_Backup := mkBackupSpec "pbs" StrategyLatest "" 0;
  pl_Restore := mkRestoreSpec "pve1" "" "" "isolated" "" 0 0 0 0;
  pl_Startup := mkStartupSpec false 0 None None "";
  pl_Checks := []; pl_Cleanup := mkCleanupSpec None false;
  pl_RTOTarget := 0; pl_Schedule := ""; pl_ScheduleTimezone := "" |}.
Definition nightly_request (id : string) : Request := mkRequest (Some nightly_plan) None "pve" id 5.
Definition queued_once : DB := (EnqueueDrill (fun _ => inr "yaml") (nightly_request "r1") db_empty).2.

(** The second request for the same workload is refused, naming the first. *)
Example asked_twice :
  (EnqueueDrill (fun _ => inr "yaml") (nightly_request "r2") queued_once).1 = inl (AlreadyRunning "101" "r1").
Proof. vm_refl. Qed.

Lemma EnqueueDrill_spec_witness :
  one_drill_per_workload (db_runs queued_once) /\ ids_nonempty (db_runs queued_once).
Proof.
  assert (H0 : one_drill_per_workload (db_runs db_empty)).
  { intros id1 id2 r1 r2 w E. unfold db_empty in E. cbn [db_runs] in E. by apply lookup_empty_Some in E. }
  pose proof (EnqueueDrill_spec (fun _ => inr "yaml") (nightly_request "r1") db_empty H0 (lookup_empty "")
    ltac:(discriminate)) as H.
  unfold queued_once. destruct (EnqueueDrill _ (nightly_request "r1") db_empty) as [r db'].
  exact (conj (proj1 H) (proj1 (proj2 H))).
Defined.
