(* ===== verification/Scheduler.v ===== *)
(** * The scheduler

    Models internal/scheduler: what to do about one plan's next slot (slots.go)
    and a pass over the catalogue (scheduler.go). The cron parser, the YAML
    library, the clock and the faults of the database are operations of
    [SchedEnv]; the log lines are not modelled. *)

From Stdlib Require Import ZArith Lia String List.
From stdpp Require Import sorting.
From S2P Require Import Prelude GoTime Errors Core Plan Queue Listing Catalog.

Import Duration.

(** ** One plan's next slot (slots.go) *)

Definition maxCollapse : nat := Z.to_nat 10000.
Definition DefaultTick : Z := Minute.
Definition DefaultGracePeriod : Z := 2 * Hour.
Definition DefaultMaxQueueDepth : Z := 5.

Record decision := mkDecision { d_SlotAt : Z; d_Skip : bool; d_Reason : text }.

Section Decide.
Context `{ScheduleEnv}.

(** [sameWallClock]: the date, the hour and the minute. *)
Definition sameWallClock (loc : Location) (a b : Z) : bool :=
  let x := wall_clock loc a in
  let y := wall_clock loc b in
  let xd := Time.Year x * 10000 + Time.Month x * 100 + Time.Day x in
  let yd := Time.Year y * 10000 + Time.Month y * 100 + Time.Day y in
  (xd =? yd) && (Time.HourOf x =? Time.HourOf y) && (Time.MinuteOf x =? Time.MinuteOf y).

(** The first slot to consider. *)
Definition first_slot (sched : Schedule) (last : option Slot) (startedAt : Z) : Z :=
  let after := match last with Some l => slot_SlotAt l | None => startedAt end in
  let slot := Next sched after in
  match last with
  | Some l => if sameWallClock (sc_Location sched) slot (slot_SlotAt l) then Next sched slot else slot
  | None => slot
  end.

(** The loop that steps over what was missed; [fuel] is what is left of
    [maxCollapse]. *)
Fixpoint collapse (fuel : nat) (sched : Schedule) (now slot missed : Z) : Z * Z :=
  match fuel with
  | O => (slot, missed)
  | S fuel =>
    let next := Next sched slot in
    if Time.After next now then (slot, missed) else collapse fuel sched now next (missed + 1)
  end.

Definition late_reason (late grace missed : Z) : text :=
  let reason := Sprintf "the slot was %s late, past the %s grace period: a drill that starts outside its window is an incident, not a test"
    [ADur (Round late Minute); ADur grace] in
  if 0 <? missed then
    Sprintf "%s%s" [AText reason; AText (Sprintf " (%d earlier slot(s) went by with it)" [AInt missed])]
  else reason.

Definition decide_slot (sched : option Schedule) (last : option Slot) (startedAt now grace : Z) : option decision :=
  match sched with
  | None => None
  | Some sched =>
    let slot := first_slot sched last startedAt in
    if Time.After slot now then None else
    let '(slot, missed) := collapse maxCollapse sched now slot 0 in
    let late := Time.Sub now slot in
    if grace <? late then Some (mkDecision slot true (late_reason late grace missed))
    else Some (mkDecision slot false (Lit ""))
  end.
End Decide.

(** ** A pass over the catalogue (scheduler.go) *)

(** What is outside: the clock and the identifiers, read in order; the database,
    which may be away at any call; the context; the YAML library. *)
Class SchedEnv := {
  env_now : nat -> Z;
  env_newID : nat -> string;
  env_away : nat -> bool;
  env_cancelled : nat -> bool;
  yaml_Unmarshal : string -> error + Plan;
  yaml_Marshal : Plan -> error + string;
}.

(** The fields of [Scheduler] that its options fix. *)
Record Options := mkOptions { o_grace : Z; o_maxQueueDepth : Z; o_startedAt : Z }.

(** [New]: a value of the options, else the configured one, else the default. *)
Definition NewOptions (grace maxQueueDepth : Z) (configured : option (Z * Z)) (now : Z) : Options :=
  mkOptions
    (if grace <=? 0 then
       match configured with Some (g, _) => if 0 <? g then g else DefaultGracePeriod | None => DefaultGracePeriod end
     else grace)
    (if maxQueueDepth <=? 0 then
       match configured with Some (_, m) => if 0 <? m then m else DefaultMaxQueueDepth | None => DefaultMaxQueueDepth end
     else maxQueueDepth)
    now.

(** The state: the database, how much of the outside was read, and the plan
    versions whose invalid schedule was complained about. *)
Record Sched := mkSched { sd_db : DB; sd_time : nat; sd_complainedAbout : gmap string Z }.

Section Scheduler.
Context `{ScheduleEnv} `{Collation} `{SchedEnv} (opts : Options).

Abbreviation SM := (M Sched).

(** Reading the outside. *)
Definition outside {A} (f : nat -> A) : SM A := fun s =>
  (Ret (f (sd_time s)), mkSched (sd_db s) (S (sd_time s)) (sd_complainedAbout s)).
Definition s_now : SM Z := outside env_now.
Definition s_newID : SM string := outside env_newID.
Definition ctx_Err : SM bool := outside env_cancelled.

(** A read of the store, and a write: [None] when the database is away. *)
Definition query {A} (f : DB -> A) : SM (option A) :=
  (outside env_away ≫= fun away : bool =>
   if away then mret None else gets (fun s => Some (f (sd_db s)))).
Definition exec (f : DB -> store_error + DB) : SM (option (option store_error)) :=
  (outside env_away ≫= fun away : bool =>
   if away then mret None else fun s =>
   match f (sd_db s) with
   | inl err => (Ret (Some (Some err)), s)
   | inr db => (Ret (Some None), mkSched db (sd_time s) (sd_complainedAbout s))
   end).

(** [claim]: record one slot decision; whether a drill was queued. *)
Definition claim (row : StoredPlan) (slotAt : Z) (skip : bool) (reason : text) (run : option RecoveryRun)
    (planYAML : string) : SM bool :=
  decidedAt ← s_now;
  runID ← (if skip then mret ""
           else match run with
                | Some r => mret (run_ID r)
                | None => throw "invalid memory address or nil pointer dereference"
                end);
  let slot := mkSlot (sp_ID row) slotAt decidedAt (if skip then SlotSkipped else SlotQueued) reason runID in
  err ← exec (ClaimSlot slot run planYAML);
  match err with
  | Some None => mret (negb skip)
  | _ => mret false
  end.

Definition busy_reason (w a : string) : text :=
  Sprintf "%s%s" [AStr "a drill was already in flight for this workload: "; AText (busy_text w a)].
Definition invalid_reason (err : error) : text :=
  Sprintf "%s%s" [AStr "the stored plan is no longer valid and could not be drilled: "; AText (Error err)].

(** One line per version about a schedule that does not parse. *)
Definition complain (row : StoredPlan) : SM unit :=
  modify (fun s => mkSched (sd_db s) (sd_time s) (<[sp_ID row := sp_Version row]> (sd_complainedAbout s))).

(** The part of [considerPlan] after a slot was decided to run. *)
Definition queue_slot (row : StoredPlan) (parsed : Plan) (now : Z) (d : decision) : SM bool :=
  id ← s_newID;
  active ← query (fun db => fun w => ActiveRunForWorkload w (db_runs db));
  match active with
  | None => mret false
  | Some active =>
    match Prepare yaml_Marshal (fun w => inr (active w))
            (mkRequest (Some parsed) (Some row) (sp_ProviderID row) id now) with
    | inl (AlreadyRunning w a) => (_ ← claim row (d_SlotAt d) true (busy_reason w a) None ""; mret false)
    | inl _ => mret false
    | inr prepared => claim row (d_SlotAt d) false (Lit "") (Some (pd_Run prepared)) (pd_PlanYAML prepared)
    end
  end.

(** [considerPlan]: decide one plan's next slot; whether a drill was queued. *)
Definition considerPlan (row : StoredPlan) : SM bool :=
  match Parse (yaml_Unmarshal (sp_YAML row)) with
  | inl err =>
    now ← s_now;
    _ ← claim row now true (invalid_reason err) None "";
    mret false
  | inr parsed =>
    match ParseSchedule (pl_Schedule parsed) (pl_ScheduleTimezone parsed) with
    | inl _ => (_ ← complain row; mret false)
    | inr sched =>
      last ← query (LastSlot (sp_ID row));
      match last with
      | None => mret false
      | Some last =>
        let last := match last with inr l => Some l | inl _ => None end in
        now ← s_now;
        match decide_slot sched last (o_startedAt opts) now (o_grace opts) with
        | None => mret false
        | Some d =>
          if d_Skip d then (_ ← claim row (d_SlotAt d) true (d_Reason d) None ""; mret false)
          else queue_slot row parsed now d
        end
      end
    end
  end.

(** The loop of [Tick], over the plans that are left. *)
Fixpoint consider_all (depth : Z) (plans : list StoredPlan) : SM unit :=
  match plans with
  | [] => mret tt
  | row :: plans =>
    ctx_Err ≫= fun cancelled : bool =>
    if cancelled then mret tt else
    if o_maxQueueDepth opts <=? depth then mret tt else
    considerPlan row ≫= fun queued : bool =>
    consider_all (if queued then depth + 1 else depth) plans
  end.

(** [queueDepth]. *)
Definition queueDepth : SM (option Z) := query (fun db => Z.of_nat (length (ListRuns unsettled (db_runs db)))).

(** [Tick]. *)
Definition Tick : SM unit :=
  plans ← query (ListPlans "" 0);
  match plans with
  | None => mret tt
  | Some plans =>
    depth ← queueDepth;
    match depth with
    | None => mret tt
    | Some depth => consider_all depth plans
    end
  end.
End Scheduler.

(** * What the scheduler guarantees

    The decision of a slot, its progress through the slots of a plan, and a pass
    over the catalogue: what it writes for one plan is the relation [considered],
    which the code refines whatever fails, and the limits of a pass follow from
    it. *)

(** ** The decision *)

Section Decision.
Context `{ScheduleEnv}.

Definition floor_of (last : option Slot) (startedAt : Z) : Z :=
  match last with Some l => slot_SlotAt l | None => startedAt end.

(** A cron expression that always fires again ([Schedule.Next] of the cron
    library answers an instant later than the one it is given). *)
Definition fires_forever (sched : Schedule) : Prop := forall t, t < Next sched t.

Lemma collapse_spec fuel sched now slot missed :
  slot <= now ->
  let '(slot', missed') := collapse fuel sched now slot missed in
  exists k : nat, (k <= fuel)%nat /\ slot' = Nat.iter k (Next sched) slot /\ missed' = missed + Z.of_nat k /\
    slot' <= now /\ (now < Next sched slot' \/ k = fuel).
Proof.
  revert slot missed. induction fuel as [|fuel IH]; intros slot missed Hs; cbn [collapse].
  - exists 0%nat. cbn. split_and!; [lia..|by right].
  - unfold Time.After. destruct (Z.ltb_spec now (Next sched slot)) as [Hn|Hn].
    + exists 0%nat. cbn. split_and!; [lia..|by left].
    + specialize (IH (Next sched slot) (missed + 1) Hn).
      destruct (collapse fuel sched now _ _) as [slot' missed']. destruct IH as (k & Hk & -> & -> & Hle & Hend).
      exists (S k). rewrite Nat.iter_succ_r. split_and!; [lia|done|lia|done|]. destruct Hend; [by left | right; lia].
Qed.

Lemma iter_later sched k t : fires_forever sched -> t <= Nat.iter k (Next sched) t.
Proof. intros Hf. induction k as [|k IH]; [reflexivity|]. rewrite Nat.iter_succ. pose proof (Hf (Nat.iter k (Next sched) t)). lia. Qed.

Lemma first_slot_later sched last startedAt :
  fires_forever sched -> floor_of last startedAt < first_slot sched last startedAt.
Proof.
  intros Hf. unfold first_slot, floor_of. destruct last as [l|]; [|apply Hf].
  pose proof (Hf (slot_SlotAt l)). destruct (sameWallClock _ _ _); [|done].
  pose proof (Hf (Next sched (slot_SlotAt l))). lia.
Qed.

Lemma decide_cases sched last startedAt now grace :
  let s0 := first_slot sched last startedAt in
  match decide_slot (Some sched) last startedAt now grace with
  | None => now < s0
  | Some d => s0 <= now /\ exists k : nat, (k <= maxCollapse)%nat /\
      d_SlotAt d = Nat.iter k (Next sched) s0 /\ d_SlotAt d <= now /\
      (now < Next sched (d_SlotAt d) \/ k = maxCollapse) /\
      d_Skip d = (grace <? Time.Sub now (d_SlotAt d)) /\
      d_Reason d = (if d_Skip d then late_reason (Time.Sub now (d_SlotAt d)) grace (Z.of_nat k) else Lit "")
  end.
Proof.
  cbn zeta. unfold decide_slot, Time.After. destruct (Z.ltb_spec now (first_slot sched last startedAt)) as [Hn|Hn]; [done|].
  pose proof (collapse_spec maxCollapse sched now _ 0 Hn) as Hc.
  destruct (collapse maxCollapse sched now _ 0) as [slot missed]. destruct Hc as (k & Hk & E & -> & Hle & Hend).
  destruct (grace <? Time.Sub now slot) eqn:Hg; cbn [d_SlotAt d_Skip d_Reason]; (split; [done|]);
    exists k; rewrite Hg; split_and!; done.
Qed.

(** The decision about a plan's next slot. Nothing is due exactly when the
    first slot after the last one decided (after the start of the scheduler when
    there is none, past the repeated hour of a clock change) is still to come.
    Otherwise exactly one slot is decided: one that follows from the first by
    stepping over [k] slots, the latest that is due unless [k] is the bound of
    10,000; it is skipped exactly when it is later than the grace period, with
    a reason that says by how much and, when some were stepped over, how many;
    and it is later than every slot decided before, so that nothing is decided
    twice and nothing is back-filled. *)
Theorem decide_spec sched last startedAt now grace :
  fires_forever sched ->
  let s0 := first_slot sched last startedAt in
  match decide_slot (Some sched) last startedAt now grace with
  | None => now < s0
  | Some d => s0 <= now /\ floor_of last startedAt < d_SlotAt d /\ exists k : nat, (k <= maxCollapse)%nat /\
      d_SlotAt d = Nat.iter k (Next sched) s0 /\ d_SlotAt d <= now /\
      (now < Next sched (d_SlotAt d) \/ k = maxCollapse) /\
      d_Skip d = (grace <? Time.Sub now (d_SlotAt d)) /\
      d_Reason d = (if d_Skip d then late_reason (Time.Sub now (d_SlotAt d)) grace (Z.of_nat k) else Lit "")
  end.
Proof.
  intros Hf s0. pose proof (decide_cases sched last startedAt now grace) as Hd. cbn zeta in Hd. fold s0 in Hd.
  destruct (decide_slot _ _ _ _ _) as [d|]; [|done]. destruct Hd as (H0 & k & Hk & Es & Hrest).
  split; [done|]. split; [|by exists k]. rewrite Es.
  pose proof (first_slot_later sched last startedAt Hf). pose proof (iter_later sched k s0 Hf). unfold s0 in *. lia.
Qed.

(** A cron expression that never fires (the library then answers the zero time):
    the zero time is decided as a slot that is late. *)
Lemma collapse_never fuel sched now missed :
  (forall t, Next sched t = Time.zero) -> Time.zero <= now ->
  collapse fuel sched now Time.zero missed = (Time.zero, missed + Z.of_nat fuel).
Proof.
  intros Hn Hnow. revert missed. induction fuel as [|fuel IH]; intros missed; cbn [collapse].
  - f_equal. lia.
  - rewrite Hn. unfold Time.After. replace (now <? Time.zero) with false by lia. rewrite IH. f_equal. lia.
Qed.

Lemma decide_never_fires sched startedAt now grace :
  (forall t, Next sched t = Time.zero) -> 0 <= grace < Duration.maxDuration -> grace < now ->
  exists reason, decide_slot (Some sched) None startedAt now grace = Some (mkDecision Time.zero true reason).
Proof.
  intros Hn Hg Hnow. unfold decide_slot, first_slot. rewrite Hn. unfold Time.After at 1.
  replace (now <? Time.zero) with false by (unfold Time.zero; lia).
  rewrite collapse_never by (try done; unfold Time.zero; lia).
  replace (grace <? Time.Sub now Time.zero) with true; [by eexists|]. symmetry. apply Z.ltb_lt.
  unfold Time.Sub, Time.zero, Duration.sat, Duration.minDuration. lia.
Qed.
End Decision.

(** ** Progress through the slots of a plan *)

Lemma latest_in l s : latest l = Some s -> s ∈ l.
Proof.
  revert s; induction l as [|x l IH]; cbn; [done|]. intros s E. apply elem_of_cons.
  destruct (latest l) as [y|]; [destruct (_ <? _)|]; injection E as <-; auto.
Qed.
Lemma latest_max l s x : latest l = Some s -> x ∈ l -> slot_SlotAt x <= slot_SlotAt s.
Proof.
  revert s; induction l as [|y l IH]; cbn; [done|]. intros s E [->|Hx]%elem_of_cons.
  - destruct (latest l) as [z|]; [destruct (Z.ltb_spec (slot_SlotAt y) (slot_SlotAt z))|]; injection E as <-; lia.
  - destruct (latest l) as [z|] eqn:Ez.
    + specialize (IH z eq_refl Hx). destruct (Z.ltb_spec (slot_SlotAt y) (slot_SlotAt z)); injection E as <-; lia.
    + destruct l; [by apply elem_of_nil in Hx|]. cbn in Ez. by destruct (latest l) as [?|]; [destruct (_ <? _)|].
Qed.
Lemma latest_none l x : latest l = None -> x ∉ l.
Proof.
  destruct l as [|y l]; [by intros _ ?%elem_of_nil|]. cbn. by destruct (latest l); [destruct (_ <? _)|].
Qed.

Lemma in_slots_of planID db s :
  s ∈ slots_of planID db <-> slot_PlanID s = planID /\ exists k, db_slots db !! k = Some s.
Proof.
  unfold slots_of. rewrite list_elem_of_In, List.filter_In, <- list_elem_of_In, list_elem_of_fmap.
  rewrite bool_decide_eq_true. split.
  - intros [([k s'] & -> & Hk) Hp]. split; [done|]. exists k. by apply elem_of_map_to_list.
  - intros [Hp [k Hk]]. split; [|done]. exists (k, s). split; [done|]. by apply elem_of_map_to_list.
Qed.

(** Every slot of the plan was decided before the last one. *)
Lemma LastSlot_max planID db k s :
  db_slots db !! k = Some s -> slot_PlanID s = planID ->
  exists l, LastSlot planID db = inr l /\ slot_SlotAt s <= slot_SlotAt l.
Proof.
  intros E Hp. assert (Hin : s ∈ slots_of planID db) by (apply in_slots_of; eauto).
  unfold LastSlot. destruct (latest (slots_of planID db)) as [l|] eqn:El.
  - exists l. split; [done|]. by eapply latest_max.
  - by apply latest_none with (x := s) in El.
Qed.

(** ** What a pass writes for one plan *)

Section Pass.
Context `{ScheduleEnv} `{Collation} `{SchedEnv} (opts : Options).

(** The slot of a valid plan is the one [decide] answers after the last one. *)
Definition decided (row : StoredPlan) (p : Plan) (db : DB) (t : Z) : Prop :=
  exists sched now d, ParseSchedule (pl_Schedule p) (pl_ScheduleTimezone p) = inr (Some sched) /\
    decide_slot (Some sched) (match LastSlot (sp_ID row) db with inr l => Some l | inl _ => None end)
      (o_startedAt opts) now (o_grace opts) = Some d /\ d_SlotAt d = t.

(** What considering a plan may do to the database, and whether it queued a
    drill: nothing; a skipped slot; or a slot and its drill. *)
Inductive considered (row : StoredPlan) : bool -> DB -> DB -> Prop :=
| cd_nothing db : considered row false db db
| cd_skipped db db' t at_ reason :
    (forall p, Parse (yaml_Unmarshal (sp_YAML row)) = inr p -> decided row p db t) ->
    ClaimSlot (mkSlot (sp_ID row) t at_ SlotSkipped reason "") None "" db = inr db' -> considered row false db db'
| cd_queued db db' p sched now t at_ id y :
    Parse (yaml_Unmarshal (sp_YAML row)) = inr p ->
    ParseSchedule (pl_Schedule p) (pl_ScheduleTimezone p) = inr (Some sched) ->
    decide_slot (Some sched) (match LastSlot (sp_ID row) db with inr l => Some l | inl _ => None end)
      (o_startedAt opts) now (o_grace opts) = Some (mkDecision t false (Lit "")) ->
    ActiveRunForWorkload (wr_ID (pl_Workload p)) (db_runs db) = "" ->
    yaml_Marshal p = inr y -> (exists n, id = env_newID n) ->
    ClaimSlot (mkSlot (sp_ID row) t at_ SlotQueued (Lit "") id)
      (Some (prepared_run p (mkRequest (Some p) (Some row) (sp_ProviderID row) id now))) y db = inr db' ->
    considered row true db db'.

Lemma bind_step {A B} (m : M Sched A) (k : A -> M Sched B) s a s1 :
  m s = (Ret a, s1) -> mbind k m s = k a s1.
Proof. apply bind_Ret. Qed.

Lemma query_cases {A} (f : DB -> A) s :
  exists s', sd_db s' = sd_db s /\ (query f s = (Ret None, s') \/ query f s = (Ret (Some (f (sd_db s))), s')).
Proof.
  unfold query, outside, mbind, M_bind. cbn. eexists (mkSched (sd_db s) _ _). split; [done|].
  destruct (env_away (sd_time s)); cbn; [by left | by right].
Qed.

Lemma claim_cases row t skip reason run y s :
  (skip = false -> exists r, run = Some r) ->
  exists q s', claim row t skip reason run y s = (Ret q, s') /\
    ((q = false /\ sd_db s' = sd_db s) \/
     (q = negb skip /\ exists at_,
        ClaimSlot (mkSlot (sp_ID row) t at_ (if skip then SlotSkipped else SlotQueued) reason
                     (if skip then "" else match run with Some r => run_ID r | None => "" end)) run y (sd_db s)
        = inr (sd_db s'))).
Proof.
  intros Hr. unfold claim, s_now, outside, exec, mbind, M_bind. cbn.
  set (at_ := env_now (sd_time s)).
  assert (Hb : forall rid : string,
    rid = (if skip then "" else match run with Some r => run_ID r | None => "" end) ->
    (if skip then mret (M := M Sched) "" else match run with Some r => mret (run_ID r)
       | None => throw "invalid memory address or nil pointer dereference" end)
      (mkSched (sd_db s) (S (sd_time s)) (sd_complainedAbout s)) =
    (Ret rid, mkSched (sd_db s) (S (sd_time s)) (sd_complainedAbout s))).
  { intros rid ->. destruct skip; [done|]. by destruct (Hr eq_refl) as [r ->]. }
  rewrite (Hb _ eq_refl). cbn. destruct (env_away (S (sd_time s))); cbn.
  { eexists _, _. split; [reflexivity|]. by left. }
  destruct (ClaimSlot _ run y (sd_db s)) as [e|db'] eqn:E; cbn.
  - eexists _, _. split; [reflexivity|]. by left.
  - eexists _, _. split; [reflexivity|]. right. split; [done|]. by exists at_.
Qed.

Lemma skipped_claim row t reason s :
  (forall p, Parse (yaml_Unmarshal (sp_YAML row)) = inr p -> decided row p (sd_db s) t) ->
  exists s', mbind (fun _ => mret false) (claim row t true reason None "") s = (Ret false, s') /\
    considered row false (sd_db s) (sd_db s').
Proof.
  intros Hd. destruct (claim_cases row t true reason None "" s) as (q & s' & E & Hq); [done|].
  exists s'. rewrite (bind_step _ _ _ _ _ E). split; [done|].
  destruct Hq as [[_ ->]|(_ & at_ & Hc)]; [constructor | by eapply cd_skipped].
Qed.

(** [queue_slot] refines [considered]. *)
Lemma queue_slot_spec row p sched now t s :
  Parse (yaml_Unmarshal (sp_YAML row)) = inr p ->
  ParseSchedule (pl_Schedule p) (pl_ScheduleTimezone p) = inr (Some sched) ->
  decide_slot (Some sched) (match LastSlot (sp_ID row) (sd_db s) with inr l => Some l | inl _ => None end)
    (o_startedAt opts) now (o_grace opts) = Some (mkDecision t false (Lit "")) ->
  exists q s', queue_slot row p now (mkDecision t false (Lit "")) s = (Ret q, s') /\
    considered row q (sd_db s) (sd_db s').
Proof.
  intros Hp Hs Hd. unfold queue_slot.
  rewrite (bind_step s_newID _ s (env_newID (sd_time s)) (mkSched (sd_db s) (S (sd_time s)) (sd_complainedAbout s)) eq_refl).
  destruct (query_cases (fun db w => ActiveRunForWorkload w (db_runs db))
    (mkSched (sd_db s) (S (sd_time s)) (sd_complainedAbout s))) as (s1 & Hdb & [E|E]); cbn [sd_db] in Hdb;
    rewrite (bind_step _ _ _ _ _ E); clear E.
  { exists false, s1. split; [done|]. rewrite Hdb. constructor. }
  cbn [sd_db]. destruct (Prepare _ _ _) as [err|pd] eqn:Epd.
  - assert (Hno : exists q s', (mret false : M Sched bool) s1 = (Ret q, s') /\ considered row q (sd_db s) (sd_db s')).
    { exists false, s1. split; [done|]. rewrite Hdb. constructor. }
    destruct err as [|err|w a|err]; try exact Hno.
    destruct (skipped_claim row t (busy_reason w a) s1) as (s2 & E2 & Hc).
    { intros p' Hp'. rewrite Hp in Hp'. injection Hp' as <-. rewrite Hdb. by eexists sched, now, _. }
    rewrite Hdb in Hc.
    exists false, s2. by split.
  - apply Prepare_inv in Epd as (p' & y & [= <-] & [= Ha] & Hm & ->). cbn [d_SlotAt pd_Run pd_PlanYAML].
    match goal with |- context [claim row t false (Lit "") (Some ?r) y s1] => set (run := r) end.
    destruct (claim_cases row t false (Lit "") (Some run) y s1) as (q & s2 & E2 & Hq); [by eexists|].
    exists q, s2. split; [done|]. rewrite Hdb in Hq. destruct Hq as [[-> ->]|(-> & at_ & Hc)]; [constructor|].
    eapply cd_queued; [done..|by eexists|exact Hc].
Qed.

Lemma considerPlan_refines row s :
  exists q s', considerPlan opts row s = (Ret q, s') /\ considered row q (sd_db s) (sd_db s').
Proof.
  unfold considerPlan. destruct (Parse (yaml_Unmarshal (sp_YAML row))) as [err|p] eqn:Ep.
  { set (s0 := mkSched (sd_db s) (S (sd_time s)) (sd_complainedAbout s)).
    rewrite (bind_step s_now _ s (env_now (sd_time s)) s0 eq_refl).
    destruct (skipped_claim row (env_now (sd_time s)) (invalid_reason err) s0) as (s1 & E & Hc); [by rewrite Ep|]. exists false, s1. by split. }
  destruct (ParseSchedule _ _) as [err|sched] eqn:Es.
  { eexists false, _. split; [reflexivity|]. constructor. }
  destruct (query_cases (LastSlot (sp_ID row)) s) as (s1 & Hdb & [E|E]); rewrite (bind_step _ _ _ _ _ E); clear E.
  { exists false, s1. split; [done|]. rewrite Hdb. constructor. }
  set (last := match LastSlot (sp_ID row) (sd_db s) with inr l => Some l | inl _ => None end).
  set (s2 := mkSched (sd_db s1) (S (sd_time s1)) (sd_complainedAbout s1)).
  rewrite (bind_step s_now _ s1 (env_now (sd_time s1)) s2 eq_refl).
  assert (Hdb2 : sd_db s2 = sd_db s) by exact Hdb.
  destruct (decide_slot sched last _ _ _) as [d|] eqn:Ed.
  2: { exists false, s2. split; [done|]. rewrite Hdb2. constructor. }
  destruct (d_Skip d) eqn:Hd.
  - destruct (skipped_claim row (d_SlotAt d) (d_Reason d) s2) as (s3 & E & Hc).
    { intros p' Hp'. rewrite Ep in Hp'. injection Hp' as <-. rewrite Hdb2. destruct sched as [sched|]; [|done].
      by exists sched, (env_now (sd_time s1)), d. }
    rewrite Hdb2 in Hc. exists false, s3. by split.
  - destruct sched as [sched|]; [|done].
    assert (Hd' : d = mkDecision (d_SlotAt d) false (Lit "")).
    { pose proof (decide_cases sched last (o_startedAt opts) (env_now (sd_time s1)) (o_grace opts)) as Hc.
      cbn zeta in Hc. rewrite Ed in Hc. destruct Hc as (_ & k & _ & _ & _ & _ & _ & Hr). rewrite Hd in Hr.
      destruct d; cbn in *; by subst. }
    rewrite Hd' in Ed |- *. unfold last in Ed. rewrite <- Hdb2 in Ed. destruct (queue_slot_spec row p sched _ _ s2 Ep Es Ed) as (q & s3 & E & Hc).
    exists q, s3. rewrite Hdb2 in Hc. by split.
Qed.

(** ** A pass *)

Inductive pass : nat -> DB -> DB -> Prop :=
| pass_end db : pass 0 db db
| pass_plan row q db db1 db2 n :
    considered row q db db1 -> pass n db1 db2 -> pass ((if q then 1 else 0) + n) db db2.

Lemma consider_all_pass plans depth s :
  exists s' n, consider_all opts depth plans s = (Ret tt, s') /\ pass n (sd_db s) (sd_db s') /\
    (n <> 0%nat -> depth + Z.of_nat n <= o_maxQueueDepth opts).
Proof.
  revert depth s. induction plans as [|row plans IH]; intros depth s; cbn [consider_all].
  { exists s, 0%nat. split_and!; [done|constructor|done]. }
  set (s1 := mkSched (sd_db s) (S (sd_time s)) (sd_complainedAbout s)).
  rewrite (bind_step ctx_Err _ s (env_cancelled (sd_time s)) s1 eq_refl).
  destruct (env_cancelled (sd_time s)). { exists s1, 0%nat. split_and!; [done|constructor|done]. }
  destruct (Z.leb_spec (o_maxQueueDepth opts) depth). { exists s1, 0%nat. split_and!; [done|constructor|done]. }
  destruct (considerPlan_refines row s1) as (q & s2 & E & Hc). rewrite (bind_step _ _ _ _ _ E).
  destruct (IH (if q then depth + 1 else depth) s2) as (s3 & n & E3 & Hp & Hn).
  exists s3, ((if q then 1 else 0) + n)%nat. split_and!; [done|by econstructor|].
  intros Hne. destruct q; [|apply Hn; lia]. destruct n; [lia|]. specialize (Hn ltac:(lia)). lia.
Qed.

(** The runs that have not settled. *)
Definition pending (t : Table) : nat := countb (fun x => negb (settled_row x.2)) (rows t).

Lemma pending_insert t id r : t !! id = None -> settled_row r = false -> pending (<[id := r]> t) = S (pending t).
Proof.
  intros Hn Hs. unfold pending, rows. rewrite (countb_Permutation _ _ _ (map_to_list_insert t id r Hn)).
  unfold countb. cbn. by rewrite Hs.
Qed.

Lemma considered_runs row q db db' :
  considered row q db db' ->
  if q then exists run y at_, db_runs db !! run_ID run = None /\
      db_runs db' = <[run_ID run := queued_row run y at_]> (db_runs db) /\
      ActiveRunForWorkload (run_SourceWorkloadID run) (db_runs db) = "" /\ (exists n, run_ID run = env_newID n) /\
      exists k slot, db_slots db !! k = None /\ db_slots db' = <[k := slot]> (db_slots db) /\
        slot_Outcome slot = SlotQueued /\ slot_RunID slot = run_ID run
  else db_runs db' = db_runs db.
Proof.
  intros Hc. destruct Hc as [db|db db' t at_ reason _ E|db db' p sched now t at_ id y Hp Hs Hd Ha Hm Hid E]; [done|..].
  - by apply ClaimSlot_ok in E as (_ & _ & _ & _ & _ & ?).
  - apply ClaimSlot_ok in E as (Hn & Hsl & _ & _ & _ & r & [= <-] & Hr & Hrs).
    eexists _, _, _. split_and!; [exact Hr|exact Hrs|exact Ha|done|]. eexists _, _. by split_and!.
Qed.

Lemma pass_pending n db db' : pass n db db' -> pending (db_runs db') = (n + pending (db_runs db))%nat.
Proof.
  induction 1 as [|row q db db1 db2 n Hc _ IH]; [done|]. rewrite IH. apply considered_runs in Hc. destruct q.
  - destruct Hc as (run & y & at_ & Hn & -> & _). rewrite pending_insert by done. lia.
  - rewrite Hc. lia.
Qed.

Lemma pass_one_drill n db db' :
  (forall n, env_newID n <> "") -> pass n db db' ->
  one_drill_per_workload (db_runs db) -> ids_nonempty (db_runs db) ->
  one_drill_per_workload (db_runs db') /\ ids_nonempty (db_runs db').
Proof.
  intros Hid. induction 1 as [|row q db db1 db2 n Hc _ IH]; [done|]. intros Ho Hne. apply considered_runs in Hc.
  destruct q; [|rewrite Hc in IH; by apply IH].
  destruct Hc as (run & y & at_ & Hn & E & Ha & (m & Hm) & _). rewrite E in IH. apply IH.
  - apply queued_one_drill; [done..|]. by apply ActiveRunForWorkload_none.
  - unfold ids_nonempty. rewrite lookup_insert_ne; [done|]. rewrite Hm. apply Hid.
Qed.

(** Everything that was there stays, and every new run has its slot. *)
Record accounted (db db' : DB) : Prop := {
  ac_runs : forall id r, db_runs db !! id = Some r -> db_runs db' !! id = Some r;
  ac_slots : forall k s, db_slots db !! k = Some s -> db_slots db' !! k = Some s;
  ac_new : forall id, db_runs db !! id = None -> is_Some (db_runs db' !! id) ->
    exists k s, db_slots db' !! k = Some s /\ slot_Outcome s = SlotQueued /\ slot_RunID s = id;
}.

Lemma considered_accounted row q db db' : considered row q db db' -> accounted db db'.
Proof.
  intros Hc. assert (Hs : forall k s, db_slots db !! k = Some s -> db_slots db' !! k = Some s).
  { destruct Hc as [db|db db' t at_ reason _ E|db db' p sched now t at_ id y Hp Hs Hd Ha Hm Hid E]; [done|..];
      apply ClaimSlot_ok in E as (Hn & Hsl & _); intros k s Hk; rewrite Hsl, lookup_insert_ne; congruence. }
  apply considered_runs in Hc. destruct q.
  - destruct Hc as (run & y & at_ & Hn & Hr & _ & _ & k & slot & Hk & Hsl & Ho & Hid). split; [|done|].
    + intros id r E. rewrite Hr, lookup_insert_ne; congruence.
    + intros id E [r Er]. rewrite Hr in Er. apply lookup_insert_Some in Er as [[<- _]|[_ Er]]; [|congruence].
      exists k, slot. rewrite Hsl, lookup_insert_eq. done.
  - split; [by rewrite Hc|done|]. rewrite Hc. intros id E [r Er]. congruence.
Qed.

Lemma pass_accounted n db db' : pass n db db' -> accounted db db'.
Proof.
  induction 1 as [db|row q db db1 db2 n Hc _ IH].
  - split; [done|done|]. intros id E [r Er]. congruence.
  - apply considered_accounted in Hc. destruct Hc as [A1 A2 A3], IH as [B1 B2 B3]. split; [by eauto..|].
    intros id E Hi. destruct (db_runs db1 !! id) as [r|] eqn:Er; [|by apply B3].
    destruct (A3 id E) as (k & s & Hk & Hrest); [by rewrite Er|]. exists k, s. split; [by apply B2|done].
Qed.
End Pass.

(** ** Theorems *)

Section Theorems.
Context `{ScheduleEnv} `{Collation} `{SchedEnv} (opts : Options).

(** Considering a plan does what it promises, whatever fails. Whatever the
    database, the clock, the plan's text or the libraries answer, [considerPlan]
    returns, and has either written nothing, or recorded one skipped slot, or
    recorded one slot and queued its drill in the same transaction. It answers
    "queued" only in the last case: the plan's text is valid, the slot is the one
    its schedule makes due after the last one decided, no later than the grace
    period, and no drill of the workload was in flight. *)
Theorem considerPlan_contract row s :
  exists q s', considerPlan opts row s = (Ret q, s') /\ considered opts row q (sd_db s) (sd_db s').
Proof. apply considerPlan_refines. Qed.

(** The slots of a plan only go forward. When the schedules of the cron
    library always answer a later instant, a slot that considering a valid plan
    adds is later than every slot decided for that plan before. *)
Theorem slots_go_forward row q db db' p :
  (forall sched, fires_forever sched) -> db_wf db -> Parse (yaml_Unmarshal (sp_YAML row)) = inr p ->
  considered opts row q db db' ->
  forall k s, db_slots db !! k = None -> db_slots db' !! k = Some s ->
  slot_PlanID s = sp_ID row /\
  forall k0 s0, db_slots db !! k0 = Some s0 -> slot_PlanID s0 = sp_ID row -> slot_SlotAt s0 < slot_SlotAt s.
Proof.
  intros Hf W Hp Hc k s Hk Hs.
  assert (Hd : forall t, decided opts row p db t -> forall k0 s0, db_slots db !! k0 = Some s0 ->
    slot_PlanID s0 = sp_ID row -> slot_SlotAt s0 < t).
  { intros t (sched & now & d & _ & Hd & <-) k0 s0 E0 Hp0.
    destruct (LastSlot_max (sp_ID row) db k0 s0 E0 Hp0) as (l & Hl & Hle). rewrite Hl in Hd.
    pose proof (decide_cases sched (Some l) (o_startedAt opts) now (o_grace opts)) as Hdc. cbn zeta in Hdc.
    rewrite Hd in Hdc. destruct Hdc as (_ & n & _ & Es & _). rewrite Es.
    pose proof (first_slot_later sched (Some l) (o_startedAt opts) (Hf sched)) as Hfl. cbn [floor_of] in Hfl.
    pose proof (iter_later sched n (first_slot sched (Some l) (o_startedAt opts)) (Hf sched)). lia. }
  destruct Hc as [db|db db' t at_ reason Ht E|db db' p' sched now t at_ id y Hp' Hs' Hdec Ha Hm Hid E]; [congruence|..];
    apply ClaimSlot_ok in E as (_ & Hsl & _); rewrite Hsl in Hs;
    apply lookup_insert_Some in Hs as [[_ <-]|[_ Hs]]; try congruence; (split; [done|]); cbn [slot_SlotAt].
  - apply Hd. by apply Ht.
  - apply Hd. rewrite Hp in Hp'. injection Hp' as <-. by eexists sched, now, _.
Qed.

(** C28: a pass keeps the queue in its bounds. [Tick] always returns, whatever is
    away; every run and every slot that was there stays as it was, and every
    run it queued has the slot that accounts for it; when no workload had two
    drills in flight, none has; and when the limit of the queue is at most the
    default size of a listing, the runs that have not settled are no more than
    that limit, or than they were. *)
Theorem Tick_bounded s :
  (forall n, env_newID n <> "") ->
  exists s', Tick opts s = (Ret tt, s') /\ accounted (sd_db s) (sd_db s') /\
    (one_drill_per_workload (db_runs (sd_db s)) -> ids_nonempty (db_runs (sd_db s)) ->
     one_drill_per_workload (db_runs (sd_db s'))) /\
    (o_maxQueueDepth opts <= Z.of_nat DefaultListLimit ->
     Z.of_nat (pending (db_runs (sd_db s'))) <=
       Z.max (Z.of_nat (pending (db_runs (sd_db s)))) (o_maxQueueDepth opts)).
Proof.
  intros Hid.
  assert (Hsame : forall s', sd_db s' = sd_db s -> Tick opts s = (Ret tt, s') -> exists s', Tick opts s = (Ret tt, s') /\
    accounted (sd_db s) (sd_db s') /\
    (one_drill_per_workload (db_runs (sd_db s)) -> ids_nonempty (db_runs (sd_db s)) ->
     one_drill_per_workload (db_runs (sd_db s'))) /\
    (o_maxQueueDepth opts <= Z.of_nat DefaultListLimit ->
     Z.of_nat (pending (db_runs (sd_db s'))) <=
       Z.max (Z.of_nat (pending (db_runs (sd_db s)))) (o_maxQueueDepth opts))).
  { intros s' E Et. exists s'. rewrite E. split_and!; [done|apply (pass_accounted opts 0); constructor|done|lia]. }
  revert Hsame. unfold Tick.
  destruct (query_cases (ListPlans "" 0) s) as (s1 & Hd1 & [E|E]); rewrite (bind_step _ _ _ _ _ E); clear E.
  { intros Hsame. by apply (Hsame s1). }
  unfold queueDepth.
  destruct (query_cases (fun db => Z.of_nat (length (ListRuns unsettled (db_runs db)))) s1) as (s2 & Hd2 & [E|E]);
    rewrite (bind_step _ _ _ _ _ E); clear E; rewrite Hd1 in Hd2.
  { intros Hsame. by apply (Hsame s2). }
  intros _. destruct (consider_all_pass opts (ListPlans "" 0 (sd_db s))
    (Z.of_nat (length (ListRuns unsettled (db_runs (sd_db s1))))) s2) as (s3 & n & E & Hp & Hn).
  exists s3. rewrite Hd1, Hd2 in *. split_and!; [done|by eapply pass_accounted| |].
  - intros Ho Hne. by eapply pass_one_drill.
  - intros Hmax. rewrite (pass_pending opts _ _ _ Hp). destruct (decide (n = 0%nat)) as [->|Hn0]; [lia|].
    specialize (Hn Hn0). rewrite length_pending in Hn. fold (countb (fun x : string * Row => negb (settled_row x.2)) (rows (db_runs (sd_db s)))) in Hn.
    fold (pending (db_runs (sd_db s))) in Hn. lia.
Qed.

(** What the default size of a listing hides from the scheduler: plans past the
    fiftieth, and a queue deeper than fifty. *)
Lemma catalogue_capped db : (length (ListPlans "" 0 db) <= 50)%nat.
Proof. unfold ListPlans. change (0 <=? 0) with true. rewrite length_take. unfold DefaultListLimit. lia. Qed.
Lemma depth_capped s depth s' : queueDepth s = (Ret (Some depth), s') -> depth <= 50.
Proof.
  unfold queueDepth. destruct (query_cases (fun db => Z.of_nat (length (ListRuns unsettled (db_runs db)))) s) as (s1 & _ & [->| ->]).
  - congruence.
  - intros [= <- _]. rewrite length_pending. unfold DefaultListLimit. lia.
Qed.
End Theorems.

(** ** The theorems at work *)

(** A cron library that fires every midnight, a database that is never away and
    a catalogue of one plan. *)
Module Nightly.
#[local] Instance nightly : ScheduleEnv := {|
  Plan.Location := unit;
  CronSpec := unit;
  time_Local := tt;
  time_UTC := tt;
  LoadLocation _ := inr tt;
  ParseStandard _ := inr tt;
  spec_Next _ _ t := (t / Time.day_ns + 1) * Time.day_ns;
  wall_clock _ t := t;
|}.
#[local] Instance ascii_order : Collation := {| collate := String.leb |}.

Definition drill : Plan := {|
  pl_Name := "nightly"; pl_Description := ""; pl_Tags := [];
  pl_Workload := mkWorkloadRef "pve" "101" "db";
  pl_Backup := mkBackupSpec "pbs" StrategyLatest "" 0;
  pl_Restore := mkRestoreSpec "pve1" "" "" "isolated" "" 0 0 0 0;
  pl_Startup := mkStartupSpec false 0 None None "";
  pl_Checks := []; pl_Cleanup := mkCleanupSpec None false;
  pl_RTOTarget := 0; pl_Schedule := "0 0 * * *"; pl_ScheduleTimezone := "UTC" |}.

Definition outside_at (now : Z) : SchedEnv := {|
  env_now _ := now;
  env_newID _ := "r1";
  env_away _ := false;
  env_cancelled _ := false;
  yaml_Unmarshal _ := inr drill;
  yaml_Marshal _ := inr "drill";
|}.

Definition midnight : @Schedule nightly := @mkSchedule nightly "0 0 * * *" tt tt.
Definition day (n : Z) : Z := n * Time.day_ns.
Definition opts1 : Options := NewOptions 0 0 None (day 738000).
Definition at_night : SchedEnv := outside_at (day 739001 + Duration.Minute).
Definition slot0 : Slot := mkSlot "p1" (day 739000) (day 739000) SlotSkipped (Lit "late") "".
Definition db0 : DB :=
  apply_op (OpClaimSlot slot0 None "") (apply_op (OpCreatePlan plan1) db_empty).
#[local] Existing Instance at_night.

Lemma forever sched : fires_forever sched.
Proof.
  intros t. unfold Next. cbn [spec_Next nightly].
  pose proof (Z.mod_pos_bound t Time.day_ns ltac:(reflexivity)). pose proof (Z.div_mod t Time.day_ns ltac:(discriminate)).
  nia.
Qed.

Lemma db0_wf : db_wf db0.
Proof.
  unfold db0. refine (db_wf_op (OpClaimSlot slot0 None "") _ (db_wf_op (OpCreatePlan plan1) _ _)).
  split; cbn; intros; simplify_map_eq.
Qed.

(** The pass queues the drill of the night. *)
Definition after_pass : DB := sd_db (Tick opts1 (mkSched db0 0 ∅)).2.
Definition slot1 : Slot :=
  mkSlot "p1" (day 739001) (day 739001 + Duration.Minute) SlotQueued (Lit "") "r1".
Example pass_queues :
  map snd (map_to_list (db_runs after_pass)) <> [] /\ LastSlot "p1" after_pass = inr slot1.
Proof. vm_compute. split; [discriminate | reflexivity]. Qed.

Lemma decide_spec_witness :
  day 739000 < day 739001 /\ first_slot midnight (Some slot0) 0 <= day 739001 + Duration.Minute.
Proof.
  assert (E : decide_slot (Some midnight) (Some slot0) 0 (day 739001 + Duration.Minute)
      DefaultGracePeriod = Some (mkDecision (day 739001) false (Lit ""))) by (vm_compute; reflexivity).
  pose proof (decide_spec midnight (Some slot0) 0 (day 739001 + Duration.Minute)
    DefaultGracePeriod (forever _)) as H.
  cbv zeta in H. rewrite E in H. destruct H as (H0 & H1 & _). exact (conj H1 H0).
Defined.

Lemma slots_go_forward_witness :
  slot_PlanID slot1 = "p1" /\ slot_SlotAt slot0 < slot_SlotAt slot1.
Proof.
  assert (Hc : considered opts1 plan1 true db0 after_pass).
  { refine (cd_queued opts1 plan1 db0 after_pass (ApplyDefaults drill) midnight
      (day 739001 + Duration.Minute) (day 739001) (day 739001 + Duration.Minute) "r1" "drill" _ _ _ _ _ _ _).
    1-5: vm_refl.
    - exists 0%nat. reflexivity.
    - vm_refl. }
  assert (Hp : Parse (yaml_Unmarshal (sp_YAML plan1)) = inr (ApplyDefaults drill)) by vm_refl.
  assert (Hn : db_slots db0 !! ("p1", day 739001) = None) by vm_refl.
  assert (Hs : db_slots after_pass !! ("p1", day 739001) = Some slot1) by vm_refl.
  assert (H0 : db_slots db0 !! ("p1", day 739000) = Some slot0) by vm_refl.
  pose proof (slots_go_forward opts1 plan1 true db0 after_pass (ApplyDefaults drill) forever db0_wf Hp Hc _ _ Hn Hs)
    as [H1 H2].
  exact (conj H1 (H2 _ _ H0 eq_refl)).
Defined.

Lemma Tick_bounded_witness :
  exists s', Tick opts1 (mkSched db0 0 ∅) = (Ret tt, s') /\
    Z.of_nat (pending (db_runs (sd_db s'))) <= 5 /\ accounted db0 (sd_db s').
Proof.
  assert (Hid : forall n, env_newID n <> "") by (intros n; change ("r1" <> ""); discriminate).
  assert (Hmax : o_maxQueueDepth opts1 <= Z.of_nat DefaultListLimit) by (vm_compute; discriminate).
  destruct (Tick_bounded opts1 (mkSched db0 0 ∅) Hid) as (s' & E & Ha & _ & Hb).
  exists s'. exact (conj E (conj (Hb Hmax) Ha)).
Defined.

(** A schedule that never comes (the thirtieth of February) has its zero time
    recorded as a slot that is late. *)
#[local] Instance never : ScheduleEnv := {|
  Plan.Location := unit;
  CronSpec := unit;
  time_Local := tt;
  time_UTC := tt;
  LoadLocation _ := inr tt;
  ParseStandard _ := inr tt;
  spec_Next _ _ _ := Time.zero;
  wall_clock _ t := t;
|}.
Example never_fires : exists reason,
  decide_slot (Some (mkSchedule "0 0 30 2 *" tt tt)) None (day 739000) (day 739000) DefaultGracePeriod
  = Some (mkDecision Time.zero true reason).
Proof. apply decide_never_fires; [reflexivity | split; [discriminate|reflexivity] | reflexivity]. Qed.
End Nightly.
