(* ===== verification/EngineWorld.v ===== *)
(** * What a run does to its world

    An invariant of the trace and the world that every provider call keeps holds
    at the end of every run: the engine touches the world through its provider
    calls only. Such an invariant relates what a provider did to what the engine
    asked of it. *)

From Stdlib Require Import ZArith Lia String List.
From S2P Require Import Prelude GoTime Errors Core Plan Engine.

Section World.
Context {W : Type} `{!EngineEnv W} (J : list obs -> W -> Prop).

(** One call, with the observation it leaves. *)
Definition tracks {A} (ok : A -> call_end) (ctx : ctxkind) (c : provider_call) (op : M W (error + A)) : Prop :=
  forall t w, J t w -> J (t ++ [OCall ctx c (call_end_of ok (op w).1)]) (op w).2.
Abbreviation calls := (tracks (fun _ => EndOk)).

Class Tracked : Prop := {
  tr_event : forall t w e, J t w -> J (t ++ [OEvent e]) w;
  tr_now : forall t w, J t w -> J t (env_now w).2;
  tr_sleep : forall t w ctx d, J t w -> J t (env_sleep ctx d w).2;
  tr_GetWorkload ctx id : calls ctx (CallGetWorkload id) (hv_GetWorkload ctx id);
  tr_GetStatus ctx id : tracks EndStatus ctx (CallGetStatus id) (hv_GetStatus ctx id);
  tr_Allocate ctx : tracks EndID ctx CallAllocateWorkloadID (hv_AllocateWorkloadID ctx);
  tr_Restore ctx b o : calls ctx (CallRestore b o) (hv_Restore ctx b o);
  tr_WaitForJob ctx j : calls ctx CallWaitForJob (hv_WaitForJob ctx j);
  tr_Start ctx id : calls ctx (CallStart id) (hv_Start ctx id);
  tr_Stop ctx id : calls ctx (CallStop id) (hv_Stop ctx id);
  tr_Delete ctx id : calls ctx (CallDelete id) (hv_Delete ctx id);
  tr_Validator f ctx n c : hv_NetworkValidator = Some f -> calls ctx (CallValidateIsolation n c) (f ctx n c);
  tr_Capacity f ctx n : hv_CapacityReporter = Some f -> calls ctx (CallNodeCapacity n) (f ctx n);
  tr_Finalizer f ctx o : hv_finalizer = Some f -> calls ctx (CallFinalizeRestore o) (f ctx o);
  tr_ListBackups ctx id : calls ctx (CallListBackups id) (backups_ListBackups ctx id);
  tr_GetLatest ctx id : calls ctx (CallGetLatestBackup id) (backups_GetLatestBackup ctx id);
  tr_RunAll ctx tg cfgs t w : J t w -> forall r, J (t ++ [OCall ctx CallRunAll r]) (checks_RunAll ctx tg cfgs w).2;
}.
Context {HT : Tracked}.

Definition tracked (s s' : ES (W := W)) : Prop := J (es_trace s) (es_world s) -> J (es_trace s') (es_world s').
#[export] Instance tracked_preorder : PreOrder tracked.
Proof. split; [by intros ??|]. unfold tracked. intros ???. tauto. Qed.

Abbreviation T := tracked.
Lemma T_modify f : (forall s : ES, es_trace (f s) = es_trace s /\ es_world (f s) = es_world s) -> keeps T (modify f).
Proof. intros H s. unfold tracked. cbn. by destruct (H s) as [-> ->]. Qed.
Lemma T_update f : keeps T (update_run f).
Proof. by apply T_modify. Qed.
Lemma T_emit e : keeps T (emit e).
Proof. intros s Hs. by apply tr_event. Qed.
Lemma T_now : keeps T now.
Proof. intros s Hs. unfold now. pose proof (tr_now _ _ Hs) as H. by destruct (env_now (es_world s)). Qed.
Lemma T_sleep ctx d : keeps T (sleep ctx d).
Proof. intros s Hs. unfold sleep. pose proof (tr_sleep _ _ ctx d Hs) as H. by destruct (env_sleep ctx d (es_world s)). Qed.
Lemma T_call_with {A} ok ctx c (op : M W (error + A)) : tracks ok ctx c op -> keeps T (call_with ok ctx c op).
Proof. intros Hop s Hs. specialize (Hop _ _ Hs). unfold call_with. by destruct (op (es_world s)). Qed.
Lemma T_call {A} ctx c (op : M W (error + A)) : calls ctx c op -> keeps T (call ctx c op).
Proof. apply T_call_with. Qed.
Lemma T_RunAll ctx tg cfgs : keeps T (call_total EndChecks ctx CallRunAll (checks_RunAll ctx tg cfgs)).
Proof.
  intros s Hs. pose proof (tr_RunAll ctx tg cfgs _ _ Hs) as H. unfold call_total.
  destruct (checks_RunAll ctx tg cfgs (es_world s)) as [o w]. apply H.
Qed.
Lemma T_deref {A} (o : option A) : keeps T (deref o).
Proof. destruct o; [apply keeps_ret|apply keeps_throw]; apply _. Qed.
Lemma T_run : keeps T run_.
Proof. apply keeps_gets. apply _. Qed.
Lemma T_retry {A} ctx n b (fn : M ES (error + A)) : keeps T fn -> keeps T (retry ctx n b fn).
Proof.
  intros Hf. unfold retry. set (k := Z.to_nat _). clearbody k. induction k as [|k IH]; cbn [retry_loop];
    (apply keeps_bind; [apply _|done|]); intros [e|a]; try (apply keeps_ret; apply _);
    destruct (negb (IsRetryable e)); try (apply keeps_ret; apply _).
  apply keeps_bind; [apply _|apply T_sleep|]. intros [?|]; [apply keeps_ret; apply _|exact IH].
Qed.

Hint Resolve T_update T_emit T_now T_sleep T_call_with T_call T_RunAll T_deref T_run T_retry
  tr_GetWorkload tr_GetStatus tr_Allocate tr_Restore tr_WaitForJob tr_Start tr_Stop tr_Delete tr_Validator tr_Capacity tr_Finalizer
  tr_ListBackups tr_GetLatest : keeps.
(** Like [keeps_auto], remembering which optional capability a branch found. *)
Ltac T_step :=
  match goal with
  | |- forall _, _ => intro
  | |- keeps _ (mbind _ _) => apply keeps_bind; [typeclasses eauto | | ]
  | |- keeps _ (try _) => apply keeps_try
  | |- keeps _ (if ?b then _ else _) => destruct b
  | |- keeps _ (match ?x with _ => _ end) => destruct x eqn:?
  | |- keeps _ (modify _) => by apply T_modify
  | |- keeps _ _ => solve [eauto 4 with keeps typeclass_instances]
  end.
Ltac T_auto := repeat T_step.

Lemma T_beginStep n st : keeps T (beginStep n st).
Proof. unfold beginStep. cbv zeta. T_auto. Qed.
Lemma T_endStep i st m e : keeps T (endStep i st m e).
Proof. unfold endStep. cbv zeta. T_auto. Qed.
Hint Resolve T_beginStep T_endStep : keeps.
Lemma T_failStep {A} i m e : keeps T (failStep (A := A) i m e).
Proof. unfold failStep. T_auto. Qed.
Lemma T_emit_checks l : keeps T (emit_checks l).
Proof. induction l as [|r l IH]; cbn [emit_checks]; T_auto. Qed.
Hint Resolve T_failStep T_emit_checks : keeps.
Lemma T_discoverBackup p : keeps T (discoverBackup p).
Proof. unfold discoverBackup, resolveSourceName, resolveBackup. cbv zeta. T_auto. Qed.
Lemma T_resolveNode p opts : keeps T (resolveNode p opts).
Proof. unfold resolveNode. cbv zeta. T_auto. Qed.
Lemma T_isolation node net : keeps T (checkNetworkIsolation node net).
Proof. unfold checkNetworkIsolation. T_auto. Qed.
Lemma T_capacity node m : keeps T (checkCapacity node m).
Proof. unfold checkCapacity. cbv zeta. T_auto. Qed.
Hint Resolve T_discoverBackup T_resolveNode T_isolation T_capacity : keeps.
Lemma T_prepareEnvironment p opts : keeps T (prepareEnvironment p opts).
Proof. unfold prepareEnvironment. cbv zeta. T_auto. Qed.
Lemma T_restoreWorkload p opts pr : keeps T (restoreWorkload p opts pr).
Proof. unfold restoreWorkload. cbv zeta. T_auto. Qed.
Lemma T_startWorkload p id : keeps T (startWorkload p id).
Proof. unfold startWorkload. T_auto. Qed.
Lemma T_waitLoop fuel p id idx t d : keeps T (waitLoop fuel p id idx t d).
Proof.
  induction fuel as [|fuel IH]; cbn [waitLoop]; [by intros s|]. unfold pollStatus. cbv zeta. T_auto.
Qed.
Hint Resolve T_waitLoop : keeps.
Lemma T_waitForGuest p id : keeps T (waitForGuest p id).
Proof. unfold waitForGuest. cbv zeta. T_auto. Qed.
Lemma T_runChecks p t : keeps T (runChecks p t).
Proof. unfold runChecks. cbv zeta. T_auto. Qed.
Lemma T_runDryRun p opts : keeps T (runDryRun p opts).
Proof. unfold runDryRun, dryFail, markFailed. T_auto. Qed.
Lemma T_cleanup p opts id node n : keeps T (cleanup p opts id node n).
Proof. unfold cleanup, destroy, recordCleanupSkipped. cbv zeta. T_auto. Qed.
Hint Resolve T_prepareEnvironment T_restoreWorkload T_startWorkload T_waitForGuest T_runChecks T_runDryRun T_cleanup : keeps.

Lemma T_run_body p opts : keeps T (run_body p opts).
Proof.
  unfold run_body, workflow, orFail, settle_workflow, markFailed, markCancelled, markInconclusive,
    measureRTO, gradeSuccess, finalize. cbv zeta. T_auto.
Qed.

(** What holds of the empty trace holds at the end of a run. *)
Lemma run_tracked p opts w : J [] w -> J (es_trace (Run p opts w).2) (es_world (Run p opts w).2).
Proof.
  intros Hw. unfold Run. apply (T_run_body p opts (newRun p opts w)). unfold newRun.
  pose proof (tr_now _ _ Hw) as H. by destruct (env_now w).
Qed.
End World.
