(* ===== verification/Pve.v ===== *)
(** * The client of the Proxmox VE API

    Models internal/providers/proxmox/client.go and types.go: one request and the
    reading of its answer. What the cluster answers is the class [PveEnv]; the
    state is the log of the requests made, each with what was read of its answer. *)

From Stdlib Require Import ZArith Lia String Ascii List.
From S2P Require Import Prelude GoTime GoFloat Errors Core GoString GoStrconv.

(** ** Loosely typed values (types.go) *)

Definition asString (v : any) : string :=
  match v with
  | AnyNil => ""
  | AnyString t => t
  | AnyFloat t => format_shortest t
  | AnyBool t => if t then "1" else "0"
  | v => fmt_v v
  end.
Definition asFloat (v : any) : float64 :=
  match v with
  | AnyFloat t => t
  | AnyString t => match read_float t with Some (f, _) => f | None => S754_zero false end
  | AnyBool true => fone
  | _ => S754_zero false
  end.
Definition asInt (v : any) : Z := int_of_float (asFloat v).
Definition asInt64 (v : any) : Z := int_of_float (asFloat v).
Definition asBool (v : any) : bool :=
  match v with
  | AnyBool t => t
  | AnyFloat t => negb (feqb t (S754_zero false))
  | AnyString t => bool_decide (t = "1") || bool_decide (t = "true") || bool_decide (t = "yes")
  | _ => false
  end.
Definition idString (v : any) : string := pretty (asInt v).

(** A decoded object, and a field of it: nil when it is not there. *)
Abbreviation Object := (gmap string any).
Definition field (e : Object) (k : string) : any := default AnyNil (e !! k).
Definition fieldString (e : Object) (k : string) : string := asString (field e k).

(** ** Configuration (client.go) *)

Record PveConfig := mkPveConfig {
  pc_ID : string;
  pc_Endpoint : string;
  pc_TokenID : string;
  pc_TokenSecret : string;
  pc_InsecureSkipVerify : bool;
  pc_CACertPEM : string;
  pc_Timeout : Z;
  pc_BackupStorage : string;
  pc_TempIDMin : Z;
  pc_TempIDMax : Z;
  pc_NamePrefix : string;
}.

Definition DefaultTempIDMin : Z := 9000.
Definition DefaultTempIDMax : Z := 9999.

(** [New]: the configuration in force. [certs] says whether a text holds a
    certificate. *)
Definition NewProvider (certs : string -> bool) (cfg : PveConfig) : error + PveConfig :=
  if negb (nonempty (pc_Endpoint cfg)) then inl (ENew (Lit "proxmox: Endpoint is required")) else
  if negb (nonempty (pc_TokenID cfg)) then inl (ENew (Lit "proxmox: TokenID is required")) else
  if negb (nonempty (pc_TokenSecret cfg)) then inl (ENew (Lit "proxmox: TokenSecret is required")) else
  let endpoint := trim_right_by (Ascii.eqb "/") (pc_Endpoint cfg) in
  let timeout := if pc_Timeout cfg <=? 0 then 30 * Duration.Second else pc_Timeout cfg in
  let idMin := if pc_TempIDMin cfg <=? 0 then DefaultTempIDMin else pc_TempIDMin cfg in
  let idMax := if pc_TempIDMax cfg <=? 0 then DefaultTempIDMax else pc_TempIDMax cfg in
  if idMax <? idMin then
    inl (ENew (Sprintf "proxmox: TempIDMin (%d) must be <= TempIDMax (%d)" [AInt idMin; AInt idMax])) else
  let prefix := if nonempty (pc_NamePrefix cfg) then pc_NamePrefix cfg else "restorelab" in
  if nonempty (pc_CACertPEM cfg) && negb (certs (pc_CACertPEM cfg)) then
    inl (ENew (Lit "proxmox: CACertPEM does not contain a valid PEM certificate")) else
  inr (mkPveConfig (pc_ID cfg) endpoint (pc_TokenID cfg) (pc_TokenSecret cfg) (pc_InsecureSkipVerify cfg)
         (pc_CACertPEM cfg) timeout (pc_BackupStorage cfg) idMin idMax prefix).

(** ** Requests *)

Inductive http_method := MethodGet | MethodPost | MethodPut | MethodDelete.
#[export] Instance http_method_eq_dec : EqDecision http_method.
Proof. solve_decision. Defined.
Definition method_text (m : http_method) : string :=
  match m with MethodGet => "GET" | MethodPost => "POST" | MethodPut => "PUT" | MethodDelete => "DELETE" end.

(** [url.Values]. *)
Abbreviation Values := (gmap string (list string)).
Definition set_value (k v : string) (form : Values) : Values := <[k := [v]]> form.
Record PveRequest := mkPveRequest { pq_method : http_method; pq_path : text; pq_params : Values }.

(** How an exchange ends: a request that cannot be built, no response, a body cut
    off, or a status with the start of the body and the [data] of its envelope. *)
Inductive pve_reply :=
| Unbuilt (err : error)
| NoReply (err : error)
| CutOff (err : error)
| Replied (status : Z) (snippet : string) (data : error + option any).

(** What the client logs: a request and what was read of its answer. *)
Record exchange := mkExchange { ex_request : PveRequest; ex_answer : error + option any }.
Record Pve := mkPve { pv_log : list exchange; pv_now : Z }.

(** The cluster, the context, the clock and the JSON library. An answer may
    depend on the number of exchanges before it; [json_error what data] is the
    error of reading [data] as [what]; [task_polls] is how many polls of one task
    are followed. *)
Class PveEnv := {
  pve_answer : nat -> PveRequest -> pve_reply;
  pve_ctx : nat -> option sentinel;
  pve_done : nat -> option sentinel;
  pve_clock : nat -> Z;
  task_polls : nat;
  json_error : string -> option any -> error;
  json_agentInterfaces : any -> error + list (list string);
  json_agentOSInfo : any -> error + (string * string * string * string * string * string);
  json_text : string -> option any;
  ip_unusable : string -> bool;
}.

Section Client.
Context `{PveEnv}.
Abbreviation PM := (M Pve).

Definition errBodyTruncateLen : Z := 512.

(** [mapStatusError], given the body cut to [errBodyTruncateLen] bytes. *)
Definition mapStatusError (status : Z) (method : http_method) (path : text) (snippet : string) : error :=
  let base := ENew (Sprintf "proxmox: %s %s: unexpected status %d: %s" [AStr (method_text method); AText path; AInt status; AStr snippet]) in
  let labelled (s : sentinel) := EWrap (Sprintf "%w: %w" [AStr (sentinel_text s); AText (Error base)]) (EJoin (ESentinel s) base) in
  if (status =? 401) || (status =? 403) then labelled ErrUnauthorized
  else if status =? 404 then labelled ErrNotFound
  else if 500 <=? status then ERetryable base
  else base.

(** [request]. *)
Definition read_reply (n : nat) (q : PveRequest) (r : pve_reply) : error + option any :=
  let '(method, path) := (AStr (method_text (pq_method q)), AText (pq_path q)) in
  match r with
  | Unbuilt err => inl (EWrap (Sprintf "proxmox: build request %s %s: %w" [method; path; AText (Error err)]) err)
  | NoReply err =>
    match pve_ctx n with
    | Some s => inl (ESentinel s)
    | None => inl (ERetryable (EWrap (Sprintf "proxmox: %s %s: %w" [method; path; AText (Error err)]) err))
    end
  | CutOff err =>
    inl (ERetryable (EWrap (Sprintf "proxmox: reading response body for %s %s: %w" [method; path; AText (Error err)]) err))
  | Replied status snippet data =>
    if 400 <=? status then inl (mapStatusError status (pq_method q) (pq_path q) snippet) else
    match data with
    | inl err => inl (EWrap (Sprintf "proxmox: decode response for %s %s: %w" [method; path; AText (Error err)]) err)
    | inr data => inr data
    end
  end.
Definition request (method : http_method) (path : text) (params : Values) : PM (error + option any) := fun s =>
  let n := length (pv_log s) in
  let q := mkPveRequest method path params in
  let a := read_reply n q (pve_answer n q) in
  (Ret a, mkPve (pv_log s ++ [mkExchange q a]) (pve_clock n)).
Definition pve_get (path : text) (params : Values) : PM (error + option any) := request MethodGet path params.
Definition pve_post (path : text) (params : Values) : PM (error + option any) := request MethodPost path params.
Definition pve_delete (path : text) (params : Values) : PM (error + option any) := request MethodDelete path params.

(** [Ping]. *)
Definition Ping : PM (error + unit) :=
  r ← pve_get (Lit "/version") ∅;
  mret (match r with inl e => inl e | inr _ => inr tt end).

(** ** Reading an answer *)

(** [json.Unmarshal] into a string, an object and a list of objects: null leaves
    them empty. *)
Definition as_text (data : option any) : error + string :=
  match data with
  | Some (AnyString s) => inr s
  | Some AnyNil => inr ""
  | _ => inl (json_error "string" data)
  end.
Definition object_of (l : list (string * any)) : Object := list_to_map l.
Definition as_object (data : option any) : error + Object :=
  match data with
  | Some (AnyMap l) => inr (object_of l)
  | Some AnyNil => inr ∅
  | _ => inl (json_error "map[string]any" data)
  end.
Definition row_of (v : any) : option Object :=
  match v with AnyMap l => Some (object_of l) | AnyNil => Some ∅ | _ => None end.
Definition as_objects (data : option any) : error + list Object :=
  match data with
  | Some (AnyList l) => match mapM row_of l with Some rows => inr rows | None => inl (json_error "[]map[string]any" data) end
  | Some AnyNil => inr []
  | _ => inl (json_error "[]map[string]any" data)
  end.

(** Reading with [f], under the message of the caller. *)
Definition decoded {A} (f : option any -> error + A) (fmt : string) (args : list arg) (data : option any) : error + A :=
  match f data with
  | inl err => inl (EWrap (Sprintf fmt (args ++ [AText (Error err)])) err)
  | inr a => inr a
  end.

(** A call and the reading of its answer. *)
Definition asked {A} (m : PM (error + option any)) (f : option any -> error + A) (fmt : string) (args : list arg) : PM (error + A) :=
  r ← m;
  mret (match r with inl e => inl e | inr data => decoded f fmt args data end).
End Client.
