(* ===== verification/Pbs.v ===== *)
(** * The Proxmox Backup Server provider

    Models internal/providers/pbs: the configuration and what a connection accepts
    (client.go), one request and the reading of its answer, the numbers that the
    server writes as numbers or as strings (jsonnumber.go), and the listing of the
    snapshots of a workload (provider.go, types.go). What the server answers, the
    JSON library and SHA-256 are the class [PbsEnv]; the state is the log of the
    requests. *)

From Stdlib Require Import ZArith Lia String Ascii List Sorting.Permutation.
From stdpp Require Import strings sorting.
From S2P Require Import Prelude GoTime Errors Core GoString GoStrconv Secrets Plan.

(** ** Configuration (client.go) *)

Record PbsConfig := mkPbsConfig {
  bc_ID : string;
  bc_Endpoint : string;
  bc_TokenID : string;
  bc_TokenSecret : string;
  bc_Datastore : string;
  bc_PVEStorage : string;
  bc_InsecureSkipVerify : bool;
  bc_CACertPEM : string;
  bc_Fingerprint : string;
  bc_SkipFailedVerification : bool;
  bc_Timeout : Z;
}.

(** How the certificate of the server is judged: by its fingerprint, by a chain of
    trust (from a given root, or from the system's), or not at all. *)
Inductive trust := Pinned (fingerprint : string) | Chained (roots : option string) | Unverified.

Definition remove_char (c : ascii) : string -> string :=
  fix go s := match s with
              | EmptyString => EmptyString
              | String a s => if Ascii.eqb a c then go s else String a (go s)
              end.

(** [normalizeFingerprint]. [certs] says whether a text holds a certificate,
    [hex_error] is the error of [hex.DecodeString]. *)
Section Configuration.
Context (certs : string -> bool) (hex_error : string -> error).
Definition normalizeFingerprint (fp : string) : error + string :=
  let s := ToLower (remove_char ":" fp) in
  if negb (Nat.eqb (String.length s) 64) then
    inl (ENew (Sprintf "expected %d hex characters (colons optional), got %d" [AInt 64; AInt (Z.of_nat (String.length s))]))
  else match unhex s with
       | None => inl (EWrap (Sprintf "not valid hex: %w" [AText (Error (hex_error s))]) (hex_error s))
       | Some _ => inr s
       end.

(** [buildTLSConfig]. *)
Definition buildTLSConfig (cfg : PbsConfig) : error + trust :=
  if nonempty (bc_Fingerprint cfg) then
    match normalizeFingerprint (bc_Fingerprint cfg) with
    | inl e => inl (EWrap (Sprintf "pbs: invalid Fingerprint: %w" [AText (Error e)]) e)
    | inr want => inr (Pinned want)
    end
  else if nonempty (bc_CACertPEM cfg) && negb (certs (bc_CACertPEM cfg)) then
    inl (ENew (Lit "pbs: CACertPEM does not contain a valid PEM certificate"))
  else if bc_InsecureSkipVerify cfg then inr Unverified
  else inr (Chained (if nonempty (bc_CACertPEM cfg) then Some (bc_CACertPEM cfg) else None)).

(** [New]: the configuration in force and how it trusts the server. *)
Definition pbsTimeout : Z := 30 * Duration.Second.
Definition blank (s : string) : bool := negb (nonempty (TrimSpace s)).
Definition NewPbs (cfg : PbsConfig) : error + (PbsConfig * trust) :=
  if blank (bc_Endpoint cfg) then inl (ENew (Lit "pbs: Endpoint is required")) else
  if blank (bc_TokenID cfg) then inl (ENew (Lit "pbs: TokenID is required")) else
  if blank (bc_TokenSecret cfg) then inl (ENew (Lit "pbs: TokenSecret is required")) else
  if blank (bc_Datastore cfg) then inl (ENew (Lit "pbs: Datastore is required")) else
  let timeout := if bc_Timeout cfg <=? 0 then pbsTimeout else bc_Timeout cfg in
  let storage := if blank (bc_PVEStorage cfg) then bc_Datastore cfg else bc_PVEStorage cfg in
  match buildTLSConfig cfg with
  | inl e => inl e
  | inr t =>
    inr (mkPbsConfig (bc_ID cfg) (trim_right_by (Ascii.eqb "/") (bc_Endpoint cfg)) (bc_TokenID cfg) (bc_TokenSecret cfg)
           (bc_Datastore cfg) storage (bc_InsecureSkipVerify cfg) (bc_CACertPEM cfg) (bc_Fingerprint cfg)
           (bc_SkipFailedVerification cfg) timeout, t)
  end.
End Configuration.

(** [VerifyPeerCertificate], and what a connection then accepts: [chain] says whether
    a chain of certificates is trusted from given roots. *)
Definition verify_pinned (sha256 : string -> string) (want : string) (rawCerts : list string) : option error :=
  match rawCerts with
  | [] => Some (ENew (Lit "pbs: server presented no certificate"))
  | leaf :: _ =>
    if bool_decide (hex (sha256 leaf) = want) then None
    else Some (ENew (Sprintf "pbs: certificate fingerprint mismatch (got %s)" [AStr (hex (sha256 leaf))]))
  end.
Definition accepts (sha256 : string -> string) (chain : option string -> list string -> bool) (t : trust) (rawCerts : list string) : bool :=
  match t with
  | Pinned want => negb (is_some (verify_pinned sha256 want rawCerts))
  | Chained roots => chain roots rawCerts
  | Unverified => true
  end.

(** ** Rows (types.go, jsonnumber.go) *)

(** A number as the JSON text has it: absent, or a token. *)
Definition jsonNumber : Type := string.
Definition raw_number : Type := option string.

Record DatastoreEntry := mkDatastoreEntry { de_Store : string; de_Name : string; de_Path : string; de_Comment : string }.
Record Datastore := mkDatastore { ds_Name : string; ds_Path : string; ds_Comment : string }.
Record SnapshotEntry := mkSnapshotEntry {
  sn_BackupType : string;
  sn_BackupID : string;
  sn_BackupTime : raw_number;
  sn_Size : raw_number;
  sn_Protected : bool;
  sn_Comment : string;
  sn_Verification : option string;
  sn_CryptModes : list string;
}.

Section Numbers.
(** [json.Unmarshal] of a token into a string. *)
Context (unquote : string -> error + string).

(** [UnmarshalJSON]. *)
Definition is_quoted (s : string) : bool := (2 <=? String.length s)%nat && HasPrefix s dquote && HasSuffix s dquote.
Definition UnmarshalNumber (b : string) : error + jsonNumber :=
  let s := TrimSpace b in
  if bool_decide (s = "null") || negb (nonempty s) then inr ""
  else if is_quoted s then
    match unquote b with
    | inl e => inl (EWrap (Sprintf "pbs: decoding quoted number: %w" [AText (Error e)]) e)
    | inr u => inr u
    end
  else inr s.
(** A field that is absent keeps its zero value. *)
Definition number_field (r : raw_number) : error + jsonNumber :=
  match r with None => inr "" | Some b => UnmarshalNumber b end.
End Numbers.

(** [Int64], with the error of [strconv.ParseInt]. *)
Definition decimal (s : string) : bool :=
  let d := match s with String c r => if Ascii.eqb c "-" || Ascii.eqb c "+" then r else s | EmptyString => s end in
  nonempty d && negb (existsb_char (fun c => negb (is_digit c)) d).
Definition num_error (s : string) : error :=
  ENew (Sprintf "strconv.ParseInt: parsing %q: %s" [AStr s; AStr (if decimal s then "value out of range" else "invalid syntax")]).
Definition Int64 (n : jsonNumber) : error + Z :=
  if negb (nonempty n) then inr 0 else
  match Atoi n with
  | Some v => inr v
  | None => inl (EWrap (Sprintf "pbs: %q is not an integer: %w" [AStr n; AText (Error (num_error n))]) (num_error n))
  end.

(** ** Requests *)

Record PbsRequest := mkPbsRequest { bq_Path : text; bq_Query : gmap string string; bq_Authorization : string }.
(** A request that cannot be built, no response, a body cut off, or a status and a
    body. *)
Inductive pbs_reply := PbsUnbuilt (e : error) | PbsNoReply (e : error) | PbsCutOff (e : error) | PbsReplied (status : Z) (body : string).

Class PbsEnv := {
  pbs_answer : nat -> PbsRequest -> pbs_reply;
  json_data : string -> error + string;
  json_version : string -> error + unit;
  json_datastores : string -> error + list DatastoreEntry;
  json_snapshots : string -> error + list SnapshotEntry;
  json_unquote : string -> error + string;
  path_escape : string -> string;
}.

(** [truncateBody] and [mapStatusError]. *)
Definition maxErrorBodyBytes : nat := 512.
Definition truncateBody (b : string) : string :=
  let s := TrimSpace b in
  if (String.length s <=? maxErrorBodyBytes)%nat then s else String.substring 0 maxErrorBodyBytes s +:+ "...(truncated)".
Definition pbsStatusError (status : Z) (path : text) (body : string) : error :=
  let snippet := truncateBody body in
  let labelled (s : sentinel) :=
    EWrap (Sprintf "%w: pbs: %s: status %d: %s" [AStr (sentinel_text s); AText path; AInt status; AStr snippet]) (ESentinel s) in
  if (status =? 401) || (status =? 403) then labelled ErrUnauthorized
  else if status =? 404 then labelled ErrNotFound
  else if 500 <=? status then ERetryable (ENew (Sprintf "pbs: %s: status %d: %s" [AText path; AInt status; AStr snippet]))
  else ENew (Sprintf "pbs: %s: unexpected status %d: %s" [AText path; AInt status; AStr snippet]).

Section Provider.
Context `{PbsEnv} (cfg : PbsConfig).
Abbreviation BM := (M (list PbsRequest)).

(** [get], its envelope, and its data read by [f]. *)
Definition read_body {A} (path : text) (f : string -> error + A) (r : pbs_reply) : error + A :=
  let wrapped what e := EWrap (Sprintf what [AText path; AText (Error e)]) e in
  match r with
  | PbsUnbuilt e => inl (wrapped "pbs: building request for %s: %w" e)
  | PbsNoReply e => inl (ERetryable (wrapped "pbs: request to %s failed: %w" e))
  | PbsCutOff e => inl (ERetryable (wrapped "pbs: reading response from %s: %w" e))
  | PbsReplied status body =>
    if negb (status =? 200) then inl (pbsStatusError status path body) else
    match json_data body with
    | inl e => inl (wrapped "pbs: decoding envelope from %s: %w" e)
    | inr data =>
      match f data with
      | inl e => inl (wrapped "pbs: decoding data from %s: %w" e)
      | inr a => inr a
      end
    end
  end.
Definition pbs_get {A} (path : text) (query : gmap string string) (f : string -> error + A) : BM (error + A) := fun log =>
  let q := mkPbsRequest path query ("PBSAPIToken=" +:+ bc_TokenID cfg +:+ ":" +:+ bc_TokenSecret cfg) in
  (Ret (read_body path f (pbs_answer (length log) q)), log ++ [q]).

(** [Ping] and [ListDatastores]. *)
Definition PbsPing : BM (error + unit) :=
  r ← pbs_get (Lit "/api2/json/version") ∅ json_version;
  mret (match r with inl e => inl (EWrap (Sprintf "pbs: ping: %w" [AText (Error e)]) e) | inr _ => inr tt end).
Definition datastore_of (e : DatastoreEntry) : Datastore :=
  mkDatastore (if nonempty (de_Store e) then de_Store e else de_Name e) (de_Path e) (de_Comment e).
Definition ListDatastores : BM (error + list Datastore) :=
  r ← pbs_get (Lit "/api2/json/admin/datastore") ∅ json_datastores;
  mret (match r with
        | inl e => inl (EWrap (Sprintf "pbs: listing datastores: %w" [AText (Error e)]) e)
        | inr entries => inr (map datastore_of entries)
        end).

(** ** Snapshots (provider.go) *)

(** [SnapshotPath], [volID], [verificationState] and [isEncrypted]. *)
Definition SnapshotPath (type id : string) (t : Z) : string := type +:+ "/" +:+ id +:+ "/" +:+ Time.format_rfc3339 t.
Definition volID (pveStorage workloadID : string) (t : Z) : string :=
  pveStorage +:+ ":backup/vm/" +:+ workloadID +:+ "/" +:+ Time.format_rfc3339 t.
Definition verificationState (v : option string) : VerificationState :=
  match v with
  | None => VerificationNone
  | Some state =>
    if bool_decide (state = "ok") then VerificationOK
    else if bool_decide (state = "failed") then VerificationFailed
    else VerificationUnknown
  end.
Definition isEncrypted (modes : list string) : bool :=
  existsb (fun m => nonempty m && negb (bool_decide (m = "none"))) modes.

(** [toBackup], of a row whose numbers were read. *)
Definition snapshot_error (e : SnapshotEntry) (field : string) (err : error) : error :=
  EWrap (Sprintf ("snapshot %s/%s: " +:+ field +:+ ": %w") [AStr (sn_BackupType e); AStr (sn_BackupID e); AText (Error err)]) err.
Definition toBackup (e : SnapshotEntry) (time size : jsonNumber) : error + Backup :=
  match Int64 time with
  | inl err => inl (snapshot_error e "backup-time" err)
  | inr ts =>
    let createdAt := Time.of_unix ts in
    match Int64 size with
    | inl err => inl (snapshot_error e "size" err)
    | inr size =>
      inr (mkBackup (volID (bc_PVEStorage cfg) (sn_BackupID e) createdAt) (sn_BackupID e) (bc_ID cfg) (bc_Datastore cfg) "" createdAt size
             (sn_Protected e) (isEncrypted (sn_CryptModes e)) (verificationState (sn_Verification e)) "pbs" (sn_Comment e))
    end
  end.

(** The rows of the answer, whose numbers the JSON library reads with
    [UnmarshalJSON]; then the backups. *)
Definition numbered (e : SnapshotEntry) : error + (SnapshotEntry * jsonNumber * jsonNumber) :=
  match number_field json_unquote (sn_BackupTime e) with
  | inl err => inl err
  | inr time => match number_field json_unquote (sn_Size e) with inl err => inl err | inr size => inr (e, time, size) end
  end.
Fixpoint collect {A B} (f : A -> error + B) (l : list A) : error + list B :=
  match l with
  | [] => inr []
  | a :: l => match f a with
              | inl err => inl err
              | inr b => match collect f l with inl err => inl err | inr bs => inr (b :: bs) end
              end
  end.
Definition read_snapshots (data : string) : error + list (SnapshotEntry * jsonNumber * jsonNumber) :=
  match json_snapshots data with inl e => inl e | inr rows => collect numbered rows end.

(** [ListBackups]: newest first. The server names a snapshot of a workload by its
    time, so no two are of one time. *)
Definition newest_first (a b : Backup) : Prop := bk_CreatedAt b <= bk_CreatedAt a.
#[export] Instance newest_first_dec a b : Decision (newest_first a b).
Proof. unfold newest_first. apply _. Defined.
Definition backups_of (workloadID : string) (r : error + list (SnapshotEntry * jsonNumber * jsonNumber)) : error + list Backup :=
  let failed e := EWrap (Sprintf "pbs: listing backups for workload %s: %w" [AStr workloadID; AText (Error e)]) e in
  match r with
  | inl e => inl (failed e)
  | inr entries =>
    match collect (fun '(e, time, size) => toBackup e time size) entries with
    | inl e => inl (failed e)
    | inr backups => inr (merge_sort newest_first backups)
    end
  end.
Definition ListPbsBackups (workloadID : string) : BM (error + list Backup) :=
  r ← pbs_get (Sprintf "/api2/json/admin/datastore/%s/snapshots" [AStr (path_escape (bc_Datastore cfg))])
        {["backup-type" := "vm"; "backup-id" := workloadID]} read_snapshots;
  mret (backups_of workloadID r).

(** [GetLatestBackup]. *)
Definition skipped (b : Backup) : bool := bc_SkipFailedVerification cfg && bool_decide (bk_Verified b = VerificationFailed).
Definition GetLatestPbsBackup (workloadID : string) : BM (error + option Backup) :=
  r ← ListPbsBackups workloadID;
  mret (match r with
        | inl e => inl e
        | inr backups =>
          match List.find (fun b => negb (skipped b)) backups with
          | Some b => inr (Some b)
          | None => inl (ESentinel ErrNoBackup)
          end
        end).
End Provider.

(** ** What a connection accepts *)

Lemma NewPbs_trusts certs hex_error cfg cfg' t : NewPbs certs hex_error cfg = inr (cfg', t) -> buildTLSConfig certs hex_error cfg = inr t.
Proof.
  unfold NewPbs. do 4 (case_match; [discriminate|]). destruct (buildTLSConfig certs hex_error cfg); [discriminate|]. by intros [= _ ->].
Qed.
(** A pinned server is the one with that certificate, whatever the configuration
    says of roots and of verification. *)
Lemma pinned_server certs hex_error sha256 chain cfg cfg' t rawCerts :
  bc_Fingerprint cfg <> "" -> NewPbs certs hex_error cfg = inr (cfg', t) ->
  accepts sha256 chain t rawCerts = true <->
  exists leaf rest, rawCerts = leaf :: rest /\ hex (sha256 leaf) = ToLower (remove_char ":" (bc_Fingerprint cfg)).
Proof.
  intros Hf Hn%NewPbs_trusts. unfold buildTLSConfig, normalizeFingerprint in Hn. rewrite (proj2 (nonempty_spec _) Hf) in Hn.
  repeat case_match; simplify_eq. cbn [accepts]. destruct rawCerts as [|leaf rest]; cbn [verify_pinned].
  - split; [done|]. by intros (? & ? & ? & _).
  - destruct (bool_decide_reflect (hex (sha256 leaf) = ToLower (remove_char ":" (bc_Fingerprint cfg)))) as [Hs|Hs]; cbn.
    + split; [intros _; by exists leaf, rest|done].
    + split; [done|]. intros (l & r & [= <- <-] & ?). done.
Qed.
(** Nothing is left unverified unless the configuration says so, and names no
    certificate. *)
Lemma unverified_is_asked certs hex_error cfg cfg' :
  NewPbs certs hex_error cfg = inr (cfg', Unverified) -> bc_InsecureSkipVerify cfg = true /\ bc_Fingerprint cfg = "".
Proof.
  intros Hn%NewPbs_trusts. unfold buildTLSConfig in Hn. repeat case_match; simplify_eq. split; [done|]. by apply nonempty_false.
Qed.

(** ** What is listed *)

Section Listing.
Context `{PbsEnv} (cfg : PbsConfig).

Lemma newest_first_sorted l : Sorted newest_first (merge_sort newest_first l) /\ StronglySorted newest_first (merge_sort newest_first l).
Proof.
  assert (Transitive newest_first) by (unfold newest_first; intros ? ? ?; lia).
  assert (Total newest_first) by (unfold Total, newest_first; intros; lia).
  split; [apply Sorted_merge_sort|apply StronglySorted_merge_sort]; apply _.
Qed.
Lemma first_kept (f : Backup -> bool) l b : StronglySorted newest_first l -> List.find f l = Some b ->
  b ∈ l /\ f b = true /\ forall b', b' ∈ l -> f b' = true -> bk_CreatedAt b' <= bk_CreatedAt b.
Proof.
  induction 1 as [|a l Hl IH Ha]; [done|]. cbn. destruct (f a) eqn:Ef.
  - intros [= <-]. split; [by left|]. split; [done|]. intros b' [->|Hb]%elem_of_cons _; [lia|]. rewrite Forall_forall in Ha. by apply Ha.
  - intros E. destruct (IH E) as (Hin & Hf & Hn). split; [by right|]. split; [done|].
    intros b' [->|Hb]%elem_of_cons Hb'; [congruence|by apply Hn].
Qed.

Lemma ListPbsBackups_sorted w log l log' : ListPbsBackups cfg w log = (Ret (inr l), log') -> StronglySorted newest_first l.
Proof.
  intros (r & log1 & _ & E)%bind_Ret_inv. unfold backups_of in E. injection E as E _. repeat case_match; simplify_eq. apply newest_first_sorted.
Qed.

(** The backup that a drill restores is the newest one that may be used. It is
    among those the server listed, no other that may be used is later, and there is
    none exactly when the answer says so; when the listing fails, so does the
    choice. *)
Theorem latest_is_newest w log l :
  (ListPbsBackups cfg w log).1 = Ret (inr l) ->
  exists r log', GetLatestPbsBackup cfg w log = (Ret r, log') /\
    match r with
    | inr (Some b) => b ∈ l /\ skipped cfg b = false /\ forall b', b' ∈ l -> skipped cfg b' = false -> bk_CreatedAt b' <= bk_CreatedAt b
    | inr None => False
    | inl e => e = ESentinel ErrNoBackup /\ forall b, b ∈ l -> skipped cfg b = true
    end.
Proof.
  intros E. unfold GetLatestPbsBackup. destruct (ListPbsBackups cfg w log) as [x log1] eqn:El. cbn [fst] in E. subst x.
  rewrite (bind_Ret _ _ _ _ _ El). pose proof (ListPbsBackups_sorted w log l log1 El) as Hl.
  destruct (List.find (fun b => negb (skipped cfg b)) l) as [b|] eqn:Ef; eexists _, _; (split; [reflexivity|]).
  - destruct (first_kept _ _ _ Hl Ef) as (Hin & Hs & Hn). split; [done|]. split; [by apply negb_true_iff|].
    intros b' Hb Hs'. apply Hn; [done|]. by rewrite Hs'.
  - split; [done|]. intros b Hb. apply list_elem_of_In in Hb. pose proof (List.find_none _ _ Ef b Hb) as Hs. by apply negb_false_iff in Hs.
Qed.
End Listing.

(** ** Numbers *)

Lemma digits_no_space n s m : decimal_loop n s = Some m -> existsb_char is_space s = false.
Proof.
  revert n. induction s as [|c s IH]; intros n; [done|]. cbn. destruct (is_digit c) eqn:Hd; [|done]. intros E. rewrite (IH _ E), orb_false_r.
  clear -Hd. by destruct c as [[] [] [] [] [] [] [] []].
Qed.

(** A number is the same in quotes and without them. *)
Lemma number_either_way unquote (n : N) : (Z.of_N n < 2 ^ 63)%Z -> unquote (quoted (pretty n)) = inr (pretty n) ->
  UnmarshalNumber unquote (quoted (pretty n)) = inr (pretty n) /\ UnmarshalNumber unquote (pretty n) = inr (pretty n) /\
  Int64 (pretty n) = inr (Z.of_N n).
Proof.
  intros Hn Hu. destruct (pretty_N_read n) as [Hr Hh]. pose proof (digits_no_space _ _ _ Hr) as Hsp.
  assert (HasPrefix (pretty n) dquote = false /\ pretty n <> "" /\ pretty n <> "null") as (Hq & Hne & Hnull).
  { destruct (pretty n) as [|c s]; [done|]. cbn [digit_headed] in Hh. split_and!; [|done|].
    - destruct c as [[] [] [] [] [] [] [] []]; cbn in Hh; try discriminate; by destruct s.
    - intros [= -> _]. done. }
  unfold UnmarshalNumber. split_and!.
  - rewrite TrimSpace_id; [|unfold quoted; rewrite !existsb_char_app, Hsp; done].
    rewrite bool_decide_eq_false_2 by (unfold quoted; done). assert (is_quoted (quoted (pretty n)) = true) as ->.
    { unfold is_quoted, quoted. rewrite HasPrefix_app, andb_true_r. apply andb_true_iff. split; [by destruct (pretty n)|].
      unfold HasSuffix. rewrite !srev_app. exact (HasPrefix_app dquote (srev (pretty n) (srev dquote ""))). }
    by rewrite Hu.
  - rewrite TrimSpace_id, bool_decide_eq_false_2, (proj2 (nonempty_spec _) Hne) by done. cbn [orb negb]. unfold is_quoted. by rewrite Hq, andb_false_r.
  - unfold Int64. rewrite (proj2 (nonempty_spec _) Hne). cbn [negb]. by rewrite (proj1 (Atoi_digits _ _ Hr Hh ltac:(lia)) Hn).
Qed.

(** ** A server *)

Module Datastores.
(** Two snapshots of workload 101, the later of which failed its verification. *)
Definition snapshot (time : string) (v : option string) : SnapshotEntry :=
  mkSnapshotEntry "vm" "101" (Some time) (Some (quoted "4096")) false "" v ["none"].
#[export] Instance server : PbsEnv := {|
  pbs_answer _ _ := PbsReplied 200 "";
  json_data body := inr body;
  json_version _ := inr tt;
  json_datastores _ := inr [];
  json_snapshots _ := inr [snapshot "1735689600" (Some "ok"); snapshot "1735776000" (Some "failed")];
  json_unquote s := inr (String.substring 1 (String.length s - 2) s);
  path_escape s := s;
|}.
Definition config (skip : bool) : PbsConfig := mkPbsConfig "pbs" "https://pbs.lab:8007" "root@pam!lab" "s" "main" "pbs-pve" false "" "" skip 0.
Definition listed : list Backup := match (ListPbsBackups (config true) "101" []).1 with Ret (inr l) => l | _ => [] end.
Definition latest (skip : bool) : string := match (GetLatestPbsBackup (config skip) "101" []).1 with Ret (inr (Some b)) => bk_ID b | _ => "" end.

Lemma latest_is_newest_witness :
  exists r log', GetLatestPbsBackup (config true) "101" [] = (Ret r, log') /\
    match r with
    | inr (Some b) => b ∈ listed /\ skipped (config true) b = false /\
        forall b', b' ∈ listed -> skipped (config true) b' = false -> bk_CreatedAt b' <= bk_CreatedAt b
    | inr None => False
    | inl e => e = ESentinel ErrNoBackup /\ forall b, b ∈ listed -> skipped (config true) b = true
    end.
Proof. apply (latest_is_newest (config true) "101" [] listed). vm_compute. reflexivity. Defined.

Example two_latest : latest true = "pbs-pve:backup/vm/101/2025-01-01T00:00:00Z" /\ latest false = "pbs-pve:backup/vm/101/2025-01-02T00:00:00Z".
Proof. vm_compute. split; reflexivity. Qed.
End Datastores.
