(* ===== verification/Providers.v ===== *)
(** * The providers of a configuration

    Models internal/providers (factory.go), which turns an entry of the
    configuration into a client, and the choice of an entry and the clients that a
    server keeps: [providerEntry] of internal/cli/root.go, [cliProviders] of
    internal/cli/serve.go. A client is the configuration it was built with; the
    files of certificates are outside. *)

From Stdlib Require Import ZArith Lia String Ascii List.
From stdpp Require Import strings.
From S2P Require Import Prelude GoTime Errors Core GoString Secrets Plan Config Channels Pve Pbs.

(** ** From an entry to a client (factory.go) *)

Definition RoleHypervisor : string := "hypervisor".
Definition RoleBackup : string := "backup".
Definition KindProxmox : string := "proxmox".
Definition KindPBS : string := "pbs".
Definition callTimeout : Z := 30 * Duration.Second.

(** [HasRole]. *)
Definition HasRole (p : Provider) (role : string) : bool :=
  match prv_Roles p with
  | [] => bool_decide (role = RoleBackup) || bool_decide (prv_Kind p = KindProxmox)
  | roles => bool_decide (role ∈ roles)
  end.

(** Reading a file, whether a text holds a certificate, and the error of
    [hex.DecodeString]. *)
Class FactoryEnv := {
  read_pem : string -> error + string;
  has_certificate : string -> bool;
  not_hex : string -> error;
}.

(** A client of the backups of a provider. *)
Inductive backup_client := BackupsOfPve (c : PveConfig) | BackupsOfPbs (c : PbsConfig * trust).

Section Factory.
Context `{AEAD} `{FactoryEnv} (key : Key).

(** [readCA]. *)
Definition readCA (p : Provider) : error + string :=
  if negb (nonempty (prv_CACertPath p)) then inr "" else
  match read_pem (prv_CACertPath p) with
  | inl e => inl (EWrap (Sprintf "provider %q: read ca_cert_path: %w" [AStr (prv_ID p); AText (Error e)]) e)
  | inr pem => inr pem
  end.

(** [newProxmox] and [newPBS]. *)
Definition proxmox_of (p : Provider) (secret ca : string) : PveConfig :=
  mkPveConfig (prv_ID p) (prv_Endpoint p) (prv_TokenID p) secret (prv_Insecure p) ca callTimeout (prv_BackupStorage p)
    (prv_TempIDMin p) (prv_TempIDMax p) "".
Definition pbs_of (p : Provider) (secret ca : string) : PbsConfig :=
  mkPbsConfig (prv_ID p) (prv_Endpoint p) (prv_TokenID p) secret (prv_Datastore p) (prv_PVEStorage p) (prv_Insecure p) ca
    (prv_Fingerprint p) false callTimeout.
Definition newProxmox (p : Provider) : error + PveConfig :=
  match Secret key p with
  | inl e => inl e
  | inr secret => match readCA p with inl e => inl e | inr ca => NewProvider has_certificate (proxmox_of p secret ca) end
  end.
Definition newPBS (p : Provider) : error + (PbsConfig * trust) :=
  match Secret key p with
  | inl e => inl e
  | inr secret => match readCA p with inl e => inl e | inr ca => NewPbs has_certificate not_hex (pbs_of p secret ca) end
  end.

(** [NewHypervisor] and [NewBackup]. *)
Definition unknown_kind (p : Provider) : error :=
  ENew (Sprintf "unknown provider kind %q for provider %q" [AStr (prv_Kind p); AStr (prv_ID p)]).
Definition NewHypervisor (p : Provider) : error + PveConfig :=
  if bool_decide (prv_Kind p = KindProxmox) then newProxmox p
  else if bool_decide (prv_Kind p = KindPBS) then
    inl (ENew (Sprintf "provider %q is a backup server: it cannot restore or start workloads" [AStr (prv_ID p)]))
  else inl (unknown_kind p).
Definition NewBackup (p : Provider) : error + backup_client :=
  if bool_decide (prv_Kind p = KindProxmox) then on_ok BackupsOfPve (newProxmox p)
  else if bool_decide (prv_Kind p = KindPBS) then on_ok BackupsOfPbs (newPBS p)
  else inl (unknown_kind p).
End Factory.

(** ** The choice of an entry (root.go) *)

(** The provider that the defaults name for a role. *)
Definition default_for (role : string) (c : Config) : string :=
  if bool_decide (role = RoleHypervisor) then df_Provider (cg_Defaults c)
  else if bool_decide (role = RoleBackup) then firstNonEmpty [df_BackupProvider (cg_Defaults c); df_Provider (cg_Defaults c)]
  else "".
(** [providerEntry], of a configuration that was read. *)
Definition entry_for (id role : string) (c : Config) : error + Provider :=
  let id := if nonempty id then id else default_for role c in
  if negb (nonempty id) then
    match List.filter (fun p => HasRole p role) (cg_Providers c) with
    | [] => inl (ENew (Sprintf "no %s provider configured: run `restorelab provider add`" [AStr role]))
    | [p] => inr p
    | _ => inl (ENew (Sprintf "several %s providers are configured: pick one with --provider, or set defaults.%s in the config" [AStr role; AStr role]))
    end
  else match provider_of id c with
       | inl e => inl e
       | inr p => if HasRole p role then inr p
                  else inl (ENew (Sprintf "provider %q does not have the %q role" [AStr (prv_ID p); AStr role]))
       end.

Section Clients.
Context `{AEAD} `{ConfigEnv} `{CliEnv} `{FactoryEnv}.

Definition providerEntry (id role : string) : M Cli (error + Provider) :=
  cfg ← app_config;
  mret (match cfg with inl e => inl e | inr c => entry_for id role c end).

(** [hypervisor] and [backups]. *)
Definition built {A} (f : Key -> Provider -> error + A) (entry : error + Provider) : error + A :=
  match entry with
  | inl e => inl e
  | inr p => match cli_key with inl e => inl e | inr key => f key p end
  end.
Definition app_hypervisor (id : string) : M Cli (error + PveConfig) :=
  entry ← providerEntry id RoleHypervisor; mret (built NewHypervisor entry).
Definition app_backups (id : string) : M Cli (error + backup_client) :=
  entry ← providerEntry id RoleBackup; mret (built NewBackup entry).

(** ** The clients that a server keeps (serve.go) *)

Record Server := mkServer {
  sv_cli : Cli;
  sv_hv : gmap string PveConfig;
  sv_bp : gmap string backup_client;
}.
Abbreviation SM := (M Server).
Definition lift_cli {A} (m : M Cli A) : SM A := fun s => let '(r, c) := m (sv_cli s) in (r, mkServer c (sv_hv s) (sv_bp s)).

(** [Entries]. *)
Definition Entries : SM (list Provider) :=
  cfg ← lift_cli app_config;
  mret (match cfg with inl _ => [] | inr c => map RedactedProvider (cg_Providers c) end).
(** [Hypervisor] and [Backups]: a client is built once. *)
Definition Hypervisor (id : string) : SM (error + PveConfig) := fun s =>
  match sv_hv s !! id with
  | Some client => (Ret (inr client), s)
  | None =>
    (client ← lift_cli (app_hypervisor id);
     match client with
     | inl e => mret (inl e)
     | inr client => _ ← modify (fun s => mkServer (sv_cli s) (<[id := client]> (sv_hv s)) (sv_bp s)); mret (inr client)
     end) s
  end.
Definition Backups (id : string) : SM (error + backup_client) := fun s =>
  match sv_bp s !! id with
  | Some client => (Ret (inr client), s)
  | None =>
    (client ← lift_cli (app_backups id);
     match client with
     | inl e => mret (inl e)
     | inr client => _ ← modify (fun s => mkServer (sv_cli s) (sv_hv s) (<[id := client]> (sv_bp s))); mret (inr client)
     end) s
  end.
End Clients.

(** ** What is chosen *)

Lemma entry_for_spec id role c p : entry_for id role c = inr p ->
  p ∈ cg_Providers c /\ HasRole p role = true /\ (id <> "" -> prv_ID p = id).
Proof.
  unfold entry_for. intros E. destruct (negb (nonempty (if nonempty id then id else _))) eqn:Hid.
  - destruct (List.filter _ _) as [|q [|? ?]] eqn:Ef; [done| |done]. injection E as ->.
    assert (p ∈ List.filter (fun p => HasRole p role) (cg_Providers c)) as Hp by (rewrite Ef; by left).
    apply list_elem_of_In, List.filter_In in Hp as [Hp Hr]. apply list_elem_of_In in Hp. split; [done|]. split; [done|].
    intros Hne%nonempty_spec. rewrite Hne in Hid. by rewrite Hne in Hid.
  - destruct (provider_of _ c) as [|q] eqn:Eq; [done|]. destruct (HasRole q role) eqn:Hr; [|done]. injection E as ->.
    unfold provider_of in Eq. destruct (keyed prv_ID _ _) as [q|] eqn:Ek; [|done]. injection Eq as ->.
    pose proof (keyed_key _ _ _ _ Ek) as Hk. apply List.find_some in Ek as [Hin _]. apply list_elem_of_In in Hin. split; [done|]. split; [done|].
    intros Hne%nonempty_spec. by rewrite Hne in Hk.
Qed.

Section Current.
Context `{AEAD} `{ConfigEnv} `{CliEnv} `{FactoryEnv}.

(** The client that building one anew would answer. *)
Definition fresh_hypervisor (c : Config) (id : string) : error + PveConfig := built NewHypervisor (entry_for id RoleHypervisor c).
Definition fresh_backups (c : Config) (id : string) : error + backup_client := built NewBackup (entry_for id RoleBackup c).

Definition same_providers (c c' : Config) : Prop := cg_Providers c' = cg_Providers c /\ cg_Defaults c' = cg_Defaults c.
Lemma fresh_same c c' : same_providers c c' ->
  (forall id, fresh_hypervisor c' id = fresh_hypervisor c id) /\ (forall id, fresh_backups c' id = fresh_backups c id).
Proof.
  intros [Hp Hd]. assert (forall id role, entry_for id role c' = entry_for id role c) as He.
  { intros id role. unfold entry_for, default_for, provider_of. by rewrite Hp, Hd. }
  unfold fresh_hypervisor, fresh_backups. split; intros id; by rewrite He.
Qed.

(** Every client kept is the one that would be built anew. *)
Record current (c : Config) (s : Server) : Prop := {
  cu_cfg : exists c', cl_cfg (sv_cli s) = Some c' /\ same_providers c c';
  cu_hv : forall id x, sv_hv s !! id = Some x -> fresh_hypervisor c id = inr x;
  cu_bp : forall id x, sv_bp s !! id = Some x -> fresh_backups c id = inr x;
}.

Lemma app_config_loaded c s : cl_cfg s = Some c -> app_config s = (Ret (inr c), s).
Proof. unfold app_config. by intros ->. Qed.
Lemma app_hypervisor_loaded c s id : cl_cfg s = Some c -> app_hypervisor id s = (Ret (fresh_hypervisor c id), s).
Proof.
  intros Hc. unfold app_hypervisor. rewrite (bind_Ret (providerEntry id RoleHypervisor) _ s (entry_for id RoleHypervisor c) s); [done|].
  unfold providerEntry. by rewrite (bind_Ret _ _ _ _ _ (app_config_loaded _ _ Hc)).
Qed.
Lemma app_backups_loaded c s id : cl_cfg s = Some c -> app_backups id s = (Ret (fresh_backups c id), s).
Proof.
  intros Hc. unfold app_backups. rewrite (bind_Ret (providerEntry id RoleBackup) _ s (entry_for id RoleBackup c) s); [done|].
  unfold providerEntry. by rewrite (bind_Ret _ _ _ _ _ (app_config_loaded _ _ Hc)).
Qed.
Lemma lift_cli_Ret {A} (m : M Cli A) s a c : m (sv_cli s) = (Ret a, c) -> lift_cli m s = (Ret a, mkServer c (sv_hv s) (sv_bp s)).
Proof. unfold lift_cli. by intros ->. Qed.

Lemma Hypervisor_current c s id : current c s -> exists s', Hypervisor id s = (Ret (fresh_hypervisor c id), s') /\ current c s'.
Proof.
  intros [(c' & Hc & Hs) Hh Hb]. unfold Hypervisor. destruct (sv_hv s !! id) as [x|] eqn:Ex.
  - exists s. rewrite (Hh _ _ Ex). split; [done|]. split; [by exists c'|done|done].
  - rewrite (bind_Ret _ _ _ _ _ (lift_cli_Ret _ _ _ _ (app_hypervisor_loaded _ _ id Hc))), (proj1 (fresh_same _ _ Hs)).
    destruct (fresh_hypervisor c id) as [e|x] eqn:Ef; (eexists; split; [reflexivity|]); (split; [by exists c'| |done]); cbn; [done|].
    intros j y. destruct (decide (j = id)) as [->|Hj]; [rewrite lookup_insert_eq|rewrite lookup_insert_ne by done; apply Hh]. by intros [= <-].
Qed.
Lemma Backups_current c s id : current c s -> exists s', Backups id s = (Ret (fresh_backups c id), s') /\ current c s'.
Proof.
  intros [(c' & Hc & Hs) Hh Hb]. unfold Backups. destruct (sv_bp s !! id) as [x|] eqn:Ex.
  - exists s. rewrite (Hb _ _ Ex). split; [done|]. split; [by exists c'|done|done].
  - rewrite (bind_Ret _ _ _ _ _ (lift_cli_Ret _ _ _ _ (app_backups_loaded _ _ id Hc))), (proj2 (fresh_same _ _ Hs)).
    destruct (fresh_backups c id) as [e|x] eqn:Ef; (eexists; split; [reflexivity|]); (split; [by exists c'|done|]); cbn; [done|].
    intros j y. destruct (decide (j = id)) as [->|Hj]; [rewrite lookup_insert_eq|rewrite lookup_insert_ne by done; apply Hb]. by intros [= <-].
Qed.
End Current.

(** ** What is kept *)

Section Edits.
Context `{AEAD} `{ConfigEnv} `{CliEnv} `{FactoryEnv}.

Definition loaded_as (c : Config) (s : Cli) : Prop := exists c', cl_cfg s = Some c' /\ same_providers c c'.
Lemma same_providers_notifications c c' l : same_providers c c' -> same_providers c (set_Notifications l c').
Proof. done. Qed.
Lemma write_config_loaded c c' s : loaded_as c s -> exists r s', write_config c' s = (Ret r, s') /\ loaded_as c s'.
Proof.
  intros Hs. unfold write_config. destruct (SaveConfig _ _ _ _ _) as [err file]. by exists err, (set_cl_file file s).
Qed.
Lemma persist_loaded c c' s : loaded_as c s -> exists r s', persist c' s = (Ret r, s') /\ loaded_as c s'.
Proof. intros Hs. unfold persist. destruct (ValidateConfig c') as [e|]; [by exists (Some e), s|by apply write_config_loaded]. Qed.

Lemma SaveChannel_loaded c ch target s : loaded_as c s -> exists r s', SaveChannel ch target s = (Ret r, s') /\ loaded_as c s'.
Proof.
  intros Hl. pose proof Hl as (c' & Hc & Hs). unfold SaveChannel. rewrite (bind_Ret _ _ _ _ _ (app_config_loaded _ _ Hc)).
  destruct cli_key as [e|key]; [by exists (Some e), s|]. destruct (nonempty target).
  - set (c1 := UpsertNotification _ c'). rewrite (bind_Ret (modify (set_cl_cfg c1)) _ s tt (set_cl_cfg c1 s) eq_refl).
    set (s2 := mkCli (cl_cfg (set_cl_cfg c1 s)) (cl_file s) (S (cl_time s))).
    rewrite (bind_Ret read_nonce _ (set_cl_cfg c1 s) (cli_nonce (cl_time s)) s2 eq_refl).
    assert (same_providers c (SetNotificationURL (nc_ID ch) target (cli_nonce (cl_time s)) key c1).2) as Hp2.
    { destruct (SetNotificationURL_cases (nc_ID ch) target (cli_nonce (cl_time s)) key c1) as [(e & ->)|(n & _ & _ & b & sealed & _ & _ & ->)]; done. }
    destruct (SetNotificationURL _ _ _ _ c1) as [err c2]. cbn [snd] in Hp2.
    rewrite (bind_Ret (modify (set_cl_cfg c2)) _ s2 tt (set_cl_cfg c2 s2) eq_refl).
    destruct err as [e|]; [eexists (Some e), _; split; [reflexivity|]; by exists c2|]. apply persist_loaded. by exists c2.
  - destruct (storedNotification c' (nc_ID ch)) as [e|old]; [by exists (Some e), s|]. set (c1 := UpsertNotification _ c').
    rewrite (bind_Ret (modify (set_cl_cfg c1)) _ s tt (set_cl_cfg c1 s) eq_refl). apply persist_loaded. by exists c1.
Qed.
Lemma RemoveChannel_loaded c id s : loaded_as c s -> exists r s', RemoveChannel id s = (Ret r, s') /\ loaded_as c s'.
Proof.
  intros Hl. pose proof Hl as (c' & Hc & Hs). unfold RemoveChannel. rewrite (bind_Ret _ _ _ _ _ (app_config_loaded _ _ Hc)).
  unfold RemoveNotification. destruct (keyed nf_ID id _); [|by eexists (Some _), s]. set (c1 := set_Notifications _ c').
  rewrite (bind_Ret (modify (set_cl_cfg c1)) _ s tt (set_cl_cfg c1 s) eq_refl). apply write_config_loaded. by exists c1.
Qed.

(** What the handlers, the workers and the sweeps ask of a server in any order. *)
Inductive server_call :=
| AskHypervisor (id : string)
| AskBackups (id : string)
| EditChannel (ch : NotificationChannel) (target : string)
| DropChannel (id : string).
Definition serve (call : server_call) (s : Server) : Server :=
  match call with
  | AskHypervisor id => (Hypervisor id s).2
  | AskBackups id => (Backups id s).2
  | EditChannel ch target => (lift_cli (SaveChannel ch target) s).2
  | DropChannel id => (lift_cli (RemoveChannel id) s).2
  end.
Lemma serve_current c call s : current c s -> current c (serve call s).
Proof.
  intros Hs. destruct call as [id|id|ch target|id]; cbn [serve].
  - by destruct (Hypervisor_current c s id Hs) as (s' & -> & ?).
  - by destruct (Backups_current c s id Hs) as (s' & -> & ?).
  - destruct Hs as [Hc Hh Hb]. destruct (SaveChannel_loaded c ch target _ Hc) as (r & s' & E & Hl).
    by rewrite (lift_cli_Ret _ _ _ _ E).
  - destruct Hs as [Hc Hh Hb]. destruct (RemoveChannel_loaded c id _ Hc) as (r & s' & E & Hl).
    by rewrite (lift_cli_Ret _ _ _ _ E).
Qed.

(** Keeping clients changes no answer. Whatever drills, requests and edits of
    channels came before, asking a server for a provider answers what building the
    client from the configuration would, failures included. *)
Theorem clients_are_current c s calls id :
  cl_cfg (sv_cli s) = Some c -> sv_hv s = ∅ -> sv_bp s = ∅ ->
  (Hypervisor id (fold_left (fun s call => serve call s) calls s)).1 = Ret (fresh_hypervisor c id) /\
  (Backups id (fold_left (fun s call => serve call s) calls s)).1 = Ret (fresh_backups c id).
Proof.
  intros Hc Hh Hb. assert (current c s) as Hs by (split; [by exists c|rewrite Hh; by intros ? ? ?%lookup_empty_Some|rewrite Hb; by intros ? ? ?%lookup_empty_Some]).
  clear Hc Hh Hb. revert s Hs. induction calls as [|call calls IH]; intros s Hs; cbn [fold_left].
  - destruct (Hypervisor_current c s id Hs) as (s1 & -> & _), (Backups_current c s id Hs) as (s2 & -> & _). done.
  - by apply IH, serve_current.
Qed.
End Edits.

(** ** A cluster with its backup server *)

Module Cluster.
Import Sealed Config.Lab.
#[export] Instance files : FactoryEnv := {| read_pem _ := inl (ENew (Lit "no such file")); has_certificate _ := false; not_hex _ := ENew (Lit "hex") |}.
#[export] Instance server : CliEnv := {|
  cli_key := inr key;
  cli_path := "config.yaml";
  cli_dir := "/etc";
  cli_nonce _ := inr nonce;
  cli_faults _ := no_config_faults;
|}.
Definition secret : string := match Seal (inr nonce) key "s3cret" with inr s => s | inl _ => "" end.
Definition pve_entry : Provider :=
  mkProvider "pve" "proxmox" ["hypervisor"] "https://pve.lab" "root@pam!lab" secret false "" "" "" "" "" 0 0 "" "".
Definition pbs_entry : Provider :=
  mkProvider "pbs" "pbs" ["backup"] "https://pbs.lab:8007" "root@pam!lab" secret false "" "" "" "" "" 0 0 "main" "".
Definition cluster : Config := set_Providers [pve_entry; pbs_entry] NewConfig.
Definition started : Server := mkServer (mkCli (Some cluster) None 0) ∅ ∅.
Definition calls : list server_call :=
  [AskHypervisor ""; AskBackups "pbs"; EditChannel (mkNotificationChannel "ops" "slack" "" true) "https://hooks.lab/T0/B0"; AskBackups "pve"].

Lemma clients_are_current_witness :
  (Hypervisor "" (fold_left (fun s call => serve call s) calls started)).1 = Ret (fresh_hypervisor cluster "") /\
  (Backups "" (fold_left (fun s call => serve call s) calls started)).1 = Ret (fresh_backups cluster "").
Proof. apply (clients_are_current cluster started calls ""); reflexivity. Defined.

Example one_of_each :
  (match fresh_hypervisor cluster "" with inr c => Some (pc_ID c, pc_TokenSecret c, pc_TempIDMin c) | inl _ => None end) = Some ("pve", "s3cret", 9000) /\
  (match fresh_backups cluster "pve" with inr _ => true | inl _ => false end) = false.
Proof. vm_compute. split; reflexivity. Qed.
End Cluster.
