(* ===== verification/Execution.v ===== *)
(** * What a worker does with a drill it claimed

    Models internal/worker/run.go and [New] of worker.go: how a queued run becomes a
    call of the engine (its plan, its two providers, its network and where it is
    placed), what a run that cannot start leaves, and that executing one is what a
    thread of [Worker] does. *)

From Stdlib Require Import ZArith Lia String Ascii List.
From stdpp Require Import strings relations.
From S2P Require Import Prelude GoTime Errors Core GoString Secrets Plan Adhoc Config Channels Engine Queue Worker Catalog Pve Pbs Providers.

(** ** A worker (worker.go) *)

Definition DefaultLease : Z := 2 * Duration.Minute.
Definition renewEvery : Z := 15 * Duration.Second.
Definition DefaultPoll : Z := 2 * Duration.Second.

Record WorkerOptions := mkWorkerOptions {
  wo_Owner : string;
  wo_Concurrency : Z;
  wo_Lease : Z;
  wo_Poll : Z;
  wo_RenewEvery : Z;
}.
(** [New], of a worker with a store and providers. [process] is the host and the
    process number. *)
Definition positive_or (v default : Z) : Z := if v <=? 0 then default else v.
Definition NewWorker (process : string) (cfg : option Config) (o : WorkerOptions) : WorkerOptions :=
  mkWorkerOptions
    (if nonempty (wo_Owner o) then wo_Owner o else process)
    (positive_or (wo_Concurrency o)
       (match cfg with
        | Some c => let n := lm_MaxConcurrentRestores (cg_Limits c) in if 0 <? n then n else 1
        | None => 1
        end))
    (positive_or (wo_Lease o) DefaultLease)
    (positive_or (wo_Poll o) DefaultPoll)
    (positive_or (wo_RenewEvery o) renewEvery).

(** ** Where a drill lands (run.go) *)

Inductive deploymentSetting := deploymentNode | deploymentStorage | deploymentPool.
(** [placement]. *)
Definition placement (cfg : option Config) (providerID fromPlan : string) (which : deploymentSetting) : string :=
  if nonempty fromPlan then fromPlan else
  match cfg with
  | None => fromPlan
  | Some c =>
    match which with
    | deploymentNode => df_Node (cg_Defaults c)
    | deploymentStorage => df_Storage (cg_Defaults c)
    | deploymentPool => match provider_of providerID c with inr entry => prv_Pool entry | inl _ => "" end
    end
  end.

(** [resolveNetwork]. *)
Definition on_bridge (bridge : string) (n : NetworkConfig) : NetworkConfig :=
  mkNetworkConfig bridge (net_Model n) (net_VLANTag n) (net_Firewall n) (net_Isolated n).
Definition resolveNetwork (cfg : option Config) (p : Plan) : error + NetworkConfig :=
  match cfg with
  | None => inl (ENew (Lit "worker: no configuration is loaded, so no network profile can be resolved"))
  | Some c =>
    match ResolveNetwork (firstNonEmpty [rs_Network (pl_Restore p); df_Network (cg_Defaults c); "isolated"]) c with
    | inl e => inl e
    | inr n => inr (if nonempty (rs_Bridge (pl_Restore p)) then on_bridge (rs_Bridge (pl_Restore p)) n else n)
    end
  end.

(** ** Executing a claimed run (run.go) *)

(** What [execute] hands to the engine. *)
Record Launch := mkLaunch {
  ln_Plan : Plan;
  ln_Hypervisor : PveConfig;
  ln_Backups : backup_client;
  ln_Options : RunOptions;
}.

Section Execution.
Context `{AEAD} `{ConfigEnv} `{CliEnv} `{FactoryEnv} `{ScheduleEnv}.
(** The YAML decoder, and the configuration the worker was started with. *)
Context (decode : string -> error + Plan) (cfg : option Config).
Abbreviation SM := (M Server).

Definition launch_options (q : QueuedRun) (p : Plan) (network : NetworkConfig) : RunOptions :=
  mkRunOptions (q_ID q) network
    (placement cfg (q_ProviderID q) (rs_Node (pl_Restore p)) deploymentNode)
    (placement cfg (q_ProviderID q) (rs_Storage (pl_Restore p)) deploymentStorage)
    (placement cfg (q_ProviderID q) (rs_Pool (pl_Restore p)) deploymentPool) false false.

(** [execute] up to the engine. *)
Definition prepare_drill (q : QueuedRun) : SM (error + Launch) :=
  match Parse (decode (q_PlanSnapshot q)) with
  | inl e => mret (inl (EWrap (Sprintf "the stored plan cannot be read: %w" [AText (Error e)]) e))
  | inr p =>
    hv ← Hypervisor (q_ProviderID q);
    match hv with
    | inl e => mret (inl (EWrap (Sprintf "provider %s is unavailable: %w" [AStr (q_ProviderID q); AText (Error e)]) e))
    | inr hv =>
      bp ← Backups (firstNonEmpty [q_BackupProviderID q; q_ProviderID q]);
      match bp with
      | inl e => mret (inl (EWrap (Sprintf "backup provider is unavailable: %w" [AText (Error e)]) e))
      | inr bp =>
        match resolveNetwork cfg p with
        | inl e => mret (inl e)
        | inr network => mret (inr (mkLaunch p hv bp (launch_options q p network)))
        end
      end
    end
  end.

(** [mirrorState], what the journal and the lease write while the engine runs, and
    how the run ends: the statements on the table of runs. *)
Definition mirrorState (id : string) (e : Event) : list statement :=
  if bool_decide (ev_State e = RunStateEmpty) then [] else [StSetState id (ev_State e)].
Definition fail_writes (id : string) : list statement := [StSetState id RunFailed; StFinishLease id].
Definition finish_writes (run : RecoveryRun) (id : string) : list statement := [StUpdateRun run; StFinishLease id].

(** [execute], with what the engine returns and what is written while it runs: how
    the thread started, and its statements in order. *)
Definition execute (engine : Launch -> list statement * RecoveryRun) (q : QueuedRun) : SM (option Launch * list statement) :=
  l ← prepare_drill q;
  mret (match l with
        | inl _ => (None, fail_writes (q_ID q))
        | inr l => let '(during, run) := engine l in (Some l, during ++ finish_writes run (q_ID q))
        end).
End Execution.

(** ** Where a drill lands *)

Section Landing.
Context `{AEAD} `{ConfigEnv} `{CliEnv} `{FactoryEnv} `{ScheduleEnv} (decode : string -> error + Plan) (cfg : Config).

Lemma Parse_network d p : Parse d = inr p -> rs_Network (pl_Restore p) <> "".
Proof.
  unfold Parse. destruct d as [|p0]; [done|]. destruct (Validate (ApplyDefaults p0)); [done|]. intros [= <-].
  cbn [ApplyDefaults pl_Restore rs_Network]. destruct (nonempty _) eqn:Hn; [by apply nonempty_spec|done].
Qed.
Lemma resolveNetwork_spec p net : rs_Network (pl_Restore p) <> "" -> resolveNetwork (Some cfg) p = inr net ->
  exists n, cg_Networks cfg !! rs_Network (pl_Restore p) = Some n /\
    net = mkNetworkConfig (firstNonEmpty [rs_Bridge (pl_Restore p); nw_Bridge n]) "" (nw_VLANTag n) (nw_Firewall n) (nw_Isolated n).
Proof.
  intros Hne%nonempty_spec. unfold resolveNetwork. cbn [firstNonEmpty]. rewrite Hne. unfold ResolveNetwork, network_of.
  destruct (cg_Networks cfg !! _) as [n|]; [|done]. intros [= <-]. exists n. split; [done|].
  unfold networkToCore. cbn [firstNonEmpty]. destruct (nonempty (rs_Bridge _)); [done|]. by destruct (nw_Bridge n).
Qed.

(** A run that the worker launches, and what it took from where. *)
Lemma prepare_drill_spec q s s' l : current cfg s ->
  prepare_drill decode (Some cfg) q s = (Ret (inr l), s') ->
  Parse (decode (q_PlanSnapshot q)) = inr (ln_Plan l) /\
  fresh_hypervisor cfg (q_ProviderID q) = inr (ln_Hypervisor l) /\
  fresh_backups cfg (firstNonEmpty [q_BackupProviderID q; q_ProviderID q]) = inr (ln_Backups l) /\
  exists net, resolveNetwork (Some cfg) (ln_Plan l) = inr net /\ ln_Options l = launch_options (Some cfg) q (ln_Plan l) net.
Proof.
  intros Hs. unfold prepare_drill. destruct (Parse _) as [|p] eqn:Ep; [done|].
  destruct (Hypervisor_current cfg s (q_ProviderID q) Hs) as (s1 & E1 & Hs1). rewrite (bind_Ret _ _ _ _ _ E1).
  destruct (fresh_hypervisor cfg (q_ProviderID q)) as [|hv] eqn:Eh; [done|].
  destruct (Backups_current cfg s1 (firstNonEmpty [q_BackupProviderID q; q_ProviderID q]) Hs1) as (s2 & E2 & Hs2).
  rewrite (bind_Ret _ _ _ _ _ E2). destruct (fresh_backups cfg _) as [|bp] eqn:Eb; [done|].
  destruct (resolveNetwork (Some cfg) p) as [|net] eqn:En; [done|]. intros [= <- <-]. split_and!; [done..|]. by exists net.
Qed.

(** The entry that serves a role for a name: an entry of the configuration that
    holds the role and bears that name, the name being the one given, or else the
    one the defaults give the role; without either, the only entry with the role. *)
Definition serves (name role : string) (e : Provider) : Prop :=
  e ∈ cg_Providers cfg /\ HasRole e role = true /\ (name <> "" -> prv_ID e = name) /\
  match firstNonEmpty [name; default_for role cfg] with
  | EmptyString => List.filter (fun e => HasRole e role) (cg_Providers cfg) = [e]
  | name => provider_of name cfg = inr e
  end.
Lemma entry_serves name role e : entry_for name role cfg = inr e -> serves name role e.
Proof.
  intros E. destruct (entry_for_spec _ _ _ _ E) as (Hin & Hr & Hid). split_and!; [done..|]. revert E.
  unfold entry_for. assert (Hf : forall a b, (if nonempty a then a else b) = firstNonEmpty [a; b]).
  { intros a b. cbn [firstNonEmpty]. destruct (nonempty a); [done|]. by destruct b. }
  rewrite Hf. destruct (firstNonEmpty _) as [|c rest]; cbn [nonempty negb].
  - destruct (List.filter _ _) as [|x [|y l]]; try done. by intros [= ->].
  - destruct (provider_of _ _) as [|x]; [done|]. destruct (HasRole x role); [|done]. by intros [= ->].
Qed.

(** C16: a drill lands where its plan and the configuration say, whenever the
    worker's clients are those of its configuration. The worker hands the
    engine the plan that was queued; the profile that the plan names exactly as the
    configuration declares it (its isolation above all, which the engine then
    insists on), but for the bridge, which a plan may replace; the node and the
    storage of the plan or else those of the defaults; the pool of the plan or else
    that of the provider the run is queued for, none when the configuration has no
    such provider; and the clients of that provider and of the queued run's backup
    provider (the same when it names none), which hold the roles asked of them. *)
Theorem drill_lands_where_told q s s' l :
  current cfg s -> prepare_drill decode (Some cfg) q s = (Ret (inr l), s') ->
  let r := pl_Restore (ln_Plan l) in
  let o := ln_Options l in
  Parse (decode (q_PlanSnapshot q)) = inr (ln_Plan l) /\
  (exists n, cg_Networks cfg !! rs_Network r = Some n /\
    op_Network o = mkNetworkConfig (firstNonEmpty [rs_Bridge r; nw_Bridge n]) "" (nw_VLANTag n) (nw_Firewall n) (nw_Isolated n)) /\
  op_Node o = firstNonEmpty [rs_Node r; df_Node (cg_Defaults cfg)] /\
  op_Storage o = firstNonEmpty [rs_Storage r; df_Storage (cg_Defaults cfg)] /\
  op_Pool o = firstNonEmpty [rs_Pool r; match provider_of (q_ProviderID q) cfg with inr e => prv_Pool e | inl _ => "" end] /\
  op_RunID o = q_ID q /\ op_DryRun o = false /\ op_KeepWorkload o = false /\
  (exists e, serves (q_ProviderID q) RoleHypervisor e /\ built NewHypervisor (inr e) = inr (ln_Hypervisor l)) /\
  (exists e, serves (firstNonEmpty [q_BackupProviderID q; q_ProviderID q]) RoleBackup e /\ built NewBackup (inr e) = inr (ln_Backups l)).
Proof.
  intros Hs E. destruct (prepare_drill_spec _ _ _ _ Hs E) as (Hp & Hh & Hb & net & Hn & Ho). cbv zeta.
  assert (forall a b, (if nonempty a then a else b) = firstNonEmpty [a; b]) as Hf.
  { intros a b. cbn [firstNonEmpty]. destruct (nonempty a); [done|]. by destruct b. }
  split; [done|]. split; [rewrite Ho; cbn; apply resolveNetwork_spec; [by eapply Parse_network|done]|].
  rewrite Ho. cbn [launch_options op_Node op_Storage op_Pool op_RunID op_DryRun op_KeepWorkload]. unfold placement. rewrite !Hf. split; [done|]. split; [done|].
  do 4 (split; [done|]).
  unfold fresh_hypervisor in Hh. unfold fresh_backups in Hb. split.
  - destruct (entry_for _ RoleHypervisor cfg) as [|e] eqn:Ee; [done|]. exists e. split; [by apply entry_serves|done].
  - destruct (entry_for _ RoleBackup cfg) as [|e] eqn:Ee; [done|]. exists e. split; [by apply entry_serves|done].
Qed.

(** What the queue is given names no provider for the backups: the one it is run on
    must hold both roles, whatever the plan and the defaults say of another. *)
Lemma queued_drill_needs_both_roles q s s' l : current cfg s -> q_ProviderID q <> "" -> q_BackupProviderID q = "" ->
  prepare_drill decode (Some cfg) q s = (Ret (inr l), s') ->
  exists e, provider_of (q_ProviderID q) cfg = inr e /\ HasRole e RoleHypervisor = true /\ HasRole e RoleBackup = true.
Proof.
  intros Hs Hq Hb E. destruct (prepare_drill_spec _ _ _ _ Hs E) as (_ & Hh & Hbp & _). rewrite Hb in Hbp.
  assert (firstNonEmpty [""; q_ProviderID q] = q_ProviderID q) as Hone by (cbn; by destruct (q_ProviderID q)). rewrite Hone in Hbp.
  apply nonempty_spec in Hq. unfold fresh_hypervisor, entry_for in Hh. unfold fresh_backups, entry_for in Hbp. rewrite !Hq in Hh, Hbp. cbn [negb] in Hh, Hbp. destruct (provider_of (q_ProviderID q) cfg) as [|e]; [done|]. exists e. split; [done|].
  destruct (HasRole e RoleHypervisor); [|done]. destruct (HasRole e RoleBackup); [done|done].
Qed.
End Landing.

(** ** A thread of the worker *)

(** The statements of a list that reach the database. *)
Fixpoint written (kept : list bool) (l : list statement) (db : Table) : Table :=
  match l, kept with
  | [], _ => db
  | st :: l, true :: kept => written kept l (apply_statement st db)
  | _ :: l, _ :: kept => written kept l db
  | _ :: l, [] => written [] l db
  end.
(** What is written while the engine runs: mirrored states, the name of the
    temporary workload, renewals of the lease. *)
Inductive during_run (owner id : string) : statement -> Prop :=
| during_mirror state : during_run owner id (StSetState id state)
| during_temp temp node : during_run owner id (StSetTempWorkload id temp node)
| during_renew until : during_run owner id (StRenewLease id owner until).

Lemma mirrored owner id e : Forall (during_run owner id) (mirrorState id e).
Proof. unfold mirrorState. case_bool_decide; repeat constructor. Qed.

Section Thread.
Context (pid : nat) (id : string).

(** A process whose thread of [id] is at [ph], in a system. *)
Definition at_phase (ph : tphase) (owner : string) (s : Sys) : Prop :=
  exists p, s_procs s !! pid = Some p /\ p_owner p = owner /\ p_threads p !! id = Some ph.
(** The thread is over, and the run no longer in flight. *)
Definition thread_over (s : Sys) : Prop :=
  exists p, s_procs s !! pid = Some p /\ p_threads p !! id = None /\ id ∉ p_inFlight p.

Lemma thread_to owner s ph st e ph' db' : at_phase ph owner s ->
  (forall p, p_owner p = owner -> thread_step pid p id ph st e (Some ph')) -> wrote st (s_db s) db' ->
  exists s', step s s' /\ s_db s' = db' /\ s_log s' = logged e (s_log s) /\ at_phase ph' owner s'.
Proof.
  intros (p & Hp & Ho & Ht) Hs Hw. exists (mkSys db' (<[pid := thread_moved p id (Some ph')]> (s_procs s)) (logged e (s_log s))).
  split; [by eapply (sys_thread s pid p id ph st e (Some ph')); eauto|]. split; [done|]. split; [done|].
  exists (thread_moved p id (Some ph')). cbn. rewrite !lookup_insert_eq. done.
Qed.
Lemma thread_ends owner s ph st db' : at_phase ph owner s ->
  (forall p, thread_step pid p id ph st None None) -> wrote st (s_db s) db' ->
  exists s', step s s' /\ s_db s' = db' /\ s_log s' = s_log s /\ thread_over s'.
Proof.
  intros (p & Hp & Ho & Ht) Hs Hw. exists (mkSys db' (<[pid := thread_moved p id None]> (s_procs s)) (s_log s)).
  split; [by eapply (sys_thread s pid p id ph st None None); eauto|]. split; [done|]. split; [done|].
  exists (thread_moved p id None). cbn. rewrite lookup_insert_eq, lookup_delete_eq. split; [done|]. split; [done|]. apply not_elem_of_difference. right. by apply elem_of_singleton.
Qed.
Definition kept_head (kept : list bool) : bool := match kept with b :: _ => b | [] => false end.
Lemma written_cons kept st l db :
  written kept (st :: l) db = written (tail kept) l (if kept_head kept then apply_statement st db else db).
Proof. by destruct kept as [|[] ?]. Qed.
Lemma wrote_kept kept st db : wrote (Some st) db (if kept_head kept then apply_statement st db else db).
Proof. destruct (kept_head kept); [right; by exists st|by left]. Qed.

Lemma running_writes owner s l kept : at_phase TRunning owner s -> Forall (during_run owner id) l ->
  exists s', rtc step s s' /\ s_db s' = written kept l (s_db s) /\ s_log s' = s_log s /\ at_phase TRunning owner s'.
Proof.
  intros Hs Hl. revert s kept Hs. induction Hl as [|st l Hst Hl IH]; intros s kept Hs; [by exists s|].
  destruct (thread_to owner s TRunning (Some st) None TRunning (if kept_head kept then apply_statement st (s_db s) else s_db s) Hs) as (s1 & E1 & Hd1 & Hl1 & Hs1); [|apply (wrote_kept kept)|].
  { intros p Ho. destruct Hst; [constructor..|]. rewrite <- Ho. constructor. }
  destruct (IH s1 (tail kept) Hs1) as (s2 & E2 & Hd2 & Hl2 & Hs2). exists s2. rewrite written_cons, Hd2, Hd1, Hl2, Hl1.
  split; [by eapply rtc_l|]. done.
Qed.
Lemma written_app kept l1 l2 db : written kept (l1 ++ l2) db = written (drop (length l1) kept) l2 (written kept l1 db).
Proof.
  revert kept db. induction l1 as [|st l1 IH]; intros kept db; [by destruct kept, l2|].
  rewrite <- app_comm_cons, !written_cons, IH. cbn [length]. destruct kept as [|b kept]; [|done]. cbn [tail]. by rewrite !drop_nil.
Qed.
End Thread.

Section Refinement.
Context `{AEAD} `{ConfigEnv} `{CliEnv} `{FactoryEnv} `{ScheduleEnv} (decode : string -> error + Plan) (cfg : option Config).

(** C17: executing a drill is what a thread of the worker does. Whatever the engine
    answers and whichever writes are lost, the statements of [execute] are a path of
    the thread from the mark to its end: a run that cannot start is failed and
    released without an engine, a run that starts is started once, on its stored
    plan, and in both cases the run is no longer in flight. *)
Theorem execution_is_a_thread pid owner engine q sv sv' start stmts kept s :
  at_phase pid (q_ID q) (TMarked q) owner s ->
  (forall l, Forall (during_run owner (q_ID q)) (engine l).1 /\ run_ID (engine l).2 = q_ID q) ->
  execute decode cfg engine q sv = (Ret (start, stmts), sv') ->
  exists s', rtc step s s' /\ s_db s' = written kept stmts (s_db s) /\ thread_over pid (q_ID q) s' /\
    s_log s' = match start with Some _ => EStart pid (q_ID q) (q_PlanSnapshot q) :: s_log s | None => s_log s end.
Proof.
  intros Hs He (r & sv1 & _ & E)%bind_Ret_inv. destruct r as [err|l].
  - injection E as <- <- _. destruct (thread_to pid (q_ID q) owner s (TMarked q) None None TFailing (s_db s) Hs) as (s1 & E1 & Hd1 & Hl1 & Hs1); [constructor|by left|].
    destruct (thread_to pid (q_ID q) owner s1 TFailing _ None TFailed _ Hs1 ltac:(constructor) (wrote_kept kept (StSetState (q_ID q) RunFailed) (s_db s1))) as (s2 & E2 & Hd2 & Hl2 & Hs2).
    destruct (thread_ends pid (q_ID q) owner s2 TFailed _ _ Hs2 ltac:(constructor) (wrote_kept (tail kept) (StFinishLease (q_ID q)) (s_db s2))) as (s3 & E3 & Hd3 & Hl3 & Hs3).
    exists s3. split; [do 3 (eapply rtc_l; [eassumption|]); constructor|]. unfold fail_writes. rewrite !written_cons, Hd3, Hd2, Hd1, Hl3, Hl2, Hl1. done.
  - destruct (engine l) as [during run] eqn:El. injection E as <- <- _. destruct (He l) as [Hd Hr]. rewrite El in Hd, Hr.
    destruct (thread_to pid (q_ID q) owner s (TMarked q) None (Some (EStart pid (q_ID q) (q_PlanSnapshot q))) TRunning (s_db s) Hs) as (s1 & E1 & Hd1 & Hl1 & Hs1); [constructor|by left|].
    destruct (running_writes pid (q_ID q) owner s1 during kept Hs1 Hd) as (s2 & E2 & Hd2 & Hl2 & Hs2).
    destruct (thread_to pid (q_ID q) owner s2 TRunning None None (TFinishing run) (s_db s2) Hs2) as (s3 & E3 & Hd3 & Hl3 & Hs3); [by constructor|by left|].
    set (rest := drop (length during) kept).
    destruct (thread_to pid (q_ID q) owner s3 (TFinishing run) _ None TUpdated _ Hs3 ltac:(constructor) (wrote_kept rest (StUpdateRun run) (s_db s3))) as (s4 & E4 & Hd4 & Hl4 & Hs4).
    destruct (thread_ends pid (q_ID q) owner s4 TUpdated _ _ Hs4 ltac:(constructor) (wrote_kept (tail rest) (StFinishLease (q_ID q)) (s_db s4))) as (s5 & E5 & Hd5 & Hl5 & Hs5).
    exists s5. split; [eapply rtc_l; [exact E1|]; etransitivity; [exact E2|]; do 3 (eapply rtc_l; [eassumption|]); constructor|].
    unfold finish_writes. rewrite written_app, !written_cons, Hd5, Hd4, Hd3, Hd2, Hd1, Hl5, Hl4, Hl3, Hl2, Hl1. done.
Qed.
End Refinement.

(** ** Drills of a cluster *)

Module Drills.
Import Sealed Config.Lab Providers.Cluster.
#[local] Existing Instance Adhoc.Described.no_schedule.
Definition plan_of (backups : string) : Plan :=
  {| pl_Name := "nightly"; pl_Description := ""; pl_Tags := []; pl_Workload := mkWorkloadRef "pve" "101" "";
     pl_Backup := mkBackupSpec backups StrategyLatest "" 0; pl_Restore := mkRestoreSpec "" "" "" "" "" 0 0 0 0;
     pl_Startup := mkStartupSpec true 0 None None ""; pl_Checks := []; pl_Cleanup := mkCleanupSpec None false;
     pl_RTOTarget := 0; pl_Schedule := ""; pl_ScheduleTimezone := "" |}.
Definition decode (s : string) : error + Plan := inr (plan_of (if bool_decide (s = "both") then "" else "pbs")).
Definition queued (snapshot : string) : QueuedRun :=
  scanQueuedRun "r1" (queued_row (prepared_run (plan_of "pbs") (mkRequest None None "pve" "r1" 5)) snapshot 5).

(** The provider of the cluster alone, with both roles. *)
Definition both : Config :=
  set_Providers [mkProvider "pve" "proxmox" ["hypervisor"; "backup"] "https://pve.lab" "root@pam!lab" secret false "" "" "" "" "drills" 0 0 "" ""] NewConfig.
Definition up (c : Config) : Server := mkServer (mkCli (Some c) None 0) ∅ ∅.
Lemma up_current c : current c (up c).
Proof. split; [by exists c|done|done]. Qed.
Definition launched : option Launch := match (prepare_drill decode (Some both) (queued "both") (up both)).1 with Ret (inr l) => Some l | _ => None end.
Definition started : Launch := default (mkLaunch (plan_of "") (mkPveConfig "" "" "" "" false "" 0 "" 0 0 "") (BackupsOfPve (mkPveConfig "" "" "" "" false "" 0 "" 0 0 ""))
  (mkRunOptions "" (mkNetworkConfig "" "" 0 false false) "" "" "" false false)) launched.

Lemma drill_lands_where_told_witness :
  op_Network (ln_Options started) = mkNetworkConfig "vmbr99" "" 0 false true /\ op_Pool (ln_Options started) = "drills" /\
  (exists n, cg_Networks both !! rs_Network (pl_Restore (ln_Plan started)) = Some n /\ nw_Isolated n = true) /\
  exists e, serves both "pve" RoleHypervisor e /\ built NewHypervisor (inr e) = inr (ln_Hypervisor started).
Proof.
  destruct (drill_lands_where_told decode both (queued "both") (up both) (prepare_drill decode (Some both) (queued "both") (up both)).2 started (up_current both))
    as (_ & (n & Hn & Ho) & _ & _ & _ & _ & _ & _ & He & _); [vm_compute; reflexivity|].
  split; [vm_compute; reflexivity|]. split; [vm_compute; reflexivity|]. split; [|exact He]. exists n. split; [exact Hn|].
  apply (f_equal net_Isolated) in Ho. cbn in Ho. rewrite <- Ho. vm_compute. reflexivity.
Defined.

Definition engine (_ : Launch) : list statement * RecoveryRun := ([StSetState "r1" RunRestoring], sample_run).
Definition claimed : Sys := mkSys {["r1" := take "w" 20 (queued_row sample_run "both" 5)]} {[7%nat := mkProc "w" 10 {["r1"]} {["r1" := TMarked (queued "both")]} RIdle]} [EClaim 7 "r1"].
Definition statements : list statement := StSetState "r1" RunRestoring :: finish_writes sample_run "r1".

Lemma execution_is_a_thread_witness :
  exists s', rtc step claimed s' /\ s_db s' = written [true; false; true] statements (s_db claimed) /\ thread_over 7 "r1" s' /\
    s_log s' = [EStart 7 "r1" "both"; EClaim 7 "r1"].
Proof.
  apply (execution_is_a_thread decode (Some both) 7 "w" engine (queued "both") (up both)
    (execute decode (Some both) engine (queued "both") (up both)).2 (Some started) statements [true; false; true] claimed).
  - exists (mkProc "w" 10 {["r1"]} {["r1" := TMarked (queued "both")]} RIdle). split; [reflexivity|]. split; reflexivity.
  - intros l. split; [repeat constructor|reflexivity].
  - vm_compute. reflexivity.
Defined.

(** A hypervisor with a backup server beside it: the plan and the defaults name the
    server, and no drill of the queue can start. *)
Definition beside : Config := mkConfig 1 [pve_entry; pbs_entry] (cg_Networks NewConfig) (cg_Limits NewConfig)
  (mkDefaults "pve" "pbs" "" "" "") "" (cg_Scheduler NewConfig) "" [].
Example split_cluster_refused :
  (prepare_drill decode (Some beside) (queued "split") (up beside)).1 =
  Ret (inl (let e := ENew (Sprintf "provider %q does not have the %q role" [AStr "pve"; AStr "backup"]) in
            EWrap (Sprintf "backup provider is unavailable: %w" [AText (Error e)]) e)).
Proof. vm_compute. reflexivity. Qed.
End Drills.
