(* ===== verification/Proxmox.v ===== *)
(** * The Proxmox VE provider

    Models internal/providers/proxmox/provider.go, backups.go and storages.go: what
    the engine asks of a hypervisor and of its backups, as the requests they make. *)

From Stdlib Require Import ZArith Lia String Ascii List.
From stdpp Require Import sorting.
From S2P Require Import Prelude GoTime GoFloat Errors Core GoString GoStrconv Plan Engine Pve.

(** ** Reading what the cluster says *)

(** [netIfaceRE]: net and digits. *)
Definition netIface (k : string) : bool :=
  HasPrefix k "net" && let n := TrimPrefix k "net" in nonempty n && negb (existsb_char (fun c => negb (is_digit c)) n).

Definition mapPowerState (s : string) : PowerState :=
  if bool_decide (s = "running") then PowerStateRunning
  else if bool_decide (s = "stopped") then PowerStateStopped
  else if bool_decide (s = "paused") || bool_decide (s = "suspended") then PowerStatePaused
  else PowerStateUnknown.
Definition splitTags (raw : string) : list string :=
  if negb (nonempty raw) then [] else List.filter nonempty (map TrimSpace (Split ";" raw)).
Definition containsTag (tags : list string) (tag : string) : bool := existsb (fun t => bool_decide (t = tag)) tags.

(** [mapWorkloadEntry]: a type it does not know is dropped. *)
Definition mapWorkloadEntry (e : Object) : option Workload :=
  let of_kind kind :=
    let tags := splitTags (fieldString e "tags") in
    Some (mkWorkload (idString (field e "vmid")) (fieldString e "name") kind (fieldString e "node") "" tags
            (asInt (field e "maxcpu")) (asInt64 (field e "maxmem")) (asInt64 (field e "maxdisk"))
            (mapPowerState (fieldString e "status")) (asBool (field e "template")) (containsTag tags "restorelab") "") in
  let t := fieldString e "type" in
  if bool_decide (t = "qemu") then of_kind WorkloadKindVM
  else if bool_decide (t = "lxc") then of_kind WorkloadKindContainer
  else None.

Definition node_row (e : Object) : Node :=
  mkNode (fieldString e "node") (fieldString e "node") "" (bool_decide (fieldString e "status" = "online"))
    (asInt (field e "maxcpu")) (asFloat (field e "cpu")) (asInt64 (field e "maxmem")) (asInt64 (field e "mem"))
    (asInt64 (field e "maxdisk")) (asInt64 (field e "disk")).

(** ** What is written to the cluster *)

Definition managedTag : string := "restorelab".

(** [renderNetConfig]. *)
Definition net_options (network : NetworkConfig) : string :=
  ",bridge=" +:+ net_Bridge network +:+
  (if 0 <? net_VLANTag network then ",tag=" +:+ pretty (net_VLANTag network) else "") +:+
  (if net_Firewall network then ",firewall=1" else "").
Definition renderNetConfig (network : NetworkConfig) : string :=
  (if nonempty (net_Model network) then net_Model network else "virtio") +:+ net_options network.

(** [renderMetadata]. *)
Definition map_keys {A} (m : gmap string A) : list string := map fst (map_to_list m).
Definition renderMetadata (metadata : gmap string string) : string :=
  let lines := map (fun k => k +:+ "=" +:+ default "" (metadata !! k)) (sort_strings (map_keys metadata)) in
  Join (String "010" EmptyString) lines.

(** [parseConfigBlob]: lines of "key: value"; comments are skipped. *)
Definition config_line (line : string) : option (string * string) :=
  let line := TrimSpace line in
  if negb (nonempty line) || HasPrefix line "#" then None else
  match Cut ":" line with
  | None => None
  | Some (key, value) =>
    let key := TrimSpace key in
    if nonempty key then Some (key, TrimSpace value) else None
  end.
Definition parseConfigBlob (blob : string) : gmap string string :=
  fold_left (fun out line => match config_line line with Some (k, v) => <[k := v]> out | None => out end)
    (Split "010" blob) ∅.

(** [BackupNetworkDevices]. *)
Definition BackupNetworkDevices {A} (config : gmap string A) : list string :=
  sort_strings (List.filter netIface (map_keys config)).

(** [mapVerification]: an object, or the same object in a text. *)
Definition verification_of (e : Object) : VerificationState :=
  let s := fieldString e "state" in
  if bool_decide (s = "ok") then VerificationOK
  else if bool_decide (s = "failed") then VerificationFailed
  else if nonempty s then VerificationUnknown else VerificationNone.

Section Provider.
Context `{PveEnv} (cfg : PveConfig).
Abbreviation PM := (M Pve).

Definition mapVerification (v : any) : VerificationState :=
  match v with
  | AnyMap l => verification_of (object_of l)
  | AnyString t =>
    if negb (nonempty t) then VerificationNone else
    match json_text t with
    | Some (AnyMap l) => verification_of (object_of l)
    | Some AnyNil => VerificationNone
    | _ => VerificationUnknown
    end
  | _ => VerificationNone
  end.

(** ** Nodes and workloads *)

Definition ListNodes : PM (error + list Node) :=
  asked (pve_get (Lit "/nodes") ∅) (fun data => on_ok (map node_row) (as_objects data)) "proxmox: decode /nodes: %w" [].

Definition clusterResources (resType : string) : PM (error + list Object) :=
  asked (pve_get (Lit "/cluster/resources") {["type" := [resType]]}) as_objects "proxmox: decode /cluster/resources: %w" [].

Definition ListWorkloads : PM (error + list Workload) :=
  entries ← clusterResources "vm";
  mret (on_ok (omap mapWorkloadEntry) entries).

Definition no_workload (id : string) : error :=
  EWrap (Sprintf "proxmox: workload %q: %w" [AStr id; AStr (sentinel_text ErrNotFound)]) (ESentinel ErrNotFound).
Definition has_vmid (id : string) (e : Object) : bool := bool_decide (idString (field e "vmid") = id).

(** [resolve]: where a workload is and what it is. *)
Definition resolve (id : string) : PM (error + (string * string)) :=
  entries ← clusterResources "vm";
  mret (match entries with
        | inl e => inl e
        | inr entries =>
          match List.find (has_vmid id) entries with
          | Some e => inr (fieldString e "node", fieldString e "type")
          | None => inl (no_workload id)
          end
        end).

Definition GetWorkload (id : string) : PM (error + option Workload) :=
  entries ← clusterResources "vm";
  mret (match entries with
        | inl e => inl e
        | inr entries =>
          match List.find (has_vmid id) entries ≫= mapWorkloadEntry with
          | Some w => inr (Some w)
          | None => inl (no_workload id)
          end
        end).

(** [agentIPs]: nothing when the agent does not answer. *)
Definition agentIPs (node id : string) : PM (option (list string)) :=
  r ← pve_get (Sprintf "/nodes/%s/qemu/%s/agent/network-get-interfaces" [AStr node; AStr id]) ∅;
  mret (match r with
        | inr (Some data) =>
          match json_agentInterfaces data with
          | inr ifaces => Some (List.filter (fun ip => negb (ip_unusable ip)) (concat ifaces))
          | inl _ => None
          end
        | _ => None
        end).

Definition workload_path (suffix : string) (node kind id : string) : text :=
  Sprintf ("/nodes/%s/%s/%s" +:+ suffix) [AStr node; AStr kind; AStr id].
Definition status_current (node kind id : string) : PM (error + Object) :=
  asked (pve_get (workload_path "/status/current" node kind id) ∅) as_object "proxmox: decode status/current for %s: %w" [AStr id].

(** [GetStatus]. *)
Definition GetStatus (id : string) : PM (error + option WorkloadStatus) :=
  where_ ← resolve id;
  match where_ with
  | inl e => mret (inl e)
  | inr (node, kind) =>
    s ← status_current node kind id;
    match s with
    | inl e => mret (inl e)
    | inr s =>
      let status ready ips :=
        mkWorkloadStatus id (mapPowerState (fieldString s "status"))
          (Duration.wrap (asInt64 (field s "uptime") * Duration.Second)) ready ips (asFloat (field s "cpu")) (asInt64 (field s "mem")) in
      if bool_decide (kind = "qemu") then
        ips ← agentIPs node id;
        mret (inr (Some (match ips with Some ips => status true ips | None => status false [] end)))
      else mret (inr (Some (status false [])))
    end
  end.

(** ** An identifier of the reserved range *)

Definition in_range (n : Z) : bool := (pc_TempIDMin cfg <=? n) && (n <=? pc_TempIDMax cfg).
Definition reserved (id : string) : bool := match Atoi id with Some n => in_range n | None => false end.

(** The loop of [AllocateWorkloadID], over the [remaining] identifiers from [n]. *)
Fixpoint probe (remaining : nat) (n : Z) : PM (error + string) :=
  match remaining with
  | O => mret (inl (ENew (Sprintf "proxmox: no free workload id in range %d-%d" [AInt (pc_TempIDMin cfg); AInt (pc_TempIDMax cfg)])))
  | S remaining =>
    r ← pve_get (Lit "/cluster/nextid") {["vmid" := [pretty n]]};
    match r with
    | inr _ => mret (inr (pretty n))
    | inl err => if IsRetryable err || Is err ErrUnauthorized then mret (inl err) else probe remaining (n + 1)
    end
  end.
Definition AllocateWorkloadID : PM (error + string) :=
  idStr ← asked (pve_get (Lit "/cluster/nextid") ∅) as_text "proxmox: decode /cluster/nextid: %w" [];
  match idStr with
  | inl e => mret (inl e)
  | inr idStr =>
    if reserved idStr then mret (inr idStr)
    else probe (Z.to_nat (pc_TempIDMax cfg - pc_TempIDMin cfg + 1)) (pc_TempIDMin cfg)
  end.

(** ** Restoring *)

(** [BackupConfig] and [backupNetworkDevices]. *)
Definition BackupConfig (node volid : string) : PM (error + gmap string string) :=
  blob ← asked (pve_get (Sprintf "/nodes/%s/vzdump/extractconfig" [AStr node]) {["volume" := [volid]]}) as_text
           "proxmox: decode backup config for %s: %w" [AStr volid];
  mret (on_ok parseConfigBlob blob).
Definition backupNetworkDevices (node volid : string) : PM (list string) :=
  config ← BackupConfig node volid;
  mret (match config with
        | inl _ => ["net0"]
        | inr config => match BackupNetworkDevices config with [] => ["net0"] | nets => nets end
        end).

Definition set_unless_empty (k v : string) (form : Values) : Values := if nonempty v then set_value k v form else form.
Definition set_positive (k : string) (n : Z) (form : Values) : Values := if 0 <? n then set_value k (pretty n) form else form.

(** The form of a restore, the network devices of the backup being [nets]. *)
Definition restore_form (backup : Backup) (opts : RestoreOptions) (nets : list string) : Values :=
  let form := set_value "archive" (bk_ID backup) (set_value "vmid" (ro_TargetWorkloadID opts) ∅) in
  let form := set_unless_empty "pool" (ro_Pool opts) (set_unless_empty "storage" (ro_Storage opts) form) in
  let form := fold_left (fun form iface => set_value iface (renderNetConfig (ro_Network opts)) form) nets form in
  let form := set_unless_empty "description" (renderMetadata (ro_Metadata opts)) form in
  set_positive "bwlimit" (ro_BandwidthKiBps opts)
    (set_value "start" "0" (set_value "unique" "1" (set_value "tags" managedTag form))).

(** [Restore]. *)
Definition Restore (backup : Backup) (opts : RestoreOptions) : PM (error + option RestoreJob) :=
  let node := if nonempty (ro_Node opts) then ro_Node opts else bk_Node backup in
  if negb (nonempty node) then
    mret (inl (ENew (Sprintf "proxmox: restore: no target node given and backup %q has none either" [AStr (bk_ID backup)]))) else
  if negb (nonempty (ro_TargetWorkloadID opts)) then
    mret (inl (ENew (Lit "proxmox: restore: opts.TargetWorkloadID is required"))) else
  nets ← (if nonempty (net_Bridge (ro_Network opts)) then backupNetworkDevices node (bk_ID backup) else mret []);
  upid ← asked (pve_post (Sprintf "/nodes/%s/qemu" [AStr node]) (restore_form backup opts nets)) as_text
           "proxmox: decode restore task id: %w" [];
  now ← gets pv_now;
  mret (on_ok (fun upid => Some (mkRestoreJob upid (ro_TargetWorkloadID opts) node now)) upid).

(** The loop of [WaitForTask]. *)
Definition task_state (upid : string) (s : Object) : TaskState :=
  let exit := fieldString s "exitstatus" in
  let success := bool_decide (exit = "OK") in
  mkTaskState upid false success exit (if success then "OK" else "proxmox task " +:+ upid +:+ " failed: " +:+ exit).
Fixpoint poll_task (polls : nat) (node upid : string) : PM (error + option TaskState) :=
  match polls with
  | O => fun s => (Diverge, s)
  | S polls =>
    s ← asked (pve_get (Sprintf "/nodes/%s/tasks/%s/status" [AStr node; AStr upid]) ∅) as_object
          "proxmox: decode task status for %s: %w" [AStr upid];
    match s with
    | inl e => mret (inl e)
    | inr s =>
      if bool_decide (fieldString s "status" = "stopped") then mret (inr (Some (task_state upid s))) else
      n ← gets (fun s => length (pv_log s));
      match pve_done n with
      | Some e => mret (inl (ESentinel e))
      | None => poll_task polls node upid
      end
    end
  end.
Definition WaitForTask (node upid : string) : PM (error + option TaskState) := poll_task task_polls node upid.
(** A nil job is dereferenced. *)
Definition WaitForJob (job : option RestoreJob) : PM (error + option TaskState) :=
  match job with
  | Some job => WaitForTask (job_Node job) (job_ID job)
  | None => throw "invalid memory address or nil pointer dereference"
  end.

(** The form that hardens a restored workload. *)
Definition finalize_form (opts : RestoreOptions) (config : Object) : Values :=
  let form := set_value "net0" ("virtio" +:+ net_options (ro_Network opts)) ∅ in
  let toDelete := sort_strings (List.filter (fun k => netIface k && negb (bool_decide (k = "net0"))) (map_keys config)) in
  let form := match toDelete with [] => form | _ => set_value "delete" (Join "," toDelete) form end in
  let form := set_value "protection" "0" (set_value "onboot" "0" form) in
  let form := set_positive "memory" (ro_MemoryLimitMB opts)
                (set_positive "cores" (ro_CPULimit opts) (set_unless_empty "name" (ro_Name opts) form)) in
  set_value "tags" managedTag (set_unless_empty "description" (renderMetadata (ro_Metadata opts)) form).

(** [FinalizeRestore]. *)
Definition FinalizeRestore (opts : RestoreOptions) : PM (error + unit) :=
  let id := ro_TargetWorkloadID opts in
  node ← (if nonempty (ro_Node opts) then mret (inr (ro_Node opts))
          else where_ ← resolve id; mret (on_ok fst where_));
  match node with
  | inl e => mret (inl e)
  | inr node =>
    let path := Sprintf "/nodes/%s/qemu/%s/config" [AStr node; AStr id] in
    config ← asked (pve_get path ∅) as_object "proxmox: decode config for %s: %w" [AStr id];
    match config with
    | inl e => mret (inl e)
    | inr config =>
      r ← pve_post path (finalize_form opts config);
      mret (match r with inl e => inl e | inr _ => inr tt end)
    end
  end.

(** ** Starting, stopping, deleting *)

(** The end of a task that had to succeed. *)
Definition settled_task (fmt : string) (args : list arg) (ts : error + option TaskState) : PM (error + unit) :=
  match ts with
  | inl e => mret (inl e)
  | inr None => throw "invalid memory address or nil pointer dereference"
  | inr (Some ts) =>
    mret (if task_Success ts then inr tt else inl (ENew (Sprintf fmt (args ++ [AStr (task_Message ts)]))))
  end.
Definition runLifecycleTask (node kind id action : string) : PM (error + unit) :=
  upid ← asked (pve_post (workload_path ("/status/" +:+ action) node kind id) ∅) as_text
           "proxmox: decode %s task id for %s: %w" [AStr action; AStr id];
  match upid with
  | inl e => mret (inl e)
  | inr upid =>
    ts ← WaitForTask node upid;
    settled_task "proxmox: %s %s: %s" [AStr action; AStr id] ts
  end.
Definition lifecycle (action id : string) : PM (error + unit) :=
  where_ ← resolve id;
  match where_ with
  | inl e => mret (inl e)
  | inr (node, kind) => runLifecycleTask node kind id action
  end.
Definition Start (id : string) : PM (error + unit) := lifecycle "start" id.
Definition Stop (id : string) : PM (error + unit) := lifecycle "stop" id.

(** [isManaged]: the mark of ownership in the description. *)
Definition isManaged (node kind id : string) : PM (error + bool) :=
  config ← asked (pve_get (workload_path "/config" node kind id) ∅) as_object "proxmox: decode config for %s: %w" [AStr id];
  mret (on_ok (fun config => Contains (fieldString config "description") (MetadataManaged +:+ "=true")) config).

Definition not_managed (id : string) : error :=
  EWrap (Sprintf "proxmox: refusing to delete workload %q: %w" [AStr id; AStr (sentinel_text ErrNotManaged)]) (ESentinel ErrNotManaged).
Definition out_of_range (id : string) : error :=
  EWrap (Sprintf "proxmox: refusing to delete workload %q: outside the reserved temporary id range %d-%d: %w"
           [AStr id; AInt (pc_TempIDMin cfg); AInt (pc_TempIDMax cfg); AStr (sentinel_text ErrNotManaged)]) (ESentinel ErrNotManaged).

(** The destruction itself, past the gates. *)
Definition destroy_workload (node kind id : string) : PM (error + unit) :=
  upid ← asked (pve_delete (workload_path "" node kind id)
                  (<["purge" := ["1"]]> {["destroy-unreferenced-disks" := ["1"]]})) as_text
           "proxmox: decode delete task id for %s: %w" [AStr id];
  match upid with
  | inl e => mret (inl e)
  | inr upid =>
    ts ← WaitForTask node upid;
    settled_task "proxmox: delete %s: %s" [AStr id] ts
  end.
Definition stop_then_destroy (node kind id : string) : PM (error + unit) :=
  st ← status_current node kind id;
  match st with
  | inl e => mret (inl e)
  | inr st =>
    if bool_decide (fieldString st "status" = "running") then
      stopped ← Stop id;
      match stopped with
      | inl e => mret (inl (EWrap (Sprintf "proxmox: delete %s: stopping before destroy: %w" [AStr id; AText (Error e)]) e))
      | inr _ => destroy_workload node kind id
      end
    else destroy_workload node kind id
  end.
(** [Delete]. *)
Definition Delete (id : string) : PM (error + unit) :=
  if negb (reserved id) then mret (inl (out_of_range id)) else
  where_ ← resolve id;
  match where_ with
  | inl e => mret (inl e)
  | inr (node, kind) =>
    managed ← isManaged node kind id;
    match managed with
    | inl e => mret (inl e)
    | inr false => mret (inl (not_managed id))
    | inr true => stop_then_destroy node kind id
    end
  end.

(** ** Capacity and isolation *)

Definition sub_object (e : Object) (k : string) : Object := match field e k with AnyMap l => object_of l | _ => ∅ end.
Definition NodeCapacity (node : string) : PM (error + option Node) :=
  s ← asked (pve_get (Sprintf "/nodes/%s/status" [AStr node]) ∅) as_object "proxmox: decode status for node %s: %w" [AStr node];
  mret (on_ok (fun s =>
    let mem := sub_object s "memory" in
    let rootfs := sub_object s "rootfs" in
    Some (mkNode node node "" true (asInt (field (sub_object s "cpuinfo") "cpus")) (asFloat (field s "cpu"))
            (asInt64 (field mem "total")) (asInt64 (field mem "used")) (asInt64 (field rootfs "total")) (asInt64 (field rootfs "used")))) s).

(** [ValidateIsolation], on the interfaces of the node. *)
Definition uplinked (e : Object) : bool :=
  nonempty (TrimSpace (fieldString e "bridge_ports")) || nonempty (TrimSpace (fieldString e "gateway")).
Definition validate_isolation (node : string) (network : NetworkConfig) (entries : list Object) : error + unit :=
  match List.find (fun e => bool_decide (fieldString e "iface" = net_Bridge network)) entries with
  | Some e =>
    if uplinked e then
      inl (EWrap (Sprintf "proxmox: bridge %q on node %q has an uplink (bridge_ports=%q gateway=%q): %w"
             [AStr (net_Bridge network); AStr node; AStr (TrimSpace (fieldString e "bridge_ports"));
              AStr (TrimSpace (fieldString e "gateway")); AStr (sentinel_text ErrNetworkNotIsolated)]) (ESentinel ErrNetworkNotIsolated))
    else inr tt
  | None =>
    if existsb (fun e => bool_decide (fieldString e "type" = "bridge")) entries then
      inl (EWrap (Sprintf "proxmox: bridge %q not found on node %q: %w"
             [AStr (net_Bridge network); AStr node; AStr (sentinel_text ErrNetworkNotIsolated)]) (ESentinel ErrNetworkNotIsolated))
    else
      inl (EWrap (Sprintf "proxmox: cannot read the bridges of node %q with these credentials (%d interface(s) visible): %w"
             [AStr node; AInt (Z.of_nat (length entries)); AStr (sentinel_text ErrIsolationUnverified)]) (ESentinel ErrIsolationUnverified))
  end.
Definition ValidateIsolation (node : string) (network : NetworkConfig) : PM (error + unit) :=
  entries ← asked (pve_get (Sprintf "/nodes/%s/network" [AStr node]) ∅) as_objects
              "proxmox: decode network config for node %s: %w" [AStr node];
  mret (match entries with inl e => inl e | inr entries => validate_isolation node network entries end).

(** ** Backups (backups.go) *)

Definition backupNode (workloadID : string) : PM (error + string) :=
  where_ ← resolve workloadID;
  match where_ with
  | inr (node, _) => mret (inr node)
  | inl _ =>
    nodes ← ListNodes;
    mret (match nodes with
          | inl e => inl e
          | inr nodes =>
            match List.find node_Online nodes with
            | Some n => inr (node_ID n)
            | None => inl (EWrap (Sprintf "proxmox: no online node available to look up backups for %q: %w"
                                    [AStr workloadID; AStr (sentinel_text ErrNotFound)]) (ESentinel ErrNotFound))
            end
          end)
  end.
Definition backupStorages (node : string) : PM (error + list string) :=
  if nonempty (pc_BackupStorage cfg) then mret (inr [pc_BackupStorage cfg]) else
  asked (pve_get (Sprintf "/nodes/%s/storage" [AStr node]) {["content" := ["backup"]]})
    (fun data => on_ok (map (fun e => fieldString e "storage")) (as_objects data)) "proxmox: decode storage list for node %s: %w" [AStr node].

(** The body of the inner loop: an entry already seen, or without a volume, is
    dropped. *)
Definition backup_row (workloadID storage node : string) (e : Object) : Backup :=
  mkBackup (fieldString e "volid") workloadID (pc_ID cfg) storage node (Time.of_unix (asInt64 (field e "ctime"))) (asInt64 (field e "size"))
    (asBool (field e "protected")) false (mapVerification (field e "verification")) (fieldString e "format") (fieldString e "notes").
Fixpoint collect_rows (workloadID storage node : string) (entries : list Object) (backups : list Backup) : list Backup :=
  match entries with
  | [] => backups
  | e :: entries =>
    let volid := fieldString e "volid" in
    if negb (nonempty volid) || existsb (fun b => bool_decide (bk_ID b = volid)) backups
    then collect_rows workloadID storage node entries backups
    else collect_rows workloadID storage node entries (backups ++ [backup_row workloadID storage node e])
  end.
Fixpoint collect_backups (workloadID node : string) (storages : list string) (backups : list Backup) : PM (error + list Backup) :=
  match storages with
  | [] => mret (inr backups)
  | storage :: storages =>
    entries ← asked (pve_get (Sprintf "/nodes/%s/storage/%s/content" [AStr node; AStr storage])
                       (<["content" := ["backup"]]> {["vmid" := [workloadID]]})) as_objects
                "proxmox: decode content list for storage %s: %w" [AStr storage];
    match entries with
    | inl e => mret (inl e)
    | inr entries => collect_backups workloadID node storages (collect_rows workloadID storage node entries backups)
    end
  end.
(** [ListBackups], newest first; backups of one second stay in the order read. *)
Definition newer (a b : Backup) : Prop := bk_CreatedAt b <= bk_CreatedAt a.
#[export] Instance newer_dec a b : Decision (newer a b).
Proof. unfold newer. apply _. Defined.
Definition ListBackups (workloadID : string) : PM (error + list Backup) :=
  node ← backupNode workloadID;
  match node with
  | inl e => mret (inl e)
  | inr node =>
    storages ← backupStorages node;
    match storages with
    | inl e => mret (inl e)
    | inr storages =>
      backups ← collect_backups workloadID node storages [];
      mret (on_ok (merge_sort newer) backups)
    end
  end.
Definition GetLatestBackup (workloadID : string) : PM (error + option Backup) :=
  backups ← ListBackups workloadID;
  mret (match backups with
        | inl e => inl e
        | inr [] => inl (EWrap (Sprintf "proxmox: workload %q: %w" [AStr workloadID; AStr (sentinel_text ErrNoBackup)]) (ESentinel ErrNoBackup))
        | inr (b :: _) => inr (Some b)
        end).
End Provider.
