(* ===== verification/ProxmoxTheorems.v ===== *)
(** * What the Proxmox provider may do to a cluster

    The requests of each operation, whatever the cluster answers: reads, and the
    writes that concern the workload the operation was given. Deletion is behind
    two gates, a restore and its hardening leave no network device of the backup,
    and an identifier comes from the reserved range. *)

From Stdlib Require Import ZArith Lia String Ascii List.
From stdpp Require Import sorting.
From S2P Require Import Prelude GoTime GoFloat Errors Core GoString GoStrconv Plan Engine Pve Proxmox.

(** ** Forms *)

Lemma lookup_set_ne k k' v form : k <> k' -> set_value k v form !! k' = form !! k'.
Proof. intros. by apply lookup_insert_ne. Qed.
Lemma lookup_unless_ne k k' v form : k <> k' -> set_unless_empty k v form !! k' = form !! k'.
Proof. intros. unfold set_unless_empty. destruct (nonempty v); [by apply lookup_set_ne|done]. Qed.
Lemma lookup_positive_ne k k' n form : k <> k' -> set_positive k n form !! k' = form !! k'.
Proof. intros. unfold set_positive. destruct (0 <? n); [by apply lookup_set_ne|done]. Qed.
Lemma lookup_devices v nets form k :
  fold_left (fun form iface => set_value iface v form) nets form !! k = if decide (k ∈ nets) then Some [v] else form !! k.
Proof.
  revert form. induction nets as [|x nets IH]; intros form; cbn [fold_left]; [done|]. rewrite IH.
  destruct (decide (k ∈ nets)), (decide (k ∈ x :: nets)) as [Hin|Hin]; try done.
  - exfalso. apply Hin. by right.
  - apply elem_of_cons in Hin as [->|Hin]; [apply lookup_insert_eq|done].
  - apply lookup_set_ne. intros ->. apply Hin. by left.
Qed.

(** A key that is not a network device is none of the other keys of a form. *)
Ltac other_key := first [discriminate | congruence | (let E := fresh in intros E; subst; discriminate)].

Section RestoreForm.
Context (backup : Backup) (opts : RestoreOptions) (nets : list string) (Hnets : Forall (fun k => netIface k = true) nets).
Abbreviation form := (restore_form backup opts nets).

Lemma not_a_device k : netIface k = false -> k ∉ nets.
Proof. intros Hk Hin. rewrite Forall_forall in Hnets. apply Hnets in Hin. congruence. Qed.
Lemma restore_form_device k : netIface k = true ->
  form !! k = if decide (k ∈ nets) then Some [renderNetConfig (ro_Network opts)] else None.
Proof.
  intros Hk. unfold restore_form. cbv zeta.
  rewrite lookup_positive_ne, !lookup_set_ne, lookup_unless_ne, lookup_devices by other_key.
  destruct (decide _); [done|]. by rewrite !lookup_unless_ne, !lookup_set_ne by other_key.
Qed.
Lemma restore_form_fixed :
  form !! "vmid" = Some [ro_TargetWorkloadID opts] /\ form !! "archive" = Some [bk_ID backup] /\
  form !! "start" = Some ["0"] /\ form !! "unique" = Some ["1"] /\ form !! "tags" = Some [managedTag] /\ form !! "force" = None.
Proof.
  unfold restore_form. cbv zeta. split_and!;
    repeat first [rewrite lookup_positive_ne by discriminate | rewrite lookup_unless_ne by discriminate | rewrite lookup_set_ne by discriminate
                 | rewrite lookup_devices; destruct (decide _) as [Hin|_]; [by apply not_a_device in Hin|]];
    try done; apply lookup_insert_eq.
Qed.
End RestoreForm.

(** ** Network devices *)

Lemma sort_strings_elem k l : k ∈ sort_strings l <-> k ∈ l.
Proof. unfold sort_strings. by rewrite merge_sort_Permutation. Qed.
Lemma map_keys_elem {A} (m : gmap string A) k : k ∈ map_keys m <-> is_Some (m !! k).
Proof.
  unfold map_keys. rewrite list_elem_of_fmap. split.
  - intros ([k' v] & -> & Hin). apply elem_of_map_to_list in Hin. by exists v.
  - intros [v Hv]. exists (k, v). split; [done|]. by apply elem_of_map_to_list.
Qed.
Lemma BackupNetworkDevices_elem {A} (config : gmap string A) k :
  k ∈ BackupNetworkDevices config <-> netIface k = true /\ is_Some (config !! k).
Proof.
  unfold BackupNetworkDevices. rewrite sort_strings_elem, list_elem_of_In, List.filter_In, <- list_elem_of_In, map_keys_elem. tauto.
Qed.

(** *** Lists in a field *)

Lemma split_aux_app sep cur s rest : existsb_char (Ascii.eqb sep) s = false ->
  split_aux sep cur (s +:+ rest) = split_aux sep (cur +:+ s) rest.
Proof.
  revert cur. induction s as [|c s IH]; intros cur H.
  - change ("" +:+ rest) with rest. f_equal. induction cur as [|x cur IHc]; [done|]. change (String x cur = String x (cur +:+ "")). by f_equal.
  - cbn in H. apply orb_false_iff in H as [Hc H]. change (String c s +:+ rest) with (String c (s +:+ rest)). cbn [split_aux].
    rewrite Ascii.eqb_sym, Hc, (IH _ H), <- string_app_assoc. done.
Qed.
Lemma split_end sep s : existsb_char (Ascii.eqb sep) s = false -> Split sep s = [s].
Proof.
  intros H. unfold Split. pose proof (split_aux_app sep "" s "" H) as E. cbn in E. change ("" +:+ s) with s in E. rewrite <- E. f_equal.
  clear. induction s as [|c s IH]; [done|]. change (String c s = String c (s +:+ "")). by f_equal.
Qed.
(** What is joined is split again. *)
Lemma Split_Join (sep : ascii) (l : list string) : l <> [] -> Forall (fun s => existsb_char (Ascii.eqb sep) s = false) l ->
  Split sep (Join (String sep EmptyString) l) = l.
Proof.
  intros Hne H. induction H as [|s l Hs H IH]; [done|]. destruct l as [|s2 l]; [by apply split_end|].
  unfold Split in *. change (Join (String sep EmptyString) (s :: s2 :: l))
    with (s +:+ String sep (Join (String sep EmptyString) (s2 :: l))).
  rewrite (split_aux_app _ _ _ _ Hs). cbn [split_aux]. rewrite Ascii.eqb_refl. f_equal. by apply IH.
Qed.

Lemma digits_no_comma s : existsb_char (fun c => negb (is_digit c)) s = false -> existsb_char (Ascii.eqb ",") s = false.
Proof.
  induction s as [|c s IH]; [done|]. cbn [existsb_char]. rewrite !orb_false_iff. intros [Hc Hs]. split; [|by apply IH].
  destruct (Ascii.eqb_spec ","%char c) as [<-|]; [discriminate|done].
Qed.
Lemma netIface_no_comma k : netIface k = true -> existsb_char (Ascii.eqb ",") k = false.
Proof.
  unfold netIface. rewrite !andb_true_iff, negb_true_iff. intros (Hp & _ & Hd). apply HasPrefix_TrimPrefix in Hp.
  rewrite Hp, existsb_char_app. by apply digits_no_comma in Hd.
Qed.

(** ** Hardening *)

(** The keys that a form of the configuration endpoint deletes; the devices that a
    configuration has once the form was applied. *)
Definition deleted (form : Values) : list string := match form !! "delete" with Some [l] => Split "," l | _ => [] end.
Definition kept_device (config : Object) (form : Values) (k : string) : Prop :=
  netIface k = true /\ (is_Some (config !! k) \/ is_Some (form !! k)) /\ k ∉ deleted form.

Section FinalizeForm.
Context (opts : RestoreOptions) (config : Object).
Abbreviation form := (finalize_form opts config).
Abbreviation extra := (sort_strings (List.filter (fun k => netIface k && negb (bool_decide (k = "net0"))) (map_keys config))).

Lemma extra_elem k : k ∈ extra <-> netIface k = true /\ k <> "net0" /\ is_Some (config !! k).
Proof.
  rewrite sort_strings_elem, list_elem_of_In, List.filter_In, <- list_elem_of_In, map_keys_elem, andb_true_iff, negb_true_iff, bool_decide_eq_false.
  tauto.
Qed.

Ltac other_keys := repeat first
  [rewrite lookup_unless_ne by other_key | rewrite lookup_positive_ne by other_key | rewrite lookup_set_ne by other_key].
Lemma finalize_deletes : deleted form = extra.
Proof.
  unfold deleted, finalize_form. cbv zeta. other_keys. destruct extra as [|x l] eqn:E; [by other_keys|].
  unfold set_value at 1. rewrite lookup_insert_eq. apply Split_Join; [done|]. rewrite <- E. apply Forall_forall. intros k Hk.
  apply extra_elem in Hk as [Hk _]. by apply netIface_no_comma.
Qed.
Lemma finalize_form_net0 : form !! "net0" = Some ["virtio" +:+ net_options (ro_Network opts)].
Proof. unfold finalize_form. cbv zeta. other_keys. destruct extra; other_keys; apply lookup_insert_eq. Qed.
Lemma finalize_form_device k : netIface k = true -> k <> "net0" -> form !! k = None.
Proof. intros Hk Hn. unfold finalize_form. cbv zeta. other_keys. destruct extra; other_keys; reflexivity. Qed.
Lemma finalize_form_power : form !! "onboot" = Some ["0"] /\ form !! "protection" = Some ["0"].
Proof. split; unfold finalize_form; cbv zeta; other_keys; apply lookup_insert_eq. Qed.
Lemma finalize_kept k : kept_device config form k <-> k = "net0".
Proof.
  unfold kept_device. rewrite finalize_deletes, extra_elem. split.
  - intros (Hk & [Hc|Hf] & Hn); destruct (decide (k = "net0")); try done; [tauto|].
    rewrite finalize_form_device in Hf by done. by destruct Hf.
  - intros ->. split_and!; [done| |tauto]. right. rewrite finalize_form_net0. by eexists.
Qed.
End FinalizeForm.

(** ** The requests a computation adds *)

Definition grew (P : PveRequest -> Prop) (s s' : Pve) : Prop :=
  extends (fun x => P (ex_request x)) (pv_log s) (pv_log s').
#[export] Instance grew_preorder P : PreOrder (grew P).
Proof. split; [intros s; apply extends_preorder|intros s1 s2 s3; apply extends_preorder]. Qed.
Lemma grew_weaken (P Q : PveRequest -> Prop) s s' : (forall q, P q -> Q q) -> grew P s s' -> grew Q s s'.
Proof. intros H. apply extends_weaken. auto. Qed.

Definition is_get (q : PveRequest) : Prop := pq_method q = MethodGet.
Abbreviation reading := (fun x => is_get (ex_request x)).

(** A write that concerns the workload [id]. *)
Inductive writes (id : string) : PveRequest -> Prop :=
| writes_create node form : form !! "vmid" = Some [id] -> writes id (mkPveRequest MethodPost (Sprintf "/nodes/%s/qemu" [AStr node]) form)
| writes_config node form : writes id (mkPveRequest MethodPost (Sprintf "/nodes/%s/qemu/%s/config" [AStr node; AStr id]) form)
| writes_power action node kind : writes id (mkPveRequest MethodPost (workload_path ("/status/" +:+ action) node kind id) ∅)
| writes_delete node kind params : writes id (mkPveRequest MethodDelete (workload_path "" node kind id) params).

Section Requests.
Context `{PveEnv} (cfg : PveConfig).
Abbreviation PM := (M Pve).

Lemma request_grew (P : PveRequest -> Prop) method path params :
  P (mkPveRequest method path params) -> keeps (grew P) (request method path params).
Proof. intros HP s. by apply extends_snoc. Qed.
Lemma asked_grew {A} (P : PveRequest -> Prop) m (f : option any -> error + A) fmt args :
  keeps (grew P) m -> keeps (grew P) (asked m f fmt args).
Proof. intros Hm. unfold asked. keeps_auto. Qed.
Lemma diverge_grew {A} (P : PveRequest -> Prop) : keeps (grew P) (fun s => (@Diverge A, s)).
Proof. intros s. reflexivity. Qed.

(** *** Reads *)
Section Reads.
Context (P : PveRequest -> Prop) (HP : forall q, is_get q -> P q).
Lemma get_grew path params : keeps (grew P) (pve_get path params).
Proof. apply request_grew. by apply HP. Qed.
Lemma asked_get_grew {A} path params (f : option any -> error + A) fmt args :
  keeps (grew P) (asked (pve_get path params) f fmt args).
Proof. apply asked_grew, get_grew. Qed.
Hint Resolve get_grew asked_get_grew diverge_grew : keeps.

Lemma clusterResources_grew t : keeps (grew P) (clusterResources t).
Proof. unfold clusterResources. keeps_auto. Qed.
Hint Resolve clusterResources_grew : keeps.
Lemma resolve_grew id : keeps (grew P) (resolve id).
Proof. unfold resolve. keeps_auto. Qed.
Lemma ListNodes_grew : keeps (grew P) ListNodes.
Proof. unfold ListNodes. keeps_auto. Qed.
Lemma agentIPs_grew node id : keeps (grew P) (agentIPs node id).
Proof. unfold agentIPs. keeps_auto. Qed.
Lemma status_current_grew node kind id : keeps (grew P) (status_current node kind id).
Proof. unfold status_current. keeps_auto. Qed.
Hint Resolve resolve_grew ListNodes_grew agentIPs_grew status_current_grew : keeps.
Lemma GetWorkload_grew id : keeps (grew P) (GetWorkload id).
Proof. unfold GetWorkload. keeps_auto. Qed.
Lemma GetStatus_grew id : keeps (grew P) (GetStatus id).
Proof. unfold GetStatus. keeps_auto. Qed.
Lemma probe_grew n m : keeps (grew P) (probe cfg n m).
Proof. revert m. induction n as [|n IH]; intros m; cbn [probe]; keeps_auto. Qed.
Hint Resolve probe_grew : keeps.
Lemma AllocateWorkloadID_grew : keeps (grew P) (AllocateWorkloadID cfg).
Proof. unfold AllocateWorkloadID. keeps_auto. Qed.
Lemma backupNetworkDevices_grew node volid : keeps (grew P) (backupNetworkDevices node volid).
Proof. unfold backupNetworkDevices, BackupConfig. keeps_auto. Qed.
Lemma poll_task_grew n node upid : keeps (grew P) (poll_task n node upid).
Proof. induction n as [|n IH]; cbn [poll_task]; keeps_auto. Qed.
Lemma WaitForTask_grew node upid : keeps (grew P) (WaitForTask node upid).
Proof. apply poll_task_grew. Qed.
Hint Resolve WaitForTask_grew : keeps.
Lemma WaitForJob_grew job : keeps (grew P) (WaitForJob job).
Proof. unfold WaitForJob. keeps_auto. Qed.
Lemma isManaged_grew node kind id : keeps (grew P) (isManaged node kind id).
Proof. unfold isManaged. keeps_auto. Qed.
Lemma settled_task_grew fmt args ts : keeps (grew P) (settled_task fmt args ts).
Proof. unfold settled_task. keeps_auto. Qed.
Lemma NodeCapacity_grew node : keeps (grew P) (NodeCapacity node).
Proof. unfold NodeCapacity. keeps_auto. Qed.
Lemma ValidateIsolation_grew node network : keeps (grew P) (ValidateIsolation node network).
Proof. unfold ValidateIsolation. keeps_auto. Qed.
Lemma backupNode_grew id : keeps (grew P) (backupNode id).
Proof. unfold backupNode. keeps_auto. Qed.
Lemma backupStorages_grew node : keeps (grew P) (backupStorages cfg node).
Proof. unfold backupStorages. keeps_auto. Qed.
Lemma collect_backups_grew id node l acc : keeps (grew P) (collect_backups cfg id node l acc).
Proof. revert acc. induction l as [|x l IH]; intros acc; cbn [collect_backups]; keeps_auto. Qed.
Hint Resolve backupNode_grew backupStorages_grew collect_backups_grew : keeps.
Lemma ListBackups_grew id : keeps (grew P) (ListBackups cfg id).
Proof. unfold ListBackups. keeps_auto. Qed.
Hint Resolve ListBackups_grew : keeps.
Lemma GetLatestBackup_grew id : keeps (grew P) (GetLatestBackup cfg id).
Proof. unfold GetLatestBackup. keeps_auto. Qed.
End Reads.
Hint Resolve get_grew asked_get_grew resolve_grew status_current_grew WaitForTask_grew isManaged_grew settled_task_grew
  backupNetworkDevices_grew : keeps.

(** *** A restore, step by step *)

Definition exchange_at (s : Pve) (method : http_method) (path : text) (params : Values) : exchange :=
  let q := mkPveRequest method path params in
  mkExchange q (read_reply (length (pv_log s)) q (pve_answer (length (pv_log s)) q)).
Definition after (x : exchange) (s : Pve) : Pve := mkPve (pv_log s ++ [x]) (pve_clock (length (pv_log s))).
Lemma asked_eq {A} method path params (f : option any -> error + A) fmt args s :
  let x := exchange_at s method path params in
  asked (request method path params) f fmt args s =
    (Ret (match ex_answer x with inl e => inl e | inr data => decoded f fmt args data end), after x s).
Proof. reflexivity. Qed.

(** The devices that a restore replaces, by what was read of the backup. *)
Definition devices_read (a : error + option any) : list string :=
  match a with
  | inr (Some (AnyString blob)) => match BackupNetworkDevices (parseConfigBlob blob) with [] => ["net0"] | nets => nets end
  | _ => ["net0"]
  end.
Lemma devices_read_net a : Forall (fun k => netIface k = true) (devices_read a) /\ devices_read a <> [].
Proof.
  assert (Forall (fun k => netIface k = true) ["net0"] /\ ["net0"] <> []) as Hnet0 by (split; [by apply Forall_singleton|done]).
  destruct a as [|[[| | | | | |]|]]; try exact Hnet0. cbn. destruct (BackupNetworkDevices _) as [|k l] eqn:E; [exact Hnet0|].
  split; [|done]. apply Forall_forall. intros k' Hk. rewrite <- E in Hk. by apply BackupNetworkDevices_elem in Hk as [? _].
Qed.
(** The exchange that reads a backup's configuration. *)
Definition config_read (s : Pve) (node volid : string) : exchange :=
  exchange_at s MethodGet (Sprintf "/nodes/%s/vzdump/extractconfig" [AStr node]) {["volume" := [volid]]}.
Lemma backupNetworkDevices_eq node volid s :
  let y := config_read s node volid in
  backupNetworkDevices node volid s = (Ret (devices_read (ex_answer y)), after y s).
Proof.
  intros y. unfold backupNetworkDevices.
  assert (BackupConfig node volid s = (Ret (on_ok parseConfigBlob (match ex_answer y with
    | inl e => inl e
    | inr data => decoded as_text "proxmox: decode backup config for %s: %w" [AStr volid] data
    end)), after y s)) as E by reflexivity.
  rewrite (bind_Ret _ _ _ _ _ E). clear E. generalize (ex_answer y). intros a.
  by destruct a as [e|[[| | | | | |]|]].
Qed.

(** The node a restore goes to, and the devices its form replaces there. *)
Definition restore_node (backup : Backup) (opts : RestoreOptions) : string :=
  if nonempty (ro_Node opts) then ro_Node opts else bk_Node backup.
Definition restore_reads (backup : Backup) (opts : RestoreOptions) (s : Pve) : list exchange :=
  if nonempty (net_Bridge (ro_Network opts)) then [config_read s (restore_node backup opts) (bk_ID backup)] else [].
Definition restore_devices (reads : list exchange) : list string :=
  match reads with y :: _ => devices_read (ex_answer y) | [] => [] end.
Lemma restore_devices_net reads : Forall (fun k => netIface k = true) (restore_devices reads).
Proof. destruct reads; [constructor | apply devices_read_net]. Qed.
Lemma restore_reads_get backup opts s : Forall reading (restore_reads backup opts s).
Proof. unfold restore_reads. destruct (nonempty _); [by apply Forall_singleton | constructor]. Qed.

(** Nothing at all, or the one reading of the backup and then the one request
    that creates the workload. *)
Lemma Restore_cases backup opts s :
  exists o s', Restore backup opts s = (o, s') /\
    ((pv_log s' = pv_log s /\ (restore_node backup opts = "" \/ ro_TargetWorkloadID opts = "") /\ exists e, o = Ret (inl e)) \/
     restore_node backup opts <> "" /\ ro_TargetWorkloadID opts <> "" /\
     exists x, pv_log s' = pv_log s ++ restore_reads backup opts s ++ [x] /\
       ex_request x = mkPveRequest MethodPost (Sprintf "/nodes/%s/qemu" [AStr (restore_node backup opts)])
                        (restore_form backup opts (restore_devices (restore_reads backup opts s)))).
Proof.
  unfold Restore. cbv zeta. fold (restore_node backup opts). set (node := restore_node backup opts).
  destruct (nonempty node) eqn:Hnode; cbn [negb];
    [|eexists _, _; split; [reflexivity|left]; split_and!; [done|left; by apply nonempty_false|by eexists]].
  destruct (nonempty (ro_TargetWorkloadID opts)) eqn:Ht; cbn [negb];
    [|eexists _, _; split; [reflexivity|left]; split_and!; [done|right; by apply nonempty_false|by eexists]].
  apply nonempty_spec in Hnode, Ht. unfold restore_reads. fold node.
  destruct (nonempty (net_Bridge (ro_Network opts))).
  - rewrite (bind_Ret _ _ _ _ _ (backupNetworkDevices_eq node (bk_ID backup) s)). cbn [restore_devices].
    set (y := config_read s node (bk_ID backup)). unfold pve_post. set (form := restore_form _ _ _).
    set (x := exchange_at (after y s) MethodPost (Sprintf "/nodes/%s/qemu" [AStr node]) form).
    eexists _, _. split; [reflexivity|]. right. split_and!; [done..|]. exists x. split; [|done].
    cbn. by rewrite <- app_assoc.
  - unfold pve_post. set (form := restore_form _ _ _).
    set (x := exchange_at s MethodPost (Sprintf "/nodes/%s/qemu" [AStr node]) form).
    eexists _, _. split; [reflexivity|]. right. split_and!; [done..|]. by exists x.
Qed.

(** *** Writes *)

(** Reads, and the writes that concern [id] and do not delete. *)
Definition about (id : string) (q : PveRequest) : Prop := is_get q \/ (pq_method q = MethodPost /\ writes id q).
Lemma get_about id q : is_get q -> about id q.
Proof. by left. Qed.
Hint Resolve get_about : keeps.

Lemma asked_post_grew {A} id path params (f : option any -> error + A) fmt args :
  writes id (mkPveRequest MethodPost path params) -> keeps (grew (about id)) (asked (pve_post path params) f fmt args).
Proof. intros Hw. apply asked_grew, request_grew. by right. Qed.

Lemma runLifecycleTask_grew node kind id action : keeps (grew (about id)) (runLifecycleTask node kind id action).
Proof.
  unfold runLifecycleTask. apply keeps_bind; [apply _|apply (asked_post_grew id); constructor|]. keeps_auto.
Qed.
Hint Resolve runLifecycleTask_grew : keeps.
Lemma lifecycle_grew action id : keeps (grew (about id)) (lifecycle action id).
Proof. unfold lifecycle. keeps_auto. Qed.
Lemma Restore_grew backup opts : keeps (grew (about (ro_TargetWorkloadID opts))) (Restore backup opts).
Proof.
  intros s. destruct (Restore_cases backup opts s) as (o & s' & E & [(Hl & _)|(_ & _ & x & Hl & Hx)]); rewrite E; cbn.
  - exists []. by rewrite app_nil_r, Hl.
  - eexists. split; [exact Hl|]. apply Forall_app. split.
    + eapply Forall_impl; [apply restore_reads_get|]. intros y. apply get_about.
    + apply Forall_singleton. right. rewrite Hx. split; [done|]. constructor.
      apply (restore_form_fixed backup opts _ (restore_devices_net _)).
Qed.
Lemma FinalizeRestore_grew opts : keeps (grew (about (ro_TargetWorkloadID opts))) (FinalizeRestore opts).
Proof.
  unfold FinalizeRestore. apply keeps_bind; [apply _|keeps_auto|]. intros [e|node]; [keeps_auto|].
  apply keeps_bind; [apply _|keeps_auto|]. intros [e|config]; [keeps_auto|].
  apply keeps_bind; [apply _|apply request_grew; right; split; [done|constructor]|]. keeps_auto.
Qed.
End Requests.
