(* ===== verification/Guest.v ===== *)
(** * The guest agent of Proxmox VE

    Models internal/providers/proxmox/exec.go and osinfo.go: running a command inside a
    guest through the QEMU guest agent, and asking it what it runs. [pve_guest] is the
    executor that a check of [Probes] is given. *)

From Stdlib Require Import ZArith Lia String Ascii List.
From S2P Require Import Prelude GoTime GoFloat Errors Core GoString GoStrconv GoFmt CheckValues Probes Pve Proxmox ProxmoxTheorems.

(** ** Why an agent did not answer (exec.go) *)

Definition agentUnavailablePhrases : list string :=
  ["qemu guest agent is not running"; "no qemu guest agent configured"; "guest agent is not running";
   "qmp command 'guest-exec' failed"; "qmp command 'guest-exec-status' failed"].
(** [mapAgentError]: what it relabels is flattened into the message, its chain is lost. *)
Definition mapAgentError (err : error) : error :=
  if Is err ErrUnauthorized then
    EWrap (Sprintf "%w: guest agent exec requires the VM.Monitor privilege on this VM, and some PVE versions restrict it to root@pam: %v"
             [AStr (sentinel_text ErrUnauthorized); AText (Error err)]) (ESentinel ErrUnauthorized)
  else
    let msg := ToLower (render (Error err)) in
    if Contains msg "unexpected status 5" || existsb (Contains msg) agentUnavailablePhrases then
      EWrap (Sprintf "%w: the guest agent did not answer - install and start qemu-guest-agent inside the guest, and enable %s under the VM's Options in Proxmox; if it is already running, the API error is the real cause: %v"
               [AStr (sentinel_text ErrGuestAgentUnavailable); AStr (quoted "QEMU Guest Agent"); AText (Error err)]) (ESentinel ErrGuestAgentUnavailable)
    else err.
Definition mapped {A} (r : error + A) : error + A := match r with inl e => inl (mapAgentError e) | inr a => inr a end.

(** [truncateTo] and [buildExecResult]. *)
Definition agentMaxOutputBytes : Z := 65536.
Definition longer (s : string) (max : Z) : bool := max <? Z.of_nat (String.length s).
Definition buildExecResult (s : Object) (maxOutputBytes : Z) : ExecResult :=
  let max := if maxOutputBytes <=? 0 then agentMaxOutputBytes else maxOutputBytes in
  let out := fieldString s "out-data" in
  let err := fieldString s "err-data" in
  mkExecResult (asInt (field s "exitcode")) (truncate out max) (truncate err max)
    (asBool (field s "out-truncated") || asBool (field s "err-truncated") || longer out max || longer err max)
    (fieldString s "signal").

Section Agent.
Context `{PveEnv}.
Abbreviation PM := (M Pve).

Definition agent_path (call node id : string) : text := Sprintf ("/nodes/%s/qemu/%s/agent/" +:+ call) [AStr node; AStr id].

(** [agentExecStart]: the process that the agent started. *)
Definition exec_form (req : ExecRequest) : Values := set_unless_empty "input-data" (er_Input req) {["command" := er_Argv req]}.
Definition agentExecStart (node id : string) (req : ExecRequest) : PM (error + Z) :=
  res ← asked (pve_post (agent_path "exec" node id) (exec_form req)) as_object "proxmox: decode agent/exec response for %s: %w" [AStr id];
  mret (on_ok (fun res => asInt (field res "pid")) res).

(** The loop of [agentExecWait]: the answer of the agent is mapped, a body that cannot
    be read is not. *)
Fixpoint agentExecWait (polls : nat) (node id : string) (pid maxOutputBytes : Z) : PM (error + ExecResult) :=
  match polls with
  | O => fun s => (Diverge, s)
  | S polls =>
    r ← pve_get (agent_path "exec-status" node id) {["pid" := [pretty pid]]};
    match r with
    | inl e => mret (inl (mapAgentError e))
    | inr data =>
      match decoded as_object "proxmox: decode agent/exec-status response for %s: %w" [AStr id] data with
      | inl e => mret (inl e)
      | inr s =>
        if asBool (field s "exited") then mret (inr (buildExecResult s maxOutputBytes)) else
        n ← gets (fun s => length (pv_log s));
        match pve_done n with
        | Some e => mret (inl (ESentinel e))
        | None => agentExecWait polls node id pid maxOutputBytes
        end
      end
    end
  end.

(** [ExecInGuest]. *)
Definition not_qemu (what id kind : string) : error :=
  EWrap (Sprintf ("proxmox: workload %q is a %s, not a qemu VM: " +:+ what +:+ " is QEMU-only: %w")
           [AStr id; AStr kind; AStr (sentinel_text ErrUnsupported)]) (ESentinel ErrUnsupported).
Definition ExecInGuest (id : string) (req : ExecRequest) : PM (error + ExecResult) :=
  match er_Argv req with
  | [] => mret (inl (ENew (Lit "proxmox: ExecInGuest: req.Argv is empty")))
  | _ =>
    where_ ← resolve id;
    match where_ with
    | inl e => mret (inl e)
    | inr (node, kind) =>
      if negb (bool_decide (kind = "qemu")) then mret (inl (not_qemu "guest agent exec" id kind)) else
      pid ← agentExecStart node id req;
      match pid with
      | inl e => mret (inl (mapAgentError e))
      | inr pid => agentExecWait task_polls node id pid (er_MaxOutputBytes req)
      end
    end
  end.

(** ** What the guest runs (osinfo.go) *)

Definition osFamily (id name kernelName : string) : string :=
  if Contains (ToLower id) "windows" || Contains (ToLower name) "windows" then GuestOSWindows
  else if bool_decide (ToLower kernelName = "linux") then GuestOSLinux
  else "".
Definition osVersion (version versionID : string) : string := if nonempty version then version else versionID.

(** [agentOSInfo] and [GuestOS]: the fields that the agent omits are empty, a body that
    is null has none. *)
Record agentOSInfo := mkOSInfo { oi_ID : string; oi_Name : string; oi_PrettyName : string; oi_Version : string; oi_VersionID : string; oi_KernelName : string }.
Definition os_info (data : option any) : error + agentOSInfo :=
  match data with
  | None => inl (json_error "agentOSInfo" data)
  | Some v =>
    match json_agentOSInfo v with
    | inl e => inl e
    | inr (id, name, pretty, version, versionID, kernel) => inr (mkOSInfo id name pretty version versionID kernel)
    end
  end.
Definition guest_os (r : agentOSInfo) : GuestOS :=
  mkGuestOS (osFamily (oi_ID r) (oi_Name r) (oi_KernelName r)) (oi_ID r) (oi_Name r) (oi_PrettyName r) (osVersion (oi_Version r) (oi_VersionID r)).
Definition AgentGuestOS (id : string) : PM (error + GuestOS) :=
  where_ ← resolve id;
  match where_ with
  | inl e => mret (inl e)
  | inr (node, kind) =>
    if negb (bool_decide (kind = "qemu")) then mret (inl (not_qemu "guest OS detection" id kind)) else
    r ← pve_get (agent_path "get-osinfo" node id) ∅;
    mret (match r with
          | inl e => inl (mapAgentError e)
          | inr data => on_ok guest_os (decoded os_info "proxmox: decode agent/get-osinfo response for %s: %w" [AStr id] data)
          end)
  end.

(** The provider as the executor of a check. *)
Definition pve_guest : GuestExecutor Pve := mkGuestExecutor ExecInGuest (Some AgentGuestOS).
End Agent.

(** ** An agent that is not there *)

Lemma ToLower_app s t : ToLower (s +:+ t) = ToLower s +:+ ToLower t.
Proof. unfold ToLower. induction s as [|c s IH]; [done|]. change (String (lower_char c) (smap lower_char (s +:+ t)) = String (lower_char c) (smap lower_char s +:+ smap lower_char t)). by rewrite IH. Qed.
Lemma server_status_text status : 500 <= status < 600 -> exists rest, pretty status = "5" +:+ rest.
Proof.
  intros Hs. exists (TrimPrefix (pretty status) "5"). apply HasPrefix_TrimPrefix.
  assert (forallb (fun n => HasPrefix (pretty n) "5") (seqZ 500 100) = true) as Ha by (vm_compute; reflexivity).
  rewrite forallb_forall in Ha. apply Ha, list_elem_of_In, elem_of_seqZ. lia.
Qed.
(** A server fault is told by its text. *)
Lemma server_fault_text status method path snippet : 500 <= status < 600 ->
  Contains (ToLower (render (Error (mapStatusError status method path snippet)))) "unexpected status 5" = true.
Proof.
  intros Hs. destruct (server_status_text status Hs) as [rest Hr]. unfold mapStatusError. cbv zeta.
  destruct (Z.eqb_spec status 401); [lia|]. destruct (Z.eqb_spec status 403); [lia|]. destruct (Z.eqb_spec status 404); [lia|].
  destruct (Z.leb_spec 500 status); [|lia]. cbn [orb Error].
  change (render (Sprintf "proxmox: %s %s: unexpected status %d: %s" [AStr (method_text method); AText path; AInt status; AStr snippet]))
    with ("proxmox: " +:+ (method_text method +:+ (" " +:+ (render path +:+ (": " +:+ ("unexpected status " +:+ (pretty status +:+ (": " +:+ (snippet +:+ ""))))))))).
  rewrite Hr, !ToLower_app. do 5 apply Contains_app_r.
  change (Contains (("unexpected status 5" +:+ ToLower rest) +:+ (ToLower ": " +:+ (ToLower snippet +:+ ToLower ""))) "unexpected status 5" = true).
  apply Contains_app_l, Contains_app_l, Contains_refl.
Qed.
Lemma mapAgentError_final err : Is (mapAgentError err) ErrGuestAgentUnavailable = true -> mapAgentError err <> err ->
  IsRetryable (mapAgentError err) = false.
Proof. unfold mapAgentError. destruct (Is err ErrUnauthorized); [done|]. by destruct (_ || _). Qed.
(** A guest agent that is not there is not asked again. When the cluster answers a
    call to a guest agent by a server fault, whatever it says, what the caller is told
    is that the agent is unavailable, and that it is not worth retrying, although every
    other server fault of the cluster is. *)
Theorem agent_fault_is_final status method path snippet : 500 <= status < 600 ->
  let err := mapStatusError status method path snippet in
  IsRetryable err = true /\
  Is (mapAgentError err) ErrGuestAgentUnavailable = true /\ IsRetryable (mapAgentError err) = false.
Proof.
  intros Hs err. pose proof (server_fault_text status method path snippet Hs) as Ht. fold err in Ht.
  assert (Is err ErrUnauthorized = false /\ IsRetryable err = true) as [Hu Hr].
  { subst err. unfold mapStatusError. cbv zeta. destruct (Z.eqb_spec status 401); [lia|]. destruct (Z.eqb_spec status 403); [lia|].
    destruct (Z.eqb_spec status 404); [lia|]. destruct (Z.leb_spec 500 status); [done|lia]. }
  split; [done|]. unfold mapAgentError. rewrite Hu, Ht. done.
Qed.
Lemma agent_fault_is_final_witness :
  let err := mapStatusError 500 MethodPost (Lit "/nodes/pve1/qemu/9001/agent/exec") "internal error" in
  IsRetryable err = true /\ Is (mapAgentError err) ErrGuestAgentUnavailable = true /\ IsRetryable (mapAgentError err) = false.
Proof. apply (agent_fault_is_final 500). lia. Defined.

(** ** A command is started once *)

Lemma substring_short n s : (String.length (String.substring 0 n s) <= n)%nat.
Proof. revert s. induction n as [|n IH]; intros [|c s]; cbn; try lia. specialize (IH s). lia. Qed.
Lemma truncate_bounded s max : 0 <= max -> Z.of_nat (String.length (truncate s max)) <= max.
Proof.
  intros Hm. unfold truncate. destruct (Z.leb_spec (Z.of_nat (String.length s)) max); [done|].
  pose proof (substring_short (Z.to_nat max) s). lia.
Qed.
Lemma truncate_start s max : exists rest, s = truncate s max +:+ rest.
Proof.
  unfold truncate. destruct (_ <=? _); [exists ""; induction s as [|c s IH]; [done|exact (f_equal (String c) IH)]|].
  generalize (Z.to_nat max). induction s as [|c s IH]; intros [|n]; [by exists ""..|by exists (String c s)|].
  destruct (IH n) as [rest Hr]. exists rest. cbn. by rewrite Hr at 1.
Qed.
Lemma truncate_whole s max : longer s max = false -> truncate s max = s.
Proof. unfold longer, truncate. destruct (Z.ltb_spec max (Z.of_nat (String.length s))), (Z.leb_spec (Z.of_nat (String.length s)) max); (done || lia). Qed.

(** What is kept of an answer of the agent: the start of its streams, and the whole of
    them when nothing says that they were cut. *)
Record kept_of (s : Object) (max : Z) (res : ExecResult) : Prop := {
  ko_exit : xr_ExitCode res = asInt (field s "exitcode");
  ko_out : Z.of_nat (String.length (xr_Stdout res)) <= max /\ exists rest, fieldString s "out-data" = xr_Stdout res +:+ rest;
  ko_err : Z.of_nat (String.length (xr_Stderr res)) <= max /\ exists rest, fieldString s "err-data" = xr_Stderr res +:+ rest;
  ko_whole : xr_Truncated res = false -> xr_Stdout res = fieldString s "out-data" /\ xr_Stderr res = fieldString s "err-data";
}.
Definition output_limit (max : Z) : Z := if max <=? 0 then agentMaxOutputBytes else max.
Lemma buildExecResult_kept s max : kept_of s (output_limit max) (buildExecResult s max).
Proof.
  assert (0 <= output_limit max) as Hp by (unfold output_limit; destruct (Z.leb_spec max 0); [done|lia]).
  split; cbn; fold (output_limit max); [done|by split; [apply truncate_bounded|apply truncate_start]..|].
  intros H. repeat (apply orb_false_iff in H as [H ?]). by rewrite !truncate_whole.
Qed.

Section Started.
Context {PE : PveEnv}.

(** The process that the agent says it started. *)
Definition process_of (a : error + option any) (pid : Z) : Prop :=
  exists data obj, a = inr data /\ as_object data = inr obj /\ pid = asInt (field obj "pid").
(** What a call to the agent leaves in the log. *)
Lemma agentExecStart_logged node id req s : exists r a s1, agentExecStart node id req s = (Ret r, s1) /\
  pv_log s1 = pv_log s ++ [mkExchange (mkPveRequest MethodPost (agent_path "exec" node id) (exec_form req)) a] /\
  (forall pid, r = inr pid -> process_of a pid).
Proof.
  eexists _, _, _. split_and!; [done..|]. intros pid E. unfold decoded in E. destruct (read_reply _ _ _) as [e|data]; [done|].
  destruct (as_object data) as [e|obj] eqn:Eo; [done|]. injection E as <-. by exists data, obj.
Qed.

(** A result is the last answer of the agent about the process that was started. *)
Definition reported (node id : string) (pid max : Z) (res : ExecResult) (x : exchange) : Prop :=
  ex_request x = mkPveRequest MethodGet (agent_path "exec-status" node id) {["pid" := [pretty pid]]} /\
  exists data s, ex_answer x = inr data /\ as_object data = inr s /\ asBool (field s "exited") = true /\ kept_of s (output_limit max) res.
Definition result_reported (node id : string) (pid max : Z) (o : outcome (error + ExecResult)) (polls : list exchange) : Prop :=
  forall res, o = Ret (inr res) -> exists y, last polls = Some y /\ reported node id pid max res y.

Lemma agentExecWait_logged polls node id pid max s o s' : agentExecWait polls node id pid max s = (o, s') ->
  exists asked, pv_log s' = pv_log s ++ asked /\ Forall (fun x => is_get (ex_request x)) asked /\ result_reported node id pid max o asked.
Proof.
  revert s. induction polls as [|polls IH]; intros s E; cbn [agentExecWait] in E.
  { injection E as <- <-. exists []. rewrite app_nil_r. by split_and!. }
  unfold pve_get in E. erewrite bind_Ret in E by reflexivity.
  set (a := read_reply _ _ _) in E. set (x := mkExchange _ a) in E.
  assert (forall o, (forall res, o <> Ret (inr res)) -> o = o -> exists asked, pv_log s ++ [x] = pv_log s ++ asked /\
    Forall (fun x => is_get (ex_request x)) asked /\ result_reported node id pid max o asked) as Hend.
  { intros o' Ho _. exists [x]. split_and!; [done|by repeat constructor|]. intros res Hres. by destruct (Ho res). }
  destruct a as [e|data] eqn:Ha; [injection E as <- <-; by apply Hend|].
  unfold decoded in E. destruct (as_object data) as [e|obj] eqn:Eo; [injection E as <- <-; by apply Hend|].
  destruct (asBool (field obj "exited")) eqn:Ex.
  { injection E as <- <-. exists [x]. split_and!; [done|by repeat constructor|]. intros res [= <-]. exists x. split; [done|].
    split; [done|]. exists data, obj. split_and!; [done..|apply buildExecResult_kept]. }
  erewrite bind_Ret in E by reflexivity. destruct (pve_done _) as [c|]; [injection E as <- <-; by apply Hend|].
  destruct (IH _ E) as (asked & Hlog & Hg & Hres). exists (x :: asked). cbn in Hlog.
  split_and!; [by rewrite Hlog, <- app_assoc|by constructor|].
  intros res ->. destruct (Hres res eq_refl) as (y & Hy & Hrep). exists y. split; [|done].
  destruct asked; [done|exact Hy].
Qed.

(** What a call starts in a guest: nothing, or the command. *)
Inductive starts (id : string) (req : ExecRequest) (o : outcome (error + ExecResult)) (asked : list exchange) : Prop :=
| starts_nothing : Forall (fun x => is_get (ex_request x)) asked -> (forall res, o <> Ret (inr res)) -> starts id req o asked
| starts_once before x polls node :
    asked = before ++ x :: polls -> Forall (fun x => is_get (ex_request x)) (before ++ polls) ->
    ex_request x = mkPveRequest MethodPost (agent_path "exec" node id) (exec_form req) -> exec_form req !! "command" = Some (er_Argv req) ->
    (forall res, o = Ret (inr res) -> exists pid, process_of (ex_answer x) pid /\ result_reported node id pid (er_MaxOutputBytes req) o polls) ->
    starts id req o asked.
Lemma exec_form_command req : exec_form req !! "command" = Some (er_Argv req).
Proof. unfold exec_form. rewrite lookup_unless_ne by done. apply lookup_singleton_eq. Qed.

(** C15: A command is started once. Running a command in a guest reads the cluster,
    and sends at most one request that changes anything: the one that starts the
    command, with its arguments as they are, in the guest it was given. It is not sent
    again while the command is waited for, however often the agent is polled and
    whatever it answers. A result is what the agent last reported of the process
    that it started, once it exited: its exit code, and the beginning of its output, up
    to the limit asked for, and the whole of it unless it is marked as cut. *)
Theorem command_started_once id req s o s' : ExecInGuest id req s = (o, s') ->
  exists asked, pv_log s' = pv_log s ++ asked /\ starts id req o asked.
Proof.
  intros E. unfold ExecInGuest in E. destruct (er_Argv req) as [|a argv] eqn:Ea.
  { injection E as <- <-. exists []. rewrite app_nil_r. by split; [|constructor]. }
  pose proof (resolve_grew is_get (fun q h => h) id s) as (reads & Hreads & Hr). unfold mbind, M_bind in E.
  destruct (resolve id s) as [[[e|[node kind]]|p|] s1]; cbn in Hreads;
    [injection E as <- <-; exists reads; by split; [|constructor]| |injection E as <- <-; exists reads; by split; [|constructor]..].
  destruct (negb _); [injection E as <- <-; exists reads; by split; [|constructor]|].
  destruct (agentExecStart_logged node id req s1) as (r & ans & s2 & Est & Hlog & Hpid). rewrite Est in E.
  destruct r as [e|pid].
  - injection E as <- <-. rewrite Hlog, Hreads, <- app_assoc. eexists. split; [done|].
    eapply (starts_once _ _ _ _ reads _ [] node); [done|by rewrite app_nil_r|done|apply exec_form_command|done].
  - destruct (agentExecWait_logged _ _ _ _ _ _ _ _ E) as (polls & Hw & Hg & Hres). rewrite Hw, Hlog, Hreads, <- !app_assoc.
    eexists. split; [done|]. eapply (starts_once _ _ _ _ reads _ polls node); [done|by apply Forall_app|done|apply exec_form_command|].
    intros res Ho. exists pid. split; [by apply Hpid|exact Hres].
Qed.
End Started.

(** ** A command at work *)

Module Agent.
Definition says (v : any) : pve_reply := Replied 200 "" (inr (Some v)).
#[local] Instance cluster : PveEnv := {|
  pve_answer n _ :=
    match n with
    | 0%nat => says (AnyList [AnyMap [("vmid", AnyFloat (float_of_Z 9001)); ("node", AnyString "pve1"); ("type", AnyString "qemu")]])
    | 1%nat => says (AnyMap [("pid", AnyFloat (float_of_Z 7))])
    | 2%nat => says (AnyMap [("exited", AnyFloat (float_of_Z 0))])
    | _ => says (AnyMap [("exited", AnyFloat (float_of_Z 1)); ("exitcode", AnyFloat (float_of_Z 3)); ("out-data", AnyString "inactive")])
    end;
  pve_ctx _ := None;
  pve_done _ := None;
  pve_clock _ := 0;
  task_polls := 5;
  json_error _ _ := ENew (Lit "json");
  json_agentInterfaces _ := inr [];
  json_agentOSInfo _ := inl (ENew (Lit "json"));
  json_text _ := None;
  ip_unusable _ := false;
|}.
Definition asked_for : ExecRequest := mkExecRequest ["systemctl"; "is-active"; "nginx"] "" 4.
Definition ran : outcome (error + ExecResult) * Pve := ExecInGuest "9001" asked_for (mkPve [] 0).
Lemma command_started_once_witness :
  ran.1 = Ret (inr (mkExecResult 3 "inac" "" true "")) /\ exists asked, pv_log ran.2 = [] ++ asked /\ starts "9001" asked_for ran.1 asked.
Proof.
  split; [vm_compute; reflexivity|]. apply (command_started_once "9001" asked_for (mkPve [] 0) ran.1 ran.2). unfold ran. by destruct (ExecInGuest _ _ _).
Defined.
End Agent.
