(* ===== verification/Storages.v ===== *)
(** * What a diagnosis reads of a Proxmox cluster

    Models internal/providers/proxmox/storages.go: the storages and what they hold,
    the tasks of a node, the snapshots of a workload, and what the token may do. *)

From Stdlib Require Import ZArith Lia String Ascii List.
From S2P Require Import Prelude GoTime GoFloat Errors Core GoString GoStrconv Pve Proxmox ProxmoxTheorems.

(** [Storage]. *)
Record Storage := mkStorage {
  sg_ID : string;
  sg_Type : string;
  sg_Content : string;
  sg_Active : bool;
  sg_Enabled : bool;
  sg_Shared : bool;
  sg_TotalByte : Z;
  sg_UsedByte : Z;
}.

(** [splitCSV]: what is between the commas, but nothing empty. *)
Definition splitCSV (s : string) : list string := List.filter nonempty (Split "," s).
(** [HoldsBackups]. *)
Definition HoldsBackups (s : Storage) : bool := existsb (fun c => bool_decide (c = "backup")) (splitCSV (sg_Content s)).
Example holds_backups :
  map (fun content => HoldsBackups (mkStorage "local" "dir" content true true false 0 0)) ["iso,backup,vztmpl"; "images,backups"; ""; ",backup"] =
  [true; false; false; true].
Proof. reflexivity. Qed.

(** [Task] and [Snapshot]. *)
Record Task := mkTask { tk_UPID : string; tk_Type : string; tk_TaskID : string; tk_Status : string; tk_Running : bool; tk_User : string }.
Definition TaskOK (t : Task) : bool := bool_decide (tk_Status t = "OK").
Record Snapshot := mkSnapshot { sn_Name : string; sn_Description : string; sn_Current : bool }.

Definition storage_row (e : Object) : Storage :=
  mkStorage (fieldString e "storage") (fieldString e "type") (fieldString e "content") (asBool (field e "active")) (asBool (field e "enabled"))
    (asBool (field e "shared")) (asInt64 (field e "total")) (asInt64 (field e "used")).
Definition task_row (running : string -> bool) (e : Object) : Task :=
  let status := fieldString e "status" in
  mkTask (fieldString e "upid") (fieldString e "type") (fieldString e "id") status (running status) (fieldString e "user").
Definition snapshot_row (e : Object) : Snapshot :=
  let name := fieldString e "name" in mkSnapshot name (fieldString e "description") (bool_decide (name = "current")).

Section Storages.
Context `{PveEnv}.
Abbreviation PM := (M Pve).

(** Rows of an answer. *)
Definition rows_of {A} (row : Object -> A) (data : option any) : error + list A := on_ok (map row) (as_objects data).

(** [ListStorages]: on the first node online when none is named. *)
Definition storages_on (node : string) : PM (error + list Storage) :=
  asked (pve_get (Sprintf "/nodes/%s/storage" [AStr node]) ∅) (rows_of storage_row) "proxmox: decode storage list for node %s: %w" [AStr node].
Definition ListStorages (node : string) : PM (error + list Storage) :=
  if nonempty node then storages_on node else
  nodes ← ListNodes;
  match nodes with
  | inl e => mret (inl e)
  | inr nodes =>
    let node := match List.find node_Online nodes with Some n => node_ID n | None => "" end in
    if nonempty node then storages_on node else mret (inl (ENew (Lit "proxmox: no online node to list storages on")))
  end.

(** [ListContentIDs] and [CountBackups]. *)
Definition content_params (content workloadID : string) : Values :=
  set_unless_empty "vmid" workloadID (set_unless_empty "content" content ∅).
Definition content_of {A} (row : Object -> A) (node storage content workloadID : string) : PM (error + list A) :=
  asked (pve_get (Sprintf "/nodes/%s/storage/%s/content" [AStr node; AStr storage]) (content_params content workloadID)) (rows_of row)
    "proxmox: decode content of storage %s: %w" [AStr storage].
Definition ListContentIDs (node storage content workloadID : string) : PM (error + list string) :=
  content_of (fun e => fieldString e "volid") node storage content workloadID.
Definition CountBackups (node storage workloadID : string) : PM (error + Z) :=
  entries ← content_of (fun e => e) node storage "backup" workloadID;
  mret (on_ok (fun l => Z.of_nat (length l)) entries).

(** [RunningTasks] and [RecentBackupTasks]. *)
Definition tasks_of (node fmt : string) (params : Values) (running : string -> bool) : PM (error + list Task) :=
  asked (pve_get (Sprintf "/nodes/%s/tasks" [AStr node]) params) (rows_of (task_row running)) fmt [AStr node].
Definition RunningTasks (node : string) : PM (error + list Task) :=
  tasks_of node "proxmox: decode task list for node %s: %w" (set_value "running" "1" (set_value "limit" "50" ∅))
    (fun status => negb (nonempty status) || bool_decide (status = "running")).
Definition RecentBackupTasks (node : string) (limit : Z) : PM (error + list Task) :=
  let limit := if limit <=? 0 then 20 else limit in
  tasks_of node "proxmox: decode backup task list for node %s: %w" (set_value "typefilter" "vzdump" (set_value "limit" (pretty limit) ∅))
    (fun status => negb (nonempty status)).

(** [ListSnapshots]. *)
Definition ListSnapshots (workloadID : string) : PM (error + list Snapshot) :=
  where_ ← resolve workloadID;
  match where_ with
  | inl e => mret (inl e)
  | inr (node, kind) =>
    asked (pve_get (Sprintf "/nodes/%s/%s/%s/snapshot" [AStr node; AStr kind; AStr workloadID]) ∅) (rows_of snapshot_row)
      "proxmox: decode snapshots of %s: %w" [AStr workloadID]
  end.

(** [EffectivePermissions]: the privileges by path. *)
Definition permissions_of (data : option any) : error + gmap string (gmap string bool) :=
  match as_object data with
  | inl err => inl err
  | inr tree =>
    match mapM (fun x : string * any => (fun privs : Object => (x.1, asBool <$> privs)) <$> row_of x.2) (map_to_list tree) with
    | Some l => inr (list_to_map l)
    | None => inl (json_error "map[string]map[string]any" data)
    end
  end.
Definition EffectivePermissions (path : string) : PM (error + gmap string (gmap string bool)) :=
  asked (pve_get (Lit "/access/permissions") (set_unless_empty "path" path ∅)) permissions_of "proxmox: decode permissions: %w" [].
(** [Raw]. *)
Definition Raw (path : text) (params : Values) : PM (error + option any) := pve_get path params.

(** All of it reads. *)
Lemma ListStorages_grew P node : (forall q, is_get q -> P q) -> keeps (grew P) (ListStorages node).
Proof. intros HP. unfold ListStorages, storages_on. keeps_auto; eauto using ListNodes_grew, asked_get_grew. Qed.
Lemma CountBackups_grew P node storage id : (forall q, is_get q -> P q) -> keeps (grew P) (CountBackups node storage id).
Proof. intros HP. unfold CountBackups, content_of. keeps_auto; eauto using asked_get_grew. Qed.
End Storages.
