(* ===== verification/ProxmoxSafety.v ===== *)
(** * The safety boundaries of the Proxmox provider

    Deletion, restore, hardening and allocation, for every cluster: the theorems
    quantify over whatever it answers. *)

From Stdlib Require Import ZArith Lia String Ascii List.
From stdpp Require Import sorting.
From S2P Require Import Prelude GoTime GoFloat Errors Core GoString GoStrconv Plan Engine Pve Proxmox ProxmoxTheorems.

Section Safety.
Context `{PveEnv} (cfg : PveConfig).

(** ** Deletion *)

Definition mark : string := MetadataManaged +:+ "=true".
Definition stop_request (id : string) (q : PveRequest) : Prop :=
  exists node kind, q = mkPveRequest MethodPost (workload_path "/status/stop" node kind id) ∅.
Definition delete_request (node kind id : string) (q : PveRequest) : Prop :=
  pq_method q = MethodDelete /\ pq_path q = workload_path "" node kind id.
Definition stopping (id : string) (x : exchange) : Prop := is_get (ex_request x) \/ stop_request id (ex_request x).

(** Past the gates: reads and stops, then at most one deletion, then reads. *)
Definition deletes_once (node kind id : string) (deleted : bool) (l : list exchange) : Prop :=
  if deleted then
    exists a d b, l = a ++ d :: b /\ Forall (stopping id) a /\ delete_request node kind id (ex_request d) /\ Forall reading b
  else Forall (stopping id) l.

(** An answer that proves the ownership of a workload. *)
Definition owned (node kind id : string) (x : exchange) : Prop :=
  ex_request x = mkPveRequest MethodGet (workload_path "/config" node kind id) ∅ /\
  exists config, ex_answer x = inr (Some (AnyMap config)) /\ Contains (fieldString (object_of config) "description") mark = true.

Lemma get_stopping id q : is_get q -> is_get q \/ stop_request id q.
Proof. by left. Qed.
Lemma Stop_stops id : keeps (grew (fun q => is_get q \/ stop_request id q)) (Stop id).
Proof.
  unfold Stop, lifecycle. apply keeps_bind; [apply _|apply resolve_grew, get_stopping|]. intros [e|[node kind]]; [keeps_auto|].
  unfold runLifecycleTask. apply keeps_bind; [apply _| |].
  - apply asked_grew, request_grew. right. by exists node, kind.
  - intros [e|upid]; [keeps_auto|]. apply keeps_bind; [apply _|apply WaitForTask_grew, get_stopping|].
    intros ts. apply settled_task_grew.
Qed.

(** Only a deletion that ended well is reported as one. *)
Definition outcome_of (deleted : bool) (o : outcome (error + unit)) : Prop := o = Ret (inr tt) -> deleted = true.

Lemma destroy_workload_once node kind id s :
  exists l o s', destroy_workload node kind id s = (o, s') /\ pv_log s' = pv_log s ++ l /\ deletes_once node kind id true l.
Proof.
  unfold destroy_workload, pve_delete.
  set (params := <["purge" := ["1"]]> {["destroy-unreferenced-disks" := ["1"]]}).
  rewrite (bind_Ret _ _ _ _ _ (asked_eq MethodDelete (workload_path "" node kind id) params as_text _ _ s)).
  set (d := exchange_at _ _ _ _).
  assert (forall (o : outcome (error + unit)) s' b, pv_log s' = pv_log (after d s) ++ b -> Forall reading b ->
    exists l o' s'', (o, s') = (o', s'') /\ pv_log s'' = pv_log s ++ l /\ deletes_once node kind id true l) as Hend.
  { intros o s' b Hb HF. exists (d :: b), o, s'. split_and!; [done|by rewrite Hb; cbn; rewrite <- app_assoc|].
    exists [], d, b. by split_and!. }
  destruct (ex_answer d) as [e|data]; [by apply (Hend _ _ []); rewrite ?app_nil_r|]. unfold decoded.
  destruct (as_text data) as [e|upid]; [by apply (Hend _ _ []); rewrite ?app_nil_r|].
  match goal with |- exists l o s', ?m _ = _ /\ _ => assert (keeps (grew is_get) m) as Hm; [|specialize (Hm (after d s)); destruct (m (after d s)) as [o s']] end.
  { apply keeps_bind; [apply _|by apply WaitForTask_grew|]. intros ts. by apply settled_task_grew. }
  destruct Hm as (b & Hb & HF). by apply (Hend o s' b).
Qed.

Lemma stop_then_destroy_once node kind id s :
  exists deleted l o s', stop_then_destroy node kind id s = (o, s') /\ pv_log s' = pv_log s ++ l /\
    deletes_once node kind id deleted l /\ outcome_of deleted o.
Proof.
  unfold stop_then_destroy. unfold status_current at 1, pve_get.
  rewrite (bind_Ret _ _ _ _ _ (asked_eq MethodGet (workload_path "/status/current" node kind id) ∅ as_object _ _ s)).
  set (x := exchange_at _ _ _ _).
  assert (stopping id x) as Hx by by left.
  assert (forall s1 a, pv_log s1 = pv_log s ++ a -> Forall (stopping id) a -> exists deleted l o s', destroy_workload node kind id s1 = (o, s') /\
    pv_log s' = pv_log s ++ l /\ deletes_once node kind id deleted l /\ outcome_of deleted o) as Hdestroy.
  { intros s1 a Ha Hst. destruct (destroy_workload_once node kind id s1) as (l & o & s' & E & Hl & a' & d & b & -> & Ha' & Hd & Hb).
    exists true, (a ++ a' ++ d :: b), o, s'. split_and!; [done|by rewrite Hl, Ha, <- app_assoc| |done].
    exists (a ++ a'), d, b. split_and!; [by rewrite <- app_assoc|by apply Forall_app|done|done]. }
  assert (forall e, exists deleted l o s', (Ret (inl e : error + unit), after x s) = (o, s') /\ pv_log s' = pv_log s ++ l /\
    deletes_once node kind id deleted l /\ outcome_of deleted o) as Hread.
  { intros e. exists false, [x], (Ret (inl e)), (after x s). split_and!; [done|done|by apply Forall_singleton|done]. }
  destruct (ex_answer x) as [e|data]; [by apply Hread|]. unfold decoded. destruct (as_object data) as [e|st]; [by apply Hread|].
  destruct (bool_decide _); [|by apply (Hdestroy (after x s) [x]); [|apply Forall_singleton]].
  pose proof (Stop_stops id (after x s)) as Hstop. destruct (Stop id (after x s)) as [o s1] eqn:E1. destruct Hstop as (a & Ha & Hst).
  cbn [fst snd] in Ha. assert (pv_log s1 = pv_log s ++ x :: a) as Ha1 by (rewrite Ha; cbn; by rewrite <- app_assoc).
  assert (Forall (stopping id) (x :: a)) as Hst1 by by constructor.
  assert (forall o' : outcome (error + unit), o' <> Ret (inr tt) -> exists deleted l o0 s', (o', s1) = (o0, s') /\ pv_log s' = pv_log s ++ l /\
    deletes_once node kind id deleted l /\ outcome_of deleted o0) as Hstopped.
  { intros o' Ho'. exists false, (x :: a), o', s1. split_and!; [done|done|done|]. intros E. by destruct Ho'. }
  unfold mbind at 1, M_bind. rewrite E1. destruct o as [[e|[]]|msg|]; [by apply Hstopped| |by apply Hstopped..].
  by apply (Hdestroy s1 (x :: a)).
Qed.

(** How a deletion goes. *)
Definition gated_run (id : string) (new : list exchange) (o : outcome (error + unit)) : Prop :=
  (Forall reading new /\ o <> Ret (inr tt)) \/
  exists pre x rest node kind deleted, new = pre ++ x :: rest /\ reserved cfg id = true /\ Forall reading pre /\
    owned node kind id x /\ deletes_once node kind id deleted rest /\ outcome_of deleted o.

Lemma Delete_runs id s :
  exists new o s', Delete cfg id s = (o, s') /\ pv_log s' = pv_log s ++ new /\ gated_run id new o.
Proof.
  unfold Delete, gated_run. destruct (reserved cfg id) eqn:Hid; cbn [negb].
  2: { exists []. eexists _, _. split; [reflexivity|]. split; [by rewrite app_nil_r|]. left. by split. }
  pose proof (resolve_grew is_get (fun _ H => H) id s) as Hr. destruct (resolve id s) as [o s1] eqn:E1. destruct Hr as (pre & Hpre & Hget).
  cbn [fst snd] in Hpre. unfold mbind at 1, M_bind at 1. rewrite E1.
  assert (forall o' : outcome (error + unit), o' <> Ret (inr tt) -> exists new o0 s', (o', s1) = (o0, s') /\ pv_log s' = pv_log s ++ new /\
    ((Forall reading new /\ o0 <> Ret (inr tt)) \/ exists pre x rest node kind deleted, new = pre ++ x :: rest /\ true = true /\
       Forall reading pre /\ owned node kind id x /\ deletes_once node kind id deleted rest /\ outcome_of deleted o0)) as Hread.
  { intros o' Ho'. exists pre, o', s1. split_and!; [done|done|by left]. }
  destruct o as [[e|[node kind]]|msg|]; [by apply Hread| |by apply Hread..]. clear Hread.
  unfold isManaged, pve_get. unfold mbind at 1, M_bind at 1.
  rewrite (bind_Ret _ _ _ _ _ (asked_eq MethodGet (workload_path "/config" node kind id) ∅ as_object _ _ s1)).
  set (x := exchange_at _ _ _ _).
  assert (pv_log (after x s1) = pv_log s ++ pre ++ [x]) as Hx by (cbn; by rewrite Hpre, <- app_assoc).
  assert (forall o' : outcome (error + unit), o' <> Ret (inr tt) -> exists new o0 s', (o', after x s1) = (o0, s') /\ pv_log s' = pv_log s ++ new /\
    ((Forall reading new /\ o0 <> Ret (inr tt)) \/ exists pre x rest node kind deleted, new = pre ++ x :: rest /\ true = true /\
       Forall reading pre /\ owned node kind id x /\ deletes_once node kind id deleted rest /\ outcome_of deleted o0)) as Hread.
  { intros o' Ho'. exists (pre ++ [x]), o', (after x s1). split_and!; [done|done|]. left. split; [|done].
    apply Forall_app. split; [done|]. by apply Forall_singleton. }
  destruct (ex_answer x) as [e|data] eqn:Ea; [by apply Hread|]. unfold decoded. destruct (as_object data) as [e|config] eqn:Ed; [by apply Hread|].
  cbn [on_ok mret M_ret]. destruct (Contains _ _) eqn:Hm; [|by apply Hread].
  destruct (stop_then_destroy_once node kind id (after x s1)) as (deleted & rest & o & s' & E & Hl & Honce & Ho).
  exists (pre ++ x :: rest), o, s'. split_and!; [exact E|by rewrite Hl, Hx, <- !app_assoc|]. right.
  exists pre, x, rest, node, kind, deleted. split_and!; try done. split; [done|].
  destruct data as [[| | | | | |config']|]; try discriminate.
  - injection Ed as <-. by vm_compute in Hm.
  - injection Ed as <-. by exists config'.
Qed.

(** Deletion is behind two gates. Whatever the cluster answers, deleting a
    workload only reads until the identifier is known to be in the reserved range
    and the configuration of that very workload, read before anything is done,
    carries the mark of ownership; then it may stop the workload and submits at most
    one deletion, of that workload; and it reports success only if it submitted it. *)
Theorem Delete_gated id s :
  exists new o s', Delete cfg id s = (o, s') /\ pv_log s' = pv_log s ++ new /\
    ((Forall reading new /\ o <> Ret (inr tt)) \/
     exists pre x rest node kind deleted, new = pre ++ x :: rest /\ reserved cfg id = true /\ Forall reading pre /\
       owned node kind id x /\ deletes_once node kind id deleted rest /\ outcome_of deleted o).
Proof. exact (Delete_runs id s). Qed.

(** ** Restore and hardening *)

(** The form that creates a workload: a new one, stopped, with a new identity,
    every network device it mentions on the isolated network. *)
Record isolated_form (opts : RestoreOptions) (form : Values) : Prop := {
  if_target : form !! "vmid" = Some [ro_TargetWorkloadID opts];
  if_new : form !! "force" = None;
  if_stopped : form !! "start" = Some ["0"];
  if_unique : form !! "unique" = Some ["1"];
  if_devices : forall k v, netIface k = true -> form !! k = Some v -> v = [renderNetConfig (ro_Network opts)];
}.
(** A network device that a backup's configuration names; the devices a restore
    must replace, by the answer to the reading of that configuration: every device
    it names, and net0 when it names none or could not be read. *)
Definition names_device (blob k : string) : Prop := netIface k = true /\ is_Some (parseConfigBlob blob !! k).
Definition to_replace (answer : error + option any) (k : string) : Prop :=
  match answer with
  | inr (Some (AnyString blob)) => names_device blob k \/ (k = "net0" /\ forall k', ~ names_device blob k')
  | _ => k = "net0"
  end.
(** The network devices of a form. *)
Definition form_device (form : Values) (k : string) : Prop := netIface k = true /\ is_Some (form !! k).

Lemma devices_read_spec answer k : k ∈ devices_read answer <-> to_replace answer k.
Proof.
  assert (Hnet0 : k ∈ ["net0"] <-> k = "net0") by apply list_elem_of_singleton.
  destruct answer as [e|[[|blob| | | | |]|]]; cbn; try exact Hnet0.
  pose proof (fun k => BackupNetworkDevices_elem (parseConfigBlob blob) k) as Hspec.
  destruct (BackupNetworkDevices _) as [|k0 l].
  - rewrite Hnet0. unfold names_device. split.
    + intros ->. right. split; [done|]. intros k' Hk. by apply Hspec, not_elem_of_nil in Hk.
    + intros [Hk|[? _]]; [by apply Hspec, not_elem_of_nil in Hk|done].
  - rewrite Hspec. split; [by left|]. intros [?|[_ Hno]]; [done|].
    exfalso. apply (Hno k0), Hspec. by left.
Qed.

(** C12: a restore never touches what exists, and creates nothing on a production
    network. It makes no request at all (and fails) without a node or a target;
    otherwise, when a bridge is asked for, it makes exactly one reading, of the
    configuration of that backup on the node it restores onto, then submits
    exactly one creation there: of a new, stopped workload with the identifier it
    was given, whose network devices are exactly the ones that the configuration
    read names (net0 alone when it names none or the answer was not a text), each
    on the network of the restore. Without a bridge it reads nothing, and the
    creation mentions no device. *)
Theorem Restore_isolates backup opts s :
  let node := if nonempty (ro_Node opts) then ro_Node opts else bk_Node backup in
  exists o s', Restore backup opts s = (o, s') /\
    ((pv_log s' = pv_log s /\ (node = "" \/ ro_TargetWorkloadID opts = "") /\ exists e, o = Ret (inl e)) \/
     node <> "" /\ ro_TargetWorkloadID opts <> "" /\
     exists reads x form, pv_log s' = pv_log s ++ reads ++ [x] /\
       ex_request x = mkPveRequest MethodPost (Sprintf "/nodes/%s/qemu" [AStr node]) form /\
       isolated_form opts form /\
       if nonempty (net_Bridge (ro_Network opts)) then
         exists y, reads = [y] /\
           ex_request y = mkPveRequest MethodGet (Sprintf "/nodes/%s/vzdump/extractconfig" [AStr node])
                            {["volume" := [bk_ID backup]]} /\
           forall k, form_device form k <-> to_replace (ex_answer y) k
       else reads = [] /\ forall k, ~ form_device form k).
Proof.
  destruct (Restore_cases backup opts s) as (o & s' & E & [Hnone|(Hnode & Ht & x & Hl & Hx)]).
  { exists o, s'. split; [done|]. by left. }
  exists o, s'. split; [done|]. right. split_and!; [done..|]. set (reads := restore_reads backup opts s) in *.
  pose proof (restore_devices_net reads) as Hn. exists reads, x, (restore_form backup opts (restore_devices reads)).
  assert (Hdev : forall k, form_device (restore_form backup opts (restore_devices reads)) k <-> k ∈ restore_devices reads).
  { intros k. unfold form_device. split.
    - intros [Hk [v Hv]]. rewrite restore_form_device in Hv by done. by destruct (decide _).
    - intros Hin. assert (Hk : netIface k = true) by (rewrite Forall_forall in Hn; by apply Hn).
      split; [done|]. rewrite restore_form_device, decide_True by done. by eexists. }
  split_and!; [done|done| |].
  - destruct (restore_form_fixed backup opts (restore_devices reads) Hn) as (? & ? & ? & ? & ? & ?). split; try done.
    intros k v Hk. rewrite restore_form_device by done. destruct (decide _); congruence.
  - subst reads. unfold restore_reads in *. destruct (nonempty (net_Bridge _)).
    + eexists. split_and!; [done|done|]. intros k. rewrite Hdev. apply devices_read_spec.
    + split; [done|]. intros k. rewrite Hdev. by apply not_elem_of_nil.
Qed.

(** Hardening leaves one network device. When the hardening of a restored
    workload changes its configuration, the network devices that the configuration
    read just before has after the change are exactly net0, on the isolated
    network, and the workload neither starts with the node nor is protected. *)
Theorem FinalizeRestore_isolates opts s :
  exists reads o s', FinalizeRestore opts s = (o, s') /\ Forall reading reads /\
    ((pv_log s' = pv_log s ++ reads /\ o <> Ret (inr tt)) \/
     exists node y config x form, pv_log s' = pv_log s ++ reads ++ [y; x] /\
       ex_request y = mkPveRequest MethodGet (Sprintf "/nodes/%s/qemu/%s/config" [AStr node; AStr (ro_TargetWorkloadID opts)]) ∅ /\
       as_object (match ex_answer y with inr data => data | inl _ => None end) = inr config /\
       ex_request x = mkPveRequest MethodPost (Sprintf "/nodes/%s/qemu/%s/config" [AStr node; AStr (ro_TargetWorkloadID opts)]) form /\
       (forall k, kept_device config form k <-> k = "net0") /\
       form !! "net0" = Some ["virtio" +:+ net_options (ro_Network opts)] /\
       form !! "onboot" = Some ["0"] /\ form !! "protection" = Some ["0"]).
Proof.
  unfold FinalizeRestore. set (who := if nonempty (ro_Node opts) then _ else _).
  assert (keeps (grew is_get) who) as Hwho.
  { unfold who. destruct (nonempty _); [keeps_auto|]. apply keeps_bind; [apply _|by apply resolve_grew|]. keeps_auto. }
  specialize (Hwho s). unfold mbind at 1, M_bind at 1. destruct (who s) as [o s1]. destruct Hwho as (reads & Hl & Hr). cbn [fst snd] in Hl.
  destruct o as [[e|node]|msg|]; [exists reads; eexists _, _; split; [reflexivity|]; split; [done|by left]| |
    exists reads; eexists _, _; split; [reflexivity|]; split; [done|by left]..].
  set (path := Sprintf "/nodes/%s/qemu/%s/config" [AStr node; AStr (ro_TargetWorkloadID opts)]). cbv zeta. unfold pve_get.
  rewrite (bind_Ret _ _ _ _ _ (asked_eq MethodGet path ∅ as_object _ _ s1)). set (y := exchange_at s1 MethodGet path ∅).
  assert (forall e, exists reads (o : outcome (error + unit)) s', (Ret (inl e), after y s1) = (o, s') /\ Forall reading reads /\
    pv_log s' = pv_log s ++ reads /\ o <> Ret (inr tt)) as Hread.
  { intros e. exists (reads ++ [y]), (Ret (inl e)), (after y s1). split_and!; [done| |by cbn; rewrite Hl, <- app_assoc|done].
    apply Forall_app. split; [done|]. by apply Forall_singleton. }
  destruct (ex_answer y) as [e|data] eqn:Ea; [destruct (Hread e) as (l & o & s' & ? & ? & ?); exists l, o, s'; by split_and!; [| |left]|].
  unfold decoded. destruct (as_object data) as [e|config] eqn:Ed;
    [match goal with |- context [mret (inl ?e)] => destruct (Hread e) as (l & o & s' & ? & ? & ?) end; exists l, o, s'; by split_and!; [| |left]|].
  unfold pve_post. set (form := finalize_form opts config). set (x := exchange_at (after y s1) MethodPost path form).
  exists reads. eexists _, _. split; [reflexivity|]. split; [done|]. right. exists node, y, config, x, form.
  split_and!; [|done|by rewrite Ea|done| | | |].
  - cbn [fst snd]. transitivity ((pv_log s1 ++ [y]) ++ [x]); [reflexivity|]. clearbody x y. rewrite Hl. by rewrite <- !app_assoc.
  - apply finalize_kept.
  - apply finalize_form_net0.
  - apply finalize_form_power.
  - apply finalize_form_power.
Qed.

(** ** Allocation *)

Definition range_size : nat := Z.to_nat (pc_TempIDMax cfg - pc_TempIDMin cfg + 1).
Lemma reserved_pretty n : - 2 ^ 63 <= pc_TempIDMin cfg -> pc_TempIDMax cfg < 2 ^ 63 -> in_range cfg n = true -> reserved cfg (pretty n) = true.
Proof.
  intros Hmin Hmax Hn. unfold reserved. rewrite Atoi_pretty; [done|]. unfold in_range in Hn. apply andb_true_iff in Hn as []. lia.
Qed.

Lemma probe_spec remaining n s :
  - 2 ^ 63 <= pc_TempIDMin cfg -> pc_TempIDMax cfg < 2 ^ 63 -> pc_TempIDMin cfg <= n -> n + Z.of_nat remaining <= pc_TempIDMax cfg + 1 ->
  exists l r s', probe cfg remaining n s = (Ret r, s') /\ pv_log s' = pv_log s ++ l /\ Forall reading l /\ (length l <= remaining)%nat /\
    (forall id, r = inr id -> reserved cfg id = true).
Proof.
  intros Hmin Hmax. revert n s. induction remaining as [|remaining IH]; intros n s Hn Hr; cbn [probe].
  { exists []. eexists _, _. split; [reflexivity|]. rewrite app_nil_r. by split_and!. }
  set (x := exchange_at s MethodGet (Lit "/cluster/nextid") {["vmid" := [pretty n]]}).
  rewrite (bind_Ret _ _ s (ex_answer x) (after x s) eq_refl).
  destruct (ex_answer x) as [err|data]; [destruct (_ || _)|].
  - exists [x]. eexists _, _. split; [reflexivity|]. split_and!; [done|by apply Forall_singleton|cbn; lia|done].
  - destruct (IH (n + 1) (after x s)) as (l & r & s' & E & Hl & Hreads & Hlen & Hres); [lia..|].
    exists (x :: l), r, s'. split_and!; [done|by rewrite Hl; cbn; rewrite <- app_assoc|by constructor|cbn; lia|done].
  - exists [x]. eexists _, _. split; [reflexivity|]. split_and!; [done|by apply Forall_singleton|cbn; lia|].
    intros id [= <-]. apply reserved_pretty; [done..|]. unfold in_range. apply andb_true_iff. lia.
Qed.

Lemma Allocate_runs s :
  - 2 ^ 63 <= pc_TempIDMin cfg -> pc_TempIDMax cfg < 2 ^ 63 ->
  exists l r s', AllocateWorkloadID cfg s = (Ret r, s') /\ pv_log s' = pv_log s ++ l /\ Forall reading l /\
    (length l <= 1 + range_size)%nat /\ (forall id, r = inr id -> reserved cfg id = true).
Proof.
  intros Hmin Hmax. unfold AllocateWorkloadID, pve_get.
  rewrite (bind_Ret _ _ _ _ _ (asked_eq MethodGet (Lit "/cluster/nextid") ∅ as_text _ _ s)). set (x := exchange_at _ _ _ _).
  assert (forall r : error + string, (forall id, r = inr id -> reserved cfg id = true) -> exists l r' s', (Ret r, after x s) = (Ret r', s') /\
    pv_log s' = pv_log s ++ l /\ Forall reading l /\ (length l <= 1 + range_size)%nat /\ (forall id, r' = inr id -> reserved cfg id = true)) as Hnow.
  { intros r Hr. exists [x], r, (after x s). split_and!; [done|done|by apply Forall_singleton|cbn; lia|done]. }
  destruct (ex_answer x) as [e|data]; [by apply Hnow|]. unfold decoded. destruct (as_text data) as [e|idStr]; [by apply Hnow|].
  destruct (reserved cfg idStr) eqn:Hr; [by apply Hnow; intros id [= <-]|].
  destruct (decide (pc_TempIDMin cfg <= pc_TempIDMax cfg)) as [Hle|Hlt].
  - destruct (probe_spec range_size (pc_TempIDMin cfg) (after x s)) as (l & r & s' & E & Hl & Hreads & Hlen & Hres); [done..|lia|unfold range_size; lia|].
    exists (x :: l), r, s'. split_and!; [exact E|by rewrite Hl; cbn; rewrite <- app_assoc|by constructor|cbn; lia|done].
  - replace (Z.to_nat (pc_TempIDMax cfg - pc_TempIDMin cfg + 1)) with 0%nat by lia. cbn [probe]. by apply Hnow.
Qed.
(** An allocation changes nothing and ends within as many requests as the
    reserved range has identifiers, and one; an identifier that it returns is in the
    reserved range, so that what is created under it can be deleted again. *)
Theorem AllocateWorkloadID_reserved s :
  - 2 ^ 63 <= pc_TempIDMin cfg -> pc_TempIDMax cfg < 2 ^ 63 ->
  exists l r s', AllocateWorkloadID cfg s = (Ret r, s') /\ pv_log s' = pv_log s ++ l /\ Forall reading l /\
    (length l <= 1 + range_size)%nat /\ (forall id, r = inr id -> reserved cfg id = true).
Proof. exact (Allocate_runs s). Qed.

(** ** The mark of ownership *)

Lemma renderMetadata_line m k v : m !! k = Some v -> Contains (renderMetadata m) (k +:+ "=" +:+ v) = true.
Proof.
  intros E. unfold renderMetadata. apply (Contains_Join _ _ _ (k +:+ "=" +:+ v)); [|apply Contains_refl].
  apply list_elem_of_fmap. exists k. split; [by rewrite E|]. apply sort_strings_elem, map_keys_elem. by exists v.
Qed.

(** What is stamped at creation is what deletion asks for: a configuration whose
    description is the metadata the engine gives to a restored workload is recognised
    as RestoreLab's own. *)
Theorem stamp_recognised node kind id runID sourceID at_ config s :
  let x := exchange_at s MethodGet (workload_path "/config" node kind id) ∅ in
  ex_answer x = inr (Some (AnyMap config)) ->
  object_of config !! "description" = Some (AnyString (renderMetadata (workloadMetadata runID sourceID at_))) ->
  isManaged node kind id s = (Ret (inr true), after x s).
Proof.
  intros x Hx Hd. unfold isManaged, pve_get. rewrite (bind_Ret _ _ _ _ _ (asked_eq MethodGet (workload_path "/config" node kind id) ∅ as_object _ _ s)).
  fold x. rewrite Hx. unfold decoded. cbn [as_object on_ok]. unfold fieldString, field. rewrite Hd.
  assert (Contains (renderMetadata (workloadMetadata runID sourceID at_)) (MetadataManaged +:+ "=true") = true) as Hm
    by (apply (renderMetadata_line _ MetadataManaged "true"); apply lookup_insert_eq).
  unfold mret, M_ret. f_equal. f_equal. exact (f_equal inr Hm).
Qed.
End Safety.
