(* ===== verification/ProxmoxEngine.v ===== *)
(** * A drill on a Proxmox cluster

    The provider of [Proxmox] is an environment of the engine: what a whole drill
    sends to the cluster, whatever the cluster answers. *)

From Stdlib Require Import ZArith Lia String Ascii List.
From S2P Require Import Prelude GoTime GoFloat Errors Core GoString GoStrconv Plan Engine EngineFrame EngineShape EngineSafety EngineWorld Pve Proxmox ProxmoxTheorems ProxmoxSafety.

(** What a drill needs besides the provider: the checks, the clock and the context,
    which act on the cluster's log at most by requests of their own. *)
Class DrillEnv := {
  de_checks : ctxkind -> Target -> list CheckConfig -> M Pve (list CheckResult);
  de_sleep : ctxkind -> Z -> nat -> option error;
  de_uuid : nat -> string;
}.

Section Drill.
Context `{PveEnv} `{DrillEnv} (cfg : PveConfig).

(** The provider and the backups of the engine are one Proxmox provider; it
    validates isolation, reports capacity, hardens and executes in guests. *)
#[export] Instance proxmox_provider : EngineEnv Pve := {|
  hv_ID := pc_ID cfg;
  backups_ID := pc_ID cfg;
  hv_GetWorkload _ := GetWorkload;
  hv_GetStatus _ := GetStatus;
  hv_AllocateWorkloadID _ := AllocateWorkloadID cfg;
  hv_Restore _ := Restore;
  hv_WaitForJob _ := WaitForJob;
  hv_Start _ := Start;
  hv_Stop _ := Stop;
  hv_Delete _ := Delete cfg;
  hv_NetworkValidator := Some (fun _ => ValidateIsolation);
  hv_CapacityReporter := Some (fun _ => NodeCapacity);
  hv_finalizer := Some (fun _ => FinalizeRestore);
  hv_GuestExecutor := true;
  has_baselines := false;
  backups_ListBackups _ := ListBackups cfg;
  backups_GetLatestBackup _ := GetLatestBackup cfg;
  checks_RunAll := de_checks;
  env_now w := (pv_now w, w);
  env_sleep ctx d w := (de_sleep ctx d (length (pv_log w)), mkPve (pv_log w) (pv_now w + d));
  ctx_Err w := pve_ctx (length (pv_log w));
  uuid_NewString w := de_uuid (length (pv_log w));
|}.

(** A command executed in a guest. *)
Definition guest_exec (q : PveRequest) : Prop :=
  exists node id form, q = mkPveRequest MethodPost (Sprintf "/nodes/%s/qemu/%s/agent/exec" [AStr node; AStr id]) form.

(** What is asked of the checks: they read, and execute in guests. *)
Hypothesis checks_stay_inside : forall ctx tg cfgs, keeps (grew (fun q => is_get q \/ guest_exec q)) (de_checks ctx tg cfgs).

(** ** The log of the cluster and the trace of the engine *)

(** A request of the log: a read, a command in a guest, or a write that concerns the
    workload of a call of the trace. *)
Definition asked_for (t : list obs) (x : exchange) : Prop :=
  is_get (ex_request x) \/ guest_exec (ex_request x) \/
  exists id ctx c r, writes id (ex_request x) /\ OCall ctx c r ∈ t /\ target_of c = Some id.
(** Every deletion comes after the proof of ownership of what it deletes. *)
Definition owns_deletions (l : list exchange) : Prop :=
  forall pre d post, l = pre ++ d :: post -> pq_method (ex_request d) = MethodDelete ->
    exists node kind id x, delete_request node kind id (ex_request d) /\ x ∈ pre /\ owned node kind id x.
Record accounted (t : list obs) (w : Pve) : Prop := {
  ac_asked : Forall (asked_for t) (pv_log w);
  ac_owned : owns_deletions (pv_log w);
  ac_reserved : forall ctx id, OCall ctx CallAllocateWorkloadID (EndID id) ∈ t -> reserved cfg id = true;
}.

Lemma asked_for_mono t t' x : asked_for t x -> asked_for (t ++ t') x.
Proof.
  intros [Hg|[Hg|(id & ctx & c & r & Hw & Hin & Hc)]]; [by left|by right; left|]. right; right. exists id, ctx, c, r.
  split_and!; [done| |done]. apply elem_of_app. by left.
Qed.
Lemma owns_app l new :
  owns_deletions l -> Forall (fun x => pq_method (ex_request x) <> MethodDelete) new -> owns_deletions (l ++ new).
Proof.
  intros Hl Hnew pre d post E Hd. apply app_eq_inv in E as [(k & -> & E)|(k & -> & E)].
  - destruct k as [|y k]; cbn in E; [|injection E as <- E].
    + rewrite <- E in Hnew. by apply Forall_cons in Hnew as [? _].
    + by eapply Hl.
  - rewrite E in Hnew. apply Forall_app in Hnew as [_ Hnew]. by apply Forall_cons in Hnew as [? _].
Qed.

(** A call that does not delete, and leaves no identifier behind. *)
Lemma quiet_tracks {A} (ok : A -> call_end) ctx c (op : M Pve (error + A)) (P : PveRequest -> Prop) :
  keeps (grew P) op -> (forall q, P q -> pq_method q <> MethodDelete) ->
  (forall q r t x, P q -> ex_request x = q -> asked_for (t ++ [OCall ctx c r]) x) ->
  (forall t w, (forall ctx' id, OCall ctx' CallAllocateWorkloadID (EndID id) ∈ t -> reserved cfg id = true) ->
     forall ctx' id, OCall ctx' CallAllocateWorkloadID (EndID id) ∈ t ++ [OCall ctx c (call_end_of ok (op w).1)] -> reserved cfg id = true) ->
  tracks accounted ok ctx c op.
Proof.
  intros Hop Hd Ha Hr t w [Hasked Howned Hres]. destruct (Hop w) as (new & E & Hnew). split; rewrite ?E.
  - apply Forall_app. split; [eapply Forall_impl; [exact Hasked|]; intros x; apply asked_for_mono|].
    eapply Forall_impl; [exact Hnew|]. intros x Hx. exact (Ha _ _ t x Hx eq_refl).
  - apply owns_app; [done|]. eapply Forall_impl; [exact Hnew|]. intros x. apply Hd.
  - by apply Hr.
Qed.
Lemma not_an_allocation {A} (ok : A -> call_end) ctx c (op : M Pve (error + A)) :
  c <> CallAllocateWorkloadID ->
  forall t w, (forall ctx' id, OCall ctx' CallAllocateWorkloadID (EndID id) ∈ t -> reserved cfg id = true) ->
    forall ctx' id, OCall ctx' CallAllocateWorkloadID (EndID id) ∈ t ++ [OCall ctx c (call_end_of ok (op w).1)] -> reserved cfg id = true.
Proof.
  intros Hc t w Hres ctx' id Hin. apply elem_of_app in Hin as [Hin|Hin]; [by eapply Hres|].
  apply list_elem_of_singleton in Hin. congruence.
Qed.
Lemma read_tracks {A} (ok : A -> call_end) ctx c (op : M Pve (error + A)) :
  keeps (grew is_get) op -> c <> CallAllocateWorkloadID -> tracks accounted ok ctx c op.
Proof.
  intros Hop Hc. apply (quiet_tracks ok ctx c op is_get); [done|unfold is_get; intros q Hq; by rewrite Hq| |by apply not_an_allocation].
  intros q r t x Hq <-. by left.
Qed.
Lemma write_tracks {A} (ok : A -> call_end) ctx c id (op : M Pve (error + A)) :
  keeps (grew (about id)) op -> target_of c = Some id -> tracks accounted ok ctx c op.
Proof.
  intros Hop Hc. apply (quiet_tracks ok ctx c op (about id)); [done| | |apply not_an_allocation; by intros ->].
  - unfold about, is_get. intros q [Hq|[Hq _]]; by rewrite Hq.
  - intros q r t x [Hq|[_ Hw]] <-; [by left|]. right; right. exists id, ctx, c, r. split_and!; [done| |done].
    apply elem_of_app. right. by apply list_elem_of_singleton.
Qed.

(** *** A deletion *)

Lemma deletion_requests node kind id deleted l :
  deletes_once node kind id deleted l -> Forall (fun x => is_get (ex_request x) \/ writes id (ex_request x)) l.
Proof.
  assert (forall a, Forall (stopping id) a -> Forall (fun x => is_get (ex_request x) \/ writes id (ex_request x)) a) as Hst.
  { intros a Ha. eapply Forall_impl; [exact Ha|]. intros x [?|(n & k & ->)]; [by left|right; constructor]. }
  destruct deleted; [|by apply Hst]. intros (a & d & b & -> & Ha & [Hm Hp] & Hb). apply Forall_app. split; [by apply Hst|].
  constructor.
  - right. destruct (ex_request d) as [m p q]. cbn in Hm, Hp. subst. constructor.
  - eapply Forall_impl; [exact Hb|]. by left.
Qed.
Lemma owns_snoc l d :
  owns_deletions l -> (exists node kind id x, delete_request node kind id (ex_request d) /\ x ∈ l /\ owned node kind id x) ->
  owns_deletions (l ++ [d]).
Proof.
  intros Hl Hd pre d' post E Hm. destruct post as [|y post] using rev_ind.
  - by apply app_inj_tail in E as [<- <-].
  - rewrite app_comm_cons, app_assoc in E. apply app_inj_tail in E as [E _]. by eapply Hl.
Qed.
Lemma deletion_owned node kind id deleted x rest l :
  owns_deletions l -> x ∈ l -> owned node kind id x -> deletes_once node kind id deleted rest -> owns_deletions (l ++ rest).
Proof.
  intros Hl Hx Ho.
  assert (forall l a, owns_deletions l -> Forall (stopping id) a -> owns_deletions (l ++ a)) as Hst.
  { intros l' a Hl' Ha. apply owns_app; [done|]. eapply Forall_impl; [exact Ha|]. unfold is_get. intros y [E|(n & k & E)]; by rewrite E. }
  destruct deleted; [|by apply Hst]. intros (a & d & b & -> & Ha & Hd & Hb).
  replace (l ++ a ++ d :: b) with (((l ++ a) ++ [d]) ++ b) by by rewrite <- !app_assoc.
  apply Hst; [apply owns_snoc; [by apply Hst|]|].
  - exists node, kind, id, x. split_and!; [done| |done]. apply elem_of_app. by left.
  - eapply Forall_impl; [exact Hb|]. by left.
Qed.
Lemma delete_tracks ctx id : tracks accounted (fun _ => EndOk) ctx (CallDelete id) (Delete cfg id).
Proof.
  intros t w [Hasked Howned Hres]. destruct (Delete_runs cfg id w) as (new & o & w' & E & Hl & Hrun). rewrite E. cbn [fst snd].
  assert (forall x, is_get (ex_request x) \/ writes id (ex_request x) -> asked_for (t ++ [OCall ctx (CallDelete id) (call_end_of (fun _ => EndOk) o)]) x) as Hask.
  { intros x [Hg|Hw]; [by left|]. right; right. exists id, ctx, (CallDelete id), (call_end_of (fun _ => EndOk) o). split_and!; [done| |done].
    apply elem_of_app. right. by apply list_elem_of_singleton. }
  assert (Forall (fun x => is_get (ex_request x) \/ writes id (ex_request x)) new /\ owns_deletions (pv_log w ++ new)) as [Hnew Hown].
  { assert (forall l, Forall reading l -> Forall (fun x => is_get (ex_request x) \/ writes id (ex_request x)) l /\ owns_deletions (pv_log w ++ l)) as Hr.
    { intros l Hr. split; [eapply Forall_impl; [exact Hr|]; by left|]. apply owns_app; [done|].
      eapply Forall_impl; [exact Hr|]. unfold is_get. intros x Hx. by rewrite Hx. }
    destruct Hrun as [[Hget _]|(pre & x & rest & node & kind & deleted & -> & _ & Hpre & Ho & Hd & _)]; [by apply Hr|].
    assert (Forall reading (pre ++ [x])) as Hread by (apply Forall_app; split; [done|]; apply Forall_singleton; destruct Ho as [-> _]; done).
    replace (pre ++ x :: rest) with ((pre ++ [x]) ++ rest) by by rewrite <- app_assoc. destruct (Hr _ Hread) as [H1 H2]. split.
    - apply Forall_app. split; [done|]. by eapply deletion_requests.
    - rewrite app_assoc. eapply deletion_owned; [done| |done..]. rewrite app_assoc. apply elem_of_app. right. by apply list_elem_of_singleton. }
  split; rewrite ?Hl; [|done|].
  - apply Forall_app. split; [eapply Forall_impl; [exact Hasked|]; intros x; apply asked_for_mono|].
    eapply Forall_impl; [exact Hnew|]. exact Hask.
  - pose proof (not_an_allocation (fun _ => EndOk) ctx (CallDelete id) (Delete cfg id) ltac:(done) t w Hres) as Hr. by rewrite E in Hr.
Qed.

(** ** Every call *)

Context (Hmin : - 2 ^ 63 <= pc_TempIDMin cfg) (Hmax : pc_TempIDMax cfg < 2 ^ 63).

Lemma allocate_tracks ctx : tracks accounted EndID ctx CallAllocateWorkloadID (AllocateWorkloadID cfg).
Proof.
  apply (quiet_tracks _ _ _ _ is_get).
  - by apply AllocateWorkloadID_grew.
  - unfold is_get. intros q Hq. by rewrite Hq.
  - intros q r t x Hq <-. by left.
  - intros t w Hres ctx' id Hin. apply elem_of_app in Hin as [Hin|Hin]; [by eapply Hres|]. apply list_elem_of_singleton in Hin.
    destruct (Allocate_runs cfg w Hmin Hmax) as (l & r & w' & E & _ & _ & _ & Hr). rewrite E in Hin. cbn in Hin.
    destruct r as [e|id']; cbn in Hin; [congruence|]. injection Hin as _ ->. by apply Hr.
Qed.

Lemma frame_tracks t (w w' : Pve) : pv_log w' = pv_log w -> accounted t w -> accounted t w'.
Proof. intros E []. split; by rewrite ?E. Qed.
#[export] Instance proxmox_tracked : Tracked (W := Pve) accounted.
Proof.
  split.
  - intros t w e [Ha Ho Hr]. split; [|done|].
    + eapply Forall_impl; [exact Ha|]. intros x. apply asked_for_mono.
    + intros ctx id Hin. apply elem_of_app in Hin as [Hin|Hin]; [by eapply Hr|]. by apply list_elem_of_singleton in Hin.
  - done.
  - intros t w ctx d. by apply frame_tracks.
  - intros ctx id. apply read_tracks; [by apply GetWorkload_grew|done].
  - intros ctx id. apply read_tracks; [by apply GetStatus_grew|done].
  - intros ctx. apply allocate_tracks.
  - intros ctx b o. apply (write_tracks _ _ _ (ro_TargetWorkloadID o)); [apply Restore_grew|done].
  - intros ctx j. apply read_tracks; [by apply WaitForJob_grew|done].
  - intros ctx id. apply (write_tracks _ _ _ id); [apply lifecycle_grew|done].
  - intros ctx id. apply (write_tracks _ _ _ id); [apply lifecycle_grew|done].
  - intros ctx id. apply delete_tracks.
  - intros f ctx n c [= <-]. apply read_tracks; [by apply ValidateIsolation_grew|done].
  - intros f ctx n [= <-]. apply read_tracks; [by apply NodeCapacity_grew|done].
  - intros f ctx o [= <-]. apply (write_tracks _ _ _ (ro_TargetWorkloadID o)); [apply FinalizeRestore_grew|done].
  - intros ctx id. apply read_tracks; [by apply ListBackups_grew|done].
  - intros ctx id. apply read_tracks; [by apply GetLatestBackup_grew|done].
  - intros ctx tg cfgs t w [Ha Ho Hr] r. destruct (checks_stay_inside ctx tg cfgs w) as (new & E & Hnew).
    change (checks_RunAll ctx tg cfgs w) with (de_checks ctx tg cfgs w). split; rewrite ?E.
    + apply Forall_app. split; [eapply Forall_impl; [exact Ha|]; intros x; apply asked_for_mono|].
      eapply Forall_impl; [exact Hnew|]. intros x [?|?]; [by left|by right; left].
    + apply owns_app; [done|]. eapply Forall_impl; [exact Hnew|]. unfold is_get. intros x [Hx|(n & i & f & Hx)]; by rewrite Hx.
    + intros ctx' id Hin. apply elem_of_app in Hin as [Hin|Hin]; [by eapply Hr|]. by apply list_elem_of_singleton in Hin.
Qed.

(** C11: a drill on a Proxmox cluster, from its first request to its last, whatever
    the cluster answers and however the drill ends: each request reads, executes a
    command in a guest, or is about a workload whose identifier was allocated for
    this drill in the reserved range; and each deletion comes after the
    configuration of the workload it deletes was read and carried the mark of
    ownership. *)
Theorem drill_stays_in_range p opts w :
  pv_log w = [] ->
  let s := (Run p opts w).2 in
  owns_deletions (pv_log (es_world s)) /\
  forall x, x ∈ pv_log (es_world s) ->
    is_get (ex_request x) \/ guest_exec (ex_request x) \/
    exists id, writes id (ex_request x) /\ allocated id (es_trace s) /\ reserved cfg id = true.
Proof.
  intros Hw s. assert (accounted (es_trace s) (es_world s)) as [Ha Ho Hr].
  { apply (run_tracked accounted p opts w). split; rewrite ?Hw; [by apply Forall_nil|by intros [|? ?]|].
    intros ctx id Hin. by apply not_elem_of_nil in Hin. }
  split; [done|]. intros x Hx. rewrite Forall_forall in Ha. destruct (Ha x Hx) as [?|[?|(id & ctx & c & r & Hwr & Hin & Hc)]]; [by left|by right; left|].
  right; right. exists id. split; [done|]. apply list_elem_of_split in Hin as (pre & post & E).
  destruct (mutation_allocated p opts w pre ctx c r post id E Hc) as [Hal _]. unfold allocated in *. split; [|by eapply Hr; rewrite E; apply elem_of_app; left].
  fold s in E. rewrite E. apply elem_of_app. by left.
Qed.
End Drill.

(** ** A drill that succeeds *)

(** A cluster that answers by the format of the path. *)
Module Cluster.
Definition vm (id : Z) : any := AnyMap [("vmid", AnyFloat (float_of_Z id)); ("type", AnyString "qemu"); ("node", AnyString "pve1");
  ("name", AnyString "db"); ("status", AnyString "running")].
Definition description : string := renderMetadata (workloadMetadata "run-1" "101" 0).
Definition answers : list (string * any) := [
  ("/cluster/resources", AnyList [vm 101; vm 9001]);
  ("/cluster/nextid", AnyString "9001");
  ("/nodes/%s/storage", AnyList [AnyMap [("storage", AnyString "pbs")]]);
  ("/nodes/%s/storage/%s/content", AnyList [AnyMap [("volid", AnyString "pbs:1"); ("ctime", AnyFloat (float_of_Z 7))]]);
  ("/nodes/%s/network", AnyList [AnyMap [("iface", AnyString "vmbr9"); ("type", AnyString "bridge")]]);
  ("/nodes/%s/vzdump/extractconfig", AnyString "net0: virtio,bridge=vmbr0");
  ("/nodes/%s/qemu", AnyString "UPID:restore");
  ("/nodes/%s/tasks/%s/status", AnyMap [("status", AnyString "stopped"); ("exitstatus", AnyString "OK")]);
  ("/nodes/%s/qemu/%s/config", AnyMap [("net0", AnyString "old"); ("net1", AnyString "old")]);
  ("/nodes/%s/%s/%s/status/start", AnyString "UPID:start");
  ("/nodes/%s/%s/%s/status/stop", AnyString "UPID:stop");
  ("/nodes/%s/%s/%s/status/current", AnyMap [("status", AnyString "running")]);
  ("/nodes/%s/qemu/%s/agent/network-get-interfaces", AnyMap []);
  ("/nodes/%s/%s/%s/config", AnyMap [("description", AnyString description)]);
  ("/nodes/%s/%s/%s", AnyString "UPID:delete")].
Definition format_of (t : text) : string := match t with Lit s => s | Sprintf fmt _ => fmt end.
Definition answer (q : PveRequest) : pve_reply :=
  match List.find (fun x => bool_decide (x.1 = format_of (pq_path q))) answers with
  | Some x => Replied 200 "" (inr (Some x.2))
  | None => Replied 500 "no such path" (inr None)
  end.
#[export] Instance cluster : PveEnv := {|
  pve_answer _ q := answer q;
  pve_ctx _ := None;
  pve_done _ := None;
  pve_clock n := Z.of_nat n;
  task_polls := 3;
  json_error _ _ := ENew (Lit "json");
  json_agentInterfaces _ := inr [["10.0.0.7"]];
  json_agentOSInfo _ := inl (ENew (Lit "json"));
  json_text _ := None;
  ip_unusable _ := false;
|}.
#[export] Instance drill : DrillEnv := {|
  de_checks _ _ cfgs := mret (map (sim_result (mkSim 7 None CheckPass 0 false)) cfgs);
  de_sleep _ _ _ := None;
  de_uuid _ := "run-1";
|}.
Definition config : PveConfig := mkPveConfig "pve" "https://pve" "t" "s" false "" 30 "" 9000 9999 "restorelab".
Definition before : Pve := mkPve [] 0.
#[export] Existing Instance proxmox_provider.
Definition result := Run (EngineEnv0 := proxmox_provider config) sim_plan sim_opts before.
Definition writes_sent : list (string * string) :=
  map (fun x => (method_text (pq_method (ex_request x)), format_of (pq_path (ex_request x))))
    (List.filter (fun x => negb (bool_decide (pq_method (ex_request x) = MethodGet))) (pv_log (es_world result.2))).
(** The workload is created, hardened, started, stopped (by the engine, and again by
    a deletion that still finds it running) and deleted. *)
Example a_drill : result.1 = Ret None /\ run_State (es_run result.2) = RunSuccess /\ writes_sent =
  [("POST", "/nodes/%s/qemu"); ("POST", "/nodes/%s/qemu/%s/config"); ("POST", "/nodes/%s/%s/%s/status/start");
   ("POST", "/nodes/%s/%s/%s/status/stop"); ("POST", "/nodes/%s/%s/%s/status/stop"); ("DELETE", "/nodes/%s/%s/%s")].
Proof. vm_compute. split_and!; reflexivity. Qed.

Lemma checks_read ctx tg cfgs : keeps (grew (fun q => is_get q \/ guest_exec q)) (de_checks ctx tg cfgs).
Proof. intros s. reflexivity. Qed.
Lemma drill_stays_in_range_witness :
  owns_deletions (pv_log (es_world result.2)) /\
  forall x, x ∈ pv_log (es_world result.2) ->
    is_get (ex_request x) \/ guest_exec (ex_request x) \/
    exists id, writes id (ex_request x) /\ allocated id (es_trace result.2) /\ reserved config id = true.
Proof.
  apply (drill_stays_in_range config checks_read ltac:(discriminate) ltac:(reflexivity) sim_plan sim_opts before).
  reflexivity.
Defined.

Lemma AllocateWorkloadID_reserved_witness :
  exists l r s', AllocateWorkloadID config before = (Ret r, s') /\ pv_log s' = pv_log before ++ l /\ Forall reading l /\
    (length l <= 1 + range_size config)%nat /\ (forall id, r = inr id -> reserved config id = true).
Proof. apply (AllocateWorkloadID_reserved config before); [discriminate|reflexivity]. Defined.

Lemma stamp_recognised_witness :
  isManaged "pve1" "qemu" "9001" before = (Ret (inr true), after (exchange_at before MethodGet (workload_path "/config" "pve1" "qemu" "9001") ∅) before).
Proof.
  apply (stamp_recognised "pve1" "qemu" "9001" "run-1" "101" 0 [("description", AnyString description)] before); reflexivity.
Defined.
End Cluster.
