(* ===== verification/ProxmoxAdmin.v ===== *)
(** * Provisioning a Proxmox cluster

    Models internal/providers/proxmox/bootstrap.go and network_admin.go: the service
    account with its roles, grants and token, and the isolated bridge. The requests
    are those of [Pve]; a step that was recorded stays recorded when a later one
    fails. *)

From Stdlib Require Import ZArith Lia String Ascii List.
From stdpp Require Import sorting.
From S2P Require Import Prelude GoTime GoFloat Errors Core GoString GoStrconv Pve Proxmox.

(** ** Data *)

(** [BootstrapStep]. *)
Record BootstrapStep := mkBootstrapStep { bst_Description : text; bst_Status : string; bst_Detail : text }.

(** [AdminClient] with the log of its requests, and the steps recorded so far. *)
Record Admin := mkAdmin {
  ad_pve : Pve;
  ad_username : string;
  ad_password : string;
  ad_ticket : string;
  ad_csrfToken : string;
  ad_steps : list BootstrapStep;
}.
Definition set_ad_pve (w : Pve) (s : Admin) : Admin :=
  mkAdmin w (ad_username s) (ad_password s) (ad_ticket s) (ad_csrfToken s) (ad_steps s).
Definition set_ad_session (ticket csrf : string) (s : Admin) : Admin :=
  mkAdmin (ad_pve s) (ad_username s) (ad_password s) ticket csrf (ad_steps s).
Definition set_ad_steps (l : list BootstrapStep) (s : Admin) : Admin :=
  mkAdmin (ad_pve s) (ad_username s) (ad_password s) (ad_ticket s) (ad_csrfToken s) l.

Record BootstrapOptions := mkBootstrapOptions {
  bo_UserID : string;
  bo_Comment : string;
  bo_TokenName : string;
  bo_RoleName : string;
  bo_Pool : string;
  bo_ReadOnly : bool;
  bo_Node : string;
  bo_Storages : list string;
  bo_Bridge : string;
  bo_SDNZone : string;
  bo_ReuseExistingToken : bool;
  bo_DryRun : bool;
}.

Record BridgeOptions := mkBridgeOptions {
  br_Node : string;
  br_Bridge : string;
  br_Comment : string;
  br_Apply : bool;
  br_DryRun : bool;
}.

(** ** Privileges *)

Definition ReadOnlyPrivileges : list string :=
  ["VM.Audit"; "VM.Backup"; "VM.GuestAgent.Audit"; "Datastore.Audit"; "Datastore.AllocateSpace"; "Sys.Audit"; "VM.Monitor"].
Definition DrillPrivileges : list string := ReadOnlyPrivileges ++
  ["VM.Allocate"; "VM.Config.CPU"; "VM.Config.Disk"; "VM.Config.HWType"; "VM.Config.Memory"; "VM.Config.Network";
   "VM.Config.Options"; "VM.GuestAgent.Unrestricted"; "VM.PowerMgmt"; "Datastore.AllocateSpace"].
Definition storagePrivileges : list string := ["Datastore.Audit"; "Datastore.AllocateSpace"].
Definition sdnPrivileges : list string := ["SDN.Use"].
Definition readOnlyRoleName : string := "RestoreLabRead".
Definition defaultSDNZone : string := "localnetwork".

(** [optionalPrivileges]. *)
Definition optionalPrivileges (p : string) : option string :=
  if bool_decide (p = "VM.Monitor") then Some "runtime state reads, removed in Proxmox VE 9"
  else if bool_decide (p = "VM.GuestAgent.Audit") then Some "guest agent queries, used to discover the restored guest's address and OS"
  else if bool_decide (p = "VM.GuestAgent.Unrestricted") then Some "in-guest command checks"
  else if bool_decide (p = "SDN.Use") then Some "attaching a workload to the isolated bridge (Proxmox VE 9 and newer)"
  else None.

Definition privsKey (privs : list string) : string := Join "," (sort_strings privs).
Definition splitPrivs (s : string) : list string := if nonempty s then Split "," s else [].
Definition supportedPrivileges (roles : gmap string string) : gset string :=
  list_to_set (concat (map (fun x => splitPrivs x.2) (map_to_list roles))).

(** [filterPrivileges]: what the cluster knows, and the rest; everything is kept
    when discovery found nothing. *)
Definition filterPrivileges (want : list string) (supported : gset string) : list string * list string :=
  if bool_decide (supported = ∅) then (want, []) else
  (List.filter (fun p => bool_decide (p ∈ supported)) want, List.filter (fun p => negb (bool_decide (p ∈ supported))) want).

(** [describeDropped]. *)
Definition describeDropped (dropped : list string) : error + string :=
  match dropped with
  | [] => inr ""
  | _ =>
    match List.filter (fun p => bool_decide (optionalPrivileges p = None)) dropped with
    | [] => inr ("not supported on this Proxmox version, skipped: " +:+
                 Join "; " (omap (fun p => (fun why => p +:+ " - " +:+ why) <$> optionalPrivileges p) dropped))
    | required =>
      inl (ENew (Sprintf "proxmox: this cluster does not know the privilege(s) %s, which RestoreLab cannot work without; please report your Proxmox VE version"
                   [AStr (Join ", " required)]))
    end
  end.

Section Admin.
Context `{PveEnv}.
Abbreviation AM := (M Admin).

(** ** The session *)

(** [doRequest]: the client differs from the provider's by its headers only. *)
Definition doRequest (method : http_method) (path : text) (form : Values) : AM (error + option any) := fun s =>
  let '(r, w) := request method path form (ad_pve s) in (r, set_ad_pve w s).

(** [Login]: the two fields are read from an object, absent ones are empty. *)
Definition text_field (e : Object) (k : string) : error + string :=
  match field e k with AnyNil => inr "" | AnyString t => inr t | v => inl (json_error "string" (Some v)) end.
Definition Login : AM (option error) :=
  me ← get;
  raw ← doRequest MethodPost (Lit "/access/ticket") (<["username" := [ad_username me]]> {["password" := [ad_password me]]});
  match raw with
  | inl err =>
    mret (Some (if Is err ErrUnauthorized then
      EWrap (Sprintf ("proxmox: login failed for user %q: %w (the username must include its realm, e.g. " +:+ quoted "root@pam" +:+
               " rather than " +:+ quoted "root" +:+ ")")
               [AStr (ad_username me); AText (Error err)]) err
      else err))
  | inr data =>
    let fields := match as_object data with
      | inl e => inl e
      | inr e => match text_field e "ticket" with
        | inl e => inl e
        | inr ticket => match text_field e "CSRFPreventionToken" with inl e => inl e | inr csrf => inr (ticket, csrf) end
        end
      end in
    match fields with
    | inl err => mret (Some (EWrap (Sprintf "proxmox: decode ticket response: %w" [AText (Error err)]) err))
    | inr (ticket, csrf) =>
      if nonempty ticket then _ ← modify (set_ad_session ticket csrf); mret None
      else mret (Some (ENew (Lit "proxmox: ticket response did not include a ticket")))
    end
  end.
Definition loggedIn : AM bool := gets (fun s => nonempty (ad_ticket s)).

(** [Close]. *)
Definition Close : AM unit :=
  modify (fun s => mkAdmin (ad_pve s) (ad_username s) "" "" "" (ad_steps s)).

(** ** Steps *)

(** A step that fails ends the provisioning. *)
Definition step {A B} (m : AM (error + A)) (k : A -> AM (error + B)) : AM (error + B) :=
  r ← m;
  match r with inl e => mret (inl e) | inr a => k a end.
Definition record (s : BootstrapStep) : AM unit := modify (fun a => set_ad_steps (ad_steps a ++ [s]) a).
Definition recorded (m : AM (error + BootstrapStep)) : AM (error + unit) :=
  step m (fun s => _ ← record s; mret (inr tt)).

(** A request whose failure is reported under the message of its caller. *)
Definition told (m : AM (error + option any)) (fmt : string) (args : list arg) : AM (error + option any) :=
  r ← m;
  mret (match r with inl e => inl (EWrap (Sprintf fmt (args ++ [AText (Error e)])) e) | inr data => inr data end).

Definition decodeRows (data : option any) : error + list Object :=
  match data with None => inr [] | data => as_objects data end.
Definition rows_at (path : text) (what : string) : AM (error + list Object) :=
  raw ← doRequest MethodGet path ∅;
  mret (match raw with
        | inl e => inl e
        | inr data =>
          match decodeRows data with
          | inl e => inl (EWrap (Sprintf ("proxmox: decode " +:+ what +:+ ": %w") [AText (Error e)]) e)
          | inr rows => inr rows
          end
        end).

(** [listRoles], [listPools], [listUsers], [listTokenIDs]. *)
Definition listRoles : AM (error + gmap string string) :=
  rows ← rows_at (Lit "/access/roles") "roles";
  mret (on_ok (fun rows => fold_left (fun out row => <[fieldString row "roleid" := fieldString row "privs"]> out) rows ∅) rows).
Definition names_at (path : text) (what key : string) : AM (error + list string) :=
  rows ← rows_at path what;
  mret (on_ok (map (fun row => fieldString row key)) rows).
Definition listPools : AM (error + list string) := names_at (Lit "/pools") "pools" "poolid".
Definition listUsers : AM (error + list string) := names_at (Lit "/access/users") "users" "userid".
Definition listTokenIDs (userID : string) : AM (error + list string) :=
  names_at (Sprintf "/access/users/%s/token" [AStr userID]) "tokens" "tokenid".

(** ** Idempotent steps *)

Definition would_create (desc detail : text) : BootstrapStep := mkBootstrapStep desc "would create" detail.
Definition created (desc detail : text) : BootstrapStep := mkBootstrapStep desc "created" detail.
Definition exists_already (desc detail : text) : BootstrapStep := mkBootstrapStep desc "already exists" detail.
Definition no_detail : text := Lit "".

(** A write, unless the run is dry. *)
Definition write_step (dryRun : bool) (desc detail : text) (m : AM (error + option any)) (status : string) : AM (error + BootstrapStep) :=
  if dryRun then mret (inr (would_create desc detail)) else
  step m (fun _ => mret (inr (mkBootstrapStep desc status detail))).

(** [ensureRole]. *)
Definition role_form (roleID desired : string) : Values := <["roleid" := [roleID]]> {["privs" := [desired]]}.
Definition ensureRole (existing : gmap string string) (supported : gset string) (roleID : string) (privs : list string) (dryRun : bool) :
    AM (error + BootstrapStep) :=
  let desc := Sprintf "create role %s" [AStr roleID] in
  let '(kept, dropped) := filterPrivileges privs supported in
  match describeDropped dropped with
  | inl err => mret (inl err)
  | inr note =>
    let desired := privsKey kept in
    let detail (base : string) := Lit (if nonempty note then base +:+ " - " +:+ note else base) in
    match existing !! roleID with
    | Some cur =>
      if bool_decide (privsKey (splitPrivs cur) = desired) then mret (inr (exists_already desc (detail ("privileges: " +:+ desired)))) else
      if dryRun then mret (inr (would_create desc (detail ("would update privileges to: " +:+ desired)))) else
      write_step false desc (detail ("privileges: " +:+ desired))
        (told (doRequest MethodPut (Sprintf "/access/roles/%s" [AStr roleID]) (<["privs" := [desired]]> {["append" := ["0"]]}))
           "proxmox: update role %s: %w" [AStr roleID]) "updated"
    | None =>
      write_step dryRun desc (detail ("privileges: " +:+ desired))
        (told (doRequest MethodPost (Lit "/access/roles") (role_form roleID desired)) "proxmox: create role %s: %w" [AStr roleID]) "created"
    end
  end.

(** [ensurePool], [ensureUser], [grantACL]. *)
Definition among (x : string) (l : list string) : bool := bool_decide (x ∈ l).
Definition ensurePool (existing : list string) (poolID comment : string) (dryRun : bool) : AM (error + BootstrapStep) :=
  let desc := Sprintf "create pool %s" [AStr poolID] in
  if among poolID existing then mret (inr (exists_already desc no_detail)) else
  write_step dryRun desc no_detail
    (told (doRequest MethodPost (Lit "/pools") (<["poolid" := [poolID]]> {["comment" := [comment]]})) "proxmox: create pool %s: %w" [AStr poolID]) "created".
Definition ensureUser (existing : list string) (userID comment : string) (dryRun : bool) : AM (error + BootstrapStep) :=
  let desc := Sprintf "create user %s" [AStr userID] in
  if among userID existing then mret (inr (exists_already desc no_detail)) else
  write_step dryRun desc no_detail
    (told (doRequest MethodPost (Lit "/access/users") (<["userid" := [userID]]> (<["comment" := [comment]]> {["enable" := ["1"]]})))
       "proxmox: create user %s: %w" [AStr userID]) "created".
Definition grant_form (path userID roleID : string) : Values :=
  <["path" := [path]]> (<["users" := [userID]]> (<["roles" := [roleID]]> {["propagate" := ["1"]]})).
Definition grantACL (path userID roleID : string) (dryRun : bool) : AM (error + BootstrapStep) :=
  write_step dryRun (Sprintf "grant %s on %s" [AStr roleID; AStr path]) no_detail
    (told (doRequest MethodPut (Lit "/access/acl") (grant_form path userID roleID)) "proxmox: grant %s on %s: %w" [AStr roleID; AStr path]) "created".

(** [ensureToken]: the step, also with an error, then the token and its secret. *)
Definition token_exists (userID tokenName : string) : error :=
  ENew (Sprintf "proxmox: token %q already exists for user %s and its secret cannot be recovered; choose a new TokenName or delete the token first"
          [AStr tokenName; AStr userID]).
Definition token_skipped (userID tokenName : string) : text :=
  Sprintf "a token named %q already exists on %s; Proxmox reveals a token secret only once, at creation time, so RestoreLab cannot recover it and will not delete the existing token automatically - choose a different TokenName or delete the existing token yourself first"
    [AStr tokenName; AStr userID].
Definition token_fields (e : Object) : error + (string * string) :=
  match text_field e "value" with
  | inl e => inl e
  | inr value => match text_field e "full-tokenid" with inl e => inl e | inr id => inr (value, id) end
  end.
Definition ensureToken (userID tokenName : string) (reuse dryRun : bool) : AM (error + (string * string)) :=
  let fullID := userID +:+ "!" +:+ tokenName in
  let desc := Sprintf "create token %s" [AStr fullID] in
  existing ← listTokenIDs userID;
  match existing with
  | inl e => mret (inl (EWrap (Sprintf "proxmox: list tokens for %s: %w" [AStr userID; AText (Error e)]) e))
  | inr existing =>
    if among tokenName existing && reuse then
      _ ← record (exists_already desc (Lit "kept, along with the secret you already hold")); mret (inr (fullID, ""))
    else if among tokenName existing then
      _ ← record (mkBootstrapStep desc "skipped" (token_skipped userID tokenName)); mret (inl (token_exists userID tokenName))
    else if dryRun then _ ← record (would_create desc no_detail); mret (inr (fullID, ""))
    else
      step (told (doRequest MethodPost (Sprintf "/access/users/%s/token/%s" [AStr userID; AStr tokenName]) {["privsep" := ["0"]]})
              "proxmox: create token %s: %w" [AStr fullID]) (fun data =>
      match (match as_object data with inl e => inl e | inr e => token_fields e end) with
      | inl e => mret (inl (EWrap (Sprintf "proxmox: decode token response: %w" [AText (Error e)]) e))
      | inr (value, id) =>
        if negb (nonempty value) || negb (nonempty id) then
          mret (inl (ENew (Lit "proxmox: token creation response missing value or full-tokenid")))
        else _ ← record (created desc no_detail); mret (inr (id, value))
      end)
  end.

(** ** [Bootstrap] *)

Definition validate_bootstrap (o : BootstrapOptions) : option error :=
  if negb (nonempty (bo_UserID o)) then Some (ENew (Lit "proxmox: BootstrapOptions.UserID is required"))
  else if negb (nonempty (bo_TokenName o)) then Some (ENew (Lit "proxmox: BootstrapOptions.TokenName is required"))
  else if negb (nonempty (bo_RoleName o)) then Some (ENew (Lit "proxmox: BootstrapOptions.RoleName is required"))
  else None.

(** The grants of a list of paths, in order. *)
Fixpoint grant_all (paths : list string) (userID roleID : string) (dryRun : bool) : AM (error + unit) :=
  match paths with
  | [] => mret (inr tt)
  | path :: paths => step (recorded (grantACL path userID roleID dryRun)) (fun _ => grant_all paths userID roleID dryRun)
  end.

(** The role behind the cluster-wide grants; the paths of each kind of grant. *)
Definition read_role (o : BootstrapOptions) : string := if bo_ReadOnly o then bo_RoleName o else readOnlyRoleName.
Definition read_paths (o : BootstrapOptions) : list string :=
  ["/vms"; if nonempty (bo_Node o) then "/nodes/" +:+ bo_Node o else "/nodes"; "/storage"].
Definition drill_path (o : BootstrapOptions) : string := if nonempty (bo_Pool o) then "/pool/" +:+ bo_Pool o else "/vms".
Definition storage_role (o : BootstrapOptions) : string := bo_RoleName o +:+ "Storage".
Definition network_role (o : BootstrapOptions) : string := bo_RoleName o +:+ "Network".
Definition bridge_path (o : BootstrapOptions) : string :=
  "/sdn/zones/" +:+ (if nonempty (bo_SDNZone o) then bo_SDNZone o else defaultSDNZone) +:+ "/" +:+ bo_Bridge o.
Definition whole_cluster_warning : string :=
  "no resource pool configured: this token's role is granted on /vms directly, so it can create, reconfigure and destroy ANY VM or container on the cluster, not only RestoreLab's own temporary drill workloads. Set BootstrapOptions.Pool to scope this token down to a resource pool.".

(** The grant of the drill role; without a pool the recorded step warns. *)
Definition grant_drill (o : BootstrapOptions) : AM (error + unit) :=
  step (grantACL (drill_path o) (bo_UserID o) (bo_RoleName o) (bo_DryRun o)) (fun s =>
  _ ← record (if nonempty (bo_Pool o) then s else mkBootstrapStep (bst_Description s) (bst_Status s) (Lit whole_cluster_warning));
  mret (inr tt)).
Definition create_pool (o : BootstrapOptions) : AM (error + unit) :=
  if nonempty (bo_Pool o) && negb (bo_ReadOnly o) then
    pools ← listPools;
    match pools with
    | inl e => mret (inl (EWrap (Sprintf "proxmox: list pools: %w" [AText (Error e)]) e))
    | inr pools => recorded (ensurePool pools (bo_Pool o) (bo_Comment o) (bo_DryRun o))
    end
  else mret (inr tt).
Definition create_user (o : BootstrapOptions) : AM (error + unit) :=
  users ← listUsers;
  match users with
  | inl e => mret (inl (EWrap (Sprintf "proxmox: list users: %w" [AText (Error e)]) e))
  | inr users => recorded (ensureUser users (bo_UserID o) (bo_Comment o) (bo_DryRun o))
  end.

(** The roles known so far pass from one step to the next. *)
Definition roles_step (roles : gmap string string) (supported : gset string) (roleID : string) (privs : list string) (dryRun : bool) :
    AM (error + gmap string string) :=
  step (recorded (ensureRole roles supported roleID privs dryRun)) (fun _ => mret (inr (<[roleID := privsKey privs]> roles))).
Definition grant_storages (o : BootstrapOptions) (roles : gmap string string) (supported : gset string) : AM (error + gmap string string) :=
  match bo_Storages o with
  | [] => mret (inr roles)
  | storages =>
    step (roles_step roles supported (storage_role o) storagePrivileges (bo_DryRun o)) (fun roles =>
    step (grant_all (map (fun s => "/storage/" +:+ s) storages) (bo_UserID o) (storage_role o) (bo_DryRun o)) (fun _ =>
    mret (inr roles)))
  end.
Definition grant_bridge (o : BootstrapOptions) (roles : gmap string string) (supported : gset string) : AM (error + unit) :=
  if negb (bo_ReadOnly o) && nonempty (bo_Bridge o) then
    step (roles_step roles supported (network_role o) sdnPrivileges (bo_DryRun o)) (fun _ =>
    grant_all [bridge_path o] (bo_UserID o) (network_role o) (bo_DryRun o))
  else mret (inr tt).

Definition provision (o : BootstrapOptions) : AM (error + (string * string)) :=
  roles ← listRoles;
  match roles with
  | inl e => mret (inl (EWrap (Sprintf "proxmox: list roles: %w" [AText (Error e)]) e))
  | inr roles =>
    let supported := supportedPrivileges roles in
    step (roles_step roles supported (read_role o) ReadOnlyPrivileges (bo_DryRun o)) (fun roles =>
    step (if bo_ReadOnly o then mret (inr roles)
          else roles_step roles supported (bo_RoleName o) DrillPrivileges (bo_DryRun o)) (fun roles =>
    step (create_pool o) (fun _ =>
    step (create_user o) (fun _ =>
    step (grant_all (read_paths o) (bo_UserID o) (read_role o) (bo_DryRun o)) (fun _ =>
    step (if bo_ReadOnly o then mret (inr roles) else step (grant_drill o) (fun _ => grant_storages o roles supported)) (fun roles =>
    step (grant_bridge o roles supported) (fun _ =>
    ensureToken (bo_UserID o) (bo_TokenName o) (bo_ReuseExistingToken o) (bo_DryRun o))))))))
  end.
(** [Bootstrap]: the token and its secret; the steps are in the state. *)
Definition Bootstrap (o : BootstrapOptions) : AM (error + (string * string)) :=
  match validate_bootstrap o with
  | Some e => mret (inl e)
  | None =>
    ok ← loggedIn;
    if ok : bool then _ ← modify (set_ad_steps []); provision o
    else mret (inl (ENew (Lit "proxmox: Bootstrap requires a successful Login first")))
  end.

(** ** The isolated bridge (network_admin.go) *)

Definition maxBridgeNumber : Z := 4094.
(** [validateBridgeName]: vmbr and one to four digits, at most [maxBridgeNumber]. *)
Definition bridge_digits (name : string) : option string :=
  if HasPrefix name "vmbr" then
    let digits := TrimPrefix name "vmbr" in
    if nonempty digits && (String.length digits <=? 4)%nat && negb (existsb_char (fun c => negb (is_digit c)) digits)
    then Some digits else None
  else None.
Definition validateBridgeName (name : string) : option error :=
  let invalid := Some (ENew (Sprintf ("proxmox: bridge name %q is invalid: expected the form " +:+ quoted "vmbrN" +:+
    " with N between 0 and %d (e.g. " +:+ quoted "vmbr99" +:+ ")") [AStr name; AInt maxBridgeNumber])) in
  match bridge_digits name ≫= Atoi with
  | Some n => if maxBridgeNumber <? n then invalid else None
  | None => invalid
  end.
Definition validate_bridge_options (o : BridgeOptions) : option error :=
  if negb (nonempty (br_Node o)) then Some (ENew (Lit "proxmox: BridgeOptions.Node is required"))
  else if negb (nonempty (br_Bridge o)) then Some (ENew (Lit "proxmox: BridgeOptions.Bridge is required"))
  else validateBridgeName (br_Bridge o).

(** [networkInterface] and [findNetworkInterface]: the first row of that name. *)
Record networkInterface := mkNetworkInterface {
  ni_Type : string; ni_BridgePorts : string; ni_Address : string; ni_Gateway : string; ni_CIDR : string;
  ni_Address6 : string; ni_Gateway6 : string; ni_CIDR6 : string;
}.
Definition interface_of (row : Object) : networkInterface :=
  mkNetworkInterface (fieldString row "type") (fieldString row "bridge_ports") (fieldString row "address") (fieldString row "gateway")
    (fieldString row "cidr") (fieldString row "address6") (fieldString row "gateway6") (fieldString row "cidr6").
Definition network_path (node : string) : text := Sprintf "/nodes/%s/network" [AStr node].
Definition findNetworkInterface (node iface : string) : AM (error + option networkInterface) :=
  raw ← doRequest MethodGet (network_path node) ∅;
  mret (match raw with
        | inl e => inl e
        | inr data =>
          match decodeRows data with
          | inl e => inl (EWrap (Sprintf "decode network interfaces: %w" [AText (Error e)]) e)
          | inr rows => inr (interface_of <$> List.find (fun row => bool_decide (fieldString row "iface" = iface)) rows)
          end
        end).

(** [checkSafeToReuse]. *)
Definition checkSafeToReuse (name : string) (i : networkInterface) : option error :=
  if negb (bool_decide (ni_Type i = "bridge")) then
    Some (ENew (Sprintf "proxmox: interface %q already exists but is type %q, not a bridge; refusing to touch it" [AStr name; AStr (ni_Type i)]))
  else if nonempty (ni_BridgePorts i) && negb (bool_decide (ni_BridgePorts i = "none")) then
    Some (ENew (Sprintf "proxmox: bridge %q already exists with bridge_ports %q attached; refusing to turn it into an isolated bridge, since that would sever whatever is attached to it"
                  [AStr name; AStr (ni_BridgePorts i)]))
  else if nonempty (ni_Address i) || nonempty (ni_CIDR i) || nonempty (ni_Address6 i) || nonempty (ni_CIDR6 i) then
    Some (ENew (Sprintf "proxmox: bridge %q already exists with an address configured; refusing to touch it, since that means something already relies on it" [AStr name]))
  else if nonempty (ni_Gateway i) || nonempty (ni_Gateway6 i) then
    Some (ENew (Sprintf "proxmox: bridge %q already exists with a gateway configured; refusing to touch it, since that means something already relies on it" [AStr name]))
  else None.

Definition defaultBridgeComment : string := "RestoreLab isolated recovery network".
Definition bridge_form (iface comment : string) : Values :=
  <["iface" := [iface]]> (<["type" := ["bridge"]]> (<["autostart" := ["1"]]> (<["bridge_ports" := [""]]> {["comments" := [comment]]}))).
Definition createIsolatedBridge (node iface comment : string) : AM (error + option any) :=
  told (doRequest MethodPost (network_path node) (bridge_form iface comment)) "proxmox: create bridge %s on %s: %w" [AStr iface; AStr node].
Definition applyNetwork (node : string) : AM (error + option any) :=
  told (doRequest MethodPut (network_path node) ∅) "proxmox: apply network configuration on %s: %w" [AStr node].

(** [EnsureIsolatedBridge]: whether the configuration was applied, and whether it
    is left pending; the steps are in the state. *)
Definition pending_detail (dry : bool) (o : BridgeOptions) : text :=
  Sprintf (if dry
    then "%s would exist only in %s's pending network configuration; it would take effect on the next reboot or apply"
    else "%s was created but exists only in %s's pending network configuration; it needs an apply (EnsureIsolatedBridge with Apply: true) or a reboot to become active")
    [AStr (br_Bridge o); AStr (br_Node o)].
Definition create_desc (o : BridgeOptions) : text := Sprintf "create isolated bridge %s on %s" [AStr (br_Bridge o); AStr (br_Node o)].
Definition apply_desc (o : BridgeOptions) : text := Sprintf "apply pending network configuration on %s" [AStr (br_Node o)].
(** No interface has that name, and the run is not dry. *)
Definition make_bridge (o : BridgeOptions) : AM (error + (bool * bool)) :=
  step (createIsolatedBridge (br_Node o) (br_Bridge o) (if nonempty (br_Comment o) then br_Comment o else defaultBridgeComment)) (fun _ =>
  _ ← record (created (create_desc o) no_detail);
  if negb (br_Apply o) then
    _ ← record (mkBootstrapStep (apply_desc o) "skipped" (pending_detail false o)); mret (inr (false, true))
  else
    step (applyNetwork (br_Node o)) (fun _ =>
    _ ← record (mkBootstrapStep (apply_desc o) "applied" no_detail); mret (inr (true, false)))).
Definition provision_bridge (o : BridgeOptions) : AM (error + (bool * bool)) :=
  existing ← findNetworkInterface (br_Node o) (br_Bridge o);
  match existing with
  | inl e => mret (inl (EWrap (Sprintf "proxmox: list network interfaces on %s: %w" [AStr (br_Node o); AText (Error e)]) e))
  | inr (Some existing) =>
    match checkSafeToReuse (br_Bridge o) existing with
    | Some e => mret (inl e)
    | None =>
      _ ← record (exists_already (create_desc o)
            (Sprintf "%s is already an isolated bridge: no ports, no address or gateway configured" [AStr (br_Bridge o)]));
      mret (inr (false, false))
    end
  | inr None =>
    if br_DryRun o then
      _ ← record (would_create (create_desc o) no_detail);
      _ ← record (mkBootstrapStep (apply_desc o) "would apply" (if br_Apply o then no_detail else pending_detail true o));
      mret (inr (false, negb (br_Apply o)))
    else make_bridge o
  end.
Definition EnsureIsolatedBridge (o : BridgeOptions) : AM (error + (bool * bool)) :=
  match validate_bridge_options o with
  | Some e => mret (inl e)
  | None =>
    ok ← loggedIn;
    if ok : bool then _ ← modify (set_ad_steps []); provision_bridge o
    else mret (inl (ENew (Lit "proxmox: EnsureIsolatedBridge requires a successful Login first")))
  end.

(** [RevertPendingNetwork]. *)
Definition RevertPendingNetwork (node : string) : AM (error + unit) :=
  if negb (nonempty node) then mret (inl (ENew (Lit "proxmox: RevertPendingNetwork requires a node"))) else
  ok ← loggedIn;
  if negb ok then mret (inl (ENew (Lit "proxmox: RevertPendingNetwork requires a successful Login first"))) else
  step (told (doRequest MethodDelete (network_path node) ∅) "proxmox: revert pending network configuration on %s: %w" [AStr node])
    (fun _ => mret (inr tt)).
End Admin.
