(* ===== verification/ProxmoxAdminTheorems.v ===== *)
(** * What provisioning may do to a cluster

    The service account gets the roles and the grants of its options and no more; a
    dry run reads only; nothing that exists is deleted, and a bridge that exists is
    not touched. *)

From Stdlib Require Import ZArith Lia String Ascii List.
From stdpp Require Import sorting.
From S2P Require Import Prelude GoTime GoFloat Errors Core GoString GoStrconv Plan Engine Pve Proxmox ProxmoxTheorems ProxmoxAdmin.

Definition agrew (P : PveRequest -> Prop) (s s' : Admin) : Prop := grew P (ad_pve s) (ad_pve s').
#[export] Instance agrew_preorder P : PreOrder (agrew P).
Proof. split; [intros s|intros s1 s2 s3]; unfold agrew; [reflexivity|apply transitivity]. Qed.

(** ** The requests of a provisioning *)

(** The privileges that each role may carry, and who gets which role where. *)
Definition role_sets (o : BootstrapOptions) : list (string * list string) :=
  (read_role o, ReadOnlyPrivileges) ::
  (if bo_ReadOnly o then [] else
     [(bo_RoleName o, DrillPrivileges); (storage_role o, storagePrivileges); (network_role o, sdnPrivileges)]).
Definition grants (o : BootstrapOptions) : list (string * string) :=
  map (fun path => (path, read_role o)) (read_paths o) ++
  (if bo_ReadOnly o then [] else
     (drill_path o, bo_RoleName o) :: map (fun s => ("/storage/" +:+ s, storage_role o)) (bo_Storages o) ++ [(bridge_path o, network_role o)]).

Inductive role_write (role key : string) : PveRequest -> Prop :=
| role_created : role_write role key (mkPveRequest MethodPost (Lit "/access/roles") (role_form role key))
| role_updated : role_write role key
    (mkPveRequest MethodPut (Sprintf "/access/roles/%s" [AStr role]) (<["privs" := [key]]> {["append" := ["0"]]})).
Definition grant_write (userID path role : string) (q : PveRequest) : Prop :=
  q = mkPveRequest MethodPut (Lit "/access/acl") (grant_form path userID role).
Inductive provisions (o : BootstrapOptions) : PveRequest -> Prop :=
| provisions_read q : is_get q -> provisions o q
| provisions_role role privs kept q : (role, privs) ∈ role_sets o -> Forall (fun p => p ∈ privs) kept ->
    role_write role (privsKey kept) q -> provisions o q
| provisions_pool form : provisions o (mkPveRequest MethodPost (Lit "/pools") form)
| provisions_user form : provisions o (mkPveRequest MethodPost (Lit "/access/users") form)
| provisions_grant path role q : (path, role) ∈ grants o -> grant_write (bo_UserID o) path role q -> provisions o q
| provisions_token :
    provisions o (mkPveRequest MethodPost (Sprintf "/access/users/%s/token/%s" [AStr (bo_UserID o); AStr (bo_TokenName o)]) {["privsep" := ["0"]]}).

Section Requests.
Context `{PveEnv}.
Abbreviation AM := (M Admin).

Section Frame.
Context (P : PveRequest -> Prop).
Lemma doRequest_agrew method path form : P (mkPveRequest method path form) -> keeps (agrew P) (doRequest method path form).
Proof. intros HP s. by apply extends_snoc. Qed.
Lemma told_agrew m fmt args : keeps (agrew P) m -> keeps (agrew P) (told m fmt args).
Proof. intros Hm. unfold told. keeps_auto. Qed.
Lemma step_agrew {A B} (m : AM (error + A)) (k : A -> AM (error + B)) :
  keeps (agrew P) m -> (forall a, keeps (agrew P) (k a)) -> keeps (agrew P) (step m k).
Proof. intros Hm Hk. unfold step. keeps_auto. Qed.
Lemma record_agrew st : keeps (agrew P) (record st).
Proof. apply keeps_modify. intros s. unfold agrew. reflexivity. Qed.
Lemma recorded_agrew m : keeps (agrew P) m -> keeps (agrew P) (recorded m).
Proof. intros Hm. apply step_agrew; [done|]. intros st. pose proof (record_agrew st). keeps_auto. Qed.
Lemma write_step_agrew dry desc detail m status : (dry = false -> keeps (agrew P) m) -> keeps (agrew P) (write_step dry desc detail m status).
Proof. intros Hm. unfold write_step. destruct dry; [keeps_auto|]. apply step_agrew; [by apply Hm|]. keeps_auto. Qed.

Context (HP : forall q, is_get q -> P q).
Lemma rows_at_agrew path what : keeps (agrew P) (rows_at path what).
Proof. unfold rows_at. apply keeps_bind; [apply _|by apply doRequest_agrew, HP|]. keeps_auto. Qed.
Lemma names_at_agrew path what key : keeps (agrew P) (names_at path what key).
Proof. unfold names_at. apply keeps_bind; [apply _|apply rows_at_agrew|]. keeps_auto. Qed.
End Frame.

(** ** Bootstrap *)

Section Bootstrap.
Context (o : BootstrapOptions).
(** A dry run reads; another one may provision. *)
Definition allowed (q : PveRequest) : Prop := is_get q \/ (bo_DryRun o = false /\ provisions o q).
Abbreviation R := (agrew allowed).
Lemma get_allowed q : is_get q -> allowed q.
Proof. by left. Qed.

Lemma filterPrivileges_kept privs supported : Forall (fun p => p ∈ privs) (filterPrivileges privs supported).1.
Proof.
  unfold filterPrivileges. apply Forall_forall. intros p. destruct (bool_decide _); cbn; [done|].
  rewrite list_elem_of_In, List.filter_In. intros [Hin _]. by apply list_elem_of_In.
Qed.
Lemma ensureRole_agrew existing supported role privs :
  (role, privs) ∈ role_sets o -> keeps R (ensureRole existing supported role privs (bo_DryRun o)).
Proof.
  intros Hin. unfold ensureRole. pose proof (filterPrivileges_kept privs supported) as Hk.
  destruct (filterPrivileges privs supported) as [kept dropped]. cbn in Hk. destruct (describeDropped dropped) as [e|note]; [keeps_auto|].
  destruct (existing !! role) as [cur|].
  - destruct (bool_decide _); [keeps_auto|]. destruct (bo_DryRun o) eqn:Hd; [keeps_auto|].
    apply write_step_agrew. intros _. apply told_agrew, doRequest_agrew. right. split; [done|].
    eapply provisions_role; [done..|]. constructor.
  - apply write_step_agrew. intros Hd. apply told_agrew, doRequest_agrew. right. split; [done|].
    eapply provisions_role; [done..|]. constructor.
Qed.
Lemma roles_step_agrew roles supported role privs :
  (role, privs) ∈ role_sets o -> keeps R (roles_step roles supported role privs (bo_DryRun o)).
Proof. intros Hin. apply step_agrew; [by apply recorded_agrew, ensureRole_agrew|]. keeps_auto. Qed.
Lemma grantACL_agrew path role : (path, role) ∈ grants o -> keeps R (grantACL path (bo_UserID o) role (bo_DryRun o)).
Proof.
  intros Hin. apply write_step_agrew. intros Hd. apply told_agrew, doRequest_agrew. right. split; [done|]. by eapply provisions_grant.
Qed.
Lemma grant_all_agrew paths role :
  Forall (fun path => (path, role) ∈ grants o) paths -> keeps R (grant_all paths (bo_UserID o) role (bo_DryRun o)).
Proof.
  induction 1 as [|path paths Hp _ IH]; cbn [grant_all]; [keeps_auto|]. apply step_agrew; [by apply recorded_agrew, grantACL_agrew|done].
Qed.
Lemma create_pool_agrew : keeps R (create_pool o).
Proof.
  unfold create_pool. destruct (_ && _); [|keeps_auto]. apply keeps_bind; [apply _|apply names_at_agrew, get_allowed|].
  intros [e|pools]; [keeps_auto|]. apply recorded_agrew. unfold ensurePool. destruct (among _ _); [keeps_auto|].
  apply write_step_agrew. intros Hd. apply told_agrew, doRequest_agrew. right. split; [done|]. apply provisions_pool.
Qed.
Lemma create_user_agrew : keeps R (create_user o).
Proof.
  unfold create_user. apply keeps_bind; [apply _|apply names_at_agrew, get_allowed|].
  intros [e|users]; [keeps_auto|]. apply recorded_agrew. unfold ensureUser. destruct (among _ _); [keeps_auto|].
  apply write_step_agrew. intros Hd. apply told_agrew, doRequest_agrew. right. split; [done|]. apply provisions_user.
Qed.
Lemma grant_drill_agrew : bo_ReadOnly o = false -> keeps R (grant_drill o).
Proof.
  intros Hro. apply step_agrew; [|intros st; apply keeps_bind; [apply _|apply record_agrew|]; keeps_auto].
  apply grantACL_agrew. unfold grants. rewrite Hro. apply elem_of_app. right. by left.
Qed.
Lemma grant_storages_agrew roles supported : bo_ReadOnly o = false -> keeps R (grant_storages o roles supported).
Proof.
  intros Hro. unfold grant_storages. destruct (bo_Storages o) as [|x l] eqn:El; [keeps_auto|]. rewrite <- El. apply step_agrew.
  - apply roles_step_agrew. unfold role_sets. rewrite Hro. right; right; left.
  - intros roles'. apply step_agrew; [|keeps_auto]. apply grant_all_agrew. apply Forall_forall. intros path Hp.
    apply list_elem_of_fmap in Hp as (st & -> & Hst). unfold grants. rewrite Hro. apply elem_of_app. right. right. apply elem_of_app. left.
    apply list_elem_of_fmap. by exists st.
Qed.
Lemma grant_bridge_agrew roles supported : keeps R (grant_bridge o roles supported).
Proof.
  unfold grant_bridge. destruct (bo_ReadOnly o) eqn:Hro; cbn [negb andb]; [keeps_auto|]. destruct (nonempty _); [|keeps_auto]. apply step_agrew.
  - apply roles_step_agrew. unfold role_sets. rewrite Hro. right; right; right; left.
  - intros roles'. apply grant_all_agrew. apply Forall_singleton. unfold grants. rewrite Hro. apply elem_of_app. right. right.
    apply elem_of_app. right. by left.
Qed.
Lemma ensureToken_agrew : keeps R (ensureToken (bo_UserID o) (bo_TokenName o) (bo_ReuseExistingToken o) (bo_DryRun o)).
Proof.
  unfold ensureToken. apply keeps_bind; [apply _|apply names_at_agrew, get_allowed|]. intros [e|existing]; [keeps_auto|].
  assert (forall st (r : error + (string * string)), keeps R (_ ← record st; mret r)) as Hrec
    by (intros st r; apply keeps_bind; [apply _|apply record_agrew|]; keeps_auto).
  destruct (_ && _); [apply Hrec|]. destruct (among _ _); [apply Hrec|]. destruct (bo_DryRun o) eqn:Hd; [apply Hrec|].
  apply step_agrew; [apply told_agrew, doRequest_agrew; right; split; [done|]; apply provisions_token|].
  intros data. destruct (match as_object data with inl e => inl e | inr e => token_fields e end) as [e|[value id]]; [keeps_auto|].
  destruct (_ || _); [keeps_auto|apply Hrec].
Qed.
Lemma Bootstrap_agrew : keeps R (Bootstrap o).
Proof.
  unfold Bootstrap. destruct (validate_bootstrap o); [keeps_auto|]. apply keeps_bind; [apply _|apply keeps_gets; apply _|]. intros [|]; [|keeps_auto].
  apply keeps_bind; [apply _|apply keeps_modify; intros s; unfold agrew; reflexivity|]. intros _. unfold provision.
  apply keeps_bind; [apply _|apply keeps_bind; [apply _|apply rows_at_agrew, get_allowed|keeps_auto]|]. intros [e|roles]; [keeps_auto|].
  apply step_agrew; [apply roles_step_agrew; unfold role_sets; by left|]. intros roles1.
  apply step_agrew; [destruct (bo_ReadOnly o) eqn:Hro; [keeps_auto|apply roles_step_agrew; unfold role_sets; rewrite Hro; right; left]|]. intros roles2.
  apply step_agrew; [apply create_pool_agrew|]. intros _. apply step_agrew; [apply create_user_agrew|]. intros _.
  apply step_agrew.
  { apply grant_all_agrew. apply Forall_forall. intros path Hp. unfold grants. apply elem_of_app. left. apply list_elem_of_fmap. by exists path. }
  intros _. apply step_agrew.
  { destruct (bo_ReadOnly o) eqn:Hro; [keeps_auto|]. apply step_agrew; [by apply grant_drill_agrew|]. intros _. by apply grant_storages_agrew. }
  intros roles3. apply step_agrew; [apply grant_bridge_agrew|]. intros _. apply ensureToken_agrew.
Qed.
End Bootstrap.

(** Provisioning does what its options say. Every request reads the cluster,
    creates or updates one of the roles of the options with privileges of its set,
    creates the pool or the user, gives the user one of the grants of the options, or
    creates the token; nothing is deleted; and a dry run only reads. *)
Theorem Bootstrap_writes o s :
  exists new, pv_log (ad_pve (Bootstrap o s).2) = pv_log (ad_pve s) ++ new /\
    Forall (fun x => is_get (ex_request x) \/ (bo_DryRun o = false /\ provisions o (ex_request x))) new.
Proof. exact (Bootstrap_agrew o s). Qed.

(** *** What a role amounts to *)

Definition role_read (q : PveRequest) : option string * option (list string) :=
  (match pq_path q with
   | Sprintf _ [AStr role] => Some role
   | _ => match pq_params q !! "roleid" with Some [role] => Some role | _ => None end
   end, pq_params q !! "privs").
Lemma role_write_read role key q : role_write role key q -> role_read q = (Some role, Some [key]).
Proof.
  intros []; unfold role_read; cbn.
  - unfold role_form. by rewrite lookup_insert_eq, lookup_insert_ne, lookup_singleton_eq.
  - by rewrite lookup_insert_eq.
Qed.
Lemma role_write_inj role key role' key' q : role_write role key q -> role_write role' key' q -> role = role' /\ key = key'.
Proof. intros H1%role_write_read H2%role_write_read. rewrite H1 in H2. by simplify_eq. Qed.
Lemma grant_write_inj userID path role path' role' q :
  grant_write userID path role q -> grant_write userID path' role' q -> path = path' /\ role = role'.
Proof.
  assert (forall p r, grant_form p userID r !! "path" = Some [p] /\ grant_form p userID r !! "roles" = Some [r]) as Hform.
  { intros p r. unfold grant_form. split; [apply lookup_insert_eq|]. rewrite 2!lookup_insert_ne by done. apply lookup_insert_eq. }
  unfold grant_write. intros -> E'. destruct (Hform path role) as [Ha Hb], (Hform path' role') as [Hc Hd].
  apply (f_equal pq_params) in E'. cbn in E'. rewrite E' in Ha, Hb. rewrite Ha in Hc. rewrite Hb in Hd. by simplify_eq.
Qed.

Lemma privilege_no_comma o role privs p : (role, privs) ∈ role_sets o -> p ∈ privs -> existsb_char (Ascii.eqb ",") p = false.
Proof.
  assert (Forall (fun p => existsb_char (Ascii.eqb ",") p = false) (DrillPrivileges ++ sdnPrivileges)) as Hall
    by (apply Forall_forall; intros q Hq; repeat (apply elem_of_cons in Hq as [->|Hq]; [reflexivity|]); by apply not_elem_of_nil in Hq).
  intros Hr Hp. rewrite Forall_forall in Hall. apply Hall. clear Hall. unfold role_sets in Hr.
  assert (privs = ReadOnlyPrivileges \/ privs = DrillPrivileges \/ privs = storagePrivileges \/ privs = sdnPrivileges) as Hcase.
  { destruct (bo_ReadOnly o); repeat (apply elem_of_cons in Hr as [Hr|Hr]; [injection Hr as _ ->; tauto|]); by apply not_elem_of_nil in Hr. }
  destruct Hcase as [->|[->|[->| ->]]].
  - apply elem_of_app. left. apply elem_of_app. by left.
  - apply elem_of_app. by left.
  - apply elem_of_app. left. repeat (apply elem_of_cons in Hp as [->|Hp]; [by apply (bool_decide_unpack _); vm_compute|]). by apply not_elem_of_nil in Hp.
  - apply elem_of_app. by right.
Qed.
(** The key of a set of privileges lists privileges of the set. *)
Lemma key_lists o role privs kept :
  (role, privs) ∈ role_sets o -> Forall (fun p => p ∈ privs) kept -> Forall (fun p => p ∈ privs) (splitPrivs (privsKey kept)).
Proof.
  intros Hr Hk. unfold splitPrivs. destruct (nonempty (privsKey kept)) eqn:Hn; [|apply Forall_nil_2].
  unfold privsKey in *. assert (sort_strings kept <> []) as Hne by (intros E; by rewrite E in Hn).
  assert (Forall (fun p => p ∈ privs) (sort_strings kept)) as Hs by (apply Forall_forall; intros p Hp; rewrite Forall_forall in Hk; by apply Hk, sort_strings_elem).
  rewrite Split_Join; [done|done|]. eapply Forall_impl; [exact Hs|]. intros p. by apply (privilege_no_comma o role).
Qed.

(** What a request that was allowed gives, and to which role. *)
Lemma grant_granted o path role q : allowed o q -> grant_write (bo_UserID o) path role q -> (path, role) ∈ grants o.
Proof.
  intros [Hget|[_ Hp]] Hg; [rewrite Hg in Hget; discriminate|]. unfold grant_write in Hg. destruct Hp as [q Hq|r p k q _ _ Hq|f|f|p r q Hin Hq|].
  - rewrite Hg in Hq. discriminate.
  - rewrite Hg in Hq. inversion Hq.
  - discriminate.
  - discriminate.
  - by destruct (grant_write_inj _ _ _ _ _ _ Hg Hq) as [-> ->].
  - discriminate.
Qed.
Lemma role_carries o role key q : allowed o q -> role_write role key q ->
  exists privs kept, (role, privs) ∈ role_sets o /\ Forall (fun p => p ∈ privs) kept /\ key = privsKey kept.
Proof.
  intros [Hget|[_ Hp]] Hr; [by destruct Hr|]. destruct Hp as [q Hq|r p k q Hin Hk Hq|f|f|p r q Hin Hq|].
  - by destruct Hr.
  - destruct (role_write_inj _ _ _ _ _ Hr Hq) as [-> ->]. by exists p, k.
  - inversion Hr.
  - inversion Hr.
  - unfold grant_write in Hq. rewrite Hq in Hr. inversion Hr.
  - inversion Hr.
Qed.
Lemma longer_name (a b : string) : b <> "" -> a <> a +:+ b.
Proof. intros Hb. induction a as [|c a IH]; [intros E; by apply Hb|]. intros [= Ea]. by apply IH. Qed.
(** Outside of the pool, the drill role is granted nowhere. *)
Lemma drill_role_in_pool o path :
  bo_RoleName o <> readOnlyRoleName -> bo_ReadOnly o = false -> (path, bo_RoleName o) ∈ grants o -> path = drill_path o.
Proof.
  intros Hname Hro Hin. unfold grants, read_role in Hin. rewrite Hro in Hin.
  apply elem_of_app in Hin as [Hin|Hin]; [apply list_elem_of_fmap in Hin as (? & [= _ E] & _); congruence|].
  apply elem_of_cons in Hin as [[= ->]|Hin]; [done|]. unfold storage_role, network_role in Hin. apply elem_of_app in Hin as [Hin|Hin].
  - apply list_elem_of_fmap in Hin as (? & [= _ E] & _). by eapply longer_name in E.
  - apply list_elem_of_singleton in Hin as [= _ E]. by eapply longer_name in E.
Qed.

(** C13: the account can only read outside of its pool. In a provisioning for drills
    with a pool, under a name of the drill role that is not the one of the reading
    role, a role granted anywhere but on the pool never carries, in any request of
    the provisioning, more than the privileges of reading and the use of the
    isolated bridge; a read-only account carries no other anywhere. *)
Theorem Bootstrap_scope o s new x y path role key :
  pv_log (ad_pve (Bootstrap o s).2) = pv_log (ad_pve s) ++ new ->
  bo_RoleName o <> readOnlyRoleName \/ bo_ReadOnly o = true ->
  x ∈ new -> grant_write (bo_UserID o) path role (ex_request x) ->
  y ∈ new -> role_write role key (ex_request y) ->
  path <> drill_path o \/ bo_ReadOnly o = true ->
  Forall (fun p => p ∈ ReadOnlyPrivileges ++ sdnPrivileges) (splitPrivs key).
Proof.
  intros Hnew Hname Hx Hg Hy Hr Hpath. destruct (Bootstrap_agrew o s) as (new' & E & Hall). rewrite Hnew in E. apply app_inv_head in E as <-.
  rewrite Forall_forall in Hall. pose proof (grant_granted o path role _ (Hall _ Hx) Hg) as Hgrant.
  destruct (role_carries o role key _ (Hall _ Hy) Hr) as (privs & kept & Hset & Hk & ->).
  eapply Forall_impl; [by eapply key_lists|]. intros p Hp. cbn in Hp.
  assert (privs = ReadOnlyPrivileges \/ privs = storagePrivileges \/ privs = sdnPrivileges) as Hcase.
  { unfold role_sets in Hset. destruct (bo_ReadOnly o) eqn:Hro; [apply list_elem_of_singleton in Hset; injection Hset as _ ->; by left|].
    destruct Hpath as [Hpath|]; [|done]. destruct Hname as [Hname|]; [|done].
    assert (role <> bo_RoleName o) as Hne by (intros ->; by apply Hpath, drill_role_in_pool).
    repeat (apply elem_of_cons in Hset as [[= -> ->]|Hset]; [first [done|tauto]|]). by apply not_elem_of_nil in Hset. }
  apply elem_of_app. destruct Hcase as [->|[->| ->]]; [by left| |by right]. left.
  repeat (apply elem_of_cons in Hp as [->|Hp]; [by apply (bool_decide_unpack _); vm_compute|]). by apply not_elem_of_nil in Hp.
Qed.

(** ** The isolated bridge *)

Definition bridge_created (o : BridgeOptions) (q : PveRequest) : Prop :=
  exists comment, q = mkPveRequest MethodPost (network_path (br_Node o)) (bridge_form (br_Bridge o) comment).
Definition network_applied (o : BridgeOptions) (q : PveRequest) : Prop :=
  br_Apply o = true /\ q = mkPveRequest MethodPut (network_path (br_Node o)) ∅.
(** What the node answered has an interface of that name. *)
Definition listed (o : BridgeOptions) (x : exchange) (row : Object) : Prop :=
  exists data rows, ex_answer x = inr data /\ decodeRows data = inr rows /\
    List.find (fun row => bool_decide (fieldString row "iface" = br_Bridge o)) rows = Some row.

(** The requests: the listing, and then, when the name is free and the run is not
    dry, the creation and, when asked for, the application. *)
Inductive bridge_requests (o : BridgeOptions) : list exchange -> Prop :=
| bridge_nothing : bridge_requests o []
| bridge_listed x : is_get (ex_request x) -> bridge_requests o [x]
| bridge_made x c rest : is_get (ex_request x) -> br_DryRun o = false -> (forall row, ~ listed o x row) ->
    bridge_created o (ex_request c) -> (rest = [] \/ exists a, rest = [a] /\ network_applied o (ex_request a)) ->
    bridge_requests o (x :: c :: rest).

Definition aafter (x : exchange) (s : Admin) : Admin := set_ad_pve (after x (ad_pve s)) s.
Lemma doRequest_eq method path form s :
  let x := exchange_at (ad_pve s) method path form in doRequest method path form s = (Ret (ex_answer x), aafter x s).
Proof. reflexivity. Qed.

Lemma step_told_eq {A} method path form fmt args (k : option any -> AM (error + A)) s :
  step (told (doRequest method path form) fmt args) k s =
    match ex_answer (exchange_at (ad_pve s) method path form) with
    | inl e => (Ret (inl (EWrap (Sprintf fmt (args ++ [AText (Error e)])) e)), aafter (exchange_at (ad_pve s) method path form) s)
    | inr data => k data (aafter (exchange_at (ad_pve s) method path form) s)
    end.
Proof.
  unfold step, told, mbind, M_bind. rewrite doRequest_eq. cbn [mret M_ret]. by destruct (ex_answer _).
Qed.

Definition bridge_outcome (o : BridgeOptions) (s : Admin) (out : outcome (error + (bool * bool)) * Admin) : Prop :=
  exists new r, out.1 = Ret r /\ pv_log (ad_pve out.2) = pv_log (ad_pve s) ++ new /\ bridge_requests o new /\
    (forall x row, x ∈ new -> is_get (ex_request x) -> listed o x row ->
       length new = 1%nat /\ (r = inr (false, false) \/ exists e, r = inl e) /\
       (r = inr (false, false) -> checkSafeToReuse (br_Bridge o) (interface_of row) = None)) /\
    (r = inr (true, false) -> length new = 3%nat).

Lemma findNetworkInterface_eq node iface s :
  let x := exchange_at (ad_pve s) MethodGet (network_path node) ∅ in
  exists r, findNetworkInterface node iface s = (Ret r, aafter x s) /\
    forall i, r = inr i <-> exists data rows, ex_answer x = inr data /\ decodeRows data = inr rows /\
      i = interface_of <$> List.find (fun row => bool_decide (fieldString row "iface" = iface)) rows.
Proof.
  intros x. unfold findNetworkInterface. rewrite (bind_Ret _ _ _ _ _ (doRequest_eq MethodGet (network_path node) ∅ s)). fold x.
  eexists. split; [reflexivity|]. intros i. destruct (ex_answer x) as [e|data].
  { split; [discriminate|]. intros (d & rows & E & _). discriminate. }
  destruct (decodeRows data) as [e|rows] eqn:Ed; (split; [intros [= <-]|intros (d & rows' & [= <-] & E & ->); congruence]).
  by exists data, rows.
Qed.

Lemma make_bridge_outcome o s x s1 :
  pv_log (ad_pve s1) = pv_log (ad_pve s) ++ [x] -> is_get (ex_request x) -> (forall row, ~ listed o x row) -> br_DryRun o = false ->
  bridge_outcome o s (make_bridge o s1).
Proof.
  intros Hlog Hx Hfree Hdry. unfold make_bridge. set (comment := if nonempty (br_Comment o) then _ else _). unfold createIsolatedBridge, applyNetwork.
  set (c := exchange_at (ad_pve s1) MethodPost (network_path (br_Node o)) (bridge_form (br_Bridge o) comment)).
  assert (forall o' s1 rest, pv_log (ad_pve s1) = pv_log (ad_pve s) ++ x :: c :: rest ->
    (rest = [] \/ exists a, rest = [a] /\ network_applied o (ex_request a)) -> (o' = inr (true, false) -> length rest = 1%nat) ->
    bridge_outcome o s (Ret o', s1)) as Hmade.
  { intros o' s2 rest El Hrest Ho. exists (x :: c :: rest), o'.
    split_and!; [done|done|by apply bridge_made; [| | |exists comment|]| |intros Hok; cbn; by rewrite Ho].
    intros y row Hy Hget Hl. exfalso. apply elem_of_cons in Hy as [->|Hy]; [by apply (Hfree row)|].
    apply elem_of_cons in Hy as [->|Hy]; [discriminate|]. destruct Hrest as [->|(a & -> & _ & Ha)]; [by apply not_elem_of_nil in Hy|].
    apply list_elem_of_singleton in Hy as ->. rewrite Ha in Hget. discriminate. }
  assert (pv_log (ad_pve (aafter c s1)) = pv_log (ad_pve s) ++ [x; c]) as Hlogc
    by (transitivity (pv_log (ad_pve s1) ++ [c]); [done|clearbody c; by rewrite Hlog, <- app_assoc]).
  rewrite step_told_eq. fold comment. fold c. destruct (ex_answer c) as [e|data]; [by apply (Hmade _ _ []); [|left|]|].
  rewrite (bind_Ret (record _) _ _ tt _ eq_refl). destruct (br_Apply o) eqn:Hap; cbn [negb].
  2: { rewrite (bind_Ret (record _) _ _ tt _ eq_refl). by apply (Hmade _ _ []); [|left|]. }
  match goal with |- bridge_outcome _ _ (step _ _ ?t) => set (s2 := t) end.
  set (a := exchange_at (ad_pve s2) MethodPut (network_path (br_Node o)) ∅).
  assert (pv_log (ad_pve (aafter a s2)) = pv_log (ad_pve s) ++ [x; c; a]) as Hloga
    by (transitivity (pv_log (ad_pve (aafter c s1)) ++ [a]); [done|clearbody a; by rewrite Hlogc, <- app_assoc]).
  assert ([a] = [] \/ exists a', [a] = [a'] /\ network_applied o (ex_request a')) as Ha by (right; exists a; by split_and!).
  rewrite step_told_eq. fold s2 a. destruct (ex_answer a) as [e|data']; [by apply (Hmade _ _ [a])|].
  rewrite (bind_Ret (record _) _ _ tt _ eq_refl). by apply (Hmade _ _ [a]).
Qed.

(** The isolated bridge never touches what is there. Whatever the node answers,
    the provisioning lists the interfaces and, only when none has that name and the
    run is not dry, creates the bridge, a portless one, and, only when asked to,
    applies the configuration; when the name is taken it writes nothing, and calls
    the interface isolated only if it is safe to reuse. *)
Theorem EnsureIsolatedBridge_spares o s : bridge_outcome o s (EnsureIsolatedBridge o s).
Proof.
  assert (forall s1 e, pv_log (ad_pve s1) = pv_log (ad_pve s) -> bridge_outcome o s (Ret (inl e), s1)) as Hnothing.
  { intros s1 e E. exists [], (inl e). cbn. rewrite app_nil_r, E. split_and!; [done|done|constructor| |done]. intros x row Hx. by apply not_elem_of_nil in Hx. }
  unfold EnsureIsolatedBridge. destruct (validate_bridge_options o); [by apply Hnothing|].
  rewrite (bind_Ret loggedIn _ s _ s eq_refl). destruct (nonempty _); [|by apply Hnothing].
  rewrite (bind_Ret _ _ s tt (set_ad_steps [] s) eq_refl). set (s0 := set_ad_steps [] s). unfold provision_bridge.
  destruct (findNetworkInterface_eq (br_Node o) (br_Bridge o) s0) as (r & E & Hr). rewrite (bind_Ret _ _ _ _ _ E). clear E.
  set (x := exchange_at _ _ _ _) in *.
  assert (forall row, listed o x row <-> r = inr (Some (interface_of row)) /\ listed o x row) as Hlisted.
  { intros row. split; [|tauto]. intros Hl. split; [|done]. destruct Hl as (data & rows & Ea & Ed & Ef). apply Hr. exists data, rows. by rewrite Ef. }
  assert (forall o' s1, pv_log (ad_pve s1) = pv_log (ad_pve s) ++ [x] -> o' <> inr (true, false) ->
    (forall row, listed o x row -> (o' = inr (false, false) \/ exists e, o' = inl e) /\
       (o' = inr (false, false) -> checkSafeToReuse (br_Bridge o) (interface_of row) = None)) ->
    bridge_outcome o s (Ret o', s1)) as Hread.
  { intros o' s1 El Hne Hl. exists [x], o'. split_and!; [done|done|by constructor| |done].
    intros y row ->%list_elem_of_singleton _ Hrow. destruct (Hl row Hrow). by split_and!. }
  assert (pv_log (ad_pve (aafter x s0)) = pv_log (ad_pve s) ++ [x]) as Hlog by done.
  destruct r as [e|[i|]].
  - apply Hread; [done|done|]. intros row [E _]%Hlisted. discriminate.
  - destruct (checkSafeToReuse (br_Bridge o) i) as [e|] eqn:Hsafe; apply Hread; try done.
    + intros row _. split; [right; by eexists|done].
    + intros row [[= ->] _]%Hlisted. split; [by left|done].
  - assert (forall row, ~ listed o x row) as Hfree by (intros row [E _]%Hlisted; discriminate).
    destruct (br_DryRun o) eqn:Hdry; [apply Hread; [done|by destruct (br_Apply o)|intros row Hl; by destruct (Hfree row)]|].
    by apply (make_bridge_outcome o s x).
Qed.
End Requests.

(** An interface that provisioning calls an isolated bridge is isolated for the
    drills, provided that its ports are not given as none: then the two tests
    disagree, and every drill on it is refused. *)
Theorem reused_bridge_validates node network rows row :
  List.find (fun row => bool_decide (fieldString row "iface" = net_Bridge network)) rows = Some row ->
  checkSafeToReuse (net_Bridge network) (interface_of row) = None ->
  validate_isolation node network rows =
    if bool_decide (fieldString row "bridge_ports" = "none") then validate_isolation node network [row] else inr tt.
Proof.
  intros Hf Hs. assert (bool_decide (fieldString row "iface" = net_Bridge network) = true) as Hb by by apply List.find_some in Hf as [_ ?].
  unfold validate_isolation. rewrite Hf. cbn [List.find]. rewrite Hb. unfold checkSafeToReuse in Hs. cbn in Hs.
  destruct (bool_decide (fieldString row "bridge_ports" = "none")) eqn:Hn; [done|]. unfold uplinked.
  destruct (negb _); [done|]. cbn in Hs. rewrite andb_true_r in Hs.
  destruct (nonempty (fieldString row "bridge_ports")) eqn:Hp; [done|]. destruct (nonempty _ || nonempty _ || nonempty _ || nonempty _); [done|].
  destruct (nonempty (fieldString row "gateway")) eqn:Hg; [done|].
  unfold nonempty in Hp, Hg. apply negb_false_iff, bool_decide_eq_true in Hp, Hg. by rewrite Hp, Hg.
Qed.

(** ** What the steps answer *)

Section Answers.
Context `{PveEnv}.

Lemma doRequest_returns method path form : returns (doRequest method path form).
Proof. intros s. by eexists _, _. Qed.
Hint Resolve doRequest_returns : answers.
Lemma told_returns m fmt args : returns m -> returns (told m fmt args).
Proof. intros Hm. unfold told. answers_auto. Qed.
Lemma step_returns {A B} (m : M Admin (error + A)) (k : A -> M Admin (error + B)) : returns m -> (forall a, returns (k a)) -> returns (step m k).
Proof. intros Hm Hk. unfold step. answers_auto. Qed.
Lemma record_returns st : returns (record st).
Proof. apply answers_modify. Qed.
Hint Resolve told_returns step_returns record_returns : answers.
Lemma recorded_returns m : returns m -> returns (recorded m).
Proof. intros Hm. apply step_returns; [done|]. answers_auto. Qed.
Lemma write_step_returns dry desc detail m status : returns m -> returns (write_step dry desc detail m status).
Proof. intros Hm. unfold write_step. destruct dry; [answers_auto|]. apply step_returns; [done|]. answers_auto. Qed.
Lemma rows_at_returns path what : returns (rows_at path what).
Proof. unfold rows_at. answers_auto. Qed.
Hint Resolve recorded_returns write_step_returns rows_at_returns : answers.
Lemma names_at_returns path what key : returns (names_at path what key).
Proof. unfold names_at. answers_auto. Qed.
Hint Resolve names_at_returns : answers.
Lemma listRoles_returns : returns listRoles.
Proof. unfold listRoles. answers_auto. Qed.
Lemma findNetworkInterface_returns node iface : returns (findNetworkInterface node iface).
Proof. unfold findNetworkInterface. answers_auto. Qed.
Lemma ensureRole_returns existing supported role privs dry : returns (ensureRole existing supported role privs dry).
Proof.
  unfold ensureRole. destruct (filterPrivileges _ _) as [kept dropped]. destruct (describeDropped dropped); [answers_auto|]. cbv zeta.
  destruct (_ !! role); [|eauto 4 with answers]. destruct (bool_decide _); [answers_auto|]. destruct dry; [answers_auto|eauto 4 with answers].
Qed.
Lemma roles_step_returns roles supported role privs dry : returns (roles_step roles supported role privs dry).
Proof. unfold roles_step. apply step_returns; [apply recorded_returns, ensureRole_returns|]. answers_auto. Qed.
Lemma grantACL_returns path user role dry : returns (grantACL path user role dry).
Proof. apply write_step_returns, told_returns, doRequest_returns. Qed.
Hint Resolve roles_step_returns grantACL_returns : answers.
Lemma grant_all_returns paths user role dry : returns (grant_all paths user role dry).
Proof. induction paths as [|path paths IH]; cbn [grant_all]; [answers_auto|]. apply step_returns; [apply recorded_returns, grantACL_returns|done]. Qed.
Hint Resolve grant_all_returns : answers.
Lemma create_pool_returns o : returns (create_pool o).
Proof.
  unfold create_pool. destruct (_ && _); [|answers_auto]. eapply answers_bind; [apply names_at_returns|]. intros [e|pools] _; [answers_auto|].
  apply recorded_returns. unfold ensurePool. destruct (among _ _); [answers_auto|eauto 4 with answers].
Qed.
Lemma create_user_returns o : returns (create_user o).
Proof.
  unfold create_user. eapply answers_bind; [apply names_at_returns|]. intros [e|users] _; [answers_auto|].
  apply recorded_returns. unfold ensureUser. destruct (among _ _); [answers_auto|eauto 4 with answers].
Qed.
Lemma grant_drill_returns o : returns (grant_drill o).
Proof. unfold grant_drill. apply step_returns; [apply grantACL_returns|]. answers_auto. Qed.
Lemma grant_storages_returns o roles supported : returns (grant_storages o roles supported).
Proof.
  unfold grant_storages. destruct (bo_Storages o); [answers_auto|]. apply step_returns; [apply roles_step_returns|]. intros roles'.
  apply step_returns; [apply grant_all_returns|]. answers_auto.
Qed.
Lemma grant_bridge_returns o roles supported : returns (grant_bridge o roles supported).
Proof. unfold grant_bridge. destruct (_ && _); [|answers_auto]. apply step_returns; [apply roles_step_returns|]. intros _. apply grant_all_returns. Qed.
Hint Resolve create_pool_returns create_user_returns grant_drill_returns grant_storages_returns grant_bridge_returns : answers.

(** A token that is not created keeps the secret that is held. *)
Definition token_answer (userID tokenName : string) (reuse dryRun : bool) (r : error + (string * string)) : Prop :=
  match r with
  | inl _ => True
  | inr (id, secret) => (id <> "" /\ secret <> "") \/ (secret = "" /\ id = userID +:+ "!" +:+ tokenName /\ (reuse = true \/ dryRun = true))
  end.
Lemma ensureToken_answers user name reuse dry : answers (token_answer user name reuse dry) (ensureToken user name reuse dry).
Proof.
  unfold ensureToken. eapply answers_bind; [apply names_at_returns|]. intros [e|existing] _; [by apply answers_ret|].
  assert (forall st r, token_answer user name reuse dry r -> answers (token_answer user name reuse dry) (_ ← record st; mret r)) as Hrec.
  { intros st r Hr. eapply answers_bind; [apply record_returns|]. intros _ _. by apply answers_ret. }
  destruct (among name existing && reuse) eqn:Hr; [apply Hrec; right; apply andb_true_iff in Hr as [_ Hr]; by split_and!; [| |left]|].
  destruct (among _ _); [by apply Hrec|]. destruct dry; [apply Hrec; right; by split_and!; [| |right]|].
  unfold step. eapply answers_bind; [apply told_returns, doRequest_returns|]. intros [e|data] _; [by apply answers_ret|].
  destruct (match as_object data with inl e => inl e | inr e => token_fields e end) as [e|[value id]]; [by apply answers_ret|].
  destruct (nonempty value) eqn:Hv; [|by apply answers_ret]. destruct (nonempty id) eqn:Hi; [|by apply answers_ret]. cbn [negb orb].
  apply Hrec. left. by apply nonempty_spec in Hv, Hi.
Qed.
Lemma step_answers {A B} (P : error + B -> Prop) (m : M Admin (error + A)) (k : A -> M Admin (error + B)) :
  returns m -> (forall e, P (inl e)) -> (forall a, answers P (k a)) -> answers P (step m k).
Proof. intros Hm He Hk. unfold step. eapply answers_bind; [exact Hm|]. intros [e|a] _; [by apply answers_ret|done]. Qed.

(** Provisioning always answers; what it answers of a token that was not created is the
    token that was asked for. *)
Lemma Bootstrap_answers o : answers (token_answer (bo_UserID o) (bo_TokenName o) (bo_ReuseExistingToken o) (bo_DryRun o)) (Bootstrap o).
Proof.
  unfold Bootstrap. destruct (validate_bootstrap o); [by apply answers_ret|]. eapply answers_bind; [apply answers_gets|]. intros [|] _; [|by apply answers_ret].
  eapply answers_bind; [apply answers_modify|]. intros _ _. unfold provision.
  eapply answers_bind; [apply listRoles_returns|]. intros [e|roles] _; [by apply answers_ret|].
  apply step_answers; [apply roles_step_returns|done|]. intros roles1.
  apply step_answers; [destruct (bo_ReadOnly o); [answers_auto|apply roles_step_returns]|done|]. intros roles2.
  apply step_answers; [apply create_pool_returns|done|]. intros _. apply step_answers; [apply create_user_returns|done|]. intros _.
  apply step_answers; [apply grant_all_returns|done|]. intros _.
  apply step_answers; [destruct (bo_ReadOnly o); [answers_auto|apply step_returns; [apply grant_drill_returns|intros _; apply grant_storages_returns]]|done|].
  intros roles3. apply step_answers; [apply grant_bridge_returns|done|]. intros _. apply ensureToken_answers.
Qed.
Lemma Login_returns : returns Login.
Proof.
  unfold Login. apply (answers_bind (fun _ => True)); [intros s; by eexists _, _|]. intros me _. eapply answers_bind; [apply doRequest_returns|]. intros [e|data] _; [answers_auto|].
  cbv zeta. answers_auto.
Qed.
Lemma EnsureIsolatedBridge_returns o : returns (EnsureIsolatedBridge o).
Proof.
  unfold EnsureIsolatedBridge. destruct (validate_bridge_options o); [answers_auto|]. eapply answers_bind; [apply answers_gets|]. intros [|] _; [|answers_auto].
  eapply answers_bind; [apply answers_modify|]. intros _ _. unfold provision_bridge.
  eapply answers_bind; [apply findNetworkInterface_returns|]. intros [e|[i|]] _; [answers_auto|answers_auto|]. destruct (br_DryRun o); [answers_auto|].
  unfold make_bridge. apply step_returns; [apply told_returns, doRequest_returns|]. intros _. eapply answers_bind; [apply record_returns|]. intros _ _.
  destruct (negb _); [answers_auto|]. apply step_returns; [apply told_returns, doRequest_returns|]. answers_auto.
Qed.
End Answers.

(** ** Provisioning at work *)

(** A cluster with one role, Administrator, and nothing else. *)
Module Provisioning.
Definition all_privileges : string := Join "," (DrillPrivileges ++ sdnPrivileges).
Definition answer (q : PveRequest) : pve_reply :=
  Replied 200 "" (inr (Some
    (match pq_method q, pq_path q with
     | MethodGet, Lit path =>
       if bool_decide (path = "/access/roles")
       then AnyList [AnyMap [("roleid", AnyString "Administrator"); ("privs", AnyString all_privileges)]] else AnyList []
     | MethodGet, _ => AnyList []
     | _, _ => AnyMap [("value", AnyString "secret"); ("full-tokenid", AnyString "restorelab@pve!drills")]
     end))).
#[local] Instance cluster : PveEnv := {|
  pve_answer _ q := answer q;
  pve_ctx _ := None;
  pve_done _ := None;
  pve_clock n := Z.of_nat n;
  task_polls := 3;
  json_error _ _ := ENew (Lit "json");
  json_agentInterfaces _ := inr [];
  json_agentOSInfo _ := inl (ENew (Lit "json"));
  json_text _ := None;
  ip_unusable _ := false;
|}.
Definition admin : Admin := mkAdmin (mkPve [] 0) "root@pam" "pw" "ticket" "csrf" [].
Definition options (role pool : string) (dry : bool) : BootstrapOptions :=
  mkBootstrapOptions "restorelab@pve" "" "drills" role pool false "" ["local"] "vmbr99" "" false dry.
Definition sent (o : BootstrapOptions) : list exchange := pv_log (ad_pve (Bootstrap o admin).2).
(** What is granted where, and the roles that carry a privilege. *)
Definition granted (o : BootstrapOptions) : list (string * string) :=
  omap (fun x => match pq_params (ex_request x) !! "path", pq_params (ex_request x) !! "roles" with
                 | Some [path], Some [role] => Some (path, role) | _, _ => None end) (sent o).
Definition carriers (p : string) (o : BootstrapOptions) : list string :=
  omap (fun x => match role_read (ex_request x) with
                 | (Some role, Some [key]) => if existsb (fun q => bool_decide (q = p)) (splitPrivs key) then Some role else None
                 | _ => None end) (sent o).

Example drills_in_a_pool :
  granted (options "RestoreLabDrill" "restorelab" false) =
    [("/vms", "RestoreLabRead"); ("/nodes", "RestoreLabRead"); ("/storage", "RestoreLabRead"); ("/pool/restorelab", "RestoreLabDrill");
     ("/storage/local", "RestoreLabDrillStorage"); ("/sdn/zones/localnetwork/vmbr99", "RestoreLabDrillNetwork")] /\
  carriers "VM.Allocate" (options "RestoreLabDrill" "restorelab" false) = ["RestoreLabDrill"] /\
  (Bootstrap (options "RestoreLabDrill" "restorelab" false) admin).1 = Ret (inr ("restorelab@pve!drills", "secret")).
Proof. vm_compute. split_and!; reflexivity. Qed.

(** A drill role named like the reading role is granted on the whole cluster. *)
Example one_name_for_two_roles :
  ("/vms", "RestoreLabRead") ∈ granted (options "RestoreLabRead" "restorelab" false) /\
  carriers "VM.Allocate" (options "RestoreLabRead" "restorelab" false) = ["RestoreLabRead"].
Proof. split; [|vm_compute; reflexivity]. apply (bool_decide_unpack _). vm_compute. exact I. Qed.

(** A bridge with no ports, written as none: provisioned, and refused by drills. *)
Definition bridge_row (ports : string) : Object :=
  list_to_map [("iface", AnyString "vmbr99"); ("type", AnyString "bridge"); ("bridge_ports", AnyString ports)].
Definition isolated : NetworkConfig := mkNetworkConfig "vmbr99" "virtio" 0 false true.
Example two_tests_disagree :
  checkSafeToReuse "vmbr99" (interface_of (bridge_row "none")) = None /\
  (match validate_isolation "pve1" isolated [bridge_row "none"] with inl e => Is e ErrNetworkNotIsolated | inr _ => false end) = true.
Proof. split; vm_compute; reflexivity. Qed.

Lemma reused_bridge_validates_witness :
  validate_isolation "pve1" isolated [bridge_row ""] = inr tt.
Proof. apply (reused_bridge_validates "pve1" isolated [bridge_row ""] (bridge_row "")); vm_compute; reflexivity. Defined.

Definition drills : BootstrapOptions := options "RestoreLabDrill" "restorelab" false.
Definition no_exchange : exchange := mkExchange (mkPveRequest MethodGet (Lit "") ∅) (inr None).
Definition nth_sent (n : nat) : exchange := nth n (sent drills) no_exchange.
Lemma nth_sent_in n : (n < length (sent drills))%nat -> nth_sent n ∈ sent drills.
Proof. intros Hn. apply list_elem_of_In. unfold nth_sent. by apply nth_In. Qed.

Lemma Bootstrap_scope_witness :
  Forall (fun p => p ∈ ReadOnlyPrivileges ++ sdnPrivileges) (splitPrivs (privsKey ReadOnlyPrivileges)).
Proof.
  apply (Bootstrap_scope drills admin (sent drills) (nth_sent 7) (nth_sent 1) "/vms" "RestoreLabRead" (privsKey ReadOnlyPrivileges)).
  - reflexivity.
  - left. discriminate.
  - apply nth_sent_in. apply (bool_decide_unpack _). vm_compute. exact I.
  - vm_compute. reflexivity.
  - apply nth_sent_in. apply (bool_decide_unpack _). vm_compute. exact I.
  - replace (ex_request (nth_sent 1)) with (mkPveRequest MethodPost (Lit "/access/roles") (role_form "RestoreLabRead" (privsKey ReadOnlyPrivileges)))
      by (vm_compute; reflexivity).
    constructor.
  - left. vm_compute. discriminate.
Defined.
End Provisioning.
