(* ===== verification/Confidence.v ===== *)
(** * The recovery confidence of a workload

    Models internal/report/confidence.go and the durations of format.go: the
    score of a workload, the reasons it gives, and the ceiling its proof level
    puts on it. The conversion of a float64 that no int can hold is left open by
    Go: it is the parameter [int_overflow]. *)

From Stdlib Require Import ZArith Lia String List.
From S2P Require Import Prelude GoTime GoFloat Core.

(** ** internal/report/format.go *)

(** [Duration.Seconds] and [Duration.Hours]. *)
Definition Seconds (d : Z) : float64 :=
  fadd (float_of_Z (Z.quot d Duration.Second))
    (fdiv (float_of_Z (Z.rem d Duration.Second)) (float_of_Z Duration.Second)).
Definition Hours (d : Z) : float64 :=
  fadd (float_of_Z (Z.quot d Duration.Hour)) (fdiv (float_of_Z (Z.rem d Duration.Hour)) (float_of_Z Duration.Hour)).

(** [FormatDuration]. *)
Definition FormatDuration (d : Z) : string :=
  let neg := if d <? 0 then "-" else "" in
  let d := if d <? 0 then Duration.wrap (- d) else d in
  if d =? 0 then "0s"
  else if d <? Duration.Millisecond then neg +:+ pretty (Z.quot d Duration.Microsecond) +:+ "µs"
  else if d <? Duration.Second then neg +:+ pretty (Duration.Milliseconds d) +:+ "ms"
  else if d <? Duration.Minute then neg +:+ format_fixed1 (Seconds d) +:+ "s"
  else if d <? Duration.Hour then
    neg +:+ pretty (Z.quot d Duration.Minute) +:+ "m" +:+
    pad_left 2 (pretty (Z.quot (Z.rem d Duration.Minute) Duration.Second)) +:+ "s"
  else
    neg +:+ pretty (Z.quot d Duration.Hour) +:+ "h" +:+
    pad_left 2 (pretty (Z.quot (Z.rem d Duration.Hour) Duration.Minute)) +:+ "m" +:+
    pad_left 2 (pretty (Z.quot (Z.rem d Duration.Minute) Duration.Second)) +:+ "s".

Example format_durations :
  map FormatDuration [0; 312 * Duration.Microsecond; 510 * Duration.Millisecond; 2100 * Duration.Millisecond;
    84 * Duration.Second; Duration.Hour + 2 * Duration.Minute + 3 * Duration.Second; -84 * Duration.Second]
  = ["0s"; "312µs"; "510ms"; "2.1s"; "1m24s"; "1h02m03s"; "-1m24s"].
Proof. vm_compute. reflexivity. Qed.

(** ** internal/report/confidence.go *)

(** [ConfidenceInput]. *)
Record ConfidenceInput := mkConfidenceInput {
  ci_LastRun : option RecoveryRun;
  ci_History : list (option RecoveryRun);
  ci_LatestBackupAt : Z;
  ci_Now : Z;
}.

(** [ConfidenceWeights]. *)
Record ConfidenceWeights := mkWeights {
  AgeGraceDays : float64;
  AgePerDayPenalty : float64;
  AgeMaxPenalty : Z;
  NoSuccessPenalty : Z;
  LastRunFailedPenalty : Z;
  LastRunDegradedPenalty : Z;
  RTOExceededPenalty : Z;
  CleanupFailedPenalty : Z;
  NoBackupPenalty : Z;
  BackupStaleAfter : Z;
  BackupStalePenalty : Z;
  FailureRateMaxPenalty : Z;
  ProofNoneCap : Z;
  ProofBootCap : Z;
  ProofServiceCap : Z;
}.

Definition DefaultWeights : ConfidenceWeights :=
  mkWeights (float_of_Z 7) (float_of_Z 2) 40 35 30 15 10 15 50 (48 * Duration.Hour) 20 30 40 60 85.

(** [ProofCap]: 0 is no ceiling. *)
Definition ProofCap (w : ConfidenceWeights) (level : ProofLevel) : Z :=
  match level with
  | ProofNone => ProofNoneCap w
  | ProofBoot => ProofBootCap w
  | ProofService => ProofServiceCap w
  | _ => 0
  end.

(** [Confidence]. *)
Record Confidence := mkConfidence {
  cf_Score : Z;
  cf_Reasons : list text;
  cf_Tested : bool;
  cf_Proof : ProofLevel;
}.

(** [provenLevel]: of the newest run that reached a verdict and recorded one. *)
Definition has_verdict (r : RecoveryRun) : bool := negb (bool_decide (run_Result r = ResultNone)).
Fixpoint first_level (runs : list (option RecoveryRun)) : ProofLevel :=
  match runs with
  | [] => ProofUnknown
  | Some r :: runs =>
    if has_verdict r && Recorded (run_ProofLevel r) then run_ProofLevel r else first_level runs
  | None :: runs => first_level runs
  end.
Definition provenLevel (c : ConfidenceInput) : ProofLevel := first_level (ci_LastRun c :: ci_History c).

(** [mostRecentSuccess]. *)
Definition succeeded (r : RecoveryRun) : bool := bool_decide (run_Result r = ResultSuccess).
Fixpoint first_success (runs : list (option RecoveryRun)) : option RecoveryRun :=
  match runs with
  | [] => None
  | Some r :: runs => if succeeded r then Some r else first_success runs
  | None :: runs => first_success runs
  end.
Definition mostRecentSuccess (c : ConfidenceInput) : option RecoveryRun := first_success (ci_LastRun c :: ci_History c).

(** The runs of the history that count, and those of them that failed. *)
Fixpoint tally (runs : list (option RecoveryRun)) : Z * Z :=
  match runs with
  | [] => (0, 0)
  | Some r :: runs =>
    let '(failed, counted) := tally runs in
    if has_verdict r then (if succeeded r then failed else failed + 1, counted + 1) else (failed, counted)
  | None :: runs => tally runs
  end.

Section Score.
Context (time_Now : Z) (int_overflow : float64 -> Z).

(** [int(math.Round(f))]: half away from zero. *)
Definition round_int (f : float64) : Z :=
  match f with
  | S754_zero _ => 0
  | S754_finite s m e =>
    let '(num, den) := ratio_of m e in
    let n := (2 * num + den) / (2 * den) in
    let n := if s then - n else n in
    if (Duration.minDuration <=? n) && (n <=? Duration.maxDuration) then n else int_overflow f
  | _ => int_overflow f
  end.

(** The score and its reasons so far. *)
Definition Graded : Type := Z * list text.
Definition penalise (penalty : Z) (reason : text) (g : Graded) : Graded :=
  if penalty <=? 0 then g
  else (Duration.wrap (g.1 - penalty), g.2 ++ [Sprintf "%s (-%d)" [AText reason; AInt penalty]]).

(** The penalties, in the order of [Score]. *)
Definition age_penalty (c : ConfidenceInput) (w : ConfidenceWeights) (now : Z) (g : Graded) : Graded :=
  match mostRecentSuccess c with
  | Some success =>
    let days := fdiv (Hours (Time.Sub now (run_CompletedAt success))) (float_of_Z 24) in
    let over := fsub days (AgeGraceDays w) in
    if fltb (S754_zero false) over then
      let penalty := round_int (fmul over (AgePerDayPenalty w)) in
      let penalty := if AgeMaxPenalty w <? penalty then AgeMaxPenalty w else penalty in
      penalise penalty (Sprintf "last successful test %d days ago" [AInt (round_int days)]) g
    else g
  | None => penalise (NoSuccessPenalty w) (Lit "no successful recovery test on record") g
  end.
Definition outcome_penalty (last : RecoveryRun) (w : ConfidenceWeights) (g : Graded) : Graded :=
  match run_Result last with
  | ResultFailed => penalise (LastRunFailedPenalty w) (Lit "last run failed") g
  | ResultDegraded => penalise (LastRunDegradedPenalty w) (Lit "last run degraded") g
  | _ => g
  end.
Definition rto_penalty (last : RecoveryRun) (w : ConfidenceWeights) (g : Graded) : Graded :=
  if has_verdict last && RTOExceeded last then
    penalise (RTOExceededPenalty w) (Sprintf "RTO exceeded (%s actual vs %s target)"
      [AStr (FormatDuration (run_RTO last)); AStr (FormatDuration (run_RTOTarget last))]) g
  else g.
Definition cleanup_penalty (last : RecoveryRun) (w : ConfidenceWeights) (g : Graded) : Graded :=
  if bool_decide (run_State last = RunCleanupFailed)
  then penalise (CleanupFailedPenalty w) (Lit "last run failed to clean up") g else g.
Definition backup_penalty (c : ConfidenceInput) (w : ConfidenceWeights) (now : Z) (g : Graded) : Graded :=
  if Time.IsZero (ci_LatestBackupAt c) then penalise (NoBackupPenalty w) (Lit "no backup available") g
  else
    let age := Time.Sub now (ci_LatestBackupAt c) in
    if BackupStaleAfter w <? age
    then penalise (BackupStalePenalty w) (Sprintf "latest backup is stale (%s old)" [AStr (FormatDuration age)]) g
    else g.
Definition rate_penalty (c : ConfidenceInput) (w : ConfidenceWeights) (g : Graded) : Graded :=
  let '(failed, counted) := tally (ci_History c) in
  if 0 <? counted then
    let rate := fdiv (float_of_Z failed) (float_of_Z counted) in
    let penalty := round_int (fmul rate (float_of_Z (FailureRateMaxPenalty w))) in
    penalise penalty (Sprintf "%.0f%% of the last %d runs did not fully succeed"
      [AFloat (fmul rate (float_of_Z 100)); AInt counted]) g
  else g.

Definition penalties (c : ConfidenceInput) (last : RecoveryRun) (w : ConfidenceWeights) : Graded :=
  let now := if Time.IsZero (ci_Now c) then time_Now else ci_Now c in
  rate_penalty c w (backup_penalty c w now (cleanup_penalty last w (rto_penalty last w
    (outcome_penalty last w (age_penalty c w now (100, [])))))).

(** [Score]. *)
Definition Score (c : ConfidenceInput) (w : ConfidenceWeights) : Confidence :=
  match ci_LastRun c with
  | None => mkConfidence 0 [Lit "never tested"] false ProofUnknown
  | Some last =>
    let '(score, reasons) := penalties c last w in
    let proof := provenLevel c in
    let ceiling := ProofCap w proof in
    let '(score, reasons) :=
      if (0 <? ceiling) && (ceiling <? score)
      then (ceiling, reasons ++ [Sprintf "%s (capped at %d)" [AStr (Describe proof); AInt ceiling]])
      else (score, reasons) in
    let score := if score <? 0 then 0 else score in
    let score := if 100 <? score then 100 else score in
    mkConfidence score reasons true proof
  end.
End Score.

(** The two last clamps. *)
Lemma clamp_spec s : (let s := if s <? 0 then 0 else s in if 100 <? s then 100 else s) = Z.max 0 (Z.min 100 s).
Proof. cbv zeta. destruct (Z.ltb_spec s 0); zcases; lia. Qed.

(** ** Runs without a verdict *)

(** What is left of a history without nil entries and verdict-less runs. *)
Definition decided (runs : list (option RecoveryRun)) : list (option RecoveryRun) :=
  List.filter (fun o => match o with Some r => has_verdict r | None => false end) runs.

Lemma success_has_verdict r : succeeded r = true -> has_verdict r = true.
Proof. unfold succeeded, has_verdict. rewrite bool_decide_eq_true. intros ->. done. Qed.

Lemma first_level_decided runs : first_level (decided runs) = first_level runs.
Proof. induction runs as [|[r|] runs IH]; [done| |done]. cbn. fold (decided runs).
  destruct (has_verdict r) eqn:E; cbn; [by rewrite E, IH | done]. Qed.
Lemma first_success_decided runs : first_success (decided runs) = first_success runs.
Proof.
  induction runs as [|[r|] runs IH]; [done| |done]. cbn. fold (decided runs).
  destruct (has_verdict r) eqn:E; cbn; [by rewrite IH|].
  destruct (succeeded r) eqn:Es; [|done]. apply success_has_verdict in Es. congruence.
Qed.
Lemma tally_decided runs : tally (decided runs) = tally runs.
Proof.
  induction runs as [|[r|] runs IH]; [done| |done]. cbn. fold (decided runs).
  destruct (has_verdict r) eqn:E; cbn; [by rewrite E, IH|].
  rewrite IH. by destruct (tally runs).
Qed.

(** ** The penalties add up *)


Definition render (p : text * Z) : text := Sprintf "%s (-%d)" [AText p.1; AInt p.2].
Definition total (ps : list (text * Z)) : Z := foldr (fun p n => p.2 + n) 0 ps.

(** A score and its reasons are those of the penalties [ps], all positive. *)
Definition graded (ps : list (text * Z)) (g : Graded) : Prop :=
  Forall (fun p => 0 < p.2) ps /\ g = (Duration.wrap (100 - total ps), map render ps).

Lemma total_app ps qs : total (ps ++ qs) = total ps + total qs.
Proof. unfold total. induction ps as [|p ps IH]; cbn [app foldr]; lia. Qed.
Lemma total_nonneg ps : Forall (fun p => 0 < p.2) ps -> 0 <= total ps.
Proof. induction 1 as [|p ps Hp _ IH]; [done|]. unfold total in *. cbn [foldr]. lia. Qed.
Lemma wrap_sub a b : Duration.wrap (Duration.wrap a - b) = Duration.wrap (a - b).
Proof.
  unfold Duration.wrap. replace ((a + 2 ^ 63) mod 2 ^ 64 - 2 ^ 63 - b + 2 ^ 63) with ((a + 2 ^ 63) mod 2 ^ 64 - b) by lia.
  rewrite Zminus_mod_idemp_l. do 2 f_equal. lia.
Qed.

(** More penalties, possibly none. *)
Definition grows (f : Graded -> Graded) : Prop := forall ps g, graded ps g -> exists qs, graded (ps ++ qs) (f g).

Lemma grows_id : grows (fun g => g).
Proof. intros ps g H. exists []. by rewrite app_nil_r. Qed.
Lemma grows_penalise p r : grows (penalise p r).
Proof.
  intros ps g [Hp ->]. unfold penalise. destruct (Z.leb_spec p 0); [apply grows_id; by split|].
  exists [(r, p)]. split; [apply Forall_app; by repeat constructor|]. cbn [fst snd]. rewrite wrap_sub, total_app, map_app.
  cbn. do 2 f_equal. lia.
Qed.
Lemma grows_comp f g : grows f -> grows g -> grows (fun x => g (f x)).
Proof.
  intros Hf Hg ps x Hx. destruct (Hf ps x Hx) as [qs H1]. destruct (Hg _ _ H1) as [rs H2].
  exists (qs ++ rs). by rewrite app_assoc.
Qed.
Ltac grows_auto := repeat case_match; first [apply grows_penalise | apply grows_id].

Section Facts.
Context (time_Now : Z) (int_overflow : float64 -> Z).

Lemma penalties_graded c last w : exists ps, graded ps (penalties time_Now int_overflow c last w).
Proof.
  unfold penalties. set (now := if Time.IsZero (ci_Now c) then time_Now else ci_Now c).
  assert (H : grows (fun g => rate_penalty int_overflow c w (backup_penalty c w now (cleanup_penalty last w
    (rto_penalty last w (outcome_penalty last w (age_penalty int_overflow c w now g))))))).
  { intros ps g Hg.
    assert (H1 : grows (age_penalty int_overflow c w now)) by (unfold age_penalty; grows_auto).
    assert (H2 : grows (outcome_penalty last w)) by (unfold outcome_penalty; grows_auto).
    assert (H3 : grows (rto_penalty last w)) by (unfold rto_penalty; grows_auto).
    assert (H4 : grows (cleanup_penalty last w)) by (unfold cleanup_penalty; grows_auto).
    assert (H5 : grows (backup_penalty c w now)) by (unfold backup_penalty; grows_auto).
    assert (H6 : grows (rate_penalty int_overflow c w)) by (unfold rate_penalty; grows_auto).
    exact (grows_comp _ _ (grows_comp _ _ (grows_comp _ _ (grows_comp _ _ (grows_comp _ _ H1 H2) H3) H4) H5) H6 ps g Hg). }
  destruct (H [] (100, [])) as [ps Hps]; [by split; [constructor|]|]. by exists ps.
Qed.

Lemma penalties_decided c last w :
  penalties time_Now int_overflow (mkConfidenceInput (ci_LastRun c) (decided (ci_History c)) (ci_LatestBackupAt c) (ci_Now c)) last w =
  penalties time_Now int_overflow c last w.
Proof.
  unfold penalties, rate_penalty, age_penalty, mostRecentSuccess. cbn. rewrite tally_decided.
  by destruct (ci_LastRun c) as [r|]; cbn; rewrite ?first_success_decided.
Qed.

(** The score is what its reasons say. A workload that was drilled scores a
    hundred less its penalties, each of them positive and named with its
    amount (in the arithmetic of an int), but never more than the ceiling of what its drills proved and always
    between 0 and 100; the ceiling is named when it bites, and a score without
    reasons is a perfect one. A workload never drilled has no score, and
    runs that reached no verdict change nothing of all this. *)
Theorem Score_explained c w :
  let answer := Score time_Now int_overflow c w in
  answer = Score time_Now int_overflow
    (mkConfidenceInput (ci_LastRun c) (decided (ci_History c)) (ci_LatestBackupAt c) (ci_Now c)) w /\
  match ci_LastRun c with
  | None => answer = mkConfidence 0 [Lit "never tested"] false ProofUnknown
  | Some last =>
    let ceiling := ProofCap w (provenLevel c) in
    cf_Tested answer = true /\ cf_Proof answer = provenLevel c /\ 0 <= cf_Score answer <= 100 /\
    (0 < ceiling -> cf_Score answer <= ceiling) /\ (cf_Reasons answer = [] -> cf_Score answer = 100) /\
    exists ps, Forall (fun p => 0 < p.2) ps /\
      let earned := Duration.wrap (100 - total ps) in
      let capped := (0 <? ceiling) && (ceiling <? earned) in
      cf_Score answer = Z.max 0 (Z.min 100 (if capped then ceiling else earned)) /\
      cf_Reasons answer = map render ps ++
        (if capped then [Sprintf "%s (capped at %d)" [AStr (Describe (provenLevel c)); AInt ceiling]] else [])
  end.
Proof.
  intros answer. split.
  - unfold answer, Score. cbn [ci_LastRun]. destruct (ci_LastRun c) as [last|] eqn:E; [|done].
    pose proof (penalties_decided c last w) as Hq. rewrite E in Hq. rewrite Hq.
    unfold provenLevel. cbn [ci_LastRun ci_History first_level]. by rewrite E, first_level_decided.
  - unfold answer, Score. destruct (ci_LastRun c) as [last|]; [|done]. cbv zeta.
    destruct (penalties_graded c last w) as (ps & Hps & ->). set (ceiling := ProofCap w (provenLevel c)).
    assert (Hnil : map render ps = [] -> Duration.wrap (100 - total ps) = 100) by (by destruct ps).
    destruct ((0 <? ceiling) && (ceiling <? Duration.wrap (100 - total ps))) eqn:Ec; cbn [cf_Score cf_Reasons cf_Tested cf_Proof];
      rewrite clamp_spec; (split_and!; [done|done|lia|lia|lia| |exists ps; split; [done|]; cbv zeta; rewrite Ec; split]); try done.
    + by destruct (map render ps).
    + intros E. by rewrite (Hnil E).
    + by rewrite app_nil_r.
Qed.
End Facts.

(** A drill a month old that only booted, with a fresh backup: the example of the
    comments, evaluated. *)
Definition booted : RecoveryRun :=
  {| run_ID := "r1"; run_PlanName := ""; run_PlanID := ""; run_PlanVersion := 0; run_ProviderID := "";
     run_BackupProviderID := ""; run_SourceWorkloadID := "101"; run_SourceName := ""; run_TempWorkloadID := "";
     run_TempName := ""; run_Node := ""; run_Backup := None; run_State := RunSuccess; run_Result := ResultSuccess;
     run_ProofLevel := ProofBoot; run_StartedAt := 1; run_CompletedAt := 738000 * Time.day_ns; run_Steps := [];
     run_Checks := []; run_RTO := 0; run_RTOTarget := 0; run_CleanupDone := true; run_Err := Lit "" |}.
Example confidence_boot :
  Score 0 (fun _ => 0) (mkConfidenceInput (Some booted) [] (738011 * Time.day_ns) (738012 * Time.day_ns)) DefaultWeights =
  mkConfidence 60 [Sprintf "%s (-%d)" [AText (Sprintf "last successful test %d days ago" [AInt 12]); AInt 10];
    Sprintf "%s (capped at %d)" [AStr (Describe ProofBoot); AInt 60]] true ProofBoot.
Proof. vm_compute. reflexivity. Qed.
