(* ===== verification/Story.v ===== *)
(** * What is worth telling about a drill

    Models internal/notify/story.go, collapse.go, channel.go and the three
    renderings (discord.go, slack.go, webhook.go): the decision to speak about a
    finished run, and the message. A body is the JSON document it encodes. *)

From Stdlib Require Import ZArith Lia String Ascii List.
From stdpp Require Import sorting strings.
From S2P Require Import Prelude GoTime GoFloat Core GoString GoFmt Checks Confidence.

(** ** story.go *)

Record Story := mkStory { so_Result : RunResult; so_ProofLevel : ProofLevel }.

Inductive Kind :=
| KindFirstVerdict | KindVerdict | KindProofDropped | KindUnevaluable | KindEvaluable | KindValueCollapsed.
Definition Kind_to_string (k : Kind) : string :=
  match k with
  | KindFirstVerdict => "first_verdict"
  | KindVerdict => "verdict_changed"
  | KindProofDropped => "proof_dropped"
  | KindUnevaluable => "became_unevaluable"
  | KindEvaluable => "became_evaluable_again"
  | KindValueCollapsed => "value_collapsed"
  end.
#[export] Instance Kind_eq_dec : EqDecision Kind.
Proof. solve_decision. Defined.

Definition RunResult_to_string (r : RunResult) : string :=
  match r with
  | ResultNone => ""
  | ResultSuccess => "SUCCESS"
  | ResultDegraded => "DEGRADED"
  | ResultFailed => "FAILED"
  end.

Record Transition := mkTransition {
  tr_Kind : Kind;
  tr_Current : Story;
  tr_Previous : option Story;
  tr_Headline : text;
}.

(** [Decide]. *)
Definition Decide (state : RunState) (current : Story) (previous : option Story) (previousUnevaluable : bool) :
    option Transition :=
  let say kind headline := Some (mkTransition kind current previous headline) in
  let result := AStr (RunResult_to_string (so_Result current)) in
  if negb (Terminal state) then None else
  if bool_decide (state = RunCancelled) then None else
  if bool_decide (state = RunInconclusive) then
    if previousUnevaluable then None else
    match previous with
    | None => say KindUnevaluable (Lit "first drill could not be evaluated")
    | Some p => say KindUnevaluable (Sprintf "no longer evaluable, was %s" [AStr (RunResult_to_string (so_Result p))])
    end
  else
  match previous with
  | None => say KindFirstVerdict (Sprintf "first verdict: %s" [result])
  | Some p =>
    if negb (bool_decide (so_Result current = so_Result p)) then
      say KindVerdict (Sprintf "%s, was %s" [result; AStr (RunResult_to_string (so_Result p))])
    else if previousUnevaluable then say KindEvaluable (Sprintf "evaluable again: %s" [result])
    else if Recorded (so_ProofLevel current) && Recorded (so_ProofLevel p) &&
            (Rank (so_ProofLevel current) <? Rank (so_ProofLevel p)) then
      say KindProofDropped (Sprintf "proof dropped from %s to %s"
        [AStr (ProofLevel_String (so_ProofLevel p)); AStr (ProofLevel_String (so_ProofLevel current))])
    else None
  end.

(** ** collapse.go *)

Abbreviation Values := (gmap string float64).

(** [collapsed]: the first value, by name, at zero from a positive reading. *)
Definition zero_names (values : Values) : list string :=
  merge_sort String.le (map fst (List.filter (fun x => feqb x.2 (S754_zero false)) (map_to_list values))).
Definition fell (earlier : Values) (name : string) : option (string * float64) :=
  match earlier !! name with
  | Some was => if fltb (S754_zero false) was then Some (name, was) else None
  | None => None
  end.
Definition collapsed (values earlier : Values) : option (string * float64) :=
  head (omap (fell earlier) (zero_names values)).

Definition formatValue (v : float64) : string := format_shortest v.

(** [DecideCollapse]. *)
Definition DecideCollapse (state : RunState) (current : Story) (previous : option Story) (values earlier : Values) :
    option Transition :=
  if negb (Terminal state) || bool_decide (so_Result current = ResultNone) then None else
  match collapsed values earlier with
  | None => None
  | Some (name, was) =>
    Some (mkTransition KindValueCollapsed current previous
            (Sprintf "%s fell to zero, was %s" [AStr name; AStr (formatValue was)]))
  end.

(** [Zeroed]. *)
Definition Zeroed (values : Values) : bool := existsb (fun x => feqb x.2 (S754_zero false)) (map_to_list values).

(** [valuesByName]: what a run measured, by capture name; a name two checks
    share is dropped. The source walks a map, in any order. *)
Fixpoint flatten (entries : list ((Z * string) * float64)) (out : Values) (ambiguous : gset string) : Values * gset string :=
  match entries with
  | [] => (out, ambiguous)
  | ((_, name), v) :: entries =>
    match out !! name with
    | Some _ => flatten entries out ({[name]} ∪ ambiguous)
    | None => flatten entries (<[name := v]> out) ambiguous
    end
  end.
Definition by_name (entries : list ((Z * string) * float64)) : Values :=
  let '(out, ambiguous) := flatten entries ∅ ∅ in
  base.filter (fun x => x.1 ∉ ambiguous) out.
Definition valuesByName (byCheck : gmap (Z * string) float64) : Values := by_name (map_to_list byCheck).

(** ** channel.go and the renderings *)

(** [Message]. *)
Record Message := mkMessage {
  ms_Workload : string;
  ms_WorkloadID : string;
  ms_PlanName : string;
  ms_RunID : string;
  ms_Link : string;
  ms_At : Z;
  ms_Transition : Transition;
  ms_RTO : Z;
}.

(** A JSON document. *)
Inductive json :=
| JText (t : text)
| JNull
| JInt (z : Z)
| JFloat (f : float64)
| JBool (b : bool)
| JArray (l : list json)
| JObject (fields : list (string * json)).
Definition JStr (s : string) : json := JText (Lit s).
(** A field that is omitted when empty. *)
Definition omitempty (name value : string) : list (string * json) :=
  if nonempty value then [(name, JStr value)] else [].

Definition title (m : Message) : text :=
  Sprintf "%s%s%s" [AStr (ms_Workload m); AStr ": "; AText (tr_Headline (ms_Transition m))].
Definition proofText (m : Message) : string := ProofLevel_String (so_ProofLevel (tr_Current (ms_Transition m))).
Definition rtoText (m : Message) : string :=
  if ms_RTO m <=? 0 then "--" else
  let d := Duration.Round (ms_RTO m) Duration.Second in
  if d =? 0 then "0s" else Duration_String d.

Example rto_text : map (fun d => Duration_String d) [3 * Duration.Second; 84 * Duration.Second; 3723 * Duration.Second]
  = ["3s"; "1m24s"; "1h2m3s"].
Proof. reflexivity. Qed.

(** discord.go. *)
Definition verdictColour (r : RunResult) : Z :=
  match r with
  | ResultSuccess => 0x2ea043 | ResultDegraded => 0xd29922 | ResultFailed => 0xda3633 | ResultNone => 0x8b949e
  end.
Definition embedColour (t : Transition) : Z :=
  if bool_decide (tr_Kind t = KindValueCollapsed) then 0xd29922 else verdictColour (so_Result (tr_Current t)).
Definition embed_field (name : string) (value : json) : json :=
  JObject [("name", JStr name); ("value", value); ("inline", JBool true)].
Definition render_discord (m : Message) : json :=
  let t := ms_Transition m in
  JObject [("embeds", JArray [JObject (
    [("title", JStr (ms_Workload m))] ++ omitempty "url" (ms_Link m) ++
    [("description", JText (tr_Headline t)); ("color", JInt (embedColour t));
     ("timestamp", JStr (Time.format_rfc3339 (ms_At m)));
     ("fields", JArray (
        [embed_field "Plan" (JStr (ms_PlanName m)); embed_field "Proof" (JStr (proofText m));
         embed_field "Recovery time" (JStr (rtoText m))] ++
        match tr_Previous t with
        | Some p => [embed_field "Previously" (JStr (RunResult_to_string (so_Result p) +:+ " at " +:+ ProofLevel_String (so_ProofLevel p)))]
        | None => []
        end));
     ("footer", JObject [("text", JStr ("run " +:+ ms_RunID m))])])])].

(** slack.go. *)
Definition newline : string := String "010" EmptyString.
Definition slack_text (type value : string) : json := JObject [("type", JStr type); ("text", JStr value)].
Definition render_slack (m : Message) : json :=
  let t := ms_Transition m in
  JObject [("text", JText (title m)); ("blocks", JArray (
    [JObject [("type", JStr "header"); ("text", slack_text "plain_text" (ms_Workload m))];
     JObject [("type", JStr "section"); ("text", JObject [("type", JStr "plain_text"); ("text", JText (tr_Headline t))])];
     JObject [("type", JStr "section"); ("fields", JArray (map (slack_text "mrkdwn")
       ["*Plan*" +:+ newline +:+ ms_PlanName m; "*Proof*" +:+ newline +:+ proofText m; "*Recovery time*" +:+ newline +:+ rtoText m;
        "*Run*" +:+ newline +:+ ms_RunID m]))]] ++
    (if nonempty (ms_Link m) then
       [JObject [("type", JStr "actions"); ("elements", JArray [JObject [("type", JStr "button");
          ("text", slack_text "plain_text" "Open in RestoreLab"); ("url", JStr (ms_Link m))]])]]
     else [])))].

(** webhook.go. *)
Definition webhook_story (s : Story) : json :=
  JObject [("result", JStr (RunResult_to_string (so_Result s))); ("proof_level", JStr (ProofLevel_to_string (so_ProofLevel s)))].
Definition render_webhook (m : Message) : json :=
  let t := ms_Transition m in
  JObject ([("schema", JStr "restorelab.notification.v1"); ("kind", JStr (Kind_to_string (tr_Kind t)));
    ("headline", JText (tr_Headline t)); ("at", JStr (Time.format_rfc3339 (ms_At m)));
    ("workload", JObject [("id", JStr (ms_WorkloadID m)); ("name", JStr (ms_Workload m))]);
    ("plan", JStr (ms_PlanName m));
    ("run", JObject ([("id", JStr (ms_RunID m))] ++ omitempty "link" (ms_Link m) ++
       (if Duration.Milliseconds (ms_RTO m) =? 0 then [] else [("rto_ms", JInt (Duration.Milliseconds (ms_RTO m)))])));
    ("current", webhook_story (tr_Current t))] ++
    match tr_Previous t with Some p => [("previous", webhook_story p)] | None => [] end).

(** [ChannelFor]: the rendering of a configured kind. *)
Definition ChannelFor (kind : string) : option (Message -> json) :=
  if bool_decide (kind = "discord") then Some render_discord
  else if bool_decide (kind = "slack") then Some render_slack
  else if bool_decide (kind = "webhook") then Some render_webhook
  else None.

(** ** What is compared, and when a collapse is announced *)

(** What the checks measured under a name, in the order of the walk. *)
Definition named (name : string) (l : list ((Z * string) * float64)) : list float64 :=
  omap (fun x => if bool_decide (x.1.2 = name) then Some x.2 else None) l.

Lemma named_cons name c n v l :
  named name (((c, n), v) :: l) = (if bool_decide (n = name) then [v] else []) ++ named name l.
Proof. unfold named. cbn. by case_bool_decide. Qed.

(** The invariant of the walk: the first value of each name, and the names met twice. *)
Lemma flatten_spec l out amb name :
  let '(out', amb') := flatten l out amb in
  out' !! name = match out !! name with Some v => Some v | None => head (named name l) end /\
  (name ∈ amb' <-> name ∈ amb \/ match out !! name with
                                | Some _ => named name l <> []
                                | None => (2 <= length (named name l))%nat
                                end).
Proof.
  revert out amb. induction l as [|[[c n] v] l IH]; intros out amb.
  - cbn. destruct (out !! name); (split; [done|]); cbn; intuition (done || lia).
  - cbn [flatten]. destruct (out !! n) as [w|] eqn:En.
    + specialize (IH out ({[n]} ∪ amb)). destruct (flatten l out ({[n]} ∪ amb)) as [out' amb']. destruct IH as [-> ->].
      rewrite named_cons. case_bool_decide as Hn.
      * subst n. rewrite En. split; [done|]. cbn. set_solver.
      * split; [done|]. cbn [app]. set_solver.
    + specialize (IH (<[n := v]> out) amb). destruct (flatten l _ amb) as [out' amb']. destruct IH as [-> ->].
      rewrite named_cons. case_bool_decide as Hn.
      * subst n. rewrite lookup_insert_eq, En. split; [done|]. cbn. destruct (named name l); cbn; intuition (done || lia).
      * by rewrite lookup_insert_ne.
Qed.

Lemma by_name_lookup l name v : by_name l !! name = Some v <-> named name l = [v].
Proof.
  unfold by_name. pose proof (flatten_spec l ∅ ∅ name) as Hf. destruct (flatten l ∅ ∅) as [out amb].
  rewrite lookup_empty in Hf. destruct Hf as [Ho Ha]. rewrite map_lookup_filter_Some, Ho, Ha. cbn.
  destruct (named name l) as [|v1 [|v2 r]]; cbn; (split; [intros [Hx Hn]|intros Hx]); try discriminate Hx.
  - apply (inj Some) in Hx. by rewrite Hx.
  - assert (v1 = v) as -> by exact (f_equal (hd v) Hx). split; [done|]. intros [?|?]; [set_solver|lia].
  - destruct Hn. right. lia.
Qed.

Lemma named_once name l v :
  NoDup l.*1 ->
  named name l = [v] <-> exists c, ((c, name), v) ∈ l /\ forall c' v', ((c', name), v') ∈ l -> c' = c.
Proof.
  induction l as [|[[c n] w] l IH]; intros Hnd; [cbn; split; [done|]; intros (c & Hc & _); by apply elem_of_nil in Hc|].
  cbn in Hnd. apply NoDup_cons in Hnd as [Hn Hnd]. specialize (IH Hnd). rewrite named_cons.
  assert (named name l = [] <-> forall c' v', ((c', name), v') ∉ l) as Hnil.
  { clear. induction l as [|[[c n] w] l IH]; [cbn; split; [intros _ c' v'; apply not_elem_of_nil|done]|]. rewrite named_cons.
    case_bool_decide as E; cbn.
    - split; [done|]. intros Hf. exfalso. apply (Hf c w). subst. by left.
    - rewrite IH. setoid_rewrite elem_of_cons. split; intros Hf c' v'; [|by specialize (Hf c' v'); naive_solver].
      intros [[= -> -> ->]|Hin]; [done|by eapply Hf]. }
  case_bool_decide as E; cbn.
  - subst n. split.
    + intros [= -> Hl]. rewrite Hnil in Hl. exists c. split; [by left|]. intros c' v'. rewrite elem_of_cons.
      intros [[= -> ->]|Hin]; [done|by apply Hl in Hin].
    + intros (c1 & Hin & Hu). assert (c1 = c) as -> by (symmetry; eapply Hu; left).
      apply elem_of_cons in Hin as [[= ->]|Hin].
      * f_equal. apply Hnil. intros c' v' Hin. assert (c' = c) as -> by (eapply Hu; by right).
        apply Hn. apply list_elem_of_fmap. by exists (c, name, v').
      * exfalso. apply Hn. apply list_elem_of_fmap. by exists (c, name, v).
  - rewrite IH. setoid_rewrite elem_of_cons. split.
    + intros (c1 & Hin & Hu). exists c1. split; [by right|]. intros c' v' [[= -> -> ->]|Hx]; [done|by eapply Hu].
    + intros (c1 & Hin & Hu). exists c1. split; [by destruct Hin as [[= -> -> ->]|?]|]. intros c' v' Hx. eapply Hu. by right.
Qed.

(** What one check, and one only, measured under a name. *)
Definition alone (byCheck : gmap (Z * string) float64) (name : string) (v : float64) : Prop :=
  exists c, byCheck !! (c, name) = Some v /\ forall c' v', byCheck !! (c', name) = Some v' -> c' = c.

(** [valuesByName] does not depend on the order the checks are walked in. *)
Lemma valuesByName_spec byCheck name v : valuesByName byCheck !! name = Some v <-> alone byCheck name v.
Proof.
  unfold valuesByName. rewrite by_name_lookup, named_once by apply NoDup_fst_map_to_list.
  by setoid_rewrite elem_of_map_to_list.
Qed.

(** A value that fell: zero now, positive before. *)
Definition fallen (values earlier : Values) (name : string) (was : float64) : Prop :=
  (exists v, values !! name = Some v /\ feqb v (S754_zero false) = true) /\
  earlier !! name = Some was /\ fltb (S754_zero false) was = true.

Lemma elem_zero_names values name :
  name ∈ zero_names values <-> exists v, values !! name = Some v /\ feqb v (S754_zero false) = true.
Proof.
  unfold zero_names. rewrite merge_sort_Permutation, list_elem_of_In, in_map_iff. setoid_rewrite filter_In.
  setoid_rewrite <- list_elem_of_In. split.
  - intros ([n v] & <- & Hin & E). apply elem_of_map_to_list in Hin. eauto.
  - intros (v & Hv & E). exists (name, v). by rewrite elem_of_map_to_list.
Qed.

Lemma fell_Some earlier name n was : fell earlier name = Some (n, was) <-> n = name /\ earlier !! name = Some was /\ fltb (S754_zero false) was = true.
Proof.
  unfold fell. destruct (earlier !! name) as [w|]; [|split; [done|by intros (_ & ? & _)]].
  destruct (fltb _ w) eqn:E; split; [intros Hx|intros (-> & Hx & _)|done|intros (_ & Hx & Hw)].
  - apply (inj Some) in Hx. by injection Hx as -> ->.
  - apply (inj Some) in Hx. by rewrite Hx.
  - apply (inj Some) in Hx. congruence.
Qed.

Lemma head_omap_sorted {A B} (R : relation A) (f : A -> option B) l :
  StronglySorted R l ->
  match head (omap f l) with
  | Some y => exists x, x ∈ l /\ f x = Some y /\ forall x', x' ∈ l -> is_Some (f x') -> x' = x \/ R x x'
  | None => forall x, x ∈ l -> f x = None
  end.
Proof.
  induction 1 as [|x l Hs IH Hx]; cbn; [intros x Hin; by apply elem_of_nil in Hin|].
  destruct (f x) as [y|] eqn:E; cbn.
  - exists x. split_and!; [by left|done|]. intros x' Hin _. apply elem_of_cons in Hin as [->|Hin]; [by left|right].
    rewrite Forall_forall in Hx. by apply Hx.
  - destruct (head (omap f l)) as [y|].
    + destruct IH as (x1 & Hin & Ef & Hm). exists x1. split_and!; [by right|done|].
      intros x' Hx' Hsome. apply elem_of_cons in Hx' as [->|Hx']; [|by apply Hm]. rewrite E in Hsome. by destruct Hsome.
    + intros x' Hx'. apply elem_of_cons in Hx' as [->|Hx']; [done|by apply IH].
Qed.

(** [collapsed] names the first value that fell, in the order of the names, and
    none when none did. *)
Lemma collapsed_spec values earlier :
  match collapsed values earlier with
  | Some (name, was) => fallen values earlier name was /\
      forall name' was', fallen values earlier name' was' -> String.le name name'
  | None => forall name was, ~ fallen values earlier name was
  end.
Proof.
  unfold collapsed. pose proof (head_omap_sorted String.le (fell earlier) (zero_names values)
    ltac:(apply StronglySorted_merge_sort; apply _)) as Hh.
  destruct (head _) as [[name was]|].
  - destruct Hh as (x & Hin & Ef & Hm). apply fell_Some in Ef as (-> & Ee & Ez). apply elem_zero_names in Hin.
    split; [done|]. intros name' was' (Hz & He & Hp). apply elem_zero_names in Hz.
    destruct (Hm name' Hz) as [->|?]; [|done..]. eexists. by apply fell_Some.
  - intros name was (Hz & He & Hp). apply elem_zero_names, Hh in Hz.
    assert (fell earlier name = Some (name, was)) as E by by apply fell_Some. congruence.
Qed.

(** The same, on what the checks of the two runs measured. *)
Definition fallen_between (now before : gmap (Z * string) float64) (name : string) (was : float64) : Prop :=
  (exists v, alone now name v /\ feqb v (S754_zero false) = true) /\
  alone before name was /\ fltb (S754_zero false) was = true.
Lemma fallen_between_spec now before name was :
  fallen_between now before name was <-> fallen (valuesByName now) (valuesByName before) name was.
Proof. unfold fallen_between, fallen. setoid_rewrite valuesByName_spec. done. Qed.

(** A fall to zero is announced exactly when there is one, and whatever the
    order anything is walked in. For a finished run with a verdict, the message
    names a value that one check alone measured in each of the two runs, zero in
    the later and positive in the earlier one, the first of those by its name;
    and nothing is said only when no name is like that. *)
Theorem collapse_announced state current previous now before :
  Terminal state = true -> so_Result current <> ResultNone ->
  match DecideCollapse state current previous (valuesByName now) (valuesByName before) with
  | Some t => exists name was,
      t = mkTransition KindValueCollapsed current previous (Sprintf "%s fell to zero, was %s" [AStr name; AStr (formatValue was)]) /\
      fallen_between now before name was /\
      forall name' was', fallen_between now before name' was' -> String.le name name'
  | None => forall name was, ~ fallen_between now before name was
  end.
Proof.
  intros Ht Hr. unfold DecideCollapse. rewrite Ht, (bool_decide_false _ Hr). cbn [negb orb].
  pose proof (collapsed_spec (valuesByName now) (valuesByName before)) as Hc.
  destruct (collapsed _ _) as [[name was]|].
  - exists name, was. setoid_rewrite fallen_between_spec. by destruct Hc.
  - intros name was. rewrite fallen_between_spec. apply Hc.
Qed.

Definition five : float64 := float_of_Z 5.
Definition no_rows : float64 := S754_zero false.
Lemma collapse_announced_witness :
  let now := {[ (0, "rows") := no_rows; (1, "users") := no_rows; (2, "users") := five; (3, "bytes") := no_rows ]} in
  let before := {[ (0, "rows") := five; (1, "users") := five; (3, "bytes") := five ]} in
  let current := mkStory ResultSuccess ProofData in
  (tr_Headline <$> DecideCollapse RunSuccess current (Some current) (valuesByName now) (valuesByName before)) =
    Some (Sprintf "%s fell to zero, was %s" [AStr "bytes"; AStr "5"]) /\
  exists name was, fallen_between now before name was.
Proof.
  intros now before current. split; [vm_compute; reflexivity|].
  pose proof (collapse_announced RunSuccess current (Some current) now before eq_refl ltac:(done)) as Ht.
  destruct (DecideCollapse _ _ _ _ _) as [t|] eqn:E.
  - destruct Ht as (name & was & _ & Hf & _). exists name, was. exact Hf.
  - exfalso. revert E. vm_compute. discriminate.
Defined.

(** * The document of a run

    Models internal/report/json.go, values.go and the sizes of format.go: the JSON
    document that describes a run, and the numbers a drill measured beside what they
    were judged against. [json_time] renders an instant the way encoding/json
    does. *)

(** An instant as encoding/json renders one in UTC: RFC 3339, the fraction
    without its trailing zeros. *)
Definition json_time (t : Z) : json :=
  let frac := Time.NanosecondOf t in
  JStr (TrimSuffix (Time.format_rfc3339 t) "Z" +:+ (if frac =? 0 then "" else "." +:+ trim_zeros (Time.pad 9 frac)) +:+ "Z").
(** A text field that is omitted when empty. *)
Definition omit_text (name : string) (value : text) : list (string * json) :=
  if text_empty value then [] else [(name, JText value)].
Definition omit_zero (name : string) (value : Z) : list (string * json) :=
  if value =? 0 then [] else [(name, JInt value)].

(** The texts of the outcomes. *)
Definition VerificationState_to_string (v : VerificationState) : string :=
  match v with VerificationOK => "ok" | VerificationFailed => "failed" | VerificationNone => "none" | VerificationUnknown => "unknown" end.
Definition StepStatus_to_string (s : StepStatus) : string :=
  match s with
  | StepStatusEmpty => "" | StepPending => "pending" | StepRunning => "running" | StepDone => "done"
  | StepFailed => "failed" | StepSkipped => "skipped"
  end.
Definition CheckStatus_to_string (s : CheckStatus) : string :=
  match s with CheckPass => "pass" | CheckFail => "fail" | CheckError => "error" | CheckSkipped => "skipped" end.

(** ** Sizes (format.go) *)

(** [FormatBytes]: the loop divides at most five times. *)
Fixpoint unit_of (fuel : nat) (n div : Z) (exp : nat) : Z * nat :=
  match fuel with
  | O => (div, exp)
  | S fuel => if 1024 <=? Z.quot n div then unit_of fuel n (div * 1024) (S exp) else (div, exp)
  end.
Definition binary_units : list string := ["KiB"; "MiB"; "GiB"; "TiB"; "PiB"; "EiB"].
Definition FormatBytes (n : Z) : string :=
  let neg := if n <? 0 then "-" else "" in
  let n := if n <? 0 then Duration.wrap (- n) else n in
  if n <? 1024 then neg +:+ pretty n +:+ " B" else
  let '(div, exp) := unit_of 5 n 1024 0 in
  neg +:+ format_fixed1 (fdiv (float_of_Z n) (float_of_Z div)) +:+ " " +:+ default "" (binary_units !! exp).

Example format_bytes : map FormatBytes [0; 1023; 1536; 3 * 1024 * 1024; 2 ^ 62] = ["0 B"; "1023 B"; "1.5 KiB"; "3.0 MiB"; "4.0 EiB"].
Proof. vm_compute. reflexivity. Qed.

(** ** What was measured (values.go) *)

Definition NoValue : string := "--".
Record CapturedValue := mkCapturedValue { cv_Name : string; cv_Value : float64; cv_Baseline : option float64 }.

(** [FormatValue], [FormatBaseline], [valueLine] and [valueLines]. *)
Definition FormatValue (v : float64) : string := format_shortest v.
Definition FormatBaseline (baseline : option float64) : string := match baseline with None => NoValue | Some b => FormatValue b end.
Definition valueLine (v : CapturedValue) : string :=
  cv_Name v +:+ ": " +:+ FormatValue (cv_Value v) +:+ " (baseline " +:+ FormatBaseline (cv_Baseline v) +:+ ")".
Definition valueLines (values : list CapturedValue) : list string := map valueLine values.

(** [numberMap]: what is not a map of numbers holds none. *)
Abbreviation Numbers := (gmap string float64).
Definition numberMap (d : option detail) : Numbers := match d with Some (DNumbers m) => m | _ => ∅ end.
(** [sort.Strings] of the keys. *)
Definition sorted_keys {A} (m : gmap string A) : list string := merge_sort String.le (map fst (map_to_list m)).
(** [capturedValues]. *)
Definition capturedValues (details : gmap string detail) : list CapturedValue :=
  let captured := numberMap (details !! DetailCaptured) in
  let baseline := numberMap (details !! DetailBaseline) in
  omap (fun name => v ← captured !! name; Some (mkCapturedValue name v (baseline !! name))) (sorted_keys captured).

(** ** The document (json.go) *)

Definition SchemaVersion : string := "restorelab.recovery-run/v1".

(** [NewBackupDTOAt]: [now] is read when the instant is zero. *)
Definition NewBackupDTOAt (b : option Backup) (at_ now : Z) : json :=
  match b with
  | None => JNull
  | Some b =>
    let age := Time.Sub (if Time.IsZero at_ then now else at_) (bk_CreatedAt b) in
    JObject ([("id", JStr (bk_ID b)); ("workload_id", JStr (bk_WorkloadID b))]
      ++ omitempty "provider_id" (bk_ProviderID b) ++ omitempty "datastore" (bk_Datastore b) ++ omitempty "node" (bk_Node b)
      ++ [("created_at", json_time (bk_CreatedAt b)); ("age_seconds", JFloat (Seconds age)); ("age", JStr (FormatDuration age));
          ("size_bytes", JInt (bk_SizeBytes b)); ("size", JStr (FormatBytes (bk_SizeBytes b)));
          ("protected", JBool (bk_Protected b)); ("encrypted", JBool (bk_Encrypted b));
          ("verified", JStr (VerificationState_to_string (bk_Verified b)))]
      ++ omitempty "format" (bk_Format b) ++ omitempty "notes" (bk_Notes b))
  end.

(** [toStepDTO]. *)
Definition toStepDTO (s : Step) : json :=
  JObject ([("name", JStr (st_Name s)); ("state", JStr (RunState_to_string (st_State s)));
    ("status", JStr (StepStatus_to_string (st_Status s)));
    ("started_at", json_time (st_StartedAt s)); ("completed_at", json_time (st_CompletedAt s));
    ("duration_seconds", JFloat (Seconds (st_Duration s))); ("duration", JStr (FormatDuration (st_Duration s)))]
    ++ omit_text "message" (st_Message s) ++ omit_text "error" (st_Err s)).

(** The details of a check, with their keys sorted. *)
Definition numbers_json (m : Numbers) : json :=
  JObject (omap (fun k => v ← m !! k; Some (k, JFloat v)) (sorted_keys m)).
Definition detail_json (d : detail) : json := match d with DNumbers m => numbers_json m | DOther t => JText t end.
Definition details_json (details : gmap string detail) : list (string * json) :=
  if bool_decide (details = ∅) then [] else
  [("details", JObject (omap (fun k => d ← details !! k; Some (k, detail_json d)) (sorted_keys details)))].
Definition value_json (v : CapturedValue) : json :=
  JObject [("name", JStr (cv_Name v)); ("value", JFloat (cv_Value v));
           ("baseline", match cv_Baseline v with Some b => JFloat b | None => JNull end)].
Definition values_json (values : list CapturedValue) : list (string * json) :=
  match values with [] => [] | _ => [("values", JArray (map value_json values))] end.
(** [NewCheckDTO]. *)
Definition NewCheckDTO (c : CheckResult) : json :=
  JObject ([("name", JStr (cr_Name c)); ("type", JStr (cr_Type c)); ("status", JStr (CheckStatus_to_string (cr_Status c)));
    ("pass", JBool (OK c)); ("started_at", json_time (cr_StartedAt c)); ("completed_at", json_time (cr_CompletedAt c));
    ("duration_seconds", JFloat (Seconds (cr_Duration c))); ("duration", JStr (FormatDuration (cr_Duration c)));
    ("attempts", JInt (cr_Attempts c))]
    ++ omit_text "message" (cr_Message c) ++ details_json (cr_Details c) ++ values_json (capturedValues (cr_Details c))).

(** [NewDocument]. *)
Definition target_json (target : Z) : list (string * json) :=
  if 0 <? target then [("rto_target_seconds", JFloat (Seconds target)); ("rto_target", JStr (FormatDuration target))] else [].
Definition NewDocument (run : RecoveryRun) (now : Z) : json :=
  JObject ([("schema", JStr SchemaVersion); ("run_id", JStr (run_ID run)); ("plan_name", JStr (run_PlanName run))]
    ++ omitempty "plan_id" (run_PlanID run) ++ omit_zero "plan_version" (run_PlanVersion run)
    ++ omitempty "provider_id" (run_ProviderID run) ++ omitempty "backup_provider_id" (run_BackupProviderID run)
    ++ [("source_workload_id", JStr (run_SourceWorkloadID run)); ("source_name", JStr (run_SourceName run))]
    ++ omitempty "temp_workload_id" (run_TempWorkloadID run) ++ omitempty "temp_name" (run_TempName run) ++ omitempty "node" (run_Node run)
    ++ [("backup", NewBackupDTOAt (run_Backup run) (run_StartedAt run) now);
        ("state", JStr (RunState_to_string (run_State run))); ("result", JStr (RunResult_to_string (run_Result run)));
        ("started_at", json_time (run_StartedAt run)); ("completed_at", json_time (run_CompletedAt run));
        ("steps", JArray (map toStepDTO (run_Steps run))); ("checks", JArray (map NewCheckDTO (run_Checks run)));
        ("rto_seconds", JFloat (Seconds (run_RTO run))); ("rto", JStr (FormatDuration (run_RTO run)))]
    ++ target_json (run_RTOTarget run)
    ++ [("rto_exceeded", JBool (RTOExceeded run)); ("cleanup_done", JBool (run_CleanupDone run))]
    ++ omit_text "error" (run_Err run) ++ omitempty "proof_level" (ProofLevel_to_string (run_ProofLevel run))).

(** ** What the document says of the measures *)

Lemma elem_sorted_keys {A} (m : gmap string A) k : k ∈ sorted_keys m <-> is_Some (m !! k).
Proof.
  unfold sorted_keys. rewrite (merge_sort_Permutation String.le). rewrite <- (elem_of_dom (D := gset string)).
  split.
  - intros ([i v] & -> & Hin)%list_elem_of_fmap. apply elem_of_map_to_list in Hin. by apply elem_of_dom_2 in Hin.
  - intros [v Hv]%elem_of_dom. apply list_elem_of_fmap. exists (k, v). split; [done|]. by apply elem_of_map_to_list.
Qed.
Lemma sorted_keys_NoDup {A} (m : gmap string A) : NoDup (sorted_keys m).
Proof. unfold sorted_keys. rewrite (merge_sort_Permutation String.le). apply NoDup_fst_map_to_list. Qed.

(** Every number that was captured is there once, under its name, beside the
    baseline recorded under that name. *)
Lemma capturedValues_spec details :
  NoDup (map cv_Name (capturedValues details)) /\
  forall name v b, mkCapturedValue name v b ∈ capturedValues details <->
    numberMap (details !! DetailCaptured) !! name = Some v /\ numberMap (details !! DetailBaseline) !! name = b.
Proof.
  unfold capturedValues. set (m := numberMap (details !! DetailCaptured)). set (bs := numberMap (details !! DetailBaseline)). split.
  - assert (forall l, NoDup l -> NoDup (map cv_Name (omap (fun name => v ← m !! name; Some (mkCapturedValue name v (bs !! name))) l)) /\
      forall x, x ∈ map cv_Name (omap (fun name => v ← m !! name; Some (mkCapturedValue name v (bs !! name))) l) -> x ∈ l) as H.
    { induction l as [|k l IH]; [intros _; split; [constructor|by intros ? ?%elem_of_nil]|].
      rewrite NoDup_cons. intros [Hk Hl]. destruct (IH Hl) as [Hn Hin]. cbn. destruct (m !! k) as [v|]; cbn.
      - split; [constructor; [by intros ?%Hin|done]|]. intros x [->|Hx]%elem_of_cons; [by left|right; by apply Hin].
      - split; [done|]. intros x Hx. right. by apply Hin. }
    apply H, sorted_keys_NoDup.
  - intros name v b. rewrite list_elem_of_omap. split.
    + intros (k & Hk & E). destruct (m !! k) as [w|] eqn:Ek; [|done]. cbn in E. by simplify_eq.
    + intros [Hv Hb]. exists name. split; [apply elem_sorted_keys; by exists v|]. rewrite Hv. cbn. by rewrite Hb.
Qed.
