(* ===== verification/Deliveries.v ===== *)
(** * The store of the notifications

    Models internal/store/notify.go: which finished runs were considered, what a
    workload's story was before a run, and the queue of messages to post. The
    column [notified_at] of the runs, which no other statement touches, is a map
    next to the runs table. *)

From Stdlib Require Import ZArith Lia String List.
From stdpp Require Import sorting relations.
From S2P Require Import Prelude GoTime GoFloat Core Queue Listing Timeline Story.

Inductive DeliveryState := DeliveryPending | DeliverySent | DeliveryFailed.
#[export] Instance DeliveryState_eq_dec : EqDecision DeliveryState.
Proof. solve_decision. Defined.

(** [Delivery]. *)
Record Delivery := mkDelivery {
  dl_ID : string;
  dl_RunID : string;
  dl_ChannelID : string;
  dl_Kind : string;
  dl_State : DeliveryState;
  dl_Attempts : Z;
  dl_NextAt : Z;
  dl_Status : Z;
  dl_Err : text;
  dl_Payload : json;
  dl_CreatedAt : Z;
  dl_SentAt : Z;
}.

Abbreviation DeliveryTable := (gmap string Delivery).

(** What the dispatcher sees of the database. *)
Record NotifyDB := mkNotifyDB {
  nd_runs : Table;
  nd_notified : gmap string Z;
  nd_values : gmap (string * Z * string) float64;
  nd_deliveries : DeliveryTable;
}.

(** ** Considering a run *)

(** [ClaimRunForNotify]: one UPDATE, one winner. *)
Definition ClaimRunForNotify (runID : string) (at_ : Z) (db : NotifyDB) : bool * NotifyDB :=
  match nd_runs db !! runID, nd_notified db !! runID with
  | Some _, None => (true, mkNotifyDB (nd_runs db) (<[runID := at_]> (nd_notified db)) (nd_values db) (nd_deliveries db))
  | _, _ => (false, db)
  end.

Section Reads.
Context `{Collation}.

(** [UnnotifiedRuns]: ORDER BY COALESCE(completed_at, started_at), id. *)
Definition ended_at (x : string * Row) : Z := default (row_started_at x.2) (row_completed_at x.2).
Definition oldest_first (x y : string * Row) : Prop :=
  older (mkPosition (ended_at y) y.1) (mkPosition (ended_at x) x.1) = false.
#[export] Instance oldest_first_dec x y : Decision (oldest_first x y).
Proof. unfold oldest_first. apply _. Defined.
Definition unnotified (db : NotifyDB) (x : string * Row) : bool :=
  settled_row x.2 && bool_decide (nd_notified db !! x.1 = None).
Definition UnnotifiedRuns (limit : Z) (db : NotifyDB) : list RunSummary :=
  map scanRunSummary (list.take (limit_of limit)
    (merge_sort oldest_first (List.filter (unnotified db) (rows (nd_runs db))))).

(** The earlier runs of a workload, newest first. *)
Definition earlier_runs (workloadID : string) (before : Position) (db : NotifyDB) : list (string * Row) :=
  newest (List.filter (fun x => bool_decide (row_source_workload_id x.2 = workloadID) && older (pos_of x) before)
    (rows (nd_runs db))).

(** [PreviousStory]: the baseline, and whether the run just before could not be
    evaluated. *)
Definition row_graded (x : string * Row) : bool := negb (bool_decide (row_result x.2 = ResultNone)).
Definition PreviousStory (workloadID : string) (before : Position) (db : NotifyDB) : option RunSummary * bool :=
  let l := earlier_runs workloadID before db in
  (scanRunSummary <$> head (List.filter row_graded l),
   match l with x :: _ => bool_decide (row_state x.2 = RunInconclusive) | [] => false end).
End Reads.

(** [RunCheckValues]. *)
Definition NotifyValues (runID : string) (db : NotifyDB) : gmap (Z * string) float64 :=
  RunCheckValues runID (mkTimeline (nd_runs db) ∅ ∅ ∅ (nd_values db)).

(** ** The queue of messages *)

Definition set_deliveries (t : DeliveryTable) (db : NotifyDB) : NotifyDB :=
  mkNotifyDB (nd_runs db) (nd_notified db) (nd_values db) t.

(** Who a delivery tells, about what. *)
Definition told (d : Delivery) : string * string := (dl_RunID d, dl_ChannelID d).

(** [CreateDelivery]: nothing is inserted for a run and a channel already told. *)
Definition CreateDelivery (d : Delivery) (db : NotifyDB) : store_error + NotifyDB :=
  if existsb (fun x => bool_decide (told x.2 = told d)) (map_to_list (nd_deliveries db)) then inl ErrDuplicate
  else if bool_decide (is_Some (nd_deliveries db !! dl_ID d)) then inl (ErrConstraint (dl_ID d))
  else if negb (bool_decide (is_Some (nd_runs db !! dl_RunID d))) then inl (ErrConstraint (dl_RunID d))
  else inr (set_deliveries (<[dl_ID d := d]> (nd_deliveries db)) db).

Section Due.
Context `{Collation} (d : dialect).

(** ORDER BY next_at, id: SQLite puts a missing instant first, PostgreSQL last. *)
Definition due_before (x y : Delivery) : bool :=
  match formatNullTime (dl_NextAt x), formatNullTime (dl_NextAt y) with
  | Some a, Some b => older (mkPosition a (dl_ID x)) (mkPosition b (dl_ID y))
  | None, None => older (mkPosition 0 (dl_ID x)) (mkPosition 0 (dl_ID y))
  | None, Some _ => match d with SQLite => true | Postgres => false end
  | Some _, None => match d with SQLite => false | Postgres => true end
  end.
Definition due_order (x y : Delivery) : Prop := due_before y x = false.
#[export] Instance due_order_dec x y : Decision (due_order x y).
Proof. unfold due_order. apply _. Defined.
Definition is_due (now : Z) (x : Delivery) : bool :=
  bool_decide (dl_State x = DeliveryPending) &&
  match formatNullTime (dl_NextAt x) with None => true | Some at_ => at_ <=? now end.

(** [DueDeliveries]. *)
Definition DueDeliveries (now limit : Z) (db : NotifyDB) : list Delivery :=
  list.take (limit_of limit)
    (merge_sort due_order (List.filter (is_due now) (map snd (map_to_list (nd_deliveries db))))).

(** [LastDeliveries]: the newest of each channel, by its creation. *)
Definition created_order (x y : Delivery) : Prop :=
  older (mkPosition (dl_CreatedAt x) (dl_ID x)) (mkPosition (dl_CreatedAt y) (dl_ID y)) = false.
#[export] Instance created_order_dec x y : Decision (created_order x y).
Proof. unfold created_order. apply _. Defined.
Definition last_delivery (channelID : string) (db : NotifyDB) : option Delivery :=
  head (merge_sort created_order
    (List.filter (fun x => bool_decide (dl_ChannelID x = channelID)) (map snd (map_to_list (nd_deliveries db))))).
Definition LastDeliveries (channelIDs : list string) (db : NotifyDB) : gmap string Delivery :=
  foldr (fun c m => match last_delivery c db with Some x => <[c := x]> m | None => m end) ∅ channelIDs.
End Due.

(** [SettleDelivery]: the columns of an attempt; what the message is stays. *)
Definition settled_as (d old : Delivery) : Delivery :=
  mkDelivery (dl_ID old) (dl_RunID old) (dl_ChannelID old) (dl_Kind old) (dl_State d) (dl_Attempts d) (dl_NextAt d)
    (dl_Status d) (dl_Err d) (dl_Payload old) (dl_CreatedAt old) (dl_SentAt d).
Definition SettleDelivery (d : Delivery) (db : NotifyDB) : store_error + NotifyDB :=
  match nd_deliveries db !! dl_ID d with
  | Some old => inr (set_deliveries (<[dl_ID d := settled_as d old]> (nd_deliveries db)) db)
  | None => inl (ErrNotFound (dl_ID d))
  end.

(** * What the store of the notifications promises

    Everything that is written to it, by any number of dispatchers, interleaved
    with the statements of the queue, and what that leaves true: a run is won
    once, a channel is told about a run at most once, and what it is told does
    not change. *)

(** ** Everything that is written *)

Inductive notify_op :=
| NQueue (st : statement)
| NClaim (runID : string) (at_ : Z)
| NCreate (x : Delivery)
| NSettle (x : Delivery).

Definition with_runs (t : Table) (db : NotifyDB) : NotifyDB :=
  mkNotifyDB t (nd_notified db) (nd_values db) (nd_deliveries db).

(** What an operation answers (a claim: whether it was won; the others: whether
    they were carried out) and leaves. *)
Definition notify_exec (o : notify_op) (db : NotifyDB) : bool * NotifyDB :=
  let answer r := match r with inr db' => (true, db') | inl _ => (false, db) end in
  match o with
  | NQueue st => (true, with_runs (apply_statement st (nd_runs db)) db)
  | NClaim runID at_ => ClaimRunForNotify runID at_ db
  | NCreate x => answer (CreateDelivery x db)
  | NSettle x => answer (SettleDelivery x db)
  end.

(** A history: each operation with its answer. *)
Fixpoint notify_history (ops : list notify_op) (db : NotifyDB) : list (notify_op * bool) * NotifyDB :=
  match ops with
  | [] => ([], db)
  | o :: ops =>
    let '(b, db1) := notify_exec o db in
    let '(h, db2) := notify_history ops db1 in
    ((o, b) :: h, db2)
  end.

(** The claims of a run that were won, and the messages queued for a pair. *)
Definition wins (runID : string) (x : notify_op * bool) : bool :=
  match x with (NClaim r _, true) => bool_decide (r = runID) | _ => false end.
Definition queues (pair : string * string) (x : notify_op * bool) : bool :=
  match x with (NCreate y, true) => bool_decide (told y = pair) | _ => false end.

(** ** What holds of the table *)

(** A delivery is under its identifier, and no two tell one channel about one run. *)
Definition good_deliveries (t : DeliveryTable) : Prop :=
  (forall id x, t !! id = Some x -> dl_ID x = id) /\
  (forall id1 id2 x1 x2, t !! id1 = Some x1 -> t !! id2 = Some x2 -> told x1 = told x2 -> id1 = id2).

(** What an attempt leaves of a delivery. *)
Definition message_of (x : Delivery) : string * string * string * string * json * Z :=
  (dl_ID x, dl_RunID x, dl_ChannelID x, dl_Kind x, dl_Payload x, dl_CreatedAt x).

(** A later table: every message is there, unchanged; a run notified stays so. *)
Record notify_le (db db' : NotifyDB) : Prop := {
  nle_messages id x : nd_deliveries db !! id = Some x ->
    exists x', nd_deliveries db' !! id = Some x' /\ message_of x' = message_of x;
  nle_notified id at_ : nd_notified db !! id = Some at_ -> nd_notified db' !! id = Some at_;
}.
#[export] Instance notify_le_preorder : PreOrder notify_le.
Proof.
  split; [split; eauto|]. intros a b c [Hm1 Hn1] [Hm2 Hn2]. split; [|auto].
  intros id x E. destruct (Hm1 id x E) as (y & Ey & Hy). destruct (Hm2 id y Ey) as (z & Ez & Hz).
  exists z. by rewrite Hz.
Qed.

(** Whether a pair was told something. *)
Definition is_told (pair : string * string) (db : NotifyDB) : bool :=
  existsb (fun x => bool_decide (told x.2 = pair)) (map_to_list (nd_deliveries db)).
Lemma is_told_spec pair db : is_told pair db = true <-> exists id x, nd_deliveries db !! id = Some x /\ told x = pair.
Proof.
  unfold is_told. rewrite existsb_exists. split.
  - intros ([id x] & Hin & E). apply bool_decide_eq_true in E. apply list_elem_of_In, elem_of_map_to_list in Hin. eauto.
  - intros (id & x & E & <-). exists (id, x). rewrite <- list_elem_of_In, elem_of_map_to_list, bool_decide_eq_true. done.
Qed.

Lemma told_message x y : message_of x = message_of y -> told x = told y.
Proof. unfold message_of, told. congruence. Qed.

Lemma notify_le_told pair db db' : notify_le db db' -> is_told pair db = true -> is_told pair db' = true.
Proof.
  intros [Hm _]. rewrite !is_told_spec. intros (id & x & E & <-). destruct (Hm id x E) as (x' & E' & Hx).
  exists id, x'. split; [done|]. by apply told_message.
Qed.

(** [CreateDelivery] and [SettleDelivery], by what they leave. *)
Lemma CreateDelivery_inr x db db' :
  CreateDelivery x db = inr db' ->
  is_told (told x) db = false /\ nd_deliveries db !! dl_ID x = None /\ is_Some (nd_runs db !! dl_RunID x) /\
  db' = set_deliveries (<[dl_ID x := x]> (nd_deliveries db)) db.
Proof.
  unfold CreateDelivery. change (existsb _ _) with (is_told (told x) db). destruct (is_told (told x) db); [done|].
  case_bool_decide as E1; [done|]. apply eq_None_not_Some in E1. case_bool_decide as E2; cbn; [|done].
  intros [= <-]. done.
Qed.

Lemma SettleDelivery_inr x db db' :
  SettleDelivery x db = inr db' ->
  exists old, nd_deliveries db !! dl_ID x = Some old /\
    db' = set_deliveries (<[dl_ID x := settled_as x old]> (nd_deliveries db)) db.
Proof. unfold SettleDelivery. destruct (nd_deliveries db !! dl_ID x) as [old|]; [|done]. intros [= <-]. eauto. Qed.

Lemma ClaimRunForNotify_cases r at_ db :
  (ClaimRunForNotify r at_ db = (true, mkNotifyDB (nd_runs db) (<[r := at_]> (nd_notified db)) (nd_values db) (nd_deliveries db)) /\
   nd_notified db !! r = None /\ is_Some (nd_runs db !! r)) \/
  (ClaimRunForNotify r at_ db = (false, db) /\ (nd_runs db !! r = None \/ is_Some (nd_notified db !! r))).
Proof. unfold ClaimRunForNotify. destruct (nd_runs db !! r), (nd_notified db !! r); eauto 10. Qed.

Lemma message_settled x old : message_of (settled_as x old) = message_of old.
Proof. done. Qed.

(** One operation. *)
Lemma notify_exec_good o db : good_deliveries (nd_deliveries db) -> good_deliveries (nd_deliveries (notify_exec o db).2).
Proof.
  intros [Hk Hu]. destruct o as [st|r at_|x|x]; cbn.
  - done.
  - by destruct (ClaimRunForNotify_cases r at_ db) as [[-> _]|[-> _]].
  - destruct (CreateDelivery x db) as [|db'] eqn:E; [done|]. apply CreateDelivery_inr in E as (Ht & Hn & _ & ->). cbn.
    assert (forall id y, nd_deliveries db !! id = Some y -> told y <> told x) as Hne.
    { intros id y Ey Et. apply not_true_iff_false in Ht. apply Ht, is_told_spec. eauto. }
    split.
    + intros id y. rewrite lookup_insert_Some. intros [[<- <-]|[_ Ey]]; [done|by apply Hk].
    + intros id1 id2 y1 y2. rewrite !lookup_insert_Some.
      intros [[<- <-]|[_ E1]] [[<- <-]|[_ E2]] Et; [done| | |by eapply Hu]; exfalso; by eapply Hne.
  - destruct (SettleDelivery x db) as [|db'] eqn:E; [done|]. apply SettleDelivery_inr in E as (old & Eo & ->). cbn.
    split.
    + intros id y. rewrite lookup_insert_Some. intros [[<- <-]|[_ Ey]]; [|by apply Hk]. by apply (Hk _ _ Eo).
    + intros id1 id2 y1 y2. rewrite !lookup_insert_Some.
      intros [[<- <-]|[_ E1]] [[<- <-]|[_ E2]] Et; [done|eapply Hu; eauto..].
Qed.

Lemma notify_exec_le o db : notify_le db (notify_exec o db).2.
Proof.
  destruct o as [st|r at_|x|x]; cbn.
  - split; cbn; eauto.
  - destruct (ClaimRunForNotify_cases r at_ db) as [[-> [Hn _]]|[-> _]]; [|done]. split; cbn; [eauto|].
    intros id a E. destruct (decide (r = id)) as [<-|Hne]; [congruence|by rewrite lookup_insert_ne].
  - destruct (CreateDelivery x db) as [|db'] eqn:E; [done|]. apply CreateDelivery_inr in E as (_ & Hn & _ & ->).
    split; cbn; [|done]. intros id y Ey. exists y. split; [|done].
    destruct (decide (dl_ID x = id)) as [<-|Hne]; [congruence|by rewrite lookup_insert_ne].
  - destruct (SettleDelivery x db) as [|db'] eqn:E; [done|]. apply SettleDelivery_inr in E as (old & Eo & ->).
    split; cbn; [|done]. intros id y Ey. destruct (decide (dl_ID x = id)) as [<-|Hne].
    + exists (settled_as x old). rewrite lookup_insert_eq. split; [done|]. rewrite message_settled. congruence.
    + exists y. by rewrite lookup_insert_ne.
Qed.

(** A won claim leaves the run notified; it can be won only when it was not. *)
Lemma wins_once r o db :
  let '(b, db') := notify_exec o db in
  wins r (o, b) = true -> nd_notified db !! r = None /\ is_Some (nd_notified db' !! r).
Proof.
  destruct (notify_exec o db) as [b db'] eqn:E. destruct o as [st|k at_|x|x]; cbn; try done. destruct b; [|done].
  intros Hr. apply bool_decide_eq_true in Hr as <-. cbn in E.
  destruct (ClaimRunForNotify_cases k at_ db) as [[E' [Hn _]]|[E' _]]; rewrite E' in E; [|done].
  injection E as <-. cbn. rewrite lookup_insert_eq. eauto.
Qed.

Lemma queues_once p o db :
  let '(b, db') := notify_exec o db in
  queues p (o, b) = true -> is_told p db = false /\ is_told p db' = true.
Proof.
  destruct (notify_exec o db) as [b db'] eqn:E. destruct o as [st|k at_|x|x]; cbn; try done. destruct b; [|done].
  intros Hp. apply bool_decide_eq_true in Hp as <-. cbn in E.
  destruct (CreateDelivery x db) as [|db1] eqn:Ec; [done|]. injection E as <-.
  apply CreateDelivery_inr in Ec as (Ht & _ & _ & ->). split; [done|]. apply is_told_spec. cbn.
  exists (dl_ID x), x. by rewrite lookup_insert_eq.
Qed.

(** What happens at most once, because it leaves a mark that stays. *)
Section Once.
Context (happens : notify_op * bool -> bool) (mark : NotifyDB -> bool).
Hypothesis mark_stays : forall db db', notify_le db db' -> mark db = true -> mark db' = true.
Hypothesis marks : forall o db, let '(b, db') := notify_exec o db in
  happens (o, b) = true -> mark db = false /\ mark db' = true.

Lemma happens_once ops db :
  (countb happens (notify_history ops db).1 <= (if mark db then 0 else 1))%nat.
Proof using mark_stays marks.
  revert db. induction ops as [|o ops IH]; intros db; cbn; [destruct (mark db); lia|].
  pose proof (marks o db) as Hm. pose proof (notify_exec_le o db) as Hle.
  destruct (notify_exec o db) as [b db1]. cbn in Hle. specialize (IH db1).
  destruct (notify_history ops db1) as [h db2]. cbn [fst] in IH |- *. unfold countb in *. cbn [List.filter].
  destruct (happens (o, b)).
  - destruct Hm as [-> Hm]; [done|]. rewrite Hm in IH. cbn. lia.
  - destruct (mark db) eqn:Ed; [|destruct (mark db1); lia]. by rewrite (mark_stays db db1 Hle Ed) in IH.
Qed.
End Once.

Lemma notify_history_le ops db : notify_le db (notify_history ops db).2.
Proof.
  revert db. induction ops as [|o ops IH]; intros db; cbn; [done|]. pose proof (notify_exec_le o db) as Hle.
  destruct (notify_exec o db) as [b db1]. specialize (IH db1). destruct (notify_history ops db1). by etransitivity.
Qed.
Lemma notify_history_good ops db :
  good_deliveries (nd_deliveries db) -> good_deliveries (nd_deliveries (notify_history ops db).2).
Proof.
  revert db. induction ops as [|o ops IH]; intros db Hg; cbn; [done|]. pose proof (notify_exec_good o db Hg) as Hg1.
  destruct (notify_exec o db) as [b db1]. specialize (IH db1 Hg1). by destruct (notify_history ops db1).
Qed.

(** C36: at most one message about a run is queued for a channel. Whatever the dispatchers, the
    workers and the API write, in any order, to a table where it holds: every
    delivery stays under its identifier, no two are for one run and one channel,
    none disappears and none changes what it says or to whom; a run is won by at
    most one dispatcher, by none once it was, and stays marked with the instant
    of that claim; and at most one message is queued for a run and a channel, none
    when there was one. (A queued message can still be posted more than once, by a
    retry or by a second dispatcher.) *)
Theorem told_once ops db :
  good_deliveries (nd_deliveries db) ->
  let '(h, db') := notify_history ops db in
  good_deliveries (nd_deliveries db') /\ notify_le db db' /\
  (forall r, (countb (wins r) h <= (if bool_decide (is_Some (nd_notified db !! r)) then 0 else 1))%nat) /\
  (forall p, (countb (queues p) h <= (if is_told p db then 0 else 1))%nat).
Proof.
  intros Hg. pose proof (notify_history_good ops db Hg) as Hgood. pose proof (notify_history_le ops db) as Hle.
  pose proof (fun happens mark stays marks => happens_once happens mark stays marks ops db) as Honce.
  destruct (notify_history ops db) as [h db']. split_and!; [done..| |].
  - intros r. apply (Honce (wins r) (fun db => bool_decide (is_Some (nd_notified db !! r)))).
    + intros a b [_ Hn]. rewrite !bool_decide_eq_true. intros [at_ E]. eauto.
    + intros o a. pose proof (wins_once r o a) as Hwo. destruct (notify_exec o a). intros Hx.
      destruct (Hwo Hx) as [E1 E2]. rewrite E1. by rewrite (bool_decide_true _ E2).
  - intros p. apply (Honce (queues p) (is_told p)); [intros a b; apply notify_le_told|apply queues_once].
Qed.

(** A row of the table, for the examples. *)
Definition drill_row (workload : string) (state : RunState) (result : RunResult) (started : Z) : Row :=
  mkRow "plan" "" "p1" 1 "" "" workload workload "" "" "" None state result started (Some (started + 1)) None 0 0 true
    (Lit "") ProofUnknown None None None.
Definition told_db : NotifyDB := mkNotifyDB {[ "r1" := drill_row "vm-1" RunSuccess ResultSuccess 5 ]} ∅ ∅ ∅.
Definition told_message_1 (id : string) : Delivery :=
  mkDelivery id "r1" "ops" "first_verdict" DeliveryPending 0 10 0 (Lit "") (JBool true) 10 Time.zero.

(** Two dispatchers on one run: one wins, one message is queued. *)
Lemma told_once_witness :
  good_deliveries (nd_deliveries told_db) /\
  let h := (notify_history [NClaim "r1" 9; NClaim "r1" 10; NCreate (told_message_1 "d1"); NCreate (told_message_1 "d2")] told_db).1 in
  map snd h = [true; false; true; false] /\ (countb (queues ("r1", "ops")) h <= 1)%nat.
Proof.
  assert (good_deliveries (nd_deliveries told_db)) as Hg by (split; intros *; cbn; by rewrite lookup_empty).
  split; [exact Hg|]. split; [vm_compute; reflexivity|].
  pose proof (told_once [NClaim "r1" 9; NClaim "r1" 10; NCreate (told_message_1 "d1"); NCreate (told_message_1 "d2")] told_db Hg) as Ht.
  destruct (notify_history _ _) as [h db']. destruct Ht as (_ & _ & _ & Hq). exact (Hq ("r1", "ops")).
Defined.

(** ** The story a reader follows *)

Section Feed.
Context `{CollationLaws}.

(** The drills of a workload, oldest first. *)
Definition of_workload (w : string) (x : string * Row) : bool := bool_decide (row_source_workload_id x.2 = w).
Definition drills (w : string) (t : Table) : list (string * Row) := rev (newest (List.filter (of_workload w) (rows t))).

(** What is announced of a run: [PreviousStory] and [Decide], as [consider] puts them together. *)
Definition story_of (x : string * Row) : Story :=
  let s := scanRunSummary x in mkStory (sum_Result s) (sum_ProofLevel s).
Definition announced (db : NotifyDB) (x : string * Row) : option Transition :=
  let '(before, unevaluable) := PreviousStory (row_source_workload_id x.2) (pos_of x) db in
  Decide (row_state x.2) (story_of x) ((fun b => mkStory (sum_Result b) (sum_ProofLevel b)) <$> before) unevaluable.
Definition feed (w : string) (db : NotifyDB) : list Transition := omap (announced db) (drills w (nd_runs db)).

(** The reader: the last verdict announced, and whether the workload can be
    evaluated as far as was announced. *)
Record Reader := mkReader { rd_verdict : option RunResult; rd_blind : bool }.
Definition hear (r : Reader) (t : Transition) : Reader :=
  match tr_Kind t with
  | KindFirstVerdict | KindVerdict => mkReader (Some (so_Result (tr_Current t))) false
  | KindEvaluable => mkReader (rd_verdict r) false
  | KindUnevaluable => mkReader (rd_verdict r) true
  | KindProofDropped | KindValueCollapsed => r
  end.
Definition reads (l : list Transition) : Reader := fold_left hear l (mkReader None false).

(** What is the case: the verdict of the last graded drill, and whether the last
    drill was inconclusive. *)
Definition truth (l : list (string * Row)) : Reader :=
  mkReader (row_result ∘ snd <$> last (List.filter row_graded l))
    (match last l with Some x => bool_decide (row_state x.2 = RunInconclusive) | None => false end).

(** A history the engine writes: the drills are over, and none has no verdict
    but an inconclusive one; none was cancelled. *)
Definition graded_history (l : list (string * Row)) : Prop :=
  Forall (fun x => settled_row x.2 = true /\ row_state x.2 <> RunCancelled /\
                   (row_graded x = false <-> row_state x.2 = RunInconclusive)) l.

Lemma drills_split w t l1 x l2 :
  drills w t = l1 ++ x :: l2 ->
  newest (List.filter (fun y => of_workload w y && older (pos_of y) (pos_of x)) (rows t)) = rev l1.
Proof.
  intros E. unfold drills in E. apply (f_equal (@rev _)) in E. rewrite rev_involutive, rev_app_distr in E. cbn in E.
  rewrite <- app_assoc in E. cbn in E. by apply newest_split in E.
Qed.
Lemma head_rev {A} (l : list A) : head (rev l) = last l.
Proof. rewrite rev_alt. apply head_reverse. Qed.

(** What is announced of a drill, from the drills before it. *)
Lemma announced_split w db l1 x l2 :
  drills w (nd_runs db) = l1 ++ x :: l2 ->
  announced db x =
  Decide (row_state x.2) (story_of x) (story_of <$> last (List.filter row_graded l1)) (rd_blind (truth l1)).
Proof.
  intros E. assert (x ∈ drills w (nd_runs db)) as Hx by (rewrite E; apply elem_of_app; right; left).
  unfold drills in Hx. rewrite list_elem_of_In, <- in_rev, <- list_elem_of_In, elem_newest in Hx. destruct Hx as [_ Hw].
  unfold of_workload in Hw. apply bool_decide_eq_true in Hw.
  unfold announced, PreviousStory. rewrite Hw. unfold earlier_runs.
  change (fun x0 : string * Row => bool_decide (row_source_workload_id x0.2 = w)
    && older (pos_of x0) (pos_of x)) with (fun y => of_workload w y && older (pos_of y) (pos_of x)).
  rewrite (drills_split w _ _ _ _ E). cbn [rd_blind truth]. f_equal.
  - rewrite List.filter_rev, head_rev. by destruct (last (List.filter row_graded l1)).
  - rewrite <- head_rev. by destruct (rev l1).
Qed.

Lemma truth_snoc l x :
  truth (l ++ [x]) =
  mkReader (if row_graded x then Some (row_result x.2) else rd_verdict (truth l)) (bool_decide (row_state x.2 = RunInconclusive)).
Proof.
  unfold truth. rewrite last_snoc, List.filter_app. cbn. destruct (row_graded x); [by rewrite last_snoc|by rewrite app_nil_r].
Qed.

Lemma settled_Terminal r : settled_row r = Terminal (row_state r).
Proof. unfold settled_row. by destruct (row_state r). Qed.

(** What a reader who knew the truth knows after the announcement of a drill. *)
Lemma hear_announced l x t :
  graded_history (l ++ [x]) ->
  t = Decide (row_state x.2) (story_of x) (story_of <$> last (List.filter row_graded l)) (rd_blind (truth l)) ->
  from_option (hear (truth l)) (truth l) t = truth (l ++ [x]) /\
  (forall m, t = Some m -> tr_Kind m = KindProofDropped \/ truth (l ++ [x]) <> truth l).
Proof.
  intros Hg ->. apply Forall_app in Hg as [_ Hg]. apply Forall_singleton in Hg as (Hs & Hc & Hi).
  rewrite truth_snoc, settled_Terminal in *. unfold Decide. rewrite Hs, (bool_decide_false _ Hc). cbn [negb].
  case_bool_decide as Hinc.
  - assert (row_graded x = false) as -> by tauto. unfold truth. cbn [rd_blind rd_verdict].
    destruct (match last l with Some x => _ | None => _ end); cbn; [done|].
    destruct (last (List.filter row_graded l)); cbn; split; try done; intros m _; by right.
  - assert (row_graded x = true) as -> by (destruct (row_graded x); tauto). unfold truth. cbn [rd_blind rd_verdict].
    destruct (last (List.filter row_graded l)) as [p|]; cbn; [|split; [done|]; intros m _; by right].
    case_bool_decide as Er; cbn; [rewrite Er|split; [done|]; intros m _; right; congruence].
    destruct (match last l with Some x => _ | None => _ end); cbn; [split; [done|]; intros m _; by right|].
    destruct (_ && _); cbn; [|done]. split; [done|]. intros m [= <-]. by left.
Qed.

Lemma reads_snoc {A} (f : A -> option Transition) l x :
  reads (omap f (l ++ [x])) = from_option (hear (reads (omap f l))) (reads (omap f l)) (f x).
Proof. rewrite omap_app. unfold reads. rewrite fold_left_app. cbn. by destruct (f x). Qed.

(** C37: whoever reads the messages about verdicts knows where a workload stands. On a
    history in which every drill is over, none was cancelled, and exactly the
    inconclusive ones have no result (so none was swept as FAILED without one), the
    last verdict announced is, after the message of any drill or its absence, the
    verdict of the last graded drill, and the workload was announced as impossible to
    evaluate exactly when its last drill was; and no message repeats what is known:
    each changes it, but the one of a proof that dropped under the same verdict.
    (The messages about a captured value that collapsed are another matter.) *)
Theorem feed_tells_truth w db l1 x l2 :
  graded_history (drills w (nd_runs db)) ->
  drills w (nd_runs db) = l1 ++ x :: l2 ->
  reads (omap (announced db) (l1 ++ [x])) = truth (l1 ++ [x]) /\
  (forall m, announced db x = Some m -> tr_Kind m = KindProofDropped \/ truth (l1 ++ [x]) <> truth l1).
Proof.
  intros Hg E. revert x l2 E. induction l1 as [|y l1 IH] using rev_ind; intros x l2 E;
    pose proof (announced_split w db _ x l2 E) as Ea; rewrite E, cons_middle, app_assoc in Hg; apply Forall_app in Hg as [Hg _];
    destruct (hear_announced _ x _ Hg Ea) as [Hh Hn]; (split; [|exact Hn]).
  - rewrite reads_snoc. exact Hh.
  - rewrite <- app_assoc in E. destruct (IH y _ E) as [IHr _]. by rewrite reads_snoc, IHr.
Qed.
End Feed.

(** A workload that passes, cannot be evaluated twice, and fails. *)
Definition feed_db : NotifyDB :=
  mkNotifyDB {[ "r1" := drill_row "vm-1" RunSuccess ResultSuccess 5; "r2" := drill_row "vm-1" RunInconclusive ResultNone 6;
    "r3" := drill_row "vm-1" RunInconclusive ResultNone 7; "r4" := drill_row "vm-1" RunFailed ResultFailed 8 ]} ∅ ∅ ∅.
Lemma feed_graded : graded_history (drills (H := byte_order) "vm-1" (nd_runs feed_db)).
Proof.
  assert (forallb (fun x => settled_row x.2 && negb (bool_decide (row_state x.2 = RunCancelled)) &&
    Bool.eqb (negb (row_graded x)) (bool_decide (row_state x.2 = RunInconclusive))) (drills (H := byte_order) "vm-1" (nd_runs feed_db)) = true)
    as E by (vm_compute; reflexivity).
  rewrite forallb_forall in E. apply Forall_forall. intros x Hx. apply list_elem_of_In, E in Hx.
  rewrite !andb_true_iff, negb_true_iff, bool_decide_eq_false in Hx.
  destruct Hx as [[Hs Hc] Hi]. split_and!; [done..|]. apply eqb_prop in Hi. rewrite <- negb_true_iff, Hi. apply bool_decide_eq_true.
Qed.
Definition kinds_of (db : NotifyDB) : list Kind := map tr_Kind (feed (H := byte_order) "vm-1" db).
Lemma feed_tells_truth_witness :
  kinds_of feed_db = [KindFirstVerdict; KindUnevaluable; KindVerdict] /\
  exists l1 x, drills (H := byte_order) "vm-1" (nd_runs feed_db) = l1 ++ [x] /\
    reads (omap (announced (H := byte_order) feed_db) (l1 ++ [x])) = mkReader (Some ResultFailed) false.
Proof.
  split; [vm_compute; reflexivity|].
  exists (list.take 3 (drills (H := byte_order) "vm-1" (nd_runs feed_db))), ("r4", drill_row "vm-1" RunFailed ResultFailed 8).
  assert (drills (H := byte_order) "vm-1" (nd_runs feed_db) =
    list.take 3 (drills (H := byte_order) "vm-1" (nd_runs feed_db)) ++ [("r4", drill_row "vm-1" RunFailed ResultFailed 8)]) as E
    by (vm_compute; reflexivity).
  split; [exact E|].
  pose proof (byte_order_laws) as Hl.
  destruct (feed_tells_truth (H := byte_order) "vm-1" feed_db _ _ [] ltac:(apply feed_graded) E) as [-> _].
  vm_compute. reflexivity.
Defined.

(** A cancelled drill between two inconclusive ones hides that they are one
    situation: it is announced twice, and the return is not announced. *)
Example feed_cancelled :
  kinds_of (mkNotifyDB {[ "r1" := drill_row "vm-1" RunSuccess ResultSuccess 5; "r2" := drill_row "vm-1" RunInconclusive ResultNone 6;
    "r3" := drill_row "vm-1" RunCancelled ResultNone 7; "r4" := drill_row "vm-1" RunInconclusive ResultNone 8;
    "r5" := drill_row "vm-1" RunCancelled ResultNone 9; "r6" := drill_row "vm-1" RunSuccess ResultSuccess 10 ]} ∅ ∅ ∅)
  = [KindFirstVerdict; KindUnevaluable; KindUnevaluable].
Proof. vm_compute. reflexivity. Qed.

(** A drill settled by the sweep, FAILED with no result, is announced as a
    change of verdict to nothing. *)
Example feed_swept :
  map (fun m => (tr_Kind m, tr_Headline m)) (feed (H := byte_order) "vm-1"
    (mkNotifyDB {[ "r1" := drill_row "vm-1" RunSuccess ResultSuccess 5; "r2" := drill_row "vm-1" RunFailed ResultNone 6 ]} ∅ ∅ ∅))
  = [(KindFirstVerdict, Sprintf "first verdict: %s" [AStr "SUCCESS"]);
     (KindVerdict, Sprintf "%s, was %s" [AStr ""; AStr "SUCCESS"])].
Proof. vm_compute. reflexivity. Qed.
