(* ===== verification/Dispatcher.v ===== *)
(** * The dispatcher of notifications

    Models internal/notify/deliver.go and dispatcher.go: the decision pass over
    the runs nobody has been told about, and the delivery pass that posts what is
    due. No failure stops a pass: a statement the database refuses leaves things
    as they were, and the pass goes on. *)

From Stdlib Require Import ZArith Lia String Ascii List.
From stdpp Require Import sorting.
From S2P Require Import Prelude GoTime GoFloat Errors Core GoString GoStrconv GoFmt Config Queue Listing Story Deliveries.

(** ** Delivering (deliver.go) *)

Definition Attempts : list Z := [0; 30 * Duration.Second; 2 * Duration.Minute; 8 * Duration.Minute].
Definition maxRetryAfter : Z := 10 * Duration.Minute.
Definition maxResponseBody : nat := 4096.
Definition errBodySnippet : nat := 512.

(** [Result]. *)
Record Result := mkResult { rs_Status : Z; rs_Err : option error; rs_Retry : bool; rs_RetryAt : Z }.

(** A failure of net/http: a [*url.Error] repeats the URL around its cause. *)
Inductive net_error := UrlError (url : string) (cause : error) | OtherError (e : error).
Definition withoutURL (e : net_error) : error :=
  match e with UrlError _ cause => cause | OtherError e => e end.

(** What the HTTP client did with a request. *)
Inductive http_end :=
| BuildFailed (e : net_error)
| DoFailed (e : net_error)
| Answered (status : Z) (body : string) (retryAfterHeader : string).

(** [classify]. *)
Definition classify (status : Z) (body : string) : option error :=
  if (200 <=? status) && (status <? 300) then None else
  let snippet := String.substring 0 errBodySnippet (TrimSpace body) in
  let base := ENew (Sprintf "notify: refused with status %d: %s" [AInt status; AStr snippet]) in
  if (500 <=? status) || (status =? 429) then Some (ERetryable base) else Some base.

(** [retryAfter]; the multiplication wraps. *)
Definition retryAfter (header : string) : Z :=
  match Atoi header with
  | None => 0
  | Some secs =>
    if secs <=? 0 then 0 else
    let d := Duration.wrap (secs * Duration.Second) in
    if maxRetryAfter <? d then maxRetryAfter else d
  end.

(** [NextAttempt]. *)
Definition NextAttempt (attempts : Z) (r : Result) : option Z :=
  if negb (rs_Retry r) || (attempts <? 0) || (Z.of_nat (length Attempts) <=? attempts) then None
  else if 0 <? rs_RetryAt r then Some (rs_RetryAt r)
  else Attempts !! Z.to_nat attempts.

(** What [Post] makes of the end of its request; [ctx] is [ctx.Err()] after it. *)
Definition Post (e : http_end) (ctx : option error) : Result :=
  match e with
  | BuildFailed e =>
    mkResult 0 (Some (EWrap (Sprintf "notify: build request: %w" [AText (Error (withoutURL e))]) (withoutURL e))) false 0
  | DoFailed e =>
    match ctx with
    | Some cancelled =>
      mkResult 0 (Some (EWrap (Sprintf "notify: delivery abandoned: %w" [AText (Error cancelled)]) cancelled)) false 0
    | None =>
      mkResult 0 (Some (ERetryable (EWrap (Sprintf "notify: post: %w" [AText (Error (withoutURL e))]) (withoutURL e)))) true 0
    end
  | Answered status body header =>
    let err := classify status (String.substring 0 maxResponseBody body) in
    let retry := match err with Some e => IsRetryable e | None => false end in
    mkResult status err retry (if retry && (status =? 429) then retryAfter header else 0)
  end.

(** [strings.ReplaceAll], for a pattern that is not empty. *)
Fixpoint replace_all (fuel : nat) (s old new : string) : string :=
  match fuel with
  | O => s
  | S fuel =>
    match s with
    | EmptyString => EmptyString
    | String c rest =>
      if HasPrefix s old then new +:+ replace_all fuel (String.substring (String.length old) (String.length s - String.length old) s) old new
      else String c (replace_all fuel rest old new)
    end
  end.
Definition ReplaceAll (s old new : string) : string := replace_all (S (String.length s)) s old new.

(** [redact]: what is written down of a failure. *)
Definition redact (message : text) (target channelID : string) : text :=
  if nonempty target then Lit (ReplaceAll (GoFmt.render message) target ("<url of channel " +:+ channelID +:+ ">"))
  else message.

Example redact_example :
  redact (Sprintf "post %q: refused" [AStr "https://x/secret"]) "https://x/secret" "ops" = Lit ("post " +:+ GoFmt.Quote "<url of channel ops>" +:+ ": refused").
Proof. reflexivity. Qed.

(** ** The dispatcher (dispatcher.go) *)

Definition DefaultBatch : Z := 50.
Definition DefaultMaxAge : Z := 24 * Duration.Hour.

(** What is outside: the clock, the identifiers, the context and the
    configuration, read in order; the database, which may be away at any call;
    the sealed URLs; and the HTTP client. *)
Class NotifyEnv := {
  nt_now : nat -> Z;
  nt_newID : nat -> string;
  nt_away : nat -> bool;
  nt_ctx_Err : nat -> option error;
  nt_channels : nat -> option (list Notification);
  nt_Target : Notification -> error + string;
  nt_Do : nat -> string -> json -> http_end;
}.

(** The fields of [Dispatcher] its options fix. *)
Record NotifyOptions := mkNotifyOptions { no_baseURL : string; no_batch : Z; no_maxAge : Z }.
Definition NewDispatcher (baseURL : string) (batch maxAge : Z) : NotifyOptions :=
  mkNotifyOptions (TrimSuffix baseURL "/") (if batch <=? 0 then DefaultBatch else batch)
    (if maxAge =? 0 then DefaultMaxAge else maxAge).

(** A channel with its rendering. *)
Record channel := mkChannel { ch_config : Notification; ch_render : Message -> json }.

(** The state: the database, how much of the outside was read, the kinds
    complained about, and the requests made, with the delivery each was for. *)
Record Disp := mkDisp {
  ds_db : NotifyDB;
  ds_time : nat;
  ds_complainedAbout : gmap string string;
  ds_posts : list (string * string * json);
}.

Section Dispatcher.
Context `{Collation} `{NotifyEnv} (d : dialect) (opts : NotifyOptions).

Abbreviation DM := (M Disp).

Definition n_outside {A} (f : nat -> A) : DM A := fun s =>
  (Ret (f (ds_time s)), mkDisp (ds_db s) (S (ds_time s)) (ds_complainedAbout s) (ds_posts s)).
Definition n_now : DM Z := n_outside nt_now.
Definition n_ctx : DM (option error) := n_outside nt_ctx_Err.

(** A read of the store, and a write: [None] when the database is away. *)
Definition n_query {A} (f : NotifyDB -> A) : DM (option A) :=
  (n_outside nt_away ≫= fun away : bool => if away then mret None else gets (fun s => Some (f (ds_db s)))).
Definition set_db (db : NotifyDB) (s : Disp) : Disp := mkDisp db (ds_time s) (ds_complainedAbout s) (ds_posts s).
Definition n_claim (runID : string) (at_ : Z) : DM (option bool) :=
  (n_outside nt_away ≫= fun away : bool =>
   if away then mret None else fun s =>
   let '(won, db) := ClaimRunForNotify runID at_ (ds_db s) in (Ret (Some won), set_db db s)).
Definition n_exec (f : NotifyDB -> store_error + NotifyDB) : DM (option store_error) :=
  (n_outside nt_away ≫= fun away : bool =>
   if away then mret None else fun s =>
   match f (ds_db s) with
   | inl err => (Ret (Some err), s)
   | inr db => (Ret None, set_db db s)
   end).

(** [resolve], with [complain]: once per channel and kind. *)
Definition n_complain (n : Notification) : DM unit :=
  modify (fun s => mkDisp (ds_db s) (ds_time s) (<[nf_ID n := nf_Kind n]> (ds_complainedAbout s)) (ds_posts s)).
Fixpoint resolve_all (configured : list Notification) : DM (list channel) :=
  match configured with
  | [] => mret []
  | n :: configured =>
    if negb (On n) then resolve_all configured
    else match ChannelFor (nf_Kind n) with
         | None => (_ ← n_complain n; resolve_all configured)
         | Some render => (out ← resolve_all configured; mret (mkChannel n render :: out))
         end
  end.
Definition resolve : DM (list channel) :=
  configured ← n_outside nt_channels;
  match configured with None => mret [] | Some l => resolve_all l end.

(** [tooOld]. *)
Definition tooOld (run : RunSummary) : DM bool :=
  if no_maxAge opts <? 0 then mret false else
  let ended := if Time.IsZero (sum_CompletedAt run) then sum_StartedAt run else sum_CompletedAt run in
  if Time.IsZero ended then mret true else
  (now ← n_now; mret (no_maxAge opts <? Time.Sub now ended)).

(** [measured]. *)
Definition measured (runID : string) : DM Values :=
  byCheck ← n_query (NotifyValues runID);
  mret (match byCheck with Some m => valuesByName m | None => ∅ end).

(** [considerValues]. *)
Definition considerValues (run : RunSummary) (current : Story) (previous : option Story) (before : option RunSummary) :
    DM (option Transition) :=
  match before with
  | None => mret None
  | Some before =>
    if bool_decide (sum_Result run = ResultNone) then mret None else
    values ← measured (sum_ID run);
    if negb (Zeroed values) then mret None else
    earlier ← measured (sum_ID before);
    mret (DecideCollapse (sum_State run) current previous values earlier)
  end.

(** [link] and [message]. *)
Definition link (runID : string) : string :=
  if nonempty (no_baseURL opts) then no_baseURL opts +:+ "/runs/" +:+ runID else "".
Definition message (run : RunSummary) (t : Transition) : Message :=
  mkMessage (if nonempty (sum_SourceName run) then sum_SourceName run else sum_SourceWorkloadID run)
    (sum_SourceWorkloadID run) (sum_PlanName run) (sum_ID run) (link (sum_ID run))
    (if Time.IsZero (sum_CompletedAt run) then sum_StartedAt run else sum_CompletedAt run) t (sum_RTO run).

(** [queue]. *)
Definition queue (ch : channel) (run : RunSummary) (msg : Message) : DM unit :=
  now ← n_now;
  id ← n_outside nt_newID;
  _ ← n_exec (CreateDelivery (mkDelivery id (sum_ID run) (nf_ID (ch_config ch)) (Kind_to_string (tr_Kind (ms_Transition msg)))
        DeliveryPending 0 now 0 (Lit "") (ch_render ch msg) now Time.zero));
  mret tt.
Fixpoint queue_all (channels : list channel) (run : RunSummary) (msg : Message) : DM unit :=
  match channels with
  | [] => mret tt
  | ch :: channels =>
    ctx ← n_ctx;
    match ctx with
    | Some _ => mret tt
    | None => (_ ← queue ch run msg; queue_all channels run msg)
    end
  end.

(** The transition a claimed run is worth, if any. *)
Definition transition (run : RunSummary) (story : option RunSummary * bool) : DM (option Transition) :=
  let '(before, unevaluable) := story in
  let previous := (fun b => mkStory (sum_Result b) (sum_ProofLevel b)) <$> before in
  let current := mkStory (sum_Result run) (sum_ProofLevel run) in
  match Decide (sum_State run) current previous unevaluable with
  | Some t => mret (Some t)
  | None => considerValues run current previous before
  end.

(** [consider]. *)
Definition consider (run : RunSummary) (channels : list channel) : DM unit :=
  at_ ← n_now;
  won ← n_claim (sum_ID run) at_;
  match won with
  | Some true =>
    tooOld run ≫= fun old : bool =>
    if old then mret tt else
    story ← n_query (PreviousStory (sum_SourceWorkloadID run) (sum_pos run));
    match story with
    | None => mret tt
    | Some story =>
      said ← transition run story;
      match said with
      | None => mret tt
      | Some t => queue_all channels run (message run t)
      end
    end
  | _ => mret tt
  end.

(** [decide]. *)
Fixpoint consider_runs (runs : list RunSummary) (channels : list channel) : DM unit :=
  match runs with
  | [] => mret tt
  | run :: runs =>
    ctx ← n_ctx;
    match ctx with
    | Some _ => mret tt
    | None => (_ ← consider run channels; consider_runs runs channels)
    end
  end.
Definition decide_pass (channels : list channel) : DM unit :=
  runs ← n_query (UnnotifiedRuns (no_batch opts));
  match runs with None => mret tt | Some runs => consider_runs runs channels end.

(** [settle] and [fail]. *)
Definition settle (row : Delivery) : DM unit := _ ← n_exec (SettleDelivery row); mret tt.
Definition outcome (row : Delivery) (state : DeliveryState) (attempts nextAt status : Z) (err : text) (sentAt : Z) : Delivery :=
  mkDelivery (dl_ID row) (dl_RunID row) (dl_ChannelID row) (dl_Kind row) state attempts nextAt status err (dl_Payload row)
    (dl_CreatedAt row) sentAt.
Definition fail_delivery (row : Delivery) (reason : text) : DM unit :=
  settle (outcome row DeliveryFailed (dl_Attempts row + 1) Time.zero 0 reason (dl_SentAt row)).

(** [channelFor] and [abandoned]. *)
Fixpoint channelFor (channels : list channel) (id : string) : option channel :=
  match channels with
  | [] => None
  | ch :: channels => if bool_decide (nf_ID (ch_config ch) = id) then Some ch else channelFor channels id
  end.
Definition abandoned (ctx : option error) (r : Result) : bool :=
  match rs_Err r with
  | None => false
  | Some e => Is e context_Canceled || (match ctx with Some _ => true | None => false end && Is e context_DeadlineExceeded)
  end.

(** [sender.Post], remembered. *)
Definition sender_Post (row : Delivery) (target : string) : DM Result :=
  _ ← modify (fun s => mkDisp (ds_db s) (ds_time s) (ds_complainedAbout s) (ds_posts s ++ [(dl_ID row, target, dl_Payload row)]));
  e ← n_outside (fun n => nt_Do n target (dl_Payload row));
  match e with
  | DoFailed _ => (ctx ← n_ctx; mret (Post e ctx))
  | _ => mret (Post e None)
  end.

(** [attempt]. *)
Definition attempt (row : Delivery) (channels : list channel) : DM unit :=
  match channelFor channels (dl_ChannelID row) with
  | None => fail_delivery row (Sprintf "channel %q is no longer configured" [AStr (dl_ChannelID row)])
  | Some ch =>
    match nt_Target (ch_config ch) with
    | inl err => fail_delivery row (Error err)
    | inr target =>
      result ← sender_Post row target;
      ctx ← n_ctx;
      if abandoned ctx result then mret tt else
      let attempts := dl_Attempts row + 1 in
      match rs_Err result with
      | None =>
        now ← n_now;
        settle (outcome row DeliverySent attempts Time.zero (rs_Status result) (Lit "") now)
      | Some err =>
        let reason := redact (Error err) target (dl_ChannelID row) in
        match NextAttempt attempts result with
        | Some wait =>
          now ← n_now;
          settle (outcome row DeliveryPending attempts (Time.Add now wait) (rs_Status result) reason (dl_SentAt row))
        | None => settle (outcome row DeliveryFailed attempts Time.zero (rs_Status result) reason (dl_SentAt row))
        end
      end
    end
  end.

(** [deliver]. *)
Fixpoint attempt_all (due : list Delivery) (channels : list channel) : DM unit :=
  match due with
  | [] => mret tt
  | row :: due =>
    ctx ← n_ctx;
    match ctx with
    | Some _ => mret tt
    | None => (_ ← attempt row channels; attempt_all due channels)
    end
  end.
Definition deliver_pass (channels : list channel) : DM unit :=
  now ← n_now;
  due ← n_query (DueDeliveries d now (no_batch opts));
  match due with None => mret tt | Some due => attempt_all due channels end.

(** [Tick]. *)
Definition NotifyTick : DM unit :=
  channels ← resolve;
  _ ← decide_pass channels;
  deliver_pass channels.
End Dispatcher.
