(* ===== verification/DispatcherTheorems.v ===== *)
(** * What the dispatcher says, and that it says it

    [worth] is the specification of the decision about a run: a function of the
    database. [consider] refines it whatever fails, and says all of it when nothing
    does. *)

From Stdlib Require Import ZArith Lia String Ascii List.
From stdpp Require Import relations sorting.
From S2P Require Import Prelude GoTime GoFloat Errors Core GoString GoStrconv Config Queue Listing Story Deliveries Dispatcher.

(** ** The decision about a run, as a function of the database *)

Section Worth.
Context `{Collation}.

Definition summary_story (s : RunSummary) : Story := mkStory (sum_Result s) (sum_ProofLevel s).

Definition worth (db : NotifyDB) (run : RunSummary) : option Transition :=
  let '(before, unevaluable) := PreviousStory (sum_SourceWorkloadID run) (sum_pos run) db in
  let previous := summary_story <$> before in
  match Decide (sum_State run) (summary_story run) previous unevaluable with
  | Some t => Some t
  | None =>
    b ← before;
    DecideCollapse (sum_State run) (summary_story run) previous
      (valuesByName (NotifyValues (sum_ID run) db)) (valuesByName (NotifyValues (sum_ID b) db))
  end.

(** When a run ended, and whether it is too long ago at an instant. *)
Definition run_ended (run : RunSummary) : Z :=
  if Time.IsZero (sum_CompletedAt run) then sum_StartedAt run else sum_CompletedAt run.
Definition expired (opts : NotifyOptions) (run : RunSummary) (now : Z) : bool :=
  (0 <=? no_maxAge opts) && (Time.IsZero (run_ended run) || (no_maxAge opts <? Time.Sub now (run_ended run))).
End Worth.

Section Consider.
Context `{Collation} `{NotifyEnv} (opts : NotifyOptions).

Definition never_away : Prop := forall k, nt_away k = false.
Definition never_cancelled : Prop := forall k, nt_ctx_Err k = None.

(** The database and the posts as they are; nothing is left by a panic. *)
Definition calm (db : NotifyDB) (ps : list (string * string * json)) (s : Disp) : Prop := ds_db s = db /\ ds_posts s = ps.
Definition never {S} (s : S) : Prop := False.

Lemma outside_calm {A} (f : nat -> A) db ps :
  post (calm db ps) (n_outside f) (fun a s => calm db ps s /\ exists k, a = f k) never.
Proof. intros s Hs. cbn. split; [done|]. by exists (ds_time s). Qed.

(** A read answers what the database holds, or that it is away. *)
Lemma query_calm {A} (f : NotifyDB -> A) db ps :
  post (calm db ps) (n_query f)
    (fun a s => calm db ps s /\ (a = None \/ a = Some (f db)) /\ (never_away -> a = Some (f db))) never.
Proof.
  eapply post_bind; [apply outside_calm|]. intros away s [[Hdb Hps] [k ->]]. destruct (nt_away k) eqn:E; cbn.
  - split_and!; [done..|by left|]. intros Hn. by rewrite Hn in E.
  - rewrite Hdb. split_and!; [done..|by right|done].
Qed.

Lemma zero_names_Zeroed values : Zeroed values = false -> zero_names values = [].
Proof.
  intros Hz. assert (forall n, n ∉ zero_names values) as Hn.
  { intros n. rewrite elem_zero_names. intros (v & Hv & E). apply not_true_iff_false in Hz. apply Hz.
    unfold Zeroed. rewrite existsb_exists. exists (n, v). by rewrite <- list_elem_of_In, elem_of_map_to_list. }
  destruct (zero_names values) as [|n l]; [done|]. destruct (Hn n). left.
Qed.
Lemma DecideCollapse_nothing state current previous values earlier :
  Zeroed values = false \/ earlier = ∅ -> DecideCollapse state current previous values earlier = None.
Proof.
  intros Hz. unfold DecideCollapse. destruct (_ || _); [done|]. unfold collapsed. destruct Hz as [Hz| ->].
  - by rewrite (zero_names_Zeroed _ Hz).
  - by replace (omap (fell ∅) (zero_names values)) with (@nil (string * float64)) by (induction (zero_names values); done).
Qed.

Lemma measured_calm runID db ps :
  post (calm db ps) (measured runID)
    (fun v s => calm db ps s /\ (v = ∅ \/ v = valuesByName (NotifyValues runID db)) /\
                (never_away -> v = valuesByName (NotifyValues runID db))) never.
Proof.
  eapply post_bind; [apply query_calm|]. intros a. apply post_ret. intros s (Hc & Ha & Hn).
  split; [done|]. split; [destruct Ha as [-> | ->]; auto|]. intros Hna. by rewrite (Hn Hna).
Qed.

(** What is said of a claimed run is what the database makes it worth, or nothing
    when the database is away. *)
Lemma considerValues_calm run current previous before db ps :
  so_Result current = sum_Result run ->
  post (calm db ps) (considerValues run current previous before)
    (fun o s =>
      let w := b ← before; DecideCollapse (sum_State run) current previous
        (valuesByName (NotifyValues (sum_ID run) db)) (valuesByName (NotifyValues (sum_ID b) db)) in
      calm db ps s /\ (o = None \/ o = w) /\ (never_away -> o = w)) never.
Proof.
  intros Hcur. unfold considerValues. destruct before as [b|]; cbn [mbind option_bind]; [|apply post_ret; auto].
  case_bool_decide as Hr.
  { apply post_ret. intros s Hs. split_and!; [done|by left|]. intros _. unfold DecideCollapse.
    by rewrite Hcur, (bool_decide_true _ Hr), orb_true_r. }
  eapply post_bind; [apply measured_calm|]. intros v. destruct (Zeroed v) eqn:Hz; cbn [negb].
  - eapply post_bind.
    { intros s (Hc & Hv & Hn). pose proof (measured_calm (sum_ID b) db ps s Hc) as Hm.
      destruct (measured (sum_ID b) s) as [[v' | |] s']; [|done..].
      exact (conj Hm (conj Hv Hn)). }
    intros e. apply post_ret. intros s ((Hc & He & Hne) & Hv & Hn). cbn. split; [done|].
    destruct Hv as [-> | ->]; [done|]. split; [|intros Hna; by rewrite (Hne Hna)].
    destruct He as [-> | ->]; [left|by right]. apply DecideCollapse_nothing. by right.
  - apply post_ret. intros s (Hc & Hv & Hn). split; [done|]. split; [by left|]. intros Hna. specialize (Hn Hna) as ->.
    symmetry. apply DecideCollapse_nothing. by left.
Qed.

Lemma transition_calm run db ps :
  post (calm db ps) (transition run (PreviousStory (sum_SourceWorkloadID run) (sum_pos run) db))
    (fun o s => calm db ps s /\ (o = None \/ o = worth db run) /\ (never_away -> o = worth db run)) never.
Proof.
  unfold transition, worth. destruct (PreviousStory _ _ db) as [before unevaluable].
  change (fun b => mkStory (sum_Result b) (sum_ProofLevel b)) with summary_story.
  change (mkStory (sum_Result run) (sum_ProofLevel run)) with (summary_story run).
  destruct (Decide _ _ _ _) as [t|]; [apply post_ret; auto|]. by apply considerValues_calm.
Qed.

Lemma tooOld_calm run db ps :
  post (calm db ps) (tooOld opts run) (fun b s => calm db ps s /\ exists k, b = expired opts run (nt_now k)) never.
Proof.
  unfold tooOld, expired. fold (run_ended run). destruct (Z.ltb_spec (no_maxAge opts) 0); destruct (Z.leb_spec 0 (no_maxAge opts)); [lia| |..| lia].
  - apply post_ret. intros s Hs. split; [done|]. by exists 0%nat.
  - cbn [andb]. destruct (Time.IsZero (run_ended run)); cbn [orb].
    + apply post_ret. intros s Hs. split; [done|]. by exists 0%nat.
    + eapply post_bind; [apply outside_calm|]. intros now. apply post_ret. intros s [Hs [k ->]]. eauto.
Qed.
(** ** What is queued *)

(** The message of a channel, queued at an instant. *)
Definition announcement (run : RunSummary) (t : Transition) (ch : channel) (id : string) (now : Z) : Delivery :=
  mkDelivery id (sum_ID run) (nf_ID (ch_config ch)) (Kind_to_string (tr_Kind t)) DeliveryPending 0 now 0 (Lit "")
    (ch_render ch (message opts run t)) now Time.zero.

(** The database with announcements added to it, and nothing else changed. *)
Record announces (P : Delivery -> Prop) (db db' : NotifyDB) : Prop := {
  an_runs : nd_runs db' = nd_runs db;
  an_notified : nd_notified db' = nd_notified db;
  an_values : nd_values db' = nd_values db;
  an_kept id x : nd_deliveries db !! id = Some x -> nd_deliveries db' !! id = Some x;
  an_new id x : nd_deliveries db' !! id = Some x -> nd_deliveries db !! id = Some x \/ (dl_ID x = id /\ P x);
}.
Lemma announces_refl P db : announces P db db.
Proof. split; auto. Qed.
Lemma announces_create P db db1 db2 x :
  announces P db db1 -> P x -> CreateDelivery x db1 = inr db2 -> announces P db db2.
Proof.
  intros [Hr Hno Hv Hk Hn] Hp E. apply CreateDelivery_inr in E as (_ & Hx & _ & ->). split; [done..| |]; cbn; intros id y.
  - intros Ey. apply Hk in Ey. rewrite lookup_insert_ne; [done|]. congruence.
  - rewrite lookup_insert_Some. intros [[<- <-]|[_ Ey]]; [by right|by apply Hn].
Qed.

Definition said_by (run : RunSummary) (t : Transition) (channels : list channel) (x : Delivery) : Prop :=
  exists ch id now, ch ∈ channels /\ x = announcement run t ch id now.
Definition saying (P : Delivery -> Prop) (db : NotifyDB) (ps : list (string * string * json)) (s : Disp) : Prop :=
  announces P db (ds_db s) /\ ds_posts s = ps.

Lemma queue_saying P run t ch db ps :
  (forall id now, P (announcement run t ch id now)) ->
  post (saying P db ps) (queue ch run (message opts run t)) (fun _ s => saying P db ps s) never.
Proof.
  intros Hp s [Ha Hps]. unfold queue, n_now, n_outside, n_exec, mbind, M_bind, n_outside, mret, M_ret. cbn.
  destruct (nt_away _); [done|]. cbn.
  destruct (CreateDelivery _ _) as [err|db2] eqn:E; cbn; [done|]. split; [|done].
  refine (announces_create P db _ db2 _ Ha _ E). apply Hp.
Qed.

Lemma queue_all_saying run t channels db ps :
  post (saying (said_by run t channels) db ps) (queue_all channels run (message opts run t))
    (fun _ s => saying (said_by run t channels) db ps s) never.
Proof.
  assert (forall l, l ⊆ channels -> post (saying (said_by run t channels) db ps) (queue_all l run (message opts run t))
    (fun _ s => saying (said_by run t channels) db ps s) never) as Hall; [|by apply Hall].
  induction l as [|ch l IH]; intros Hsub; cbn [queue_all]; [by apply post_ret|].
  apply (post_bind _ _ _ (fun _ s => saying (said_by run t channels) db ps s)); [by intros s Hs|]. intros [e|]; [by apply post_ret|].
  apply (post_bind _ _ _ (fun _ s => saying (said_by run t channels) db ps s)); [|intros _; apply IH; set_solver].
  apply queue_saying. intros id now. exists ch, id, now. split; [|done]. apply Hsub. left.
Qed.

(** With the database up and fresh identifiers, every channel is told. *)
Definition fresh_ahead (s : Disp) : Prop := forall k, (ds_time s <= k)%nat -> nd_deliveries (ds_db s) !! nt_newID k = None.
Lemma queue_tells run msg ch s :
  never_away -> (forall j k, nt_newID j = nt_newID k -> j = k) -> fresh_ahead s -> is_Some (nd_runs (ds_db s) !! sum_ID run) ->
  let s' := (queue ch run msg s).2 in
  is_told (sum_ID run, nf_ID (ch_config ch)) (ds_db s') = true /\ fresh_ahead s' /\ nd_runs (ds_db s') = nd_runs (ds_db s) /\
  (forall p, is_told p (ds_db s) = true -> is_told p (ds_db s') = true) /\ queue ch run msg s = (Ret tt, s').
Proof.
  intros Hna Hinj Hf Hr. unfold queue, n_now, n_outside, n_exec, mbind, M_bind, n_outside, mret, M_ret. cbn. rewrite Hna. cbn.
  set (x := mkDelivery _ _ _ _ _ _ _ _ _ _ _ _). change (sum_ID run, nf_ID (ch_config ch)) with (told x).
  destruct (CreateDelivery x (ds_db s)) as [err|db2] eqn:E; cbn.
  - split_and!; [|intros k Hk; apply Hf; cbn in Hk; lia|done..]. unfold CreateDelivery in E. fold (is_told (told x) (ds_db s)) in E.
    destruct (is_told _ _); [done|]. rewrite bool_decide_false in E.
    + rewrite (bool_decide_true _ Hr) in E. done.
    + intros [y Hy]. cbn in Hy. rewrite Hf in Hy; [done|lia].
  - pose proof (notify_exec_le (NCreate x) (ds_db s)) as Hle. cbn in Hle. rewrite E in Hle.
    apply CreateDelivery_inr in E as (_ & _ & _ & ->). split_and!; [|..|done|intros p; by apply notify_le_told|done].
    + apply is_told_spec. exists (dl_ID x), x. cbn. by rewrite lookup_insert_eq.
    + intros k Hk. cbn in Hk |- *. rewrite lookup_insert_ne; [apply Hf; lia|]. intros E. apply Hinj in E. lia.
Qed.

Lemma queue_all_tells run msg channels s :
  never_away -> never_cancelled -> (forall j k, nt_newID j = nt_newID k -> j = k) -> fresh_ahead s ->
  is_Some (nd_runs (ds_db s) !! sum_ID run) ->
  let s' := (queue_all channels run msg s).2 in
  (forall p, is_told p (ds_db s) = true -> is_told p (ds_db s') = true) /\
  forall ch, ch ∈ channels -> is_told (sum_ID run, nf_ID (ch_config ch)) (ds_db s') = true.
Proof.
  intros Hna Hnc Hinj. revert s. induction channels as [|ch l IH]; intros s Hf Hr.
  { cbn. split; [done|]. intros ch Hin. by apply elem_of_nil in Hin. }
  set (s0 := mkDisp (ds_db s) (S (ds_time s)) (ds_complainedAbout s) (ds_posts s)).
  destruct (queue_tells run msg ch s0) as (Ht & Hf1 & Hr1 & Hm & E); [done..|intros k Hk; apply Hf; cbn in Hk; lia|done|].
  assert (queue_all (ch :: l) run msg s = queue_all l run msg (queue ch run msg s0).2) as ->.
  { cbn [queue_all]. rewrite (bind_Ret _ _ s None s0) by (unfold n_ctx, n_outside; by rewrite Hnc). by rewrite (bind_Ret _ _ _ _ _ E). }
  destruct (IH (queue ch run msg s0).2) as [IHm IHt]; [done|by rewrite Hr1|].
  split; [intros p Hp; by apply IHm, Hm|]. intros ch' Hin. apply elem_of_cons in Hin as [->|Hin]; [by apply IHm|by apply IHt].
Qed.
(** ** A whole decision *)

Definition claimed (run : RunSummary) (at_ : Z) (db : NotifyDB) : NotifyDB :=
  mkNotifyDB (nd_runs db) (<[sum_ID run := at_]> (nd_notified db)) (nd_values db) (nd_deliveries db).
Definition can_win (run : RunSummary) (db : NotifyDB) : Prop :=
  is_Some (nd_runs db !! sum_ID run) /\ nd_notified db !! sum_ID run = None.

Lemma claim_calm run at_ db ps :
  post (calm db ps) (n_claim (sum_ID run) at_)
    (fun won s =>
      match won with
      | Some true => can_win run db /\ calm (claimed run at_ db) ps s
      | _ => (never_away -> ~ can_win run db) /\ calm db ps s
      end) never.
Proof.
  eapply post_bind; [apply outside_calm|]. intros away s [[Hdb Hps] [k ->]]. destruct (nt_away k) eqn:E; cbn.
  - split; [|done]. intros Hn. by rewrite Hn in E.
  - rewrite Hdb. unfold can_win. destruct (ClaimRunForNotify_cases (sum_ID run) at_ db) as [(-> & Hn & Hr)|(-> & Hc)]; cbn.
    + done.
    + split; [|done]. intros _ [Hr Hn]. rewrite Hn in Hc. destruct Hc as [Hc|[? ?]]; [|done]. rewrite Hc in Hr. by destruct Hr.
Qed.

(** What a claimed run leaves. *)
Definition decided (run : RunSummary) (channels : list channel) (db db1 db' : NotifyDB) : Prop :=
  db' = db1 \/
  exists t k, worth db run = Some t /\ expired opts run (nt_now k) = false /\
    announces (said_by run t channels) db1 db'.

Definition considered_as (run : RunSummary) (channels : list channel) (db db' : NotifyDB) : Prop :=
  db' = db \/ exists at_, can_win run db /\ decided run channels db (claimed run at_ db) db'.

Lemma worth_claimed run at_ db : worth (claimed run at_ db) run = worth db run.
Proof. done. Qed.

Lemma consider_post run channels db ps :
  post (calm db ps) (consider opts run channels)
    (fun _ s => ds_posts s = ps /\ considered_as run channels db (ds_db s)) never.
Proof.
  eapply post_bind; [apply outside_calm|]. intros at_. apply (post_bind _ _ _ (fun won s =>
    match won with
    | Some true => can_win run db /\ calm (claimed run at_ db) ps s
    | _ => (never_away -> ~ can_win run db) /\ calm db ps s
    end)).
  { eapply post_pre; [apply claim_calm|]. by intros s [? _]. }
  assert (forall s, calm db ps s -> ds_posts s = ps /\ considered_as run channels db (ds_db s)) as Hsame.
  { intros s [<- <-]. split; [done|by left]. }
  intros [[]|]; [|by apply post_ret; intros s [_ ?]; apply Hsame..].
  set (db1 := claimed run at_ db).
  apply post_fact_l. intros Hw.
  assert (forall s, calm db1 ps s -> ds_posts s = ps /\ considered_as run channels db (ds_db s)) as Hsilent.
  { intros s [Hdb <-]. split; [done|]. right. exists at_. split; [done|]. by left. }
  eapply post_bind; [apply tooOld_calm|]. intros old. apply post_fact_r. intros [k Hk].
  destruct old; [by apply post_ret|].
  eapply post_bind; [apply query_calm|]. intros story. apply post_fact_r. intros [Hst _].
  destruct story as [story|]; [|by apply post_ret]. destruct Hst as [[=]|[= ->]].
  eapply post_bind; [apply (transition_calm run db1)|]. intros said. apply post_fact_r. intros [Ht _].
  destruct said as [t|]; [|by apply post_ret]. destruct Ht as [[=]|Ht].
  eapply post_weaken; [apply (queue_all_saying run t channels db1 ps)|intros s [Hdb Hps]; split; [rewrite Hdb; apply announces_refl|done]|intros _ s [Ha Hps]|done].
  split; [done|]. right. exists at_. split; [done|]. right. by exists t, k.
Qed.

(** C38: what the dispatcher does about a run, whatever fails: the database, the
    context, at any call. The decision always ends; it posts nothing; and it leaves
    the database as it was, or, when nobody had claimed the run, marks it as
    considered and adds at most messages that are new, one to each of its channels,
    not attempted yet, saying what [worth] makes of the history in the database,
    and of a run that is not too old. Everything else is as it was. *)
Theorem consider_refines run channels s :
  let '(o, s') := consider opts run channels s in
  o = Ret tt /\ ds_posts s' = ds_posts s /\ considered_as run channels (ds_db s) (ds_db s').
Proof.
  pose proof (consider_post run channels (ds_db s) (ds_posts s) s (conj eq_refl eq_refl)) as Hc.
  by destruct (consider opts run channels s) as [[[]| |] s'].
Qed.
(** When everything works: the database answers, nobody cancels, and the
    identifiers are new. *)
Record working (db : NotifyDB) : Prop := {
  wk_up : never_away;
  wk_running : never_cancelled;
  wk_distinct : forall j k, nt_newID j = nt_newID k -> j = k;
  wk_fresh : forall k, nd_deliveries db !! nt_newID k = None;
}.

Lemma consider_tells run channels db ps t :
  working db -> can_win run db -> (forall k, expired opts run (nt_now k) = false) -> worth db run = Some t ->
  post (calm db ps) (consider opts run channels)
    (fun _ s => forall ch, ch ∈ channels -> is_told (sum_ID run, nf_ID (ch_config ch)) (ds_db s) = true) never.
Proof.
  intros [Hup Hrun Hdist Hfresh] Hw Hnew Ht.
  eapply post_bind; [apply outside_calm|]. intros at_. apply post_fact_r. intros _.
  eapply post_bind; [apply claim_calm|]. set (db1 := claimed run at_ db).
  intros [[]|]; [|by apply post_fact_l; intros Hn; destruct (Hn Hup)..]. apply post_fact_l. intros _.
  eapply post_bind; [apply tooOld_calm|]. intros old. apply post_fact_r. intros [k Hk]. rewrite Hnew in Hk. subst old.
  eapply post_bind; [apply query_calm|]. intros story. apply post_fact_r. intros [_ Hst]. rewrite (Hst Hup).
  eapply post_bind; [apply (transition_calm run db1)|]. intros said. apply post_fact_r. intros [_ Hsaid].
  specialize (Hsaid Hup). change (worth db1 run) with (worth db run) in Hsaid. rewrite Ht in Hsaid. subst said.
  intros s [Hdb Hps]. pose proof (queue_all_saying run t channels db1 ps s ltac:(split; [rewrite Hdb; apply announces_refl|done])) as Hq.
  destruct (queue_all_tells run (message opts run t) channels s) as [_ Htold]; [done..| | |].
  - intros j _. rewrite Hdb. apply Hfresh.
  - rewrite Hdb. apply Hw.
  - by destruct (queue_all channels run (message opts run t) s) as [[| |] ?].
Qed.

(** What is worth saying is said. When the database answers and the pass is not
    cancelled, a run nobody has considered, that is not too old and that the
    history makes worth a message, is announced to every channel that has not been
    told about it: a delivery of exactly that message, due at once, is in the
    queue. *)
Theorem consider_announces run channels s t ch :
  working (ds_db s) -> can_win run (ds_db s) -> (forall k, expired opts run (nt_now k) = false) ->
  worth (ds_db s) run = Some t -> ch ∈ channels ->
  is_told (sum_ID run, nf_ID (ch_config ch)) (ds_db s) = false ->
  exists ch' id now, ch' ∈ channels /\ nf_ID (ch_config ch') = nf_ID (ch_config ch) /\
    nd_deliveries (ds_db (consider opts run channels s).2) !! id = Some (announcement run t ch' id now).
Proof.
  intros Hwk Hw Hnew Ht Hch Hnot.
  pose proof (consider_tells run channels _ (ds_posts s) t Hwk Hw Hnew Ht s (conj eq_refl eq_refl)) as Htold.
  pose proof (consider_post run channels _ (ds_posts s) s (conj eq_refl eq_refl)) as Hc.
  destruct (consider opts run channels s) as [[[]| |] s']; [|done..]. cbn [snd].
  specialize (Htold ch Hch). apply is_told_spec in Htold as (id & x & Ex & Etold). destruct Hc as [_ Hc].
  assert (nd_deliveries (ds_db s) !! id <> Some x) as Hold.
  { intros E. apply not_true_iff_false in Hnot. apply Hnot, is_told_spec. eauto. }
  destruct Hc as [E|(at_ & _ & [E|(t' & k & Ht' & _ & Ha)])]; [by rewrite E in Ex|by rewrite E in Ex|].
  rewrite Ht in Ht'. injection Ht' as <-. destruct (an_new _ _ _ Ha id x Ex) as [?|[Hid (ch' & id' & now & Hin & ->)]]; [done|].
  cbn in Hid. subst id'. exists ch', id, now. split_and!; [done| |done]. unfold told in Etold. cbn in Etold. congruence.
Qed.
End Consider.
