(* ===== verification/DeliveryAttempts.v ===== *)
(** * What becomes of a delivery

    One attempt, one pass over what is due, and any number of passes: every
    delivery that keeps coming up is settled within four attempts, and is posted
    at most four times. *)

From Stdlib Require Import ZArith Lia String Ascii List.
From stdpp Require Import relations sorting.
From S2P Require Import Prelude GoTime GoFloat Errors Core GoString GoStrconv GoFmt Config Queue Listing Story Deliveries Dispatcher DispatcherTheorems.

(** ** One attempt *)

Section Deliver.
Context `{Collation} `{NotifyEnv} (d : dialect) (opts : NotifyOptions).

(** The HTTP client reports a cancellation only of a context that was cancelled. *)
Definition honest_client : Prop := forall k target payload,
  match nt_Do k target payload with
  | BuildFailed e | DoFailed e => Is (withoutURL e) context_Canceled = false
  | Answered _ _ _ => True
  end.
Record delivering : Prop := {
  dv_up : never_away;
  dv_running : never_cancelled;
  dv_client : honest_client;
}.

(** A delivery after an attempt, and the state. *)
Record tried (row r : Delivery) : Prop := {
  td_message : message_of r = message_of row;
  td_attempts : dl_Attempts r = dl_Attempts row + 1;
  td_pending : dl_State r = DeliveryPending -> 0 <= dl_Attempts r < 4;
}.
Definition post_of (id : string) (p : string * string * json) : bool := bool_decide (p.1.1 = id).
Record attempted (row : Delivery) (s s' : Disp) : Prop := {
  at_row : exists r, tried row r /\ ds_db s' = set_deliveries (<[dl_ID row := r]> (nd_deliveries (ds_db s))) (ds_db s);
  at_posts : exists l, ds_posts s' = ds_posts s ++ l /\ (length l <= 1)%nat /\ Forall (fun p => p.1 .1 = dl_ID row) l;
}.

Lemma settle_run row state attempts nextAt status err sentAt s s1 l :
  never_away -> nd_deliveries (ds_db s) !! dl_ID row = Some row ->
  ds_db s1 = ds_db s -> ds_posts s1 = ds_posts s ++ l -> (length l <= 1)%nat -> Forall (fun p => p.1.1 = dl_ID row) l ->
  attempts = dl_Attempts row + 1 -> (state = DeliveryPending -> 0 <= attempts < 4) ->
  let '(o, s') := settle (outcome row state attempts nextAt status err sentAt) s1 in o = Ret tt /\ attempted row s s'.
Proof.
  intros Hup Hrow Hdb Hps Hl Hall -> Hp. unfold settle, n_exec, n_outside, mbind, M_bind. cbn. rewrite Hup. cbn.
  unfold SettleDelivery. cbn. rewrite Hdb, Hrow. cbn. split; [done|]. split; cbn.
  - exists (outcome row state (dl_Attempts row + 1) nextAt status err sentAt). split; [|by destruct row]. by split.
  - by exists l.
Qed.

Lemma NextAttempt_bounds attempts r wait : NextAttempt attempts r = Some wait -> 0 <= attempts < 4.
Proof. unfold NextAttempt. zcases; rewrite ?orb_true_r, ?orb_false_r; cbn in *; try lia; done. Qed.

Lemma classify_not_cancelled status body e : classify status body = Some e -> Is e context_Canceled = false.
Proof. unfold classify. destruct (_ && _); [done|]. by destruct (_ || _); intros [= <-]. Qed.

Lemma attempt_run row channels s :
  delivering -> nd_deliveries (ds_db s) !! dl_ID row = Some row ->
  let '(o, s') := attempt row channels s in o = Ret tt /\ attempted row s s'.
Proof.
  intros [Hup Hrun Hclient] Hrow. unfold attempt.
  assert (forall reason, let '(o, s') := fail_delivery row reason s in o = Ret tt /\ attempted row s s') as Hfail.
  { intros reason. apply (settle_run _ _ _ _ _ _ _ s s []); try done; [by rewrite app_nil_r|cbn; lia]. }
  destruct (channelFor channels (dl_ChannelID row)) as [ch|]; [|apply Hfail].
  destruct (nt_Target (ch_config ch)) as [err|target]; [apply Hfail|].
  set (s1 := mkDisp (ds_db s) (ds_time s) (ds_complainedAbout s) (ds_posts s ++ [(dl_ID row, target, dl_Payload row)])).
  assert (exists r s2, sender_Post row target s = (Ret r, s2) /\ ds_db s2 = ds_db s1 /\ ds_posts s2 = ds_posts s1 /\
    abandoned None r = false) as (r & s2 & E & Hdb & Hps & Hab).
  { unfold sender_Post, modify, n_ctx, n_outside, mbind, M_bind. fold s1. cbn.
    pose proof (Hclient (ds_time s) target (dl_Payload row)) as Hc.
    destruct (nt_Do (ds_time s) target (dl_Payload row)) as [e|e|status body header]; cbn.
    - eexists _, _. split_and!; [done..|]. unfold abandoned. cbn. by rewrite Hc.
    - rewrite Hrun. eexists _, _. split_and!; [done..|]. unfold abandoned. cbn. by rewrite Hc.
    - eexists _, _. split_and!; [done..|]. unfold abandoned. cbn.
      destruct (classify _ _) as [e|] eqn:Ec; [|done]. by rewrite (classify_not_cancelled _ _ _ Ec). }
  rewrite (bind_Ret _ _ _ _ _ E).
  assert (forall state nextAt status err sentAt s3, ds_db s3 = ds_db s2 -> ds_posts s3 = ds_posts s2 ->
    (state = DeliveryPending -> 0 <= dl_Attempts row + 1 < 4) ->
    let '(o, s') := settle (outcome row state (dl_Attempts row + 1) nextAt status err sentAt) s3 in
    o = Ret tt /\ attempted row s s') as Hsettle.
  { intros state nextAt status err sentAt s3 E1 E2 Hp.
    apply (settle_run _ _ _ _ _ _ _ s s3 [(dl_ID row, target, dl_Payload row)]); try done.
    - by rewrite E1, Hdb.
    - by rewrite E2, Hps.
    - by apply Forall_singleton. }
  clear E. unfold n_ctx, n_now, n_outside. unfold mbind at 1, M_bind at 1. rewrite Hrun, Hab.
  destruct (rs_Err r) as [err|].
  - destruct (NextAttempt (dl_Attempts row + 1) r) as [wait|] eqn:En; [|by apply Hsettle].
    apply NextAttempt_bounds in En. by apply Hsettle.
  - by apply Hsettle.
Qed.
(** ** A pass over what is due *)

(** The same messages, whatever became of them. *)
Definition same_messages (t t' : DeliveryTable) : Prop := forall id, message_of <$> t' !! id = message_of <$> t !! id.
Lemma same_messages_good t t' : same_messages t t' -> good_deliveries t -> good_deliveries t'.
Proof.
  intros Hsame [Hk Hu].
  assert (forall id x, t' !! id = Some x -> exists y, t !! id = Some y /\ message_of y = message_of x) as Hback.
  { intros id x E. specialize (Hsame id). rewrite E in Hsame. cbn in Hsame. symmetry in Hsame.
    apply fmap_Some in Hsame as (y & -> & Ey). eauto. }
  split.
  - intros id x E. destruct (Hback id x E) as (y & Ey & Em). rewrite <- (Hk id y Ey). unfold message_of in Em. congruence.
  - intros id1 id2 x1 x2 E1 E2 Et. destruct (Hback _ _ E1) as (y1 & Ey1 & Em1). destruct (Hback _ _ E2) as (y2 & Ey2 & Em2).
    apply (Hu _ _ y1 y2 Ey1 Ey2). rewrite (told_message _ _ Em1), (told_message _ _ Em2). done.
Qed.

Definition posts_for (id : string) (s : Disp) : nat := countb (post_of id) (ds_posts s).

(** What a pass over [due] does to each delivery. *)
Record passed (due : list Delivery) (s s' : Disp) : Prop := {
  ps_messages : same_messages (nd_deliveries (ds_db s)) (nd_deliveries (ds_db s'));
  ps_due x : x ∈ due -> exists r, nd_deliveries (ds_db s') !! dl_ID x = Some r /\ tried x r /\
                        (posts_for (dl_ID x) s' <= S (posts_for (dl_ID x) s))%nat;
  ps_other id : id ∉ map dl_ID due ->
    nd_deliveries (ds_db s') !! id = nd_deliveries (ds_db s) !! id /\ posts_for id s' = posts_for id s;
}.

Lemma attempted_messages row s s' :
  nd_deliveries (ds_db s) !! dl_ID row = Some row -> attempted row s s' ->
  same_messages (nd_deliveries (ds_db s)) (nd_deliveries (ds_db s')).
Proof.
  intros Hrow [(r & Ht & ->) _] id. cbn. destruct (decide (dl_ID row = id)) as [<-|Hne].
  - rewrite lookup_insert_eq, Hrow. cbn. by rewrite (td_message _ _ Ht).
  - by rewrite lookup_insert_ne.
Qed.
Lemma attempted_other row s s' id :
  attempted row s s' -> id <> dl_ID row ->
  nd_deliveries (ds_db s') !! id = nd_deliveries (ds_db s) !! id /\ posts_for id s' = posts_for id s.
Proof.
  intros [(r & _ & ->) (l & Hps & _ & Hl)] Hne. unfold posts_for. rewrite Hps, countb_app, (countb_0 _ l); cbn.
  - split; [by rewrite lookup_insert_ne|lia].
  - eapply Forall_impl; [exact Hl|]. intros p E. unfold post_of. apply bool_decide_false. congruence.
Qed.
Lemma attempted_own row s s' :
  attempted row s s' ->
  exists r, nd_deliveries (ds_db s') !! dl_ID row = Some r /\ tried row r /\
    (posts_for (dl_ID row) s' <= S (posts_for (dl_ID row) s))%nat.
Proof.
  intros [(r & Ht & ->) (l & Hps & Hlen & _)]. exists r. cbn. rewrite lookup_insert_eq. split_and!; [done..|].
  unfold posts_for. rewrite Hps, countb_app. pose proof (filter_length_le (post_of (dl_ID row)) l) as Hf.
  unfold countb in *. lia.
Qed.

Lemma attempt_all_run due channels s :
  delivering -> NoDup (map dl_ID due) -> (forall x, x ∈ due -> nd_deliveries (ds_db s) !! dl_ID x = Some x) ->
  let '(o, s') := attempt_all due channels s in o = Ret tt /\ passed due s s'.
Proof.
  intros Hd. revert s. induction due as [|x due IH]; intros s Hnd Hin.
  { cbn. split; [done|]. split; [done| |done]. intros x Hx. by apply elem_of_nil in Hx. }
  cbn in Hnd. apply NoDup_cons in Hnd as [Hx Hnd].
  set (s0 := mkDisp (ds_db s) (S (ds_time s)) (ds_complainedAbout s) (ds_posts s)).
  pose proof (attempt_run x channels s0 Hd (Hin x ltac:(left))) as Ha.
  destruct (attempt x channels s0) as [o s1] eqn:E. destruct Ha as [-> Ha].
  assert (attempt_all (x :: due) channels s = attempt_all due channels s1) as ->.
  { cbn [attempt_all]. rewrite (bind_Ret _ _ s None s0) by (unfold n_ctx, n_outside; by rewrite (dv_running Hd)).
    by rewrite (bind_Ret _ _ _ _ _ E). }
  assert (forall y, y ∈ due -> dl_ID y <> dl_ID x) as Hne.
  { intros y Hy Ey. apply Hx. rewrite <- Ey. by apply list_elem_of_fmap_2. }
  specialize (IH s1 Hnd). destruct (attempt_all due channels s1) as [o s'].
  destruct IH as [-> Hp].
  { intros y Hy. destruct (attempted_other _ _ _ (dl_ID y) Ha (Hne y Hy)) as [-> _]. apply Hin. by right. }
  split; [done|]. split.
  - intros id. rewrite (ps_messages _ _ _ Hp id). apply (attempted_messages x s0 s1 (Hin x ltac:(left)) Ha).
  - intros y Hy. apply elem_of_cons in Hy as [->|Hy].
    + destruct (ps_other _ _ _ Hp (dl_ID x) Hx) as [-> ->]. exact (attempted_own x s0 s1 Ha).
    + destruct (ps_due _ _ _ Hp y Hy) as (r & Er & Ht & Hc). exists r. split_and!; [done..|].
      destruct (attempted_other _ _ _ (dl_ID y) Ha (Hne y Hy)) as [_ Hs]. by rewrite Hs in Hc.
  - intros id Hid. cbn in Hid. apply not_elem_of_cons in Hid as [Hid1 Hid2].
    destruct (ps_other _ _ _ Hp id Hid2) as [-> ->]. exact (attempted_other x s0 s1 id Ha Hid1).
Qed.

(** What [DueDeliveries] selects. *)
Lemma elem_deliveries (f : Delivery -> bool) t x :
  good_deliveries t ->
  x ∈ List.filter f (map snd (map_to_list t)) <-> t !! dl_ID x = Some x /\ f x = true.
Proof.
  intros [Hk _]. rewrite list_elem_of_In, filter_In, in_map_iff. split.
  - intros [([id y] & <- & Hin) E]. apply list_elem_of_In, elem_of_map_to_list in Hin. cbn in *. by rewrite (Hk id y Hin).
  - intros [E Ef]. split; [|done]. exists (dl_ID x, x). by rewrite <- list_elem_of_In, elem_of_map_to_list.
Qed.
Lemma DueDeliveries_rows now limit db x :
  good_deliveries (nd_deliveries db) -> x ∈ DueDeliveries d now limit db ->
  nd_deliveries db !! dl_ID x = Some x /\ is_due now x = true.
Proof.
  intros Hg Hin. unfold DueDeliveries in Hin. apply subseteq_take in Hin.
  by rewrite merge_sort_Permutation, elem_deliveries in Hin.
Qed.
Lemma map_filter_map_snd_NoDup (f : Delivery -> bool) (l : list (string * Delivery)) :
  NoDup l.*1 -> (forall id x, (id, x) ∈ l -> dl_ID x = id) -> NoDup (map dl_ID (List.filter f (map snd l))).
Proof.
  induction l as [|[id x] l IH]; intros Hnd Hk; cbn; [constructor|]. cbn in Hnd. apply NoDup_cons in Hnd as [Hid Hnd].
  specialize (IH Hnd ltac:(intros; apply Hk; by right)). destruct (f x); [|done]. cbn. constructor; [|done].
  rewrite (Hk id x) by left. intros Hin. apply Hid. apply list_elem_of_In, in_map_iff in Hin as (y & Ey & Hy).
  apply filter_In in Hy as [Hy _]. apply in_map_iff in Hy as ([id' y'] & E & Hy). cbn in E. subst y'.
  apply list_elem_of_fmap. exists (id', y). split; [|by apply list_elem_of_In]. cbn. rewrite <- Ey.
  apply Hk. right. by apply list_elem_of_In.
Qed.
Lemma DueDeliveries_NoDup now limit db :
  good_deliveries (nd_deliveries db) -> NoDup (map dl_ID (DueDeliveries d now limit db)).
Proof.
  intros [Hk _]. unfold DueDeliveries. rewrite <- firstn_map.
  eapply sublist_NoDup; [|apply sublist_take]. rewrite merge_sort_Permutation.
  apply map_filter_map_snd_NoDup; [apply NoDup_fst_map_to_list|]. intros id x Hin. by apply Hk, elem_of_map_to_list.
Qed.
Lemma DueDeliveries_complete now limit db x :
  good_deliveries (nd_deliveries db) -> (size (nd_deliveries db) <= limit_of limit)%nat ->
  nd_deliveries db !! dl_ID x = Some x -> is_due now x = true -> x ∈ DueDeliveries d now limit db.
Proof.
  intros Hg Hsize E Hdue. unfold DueDeliveries. rewrite list.take_ge.
  - rewrite merge_sort_Permutation. by apply elem_deliveries.
  - rewrite merge_sort_Permutation. etransitivity; [apply filter_length_le|]. by rewrite length_map, length_map_to_list.
Qed.

Lemma deliver_pass_run channels s :
  delivering -> good_deliveries (nd_deliveries (ds_db s)) ->
  let '(o, s') := deliver_pass d opts channels s in
  o = Ret tt /\ passed (DueDeliveries d (nt_now (ds_time s)) (no_batch opts) (ds_db s)) s s'.
Proof.
  intros Hd Hg. set (due := DueDeliveries _ _ _ _).
  set (s0 := mkDisp (ds_db s) (S (S (ds_time s))) (ds_complainedAbout s) (ds_posts s)).
  assert (deliver_pass d opts channels s = attempt_all due channels s0) as ->.
  { unfold deliver_pass, n_now, n_query, n_outside, mbind, M_bind. cbn. by rewrite (dv_up Hd). }
  pose proof (attempt_all_run due channels s0 Hd (DueDeliveries_NoDup _ _ _ Hg)) as Hp.
  destruct (attempt_all due channels s0) as [o s']. destruct Hp as [-> [Hm Hdue Hother]]; [|by split].
  intros x Hx. by destruct (DueDeliveries_rows _ _ _ _ Hg Hx).
Qed.
(** ** Passes, one after the other *)

(** A delivery comes up: it is due when the pass looks, unless it is settled, and
    the pass is large enough for everything there is. *)
Definition comes_up (id : string) (s : Disp) : Prop :=
  (size (nd_deliveries (ds_db s)) <= limit_of (no_batch opts))%nat /\
  forall x, nd_deliveries (ds_db s) !! id = Some x -> dl_State x = DeliveryPending -> is_due (nt_now (ds_time s)) x = true.

(** [n] passes in which it does, with any time and any configuration between them. *)
Inductive passes (id : string) : nat -> Disp -> Disp -> Prop :=
| passes_O s : passes id 0 s s
| passes_S n s s1 w channels :
    passes id n s s1 -> ds_db w = ds_db s1 -> ds_posts w = ds_posts s1 -> comes_up id w ->
    passes id (S n) s (deliver_pass d opts channels w).2.

(** The attempts a delivery has left. *)
Definition attempts_left (x : Delivery) : nat :=
  if bool_decide (dl_State x = DeliveryPending) then Z.to_nat (4 - dl_Attempts x) else 0%nat.
Definition sane (x : Delivery) : Prop := dl_State x = DeliveryPending -> 0 <= dl_Attempts x < 4.

Lemma tried_left x r : sane x -> dl_State x = DeliveryPending -> tried x r -> sane r /\ (S (attempts_left r) <= attempts_left x)%nat.
Proof.
  intros Hs Hp [_ Ha Hr]. split; [exact Hr|]. specialize (Hs Hp). unfold attempts_left. rewrite (bool_decide_true _ Hp).
  case_bool_decide as Ep; [specialize (Hr Ep)|]; lia.
Qed.

(** One pass, for one delivery. *)
Lemma pass_progress channels id s x :
  delivering -> good_deliveries (nd_deliveries (ds_db s)) -> comes_up id s ->
  nd_deliveries (ds_db s) !! id = Some x -> sane x ->
  let s' := (deliver_pass d opts channels s).2 in
  good_deliveries (nd_deliveries (ds_db s')) /\
  exists x', nd_deliveries (ds_db s') !! id = Some x' /\ message_of x' = message_of x /\ sane x' /\
    (posts_for id s' + attempts_left x' <= posts_for id s + attempts_left x)%nat /\
    (attempts_left x' <= Nat.pred (attempts_left x))%nat.
Proof.
  intros Hd Hg [Hsize Hdue] Ex Hs. pose proof (deliver_pass_run channels s Hd Hg) as Hp.
  destruct (deliver_pass d opts channels s) as [o s']. destruct Hp as [_ [Hm Hown Hother]]. cbn.
  split; [by eapply same_messages_good|]. assert (dl_ID x = id) as Hid by by apply Hg.
  destruct (decide (dl_State x = DeliveryPending)) as [Hpend|Hpend].
  - assert (x ∈ DueDeliveries d (nt_now (ds_time s)) (no_batch opts) (ds_db s)) as Hin.
    { apply DueDeliveries_complete; [done|done|by rewrite Hid|by apply Hdue]. }
    destruct (Hown x Hin) as (r & Er & Ht & Hc). rewrite Hid in Er, Hc. destruct (tried_left x r Hs Hpend Ht) as [Hsr Hl].
    exists r. split_and!; [done|by apply td_message|done|lia|lia].
  - assert (id ∉ map dl_ID (DueDeliveries d (nt_now (ds_time s)) (no_batch opts) (ds_db s))) as Hout.
    { intros Hin. apply list_elem_of_fmap in Hin as (y & Ey & Hy). apply (DueDeliveries_rows _ _ _ _ Hg) in Hy as [Hy Hd2].
      rewrite <- Ey, Ex in Hy. injection Hy as <-. unfold is_due in Hd2. by rewrite (bool_decide_false _ Hpend) in Hd2. }
    destruct (Hother id Hout) as [E ->]. exists x. rewrite E. split_and!; [done..|lia|].
    unfold attempts_left. rewrite (bool_decide_false _ Hpend). lia.
Qed.

Lemma passes_progress n id s s' x :
  delivering -> good_deliveries (nd_deliveries (ds_db s)) -> nd_deliveries (ds_db s) !! id = Some x -> sane x ->
  passes id n s s' ->
  good_deliveries (nd_deliveries (ds_db s')) /\
  exists x', nd_deliveries (ds_db s') !! id = Some x' /\ message_of x' = message_of x /\ sane x' /\
    (posts_for id s' + attempts_left x' <= posts_for id s + attempts_left x)%nat /\
    (attempts_left x' <= attempts_left x - n)%nat.
Proof.
  intros Hd Hg Ex Hs. induction 1 as [s|n s s1 w channels Hp IH Hdb Hps Hup].
  - split; [done|]. exists x. split_and!; [done..|lia|lia].
  - destruct (IH Hg Ex) as (Hg1 & x1 & E1 & Hm1 & Hs1 & Hc1 & Hl1). rewrite <- Hdb in Hg1, E1.
    destruct (pass_progress channels id w x1 Hd Hg1 Hup E1 Hs1) as (Hg2 & x2 & E2 & Hm2 & Hs2 & Hc2 & Hl2).
    split; [done|]. exists x2. unfold posts_for in Hc2. rewrite Hps in Hc2. fold (posts_for id s1) in Hc2.
    split_and!; [done|by rewrite Hm2|done| |lia]. unfold posts_for at 1. lia.
Qed.

(** C39: a message is delivered or given up on. When one dispatcher posts alone, the
    database always answers, nothing is cancelled and the HTTP client does not pretend
    so, then whatever the peer answers, over any passes in which the delivery came up
    (it was due unless settled, and all the deliveries there are fit in a batch): it
    keeps its message; it is posted at most as many times as it had attempts left,
    four for a new one; and after that many passes it is pending no more. *)
Theorem delivery_settles n id s s' x :
  delivering -> good_deliveries (nd_deliveries (ds_db s)) -> nd_deliveries (ds_db s) !! id = Some x -> sane x ->
  passes id n s s' ->
  exists x', nd_deliveries (ds_db s') !! id = Some x' /\ message_of x' = message_of x /\
    (posts_for id s' <= posts_for id s + attempts_left x)%nat /\
    ((attempts_left x <= n)%nat -> dl_State x' <> DeliveryPending).
Proof.
  intros Hd Hg Ex Hs Hp. destruct (passes_progress n id s s' x Hd Hg Ex Hs Hp) as (_ & x' & E & Hm & Hs' & Hc & Hl).
  exists x'. split_and!; [done..|lia|]. intros Hn Hpend. specialize (Hs' Hpend). unfold attempts_left in Hl at 1.
  rewrite (bool_decide_true _ Hpend) in Hl. lia.
Qed.
End Deliver.

(** ** What is written down of a failure *)

(** A byte that a text does not hold separates where it can occur. *)
Lemma prefix_sep c u a b : existsb_char (Ascii.eqb c) u = false -> String.prefix u (a +:+ String c b) = String.prefix u a.
Proof.
  revert a. induction u as [|x u IH]; intros a Hu; [by destruct a|]. cbn in Hu. apply orb_false_iff in Hu as [Hx Hu].
  destruct a as [|y a].
  - change ("" +:+ String c b) with (String c b). cbn. destruct (ascii_dec x c) as [->|]; [by rewrite Ascii.eqb_refl in Hx|done].
  - change (String y a +:+ String c b) with (String y (a +:+ String c b)). cbn. destruct (ascii_dec x y); [by apply IH|done].
Qed.
Lemma Contains_sep c u a b : u <> "" -> existsb_char (Ascii.eqb c) u = false ->
  Contains (a +:+ String c b) u = Contains a u || Contains b u.
Proof.
  intros Hne Hu. induction a as [|x a IH].
  - change ("" +:+ String c b) with (String c b). cbn [Contains]. destruct u as [|y u]; [done|]. cbn in Hu |- *.
    apply orb_false_iff in Hu as [Hy _]. destruct (ascii_dec y c) as [->|]; [by rewrite Ascii.eqb_refl in Hy|done].
  - change (String x a +:+ String c b) with (String x (a +:+ String c b)). cbn [Contains]. rewrite IH.
    change (String x (a +:+ String c b)) with (String x a +:+ String c b). by rewrite prefix_sep, orb_assoc.
Qed.

(** A target that a replacement hides: one between two bytes that the target does not
    hold, such as angle brackets. *)
Record hidden_between (lo hi : ascii) (middle target : string) : Prop := {
  hb_some : target <> "";
  hb_open : existsb_char (Ascii.eqb lo) target = false;
  hb_close : existsb_char (Ascii.eqb hi) target = false;
  hb_apart : Contains middle target = false;
}.
Definition hidden_by : string -> string -> Prop := hidden_between "<" ">".
Section Hidden.
Context (lo hi : ascii) (middle target : string) (Hh : hidden_between lo hi middle target).
Abbreviation replacement := (String lo (middle +:+ String hi "")).
Abbreviation hide := (fun fuel s => replace_all fuel s target replacement).

(** A prefix without an opening bracket of what is left is one of what was there. *)
Lemma hide_prefix fuel u s : existsb_char (Ascii.eqb lo) u = false -> String.prefix u (hide fuel s) = true -> String.prefix u s = true.
Proof.
  revert fuel s. induction u as [|x u IH]; intros fuel s Hu Hp; [by destruct s|].
  cbn in Hu. apply orb_false_iff in Hu as [Hx Hu]. destruct fuel as [|fuel]; [done|]. destruct s as [|c s]; [done|].
  cbn [replace_all] in Hp. destruct (HasPrefix (String c s) target).
  - change (replacement +:+ ?r) with (String lo ((middle +:+ String hi "") +:+ r)) in Hp. cbn in Hp.
    destruct (ascii_dec x lo) as [->|]; [by rewrite Ascii.eqb_refl in Hx|done].
  - cbn in Hp |- *. destruct (ascii_dec x c); [by eapply IH|done].
Qed.
Lemma hide_prefix_after fuel u c s : existsb_char (Ascii.eqb lo) u = false ->
  String.prefix u (String c (hide fuel s)) = true -> String.prefix u (String c s) = true.
Proof.
  destruct u as [|x u]; [done|]. cbn. intros [_ Hu]%orb_false_iff. destruct (ascii_dec x c); [by apply hide_prefix|done].
Qed.
Lemma hide_clean fuel s : (String.length s < fuel)%nat -> Contains (hide fuel s) target = false.
Proof.
  destruct Hh as [Hne Ho Hc Ha]. revert s. induction fuel as [|fuel IH]; intros s Hl; [lia|]. destruct s as [|c s].
  { cbn. destruct target; [done|done]. }
  cbn [replace_all]. cbn in Hl. destruct (HasPrefix (String c s) target) eqn:Hp.
  - match goal with |- context [replacement +:+ ?r] => set (rest := r) end. change (Contains (replacement +:+ rest) target = false).
    replace (replacement +:+ rest) with ("" +:+ String lo (middle +:+ String hi rest))
      by (change (String lo (middle +:+ String hi rest) = String lo ((middle +:+ String hi "") +:+ rest)); f_equal; by rewrite <- string_app_assoc).
    rewrite !Contains_sep by done. rewrite Ha. subst rest. rewrite IH.
    + destruct target; done.
    + pose proof (HasPrefix_TrimPrefix _ _ Hp) as E. unfold TrimPrefix in E. rewrite Hp in E.
      apply (f_equal String.length) in E. rewrite string_length_app in E. cbn [String.length] in *. destruct target; [done|]. cbn [String.length] in *. lia.
  - cbn [Contains]. rewrite IH by lia. rewrite orb_false_r. destruct (String.prefix target (String c (hide fuel s))) eqn:E; [|done].
    apply (hide_prefix_after fuel target c s Ho) in E. unfold HasPrefix in Hp. congruence.
Qed.
End Hidden.
Lemma redact_clean message target id : hidden_by ("url of channel " +:+ id) target -> Contains (GoFmt.render (redact message target id)) target = false.
Proof.
  intros Hh. unfold redact. rewrite (proj2 (nonempty_spec _) (hb_some _ _ _ _ Hh)). cbn [GoFmt.render].
  unfold ReplaceAll. change ("<url of channel " +:+ id +:+ ">") with (String "<" (("url of channel " +:+ id) +:+ String ">" "")).
  apply hide_clean; [done|lia].
Qed.

Section Written.
Context `{Collation} `{NotifyEnv} (d : dialect) (opts : NotifyOptions) (channels : list channel).

(** The target of the channel that a delivery is for. *)
Definition target_of (id target : string) : Prop := exists ch, channelFor channels id = Some ch /\ nt_Target (ch_config ch) = inr target.
(** Nothing that was written down of a delivery holds the target of its channel. *)
Definition discreet (x : Delivery) : Prop := forall target, target_of (dl_ChannelID x) target -> Contains (GoFmt.render (dl_Err x)) target = false.
Definition written_clean (db : NotifyDB) : Prop := map_Forall (fun id x => dl_ID x = id /\ discreet x) (nd_deliveries db).
Context (Hsecret : forall id target, target_of id target -> hidden_by ("url of channel " +:+ id) target).

(** A row that was read: its message is in the table. *)
Definition read_from (row : Delivery) (db : NotifyDB) : Prop :=
  exists old, nd_deliveries db !! dl_ID row = Some old /\ dl_ChannelID old = dl_ChannelID row.
Definition clean_for (due : list Delivery) (s : Disp) : Prop := written_clean (ds_db s) /\ Forall (fun row => read_from row (ds_db s)) due.
Abbreviation stays due m := (post (clean_for due) m (fun _ => clean_for due) (clean_for due)).

Lemma stays_same {A} due (m : M Disp A) : (forall s, ds_db (m s).2 = ds_db s) -> stays due m.
Proof. intros Hm s Hs. specialize (Hm s). unfold clean_for in *. destruct (m s) as [[a|p|] s']; cbn in Hm; by rewrite Hm. Qed.
Lemma stays_ret {A} due (a : A) : stays due (mret a).
Proof. by apply post_ret. Qed.
Lemma stays_bind {A B} due (m : M Disp A) (k : A -> M Disp B) : stays due m -> (forall a, stays due (k a)) -> stays due (mbind k m).
Proof. intros Hm Hk. eapply post_bind; [exact Hm|]. exact Hk. Qed.
Lemma outside_stays {A} due (f : nat -> A) : stays due (n_outside f).
Proof. by apply stays_same. Qed.
Lemma settle_stays due row state attempts nextAt status err sentAt : row ∈ due ->
  (forall target, target_of (dl_ChannelID row) target -> Contains (GoFmt.render err) target = false) ->
  stays due (settle (outcome row state attempts nextAt status err sentAt)).
Proof.
  intros Hrow Herr. unfold settle, n_exec. apply stays_bind; [apply stays_bind; [apply outside_stays|]|intros ?; apply stays_ret].
  intros [|]; [apply stays_ret|]. intros s [Hc Hd]. unfold SettleDelivery. cbn [outcome dl_ID].
  destruct (proj1 (Forall_forall _ _) Hd row Hrow) as (old & Eo & Ec). rewrite Eo. cbn. split; cbn.
  - apply map_Forall_insert_2; [|done]. destruct (Hc _ _ Eo) as [Hid _]. split; [done|]. intros target Ht. cbn in Ht |- *. rewrite Ec in Ht. by apply Herr.
  - eapply Forall_impl; [exact Hd|]. intros r (old' & Eo' & Ec'). unfold read_from. cbn.
    destruct (decide (dl_ID row = dl_ID r)) as [E|Hne].
    + rewrite <- E in Eo' |- *. rewrite lookup_insert_eq. eexists. split; [done|]. cbn. congruence.
    + rewrite lookup_insert_ne by done. by exists old'.
Qed.
Lemma attempt_stays due row : row ∈ due -> stays due (attempt row channels).
Proof.
  intros Hrow. unfold attempt. destruct (channelFor channels (dl_ChannelID row)) as [ch|] eqn:Ech.
  2: { apply settle_stays; [done|]. intros target (? & ? & _). congruence. }
  destruct (nt_Target (ch_config ch)) as [err|target] eqn:Et.
  { apply settle_stays; [done|]. intros target (? & ? & ?). congruence. }
  assert (target_of (dl_ChannelID row) target) as Htarget by (by exists ch).
  assert (forall err t, target_of (dl_ChannelID row) t -> Contains (GoFmt.render (redact err target (dl_ChannelID row))) t = false) as Hred.
  { intros err t (ch' & Hch' & Ht'). assert (t = target) as -> by congruence. by apply redact_clean, Hsecret. }
  apply stays_bind; [|intros result; apply stays_bind; [apply outside_stays|]; intros ctx].
  { apply stays_same. intros s. unfold sender_Post, mbind, M_bind, modify, n_ctx, n_outside. cbn. by destruct (nt_Do _ _ _). }
  destruct (abandoned ctx result); [apply stays_ret|]. cbv zeta. destruct (rs_Err result) as [err|].
  - destruct (NextAttempt _ result) as [wait|]; [apply stays_bind; [apply outside_stays|]; intros now|]; apply settle_stays; auto.
  - apply stays_bind; [apply outside_stays|]. intros now. apply settle_stays; [done|]. intros t Ht. destruct (Hsecret _ _ Ht) as [Hne _ _ _]. by destruct t.
Qed.
Lemma attempts_stay due rows : (forall row, row ∈ rows -> row ∈ due) -> stays due (attempt_all rows channels).
Proof.
  induction rows as [|row rows IH]; intros Hin; cbn [attempt_all]; [apply stays_ret|].
  apply stays_bind; [apply outside_stays|]. intros [e|]; [apply stays_ret|].
  apply stays_bind; [apply attempt_stays, Hin; left|]. intros _. apply IH. intros r Hr. apply Hin. by right.
Qed.

(** Queueing a message writes no error down. *)
Definition stays_clean : relation Disp := fun s s' => written_clean (ds_db s) -> written_clean (ds_db s').
#[local] Instance stays_clean_preorder : PreOrder stays_clean.
Proof. split; [intros s Hc; exact Hc|]. intros s1 s2 s3 R12 R23 Hc. apply R23, R12, Hc. Qed.
Lemma outside_clean {A} (f : nat -> A) : keeps stays_clean (n_outside f).
Proof. intros s Hc. exact Hc. Qed.
Hint Resolve outside_clean : keeps.
Lemma query_clean {A} (f : NotifyDB -> A) : keeps stays_clean (n_query f).
Proof. unfold n_query. keeps_auto. Qed.
Lemma claim_clean runID at_ : keeps stays_clean (n_claim runID at_).
Proof.
  unfold n_claim. apply keeps_bind; [apply _|apply outside_clean|]. intros [|]; [keeps_auto|]. intros s Hc.
  unfold ClaimRunForNotify. by destruct (nd_runs (ds_db s) !! runID), (nd_notified (ds_db s) !! runID).
Qed.
Hint Resolve query_clean claim_clean : keeps.
Lemma queue_clean ch run msg : keeps stays_clean (queue ch run msg).
Proof.
  unfold queue, n_now. apply keeps_bind; [apply _|apply outside_clean|]. intros now. apply keeps_bind; [apply _|apply outside_clean|]. intros id.
  apply keeps_bind; [apply _| |intros; apply keeps_ret; apply _]. unfold n_exec. apply keeps_bind; [apply _|apply outside_clean|].
  intros [|]; [keeps_auto|]. intros s Hc. destruct (CreateDelivery _ _) as [e|db] eqn:E; [exact Hc|].
  apply CreateDelivery_inr in E as (_ & _ & _ & ->). apply map_Forall_insert_2; [|done]. split; [done|]. intros target Ht. destruct (Hsecret _ _ Ht) as [Hne _ _ _]. by destruct target.
Qed.
Hint Resolve queue_clean : keeps.
Lemma queue_all_clean chs run msg : keeps stays_clean (queue_all chs run msg).
Proof. induction chs as [|ch chs IH]; cbn [queue_all]; unfold n_ctx; keeps_auto. Qed.
Hint Resolve queue_all_clean : keeps.
Lemma transition_clean run story : keeps stays_clean (transition run story).
Proof. unfold transition, considerValues, measured. keeps_auto. Qed.
Lemma tooOld_clean run : keeps stays_clean (tooOld opts run).
Proof. unfold tooOld, n_now. keeps_auto. Qed.
Hint Resolve transition_clean tooOld_clean : keeps.
Lemma consider_clean run chs : keeps stays_clean (consider opts run chs).
Proof. unfold consider, n_now. keeps_auto. Qed.
Hint Resolve consider_clean : keeps.
Lemma consider_runs_clean runs chs : keeps stays_clean (consider_runs opts runs chs).
Proof. induction runs as [|run runs IH]; cbn [consider_runs]; unfold n_ctx; keeps_auto. Qed.
Hint Resolve consider_runs_clean : keeps.
Lemma decide_pass_clean : keeps stays_clean (decide_pass opts channels).
Proof. unfold decide_pass. keeps_auto. Qed.

(** C40: the address of a channel is a secret, and is not written down. When no target
    holds an angle bracket (an address never does) nor is a part of what replaces it,
    whatever the HTTP client says of a failure, and it may well quote the address,
    the passes of the dispatcher leave no delivery in the database whose error holds
    the target of its channel, if there was none before. *)
Theorem target_not_written s : written_clean (ds_db s) ->
  written_clean (ds_db (decide_pass opts channels s).2) /\ written_clean (ds_db (deliver_pass d opts channels s).2).
Proof.
  intros Hc. split; [by apply decide_pass_clean|]. unfold deliver_pass, n_now, n_query, n_outside, gets, mbind, M_bind. cbn.
  destruct (nt_away _); [done|]. set (due := DueDeliveries _ _ _ _). set (s1 := mkDisp _ _ _ _).
  assert (clean_for due s1) as Hs1.
  { split; [done|]. apply Forall_forall. intros row Hrow. subst due. unfold DueDeliveries in Hrow.
    apply subseteq_take in Hrow. rewrite merge_sort_Permutation, list_elem_of_In, filter_In, in_map_iff in Hrow.
    destruct Hrow as (([id y] & <- & Hin) & _). apply list_elem_of_In, elem_of_map_to_list in Hin. cbn in Hin.
    exists y. cbn. destruct (Hc id y Hin) as [-> _]. done. }
  pose proof (attempts_stay due due (fun _ h => h) s1 Hs1) as Hp. destruct (attempt_all due channels s1) as [[?|?|] s2]; apply Hp.
Qed.
End Written.

(** A peer that always answers 500, read with a clock of ten minutes per call. *)
Module Unavailable.
Definition ops : Notification := mkNotification "ops" "webhook" "https://x" None.
#[export] Instance env : NotifyEnv := {|
  nt_now k := 100 + Z.of_nat k * (10 * Duration.Minute);
  nt_newID k := "d" +:+ pretty k;
  nt_away _ := false;
  nt_ctx_Err _ := None;
  nt_channels _ := Some [ops];
  nt_Target n := inr (nf_URL n);
  nt_Do _ _ _ := Answered 500 "down" "";
|}.
#[export] Instance order : Collation := byte_order.
Definition opts : NotifyOptions := NewDispatcher "https://lab/" 0 (-1).
Definition channels : list channel := [mkChannel ops render_webhook].

Definition start : Disp := mkDisp told_db 0 ∅ [].
Definition run : RunSummary := scanRunSummary ("r1", drill_row "vm-1" RunSuccess ResultSuccess 5).
Lemma start_working : working (ds_db start).
Proof. split; try done. intros j k E. injection E as E. by apply (inj pretty). Qed.

Lemma consider_announces_witness :
  exists ch' id now t, nf_ID (ch_config ch') = "ops" /\ worth told_db run = Some t /\
    nd_deliveries (ds_db (consider opts run channels start).2) !! id = Some (announcement opts run t ch' id now).
Proof.
  destruct (worth told_db run) as [t|] eqn:E; [|revert E; vm_compute; discriminate].
  destruct (consider_announces opts run channels start t (mkChannel ops render_webhook) start_working)
    as (ch' & id & now & _ & Eid & Ed).
  - split; [eexists; reflexivity|reflexivity].
  - reflexivity.
  - exact E.
  - left.
  - reflexivity.
  - exists ch', id, now, t. split_and!; [exact Eid|reflexivity|exact Ed].
Defined.

(** A delivery that was tried twice, and two passes over it. *)
Definition waiting : Delivery :=
  mkDelivery "d1" "r1" "ops" "first_verdict" DeliveryPending 2 50 500 (Lit "") (JBool true) 10 Time.zero.
Definition backlog : Disp := mkDisp (mkNotifyDB (nd_runs told_db) ∅ ∅ {[ "d1" := waiting ]}) 0 ∅ [].
Definition pass (s : Disp) : Disp := (deliver_pass SQLite opts channels s).2.

Lemma one_row_good x : good_deliveries {[ dl_ID x := x ]}.
Proof.
  split.
  - intros id y E. by apply lookup_singleton_Some in E as [<- <-].
  - intros i j y z Ey Ez _. apply lookup_singleton_Some in Ey as [<- _]. by apply lookup_singleton_Some in Ez as [<- _].
Qed.
Lemma comes_up_one s x :
  nd_deliveries (ds_db s) = {[ "d1" := x ]} -> is_due (nt_now (ds_time s)) x = true -> comes_up opts "d1" s.
Proof.
  intros E Hd. split; rewrite E.
  - rewrite map_size_singleton. vm_compute. lia.
  - intros y Ey _. by apply lookup_singleton_Some in Ey as [_ <-].
Qed.
Lemma two_passes : passes SQLite opts "d1" 2 backlog (pass (pass backlog)).
Proof.
  apply (passes_S _ _ _ _ _ (pass backlog)); [|done|done|].
  - apply (passes_S _ _ _ _ _ backlog); [constructor|done|done|]. apply (comes_up_one _ waiting); vm_compute; reflexivity.
  - refine (comes_up_one _ _ _ _); [vm_compute; reflexivity|vm_compute; reflexivity].
Qed.

Lemma delivery_settles_witness :
  exists x', nd_deliveries (ds_db (pass (pass backlog))) !! "d1" = Some x' /\ dl_State x' <> DeliveryPending /\
    (posts_for "d1" (pass (pass backlog)) <= 2)%nat.
Proof.
  destruct (delivery_settles SQLite opts 2 "d1" backlog (pass (pass backlog)) waiting) as (x' & E & _ & Hc & Hs).
  - split; done.
  - exact (one_row_good waiting).
  - reflexivity.
  - intros _. cbn. lia.
  - exact two_passes.
  - exists x'. split_and!; [exact E|apply Hs; vm_compute; lia|exact Hc].
Defined.
End Unavailable.

(** A client that quotes, in its error, the address that it could not reach. *)
Module Talkative.
#[export] Instance env : NotifyEnv := {|
  nt_now k := 100 + Z.of_nat k;
  nt_newID k := "d" +:+ pretty k;
  nt_away _ := false;
  nt_ctx_Err _ := None;
  nt_channels _ := Some [Unavailable.ops];
  nt_Target n := inr (nf_URL n);
  nt_Do _ target _ := DoFailed (UrlError target (ENew (Sprintf "proxyconnect %q: refused" [AStr target])));
|}.
#[export] Instance order : Collation := byte_order.
Definition backlog : Disp := Unavailable.backlog.
Definition after : Disp := (deliver_pass SQLite Unavailable.opts Unavailable.channels backlog).2.
Example redacted_error : (GoFmt.render ∘ dl_Err) <$> nd_deliveries (ds_db after) !! "d1"
  = Some ("notify: post: proxyconnect " +:+ GoFmt.Quote "<url of channel ops>" +:+ ": refused").
Proof. vm_compute. reflexivity. Qed.
Lemma target_not_written_witness :
  written_clean Unavailable.channels (ds_db (decide_pass Unavailable.opts Unavailable.channels backlog).2) /\
  written_clean Unavailable.channels (ds_db after).
Proof.
  apply (target_not_written SQLite Unavailable.opts Unavailable.channels).
  - intros id target (ch & Hch & Ht). cbn in Hch. case_bool_decide as E; [|done]. injection Hch as <-. injection Ht as <-. rewrite <- E.
    split; [done|vm_compute; reflexivity..].
  - intros id x Hx. cbn in Hx. apply lookup_singleton_Some in Hx as [<- <-]. split; [done|].
    intros target (ch & Hch & Ht). cbn in Hch. injection Hch as <-. injection Ht as <-. vm_compute. reflexivity.
Defined.
End Talkative.
