(* ===== verification/Diag.v ===== *)
(** * The diagnosis of a cluster

    Models internal/diag: what `doctor` and GET /api/v1/doctor report of a cluster
    and of the notification channels, as findings. The questions are asked of the
    class [DiagEnv]; a failure to answer is a finding too. *)

From Stdlib Require Import ZArith Lia String Ascii List.
From S2P Require Import Prelude GoTime GoFloat Errors Core GoString GoFmt Engine Pve Proxmox ProxmoxTheorems Storages ProxmoxEngine Confidence Story Deliveries Dispatcher.

Inductive Level := LevelOK | LevelWarn | LevelFail.
#[export] Instance Level_eq_dec : EqDecision Level.
Proof. solve_decision. Defined.
Definition Level_to_string (l : Level) : string := match l with LevelOK => "ok" | LevelWarn => "warn" | LevelFail => "fail" end.

Definition AreaCredentials : string := "credentials".
Definition AreaNodes : string := "nodes".
Definition AreaStorage : string := "storage".
Definition AreaNetwork : string := "network".
Definition AreaWorkload : string := "workload".
Definition AreaHistory : string := "history".
Definition AreaNotifications : string := "notifications".

(** [Finding], [Report] and [Channel]. *)
Record Finding := mkFinding { fd_Level : Level; fd_Area : string; fd_Title : text; fd_Detail : text }.
Record Report := mkReport { rep_ProviderID : string; rep_Endpoint : string; rep_Findings : list Finding }.
Record Channel := mkDiagChannel { dc_ID : string; dc_Kind : string; dc_Enabled : bool }.

(** [Problems] and [OK]. *)
Definition problem (f : Finding) : bool := bool_decide (fd_Level f = LevelFail).
Definition Problems (r : Report) : Z := Z.of_nat (countb problem (rep_Findings r)).
Definition report_ok (r : Report) : bool := Problems r =? 0.

Definition said (l : Level) (area : string) (title detail : text) : list Finding := [mkFinding l area title detail].
Definition ok : string -> text -> text -> list Finding := said LevelOK.
Definition warn : string -> text -> text -> list Finding := said LevelWarn.
Definition fail : string -> text -> text -> list Finding := said LevelFail.
Definition silent : text := Lit "".

(** [Input], but for the questions: [in_Backups] and [in_Deliveries] are in
    [DiagEnv]. *)
Record Input := mkInput {
  in_ProviderID : string;
  in_Endpoint : string;
  in_Node : string;
  in_NetworkName : string;
  in_Network : NetworkConfig;
  in_NetworkErr : option error;
  in_WorkloadID : string;
  in_HistoryDesc : string;
  in_Notifications : list Channel;
  in_NotifyDispatcherOff : bool;
}.

(** The provider, when there is one, with what it is able to: a [core.NetworkValidator]
    and a [storageInspector]; the backups and the deliveries, when there are some. *)
Record Prober (W : Type) := mkProber {
  pb_Ping : M W (error + unit);
  pb_ListNodes : M W (error + list Node);
  pb_GetWorkload : string -> M W (error + option Workload);
  pb_GetStatus : string -> M W (error + option WorkloadStatus);
  pb_ValidateIsolation : option (string -> NetworkConfig -> M W (error + unit));
  pb_ListStorages : option (string -> M W (error + list Storage));
  pb_CountBackups : string -> string -> string -> M W (error + Z);
}.
Arguments mkProber {W}.
Arguments pb_Ping {W}.
Arguments pb_ListNodes {W}.
Arguments pb_GetWorkload {W}.
Arguments pb_GetStatus {W}.
Arguments pb_ValidateIsolation {W}.
Arguments pb_ListStorages {W}.
Arguments pb_CountBackups {W}.
Class DiagEnv (W : Type) := {
  dg_Provider : option (Prober W);
  dg_Backups : option (string -> M W (error + option Backup));
  dg_Deliveries : option (list string -> M W (text + gmap string Delivery));
  dg_now : M W Z;
}.

(** [humanAge]. *)
Definition humanAge (d : Z) : text :=
  if d <? Duration.Minute then Sprintf "%ds" [AInt (int_of_float (Seconds d))]
  else if d <? Duration.Hour then
    Sprintf "%dm" [AInt (int_of_float (fadd (float_of_Z (Z.quot d Duration.Minute)) (fdiv (float_of_Z (Z.rem d Duration.Minute)) (float_of_Z Duration.Minute))))]
  else if d <? 48 * Duration.Hour then Sprintf "%dh" [AInt (int_of_float (Hours d))]
  else Sprintf "%dd" [AInt (int_of_float (fdiv (Hours d) (float_of_Z 24)))].
Example ages : map humanAge [59 * Duration.Second; 90 * Duration.Second; 47 * Duration.Hour; 49 * Duration.Hour] =
  [Sprintf "%ds" [AInt 59]; Sprintf "%dm" [AInt 1]; Sprintf "%dh" [AInt 47]; Sprintf "%dd" [AInt 2]].
Proof. vm_compute. reflexivity. Qed.

Definition PowerState_to_string (p : PowerState) : string :=
  match p with
  | PowerStateRunning => "running"
  | PowerStateStopped => "stopped"
  | PowerStatePaused => "paused"
  | PowerStateUnknown => "unknown"
  end.

(** ** Credentials out of a reason (notify.go) *)

(** [bearerURL]: a letter, the run of the scheme, then [://] and what follows up to a
    space, a quote or an angle bracket. *)
Definition between (lo hi c : ascii) : bool := (nat_of_ascii lo <=? nat_of_ascii c)%nat && (nat_of_ascii c <=? nat_of_ascii hi)%nat.
Definition letter (c : ascii) : bool := between "a" "z" c || between "A" "Z" c.
Definition digit (c : ascii) : bool := between "0" "9" c.
Definition one_of (l : string) (c : ascii) : bool := existsb_char (Ascii.eqb c) l.
Definition scheme_char (c : ascii) : bool := letter c || digit c || one_of "+.-" c.
Definition white : string := String "009" (String "010" (String "012" (String "013" (String "032" EmptyString)))).
Definition url_end (c : ascii) : bool := one_of white c || one_of (dquote +:+ "'<>") c.
Fixpoint drop_while (f : ascii -> bool) (s : string) : string :=
  match s with String c rest => if f c then drop_while f rest else s | EmptyString => s end.
Definition bearerURL (s : string) : option string :=
  match s with
  | String c rest =>
    if letter c && HasPrefix (drop_while scheme_char rest) "://"
    then Some (drop_while (fun c => negb (url_end c)) (TrimPrefix (drop_while scheme_char rest) "://")) else None
  | EmptyString => None
  end.
(** [sealedSecret]. *)
Definition sealed_char (c : ascii) : bool := letter c || digit c || one_of "+/=_-" c.
Definition sealedSecret (s : string) : option string :=
  if HasPrefix s "rlsec:v1:" then
    match TrimPrefix s "rlsec:v1:" with
    | String c rest => if sealed_char c then Some (drop_while sealed_char rest) else None
    | EmptyString => None
    end
  else None.
(** [ReplaceAllString] of a match at the head by three stars; every match is longer
    than nothing, so the length is fuel enough. *)
Fixpoint replace_matches (fuel : nat) (matched : string -> option string) (s : string) : string :=
  match fuel, s with
  | S fuel, String c rest =>
    match matched s with
    | Some after => "***" +:+ replace_matches fuel matched after
    | None => String c (replace_matches fuel matched rest)
    end
  | _, _ => s
  end.
Definition ReplaceMatches (matched : string -> option string) (s : string) : string := replace_matches (String.length s) matched s.
Definition redact_string (s : string) : string := ReplaceMatches sealedSecret (ReplaceMatches bearerURL s).
(** [redactSecrets]. *)
Definition redactSecrets (t : text) : text := Lit (redact_string (GoFmt.render t)).

Example redacted : map redact_string
  ["Post https://discord.com/api/webhooks/1/T0KEN: refused"; "url rlsec:v1:AbC=/, twice rlsec:v1:"; "1http://a b://'"; "no ://scheme"] =
  ["Post *** refused"; "url ***, twice rlsec:v1:"; "1*** ***'"; "no ://scheme"].
Proof. reflexivity. Qed.

(** ** The findings *)

(** What the provider is asked goes to the state of the prober. *)
Section Diagnosis.
Context {W : Type} `{DiagEnv W}.
Abbreviation DM := (M W).
Abbreviation Findings := (list Finding).

(** [appendStorages] (proxmox.go): what each storage that advertises backups holds. *)
Definition storage_text (fmt : string) (s : Storage) (args : list arg) : text := Sprintf fmt ([AStr (sg_ID s); AStr (sg_Type s)] ++ args).
Definition storage_finding (workloadID : string) (s : Storage) (count : error + Z) : Findings :=
  match count with
  | inl e => warn AreaStorage (storage_text "storage %q (%s): cannot read contents" s []) (Error e)
  | inr count =>
    if negb (sg_Active s) then warn AreaStorage (storage_text "storage %q (%s) is not active" s []) silent
    else
      let scope := if nonempty workloadID then Sprintf "backup(s) for workload %s" [AStr workloadID] else Lit "backup(s)" in
      ok AreaStorage (storage_text "storage %q (%s): %d %s" s [AInt count; AText scope]) silent
  end.
Definition storage_count (s : Storage) (count : error + Z) : Z :=
  match count with inr count => if sg_Active s then count else 0 | inl _ => 0 end.
Fixpoint count_storages (p : Prober W) (node workloadID : string) (l : list Storage) : DM (Z * Findings) :=
  match l with
  | [] => mret (0, [])
  | s :: l =>
    count ← pb_CountBackups p node (sg_ID s) workloadID;
    rest ← count_storages p node workloadID l;
    mret (storage_count s count + rest.1, storage_finding workloadID s count ++ rest.2)
  end.
Definition appendStorages (p : Prober W) (i : Input) (node : string) : DM Findings :=
  match pb_ListStorages p with
  | None => mret []
  | Some list_storages =>
    storages ← list_storages node;
    match storages with
    | inl e => mret (fail AreaStorage (Lit "cannot list storages") (Error e))
    | inr storages =>
      match List.filter HoldsBackups storages with
      | [] => mret (fail AreaStorage (Lit "no storage on this cluster advertises backup content")
                      (Lit "RestoreLab restores from Proxmox backups: configure a backup job, or attach a Proxmox Backup Server"))
      | backupStorages =>
        counted ← count_storages p node (in_WorkloadID i) backupStorages;
        mret (counted.2 ++
          if counted.1 =? 0 then fail AreaStorage (Lit "no backups found on any storage")
                                   (Lit "there is nothing to recovery-test yet; check that the backup job has finished")
          else [])
      end
    end
  end.

(** [appendNetwork]: a network that may not be looked at is a warning. *)
Definition network_finding (i : Input) (node : string) (answer : error + unit) : Findings :=
  let bridge := AStr (net_Bridge (in_Network i)) in
  match answer with
  | inl e =>
    if Is e ErrIsolationUnverified then
      warn AreaNetwork (Sprintf "cannot verify bridge %q on %s with these credentials" [bridge; AStr node])
        (Lit "Proxmox does not show this token the node's bridges; a drill will proceed on the plan's assertion that the network is isolated")
    else fail AreaNetwork (Sprintf "bridge %q on %s is not usable" [bridge; AStr node])
           (Sprintf "%s - see docs/network-isolation.md to create a bridge with no uplink" [AText (Error e)])
  | inr _ =>
    ok AreaNetwork (Sprintf "isolated bridge %q present on %s" [bridge; AStr node])
      (Lit "a restored guest on this bridge is unreachable from here by design - that is the point of it. Checks that dial the guest (tcp:, http:, dns:, ping) therefore need a route into this network, and a drill whose critical checks cannot reach it ends INCONCLUSIVE rather than claiming the backup failed. Checks written as cmd: run inside the guest through the agent and need no route at all")
  end.
Definition appendNetwork (p : Prober W) (i : Input) (node : string) : DM Findings :=
  match in_NetworkErr i with
  | Some e => mret (fail AreaNetwork (Sprintf "no network profile %q in the config" [AStr (in_NetworkName i)]) (Error e))
  | None =>
    if negb (net_Isolated (in_Network i)) then
      mret (fail AreaNetwork (Sprintf "network profile %q is not marked isolated" [AStr (in_NetworkName i)])
              (Lit "a drill would be refused before any mutating call"))
    else
      match pb_ValidateIsolation p, nonempty node with
      | Some validate, true => answer ← validate node (in_Network i); mret (network_finding i node answer)
      | _, _ => mret (warn AreaNetwork (Sprintf "cannot verify bridge %q from here" [AStr (net_Bridge (in_Network i))])
                        (Lit "the drill will proceed on the plan's assertion that the network is isolated"))
      end
  end.

(** [appendWorkload]. *)
Definition status_finding (id : string) (status : error + option WorkloadStatus) : Findings :=
  match status with
  | inl e => warn AreaWorkload (Sprintf "cannot read the status of %s" [AStr id]) (Error e)
  | inr None => warn AreaWorkload (Sprintf "no status reported for %s" [AStr id]) silent
  | inr (Some s) =>
    if negb (bool_decide (ws_PowerState s = PowerStateRunning)) then
      warn AreaWorkload (Sprintf "workload %s is %s" [AStr id; AStr (PowerState_to_string (ws_PowerState s))])
        (Lit "the guest agent can only be checked while the workload runs")
    else if negb (ws_AgentReady s) then
      warn AreaWorkload (Sprintf "no QEMU guest agent responding on %s" [AStr id])
        (Lit "without it a drill can restore and boot this workload but cannot check anything inside it, and cannot discover the restored guest's address either - which leaves only network checks against an address pinned by hand in the plan (startup.ip). Install qemu-guest-agent in the guest, then enable the agent in the workload's options")
    else ok AreaWorkload (Sprintf "guest agent responding on %s (%v)" [AStr id; AStrs (ws_IPs s)]) silent
  end.
Definition backup_finding (id : string) (now : Z) (backup : error + option Backup) : Findings :=
  match backup with
  | inl e =>
    if Is e ErrNoBackup then
      fail AreaWorkload (Sprintf "workload %s has no backup to restore" [AStr id]) (Lit "RestoreLab verifies existing backups; it does not create them")
    else fail AreaWorkload (Sprintf "cannot look up backups of %s" [AStr id]) (Error e)
  | inr None => fail AreaWorkload (Sprintf "workload %s has no backup to restore" [AStr id]) silent
  | inr (Some b) =>
    ok AreaWorkload (Sprintf "latest backup of %s is %s old" [AStr id; AText (humanAge (Time.Sub now (bk_CreatedAt b)))])
      (Lit (Time.format_rfc3339 (bk_CreatedAt b)))
  end.
Definition appendBackups (id : string) : DM Findings :=
  match dg_Backups with
  | None => mret (warn AreaWorkload (Lit "no backup provider available") (Lit "backups of this workload were not looked up"))
  | Some latest => backup ← latest id; now ← dg_now; mret (backup_finding id now backup)
  end.
Definition appendWorkload (p : Prober W) (i : Input) : DM Findings :=
  let id := in_WorkloadID i in
  w ← pb_GetWorkload p id;
  match w with
  | inl e => mret (fail AreaWorkload (Sprintf "workload %s cannot be read" [AStr id]) (Error e))
  | inr None => throw "runtime error: invalid memory address or nil pointer dereference"
  | inr (Some w) =>
    status ← pb_GetStatus p id;
    backups ← appendBackups id;
    mret (ok AreaWorkload (Sprintf "workload %s (%s) on %s" [AStr (wl_ID w); AStr (wl_Name w); AStr (wl_Node w)]) silent
            ++ status_finding id status ++ backups)
  end.

(** [appendCluster]. *)
Definition node_findings (nodes : error + list Node) : Findings :=
  match nodes with
  | inl e => fail AreaNodes (Lit "cannot list nodes") (Error e)
  | inr nodes =>
    ok AreaNodes (Sprintf "%d node(s), %d online" [AInt (Z.of_nat (length nodes)); AInt (Z.of_nat (countb node_Online nodes))]) silent
  end.
Definition inspected (i : Input) (nodes : error + list Node) : string :=
  if nonempty (in_Node i) then in_Node i else
  match nodes with
  | inl _ => ""
  | inr nodes => match List.find node_Online nodes with Some n => node_ID n | None => "" end
  end.
Definition appendCluster (i : Input) : DM Findings :=
  match dg_Provider with
  | None => mret (fail AreaCredentials (Lit "no hypervisor provider is configured") (Lit "add one with `restorelab connect` or `restorelab provider add`"))
  | Some p =>
    ping ← pb_Ping p;
    match ping with
    | inl e => mret (fail AreaCredentials (Lit "cannot reach the API") (Error e))
    | inr _ =>
      nodes ← pb_ListNodes p;
      storages ← appendStorages p i (inspected i nodes);
      network ← appendNetwork p i (inspected i nodes);
      workload ← (if nonempty (in_WorkloadID i) then appendWorkload p i else mret []);
      mret (ok AreaCredentials (Lit "API reachable, credentials accepted") silent ++ node_findings nodes ++ storages ++ network ++ workload
        ++ (if nonempty (in_HistoryDesc i) then ok AreaHistory (Sprintf "drill history: %s" [AStr (in_HistoryDesc i)]) silent else []))
    end
  end.

(** [appendNotifications] (notify.go). *)
Definition deliveryKind (d : Delivery) : string := if nonempty (dl_Kind d) then dl_Kind d else "unknown transition".
Definition deliveryTime (d : Delivery) : Z := if Time.IsZero (dl_SentAt d) then dl_CreatedAt d else dl_SentAt d.
Definition deliveryStatus (d : Delivery) : text := if dl_Status d =? 0 then silent else Sprintf ", HTTP %d" [AInt (dl_Status d)].
Definition deliveryReason (d : Delivery) : text :=
  if text_empty (dl_Err d) then silent else Sprintf ": %s" [AText (redactSecrets (dl_Err d))].
Definition channel_text (c : Channel) (what : string) : text :=
  Sprintf ("notification channel %q (%s)" +:+ what) [AStr (dc_ID c); AStr (dc_Kind c)].
Definition appendChannel (c : Channel) (last : option Delivery) (checked : bool) : Findings :=
  if negb (dc_Enabled c) then
    warn AreaNotifications (channel_text c " is switched off")
      (Lit "it is configured but disabled, so it receives nothing; `restorelab notify` can enable it again")
  else if negb checked then
    ok AreaNotifications (channel_text c " is configured")
      (Lit "the drill history was not available here, so what this channel has actually delivered was not checked")
  else
    match last with
    | None =>
      warn AreaNotifications (channel_text c " has never delivered a message")
        (Sprintf "that is not necessarily a fault: RestoreLab speaks only when what a workload proves changes, so a correctly configured channel can stay quiet for weeks. It also means nothing has ever proven this channel works. `restorelab notify test %s` posts a sample message, which is the only way to find out before it matters" [AStr (dc_ID c)])
    | Some d =>
      let attempt := [AStr (deliveryKind d); AInt (dl_Attempts d); AText (deliveryStatus d); AText (deliveryReason d)] in
      match dl_State d with
      | DeliveryFailed =>
        fail AreaNotifications (channel_text c " is not delivering")
          (Sprintf "the last message (%s) was given up on after %d attempt(s)%s%s. Anything this channel should have announced since then went unsaid" attempt)
      | DeliveryPending =>
        warn AreaNotifications (channel_text c " has a message still in flight")
          (Sprintf "the last message (%s) has been attempted %d time(s) and is still being retried%s%s; run doctor again in a few minutes to see how it ended" attempt)
      | DeliverySent =>
        ok AreaNotifications (channel_text c " is delivering")
          (Sprintf "last message (%s) accepted on %s%s" [AStr (deliveryKind d); AStr (Time.format_rfc3339 (deliveryTime d)); AText (deliveryStatus d)])
      end
    end.
Definition enabled (l : list Channel) : list string := map dc_ID (List.filter dc_Enabled l).
Definition dispatcher_off (i : Input) : Findings :=
  if in_NotifyDispatcherOff i then
    warn AreaNotifications (Lit "notifications are configured but the dispatcher is off")
      (Sprintf "%d channel(s) are configured and none of them will receive anything while the server runs with --no-notify: what a workload proves can change tonight and nobody will be told" [AInt (Z.of_nat (length (in_Notifications i)))])
  else [].
Definition last_deliveries (l : list Channel) : DM (text + gmap string Delivery) :=
  match dg_Deliveries, enabled l with
  | Some read, _ :: _ => read (enabled l)
  | _, _ => mret (inr ∅)
  end.
Definition checked : bool := match dg_Deliveries with Some _ => true | None => false end.
(** What [last[n.ID]] is for [appendChannel]: a row without a channel is as good as
    none. *)
Definition delivery_of (last : gmap string Delivery) (c : Channel) : option Delivery :=
  d ← last !! dc_ID c; if nonempty (dl_ChannelID d) then Some d else None.
Definition appendNotifications (i : Input) : DM Findings :=
  match in_Notifications i with
  | [] => mret []
  | channels =>
    last ← last_deliveries channels;
    mret (dispatcher_off i ++
      match last with
      | inl e => warn AreaNotifications (Lit "cannot read what the notification channels last delivered")
                   (Sprintf "%d configured channel(s) were not checked: %s" [AInt (Z.of_nat (length channels)); AText (redactSecrets e)])
      | inr last => flat_map (fun c => appendChannel c (delivery_of last c) checked) channels
      end)
  end.

(** [Run]. *)
Definition Run (i : Input) : DM Report :=
  cluster ← appendCluster i;
  notifications ← appendNotifications i;
  mret (mkReport (in_ProviderID i) (in_Endpoint i) (cluster ++ notifications)).
End Diagnosis.

(** * What a diagnosis is worth

    A diagnosis of a Proxmox cluster reads it only ([diagnosis_only_reads]); its
    verdict on the network is the one a drill acts on ([network_verdict_agrees]); and
    it is good exactly when nothing it looks at stands in the way of a drill
    ([Run_ready]). *)

(** ** On a Proxmox cluster *)

Section Proxmox.
Context `{PveEnv} (cfg : PveConfig).
Definition proxmox_prober : Prober Pve :=
  mkProber Ping ListNodes GetWorkload GetStatus (Some ValidateIsolation) (Some ListStorages) CountBackups.
(** The deliveries are another database: reading them asks nothing of the cluster. *)
Context (read_deliveries : option (list string -> text + gmap string Delivery)).
#[local] Instance proxmox_diag : DiagEnv Pve := {|
  dg_Provider := Some proxmox_prober;
  dg_Backups := Some (GetLatestBackup cfg);
  dg_Deliveries := (fun read ids => mret (read ids)) <$> read_deliveries;
  dg_now := gets pv_now;
|}.

Lemma Ping_grew (P : PveRequest -> Prop) : (forall q, is_get q -> P q) -> keeps (grew P) Ping.
Proof. intros HP. unfold Ping. keeps_auto. by apply get_grew. Qed.
Hint Resolve Ping_grew ListNodes_grew GetWorkload_grew GetStatus_grew ValidateIsolation_grew ListStorages_grew CountBackups_grew
  GetLatestBackup_grew : keeps.
Lemma count_storages_grew (P : PveRequest -> Prop) node id l : (forall q, is_get q -> P q) ->
  keeps (grew P) (count_storages proxmox_prober node id l).
Proof. intros HP. induction l as [|x l IH]; cbn [count_storages pb_CountBackups proxmox_prober]; keeps_auto; eauto with keeps. Qed.

(** A diagnosis changes nothing on a Proxmox cluster, whatever it is asked and
    whatever the cluster answers: every request it sends is a GET. *)
Theorem diagnosis_only_reads i s : exists asked, pv_log (Run i s).2 = pv_log s ++ asked /\ Forall (fun x => is_get (ex_request x)) asked.
Proof.
  assert (keeps (grew is_get) (Run i)) as Hk; [|exact (Hk s)].
  unfold Run, appendCluster, appendStorages, appendNetwork, appendWorkload, appendBackups, appendNotifications, last_deliveries.
  cbn [dg_Provider dg_Backups dg_Deliveries dg_now proxmox_diag pb_Ping pb_ListNodes pb_GetWorkload pb_GetStatus pb_ValidateIsolation
    pb_ListStorages pb_CountBackups proxmox_prober].
  destruct read_deliveries; cbn [fmap option_fmap option_map]; keeps_auto; eauto using count_storages_grew with keeps.
Qed.
End Proxmox.

(** ** Against a drill *)

Lemma problems_ok area title detail : countb problem (ok area title detail) = 0%nat.
Proof. reflexivity. Qed.
Lemma problems_warn area title detail : countb problem (warn area title detail) = 0%nat.
Proof. reflexivity. Qed.
Lemma problems_fail area title detail : countb problem (fail area title detail) = 1%nat.
Proof. reflexivity. Qed.

Section Drill.
Context {W : Type} `{EngineEnv W} (p : Prober W).
Abbreviation DM := (M W).
(** The provider that is diagnosed is the one that the engine drives. *)
Hypothesis same_validator : pb_ValidateIsolation p = (fun validate => validate CtxRun) <$> hv_NetworkValidator.

(** A verdict of the diagnosis and one of the engine: both refuse, or neither does. *)
Definition agrees (d : Prelude.outcome (list Finding)) (e : Prelude.outcome (error + unit)) : Prop :=
  match d, e with
  | Ret findings, Ret (inl _) => countb problem findings <> 0%nat
  | Ret findings, Ret (inr _) => countb problem findings = 0%nat
  | Panic m, Panic m' => m = m'
  | Diverge, Diverge => True
  | _, _ => False
  end.

(** C34: the diagnosis and a drill judge a network alike. On a network profile that
    was resolved and a node, the diagnosis reports a problem exactly when the engine
    refuses to restore onto that network, after asking the cluster the same. *)
Theorem network_verdict_agrees i node (s : ES (W := W)) :
  in_NetworkErr i = None -> nonempty node = true ->
  let d := appendNetwork p i node (es_world s) in
  let e := checkNetworkIsolation node (in_Network i) s in
  agrees d.1 e.1 /\ es_world e.2 = d.2.
Proof.
  intros Hn Hnode. unfold appendNetwork, checkNetworkIsolation. rewrite Hn, Hnode, same_validator.
  destruct (net_Isolated (in_Network i)); [|by split].
  destruct hv_NetworkValidator as [validate|]; [|by split]. cbn [fmap option_fmap option_map negb].
  unfold mbind, M_bind, call, call_with, mret, M_ret. destruct (validate CtxRun node (in_Network i) (es_world s)) as [[[e|[]]|m|] w]; cbn; try done.
  unfold network_finding. by destruct (Is e ErrIsolationUnverified).
Qed.
End Drill.

Module Bridges.
Import ProxmoxEngine.Cluster.
Definition asked_for : Input := mkInput "pve" "https://pve" "pve1" "isolated" (mkNetworkConfig "vmbr99" "virtio" 0 false true) None "" "" [] false.
Definition at_start : ES (W := Pve) := mkES before (mkRecoveryRun "r" "" "" 0 "" "" "" "" "" "" "" None RunPreparing ResultNone ProofUnknown 0 0 [] [] 0 0 false (Lit "")) [] "" "" false.
Lemma network_verdict_agrees_witness :
  let d := appendNetwork proxmox_prober asked_for "pve1" (es_world at_start) in
  let e := checkNetworkIsolation (EngineEnv0 := proxmox_provider config) "pve1" (in_Network asked_for) at_start in
  agrees d.1 e.1 /\ es_world e.2 = d.2.
Proof. apply (network_verdict_agrees (H := proxmox_provider config) proxmox_prober eq_refl asked_for "pve1" at_start); reflexivity. Defined.
End Bridges.

(** ** Readiness *)

(** What a cluster and a history answer, the same each time. *)
Record Answers := mkAnswers {
  an_Ping : error + unit;
  an_Nodes : error + list Node;
  an_Workload : string -> error + Workload;
  an_Status : string -> error + option WorkloadStatus;
  an_Isolation : option (string -> NetworkConfig -> error + unit);
  an_Storages : option (string -> error + list Storage);
  an_Count : string -> string -> string -> error + Z;
  an_Backup : option (string -> error + option Backup);
  an_Deliveries : option (list string -> text + gmap string Delivery);
  an_now : Z;
}.
Abbreviation U := (M unit).
Definition steady_prober (a : Answers) : Prober unit :=
  mkProber (mret (an_Ping a)) (mret (an_Nodes a))
    (fun id => mret (match an_Workload a id with inl e => inl e | inr w => inr (Some w) end)) (fun id => mret (an_Status a id))
    ((fun f node network => mret (f node network)) <$> an_Isolation a) ((fun f node => mret (f node)) <$> an_Storages a)
    (fun node storage id => mret (an_Count a node storage id)).
#[local] Instance steady (a : Answers) : DiagEnv unit := {|
  dg_Provider := Some (steady_prober a);
  dg_Backups := (fun f id => mret (f id)) <$> an_Backup a;
  dg_Deliveries := (fun f ids => mret (f ids)) <$> an_Deliveries a;
  dg_now := mret (an_now a);
|}.

Section Ready.
Context (a : Answers) (i : Input).
Definition node_looked_at : string := inspected i (an_Nodes a).
(** The backups of the storages that are active and may be read. *)
Definition backups_held (node : string) (l : list Storage) : Z :=
  foldr (fun s n => storage_count s (an_Count a node (sg_ID s) (in_WorkloadID i)) + n) 0 (List.filter HoldsBackups l).

(** Nothing stands in the way of a drill: the cluster answers and lists its nodes; a
    storage that can be listed holds a backup; the network is known, isolated and, as
    far as can be seen, without an uplink; the workload can be read and has a backup;
    and no channel that is on has given up on its last message. *)
Record ready : Prop := {
  rd_answers : an_Ping a = inr tt;
  rd_nodes : exists l, an_Nodes a = inr l;
  rd_storages : forall f, an_Storages a = Some f -> exists l, f node_looked_at = inr l /\
    List.filter HoldsBackups l <> [] /\ backups_held node_looked_at l <> 0;
  rd_network : in_NetworkErr i = None /\ net_Isolated (in_Network i) = true;
  rd_isolated : forall f e, an_Isolation a = Some f -> node_looked_at <> "" -> f node_looked_at (in_Network i) = inl e ->
    Is e ErrIsolationUnverified = true;
  rd_workload : in_WorkloadID i <> "" -> (exists w, an_Workload a (in_WorkloadID i) = inr w) /\
    (forall f, an_Backup a = Some f -> exists b, f (in_WorkloadID i) = inr (Some b));
  rd_channels : forall c f last d, c ∈ in_Notifications i -> dc_Enabled c = true -> an_Deliveries a = Some f ->
    f (enabled (in_Notifications i)) = inr last -> delivery_of last c = Some d -> dl_State d <> DeliveryFailed;
}.

(** A section of the report: it is written, and is free of problems when [P]. *)
Definition reported (m : U (list Finding)) (P : Prop) : Prop := exists fs, m tt = (Ret fs, tt) /\ (countb problem fs = 0%nat <-> P).
Lemma countb_zero_app {A} (f : A -> bool) l1 l2 : countb f (l1 ++ l2) = 0%nat <-> countb f l1 = 0%nat /\ countb f l2 = 0%nat.
Proof. rewrite countb_app. lia. Qed.
Lemma storage_finding_quiet id s count : countb problem (storage_finding id s count) = 0%nat.
Proof. unfold storage_finding. destruct count; [done|]. by destruct (negb (sg_Active s)). Qed.

Lemma count_storages_steady node id l :
  exists fs, count_storages (steady_prober a) node id l tt =
    (Ret (foldr (fun s n => storage_count s (an_Count a node (sg_ID s) id) + n) 0 l, fs), tt) /\ countb problem fs = 0%nat.
Proof.
  induction l as [|s l (fs & IH & Hq)]; [by exists []|]. exists (storage_finding id s (an_Count a node (sg_ID s) id) ++ fs). split.
  - cbn [count_storages]. rewrite (bind_Ret _ _ tt (an_Count a node (sg_ID s) id) tt eq_refl). by rewrite (bind_Ret _ _ tt _ tt IH).
  - by rewrite countb_app, storage_finding_quiet, Hq.
Qed.

Lemma storages_reported node : reported (appendStorages (steady_prober a) i node)
  (forall f, an_Storages a = Some f -> exists l, f node = inr l /\ List.filter HoldsBackups l <> [] /\ backups_held node l <> 0).
Proof.
  unfold reported, appendStorages, backups_held. cbn [pb_ListStorages steady_prober].
  destruct (an_Storages a) as [f|]; cbn [fmap option_fmap option_map]; [|by exists []].
  rewrite (bind_Ret _ _ tt (f node) tt eq_refl). destruct (f node) as [e|l] eqn:Hf.
  - eexists. split; [reflexivity|]. split; [done|]. intros Hp. destruct (Hp f eq_refl) as (l & El & _). congruence.
  - destruct (List.filter HoldsBackups l) as [|s l'] eqn:Hl.
    + eexists. split; [reflexivity|]. split; [done|]. intros Hp. destruct (Hp f eq_refl) as (l2 & El & Hne & _). congruence.
    + destruct (count_storages_steady node (in_WorkloadID i) (s :: l')) as (fs & E & Hq). rewrite (bind_Ret _ _ tt _ tt E).
      eexists. split; [reflexivity|]. rewrite countb_app. cbn [fst snd]. rewrite Hq.
      destruct (Z.eqb_spec (foldr (fun s n => storage_count s (an_Count a node (sg_ID s) (in_WorkloadID i)) + n) 0 (s :: l')) 0) as [H0|H0].
      * split; [done|]. intros Hp. destruct (Hp f eq_refl) as (l2 & El & _ & Hne). rewrite Hf in El. injection El as <-. rewrite Hl in Hne. done.
      * split; [|done]. intros _ f' [= <-]. exists l. rewrite Hl. by split_and!.
Qed.

Lemma network_reported node : reported (appendNetwork (steady_prober a) i node)
  ((in_NetworkErr i = None /\ net_Isolated (in_Network i) = true) /\
   forall f e, an_Isolation a = Some f -> node <> "" -> f node (in_Network i) = inl e -> Is e ErrIsolationUnverified = true).
Proof.
  unfold reported, appendNetwork. cbn [pb_ValidateIsolation steady_prober].
  destruct (in_NetworkErr i) as [e|]; [eexists; split; [reflexivity|]; split; [done|]; by intros [[? _] _]|].
  destruct (net_Isolated (in_Network i)); cbn [negb]; [|eexists; split; [reflexivity|]; split; [done|]; by intros [[_ ?] _]].
  destruct (an_Isolation a) as [f|]; cbn [fmap option_fmap option_map];
    [|by eexists; split; [reflexivity|]; split; [|done]; intros _; split; [|intros ? ? [=]]].
  destruct (nonempty node) eqn:Hn.
  - rewrite (bind_Ret _ _ tt (f node (in_Network i)) tt eq_refl). eexists. split; [reflexivity|]. apply nonempty_spec in Hn.
    unfold network_finding. destruct (f node (in_Network i)) as [e|[]] eqn:Hf.
    + destruct (Is e ErrIsolationUnverified) eqn:He.
      * split; [|done]. intros _. split; [done|]. intros ? ? [= <-] _. rewrite Hf. by intros [= <-].
      * split; [done|]. intros [_ Hp]. specialize (Hp f e eq_refl Hn Hf). congruence.
    + split; [|done]. intros _. split; [done|]. intros ? ? [= <-] _. by rewrite Hf.
  - eexists. split; [reflexivity|]. split; [|done]. intros _. split; [done|]. intros ? ? _ Hne. apply nonempty_spec in Hne. congruence.
Qed.

Lemma backups_reported id : reported (appendBackups (H := steady a) id) (forall f, an_Backup a = Some f -> exists b, f id = inr (Some b)).
Proof.
  unfold reported, appendBackups. cbn [dg_Backups dg_now steady].
  destruct (an_Backup a) as [f|]; cbn [fmap option_fmap option_map]; [|by eexists].
  rewrite (bind_Ret _ _ tt (f id) tt eq_refl), (bind_Ret _ _ tt (an_now a) tt eq_refl). eexists. split; [reflexivity|]. unfold backup_finding.
  destruct (f id) as [e|[b|]] eqn:Hf.
  - replace (countb problem _) with 1%nat by (by destruct (Is e ErrNoBackup)). split; [done|]. intros Hp. destruct (Hp f eq_refl) as [b Hb]. congruence.
  - split; [|done]. intros _ ? [= <-]. by exists b.
  - split; [done|]. intros Hp. destruct (Hp f eq_refl) as [b Hb]. congruence.
Qed.
Lemma status_quiet id status : countb problem (status_finding id status) = 0%nat.
Proof. unfold status_finding. destruct status as [|[s|]]; [done| |done]. case_match; [done|]. by case_match. Qed.

Lemma workload_reported : reported (if nonempty (in_WorkloadID i) then appendWorkload (H := steady a) (steady_prober a) i else mret [])
  (in_WorkloadID i <> "" -> (exists w, an_Workload a (in_WorkloadID i) = inr w) /\
    (forall f, an_Backup a = Some f -> exists b, f (in_WorkloadID i) = inr (Some b))).
Proof.
  destruct (nonempty (in_WorkloadID i)) eqn:Hn; [|eexists; split; [reflexivity|]; split; [|done]; intros _ Hne; apply nonempty_spec in Hne; congruence].
  apply nonempty_spec in Hn. unfold reported, appendWorkload. cbn [pb_GetWorkload pb_GetStatus steady_prober]. set (id := in_WorkloadID i) in *.
  rewrite (bind_Ret _ _ tt (match an_Workload a id with inl e => inl e | inr w => inr (Some w) end) tt eq_refl).
  destruct (an_Workload a id) as [e|w] eqn:Hw.
  - eexists. split; [reflexivity|]. split; [done|]. intros Hp. destruct (Hp Hn) as [[w Ew] _]. congruence.
  - rewrite (bind_Ret _ _ tt (an_Status a id) tt eq_refl). destruct (backups_reported id) as (fs & E & Hp). rewrite (bind_Ret _ _ tt fs tt E).
    eexists. split; [reflexivity|]. rewrite !countb_app, problems_ok, status_quiet. cbn [Nat.add]. rewrite Hp.
    split; [intros Hb _; split; [by exists w|done]|intros Hq; apply (Hq Hn)].
Qed.

(** A channel is reported as a problem when it is on and has given up. *)
Definition gave_up (c : Channel) (last : option Delivery) : Prop := dc_Enabled c = true /\ exists d, last = Some d /\ dl_State d = DeliveryFailed.
Lemma channel_problem c last : countb problem (appendChannel c last true) = 0%nat <-> ~ gave_up c last.
Proof.
  unfold appendChannel, gave_up. destruct (dc_Enabled c); cbn [negb]; [|split; [intros _ [? _]; congruence|done]].
  destruct last as [d|]; [|split; [intros _ (_ & d & ? & _); congruence|done]].
  destruct (dl_State d) eqn:Hd; (split; [intros H (_ & d' & [= <-] & E); (congruence || discriminate H)|]); [done..|].
  intros Hn. destruct Hn. split; [done|]. by exists d.
Qed.
Lemma channels_problem last l : countb problem (flat_map (fun c => appendChannel c (delivery_of last c) true) l) = 0%nat <->
  (forall c, c ∈ l -> ~ gave_up c (delivery_of last c)).
Proof.
  induction l as [|c l IH]; cbn [flat_map]; [split; [intros _ c Hc; by apply elem_of_nil in Hc|done]|].
  rewrite countb_zero_app, channel_problem, IH. split.
  - intros [Hc Hl] c' [->|Hin]%elem_of_cons; [done|by apply Hl].
  - intros Hl. split; [apply Hl; by left|]. intros c' Hin. apply Hl. by right.
Qed.
Lemma unchecked_quiet l last : countb problem (flat_map (fun c => appendChannel c (delivery_of last c) false) l) = 0%nat.
Proof.
  induction l as [|c l IH]; cbn [flat_map]; [done|]. rewrite countb_app, IH. unfold appendChannel. by destruct (dc_Enabled c).
Qed.
Lemma none_enabled l : enabled l = [] -> forall c, c ∈ l -> dc_Enabled c = false.
Proof.
  unfold enabled. intros He c Hc. destruct (dc_Enabled c) eqn:Hd; [|done].
  assert (dc_ID c ∈ map dc_ID (List.filter dc_Enabled l)) as Hin; [|rewrite He in Hin; by apply elem_of_nil in Hin].
  apply list_elem_of_In, in_map, filter_In. split; [by apply list_elem_of_In|done].
Qed.

Lemma notifications_reported : reported (appendNotifications (H := steady a) i)
  (forall c f last d, c ∈ in_Notifications i -> dc_Enabled c = true -> an_Deliveries a = Some f ->
    f (enabled (in_Notifications i)) = inr last -> delivery_of last c = Some d -> dl_State d <> DeliveryFailed).
Proof.
  unfold reported, appendNotifications. destruct (in_Notifications i) as [|c0 l0];
    [eexists; split; [reflexivity|]; split; [|done]; intros _ c ? ? ? Hc; by apply elem_of_nil in Hc|].
  set (l := c0 :: l0). unfold last_deliveries, checked. cbn [dg_Deliveries steady].
  assert (countb problem (dispatcher_off i) = 0%nat) as Hoff by (unfold dispatcher_off; by destruct (in_NotifyDispatcherOff i)).
  destruct (an_Deliveries a) as [f|]; cbn [fmap option_fmap option_map].
  - destruct (enabled l) as [|x xs] eqn:He.
    + eexists. split; [reflexivity|]. rewrite countb_app, Hoff, Nat.add_0_l, channels_problem. split.
      * intros _ c f' last d Hc Hon. rewrite (none_enabled _ He _ Hc) in Hon. discriminate.
      * intros _ c Hc [Hon _]. rewrite (none_enabled _ He _ Hc) in Hon. discriminate.
    + rewrite (bind_Ret _ _ tt (f (x :: xs)) tt eq_refl). eexists. split; [reflexivity|]. rewrite countb_app, Hoff, Nat.add_0_l.
      destruct (f (x :: xs)) as [e|last] eqn:Hf.
      * split; [|done]. intros _ c f' last d _ _ [= <-]. rewrite Hf. discriminate.
      * rewrite channels_problem. split.
        -- intros Hp c f' last' d Hc Hon [= <-]. rewrite Hf. intros [= <-] Hd Hs. apply (Hp c Hc). split; [done|]. by exists d.
        -- intros Hp c Hc (Hon & d & Hd & Hs). by apply (Hp c f last d Hc Hon eq_refl Hf Hd).
  - eexists. split; [destruct (enabled l); reflexivity|]. rewrite countb_app, Hoff, Nat.add_0_l, unchecked_quiet.
    split; [|done]. intros _ c f last d _ _ [=].
Qed.

(** A diagnosis always ends with a report, and its report is good exactly when
    nothing it looks at stands in the way of a drill. *)
Theorem Run_ready : exists r, Run (H := steady a) i tt = (Ret r, tt) /\ (report_ok r = true <-> ready).
Proof.
  destruct notifications_reported as (fn & En & Hn). unfold Run.
  assert (exists fc, appendCluster (H := steady a) i tt = (Ret fc, tt) /\ (countb problem fc = 0%nat /\ countb problem fn = 0%nat <-> ready)) as (fc & Ec & Hc).
  { unfold appendCluster. cbn [dg_Provider steady pb_Ping pb_ListNodes steady_prober]. rewrite (bind_Ret _ _ tt (an_Ping a) tt eq_refl).
    destruct (an_Ping a) as [e|[]] eqn:Hping.
    { eexists. split; [reflexivity|]. split; [by intros [? _]|]. intros [Ha _ _ _ _ _ _]. congruence. }
    rewrite (bind_Ret _ _ tt (an_Nodes a) tt eq_refl).
    destruct (storages_reported node_looked_at) as (fs & Es & Hs). rewrite (bind_Ret _ _ tt fs tt Es).
    destruct (network_reported node_looked_at) as (fw & Ew & Hw). rewrite (bind_Ret _ _ tt fw tt Ew).
    destruct (workload_reported) as (fl & El & Hl). rewrite (bind_Ret _ _ tt fl tt El).
    eexists. split; [reflexivity|]. rewrite !countb_app, problems_ok.
    replace (countb problem (if nonempty (in_HistoryDesc i) then _ else [])) with 0%nat by (by destruct (nonempty (in_HistoryDesc i))).
    assert (countb problem (node_findings (an_Nodes a)) = 0%nat <-> exists l, an_Nodes a = inr l) as Hnodes.
    { unfold node_findings. destruct (an_Nodes a) as [e|l]; [split; [done|by intros [? ?]]|]. split; [|done]. by exists l. }
    split.
    - intros [H0 Hn0]. constructor; [done|apply Hnodes; lia|apply Hs; lia|apply Hw; lia| |apply Hl; lia|by apply Hn].
      apply Hw. lia.
    - intros [_ H1 H2 H3 H4 H5 H6]. split; [|by apply Hn]. apply Hnodes in H1. apply Hs in H2. apply Hl in H5.
      assert (countb problem fw = 0%nat) by (apply Hw; by split). lia. }
  rewrite (bind_Ret _ _ tt fc tt Ec), (bind_Ret _ _ tt fn tt En). eexists. split; [reflexivity|]. rewrite <- Hc.
  unfold report_ok, Problems. cbn [rep_Findings]. rewrite countb_app, Z.eqb_eq. lia.
Qed.
End Ready.
