(* ===== verification/Credentials.v ===== *)
(** * The credentials of the API

    Models internal/store/tokens.go and sessions.go: the [api_tokens] and
    [api_sessions] tables, with their keys, and everything that writes to them.
    A secret is never stored, only its hash. *)

From Stdlib Require Import ZArith Lia String Ascii List.
From stdpp Require Import sorting.
From S2P Require Import Prelude GoTime Core GoString Queue.

(** ** The tables *)

Definition ScopeRead : string := "read".
Definition ScopeOperate : string := "operate".
Definition ScopeManage : string := "manage".

(** [store.APIToken]. *)
Record APIToken := mkAPIToken {
  tk_ID : string;
  tk_Name : string;
  tk_Hash : string;
  tk_CreatedAt : Z;
  tk_LastUsedAt : Z;
  tk_RevokedAt : Z;
  tk_Scopes : list string;
}.
(** [Live] and [Can]. *)
Definition Live (t : APIToken) : bool := Time.IsZero (tk_RevokedAt t).
Definition Can (t : APIToken) (scope : string) : bool :=
  bool_decide (scope = ScopeRead) || existsb (fun s => bool_decide (s = scope)) (tk_Scopes t).

(** [store.Session]. *)
Record Session := mkSession {
  ss_ID : string;
  ss_Hash : string;
  ss_TokenID : string;
  ss_CreatedAt : Z;
  ss_ExpiresAt : Z;
  ss_UserAgent : string;
}.

(** A row of each table, under its primary key. *)
Record TokenRow := mkTokenRow {
  tr_name : string;
  tr_hash : string;
  tr_created_at : Z;
  tr_last_used_at : option Z;
  tr_revoked_at : option Z;
  tr_scopes : string;
}.
Record SessionRow := mkSessionRow {
  sr_hash : string;
  sr_token_id : string;
  sr_created_at : Z;
  sr_expires_at : Z;
  sr_user_agent : string;
}.
Abbreviation TokenTable := (gmap string TokenRow).
Abbreviation SessionTable := (gmap string SessionRow).
Record CredDB := mkCredDB { cd_tokens : TokenTable; cd_sessions : SessionTable }.

(** ** tokens.go *)

(** [encodeScopes] and [decodeScopes]. *)
Definition encodeScopes (scopes : list string) : string :=
  match scopes with [] => ScopeRead | _ => Join "," scopes end.
Definition decodeScopes (raw : string) : list string :=
  if nonempty raw then Split ","%char raw else [ScopeRead].

(** How a write is refused. *)
Inductive cred_error := NoHash | Refused (err : store_error).

(** [CreateToken]: the name and the hash are unique. *)
Definition token_row (t : APIToken) : TokenRow :=
  mkTokenRow (tk_Name t) (tk_Hash t) (tk_CreatedAt t) None None (encodeScopes (tk_Scopes t)).
Definition CreateToken (t : APIToken) (db : CredDB) : cred_error + CredDB :=
  if negb (nonempty (tk_Hash t)) then inl NoHash
  else if bool_decide (is_Some (cd_tokens db !! tk_ID t)) ||
          existsb (fun x => bool_decide (tr_name x.2 = tk_Name t) || bool_decide (tr_hash x.2 = tk_Hash t))
            (map_to_list (cd_tokens db))
  then inl (Refused (ErrConstraint (tk_ID t)))
  else inr (mkCredDB (<[tk_ID t := token_row t]> (cd_tokens db)) (cd_sessions db)).

(** [scanToken]. *)
Definition scanToken (x : string * TokenRow) : APIToken :=
  let r := x.2 in
  mkAPIToken x.1 (tr_name r) (tr_hash r) (tr_created_at r) (parseNullTime (tr_last_used_at r))
    (parseNullTime (tr_revoked_at r)) (decodeScopes (tr_scopes r)).

(** [TokenByHash]: only a live one. *)
Definition live_row (r : TokenRow) : bool := bool_decide (tr_revoked_at r = None).
Definition token_matches (hash : string) (x : string * TokenRow) : bool :=
  bool_decide (tr_hash x.2 = hash) && live_row x.2.
Definition TokenByHash (hash : string) (db : CredDB) : option APIToken :=
  scanToken <$> head (List.filter (token_matches hash) (map_to_list (cd_tokens db))).

(** [ListTokens]: ORDER BY created_at, id; revoked ones included. *)
Section ListTokens.
Context `{Collation}.
Definition created_first (x y : string * TokenRow) : Prop :=
  tr_created_at x.2 < tr_created_at y.2 \/ (tr_created_at x.2 = tr_created_at y.2 /\ collate x.1 y.1 = true).
#[export] Instance created_first_dec x y : Decision (created_first x y).
Proof. unfold created_first. apply _. Defined.
Definition ListTokens (db : CredDB) : list APIToken :=
  map scanToken (merge_sort created_first (map_to_list (cd_tokens db))).
End ListTokens.

(** [RevokeToken]. *)
Definition revoke (at_ : Z) (r : TokenRow) : TokenRow :=
  mkTokenRow (tr_name r) (tr_hash r) (tr_created_at r) (tr_last_used_at r) (Some at_) (tr_scopes r).
Definition RevokeToken (name : string) (at_ : Z) (db : CredDB) : cred_error + CredDB :=
  match List.filter (fun x => bool_decide (tr_name x.2 = name) && live_row x.2) (map_to_list (cd_tokens db)) with
  | [] => inl (Refused (ErrNotFound name))
  | _ =>
    inr (mkCredDB ((fun r => if bool_decide (tr_name r = name) && live_row r then revoke at_ r else r) <$> cd_tokens db)
           (cd_sessions db))
  end.

(** [TouchToken]. *)
Definition touch (at_ : Z) (r : TokenRow) : TokenRow :=
  mkTokenRow (tr_name r) (tr_hash r) (tr_created_at r) (Some at_) (tr_revoked_at r) (tr_scopes r).
Definition TouchToken (id : string) (at_ : Z) (db : CredDB) : CredDB :=
  mkCredDB (alter (touch at_) id (cd_tokens db)) (cd_sessions db).

(** ** sessions.go *)

Definition maxUserAgent : nat := 256.

(** [strings.ToValidUTF8(s, "")]: the length of the rune a string starts with, 0
    when it starts with none. *)
Definition between (lo hi : N) (c : ascii) : bool := (lo <=? code c)%N && (code c <=? hi)%N.
Definition continuation : ascii -> bool := between 128 191.
Definition rune_len (s : string) : nat :=
  match s with
  | EmptyString => 0
  | String a s1 =>
    if between 0 127 a then 1 else
    match s1 with
    | EmptyString => 0
    | String b s2 =>
      if between 194 223 a then (if continuation b then 2 else 0) else
      match s2 with
      | EmptyString => 0
      | String c s3 =>
        if between 224 239 a then
          let lo := if (code a =? 224)%N then 160%N else 128%N in
          let hi := if (code a =? 237)%N then 159%N else 191%N in
          if between lo hi b && continuation c then 3 else 0
        else
        match s3 with
        | EmptyString => 0
        | String e _ =>
          if between 240 244 a then
            let lo := if (code a =? 240)%N then 144%N else 128%N in
            let hi := if (code a =? 244)%N then 143%N else 191%N in
            if between lo hi b && continuation c && continuation e then 4 else 0
          else 0
        end
      end
    end
  end%nat.
Fixpoint valid_runes (fuel : nat) (s : string) : string :=
  match fuel, s with
  | S fuel, String _ rest =>
    match rune_len s with
    | O => valid_runes fuel rest
    | n => String.substring 0 n s +:+ valid_runes fuel (String.substring n (String.length s - n) s)
    end
  | _, _ => EmptyString
  end.
Definition ToValidUTF8 (s : string) : string := valid_runes (String.length s) s.

(** [encodeUserAgent]; an empty one is NULL, and reads back as empty. *)
Definition encodeUserAgent (ua : string) : string :=
  if (maxUserAgent <? String.length ua)%nat then ToValidUTF8 (String.substring 0 maxUserAgent ua) else ua.

(** DELETE ... WHERE expires_at <= ?, and ... WHERE hash = ?. *)
Definition DeleteExpiredSessions (now : Z) (db : CredDB) : CredDB :=
  mkCredDB (cd_tokens db) (filter (fun x => now < sr_expires_at x.2) (cd_sessions db)).
Definition DeleteSession (hash : string) (db : CredDB) : CredDB :=
  mkCredDB (cd_tokens db) (filter (fun x => sr_hash x.2 <> hash) (cd_sessions db)).

(** [CreateSession]: the sweep and the insertion, in one transaction. *)
Definition session_row (s : Session) : SessionRow :=
  mkSessionRow (ss_Hash s) (ss_TokenID s) (ss_CreatedAt s) (ss_ExpiresAt s) (encodeUserAgent (ss_UserAgent s)).
Definition insert_session (s : Session) (db : CredDB) : cred_error + CredDB :=
  if bool_decide (is_Some (cd_sessions db !! ss_ID s)) ||
     existsb (fun x => bool_decide (sr_hash x.2 = ss_Hash s)) (map_to_list (cd_sessions db)) ||
     negb (bool_decide (is_Some (cd_tokens db !! ss_TokenID s)))
  then inl (Refused (ErrConstraint (ss_ID s)))
  else inr (mkCredDB (cd_tokens db) (<[ss_ID s := session_row s]> (cd_sessions db))).
Definition CreateSession (s : Session) (now : Z) (db : CredDB) : cred_error + CredDB :=
  if negb (nonempty (ss_Hash s)) then inl NoHash else insert_session s (DeleteExpiredSessions now db).

(** [SessionByHash]: a session that has not expired, with the live token it names. *)
Definition scanSession (x : string * SessionRow) : Session :=
  let r := x.2 in mkSession x.1 (sr_hash r) (sr_token_id r) (sr_created_at r) (sr_expires_at r) (sr_user_agent r).
Definition session_joins (hash : string) (now : Z) (db : CredDB) (x : string * SessionRow) : option (Session * APIToken) :=
  if bool_decide (sr_hash x.2 = hash) && (now <? sr_expires_at x.2) then
    match cd_tokens db !! sr_token_id x.2 with
    | Some r => if live_row r then Some (scanSession x, scanToken (sr_token_id x.2, r)) else None
    | None => None
    end
  else None.
Definition SessionByHash (hash : string) (now : Z) (db : CredDB) : option (Session * APIToken) :=
  head (omap (session_joins hash now db) (map_to_list (cd_sessions db))).

(** ** Everything that writes to the two tables *)

Inductive cred_op :=
| OpCreateToken (t : APIToken)
| OpRevokeToken (name : string) (at_ : Z)
| OpTouchToken (id : string) (at_ : Z)
| OpCreateSession (s : Session) (now : Z)
| OpDeleteSession (hash : string)
| OpDeleteExpiredSessions (now : Z).

Definition cred_exec (o : cred_op) (db : CredDB) : cred_error + CredDB :=
  match o with
  | OpCreateToken t => CreateToken t db
  | OpRevokeToken name at_ => RevokeToken name at_ db
  | OpTouchToken id at_ => inr (TouchToken id at_ db)
  | OpCreateSession s now => CreateSession s now db
  | OpDeleteSession hash => inr (DeleteSession hash db)
  | OpDeleteExpiredSessions now => inr (DeleteExpiredSessions now db)
  end.
Definition cred_apply (o : cred_op) (db : CredDB) : CredDB := match cred_exec o db with inl _ => db | inr db' => db' end.
Definition cred_run (ops : list cred_op) (db : CredDB) : CredDB := fold_left (fun db o => cred_apply o db) ops db.
Definition cred_empty : CredDB := mkCredDB ∅ ∅.

(** ** What the tables promise *)

Record cred_wf (db : CredDB) : Prop := {
  cw_hash : forall i j r1 r2, cd_tokens db !! i = Some r1 -> cd_tokens db !! j = Some r2 -> tr_hash r1 = tr_hash r2 -> i = j;
  cw_name : forall i j r1 r2, cd_tokens db !! i = Some r1 -> cd_tokens db !! j = Some r2 -> tr_name r1 = tr_name r2 -> i = j;
  cw_session : forall i j r1 r2, cd_sessions db !! i = Some r1 -> cd_sessions db !! j = Some r2 -> sr_hash r1 = sr_hash r2 -> i = j;
  cw_opened : forall i r, cd_sessions db !! i = Some r -> is_Some (cd_tokens db !! sr_token_id r);
}.

Lemma cred_empty_wf : cred_wf cred_empty.
Proof. by split; intros *; cbn; rewrite lookup_empty. Qed.

(** A row and what it may become: only its use and its revocation are written,
    and a revocation once. *)
Definition token_le (r r' : TokenRow) : Prop :=
  tr_name r' = tr_name r /\ tr_hash r' = tr_hash r /\ tr_created_at r' = tr_created_at r /\ tr_scopes r' = tr_scopes r /\
  (tr_revoked_at r <> None -> tr_revoked_at r' = tr_revoked_at r).
#[export] Instance token_le_preorder : PreOrder token_le.
Proof.
  split; [by intros r|]. intros a b c (H1 & H2 & H3 & H4 & H5) (K1 & K2 & K3 & K4 & K5).
  split_and!; try congruence. intros Hr. rewrite K5 by (by rewrite H5). by apply H5.
Qed.
Definition cred_le (db db' : CredDB) : Prop :=
  forall id r, cd_tokens db !! id = Some r -> exists r', cd_tokens db' !! id = Some r' /\ token_le r r'.
#[export] Instance cred_le_preorder : PreOrder cred_le.
Proof.
  split; [intros db id r E; by exists r|]. intros a b c H1 H2 id r E.
  destruct (H1 id r E) as (r1 & E1 & L1). destruct (H2 id r1 E1) as (r2 & E2 & L2). exists r2. split; [done|by etransitivity].
Qed.

Lemma CreateToken_inr t db db' :
  CreateToken t db = inr db' ->
  cd_tokens db !! tk_ID t = None /\
  (forall id r, cd_tokens db !! id = Some r -> tr_name r <> tk_Name t /\ tr_hash r <> tk_Hash t) /\
  db' = mkCredDB (<[tk_ID t := token_row t]> (cd_tokens db)) (cd_sessions db).
Proof.
  unfold CreateToken. destruct (nonempty (tk_Hash t)); [|done]. cbn [negb]. case_match eqn:E; [done|]. intros [= <-].
  apply orb_false_iff in E as [E1 E2]. apply bool_decide_eq_false, eq_None_not_Some in E1. split_and!; [done| |done].
  intros id r Er. assert ((id, r) ∈ map_to_list (cd_tokens db)) as Hin by by apply elem_of_map_to_list.
  rewrite <- not_true_iff_false, existsb_exists in E2. split; intros Heq; apply E2; exists (id, r);
    (split; [by apply list_elem_of_In|]); cbn; rewrite (bool_decide_true _ Heq); [done|by rewrite orb_true_r].
Qed.

Lemma insert_session_inr s db db' :
  insert_session s db = inr db' ->
  (forall id r, cd_sessions db !! id = Some r -> sr_hash r <> ss_Hash s) /\ is_Some (cd_tokens db !! ss_TokenID s) /\
  db' = mkCredDB (cd_tokens db) (<[ss_ID s := session_row s]> (cd_sessions db)).
Proof.
  unfold insert_session. case_match eqn:E; [done|]. intros [= <-]. rewrite !orb_false_iff in E. destruct E as [[_ E2] E3].
  apply negb_false_iff, bool_decide_eq_true in E3. split_and!; [|done|done]. intros id r Er Heq.
  rewrite <- not_true_iff_false, existsb_exists in E2. apply E2. exists (id, r).
  split; [by apply list_elem_of_In, elem_of_map_to_list|]. by apply bool_decide_true.
Qed.

Lemma CreateSession_inr s now db db' :
  CreateSession s now db = inr db' -> insert_session s (DeleteExpiredSessions now db) = inr db'.
Proof. unfold CreateSession. by destruct (nonempty (ss_Hash s)). Qed.

Lemma RevokeToken_inr name at_ db db' :
  RevokeToken name at_ db = inr db' ->
  db' = mkCredDB ((fun r => if bool_decide (tr_name r = name) && live_row r then revoke at_ r else r) <$> cd_tokens db) (cd_sessions db).
Proof. unfold RevokeToken. by destruct (List.filter _ _); intros [= <-]. Qed.

Lemma revoke_if_le name at_ r : token_le r (if bool_decide (tr_name r = name) && live_row r then revoke at_ r else r).
Proof.
  destruct (bool_decide (tr_name r = name)); cbn; [|done]. unfold live_row. case_bool_decide; [|done].
  by split_and!.
Qed.

(** Writing only to the rows there are, along [token_le], keeps the promises. *)
Lemma rows_le_wf db (f : string -> TokenRow -> TokenRow) t' :
  cred_wf db -> (forall id r, token_le r (f id r)) ->
  (forall id, t' !! id = f id <$> cd_tokens db !! id) ->
  cred_wf (mkCredDB t' (cd_sessions db)) /\ cred_le db (mkCredDB t' (cd_sessions db)).
Proof.
  intros [Hh Hn Hs Ho] Hle Ht.
  assert (forall i r, t' !! i = Some r -> exists r0, cd_tokens db !! i = Some r0 /\ tr_hash r = tr_hash r0 /\ tr_name r = tr_name r0) as Hback.
  { intros i r E. rewrite Ht in E. destruct (cd_tokens db !! i) as [r0|] eqn:E0; [|done]. injection E as <-.
    exists r0. destruct (Hle i r0) as (? & ? & _). done. }
  split.
  - split; cbn.
    + intros i j r1 r2 E1 E2 Eq. destruct (Hback _ _ E1) as (a & Ea & Ha & _). destruct (Hback _ _ E2) as (b & Eb & Hb & _).
      eapply Hh; [exact Ea|exact Eb|congruence].
    + intros i j r1 r2 E1 E2 Eq. destruct (Hback _ _ E1) as (a & Ea & _ & Ha). destruct (Hback _ _ E2) as (b & Eb & _ & Hb).
      eapply Hn; [exact Ea|exact Eb|congruence].
    + done.
    + intros i r E. rewrite Ht. destruct (Ho i r E) as [x ->]. by eexists.
  - intros id r E. exists (f id r). cbn. by rewrite Ht, E.
Qed.

Lemma sessions_sub_wf db s' : cred_wf db -> s' ⊆ cd_sessions db -> cred_wf (mkCredDB (cd_tokens db) s').
Proof.
  intros [Hh Hn Hs Ho] Hsub. split; cbn; [done..| |].
  - intros i j r1 r2 E1 E2. apply Hs; by eapply lookup_weaken.
  - intros i r E. apply (Ho i). by eapply lookup_weaken.
Qed.

Lemma cred_apply_wf o db : cred_wf db -> cred_wf (cred_apply o db) /\ cred_le db (cred_apply o db).
Proof.
  intros Hwf. unfold cred_apply. destruct (cred_exec o db) as [e|db'] eqn:E; [done|].
  destruct o as [t|name at_|id at_|s now|hash|now]; cbn in E.
  - apply CreateToken_inr in E as (Hn & Hnew & ->). destruct Hwf as [Hh Hnm Hs Ho]. split; [split; cbn|].
    + intros i j r1 r2. rewrite !lookup_insert_Some.
      intros [[<- <-]|[_ E1]] [[<- <-]|[_ E2]] Eq; [done| | |by eapply Hh]; exfalso;
        [destruct (Hnew _ _ E2) as [_ Hx]|destruct (Hnew _ _ E1) as [_ Hx]]; by apply Hx.
    + intros i j r1 r2. rewrite !lookup_insert_Some.
      intros [[<- <-]|[_ E1]] [[<- <-]|[_ E2]] Eq; [done| | |by eapply Hnm]; exfalso;
        [destruct (Hnew _ _ E2) as [Hx _]|destruct (Hnew _ _ E1) as [Hx _]]; by apply Hx.
    + done.
    + intros i r Er. destruct (decide (tk_ID t = sr_token_id r)) as [<-|Hne]; [rewrite lookup_insert_eq; by eexists|].
      rewrite lookup_insert_ne by done. by apply (Ho i).
    + intros id r Er. exists r. cbn. rewrite lookup_insert_ne by congruence. done.
  - apply RevokeToken_inr in E as ->. apply (rows_le_wf db (fun _ r => if bool_decide (tr_name r = name) && live_row r then revoke at_ r else r));
      [done|intros _ r; apply revoke_if_le|]. intros id. apply lookup_fmap.
  - injection E as <-. apply (rows_le_wf db (fun i r => if decide (i = id) then touch at_ r else r)); [done| |].
    + intros i r. destruct (decide (i = id)); [|done]. by split_and!.
    + intros i. destruct (decide (i = id)) as [->|Hne]; [by rewrite lookup_alter_eq|].
      rewrite lookup_alter_ne by done. by destruct (cd_tokens db !! i).
  - apply CreateSession_inr, insert_session_inr in E as (Hnew & Ht & ->). cbn in *.
    assert (cred_wf (DeleteExpiredSessions now db)) as [Hh Hnm Hs Ho] by (apply sessions_sub_wf; [done|apply map_filter_subseteq]).
    cbn in *. split; [split; cbn; [done|done| |]|intros id r Er; by exists r].
    + intros i j r1 r2. rewrite !lookup_insert_Some.
      intros [[<- <-]|[_ E1]] [[<- <-]|[_ E2]] Eq; [done| | |by eapply Hs]; exfalso; [by eapply (Hnew _ _ E2)|by eapply (Hnew _ _ E1)].
    + intros i r. rewrite lookup_insert_Some. intros [[_ <-]|[_ Er]]; [exact Ht|by apply (Ho i)].
  - injection E as <-. split; [|intros id r Er; by exists r]. apply sessions_sub_wf; [done|apply map_filter_subseteq].
  - injection E as <-. split; [|intros id r Er; by exists r]. apply sessions_sub_wf; [done|apply map_filter_subseteq].
Qed.
Lemma cred_run_wf ops db : cred_wf db -> cred_wf (cred_run ops db) /\ cred_le db (cred_run ops db).
Proof.
  revert db. induction ops as [|o ops IH]; intros db Hwf; [done|]. destruct (cred_apply_wf o db Hwf) as [H1 L1].
  destruct (IH _ H1) as [H2 L2]. split; [done|]. by etransitivity.
Qed.

(** * What a credential is good for, and for how long

    The lookups by a hash, as what they find; a revoked token never comes back,
    with any of its sessions; a session never outlives its twelve hours. *)

(** ** The lookups *)

Lemma head_filter_unique {A} (f : A -> bool) l x :
  (forall y z, y ∈ l -> z ∈ l -> f y = true -> f z = true -> y = z) -> x ∈ l -> f x = true -> head (List.filter f l) = Some x.
Proof.
  intros Hu Hin Hf. assert (x ∈ List.filter f l) as Hx by (apply list_elem_of_In, filter_In; by rewrite <- list_elem_of_In).
  destruct (List.filter f l) as [|y r] eqn:E; [by apply elem_of_nil in Hx|]. cbn. f_equal.
  assert (y ∈ List.filter f l) as Hy by (rewrite E; left). apply list_elem_of_In, filter_In in Hy as [Hy Hfy].
  rewrite <- list_elem_of_In in Hy. by apply Hu.
Qed.

(** A token with this hash is found when it is there and was not revoked. *)
Lemma TokenByHash_Some hash db t :
  TokenByHash hash db = Some t -> exists id r, cd_tokens db !! id = Some r /\ tr_hash r = hash /\ tr_revoked_at r = None /\ t = scanToken (id, r).
Proof.
  unfold TokenByHash. intros E. apply fmap_Some in E as ([id r] & E & ->).
  assert ((id, r) ∈ List.filter (token_matches hash) (map_to_list (cd_tokens db))) as Hin
    by (destruct (List.filter _ _); [done|injection E as ->; left]).
  apply list_elem_of_In, filter_In in Hin as [Hin Hm]. rewrite <- list_elem_of_In, elem_of_map_to_list in Hin.
  unfold token_matches, live_row in Hm. cbn in Hm. apply andb_true_iff in Hm as [Hh Hl].
  apply bool_decide_eq_true in Hh, Hl. by exists id, r.
Qed.
Lemma TokenByHash_found hash db id r :
  cred_wf db -> cd_tokens db !! id = Some r -> tr_hash r = hash -> tr_revoked_at r = None ->
  TokenByHash hash db = Some (scanToken (id, r)).
Proof.
  intros Hwf E Hh Hl. unfold TokenByHash. rewrite (head_filter_unique _ _ (id, r)); [done| | |].
  - intros [i a] [j b] Ha Hb Hma Hmb. apply elem_of_map_to_list in Ha, Hb.
    unfold token_matches in Hma, Hmb. apply andb_true_iff in Hma as [Hma _], Hmb as [Hmb _].
    apply bool_decide_eq_true in Hma, Hmb. cbn in *. assert (i = j) as -> by (eapply cw_hash; [done|exact Ha|exact Hb|congruence]).
    congruence.
  - by apply elem_of_map_to_list.
  - unfold token_matches, live_row. cbn. by rewrite !bool_decide_true.
Qed.

Lemma session_joins_Some hash now db x s t :
  session_joins hash now db x = Some (s, t) <->
  sr_hash x.2 = hash /\ now < sr_expires_at x.2 /\
  exists r, cd_tokens db !! sr_token_id x.2 = Some r /\ tr_revoked_at r = None /\
    s = scanSession x /\ t = scanToken (sr_token_id x.2, r).
Proof.
  unfold session_joins. destruct x as [i a]. cbn. destruct (bool_decide (sr_hash a = hash)) eqn:Eh; cbn;
    [apply bool_decide_eq_true in Eh|apply bool_decide_eq_false in Eh; split; [done|by intros (? & _)]].
  destruct (Z.ltb_spec now (sr_expires_at a)); [|split; [done|intros (_ & ? & _); lia]].
  destruct (cd_tokens db !! sr_token_id a) as [r|]; [|split; [done|by intros (_ & _ & r & ? & _)]].
  unfold live_row. case_bool_decide as El; (split; [intros E|intros (_ & _ & r' & Er & Hl & -> & ->)]).
  - injection E as <- <-. split_and!; [done..|]. by exists r.
  - injection Er as <-. done.
  - done.
  - congruence.
Qed.

Lemma SessionByHash_Some hash now db s t :
  SessionByHash hash now db = Some (s, t) ->
  exists i a r, cd_sessions db !! i = Some a /\ sr_hash a = hash /\ now < sr_expires_at a /\
    cd_tokens db !! sr_token_id a = Some r /\ tr_revoked_at r = None /\
    s = scanSession (i, a) /\ t = scanToken (sr_token_id a, r).
Proof.
  unfold SessionByHash. intros E.
  assert ((s, t) ∈ omap (session_joins hash now db) (map_to_list (cd_sessions db))) as Hin
    by (destruct (omap _ _); [done|injection E as ->; left]).
  apply list_elem_of_omap in Hin as ([i a] & Hin & Hj). apply elem_of_map_to_list in Hin.
  apply session_joins_Some in Hj as (Hh & Hx & r & Er & Hl & -> & ->). by exists i, a, r.
Qed.
Lemma SessionByHash_found now db i a r :
  cred_wf db -> cd_sessions db !! i = Some a -> now < sr_expires_at a ->
  cd_tokens db !! sr_token_id a = Some r -> tr_revoked_at r = None ->
  SessionByHash (sr_hash a) now db = Some (scanSession (i, a), scanToken (sr_token_id a, r)).
Proof.
  intros Hwf Ea Hx Er Hl. unfold SessionByHash.
  assert (session_joins (sr_hash a) now db (i, a) = Some (scanSession (i, a), scanToken (sr_token_id a, r))) as Hj
    by (apply session_joins_Some; split_and!; [done..|by exists r]).
  assert ((scanSession (i, a), scanToken (sr_token_id a, r)) ∈ omap (session_joins (sr_hash a) now db) (map_to_list (cd_sessions db))) as Hin.
  { apply list_elem_of_omap. exists (i, a). split; [by apply elem_of_map_to_list|done]. }
  destruct (omap _ _) as [|[s t] l] eqn:E; [by apply elem_of_nil in Hin|]. cbn. f_equal.
  assert ((s, t) ∈ omap (session_joins (sr_hash a) now db) (map_to_list (cd_sessions db))) as Hst by (rewrite E; left).
  apply list_elem_of_omap in Hst as ([j b] & Hjb & Hst). apply elem_of_map_to_list in Hjb.
  apply session_joins_Some in Hst as (Hb & _ & r' & Er' & _ & -> & ->). cbn in *.
  assert (j = i) as -> by (eapply cw_session; [done|exact Hjb|exact Ea|done]). congruence.
Qed.

(** ** Revocation *)

(** A revoked token: its row, now and later. *)
Lemma revoked_row name at_ db db1 id r :
  RevokeToken name at_ db = inr db1 -> cd_tokens db !! id = Some r -> tr_name r = name ->
  exists r1, cd_tokens db1 !! id = Some r1 /\ token_le r r1 /\ tr_revoked_at r1 <> None.
Proof.
  intros E Er Hn. apply RevokeToken_inr in E as ->. cbn. exists (if bool_decide (tr_name r = name) && live_row r then revoke at_ r else r).
  rewrite lookup_fmap, Er. split; [done|]. split; [apply revoke_if_le|]. rewrite (bool_decide_true _ Hn). cbn.
  unfold live_row. case_bool_decide as El; cbn; [done|exact El].
Qed.

(** C33: a revoked token never comes back. Once the token of a name was revoked,
    then whatever is written to the two tables, by whomever and in any order: no
    bearer of its secret is recognised again, and neither is any session opened
    with it, whatever the instant; and no other token takes its name. *)
Theorem revoked_is_final name at_ db db1 ops :
  cred_wf db -> RevokeToken name at_ db = inr db1 ->
  let db2 := cred_run ops db1 in
  (forall hash t, TokenByHash hash db2 = Some t -> tk_Name t <> name) /\
  (forall hash now s t, SessionByHash hash now db2 = Some (s, t) -> tk_Name t <> name).
Proof.
  intros Hwf E.
  assert (exists id r, cd_tokens db !! id = Some r /\ tr_name r = name) as (id & r & Er & Hn).
  { unfold RevokeToken in E. destruct (List.filter _ _) as [|[id r] l] eqn:El; [done|]. exists id, r.
    assert ((id, r) ∈ List.filter (fun x => bool_decide (tr_name x.2 = name) && live_row x.2) (map_to_list (cd_tokens db))) as Hin
      by (rewrite El; left).
    apply list_elem_of_In, filter_In in Hin as [Hin Hm]. rewrite <- list_elem_of_In, elem_of_map_to_list in Hin.
    apply andb_true_iff in Hm as [Hm _]. by apply bool_decide_eq_true in Hm. }
  destruct (revoked_row name at_ db db1 id r E Er Hn) as (r1 & Er1 & L1 & Hrev).
  assert (cred_wf db1) as Hwf1.
  { pose proof (cred_apply_wf (OpRevokeToken name at_) db Hwf) as [Hx _]. unfold cred_apply in Hx. cbn in Hx. by rewrite E in Hx. }
  destruct (cred_run_wf ops db1 Hwf1) as [Hwf2 Hle]. destruct (Hle id r1 Er1) as (r2 & Er2 & L2).
  assert (tr_revoked_at r2 <> None) as Hrev2.
  { destruct L2 as (_ & _ & _ & _ & L2). by rewrite (L2 Hrev). }
  assert (tr_name r2 = name) as Hn2 by (destruct L1 as [? _], L2 as [? _]; congruence).
  assert (forall j b, cd_tokens (cred_run ops db1) !! j = Some b -> tr_revoked_at b = None -> tr_name b <> name) as Hno.
  { intros j b Eb Hb Hnb. assert (j = id) as -> by (eapply cw_name; [done|exact Eb|exact Er2|congruence]). congruence. }
  cbn. split.
  - intros hash t Et. apply TokenByHash_Some in Et as (j & b & Eb & _ & Hb & ->). by apply (Hno j b).
  - intros hash now s t Et. apply SessionByHash_Some in Et as (i & a & b & _ & _ & _ & Eb & Hb & _ & ->). by eapply Hno.
Qed.

(** ** Sessions *)

(** The sessions that are opened live for [lifetime] from the instant of their login. *)
Definition opens_for (lifetime : Z) (o : cred_op) : Prop :=
  match o with OpCreateSession s now => ss_CreatedAt s = now /\ ss_ExpiresAt s = now + lifetime | _ => True end.
Definition short_sessions (lifetime : Z) (db : CredDB) : Prop :=
  forall i a, cd_sessions db !! i = Some a -> sr_expires_at a = sr_created_at a + lifetime.

Lemma cred_apply_short lifetime o db : opens_for lifetime o -> short_sessions lifetime db -> short_sessions lifetime (cred_apply o db).
Proof.
  intros Ho Hs. unfold cred_apply. destruct (cred_exec o db) as [e|db'] eqn:E; [done|].
  destruct o as [t|name at_|id at_|s now|hash|now]; cbn in E.
  - by apply CreateToken_inr in E as (_ & _ & ->).
  - by apply RevokeToken_inr in E as ->.
  - by injection E as <-.
  - apply CreateSession_inr, insert_session_inr in E as (_ & _ & ->). intros i a. cbn.
    rewrite lookup_insert_Some, map_lookup_filter_Some. intros [[_ <-]|[_ [Ea _]]]; [|by apply (Hs i)].
    cbn. destruct Ho as [-> ->]. done.
  - injection E as <-. intros i a. cbn. rewrite map_lookup_filter_Some. intros [Ea _]. by apply (Hs i).
  - injection E as <-. intros i a. cbn. rewrite map_lookup_filter_Some. intros [Ea _]. by apply (Hs i).
Qed.

(** A session ends by itself. In any history where sessions are opened with the
    API's lifetime, one that is recognised at an instant was opened less than that
    lifetime before it, whatever was done with it since, and gives no more than its
    token gives at that instant. *)
Theorem session_is_short_lived lifetime ops hash now s t :
  Forall (opens_for lifetime) ops -> SessionByHash hash now (cred_run ops cred_empty) = Some (s, t) ->
  ss_Hash s = hash /\ now < ss_CreatedAt s + lifetime /\
  exists r, cd_tokens (cred_run ops cred_empty) !! ss_TokenID s = Some r /\ tr_revoked_at r = None /\ t = scanToken (ss_TokenID s, r).
Proof.
  intros Hops E. assert (short_sessions lifetime (cred_run ops cred_empty)) as Hs.
  { clear E. assert (short_sessions lifetime cred_empty) as H0 by (intros i a; cbn; by rewrite lookup_empty).
    revert H0. generalize cred_empty. induction Hops as [|o ops Ho _ IH]; intros db H0; [done|]. cbn. apply IH.
    by apply cred_apply_short. }
  apply SessionByHash_Some in E as (i & a & r & Ea & Hh & Hx & Er & Hl & -> & ->). cbn.
  rewrite <- (Hs i a Ea). split_and!; [done..|]. by exists r.
Qed.

(** ** A token, a session, a revocation *)

Definition cli_token : APIToken := mkAPIToken "t1" "cli" "h1" 5 Time.zero Time.zero [ScopeOperate].
Definition tab_session : Session := mkSession "s1" "h2" "t1" 10 (10 + 100) "".
Definition opened : CredDB := cred_run [OpCreateToken cli_token; OpCreateSession tab_session 10] cred_empty.

Lemma session_is_short_lived_witness :
  exists s t, SessionByHash "h2" 50 opened = Some (s, t) /\ 50 < ss_CreatedAt s + 100.
Proof.
  destruct (SessionByHash "h2" 50 opened) as [[s t]|] eqn:E; [|revert E; vm_compute; discriminate].
  exists s, t. split; [reflexivity|].
  assert (Forall (opens_for 100) [OpCreateToken cli_token; OpCreateSession tab_session 10]) as Hf
    by (repeat constructor).
  exact (proj1 (proj2 (session_is_short_lived 100 _ _ _ _ _ Hf E))).
Defined.

Lemma revoked_is_final_witness :
  cred_wf opened /\ is_Some (SessionByHash "h2" 50 opened) /\
  exists db1, RevokeToken "cli" 60 opened = inr db1 /\
    forall hash now s t, SessionByHash hash now (cred_run [OpTouchToken "t1" 61; OpDeleteExpiredSessions 62] db1) = Some (s, t) ->
      tk_Name t <> "cli".
Proof.
  assert (cred_wf opened) as Hwf by apply cred_run_wf, cred_empty_wf.
  split; [exact Hwf|]. split; [eexists; vm_compute; reflexivity|].
  destruct (RevokeToken "cli" 60 opened) as [e|db1] eqn:E; [revert E; vm_compute; discriminate|].
  exists db1. split; [reflexivity|]. exact (proj2 (revoked_is_final "cli" 60 opened db1 _ Hwf E)).
Defined.
