(* ===== verification/Store.v ===== *)
(** * The store

    Models internal/store/store.go, sqlstore.go and noop.go: the interface that the rest
    of the program holds, as the type [Store] of its calls indexed by what they answer,
    the database that carries them out over all the tables at once ([sqlStore]), and
    the store of a program without a database ([Noop]). *)

From Stdlib Require Import ZArith Lia String Ascii List.
From stdpp Require Import sorting.
From S2P Require Import Prelude GoTime GoFloat Core Queue Listing Timeline Catalog Story Deliveries Credentials.

(** ** The interface

    What every caller of a history database may ask. [Describe] and [Close] are about
    the connection. *)

(** How a call fails. The last one is a value that cannot be encoded, or a row that
    names a run that is not there. *)
Inductive failure :=
| FStore (e : store_error)
| FNoHash
| FNoHistory
| FRefused.

(** The errors that callers tell apart with [errors.Is]. *)
Inductive sentinel := IsNotFound | IsAmbiguous | IsNoWork | IsDuplicate | IsAlreadySettled | IsVersionConflict | IsNoHistory.
Definition errors_Is (f : failure) (s : sentinel) : bool :=
  match f, s with
  | FStore (ErrNotFound _), IsNotFound | FStore (ErrAmbiguous _), IsAmbiguous | FStore ErrNoWork, IsNoWork
  | FStore ErrDuplicate, IsDuplicate | FStore (ErrSettled _ _), IsAlreadySettled
  | FStore ErrVersionConflict, IsVersionConflict | FNoHistory, IsNoHistory => true
  | _, _ => false
  end.

Inductive Store : Type -> Type :=
(* A drill as it happens. *)
| CreateRun (run : RecoveryRun) (planYAML : string) : Store unit
| UpdateRun (run : RecoveryRun) : Store unit
| SetTempWorkload (runID tempWorkloadID node : string) : Store unit
| SaveStep (runID : string) (seq : Z) (step : Step) : Store unit
| SaveCheck (runID : string) (seq : Z) (check : CheckResult) : Store unit
| AppendEvent (runID : string) (ev : StoredEvent) : Store unit
(* The queue. *)
| Enqueue (run : RecoveryRun) (planYAML : string) (at_ : Z) : Store unit
| SetState (runID : string) (state : RunState) : Store unit
| SetRunError (runID : string) (message : text) : Store unit
| RequestCancel (runID : string) (at_ : Z) : Store bool
| CancelRequested (runID : string) : Store bool
| ActiveRunForWorkload (workloadID : string) : Store string
| ClaimRun (owner : string) (lease now : Z) : Store QueuedRun
| RenewLease (runID owner : string) (until : Z) : Store unit
| FinishLease (runID : string) : Store unit
| StaleRuns (now : Z) : Store (list QueuedRun)
| RunLease (runID : string) : Store (string * Z)
(* The history. *)
| GetRun (idOrPrefix : string) : Store RecoveryRun
| ListRuns (f : Filter) : Store (list RunSummary)
| LastRuns (workloadIDs : list string) : Store (gmap string RunSummary)
| Events (runID : string) (afterSeq : Z) : Store (list StoredEvent)
(* Tokens and sessions. *)
| CreateToken (t : APIToken) : Store unit
| TokenByHash (hash : string) : Store APIToken
| ListTokens : Store (list APIToken)
| RevokeToken (name : string) (at_ : Z) : Store unit
| TouchToken (id : string) (at_ : Z) : Store unit
| CreateSession (s : Session) (now : Z) : Store unit
| SessionByHash (hash : string) (now : Z) : Store (Session * APIToken)
| DeleteSession (hash : string) : Store unit
| DeleteExpiredSessions (now : Z) : Store Z
(* The catalogue and the slots. *)
| CreatePlan (p : StoredPlan) : Store unit
| UpdatePlan (p : StoredPlan) (expected : Z) : Store unit
| GetPlan (ref : string) : Store StoredPlan
| ListPlans (workloadID : string) (limit : Z) : Store (list StoredPlan)
| DeletePlan (ref : string) : Store unit
| ClaimSlot (slot : Slot) (run : option RecoveryRun) (planYAML : string) : Store unit
| LastSlot (planID : string) : Store Slot
| ListSlots (planID workloadID : string) (limit : Z) : Store (list Slot)
(* The notifications. *)
| ClaimRunForNotify (runID : string) (at_ : Z) : Store bool
| UnnotifiedRuns (limit : Z) : Store (list RunSummary)
| PreviousStory (workloadID : string) (before : Position) : Store (option RunSummary * bool)
| CreateDelivery (d : Delivery) : Store unit
| DueDeliveries (now limit : Z) : Store (list Delivery)
| SettleDelivery (d : Delivery) : Store unit
| LastDeliveries (channelIDs : list string) : Store (gmap string Delivery)
(* What checks measured. *)
| SaveCheckValue (runID : string) (checkSeq : Z) (name : string) (value : float64) : Store unit
| CapturedValues (workloadID checkName valueName : string) (limit : Z) : Store (list float64)
| RunCheckValues (runID : string) : Store (gmap (Z * string) float64).

(** ** The database: every table *)

Record Database := mkDatabase {
  dt_runs : Table;
  dt_plans : PlanTable;
  dt_slots : SlotTable;
  dt_steps : gmap (string * Z) Step;
  dt_checks : gmap (string * Z) CheckResult;
  dt_events : gmap (string * Z) StoredEvent;
  dt_values : gmap (string * Z * string) float64;
  dt_notified : gmap string Z;
  dt_deliveries : DeliveryTable;
  dt_cred : CredDB;
}.
Definition empty_database : Database := mkDatabase ∅ ∅ ∅ ∅ ∅ ∅ ∅ ∅ ∅ cred_empty.

(** The part of it that each component sees, and what it writes back. *)
Definition catalogue (d : Database) : DB := mkDB (dt_runs d) (dt_plans d) (dt_slots d).
Definition with_catalogue (db : DB) (d : Database) : Database :=
  mkDatabase (db_runs db) (db_plans db) (db_slots db) (dt_steps d) (dt_checks d) (dt_events d) (dt_values d)
    (dt_notified d) (dt_deliveries d) (dt_cred d).
Definition queue (d : Database) : Table := dt_runs d.
Definition with_queue (t : Table) (d : Database) : Database := with_catalogue (mkDB t (dt_plans d) (dt_slots d)) d.
Definition timeline (d : Database) : Timeline := mkTimeline (dt_runs d) (dt_steps d) (dt_checks d) (dt_events d) (dt_values d).
Definition with_timeline (t : Timeline) (d : Database) : Database :=
  mkDatabase (tl_runs t) (dt_plans d) (dt_slots d) (tl_steps t) (tl_checks t) (tl_events t) (tl_values t)
    (dt_notified d) (dt_deliveries d) (dt_cred d).
Definition notifications (d : Database) : NotifyDB := mkNotifyDB (dt_runs d) (dt_notified d) (dt_values d) (dt_deliveries d).
Definition with_notifications (n : NotifyDB) (d : Database) : Database :=
  mkDatabase (nd_runs n) (dt_plans d) (dt_slots d) (dt_steps d) (dt_checks d) (dt_events d) (nd_values n)
    (nd_notified n) (nd_deliveries n) (dt_cred d).
Definition with_cred (c : CredDB) (d : Database) : Database :=
  mkDatabase (dt_runs d) (dt_plans d) (dt_slots d) (dt_steps d) (dt_checks d) (dt_events d) (dt_values d)
    (dt_notified d) (dt_deliveries d) c.

(** A call: what it answers, and the database it leaves. *)
Definition Call (S A : Type) : Type := S -> (failure + A) * S.
Definition answers {S A} (r : failure + A) : Call S A := fun s => (r, s).

Section Sql.
Context `{Collation} `{JSON} (d : dialect).

(** A query, and a statement on a part of the tables, refused as a whole. *)
Definition ask {A} (f : Database -> A) : Call Database A := fun s => (inr (f s), s).
Definition look {A} (f : Database -> store_error + A) : Call Database A := fun s =>
  (match f s with inl e => inl (FStore e) | inr a => inr a end, s).
Definition find {A} (what : string) (f : Database -> option A) : Call Database A :=
  look (fun s => match f s with Some a => inr a | None => inl (ErrNotFound what) end).
Definition change {P} (view : Database -> P) (put : P -> Database -> Database) (f : P -> P) : Call Database unit := fun s =>
  (inr tt, put (f (view s)) s).
Definition attempt {P E} (view : Database -> P) (put : P -> Database -> Database) (fails : E -> failure) (f : P -> E + P) : Call Database unit := fun s =>
  match f (view s) with inl e => (inl (fails e), s) | inr p => (inr tt, put p s) end.
Definition refused (e : cred_error) : failure := match e with NoHash => FNoHash | Refused e => FStore e end.
Definition encoded {P} (r : option P) : unit + P := match r with Some p => inr p | None => inl tt end.

(** A run is inserted when the plan it names is there. *)
Definition create_run (run : RecoveryRun) (planYAML : string) (db : DB) : store_error + DB :=
  if nonempty (run_PlanID run) && negb (bool_decide (is_Some (db_plans db !! run_PlanID run)))
  then inl (ErrConstraint (run_PlanID run))
  else match Queue.CreateRun run planYAML (db_runs db) with
       | inl err => inl err
       | inr runs => inr (mkDB runs (db_plans db) (db_slots db))
       end.
(** A statement that answers and writes. *)
Definition decide_ {A} (f : Table -> (store_error + A) * Table) : Call Database A := fun s =>
  let '(r, t) := f (queue s) in (match r with inl e => inl (FStore e) | inr a => inr a end, with_queue t s).

(** [sqlStore]: each call as its file carries it out. *)
Definition sqlStore {A} (c : Store A) : Call Database A :=
  let statement := change queue with_queue in
  let history := attempt timeline with_timeline (fun _ : unit => FRefused) in
  let catalog := attempt catalogue with_catalogue FStore in
  let credentials := attempt dt_cred with_cred refused in
  let told := attempt notifications with_notifications FStore in
  match c in Store A return Call Database A with
  | CreateRun run y => catalog (create_run run y)
  | UpdateRun run => statement (Queue.UpdateRun run)
  | SetTempWorkload id temp node => statement (Queue.SetTempWorkload id temp node)
  | SaveStep id seq step => history (fun t => encoded (Timeline.SaveStep id seq step t))
  | SaveCheck id seq check => history (fun t => encoded (Timeline.SaveCheck id seq check t))
  | AppendEvent id ev => history (fun t => encoded (Timeline.AppendEvent id ev t))
  | Enqueue run y at_ => catalog (queue_run run y at_)
  | SetState id state => statement (Queue.SetState id state)
  | SetRunError id m => statement (Queue.SetRunError id m)
  | RequestCancel id at_ => decide_ (Queue.RequestCancel id at_)
  | CancelRequested id => look (fun s => Queue.CancelRequested id (queue s))
  | ActiveRunForWorkload w => ask (fun s => Queue.ActiveRunForWorkload w (queue s))
  | ClaimRun owner lease now => decide_ (Queue.ClaimRun owner lease now)
  | RenewLease id owner until => decide_ (fun t =>
      match Queue.RenewLease id owner until t with (Some e, t) => (inl e, t) | (None, t) => (inr tt, t) end)
  | FinishLease id => statement (Queue.FinishLease id)
  | StaleRuns now => ask (fun s => Queue.StaleRuns now (queue s))
  | RunLease id => look (fun s => Queue.RunLease id (queue s))
  | GetRun ref => look (fun s => GetWholeRun d ref (timeline s))
  | ListRuns f => ask (fun s => Listing.ListRuns f (queue s))
  | LastRuns ids => ask (fun s => Listing.LastRuns ids (queue s))
  | Events id after => ask (fun s => Timeline.Events id after (timeline s))
  | CreateToken t => credentials (Credentials.CreateToken t)
  | TokenByHash hash => find "" (fun s => Credentials.TokenByHash hash (dt_cred s))
  | ListTokens => ask (fun s => Credentials.ListTokens (dt_cred s))
  | RevokeToken name at_ => credentials (Credentials.RevokeToken name at_)
  | TouchToken id at_ => change dt_cred with_cred (Credentials.TouchToken id at_)
  | CreateSession x now => credentials (Credentials.CreateSession x now)
  | SessionByHash hash now => find "" (fun s => Credentials.SessionByHash hash now (dt_cred s))
  | DeleteSession hash => change dt_cred with_cred (Credentials.DeleteSession hash)
  | DeleteExpiredSessions now => fun s =>
      let kept := Credentials.DeleteExpiredSessions now (dt_cred s) in
      (inr (Z.of_nat (size (cd_sessions (dt_cred s)) - size (cd_sessions kept))), with_cred kept s)
  | CreatePlan p => catalog (Catalog.CreatePlan p)
  | UpdatePlan p expected => catalog (Catalog.UpdatePlan d p expected)
  | GetPlan ref => look (fun s => Catalog.GetPlan d ref (catalogue s))
  | ListPlans w limit => ask (fun s => Catalog.ListPlans w limit (catalogue s))
  | DeletePlan ref => catalog (Catalog.DeletePlan d ref)
  | ClaimSlot slot run y => catalog (Catalog.ClaimSlot slot run y)
  | LastSlot id => look (fun s => Catalog.LastSlot id (catalogue s))
  | ListSlots id w limit => ask (fun s => Catalog.ListSlots id w limit (catalogue s))
  | ClaimRunForNotify id at_ => fun s =>
      let '(won, n) := Deliveries.ClaimRunForNotify id at_ (notifications s) in (inr won, with_notifications n s)
  | UnnotifiedRuns limit => ask (fun s => Deliveries.UnnotifiedRuns limit (notifications s))
  | PreviousStory w before => ask (fun s => Deliveries.PreviousStory w before (notifications s))
  | CreateDelivery x => told (Deliveries.CreateDelivery x)
  | DueDeliveries now limit => ask (fun s => Deliveries.DueDeliveries d now limit (notifications s))
  | SettleDelivery x => told (Deliveries.SettleDelivery x)
  | LastDeliveries ids => ask (fun s => Deliveries.LastDeliveries ids (notifications s))
  | SaveCheckValue id seq name v => history (fun t => encoded (Timeline.SaveCheckValue id seq name v t))
  | CapturedValues w check name limit => ask (fun s => Timeline.CapturedValues w check name limit (timeline s))
  | RunCheckValues id => ask (fun s => Timeline.RunCheckValues id (timeline s))
  end.
End Sql.

(** ** Without a database (noop.go)

    Silence where a missing database only costs history, an error where succeeding
    would be a lie that the caller acts on. *)
Definition Noop {S A} (c : Store A) : Call S A :=
  let silent := answers (inr tt) in
  let nothing {A} : Call S A := answers (inl FNoHistory) in
  match c in Store A return Call S A with
  | CreateRun _ _ | UpdateRun _ | SetTempWorkload _ _ _ | SaveStep _ _ _ | SaveCheck _ _ _ | AppendEvent _ _ => silent
  | ListRuns _ => answers (inr [])
  | LastRuns _ => answers (inr ∅)
  | Events _ _ => answers (inr [])
  | GetRun ref => answers (inl (FStore (ErrNotFound ref)))
  | CreateToken _ => nothing
  | TokenByHash _ => nothing
  | ListTokens => nothing
  | RevokeToken _ _ => nothing
  | TouchToken _ _ => silent
  | CreateSession _ _ => nothing
  | SessionByHash _ _ => nothing
  | DeleteSession _ => nothing
  | DeleteExpiredSessions _ => nothing
  | CreatePlan _ | UpdatePlan _ _ | DeletePlan _ => nothing
  | GetPlan _ => nothing
  | ListPlans _ _ => nothing
  | Enqueue _ _ _ => nothing
  | SetState _ _ | SetRunError _ _ => silent
  | RequestCancel _ _ => nothing
  | CancelRequested _ => answers (inr false)
  | ActiveRunForWorkload _ => nothing
  | ClaimRun _ _ _ => answers (inl (FStore ErrNoWork))
  | RenewLease _ _ _ | FinishLease _ => silent
  | StaleRuns _ => answers (inr [])
  | RunLease id => answers (inl (FStore (ErrNotFound id)))
  | ClaimSlot _ _ _ => nothing
  | LastSlot _ => nothing
  | ListSlots _ _ _ => nothing
  | ClaimRunForNotify _ _ => answers (inr false)
  | UnnotifiedRuns _ => answers (inr [])
  | PreviousStory _ _ => answers (inr (None, false))
  | CreateDelivery _ | SettleDelivery _ => nothing
  | DueDeliveries _ _ => answers (inr [])
  | LastDeliveries _ => answers (inr ∅)
  | SaveCheckValue _ _ _ _ => silent
  | CapturedValues _ _ _ _ => answers (inr [])
  | RunCheckValues _ => answers (inr ∅)
  end.

(** ** What every call keeps

    The keys and the references of all the tables: what the schema declares, and that a
    row is under the key it holds. *)

Definition plans_held (db : DB) : Prop :=
  forall id r, db_runs db !! id = Some r -> row_plan_id r <> "" -> is_Some (db_plans db !! row_plan_id r).
Record references (s : Database) : Prop := {
  rf_catalogue : db_wf (catalogue s);
  rf_plans : plans_held (catalogue s);
  rf_cred : cred_wf (dt_cred s);
  rf_deliveries : good_deliveries (dt_deliveries s);
  rf_told id x : dt_deliveries s !! id = Some x -> is_Some (dt_runs s !! dl_RunID x);
  rf_notified id at_ : dt_notified s !! id = Some at_ -> is_Some (dt_runs s !! id);
  rf_steps k x : dt_steps s !! k = Some x -> is_Some (dt_runs s !! k.1);
  rf_checks k x : dt_checks s !! k = Some x -> is_Some (dt_runs s !! k.1);
  rf_events k e : dt_events s !! k = Some e -> is_Some (dt_runs s !! k.1) /\ se_Seq e = k.2;
  rf_values k v : dt_values s !! k = Some v -> is_Some (dt_runs s !! k.1.1);
}.

Definition runs_stay (t t' : Table) : Prop := forall id, is_Some (t !! id) -> is_Some (t' !! id).

Lemma with_catalogue_references s db : references s -> db_wf db -> plans_held db -> runs_stay (dt_runs s) (db_runs db) ->
  references (with_catalogue db s).
Proof.
  intros [H1 H2 H3 H4 H5 H6 H7 H8 H9 H10] Hwf Hp Hr. destruct db as [runs plans slots]. cbn in Hr.
  split; cbn [with_catalogue catalogue dt_runs dt_plans dt_slots dt_cred dt_deliveries dt_notified dt_steps dt_checks dt_events dt_values db_runs db_plans db_slots];
    try done; intros; try (apply Hr; by eauto).
  destruct (H9 k e) as [? ?]; [done|]. split; [by apply Hr|done].
Qed.

(** *** The queue *)

(** The rows after a statement that inserts none. *)
Record rewritten (t t' : Table) : Prop := {
  rw_row id r : t !! id = Some r -> exists r', t' !! id = Some r' /\ row_plan_id r' = row_plan_id r;
  rw_only id : is_Some (t' !! id) -> is_Some (t !! id);
}.
Definition inserts (st : statement) : bool := match st with StEnqueue _ _ _ | StCreateRun _ _ => true | _ => false end.
Lemma update_only id m f t k : is_Some ((update id m f t).2 !! k) -> is_Some (t !! k).
Proof. rewrite update_spec. destruct (decide (k = id)); [|done]. by destruct (t !! k). Qed.
Lemma update_back id m f t n t' k : update id m f t = (n, t') -> is_Some (t' !! k) -> is_Some (t !! k).
Proof. intros E. pose proof (update_only id m f t k) as H. by rewrite E in H. Qed.
Lemma statement_rewrites st t : inserts st = false -> rewritten t (apply_statement st t).
Proof.
  intros Hi. split.
  - intros id r E. destruct (apply_row_le st t id r E) as (r' & E' & [_ _ [Hp _] _ _ _]). by exists r'.
  - intros id. destruct st; try discriminate Hi; cbn [apply_statement]; try apply update_only.
    + unfold Queue.RequestCancel. destruct (update id0 unclaimed _ t) as [n t1] eqn:E1.
      destruct (update id0 (fun r => negb (settled_row r)) _ t1) as [m t2] eqn:E2.
      assert (is_Some (t1 !! id) -> is_Some (t !! id)) as H1 by exact (update_back _ _ _ _ _ _ _ E1).
      assert (is_Some (t2 !! id) -> is_Some (t1 !! id)) as H2 by exact (update_back _ _ _ _ _ _ _ E2).
      destruct (n =? 1); [exact H1|]. destruct (m =? 1); [|destruct (t2 !! id0)]; cbn; intros Hs; by apply H1, H2.
    + pose proof (ClaimRun_spec owner lease now t) as Hc. destruct (Queue.ClaimRun owner lease now t) as [[e|q] t']; cbn.
      * destruct Hc as (_ & -> & _). done.
      * destruct Hc as (r & Hr & _ & _ & _ & ->). destruct (decide (id = q_ID q)) as [->|Hne]; [by exists r|].
        by rewrite lookup_insert_ne.
    + unfold Queue.RenewLease. destruct (update _ _ _ _) as [n t'] eqn:E. pose proof (update_back _ _ _ _ _ _ id E). by destruct (n =? 1).
Qed.
Lemma with_queue_references s t : references s -> rewritten (dt_runs s) t -> references (with_queue t s).
Proof.
  intros R [Hrow Honly]. assert (runs_stay (dt_runs s) t) as Hstay by (intros id [r E]; destruct (Hrow id r E) as (r' & -> & _); by exists r').
  apply with_catalogue_references; [done| | |done].
  - destruct (rf_catalogue s R) as [A1 A2 A3 A4 A5]. split; cbn in *; [exact A1|exact A2|exact A3|exact A4|].
    intros k x Hx Hn. apply Hstay. by apply (A5 k x).
  - intros id r' E Hn. cbn in E |- *. destruct (Honly id ltac:(by exists r')) as [r Er]. destruct (Hrow id r Er) as (r2 & E2 & Hp).
    rewrite E in E2. injection E2 as <-. rewrite Hp in Hn |- *. by apply (rf_plans s R id).
Qed.

(** *** The catalogue *)

Lemma inserted_run db id row : plans_held db -> db_runs db !! id = None ->
  (row_plan_id row <> "" -> is_Some (db_plans db !! row_plan_id row)) ->
  plans_held (mkDB (<[id := row]> (db_runs db)) (db_plans db) (db_slots db)) /\ runs_stay (db_runs db) (<[id := row]> (db_runs db)).
Proof.
  intros Hp Hid Hrow. split.
  - intros k r E Hn. cbn in E |- *. apply lookup_insert_Some in E as [[<- <-]|[_ E]]; [by apply Hrow|by apply (Hp k)].
  - intros k Hk. destruct (decide (k = id)) as [->|]; [rewrite Hid in Hk; by destruct Hk|by rewrite lookup_insert_ne].
Qed.
Lemma guard_plan id plans : nonempty id && negb (bool_decide (is_Some ((plans : PlanTable) !! id))) = false -> id <> "" -> is_Some (plans !! id).
Proof. destruct id as [|c id]; [done|]. cbn. case_bool_decide; [done|discriminate]. Qed.
Lemma stay_wf db runs : db_wf db -> runs_stay (db_runs db) runs -> db_wf (mkDB runs (db_plans db) (db_slots db)).
Proof. intros [A1 A2 A3 A4 A5] Hr. split; cbn; [exact A1|exact A2|exact A3|exact A4|]. intros k x E Hn. by apply Hr, (A5 k x). Qed.

(** What a call to the catalogue may leave. *)
(** A decided slot stays as it was written, or goes away with its plan. *)
Definition slots_stay (db db' : DB) : Prop := forall k x, db_slots db !! k = Some x ->
  db_slots db' !! k = Some x \/ (db_slots db' !! k = None /\ db_plans db' !! k.1 = None).
Record good_step (db db' : DB) : Prop := {
  gs_wf : db_wf db';
  gs_plans : plans_held db';
  gs_runs : runs_stay (db_runs db) (db_runs db');
  gs_slots : slots_stay db db';
}.
Lemma create_run_good run y db db' : db_wf db -> plans_held db -> create_run run y db = inr db' -> good_step db db'.
Proof.
  unfold create_run, Queue.CreateRun, insert_row. intros Hwf Hp. destruct (_ && _) eqn:Eg; [done|].
  destruct (db_runs db !! run_ID run) eqn:Er; [done|]. intros [= <-].
  destruct (inserted_run db (run_ID run) (created_row run y) Hp Er (guard_plan _ _ Eg)) as [H1 H2]. split; [by apply stay_wf|done|done|by left].
Qed.
Lemma queue_run_good run y at_ db db' : db_wf db -> plans_held db -> queue_run run y at_ db = inr db' -> good_step db db'.
Proof.
  unfold queue_run, Queue.Enqueue, insert_row. intros Hwf Hp. destruct (_ && _) eqn:Eg; [done|].
  destruct (db_runs db !! run_ID run) eqn:Er; [done|]. intros [= <-].
  destruct (inserted_run db (run_ID run) (queued_row run y at_) Hp Er (guard_plan _ _ Eg)) as [H1 H2]. split; [by apply stay_wf|done|done|by left].
Qed.
Lemma op_wf o db db' : db_wf db -> answer o db = inr db' -> db_wf db' /\ runs_stay (db_runs db) (db_runs db') /\ slots_stay db db'.
Proof.
  intros Hwf E. assert (apply_op o db = db') as <- by (unfold apply_op; by rewrite E). split_and!; [by apply db_wf_op| |].
  - intros id. apply apply_op_run.
  - intros k x. apply apply_op_slot.
Qed.
Lemma plans_grow db plans slots : plans_held db -> (forall id, is_Some (db_plans db !! id) -> is_Some (plans !! id)) ->
  plans_held (mkDB (db_runs db) plans slots).
Proof. intros Hp Hg id r E Hn. by apply Hg, (Hp id r). Qed.
Lemma insert_grows {A} (k : string) (x : A) (t : gmap string A) id : is_Some (t !! id) -> is_Some (<[k := x]> t !! id).
Proof. intros Hs. destruct (decide (id = k)) as [->|]; [by rewrite lookup_insert_eq|by rewrite lookup_insert_ne]. Qed.
Lemma insert_slot_held slot db db' : plans_held db -> insert_slot slot db = inr db' -> plans_held db' .
Proof. unfold insert_slot. repeat case_match; intros Hp; [done..|]. intros [= <-]. done. Qed.
Lemma op_good o db db' : match o with OpRuns _ => False | _ => True end -> db_wf db -> plans_held db -> answer o db = inr db' -> good_step db db'.
Proof.
  intros Ho Hwf Hp E. destruct (op_wf o db db' Hwf E) as (H1 & H2 & H3). split; [done| |done|done].
  destruct o as [st|p|d p x|d ref|slot run y]; [done|..]; cbn [answer] in E.
  - unfold Catalog.CreatePlan in E. destruct (existsb _ _); [done|]. destruct (db_plans db !! sp_ID p); [done|]. injection E as <-.
    apply plans_grow; [done|]. intros id. apply insert_grows.
  - unfold Catalog.UpdatePlan in E. repeat case_match; simplify_eq. apply plans_grow; [done|]. intros id. apply insert_grows.
  - unfold Catalog.DeletePlan in E. destruct (resolvePlanRef _ _ _) as [|id]; [done|]. destruct (db_plans db !! id); [|done]. injection E as <-.
    intros k r Er Hn. cbn in Er |- *. rewrite lookup_fmap in Er. destruct (db_runs db !! k) as [r0|] eqn:E0; [|done]. cbn in Er. injection Er as <-.
    unfold forget_plan in *. case_bool_decide as Hid; cbn in Hn |- *; [done|]. rewrite lookup_delete_ne by congruence. by apply (Hp k).
  - unfold Catalog.ClaimSlot in E. destruct (slot_Outcome slot); [|by eapply insert_slot_held]. destruct run as [run|]; [|done].
    destruct (queue_run run y (slot_DecidedAt slot) db) as [e|db1] eqn:E1; [done|].
    destruct (queue_run_good _ _ _ _ _ Hwf Hp E1) as [_ Hp1 _ _]. by eapply insert_slot_held.
Qed.
(** *** The timeline, the notifications, the credentials *)

(** A row added under a run that is there. *)
Lemma insert_held {A K} `{Countable K} (f : K -> string) (runs : Table) (t : gmap K A) k x :
  (forall k x, t !! k = Some x -> is_Some (runs !! f k)) -> is_Some (runs !! f k) ->
  forall k' x', <[k := x]> t !! k' = Some x' -> is_Some (runs !! f k').
Proof. intros Ht Hk k' x' [[<- _]|[_ E]]%lookup_insert_Some; [done|by eapply Ht]. Qed.

Record timeline_held (runs : Table) (t : Timeline) : Prop := {
  th_runs : tl_runs t = runs;
  th_steps k x : tl_steps t !! k = Some x -> is_Some (runs !! k.1);
  th_checks k x : tl_checks t !! k = Some x -> is_Some (runs !! k.1);
  th_events k e : tl_events t !! k = Some e -> is_Some (runs !! k.1) /\ se_Seq e = k.2;
  th_values k v : tl_values t !! k = Some v -> is_Some (runs !! k.1.1);
}.
Lemma has_run_true id t : has_run id t = true -> is_Some (tl_runs t !! id).
Proof. unfold has_run. by case_bool_decide. Qed.
Lemma held_timeline s : references s -> timeline_held (dt_runs s) (timeline s).
Proof. intros [_ _ _ _ _ _ H7 H8 H9 H10]. by split. Qed.
Lemma with_timeline_references s t : references s -> timeline_held (dt_runs s) t -> references (with_timeline t s).
Proof.
  intros R [Er H1 H2 H3 H4]. destruct t as [runs steps checks events values]. cbn in Er, H1, H2, H3, H4. subst runs.
  destruct R as [A1 A2 A3 A4 A5 A6 _ _ _ _]. by split.
Qed.
Section Timelines.
Context `{JSON}.
Lemma SaveStep_held runs id seq step t t' : timeline_held runs t -> Timeline.SaveStep id seq step t = Some t' -> timeline_held runs t'.
Proof.
  intros [Er H1 H2 H3 H4] E. unfold Timeline.SaveStep in E. destruct (json_details _); [|done]. destruct (has_run id t) eqn:Eh; [|done]. injection E as <-.
  apply has_run_true in Eh. rewrite Er in Eh. split; cbn; try done. by eapply (insert_held fst).
Qed.
Lemma SaveCheck_held runs id seq check t t' : timeline_held runs t -> Timeline.SaveCheck id seq check t = Some t' -> timeline_held runs t'.
Proof.
  intros [Er H1 H2 H3 H4] E. unfold Timeline.SaveCheck in E. destruct (json_details _); [|done]. destruct (has_run id t) eqn:Eh; [|done]. injection E as <-.
  apply has_run_true in Eh. rewrite Er in Eh. split; cbn; try done. by eapply (insert_held fst).
Qed.
Lemma SaveCheckValue_held runs id seq name v t t' : timeline_held runs t -> Timeline.SaveCheckValue id seq name v t = Some t' -> timeline_held runs t'.
Proof.
  intros [Er H1 H2 H3 H4] E. unfold Timeline.SaveCheckValue in E. destruct (has_run id t) eqn:Eh; [|done]. injection E as <-.
  apply has_run_true in Eh. rewrite Er in Eh. split; cbn; try done. by eapply (insert_held (fun k => k.1.1)).
Qed.
Lemma AppendEvent_held runs id ev t t' : timeline_held runs t -> Timeline.AppendEvent id ev t = Some t' -> timeline_held runs t'.
Proof.
  intros [Er H1 H2 H3 H4] E. unfold Timeline.AppendEvent in E.
  assert (forall check, (if has_run id t then Some (mkTimeline (tl_runs t) (tl_steps t) (tl_checks t)
    (match tl_events t !! (id, se_Seq ev) with Some _ => tl_events t | None => <[(id, se_Seq ev) := stored_event ev check]> (tl_events t) end) (tl_values t)) else None) = Some t' ->
    timeline_held runs t') as Hw.
  { intros check. destruct (has_run id t) eqn:Eh; [|done]. intros [= <-]. apply has_run_true in Eh. rewrite Er in Eh. split; cbn; try done.
    destruct (tl_events t !! (id, se_Seq ev)); [done|]. intros k e [[<- <-]|[_ Ek]]%lookup_insert_Some; [done|by apply H3]. }
  destruct (se_Check ev) as [c|]; [destruct (json_check c); [|done]|]; by eapply Hw.
Qed.
End Timelines.


(** What a call to the notifications leaves: the runs and the values as they were. *)
Definition of_messages (o : notify_op) : Prop := match o with NQueue _ => False | _ => True end.
Lemma notify_exec_frame o n : of_messages o ->
  nd_runs (notify_exec o n).2 = nd_runs n /\ nd_values (notify_exec o n).2 = nd_values n /\
  (forall id x, nd_deliveries (notify_exec o n).2 !! id = Some x ->
     is_Some (nd_runs n !! dl_RunID x) \/ exists y, nd_deliveries n !! id = Some y /\ dl_RunID x = dl_RunID y) /\
  (forall id at_, nd_notified (notify_exec o n).2 !! id = Some at_ -> is_Some (nd_runs n !! id) \/ nd_notified n !! id = Some at_).
Proof.
  destruct o as [st|r at_|x|x]; intros Ho; [done|..]; cbn.
  - unfold Deliveries.ClaimRunForNotify. destruct (nd_runs n !! r) eqn:Er, (nd_notified n !! r); cbn; split_and!; try done; eauto.
    intros id a [[<- _]|[_ E]]%lookup_insert_Some; [left; by eexists|by right].
  - destruct (Deliveries.CreateDelivery x n) as [e|n'] eqn:E; cbn; [split_and!; eauto|]. apply CreateDelivery_inr in E as (_ & _ & Hr & ->).
    cbn. split_and!; eauto. intros id y [[<- <-]|[_ Ey]]%lookup_insert_Some; [by left|right; eauto].
  - destruct (Deliveries.SettleDelivery x n) as [e|n'] eqn:E; cbn; [split_and!; eauto|]. apply SettleDelivery_inr in E as (old & Eo & ->).
    cbn. split_and!; eauto. intros id y [[<- <-]|[_ Ey]]%lookup_insert_Some; right; eauto.
Qed.
Lemma with_notifications_references s o : references s -> of_messages o -> references (with_notifications (notify_exec o (notifications s)).2 s).
Proof.
  intros R Ho. destruct (notify_exec_frame o (notifications s) Ho) as (Hr & Hv & Ht & Hn).
  pose proof (notify_exec_good o (notifications s) (rf_deliveries s R)) as Hg.
  destruct (notify_exec o (notifications s)).2 as [runs notified values deliveries]. cbn in *. subst.
  pose proof (rf_told s R) as B5. pose proof (rf_notified s R) as B6. destruct R as [A1 A2 A3 A4 A5 A6 A7 A8 A9 A10]. split; try done; cbn.
  - intros id x E. destruct (Ht id x E) as [|(y & Ey & ->)]; [done|by apply (B5 id)].
  - intros id a E. destruct (Hn id a E); [done|by apply (B6 id a)].
Qed.

(** *** Every call *)

(** The ways in which a call changes the database. *)
Inductive effect (s : Database) : Database -> Prop :=
| EfNone : effect s s
| EfQueue st : inserts st = false -> effect s (with_queue (apply_statement st (dt_runs s)) s)
| EfCatalogue db : good_step (catalogue s) db -> effect s (with_catalogue db s)
| EfTimeline t : timeline_held (dt_runs s) t -> (forall k e, dt_events s !! k = Some e -> tl_events t !! k = Some e) -> effect s (with_timeline t s)
| EfNotify o : of_messages o -> effect s (with_notifications (notify_exec o (notifications s)).2 s)
| EfCred o : effect s (with_cred (cred_apply o (dt_cred s)) s).

Lemma catalog_effect (f : DB -> store_error + DB) s : (forall db, f (catalogue s) = inr db -> good_step (catalogue s) db) ->
  effect s (attempt catalogue with_catalogue FStore f s).2.
Proof. intros Hf. unfold attempt. destruct (f (catalogue s)) as [e|db]; [apply EfNone|by apply EfCatalogue, Hf]. Qed.
Lemma plans_effect o (f : DB -> store_error + DB) s : references s -> match o with OpRuns _ => False | _ => True end -> (forall db, answer o db = f db) ->
  effect s (attempt catalogue with_catalogue FStore f s).2.
Proof. intros R Ho Hf. apply catalog_effect. intros db E. rewrite <- Hf in E. by apply (op_good o); [| apply R..|]. Qed.
Lemma history_effect (f : Timeline -> option Timeline) s : references s ->
  (forall t, f (timeline s) = Some t -> timeline_held (dt_runs s) t) ->
  (forall t k e, f (timeline s) = Some t -> dt_events s !! k = Some e -> tl_events t !! k = Some e) ->
  effect s (attempt timeline with_timeline (fun _ : unit => FRefused) (fun t => encoded (f t)) s).2.
Proof. intros R Hf He. unfold attempt, encoded. destruct (f (timeline s)) as [t|]; [|apply EfNone]. apply EfTimeline; eauto. Qed.
Lemma told_effect o (f : NotifyDB -> store_error + NotifyDB) s : of_messages o ->
  (notify_exec o (notifications s)).2 = match f (notifications s) with inr n => n | inl _ => notifications s end ->
  effect s (attempt notifications with_notifications FStore f s).2.
Proof.
  intros Ho E. unfold attempt. destruct (f (notifications s)) as [e|n]; [apply EfNone|]. cbn. rewrite <- E. by apply EfNotify.
Qed.
Lemma cred_effect o (f : CredDB -> cred_error + CredDB) s : cred_exec o (dt_cred s) = f (dt_cred s) ->
  effect s (attempt dt_cred with_cred refused f s).2.
Proof.
  intros E. unfold attempt. rewrite <- E. destruct (cred_exec o (dt_cred s)) as [e|c] eqn:Ec; [apply EfNone|].
  pose proof (EfCred s o) as H. unfold cred_apply in H. by rewrite Ec in H.
Qed.
Lemma AppendEvent_keeps `{JSON} id ev t t' k e : Timeline.AppendEvent id ev t = Some t' ->
  tl_events t !! k = Some e -> tl_events t' !! k = Some e.
Proof.
  intros E Hk. unfold Timeline.AppendEvent in E. destruct (tl_events t !! (id, se_Seq ev)) eqn:Ek; repeat case_match; simplify_eq; cbn; try done;
  (rewrite lookup_insert_ne; [done|]); intros <-; congruence.
Qed.

Section Calls.
Context `{Collation} `{JSON} (d : dialect).
Lemma sqlStore_effect {A} (c : Store A) s : references s -> effect s (sqlStore d c s).2.
Proof.
  intros R. pose proof (held_timeline s R) as Ht. destruct c; try apply EfNone.
  - apply catalog_effect. intros db. apply create_run_good; apply R.
  - by apply (EfQueue s (StUpdateRun run)).
  - by apply (EfQueue s (StSetTempWorkload runID tempWorkloadID node)).
  - apply history_effect; [done|intros t; by apply SaveStep_held|]. intros t k e. unfold Timeline.SaveStep. repeat case_match; intros; by simplify_eq.
  - apply history_effect; [done|intros t; by apply SaveCheck_held|]. intros t k e. unfold Timeline.SaveCheck. repeat case_match; intros; by simplify_eq.
  - apply history_effect; [done|intros t; by apply AppendEvent_held|]. intros t k e. apply AppendEvent_keeps.
  - apply catalog_effect. intros db. apply queue_run_good; apply R.
  - by apply (EfQueue s (StSetState runID state)).
  - by apply (EfQueue s (StSetRunError runID message)).
  - pose proof (EfQueue s (StRequestCancel runID at_) eq_refl) as H1. cbn in H1 |- *. unfold decide_. by destruct (Queue.RequestCancel _ _ _).
  - pose proof (EfQueue s (StClaimRun owner lease now) eq_refl) as H1. cbn in H1 |- *. unfold decide_. by destruct (Queue.ClaimRun _ _ _ _).
  - pose proof (EfQueue s (StRenewLease runID owner until) eq_refl) as H1. cbn in H1 |- *. unfold decide_. by destruct (Queue.RenewLease _ _ _ _) as [[e|] t].
  - by apply (EfQueue s (StFinishLease runID)).
  - by apply (cred_effect (OpCreateToken t)).
  - by apply (cred_effect (OpRevokeToken name at_)).
  - by apply (EfCred s (OpTouchToken id at_)).
  - by apply (cred_effect (OpCreateSession s0 now)).
  - by apply (EfCred s (OpDeleteSession hash)).
  - by apply (EfCred s (OpDeleteExpiredSessions now)).
  - by apply (plans_effect (OpCreatePlan p)).
  - by apply (plans_effect (OpUpdatePlan d p expected)).
  - by apply (plans_effect (OpDeletePlan d ref)).
  - by apply (plans_effect (OpClaimSlot slot run planYAML)).
  - pose proof (EfNotify s (NClaim runID at_) I) as H1. cbn in H1 |- *. by destruct (Deliveries.ClaimRunForNotify _ _ _).
  - apply (told_effect (NCreate d0)); [done|]. cbn. by destruct (Deliveries.CreateDelivery d0 _).
  - apply (told_effect (NSettle d0)); [done|]. cbn. by destruct (Deliveries.SettleDelivery d0 _).
  - apply history_effect; [done|intros t; by apply SaveCheckValue_held|]. intros t k e. unfold Timeline.SaveCheckValue. repeat case_match; intros; by simplify_eq.
Qed.
End Calls.

Lemma effect_references s s' : references s -> effect s s' -> references s'.
Proof.
  intros R [|st Hi|db [H1 H2 H3 _]|t Ht _|o Ho|o].
  - done.
  - by apply with_queue_references, statement_rewrites.
  - by apply with_catalogue_references.
  - by apply with_timeline_references.
  - by apply with_notifications_references.
  - destruct (cred_apply_wf o (dt_cred s) (rf_cred s R)) as [Hwf _]. destruct R as [A1 A2 A3 A4 A5 A6 A7 A8 A9 A10]. by split.
Qed.

(** What the database never forgets: a run, an event as it was written, that a run was
    considered, a message, a credential. *)
Record remembers (s s' : Database) : Prop := {
  rm_runs : runs_stay (dt_runs s) (dt_runs s');
  rm_events k e : dt_events s !! k = Some e -> dt_events s' !! k = Some e;
  rm_told : notify_le (notifications s) (notifications s');
  rm_cred : cred_le (dt_cred s) (dt_cred s');
}.
#[export] Instance remembers_preorder : PreOrder remembers.
Proof.
  split; [split; [by intros id|done|done|done]|]. intros a b c [H1 H2 H3 H4] [K1 K2 K3 K4]. split.
  - intros id Hid. by apply K1, H1.
  - intros k e Hk. by apply K2, H2.
  - by etransitivity.
  - by etransitivity.
Qed.
Lemma effect_remembers s s' : references s -> effect s s' -> remembers s s'.
Proof.
  intros R [|st Hi|db [H1 H2 H3 _]|t [Hr _ _ _ _] He|o Ho|o]; [done|..].
  - destruct (statement_rewrites st (dt_runs s) Hi) as [Hrow _]. split; [|done|split; cbn; eauto|done].
    intros id [r E]. destruct (Hrow id r E) as (r' & E' & _). by exists r'.
  - by split; [|done|split; cbn; eauto|].
  - by split; cbn; [intros id; rewrite Hr|done|split; cbn; eauto|].
  - destruct (notify_exec_frame o (notifications s) Ho) as (Hr & _). destruct (notify_exec_le o (notifications s)) as [H1 H2].
    by split; cbn; [intros id; rewrite Hr|done|split|done].
  - destruct (cred_apply_wf o (dt_cred s) (rf_cred s R)) as [_ Hle]. by split; cbn; [intros id|done|split; cbn; eauto|].
Qed.

Lemma effect_slots s s' : effect s s' -> slots_stay (catalogue s) (catalogue s').
Proof. intros [|st Hi|db [_ _ _ Hs]|t Ht _|o Ho|o]; try (by left). destruct db. exact Hs. Qed.

Lemma empty_references : references empty_database.
Proof.
  split; cbn; try (intros *; by rewrite lookup_empty).
  - by split; intros *; cbn; rewrite lookup_empty.
  - intros id r. cbn. by rewrite lookup_empty.
  - exact cred_empty_wf.
  - by split; intros *; rewrite lookup_empty.
Qed.

(** Any calls, of any callers, in any order. *)
Definition some_call : Type := {A & Store A}.
Fixpoint calls `{Collation} `{JSON} (d : dialect) (l : list some_call) (s : Database) : Database :=
  match l with [] => s | existT _ c :: l => calls d l (sqlStore d c s).2 end.

(** C26: the history holds together. Whatever the program asks of its database, in
    whatever order and by whatever callers, whether each call is carried out or
    refused, on either engine: every plan, slot, message, token and session is under
    its own key, no two plans share a name, every step, check, event, value, message
    and session names a run or a token that is there, every run and slot its plan; what
    was there stays, the runs, the events as they were written, the messages, who was
    told, the tokens (sessions end); and a decided slot is never rewritten, it only goes
    away with its plan. *)
Theorem history_holds_together `{Collation} `{JSON} d before after (c : some_call) :
  let s := calls d before empty_database in
  references s /\ references (calls d after s) /\ remembers s (calls d after s) /\
  slots_stay (catalogue s) (catalogue (calls d [c] s)).
Proof.
  assert (forall l s, references s -> references (calls d l s) /\ remembers s (calls d l s)) as Hl.
  { intros l. induction l as [|[A c'] l IH]; intros s R; [done|]. cbn [calls]. pose proof (sqlStore_effect d c' s R) as He.
    destruct (IH _ (effect_references s _ R He)) as [H1 H2]. split; [done|]. by etransitivity; [apply (effect_remembers s)|]. }
  intros s. destruct (Hl before empty_database empty_references) as [R _]. destruct (Hl after s R) as [R' Hm]. split_and!; [done..|].
  destruct c as [A c]. by apply effect_slots, sqlStore_effect.
Qed.

Lemma take_nothing {A} n (l : list A) : l = [] -> list.take n l = [].
Proof. intros ->. by destruct n. Qed.

(** The calls that may be lost without a word. *)
Definition best_effort {A} (c : Store A) : bool :=
  match c with
  | CreateRun _ _ | UpdateRun _ | SetTempWorkload _ _ _ | SaveStep _ _ _ | SaveCheck _ _ _ | AppendEvent _ _ | SetState _ _ | SetRunError _ _
  | CancelRequested _ | RenewLease _ _ _ | FinishLease _ | TouchToken _ _ | SaveCheckValue _ _ _ _ => true
  | _ => false
  end.

(** Without a database a caller is never misled. Whatever is asked of the store of a
    program that has none, nothing is recorded, and: a write that only costs history is
    accepted in silence, as is the question whether somebody cancelled; and every
    other call says that there is no database, or gives the very answer of a
    database in which nothing was ever written. *)
Theorem Noop_is_empty `{Collation} `{JSON} {S A} d (c : Store A) (s : S) :
  (Noop c s).2 = s /\
  if best_effort c then exists a, (Noop c s).1 = inr a
  else (Noop c s).1 = inl FNoHistory \/ (Noop c s).1 = (sqlStore d c empty_database).1.
Proof.
  split; [by destruct c|]. destruct c; cbn [best_effort]; try (by eexists); try (by left); right; try reflexivity.
  - cbn. unfold Listing.ListRuns. by rewrite (take_nothing _ (listing f ∅)).
  - cbn. f_equal. unfold Listing.LastRuns. induction workloadIDs as [|w l IH]; [done|]. cbn [foldr]. by rewrite <- IH.
  - cbn. unfold Deliveries.UnnotifiedRuns. by rewrite take_nothing.
  - cbn. unfold Deliveries.DueDeliveries. by rewrite take_nothing.
  - cbn. f_equal. unfold Deliveries.LastDeliveries. induction channelIDs as [|w l IH]; [done|]. cbn [foldr]. by rewrite <- IH.
  - cbn. unfold Timeline.CapturedValues. by rewrite take_nothing.
Qed.
