(* ===== verification/Migrations.v ===== *)
(** * The databases and their schema

    Models internal/store/dialect.go (placeholders), open.go (which database a
    configuration names, what opens it and what migrates it), migrate.go (the numbered
    scripts of a schema and their application, one transaction each), sqlite.go and
    postgres.go (the two ways to open one; connection strings without their password).

    The SQL engines are the class [SqlEngine]: what a script makes of a schema. What a
    call to a database, or to the file system, meets is the class [Surroundings]: it is
    carried out, refused, or carried out with its answer lost; before it, other processes
    may have written. A transaction is carried out on the database it began on: the
    writer lock of SQLite, and on PostgreSQL the key of the bookkeeping table, keep
    another writer out until it ends. *)

From Stdlib Require Import ZArith Lia String Ascii List.
From stdpp Require Import sorting gmap strings.
From S2P Require Import Prelude GoTime Errors GoString GoStrconv GoFmt Timestamp Queue Listing Dispatcher DeliveryAttempts.

(** ** Placeholders (dialect.go) *)

Definition quote : ascii := "'".
Fixpoint rebind_from (n : Z) (inLiteral : bool) (query : string) : string :=
  match query with
  | EmptyString => EmptyString
  | String c query =>
    if Ascii.eqb c quote then String c (rebind_from n (negb inLiteral) query)
    else if Ascii.eqb c "?" && negb inLiteral then String "$" (pretty (n + 1) +:+ rebind_from (n + 1) inLiteral query)
    else String c (rebind_from n inLiteral query)
  end.
Definition rebind (d : dialect) (query : string) : string :=
  match d with SQLite => query | Postgres => rebind_from 0 false query end.

(** ** The scripts of a schema (migrate.go) *)

Record Migration := mkMigration { mg_Number : Z; mg_Name : string; mg_SQL : string }.
Definition dialect_name (d : dialect) : string := match d with SQLite => "sqlite" | Postgres => "postgres" end.

(** The files that the program embeds: a directory as the names in it, with whether
    each is a directory, and the text of a file. *)
Class Embedded := {
  ReadDir : string -> error + list (string * bool);
  ReadFile : string -> error + string;
}.

(** [strings.Cut], for a separator of several bytes. *)
Fixpoint CutAt (sep s : string) : option (string * string) :=
  if HasPrefix s sep then Some ("", TrimPrefix s sep)
  else match s with
       | EmptyString => None
       | String c s => (fun x => (String c x.1, x.2)) <$> CutAt sep s
       end.

(** What [strconv.Atoi] says of what it refuses. *)
Definition unsigned (s : string) : string := match s with String "-" s | String "+" s => s | _ => s end.
Definition atoi_error (s : string) : error :=
  let digits := unsigned s in
  ENew (Sprintf "strconv.Atoi: parsing %q: %s"
    [AStr s; AStr (if nonempty digits && negb (existsb_char (fun c => negb (is_digit c)) digits) then "value out of range" else "invalid syntax")]).

Section Load.
Context `{Embedded}.
Definition directory (d : dialect) : string := "migrations/" +:+ dialect_name d.

(** A file of the directory: nothing for what is not a script. *)
Definition loadMigration (d : dialect) (entry : string * bool) : error + option Migration :=
  let '(file, isDir) := entry in
  if isDir || negb (HasSuffix file ".sql") then inr None
  else match CutAt "_" (TrimSuffix file ".sql") with
       | None => inl (ENew (Sprintf "store: migration %q is not named <number>_<name>.sql" [AStr file]))
       | Some (numText, name) =>
         match Atoi numText with
         | None => inl (EWrap (Sprintf "store: migration %q has a non-numeric prefix: %w" [AStr file; AText (Error (atoi_error numText))]) (atoi_error numText))
         | Some number =>
           match ReadFile (directory d +:+ "/" +:+ file) with
           | inl e => inl (EWrap (Sprintf "store: read migration %q: %w" [AStr file; AText (Error e)]) e)
           | inr body => inr (Some (mkMigration number name body))
           end
         end
       end.
Fixpoint loadAll (d : dialect) (entries : list (string * bool)) : error + list Migration :=
  match entries with
  | [] => inr []
  | entry :: entries =>
    match loadMigration d entry with
    | inl e => inl e
    | inr m => match loadAll d entries with inl e => inl e | inr l => inr (option_list m ++ l) end
    end
  end.
Definition number_le (a b : Migration) : Prop := mg_Number a <= mg_Number b.
#[export] Instance number_le_dec a b : Decision (number_le a b).
Proof. unfold number_le. apply _. Defined.
Definition loadMigrations (d : dialect) : error + list Migration :=
  match ReadDir (directory d) with
  | inl e => inl (EWrap (Sprintf "store: read migrations for %s: %w" [AStr (dialect_name d); AText (Error e)]) e)
  | inr entries => on_ok (merge_sort number_le) (loadAll d entries)
  end.
End Load.

(** ** A database, and what a call to it meets *)

(** A schema and the bookkeeping table, once it was created. *)
Class SqlEngine (Schema : Type) := {
  blank : Schema;
  run_script : string -> Schema -> option Schema;
}.
Record Base (Schema : Type) := mkBase {
  ba_Schema : Schema;
  ba_Marks : option (gmap Z (string * string));
}.
Arguments mkBase {_} _ _.
Arguments ba_Schema {_} _.
Arguments ba_Marks {_} _.

(** A file of SQLite: the database that a connection sees, and what the bytes of the
    file itself hold of it; the rest is in its write-ahead log. *)
Record File (Schema : Type) := mkFile { fi_Base : Base Schema; fi_Bytes : Base Schema }.
Arguments mkFile {_} _ _.
Arguments fi_Base {_} _.
Arguments fi_Bytes {_} _.

Inductive Fate := Carried | Refused_ (e : error) | Unheard (e : error).
Class Surroundings (Schema : Type) := {
  fate : nat -> Fate;
  others : nat -> Base Schema -> Base Schema;  (* what other processes wrote before a call *)
  checkpoint : nat -> bool;                    (* whether the log was moved into the file after it *)
  now_at : nat -> Z;
  unreachable : string -> error;               (* no server answers there *)
  refused_by : string -> error;                (* what the engine says of a statement *)
  file_of : string -> string;                  (* the file that the SQLite driver opens for a connection string *)
  url_Redacted : string -> option string;      (* url.Parse and Redacted *)
  url_Password : string -> option string;      (* url.Parse, User and Password *)
}.

Record World (Schema : Type) := mkWorld {
  wo_Files : gmap string (File Schema);
  wo_Servers : gmap string (Base Schema);
  wo_Calls : nat;
}.
Arguments mkWorld {_} _ _ _.
Arguments wo_Files {_} _.
Arguments wo_Servers {_} _.
Arguments wo_Calls {_} _.

(** What a program does with databases: a value or an error, and the world it leaves. *)
Definition Act (S A : Type) : Type := World S -> (error + A) * World S.
#[export] Instance Act_ret S : MRet (Act S) := fun A a w => (inr a, w).
#[export] Instance Act_bind S : MBind (Act S) := fun A B f m w => match m w with (inl e, w) => (inl e, w) | (inr a, w) => f a w end.
Definition raise {S A} (e : error) : Act S A := fun w => (inl e, w).
Definition wrap {S A} (f : error -> error) (m : Act S A) : Act S A := fun w => match m w with (inl e, w) => (inl (f e), w) | r => r end.

Section Databases.
Context {Schema : Type} `{Embedded} `{SqlEngine Schema} `{Surroundings Schema}.
Notation Act := (Act Schema).
Notation World := (World Schema).
Notation Base := (Base Schema).

Definition new_base : Base := mkBase blank None.

(** A connection: [sql.DB], with what it is open on. *)
Record Handle := mkHandle { ha_Dialect : dialect; ha_Place : string }.
Definition seen (h : Handle) (w : World) : option Base :=
  match ha_Dialect h with SQLite => fi_Base <$> wo_Files w !! ha_Place h | Postgres => wo_Servers w !! ha_Place h end.
Definition put (h : Handle) (b : Base) (w : World) : World :=
  match ha_Dialect h with
  | SQLite =>
    let bytes := match wo_Files w !! ha_Place h with Some f => fi_Bytes f | None => new_base end in
    mkWorld (<[ha_Place h := mkFile b (if checkpoint (wo_Calls w) then b else bytes)]> (wo_Files w)) (wo_Servers w) (wo_Calls w)
  | Postgres => mkWorld (wo_Files w) (<[ha_Place h := b]> (wo_Servers w)) (wo_Calls w)
  end.

(** A call, whose effect is carried out or not, and whose answer arrives or not. *)
Definition ticked (w : World) : World := mkWorld (wo_Files w) (wo_Servers w) (S (wo_Calls w)).
Definition attempted {A} (effect : Act A) : Act A := fun w =>
  let w1 := ticked w in
  match fate (wo_Calls w) with
  | Carried => effect w1
  | Refused_ e => (inl e, w1)
  | Unheard e => (inl e, (effect w1).2)
  end.
(** What other processes wrote meanwhile. *)
Definition meanwhile (h : Handle) : Act unit := fun w =>
  (inr tt, match seen h w with Some b => put h (others (wo_Calls w) b) w | None => w end).
(** A statement on the database. *)
Definition statement {A} (h : Handle) (f : Base -> error + A * Base) : Act A :=
  _ ← meanwhile h;
  attempted (fun w =>
    match seen h w with
    | None => (inl (unreachable (ha_Place h)), w)
    | Some b => match f b with inl e => (inl e, w) | inr (a, b') => (inr a, put h b' w) end
    end).

(** ** Migrations (migrate.go) *)

Definition ensureMigrationsTable (h : Handle) : Act unit :=
  statement h (fun b => inr (tt, mkBase (ba_Schema b) (Some (default ∅ (ba_Marks b))))).
Definition appliedNumbers (h : Handle) : Act (list Z) :=
  statement h (fun b => match ba_Marks b with
    | None => inl (refused_by "SELECT number FROM schema_migrations")
    | Some marks => inr (map fst (map_to_list marks), b)
    end).
Definition loaded (d : dialect) : Act (list Migration) := fun w => (loadMigrations d, w).
Definition is_pending (applied : list Z) (m : Migration) : bool := bool_decide (mg_Number m ∉ applied).
Definition pendingMigrations (h : Handle) : Act (list Migration) :=
  _ ← ensureMigrationsTable h;
  all ← loaded (ha_Dialect h);
  applied ← appliedNumbers h;
  mret (List.filter (is_pending applied) all).

(** A transaction works on the database it began on; only its commit writes. *)
Definition BeginTx (h : Handle) : Act Base := statement h (fun b => inr (b, b)).
Definition ExecTx (f : Base -> option Base) (query : string) (tx : Base) : Act Base :=
  attempted (fun w => match f tx with Some tx => (inr tx, w) | None => (inl (refused_by query), w) end).
Definition Commit (h : Handle) (tx : Base) : Act unit := attempted (fun w => (inr tt, put h tx w)).

Definition run_sql (m : Migration) (b : Base) : option Base :=
  (fun s => mkBase s (ba_Marks b)) <$> run_script (mg_SQL m) (ba_Schema b).
Definition insert_mark (m : Migration) (at_ : Z) (b : Base) : option Base :=
  marks ← ba_Marks b;
  if bool_decide (is_Some (marks !! mg_Number m)) then None
  else Some (mkBase (ba_Schema b) (Some (<[mg_Number m := (mg_Name m, formatTime at_)]> marks))).
Definition insert_query : string := "INSERT INTO schema_migrations (number, name, applied_at) VALUES (?, ?, ?)".
Definition recorded (h : Handle) (m : Migration) (tx : Base) : Act Base := fun w =>
  ExecTx (insert_mark m (now_at (wo_Calls w))) (rebind (ha_Dialect h) insert_query) tx w.
Definition applyOne (h : Handle) (m : Migration) : Act unit :=
  tx ← BeginTx h;
  tx ← ExecTx (run_sql m) (mg_SQL m) tx;
  tx ← recorded h m tx;
  Commit h tx.

(** The numbers applied are answered next to the error. *)
Definition migration_failed (m : Migration) (e : error) : error :=
  EWrap (Sprintf "store: migration %04d_%s: %w" [AInt (mg_Number m); AStr (mg_Name m); AText (Error e)]) e.
Fixpoint applyAll (h : Handle) (pending : list Migration) (w : World) : list Z * option error * World :=
  match pending with
  | [] => ([], None, w)
  | m :: pending =>
    match applyOne h m w with
    | (inl e, w) => ([], Some (migration_failed m e), w)
    | (inr _, w) => let '(applied, err, w) := applyAll h pending w in (mg_Number m :: applied, err, w)
    end
  end.
Definition applyMigrations (h : Handle) (w : World) : list Z * option error * World :=
  match pendingMigrations h w with
  | (inl e, w) => ([], Some e, w)
  | (inr pending, w) => applyAll h pending w
  end.

(** ** Connection strings (postgres.go) *)

Definition RedactDSN (dsn : string) : string := default "(connection string)" (url_Redacted dsn).
Definition dsnPassword (dsn : string) : option string :=
  pw ← url_Password dsn;
  if nonempty pw then Some pw else None.
Definition redactDSNError (dsn : string) (err : error) : error :=
  if negb (nonempty dsn) then err
  else
    let msg := render (Error err) in
    if negb (Contains msg dsn) then
      match dsnPassword dsn with
      | Some pw => if Contains msg pw then ENew (Lit (ReplaceAll msg pw "xxxxx")) else err
      | None => err
      end
    else ENew (Lit (ReplaceAll msg dsn (RedactDSN dsn))).

(** ** Opening (sqlite.go, postgres.go) *)

Definition sqliteDSN (dbPath : string) : string :=
  dbPath +:+ "?_pragma=journal_mode(WAL)" +:+ "&_pragma=busy_timeout(5000)" +:+ "&_pragma=foreign_keys(ON)"
  +:+ "&_pragma=synchronous(NORMAL)" +:+ "&_txlock=immediate".

(** [sql.Open] makes no connection; [PingContext] makes one, and with it the file of a
    SQLite database; closing may move its log into it. *)
Definition sql_Open (d : dialect) (dsn : string) : Act Handle :=
  attempted (fun w => (inr (mkHandle d (match d with SQLite => file_of dsn | Postgres => dsn end)), w)).
Definition Ping (h : Handle) : Act unit := attempted (fun w =>
  match seen h w, ha_Dialect h with
  | Some _, _ => (inr tt, w)
  | None, SQLite => (inr tt, put h new_base w)
  | None, Postgres => (inl (unreachable (ha_Place h)), w)
  end).
Definition Close (h : Handle) (w : World) : World := match seen h w with Some b => put h b w | None => w end.
(** [os.MkdirAll] of the directory of a file, which [filepath.Dir] always names. *)
Definition MkdirAll : Act unit := attempted (fun w => (inr tt, w)).

(** What opens: a store on a handle, or a refusal; [Behind] is [ErrSchemaBehind]. *)
Inductive open_error := Behind (pending : nat) | Failed (e : error).
Record Opened := mkOpened { op_Handle : Handle; op_Describe : string }.
Definition opens (A : Type) : Type := World -> (open_error + A) * World.
(** [db.Close()] on the way out of an error. *)
Definition closing {A} (h : Handle) (m : Act A) : Act A := fun w => match m w with (inl e, w) => (inl e, Close h w) | r => r end.

(** [backupBeforeMigrate]: the bytes of the file, written next to it. *)
Definition backupBeforeMigrate (dbPath : string) : Act unit :=
  data ← attempted (fun w => (inr (fi_Bytes <$> wo_Files w !! dbPath), w));
  match data with
  | None => mret tt
  | Some bytes => attempted (fun w =>
      (inr tt, mkWorld (<[dbPath +:+ ".bak" := mkFile bytes bytes]> (wo_Files w)) (wo_Servers w) (wo_Calls w)))
  end.

Definition prefixed (format : string) (place : string) (e : error) : error := EWrap (Sprintf format [AStr place; AText (Error e)]) e.
Definition migrated (h : Handle) : Act unit := fun w =>
  match applyMigrations h w with (_, Some e, w) => (inl e, w) | (_, None, w) => (inr tt, w) end.
Definition upgrade (h : Handle) (dbPath : string) (pending : list Migration) : Act unit :=
  match pending with
  | [] => mret tt
  | _ =>
    applied ← wrap (prefixed "store: inspect schema of %s: %w" dbPath) (appliedNumbers h);
    _ ← (match applied with
         | [] => mret tt
         | _ => wrap (prefixed "store: back up %s before migrating: %w" dbPath) (backupBeforeMigrate dbPath)
         end);
    migrated h
  end.
Definition connectSQLite (dbPath : string) : Act Handle :=
  _ ← wrap (prefixed "store: create directory for %s: %w" dbPath) MkdirAll;
  db ← wrap (prefixed "store: open %s: %w" dbPath) (sql_Open SQLite (sqliteDSN dbPath));
  _ ← closing db (wrap (prefixed "store: open %s: %w" dbPath) (Ping db));
  mret db.
Definition OpenSQLite (dbPath : string) : Act Opened :=
  db ← connectSQLite dbPath;
  _ ← closing db (
    pending ← wrap (prefixed "store: inspect schema of %s: %w" dbPath) (pendingMigrations db);
    upgrade db dbPath pending);
  mret (mkOpened db ("sqlite " +:+ dbPath)).

Definition failing (format dsn : string) (e : error) : error :=
  EWrap (Sprintf format [AText (Error (redactDSNError dsn e))]) (redactDSNError dsn e).
Definition connectPostgres (dsn : string) : Act Handle :=
  db ← wrap (failing "store: open postgres: %w" dsn) (sql_Open Postgres dsn);
  _ ← closing db (wrap (failing "store: reach postgres: %w" dsn) (Ping db));
  mret db.
Definition inspect (dsn : string) : Act (Handle * list Migration) :=
  db ← connectPostgres dsn;
  pending ← closing db (wrap (failing "store: inspect postgres schema: %w" dsn) (pendingMigrations db));
  mret (db, pending).
Definition OpenPostgres (dsn : string) : opens Opened := fun w =>
  match inspect dsn w with
  | (inl e, w) => (inl (Failed e), w)
  | (inr (db, []), w) => (inr (mkOpened db ("postgres " +:+ RedactDSN dsn)), w)
  | (inr (db, pending), w) => (inl (Behind (length pending)), Close db w)
  end.

(** ** The database that a configuration names (open.go) *)

Record Config := mkConfig { cf_URL : string; cf_DefaultPath : string }.
Definition resolve (cfg : Config) : error + dialect * string :=
  if negb (nonempty (cf_URL cfg)) then
    if negb (nonempty (cf_DefaultPath cfg)) then inl (ENew (Lit "store: no database URL and no default path"))
    else inr (SQLite, cf_DefaultPath cfg)
  else match CutAt "://" (cf_URL cfg) with
       | None => inl (ENew (Sprintf "store: %q is not a database URL: expected postgres://... or sqlite://path" [AStr (cf_URL cfg)]))
       | Some (scheme, rest) =>
         if bool_decide (scheme ∈ ["sqlite"; "file"]) then
           if negb (nonempty rest) then inl (ENew (Sprintf "store: %q names no file: expected sqlite:///path/to/history.db" [AStr (cf_URL cfg)]))
           else inr (SQLite, rest)
         else if bool_decide (scheme ∈ ["postgres"; "postgresql"]) then inr (Postgres, cf_URL cfg)
         else inl (ENew (Sprintf "store: unsupported database scheme %q: RestoreLab speaks sqlite and postgres" [AStr scheme]))
       end.
Definition Open (cfg : Config) : opens Opened := fun w =>
  match resolve cfg with
  | inl e => (inl (Failed e), w)
  | inr (SQLite, dsn) => match OpenSQLite dsn w with (inl e, w) => (inl (Failed e), w) | (inr s, w) => (inr s, w) end
  | inr (Postgres, dsn) => OpenPostgres dsn w
  end.
Definition reach (d : dialect) (dsn : string) : Act Handle :=
  _ ← (match d with SQLite => wrap (prefixed "store: create directory for %s: %w" dsn) MkdirAll | Postgres => mret tt end);
  db ← wrap (failing "store: open database: %w" dsn) (sql_Open d (match d with SQLite => sqliteDSN dsn | Postgres => dsn end));
  _ ← closing db (wrap (failing "store: reach database: %w" dsn) (Ping db));
  mret db.
Definition Migrate (cfg : Config) (w : World) : list Z * option error * World :=
  match resolve cfg with
  | inl e => ([], Some e, w)
  | inr (d, dsn) =>
    match reach d dsn w with
    | (inl e, w) => ([], Some e, w)
    | (inr db, w) => let '(applied, err, w) := applyMigrations db w in (applied, err, Close db w)
    end
  end.
Definition DescribeConfig (cfg : Config) : string :=
  match resolve cfg with
  | inl _ => "(misconfigured)"
  | inr (SQLite, dsn) => "sqlite " +:+ dsn
  | inr (Postgres, dsn) => "postgres " +:+ RedactDSN dsn
  end.

(** ** The steps of a schema

    A database is at step [k] of a list of scripts when exactly the first [k] are
    recorded, and its schema is what they make of a blank one, in their order. *)

Definition run_all (l : list Migration) (s : Schema) : option Schema :=
  foldl (fun s m => s ≫= run_script (mg_SQL m)) (Some s) l.
Definition numbers (l : list Migration) : list Z := map mg_Number l.

Section Steps.
Context (l : list Migration).

Record at_step (k : nat) (b : Base) : Prop := {
  as_le : (k <= length l)%nat;
  as_marked m : m ∈ list.take k l -> is_Some (default ∅ (ba_Marks b) !! mg_Number m);
  as_only n x : default ∅ (ba_Marks b) !! n = Some x -> exists m, m ∈ list.take k l /\ mg_Number m = n /\ mg_Name m = x.1;
  as_schema : run_all (list.take k l) blank = Some (ba_Schema b);
}.
Definition stands (h : Handle) (k : nat) (w : World) : Prop := exists b, seen h w = Some b /\ at_step k b.

Context (Hnumbers : NoDup (numbers l)).

Lemma new_at_step : at_step 0 new_base.
Proof. split; [lia| | |done]; rewrite take_0; cbn; [by intros m ?%not_elem_of_nil|by intros n x ?]. Qed.
Lemma same_number m m' : m ∈ l -> m' ∈ l -> mg_Number m = mg_Number m' -> m = m'.
Proof.
  unfold numbers in Hnumbers. revert Hnumbers. clear. induction l as [|a l' IH]; [by intros _ ?%not_elem_of_nil|].
  cbn. intros [Hn Hd]%NoDup_cons Hm Hm' E. apply elem_of_cons in Hm as [->|Hm], Hm' as [->|Hm']; [done| | |by apply IH].
  - destruct Hn. rewrite E. by apply list_elem_of_fmap_2.
  - destruct Hn. rewrite <- E. by apply list_elem_of_fmap_2.
Qed.
Lemma later_unmarked k b i m : at_step k b -> l !! i = Some m -> (k <= i)%nat -> default ∅ (ba_Marks b) !! mg_Number m = None.
Proof.
  intros Hs Hm Hi. destruct (default ∅ (ba_Marks b) !! mg_Number m) as [x|] eqn:E; [|done]. exfalso.
  destruct (as_only _ _ Hs _ _ E) as (m' & Hin & En & _). apply list_elem_of_lookup in Hin as [j Hj].
  apply lookup_take_Some in Hj as [Hj Hlt]. assert (m' = m) as -> by (eapply same_number; [by eapply list_elem_of_lookup_2..|done]).
  assert (NoDup l) as Hd by by eapply NoDup_fmap_1.
  assert (i = j) as -> by (eapply NoDup_lookup; eauto). lia.
Qed.
Lemma at_step_le k k' b : at_step k b -> at_step k' b -> (k <= k')%nat.
Proof.
  intros Hk Hk'. destruct (decide (k <= k')%nat) as [|Hlt]; [done|]. exfalso. pose proof (as_le _ _ Hk).
  destruct (l !! k') as [m|] eqn:E; [|apply lookup_ge_None in E; lia].
  pose proof (later_unmarked k' b k' m Hk' E ltac:(lia)) as Hn.
  destruct (as_marked _ _ Hk m) as [x Hx]; [|congruence]. apply list_elem_of_lookup. exists k'. apply lookup_take_Some. split; [done|lia].
Qed.

(** The pending scripts are those of the steps to come. *)
Lemma pending_drop k b : at_step k b -> List.filter (is_pending (map fst (map_to_list (default ∅ (ba_Marks b))))) l = list.drop k l.
Proof.
  intros Hs. assert (forall m, mg_Number m ∈ map fst (map_to_list (default ∅ (ba_Marks b))) <-> is_Some (default ∅ (ba_Marks b) !! mg_Number m)) as Hin.
  { intros m. split.
    - intros ([n x] & En & Hx)%list_elem_of_fmap_1. apply elem_of_map_to_list in Hx. cbn in En. subst. by exists x.
    - intros [x Hx]. apply (list_elem_of_fmap_2' fst _ (mg_Number m, x)); [by apply elem_of_map_to_list|done]. }
  rewrite <- (take_drop k l) at 1. rewrite List.filter_app, filter_none, filter_all; [done|..]; apply Forall_forall.
  - intros m Hm. unfold is_pending. apply bool_decide_eq_true. rewrite Hin. apply list_elem_of_lookup in Hm as [j Hj].
    rewrite lookup_drop in Hj. rewrite (later_unmarked k b _ m Hs Hj) by lia. by intros [? ?].
  - intros m Hm. unfold is_pending. apply bool_decide_eq_false. rewrite Hin. intros Hn. by apply Hn, (as_marked k).
Qed.

(** The transaction of the next script leads to the next step; that of an earlier one
    is refused by the key of the bookkeeping table. *)
Lemma next_step k b b1 b2 m t : at_step k b -> l !! k = Some m -> run_sql m b = Some b1 -> insert_mark m t b1 = Some b2 -> at_step (S k) b2.
Proof.
  intros Hs Hm Hr Hi. unfold run_sql in Hr. destruct (run_script (mg_SQL m) (ba_Schema b)) as [s|] eqn:Es; [|done]. injection Hr as <-.
  unfold insert_mark in Hi. cbn in Hi. destruct (ba_Marks b) as [marks|] eqn:Em; [|done]. cbn in Hi. case_bool_decide as Hn; [done|]. injection Hi as <-.
  destruct Hs as [A1 A2 A3 A4]. rewrite Em in A2, A3. cbn in A2, A3. apply eq_None_not_Some in Hn.
  pose proof (take_S_r _ _ _ Hm) as Et. split; cbn; rewrite ?Et.
  - by apply lookup_lt_Some in Hm.
  - intros m' [Hin|Heq]%elem_of_app.
    + destruct (decide (mg_Number m' = mg_Number m)) as [->|Hne]; [by rewrite lookup_insert_eq|]. rewrite lookup_insert_ne by done. by apply A2.
    + apply list_elem_of_singleton in Heq as ->. by rewrite lookup_insert_eq.
  - intros n x [[<- <-]|[_ E]]%lookup_insert_Some.
    + exists m. split; [by apply elem_of_app; right; apply list_elem_of_singleton|done].
    + destruct (A3 n x E) as (m' & Hin & ?). exists m'. split; [by apply elem_of_app; left|done].
  - unfold run_all in *. rewrite foldl_app, A4. exact Es.
Qed.
Lemma past_step k b b1 i m t : at_step k b -> l !! i = Some m -> (i < k)%nat -> run_sql m b = Some b1 -> insert_mark m t b1 = None.
Proof.
  intros Hs Hm Hi Hr. unfold run_sql in Hr. destruct (run_script (mg_SQL m) (ba_Schema b)) as [s|] eqn:Es; [|done]. injection Hr as <-.
  unfold insert_mark. cbn. destruct (as_marked k b Hs m) as [x Hx].
  { apply list_elem_of_lookup. exists i. by apply lookup_take_Some. }
  destruct (ba_Marks b) as [marks|]; [|done]. cbn in Hx |- *. by rewrite Hx.
Qed.

(** *** What a program does to a database that stands at a step *)

(** Other processes only ever take a database forward. *)
Definition forward : Prop := forall n k b, at_step k b -> exists k', (k <= k')%nat /\ at_step k' (others n b).
Definition alone : Prop := forall n b, others n b = b.
(** Nothing fails, nobody else is there, and the scripts run. *)
Record calm : Prop := {
  ca_fate n : fate (Schema := Schema) n = Carried;
  ca_alone : alone;
  ca_scripts : is_Some (run_all l blank);
}.
(** A frame: which other databases are left as they were. *)
Section Frame.
Context (Kept : Handle -> Prop).
Definition untouched (h : Handle) (w w' : World) : Prop := forall h', Kept h' -> h' <> h -> seen h' w' = seen h' w.
#[local] Instance untouched_preorder h : PreOrder (untouched h).
Proof. split; [by intros w h' _ _|]. intros w1 w2 w3 A B h' Hh Hne. by rewrite B, A. Qed.

Lemma seen_put h b w : seen h (put h b w) = Some b.
Proof. unfold seen, put. destruct (ha_Dialect h); cbn; by rewrite lookup_insert_eq. Qed.
Lemma seen_put_other h h' b w : h' <> h -> seen h' (put h b w) = seen h' w.
Proof.
  destruct h as [d p], h' as [d' p']. intros Hne. unfold seen, put. cbn.
  destruct d, d'; cbn; try done; rewrite lookup_insert_ne; congruence.
Qed.
Lemma put_untouched h b w : untouched h w (put h b w).
Proof. intros h' _ Hne. by apply seen_put_other. Qed.
Lemma put_stands h k b w : at_step k b -> stands h k (put h b w).
Proof. exists b. by rewrite seen_put. Qed.

(** What the bytes of the file hold. *)
Definition bytes_at (h : Handle) (k : nat) (w : World) : Prop := exists f, wo_Files w !! ha_Place h = Some f /\ at_step k (fi_Bytes f).
Lemma put_bytes h k b w : ha_Dialect h = SQLite -> at_step k b -> bytes_at h k w -> bytes_at h k (put h b w).
Proof.
  intros Hd Hb (f & E & Hf). unfold bytes_at, put. rewrite Hd, E. cbn. rewrite lookup_insert_eq. eexists. split; [done|].
  cbn. by destruct (checkpoint _).
Qed.

Definition spec {A} (h : Handle) (k : nat) (m : Act A) (w : World) (Q : nat -> A -> World -> Prop) : Prop :=
  let '(r, w') := m w in
  untouched h w w' /\
  exists k', (k <= k')%nat /\ stands h k' w' /\ match r with inl _ => ~ calm | inr a => Q k' a w' end.
Lemma spec_bind {A B} h k (m : Act A) (f : A -> Act B) w Q Q' :
  spec h k m w Q -> (forall k' a w', (k <= k')%nat -> stands h k' w' -> Q k' a w' -> spec h k' (f a) w' Q') -> spec h k (m ≫= f) w Q'.
Proof.
  unfold spec, mbind, Act_bind. destruct (m w) as [[e|a] w1]; intros (Hu & k1 & Hk & Hs & HQ) Hf.
  - split; [done|]. by exists k1.
  - specialize (Hf k1 a w1 Hk Hs HQ). destruct (f a w1) as [r w2]. destruct Hf as (Hu2 & k2 & Hk2 & Hs2 & HQ2).
    split; [by etransitivity|]. exists k2. split_and!; [lia|done..].
Qed.
Lemma spec_ret {A} h k (a : A) w (Q : nat -> A -> World -> Prop) : stands h k w -> Q k a w -> spec h k (mret a) w Q.
Proof. intros Hs HQ. split; [done|]. by exists k. Qed.
Lemma spec_mono {A} h k (m : Act A) w (Q Q' : nat -> A -> World -> Prop) :
  spec h k m w Q -> (forall k' a w', (k <= k')%nat -> stands h k' w' -> Q k' a w' -> Q' k' a w') -> spec h k m w Q'.
Proof.
  unfold spec. destruct (m w) as [[e|a] w1]; intros (Hu & k1 & Hk & Hs & HQ) Hq; (split; [done|]); exists k1; split_and!; [done..|]; by apply Hq.
Qed.
Lemma spec_wrap {A} h k g (m : Act A) w Q : spec h k m w Q -> spec h k (wrap g m) w Q.
Proof. unfold spec, wrap. by destruct (m w) as [[e|a] w1]. Qed.
Lemma close_stands h k w : stands h k w -> untouched h w (Close h w) /\ stands h k (Close h w).
Proof. intros (b & E & Hs). unfold Close. rewrite E. split; [apply put_untouched|by apply put_stands]. Qed.
Lemma spec_closing {A} h k (m : Act A) w Q : spec h k m w Q -> spec h k (closing h m) w Q.
Proof.
  unfold spec, closing. destruct (m w) as [[e|a] w1]; [|done]. intros (Hu & k1 & Hk & Hs & HQ).
  destruct (close_stands h k1 w1 Hs) as [Hc Hs1]. split; [by etransitivity|]. by exists k1.
Qed.

(** A call whose effect, when it is carried out, keeps the step. *)
Lemma attempted_spec {A} h k w (effect : Act A) (Q : nat -> A -> World -> Prop) :
  stands h k w -> spec h k effect (ticked w) Q -> spec h k (attempted effect) w Q.
Proof.
  intros Hs He. assert (stands h k (ticked w)) as Ht by exact Hs. unfold spec, attempted in *.
  destruct (fate (wo_Calls w)) eqn:Ef.
  - exact He.
  - split; [done|]. exists k. split_and!; [done..|]. intros [Hc _ _]. congruence.
  - destruct (effect (ticked w)) as [r w1]. cbn. destruct He as (Hu & k1 & Hk & Hs1 & _). split; [exact Hu|]. exists k1. split_and!; [done..|].
    intros [Hc _ _]. congruence.
Qed.
Lemma statement_spec {A} h k w (f : Base -> error + A * Base) (Q : nat -> A -> World -> Prop) : forward -> stands h k w ->
  (forall k' b, (k <= k')%nat -> (alone -> k' = k /\ seen h w = Some b) -> at_step k' b ->
    match f b with
    | inl _ => ~ calm
    | inr (a, b') => at_step k' b' /\ forall w', seen h w' = Some b' ->
        (alone -> ha_Dialect h = SQLite -> bytes_at h k w -> bytes_at h k w') -> Q k' a w'
    end) ->
  spec h k (statement h f) w Q.
Proof.
  intros Hf (b & E & Hs) Hstep. destruct (Hf (wo_Calls w) k b Hs) as (k1 & Hk1 & Hs1).
  assert (alone -> k1 = k /\ seen h w = Some (others (wo_Calls w) b)) as Hc.
  { intros Hc. rewrite Hc in Hs1 |- *. split; [|done]. apply Nat.le_antisymm; [by eapply at_step_le|done]. }
  unfold statement. apply (spec_bind h k _ _ w (fun k' _ w' => k' = k1 /\ w' = put h (others (wo_Calls w) b) w)).
  { unfold spec, meanwhile. rewrite E. split; [apply put_untouched|]. exists k1. split_and!; [done|by apply put_stands|done..]. }
  intros k' [] w' Hk' Hs' [-> ->]. set (w' := put h _ w) in *. assert (seen h w' = Some (others (wo_Calls w) b)) as E' by apply seen_put. apply attempted_spec; [done|]. unfold spec. change (seen h (ticked w')) with (seen h w'). rewrite E'.
  specialize (Hstep k1 _ Hk1 Hc Hs1). destruct (f (others (wo_Calls w) b)) as [e|[a b']].
  - split; [done|]. by exists k1.
  - destruct Hstep as [Hb HQ]. split; [apply (put_untouched h b' (ticked w'))|]. exists k1. split_and!; [done|by apply put_stands|]. apply HQ; [by rewrite seen_put|].
    intros Ha Hd Hy. destruct (Hc Ha) as [<- _]. apply put_bytes; [done..|]. by apply (put_bytes h k1 _ w).
Qed.

(** *** Migrations *)

(** The bookkeeping table is there. *)
Definition prepared (h : Handle) (w : World) : Prop := exists b, seen h w = Some b /\ is_Some (ba_Marks b).

(** The step, and that of the bytes, are what they were. *)
Definition settled (h : Handle) (k : nat) (w : World) (k' : nat) (w' : World) : Prop :=
  k' = k /\ (ha_Dialect h = SQLite -> bytes_at h k w -> bytes_at h k w').

Lemma ensure_spec h k w : forward -> stands h k w -> spec h k (ensureMigrationsTable h) w (fun k' _ w' => prepared h w' /\ (alone -> settled h k w k' w')).
Proof.
  intros Hf Hs. apply statement_spec; [done..|]. intros k' b Hk Hc [A1 A2 A3 A4]. split; [by split|].
  intros w' E Hy. split; [eexists; by split|]. intros Hca. destruct (Hc Hca). by split; [|apply Hy].
Qed.
Lemma pending_spec h k w : forward -> loadMigrations (ha_Dialect h) = inr l -> stands h k w ->
  spec h k (pendingMigrations h) w (fun k' pending w' => exists i, (k <= i <= k')%nat /\ pending = list.drop i l /\ (calm -> prepared h w') /\ (alone -> i = k /\ settled h k w k' w')).
Proof.
  intros Hf Hl Hs. eapply spec_bind; [by apply ensure_spec|]. intros k1 [] w1 Hk1 Hs1 [Hp1 Hc1].
  eapply (spec_bind h k1 _ _ w1 (fun k' all w' => all = l /\ k' = k1 /\ w' = w1)).
  { unfold spec, loaded. rewrite Hl. split; [done|]. by exists k1. }
  intros k2 all w2 _ _ (-> & -> & ->). eapply spec_bind.
  { apply (statement_spec h k1 w1 _ (fun k' applied w' => List.filter (is_pending applied) l = list.drop k' l /\ prepared h w' /\ (alone -> settled h k1 w1 k' w'))); [done..|].
    intros k2 b Hk2 Hc Hb. destruct (ba_Marks b) as [marks|] eqn:Em.
    - split; [done|]. intros w' E Hy. split_and!; [rewrite <- (pending_drop k2 b Hb); by rewrite Em|exists b; by rewrite Em|].
      intros Ha. destruct (Hc Ha). split; [done|]. by apply Hy.
    - intros Hca. destruct (Hc (ca_alone Hca)) as [_ Eb]. destruct Hp1 as (b1 & E1 & Hb1). rewrite Eb in E1. injection E1 as <-. rewrite Em in Hb1. by destruct Hb1. }
  intros k3 applied w3 Hk3 Hs3 (Ha & Hp3 & Hc3). apply spec_ret; [done|]. exists k3. split_and!; [lia|done..|].
  intros Hal. destruct (Hc1 Hal) as [-> Hy1], (Hc3 Hal) as [-> Hy3]. split; [done|]. split; [done|]. intros Hd Hy. by apply Hy3, Hy1.
Qed.
Lemma calm_script k b m : calm -> at_step k b -> l !! k = Some m -> is_Some (run_sql m b).
Proof.
  intros [_ _ [s Hs]] Hb Hm. unfold run_sql. apply fmap_is_Some. unfold run_all in Hs.
  rewrite <- (take_drop_middle l k m Hm), foldl_app in Hs. pose proof (as_schema _ _ Hb) as Es. unfold run_all in Es. rewrite Es in Hs. cbn in Hs.
  destruct (run_script (mg_SQL m) (ba_Schema b)) eqn:E; [by eexists|]. exfalso. revert Hs. clear. generalize (list.drop (S k) l).
  intros xs. assert (foldl (fun (s : option Schema) m => s ≫= run_script (mg_SQL m)) None xs = None) as ->; [|done]. by induction xs.
Qed.
Lemma ExecTx_spec h k w f query tx : stands h k w ->
  (calm -> is_Some (f tx)) -> spec h k (ExecTx f query tx) w (fun k' tx' w' => f tx = Some tx' /\ k' = k /\ seen h w' = seen h w).
Proof.
  intros Hs Hc. apply attempted_spec; [done|]. unfold spec. destruct (f tx) as [tx'|] eqn:E.
  - split; [done|]. exists k. by split_and!.
  - split; [done|]. exists k. split_and!; [done..|]. intros Hca. by destruct (Hc Hca).
Qed.
Lemma applyOne_spec h i k w m : forward -> stands h k w -> l !! i = Some m -> (i <= k)%nat -> (calm -> i = k /\ prepared h w) ->
  spec h k (applyOne h m) w (fun k' _ w' => (i < k')%nat /\ (calm -> k' = S i /\ prepared h w')).
Proof.
  intros Hf Hs Hm Hi Hc. eapply spec_bind.
  { apply (statement_spec h k w _ (fun k' tx w' => at_step k' tx /\ (calm -> k' = k /\ is_Some (ba_Marks tx)))); [done..|].
    intros k1 b Hk1 Hc1 Hb. split; [done|]. intros w' _ _. split; [done|]. intros Hca. destruct (Hc1 (ca_alone Hca)) as [-> E].
    destruct (Hc Hca) as (_ & b' & E' & Hp). rewrite E in E'. by injection E' as <-. }
  intros k1 tx w1 Hk1 Hs1 [Htx Hc1]. eapply spec_bind.
  { apply ExecTx_spec; [done|]. intros Hca. apply (calm_script k1); [done..|]. destruct (Hc1 Hca) as [-> _], (Hc Hca) as [<- _]. done. }
  intros ? tx1 w2 _ Hs2 (E1 & -> & _). eapply spec_bind.
  { apply ExecTx_spec; [done|]. intros Hca. destruct (Hc1 Hca) as [-> [marks Em]], (Hc Hca) as [-> _].
    pose proof (later_unmarked k tx k m Htx Hm ltac:(lia)) as Hn. unfold run_sql in E1. destruct (run_script _ _); [|done]. injection E1 as <-.
    unfold insert_mark. cbn. rewrite Em in Hn |- *. cbn in Hn |- *. rewrite Hn. by eexists. }
  intros ? tx2 w3 _ Hs3 (E2 & -> & _). destruct (decide (i < k1)%nat) as [Hlt|Hge].
  { by rewrite (past_step k1 tx tx1 i m _ Htx Hm Hlt E1) in E2. }
  assert (i = k1) as -> by lia. assert (at_step (S k1) tx2) as H2 by by eapply next_step.
  apply attempted_spec; [done|]. split; [apply (put_untouched h tx2 (ticked w3))|]. exists (S k1). split_and!; [lia|by apply put_stands|lia|].
  intros Hca. split; [done|]. exists tx2. split; [apply seen_put|]. unfold insert_mark in E2. destruct (ba_Marks tx1); [|done].
  cbn in E2. case_bool_decide; [done|]. by injection E2 as <-.
Qed.

(** What migrating answers and leaves: the database is at a later step, nothing else has
    changed, the numbers answered are those of successive steps that the database has
    reached; without an error it is at the last step, and when nothing fails there is
    no error. *)
Record migration (h : Handle) (i k : nat) (w : World) (applied : list Z) (err : option error) (w' : World) : Prop := {
  mi_untouched : untouched h w w';
  mi_stands : exists k', (k <= k')%nat /\ (i + length applied <= k')%nat /\ stands h k' w';
  mi_applied : exists rest, numbers (list.drop i l) = applied ++ rest /\ (err = None -> rest = []);
  mi_calm : calm -> err = None;
}.
Lemma applyAll_spec h i k w : forward -> stands h k w -> (i <= k)%nat -> (calm -> i = k /\ prepared h w) ->
  let '(applied, err, w') := applyAll h (list.drop i l) w in migration h i k w applied err w'.
Proof.
  intros Hf Hs Hi Hc. remember (list.drop i l) as ms eqn:Em. revert i k w Hs Hi Hc Em. induction ms as [|m ms IH]; intros i k w Hs Hi Hc Em.
  - cbn. split; [done| |by exists []; rewrite <- Em|done]. exists k. cbn. split_and!; [lia..|done].
  - assert (l !! i = Some m /\ ms = list.drop (S i) l) as [Hm Ems].
    { destruct (l !! i) as [m'|] eqn:E; [rewrite (drop_S _ _ _ E) in Em; by injection Em as -> ->|].
      apply lookup_ge_None in E. by rewrite drop_ge in Em. }
    cbn [applyAll]. pose proof (applyOne_spec h i k w m Hf Hs Hm Hi Hc) as Ho. unfold spec in Ho.
    destruct (applyOne h m w) as [[e|[]] w1]; destruct Ho as (Hu & k1 & Hk1 & Hs1 & HQ).
    + split; [done| |by exists (numbers (list.drop i l))|done]. exists k1. cbn. split_and!; [lia..|done].
    + destruct HQ as [Hlt Hc1]. specialize (IH (S i) k1 w1 Hs1 ltac:(lia)). destruct (applyAll h ms w1) as [[applied err] w2].
      destruct IH as [Hu2 (k2 & Hk2 & Hl2 & Hs2) (rest & E & Hr) Hca]; [|done|].
      { intros Hca. by destruct (Hc1 Hca) as [-> ?]. }
      split; [by etransitivity| |exists rest; rewrite <- Em|done].
      * exists k2. cbn [length]. split_and!; [lia..|done].
      * split; [|done]. unfold numbers in *. cbn [map]. rewrite Ems, E. done.
Qed.
Lemma applyMigrations_spec h k w : forward -> loadMigrations (ha_Dialect h) = inr l -> stands h k w ->
  let '(applied, err, w') := applyMigrations h w in exists i, (k <= i)%nat /\ (calm -> i = k) /\ migration h i k w applied err w'.
Proof.
  intros Hf Hl Hs. unfold applyMigrations. pose proof (pending_spec h k w Hf Hl Hs) as Hp. unfold spec in Hp.
  destruct (pendingMigrations h w) as [[e|pending] w1]; destruct Hp as (Hu & k1 & Hk1 & Hs1 & HQ).
  - exists k. split_and!; [done..|]. split; [done| |by exists (numbers (list.drop k l))|done]. exists k1. cbn. split_and!; [lia..|done].
  - destruct HQ as (i & Hi & -> & Hp & Hc). pose proof (applyAll_spec h i k1 w1 Hf Hs1 ltac:(lia)) as Ha.
    destruct (applyAll h (list.drop i l) w1) as [[applied err] w2]. exists i.
    destruct Ha as [Hu2 (k2 & Hk2 & Hl2 & Hs2) Ha Hca]; [intros Hca; destruct (Hc (ca_alone Hca)) as [-> [-> _]]; split; [done|by apply Hp]|].
    split_and!; [lia|intros Hca'; by destruct (Hc (ca_alone Hca'))|]. split; [by etransitivity| |done|done]. exists k2. split_and!; [lia..|done].
Qed.
Lemma migration_complete h i k w applied w' : migration h i k w applied None w' -> stands h (length l) w'.
Proof.
  intros [_ (k' & Hk & Hl & (b & E & Hb)) (rest & En & Hr) _]. rewrite (Hr eq_refl), app_nil_r in En.
  apply (f_equal length) in En. unfold numbers in En. rewrite length_map, length_drop in En. pose proof (as_le _ _ Hb).
  exists b. split; [done|]. by replace (length l) with k' by lia.
Qed.

End Frame.

(** *** Opening *)

(** A database at a step, or a file of SQLite that is yet to be made. *)
Definition found (h : Handle) (k : nat) (w : World) : Prop := stands h k w \/ (ha_Dialect h = SQLite /\ seen h w = None /\ k = 0%nat).
Section Visit.
Context (Kept : Handle -> Prop).
#[local] Existing Instance untouched_preorder.
(** Before the database was reached: nothing is written, but a new file is made. *)
Definition visit {A} (h : Handle) (k : nat) (m : Act A) (w : World) (Q : A -> World -> Prop) : Prop :=
  let '(r, w') := m w in
  untouched Kept h w w' /\ found h k w' /\ (ha_Dialect h = SQLite -> bytes_at h k w -> bytes_at h k w') /\
  match r with inl _ => ~ calm | inr a => Q a w' end.
Lemma visit_bind {A B} h k (m : Act A) (f : A -> Act B) w Q Q' :
  visit h k m w Q -> (forall a w', found h k w' -> Q a w' -> visit h k (f a) w' Q') -> visit h k (m ≫= f) w Q'.
Proof.
  unfold visit, mbind, Act_bind. destruct (m w) as [[e|a] w1]; intros (Hu & Hs & Hy & HQ) Hf; [done|].
  specialize (Hf a w1 Hs HQ). destruct (f a w1) as [r w2]. destruct Hf as (Hu2 & Hs2 & Hy2 & HQ2). split_and!; [by etransitivity|done|naive_solver|done].
Qed.
Lemma visit_wrap {A} h k g (m : Act A) w Q : visit h k m w Q -> visit h k (wrap g m) w Q.
Proof. unfold visit, wrap. by destruct (m w) as [[e|a] w1]. Qed.
Lemma visit_closing {A} h k (m : Act A) w Q : visit h k m w Q -> visit h k (closing h m) w Q.
Proof.
  unfold visit, closing. destruct (m w) as [[e|a] w1]; [|done]. intros (Hu & Hs & Hy & HQ). unfold Close. destruct (seen h w1) as [b|] eqn:E; [|done].
  destruct Hs as [(b' & E' & Hb)|(_ & E' & _)]; [|congruence]. rewrite E in E'. injection E' as <-.
  split_and!; [etransitivity; [done|apply put_untouched]|left; by apply put_stands| |done].
  intros Hd Hy0. apply put_bytes; [done..|]. by apply Hy.
Qed.
Lemma visit_attempted {A} h k w (effect : Act A) Q : found h k w -> visit h k effect (ticked w) Q -> visit h k (attempted effect) w Q.
Proof.
  intros Hs He. unfold visit, attempted in *. destruct (fate (wo_Calls w)) eqn:Ef; [exact He| |].
  - split_and!; [done..|]. intros [Hc _ _]. congruence.
  - destruct (effect (ticked w)) as [r w1]. cbn. destruct He as (Hu & Hs1 & Hy & _). split_and!; [done..|]. intros [Hc _ _]. congruence.
Qed.
Lemma MkdirAll_visit h k w : found h k w -> visit h k MkdirAll w (fun _ _ => True).
Proof. intros Hs. by apply visit_attempted. Qed.
Lemma Open_visit h k w d dsn : h = mkHandle d (match d with SQLite => file_of dsn | Postgres => dsn end) -> found h k w ->
  visit h k (sql_Open d dsn) w (fun h' _ => h' = h).
Proof. intros -> Hs. by apply visit_attempted. Qed.
Lemma Ping_visit h k w : found h k w -> visit h k (Ping h) w (fun _ w' => stands h k w').
Proof.
  intros Hs. apply visit_attempted; [done|]. unfold visit. change (seen h (ticked w)) with (seen h w).
  destruct (seen h w) as [b|] eqn:E; destruct Hs as [(b' & E' & Hb)|(Hd & E' & ->)]; try congruence.
  - rewrite E in E'. injection E' as <-. assert (stands h k (ticked w)) as Ht by (by exists b). split_and!; [done|by left|done|done].
  - rewrite Hd. assert (stands h 0 (put h new_base (ticked w))) as Ht by apply put_stands, new_at_step.
    split_and!; [apply (put_untouched Kept h new_base (ticked w))|by left| |done].
    intros _ (f & Ef & _). cbn in Ef. unfold seen in E. rewrite Hd, Ef in E. done.
Qed.
Lemma connect_visit {A} h k w d dsn f g (next : Handle -> Act A) Q :
  h = mkHandle d (match d with SQLite => file_of dsn | Postgres => dsn end) -> found h k w ->
  (forall w', stands h k w' -> visit h k (next h) w' Q) ->
  visit h k (db ← wrap f (sql_Open d dsn); _ ← closing db (wrap g (Ping db)); next db) w Q.
Proof.
  intros Hh Hs Hn. eapply visit_bind; [by apply visit_wrap, (Open_visit h k w d dsn)|]. intros h' w1 Hs1 ->.
  eapply visit_bind; [by apply visit_closing, visit_wrap, Ping_visit|]. intros [] w2 _ Hw. by apply Hn.
Qed.
End Visit.

(** *** SQLite: the copy, then the migrations *)

Definition copy_of (h : Handle) : Handle := mkHandle SQLite (ha_Place h +:+ ".bak").
Definition beside (h h' : Handle) : Prop := h' <> copy_of h.
Definition anywhere (_ : Handle) : Prop := True.
Lemma untouched_beside h w w' : untouched anywhere h w w' -> untouched (beside h) h w w'.
Proof. intros Hu h' _. by apply Hu. Qed.
Definition backed_up (h : Handle) (k : nat) (w : World) : Prop := exists b, seen (copy_of h) w = Some b /\ at_step k b.

Lemma copy_apart h : copy_of h <> h.
Proof.
  destruct h as [d p]. unfold copy_of. cbn. intros [= _ E]. apply (f_equal String.length) in E. rewrite string_length_app in E. cbn in E. lia.
Qed.
Lemma backup_spec h k w : ha_Dialect h = SQLite -> stands h k w ->
  spec (beside h) h k (backupBeforeMigrate (ha_Place h)) w (fun k' _ w' => k' = k /\ (bytes_at h k w -> backed_up h k w')).
Proof.
  intros Hd Hs. eapply (spec_bind _ h k _ _ w (fun k' data w' => k' = k /\ w' = ticked w /\ data = fi_Bytes <$> wo_Files w !! ha_Place h)).
  { apply attempted_spec; [done|]. split; [done|]. exists k. by split_and!. }
  intros k1 data w1 _ Hs1 (-> & -> & ->). destruct (wo_Files w !! ha_Place h) as [f|] eqn:Ef; cbn [fmap option_fmap option_map].
  - apply attempted_spec; [done|]. split.
    + intros h' Hb _. unfold beside, copy_of in Hb. destruct h' as [d' p']. unfold seen. cbn. destruct d'; [|done].
      rewrite lookup_insert_ne; [done|]. intros <-. by apply Hb.
    + exists k. split_and!; [done| |done|].
      * destruct Hs as (b & E & Hb). exists b. split; [|done]. unfold seen in E |- *. rewrite Hd in E |- *. cbn. rewrite lookup_insert_ne; [done|].
        intros E'. apply (copy_apart h). destruct h. cbn in *. unfold copy_of. cbn. by rewrite Hd, E'.
      * intros (f' & E' & Hf'). rewrite Ef in E'. injection E' as <-. exists (fi_Bytes f). split; [|done]. unfold seen, copy_of. cbn. by rewrite lookup_insert_eq.
  - apply spec_ret; [done|]. split; [done|]. intros (f' & E' & _). congruence.
Qed.
Lemma migrated_spec h k w : forward -> loadMigrations (ha_Dialect h) = inr l -> stands h k w ->
  spec anywhere h k (migrated h) w (fun k' _ _ => k' = length l).
Proof.
  intros Hf Hl Hs. unfold spec, migrated. pose proof (applyMigrations_spec anywhere h k w Hf Hl Hs) as Hm.
  destruct (applyMigrations h w) as [[applied [e|]] w']; destruct Hm as (i & Hi & Hc & Hm).
  - destruct Hm as [Hu (k' & Hk & _ & Hs') _ Hca]. split; [done|]. exists k'. split_and!; [lia|done|]. intros Hcalm. by specialize (Hca Hcalm).
  - pose proof (migration_complete _ _ _ _ _ _ _ Hm) as Hlast. destruct Hm as [Hu (k' & Hk & _ & Hs') _ Hca]. split; [done|]. exists (length l).
    split_and!; [|done|done]. destruct Hs' as (b & _ & Hb), Hs as (b0 & _ & Hb0). pose proof (as_le _ _ Hb0). lia.
Qed.
Lemma upgrade_spec h i k w : forward -> ha_Dialect h = SQLite -> loadMigrations SQLite = inr l -> stands h k w -> (i <= k)%nat -> (calm -> prepared h w) ->
  (alone -> i = k) ->
  spec (beside h) h k (upgrade h (ha_Place h) (list.drop i l)) w
    (fun k' _ w' => k' = length l /\ (alone -> (0 < k < length l)%nat -> bytes_at h k w -> backed_up h k w')).
Proof.
  intros Hf Hd Hl Hs Hi Hp Ha. pose proof Hs as (b0 & _ & Hb0). pose proof (as_le _ _ Hb0) as Hk0. unfold upgrade.
  destruct (list.drop i l) as [|m ms] eqn:Ed.
  { apply (f_equal length) in Ed. rewrite length_drop in Ed. cbn in Ed. apply spec_ret; [done|]. split; [lia|]. intros Hal. specialize (Ha Hal). lia. }
  eapply spec_bind.
  { apply spec_wrap, (statement_spec _ h k w _ (fun k' applied w' => (0 < k' -> applied <> [])%nat /\ (alone -> settled h k w k' w'))); [done..|].
    intros k1 b Hk1 Hc Hb. destruct (ba_Marks b) as [marks|] eqn:Em.
    - split; [done|]. intros w' E Hy. split; [|intros Hal; destruct (Hc Hal); split; [done|by apply Hy]].
      intros Hpos Hnil. pose proof (as_le _ _ Hb). destruct (l !! 0%nat) as [m0|] eqn:E0; [|apply lookup_ge_None in E0; lia].
      destruct (as_marked _ _ Hb m0) as [x Hx]; [apply list_elem_of_lookup; exists 0%nat; by apply lookup_take_Some|].
      rewrite Em in Hx. cbn in Hx. apply elem_of_map_to_list in Hx. apply map_eq_nil in Hnil. rewrite Hnil in Hx. by apply not_elem_of_nil in Hx.
    - intros Hca. destruct (Hc (ca_alone Hca)) as [_ Eb], (Hp Hca) as (b1 & E1 & [x Hx]). rewrite Eb in E1. injection E1 as <-. congruence. }
  intros k1 applied w1 Hk1 Hs1 [Hne Hse]. eapply (spec_bind _ h k1 _ _ w1 (fun k' _ w' => alone -> (0 < k < length l)%nat -> bytes_at h k w -> backed_up h k w')).
  { destruct applied as [|n applied].
    - apply spec_ret; [done|]. intros Hal Hpos. destruct (Hse Hal) as [-> _]. by destruct (Hne ltac:(lia)).
    - apply spec_wrap. eapply spec_mono; [by apply backup_spec|]. cbn. intros k2 _ w2 _ _ [_ Hy] Hal _ Hby.
      destruct (Hse Hal) as [-> Hy1]. by apply Hy, Hy1. }
  intros k2 [] w2 Hk2 Hs2 Hbk. pose proof (migrated_spec h k2 w2 Hf ltac:(by rewrite Hd) Hs2) as Hm. unfold spec in *.
  destruct (migrated h w2) as [[e|[]] w3]; destruct Hm as (Hu & k3 & Hk3 & Hs3 & HQ).
  - split; [by apply untouched_beside|]. by exists k3.
  - split; [by apply untouched_beside|]. exists k3. split_and!; [done..|]. intros Hal Hpos Hby.
    destruct (Hbk Hal Hpos Hby) as (b & E & Hb). exists b. by rewrite (Hu (copy_of h) I (copy_apart h)).
Qed.

Definition place (d : dialect) (dsn : string) : Handle := mkHandle d (match d with SQLite => file_of dsn | Postgres => dsn end).
Definition lands (h : Handle) (k : nat) (w : World) : Prop := exists k', (k <= k')%nat /\ found h k' w.
Definition is_backup_of (d : dialect) (h h' : Handle) : Prop := d = SQLite /\ h' = copy_of h.

(** A visit, then what the program does to the database that it reached. *)
Lemma visit_then {A B} K h k (m : Act A) (f : A -> Act B) w Q Q' :
  visit K h k m w Q ->
  (forall a w1, (ha_Dialect h = SQLite -> bytes_at h k w -> bytes_at h k w1) -> Q a w1 -> spec K h k (f a) w1 Q') ->
  let '(r, w') := (m ≫= f) w in untouched K h w w' /\ lands h k w' /\
    match r with inl _ => ~ calm | inr a => exists k', (k <= k')%nat /\ stands h k' w' /\ Q' k' a w' end.
Proof.
  intros Hv Hf. unfold visit, spec, mbind, Act_bind in *. destruct (m w) as [[e|a] w1]; destruct Hv as (Hu & Hs & Hy & HQ).
  - split_and!; [done|by exists k|done].
  - specialize (Hf a w1 Hy HQ). destruct (f a w1) as [r w2]. destruct Hf as (Hu2 & k2 & Hk2 & Hs2 & HQ2).
    split_and!; [by eapply untouched_preorder| |].
    + exists k2. split; [done|by left].
    + destruct r; [done|]. exists k2. by split_and!.
Qed.
Abbreviation reached h k := (fun db w' => db = h /\ stands h k w').
Lemma mret_visit K h k w : stands h k w -> visit K h k (mret h) w (reached h k).
Proof. intros Hs. split_and!; [done|by left|done..]. Qed.
Lemma OpenSQLite_spec dbPath k w : let h := place SQLite (sqliteDSN dbPath) in
  file_of (sqliteDSN dbPath) = dbPath -> forward -> loadMigrations SQLite = inr l -> found h k w ->
  let '(r, w') := OpenSQLite dbPath w in untouched (beside h) h w w' /\ lands h k w' /\
    match r with
    | inl _ => ~ calm
    | inr s => s = mkOpened h ("sqlite " +:+ dbPath) /\ stands h (length l) w' /\
        (alone -> (0 < k < length l)%nat -> bytes_at h k w -> backed_up h k w')
    end.
Proof.
  intros h Hfile Hf Hl Hs. assert (ha_Place h = dbPath) as Hp by exact Hfile.
  assert (let '(r, w') := OpenSQLite dbPath w in untouched (beside h) h w w' /\ lands h k w' /\
    match r with inl _ => ~ calm | inr s => exists k', (k <= k')%nat /\ stands h k' w' /\ s = mkOpened h ("sqlite " +:+ dbPath) /\ k' = length l /\
      (alone -> (0 < k < length l)%nat -> bytes_at h k w -> backed_up h k w') end) as Ht.
  { apply (visit_then (beside h) h k (connectSQLite dbPath) _ w (reached h k)
      (fun k' s w' => s = mkOpened h ("sqlite " +:+ dbPath) /\ k' = length l /\ (alone -> (0 < k < length l)%nat -> bytes_at h k w -> backed_up h k w'))).
  - unfold connectSQLite. eapply visit_bind; [by apply visit_wrap, MkdirAll_visit|]. intros [] w1 Hs1 _.
    apply connect_visit; [done..|]. by apply mret_visit.
  - intros db w1 Hy [-> Hs1]. eapply spec_bind; [apply spec_closing|].
    { eapply spec_bind; [by apply spec_wrap, (pending_spec _ h k w1)|]. intros k2 pending w2 Hk2 Hs2 (i & Hi & -> & Hpr & Hse).
      replace (upgrade h dbPath) with (upgrade h (ha_Place h)) by (by rewrite Hp). eapply spec_mono.
      { apply (upgrade_spec h i k2 w2); [done..|lia|done|]. intros Hal. by destruct (Hse Hal) as [-> [-> _]]. }
      cbn. intros k3 [] w3 _ Hs3 [-> Hbk]. instantiate (1 := fun k' _ w' => k' = length l /\ (alone -> (0 < k < length l)%nat -> bytes_at h k w -> backed_up h k w')).
      split; [done|]. intros Hal Hpos Hby. destruct (Hse Hal) as (_ & -> & Hy2). apply Hbk; [done..|]. by apply Hy2, Hy. }
    intros k3 [] w3 _ Hs3 [-> Hbk]. by apply spec_ret.
  }
  destruct (OpenSQLite dbPath w) as [r w']. destruct Ht as (Hu & Hln & Hr). split_and!; [done..|].
  destruct r as [e|s]; [done|]. destruct Hr as (k' & Hk' & Hs' & -> & -> & Hbk). done.
Qed.

(** *** PostgreSQL, and the database of a configuration *)

Lemma inspect_spec dsn k w : let h := place Postgres dsn in
  forward -> loadMigrations Postgres = inr l -> stands h k w ->
  let '(r, w') := inspect dsn w in untouched anywhere h w w' /\ lands h k w' /\
    match r with
    | inl _ => ~ calm
    | inr (db, pending) => db = h /\ exists i k', (k <= i <= k')%nat /\ stands h k' w' /\ pending = list.drop i l /\ (alone -> i = k)
    end.
Proof.
  intros h Hf Hl Hs.
  assert (let '(r, w') := inspect dsn w in untouched anywhere h w w' /\ lands h k w' /\
    match r with inl _ => ~ calm | inr x => exists k', (k <= k')%nat /\ stands h k' w' /\
      x.1 = h /\ exists i, (k <= i <= k')%nat /\ x.2 = list.drop i l /\ (alone -> i = k) end) as Ht.
  { apply (visit_then anywhere h k (connectPostgres dsn) _ w (reached h k)
      (fun k' x w' => x.1 = h /\ exists i, (k <= i <= k')%nat /\ x.2 = list.drop i l /\ (alone -> i = k))).
    - apply connect_visit; [done|by left|]. by apply mret_visit.
    - intros db w1 _ [-> Hs1]. eapply spec_bind; [by apply spec_closing, spec_wrap, (pending_spec _ h k w1)|].
      intros k2 pending w2 Hk2 Hs2 (i & Hi & -> & _ & Hse). apply spec_ret; [done|]. split; [done|]. exists i. split_and!; [lia..|done|].
      intros Hal. by destruct (Hse Hal). }
  destruct (inspect dsn w) as [[e|[db pending]] w']; [done|]. destruct Ht as (Hu & Hln & k' & Hk' & Hs' & Hdb & i & Hi & Hp & Hal).
  split_and!; [done..|]. exists i, k'. split; [lia|]. by split_and!.
Qed.
Lemma OpenPostgres_spec dsn k w : let h := place Postgres dsn in
  forward -> loadMigrations Postgres = inr l -> stands h k w ->
  let '(r, w') := OpenPostgres dsn w in untouched anywhere h w w' /\ lands h k w' /\
    match r with
    | inl (Failed _) => ~ calm
    | inl (Behind n) => (0 < n <= length l - k)%nat /\ (alone -> n = length l - k)%nat
    | inr s => s = mkOpened h ("postgres " +:+ RedactDSN dsn) /\ stands h (length l) w'
    end.
Proof.
  intros h Hf Hl Hs. pose proof (inspect_spec dsn k w Hf Hl Hs) as Hi. unfold OpenPostgres. destruct (inspect dsn w) as [[e|[db pending]] w1]; [done|].
  destruct Hi as (Hu & Hln & -> & i & k' & Hik & Hs1 & -> & Hal). pose proof Hs1 as (b & E & Hb). pose proof (as_le _ _ Hb).
  destruct (list.drop i l) as [|m ms] eqn:Ed; apply (f_equal length) in Ed; rewrite length_drop in Ed; cbn in Ed.
  - split_and!; [done..|]. by replace (length l) with k' by lia.
  - destruct (close_stands anywhere _ k' w1 Hs1) as [Hc Hs2]. split_and!; [by eapply untouched_preorder| |cbn; lia|cbn; lia|].
    + exists k'. split; [lia|by left].
    + intros Hal'. rewrite (Hal Hal') in Ed. cbn. lia.
Qed.

Definition named (cfg : Config) (d : dialect) (h : Handle) : Prop :=
  exists dsn, resolve cfg = inr (d, dsn) /\ match d with SQLite => file_of (sqliteDSN dsn) = dsn /\ h = place SQLite (sqliteDSN dsn) | Postgres => h = place Postgres dsn end.

(** A database is never used behind the program. Whatever the calls to it meet and
    whatever other processes do meanwhile, so long as they too only take it forward,
    opening the database that a configuration names leaves it at the step it stood or
    later, and no other database is changed, a copy next to a SQLite file apart. A store
    that comes out is on that database, at the last step, and is described as the
    configuration is; a SQLite file that held history before an upgrade was copied as
    it stood. PostgreSQL is refused as behind only when scripts are missing. Any
    other refusal has a failure behind it. *)
Theorem opened_is_current cfg d h k w : named cfg d h -> forward -> loadMigrations d = inr l -> found h k w ->
  let '(r, w') := Open cfg w in
  lands h k w' /\ (forall h', h' <> h -> ~ is_backup_of d h h' -> seen h' w' = seen h' w) /\
  match r with
  | inr s => op_Handle s = h /\ op_Describe s = DescribeConfig cfg /\ stands h (length l) w' /\
      (d = SQLite -> alone -> (0 < k < length l)%nat -> bytes_at h k w -> backed_up h k w')
  | inl (Behind n) => d = Postgres /\ (0 < n <= length l - k)%nat /\ (alone -> n = length l - k)%nat
  | inl (Failed _) => ~ calm
  end.
Proof.
  intros (dsn & Er & Hd) Hf Hl Hs. unfold Open, DescribeConfig. rewrite Er. destruct d.
  - destruct Hd as [Hfile ->]. pose proof (OpenSQLite_spec dsn k w Hfile Hf Hl Hs) as Ho. destruct (OpenSQLite dsn w) as [[e|s] w1]; destruct Ho as (Hu & Hln & Ho).
    + split_and!; [done| |done]. intros h' Hne Hb. apply Hu; [|done]. intros ->. by apply Hb.
    + destruct Ho as (-> & Hst & Hbk). split_and!; [done| |done..|by intros _]. intros h' Hne Hb. apply Hu; [|done]. intros ->. by apply Hb.
  - subst h. destruct Hs as [Hs|[? _]]; [|done]. pose proof (OpenPostgres_spec dsn k w Hf Hl Hs) as Ho.
    destruct (OpenPostgres dsn w) as [[[n|e]|s] w1]; destruct Ho as (Hu & Hln & Ho); (split_and!; [done|intros h' Hne _; by apply Hu|..]); try done; try apply Ho.
    all: destruct Ho as [-> ?]; done.
Qed.

(** Migrating acts on the database that opening uses, and on no other. It answers the
    numbers of successive scripts, all carried out and recorded once each and in their
    order; without an error the database is at the last step; when nothing fails there
    is no error, and the scripts it answers are exactly the missing ones. *)
Theorem migrated_in_order cfg d h k w : named cfg d h -> forward -> loadMigrations d = inr l -> found h k w ->
  let '(applied, err, w') := Migrate cfg w in
  lands h k w' /\ (forall h', h' <> h -> seen h' w' = seen h' w) /\
  (exists i rest, (k <= i)%nat /\ numbers (list.drop i l) = applied ++ rest /\ lands h (i + length applied) w' /\ (calm -> i = k /\ rest = [])) /\
  (err = None -> stands h (length l) w') /\ (calm -> err = None).
Proof.
  intros (dsn & Er & Hd) Hf Hl Hs. unfold Migrate. rewrite Er.
  assert (visit anywhere h k (reach d dsn) w (reached h k)) as Hv.
  { unfold reach. destruct d; [destruct Hd as [Hfile ->]|subst h].
    - eapply visit_bind; [by apply visit_wrap, MkdirAll_visit|]. intros [] w1 Hs1 _. apply connect_visit; [done..|]. by apply mret_visit.
    - eapply visit_bind; [instantiate (1 := fun _ _ => True); by split_and!|]. intros [] w1 Hs1 _. apply connect_visit; [done..|]. by apply mret_visit. }
  assert (ha_Dialect h = d) as Hdh by (destruct d; [by destruct Hd as [_ ->]|by subst]).
  unfold visit in Hv. destruct (reach d dsn w) as [[e|db] w1]; destruct Hv as (Hu & Hs1 & _ & HQ).
  - split_and!; [by exists k|intros h' Hne; by apply Hu| |done|by intros Hc; destruct (HQ Hc)].
    exists k, (numbers (list.drop k l)). split_and!; [done..|exists k; cbn; by rewrite Nat.add_0_r|by intros Hc; destruct (HQ Hc)].
  - destruct HQ as [-> Hst]. pose proof (applyMigrations_spec anywhere h k w1 Hf ltac:(by rewrite Hdh) Hst) as Hm.
    destruct (applyMigrations h w1) as [[applied err] w2]. destruct Hm as (i & Hi & Hci & Hm).
    pose proof (migration_complete anywhere h i k w1 applied w2) as Hlast. destruct Hm as [Hu2 (k' & Hk' & Hl' & Hs2) (rest & En & Hr) Hca] eqn:Hm'.
    destruct (close_stands anywhere h k' w2 Hs2) as [Hc Hs3]. split_and!.
    + exists k'. split; [done|by left].
    + intros h' Hne. rewrite (Hc h' I Hne), (Hu2 h' I Hne). by apply Hu.
    + exists i, rest. split_and!; [done..|exists k'; split; [done|by left]|]. intros Hcalm. split; [by apply Hci|by apply Hr, Hca].
    + intros ->. apply (close_stands anywhere). by apply Hlast.
    + done.
Qed.
End Steps.

(** *** Opening changes no schema of a server *)

Definition same_schema (w w' : World) : Prop := forall dsn, ba_Schema <$> wo_Servers w' !! dsn = ba_Schema <$> wo_Servers w !! dsn.
Lemma put_same h b b' w : seen h w = Some b -> ba_Schema b' = ba_Schema b -> same_schema w (put h b' w).
Proof.
  unfold seen, put. intros E Es dsn. destruct (ha_Dialect h); [done|]. cbn. destruct (decide (dsn = ha_Place h)) as [->|Hne].
  - by rewrite lookup_insert_eq, E; cbn; rewrite Es.
  - by rewrite lookup_insert_ne.
Qed.
Lemma bind_same {A B} (m : Act A) (f : A -> Act B) w : same_schema w (m w).2 -> (forall a w', same_schema w' (f a w').2) -> same_schema w ((m ≫= f) w).2.
Proof.
  unfold mbind, Act_bind. intros Hm Hf. destruct (m w) as [[e|a] w1]; [done|]. intros h. etransitivity; [apply Hf|apply Hm].
Qed.
Lemma wrap_same {A} g (m : Act A) w : same_schema w (m w).2 -> same_schema w (wrap g m w).2.
Proof. unfold wrap. by destruct (m w) as [[e|a] w1]. Qed.
Lemma Close_same h w : same_schema w (Close h w).
Proof. unfold Close. destruct (seen h w) as [b|] eqn:E; [by eapply put_same|done]. Qed.
Lemma closing_same {A} h (m : Act A) w : same_schema w (m w).2 -> same_schema w (closing h m w).2.
Proof. unfold closing. destruct (m w) as [[e|a] w1]; [|done]. intros Hs h'. etransitivity; [apply Close_same|apply Hs]. Qed.
Lemma attempted_same {A} (effect : Act A) w : same_schema w (effect (ticked w)).2 -> same_schema w (attempted effect w).2.
Proof. unfold attempted. by destruct (fate _). Qed.
Lemma statement_same {A} h (f : Base -> error + A * Base) w : (forall n b, others n b = b) ->
  (forall b a b', f b = inr (a, b') -> ba_Schema b' = ba_Schema b) -> same_schema w (statement h f w).2.
Proof.
  intros Ha Hf. apply bind_same.
  - unfold meanwhile. cbn. destruct (seen h w) as [b|] eqn:E; [|done]. rewrite Ha. by eapply put_same.
  - intros [] w1. apply attempted_same. cbn. change (seen h (ticked w1)) with (seen h w1). destruct (seen h w1) as [b|] eqn:E; [|done].
    destruct (f b) as [e|[a b']] eqn:Eb; [done|]. apply (put_same h b b' (ticked w1)); [done|]. by eapply Hf.
Qed.
(** Opening a PostgreSQL database runs no script on it or on any other, whatever fails:
    it is migrated by [Migrate] alone. *)
Theorem postgres_left_alone dsn w : (forall n b, others n b = b) -> same_schema w (OpenPostgres dsn w).2.
Proof.
  intros Ha. assert (same_schema w (inspect dsn w).2) as Hi.
  { unfold inspect. apply bind_same; [|intros db w1; apply bind_same; [apply closing_same, wrap_same|done]].
    - unfold connectPostgres. apply bind_same; [by apply wrap_same, attempted_same|]. intros db w1. apply bind_same; [|done].
      apply closing_same, wrap_same, attempted_same. destruct (seen _ _) eqn:E; [done|]. destruct (ha_Dialect db) eqn:Ed; [|done]. unfold put. by rewrite Ed.
    - unfold pendingMigrations. apply bind_same; [|intros [] w2; apply bind_same; [done|intros all w3; apply bind_same; [|done]]].
      + apply statement_same; [done|]. by intros b [] b' [= <-].
      + apply statement_same; [done|]. intros b a b'. destruct (ba_Marks b); [|done]. by intros [= _ <-]. }
  unfold OpenPostgres. destruct (inspect dsn w) as [[e|[db [|m pending]]] w1]; [done..|]. cbn in *. intros h. etransitivity; [apply Close_same|apply Hi].
Qed.

(** ** Connection strings *)

(** A driver that quotes the password alone: it is scrubbed, unless a password made of
    the letters that replace it could come back. *)
Theorem password_scrubbed dsn err pw : dsnPassword dsn = Some pw -> Contains (render (Error err)) dsn = false ->
  existsb_char (Ascii.eqb "x") pw = false -> Contains (render (Error (redactDSNError dsn err))) pw = false.
Proof.
  intros Hp Hd Hx. unfold redactDSNError. destruct (nonempty dsn) eqn:Hn.
  - cbn [negb]. rewrite Hd, Hp. cbn [negb]. destruct (Contains (render (Error err)) pw) eqn:Ec; [|done].
    cbn [Error render]. unfold ReplaceAll. change "xxxxx" with (String "x" ("xxx" +:+ String "x" "")). apply hide_clean; [|lia].
    unfold dsnPassword in Hp. destruct (url_Password dsn) as [p|]; [|done]. cbn in Hp. destruct (nonempty p) eqn:Hpn; [|done]. injection Hp as ->.
    split; [by apply nonempty_spec|done|done|]. destruct pw as [|c pw]; [done|]. cbn [existsb_char] in Hx. apply orb_false_iff in Hx as [Hx _].
    assert (c <> "x"%char) as Hc by (intros ->; by rewrite Ascii.eqb_refl in Hx). cbn. by destruct (ascii_dec c "x").
  - exfalso. assert (dsn = "") as -> by (destruct dsn; done). by destruct (render (Error err)).
Qed.
End Databases.

(** ** Placeholders *)

(** The text between the placeholders of a query: the question marks outside of its
    literals. *)
Definition onto (c : ascii) (l : list string) : list string := match l with [] => [] | s :: l => String c s :: l end.
Fixpoint pieces (inLiteral : bool) (query : string) : list string :=
  match query with
  | EmptyString => [""]
  | String c query =>
    if Ascii.eqb c quote then onto c (pieces (negb inLiteral) query)
    else if Ascii.eqb c "?" && negb inLiteral then "" :: pieces inLiteral query
    else onto c (pieces inLiteral query)
  end.
Fixpoint numbered (n : Z) (l : list string) : string :=
  match l with
  | [] => ""
  | [s] => s
  | s :: l => s +:+ String "$" (pretty n +:+ numbered (n + 1) l)
  end.
Lemma pieces_some b q : pieces b q <> [].
Proof.
  revert b. induction q as [|c q IH]; intros b; [done|]. cbn. destruct (Ascii.eqb c quote); [specialize (IH (negb b)); by destruct (pieces _ q)|].
  destruct (_ && _); [done|]. specialize (IH b). by destruct (pieces _ q).
Qed.
Lemma Join_onto sep c l : l <> [] -> Join sep (onto c l) = String c (Join sep l).
Proof. by destruct l as [|s [|t l]]. Qed.
Lemma Join_first sep l : l <> [] -> Join sep ("" :: l) = sep +:+ Join sep l.
Proof. by destruct l as [|s l]. Qed.
Lemma numbered_onto n c l : l <> [] -> numbered n (onto c l) = String c (numbered n l).
Proof. by destruct l as [|s [|t l]]. Qed.
(** What [rebind] makes of a query: SQLite takes it as it is; for PostgreSQL the
    placeholders are numbered from 1 in their order, and all the rest is kept. *)
Theorem rebind_spec q : q = Join "?" (pieces false q) /\ rebind SQLite q = q /\ rebind Postgres q = numbered 1 (pieces false q).
Proof.
  split_and!; [|done|].
  - assert (forall b, q = Join "?" (pieces b q)) as Hq; [|apply Hq]. induction q as [|c q IH]; intros b; [done|]. cbn [pieces]. destruct (Ascii.eqb c quote); [rewrite Join_onto by apply pieces_some; by rewrite <- IH|].
    destruct (Ascii.eqb c "?" && negb b) eqn:Eq.
    + apply andb_true_iff in Eq as [->%Ascii.eqb_eq _]. rewrite Join_first by apply pieces_some. by rewrite <- IH.
    + rewrite Join_onto by apply pieces_some. by rewrite <- IH.
  - assert (forall n b, rebind_from n b q = numbered (n + 1) (pieces b q)) as Hq; [|apply (Hq 0)]. induction q as [|c q IH]; intros n b; [done|]. cbn [rebind_from pieces].
    destruct (Ascii.eqb c quote); [rewrite numbered_onto by apply pieces_some; by rewrite IH|].
    destruct (Ascii.eqb c "?" && negb b) eqn:Eq; [|rewrite numbered_onto by apply pieces_some; by rewrite IH].
    rewrite IH. destruct (pieces b q) as [|s l] eqn:Ep; [by destruct (pieces_some b q)|]. done.
Qed.
Example insert_rebound : rebind Postgres insert_query = "INSERT INTO schema_migrations (number, name, applied_at) VALUES ($1, $2, $3)".
Proof. reflexivity. Qed.
Example literal_kept : rebind Postgres "SELECT '?' WHERE a = ?" = "SELECT '?' WHERE a = $1".
Proof. reflexivity. Qed.

(** ** The scripts of the program *)

Definition script_names : list string :=
  ["0001_runs"; "0002_api_tokens"; "0003_queue"; "0004_plans"; "0005_sessions"; "0006_schedule"; "0007_proof"; "0008_notify"; "0009_values"].
(** The directories of migrations/, which hold the same names for both engines, with
    the text of each script. *)
Definition embedded (body : string -> string) : Embedded := {|
  ReadDir dir := if bool_decide (dir ∈ ["migrations/sqlite"; "migrations/postgres"]) then inr (map (fun n => (n +:+ ".sql", false)) script_names)
    else inl (ENew (Lit "file does not exist"));
  ReadFile path := inr (body path) |}.
Definition script (body : string -> string) (d : dialect) (number : Z) (name : string) : Migration :=
  mkMigration number name (body (directory d +:+ "/" +:+ "000" +:+ pretty number +:+ "_" +:+ name +:+ ".sql")).
(** Both engines have the same nine scripts, numbered from 1 in their order. *)
Lemma scripts_loaded body d : loadMigrations (H := embedded body) d = inr
  [script body d 1 "runs"; script body d 2 "api_tokens"; script body d 3 "queue"; script body d 4 "plans"; script body d 5 "sessions";
   script body d 6 "schedule"; script body d 7 "proof"; script body d 8 "notify"; script body d 9 "values"].
Proof. by destruct d; vm_compute. Qed.

(** A world where nothing fails: an engine that lists the scripts it ran. *)
Module Quiet.
#[export] Instance files : Embedded := embedded (fun path => path).
#[export] Instance lists : SqlEngine (list string) := {| blank := []; run_script s l := Some (l ++ [s]) |}.
#[export] Instance quiet : Surroundings (list string) := {|
  fate _ := Carried; others _ b := b; checkpoint _ := false; now_at _ := 63850000000 * 1000000000;
  unreachable _ := ENew (Lit "connection refused"); refused_by q := ENew (Sprintf "refused: %s" [AStr q]);
  file_of dsn := match Cut "?" dsn with Some (path, _) => path | None => dsn end;
  url_Redacted _ := Some "postgres://lab:xxxxx@db/restorelab"; url_Password _ := Some "s3cret" |}.
Definition server : string := "postgres://lab:s3cret@db/restorelab".
Definition empty_server : World (list string) := mkWorld ∅ {[server := new_base]} 0.
Definition nowhere : World (list string) := mkWorld ∅ ∅ 0.

(** A new PostgreSQL database is refused until it was migrated; then it is opened. *)
Example behind_then_current :
  let cfg := mkConfig server "" in
  (Open cfg empty_server).1 = inl (Behind 9) /\
  let '(applied, err, w) := Migrate cfg empty_server in
  applied = [1; 2; 3; 4; 5; 6; 7; 8; 9] /\ err = None /\ (Open cfg w).1 = inr (mkOpened (place Postgres server) (DescribeConfig cfg)) /\
  (Migrate cfg w).1 = ([], None).
Proof. vm_compute. done. Qed.
(** A SQLite file is made and brought up to date by being opened, and not copied. *)
Example made_on_the_spot :
  let cfg := mkConfig "" "/home/op/.restorelab/history.db" in
  let '(r, w) := Open cfg nowhere in
  r = inr (mkOpened (place SQLite (sqliteDSN (cf_DefaultPath cfg))) "sqlite /home/op/.restorelab/history.db") /\
  (length ∘ ba_Schema <$> seen (place SQLite (sqliteDSN (cf_DefaultPath cfg))) w) = Some 9%nat /\
  wo_Files w !! "/home/op/.restorelab/history.db.bak" = None.
Proof. vm_compute. done. Qed.

(** What the file has in its write-ahead log is not in the copy made before an upgrade:
    the bytes of the file are read on their own. *)
Definition at_eight : Base (list string) :=
  mkBase ["1"; "2"; "3"; "4"; "5"; "6"; "7"; "8"] (Some (list_to_map (map (fun n => (n, ("", ""))) [1; 2; 3; 4; 5; 6; 7; 8]))).
Example log_not_copied :
  let w := mkWorld {["h.db" := mkFile at_eight new_base]} ∅ 0 in
  let '(r, w') := Open (mkConfig "sqlite://h.db" "") w in
  r = inr (mkOpened (mkHandle SQLite "h.db") "sqlite h.db") /\ wo_Files w' !! "h.db.bak" = Some (mkFile new_base new_base).
Proof. vm_compute. done. Qed.
(** A parameter after the name of the file becomes part of the name: there is nothing to
    copy under it, and the upgrade goes on without a copy. *)
Example parameter_uncopied :
  let w := mkWorld {["h.db" := mkFile at_eight at_eight]} ∅ 0 in
  let '(r, w') := Open (mkConfig "sqlite://h.db?mode=rwc" "") w in
  r = inr (mkOpened (mkHandle SQLite "h.db") "sqlite h.db?mode=rwc") /\ (ba_Schema <$> seen (mkHandle SQLite "h.db") w' <> Some (ba_Schema at_eight)) /\
  dom (wo_Files w') = {["h.db"]}.
Proof. vm_compute. split_and!; [done|by intros|done]. Qed.
(** A message that holds the whole connection string and, elsewhere, the password alone:
    only the first is scrubbed. *)
Example password_left :
  Contains (render (Error (redactDSNError server (ENew (Lit ("cannot use " +:+ server +:+ ": password s3cret rejected")))))) "s3cret" = true.
Proof. reflexivity. Qed.
End Quiet.
