(* ===== verification/Conformance.v ===== *)
(** * The conformance suite: runs and their history

    Models internal/store/conformance.go, conformance_timeline.go,
    conformance_last_runs.go and conformance_temp_workload.go: the tests that are run
    against every engine, as programs over the interface [Store] that note failures as
    package testing does. [ConformanceQueue] holds the rest of the suite and runs all of
    it. *)

From Stdlib Require Import ZArith Lia String Ascii List.
From S2P Require Import Prelude GoTime GoFloat Core GoString Timestamp Queue Listing Timeline Catalog Story Deliveries Credentials Store.

(** ** What the suite uses of package testing *)

(** An engine that can be tested ([OpenFunc]): a fresh store, its calls, and its tables
    when they can be reached directly. *)
Class Engine (S : Type) := {
  open_ : S;
  do_ : forall A, Store A -> Call S A;
  tables_ : option ((S -> Database) * (Database -> S -> S));
}.

(** A test: the store it was given and what it noted. It stops at a fatal failure, or
    when it is skipped. *)
Record Test (S : Type) := mkTest { te_store : S; te_failed : list string }.
Arguments mkTest {S}.
Arguments te_store {S}.
Arguments te_failed {S}.
Definition T (S A : Type) : Type := Test S -> option A * Test S.
#[export] Instance T_ret {S} : MRet (T S) := fun A a t => (Some a, t).
#[export] Instance T_bind {S} : MBind (T S) := fun A B k m t =>
  match m t with (Some a, t) => k a t | (None, t) => (None, t) end.

Section Testing.
Context {S : Type} `{Engine S}.
Abbreviation T := (T S).

Definition errorf (message : string) : T unit := fun t => (Some tt, mkTest (te_store t) (te_failed t ++ [message])).
Definition fatalf {A} (message : string) : T A := fun t => (None, mkTest (te_store t) (te_failed t ++ [message])).
Definition skip {A} : T A := fun t => (None, t).
(** [if wrong { t.Errorf(...) }], and with [Fatalf]. *)
Definition check (wrong : bool) (message : string) : T unit := if wrong then errorf message else mret tt.
Definition require (wrong : bool) (message : string) : T unit := if wrong then fatalf message else mret tt.
Definition call {A} (c : Store A) : T (failure + A) := fun t =>
  let '(r, s) := do_ A c (te_store t) in (Some r, mkTest s (te_failed t)).
(** [if err != nil { t.Fatalf(...) }], and a call whose error is expected. *)
Definition must {A} (what : string) (c : Store A) : T A :=
  r ← call c; match r with inr a => mret a | inl _ => fatalf what end.
Definition expect {A} (sort : sentinel) (what : string) (c : Store A) : T unit :=
  r ← call c; match r with inl e => require (negb (errors_Is e sort)) what | inr _ => fatalf what end.
Definition fails {A} (what : string) (c : Store A) : T unit :=
  r ← call c; match r with inl _ => mret tt | inr _ => fatalf what end.
(** [l\[i\]], which panics out of range. *)
Definition nth_ {A} (l : list A) (i : nat) : T A := match l !! i with Some a => mret a | None => fatalf "index out of range" end.
Fixpoint each {A} (i : Z) (l : list A) (body : Z -> A -> T unit) : T unit :=
  match l with [] => mret tt | x :: l => _ ← body i x; each (i + 1) l body end.

(** The goroutines that are still running, each a number: at every turn the scheduler
    picks one, which makes its next call and says whether it goes on. *)
Fixpoint goroutines {A} (turns : nat) (pick : nat -> nat) (body : nat -> A -> T (bool * A)) (active : list nat) (shared : A) : T A :=
  match active with
  | [] => mret shared
  | _ =>
    match turns with
    | O => fatalf "the goroutines did not end"
    | Datatypes.S turns =>
      let i := nth (Nat.modulo (pick turns) (length active)) active O in
      '(more, shared) ← body i shared;
      goroutines turns pick body (if more : bool then active else List.filter (fun j => negb (j =? i)%nat) active) shared
    end
  end.

(** What a test noted; and a suite of named tests, each on its own store. *)
Definition failures_of (body : T unit) : list string := te_failed (body (mkTest open_ [])).2.
Definition suite : Type := list (string * T unit).
Definition failures (l : suite) : list (string * list string) :=
  List.filter (fun x => negb (bool_decide (x.2 = []))) (map (fun x => (x.1, failures_of x.2)) l).
End Testing.

Definition Date (y m d hour min sec nsec : Z) : Z :=
  days_of y m d * Time.day_ns + hour * Duration.Hour + min * Duration.Minute + sec * Duration.Second + nsec.
Definition set_SourceWorkloadID (v : string) (r : RecoveryRun) : RecoveryRun :=
  mkRecoveryRun (run_ID r) (run_PlanName r) (run_PlanID r) (run_PlanVersion r) (run_ProviderID r) (run_BackupProviderID r)
    v (run_SourceName r) (run_TempWorkloadID r) (run_TempName r) (run_Node r) (run_Backup r) (run_State r) (run_Result r)
    (run_ProofLevel r) (run_StartedAt r) (run_CompletedAt r) (run_Steps r) (run_Checks r) (run_RTO r) (run_RTOTarget r)
    (run_CleanupDone r) (run_Err r).
Definition set_StartedAt (v : Z) (r : RecoveryRun) : RecoveryRun :=
  mkRecoveryRun (run_ID r) (run_PlanName r) (run_PlanID r) (run_PlanVersion r) (run_ProviderID r) (run_BackupProviderID r)
    (run_SourceWorkloadID r) (run_SourceName r) (run_TempWorkloadID r) (run_TempName r) (run_Node r) (run_Backup r) (run_State r) (run_Result r)
    (run_ProofLevel r) v (run_CompletedAt r) (run_Steps r) (run_Checks r) (run_RTO r) (run_RTOTarget r)
    (run_CleanupDone r) (run_Err r).
Definition zero_summary : RunSummary := mkRunSummary "" "" "" "" "" RunStateEmpty ResultNone Time.zero Time.zero 0 0 false ProofUnknown.
Definition says (t : text) (s : string) : bool := match t with Lit x => bool_decide (x = s) | _ => false end.
Abbreviation differ x y := (negb (bool_decide (x = y))).

Definition nl : string := String "010" "".
Definition nameX : string := "name: x" +:+ nl.

(** [sampleRun], [samplePlan] (conformance_plans.go) and [queuedRun]
    (conformance_queue.go). *)
Definition sampleRun (id : string) : RecoveryRun :=
  let started := Date 2026 9 1 10 0 0 123456789 in
  {| run_ID := id; run_PlanName := "adhoc-110"; run_PlanID := ""; run_PlanVersion := 0; run_ProviderID := "proxmox-main";
     run_BackupProviderID := "proxmox-main"; run_SourceWorkloadID := "110"; run_SourceName := "linux-test";
     run_TempWorkloadID := "9001"; run_TempName := "restorelab-110-20260901"; run_Node := "pve1"; run_Backup := None;
     run_State := RunSuccess; run_Result := ResultSuccess; run_ProofLevel := ProofService;
     run_StartedAt := started; run_CompletedAt := Time.Add started (28 * Duration.Second); run_Steps := []; run_Checks := [];
     run_RTO := 28 * Duration.Second; run_RTOTarget := 5 * Duration.Minute; run_CleanupDone := true; run_Err := Lit "" |}.
Definition samplePlan (id name : string) : StoredPlan :=
  let at_ := Date 2026 9 1 10 0 0 123456789 in
  mkStoredPlan id name "the web tier, restored nightly" "110" "proxmox-main"
    ("# written by a human" +:+ nl +:+ "name: " +:+ name +:+ nl) 1 at_ at_.
Definition queuedRun (id workloadID : string) : RecoveryRun :=
  {| run_ID := id; run_PlanName := "adhoc-" +:+ workloadID; run_PlanID := ""; run_PlanVersion := 0; run_ProviderID := "proxmox-main";
     run_BackupProviderID := ""; run_SourceWorkloadID := workloadID; run_SourceName := ""; run_TempWorkloadID := ""; run_TempName := "";
     run_Node := ""; run_Backup := None; run_State := RunQueued; run_Result := ResultNone; run_ProofLevel := ProofUnknown;
     run_StartedAt := Time.zero; run_CompletedAt := Time.zero; run_Steps := []; run_Checks := []; run_RTO := 0; run_RTOTarget := 0;
     run_CleanupDone := false; run_Err := Lit "" |}.


Section Suites.
Context {S : Type} `{Engine S} (nowUTC : Z).
Abbreviation T := (T S).

(** ** [RunConformance] *)

Definition run_written_tests : suite (S := S) := [
  ("create then get round trips every field",
    let want := sampleRun "0aca8405-4e80-4ac9-8bdd-057a56dc0281" in
    let p := samplePlan "6b1d5a90-3c7e-4f11-8a02-9e4d7c6b5a03" "provenance-plan" in
    _ ← must "CreatePlan" (CreatePlan p);
    let want := set_PlanVersion 3 (set_PlanID (sp_ID p) want) in
    _ ← must "CreateRun" (CreateRun want ("name: adhoc-110" +:+ nl));
    got ← must "GetRun" (GetRun (run_ID want));
    _ ← check (differ (run_ID got) (run_ID want) || differ (run_PlanName got) (run_PlanName want)) "ID/PlanName";
    _ ← check (differ (run_PlanID got) (run_PlanID want) || differ (run_PlanVersion got) (run_PlanVersion want)) "provenance";
    _ ← check (differ (run_ProviderID got) (run_ProviderID want) || differ (run_BackupProviderID got) (run_BackupProviderID want)) "provider ids";
    _ ← check (differ (run_SourceWorkloadID got) (run_SourceWorkloadID want) || differ (run_SourceName got) (run_SourceName want)) "source";
    _ ← check (differ (run_TempWorkloadID got) (run_TempWorkloadID want) || differ (run_TempName got) (run_TempName want) || differ (run_Node got) (run_Node want)) "temp workload";
    _ ← check (differ (run_State got) (run_State want) || differ (run_Result got) (run_Result want)) "State/Result";
    _ ← check (differ (run_StartedAt got) (run_StartedAt want)) "StartedAt";
    _ ← check (differ (run_CompletedAt got) (run_CompletedAt want)) "CompletedAt";
    _ ← check (differ (run_RTO got) (run_RTO want) || differ (run_RTOTarget got) (run_RTOTarget want)) "RTO";
    _ ← check (negb (run_CleanupDone got)) "CleanupDone = false";
    check (differ (run_ProofLevel got) (run_ProofLevel want)) "ProofLevel");
  ("the proof level survives the listing as well as the run",
    let run := sampleRun "7c2e1f00-1111-4222-8333-944455556666" in
    _ ← must "CreateRun" (CreateRun run nameX);
    list ← must "ListRuns" (ListRuns (mkFilter (run_SourceWorkloadID run) RunStateEmpty ResultNone Time.zero 0 None false));
    _ ← require (match list with [x] => differ (sum_ProofLevel x) (run_ProofLevel run) | _ => true end) "ListRuns gave";
    last ← must "LastRuns" (LastRuns [run_SourceWorkloadID run]);
    check (differ (sum_ProofLevel (default zero_summary (last !! run_SourceWorkloadID run))) (run_ProofLevel run)) "LastRuns proof level");
  ("a run with no proof level reads back unrecorded",
    let run := set_ProofLevel ProofUnknown (sampleRun "8d3f2011-2222-4333-8444-955566667777") in
    _ ← must "CreateRun" (CreateRun run nameX);
    got ← must "GetRun" (GetRun (run_ID run));
    _ ← check (differ (run_ProofLevel got) ProofUnknown) "want it to stay unrecorded";
    check (bool_decide (run_ProofLevel got = ProofNone)) "an unrecorded level came back as NONE");
  ("update raises the proof level",
    let run := set_ProofLevel ProofNone (sampleRun "9e405122-3333-4444-8555-966677778888") in
    _ ← must "CreateRun" (CreateRun run nameX);
    let run := set_ProofLevel ProofData run in
    _ ← must "UpdateRun" (UpdateRun run);
    got ← must "GetRun" (GetRun (run_ID run));
    check (differ (run_ProofLevel got) ProofData) "want DATA")
].
Definition run_update_tests : suite (S := S) := [
  ("update overwrites mutable fields",
    let run := set_CleanupDone false (set_CompletedAt Time.zero (set_Result ResultNone (set_State RunRestoring
      (sampleRun "11111111-2222-3333-4444-555555555555")))) in
    _ ← must "CreateRun" (CreateRun run nameX);
    let run := set_CleanupDone true (set_CompletedAt (Time.Add (run_StartedAt run) Duration.Minute)
      (set_Err (Lit "restore refused by the hypervisor") (set_Result ResultFailed (set_State RunFailed run)))) in
    _ ← must "UpdateRun" (UpdateRun run);
    got ← must "GetRun" (GetRun (run_ID run));
    _ ← check (differ (run_State got) RunFailed || differ (run_Result got) ResultFailed) "want FAILED/FAILED";
    _ ← check (negb (says (run_Err got) "restore refused by the hypervisor")) "Err";
    check (negb (run_CleanupDone got)) "CleanupDone = false, want true after the update");
  ("a name discovered during the run is stored",
    let run := set_SourceName "" (sampleRun "7777dddd-0000-0000-0000-000000000000") in
    _ ← must "CreateRun" (CreateRun run nameX);
    let run := set_SourceName "linux-test" run in
    _ ← must "UpdateRun" (UpdateRun run);
    got ← must "GetRun" (GetRun (run_ID run));
    _ ← check (differ (run_SourceName got) "linux-test") "SourceName";
    listed ← must "ListRuns" (ListRuns no_filter);
    check (match listed with [x] => differ (sum_SourceName x) "linux-test" | _ => true end) "the listing lost the name");
  ("the stored backup survives",
    let backup := mkBackup "local:backup/vzdump-qemu-110-2026_09_01-00_52_46.vma.zst" "" "" "" "" (Date 2026 9 1 0 52 46 0) 353370112 false false VerificationUnknown "" "" in
    let run := set_Backup (Some backup) (sampleRun "bbbbbbbb-0000-0000-0000-000000000000") in
    _ ← must "CreateRun" (CreateRun run nameX);
    got ← must "GetRun" (GetRun (run_ID run));
    match run_Backup got with
    | None => fatalf "the backup was lost"
    | Some b => check (differ (bk_ID b) (bk_ID backup) || differ (bk_SizeBytes b) (bk_SizeBytes backup)) "backup"
    end);
  ("a run with no backup reads back with none",
    let run := set_Backup None (sampleRun "cafecafe-0000-0000-0000-000000000000") in
    _ ← must "CreateRun" (CreateRun run nameX);
    got ← must "GetRun" (GetRun (run_ID run));
    check (match run_Backup got with Some _ => true | None => false end) "want nil")
].
Definition run_lookup_tests : suite (S := S) := [
  ("a zero CompletedAt stays zero",
    let run := set_CompletedAt Time.zero (sampleRun "99999999-8888-7777-6666-555555555555") in
    _ ← must "CreateRun" (CreateRun run nameX);
    got ← must "GetRun" (GetRun (run_ID run));
    check (negb (Time.IsZero (run_CompletedAt got))) "want the zero time");
  ("get by unique prefix",
    let run := sampleRun "abcdef01-0000-0000-0000-000000000000" in
    _ ← must "CreateRun" (CreateRun run nameX);
    got ← must "GetRun by prefix" (GetRun "abcdef");
    check (differ (run_ID got) (run_ID run)) "ID");
  ("an ambiguous prefix is refused, not guessed",
    _ ← each 0 ["aaaa1111-0000-0000-0000-000000000000"; "aaaa2222-0000-0000-0000-000000000000"] (fun _ id =>
      must "CreateRun" (CreateRun (sampleRun id) nameX));
    expect IsAmbiguous "want ErrAmbiguous" (GetRun "aaaa"));
  ("an exact id wins over a prefix that also matches",
    _ ← each 0 ["abc"; "abcdef"] (fun _ id => must "CreateRun" (CreateRun (sampleRun id) nameX));
    got ← must "GetRun, want the exact match to win" (GetRun "abc");
    check (differ (run_ID got) "abc") "ID");
  ("an unknown id reports not found", expect IsNotFound "want ErrNotFound" (GetRun "nothing"))
].
Definition run_tests : suite (S := S) := run_written_tests ++ run_update_tests ++ run_lookup_tests.

(** ** [StepsAndChecksConformance] and [EventsConformance] *)

Definition newConformanceRun (id : string) : T RecoveryRun :=
  let run := sampleRun id in _ ← must "CreateRun" (CreateRun run nameX); mret run.
Definition step_of (name : string) (state : RunState) (status : StepStatus) (duration : Z) (message : string) : Step :=
  mkStep name state status Time.zero Time.zero duration (Lit message) (Lit "") ∅.
Definition says_same (a b : text) : bool := match a, b with Lit x, Lit y => bool_decide (x = y) | _, _ => false end.

Definition steps_and_checks_tests : suite (S := S) := [
  ("steps come back in order with their durations",
    run ← newConformanceRun "cccccccc-0000-0000-0000-000000000000";
    let steps := [step_of "discover_backup" RunDiscoveringBackup StepDone (445 * Duration.Millisecond) "using backup X";
                  step_of "restore" RunRestoring StepDone (4700 * Duration.Millisecond) "";
                  step_of "cleanup" RunCleaningUp StepSkipped 0 "KeepWorkload requested"] in
    _ ← each 0 steps (fun i step => must "SaveStep" (SaveStep (run_ID run) i step));
    got ← must "GetRun" (GetRun (run_ID run));
    _ ← require (differ (length (run_Steps got)) (length steps)) "got %d steps";
    each 0 steps (fun i want =>
      x ← nth_ (run_Steps got) (Z.to_nat i);
      _ ← check (differ (st_Name x) (st_Name want)) "order must be preserved";
      _ ← check (differ (st_Duration x) (st_Duration want)) "duration";
      _ ← check (differ (st_Status x) (st_Status want)) "status";
      check (negb (says_same (st_Message x) (st_Message want))) "message"));
  ("saving the same seq twice replaces it",
    run ← newConformanceRun "cccccccc-1111-0000-0000-000000000000";
    _ ← must "SaveStep running" (SaveStep (run_ID run) 0 (step_of "restore" RunRestoring StepRunning 0 ""));
    _ ← must "SaveStep done" (SaveStep (run_ID run) 0 (step_of "restore" RunRestoring StepDone Duration.Second ""));
    got ← must "GetRun" (GetRun (run_ID run));
    _ ← require (differ (length (run_Steps got)) 1%nat) "a step is upserted at its seq, not appended";
    x ← nth_ (run_Steps got) 0;
    check (differ (st_Status x) StepDone) "the second write must win");
  ("checks keep their details",
    run ← newConformanceRun "cccccccc-2222-0000-0000-000000000000";
    let zero := DNumbers {["exit_code" := S754_zero false]} in
    let result := mkCheckResult "COMMAND" "command" CheckPass Time.zero Time.zero (902 * Duration.Millisecond) 3 (Lit "exit 0, stdout active")
      (<["exit_code" := zero]> (<["argv" := DOther (Lit "/bin/sh -c systemctl is-active ssh")]> ∅)) in
    _ ← must "SaveCheck" (SaveCheck (run_ID run) 0 result);
    got ← must "GetRun" (GetRun (run_ID run));
    _ ← require (differ (length (run_Checks got)) 1%nat) "got %d checks, want 1";
    x ← nth_ (run_Checks got) 0;
    _ ← check (differ (cr_Attempts x) (cr_Attempts result)) "Attempts";
    _ ← check (differ (cr_Type x) (cr_Type result)) "Type";
    _ ← check (negb (says_same (cr_Message x) (cr_Message result))) "Message";
    check (match cr_Details x !! "exit_code" with Some (DNumbers m) => differ (m !! "exit_code") (Some (S754_zero false)) | _ => true end)
      "Details lost the exit code");
  ("a run with no timeline reads back empty, not broken",
    run ← newConformanceRun "cccccccc-3333-0000-0000-000000000000";
    got ← must "GetRun" (GetRun (run_ID run));
    require (differ (length (run_Steps got)) 0%nat || differ (length (run_Checks got)) 0%nat) "want none")
].

Definition event_of (seq at_ : Z) (state : RunState) (result : option CheckResult) : StoredEvent :=
  mkStoredEvent seq at_ state "" StepStatusEmpty (Lit "") result (Lit "").
Definition events_tests : suite (S := S) := [
  ("events come back in seq order",
    run ← newConformanceRun "dddddddd-0000-0000-0000-000000000000";
    let at_ := Date 2026 9 1 10 0 0 0 in
    _ ← each 0 [3; 1; 2] (fun _ seq =>
      must "AppendEvent" (AppendEvent (run_ID run)
        (mkStoredEvent seq (Time.Add at_ (seq * Duration.Second)) RunRestoring "restore" StepRunning (Lit "restoring") None (Lit ""))));
    got ← must "Events" (Events (run_ID run) 0);
    _ ← require (differ (length got) 3%nat) "got %d events, want 3";
    _ ← each 0 [1; 2; 3] (fun i want => x ← nth_ got (Z.to_nat i); check (differ (se_Seq x) want) "event %d has seq %d");
    x ← nth_ got 0;
    check (differ (se_Step x) "restore" || differ (se_Status x) StepRunning) "want step restore in status running");
  ("afterSeq skips what the caller already has",
    run ← newConformanceRun "eeeeeeee-0000-0000-0000-000000000000";
    _ ← each 0 [1; 2; 3; 4; 5] (fun _ seq => must "AppendEvent" (AppendEvent (run_ID run) (event_of seq nowUTC RunRestoring None)));
    got ← must "Events" (Events (run_ID run) 3);
    require (differ (map se_Seq got) [4; 5]) "want seq 4 and 5");
  ("a check event keeps its result",
    run ← newConformanceRun "ffffffff-0000-0000-0000-000000000000";
    let result := mkCheckResult "COMMAND" "command" CheckPass Time.zero Time.zero 0 0 (Lit "exit 0") ∅ in
    _ ← must "AppendEvent" (AppendEvent (run_ID run) (event_of 1 nowUTC RunRunningChecks (Some result)));
    got ← must "Events" (Events (run_ID run) 0);
    match got with
    | [e] =>
      match se_Check e with
      | Some x => check (differ (cr_Name x) "COMMAND" || differ (cr_Status x) CheckPass) "want COMMAND/pass"
      | None => fatalf "the check result did not survive"
      end
    | _ => fatalf "the check result did not survive"
    end);
  ("an event without a check reads back with none",
    run ← newConformanceRun "ffffffff-1111-0000-0000-000000000000";
    _ ← must "AppendEvent" (AppendEvent (run_ID run) (event_of 1 nowUTC RunRestoring None));
    got ← must "Events" (Events (run_ID run) 0);
    require (match got with [e] => match se_Check e with Some _ => true | None => false end | _ => true end) "want one event with no check")
].

(** ** [ListConformance] *)

Definition base_list : Z := Date 2026 9 1 10 0 0 0.
Definition seed : T unit :=
  each 0 [("11111111-0000-0000-0000-000000000000", "110", RunSuccess, ResultSuccess, 0);
          ("22222222-0000-0000-0000-000000000000", "104", RunFailed, ResultFailed, Duration.Hour);
          ("33333333-0000-0000-0000-000000000000", "110", RunSuccess, ResultDegraded, 2 * Duration.Hour)]
    (fun _ spec =>
      let '(id, workload, state, result, offset) := spec in
      let started := Time.Add base_list offset in
      must "CreateRun" (CreateRun (set_CompletedAt (Time.Add started (30 * Duration.Second)) (set_StartedAt started
        (set_Result result (set_State state (set_SourceWorkloadID workload (sampleRun id)))))) nameX)).
Definition started_at (id : string) (at_ lasts : Z) : RecoveryRun :=
  set_CompletedAt (Time.Add at_ lasts) (set_StartedAt at_ (sampleRun id)).
Definition page (limit : Z) (after : option Position) : Filter := mkFilter "" RunStateEmpty ResultNone Time.zero limit after false.

(** The walk through the pages: how many times each run was seen. *)
Fixpoint walk (pages : nat) (first : bool) (after : option Position) (seen : gmap string nat) : T (gmap string nat) :=
  match pages with
  | O => mret seen
  | Datatypes.S pages =>
    got ← must "ListRuns page" (ListRuns (page 2 after));
    match last got with
    | None => mret seen
    | Some x =>
      let seen := foldl (fun m r => <[sum_ID r := Datatypes.S (default O (m !! sum_ID r))]> m) seen got in
      _ ← (if first then must "CreateRun fresh" (CreateRun (started_at "bbbbbbbb-0000-0000-0000-000000000000" (Time.Add base_list Duration.Hour) (30 * Duration.Second)) nameX)
           else mret tt);
      walk pages false (Some (mkPosition (sum_StartedAt x) (sum_ID x))) seen
    end
  end.

Definition list_filter_tests : suite (S := S) := [
  ("most recent first",
    _ ← seed;
    got ← must "ListRuns" (ListRuns no_filter);
    _ ← require (differ (length got) 3%nat) "want 3";
    _ ← each 1 (tail got) (fun i _ =>
      a ← nth_ got (Z.to_nat (i - 1)); b ← nth_ got (Z.to_nat i);
      require (Time.Before (sum_StartedAt a) (sum_StartedAt b)) "the listing must be newest first");
    x ← nth_ got 0;
    check (negb (nonempty (sum_SourceName x)) || (sum_RTO x =? 0)) "the summary lost fields the listing shows");
  ("filter by workload",
    _ ← seed;
    got ← must "ListRuns" (ListRuns (mkFilter "110" RunStateEmpty ResultNone Time.zero 0 None false));
    _ ← require (differ (length got) 2%nat) "want 2";
    each 0 got (fun _ r => check (differ (sum_SourceWorkloadID r) "110") "got a run for workload"));
  ("filter by result",
    _ ← seed;
    got ← must "ListRuns" (ListRuns (mkFilter "" RunStateEmpty ResultFailed Time.zero 0 None false));
    require (match got with [x] => differ (sum_SourceWorkloadID x) "104" | _ => true end) "want the single failed run for workload 104");
  ("filter by state",
    _ ← seed;
    got ← must "ListRuns" (ListRuns (mkFilter "" RunFailed ResultNone Time.zero 0 None false));
    require (differ (length got) 1%nat) "got %d runs in state FAILED");
  ("filter by since",
    _ ← seed;
    got ← must "ListRuns" (ListRuns (mkFilter "" RunStateEmpty ResultNone (Time.Add base_list (90 * Duration.Minute)) 0 None false));
    _ ← require (differ (length got) 1%nat) "want 1";
    x ← nth_ got 0;
    check (differ (sum_StartedAt x) (Time.Add base_list (2 * Duration.Hour))) "got the run started at")
].
Definition list_limit_tests : suite (S := S) := [
  ("limit is honoured",
    _ ← seed;
    got ← must "ListRuns" (ListRuns (page 2 None));
    require (differ (length got) 2%nat) "want 2");
  ("NotTerminal keeps an in-flight run however many finished ones are newer",
    let inFlight := set_CompletedAt Time.zero (set_StartedAt base_list (set_State RunRestoring (sampleRun "55555555-0000-0000-0000-000000000000"))) in
    _ ← must "CreateRun in-flight" (CreateRun inFlight nameX);
    _ ← each 0 ["66666666-0000-0000-0000-000000000000"; "66666666-0000-0000-0000-000000000001"; "66666666-0000-0000-0000-000000000002"] (fun i id =>
      must "CreateRun done" (CreateRun (set_Result ResultSuccess (set_State RunSuccess (started_at id (Time.Add base_list ((i + 1) * Duration.Hour)) Duration.Minute))) nameX));
    got ← must "ListRuns" (ListRuns (mkFilter "" RunStateEmpty ResultNone Time.zero 1 None true));
    require (match got with [x] => differ (sum_ID x) (run_ID inFlight) | _ => true end) "want only the in-flight run");
  ("an empty store lists nothing without erroring",
    got ← must "ListRuns on an empty store" (ListRuns no_filter);
    require (differ (length got) 0%nat) "want none")
].
Definition list_page_tests : suite (S := S) := [
  ("paging with a cursor walks the whole history exactly once",
    let ids := ["aaaaaaa0-0000-0000-0000-000000000000"; "aaaaaaa1-0000-0000-0000-000000000000"; "aaaaaaa2-0000-0000-0000-000000000000";
                "aaaaaaa3-0000-0000-0000-000000000000"; "aaaaaaa4-0000-0000-0000-000000000000"] in
    _ ← each 0 ids (fun i id => must "CreateRun" (CreateRun (started_at id (Time.Add base_list (i * Duration.Minute)) (30 * Duration.Second)) nameX));
    seen ← walk 10 true None ∅;
    each 0 ids (fun _ id => check (differ (default O (seen !! id)) 1%nat) "run was skipped, or came back, while paging"));
  ("two runs started at the same instant both come back",
    _ ← each 0 ["cccccccc-0000-0000-0000-000000000001"; "cccccccc-0000-0000-0000-000000000002"] (fun _ id =>
      must "CreateRun" (CreateRun (set_StartedAt base_list (sampleRun id)) nameX));
    first ← must "ListRuns" (ListRuns (page 1 None));
    _ ← require (differ (length first) 1%nat) "want 1";
    x ← nth_ first 0;
    second ← must "ListRuns page 2" (ListRuns (page 1 (Some (mkPosition (sum_StartedAt x) (sum_ID x)))));
    _ ← require (differ (length second) 1%nat) "the tie on started_at lost a row";
    y ← nth_ second 0;
    require (bool_decide (sum_ID y = sum_ID x)) "the second page repeated the first row");
  ("the summary carries the RTO target",
    let run := sampleRun "dddddddd-0000-0000-0000-000000000000" in
    _ ← must "CreateRun" (CreateRun run nameX);
    got ← must "ListRuns" (ListRuns no_filter);
    x ← nth_ got 0;
    check (differ (sum_RTOTarget x) (run_RTOTarget run)) "the confidence score reads it from the listing")
].
Definition list_tests : suite (S := S) := list_filter_tests ++ list_limit_tests ++ list_page_tests.

(** ** [LastRunsConformance] *)

Definition runAt (id workload : string) (started : Z) : T unit :=
  must "CreateRun" (CreateRun (set_SourceWorkloadID workload (started_at id started (30 * Duration.Second))) nameX).
Definition last_runs_tests : suite (S := S) :=
  let base := base_list in
  let id_of (m : gmap string RunSummary) w := sum_ID (default zero_summary (m !! w)) in [
  ("each workload comes back with its newest run and nobody else's",
    _ ← runAt "11110000-0000-0000-0000-000000000001" "110" base;
    _ ← runAt "11110000-0000-0000-0000-000000000002" "110" (Time.Add base Duration.Hour);
    _ ← runAt "22220000-0000-0000-0000-000000000001" "104" (Time.Add base (30 * Duration.Minute));
    got ← must "LastRuns" (LastRuns ["110"; "104"]);
    _ ← require (differ (size got) 2%nat) "want 2";
    _ ← check (differ (id_of got "110") "11110000-0000-0000-0000-000000000002") "want the newer run";
    check (differ (id_of got "104") "22220000-0000-0000-0000-000000000001") "want its own run");
  ("a workload that has never been drilled is absent, not zero",
    _ ← runAt "33330000-0000-0000-0000-000000000001" "110" base;
    got ← must "LastRuns" (LastRuns ["110"; "999"]);
    check (match got !! "999" with Some _ => true | None => false end) "workload 999 is present");
  ("an empty list asks nothing and answers nothing",
    got ← must "LastRuns(nil)" (LastRuns []);
    check (differ (size got) 0%nat) "want an empty map");
  ("a tie on started_at is broken by id, as the listing breaks it",
    _ ← runAt "44440000-0000-0000-0000-00000000000a" "110" base;
    _ ← runAt "44440000-0000-0000-0000-00000000000b" "110" base;
    got ← must "LastRuns" (LastRuns ["110"]);
    check (differ (id_of got "110") "44440000-0000-0000-0000-00000000000b") "want the higher id");
  ("the summary carries the fields the listing carries",
    _ ← runAt "55550000-0000-0000-0000-000000000001" "110" base;
    got ← must "LastRuns" (LastRuns ["110"]);
    let summary := default zero_summary (got !! "110") in
    _ ← check (differ (sum_SourceWorkloadID summary) "110" || differ (sum_SourceName summary) "linux-test") "source";
    _ ← check (differ (sum_State summary) RunSuccess || differ (sum_Result summary) ResultSuccess) "state/result";
    _ ← check (differ (sum_StartedAt summary) base) "StartedAt";
    check (differ (sum_RTO summary) (28 * Duration.Second)) "RTO")
].

(** ** [TempWorkloadConformance] *)

Definition temp_workload_tests : suite (S := S) := [
  ("write then read",
    run ← newConformanceRun "aaaabbbb-0000-0000-0000-000000000000";
    _ ← must "SetTempWorkload" (SetTempWorkload (run_ID run) "9099" "private-other");
    got ← must "GetRun" (GetRun (run_ID run));
    check (differ (run_TempWorkloadID got) "9099" || differ (run_Node got) "private-other") "TempWorkloadID/Node");
  ("it writes only its two columns, and survives the update that follows",
    let run := set_CompletedAt Time.zero (set_Node "" (set_TempWorkloadID "" (set_Result ResultNone (set_State RunRestoring
      (sampleRun "aaaabbbb-1111-0000-0000-000000000000"))))) in
    _ ← must "CreateRun" (CreateRun run nameX);
    _ ← must "SetTempWorkload" (SetTempWorkload (run_ID run) "9100" "pve1");
    afterSet ← must "GetRun after SetTempWorkload" (GetRun (run_ID run));
    _ ← check (differ (run_State afterSet) RunRestoring) "State: SetTempWorkload must not touch it";
    _ ← check (differ (run_Result afterSet) ResultNone) "Result: SetTempWorkload must not touch it";
    _ ← check (differ (run_StartedAt afterSet) (run_StartedAt run)) "StartedAt: SetTempWorkload must not touch it";
    _ ← check (differ (run_TempWorkloadID afterSet) "9100" || differ (run_Node afterSet) "pve1") "TempWorkloadID/Node";
    let run := set_CompletedAt (Time.Add (run_StartedAt run) (30 * Duration.Second)) (set_Node "pve1" (set_TempWorkloadID "9100"
      (set_Result ResultSuccess (set_State RunSuccess run)))) in
    _ ← must "UpdateRun" (UpdateRun run);
    got ← must "GetRun after UpdateRun" (GetRun (run_ID run));
    _ ← check (differ (run_TempWorkloadID got) "9100" || differ (run_Node got) "pve1") "TempWorkloadID/Node did not survive UpdateRun";
    check (differ (run_State got) RunSuccess || differ (run_Result got) ResultSuccess) "want SUCCESS/SUCCESS");
  ("an unknown run id is not an error",
    must "SetTempWorkload on an unknown run id" (SetTempWorkload "does-not-exist" "9100" "pve1"))
].
End Suites.
