(* ===== verification/ConformanceQueue.v ===== *)
(** * The conformance suite: the queue, the catalogue and what hangs off them

    Models internal/store/conformance_queue.go, conformance_plans.go,
    conformance_schedule.go, conformance_notify.go, conformance_values.go,
    conformance_tokens.go and conformance_sessions.go, and puts the whole suite together,
    over the order in which the goroutines of its racing tests are scheduled. *)

From Stdlib Require Import ZArith Lia String Ascii List.
From S2P Require Import Prelude GoTime GoFloat Core GoString GoStrconv GoFmt Timestamp Queue Listing Timeline Catalog Story Deliveries Credentials Store Conformance.

(** What [DELETE FROM runs] and [DELETE FROM api_tokens] do by the references of the
    schema: what cascades goes, a slot loses its run. *)
Definition delete_run (id : string) (s : Database) : Database :=
  let own {A} (t : gmap (string * Z) A) := filter (fun x => x.1.1 <> id) t in
  mkDatabase (delete id (dt_runs s)) (dt_plans s)
    ((fun x => if bool_decide (slot_RunID x = id) then mkSlot (slot_PlanID x) (slot_SlotAt x) (slot_DecidedAt x) (slot_Outcome x) (slot_Reason x) "" else x) <$> dt_slots s)
    (own (dt_steps s)) (own (dt_checks s)) (own (dt_events s)) (filter (fun x => x.1.1.1 <> id) (dt_values s))
    (delete id (dt_notified s)) (filter (fun x => dl_RunID x.2 <> id) (dt_deliveries s)) (dt_cred s).
Definition delete_token (id : string) (s : Database) : Database :=
  with_cred (mkCredDB (delete id (cd_tokens (dt_cred s))) (filter (fun x => sr_token_id x.2 <> id) (cd_sessions (dt_cred s)))) s.

Section Suites.
Context {S : Type} `{Engine S} (nowUTC : Z) (pick : nat -> nat).
Abbreviation T := (T S).

(** [rawStore], and what is asked of the tables directly. *)
Definition raw (f : Database -> Database) : T unit := fun t =>
  match tables_ with
  | Some (view, put) => (Some tt, mkTest (put (f (view (te_store t))) (te_store t)) (te_failed t))
  | None => skip t
  end.
Definition countValues (runID : string) : T nat := fun t =>
  match tables_ with
  | Some (view, _) => (Some (size (filter (fun x => x.1.1.1 = runID) (dt_values (view (te_store t))))), t)
  | None => skip t
  end.

(** ** [QueueWriteConformance] *)

Definition base_queue : Z := Date 2026 9 2 8 0 0 0.
Definition Enqueue_ (id workload : string) : T unit := must "Enqueue" (Enqueue (queuedRun id workload) nameX base_queue).
Definition why : string := "interrupted: the worker running this drill did not survive".

Definition queue_enqueue_tests : suite (S := S) :=
  let base := base_queue in [
  ("an enqueued run is readable and QUEUED",
    _ ← must "Enqueue" (Enqueue (queuedRun "q1" "110") ("name: adhoc-110" +:+ nl) base);
    got ← must "GetRun" (GetRun "q1");
    _ ← check (differ (run_State got) RunQueued) "a queued run must say so";
    check (differ (run_SourceWorkloadID got) "110") "SourceWorkloadID");
  ("a queued run keeps the provenance it was queued with",
    let p := samplePlan "8c4e2b17-5d93-4a60-b1f8-2e70c9d4a615" "queued-from-catalogue" in
    _ ← must "CreatePlan" (CreatePlan p);
    let run := set_PlanVersion 2 (set_PlanID (sp_ID p) (queuedRun "q6" "110")) in
    _ ← must "Enqueue" (Enqueue run ("name: web-tier" +:+ nl) base);
    got ← must "GetRun" (GetRun "q6");
    check (differ (run_PlanID got) (sp_ID p) || differ (run_PlanVersion got) 2) "provenance");
  ("an ad-hoc run is queued with no provenance at all",
    _ ← Enqueue_ "q7" "110";
    got ← must "GetRun" (GetRun "q7");
    check (differ (run_PlanID got) "" || differ (run_PlanVersion got) 0) "want it empty for an ad-hoc drill");
  ("the state moves as the drill progresses",
    _ ← Enqueue_ "q2" "110";
    _ ← must "SetState" (SetState "q2" RunRestoring);
    got ← must "GetRun" (GetRun "q2");
    check (differ (run_State got) RunRestoring) "want RESTORING");
  ("a settled run keeps the verdict it settled on",
    _ ← Enqueue_ "q2b" "110";
    _ ← must "SetState" (SetState "q2b" RunFailed);
    _ ← must "SetState over a settled run must be a silent no-op" (SetState "q2b" RunCleanupFailed);
    got ← must "GetRun" (GetRun "q2b");
    check (differ (run_State got) RunFailed) "the first writer decides")
].
Definition queue_error_tests : suite (S := S) := [
  ("a run's error is written on its own, without touching anything else",
    _ ← Enqueue_ "q5" "110";
    _ ← must "SetState" (SetState "q5" RunFailed);
    _ ← must "SetRunError" (SetRunError "q5" (Lit why));
    got ← must "GetRun" (GetRun "q5");
    _ ← check (negb (says (run_Err got) why)) "Err";
    _ ← check (differ (run_State got) RunFailed) "State: SetRunError must not touch it";
    check (differ (run_SourceWorkloadID got) "110") "SourceWorkloadID: SetRunError must not touch it");
  ("setting the error of an unknown run is not an error",
    must "SetRunError on an unknown run" (SetRunError "does-not-exist" (Lit "boom")));
  ("a workload with an active run is reported, a finished one is not",
    _ ← Enqueue_ "q3" "110";
    id ← must "ActiveRunForWorkload" (ActiveRunForWorkload "110");
    _ ← require (differ id "q3") "want q3";
    idle ← must "active run for an idle workload" (ActiveRunForWorkload "104");
    _ ← require (differ idle "") "want empty";
    _ ← must "SetState" (SetState "q3" RunSuccess);
    over ← must "ActiveRunForWorkload" (ActiveRunForWorkload "110");
    require (differ over "") "a terminal run still counts as active")
].
Definition queue_cancel_tests : suite (S := S) :=
  let base := base_queue in [
  ("cancelling a queued run settles it without a worker",
    _ ← Enqueue_ "q4" "110";
    settled ← must "RequestCancel" (RequestCancel "q4" base);
    _ ← require (negb settled) "cancelling an unclaimed queued run must settle it immediately";
    got ← must "GetRun" (GetRun "q4");
    check (differ (run_State got) RunCancelled) "want CANCELLED");
  ("cancelling an unknown run is not found", expect IsNotFound "want ErrNotFound" (RequestCancel "nope" base));
  ("cancelling an already settled run is refused with a sentinel",
    _ ← Enqueue_ "q5" "110";
    _ ← must "SetState" (SetState "q5" RunSuccess);
    expect IsAlreadySettled "want ErrAlreadySettled" (RequestCancel "q5" base));
  ("a token carries its scopes",
    _ ← must "CreateToken" (CreateToken (mkAPIToken "t1" "dash" "h1" base Time.zero Time.zero [ScopeRead]));
    got ← must "TokenByHash" (TokenByHash "h1");
    _ ← check (differ (tk_Scopes got) [ScopeRead]) "want [read]";
    check (Can got ScopeOperate) "a read token may not operate");
  ("a token created without scopes can only read",
    _ ← must "CreateToken" (CreateToken (mkAPIToken "t2" "old" "h2" base Time.zero Time.zero []));
    got ← must "TokenByHash" (TokenByHash "h2");
    _ ← require (Can got ScopeOperate) "a migration must never widen a right";
    check (negb (Can got ScopeRead)) "a token with no scopes recorded cannot even read")
].
Definition queue_write_tests : suite (S := S) := queue_enqueue_tests ++ queue_error_tests ++ queue_cancel_tests.

(** ** [QueueClaimConformance] *)

Definition lease : Z := Duration.Minute.
(** A worker of the race: it claims until there is nothing left. *)
Definition racer (name : nat -> string) (worker : nat) (shared : gmap string nat * nat) : T (bool * (gmap string nat * nat)) :=
  got ← call (ClaimRun (name worker) lease base_queue);
  match got with
  | inr q => mret (true, (<[q_ID q := Datatypes.S (default O (shared.1 !! q_ID q))]> shared.1, Datatypes.S shared.2))
  | inl e => _ ← check (negb (errors_Is e IsNoWork)) "ClaimRun"; mret (false, shared)
  end.
Definition race_runs : list string := ["p00"; "p01"; "p02"; "p03"; "p04"; "p05"; "p06"; "p07"; "p08"; "p09"; "p10"; "p11"].

Definition claim_tests : suite (S := S) :=
  let base := base_queue in [
  ("claiming takes the oldest queued run",
    _ ← each 0 ["c1"; "c2"; "c3"] (fun i id => must "Enqueue" (Enqueue (queuedRun id "110") nameX (Time.Add base (i * Duration.Minute))));
    got ← must "ClaimRun" (ClaimRun "worker-a" lease base);
    _ ← check (differ (q_ID got) "c1") "want the oldest (c1)";
    check (negb (nonempty (q_PlanSnapshot got))) "the claimed run carries no plan");
  ("an empty queue reports no work", expect IsNoWork "want ErrNoWork" (ClaimRun "worker-a" lease base));
  ("a claimed run is never claimable again, even after its lease expires",
    _ ← Enqueue_ "c4" "110";
    _ ← must "ClaimRun" (ClaimRun "worker-a" lease base);
    expect IsNoWork "a run whose worker died was claimed again" (ClaimRun "worker-b" lease (Time.Add base Duration.Hour)));
  ("concurrent workers never claim the same run",
    _ ← each 0 race_runs (fun i id =>
      must "Enqueue" (Enqueue (queuedRun id (pretty (200 + i))) nameX (Time.Add base (i * Duration.Second))));
    shared ← goroutines (length race_runs + 4) pick (racer (fun w => "worker-" +:+ pretty w)) (seq 0 4) (∅, O);
    _ ← check (differ shared.2 (length race_runs)) "%d claims for %d runs";
    each 0 (map_to_list shared.1) (fun _ x => check (differ x.2 1%nat) "two workers would restore the same backup at once"))
].
Definition lease_tests : suite (S := S) :=
  let base := base_queue in [
  ("a lease is renewed by its owner and by nobody else",
    _ ← Enqueue_ "c5" "110";
    _ ← must "ClaimRun" (ClaimRun "worker-a" lease base);
    _ ← must "RenewLease by the owner" (RenewLease "c5" "worker-a" (Time.Add base (2 * lease)));
    fails "a lease was renewed by a worker that does not hold it" (RenewLease "c5" "worker-b" (Time.Add base (3 * lease))));
  ("a lease can be read back without knowing the schema",
    _ ← Enqueue_ "c7" "110";
    free ← must "RunLease on a queued run" (RunLease "c7");
    _ ← check (differ free.1 "") "owner on a run nobody claimed, want empty";
    _ ← check (negb (Time.IsZero free.2)) "expires on a run nobody claimed, want the zero time";
    _ ← must "ClaimRun" (ClaimRun "worker-a" lease base);
    held ← must "RunLease on a claimed run" (RunLease "c7");
    _ ← check (differ held.1 "worker-a") "want worker-a";
    _ ← check (differ held.2 (Time.Add base lease)) "expires";
    _ ← must "FinishLease" (FinishLease "c7");
    over ← must "RunLease after FinishLease" (RunLease "c7");
    _ ← check (differ over.1 "worker-a") "owner after FinishLease, want it kept as worker-a";
    check (negb (Time.IsZero over.2)) "expires after FinishLease, want the zero time");
  ("the lease of an unknown run is not found", expect IsNotFound "want ErrNotFound" (RunLease "nope"));
  ("stale runs are the ones whose worker stopped answering",
    _ ← Enqueue_ "c6" "110";
    _ ← must "ClaimRun" (ClaimRun "worker-a" lease base);
    _ ← must "SetState" (SetState "c6" RunRestoring);
    fresh ← must "StaleRuns" (StaleRuns (Time.Add base (30 * Duration.Second)));
    _ ← require (differ (length fresh) 0%nat) "a live lease was reported stale";
    stale ← must "StaleRuns" (StaleRuns (Time.Add base (2 * lease)));
    _ ← require (differ (map q_ID stale) ["c6"]) "want c6";
    _ ← must "SetState" (SetState "c6" RunSuccess);
    over ← must "StaleRuns" (StaleRuns (Time.Add base (2 * lease)));
    require (differ (length over) 0%nat) "a finished run was reported stale")
].
Definition queue_claim_tests : suite (S := S) := claim_tests ++ lease_tests.

(** [QueueStatesMatchCoreTerminal]. *)
Definition queue_states_tests : suite (S := S) := [
  ("the states of the queue match core",
    _ ← each 0 terminalStates (fun _ s => check (negb (Terminal s)) "in the queue's terminal list but core says it is not terminal");
    each 0 [RunQueued; RunDiscoveringBackup; RunPreparing; RunRestoring; RunStarting; RunWaitingForGuest; RunRunningChecks;
            RunGeneratingReport; RunCleaningUp; RunSuccess; RunFailed; RunCancelled; RunCleanupFailed] (fun _ s =>
      if negb (Terminal s) then mret tt else check (negb (bool_decide (s ∈ terminalStates))) "terminal in core but missing from the queue's SQL list"))
].

(** ** [PlanConformance] *)

Definition set_WorkloadID (v : string) (p : StoredPlan) : StoredPlan :=
  mkStoredPlan (sp_ID p) (sp_Name p) (sp_Description p) v (sp_ProviderID p) (sp_YAML p) (sp_Version p) (sp_CreatedAt p) (sp_UpdatedAt p).
Definition create (id name : string) : T StoredPlan := let p := samplePlan id name in _ ← must "CreatePlan" (CreatePlan p); mret p.

Definition plan_lookup_tests : suite (S := S) := [
  ("create then get round trips every field",
    want ← create "2f1a4c76-0b1e-4d2a-9a51-1d0f8c2b3e44" "web-tier";
    got ← must "GetPlan" (GetPlan "web-tier");
    _ ← check (differ (sp_ID got) (sp_ID want) || differ (sp_Name got) (sp_Name want) || differ (sp_Description got) (sp_Description want)) "identity";
    _ ← check (differ (sp_WorkloadID got) (sp_WorkloadID want) || differ (sp_ProviderID got) (sp_ProviderID want)) "derived";
    _ ← check (differ (sp_YAML got) (sp_YAML want)) "the text is stored verbatim";
    _ ← check (differ (sp_Version got) 1) "want 1";
    check (differ (sp_CreatedAt got) (sp_CreatedAt want) || differ (sp_UpdatedAt got) (sp_UpdatedAt want)) "timestamps");
  ("a duplicate name is refused",
    _ ← create "id-one" "web-tier";
    expect IsDuplicate "want ErrDuplicate" (CreatePlan (samplePlan "id-two" "web-tier")));
  ("a reference resolves by name, id, then id prefix",
    p ← create "abcdef01-0000-4000-8000-000000000001" "web-tier";
    _ ← each 0 ["web-tier"; sp_ID p; "abcdef01"] (fun _ ref => got ← must "GetPlan" (GetPlan ref); check (differ (sp_ID got) (sp_ID p)) "GetPlan(ref).ID");
    expect IsNotFound "GetPlan(unknown), want ErrNotFound" (GetPlan "nothing"));
  ("an ambiguous id prefix is refused",
    _ ← create "dup00001-aaaa" "one";
    _ ← create "dup00001-bbbb" "two";
    expect IsAmbiguous "want ErrAmbiguous" (GetPlan "dup00001"))
].
Definition plan_update_tests : suite (S := S) := [
  ("update bumps the version and rewrites the derived columns",
    p ← create "id-update" "web-tier";
    let changed := mkStoredPlan (sp_ID p) (sp_Name p) (sp_Description p) "104" (sp_ProviderID p) ("name: web-tier" +:+ nl +:+ "workload:" +:+ nl +:+ "  id: " +:+ dquote +:+ "104" +:+ dquote +:+ nl)
      (sp_Version p) (sp_CreatedAt p) (Time.Add (sp_CreatedAt p) Duration.Hour) in
    _ ← must "UpdatePlan" (UpdatePlan changed 0);
    got ← must "GetPlan" (GetPlan "web-tier");
    _ ← check (differ (sp_Version got) 2) "want 2";
    _ ← check (differ (sp_WorkloadID got) "104") "WorkloadID";
    check (differ (sp_CreatedAt got) (sp_CreatedAt p)) "CreatedAt, want it unchanged");
  ("a stale expected version is refused",
    p ← create "id-conflict" "web-tier";
    _ ← must "UpdatePlan(expected 1)" (UpdatePlan p 1);
    _ ← expect IsVersionConflict "want ErrVersionConflict" (UpdatePlan p 1);
    expect IsNotFound "UpdatePlan(unknown plan), want ErrNotFound" (UpdatePlan (samplePlan "id-missing" "gone") 1));
  ("listing is ordered by name and filtered by workload",
    _ ← each 0 [("id-c", "c-plan", "110"); ("id-a", "a-plan", "104"); ("id-b", "b-plan", "110")] (fun _ spec =>
      let '(id, name, workload) := spec in must "CreatePlan" (CreatePlan (set_WorkloadID workload (samplePlan id name))));
    all ← must "ListPlans" (ListPlans "" 0);
    _ ← require (match all with [a; _; c] => differ (sp_Name a) "a-plan" || differ (sp_Name c) "c-plan" | _ => true end) "want a-plan, b-plan, c-plan";
    some ← must "ListPlans(workload)" (ListPlans "110" 0);
    require (differ (map sp_Name some) ["b-plan"; "c-plan"]) "want b-plan, c-plan");
  ("deleting a plan unlinks its runs and keeps them whole",
    p ← create "id-delete" "web-tier";
    let run := set_PlanVersion 1 (set_PlanID (sp_ID p) (sampleRun "0aca8405-4e80-4ac9-8bdd-057a56dc0281")) in
    _ ← must "CreateRun" (CreateRun run ("name: web-tier" +:+ nl));
    _ ← must "DeletePlan" (DeletePlan "web-tier");
    _ ← expect IsNotFound "GetPlan after delete, want ErrNotFound" (GetPlan "web-tier");
    got ← must "GetRun after deleting its plan" (GetRun (run_ID run));
    _ ← check (differ (run_PlanID got) "") "want it cleared by ON DELETE SET NULL";
    _ ← check (differ (run_PlanName got) (run_PlanName run) || differ (run_State got) (run_State run)) "the run changed beyond its plan link";
    expect IsNotFound "DeletePlan(twice), want ErrNotFound" (DeletePlan "web-tier"))
].
Definition plan_tests : suite (S := S) := plan_lookup_tests ++ plan_update_tests.

(** ** [ScheduleConformance] *)

Definition slotAt : Z := Date 2026 9 6 1 0 0 0.
Definition skipped (planID : string) (at_ : Z) (reason : string) : Slot := mkSlot planID at_ at_ SlotSkipped (Lit reason) "".
(** A goroutine of the race for one slot: it claims once. *)
Definition racer_id (i : nat) : string := "6f1b7c88-0000-4000-8000-1000000000" +:+ (if (i <? 10)%nat then "0" else "") +:+ pretty i.
Definition claimer (p : StoredPlan) (i : nat) (shared : nat * nat) : T (bool * (nat * nat)) :=
  let run := queuedRun (racer_id i) "110" in
  got ← call (ClaimSlot (mkSlot (sp_ID p) slotAt slotAt SlotQueued (Lit "") (run_ID run)) (Some run) (sp_YAML p));
  mret (false, match got with
    | inr _ => (Datatypes.S shared.1, shared.2)
    | inl e => if errors_Is e IsDuplicate then shared else (shared.1, Datatypes.S shared.2)
    end).

Definition slot_claim_tests : suite (S := S) := [
  ("a claim writes the slot and queues the run in one go",
    p ← create "plan-1" "linux-nightly";
    let run := queuedRun "6f1b7c88-0000-4000-8000-000000000001" "110" in
    let slot := mkSlot (sp_ID p) slotAt (Time.Add slotAt (3 * Duration.Second)) SlotQueued (Lit "") (run_ID run) in
    _ ← must "ClaimSlot" (ClaimSlot slot (Some run) (sp_YAML p));
    got ← must "LastSlot" (LastSlot (sp_ID p));
    _ ← require (differ (slot_SlotAt got) slotAt || differ (slot_Outcome got) SlotQueued || differ (slot_RunID got) (run_ID run)) "want the slot just claimed";
    claimed ← must "ClaimRun" (ClaimRun "worker-1" Duration.Minute (Time.Add slotAt Duration.Minute));
    require (differ (q_ID claimed) (run_ID run)) "ClaimRun gave run");
  ("the same slot cannot be claimed twice",
    p ← create "plan-2" "linux-nightly";
    let first := queuedRun "6f1b7c88-0000-4000-8000-000000000002" "110" in
    let second := queuedRun "6f1b7c88-0000-4000-8000-000000000003" "110" in
    _ ← must "first ClaimSlot" (ClaimSlot (mkSlot (sp_ID p) slotAt slotAt SlotQueued (Lit "") (run_ID first)) (Some first) (sp_YAML p));
    _ ← expect IsDuplicate "second ClaimSlot, want ErrDuplicate" (ClaimSlot (mkSlot (sp_ID p) slotAt slotAt SlotQueued (Lit "") (run_ID second)) (Some second) (sp_YAML p));
    expect IsNotFound "the claim was not atomic" (GetRun (run_ID second)));
  ("concurrent claims of one slot produce exactly one drill",
    p ← create "plan-race" "linux-nightly";
    shared ← goroutines 8 pick (claimer p) (seq 0 8) (O, O);
    _ ← require (0 <? shared.2)%nat "claims failed with something other than ErrDuplicate";
    _ ← require (differ shared.1 1%nat) "%d claimers succeeded, want exactly 1";
    queued ← must "ListRuns" (ListRuns (mkFilter "110" RunStateEmpty ResultNone Time.zero 0 None true));
    require (differ (length queued) 1%nat) "%d runs queued for one slot, want exactly 1")
].
Definition slot_skip_tests : suite (S := S) := [
  ("a skipped slot carries its reason and no run",
    p ← create "plan-3" "linux-nightly";
    let slot := mkSlot (sp_ID p) slotAt (Time.Add slotAt (6 * Duration.Hour)) SlotSkipped (Lit "the slot was 6h0m late, past the 2h grace period") "" in
    _ ← must "ClaimSlot(skipped)" (ClaimSlot slot None "");
    got ← must "LastSlot" (LastSlot (sp_ID p));
    require (differ (slot_Outcome got) SlotSkipped || text_empty (slot_Reason got) || differ (slot_RunID got) "") "want a skipped slot with a reason and no run");
  ("a queued slot with no run is refused",
    p ← create "plan-3b" "linux-nightly";
    _ ← fails "ClaimSlot accepted a queued slot with no run" (ClaimSlot (mkSlot (sp_ID p) slotAt slotAt SlotQueued (Lit "") "") None "");
    expect IsNotFound "the failed claim left a row" (LastSlot (sp_ID p)));
  ("LastSlot reports ErrNotFound for a plan never scheduled",
    p ← create "plan-4" "linux-nightly";
    expect IsNotFound "want ErrNotFound" (LastSlot (sp_ID p)));
  ("ListSlots returns the most recent first",
    p ← create "plan-5" "linux-nightly";
    _ ← each 0 [0; 1; 2] (fun _ i => must "ClaimSlot" (ClaimSlot (skipped (sp_ID p) (slotAt + 7 * i * Time.day_ns) "no worker") None ""));
    got ← must "ListSlots" (ListSlots (sp_ID p) "" 0);
    _ ← require (differ (length got) 3%nat) "want 3";
    a ← nth_ got 0; c ← nth_ got 2;
    require (negb (Time.After (slot_SlotAt a) (slot_SlotAt c))) "ListSlots is not newest-first");
  ("ListSlots without a plan spans the catalogue",
    _ ← each 0 ["one"; "two"] (fun i name =>
      p ← create ("plan-6" +:+ name) name;
      must "ClaimSlot" (ClaimSlot (skipped (sp_ID p) (slotAt + i * Time.day_ns) "x") None ""));
    got ← must "ListSlots" (ListSlots "" "" 0);
    require (differ (length got) 2%nat) "want 2 across both plans")
].
Definition slot_listing_tests : suite (S := S) := [
  ("ListSlots can span every plan covering one workload",
    _ ← each 0 [("plan-w1", "nightly", "110"); ("plan-w2", "weekly", "110"); ("plan-w3", "other", "104")] (fun _ spec =>
      let '(id, name, workload) := spec in
      _ ← must "CreatePlan" (CreatePlan (set_WorkloadID workload (samplePlan id name)));
      must "ClaimSlot" (ClaimSlot (skipped id slotAt "x") None ""));
    got ← must "ListSlots" (ListSlots "" "110" 0);
    _ ← require (differ (length got) 2%nat) "want 2";
    each 0 got (fun _ slot => require (bool_decide (slot_PlanID slot = "plan-w3")) "the listing leaked another workload's slot"));
  ("deleting a plan removes its slots",
    p ← create "plan-7" "linux-nightly";
    _ ← must "ClaimSlot" (ClaimSlot (skipped (sp_ID p) slotAt "x") None "");
    _ ← must "DeletePlan" (DeletePlan (sp_ID p));
    got ← must "ListSlots" (ListSlots (sp_ID p) "" 0);
    require (differ (length got) 0%nat) "want 0");
  ("a slot round trips as UTC whatever zone it was given in",
    p ← create "plan-8" "linux-nightly";
    _ ← must "ClaimSlot" (ClaimSlot (skipped (sp_ID p) slotAt "x") None "");
    got ← must "LastSlot" (LastSlot (sp_ID p));
    _ ← require (differ (slot_SlotAt got) slotAt) "want the same instant";
    must "ClaimSlot(other instant), want it accepted" (ClaimSlot (mkSlot (sp_ID p) (slotAt - 2 * Duration.Hour) slotAt SlotSkipped (Lit "x") "") None ""))
].
Definition schedule_tests : suite (S := S) := slot_claim_tests ++ slot_skip_tests ++ slot_listing_tests.

(** ** [NotifyConformance] *)

Definition base_notify : Z := Date 2026 9 4 3 0 0 0.
Definition finishedRun (id workload : string) (state : RunState) (result : RunResult) (level : ProofLevel) (at_ : Z) : RecoveryRun :=
  {| run_ID := id; run_PlanName := "p-" +:+ workload; run_PlanID := ""; run_PlanVersion := 0; run_ProviderID := "proxmox-main";
     run_BackupProviderID := ""; run_SourceWorkloadID := workload; run_SourceName := ""; run_TempWorkloadID := ""; run_TempName := "";
     run_Node := ""; run_Backup := None; run_State := state; run_Result := result; run_ProofLevel := level;
     run_StartedAt := at_; run_CompletedAt := Time.Add at_ Duration.Minute; run_Steps := []; run_Checks := []; run_RTO := 0;
     run_RTOTarget := 0; run_CleanupDone := false; run_Err := Lit "" |}.
Definition writeRun (run : RecoveryRun) : T unit := must "CreateRun" (CreateRun run nameX).
Definition sampleDelivery (id runID channel : string) (at_ : Z) : Delivery :=
  mkDelivery id runID channel "verdict_changed" DeliveryPending 0 at_ 0 (Lit "") (JObject [("schema", JStr "restorelab.notification.v1")]) at_ Time.zero.
Definition attempted (state : DeliveryState) (attempts nextAt status : Z) (err : string) (sentAt : Z) (d : Delivery) : Delivery :=
  mkDelivery (dl_ID d) (dl_RunID d) (dl_ChannelID d) (dl_Kind d) state attempts nextAt status (Lit err) (dl_Payload d) (dl_CreatedAt d) sentAt.
Definition dispatcher_racer (_ : nat) (won : nat) : T (bool * nat) :=
  got ← call (ClaimRunForNotify "n1" (Time.Add base_notify Duration.Minute));
  match got with
  | inr true => mret (false, Datatypes.S won)
  | inr false => mret (false, won)
  | inl _ => _ ← errorf "ClaimRunForNotify"; mret (false, won)
  end.
Definition before (run : RecoveryRun) : Position := mkPosition (run_StartedAt run) (run_ID run).

Definition notify_claim_tests : suite (S := S) :=
  let base := base_notify in [
  ("only one dispatcher ever claims a run",
    _ ← writeRun (finishedRun "n1" "110" RunSuccess ResultSuccess ProofService base);
    won ← goroutines 4 pick dispatcher_racer (seq 0 4) O;
    require (differ won 1%nat) "%d dispatchers claimed the same run");
  ("a fresh terminal run is unnotified, a claimed one is not",
    _ ← writeRun (finishedRun "n2" "110" RunFailed ResultFailed ProofBoot base);
    runs ← must "UnnotifiedRuns" (UnnotifiedRuns 10);
    _ ← require (differ (map sum_ID runs) ["n2"]) "want just n2";
    x ← nth_ runs 0;
    _ ← check (differ (sum_Result x) ResultFailed || differ (sum_ProofLevel x) ProofBoot) "the summary lost what the run established";
    claimed ← must "ClaimRunForNotify" (ClaimRunForNotify "n2" (Time.Add base Duration.Minute));
    _ ← require (negb claimed) "the first claim on a fresh run must win";
    runs ← must "UnnotifiedRuns after the claim" (UnnotifiedRuns 10);
    require (differ (length runs) 0%nat) "a claimed run came back round");
  ("a run still in flight is never offered",
    _ ← must "Enqueue" (Enqueue (queuedRun "n3" "110") nameX base);
    runs ← must "UnnotifiedRuns" (UnnotifiedRuns 10);
    require (differ (length runs) 0%nat) "a QUEUED run was offered for announcement")
].
Definition story_tests : suite (S := S) :=
  let base := base_notify in [
  ("previous story skips verdict-less runs but reports them",
    _ ← writeRun (finishedRun "n4a" "110" RunSuccess ResultSuccess ProofData base);
    _ ← writeRun (finishedRun "n4b" "110" RunInconclusive ResultNone ProofNone (Time.Add base Duration.Hour));
    let current := finishedRun "n4c" "110" RunSuccess ResultSuccess ProofService (Time.Add base (2 * Duration.Hour)) in
    _ ← writeRun current;
    story ← must "PreviousStory" (PreviousStory "110" (before current));
    match story.1 with
    | None => fatalf "the workload has a graded run in its history and got no baseline"
    | Some prev =>
      _ ← check (differ (sum_ID prev) "n4a") "an unevaluable drill must not become the baseline";
      _ ← check (differ (sum_ProofLevel prev) ProofData) "want DATA";
      check (negb story.2) "the run immediately before this one was INCONCLUSIVE and the flag says otherwise"
    end);
  ("a workload with no earlier run has no story",
    let current := finishedRun "n5" "110" RunSuccess ResultSuccess ProofService base in
    _ ← writeRun current;
    story ← must "PreviousStory" (PreviousStory "110" (before current));
    _ ← check (match story.1 with Some _ => true | None => false end) "want none";
    check story.2 "a workload nobody ever drilled was reported as having become unevaluable");
  ("a cancelled run before this one is not unevaluable",
    _ ← writeRun (finishedRun "n6a" "110" RunSuccess ResultSuccess ProofService base);
    _ ← writeRun (finishedRun "n6b" "110" RunCancelled ResultNone ProofNone (Time.Add base Duration.Hour));
    let current := finishedRun "n6c" "110" RunSuccess ResultSuccess ProofService (Time.Add base (2 * Duration.Hour)) in
    _ ← writeRun current;
    story ← must "PreviousStory" (PreviousStory "110" (before current));
    _ ← require (differ (sum_ID <$> story.1) (Some "n6a")) "a cancelled run reached no verdict either";
    check story.2 "a cancelled run was read as the workload having become unevaluable")
].
Definition delivery_tests : suite (S := S) :=
  let base := base_notify in [
  ("a delivery is written once per run and channel",
    _ ← writeRun (finishedRun "n7" "110" RunFailed ResultFailed ProofBoot base);
    _ ← must "CreateDelivery" (CreateDelivery (sampleDelivery "d1" "n7" "ops-discord" base));
    _ ← expect IsDuplicate "want ErrDuplicate" (CreateDelivery (sampleDelivery "d2" "n7" "ops-discord" base));
    must "CreateDelivery for a second channel" (CreateDelivery (sampleDelivery "d3" "n7" "ops-slack" base)));
  ("due deliveries respect their next attempt time",
    _ ← writeRun (finishedRun "n8" "110" RunFailed ResultFailed ProofBoot base);
    let later := Time.Add base (10 * Duration.Minute) in
    _ ← must "CreateDelivery" (CreateDelivery (attempted DeliveryPending 1 later 500 "internal server error" Time.zero (sampleDelivery "d4" "n8" "ops-discord" base)));
    due ← must "DueDeliveries" (DueDeliveries base 10);
    _ ← require (differ (length due) 0%nat) "a delivery scheduled ten minutes out came back now";
    due ← must "DueDeliveries at the scheduled time" (DueDeliveries later 10);
    _ ← require (differ (map dl_ID due) ["d4"]) "want just d4";
    got ← nth_ due 0;
    _ ← check (differ (dl_RunID got) "n8" || differ (dl_ChannelID got) "ops-discord" || differ (dl_Kind got) "verdict_changed") "the delivery lost what it is about";
    _ ← check (differ (dl_Attempts got) 1 || differ (dl_Status got) 500 || negb (says (dl_Err got) "internal server error")) "the delivery lost what happened last time";
    _ ← check (match dl_Payload got with JNull => true | _ => false end) "the payload is stored";
    check (differ (dl_NextAt got) later) "NextAt");
  ("settling a delivery takes it out of the queue",
    _ ← writeRun (finishedRun "n9" "110" RunFailed ResultFailed ProofBoot base);
    _ ← must "CreateDelivery" (CreateDelivery (sampleDelivery "d5" "n9" "ops-discord" base));
    due ← must "DueDeliveries" (DueDeliveries base 10);
    _ ← require (differ (length due) 1%nat) "want the fresh delivery";
    x ← nth_ due 0;
    _ ← must "SettleDelivery" (SettleDelivery (mkDelivery (dl_ID x) (dl_RunID x) (dl_ChannelID x) (dl_Kind x) DeliverySent 1 Time.zero 204 (dl_Err x)
          (dl_Payload x) (dl_CreatedAt x) (Time.Add base Duration.Second)));
    due ← must "DueDeliveries after settling" (DueDeliveries (Time.Add base Duration.Hour) 10);
    require (differ (length due) 0%nat) "a sent delivery is still queued and would be posted again");
  ("settling a delivery that does not exist is an error",
    expect IsNotFound "want ErrNotFound" (SettleDelivery (attempted DeliverySent 0 base 0 "" Time.zero (sampleDelivery "nope" "n0" "ops-discord" base))))
].
Definition backlog_tests : suite (S := S) :=
  let base := base_notify in [
  ("unnotified runs come back oldest first",
    _ ← each 0 [("na0", "110", Time.Add base (2 * Duration.Hour)); ("na1", "111", base); ("na2", "112", Time.Add base Duration.Hour)] (fun _ spec =>
      let '(id, workload, at_) := spec in writeRun (finishedRun id workload RunSuccess ResultSuccess ProofService at_));
    runs ← must "UnnotifiedRuns" (UnnotifiedRuns 10);
    _ ← require (differ (length runs) 3%nat) "want 3";
    each 1 (tail runs) (fun i _ =>
      a ← nth_ runs (Z.to_nat (i - 1)); b ← nth_ runs (Z.to_nat i);
      require (Time.Before (sum_StartedAt b) (sum_StartedAt a)) "the backlog is in reverse"));
  ("the last delivery of a channel is the last one, not the last good one",
    _ ← writeRun (finishedRun "n20" "120" RunSuccess ResultSuccess ProofData base);
    _ ← writeRun (finishedRun "n21" "121" RunFailed ResultFailed ProofBoot (Time.Add base Duration.Hour));
    _ ← must "CreateDelivery" (CreateDelivery (attempted DeliverySent 0 base 204 "" base (sampleDelivery "d20" "n20" "ops-discord" base)));
    _ ← must "CreateDelivery" (CreateDelivery (attempted DeliveryFailed 0 (Time.Add base Duration.Hour) 404 "channel not found" Time.zero
          (sampleDelivery "d21" "n21" "ops-discord" (Time.Add base Duration.Hour))));
    last ← must "LastDeliveries" (LastDeliveries ["ops-discord"; "never-used"]);
    _ ← match last !! "ops-discord" with
        | None => fatalf "LastDeliveries has no entry for a channel that has delivered"
        | Some got => check (differ (dl_ID got) "d21" || differ (dl_State got) DeliveryFailed || differ (dl_Status got) 404) "a broken channel must not read as a quiet one"
        end;
    check (match last !! "never-used" with Some _ => true | None => false end) "a channel that has never delivered is present in the map");
  ("asking about no channel at all is not a query",
    last ← must "LastDeliveries(nil)" (LastDeliveries []);
    check (differ (size last) 0%nat) "want empty")
].
Definition notify_tests : suite (S := S) := notify_claim_tests ++ story_tests ++ delivery_tests ++ backlog_tests.

(** ** [ValuesConformance] *)

Definition num (s : string) : float64 := default (S754_zero false) (ParseFloat s).
Definition writeCaptured (runID : string) (seq : Z) (checkName valueName value : string) : T unit :=
  _ ← must "SaveCheck" (SaveCheck runID seq (mkCheckResult checkName "command" CheckPass Time.zero Time.zero 0 0 (Lit "") ∅));
  must "SaveCheckValue" (SaveCheckValue runID seq valueName (num value)).
Definition verdict (id workload : string) (hours : Z) : T unit :=
  writeRun (finishedRun id workload RunSuccess ResultSuccess ProofData (Time.Add base_notify (hours * Duration.Hour))).
(** The one reading that the workload has under the name of its check. *)
Definition only_100 (message : string) : T unit :=
  got ← must "CapturedValues" (CapturedValues "110" "orders" "rows" 5); check (differ got [num "100"]) message.

Definition captured_tests : suite (S := S) := [
  ("a value is read back with the precision it was written with",
    _ ← verdict "v1" "110" 0;
    _ ← writeCaptured "v1" 0 "orders" "rows" "1204331.5";
    _ ← writeCaptured "v1" 1 "latency" "ms" "-0.25";
    got ← must "RunCheckValues" (RunCheckValues "v1");
    _ ← check (differ (got !! (0, "rows")) (Some (num "1204331.5"))) "an integer column would have truncated it";
    _ ← check (differ (got !! (1, "ms")) (Some (num "-0.25"))) "want -0.25";
    history ← must "CapturedValues" (CapturedValues "110" "orders" "rows" 5);
    check (differ history [num "1204331.5"]) "want [1204331.5]");
  ("captured values come back most recent first and honour the limit",
    _ ← each 0 [("v2a", "100"); ("v2b", "200"); ("v2c", "300"); ("v2d", "400")] (fun i x =>
      _ ← verdict x.1 "110" i; writeCaptured x.1 0 "orders" "rows" x.2);
    got ← must "CapturedValues" (CapturedValues "110" "orders" "rows" 10);
    _ ← require (differ got [num "400"; num "300"; num "200"; num "100"]) "the history reads backwards";
    limited ← must "CapturedValues with a limit" (CapturedValues "110" "orders" "rows" 2);
    check (differ limited [num "400"; num "300"]) "want [400 300]");
  ("another workload's values are not returned",
    _ ← verdict "v3a" "110" 0; _ ← writeCaptured "v3a" 0 "orders" "rows" "100";
    _ ← verdict "v3b" "120" 0; _ ← writeCaptured "v3b" 0 "orders" "rows" "999";
    only_100 "another machine's history is not this machine's baseline");
  ("another check's values are not returned",
    _ ← verdict "v4" "110" 0; _ ← writeCaptured "v4" 0 "orders" "rows" "100"; _ ← writeCaptured "v4" 1 "customers" "rows" "999";
    only_100 "two checks of one plan measure two different things");
  ("another capture name's values are not returned",
    _ ← verdict "v5" "110" 0; _ ← writeCaptured "v5" 0 "orders" "rows" "100";
    _ ← must "SaveCheckValue" (SaveCheckValue "v5" 0 "bytes" (num "999"));
    only_100 "one check may capture several numbers")
].
Definition baseline_tests : suite (S := S) :=
  let base := base_notify in [
  ("a run that reached no verdict contributes no baseline",
    _ ← verdict "v6a" "110" 0; _ ← writeCaptured "v6a" 0 "orders" "rows" "100";
    _ ← writeRun (finishedRun "v6b" "110" RunInconclusive ResultNone ProofNone (Time.Add base Duration.Hour));
    _ ← writeCaptured "v6b" 0 "orders" "rows" "0";
    _ ← writeRun (finishedRun "v6c" "110" RunCancelled ResultNone ProofNone (Time.Add base (2 * Duration.Hour)));
    _ ← writeCaptured "v6c" 0 "orders" "rows" "0";
    _ ← only_100 "an unevaluable drill is not a reading about the workload";
    run ← must "RunCheckValues" (RunCheckValues "v6b");
    check (differ (size run) 1%nat) "want the value the drill did measure");
  ("deleting a run deletes its values",
    _ ← verdict "v7" "110" 0; _ ← writeCaptured "v7" 0 "orders" "rows" "100";
    n ← countValues "v7";
    _ ← require (differ n 1%nat) "before the delete, want 1";
    _ ← raw (delete_run "v7");
    n ← countValues "v7";
    check (differ n 0%nat) "outlived the run they belong to");
  ("saving the same reading twice replaces it",
    _ ← verdict "v8" "110" 0; _ ← writeCaptured "v8" 0 "orders" "rows" "100";
    _ ← must "SaveCheckValue on the retry" (SaveCheckValue "v8" 0 "rows" (num "250.5"));
    got ← must "CapturedValues" (CapturedValues "110" "orders" "rows" 5);
    _ ← require (differ (length got) 1%nat) "a retry wrote a second row";
    x ← nth_ got 0;
    _ ← check (differ x (num "250.5")) "the last attempt is what the drill measured";
    n ← countValues "v8";
    check (differ n 1%nat) "the run holds value rows, want 1");
  ("a workload with no history has no values",
    got ← must "CapturedValues" (CapturedValues "999" "orders" "rows" 5);
    _ ← check (differ (length got) 0%nat) "want none";
    run ← must "RunCheckValues on an unknown run" (RunCheckValues "nope");
    check (differ (size run) 0%nat) "want none")
].
Definition values_tests : suite (S := S) := captured_tests ++ baseline_tests.

(** ** [TokensConformance] *)

Definition token_clock : Z := Date 2026 9 1 12 0 0 0.
Definition sampleToken (id name hash : string) : APIToken := mkAPIToken id name hash token_clock Time.zero Time.zero [].
Definition scoped (scopes : list string) (t : APIToken) : APIToken :=
  mkAPIToken (tk_ID t) (tk_Name t) (tk_Hash t) (tk_CreatedAt t) (tk_LastUsedAt t) (tk_RevokedAt t) scopes.

Definition tokens_tests : suite (S := S) := [
  ("create then look up by hash",
    let want := sampleToken "t-1" "dashboard" "aaaa0000" in
    _ ← must "CreateToken" (CreateToken want);
    got ← must "TokenByHash" (TokenByHash (tk_Hash want));
    _ ← check (differ (tk_ID got) (tk_ID want) || differ (tk_Name got) (tk_Name want) || differ (tk_Hash got) (tk_Hash want)) "token";
    _ ← check (differ (tk_CreatedAt got) (tk_CreatedAt want)) "CreatedAt";
    check (negb (Time.IsZero (tk_LastUsedAt got)) || negb (Time.IsZero (tk_RevokedAt got))) "a fresh token must have no last_used_at and no revoked_at");
  ("an unknown hash is not found", expect IsNotFound "want ErrNotFound" (TokenByHash "nothing"));
  ("a revoked token stops being found",
    let tok := sampleToken "t-2" "ci" "bbbb0000" in
    _ ← must "CreateToken" (CreateToken tok);
    let at_ := Date 2026 9 2 9 0 0 0 in
    _ ← must "RevokeToken" (RevokeToken (tk_Name tok) at_);
    _ ← expect IsNotFound "a revoked token was still accepted" (TokenByHash (tk_Hash tok));
    expect IsNotFound "second RevokeToken, want ErrNotFound" (RevokeToken (tk_Name tok) at_));
  ("revoking an unknown name is not found", expect IsNotFound "want ErrNotFound" (RevokeToken "never-existed" nowUTC));
  ("two tokens cannot share a name",
    _ ← must "CreateToken" (CreateToken (sampleToken "t-3" "same" "cccc0000"));
    fails "a duplicate name was accepted" (CreateToken (sampleToken "t-4" "same" "dddd0000")));
  ("the listing shows revoked tokens too",
    let live := sampleToken "t-5" "live" "eeee0000" in
    let dead := mkAPIToken "t-6" "dead" "ffff0000" (Time.Add token_clock Duration.Hour) Time.zero Time.zero [] in
    _ ← each 0 [live; dead] (fun _ tok => must "CreateToken" (CreateToken tok));
    let revokedAt := Date 2026 9 3 8 0 0 0 in
    _ ← must "RevokeToken" (RevokeToken (tk_Name dead) revokedAt);
    got ← must "ListTokens" ListTokens;
    _ ← require (differ (length got) 2%nat) "a revoked token must stay visible";
    a ← nth_ got 0; b ← nth_ got 1;
    _ ← require (differ (tk_Name a) "live" || differ (tk_Name b) "dead") "want oldest first";
    check (differ (tk_RevokedAt b) revokedAt) "RevokedAt");
  ("touching a token records when it was last used",
    let tok := sampleToken "t-7" "touched" "12340000" in
    _ ← must "CreateToken" (CreateToken tok);
    let used := Date 2026 9 4 7 30 0 0 in
    _ ← must "TouchToken" (TouchToken (tk_ID tok) used);
    got ← must "TokenByHash" (TokenByHash (tk_Hash tok));
    check (differ (tk_LastUsedAt got) used) "LastUsedAt")
].

(** ** [SessionsConformance] *)

Definition sessionClock : Z := Date 2026 9 1 12 0 0 0.
Definition sampleSession (id hash tokenID : string) : Session :=
  mkSession id hash tokenID sessionClock (Time.Add sessionClock (12 * Duration.Hour)) "Mozilla/5.0 (test)".
Definition withToken : T APIToken :=
  let tok := sampleToken "tok-1" "dashboard" "hash-tok-1" in _ ← must "CreateToken" (CreateToken tok); mret tok.
Definition opened (id hash : string) (tok : APIToken) : T Session :=
  let sess := sampleSession id hash (tk_ID tok) in _ ← must "CreateSession" (CreateSession sess sessionClock); mret sess.

Definition session_lookup_tests : suite (S := S) := [
  ("create then look up by hash",
    tok ← withToken;
    want ← opened "sess-1" "hash-sess-1" tok;
    got ← must "SessionByHash" (SessionByHash (ss_Hash want) sessionClock);
    _ ← check (differ (ss_ID got.1) (ss_ID want) || differ (ss_TokenID got.1) (ss_TokenID want) || differ (ss_UserAgent got.1) (ss_UserAgent want)) "session";
    _ ← check (differ (ss_ExpiresAt got.1) (ss_ExpiresAt want)) "ExpiresAt";
    check (differ (tk_ID got.2) (tk_ID tok) || differ (tk_Name got.2) (tk_Name tok)) "want the token the session names");
  ("the token's scopes come back with the session",
    let tok := scoped [ScopeOperate] (sampleToken "tok-scoped" "operator" "hash-tok-scoped") in
    _ ← must "CreateToken" (CreateToken tok);
    sess ← opened "sess-scoped" "hash-sess-scoped" tok;
    got ← must "SessionByHash" (SessionByHash (ss_Hash sess) sessionClock);
    check (negb (Can got.2 ScopeOperate) || Can got.2 ScopeManage) "want operate and not manage");
  ("an unknown hash is not found",
    _ ← withToken; expect IsNotFound "want ErrNotFound" (SessionByHash "nothing" sessionClock));
  ("an expired session is not found",
    tok ← withToken;
    sess ← opened "sess-old" "hash-sess-old" tok;
    expect IsNotFound "an expired session was still accepted" (SessionByHash (ss_Hash sess) (Time.Add (ss_ExpiresAt sess) Duration.Second)))
].
Definition session_end_tests : suite (S := S) := [
  ("revoking the token kills the session at once",
    tok ← withToken;
    sess ← opened "sess-rev" "hash-sess-rev" tok;
    _ ← must "RevokeToken" (RevokeToken (tk_Name tok) (Time.Add sessionClock Duration.Minute));
    expect IsNotFound "a revoked token still carried a live session" (SessionByHash (ss_Hash sess) (Time.Add sessionClock (2 * Duration.Minute))));
  ("deleting a session twice is not an error",
    tok ← withToken;
    sess ← opened "sess-del" "hash-sess-del" tok;
    _ ← must "DeleteSession" (DeleteSession (ss_Hash sess));
    _ ← must "DeleteSession a second time" (DeleteSession (ss_Hash sess));
    expect IsNotFound "a deleted session was still found" (SessionByHash (ss_Hash sess) sessionClock));
  ("creating a session sweeps the expired ones",
    tok ← withToken;
    old ← opened "sess-sweep-old" "hash-sweep-old" tok;
    let later := Time.Add (ss_ExpiresAt old) Duration.Hour in
    _ ← must "CreateSession(fresh)" (CreateSession (mkSession "sess-sweep-new" "hash-sweep-new" (tk_ID tok) later (Time.Add later (12 * Duration.Hour)) "") later);
    n ← must "DeleteExpiredSessions" (DeleteExpiredSessions later);
    check (differ n 0) "CreateSession should have swept them");
  ("deleting the token deletes its sessions",
    tok ← withToken;
    sess ← opened "sess-cascade" "hash-sess-cascade" tok;
    _ ← raw (delete_token (tk_ID tok));
    expect IsNotFound "a session outlived the token row it names" (SessionByHash (ss_Hash sess) sessionClock))
].
Definition sessions_tests : suite (S := S) := session_lookup_tests ++ session_end_tests.

(** The whole suite. *)
Definition conformance : list (string * list string) :=
  failures (run_tests ++ steps_and_checks_tests ++ events_tests nowUTC ++ list_tests ++ last_runs_tests ++ temp_workload_tests ++
    queue_write_tests ++ queue_claim_tests ++ queue_states_tests ++ plan_tests ++ schedule_tests ++ notify_tests ++ values_tests ++
    tokens_tests ++ sessions_tests).
End Suites.

(** * Both engines conform

    The conformance suite run on the two databases of [Store]: every test is computed,
    but for the three that race, which hold whatever order their goroutines run in. *)

(** ** Whatever order goroutines run in *)

Section Order.
Context {S : Type} `{Engine S} {A : Type} (pick : nat -> nat) (body : nat -> A -> T S (bool * A)).
Abbreviation T := (T S).

(** Goroutines that go on, and that end, called in a given order. *)
Fixpoint chain (order : list nat) (shared : A) : T A :=
  match order with
  | [] => mret shared
  | i :: order => '(more, shared) ← body i shared; if more : bool then chain order shared else fatalf "ended"
  end.
Fixpoint in_turn (order : list nat) (shared : A) : T A :=
  match order with [] => mret shared | i :: order => '(_, shared) ← body i shared; in_turn order shared end.

Lemma goroutines_chain n m active shared t :
  active <> [] -> (forall order, length order = n -> is_Some (chain order shared t).1) ->
  exists order shared' t', length order = n /\ chain order shared t = (Some shared', t') /\
    goroutines (n + m) pick body active shared t = goroutines m pick body active shared' t'.
Proof.
  intros Ha. revert shared t. induction n as [|n IH]; intros shared t Hc; [by exists [], shared, t|].
  destruct active as [|a active]; [done|]. set (i := nth (Nat.modulo (pick (n + m)%nat) (length (a :: active))) (a :: active) O).
  assert (exists shared1 t1, body i shared t = (Some (true, shared1), t1)) as (shared1 & t1 & E).
  { destruct (Hc (i :: repeat O n)) as [x Hx]; [cbn [length]; by rewrite repeat_length|]. cbn [chain] in Hx. unfold mbind, T_bind in Hx.
    destruct (body i shared t) as [[[[] shared1]|] t1]; [by exists shared1, t1|done..]. }
  destruct (IH shared1 t1) as (order & shared' & t' & Hl & Ho & Hg).
  { intros order Hl. specialize (Hc (i :: order) ltac:(cbn [length]; by rewrite Hl)). cbn [chain] in Hc. unfold mbind, T_bind in Hc. by rewrite E in Hc. }
  exists (i :: order), shared', t'. split_and!; [cbn [length]; by rewrite Hl|cbn [chain]; unfold mbind, T_bind; by rewrite E|].
  cbn [goroutines Nat.add]. fold i. unfold mbind, T_bind. by rewrite E.
Qed.

Lemma filter_out (i : nat) l : NoDup l -> i ∈ l -> l ≡ₚ i :: List.filter (fun j => negb (j =? i)%nat) l.
Proof.
  intros Hn Hi. assert (forall l, i ∉ l -> List.filter (fun j => negb (j =? i)%nat) l = l) as Hid.
  { induction l0 as [|x l0 IH]; [done|]. intros Hx. apply not_elem_of_cons in Hx as [Hx Hl]. cbn.
    rewrite (proj2 (Nat.eqb_neq x i)) by congruence. cbn. by rewrite IH. }
  induction Hn as [|x l Hx Hn IH]; [by apply not_elem_of_nil in Hi|]. cbn. destruct (Nat.eqb_spec x i) as [->|Hne]; cbn.
  - by rewrite (Hid l Hx).
  - apply elem_of_cons in Hi as [->|Hi]; [done|]. rewrite (IH Hi) at 1. apply Permutation_swap.
Qed.
Lemma goroutines_in_turn n active shared t : NoDup active -> length active = n ->
  (forall i shared t, exists shared' t', body i shared t = (Some (false, shared'), t')) ->
  exists order, order ≡ₚ active /\ goroutines n pick body active shared t = in_turn order shared t.
Proof.
  intros Hn Hl Hb. revert active shared t Hn Hl. induction n as [|n IH]; intros active shared t Hn Hl.
  { exists []. by destruct active. }
  destruct active as [|a active]; [done|]. set (i := nth (Nat.modulo (pick n) (length (a :: active))) (a :: active) O).
  assert (i ∈ a :: active) as Hi. { apply list_elem_of_In, nth_In, Nat.mod_upper_bound. done. }
  destruct (Hb i shared t) as (shared' & t' & E). pose proof (filter_out i _ Hn Hi) as Hp.
  destruct (IH (List.filter (fun j => negb (j =? i)%nat) (a :: active)) shared' t') as (order & Ho & Hg).
  { rewrite Hp in Hn. by apply NoDup_cons in Hn as [_ ?]. }
  { apply Permutation_length in Hp. rewrite Hl in Hp. cbn [length] in Hp. lia. }
  exists (i :: order). split; [rewrite Ho; by symmetry|]. cbn [goroutines in_turn]. fold i. unfold mbind, T_bind. by rewrite E.
Qed.
Lemma in_turn_idle order shared t : (forall i, i ∈ order -> body i shared t = (Some (false, shared), t)) -> in_turn order shared t = (Some shared, t).
Proof.
  induction order as [|i order IH]; intros Hb; [done|]. cbn. unfold mbind, T_bind. rewrite Hb by by left. apply IH. intros j Hj. apply Hb. by right.
Qed.
Lemma goroutines_idle n active shared t : length active = n -> NoDup active ->
  (forall i, body i shared t = (Some (false, shared), t)) -> goroutines n pick body active shared t = (Some shared, t).
Proof.
  intros Hl Hn Hb. revert active Hl Hn. induction n as [|n IH]; intros active Hl Hn; [by destruct active|].
  destruct active as [|a active]; [done|]. set (i := nth (Nat.modulo (pick n) (length (a :: active))) (a :: active) O).
  assert (i ∈ a :: active) as Hi. { apply list_elem_of_In, nth_In, Nat.mod_upper_bound. done. }
  pose proof (filter_out i _ Hn Hi) as Hp. cbn [goroutines]. fold i. unfold mbind, T_bind. rewrite Hb.
  apply IH; [apply Permutation_length in Hp; rewrite Hl in Hp; cbn [length] in Hp; lia|].
  rewrite Hp in Hn. by apply NoDup_cons in Hn as [_ ?].
Qed.
End Order.

(** ** The two engines *)

(** JSON that keeps what it is given. *)
Definition plain_json : JSON := {| json_details m := Some m; json_check c := Some c |}.
Definition engine (d : dialect) : Engine Database := {|
  open_ := empty_database;
  do_ A c := sqlStore (H := byte_order) (H0 := plain_json) d c;
  tables_ := Some (id, fun s _ => s);
|}.

Section Engines.
Context (d : dialect) (pick : nat -> nat).
#[local] Instance engine_d : Engine Database := engine d.

Definition fresh : Test Database := mkTest open_ [].
(** What the twelve claims of the race leave: every run was claimed once. *)
Definition each_once : gmap string nat * nat := (list_to_map (map (fun id => (id, 1%nat)) race_runs), length race_runs).
Definition enqueued : Test Database :=
  (each 0 race_runs (fun i id => must "Enqueue" (Enqueue (queuedRun id (pretty (200 + i))) nameX (Time.Add base_queue (i * Duration.Second)))) fresh).2.
Lemma no_work_left owner st :
  (Queue.ClaimRun owner lease base_queue (dt_runs st)).1 = inl ErrNoWork ->
  sqlStore (H := byte_order) (H0 := plain_json) d (ClaimRun owner lease base_queue) st = (inl (FStore ErrNoWork), st).
Proof.
  pose proof (ClaimRun_spec owner lease base_queue (dt_runs st)) as Hc. cbn. unfold decide_, queue.
  destruct (Queue.ClaimRun owner lease base_queue (dt_runs st)) as [[e|q] t]; [|done]. destruct Hc as (-> & -> & _). by destruct st.
Qed.
Lemma twelve_claims (name : nat -> string) order : length order = 12%nat ->
  exists t, chain (racer name) order (∅, O) enqueued = (Some each_once, t) /\ te_failed t = [] /\
    forall i, racer name i each_once t = (Some (false, each_once), t).
Proof.
  intros Hl. assert ((chain (racer name) order (∅, O) enqueued).1 = Some each_once /\ te_failed (chain (racer name) order (∅, O) enqueued).2 = [] /\
    forall owner, (Queue.ClaimRun owner lease base_queue (dt_runs (te_store (chain (racer name) order (∅, O) enqueued).2))).1 = inl ErrNoWork) as (H1 & H2 & H3).
  { destruct order as [|i0 [|i1 [|i2 [|i3 [|i4 [|i5 [|i6 [|i7 [|i8 [|i9 [|i10 [|i11 [|? ?]]]]]]]]]]]]]; try discriminate Hl.
    destruct d; split_and!; intros; vm_compute; reflexivity. }
  destruct (chain _ _ _ _) as [r t]. cbn [fst snd] in H1, H2, H3. subst r. exists t. split_and!; [done..|]. intros i.
  unfold racer, mbind, T_bind, call. change (do_ ?A ?c) with (sqlStore (H := byte_order) (H0 := plain_json) d c).
  rewrite (no_work_left (name i) _ (H3 _)). by destruct t.
Qed.
Lemma claims_race : failures_of (nth 3 (claim_tests pick) ("", mret tt)).2 = [].
Proof.
  set (worker := fun w : nat => "worker-" +:+ pretty w).
  destruct (goroutines_chain pick (racer worker) 12 4 (seq 0 4) (∅, O) enqueued) as (order & shared & t & Hl & Hc & Hg).
  { done. } { intros order Hl. destruct (twelve_claims worker order Hl) as (t & -> & _). by eexists. }
  destruct (twelve_claims worker order Hl) as (t' & Hc' & Hf & Hi). rewrite Hc in Hc'. injection Hc' as -> ->.
  rewrite (goroutines_idle pick (racer worker) 4 (seq 0 4) each_once t' eq_refl (NoDup_seq _ _) Hi) in Hg.
  assert (each 0 race_runs (fun i id => must "Enqueue" (Enqueue (queuedRun id (pretty (200 + i))) nameX (Time.Add base_queue (i * Duration.Second)))) fresh =
    (Some tt, enqueued)) as He by (destruct d; vm_compute; reflexivity).
  unfold failures_of. cbn [nth claim_tests snd]. unfold mbind, T_bind. fold fresh. rewrite He.
  change (length race_runs + 4)%nat with (12 + 4)%nat. fold worker. rewrite Hg. destruct t' as [st failed]. cbn in Hf. subst failed. vm_compute. reflexivity.
Qed.

(** The race for a slot. *)
Definition planned : Test Database := (must "CreatePlan" (CreatePlan (samplePlan "plan-race" "linux-nightly")) fresh).2.
Definition claim_ (i : nat) : nat * nat -> T Database (bool * (nat * nat)) := claimer (samplePlan "plan-race" "linux-nightly") i.
Lemma claimer_ends p i shared t : exists shared' t', claimer p i shared t = (Some (false, shared'), t').
Proof. unfold claimer, mbind, T_bind, call. destruct (do_ _ _ _) as [r s']. by eexists _, _. Qed.
(** A claim that comes first wins; one that comes later is a duplicate. *)
Definition key_of (p : StoredPlan) : string * Z := (sp_ID p, slotAt).
Definition first_ok (i : nat) : bool :=
  match claim_ i (O, O) planned with
  | (Some (more, (won, bad)), t) =>
    negb more && (won =? 1)%nat && (bad =? 0)%nat && bool_decide (te_failed t = []) &&
    bool_decide (is_Some (dt_slots (te_store t) !! key_of (samplePlan "plan-race" "linux-nightly"))) &&
    forallb (fun j => (j =? i)%nat || bool_decide (dt_runs (te_store t) !! racer_id j = None)) (seq 0 8) &&
    (length (Listing.ListRuns (H := byte_order) (mkFilter "110" RunStateEmpty ResultNone Time.zero 0 None true) (dt_runs (te_store t))) =? 1)%nat
  | _ => false
  end.
Lemma first_claims : forallb first_ok (seq 0 8) = true.
Proof. destruct d; vm_compute; reflexivity. Qed.
Lemma late_claim j t : is_Some (dt_slots (te_store t) !! key_of (samplePlan "plan-race" "linux-nightly")) -> dt_runs (te_store t) !! racer_id j = None ->
  claim_ j (1%nat, O) t = (Some (false, (1%nat, O)), t).
Proof.
  intros Hs Hr. unfold claim_, claimer, mbind, T_bind, call. change (do_ ?A ?c) with (sqlStore (H := byte_order) (H0 := plain_json) d c).
  set (p := samplePlan "plan-race" "linux-nightly") in *. set (run := queuedRun (racer_id j) "110").
  assert (queue_run run (sp_YAML p) slotAt (catalogue (te_store t)) =
    inr (mkDB (<[run_ID run := queued_row run (sp_YAML p) slotAt]> (dt_runs (te_store t))) (dt_plans (te_store t)) (dt_slots (te_store t)))) as Hq.
  { unfold queue_run. change (nonempty (run_PlanID run) && _) with false. unfold Queue.Enqueue, insert_row. cbn [catalogue db_runs]. change (run_ID run) with (racer_id j). by rewrite Hr. }
  cbn [sqlStore]. unfold attempt, Catalog.ClaimSlot. cbn [slot_Outcome slot_DecidedAt]. rewrite Hq. unfold insert_slot. cbn [slot_PlanID slot_SlotAt db_slots].
  rewrite bool_decide_true by exact Hs. by destruct t.
Qed.
Lemma slots_race : failures_of (nth 2 (slot_claim_tests pick) ("", mret tt)).2 = [].
Proof.
  destruct (goroutines_in_turn pick claim_ 8 (seq 0 8) (O, O) planned) as (order & Ho & Hg).
  { apply NoDup_seq. } { done. } { apply claimer_ends. }
  destruct order as [|i order]; [by apply Permutation_length in Ho|].
  assert (NoDup (i :: order)) as Hn by (rewrite Ho; apply NoDup_seq).
  assert (forall j, j ∈ i :: order -> In j (seq 0 8)) as Hin by (intros j Hj; apply list_elem_of_In; by rewrite <- Ho).
  pose proof first_claims as Hf. rewrite forallb_forall in Hf. specialize (Hf i (Hin i ltac:(by left))).
  unfold first_ok in Hf. destruct (claim_ i (O, O) planned) as [[[more [won bad]]|] t] eqn:E; [|done].
  rewrite !andb_true_iff, !bool_decide_eq_true, !Nat.eqb_eq, forallb_forall in Hf. destruct Hf as ((((((Hmore & ->) & ->) & Hfail) & Hslot) & Hids) & Hlist).
  assert (in_turn claim_ (i :: order) (O, O) planned = (Some (1%nat, O), t)) as Ht.
  { cbn [in_turn]. unfold mbind, T_bind. rewrite E. apply in_turn_idle. intros j Hj. apply late_claim; [done|].
    apply NoDup_cons in Hn as [Hi _]. specialize (Hids j (Hin j ltac:(by right))). apply orb_true_iff in Hids as [Hij|Hid]; [|by apply bool_decide_eq_true in Hid].
    apply Nat.eqb_eq in Hij. congruence. }
  rewrite Ht in Hg. assert (must "CreatePlan" (CreatePlan (samplePlan "plan-race" "linux-nightly")) fresh = (Some tt, planned)) as Hp by (destruct d; vm_compute; reflexivity).
  unfold failures_of. cbn [nth slot_claim_tests snd]. unfold create, mbind, T_bind. fold fresh. rewrite Hp. cbn [mret T_ret].
  change (claimer (samplePlan "plan-race" "linux-nightly")) with claim_. rewrite Hg. cbn [fst snd require Nat.ltb Nat.leb].
  unfold must, call, mbind, T_bind. change (do_ ?A ?c) with (sqlStore (H := byte_order) (H0 := plain_json) d c). cbn [sqlStore ask queue te_store].
  unfold require. rewrite bool_decide_true by done. cbn [negb mret T_ret]. unfold queue. rewrite Hlist. destruct t as [st failed]. cbn in Hfail. subst failed. reflexivity.
Qed.

(** The race for a run to announce: the calls are the same, whoever makes them. *)
Lemma dispatchers_race : failures_of (nth 0 (notify_claim_tests pick) ("", mret tt)).2 = [].
Proof.
  set (written := (writeRun (finishedRun "n1" "110" RunSuccess ResultSuccess ProofService base_notify) fresh).2).
  destruct (goroutines_in_turn pick dispatcher_racer 4 (seq 0 4) O written) as (order & Ho & Hg).
  { apply NoDup_seq. } { done. }
  { intros i shared t. unfold dispatcher_racer, mbind, T_bind, call. destruct (do_ _ _ _) as [[e|[]] s]; by eexists _, _. }
  apply Permutation_length in Ho. destruct order as [|i0 [|i1 [|i2 [|i3 [|? ?]]]]]; try discriminate Ho.
  assert (writeRun (finishedRun "n1" "110" RunSuccess ResultSuccess ProofService base_notify) fresh = (Some tt, written)) as Hw by (destruct d; vm_compute; reflexivity).
  unfold failures_of. cbn [nth notify_claim_tests snd]. unfold mbind, T_bind. fold fresh. rewrite Hw, Hg. destruct d; vm_compute; reflexivity.
Qed.
End Engines.

Lemma failures_nil {S} `{Engine S} (l : suite) : Forall (fun x => failures_of x.2 = []) l -> failures l = [].
Proof.
  unfold failures. induction 1 as [|x l Hx _ IH]; [done|]. cbn [map List.filter]. rewrite Hx. cbn [snd]. by rewrite bool_decide_true.
Qed.
(** A suite without its races: computed. *)
Ltac play := lazymatch goal with
  | |- Forall _ [] => constructor
  | |- Forall _ (("concurrent workers never claim the same run", _) :: _) => constructor; [apply claims_race|play]
  | |- Forall _ (("concurrent claims of one slot produce exactly one drill", _) :: _) => constructor; [apply slots_race|play]
  | |- Forall _ (("only one dispatcher ever claims a run", _) :: _) => constructor; [apply dispatchers_race|play]
  | |- Forall _ (_ :: _) => constructor; [vm_compute; reflexivity|play]
  | |- Forall ?P ?l => let l := eval hnf in l in change (Forall P l); play
  end.

(** C27: Both engines conform. The whole suite that the two databases are held to, every
    test of it on a fresh store, notes no failure on either dialect, whatever the clock
    says and in whatever order the goroutines of its races are scheduled. *)
Theorem both_engines_conform d nowUTC pick : conformance (H := engine d) nowUTC pick = [].
Proof.
  apply (failures_nil (H := engine d)). unfold run_tests, list_tests, queue_write_tests, queue_claim_tests, plan_tests, schedule_tests,
    notify_tests, values_tests, sessions_tests. rewrite !Forall_app. split_and!; destruct d; play.
Qed.

(** The suite is not met by saying nothing. *)
Definition noop : Engine unit := {| open_ := tt; do_ A c := Noop c; tables_ := None |}.
Example noop_does_not_conform : length (conformance (H := noop) 5 (fun n => n)) = 105%nat.
Proof. vm_compute. reflexivity. Qed.
