(* ===== verification/ApiBase.v ===== *)
(** * Requests, responses and problems of the API

    Models internal/api/problem.go and what the handlers share: the state they
    act on, and everything outside of it as the class [ApiEnv]. A body is the JSON
    document it encodes, a detail the text that [scrubSecrets] reads. *)

From Stdlib Require Import ZArith Lia String Ascii List.
From S2P Require Import Prelude GoTime Errors Core GoString Config Channels Queue Timeline Catalog Story Deliveries Credentials.

(** ** Requests and responses *)

(** What the handlers read of an [http.Request]. A header, a query parameter or a
    path variable that is absent reads as "", a body that cannot be read as
    nothing. *)
Record HttpRequest := mkHttpRequest {
  hr_Method : string;
  hr_Path : string;
  hr_Host : string;
  hr_TLS : bool;
  hr_Header : string -> string;
  hr_SessionCookie : option string;
  hr_Query : string -> string;
  hr_PathValue : string -> string;
  hr_Body : option string;
}.

(** The session cookie of a response: its other attributes are fixed. *)
Record Cookie := mkCookie { ck_Value : string; ck_Expires : option Z; ck_MaxAge : Z }.

(** [Problem]. *)
Record Problem := mkProblem {
  pb_Type : string;
  pb_Title : string;
  pb_Status : Z;
  pb_Detail : text;
  pb_Instance : string;
}.

(** A body: a problem, one that says how far a setup got, a document, a text, or none. *)
Inductive Payload :=
| PayloadProblem (p : Problem)
| PayloadSetupFailure (p : Problem) (steps : list (string * json))
| PayloadJSON (body : json)
| PayloadText (type body : string)
| PayloadNone.
Record Response := mkResponse {
  rp_Status : Z;
  rp_Headers : list (string * string);
  rp_Cookie : option Cookie;
  rp_Payload : Payload;
}.

(** ** Errors *)

(** What a handler meets: an error of the store, a database that is not there or
    does not answer, a document that is not a plan, an error of a provider, or
    any other. *)
Inductive api_error :=
| EStore (err : store_error)
| ENoHistory
| EInvalidPlan (err : error)
| ECore (err : error)
| EOther (message : text).

(** [Error] of the store's errors. *)
Definition store_error_text (e : store_error) : text :=
  match e with
  | ErrNotFound id => Sprintf "%w: %s" [AStr "store: run not found"; AStr id]
  | ErrAmbiguous id => Sprintf "%w: %s" [AStr "store: id prefix matches more than one run"; AStr id]
  | ErrNoWork => Lit "store: no queued run to claim"
  | ErrDuplicate => Lit "store: that name is already taken"
  | ErrSettled id state => Sprintf "%w: run %s is %s" [AStr "store: run has already settled"; AStr id; AStr (RunState_to_string state)]
  | ErrNotLeased id owner => Sprintf "store: run %s is not leased to %s" [AStr id; AStr owner]
  | ErrConstraint id => Sprintf "constraint failed on %s" [AStr id]
  | ErrVersionConflict => Lit "store: the plan changed since it was read"
  | ErrSlotNeedsRun => Lit "store: a queued slot needs the run it queued"
  end.
Definition api_error_text (e : api_error) : text :=
  match e with
  | EStore err => store_error_text err
  | ENoHistory => Lit "store: no history database is configured"
  | EInvalidPlan err => Sprintf "%w: %w" [AStr "catalog: the plan is not valid"; AText (Error err)]
  | ECore err => Error err
  | EOther message => message
  end.

(** ** Problems *)

Definition problemBase : string := "https://restorelab.dev/problems/".
Definition problemContentType : string := "application/problem+json".

(** [newProblem] and [writeProblem]. *)
Definition newProblem (kind title : string) (status : Z) (detail : text) : Problem :=
  mkProblem (problemBase +:+ kind) title status detail "".
Definition writeProblem (r : HttpRequest) (p : Problem) : Response :=
  mkResponse (pb_Status p) [("Content-Type", problemContentType)] None
    (PayloadProblem (mkProblem (pb_Type p) (pb_Title p) (pb_Status p) (pb_Detail p) (hr_Path r))).

(** [problemFor]. *)
Definition problemFor (e : api_error) : Problem :=
  let internal := newProblem "internal" "Internal error" 500 (api_error_text e) in
  match e with
  | EStore (ErrNotFound _) => newProblem "not-found" "No such recovery run" 404 (api_error_text e)
  | EStore (ErrAmbiguous _) =>
    newProblem "ambiguous-id" "Ambiguous run id" 409
      (Lit "that prefix matches more than one drill: give a few more characters")
  | ENoHistory =>
    newProblem "history-unavailable" "The drill history is unavailable" 503
      (Lit "this RestoreLab has no usable history database; see `restorelab db status`")
  | EStore (ErrSettled _ _) => newProblem "already-settled" "This drill is already over" 409 (api_error_text e)
  | EStore ErrDuplicate => newProblem "name-taken" "That name is already used by another plan" 409 (api_error_text e)
  | EStore ErrVersionConflict =>
    newProblem "version-conflict" "The plan changed since you read it" 409
      (Lit "reload the plan, apply your change to the current version, and send it again")
  | EInvalidPlan _ => newProblem "invalid-plan" "This document is not a valid recovery plan" 400 (api_error_text e)
  | ECore err =>
    if Is err Errors.ErrNotFound then newProblem "not-found" "Not found" 404 (api_error_text e)
    else if Is err ErrNoBackup then newProblem "no-backup" "No backup available" 404 (api_error_text e)
    else internal
  | EStore _ | EOther _ => internal
  end.

(** [problemForUpstream]. *)
Definition problemForUpstream (e : api_error) : Problem :=
  let failure := newProblem "upstream-failure" "The cluster could not be queried" 502 (api_error_text e) in
  match e with
  | ECore err =>
    if Is err ErrUnauthorized then
      newProblem "upstream-rejected" "The cluster refused RestoreLab's credentials" 502
        (Lit "RestoreLab's own provider token was rejected; this is not a problem with your API token. Run `restorelab doctor`.")
    else if Is err ErrTimeout || Is err context_DeadlineExceeded then
      newProblem "upstream-timeout" "The cluster did not answer in time" 504 (api_error_text e)
    else if Is err Errors.ErrNotFound || Is err ErrNoBackup then problemFor e
    else failure
  | EStore (ErrNotFound _) | EStore (ErrAmbiguous _) | ENoHistory => problemFor e
  | _ => failure
  end.

(** [problemForPlan] (plans.go). *)
Definition problemForPlan (e : api_error) : Problem :=
  match e with
  | EStore (ErrNotFound _) => newProblem "not-found" "No such plan" 404 (api_error_text e)
  | EStore (ErrAmbiguous _) =>
    newProblem "ambiguous-id" "Ambiguous plan id" 409
      (Lit "that prefix matches more than one plan: give a few more characters, or use the name")
  | _ => problemFor e
  end.

Definition rejection : string :=
  "this request needs a valid API token: send `Authorization: Bearer rl_...` (create one with `restorelab token create`)".
(** [writeUnauthorized]: one answer, whatever the reason. *)
Definition writeUnauthorized (r : HttpRequest) : Response :=
  let p := writeProblem r (newProblem "unauthorized" "Authentication required" 401 (Lit rejection)) in
  mkResponse (rp_Status p) (("WWW-Authenticate", ("Bearer realm=" +:+ dquote +:+ "restorelab" +:+ dquote)) :: rp_Headers p) None (rp_Payload p).
Definition writeBadRequest (r : HttpRequest) (detail : text) : Response :=
  writeProblem r (newProblem "invalid-parameter" "Invalid parameter" 400 detail).

(** [writeJSONStatus] and [writeJSON] (server.go). *)
Definition writeJSONStatus (status : Z) (body : json) : Response :=
  mkResponse status [("Content-Type", "application/json")] None (PayloadJSON body).
Definition writeJSON (body : json) : Response := writeJSONStatus 200 body.

Definition with_header (name value : string) (p : Response) : Response :=
  mkResponse (rp_Status p) ((name, value) :: rp_Headers p) (rp_Cookie p) (rp_Payload p).
Definition with_cookie (c : Cookie) (p : Response) : Response :=
  mkResponse (rp_Status p) (rp_Headers p) (Some c) (rp_Payload p).

(** ** The state of the server, and what is outside *)

(** What a handler asks of a cluster, or posts to a channel. *)
Inductive cluster_call :=
| AskRead (what : string)
| AskDelete (providerID workloadID : string)
| AskPost (target : string) (body : json)
| AskSetup (endpoint : string).

(** The databases, the configuration of the channels, the fields of [Server] that
    change (the throttle of the last use of a token, the setup token), how much of
    the outside was read, and what was asked of it. *)
Record Api := mkApi {
  ap_db : DB;
  ap_timeline : Timeline;
  ap_cred : CredDB;
  ap_deliveries : DeliveryTable;
  ap_cli : Cli;
  ap_touched : gmap string Z;
  ap_setupToken : string;
  ap_time : nat;
  ap_calls : list cluster_call;
}.
Definition set_ap_db (db : DB) (s : Api) : Api :=
  mkApi db (ap_timeline s) (ap_cred s) (ap_deliveries s) (ap_cli s) (ap_touched s) (ap_setupToken s) (ap_time s) (ap_calls s).
Definition set_ap_cred (db : CredDB) (s : Api) : Api :=
  mkApi (ap_db s) (ap_timeline s) db (ap_deliveries s) (ap_cli s) (ap_touched s) (ap_setupToken s) (ap_time s) (ap_calls s).
Definition set_ap_cli (c : Cli) (s : Api) : Api :=
  mkApi (ap_db s) (ap_timeline s) (ap_cred s) (ap_deliveries s) c (ap_touched s) (ap_setupToken s) (ap_time s) (ap_calls s).
Definition set_ap_touched (m : gmap string Z) (s : Api) : Api :=
  mkApi (ap_db s) (ap_timeline s) (ap_cred s) (ap_deliveries s) (ap_cli s) m (ap_setupToken s) (ap_time s) (ap_calls s).
Definition set_ap_setupToken (t : string) (s : Api) : Api :=
  mkApi (ap_db s) (ap_timeline s) (ap_cred s) (ap_deliveries s) (ap_cli s) (ap_touched s) t (ap_time s) (ap_calls s).
Definition tick (s : Api) : Api :=
  mkApi (ap_db s) (ap_timeline s) (ap_cred s) (ap_deliveries s) (ap_cli s) (ap_touched s) (ap_setupToken s) (S (ap_time s)) (ap_calls s).
Definition log_call (c : cluster_call) (s : Api) : Api :=
  mkApi (ap_db s) (ap_timeline s) (ap_cred s) (ap_deliveries s) (ap_cli s) (ap_touched s) (ap_setupToken s) (ap_time s) (ap_calls s ++ [c]).

(** The database is not there, or does not answer. *)
Inductive outage := NoDatabase | Unreachable (message : text).
Definition outage_error (o : outage) : api_error :=
  match o with NoDatabase => ENoHistory | Unreachable message => EOther message end.

(** The clock, the identifiers, the random bytes and the outages of the
    database, read in order; SHA-256; what [url.Parse] finds of a scheme and a host;
    whether [net.ParseIP] reads a loopback address. *)
Class ApiEnv := {
  ae_now : nat -> Z;
  ae_newID : nat -> string;
  ae_random : nat -> option string;
  ae_fault : nat -> option outage;
  Sum256 : string -> string;
  url_Parse : string -> option (string * string);
  ip_IsLoopback : string -> bool;
}.

Section Outside.
Context `{ApiEnv}.
Abbreviation AM := (M Api).

Definition a_outside {A} (f : nat -> A) : AM A := fun s => (Ret (f (ap_time s)), tick s).
Definition a_now : AM Z := a_outside ae_now.
Definition a_newID : AM string := a_outside ae_newID.
(** A statement: it fails, or reads or changes the databases. *)
Definition a_store {A} (f : Api -> (api_error + A) * Api) : AM (api_error + A) := fun s =>
  match ae_fault (ap_time s) with
  | Some e => (Ret (inl (outage_error e)), tick s)
  | None => let '(a, s') := f s in (Ret a, tick s')
  end.
Definition a_read {A} (f : Api -> api_error + A) : AM (api_error + A) := a_store (fun s => (f s, s)).
(** A write to the credentials. *)
Definition a_cred (o : cred_op) : AM (api_error + unit) := a_store (fun s =>
  match cred_exec o (ap_cred s) with
  | inr db => (inr tt, set_ap_cred db s)
  | inl NoHash => (inl (EOther (Lit "store: refusing to record a credential with no hash")), s)
  | inl (Refused err) => (inl (EStore err), s)
  end).
(** A write to the queue and the catalogue. *)
Definition a_write (f : DB -> store_error + DB) : AM (api_error + unit) := a_store (fun s =>
  match f (ap_db s) with
  | inr db => (inr tt, set_ap_db db s)
  | inl err => (inl (EStore err), s)
  end).
Definition a_call (c : cluster_call) : AM unit := modify (log_call c).
(** The configuration of the channels, behind its lock. *)
Definition a_cli {A} (m : M Cli A) : AM A := fun s => let '(r, c) := m (ap_cli s) in (r, set_ap_cli c s).

(** A lookup: what is there, or a fault; nothing changes. *)
Lemma a_read_cases {A} (f : Api -> api_error + A) s :
  (exists e, ae_fault (ap_time s) = Some e /\ a_read f s = (Ret (inl (outage_error e)), tick s)) \/ a_read f s = (Ret (f s), tick s).
Proof. unfold a_read, a_store. destruct (ae_fault _) as [e|]; [left; eauto|by right]. Qed.

(** A write: a fault and a refusal change nothing. *)
Lemma a_write_cases f s :
  (exists e, ae_fault (ap_time s) = Some e /\ a_write f s = (Ret (inl (outage_error e)), tick s)) \/
  (exists err, f (ap_db s) = inl err /\ a_write f s = (Ret (inl (EStore err)), tick s)) \/
  (exists db, f (ap_db s) = inr db /\ a_write f s = (Ret (inr tt), tick (set_ap_db db s))).
Proof.
  unfold a_write, a_store. destruct (ae_fault _) as [e|]; [left; eauto|right].
  destruct (f (ap_db s)) as [err|db]; [left|right]; eauto.
Qed.
End Outside.
