(* ===== verification/PlanCatalog.v ===== *)
(** * The catalogue of plans

    Models internal/catalog: what stands between a plan document and the plans
    table. It runs inside the API's state; the YAML library, which reads a document
    and renders a plan, is a parameter. *)

From Stdlib Require Import ZArith Lia String Ascii List.
From S2P Require Import Prelude GoTime Errors Core GoString Plan Config Channels Queue Timeline Catalog Story Credentials ApiBase.

Section Catalogue.
Context `{ScheduleEnv} `{ApiEnv} (d : dialect).
Context (yaml_Unmarshal : string -> error + Plan) (yaml_Marshal : Plan -> error + string).
Abbreviation AM := (M Api).

(** [CreateOnly]. *)
Definition CreateOnly : Z := -1.

(** [parse]: plan.Parse with the refusal marked. *)
Definition parse (document : string) : api_error + Plan :=
  match Parse (yaml_Unmarshal document) with inl err => inl (EInvalidPlan err) | inr p => inr p end.

(** [Validated] and [derive]. *)
Record Validated := mkValidated {
  vd_Name : string;
  vd_Description : string;
  vd_WorkloadID : string;
  vd_ProviderID : string;
  vd_Normalised : string;
  vd_ProofLevel : string;
  vd_ProofSummary : string;
}.
Definition derive (p : Plan) : Validated :=
  mkValidated (pl_Name p) (pl_Description p) (wr_ID (pl_Workload p)) (wr_Provider (pl_Workload p)) ""
    (ProofLevel_to_string (PlanProvenLevel p)) (ProofSummary p).

(** [Validate]: nothing is written. *)
Definition ValidateDocument (document : string) : api_error + Validated :=
  match parse document with
  | inl e => inl e
  | inr p =>
    match yaml_Marshal p with
    | inl err => inl (EOther (Sprintf "catalog: render the validated plan: %w" [AText (Error err)]))
    | inr normalised =>
      let v := derive p in
      inr (mkValidated (vd_Name v) (vd_Description v) (vd_WorkloadID v) (vd_ProviderID v) normalised (vd_ProofLevel v) (vd_ProofSummary v))
    end
  end.

(** The row [Save] writes. *)
Definition document_row (p : Plan) (document id : string) (now : Z) : StoredPlan :=
  let v := derive p in
  mkStoredPlan id (vd_Name v) (vd_Description v) (vd_WorkloadID v) (vd_ProviderID v) document 1 now now.

(** [GetPlan] behind a database that may be away. *)
Definition get_plan (ref : string) : AM (api_error + StoredPlan) :=
  a_read (fun s => match GetPlan d ref (ap_db s) with inl err => inl (EStore err) | inr p => inr p end).

(** The insertion or the update, with the row read back. *)
Definition read_back (id : string) (created : bool) : AM (api_error + (StoredPlan * bool)) :=
  saved ← get_plan id;
  mret (match saved with inl e => inl e | inr p => inr (p, created) end).
Definition write_then_read (f : DB -> store_error + DB) (id : string) (created : bool) :
    AM (api_error + (StoredPlan * bool)) :=
  written ← a_write f;
  match written with inl e => mret (inl e) | inr _ => read_back id created end.

(** [Save]. *)
Definition Save (document : string) (expected : Z) : AM (api_error + (StoredPlan * bool)) :=
  match parse document with
  | inl e => mret (inl e)
  | inr p =>
    now ← a_now;
    id ← a_newID;
    existing ← get_plan (pl_Name p);
    match existing with
    | inl (EStore (ErrNotFound _)) => write_then_read (CreatePlan (document_row p document id now)) id true
    | inl e => mret (inl e)
    | inr existing =>
      if expected =? CreateOnly then mret (inl (EStore ErrDuplicate)) else
      let guard := if expected <? 0 then 0 else expected in
      write_then_read (UpdatePlan d (document_row p document (sp_ID existing) now) guard) (sp_ID existing) false
    end
  end.

(** [Name]. *)
Definition Name (document : string) : api_error + string :=
  match parse document with inl e => inl e | inr p => inr (pl_Name p) end.

(** [Resolve]. *)
Definition Resolve (ref : string) : AM (api_error + (StoredPlan * Plan)) :=
  row ← get_plan ref;
  mret (match row with
        | inl e => inl e
        | inr row =>
          match parse (sp_YAML row) with
          | inl (EInvalidPlan err) => inl (EInvalidPlan (EWrap (Sprintf "stored plan %q: %w" [AStr (sp_Name row); AText (Error err)]) err))
          | inl e => inl e
          | inr p => inr (row, p)
          end
        end).

(** [List] and [Delete]. *)
Definition list_plans `{Collation} (workloadID : string) (limit : Z) : AM (api_error + list StoredPlan) :=
  a_read (fun s => inr (ListPlans workloadID limit (ap_db s))).
Definition Delete (ref : string) : AM (api_error + string) :=
  row ← get_plan ref;
  match row with
  | inl e => mret (inl e)
  | inr row =>
    gone ← a_write (DeletePlan d (sp_ID row));
    mret (match gone with inl e => inl e | inr _ => inr (sp_Name row) end)
  end.
End Catalogue.
