(* ===== verification/Auth.v ===== *)
(** * Authentication

    Models internal/api/auth.go and session.go: how a request is authenticated, by
    the header first and by the cookie else, what a scope opens, and how a session
    is opened and closed. *)

From Stdlib Require Import ZArith Lia String Ascii List.
From stdpp Require Import relations.
From S2P Require Import Prelude GoTime GoFloat Errors Core GoString Base64 Secrets Plan Config Channels Queue Timeline Catalog Storages Confidence Story Deliveries Dispatcher Credentials ApiBase.

Definition TokenPrefix : string := "rl_".
Definition SessionCookie : string := "__Host-restorelab_session".
Definition SessionPrefix : string := "rls_".
Definition SessionLifetime : Z := 12 * Duration.Hour.
Definition DefaultTouchInterval : Z := Duration.Minute.
Definition maxLoginBody : nat := 4096.

(** [strings.EqualFold], on ASCII. *)
Definition EqualFold (s t : string) : bool := bool_decide (ToLower s = ToLower t).

(** [bearerToken]. *)
Definition bearerToken (header : string) : option string :=
  match Cut " "%char header with
  | Some (scheme, rest) =>
    if negb (EqualFold scheme "Bearer") then None else
    let secret := TrimSpace rest in
    if nonempty secret then Some secret else None
  | None => None
  end.

(** [safeMethod]. *)
Definition safeMethod (method : string) : bool := bool_decide (method ∈ ["GET"; "HEAD"; "OPTIONS"]).

(** net.SplitHostPort, for the host. *)
Fixpoint last_index (c : ascii) (s : string) (i : nat) : option nat :=
  match s with
  | EmptyString => None
  | String x s =>
    match last_index c s (S i) with
    | Some j => Some j
    | None => if Ascii.eqb x c then Some i else None
    end
  end.
Definition contains_char (c : ascii) (s : string) : bool := existsb_char (Ascii.eqb c) s.
Definition from (n : nat) (s : string) : string := String.substring n (String.length s - n) s.
Definition SplitHost (hostport : string) : option string :=
  match last_index ":" hostport 0 with
  | None => None
  | Some i =>
    match hostport with
    | String "["%char inner =>
      match Cut "]"%char inner with
      | None => None
      | Some (host, _) =>
        let close := S (String.length host) in
        if negb (Nat.eqb (S close) i) then None
        else if contains_char "[" (from 1 hostport) || contains_char "]" (from (S close) hostport) then None
        else Some host
      end
    | _ =>
      let host := String.substring 0 i hostport in
      if contains_char ":" host || contains_char "[" hostport || contains_char "]" hostport then None else Some host
    end
  end.
Example split_host : map SplitHost ["localhost:8080"; "[::1]:80"; "a:b:c"; "[::1]"; "lab"; ":80"]
  = [Some "localhost"; Some "::1"; None; None; None; Some ""].
Proof. reflexivity. Qed.

Section Auth.
Context `{ApiEnv} (unconfigured : bool) (touchInterval : Z) (json_token : string -> option string).
Abbreviation AM := (M Api).

(** [HashToken], [NewToken] and [NewSession]. *)
Definition HashToken (secret : string) : string := hex (Sum256 secret).
Definition a_secret (prefix : string) : AM (api_error + string) :=
  raw ← a_outside ae_random;
  mret (match raw with
        | Some raw => inr (prefix +:+ EncodeToString RawURLEncoding raw)
        | None => inl (EOther (Lit "api: read random bytes"))
        end).
Definition NewToken (name : string) (now : Z) : AM (api_error + (string * APIToken)) :=
  secret ← a_secret TokenPrefix;
  match secret with
  | inl e => mret (inl e)
  | inr secret =>
    id ← a_newID;
    mret (inr (secret, mkAPIToken id name (HashToken secret) now Time.zero Time.zero []))
  end.
Definition NewSession (tokenID userAgent : string) (now : Z) : AM (api_error + (string * Session)) :=
  secret ← a_secret SessionPrefix;
  match secret with
  | inl e => mret (inl e)
  | inr secret =>
    id ← a_newID;
    mret (inr (secret, mkSession id (HashToken secret) tokenID now (Time.Add now SessionLifetime) userAgent))
  end.

(** [touchThrottle.record]: the write is best-effort. *)
Definition record_touch (id : string) (now : Z) : AM unit :=
  last ← gets ap_touched;
  match last !! id with
  | Some seen => if Time.Sub now seen <? touchInterval then mret tt else
                 (_ ← modify (fun s => set_ap_touched (<[id := now]> (ap_touched s)) s);
                  _ ← a_cred (OpTouchToken id now); mret tt)
  | None => (_ ← modify (fun s => set_ap_touched (<[id := now]> (ap_touched s)) s);
             _ ← a_cred (OpTouchToken id now); mret tt)
  end.

(** A lookup that finds nothing answers [store.ErrNotFound]. *)
Definition found {A} (o : option A) : api_error + A :=
  match o with Some a => inr a | None => inl (EStore (ErrNotFound "")) end.
(** What a failed lookup answers: 401 when nothing was found, else what
    [problemFor] makes of it. *)
Definition refuse (r : HttpRequest) (e : api_error) : Response :=
  match e with EStore (ErrNotFound _) => writeUnauthorized r | e => writeProblem r (problemFor e) end.

(** Who a request is, or the answer it gets. *)
Definition Authenticated : Type := Response + APIToken * option Session.

(** [authenticateToken]. *)
Definition authenticateToken (r : HttpRequest) (secret : string) : AM Authenticated :=
  let hash := HashToken secret in
  rec ← a_read (fun s => found (TokenByHash hash (ap_cred s)));
  match rec with
  | inl e => mret (inl (refuse r e))
  | inr rec =>
    if negb (bool_decide (tk_Hash rec = hash)) then mret (inl (writeUnauthorized r)) else
    now ← a_now;
    _ ← record_touch (tk_ID rec) now;
    mret (inr (rec, None))
  end.

(** [sameOriginRequest]. *)
Definition sameOriginRequest (r : HttpRequest) : bool :=
  let origin := hr_Header r "Origin" in
  if negb (nonempty origin) then false else
  match url_Parse origin with
  | Some (_, host) => nonempty host && EqualFold host (hr_Host r)
  | None => false
  end.

(** [authenticateSession]. *)
Definition cross_origin (r : HttpRequest) : Response :=
  writeProblem r (newProblem "cross-origin" "This request came from another origin" 403
    (Lit "a session cookie only writes from the dashboard it was issued to; an API client should send `Authorization: Bearer rl_...` instead")).
Definition authenticateSession (r : HttpRequest) (secret : string) : AM Authenticated :=
  now ← a_now;
  found_ ← a_read (fun s => found (SessionByHash (HashToken secret) now (ap_cred s)));
  match found_ with
  | inl e => mret (inl (refuse r e))
  | inr (sess, tok) =>
    if negb (safeMethod (hr_Method r)) && negb (sameOriginRequest r) then mret (inl (cross_origin r)) else
    now ← a_now;
    _ ← record_touch (tk_ID tok) now;
    mret (inr (tok, Some sess))
  end.

(** [authenticate]: the header decides when it carries a credential. *)
Definition authenticate (r : HttpRequest) : AM Authenticated :=
  match bearerToken (hr_Header r "Authorization") with
  | Some secret => authenticateToken r secret
  | None =>
    match hr_SessionCookie r with
    | Some value => if nonempty value then authenticateSession r value else mret (inl (writeUnauthorized r))
    | None => mret (inl (writeUnauthorized r))
    end
  end.

(** [requireScope] and [authed]; a handler receives who the request is. *)
Definition Handler : Type := HttpRequest -> APIToken -> option Session -> AM Response.
Definition insufficient_scope (r : HttpRequest) (scope : string) : Response :=
  writeProblem r (newProblem "insufficient-scope" "This token may not do that" 403
    (Sprintf "this endpoint needs the %q scope; create a token with `restorelab token create <name> --operate`" [AStr scope])).
Definition not_configured (r : HttpRequest) : Response :=
  writeProblem r (newProblem "not-configured" "This RestoreLab is not configured yet" 503
    (Lit "no cluster is connected: open the setup page this server printed on its console")).
Definition requireScope (scope : string) (h : Handler) (r : HttpRequest) : AM Response :=
  if unconfigured then mret (not_configured r) else
  who ← authenticate r;
  match who with
  | inl answer => mret answer
  | inr (tok, sess) => if negb (Can tok scope) then mret (insufficient_scope r scope) else h r tok sess
  end.
Definition authed (h : Handler) (r : HttpRequest) : AM Response := requireScope ScopeRead h r.

(** ** session.go *)

(** [effectiveScopes] and the answer about a session. *)
Definition effectiveScopes (t : APIToken) : list string :=
  ScopeRead :: List.filter (fun s => negb (bool_decide (s = ScopeRead))) (tk_Scopes t).
Definition sessionDTO (t : APIToken) (expires : Z) : json :=
  JObject [("token_name", JStr (tk_Name t)); ("scopes", JArray (map JStr (effectiveScopes t))); ("expires_at", json_time expires)].

(** [isLoopbackHost] and [secureTransport]. *)
Definition isLoopbackHost (hostport : string) : bool :=
  let host := default hostport (SplitHost hostport) in
  EqualFold host "localhost" ||
  ip_IsLoopback (trim_by (fun c => Ascii.eqb c "[" || Ascii.eqb c "]") host).
Definition secureTransport (r : HttpRequest) : bool :=
  hr_TLS r || EqualFold (hr_Header r "X-Forwarded-Proto") "https" || isLoopbackHost (hr_Host r).

(** [handleCreateSession]. *)
Definition login_shape : text :=
  Lit ("the body must be {" +:+ dquote +:+ "token" +:+ dquote +:+ ":" +:+ dquote +:+ "rl_..." +:+ dquote +:+ "}").
Definition handleCreateSession (r : HttpRequest) : AM Response :=
  if negb (secureTransport r) then
    mret (writeBadRequest r (Lit "the dashboard session cookie is Secure, so a browser would never send it back over plain HTTP: put TLS in front of RestoreLab, or reach it on localhost"))
  else
  match hr_Body r ≫= (fun raw => json_token (String.substring 0 maxLoginBody raw)) with
  | None => mret (writeBadRequest r login_shape)
  | Some token =>
    if negb (nonempty token) then mret (writeBadRequest r login_shape) else
    tok ← a_read (fun s => found (TokenByHash (HashToken token) (ap_cred s)));
    match tok with
    | inl e => mret (refuse r e)
    | inr tok =>
      now ← a_now;
      opened ← NewSession (tk_ID tok) (hr_Header r "User-Agent") now;
      match opened with
      | inl e => mret (writeProblem r (problemFor e))
      | inr (secret, sess) =>
        recorded ← a_cred (OpCreateSession sess now);
        match recorded with
        | inl e => mret (writeProblem r (problemFor e))
        | inr _ =>
          mret (with_cookie (mkCookie secret (Some (ss_ExpiresAt sess)) (SessionLifetime / Duration.Second))
                  (writeJSON (sessionDTO tok (ss_ExpiresAt sess))))
        end
      end
    end
  end.

(** [handleGetSession]. *)
Definition handleGetSession : Handler := fun r tok sess =>
  match sess with
  | None => mret (writeBadRequest r
      (Lit "this route describes the session a cookie carries; this request was authenticated with a token"))
  | Some sess => mret (writeJSON (sessionDTO tok (ss_ExpiresAt sess)))
  end.

(** [handleDeleteSession]. *)
Definition handleDeleteSession : Handler := fun r _ _ =>
  let bye := with_cookie (mkCookie "" None (-1)) (mkResponse 204 [] None PayloadNone) in
  match hr_SessionCookie r with
  | Some value =>
    if nonempty value then
      (done_ ← a_cred (OpDeleteSession (HashToken value));
       match done_ with inl e => mret (writeProblem r (problemFor e)) | inr _ => mret bye end)
    else mret bye
  | None => mret bye
  end.
End Auth.

(** * What a server of the API is built with

    Models the dependencies that [Options] of internal/api/server.go gives a server,
    as interfaces: [Site] is the configuration, the dialect of the database and the
    libraries that read and write documents; [ProviderSet] is the clusters, as the
    handlers see them. *)

(** The body of a request for a drill (trigger.go). *)
Record triggerRequest := mkTriggerRequest {
  tg_Plan : string;
  tg_WorkloadID : string;
  tg_Provider : string;
  tg_Backup : string;
  tg_Checks : list string;
  tg_Network : string;
  tg_Node : string;
  tg_Storage : string;
  tg_Pool : string;
  tg_RTOTarget : string;
  tg_SkipStartup : bool;
}.
(** The body of a channel that is written (notifications.go). *)
Record notificationRequest := mkNotificationRequest {
  nr_ID : string;
  nr_Kind : string;
  nr_URL : string;
  nr_Enabled : option bool;
}.

(** [site_channels] says whether there is a configuration to write channels to;
    [site_time_Now] and [site_int_overflow] are what a score reads of the machine;
    [parse_instant] is [time.Parse] of an RFC 3339
    instant or of a date. *)
Class Site := {
  site_dialect : dialect;
  site_config : option Config;
  site_channels : bool;
  site_weights : ConfidenceWeights;
  site_time_Now : Z;
  site_int_overflow : float64 -> Z;
  yaml_Unmarshal : string -> error + Plan;
  yaml_Marshal : Plan -> error + string;
  json_trigger : string -> option triggerRequest;
  json_notification : string -> option notificationRequest;
  json_login : string -> option string;
  parse_instant : string -> option Z;
  StatusText : Z -> string;
  site_version : string;
  site_NotifyDispatcherOff : bool;
}.

(** What the clusters and the channels answer: a client by the identifier of its
    provider, then its calls. Answers may depend on when they are asked. *)
Class ProviderSet := {
  ps_Entries : nat -> list Provider;
  ps_Hypervisor : nat -> string -> error + string;
  ps_Backups : nat -> string -> error + string;
  ps_Ping : nat -> string -> error + unit;
  ps_ListNodes : nat -> string -> error + list Node;
  ps_ValidateIsolation : option (nat -> string -> string -> NetworkConfig -> error + unit);
  ps_ListStorages : option (nat -> string -> string -> error + list Storage);
  ps_CountBackups : nat -> string -> string -> string -> string -> error + Z;
  ps_ListWorkloads : nat -> string -> error + list Workload;
  ps_GetWorkload : nat -> string -> string -> error + Workload;
  ps_GetStatus : nat -> string -> string -> error + WorkloadStatus;
  ps_ListBackups : nat -> string -> string -> error + list Backup;
  ps_GetLatestBackup : nat -> string -> string -> error + option Backup;
  ps_Delete : nat -> string -> string -> option error;
  sender_Do : nat -> string -> json -> http_end;
  sender_ctx : nat -> option error;
}.

(** A body is read up to a limit, and cut there. *)
Definition maxRequestBody : nat := 65536.
Definition limited (raw : string) : string := String.substring 0 maxRequestBody raw.

(** [page]: the envelope of every listing. *)
Definition page_json (items : list json) (cursor : string) : json :=
  JObject (("items", JArray items) :: omitempty "next_cursor" cursor).

(** A run of the database with its timeline. *)
Definition timeline_of (s : Api) : Timeline :=
  mkTimeline (db_runs (ap_db s)) (tl_steps (ap_timeline s)) (tl_checks (ap_timeline s)) (tl_events (ap_timeline s)) (tl_values (ap_timeline s)).
Definition read_store {A} `{ApiEnv} (f : Api -> store_error + A) : M Api (api_error + A) :=
  a_read (fun s => match f s with inl e => inl (EStore e) | inr a => inr a end).

(** * Who may enter

    Authentication changes nothing but the last use of a token, and runs a handler
    exactly for who holds a live credential with the scope. *)

(** ** What authentication changes *)

Definition forget_use (r : TokenRow) : TokenRow :=
  mkTokenRow (tr_name r) (tr_hash r) (tr_created_at r) None (tr_revoked_at r) (tr_scopes r).
Record same_but_use (s s' : Api) : Prop := {
  su_db : ap_db s' = ap_db s;
  su_timeline : ap_timeline s' = ap_timeline s;
  su_deliveries : ap_deliveries s' = ap_deliveries s;
  su_cli : ap_cli s' = ap_cli s;
  su_calls : ap_calls s' = ap_calls s;
  su_setup : ap_setupToken s' = ap_setupToken s;
  su_sessions : cd_sessions (ap_cred s') = cd_sessions (ap_cred s);
  su_tokens : forget_use <$> cd_tokens (ap_cred s') = forget_use <$> cd_tokens (ap_cred s);
}.
#[export] Instance same_but_use_preorder : PreOrder same_but_use.
Proof. split; [by split|]. intros a b c [] []. split; congruence. Qed.

Section Auth.
Context `{ApiEnv} (touchInterval : Z).

Lemma tick_same s : same_but_use s (tick s).
Proof. by split. Qed.
Lemma outside_keeps {A} (f : nat -> A) : keeps same_but_use (a_outside f).
Proof. intros s. apply tick_same. Qed.
Lemma read_keeps {A} (f : Api -> api_error + A) : keeps same_but_use (a_read f).
Proof. intros s. unfold a_read, a_store. destruct (ae_fault _); apply tick_same. Qed.
Lemma TouchToken_same id at_ db :
  cd_sessions (TouchToken id at_ db) = cd_sessions db /\
  forget_use <$> cd_tokens (TouchToken id at_ db) = forget_use <$> cd_tokens db.
Proof.
  split; [done|]. apply map_eq. intros i. cbn. rewrite !lookup_fmap. destruct (decide (i = id)) as [->|Hne].
  - rewrite lookup_alter_eq. by destruct (cd_tokens db !! id).
  - by rewrite lookup_alter_ne.
Qed.
Lemma touch_keeps id now : keeps same_but_use (a_cred (OpTouchToken id now)).
Proof.
  intros s. unfold a_cred, a_store. cbn. destruct (ae_fault _); [apply tick_same|]. cbn.
  destruct (TouchToken_same id now (ap_cred s)). by split.
Qed.
Lemma set_touched_keeps f : keeps same_but_use (modify (fun s => set_ap_touched (f s) s)).
Proof. intros s. by split. Qed.
Hint Resolve outside_keeps read_keeps touch_keeps set_touched_keeps : keeps.
Lemma record_touch_keeps id now : keeps same_but_use (record_touch touchInterval id now).
Proof. unfold record_touch. keeps_auto. Qed.

(** It always ends: a use that cannot be written is not. *)
Lemma record_touch_returns id now s : exists s', record_touch touchInterval id now s = (Ret tt, s') /\ same_but_use s s'.
Proof.
  pose proof (record_touch_keeps id now s) as Hk. revert Hk. unfold record_touch, gets, a_cred, a_store, modify, mbind, M_bind, mret, M_ret. cbn.
  destruct (ap_touched s !! id); [destruct (_ <? _)|]; cbn; try destruct (ae_fault _); cbn; eauto.
Qed.

(** ** Authentication as a function of the tables *)

Definition identify (db : CredDB) (now : Z) (r : HttpRequest) : Authenticated :=
  match bearerToken (hr_Header r "Authorization") with
  | Some secret =>
    match TokenByHash (HashToken secret) db with Some t => inr (t, None) | None => inl (writeUnauthorized r) end
  | None =>
    match hr_SessionCookie r with
    | Some value =>
      if nonempty value then
        match SessionByHash (HashToken value) now db with
        | Some (s, t) =>
          if negb (safeMethod (hr_Method r)) && negb (sameOriginRequest r) then inl (cross_origin r) else inr (t, Some s)
        | None => inl (writeUnauthorized r)
        end
      else inl (writeUnauthorized r)
    | None => inl (writeUnauthorized r)
    end
  end.
Definition faulted (r : HttpRequest) (a : Authenticated) : Prop := exists k e, ae_fault k = Some e /\ a = inl (refuse r (outage_error e)).
Definition identified (r : HttpRequest) (s : Api) (a : Authenticated) : Prop :=
  a = identify (ap_cred s) (ae_now (ap_time s)) r \/ faulted r a.

Lemma authenticateToken_spec r secret s :
  bearerToken (hr_Header r "Authorization") = Some secret ->
  exists a s', authenticateToken touchInterval r secret s = (Ret a, s') /\ same_but_use s s' /\ identified r s a.
Proof.
  intros Hb. unfold authenticateToken, identified, identify, faulted. rewrite Hb.
  destruct (a_read_cases (fun s => found (TokenByHash (HashToken secret) (ap_cred s))) s) as [(e & Ef & E)|E];
    rewrite (bind_Ret _ _ _ _ _ E); clear E.
  { eexists _, _. split; [reflexivity|]. split; [apply tick_same|]. right. eauto. }
  destruct (TokenByHash (HashToken secret) (ap_cred s)) as [t|] eqn:Et; cbn [found].
  - destruct (TokenByHash_Some _ _ _ Et) as (id & row & _ & Hh & _ & ->). cbn [tk_Hash scanToken snd].
    rewrite (bool_decide_true _ Hh). cbn [negb]. rewrite (bind_Ret a_now _ (tick s) _ _ eq_refl).
    destruct (record_touch_returns (tk_ID (scanToken (id, row))) (ae_now (ap_time (tick s))) (tick (tick s))) as (s' & E & Hs').
    rewrite (bind_Ret _ _ _ _ _ E). eexists _, _. split; [reflexivity|]. split; [|by left].
    transitivity (tick (tick s)); [by split|exact Hs'].
  - eexists _, _. split; [reflexivity|]. split; [apply tick_same|]. by left.
Qed.

Lemma authenticateSession_spec r value s :
  bearerToken (hr_Header r "Authorization") = None -> hr_SessionCookie r = Some value -> nonempty value = true ->
  exists a s', authenticateSession touchInterval r value s = (Ret a, s') /\ same_but_use s s' /\ identified r s a.
Proof.
  intros Hb Hc Hv. unfold authenticateSession, identified, identify, faulted. rewrite Hb, Hc, Hv.
  set (now := ae_now (ap_time s)). rewrite (bind_Ret a_now _ s now (tick s) eq_refl).
  destruct (a_read_cases (fun s => found (SessionByHash (HashToken value) now (ap_cred s))) (tick s)) as [(e & Ef & E)|E];
    rewrite (bind_Ret _ _ _ _ _ E); clear E.
  { eexists _, _. split; [reflexivity|]. split; [by split|]. right. eauto. }
  change (ap_cred (tick s)) with (ap_cred s).
  destruct (SessionByHash (HashToken value) now (ap_cred s)) as [[sess t]|] eqn:Et; cbn [found].
  - destruct (negb _ && negb _); [eexists _, _; split; [reflexivity|]; split; [by split|by left]|].
    rewrite (bind_Ret a_now _ (tick (tick s)) _ _ eq_refl).
    destruct (record_touch_returns (tk_ID t) (ae_now (ap_time (tick (tick s)))) (tick (tick (tick s)))) as (s' & E & Hs').
    rewrite (bind_Ret _ _ _ _ _ E). eexists _, _. split; [reflexivity|]. split; [|by left].
    transitivity (tick (tick (tick s))); [by split|exact Hs'].
  - eexists _, _. split; [reflexivity|]. split; [by split|]. by left.
Qed.

Lemma authenticate_spec r s :
  exists a s', authenticate touchInterval r s = (Ret a, s') /\ same_but_use s s' /\ identified r s a.
Proof.
  unfold authenticate. destruct (bearerToken _) as [secret|] eqn:Hb; [by apply authenticateToken_spec|].
  assert (exists a s', mret (M := M Api) (A := Authenticated) (inl (writeUnauthorized r)) s = (Ret a, s') /\ same_but_use s s' /\
    a = inl (writeUnauthorized r)) as (a & s' & E & Hs & Ea) by (eexists _, _; by split_and!).
  destruct (hr_SessionCookie r) as [value|] eqn:Hc; [destruct (nonempty value) eqn:Hv; [by apply authenticateSession_spec|]|];
    (exists a, s'; split_and!; [done..|left; unfold identify; rewrite Hb, Hc; by rewrite ?Hv]).
Qed.

(** ** Holding a credential *)

(** The secret of a live token in the header; or, without one, the secret of a
    session in the cookie, not expired, whose token is live, on a request that
    changes nothing or comes from the page itself. *)
Inductive holds (db : CredDB) (now : Z) (r : HttpRequest) : APIToken -> option Session -> Prop :=
| holds_bearer secret id row :
    bearerToken (hr_Header r "Authorization") = Some secret ->
    cd_tokens db !! id = Some row -> tr_hash row = HashToken secret -> tr_revoked_at row = None ->
    holds db now r (scanToken (id, row)) None
| holds_cookie value i a row :
    bearerToken (hr_Header r "Authorization") = None -> hr_SessionCookie r = Some value -> value <> "" ->
    cd_sessions db !! i = Some a -> sr_hash a = HashToken value -> now < sr_expires_at a ->
    cd_tokens db !! sr_token_id a = Some row -> tr_revoked_at row = None ->
    safeMethod (hr_Method r) = true \/ sameOriginRequest r = true ->
    holds db now r (scanToken (sr_token_id a, row)) (Some (scanSession (i, a))).

Lemma identify_holds db now r t sess : identify db now r = inr (t, sess) -> holds db now r t sess.
Proof.
  unfold identify. destruct (bearerToken _) as [secret|] eqn:Hb.
  - destruct (TokenByHash _ _) as [t'|] eqn:Et; [|done]. intros [= <- <-].
    apply TokenByHash_Some in Et as (id & row & E & Hh & Hl & ->). by eapply holds_bearer.
  - destruct (hr_SessionCookie r) as [value|] eqn:Hc; [|done]. destruct (nonempty value) eqn:Hv; [|done].
    destruct (SessionByHash _ _ _) as [[s' t']|] eqn:Es; [|done]. destruct (negb _ && negb _) eqn:Eo; [done|]. intros [= <- <-].
    apply SessionByHash_Some in Es as (i & a & row & Ea & Hh & Hx & Er & Hl & -> & ->). eapply holds_cookie; eauto.
    + by apply nonempty_spec.
    + apply andb_false_iff in Eo as [Eo|Eo]; apply negb_false_iff in Eo; auto.
Qed.
Lemma holds_identify db now r t sess : cred_wf db -> holds db now r t sess -> identify db now r = inr (t, sess).
Proof.
  intros Hwf [secret id row Hb E Hh Hl|value i a row Hb Hc Hv Ea Hh Hx Er Hl Ho]; unfold identify; rewrite Hb.
  - by rewrite (TokenByHash_found _ _ id row Hwf E Hh Hl).
  - rewrite Hc, (proj2 (nonempty_spec _) Hv), <- Hh, (SessionByHash_found now db i a row Hwf Ea Hx Er Hl).
    destruct Ho as [-> | ->]; [done|]. by rewrite andb_false_r.
Qed.

Lemma problemFor_status e : 400 <= pb_Status (problemFor e) < 600.
Proof. destruct e as [[]| | |err|]; cbn; try lia. destruct (Is err _); [cbn; lia|]. destruct (Is err _); cbn; lia. Qed.
Lemma refuse_status r e : 400 <= rp_Status (refuse r e) < 600.
Proof. destruct e as [[]| | |err|]; try (cbn; lia); apply problemFor_status. Qed.
Lemma identify_refusal db now r resp : identify db now r = inl resp -> 400 <= rp_Status resp < 600.
Proof.
  unfold identify. repeat case_match; intros [= <-]; cbn; lia.
Qed.

(** What a scope lets through. *)
Lemma requireScope_cases unconfigured scope h r s :
  let '(o, s') := requireScope unconfigured touchInterval scope h r s in
  (exists tok sess s1, unconfigured = false /\ holds (ap_cred s) (ae_now (ap_time s)) r tok sess /\ Can tok scope = true /\
     same_but_use s s1 /\ h r tok sess s1 = (o, s')) \/
  (exists resp, o = Ret resp /\ 400 <= rp_Status resp < 600 /\ same_but_use s s').
Proof.
  unfold requireScope. destruct unconfigured; [right; eexists; split_and!; try done; cbn; lia|].
  destruct (authenticate_spec r s) as (a & s1 & E & Hs & Ha). rewrite (bind_Ret _ _ _ _ _ E).
  destruct a as [resp|[tok sess]].
  - right. exists resp. split_and!; [done| | |done]; (destruct Ha as [Ha|(k & e & _ & Ha)];
      [apply eq_sym, identify_refusal in Ha; lia|injection Ha as ->; pose proof (refuse_status r (outage_error e)); lia]).
  - destruct Ha as [Ha|(k & e & _ & [=])]. symmetry in Ha. apply identify_holds in Ha.
    destruct (Can tok scope) eqn:Hcan; cbn [negb].
    + destruct (h r tok sess s1) as [o s'] eqn:Eh. left. by exists tok, sess, s1.
    + right. eexists. split_and!; [done|cbn; lia..|done].
Qed.

(** Only who holds a credential enters. Whatever the request and whatever
    fails, a handler behind a scope runs only on a configured server, for the holder
    of a live token with that scope, or of a session that has not expired, opened
    with such a token, on a request that is safe or comes from the dashboard
    itself; it is told that token and that session. Everything else is refused, and
    authentication changes nothing but the last use of a token. *)
Theorem only_holders_enter unconfigured scope h r s :
  let '(o, s') := requireScope unconfigured touchInterval scope h r s in
  (exists tok sess s1, unconfigured = false /\ holds (ap_cred s) (ae_now (ap_time s)) r tok sess /\ Can tok scope = true /\
     same_but_use s s1 /\ h r tok sess s1 = (o, s')) \/
  (exists resp, o = Ret resp /\ 400 <= rp_Status resp < 600 /\ same_but_use s s').
Proof. exact (requireScope_cases unconfigured scope h r s). Qed.

(** And every holder does. When the database answers, on a configured server, who
    holds a credential with the scope enters, who holds one without it is told
    which scope is missing, and who holds none gets one same answer that depends
    on nothing but the path, or, with the cookie of a live session on a write from
    another page, is told that. *)
Theorem holders_enter scope h r s :
  (forall k, ae_fault k = None) -> cred_wf (ap_cred s) ->
  let now := ae_now (ap_time s) in
  let '(o, s') := requireScope false touchInterval scope h r s in
  (forall tok sess, holds (ap_cred s) now r tok sess ->
     if Can tok scope then exists s1, same_but_use s s1 /\ h r tok sess s1 = (o, s')
     else o = Ret (insufficient_scope r scope)) /\
  ((forall tok sess, ~ holds (ap_cred s) now r tok sess) ->
     o = Ret (writeUnauthorized r) \/
     (o = Ret (cross_origin r) /\ safeMethod (hr_Method r) = false /\ sameOriginRequest r = false /\
      exists value, hr_SessionCookie r = Some value /\ is_Some (SessionByHash (HashToken value) now (ap_cred s)))).
Proof.
  intros Hup Hwf. unfold requireScope. destruct (authenticate_spec r s) as (a & s1 & E & Hs & Ha).
  destruct Ha as [Ha|(k & e & Hk & _)]; [|by rewrite Hup in Hk]. rewrite (bind_Ret _ _ _ _ _ E). cbn zeta.
  destruct a as [resp|[tok sess]].
  - cbn. split; [intros tok sess Hh; by rewrite (holds_identify _ _ _ _ _ Hwf Hh) in Ha|]. intros Hno. revert Ha. unfold identify.
    destruct (bearerToken _); [destruct (TokenByHash _ _); [done|intros [= ->]; by left]|].
    destruct (hr_SessionCookie r) as [value|] eqn:Hc; [|intros [= ->]; by left].
    destruct (nonempty value); [|intros [= ->]; by left].
    destruct (SessionByHash _ _ _) as [[sess t]|] eqn:Es; [|intros [= ->]; by left].
    destruct (negb _ && negb _) eqn:Eo; [|done]. intros [= ->]. right. apply andb_true_iff in Eo as [E1 E2].
    apply negb_true_iff in E1, E2. split_and!; [done..|]. exists value. by split.
  - assert (forall tok' sess', holds (ap_cred s) (ae_now (ap_time s)) r tok' sess' -> tok' = tok /\ sess' = sess) as Huniq.
    { intros tok' sess' Hh. rewrite (holds_identify _ _ _ _ _ Hwf Hh) in Ha. by injection Ha. }
    destruct (if negb (Can tok scope) then _ else _) as [o s'] eqn:Eh. split.
    + intros tok' sess' Hh. destruct (Huniq _ _ Hh) as [-> ->]. destruct (Can tok scope); cbn in Eh; [eauto|]. by injection Eh.
    + intros Hno. symmetry in Ha. apply identify_holds in Ha. by destruct (Hno tok sess).
Qed.
End Auth.

(** A token with the scope to operate, and a browser logged in with it. *)
Module Browser.
#[export] Instance env : ApiEnv := {|
  ae_now k := 50;
  ae_newID k := "id" +:+ pretty k;
  ae_random _ := Some "random";
  ae_fault _ := None;
  Sum256 s := s;
  url_Parse s := Some ("https", s);
  ip_IsLoopback _ := false;
|}.
Definition token : APIToken := mkAPIToken "t1" "cli" (HashToken "rl_1") 5 Time.zero Time.zero [ScopeOperate].
Definition tab : Session := mkSession "s1" (HashToken "rls_1") "t1" 10 (10 + SessionLifetime) "".
Definition db : CredDB := cred_run [OpCreateToken token; OpCreateSession tab 10] cred_empty.
Definition server : Api := mkApi (mkDB ∅ ∅ ∅) (mkTimeline ∅ ∅ ∅ ∅ ∅) db ∅ (mkCli None None 0) ∅ "" 0 [].
Definition request (method origin : string) : HttpRequest :=
  mkHttpRequest method "/api/v1/recovery-runs" "lab" true (fun h => if bool_decide (h = "Origin") then origin else "")
    (Some "rls_1") (fun _ => "") (fun _ => "") None.
Definition handler : Handler := fun _ _ _ => mret (mkResponse 204 [] None PayloadNone).
Definition answers (scope method origin : string) : Z :=
  match requireScope false Duration.Minute scope handler (request method origin) server with
  | (Ret p, _) => rp_Status p
  | _ => 0
  end.

Example browser_answers :
  map (fun x => answers x.1.1 x.1.2 x.2)
    [(ScopeRead, "GET", ""); (ScopeOperate, "POST", "lab"); (ScopeOperate, "POST", "evil"); (ScopeManage, "POST", "lab")]
  = [204; 204; 403; 403].
Proof. vm_compute. reflexivity. Qed.

Lemma holders_enter_witness :
  cred_wf (ap_cred server) /\ exists tok sess, holds (ap_cred server) 50 (request "POST" "lab") tok sess /\
  exists s1, same_but_use server s1 /\ handler (request "POST" "lab") tok sess s1 =
    requireScope false Duration.Minute ScopeOperate handler (request "POST" "lab") server.
Proof.
  assert (cred_wf (ap_cred server)) as Hwf by (apply (cred_run_wf [OpCreateToken token; OpCreateSession tab 10] cred_empty), cred_empty_wf).
  split; [exact Hwf|].
  destruct (identify (ap_cred server) 50 (request "POST" "lab")) as [p|[tok sess]] eqn:E; [revert E; vm_compute; discriminate|].
  exists tok, sess. pose proof (identify_holds _ _ _ _ _ E) as Hh. split; [exact Hh|].
  pose proof (holders_enter Duration.Minute ScopeOperate handler (request "POST" "lab") server (fun _ => eq_refl) Hwf) as Ht.
  cbv zeta in Ht. destruct (requireScope _ _ _ _ _ _) as [o s'].
  destruct Ht as [Ht _]. specialize (Ht tok sess Hh).
  assert (Can tok ScopeOperate = true) as Hc by (revert E; vm_compute; intros E; injection E as <- _; reflexivity).
  rewrite Hc in Ht. exact Ht.
Defined.
End Browser.
