(* ===== verification/Setup.v ===== *)
(** * First-run setup

    Models internal/api/setup.go: the routes of a server that has no configuration.
    What provisions the cluster is the class [SetupEnv]. The token of the console is
    spent by one request, however many arrive together ([provisioned_once]). *)

From Stdlib Require Import ZArith Lia String Ascii List.
From S2P Require Import Prelude GoTime Errors Core GoString Story ApiBase Auth.

(** [SetupRequest], [SetupStep] and [SetupResult]. *)
Record SetupRequest := mkSetupRequest {
  sq_Endpoint : string;
  sq_AdminUser : string;
  sq_AdminPassword : string;
  sq_Storages : list string;
  sq_Insecure : bool;
  sq_Fingerprint : string;
  sq_CreateBridge : bool;
  sq_ApplyBridge : bool;
}.
Record SetupStep := mkSetupStep { ss_Description : string; ss_Status : string; ss_Detail : string }.
Record SetupResult := mkSetupResult {
  sr_Steps : list SetupStep;
  sr_ProviderID : string;
  sr_Node : string;
  sr_Bridge : string;
  sr_BridgeApplied : bool;
  sr_Token : string;
  sr_TokenName : string;
}.

(** [setup.Connect] gives back what was done so far, if anything, with its error. *)
Class SetupEnv := {
  json_setup : string -> option SetupRequest;
  setup_Connect : nat -> SetupRequest -> option SetupResult * option error;
}.

Definition step_json (s : SetupStep) : json :=
  JObject ([("description", JStr (ss_Description s)); ("status", JStr (ss_Status s))] ++ omitempty "detail" (ss_Detail s)).
Definition result_json (r : SetupResult) : json :=
  JObject ([("steps", JArray (map step_json (sr_Steps r))); ("provider_id", JStr (sr_ProviderID r))]
    ++ omitempty "node" (sr_Node r) ++ omitempty "bridge" (sr_Bridge r)
    ++ (if sr_BridgeApplied r then [("bridge_applied", JBool true)] else [])
    ++ [("token", JStr (sr_Token r)); ("token_name", JStr (sr_TokenName r))]).

(** [writeSetupFailure] and [stepsOf]. *)
Definition stepsOf (r : option SetupResult) : list SetupStep := match r with Some r => sr_Steps r | None => [] end.
Definition writeSetupFailure (r : HttpRequest) (p : Problem) (steps : list SetupStep) : Response :=
  mkResponse (pb_Status p) [("Content-Type", problemContentType)] None
    (PayloadSetupFailure (mkProblem (pb_Type p) (pb_Title p) (pb_Status p) (pb_Detail p) (hr_Path r))
       (match steps with [] => [] | _ => [("steps", JArray (map step_json steps))] end)).

(** [matchLocked]. *)
Definition matchLocked (token offered : string) : bool := nonempty token && nonempty offered && bool_decide (token = offered).

Section Setup.
Context `{ApiEnv} `{SetupEnv}.
Abbreviation AM := (M Api).

(** What the request offers, and the body it carries. *)
Definition offered (r : HttpRequest) : string := default "" (bearerToken (hr_Header r "Authorization")).
Definition read_setup (r : HttpRequest) : Response + SetupRequest :=
  match hr_Body r ≫= (fun raw => json_setup (limited raw)) with
  | None => inl (writeBadRequest r (Lit "the body is not the JSON this endpoint expects"))
  | Some q =>
    match sq_Storages q with
    | [] => inl (writeBadRequest r (Lit "at least one storage is required: it is where a drill restores its clone, and without one no real drill can run"))
    | _ => inr q
    end
  end.

(** The guards before the token is spent: the transport, then the token, which is not
    spent yet ([setupTokenMatches]), then the body. *)
Definition admitted_by (token : string) (r : HttpRequest) : Response + SetupRequest :=
  if negb (secureTransport r) then
    inl (writeBadRequest r (Lit "refusing to set up over plain HTTP from another machine: put TLS in front of RestoreLab, or open this from the machine serving it"))
  else if negb (matchLocked token (offered r)) then inl (writeUnauthorized r)
  else read_setup r.
(** [consumeSetupToken]: what is left of the token, when it was the one. *)
Definition consumeSetupToken (token offer : string) : option string := if matchLocked token offer then Some "" else None.
(** The answer to what provisioning produced. *)
Definition setup_answer (r : HttpRequest) (x : option SetupResult * option error) : Response :=
  match x with
  | (steps, Some e) => writeSetupFailure r (newProblem "setup-failed" "The cluster could not be set up" 502 (Error e)) (stepsOf steps)
  | (Some result, None) => writeJSON (result_json result)
  | (None, None) => writeJSON JNull
  end.

(** [handleSetupState] and [handleSetup]. *)
Definition handleSetupState (r : HttpRequest) : AM Response := mret (writeJSON (JObject [("required", JBool true)])).
Definition handleSetup (r : HttpRequest) : AM Response :=
  token ← gets ap_setupToken;
  match admitted_by token r with
  | inl answer => mret answer
  | inr q =>
    token ← gets ap_setupToken;
    match consumeSetupToken token (offered r) with
    | None => mret (writeUnauthorized r)
    | Some rest =>
      _ ← modify (set_ap_setupToken rest);
      _ ← a_call (AskSetup (sq_Endpoint q));
      result ← a_outside (fun n => setup_Connect n q);
      mret (setup_answer r result)
    end
  end.

(** ** Requests that arrive together

    A request goes through [handleSetup] in three steps, each of which the others see
    whole: the guards, the spending of the token under its lock, and the call. *)
Inductive phase := Arrived (r : HttpRequest) | Entered (r : HttpRequest) (q : SetupRequest) | Connecting (r : HttpRequest) (q : SetupRequest) | Answered.
Record Together := mkTogether { tg_token : string; tg_phases : gmap nat phase; tg_connects : list (HttpRequest * SetupRequest) }.
Definition advance (k : nat) (w : Together) : Together :=
  let go token p connects := mkTogether token (<[k := p]> (tg_phases w)) connects in
  match tg_phases w !! k with
  | Some (Arrived r) =>
    match admitted_by (tg_token w) r with
    | inl _ => go (tg_token w) Answered (tg_connects w)
    | inr q => go (tg_token w) (Entered r q) (tg_connects w)
    end
  | Some (Entered r q) =>
    match consumeSetupToken (tg_token w) (offered r) with
    | None => go (tg_token w) Answered (tg_connects w)
    | Some rest => go rest (Connecting r q) (tg_connects w)
    end
  | Some (Connecting r q) => go (tg_token w) Answered (tg_connects w ++ [(r, q)])
  | Some Answered | None => w
  end.
Definition together (schedule : list nat) (w : Together) : Together := fold_left (fun w k => advance k w) schedule w.
Definition arriving (token : string) (requests : list HttpRequest) : Together :=
  mkTogether token (list_to_map (zip (seq 0 (length requests)) (map Arrived requests))) [].

Definition is_connecting (p : phase) : bool := match p with Connecting _ _ => true | _ => false end.
End Setup.

(** ** The token is spent once *)

Section Once.
Context `{ApiEnv} `{SetupEnv} (t0 : string) (requests : list HttpRequest).

Lemma admitted_offers token r q : admitted_by token r = inr q -> matchLocked token (offered r) = true.
Proof. unfold admitted_by. destruct (secureTransport r); [|done]. by destruct (matchLocked token (offered r)). Qed.
Lemma matchLocked_empty offer : matchLocked "" offer = false.
Proof. reflexivity. Qed.

(** A request that passed the guards did so while the token was there. *)
Definition vetted (p : phase) : Prop :=
  match p with
  | Arrived r => r ∈ requests
  | Entered r q | Connecting r q => r ∈ requests /\ admitted_by t0 r = inr q
  | Answered => True
  end.
Definition quiet (phases : gmap nat phase) : Prop := forall k p, phases !! k = Some p -> is_connecting p = false.
(** The token is there and nobody spent it; one request spent it and its call goes on;
    or that call is over. *)
Inductive spending (w : Together) : Prop :=
| spending_none : tg_token w = t0 -> quiet (tg_phases w) -> tg_connects w = [] -> spending w
| spending_now k r q : tg_token w = "" -> tg_phases w !! k = Some (Connecting r q) -> quiet (delete k (tg_phases w)) -> tg_connects w = [] ->
    spending w
| spending_over r q : tg_token w = "" -> quiet (tg_phases w) -> tg_connects w = [(r, q)] -> r ∈ requests -> admitted_by t0 r = inr q -> spending w.
Record spent_once (w : Together) : Prop := {
  so_vetted : map_Forall (fun _ => vetted) (tg_phases w);
  so_spending : spending w;
}.

Lemma quiet_insert k p phases : quiet (delete k phases) -> is_connecting p = false -> quiet (<[k := p]> phases).
Proof.
  intros Hq Hp j x. destruct (decide (j = k)) as [->|Hne]; [rewrite lookup_insert_eq; by intros [= <-]|].
  rewrite lookup_insert_ne by done. intros E. apply (Hq j). by rewrite lookup_delete_ne.
Qed.
Lemma quiet_delete k phases : quiet phases -> quiet (delete k phases).
Proof. intros Hq j x [_ E]%lookup_delete_Some. by apply (Hq j). Qed.
(** A step of a request that is not calling leaves the others as they are. *)
Lemma spending_other w k p token : spending w -> (exists p0, tg_phases w !! k = Some p0 /\ is_connecting p0 = false) -> is_connecting p = false ->
  token = tg_token w -> spending (mkTogether token (<[k := p]> (tg_phases w)) (tg_connects w)).
Proof.
  intros Hs (p0 & E & Hq0) Hp ->. destruct Hs as [Ht Hq Hc|j r q Ht Ej Hq Hc|r q Ht Hq Hc Hr Ha].
  - apply spending_none; [done| |done]. by apply quiet_insert, Hp; apply quiet_delete.
  - assert (j <> k) as Hne by (intros ->; rewrite E in Ej; by injection Ej as ->).
    apply (spending_now _ j r q); cbn; [done|by rewrite lookup_insert_ne| |done]. rewrite delete_insert_ne by done.
    apply quiet_insert; [by apply quiet_delete|done].
  - apply (spending_over _ r q); cbn; [done| |done..]. apply quiet_insert; [by apply quiet_delete|done].
Qed.

Lemma advance_once k w : spent_once w -> spent_once (advance k w).
Proof.
  intros [Hv Hs]. unfold advance. destruct (tg_phases w !! k) as [p|] eqn:E; [|by split]. pose proof (map_Forall_lookup_1 _ _ _ _ Hv E) as Hp.
  destruct p as [r|r q|r q|]; cbn [vetted] in Hp; [| | |by split].
  - destruct (admitted_by (tg_token w) r) as [answer|q] eqn:Ha.
    + split; [by apply map_Forall_insert_2|]. apply spending_other; [done|by exists (Arrived r)|done..].
    + assert (tg_token w = t0) as Ht.
      { destruct Hs as [Ht _ _|? ? ? Ht _ _ _|? ? Ht _ _ _ _]; [done|..]; apply admitted_offers in Ha; rewrite Ht in Ha; done. }
      split; [apply map_Forall_insert_2; [split; [done|by rewrite Ht in Ha]|done]|]. apply spending_other; [done|by exists (Arrived r)|done..].
  - unfold consumeSetupToken. destruct (matchLocked (tg_token w) (offered r)) eqn:Hm.
    + split; [by apply map_Forall_insert_2|]. destruct Hs as [Ht Hq Hc|? ? ? Ht _ _ _|? ? Ht _ _ _ _]; [|rewrite Ht in Hm; done..].
      apply (spending_now _ k r q); cbn; [done|by rewrite lookup_insert_eq| |done]. rewrite delete_insert_eq. by apply quiet_delete.
    + split; [by apply map_Forall_insert_2|]. apply spending_other; [done|by exists (Entered r q)|done..].
  - split; [by apply map_Forall_insert_2|]. destruct Hs as [Ht Hq Hc|j r' q' Ht Ej Hq Hc|? ? Ht Hq Hc _ _].
    + apply Hq in E. done.
    + destruct (decide (j = k)) as [->|Hne].
      * apply (spending_over _ r q); cbn; [done|by apply quiet_insert|by rewrite Hc|apply Hp..].
      * assert (is_connecting (Connecting r q) = false); [|done]. apply (Hq k). by rewrite lookup_delete_ne.
    + apply Hq in E. done.
Qed.

Lemma arriving_once : spent_once (arriving t0 requests).
Proof.
  assert (forall k p, tg_phases (arriving t0 requests) !! k = Some p -> exists r, r ∈ requests /\ p = Arrived r) as Hp.
  { intros k p E%elem_of_list_to_map_2%elem_of_zip_r. apply list_elem_of_fmap in E as (r & -> & Hr). by exists r. }
  split; [intros k p E; destruct (Hp k p E) as (r & Hr & ->); exact Hr|]. apply spending_none; [done| |done].
  intros k p E. by destruct (Hp k p E) as (r & _ & ->).
Qed.
Lemma together_once schedule : spent_once (together schedule (arriving t0 requests)).
Proof.
  unfold together. generalize (arriving t0 requests) arriving_once. induction schedule as [|k l IH]; intros w Hw; [done|].
  cbn [fold_left]. apply IH. by apply advance_once.
Qed.

(** C32: a server is set up at most once. Whatever requests arrive and however their
    steps interleave, at most one of them reaches the cluster, and it is one that
    came over a safe transport, offered the token of the console and carried a body
    that was accepted; from then on the token is gone, and nobody is admitted. *)
Theorem provisioned_once schedule :
  match tg_connects (together schedule (arriving t0 requests)) with
  | [] => True
  | [(r, q)] => r ∈ requests /\ secureTransport r = true /\ t0 <> "" /\ offered r = t0 /\ read_setup r = inr q /\
      forall r', exists answer, admitted_by (tg_token (together schedule (arriving t0 requests))) r' = inl answer
  | _ => False
  end.
Proof.
  destruct (together_once schedule) as [_ Hs]. destruct Hs as [_ _ ->|? ? ? _ _ _ ->|r q Ht _ -> Hr Ha]; [done..|].
  pose proof (admitted_offers _ _ _ Ha) as Hm. unfold matchLocked in Hm. apply andb_true_iff in Hm as [[H1 _]%andb_true_iff H2].
  apply bool_decide_eq_true in H2. unfold admitted_by in Ha. destruct (secureTransport r); [|done]. destruct (matchLocked t0 (offered r)); [|done].
  split_and!; try done; [by apply nonempty_spec|]. intros r'. unfold admitted_by. rewrite Ht, matchLocked_empty.
  destruct (secureTransport r'); eauto.
Qed.
End Once.

(** A request that is alone goes through the same steps. *)
Lemma alone `{ApiEnv} `{SetupEnv} r s :
  let w := together [0; 0; 0]%nat (arriving (ap_setupToken s) [r]) in
  exists answer s', handleSetup r s = (Ret answer, s') /\ ap_setupToken s' = tg_token w /\
    ap_calls s' = ap_calls s ++ map (fun x => AskSetup (sq_Endpoint x.2)) (tg_connects w).
Proof.
  unfold handleSetup. rewrite (bind_Ret (gets ap_setupToken) _ s (ap_setupToken s) s eq_refl). unfold together, arriving. cbn [fold_left].
  destruct (admitted_by (ap_setupToken s) r) as [answer|q] eqn:Ha.
  - eexists _, _. split; [reflexivity|]. unfold advance. cbn. repeat (rewrite ?lookup_insert_eq, ?Ha; cbn). by rewrite app_nil_r.
  - rewrite (bind_Ret (gets ap_setupToken) _ s (ap_setupToken s) s eq_refl). pose proof (admitted_offers _ _ _ Ha) as Hm.
    unfold consumeSetupToken. rewrite Hm. eexists _, _. split; [reflexivity|]. unfold advance, consumeSetupToken. cbn.
    by repeat (rewrite ?lookup_insert_eq, ?Ha, ?Hm; cbn).
Qed.
