(* ===== verification/Provision.v ===== *)
(** * Provisioning a machine

    Models internal/cli/provision.go with what runs it: [ensureMasterKey] of init.go,
    [masterKey] of root.go, connect.go, and the wizard of setup.go. The administrator's
    requests are those of [ProxmoxAdmin], the configuration and the key files those of
    [Config] and [Secrets]; a machine is those states side by side. *)

From Stdlib Require Import ZArith Lia String Ascii List.
From stdpp Require Import strings.
From S2P Require Import Prelude GoTime Errors Core GoString GoFmt Base64 Secrets Plan Config Channels Pve Providers Proxmox ProxmoxAdmin ProxmoxAdminTheorems Credentials Story ApiBase Auth Setup.

(** ** Data *)

(** [provisionOptions], but for [AfterVerify]. *)
Record provisionOptions := mkProvisionOptions {
  po_Endpoint : string;
  po_AdminUser : string;
  po_AdminPassword : string;
  po_Insecure : bool;
  po_CACertPEM : string;
  po_CACertPath : string;
  po_ProviderID : string;
  po_ServiceUser : string;
  po_TokenName : string;
  po_RoleName : string;
  po_Pool : string;
  po_Node : string;
  po_Storages : list string;
  po_CreateBridge : bool;
  po_ApplyBridge : bool;
  po_BridgeName : string;
  po_ReadOnly : bool;
  po_DryRun : bool;
}.

(** [provisionResult], built as the sequence goes. *)
Record provisionResult := mkProvisionResult {
  pr_Steps : list BootstrapStep;
  pr_Entry : option Provider;
  pr_Node : string;
  pr_Bridge : string;
  pr_BridgeApplied : bool;
  pr_BridgeCreated : bool;
  pr_TokenID : string;
  pr_Bootstrap : option BootstrapOptions;
  pr_NodeCount : Z;
}.
Definition no_result : provisionResult := mkProvisionResult [] None "" "" false false "" None 0.
Definition out_bootstrap (b : BootstrapOptions) (r : provisionResult) : provisionResult :=
  mkProvisionResult (pr_Steps r) (pr_Entry r) (pr_Node r) (pr_Bridge r) (pr_BridgeApplied r) (pr_BridgeCreated r) (pr_TokenID r) (Some b) (pr_NodeCount r).
Definition out_steps (l : list BootstrapStep) (r : provisionResult) : provisionResult :=
  mkProvisionResult l (pr_Entry r) (pr_Node r) (pr_Bridge r) (pr_BridgeApplied r) (pr_BridgeCreated r) (pr_TokenID r) (pr_Bootstrap r) (pr_NodeCount r).
Definition out_token (id : string) (r : provisionResult) : provisionResult :=
  mkProvisionResult (pr_Steps r) (pr_Entry r) (pr_Node r) (pr_Bridge r) (pr_BridgeApplied r) (pr_BridgeCreated r) id (pr_Bootstrap r) (pr_NodeCount r).
Definition out_entry (e : Provider) (r : provisionResult) : provisionResult :=
  mkProvisionResult (pr_Steps r) (Some e) (pr_Node r) (pr_Bridge r) (pr_BridgeApplied r) (pr_BridgeCreated r) (pr_TokenID r) (pr_Bootstrap r) (pr_NodeCount r).
Definition out_nodes (n : Z) (r : provisionResult) : provisionResult :=
  mkProvisionResult (pr_Steps r) (pr_Entry r) (pr_Node r) (pr_Bridge r) (pr_BridgeApplied r) (pr_BridgeCreated r) (pr_TokenID r) (pr_Bootstrap r) n.
Definition out_bridge (node bridge : string) (r : provisionResult) : provisionResult :=
  mkProvisionResult (pr_Steps r) (pr_Entry r) node bridge (pr_BridgeApplied r) (pr_BridgeCreated r) (pr_TokenID r) (pr_Bootstrap r) (pr_NodeCount r).
Definition out_created (applied : bool) (r : provisionResult) : provisionResult :=
  mkProvisionResult (pr_Steps r) (pr_Entry r) (pr_Node r) (pr_Bridge r) applied true (pr_TokenID r) (pr_Bootstrap r) (pr_NodeCount r).

(** A machine: the configuration, in memory and on disk, the key files, the master key
    once it was read, the two clients of the cluster (the administrator's and the new
    token's), what was provisioned so far, and the history database, if there is one. *)
Record Machine := mkMachine {
  mc_cli : Cli;
  mc_keys : Files;
  mc_key : option Key;
  mc_admin : Admin;
  mc_service : Pve;
  mc_out : provisionResult;
  mc_tokens : option CredDB;
}.
Definition set_mc_cli (c : Cli) (m : Machine) : Machine :=
  mkMachine c (mc_keys m) (mc_key m) (mc_admin m) (mc_service m) (mc_out m) (mc_tokens m).
Definition set_mc_keys (k : Files) (m : Machine) : Machine :=
  mkMachine (mc_cli m) k (mc_key m) (mc_admin m) (mc_service m) (mc_out m) (mc_tokens m).
Definition set_mc_key (k : Key) (m : Machine) : Machine :=
  mkMachine (mc_cli m) (mc_keys m) (Some k) (mc_admin m) (mc_service m) (mc_out m) (mc_tokens m).
Definition set_mc_admin (a : Admin) (m : Machine) : Machine :=
  mkMachine (mc_cli m) (mc_keys m) (mc_key m) a (mc_service m) (mc_out m) (mc_tokens m).
Definition set_mc_service (w : Pve) (m : Machine) : Machine :=
  mkMachine (mc_cli m) (mc_keys m) (mc_key m) (mc_admin m) w (mc_out m) (mc_tokens m).
Definition set_mc_out (f : provisionResult -> provisionResult) (m : Machine) : Machine :=
  mkMachine (mc_cli m) (mc_keys m) (mc_key m) (mc_admin m) (mc_service m) (f (mc_out m)) (mc_tokens m).
Definition set_mc_tokens (db : CredDB) (m : Machine) : Machine :=
  mkMachine (mc_cli m) (mc_keys m) (mc_key m) (mc_admin m) (mc_service m) (mc_out m) (Some db).

(** What is outside: the paths, the environment and what fails of the files; the random
    bytes, by the time they are read; the cluster, as each of the clients sees it. *)
Class ProvisionEnv := {
  pe_path : string;
  pe_dir : string;
  pe_nonce : nat -> error + string;
  pe_config_faults : nat -> config_faults;
  pe_master_key : option string;
  pe_home : error + string;
  pe_keyPath : string;
  pe_key_dir : string;
  pe_key_bytes : nat -> error + string;
  pe_key_faults : nat -> save_faults;
  pe_unreadable : nat -> string -> option error;
  pe_suffix : nat -> error + string;
  pe_admin : string -> PveEnv;
  pe_service : PveConfig -> PveEnv;
}.

(** The class of [Channels], once the master key is known. *)
Definition cli_of `{ProvisionEnv} (key : Key) : CliEnv := {|
  cli_key := inr key;
  cli_path := pe_path;
  cli_dir := pe_dir;
  cli_nonce := pe_nonce;
  cli_faults := pe_config_faults;
|}.

(** ** The administrator's client (bootstrap.go) *)

(** [NewAdminClient]. *)
Definition NewAdminClient (certs : string -> bool) (endpoint username password ca : string) : error + Admin :=
  if negb (nonempty endpoint) then inl (ENew (Lit "proxmox: AdminConfig.Endpoint is required"))
  else if negb (nonempty username) then inl (ENew (Lit "proxmox: AdminConfig.Username is required"))
  else if negb (nonempty password) then inl (ENew (Lit "proxmox: AdminConfig.Password is required"))
  else if nonempty ca && negb (certs ca) then
    inl (ENew (Lit "proxmox: AdminConfig.CACertPEM does not contain a valid PEM certificate"))
  else inr (mkAdmin (mkPve [] 0) username password "" "" []).

(** ** Sequences that stop at the first error *)

Definition attempt {S A B} (m : M S (error + A)) (k : A -> M S (error + B)) : M S (error + B) :=
  r ← m; match r with inl e => mret (inl e) | inr a => k a end.
Local Notation "x ⇐ m ; k" := (attempt m (fun x => k)) (at level 20, m at level 100, k at level 200, only parsing).
Definition checked (r : option error) : error + unit := match r with Some e => inl e | None => inr tt end.
Definition reworded {A} (fmt : string) (args : list arg) (r : error + A) : error + A :=
  match r with inl e => inl (EWrap (Sprintf fmt (args ++ [AText (Error e)])) e) | inr a => inr a end.

Section Provision.
Context `{AEAD} `{ConfigEnv} `{FactoryEnv} `{ProvisionEnv}.
Abbreviation MM := (M Machine).

Definition on_cli {A} (m : M Cli A) : MM A := fun s => let '(r, c) := m (mc_cli s) in (r, set_mc_cli c s).
Definition on_admin {A} (m : M Admin A) : MM A := fun s => let '(r, a) := m (mc_admin s) in (r, set_mc_admin a s).
Definition on_service {A} (m : M Pve A) : MM A := fun s => let '(r, w) := m (mc_service s) in (r, set_mc_service w s).
Definition out (f : provisionResult -> provisionResult) : MM unit := modify (set_mc_out f).
(** Something read of the outside, at the time of the machine. *)
Definition outside {A} (f : nat -> A) : MM A := on_cli (fun s => (Ret (f (cl_time s)), mkCli (cl_cfg s) (cl_file s) (S (cl_time s)))).

(** ** The master key (init.go, root.go) *)

Definition readable (t : nat) (files : Files) (path : string) : read_answer :=
  match pe_unreadable t path with Some e => ReadFailed e | None => read_file files path end.
Definition load_key : MM (error + (Key * text)) :=
  read ← outside readable;
  files ← gets mc_keys;
  mret (LoadKey pe_master_key pe_home (read files) pe_keyPath).
Definition is_ErrNoKey (e : error) : bool := match e with ENew (Lit t) => bool_decide (t = "no master key found") | _ => false end.
Definition key_path : error + string :=
  if nonempty pe_keyPath then inr pe_keyPath
  else on_ok (fun home => home +:+ "/" +:+ defaultKeyRelPath) (reworded "locate home directory: %w" [] pe_home).
Definition save_key (path : string) (key : Key) : MM (error + unit) :=
  faults ← outside pe_key_faults;
  files ← gets mc_keys;
  let '(err, files) := SaveKey path pe_key_dir key faults files in
  _ ← modify (set_mc_keys files);
  mret (checked err).

(** [ensureMasterKey]: where the key is, and whether it was created. *)
Definition ensureMasterKey : MM (error + (text * bool)) :=
  loaded ← load_key;
  match loaded with
  | inr (_, source) => mret (inr (source, false))
  | inl e =>
    if is_ErrNoKey e then
      path ⇐ mret key_path;
      bytes ← outside pe_key_bytes;
      key ⇐ mret (NewKey bytes);
      _ ⇐ save_key path key;
      mret (inr (Lit path, true))
    else mret (inl e)
  end.

(** [masterKey]. *)
Definition masterKey : MM (error + Key) :=
  cached ← gets mc_key;
  match cached with
  | Some key => mret (inr key)
  | None => loaded ⇐ load_key; _ ← modify (set_mc_key loaded.1); mret (inr loaded.1)
  end.

(** ** A machine with nothing set up (connect.go) *)

(** [initialised]. *)
Record initialised := mkInitialised { in_key : bool; in_keyPath : text; in_config : bool }.

(** [config], and whether there is no file. *)
Definition read_config : MM (load_error + Config) := on_cli (fun s =>
  match cl_cfg s with
  | Some c => (Ret (inr c), s)
  | None =>
    match Load pe_path (match cl_file s with Some data => Contents data | None => NotExist end) with
    | inl e => (Ret (inl e), s)
    | inr c => (Ret (inr c), set_cl_cfg c s)
    end
  end).
Definition edit (c : Config) : MM unit := on_cli (modify (set_cl_cfg c)).
(** [config.Save]: nothing is validated. *)
Definition save_config (c : Config) : MM (error + unit) := on_cli (fun s =>
  let '(err, file) := SaveConfig pe_path pe_dir c (pe_config_faults (cl_time s)) (cl_file s) in (Ret (checked err), set_cl_file file s)).

(** [ensureInitialisedQuietly]. *)
Definition ensureInitialisedQuietly : MM (error + (Config * Key * initialised)) :=
  made ⇐ ensureMasterKey;
  key ⇐ masterKey;
  cfg ← read_config;
  match cfg with
  | inr c => mret (inr (c, key, mkInitialised made.2 made.1 false))
  | inl (ConfigNotFound _) =>
    _ ⇐ save_config NewConfig;
    _ ← edit NewConfig;
    mret (inr (NewConfig, key, mkInitialised made.2 made.1 true))
  | inl (LoadFailed e) => mret (inl e)
  end.

(** ** The sequence (provision.go) *)

(** A token is reused when the configuration holds the secret of that very token. *)
Definition reuses (o : provisionOptions) (c : Config) : bool :=
  match provider_of (po_ProviderID o) c with
  | inr existing => bool_decide (prv_TokenID existing = po_ServiceUser o +:+ "!" +:+ po_TokenName o) && nonempty (prv_TokenSecret existing)
  | inl _ => false
  end.
Definition bootstrap_of (o : provisionOptions) (reuse : bool) : BootstrapOptions :=
  mkBootstrapOptions (po_ServiceUser o) "RestoreLab recovery drills" (po_TokenName o) (po_RoleName o) (po_Pool o) (po_ReadOnly o) (po_Node o)
    (po_Storages o) (po_BridgeName o) "" reuse (po_DryRun o).
(** The provider that is stored, its secret apart. *)
Definition entry_of (o : provisionOptions) (tokenID : string) : Provider :=
  mkProvider (po_ProviderID o) KindProxmox [RoleHypervisor; RoleBackup] (po_Endpoint o) tokenID "" (po_Insecure o) "" (po_CACertPath o) (po_Node o)
    "" (po_Pool o) DefaultTempIDMin DefaultTempIDMax "" "".
Definition with_default_provider (id : string) (c : Config) : Config :=
  if nonempty (df_Provider (cg_Defaults c)) then c else
  let d := cg_Defaults c in
  mkConfig (cg_Version c) (cg_Providers c) (cg_Networks c) (cg_Limits c)
    (mkDefaults id (df_BackupProvider d) (df_Network d) (df_Node d) (df_Storage d)) (cg_DatabaseURL c) (cg_Scheduler c) (cg_BaseURL c) (cg_Notifications c).
Definition no_secret (entry : Provider) : error :=
  ENew (Sprintf "no token secret available for %s: delete the token in Proxmox and connect again" [AStr (prv_TokenID entry)]).

(** The secret of an entry that was just stored: the one revealed, or the one that was
    there. *)
Definition seal_token (key : Key) (entry : Provider) (secret previous : string) (c : Config) : MM (error + Config) :=
  if nonempty secret then
    nonce ← outside pe_nonce;
    let '(err, c) := SetProviderSecret (prv_ID entry) secret nonce key c in
    _ ← edit c;
    match err with Some e => mret (inl e) | None => mret (inr c) end
  else if nonempty previous then
    match provider_of (prv_ID entry) c with
    | inl e => mret (inl e)
    | inr _ =>
      let c := set_Providers (alter_first prv_ID (with_secret previous) (prv_ID entry) (cg_Providers c)) c in
      _ ← edit c;
      mret (inr c)
    end
  else mret (inl (no_secret entry)).

(** The provider is stored, with its secret sealed, and the file written. *)
Definition store_token (key : Key) (entry : Provider) (secret : string) (c : Config) : MM (error + unit) :=
  let previous := match provider_of (prv_ID entry) c with inr existing => prv_TokenSecret existing | inl _ => "" end in
  let c := Upsert entry c in
  _ ← edit c;
  c ⇐ seal_token key entry secret previous c;
  let c := with_default_provider (prv_ID entry) c in
  _ ← edit c;
  saved ← save_config c;
  _ ⇐ mret (reworded "the token was created in Proxmox but could not be saved: %w" [] saved);
  _ ← out (out_entry entry);
  mret (inr tt).

(** [hypervisor]: a client of the service, new. *)
Definition service_client (key : Key) (id : string) : MM (error + PveConfig) :=
  client ⇐ on_cli (@app_hypervisor _ _ (cli_of key) _ id);
  _ ← modify (set_mc_service (mkPve [] 0));
  mret (inr client).

(** The first node that is online, when none was asked for. *)
Definition choose_node (wanted : string) (nodes : list Node) : string :=
  if nonempty wanted then wanted else match List.find node_Online nodes with Some n => node_ID n | None => "" end.
Definition isolated_on (bridge : string) : NetworkConfig := mkNetworkConfig bridge "" 0 false true.
Definition bridge_step (bridge node status : string) : BootstrapStep :=
  mkBootstrapStep (Sprintf "create isolated bridge %s on %s" [AStr bridge; AStr node]) status (Lit "").
Definition add_step (s : BootstrapStep) (r : provisionResult) : provisionResult := out_steps (pr_Steps r ++ [s]) r.

(** [provisionBridge]. *)
Definition provisionBridge (client : PveConfig) (nodes : list Node) (o : provisionOptions) : MM (error + unit) :=
  let node := choose_node (po_Node o) nodes in
  let bridge := po_BridgeName o in
  if negb (nonempty node) || negb (nonempty bridge) then
    mret (inl (ENew (Sprintf "no node or bridge to create: node %q, bridge %q" [AStr node; AStr bridge])))
  else
    _ ← out (out_bridge node bridge);
    isolated ← on_service (@ValidateIsolation (pe_service client) node (isolated_on bridge));
    match isolated with
    | inr _ => _ ← out (add_step (bridge_step bridge node "already exists")); mret (inr tt)
    | inl _ =>
      made ← on_admin (@EnsureIsolatedBridge (pe_admin (po_Endpoint o)) (mkBridgeOptions node bridge "" (po_ApplyBridge o) false));
      _ ⇐ mret (reworded "creating the isolated bridge %s on %s: %w" [AStr bridge; AStr node] made);
      _ ← out (add_step (bridge_step bridge node (if po_ApplyBridge o then "created" else "written, applies at the next reboot")));
      _ ← out (out_created (po_ApplyBridge o));
      mret (inr tt)
    end.

(** What runs once the token was proved to work ([AfterVerify]). *)
Definition hook : Type := PveConfig -> list Node -> MM (option error).

(** The sequence, once the administrator is there. *)
Definition verify_token (after : hook) (key : Key) (o : provisionOptions) : MM (error + unit) :=
  client ⇐ service_client key (po_ProviderID o);
  nodes ← on_service (@ListNodes (pe_service client));
  nodes ⇐ mret (reworded "the token was created but cannot be used: %w" [] nodes);
  _ ← out (out_nodes (Z.of_nat (length nodes)));
  err ← after client nodes;
  _ ⇐ mret (checked err);
  if po_CreateBridge o then provisionBridge client nodes o else mret (inr tt).
Definition with_admin (after : hook) (c : Config) (key : Key) (o : provisionOptions) : MM (error + unit) :=
  err ← on_admin (@Login (pe_admin (po_Endpoint o)));
  _ ⇐ mret (checked err);
  let b := bootstrap_of o (reuses o c) in
  _ ← out (out_bootstrap b);
  result ← on_admin (@Bootstrap (pe_admin (po_Endpoint o)) b);
  steps ← gets (fun s => ad_steps (mc_admin s));
  _ ← out (out_steps steps);
  token ⇐ mret result;
  _ ← out (out_token token.1);
  if po_DryRun o then mret (inr tt) else
  _ ⇐ store_token key (entry_of o token.1) token.2 c;
  verify_token after key o.

(** [provision]. *)
Definition provision (after : hook) (o : provisionOptions) : MM (error + unit) :=
  _ ← out (fun _ => no_result);
  ready ⇐ ensureInitialisedQuietly;
  admin ⇐ mret (NewAdminClient has_certificate (po_Endpoint o) (po_AdminUser o) (po_AdminPassword o) (po_CACertPEM o));
  _ ← modify (set_mc_admin admin);
  r ← with_admin after ready.1.1 ready.1.2 o;
  _ ← on_admin Close;
  mret r.

(** ** The command (connect.go) *)

(** [connectFlags]. *)
Record connectFlags := mkConnectFlags {
  fl_id : string;
  fl_insecure : bool;
  fl_caCert : string;
  fl_adminUser : string;
  fl_adminPassword : string;
  fl_passwordFile : string;
  fl_serviceUser : string;
  fl_tokenName : string;
  fl_role : string;
  fl_pool : string;
  fl_noPool : bool;
  fl_node : string;
  fl_storages : list string;
  fl_readOnly : bool;
  fl_dryRun : bool;
  fl_yes : bool;
  fl_createBridge : bool;
  fl_bridgeName : string;
  fl_noApply : bool;
}.
(** What is read of a file, or of the standard input; the environment; whether somebody
    is there, what they type without an echo, and the lines they answer. *)
Class Terminal := {
  tm_file : string -> error + string;
  tm_password : string;
  tm_interactive : bool;
  tm_typed : error + string;
  tm_line : nat -> option string;
}.
Context `{Terminal}.

(** [confirm]: without a terminal the answer is no. *)
Definition confirm : MM bool :=
  if negb tm_interactive then mret false else
  line ← outside tm_line;
  mret (match line with
        | None => false
        | Some l => let answer := ToLower (TrimSpace l) in bool_decide (answer = "y") || bool_decide (answer = "yes")
        end).

(** [readFileIfSet] and [readAdminPassword]. *)
Definition read_named (path : string) : error + string :=
  reworded (if bool_decide (path = "-") then "read stdin: %w" else "read %s: %w") (if bool_decide (path = "-") then [] else [AStr path]) (tm_file path).
Definition readFileIfSet (path : string) : error + string :=
  if nonempty path then reworded "read %s: %w" [AStr path] (tm_file path) else inr "".
Definition trimmed (empty : string) (data : error + string) : error + string :=
  match data with
  | inl e => inl e
  | inr data => if nonempty (TrimSpace data) then inr (TrimSpace data) else inl (ENew (Lit empty))
  end.
Definition readAdminPassword (f : connectFlags) : error + string :=
  if nonempty (fl_adminPassword f) then inr (fl_adminPassword f)
  else if nonempty (fl_passwordFile f) then trimmed "the password file is empty" (read_named (fl_passwordFile f))
  else if nonempty tm_password then inr tm_password
  else if negb tm_interactive then
    inl (ENew (Sprintf "no password available: use --admin-password-file, or set $%s" [AStr "RESTORELAB_ADMIN_PASSWORD"]))
  else trimmed "no password given" (reworded "read password: %w" [] tm_typed).

(** [isolatedBridge]: the bridge of the isolated profile; none when it is not isolated. *)
Definition profile_bridge (c : Config) : string :=
  match network_of (if nonempty (df_Network (cg_Defaults c)) then df_Network (cg_Defaults c) else "isolated") c with
  | inr n => if nw_Isolated n then nw_Bridge n else ""
  | inl _ => ""
  end.
Definition isolatedBridge (c : Config) (f : connectFlags) : string :=
  if nonempty (fl_bridgeName f) then fl_bridgeName f else profile_bridge c.

(** [maybeCreateBridge]: what fails here is said, and is not an error. *)
Definition wants_bridge (f : connectFlags) : MM bool :=
  if fl_createBridge f then mret true
  else if negb tm_interactive || fl_yes f then mret false
  else confirm.
Definition maybeCreateBridge (c : Config) (endpoint : string) (f : connectFlags) (client : PveConfig) (nodes : list Node) : MM unit :=
  let bridge := isolatedBridge c f in
  let node := choose_node (fl_node f) nodes in
  if negb (nonempty node) || negb (nonempty bridge) then mret tt else
  isolated ← on_service (@ValidateIsolation (pe_service client) node (isolated_on bridge));
  match isolated with
  | inr _ => mret tt
  | inl _ =>
    wanted ← wants_bridge f;
    if wanted : bool then
      _ ← on_admin (@EnsureIsolatedBridge (pe_admin endpoint) (mkBridgeOptions node bridge "" (negb (fl_noApply f)) (fl_dryRun f)));
      mret tt
    else mret tt
  end.

(** What the flags ask of [provision]. *)
Definition flag_role (f : connectFlags) : string :=
  if nonempty (fl_role f) then fl_role f else if fl_readOnly f then "RestoreLabRead" else "RestoreLabDrill".
Definition flag_pool (f : connectFlags) : string := if fl_noPool f || fl_readOnly f then "" else fl_pool f.
Definition options_of (endpoint password ca : string) (c : Config) (f : connectFlags) : provisionOptions :=
  mkProvisionOptions endpoint (fl_adminUser f) password (fl_insecure f) ca (fl_caCert f) (fl_id f) (fl_serviceUser f) (fl_tokenName f) (flag_role f)
    (flag_pool f) (fl_node f) (fl_storages f) false false (isolatedBridge c f) (fl_readOnly f) (fl_dryRun f).

(** [connect]: whether somebody agreed to it. *)
Definition consent (f : connectFlags) : MM bool := if fl_dryRun f || fl_yes f then mret true else confirm.
Definition connect (endpoint : string) (f : connectFlags) : MM (error + bool) :=
  password ⇐ mret (readAdminPassword f);
  ca ⇐ mret (readFileIfSet (fl_caCert f));
  ready ⇐ ensureInitialisedQuietly;
  agreed ← consent f;
  if agreed : bool then
    let c := ready.1.1 in
    _ ⇐ provision (fun client nodes => _ ← maybeCreateBridge c endpoint f client nodes; mret None) (options_of endpoint password ca c f);
    mret (inr true)
  else mret (inr false).

(** ** The wizard (setup.go) *)

Context `{ApiEnv}.

Definition setupProviderID : string := "proxmox-main".
Definition setupServiceUser : string := "restorelab@pve".
Definition setupRoleName : string := "RestoreLabDrill".
Definition setupPool : string := "restorelab".
Definition dashboardTokenName : string := "dashboard".
Definition setupTokenPrefix : string := "drills".

(** [setupProxmoxTokenName]. *)
Definition setupProxmoxTokenName : MM (error + string) :=
  bytes ← outside pe_suffix;
  mret (on_ok (fun b => setupTokenPrefix +:+ "-" +:+ hex b) (reworded "naming the API token: %w" [] bytes)).

(** [Configured]: a provider on disk. *)
Definition Configured (s : Cli) : bool :=
  match Load pe_path (match cl_file s with Some data => Contents data | None => NotExist end) with
  | inr c => match cg_Providers c with [] => false | _ => true end
  | inl _ => false
  end.

(** [bridgeName]. *)
Definition bridgeName : MM (error + string) :=
  ready ⇐ ensureInitialisedQuietly;
  let c := ready.1.1 in
  let name := if nonempty (df_Network (cg_Defaults c)) then df_Network (cg_Defaults c) else "isolated" in
  mret (on_ok nw_Bridge (reworded "no isolated network profile %q in the configuration: %w" [AStr name] (network_of name c))).

(** [mintDashboardToken]. *)
Definition token_text (raw : string) : string := TokenPrefix +:+ EncodeToString RawURLEncoding raw.
Definition dashboard_token (id secret : string) (now : Z) : APIToken :=
  mkAPIToken id dashboardTokenName (HashToken secret) now Time.zero Time.zero [ScopeRead; ScopeOperate; ScopeManage].
Definition insert_token (tok : APIToken) (db : CredDB) : MM (error + unit) :=
  fault ← outside ae_fault;
  match fault with
  | Some e => mret (inl (ENew (api_error_text (outage_error e))))
  | None =>
    match CreateToken tok db with
    | inl NoHash => mret (inl (ENew (Lit "store: refusing to record a credential with no hash")))
    | inl (Refused err) => mret (inl (ENew (api_error_text (EStore err))))
    | inr db => _ ← modify (set_mc_tokens db); mret (inr tt)
    end
  end.
Definition mintDashboardToken : MM (error + string) :=
  history ← gets mc_tokens;
  match history with
  | None => mret (inl (ENew (Lit "no history database to keep the token in: see `restorelab db status`")))
  | Some db =>
    now ← outside ae_now;
    raw ← outside ae_random;
    match raw with
    | None => mret (inl (ENew (Lit "api: read random bytes")))
    | Some raw =>
      id ← outside ae_newID;
      let secret := token_text raw in
      _ ⇐ insert_token (dashboard_token id secret now) db;
      mret (inr secret)
    end
  end.

(** [setupSteps], and what is shown of the provisioning. *)
Definition setupSteps (r : provisionResult) : list SetupStep :=
  map (fun s => mkSetupStep (GoFmt.render (bst_Description s)) (bst_Status s) (GoFmt.render (bst_Detail s))) (pr_Steps r).
Definition setup_shown (r : provisionResult) : SetupResult :=
  mkSetupResult (setupSteps r) (match pr_Entry r with Some e => prv_ID e | None => "" end) (pr_Node r) (pr_Bridge r) (pr_BridgeApplied r) "" "".
Definition setup_nothing : SetupResult := mkSetupResult [] "" "" "" false "" "".
Definition with_dashboard (secret : string) (r : SetupResult) : SetupResult :=
  mkSetupResult (sr_Steps r) (sr_ProviderID r) (sr_Node r) (sr_Bridge r) (sr_BridgeApplied r) secret dashboardTokenName.

(** [Connect]: what was done comes back either way. *)
Definition setup_options (q : SetupRequest) (tokenName bridge : string) : provisionOptions :=
  mkProvisionOptions (sq_Endpoint q) (sq_AdminUser q) (sq_AdminPassword q) (sq_Insecure q) "" "" setupProviderID setupServiceUser tokenName
    setupRoleName setupPool "" (sq_Storages q) (sq_CreateBridge q) (sq_ApplyBridge q) bridge false false.
Definition no_hook : hook := fun _ _ => mret None.
Definition Connect (q : SetupRequest) : MM (SetupResult * option error) :=
  bridge ← bridgeName;
  match bridge with
  | inl e => mret (setup_nothing, Some e)
  | inr bridge =>
    name ← setupProxmoxTokenName;
    match name with
    | inl e => mret (setup_nothing, Some e)
    | inr name =>
      provisioned ← provision no_hook (setup_options q name bridge);
      shown ← gets (fun s => setup_shown (mc_out s));
      match provisioned with
      | inl e => mret (shown, Some e)
      | inr _ =>
        secret ← mintDashboardToken;
        mret (match reworded "the cluster is connected, but no dashboard token could be created: %w" [] secret with
              | inl e => (shown, Some e)
              | inr secret => (with_dashboard secret shown, None)
              end)
      end
    end
  end.

(** The wizard behind the route of [Setup], which calls it once. *)
Definition cli_setup (decode : string -> option SetupRequest) (m : Machine) : SetupEnv := {|
  json_setup := decode;
  setup_Connect _ q := match (Connect q m).1 with Ret (shown, err) => (Some shown, err) | _ => (None, None) end;
|}.
End Provision.

(** * The token is stored before it is used

    A sequence is described by what it answers and leaves ([wp]): it returns, and what
    it returns and the machine it leaves satisfy a postcondition. *)

Definition wp {S A} (m : M S A) (Q : A -> S -> Prop) (s : S) : Prop := exists a s', m s = (Ret a, s') /\ Q a s'.

Section Rules.
Context {S : Type}.
Lemma wp_ret {A} (a : A) Q (s : S) : Q a s -> wp (mret a) Q s.
Proof. intros H. by exists a, s. Qed.
Lemma wp_bind {A B} (m : M S A) (k : A -> M S B) Q s : wp m (fun a => wp (k a) Q) s -> wp (mbind k m) Q s.
Proof. intros (a & s1 & E & b & s2 & E2 & HQ). exists b, s2. by rewrite (bind_Ret _ _ _ _ _ E). Qed.
Lemma wp_attempt {A B} (m : M S (error + A)) (k : A -> M S (error + B)) Q s :
  wp m (fun r s1 => match r with inl e => Q (inl e) s1 | inr a => wp (k a) Q s1 end) s -> wp (attempt m k) Q s.
Proof. intros (r & s1 & E & H). apply wp_bind. exists r, s1. split; [done|]. destruct r; [by apply wp_ret|done]. Qed.
Lemma wp_mono {A} (m : M S A) (Q Q' : A -> S -> Prop) s : wp m Q s -> (forall a s', Q a s' -> Q' a s') -> wp m Q' s.
Proof. intros (a & s' & E & H) HQ. exists a, s'. eauto. Qed.
Lemma wp_modify f Q (s : S) : Q tt (f s) -> wp (modify f) Q s.
Proof. intros H. by exists tt, (f s). Qed.
Lemma wp_gets {A} (f : S -> A) Q (s : S) : Q (f s) s -> wp (gets f) Q s.
Proof. intros H. by exists (f s), s. Qed.
Lemma wp_answers {A} (P : A -> Prop) (m : M S A) s : answers P m -> wp m (fun a s' => P a /\ m s = (Ret a, s')) s.
Proof. intros H. destruct (H s) as (a & s' & E & Ha). by exists a, s'. Qed.
End Rules.

Section Stored.
Context `{AEADLaws} `{ConfigEnv} `{FactoryEnv} `{ProvisionEnv}.
Abbreviation MM := (M Machine).

Lemma wp_on_cli {A} (m : M Cli A) Q s : wp m (fun a c => Q a (set_mc_cli c s)) (mc_cli s) -> wp (on_cli m) Q s.
Proof. intros (a & c & E & HQ). exists a, (set_mc_cli c s). unfold on_cli. by rewrite E. Qed.
Lemma wp_on_admin {A} (m : M Admin A) Q s : wp m (fun a c => Q a (set_mc_admin c s)) (mc_admin s) -> wp (on_admin m) Q s.
Proof. intros (a & c & E & HQ). exists a, (set_mc_admin c s). unfold on_admin. by rewrite E. Qed.
Lemma wp_on_service {A} (m : M Pve A) Q s : wp m (fun a c => Q a (set_mc_service c s)) (mc_service s) -> wp (on_service m) Q s.
Proof. intros (a & c & E & HQ). exists a, (set_mc_service c s). unfold on_service. by rewrite E. Qed.

Definition later (s : Machine) : Machine := set_mc_cli (mkCli (cl_cfg (mc_cli s)) (cl_file (mc_cli s)) (S (cl_time (mc_cli s)))) s.
Lemma wp_outside {A} (f : nat -> A) Q s : Q (f (cl_time (mc_cli s))) (later s) -> wp (outside f) Q s.
Proof. intros HQ. eexists _, _. split; [reflexivity|done]. Qed.

(** ** The master key *)

(** What a machine has beside its configuration and its keys. *)
Record aside (s s' : Machine) : Prop := {
  as_admin : mc_admin s' = mc_admin s;
  as_service : mc_service s' = mc_service s;
  as_out : mc_out s' = mc_out s;
  as_tokens : mc_tokens s' = mc_tokens s;
}.
#[local] Instance aside_pre : PreOrder aside.
Proof. split; [by intros s|]. intros s1 s2 s3 [? ? ? ?] [? ? ? ?]. split; congruence. Qed.
Definition same_config (s s' : Machine) : Prop := cl_cfg (mc_cli s') = cl_cfg (mc_cli s) /\ cl_file (mc_cli s') = cl_file (mc_cli s).
Definition keys_kept (files files' : Files) : Prop := forall p, is_Some (files !! p) -> files' !! p = files !! p.
(** The key that loading reads from these files. *)
Definition loads (files : Files) (key : Key) : Prop :=
  exists t source, LoadKey pe_master_key pe_home (readable t files) pe_keyPath = inr (key, source).

Lemma load_key_wp s : wp load_key (fun r s' => s' = later s /\ forall key source, r = inr (key, source) -> loads (mc_keys s) key) s.
Proof.
  apply wp_bind, wp_outside, wp_bind, wp_gets, wp_ret. split; [done|]. intros key source E. eexists _, _. exact E.
Qed.
Lemma later_aside s : aside s (later s) /\ same_config s (later s).
Proof. by split; [split|]. Qed.
Lemma save_key_wp path key s : wp (save_key path key) (fun _ s' =>
  aside s s' /\ same_config s s' /\ mc_key s' = mc_key s /\ keys_kept (mc_keys s) (mc_keys s')) s.
Proof.
  apply wp_bind, wp_outside, wp_bind, wp_gets. cbn [later mc_keys set_mc_cli].
  destruct (SaveKey _ _ _ _ _) as [err files] eqn:E. apply wp_bind, wp_modify, wp_ret. split; [by split|]. split; [done|]. split; [done|].
  intros p Hp. pose proof (SaveKey_keeps path pe_key_dir key (pe_key_faults (cl_time (mc_cli s))) _ _ Hp) as Hx. by rewrite E in Hx.
Qed.
Lemma ensureMasterKey_wp s : wp ensureMasterKey (fun _ s' =>
  aside s s' /\ same_config s s' /\ mc_key s' = mc_key s /\ keys_kept (mc_keys s) (mc_keys s')) s.
Proof.
  destruct (later_aside s) as [Ha Hc]. assert (keys_kept (mc_keys s) (mc_keys (later s))) as Hk by done.
  apply wp_bind. eapply wp_mono; [apply load_key_wp|]. intros r s1 [-> _]. destruct r as [e|[key source]]; [|by apply wp_ret].
  destruct (is_ErrNoKey e); [|by apply wp_ret]. apply wp_attempt, wp_ret. destruct key_path as [|path]; [done|]. apply wp_bind, wp_outside.
  apply wp_attempt, wp_ret. destruct (NewKey _) as [|key]; [done|]. apply wp_attempt.
  eapply wp_mono; [apply save_key_wp|]. intros r s2 ([? ? ? ?] & [? ?] & ? & ?). destruct r; [|apply wp_ret]; by repeat split.
Qed.
Lemma masterKey_wp s : wp masterKey (fun r s' =>
  aside s s' /\ same_config s s' /\ mc_keys s' = mc_keys s /\
  forall key, r = inr key -> mc_key s' = Some key /\ (mc_key s = None -> loads (mc_keys s) key)) s.
Proof.
  apply wp_bind, wp_gets. destruct (mc_key s) as [key|] eqn:Ek.
  { apply wp_ret. split; [reflexivity|]. split; [done|]. split; [done|]. intros key' [= <-]. by rewrite Ek. }
  apply wp_attempt. eapply wp_mono; [apply load_key_wp|]. intros r s1 [-> Hl]. destruct r as [e|[key source]]; [by repeat split|].
  apply wp_bind, wp_modify, wp_ret. repeat (split; [done|]). intros key' [= <-]. split; [done|]. intros _. by eapply Hl.
Qed.

(** ** The configuration *)

(** The configuration that a machine starts from. *)
Definition started_from (s : Machine) (c : Config) : Prop :=
  match cl_cfg (mc_cli s), cl_file (mc_cli s) with
  | Some c', _ => c = c'
  | None, Some data => Load pe_path (Contents data) = inr c
  | None, None => c = NewConfig
  end.
Lemma read_config_wp s : wp read_config (fun r s' =>
  aside s s' /\ cl_file (mc_cli s') = cl_file (mc_cli s) /\ mc_keys s' = mc_keys s /\ mc_key s' = mc_key s /\
  match r with
  | inr c => cl_cfg (mc_cli s') = Some c /\ started_from s c
  | inl (ConfigNotFound _) => cl_cfg (mc_cli s) = None /\ cl_file (mc_cli s) = None
  | inl (LoadFailed _) => True
  end) s.
Proof.
  apply wp_on_cli. unfold wp, started_from. destruct (cl_cfg (mc_cli s)) as [c|] eqn:Ec.
  { by eexists _, _. }
  destruct (cl_file (mc_cli s)) as [data|] eqn:Ef; [|by eexists _, _].
  destruct (Load pe_path (Contents data)) as [e|c] eqn:El; (eexists _, _; split; [reflexivity|]); [|by repeat split].
  repeat (split; [done|]). destruct e; [|done]. unfold Load in El. destruct (yaml_DecodeConfig data); [done|]. by destruct (ValidateConfig _).
Qed.
Lemma edit_wp c Q s : Q tt (set_mc_cli (set_cl_cfg c (mc_cli s)) s) -> wp (edit c) Q s.
Proof. intros HQ. by apply wp_on_cli, wp_modify. Qed.
Lemma save_config_wp c s : wp (save_config c) (fun r s' =>
  aside s s' /\ mc_keys s' = mc_keys s /\ mc_key s' = mc_key s /\ cl_cfg (mc_cli s') = cl_cfg (mc_cli s) /\
  match r with
  | inl _ => cl_file (mc_cli s') = cl_file (mc_cli s)
  | inr _ => secrets_sealed c /\ exists data, yaml_EncodeConfig c = inr data /\ cl_file (mc_cli s') = Some data
  end) s.
Proof.
  apply wp_on_cli. pose proof (SaveConfig_cases pe_path pe_dir c (pe_config_faults (cl_time (mc_cli s))) (cl_file (mc_cli s))) as Hs. unfold wp.
  destruct (SaveConfig _ _ _ _ _) as [err file]. eexists _, _. split; [reflexivity|]. split; [by split|].
  repeat (split; [done|]). cbn. destruct Hs as [[Herr ->]|(-> & Hsealed & Hd)]; [by destruct err|done].
Qed.

(** What may have become of the file before anything is asked of the cluster. *)
Definition file_started (s s' : Machine) : Prop :=
  cl_file (mc_cli s') = cl_file (mc_cli s) \/
  (cl_file (mc_cli s) = None /\ exists data, yaml_EncodeConfig NewConfig = inr data /\ cl_file (mc_cli s') = Some data).

Lemma ensureInitialised_wp s : wp ensureInitialisedQuietly (fun r s' =>
  aside s s' /\ keys_kept (mc_keys s) (mc_keys s') /\ file_started s s' /\
  forall c key made, r = inr (c, key, made) ->
    cl_cfg (mc_cli s') = Some c /\ started_from s c /\ mc_key s' = Some key /\ (mc_key s = None -> loads (mc_keys s') key)) s.
Proof.
  apply wp_attempt. eapply wp_mono; [apply ensureMasterKey_wp|]. intros r1 s1 (Ha1 & [Hc1 Hf1] & Hk1 & Hks1).
  destruct r1 as [e|made]; [split_and!; [done..|by left|done]|]. apply wp_attempt. eapply wp_mono; [apply masterKey_wp|].
  intros r2 s2 (Ha2 & [Hc2 Hf2] & Hks2 & Hkey). rewrite Hk1 in Hkey. assert (aside s s2) as Ha by by etransitivity.
  rewrite Hc1 in Hc2. rewrite Hf1 in Hf2. assert (keys_kept (mc_keys s) (mc_keys s2)) as Hks by by rewrite Hks2. rewrite <- Hks2 in Hkey.
  destruct r2 as [e|key]; [split_and!; [done..|by left|done]|]. destruct (Hkey key eq_refl) as [Hk2 Hl2].
  apply wp_bind. eapply wp_mono; [apply read_config_wp|]. intros r3 s3 (Ha3 & Hf3 & Hks3 & Hk3 & Hr). rewrite Hf2 in Hf3. rewrite <- Hks3 in Hks, Hl2.
  assert (aside s s3) as Ha' by by etransitivity. destruct r3 as [[path|e]|c].
  - rewrite Hc2, Hf2 in Hr. destruct Hr as [Hc0 Hf0]. apply wp_attempt. eapply wp_mono; [apply save_config_wp|]. intros r4 s4 (Ha4 & Hks4 & Hk4 & Hc4 & Hr).
    assert (aside s s4) as Ha'' by by etransitivity. rewrite <- Hks4 in Hks, Hl2. destruct r4 as [e|[]].
    { split_and!; [done..| |done]. left. congruence. }
    destruct Hr as (_ & data & Hd & Hf4). apply wp_bind, edit_wp, wp_ret. split; [by destruct Ha''|]. split; [done|].
    split; [right; split; [done|by exists data]|]. intros c key' made' [= <- <- <-]. split; [done|]. split; [by unfold started_from; rewrite Hc0, Hf0|].
    split; [|done]. cbn. congruence.
  - apply wp_ret. split_and!; [done..|by left|done].
  - apply wp_ret. split_and!; [done..|by left|]. intros c' key' made' [= <- <- <-]. destruct Hr as [Hc3 Hst]. split; [done|]. split.
    { unfold started_from in *. by rewrite Hc2, Hf2 in Hst. } split; [congruence|done].
Qed.

(** ** The provider is stored *)

(** What the sequence leaves as it is. *)
Record beside (s s' : Machine) : Prop := {
  be_admin : mc_admin s' = mc_admin s;
  be_service : mc_service s' = mc_service s;
  be_tokens : mc_tokens s' = mc_tokens s;
  be_keys : mc_keys s' = mc_keys s;
  be_key : mc_key s' = mc_key s;
}.
#[local] Instance beside_pre : PreOrder beside.
Proof. split; [by intros s|]. intros s1 s2 s3 [? ? ? ? ?] [? ? ? ? ?]. split; congruence. Qed.

(** The entry of a configuration whose token was provisioned: the secret revealed is
    sealed in it, or, when none was, it keeps the one that was there. *)
Definition holds_token (key : Key) (value : string) (id : string) (c0 : Config) (e : Provider) : Prop :=
  (value <> "" -> Secret key e = inr value) /\
  (value = "" -> exists e0, provider_of id c0 = inr e0 /\ prv_TokenSecret e0 <> "" /\ prv_TokenSecret e = prv_TokenSecret e0).
Record stored_as (key : Key) (entry : Provider) (value : string) (c0 c : Config) : Prop := {
  sd_entry : exists e, provider_of (prv_ID entry) c = inr e /\ with_secret "" e = entry /\ holds_token key value (prv_ID entry) c0 e;
  sd_others : forall j, j <> prv_ID entry -> provider_of j c = provider_of j c0;
  sd_default : df_Provider (cg_Defaults c) = firstNonEmpty [df_Provider (cg_Defaults c0); prv_ID entry];
  sd_networks : cg_Networks c = cg_Networks c0;
  sd_channels : cg_Notifications c = cg_Notifications c0;
}.
(** What is in memory is on disk, every secret sealed. *)
Definition on_disk (c : Config) (s : Machine) : Prop :=
  cl_cfg (mc_cli s) = Some c /\ secrets_sealed c /\ exists data, yaml_EncodeConfig c = inr data /\ cl_file (mc_cli s) = Some data.

Lemma provider_of_upsert j e c : provider_of j (Upsert e c) = if bool_decide (j = prv_ID e) then inr e else provider_of j c.
Proof. unfold provider_of, Upsert. cbn [cg_Providers set_Providers]. rewrite keyed_upsert. by case_bool_decide. Qed.
Lemma provider_of_alter f id j c : (forall e, prv_ID (f e) = prv_ID e) ->
  provider_of j (set_Providers (alter_first prv_ID f id (cg_Providers c)) c) = if bool_decide (j = id) then on_ok f (provider_of j c) else provider_of j c.
Proof.
  intros Hf. unfold provider_of. cbn [cg_Providers set_Providers]. rewrite keyed_alter by done.
  destruct (bool_decide_reflect (j = id)); [|done]. by destruct (keyed prv_ID j _).
Qed.
Lemma provider_of_default id j c : provider_of j (with_default_provider id c) = provider_of j c.
Proof. unfold with_default_provider. by destruct (nonempty _). Qed.

(** An entry sealed with [sealed]. *)
Definition with_token (entry : Provider) (sealed : string) (c : Config) : Config :=
  with_default_provider (prv_ID entry) (set_Providers (alter_first prv_ID (with_secret sealed) (prv_ID entry) (cg_Providers (Upsert entry c))) (Upsert entry c)).
Lemma with_token_stored key entry value sealed c : prv_TokenSecret entry = "" -> holds_token key value (prv_ID entry) c (with_secret sealed entry) ->
  stored_as key entry value c (with_token entry sealed c).
Proof.
  intros Hs Hh. split.
  - exists (with_secret sealed entry). unfold with_token. rewrite provider_of_default, provider_of_alter, provider_of_upsert by done.
    rewrite bool_decide_eq_true_2 by done. split; [done|]. split; [|done]. destruct entry; cbn in *. by subst.
  - intros j Hj. unfold with_token. by rewrite provider_of_default, provider_of_alter, provider_of_upsert, bool_decide_eq_false_2 by done.
  - unfold with_token, with_default_provider. cbn. destruct (nonempty (df_Provider (cg_Defaults c))) eqn:Hn; [done|]. cbn. by destruct (prv_ID entry).
  - unfold with_token, with_default_provider. by destruct (nonempty _).
  - unfold with_token, with_default_provider. by destruct (nonempty _).
Qed.

Definition previous_of (entry : Provider) (c : Config) : string :=
  match provider_of (prv_ID entry) c with inr existing => prv_TokenSecret existing | inl _ => "" end.
Lemma seal_token_wp key entry value c s :
  (forall t b, pe_nonce t = inr b -> String.length b = nonceSize) ->
  wp (seal_token key entry value (previous_of entry c) (Upsert entry c)) (fun r s' =>
    beside s s' /\ cl_file (mc_cli s') = cl_file (mc_cli s) /\
    forall c', r = inr c' -> exists sealed, with_default_provider (prv_ID entry) c' = with_token entry sealed c /\
      holds_token key value (prv_ID entry) c (with_secret sealed entry)) s.
Proof.
  intros Hnonce. unfold seal_token. destruct (nonempty value) eqn:Hv.
  - apply nonempty_spec in Hv. apply wp_bind, wp_outside. unfold SetProviderSecret. rewrite provider_of_upsert, bool_decide_eq_true_2 by done.
    destruct (pe_nonce _) as [e|nonce] eqn:En; cbn [Seal]; apply wp_bind, edit_wp, wp_ret; (split; [by split|]); (split; [done|]); intros c' [= <-].
    eexists. split; [reflexivity|]. split; [|done]. intros _. destruct (Seal_opens nonce key value _ eq_refl (Hnonce _ _ En)) as [Hs Ho].
    unfold Secret. cbn [prv_TokenSecret with_secret]. by rewrite Hs, Ho.
  - apply nonempty_false in Hv as ->. destruct (nonempty (previous_of entry c)) eqn:Hp; [|apply wp_ret; by repeat split].
    apply nonempty_spec in Hp. rewrite provider_of_upsert, bool_decide_eq_true_2 by done.
    apply wp_bind, edit_wp, wp_ret. split; [by split|]. split; [done|]. intros c' [= <-].
    exists (previous_of entry c). split; [done|]. split; [done|]. intros _. unfold previous_of in *.
    destruct (provider_of (prv_ID entry) c) as [|e0]; [done|]. by exists e0.
Qed.
Lemma store_token_wp key entry value c s :
  (forall t b, pe_nonce t = inr b -> String.length b = nonceSize) -> prv_TokenSecret entry = "" ->
  wp (store_token key entry value c) (fun r s' =>
    beside s s' /\ match r with
                   | inl _ => cl_file (mc_cli s') = cl_file (mc_cli s)
                   | inr _ => exists c', on_disk c' s' /\ stored_as key entry value c c'
                   end) s.
Proof.
  intros Hnonce Hentry. unfold store_token. fold (previous_of entry c). apply wp_bind, edit_wp, wp_attempt.
  eapply wp_mono; [by apply seal_token_wp|]. intros r1 s1 ([? ? ? ? ?] & Hf1 & Hr). cbn in *. destruct r1 as [e|c1]; [by repeat split|].
  destruct (Hr c1 eq_refl) as (sealed & Ec & Hh). rewrite Ec. apply wp_bind, edit_wp, wp_bind.
  eapply wp_mono; [apply save_config_wp|]. intros r2 s2 ([? ? ? ?] & ? & ? & Hc2 & Hr2). cbn in *.
  apply wp_attempt, wp_ret. destruct r2 as [e|[]]; cbn [reworded]; [split; [split|]; congruence|].
  apply wp_bind, wp_modify, wp_ret. split; [split; cbn; congruence|]. destruct Hr2 as (Hs & data & Hd & Hf).
  eexists. split; [|by apply with_token_stored]. split; [done|]. split; [done|]. by exists data.
Qed.

(** ** The sequence *)

(** What a conversation about the bridge leaves as it is. *)
Record settled (s s' : Machine) : Prop := {
  st_cfg : cl_cfg (mc_cli s') = cl_cfg (mc_cli s);
  st_file : cl_file (mc_cli s') = cl_file (mc_cli s);
  st_keys : mc_keys s' = mc_keys s;
  st_key : mc_key s' = mc_key s;
  st_tokens : mc_tokens s' = mc_tokens s;
}.
#[local] Instance settled_pre : PreOrder settled.
Proof. split; [by intros s|]. intros s1 s2 s3 [? ? ? ? ?] [? ? ? ? ?]. split; congruence. Qed.
Definition converses (after : hook) : Prop := forall client nodes s, wp (after client nodes) (fun _ s' => settled s s') s.

Lemma asked_returns `{PveEnv} {A} path params (f : option any -> error + A) fmt args : returns (asked (pve_get path params) f fmt args).
Proof. intros s. eexists _, _. split; [reflexivity|done]. Qed.
Lemma ValidateIsolation_returns `{PveEnv} node network : returns (ValidateIsolation node network).
Proof. eapply answers_bind; [apply asked_returns|]. intros entries _. by apply answers_ret. Qed.

Lemma provisionBridge_wp client nodes o s : wp (provisionBridge client nodes o) (fun _ s' => settled s s') s.
Proof.
  unfold provisionBridge. cbv zeta. destruct (_ || _); [by apply wp_ret|]. apply wp_bind, wp_modify, wp_bind, wp_on_service.
  eapply wp_mono; [apply wp_answers, ValidateIsolation_returns|]. intros r w _. destruct r as [e|[]]; [|by apply wp_bind, wp_modify, wp_ret].
  apply wp_bind, wp_on_admin. eapply wp_mono; [apply wp_answers, EnsureIsolatedBridge_returns|]. intros r a _. apply wp_attempt, wp_ret.
  destruct r as [e'|made]; [by split|]. by apply wp_bind, wp_modify, wp_bind, wp_modify, wp_ret.
Qed.

(** The client of a configuration for a provider, and that the token of that client
    works: the nodes of the cluster were listed with it. *)
Definition client_of (key : Key) (c : Config) (id : string) : error + PveConfig := @fresh_hypervisor _ (cli_of key) _ c id.
Definition verified (key : Key) (c : Config) (id : string) : Prop :=
  exists client nodes, client_of key c id = inr client /\ (@ListNodes (pe_service client) (mkPve [] 0)).1 = Ret (inr nodes).
Lemma verify_token_wp after key o c s : converses after -> cl_cfg (mc_cli s) = Some c ->
  wp (verify_token after key o) (fun r s' => settled s s' /\ (r = inr tt -> verified key c (po_ProviderID o))) s.
Proof.
  intros Hafter Hc. apply wp_attempt, wp_attempt, wp_on_cli. unfold wp at 1. rewrite (@app_hypervisor_loaded _ _ (cli_of key) _ c _ _ Hc).
  eexists _, _. split; [reflexivity|]. fold (client_of key c (po_ProviderID o)). destruct (client_of key c (po_ProviderID o)) as [e|client] eqn:Ec; [done|].
  apply wp_bind, wp_modify, wp_ret, wp_bind, wp_on_service. eapply wp_mono; [apply wp_answers, asked_returns|]. intros r w [_ Hr].
  apply wp_attempt, wp_ret. destruct r as [e|nodes]; [done|]. cbn [reworded]. apply wp_bind, wp_modify, wp_bind.
  assert (verified key c (po_ProviderID o)) as Hv by (exists client, nodes; split; [done|]; exact (f_equal fst Hr)).
  eapply wp_mono; [apply Hafter|]. intros err s1 [Hc1 Hf1 Hks1 Hk1 Ht1]. apply wp_attempt, wp_ret. destruct err as [e|]; [done|].
  destruct (po_CreateBridge o); [|by apply wp_ret]. eapply wp_mono; [apply provisionBridge_wp|]. intros r s2 Hs. split; [|done]. by etransitivity; [split|].
Qed.

(** What the cluster answered of the token, to an administrator. *)
Definition answered (o : provisionOptions) (c : Config) (admin : Admin) (id value : string) : Prop :=
  (@Bootstrap (pe_admin (po_Endpoint o)) (bootstrap_of o (reuses o c)) (@Login (pe_admin (po_Endpoint o)) admin).2).1 = Ret (inr (id, value)).
(** The token is stored: what it opens to was revealed by the cluster, or is the secret
    that was held of that very token; and a success was proved on the cluster. *)
Record kept (o : provisionOptions) (c0 : Config) (key : Key) (admin : Admin) (r : error + unit) (s : Machine) : Prop := {
  kp_wet : po_DryRun o = false;
  kp_token : exists id value c, answered o c0 admin id value /\ on_disk c s /\ stored_as key (entry_of o id) value c0 c /\
    (value = "" -> exists e0, provider_of (po_ProviderID o) c0 = inr e0 /\ prv_TokenID e0 = id) /\
    (r = inr tt -> verified key c (po_ProviderID o));
}.

Lemma with_admin_wp after c key o s : converses after -> (forall t b, pe_nonce t = inr b -> String.length b = nonceSize) ->
  wp (with_admin after c key o) (fun r s' =>
    (mc_keys s' = mc_keys s /\ mc_key s' = mc_key s /\ mc_tokens s' = mc_tokens s) /\
    ((mc_service s' = mc_service s /\ cl_file (mc_cli s') = cl_file (mc_cli s) /\ (r = inr tt -> po_DryRun o = true)) \/
     kept o c key (mc_admin s) r s')) s.
Proof.
  intros Hafter Hnonce. apply wp_bind, wp_on_admin. eapply wp_mono; [apply wp_answers, Login_returns|]. intros err a [_ Ha].
  apply wp_attempt, wp_ret. destruct err as [e|]; [split; [done|by left]|]. cbn [checked]. apply wp_bind, wp_modify, wp_bind, wp_on_admin.
  eapply wp_mono; [apply wp_answers, Bootstrap_answers|]. intros r a' [Hr Hb]. apply wp_bind, wp_gets, wp_bind, wp_modify, wp_attempt, wp_ret.
  destruct r as [e|[id value]]; [split; [done|by left]|]. apply wp_bind, wp_modify. destruct (po_DryRun o) eqn:Hdry; [apply wp_ret; split; [done|by left]|].
  assert (answered o c (mc_admin s) id value) as Hans by (unfold answered; rewrite Ha; cbn [snd]; cbn in Hb; by rewrite Hb).
  apply wp_attempt. eapply wp_mono; [by apply store_token_wp|]. intros r1 s1 ([Had1 Hsv1 Ht1 Hks1 Hk1] & Hr1). cbn in Had1, Hsv1, Ht1, Hks1, Hk1, Hr1.
  destruct r1 as [e|[]]; [split; [done|by left]|]. destruct Hr1 as (c1 & Hdisk & Hst). destruct Hdisk as (Hc1 & Hsealed & data & Hd & Hf1).
  eapply wp_mono; [by apply (verify_token_wp after key o c1)|]. intros r2 s2 [[Hc2 Hf2 Hks2 Hk2 Ht2] Hv]. split; [split_and!; congruence|]. right.
  split; [done|]. exists id, value, c1. split; [done|]. split; [split; [congruence|]; split; [done|]; exists data; split; [done|congruence]|].
  split; [done|]. split; [|done]. intros ->. cbn in Hr. destruct Hr as [[_ Hr]|(_ & -> & [Hr|Hr])]; [done| |congruence].
  unfold reuses in Hr. destruct (provider_of _ c) as [|e0]; [done|]. apply andb_true_iff in Hr as [Hr _]. apply bool_decide_eq_true in Hr. by exists e0.
Qed.

(** What became of a machine. Nothing was stored: the new token was not used, and the
    file is what it was or the starting configuration. Or the token is stored. *)
Inductive provisioned (o : provisionOptions) (s : Machine) (r : error + unit) (s' : Machine) : Prop :=
| provisioned_nothing : mc_service s' = mc_service s -> file_started s s' -> (r = inr tt -> po_DryRun o = true) -> provisioned o s r s'
| provisioned_kept c0 key admin : started_from s c0 -> (mc_key s = None -> loads (mc_keys s') key) ->
    NewAdminClient has_certificate (po_Endpoint o) (po_AdminUser o) (po_AdminPassword o) (po_CACertPEM o) = inr admin ->
    kept o c0 key admin r s' -> provisioned o s r s'.
(** The administrator's credentials are gone, if they ever were there. *)
Definition forgotten (s s' : Machine) : Prop :=
  mc_admin s' = mc_admin s \/ (ad_password (mc_admin s') = "" /\ ad_ticket (mc_admin s') = "" /\ ad_csrfToken (mc_admin s') = "").

Lemma provision_wp after o s : converses after -> (forall t b, pe_nonce t = inr b -> String.length b = nonceSize) ->
  wp (provision after o) (fun r s' =>
    keys_kept (mc_keys s) (mc_keys s') /\ mc_tokens s' = mc_tokens s /\ forgotten s s' /\ provisioned o s r s') s.
Proof.
  intros Hafter Hnonce. apply wp_bind, wp_modify, wp_attempt. eapply wp_mono; [apply ensureInitialised_wp|].
  intros r s1 ([Had1 Hsv1 _ Ht1] & Hks1 & Hf1 & Hr). cbn in Had1, Hsv1, Ht1, Hks1. change (file_started s s1) in Hf1.
  destruct r as [e|[[c key] made]]; [split_and!; [done..|by left|by apply provisioned_nothing]|].
  destruct (Hr c key made eq_refl) as (Hc1 & Hst & Hk1 & Hl1). change (started_from s c) in Hst. change (mc_key s = None -> loads (mc_keys s1) key) in Hl1.
  apply wp_attempt, wp_ret. destruct (NewAdminClient _ _ _ _ _) as [e|admin] eqn:Hadmin; [split_and!; [done..|by left|by apply provisioned_nothing]|].
  apply wp_bind, wp_modify, wp_bind. eapply wp_mono; [by apply with_admin_wp|]. intros r s2 ((Hks2 & Hk2 & Ht2) & Hr2). cbn in Hks2, Hk2, Ht2, Hr2.
  apply wp_bind, wp_on_admin, wp_modify, wp_ret. cbn. rewrite Hks2, Ht2. split_and!; [done|congruence|by right|].
  destruct Hr2 as [(Hsv2 & Hf2 & Hdry)|Hkept].
  - apply provisioned_nothing; [cbn; congruence| |done]. unfold file_started in *. cbn. by rewrite Hf2.
  - apply (provisioned_kept _ _ _ _ c key admin); [done|cbn; by rewrite Hks2|done|]. destruct Hkept as [Hwet Htok]. by split.
Qed.

(** C14: the token that Proxmox reveals once is not used before it is safe.
    Whatever fails, and whatever the cluster answers, provisioning returns; it changes
    no key file and forgets the administrator. Without an error, and unless it only
    looks, the new token has listed the nodes of the cluster; and whenever it was used
    at all, it is on disk: sealed under a master key that loading reads, it opens to
    the secret the cluster revealed, or is the secret that was held of that very token,
    every other provider and channel as it was. *)
Theorem token_stored_before_use after o s :
  converses after -> (forall t b, pe_nonce t = inr b -> String.length b = nonceSize) ->
  exists r s', provision after o s = (Ret r, s') /\
    keys_kept (mc_keys s) (mc_keys s') /\ forgotten s s' /\ provisioned o s r s'.
Proof.
  intros Hafter Hnonce. destruct (provision_wp after o s Hafter Hnonce) as (r & s' & E & Hk & _ & Hf & Hp). by exists r, s'.
Qed.

(** ** The command and the wizard *)

(** The conversation of the command leaves the machine as it is. *)
Lemma maybeCreateBridge_wp `{Terminal} c endpoint f client nodes s : wp (maybeCreateBridge c endpoint f client nodes) (fun _ s' => settled s s') s.
Proof.
  unfold maybeCreateBridge. cbv zeta. destruct (_ || _); [by apply wp_ret|]. apply wp_bind, wp_on_service.
  eapply wp_mono; [apply wp_answers, ValidateIsolation_returns|]. intros r w _. destruct r as [e|[]]; [|by apply wp_ret].
  assert (forall s, wp (wants_bridge f) (fun _ s' => settled s s') s) as Hwants.
  { intros s1. unfold wants_bridge. destruct (fl_createBridge f); [by apply wp_ret|]. destruct (negb _ || _); [by apply wp_ret|].
    unfold confirm. destruct (negb _); [by apply wp_ret|]. by apply wp_bind, wp_outside, wp_ret. }
  apply wp_bind. eapply wp_mono; [apply Hwants|]. intros wanted s1 [? ? ? ? ?]. destruct wanted; [|by apply wp_ret].
  apply wp_bind, wp_on_admin. eapply wp_mono; [apply wp_answers, EnsureIsolatedBridge_returns|]. intros r a _. by apply wp_ret.
Qed.
Lemma command_converses `{Terminal} c endpoint f : converses (fun client nodes => _ ← maybeCreateBridge c endpoint f client nodes; mret None).
Proof. intros client nodes s. apply wp_bind. eapply wp_mono; [apply maybeCreateBridge_wp|]. intros [] s' Hs. by apply wp_ret. Qed.
Lemma no_hook_converses : converses no_hook.
Proof. intros client nodes s. by apply wp_ret. Qed.


(** ** Consent *)

(** Somebody agreed: by a flag, or by answering on a terminal. *)
Definition agreed_to `{Terminal} (f : connectFlags) : Prop :=
  fl_dryRun f = true \/ fl_yes f = true \/ (tm_interactive = true /\ exists t l, tm_line t = Some l /\ ToLower (TrimSpace l) ∈ ["y"; "yes"]).
Lemma consent_wp `{Terminal} f s : wp (consent f) (fun agreed s' =>
  settled s s' /\ mc_admin s' = mc_admin s /\ mc_service s' = mc_service s /\ (agreed = true -> agreed_to f)) s.
Proof.
  unfold consent, agreed_to. destruct (fl_dryRun f); [apply wp_ret; by split_and!; [..|left]|].
  destruct (fl_yes f); [apply wp_ret; by split_and!; [..|right; left]|]. cbn [orb]. unfold confirm.
  destruct tm_interactive; [|by apply wp_ret]. apply wp_bind, wp_outside, wp_ret. split; [by split|]. split; [done|]. split; [done|].
  destruct (tm_line _) as [l|] eqn:El; [|done]. intros Hl. right. right. split; [done|]. eexists _, l. split; [exact El|].
  apply orb_true_iff in Hl as [Hl|Hl]; apply bool_decide_eq_true in Hl; rewrite Hl; repeat constructor.
Qed.

(** Nothing is asked of a cluster without consent. The command always returns; when
    nobody agreed, no request was made, with the administrator's password or with a
    token; and it is agreed to by a flag, or by somebody who is there and answers yes. *)
Theorem connect_asks_first `{Terminal} endpoint f s :
  (forall t b, pe_nonce t = inr b -> String.length b = nonceSize) ->
  exists r s', connect endpoint f s = (Ret r, s') /\ keys_kept (mc_keys s) (mc_keys s') /\ forgotten s s' /\
    match r with
    | inl _ => True
    | inr true => agreed_to f
    | inr false => mc_admin s' = mc_admin s /\ mc_service s' = mc_service s /\ file_started s s'
    end.
Proof.
  intros Hnonce. cut (wp (connect endpoint f) (fun r s' => keys_kept (mc_keys s) (mc_keys s') /\ forgotten s s' /\
    match r with
    | inl _ => True
    | inr true => agreed_to f
    | inr false => mc_admin s' = mc_admin s /\ mc_service s' = mc_service s /\ file_started s s'
    end) s); [done|].
  apply wp_attempt, wp_ret. destruct (readAdminPassword f) as [e|password]; [split_and!; [done|by left|done]|].
  apply wp_attempt, wp_ret. destruct (readFileIfSet _) as [e|ca]; [split_and!; [done|by left|done]|].
  apply wp_attempt. eapply wp_mono; [apply ensureInitialised_wp|]. intros r1 s1 ([Ha Hsv _ _] & Hk & Hf & _).
  destruct r1 as [e|[[c key] made]]; [split_and!; [done|by left|done]|]. apply wp_bind.
  eapply wp_mono; [apply (consent_wp f)|]. intros agreed s2 ([Hc2 Hf2 Hk2 _ _] & Ha2 & Hsv2 & Hagreed).
  destruct agreed.
  2: { apply wp_ret. rewrite Hk2. split_and!; [done|left; congruence|congruence|congruence|]. unfold file_started in *. by rewrite Hf2. }
  apply wp_attempt. eapply wp_mono; [apply provision_wp; [apply command_converses|done]|]. intros r s3 (Hk3 & _ & Hfg & _).
  assert (keys_kept (mc_keys s) (mc_keys s3)) as Hks.
  { intros p Hp. rewrite <- (Hk p Hp). rewrite Hk2 in Hk3. apply Hk3. by rewrite (Hk p Hp). }
  assert (forgotten s s3) as Hfs by (destruct Hfg as [Hfg|Hfg]; [left; congruence|by right]).
  destruct r as [e|[]]; [by split_and!|]. apply wp_ret. split_and!; [done|done|by apply Hagreed].
Qed.

(** ** The wizard *)

Context `{ApiEnv}.

Lemma mint_wp s : wp mintDashboardToken (fun r s' =>
    cl_cfg (mc_cli s') = cl_cfg (mc_cli s) /\ cl_file (mc_cli s') = cl_file (mc_cli s) /\ mc_keys s' = mc_keys s /\ mc_admin s' = mc_admin s /\
    match r with
    | inl _ => mc_tokens s' = mc_tokens s
    | inr secret => exists db db' tok, mc_tokens s = Some db /\ mc_tokens s' = Some db' /\ CreateToken tok db = inr db' /\
        tk_Hash tok = HashToken secret /\ tk_Name tok = dashboardTokenName /\ tk_Scopes tok = [ScopeRead; ScopeOperate; ScopeManage] /\ secret <> ""
    end) s.
Proof.
  unfold mintDashboardToken. apply wp_bind, wp_gets. destruct (mc_tokens s) as [db|] eqn:Et; [|by apply wp_ret].
  apply wp_bind, wp_outside, wp_bind, wp_outside. destruct (ae_random _) as [raw|]; [|by apply wp_ret].
  apply wp_bind, wp_outside, wp_attempt, wp_bind, wp_outside. destruct (ae_fault _) as [e|]; [by apply wp_ret|].
  destruct (CreateToken _ db) as [[|e]|db'] eqn:Ec; [by apply wp_ret..|]. apply wp_bind, wp_modify, wp_ret, wp_ret.
  repeat (split; [done|]). eexists db, db', _. by split_and!.
Qed.

Lemma bridgeName_wp s : wp bridgeName (fun r s' =>
  aside s s' /\ keys_kept (mc_keys s) (mc_keys s') /\
  forall bridge, r = inr bridge -> exists c, cl_cfg (mc_cli s') = Some c /\ started_from s c) s.
Proof.
  apply wp_attempt. eapply wp_mono; [apply ensureInitialised_wp|]. intros r s1 (Ha & Hk & _ & Hr). destruct r as [e|[[c key] made]]; [done|].
  apply wp_ret. split; [done|]. split; [done|]. intros bridge _. exists c. by destruct (Hr c key made eq_refl) as (? & ? & _).
Qed.

(** Installing hands over. Whatever fails, the wizard returns, with what was done and no
    credential when it failed. When it succeeds, the cluster is connected under the
    provider of the wizard, its token kept and proved to work; and the credential it
    answers is that of a live token of the database, which may read, operate and manage,
    every other token being as it was. *)
Theorem wizard_hands_over q s db :
  (forall t b, pe_nonce t = inr b -> String.length b = nonceSize) -> mc_tokens s = Some db -> cred_wf db ->
  exists shown err s', Connect q s = (Ret (shown, err), s') /\ keys_kept (mc_keys s) (mc_keys s') /\ forgotten s s' /\
    match err with
    | Some _ => sr_Token shown = "" /\ mc_tokens s' = Some db
    | None =>
      (exists db' t, mc_tokens s' = Some db' /\ cred_le db db' /\ TokenByHash (HashToken (sr_Token shown)) db' = Some t /\
         tk_Name t = sr_TokenName shown /\ Forall (fun scope => Can t scope = true) [ScopeRead; ScopeOperate; ScopeManage]) /\
      (exists o c0 key admin, po_ProviderID o = setupProviderID /\ started_from s c0 /\ kept o c0 key admin (inr tt) s')
    end.
Proof.
  intros Hnonce Hdb Hwf. cut (wp (Connect q) (fun x s' => keys_kept (mc_keys s) (mc_keys s') /\ forgotten s s' /\
    match x.2 with
    | Some _ => sr_Token x.1 = "" /\ mc_tokens s' = Some db
    | None =>
      (exists db' t, mc_tokens s' = Some db' /\ cred_le db db' /\ TokenByHash (HashToken (sr_Token x.1)) db' = Some t /\
         tk_Name t = sr_TokenName x.1 /\ Forall (fun scope => Can t scope = true) [ScopeRead; ScopeOperate; ScopeManage]) /\
      (exists o c0 key admin, po_ProviderID o = setupProviderID /\ started_from s c0 /\ kept o c0 key admin (inr tt) s')
    end) s).
  { intros ([shown err] & s' & E & HQ). by exists shown, err, s'. }
  apply wp_bind. eapply wp_mono; [apply bridgeName_wp|]. intros r s1 ([Ha1 _ _ Ht1] & Hk1 & Hr1).
  destruct r as [e|bridge]; [apply wp_ret; split_and!; [done|by left|split; [done|cbn; congruence]]|].
  destruct (Hr1 bridge eq_refl) as (c & Hc1 & Hst). apply wp_bind, wp_bind, wp_outside, wp_ret.
  destruct (on_ok _ _) as [e|name]; [apply wp_ret; split_and!; [done|by left|split; [done|cbn; congruence]]|].
  apply wp_bind. eapply wp_mono; [apply provision_wp; [apply no_hook_converses|done]|]. intros r s2 (Hk2 & Ht2 & Hf2 & Hp2).
  cbn in Hk2, Ht2. assert (keys_kept (mc_keys s) (mc_keys s2)) as Hks by (intros p Hp; rewrite <- (Hk1 p Hp); apply Hk2; by rewrite (Hk1 p Hp)).
  assert (forgotten s s2) as Hfs by (destruct Hf2 as [Hf2|Hf2]; [left; cbn in Hf2; congruence|by right]).
  apply wp_bind, wp_gets. destruct r as [e|[]]; [apply wp_ret; split_and!; [done|done|split; [done|cbn; congruence]]|].
  apply wp_bind. eapply wp_mono; [apply mint_wp|]. intros r s3 (Hc3 & Hf3 & Hk3 & Ha3 & Hr3). apply wp_ret. rewrite Hk3. split; [done|].
  split; [destruct Hfs as [Hfs|Hfs]; [left|right]; by rewrite Ha3|].
  destruct r as [e|secret]; [cbn; split; [done|congruence]|]. destruct Hr3 as (db0 & db' & tok & Hdb0 & Hdb' & Hcreate & Hhash & Hname & Hscopes & _).
  assert (db0 = db) as -> by congruence. split.
  - destruct (CreateToken_inr _ _ _ Hcreate) as (_ & _ & E'). destruct (cred_apply_wf (OpCreateToken tok) db Hwf) as [Hwf' Hle].
    unfold cred_apply in Hwf', Hle. cbn [cred_exec] in Hwf', Hle. rewrite Hcreate in Hwf', Hle. exists db', (scanToken (tk_ID tok, token_row tok)).
    split; [done|]. split; [done|]. split.
    { apply TokenByHash_found; [done|by rewrite E'; cbn; rewrite lookup_insert_eq|by cbn; rewrite Hhash|done]. }
    split; [exact Hname|]. cbn [scanToken token_row snd]. unfold Can. cbn. rewrite Hscopes. vm_compute. by repeat constructor.
  - destruct Hp2 as [_ _ Hdry|c0 key admin Hst2 _ _ [Hwet Htok]]; [by specialize (Hdry eq_refl)|].
    unfold started_from in Hst2. cbn in Hst2. rewrite Hc1 in Hst2. subst c0.
    exists (setup_options q name bridge), c, key, admin. split; [done|]. split; [done|]. split; [exact Hwet|].
    destruct Htok as (id & value & c' & Hans & (Hc' & Hsealed & data & Hd & Hfile) & Hrest). exists id, value, c'. split; [exact Hans|].
    split; [|exact Hrest]. split; [congruence|]. split; [done|]. exists data. split; [done|congruence].
Qed.

(** The certificate that the wizard was asked to pin is not read. *)
Theorem fingerprint_unused q fingerprint :
  Connect (mkSetupRequest (sq_Endpoint q) (sq_AdminUser q) (sq_AdminPassword q) (sq_Storages q) (sq_Insecure q) fingerprint (sq_CreateBridge q) (sq_ApplyBridge q))
  = Connect q.
Proof. reflexivity. Qed.
End Stored.

(** ** A machine and its cluster *)

Module Machines.
Import Sealed.
(** A file is what the providers are called. *)
#[local] Instance lab : ConfigEnv := {|
  url_Parts s := if HasPrefix s "https://" then Some ("https", "pve.lab", "pve.lab") else if nonempty s then None else Some ("", "", "");
  ip_Loopback _ := false;
  yaml_EncodeConfig c := inr (match cg_Providers c with [] => "none" | l => "of " +:+ Join "," (map prv_ID l) end);
  yaml_DecodeConfig data := inr (if bool_decide (data = "none") then NewConfig else
    set_Providers [mkProvider (TrimPrefix data "of ") "proxmox" [] "https://pve.lab" "" "" false "" "" "" "" "" 0 0 "" ""] NewConfig);
|}.
#[local] Instance files : FactoryEnv := {| read_pem _ := inl (ENew (Lit "no such file")); has_certificate _ := false; not_hex _ := ENew (Lit "hex") |}.

(** A cluster that grants whatever an administrator asks for, but the bridge. *)
Definition fine (v : any) : pve_reply := Replied 200 "" (inr (Some v)).
Definition admin_answer (q : PveRequest) : pve_reply :=
  match pq_method q, pq_path q with
  | MethodGet, Lit path =>
    if bool_decide (path = "/access/roles") then
      fine (AnyList [AnyMap [("roleid", AnyString "Administrator"); ("privs", AnyString Provisioning.all_privileges)]])
    else fine (AnyList [])
  | MethodGet, _ => fine (AnyList [])
  | MethodPost, Lit path =>
    if bool_decide (path = "/access/ticket") then fine (AnyMap [("ticket", AnyString "t"); ("CSRFPreventionToken", AnyString "c")]) else fine AnyNil
  | MethodPost, Sprintf f _ =>
    if bool_decide (f = "/nodes/%s/network") then Replied 403 "forbidden" (inr None)
    else fine (AnyMap [("value", AnyString "s3cret"); ("full-tokenid", AnyString "restorelab@pve!drills")])
  | _, _ => fine AnyNil
  end.
(** What the new token sees of it. *)
Definition service_answer (q : PveRequest) : pve_reply :=
  match pq_path q with
  | Lit _ => fine (AnyList [AnyMap [("node", AnyString "pve1"); ("status", AnyString "online")]])
  | _ => fine (AnyList [])
  end.
Definition cluster (answer : PveRequest -> pve_reply) : PveEnv := {|
  pve_answer _ q := answer q;
  pve_ctx _ := None;
  pve_done _ := None;
  pve_clock n := Z.of_nat n;
  task_polls := 3;
  json_error _ _ := ENew (Lit "json");
  json_agentInterfaces _ := inr [];
  json_agentOSInfo _ := inl (ENew (Lit "json"));
  json_text _ := None;
  ip_unusable _ := false;
|}.
#[local] Instance machine : ProvisionEnv := {|
  pe_path := "config.yaml";
  pe_dir := "/root/.restorelab";
  pe_nonce _ := inr nonce;
  pe_config_faults _ := no_config_faults;
  pe_master_key := None;
  pe_home := inr "/root";
  pe_keyPath := "";
  pe_key_dir := "/root/.restorelab";
  pe_key_bytes _ := inr key;
  pe_key_faults _ := mkSaveFaults None None None None;
  pe_unreadable _ _ := None;
  pe_suffix _ := inr "1234";
  pe_admin _ := cluster admin_answer;
  pe_service _ := cluster service_answer;
|}.
(** Somebody who is not at a terminal. *)
#[local] Instance script : Terminal := {|
  tm_file _ := inl (ENew (Lit "no such file"));
  tm_password := "pw";
  tm_interactive := false;
  tm_typed := inl (ENew (Lit "no terminal"));
  tm_line _ := None;
|}.
#[local] Existing Instance Browser.env.

Definition nobody : Admin := mkAdmin (mkPve [] 0) "" "" "" "" [].
Definition bare : Machine := mkMachine (mkCli None None 0) ∅ None nobody (mkPve [] 0) no_result (Some cred_empty).
Definition flags (id : string) (dry yes : bool) : connectFlags :=
  mkConnectFlags id false "" "root@pam" "" "" "restorelab@pve" "drills" "" "restorelab" false "" ["local"] false dry yes false "" false.
Definition opts : provisionOptions :=
  mkProvisionOptions "https://pve.lab" "root@pam" "pw" false "" "" "pve" "restorelab@pve" "drills" "RestoreLabDrill" "restorelab" "" ["local"]
    false false "vmbr99" false false.
Definition form (bridge : bool) : SetupRequest := mkSetupRequest "https://pve.lab" "root@pam" "pw" ["local"] false "" bridge true.

(** The token of a configuration, opened. *)
Definition opened (s : Machine) (id : string) : option (string * string) :=
  match cl_cfg (mc_cli s) with
  | Some c => match provider_of id c with
              | inr e => match Secret key e with inr secret => Some (prv_TokenID e, secret) | inl _ => None end
              | inl _ => None
              end
  | None => None
  end.
Definition succeeds {A} (r : outcome (error + A)) : bool := match r with Ret (inr _) => true | _ => false end.

Lemma nonces_sized : forall t b, @pe_nonce machine t = inr b -> String.length b = nonceSize.
Proof. intros t b E. injection E as <-. reflexivity. Qed.

(** From nothing to a token that works. *)
Definition connected : Machine := (connect "https://pve.lab" (flags "pve" false true) bare).2.
Example connects : opened connected "pve" = Some ("restorelab@pve!drills", "s3cret") /\ pr_NodeCount (mc_out connected) = 1 /\
  mc_keys connected !! "/root/.restorelab/master.key" = Some (EncodeKey key) /\ cl_file (mc_cli connected) = Some "of pve".
Proof. vm_compute. split_and!; reflexivity. Qed.

Lemma token_stored_before_use_witness :
  exists r s', provision no_hook opts bare = (Ret r, s') /\ keys_kept (mc_keys bare) (mc_keys s') /\ forgotten bare s' /\ provisioned opts bare r s'.
Proof. apply (token_stored_before_use no_hook opts bare no_hook_converses nonces_sized). Defined.

(** Without a terminal and without a flag nothing is asked of the cluster; but the
    machine has a configuration and a master key, as after a dry run, which reads only. *)
Lemma connect_asks_first_witness :
  exists r s', connect "https://pve.lab" (flags "pve" false false) bare = (Ret r, s') /\ keys_kept (mc_keys bare) (mc_keys s') /\ forgotten bare s' /\
    match r with
    | inl _ => True
    | inr true => agreed_to (flags "pve" false false)
    | inr false => mc_admin s' = mc_admin bare /\ mc_service s' = mc_service bare /\ file_started bare s'
    end.
Proof. apply (connect_asks_first "https://pve.lab" (flags "pve" false false) bare nonces_sized). Defined.
Example refused_and_written :
  let '(r, s) := connect "https://pve.lab" (flags "pve" false false) bare in
  (match r with Ret (inr false) => true | _ => false end) = true /\ pv_log (ad_pve (mc_admin s)) = [] /\
  cl_file (mc_cli s) = Some "none" /\ map_size (mc_keys s) = 1%nat.
Proof. vm_compute. split_and!; reflexivity. Qed.
Example dry_and_written :
  let '(r, s) := connect "https://pve.lab" (flags "pve" true false) bare in
  succeeds r = true /\ cl_file (mc_cli s) = Some "none" /\ map_size (mc_keys s) = 1%nat.
Proof. vm_compute. split_and!; reflexivity. Qed.

(** Connecting again forgets what was set of the provider: here the range of the
    temporary workloads and where the backups are. *)
Definition tuned : Machine :=
  set_mc_cli (mkCli (Some (set_Providers
    [mkProvider "pve" "proxmox" ["hypervisor"] "https://pve.lab" "restorelab@pve!drills" "rlsec:v1:x" false "" "" "" "nas" "" 20000 20099 "" ""] NewConfig))
    (Some "of pve") 0) bare.
Example connecting_again_forgets :
  let '(r, s) := connect "https://pve.lab" (flags "pve" false true) tuned in
  succeeds r = true /\
  match cl_cfg (mc_cli s) ≫= (fun c => match provider_of "pve" c with inr e => Some e | inl _ => None end) with
  | Some e => (prv_TempIDMin e, prv_TempIDMax e, prv_BackupStorage e, prv_Roles e) = (9000, 9999, "", ["hypervisor"; "backup"])
  | None => False
  end.
Proof. vm_compute. split; reflexivity. Qed.

(** A provider without a name is stored, and the configuration cannot be read again. *)
Example no_name_no_way_back :
  let '(r, s) := connect "https://pve.lab" (flags "" false true) bare in
  succeeds r = true /\
  match cl_file (mc_cli s) with
  | Some data => (match Load pe_path (Contents data) with inl (LoadFailed _) => true | _ => false end) = true
  | None => False
  end.
Proof. vm_compute. split; reflexivity. Qed.

(** The wizard, from nothing to a credential. *)
Definition installed : outcome (SetupResult * option error) * Machine := Connect (form false) bare.
Example installs :
  match installed.1 with
  | Ret (r, None) => (sr_ProviderID r, sr_Token r, sr_TokenName r, length (sr_Steps r)) = ("proxmox-main", token_text "random", "dashboard", 13%nat)
  | _ => False
  end /\ Configured (mc_cli installed.2) = true.
Proof. vm_compute. split; reflexivity. Qed.
Lemma wizard_hands_over_witness :
  exists shown err s', Connect (form false) bare = (Ret (shown, err), s') /\ keys_kept (mc_keys bare) (mc_keys s') /\ forgotten bare s' /\
    match err with
    | Some _ => sr_Token shown = "" /\ mc_tokens s' = Some cred_empty
    | None =>
      (exists db' t, mc_tokens s' = Some db' /\ cred_le cred_empty db' /\ TokenByHash (HashToken (sr_Token shown)) db' = Some t /\
         tk_Name t = sr_TokenName shown /\ Forall (fun scope => Can t scope = true) [ScopeRead; ScopeOperate; ScopeManage]) /\
      (exists o c0 k admin, po_ProviderID o = setupProviderID /\ started_from bare c0 /\ kept o c0 k admin (inr tt) s')
    end.
Proof. apply (wizard_hands_over (form false) bare cred_empty nonces_sized); [reflexivity|apply cred_empty_wf]. Defined.

(** Locked out. The bridge cannot be created once the provider was stored: installing
    fails, without a credential, the token of the console is spent, and the wizard is
    not there when the server starts again, since there is a provider. *)
Example a_failed_setup_locks_out :
  let '(r, s) := Connect (form true) bare in
  (match r with Ret (shown, Some _) => bool_decide (sr_Token shown = "") | _ => false end) = true /\
  mc_tokens s = Some cred_empty /\ Configured (mc_cli s) = true.
Proof. vm_compute. split_and!; reflexivity. Qed.
(** Locked out for ever of the wizard: a database that knows a token of that name, even
    a revoked one. *)
Definition known : Machine :=
  set_mc_tokens (cred_run [OpCreateToken (mkAPIToken "t0" "dashboard" "h0" 5 Time.zero Time.zero []); OpRevokeToken "dashboard" 6] cred_empty) bare.
Example a_revoked_dashboard_locks_out :
  let '(r, s) := Connect (form false) known in
  (match r with Ret (_, Some _) => true | _ => false end) = true /\ Configured (mc_cli s) = true /\
  match mc_tokens s with Some db => forallb (fun x => negb (live_row x.2)) (map_to_list (cd_tokens db)) = true | None => False end.
Proof. vm_compute. split_and!; reflexivity. Qed.
End Machines.
