(* ===== verification/CommandLine.v ===== *)
(** * The command line

    Models what the commands of internal/cli decide and change: endpoints as they are
    typed (endpoint.go), the providers of the configuration (provider.go), the bridge
    created by itself (network.go), what [serve] exposes and starts (serve.go), the
    drill that is run from a terminal (recovery.go), and the destruction of what drills
    left (cleanup.go). What is printed is left out, and so are the clients that are
    closed at the end of a command. [serve_is_safe] says what may be exposed and queued,
    [addProvider_spec] and [removeProvider_spec] what becomes of the file,
    [normalizeEndpoint_idempotent] that an endpoint is normalised once,
    [cleanup_destroys_orphans] what is destroyed, and [terminal_lands_like_worker] that
    a drill lands the same from a terminal and from the queue. *)

From Stdlib Require Import ZArith Lia String Ascii List.
From stdpp Require Import strings.
From S2P Require Import Prelude GoTime Errors Core GoString Secrets Plan Config Channels Engine Queue Catalog Pve Pbs Providers Execution Proxmox ProxmoxTheorems ProxmoxSafety ProxmoxAdmin ProxmoxAdminTheorems Credentials Auth Provision.

(** ** Endpoints (endpoint.go) *)

Definition proxmoxPort : Z := 8006.
Definition pbsPort : Z := 8007.

(** [url.URL], as far as it is read. *)
Record url := mkUrl {
  u_Scheme : string;
  u_Host : string;
  u_Hostname : string;
  u_Port : string;
  u_Path : string;
  u_RawQuery : string;
  u_Fragment : string;
}.
(** [url.Parse] and the environment's secret; a backup server, as a client sees it. *)
Class CommandEnv := {
  url_read : string -> error + url;
  cm_token_secret : string;
  cm_pbs : PbsConfig * trust -> PbsEnv;
}.

Section Endpoint.
Context `{CommandEnv}.

(** A scheme that is a colon or a slash short of one, and what was meant. *)
Definition misspelt (endpoint : string) : option string :=
  let short x := let '(scheme, broken) := x in HasPrefix endpoint broken && negb (HasPrefix endpoint (scheme +:+ "://")) in
  (fun x : string * string => let '(scheme, broken) := x in scheme +:+ "://" +:+ TrimPrefix endpoint broken) <$>
  List.find short [("https", "https//"); ("https", "https:/"); ("http", "http//"); ("http", "http:/")].
Definition origin (u : url) (host : string) : string := u_Scheme u +:+ "://" +:+ host.
(** The endpoint with its scheme. *)
Definition spelled (endpoint : string) : string := if Contains endpoint "://" then endpoint else "https://" +:+ endpoint.
Definition with_port (defaultPort : Z) (u : url) : string :=
  if negb (nonempty (u_Port u)) && (0 <? defaultPort) then u_Hostname u +:+ ":" +:+ pretty defaultPort else u_Host u.

(** [normalizeEndpoint]. *)
Definition normalizeEndpoint (raw : string) (defaultPort : Z) : error + string :=
  let endpoint := TrimSpace raw in
  if negb (nonempty endpoint) then inl (ENew (Lit "no endpoint given")) else
  let endpoint := trim_right_by (Ascii.eqb "/") endpoint in
  match misspelt endpoint with
  | Some fixed => inl (ENew (Sprintf "invalid endpoint %q: did you mean %q?" [AStr raw; AStr fixed]))
  | None =>
    match url_read (spelled endpoint) with
    | inl e => inl (EWrap (Sprintf "invalid endpoint %q: %w" [AStr raw; AText (Error e)]) e)
    | inr u =>
      if negb (bool_decide (u_Scheme u ∈ ["https"; "http"])) then
        inl (ENew (Sprintf "invalid endpoint %q: scheme must be https or http, got %q" [AStr raw; AStr (u_Scheme u)]))
      else if negb (nonempty (u_Host u)) then inl (ENew (Sprintf "invalid endpoint %q: no host" [AStr raw]))
      else if nonempty (u_Path u) && negb (bool_decide (u_Path u = "/")) then
        inl (ENew (Sprintf "invalid endpoint %q: drop the path, RestoreLab only needs %q" [AStr raw; AStr (origin u (u_Host u))]))
      else if nonempty (u_RawQuery u) || nonempty (u_Fragment u) then
        inl (ENew (Sprintf "invalid endpoint %q: drop everything after the port, RestoreLab only needs %q" [AStr raw; AStr (origin u (u_Host u))]))
      else inr (origin u (with_port defaultPort u))
    end
  end.
End Endpoint.

(** ** What [serve] exposes and starts (serve.go) *)

Definition defaultListen : string := "127.0.0.1:8080".
Record serveOptions := mkServeOptions {
  so_listen : string;
  so_noWorker : bool;
  so_noListen : bool;
  so_workerElsewhere : bool;
  so_noScheduler : bool;
  so_noNotify : bool;
}.
(** [check]. *)
Definition check (o : serveOptions) : option error :=
  if so_noWorker o && so_noListen o then
    Some (ENew (Lit "--no-worker and --no-listen together leave a process that neither serves nor executes: drop one"))
  else if so_noWorker o && negb (so_workerElsewhere o) then
    Some (ENew (Lit "--no-worker serves an API that queues drills nobody executes: a caller gets its 201 and waits forever.
  Run a worker against the same database, here or on another machine:
      restorelab serve --no-listen
  then start this one with --no-worker --worker-elsewhere to say that you did"))
  else None.

(** [isLoopbackAddr]: an address that cannot be read counts as public. *)
Definition isLoopbackAddr (loopback : string -> bool) (addr : string) : bool :=
  match SplitHost addr with
  | None => false
  | Some host => bool_decide (host = "localhost") || loopback host
  end.

(** What runs in the process, in the order it is started. *)
Inductive part := TheWizard | TheWorker | TheScheduler | TheDispatcher | TheAPI.
#[export] Instance part_eq_dec : EqDecision part.
Proof. solve_decision. Defined.
(** What [serve] finds: whether there is a provider on disk, whether a token of the
    console can be drawn and what the wizard ends with, the configuration, the tokens of the history (none when there is no database), the
    master key, and what the API server ends with. *)
Record site := mkSite {
  si_configured : bool;
  si_token : option error;
  si_wizard : option error;
  si_config : error + Config;
  si_history : option (error + list APIToken);
  si_key : error + Key;
  si_api : option error;
}.

(** [serveSetup]: what was started, and how it ended. *)
Definition serveSetup (o : serveOptions) (s : site) : list part * option error :=
  if so_noListen o then
    ([], Some (ENew (Lit "nothing is configured yet, and --no-listen leaves no way to configure it: run `restorelab serve` and open the address it prints")))
  else match si_token s with Some e => ([], Some e) | None => ([TheWizard], si_wizard s) end.
(** Who may reach a server that listens. *)
Definition unexposed (loopback : string -> bool) (o : serveOptions) (s : site) : option error :=
  if so_noListen o || isLoopbackAddr loopback (so_listen o) then None else
  match default (inl (ENew (Lit "store: no history database is configured"))) (si_history s) with
  | inl e => Some (EWrap (Sprintf "refusing to listen on %s: the token list cannot be read: %w" [AStr (so_listen o); AText (Error e)]) e)
  | inr tokens =>
    if bool_decide (length (List.filter Live tokens) = 0%nat)
    then Some (ENew (Sprintf "refusing to listen on %s with no API token: create one with `restorelab token create <name>`" [AStr (so_listen o)]))
    else None
  end.
(** [startDispatcher]. *)
Definition dispatcher_parts (o : serveOptions) (s : site) : list part :=
  if so_noNotify o then [] else match si_key s with inl _ => [] | inr _ => [TheDispatcher] end.
(** What is started beside the API, of a configuration that was read. *)
Definition background (o : serveOptions) (s : site) (c : Config) : list part :=
  (if so_noWorker o then [] else [TheWorker])
  ++ (if negb (so_noWorker o) && negb (so_noScheduler o) && SchedulerEnabled c then [TheScheduler] else [])
  ++ dispatcher_parts o s.
Definition serve_configured (loopback : string -> bool) (o : serveOptions) (s : site) : list part * option error :=
  match si_config s with
  | inl e => ([], Some e)
  | inr c =>
    if so_noListen o && bool_decide (si_history s = None) then
      ([], Some (ENew (Lit "a worker needs a history database to claim its runs from, and this RestoreLab has none: see `restorelab db status`")))
    else
      match unexposed loopback o s with
      | Some e => ([], Some e)
      | None =>
        if so_noListen o then (background o s c, None) else (background o s c ++ [TheAPI], si_api s)
      end
  end.
(** [serve]. *)
Definition serve (loopback : string -> bool) (o : serveOptions) (s : site) : list part * option error :=
  match check o with
  | Some e => ([], Some e)
  | None =>
    let '(wizard, err) := if si_configured s then ([], None) else serveSetup o s in
    match err with
    | Some e => (wizard, Some e)
    | None => let '(parts, err) := serve_configured loopback o s in (wizard ++ parts, err)
    end
  end.

(** What is started: the wizard, perhaps, and then nothing, or the parts of a process
    that is allowed to run. *)
Lemma serve_shape loopback o s : exists wizard rest, (serve loopback o s).1 = wizard ++ rest /\
  (wizard = [] \/ (wizard = [TheWizard] /\ si_configured s = false)) /\
  (rest = [] \/ exists c, check o = None /\ unexposed loopback o s = None /\ (so_noListen o = true -> si_history s <> None) /\
     rest = background o s c ++ (if so_noListen o then [] else [TheAPI])).
Proof.
  unfold serve. destruct (check o) as [e|] eqn:Ec; [exists [], []; split_and!; [done|by left|by left]|].
  assert (forall wizard, wizard = [] \/ (wizard = [TheWizard] /\ si_configured s = false) -> exists w rest,
    (let '(parts, err) := serve_configured loopback o s in (wizard ++ parts, err)).1 = w ++ rest /\ (w = [] \/ (w = [TheWizard] /\ si_configured s = false)) /\
    (rest = [] \/ exists c, None = None :> option error /\ unexposed loopback o s = None /\ (so_noListen o = true -> si_history s <> None) /\
     rest = background o s c ++ (if so_noListen o then [] else [TheAPI]))) as Hrun.
  { intros wizard Hw. exists wizard, (serve_configured loopback o s).1. split; [by destruct (serve_configured _ _ _)|]. split; [done|].
    unfold serve_configured. destruct (si_config s) as [e|c]; [by left|]. destruct (so_noListen o && bool_decide (si_history s = None)) eqn:Eh; [by left|].
    destruct (unexposed loopback o s) eqn:Eu; [by left|]. right. exists c. split; [done|]. split; [done|].
    assert (so_noListen o = true -> si_history s <> None) as Hh by (intros E; rewrite E in Eh; by apply bool_decide_eq_false in Eh).
    split; [done|]. destruct (so_noListen o); [|done]. by rewrite app_nil_r. }
  destruct (si_configured s) eqn:Es; [by apply (Hrun []); left|]. unfold serveSetup.
  destruct (so_noListen o); [exists [], []; split_and!; [done|by left|by left]|].
  destruct (si_token s); [exists [], []; split_and!; [done|by left|by left]|].
  destruct (si_wizard s); [exists [TheWizard], []; split_and!; [done|by right|by left]|]. by apply (Hrun [TheWizard]); right.
Qed.
Lemma background_in o s c :
  (TheWorker ∈ background o s c <-> so_noWorker o = false) /\ (TheScheduler ∈ background o s c -> so_noWorker o = false) /\
  TheAPI ∉ background o s c /\ TheWizard ∉ background o s c.
Proof.
  unfold background, dispatcher_parts. destruct (so_noWorker o), (so_noScheduler o), (SchedulerEnabled c), (so_noNotify o), (si_key s); cbn; set_solver.
Qed.

(** A server is never exposed without authentication, and never queues what nobody runs.
    The API is served off the loopback only when the database holds a live token; the
    scheduler runs only beside a worker; a process that serves has a worker, or was told
    that one runs elsewhere; and one that does not serve has the database to claim from. *)
Theorem serve_is_safe loopback o s :
  let parts := (serve loopback o s).1 in
  (TheAPI ∈ parts -> isLoopbackAddr loopback (so_listen o) = true \/ exists tokens t, si_history s = Some (inr tokens) /\ t ∈ tokens /\ Live t = true) /\
  (TheScheduler ∈ parts -> TheWorker ∈ parts) /\
  (TheAPI ∈ parts -> TheWorker ∈ parts \/ so_workerElsewhere o = true) /\
  (TheWorker ∈ parts -> TheAPI ∈ parts \/ si_history s <> None) /\
  (TheWizard ∈ parts -> si_configured s = false).
Proof.
  cbv zeta. destruct (serve_shape loopback o s) as (wizard & rest & -> & Hw & Hr).
  assert (forall x, x ∈ wizard -> x = TheWizard /\ si_configured s = false) as Hwiz by (destruct Hw as [->|[-> Hs]]; set_solver).
  destruct Hr as [->|(c & Hc & Hu & Hh & ->)].
  { rewrite app_nil_r. split_and!; intros Hx; apply Hwiz in Hx as [? ?]; done. }
  destruct (background_in o s c) as (Hwk & Hsch & Hapi & Hbw). rewrite !elem_of_app.
  assert (TheAPI ∈ (if so_noListen o then [] else [TheAPI]) <-> so_noListen o = false) as Hl by (destruct (so_noListen o); set_solver).
  assert (forall x, x <> TheAPI -> x ∉ (if so_noListen o then [] else [TheAPI])) as Hlx by (intros x Hx; destruct (so_noListen o); set_solver).
  split_and!.
  - intros [Hx|[Hx|Hx]]; [by apply Hwiz in Hx as []|by destruct Hapi|]. apply Hl in Hx. unfold unexposed in Hu. rewrite Hx in Hu. cbn [orb] in Hu.
    destruct (isLoopbackAddr _ _); [by left|]. right. destruct (si_history s) as [[e|tokens]|]; [done| |done]. cbn in Hu.
    destruct (List.filter Live tokens) as [|t l] eqn:Ef; [done|]. exists tokens, t. split; [done|].
    assert (In t (List.filter Live tokens)) as Ht by (rewrite Ef; by left). apply filter_In in Ht as [Ht Hlive]. by apply list_elem_of_In in Ht.
  - intros [Hx|[Hx|Hx]]; [by apply Hwiz in Hx as []| |by apply Hlx in Hx]. right. left. by apply Hwk, Hsch.
  - intros _. destruct (so_noWorker o) eqn:En; [right|left; right; left; by apply Hwk]. unfold check in Hc. rewrite En in Hc.
    destruct (so_noListen o); [done|]. by destruct (so_workerElsewhere o).
  - intros _. destruct (so_noListen o) eqn:El; [right; by apply Hh|left; right; right; by apply Hl].
  - intros [Hx|[Hx|Hx]]; [by apply Hwiz in Hx as []|by destruct Hbw|by apply Hlx in Hx].
Qed.

(** ** The providers of the configuration (provider.go) *)

(** [providerFlags]. *)
Record providerFlags := mkProviderFlags {
  pf_id : string;
  pf_endpoint : string;
  pf_tokenID : string;
  pf_tokenSecret : string;
  pf_secretFile : string;
  pf_insecure : bool;
  pf_fingerprint : string;
  pf_caCertPath : string;
  pf_node : string;
  pf_backupStorage : string;
  pf_tempIDMin : Z;
  pf_tempIDMax : Z;
  pf_datastore : string;
  pf_pveStorage : string;
  pf_noTest : bool;
}.

Local Notation "x ⇐ m ; k" := (attempt m (fun x => k)) (at level 20, m at level 100, k at level 200, only parsing).

Section Commands.
Context `{AEAD} `{ConfigEnv} `{FactoryEnv} `{ProvisionEnv} `{Terminal} `{CommandEnv}.
Abbreviation MM := (M Machine).

(** [readSecret]. *)
Definition readSecret (f : providerFlags) : error + string :=
  if nonempty (pf_tokenSecret f) then inr (pf_tokenSecret f)
  else if nonempty (pf_secretFile f) then
    trimmed "the token secret file is empty" (reworded "read token secret: %w" [] (tm_file (pf_secretFile f)))
  else if nonempty cm_token_secret then inr cm_token_secret
  else inl (ENew (Sprintf "no token secret provided: use --token-secret-file, --token-secret, or $%s" [AStr "RESTORELAB_TOKEN_SECRET"])).

(** The entry of [addProvider]. *)
Definition flag_entry (kind endpoint : string) (f : providerFlags) : Provider :=
  let entry roles node storage min max datastore pve :=
    mkProvider (pf_id f) kind roles endpoint (pf_tokenID f) "" (pf_insecure f) (pf_fingerprint f) (pf_caCertPath f) node storage "" min max datastore pve in
  if bool_decide (kind = KindProxmox) then
    entry [RoleHypervisor; RoleBackup] (pf_node f) (pf_backupStorage f) (pf_tempIDMin f) (pf_tempIDMax f) "" ""
  else if bool_decide (kind = KindPBS) then entry [RoleBackup] "" "" 0 0 (pf_datastore f) (pf_pveStorage f)
  else entry [] "" "" 0 0 "" "".

(** [config]. *)
Definition loaded : MM (error + Config) := cfg ← read_config; mret (match cfg with inl e => inl (load_error_of e) | inr c => inr c end).

(** [testProvider]: a client of its own, asked for its version. *)
Definition ping_pve (client : PveConfig) : MM (error + unit) :=
  _ ← modify (set_mc_service (mkPve [] 0)); on_service (@Ping (pe_service client)).
Definition ping_pbs (client : PbsConfig * trust) : MM (error + unit) := fun s => ((@PbsPing (cm_pbs client) client.1 []).1, s).
Definition testProvider (key : Key) (p : Provider) : MM (error + unit) :=
  if HasRole p RoleHypervisor then client ⇐ mret (NewHypervisor key p); ping_pve client
  else
    client ⇐ mret (NewBackup key p);
    match client with BackupsOfPve client => ping_pve client | BackupsOfPbs client => ping_pbs client end.

(** [addProvider]. *)
Definition missing_flags (f : providerFlags) : bool := negb (nonempty (pf_id f)) || negb (nonempty (pf_endpoint f)) || negb (nonempty (pf_tokenID f)).
Definition default_port (kind : string) : Z := if bool_decide (kind = KindPBS) then pbsPort else proxmoxPort.
Definition tested (key : Key) (c : Config) (f : providerFlags) : MM (error + unit) :=
  if pf_noTest f then mret (inr tt) else
  match provider_of (pf_id f) c with
  | inl _ => mret (inr tt)
  | inr saved => r ← testProvider key saved; mret (reworded "connection test failed (use --no-test to add it anyway): %w" [] r)
  end.
Definition addProvider (kind : string) (f : providerFlags) : MM (error + unit) :=
  if missing_flags f then mret (inl (ENew (Lit "--id, --endpoint and --token-id are required"))) else
  endpoint ⇐ mret (normalizeEndpoint (pf_endpoint f) (default_port kind));
  if bool_decide (kind = KindPBS) && negb (nonempty (pf_datastore f)) then
    mret (inl (ENew (Lit "--datastore is required for a Proxmox Backup Server")))
  else
    secret ⇐ mret (readSecret f);
    c ⇐ loaded;
    key ⇐ masterKey;
    let c := Upsert (flag_entry kind endpoint f) c in
    _ ← edit c;
    nonce ← outside pe_nonce;
    let '(err, c) := SetProviderSecret (pf_id f) secret nonce key c in
    _ ← edit c;
    _ ⇐ mret (checked err);
    _ ⇐ tested key c f;
    _ ⇐ mret (checked (ValidateConfig c));
    save_config c.

(** [provider remove]. *)
Definition not_named (id : string) (l : list Provider) : list Provider := List.filter (fun p => negb (bool_decide (prv_ID p = id))) l.
Definition without_default (id : string) (d : Defaults) : Defaults :=
  let cleared x := if bool_decide (x = id) then "" else x in
  mkDefaults (cleared (df_Provider d)) (cleared (df_BackupProvider d)) (df_Network d) (df_Node d) (df_Storage d).
Definition without_provider (id : string) (c : Config) : Config :=
  mkConfig (cg_Version c) (not_named id (cg_Providers c)) (cg_Networks c) (cg_Limits c) (without_default id (cg_Defaults c)) (cg_DatabaseURL c)
    (cg_Scheduler c) (cg_BaseURL c) (cg_Notifications c).
Definition removeProvider (id : string) : MM (error + unit) :=
  c ⇐ loaded;
  if bool_decide (length (not_named id (cg_Providers c)) = length (cg_Providers c)) then
    mret (inl (ENew (Sprintf "no provider with id %q" [AStr id])))
  else
    _ ← edit (without_provider id c);
    save_config (without_provider id c).

(** ** The bridge, by itself (network.go) *)

Record networkFlags := mkNetworkFlags {
  nf_provider : string;
  nf_node : string;
  nf_bridge : string;
  nf_endpoint : string;
  nf_noApply : bool;
  nf_dryRun : bool;
  nf_yes : bool;
  nf_admin : connectFlags;
}.
(** [adminClient]: logged in, or closed. *)
Definition adminClient (endpoint caCert : string) (f : connectFlags) : MM (error + string) :=
  endpoint ⇐ mret (normalizeEndpoint endpoint proxmoxPort);
  password ⇐ mret (readAdminPassword f);
  ca ⇐ mret (readFileIfSet caCert);
  admin ⇐ mret (NewAdminClient has_certificate endpoint (fl_adminUser f) password ca);
  _ ← modify (set_mc_admin admin);
  err ← on_admin (@Login (pe_admin endpoint));
  match err with
  | Some e => _ ← on_admin Close; mret (inl e)
  | None => mret (inr endpoint)
  end.
(** [hypervisor]: the entry first, then the key. *)
Definition hypervisor (id : string) : MM (error + PveConfig) :=
  c ⇐ loaded;
  _ ⇐ mret (entry_for id RoleHypervisor c);
  key ⇐ masterKey;
  service_client key id.
(** [firstOnlineNode]. *)
Definition firstOnlineNode (providerID : string) : MM (error + string) :=
  client ⇐ hypervisor providerID;
  nodes ⇐ on_service (@ListNodes (pe_service client));
  mret (match List.find node_Online nodes with Some n => inr (node_ID n) | None => inl (ENew (Lit "no online node found")) end).
(** The bridge of the isolated profile. *)
Definition asked_bridge (c : Config) (f : networkFlags) : error + string :=
  if nonempty (nf_bridge f) then inr (nf_bridge f) else
  let name := if nonempty (df_Network (cg_Defaults c)) then df_Network (cg_Defaults c) else "isolated" in
  match network_of name c with
  | inl e => inl (EWrap (Sprintf "no bridge given and no network profile to take one from: %w" [AText (Error e)]) e)
  | inr n => if nw_Isolated n then inr (nw_Bridge n)
             else inl (ENew (Sprintf "network profile %q is not marked isolated; refusing to create a bridge for it" [AStr name]))
  end.
Definition asked_node (entry : error + Provider) (f : networkFlags) : MM (error + string) :=
  let node := if nonempty (nf_node f) then nf_node f else match entry with inr e => prv_Node e | inl _ => "" end in
  if nonempty node then mret (inr node) else firstOnlineNode (nf_provider f).
Definition asked_endpoint (entry : error + Provider) (f : networkFlags) : error + string :=
  if nonempty (nf_endpoint f) then inr (nf_endpoint f) else on_ok prv_Endpoint entry.
Definition bridge_consent (f : networkFlags) : MM bool := if nf_dryRun f || nf_yes f then mret true else confirm.
(** [network create]: whether somebody agreed to it. *)
Definition networkCreate (f : networkFlags) : MM (error + bool) :=
  c ⇐ loaded;
  let entry := entry_for (nf_provider f) "hypervisor" c in
  endpoint ⇐ mret (asked_endpoint entry f);
  bridge ⇐ mret (asked_bridge c f);
  node ⇐ asked_node entry f;
  let ca := if nonempty (fl_caCert (nf_admin f)) then fl_caCert (nf_admin f) else match entry with inr e => prv_CACertPath e | inl _ => "" end in
  endpoint ⇐ adminClient endpoint ca (nf_admin f);
  agreed ← bridge_consent f;
  r ← (if agreed : bool then on_admin (@EnsureIsolatedBridge (pe_admin endpoint) (mkBridgeOptions node bridge "" (negb (nf_noApply f)) (nf_dryRun f)))
       else mret (inr (false, false)));
  _ ← on_admin Close;
  mret (on_ok (fun _ => agreed) r).

(** ** What drills left (cleanup.go) *)

(** Every workload in turn; how many could not be destroyed. *)
Fixpoint destroy_all (client : PveConfig) (ids : list string) : MM Z :=
  match ids with
  | [] => mret 0
  | id :: ids =>
    r ← on_service (@Delete (pe_service client) client id);
    failures ← destroy_all client ids;
    mret (match r with inl _ => failures + 1 | inr _ => failures end)
  end.
Definition orphans (workloads : list Workload) : list string := map wl_ID (List.filter wl_Managed workloads).
Definition destroy_listed (client : PveConfig) (yes : bool) : MM (error + unit) :=
  workloads ⇐ on_service (@ListWorkloads (pe_service client));
  match orphans workloads with
  | [] => mret (inr tt)
  | ids =>
    agreed ← (if yes then mret true else confirm);
    if negb agreed then mret (inr tt) else
    failures ← destroy_all client ids;
    mret (if 0 <? failures
          then inl (ENew (Sprintf "%d of %d workloads could not be destroyed" [AInt failures; AInt (Z.of_nat (length ids))])) else inr tt)
  end.
(** [cleanup], of one workload or of all. *)
Definition cleanup_command (providerID : string) (one : option string) (all yes : bool) : MM (error + unit) :=
  client ⇐ hypervisor providerID;
  match one with
  | Some id => on_service (@Delete (pe_service client) client id)
  | None =>
    if negb all then mret (inl (ENew (Lit "give a workload id, or --all to destroy every temporary workload")))
    else destroy_listed client yes
  end.
End Commands.

(** ** A drill run from a terminal (recovery.go) *)

(** [runFlags], as far as a plan is run with them. *)
Record runFlags := mkRunFlags {
  rf_providerID : string;
  rf_backupID : string;
  rf_node : string;
  rf_storage : string;
  rf_pool : string;
  rf_network : string;
  rf_dryRun : bool;
  rf_keep : bool;
}.
Definition no_flags : runFlags := mkRunFlags "" "" "" "" "" "" false false.

Section Terminal.
Context `{AEAD} `{ConfigEnv} `{CliEnv} `{FactoryEnv}.

Definition run_network (c : Config) (p : Plan) (f : runFlags) : error + NetworkConfig :=
  on_ok (fun n => if nonempty (rs_Bridge (pl_Restore p)) then on_bridge (rs_Bridge (pl_Restore p)) n else n)
    (ResolveNetwork (firstNonEmpty [rf_network f; rs_Network (pl_Restore p); df_Network (cg_Defaults c); "isolated"]) c).
Definition run_options (c : Config) (p : Plan) (f : runFlags) (entry : Provider) (network : NetworkConfig) : RunOptions :=
  mkRunOptions "" network (firstNonEmpty [rf_node f; rs_Node (pl_Restore p); df_Node (cg_Defaults c)])
    (firstNonEmpty [rf_storage f; rs_Storage (pl_Restore p); df_Storage (cg_Defaults c)])
    (firstNonEmpty [rf_pool f; rs_Pool (pl_Restore p); prv_Pool entry]) (rf_dryRun f) (rf_keep f).
(** [runPlan], up to the engine. *)
Definition runPlan (p : Plan) (f : runFlags) : M Cli (error + Launch) :=
  c ⇐ app_config;
  let id := firstNonEmpty [rf_providerID f; wr_Provider (pl_Workload p)] in
  entry ⇐ providerEntry id RoleHypervisor;
  hv ⇐ app_hypervisor id;
  bp ⇐ app_backups (firstNonEmpty [rf_backupID f; bs_Provider (pl_Backup p); prv_ID entry]);
  network ⇐ mret (run_network c p f);
  mret (inr (mkLaunch p hv bp (run_options c p f entry network))).
End Terminal.

(** * What the commands promise *)

(** ** An endpoint is normalised once *)

(** What [url.Parse] says of what was put together of its parts: a host has neither a
    slash nor white space, and parts read back. *)
Class UrlLaws `{CommandEnv} := {
  host_plain : forall raw u, url_read raw = inr u -> existsb_char (fun c => Ascii.eqb "/" c || is_space c) (u_Host u) = false /\
    existsb_char (fun c => Ascii.eqb "/" c || is_space c) (u_Hostname u) = false;
  host_read : forall raw u, url_read raw = inr u -> u_Host u <> "" ->
    url_read (origin u (u_Host u)) = inr (mkUrl (u_Scheme u) (u_Host u) (u_Hostname u) (u_Port u) "" "" "");
  port_read : forall raw u port, url_read raw = inr u -> u_Host u <> "" -> u_Port u = "" -> 0 < port -> existsb_char (Ascii.eqb ":") (u_Hostname u) = false ->
    let host := u_Hostname u +:+ ":" +:+ pretty port in
    url_read (origin u host) = inr (mkUrl (u_Scheme u) host (u_Hostname u) (pretty port) "" "" "");
}.

Lemma srev_head (p : ascii -> bool) t acc : t <> "" -> existsb_char p t = false -> exists c r, srev t acc = String c r /\ p c = false.
Proof.
  revert acc. induction t as [|a t IH]; intros acc Ht Hp; [done|]. cbn in Hp. apply orb_false_iff in Hp as [Ha Hp]. cbn [srev].
  destruct t as [|b t]; [by exists a, acc|]. by apply IH.
Qed.
(** What ends in a character that is not trimmed is not trimmed. *)
Lemma trim_right_kept p s t : t <> "" -> existsb_char p t = false -> trim_right_by p (s +:+ t) = s +:+ t.
Proof.
  intros Ht Hp. unfold trim_right_by. rewrite srev_app. destruct (srev_head p t (srev s "") Ht Hp) as (c & r & E & Hc).
  rewrite E. cbn [trim_left_by]. rewrite Hc, <- E, <- srev_app. apply srev_involutive.
Qed.
Lemma existsb_char_split (p q : ascii -> bool) s : existsb_char (fun c => p c || q c) s = false -> existsb_char p s = false /\ existsb_char q s = false.
Proof.
  induction s as [|c s IH]; [done|]. cbn. rewrite !orb_false_iff. intros [[-> ->] Hs]. by destruct (IH Hs) as [-> ->].
Qed.

Lemma digits_only (p : ascii -> bool) : (forall c, is_digit c = true -> p c = false) -> forall z, 0 < z -> existsb_char p (pretty z) = false.
Proof.
  intros Hp z Hz. assert (forall x s, existsb_char p s = false -> existsb_char p (pretty_N_go x s) = false) as Hgo.
  { intros x. induction (N.lt_wf_0 x) as [x _ IH]. intros s Hs. destruct (decide (x = 0%N)) as [->|Hx]; [by rewrite pretty_N_go_0|].
    rewrite pretty_N_go_step by lia. apply IH; [apply N.div_lt; lia|]. cbn. rewrite Hs, orb_false_r. apply Hp, GoStrconv.pretty_N_char_digit. }
  assert (forall x : N, (0 < x)%N -> existsb_char p (pretty x) = false) as HN.
  { intros x Hx. unfold pretty, pretty_N. destruct (decide (x = 0%N)); [lia|by apply Hgo]. }
  destruct z as [|q|q]; [lia|by apply (HN (Npos q))|lia].
Qed.
Lemma digit_plain c : is_digit c = true -> Ascii.eqb "/" c || is_space c = false.
Proof.
  intros Hc. apply orb_false_iff. split; [by destruct (Ascii.eqb_spec "/" c) as [<-|]|]. unfold is_digit in Hc.
  apply andb_true_iff in Hc as [H1%N.leb_le H2%N.leb_le]. unfold is_space. apply orb_false_iff. split.
  - apply andb_false_iff. right. apply N.leb_gt. lia.
  - apply N.eqb_neq. lia.
Qed.
Lemma port_plain z : 0 < z -> existsb_char (fun c => Ascii.eqb "/" c || is_space c) (pretty z) = false.
Proof. apply digits_only, digit_plain. Qed.
Lemma port_there z : 0 < z -> pretty z <> "".
Proof. intros Hz E. destruct (GoFmt.pretty_read z) as [_ Hd]; [lia|]. by rewrite E in Hd. Qed.

Section Endpoints.
Context `{UrlLaws}.

Definition web (scheme : string) : Prop := scheme = "https" \/ scheme = "http".
(** An endpoint of a scheme and a host is left as it is by the trimming, and is not
    taken for a misspelling. *)
Lemma clean_endpoint scheme host : web scheme -> host <> "" -> existsb_char (fun c => Ascii.eqb "/" c || is_space c) host = false ->
  let e := scheme +:+ "://" +:+ host in
  TrimSpace e = e /\ trim_right_by (Ascii.eqb "/") e = e /\ misspelt e = None /\ spelled e = e /\ nonempty e = true.
Proof.
  intros Hs Hh [Hslash Hspace]%existsb_char_split. cbv zeta. split.
  { unfold TrimSpace, trim_by.
    replace (trim_left_by is_space (scheme +:+ "://" +:+ host)) with (scheme +:+ "://" +:+ host) by by destruct Hs as [-> | ->].
    rewrite string_app_assoc. by apply trim_right_kept. }
  split; [rewrite string_app_assoc; by apply trim_right_kept|].
  split; [by destruct Hs as [-> | ->]; destruct host|]. split; [|by destruct Hs as [-> | ->]].
  unfold spelled. assert (Contains (scheme +:+ "://" +:+ host) "://" = true) as ->; [|done].
  by destruct Hs as [-> | ->]; destruct host.
Qed.

Lemma normalize_clean scheme host u port : web scheme -> host <> "" -> existsb_char (fun c => Ascii.eqb "/" c || is_space c) host = false ->
  url_read (scheme +:+ "://" +:+ host) = inr u -> u_Scheme u = scheme -> u_Host u = host -> u_Path u = "" -> u_RawQuery u = "" -> u_Fragment u = "" ->
  normalizeEndpoint (scheme +:+ "://" +:+ host) port = inr (origin u (with_port port u)).
Proof.
  intros Hs Hh Hp Hu Hus Huh Hpa Hq Hf. destruct (clean_endpoint scheme host Hs Hh Hp) as (E1 & E2 & E3 & E4 & E5).
  unfold normalizeEndpoint. rewrite E1, E5. cbn [negb]. rewrite E2, E3, E4, Hu, Hus, Huh, Hpa, Hq, Hf.
  rewrite bool_decide_eq_true_2 by (destruct Hs as [-> | ->]; set_solver). cbn [negb]. apply nonempty_spec in Hh. by rewrite Hh.
Qed.

(** An endpoint is normalised once. What is kept of what was typed is a scheme, http or
    https, and a host with a port, and normalising it again, whatever the default port,
    leaves it as it is; for every host whose name has no colon of its own. *)
Theorem normalizeEndpoint_idempotent raw port port' e :
  0 < port -> normalizeEndpoint raw port = inr e ->
  (forall u, url_read (spelled (trim_right_by (Ascii.eqb "/") (TrimSpace raw))) = inr u -> existsb_char (Ascii.eqb ":") (u_Hostname u) = false) ->
  normalizeEndpoint e port' = inr e /\ exists scheme host, e = scheme +:+ "://" +:+ host /\ web scheme /\ host <> "".
Proof.
  intros Hport E Hcolon. unfold normalizeEndpoint in E. destruct (negb (nonempty (TrimSpace raw))); [done|]. destruct (misspelt _); [done|].
  destruct (url_read _) as [|u] eqn:Eu; [done|]. specialize (Hcolon u eq_refl). destruct (bool_decide (u_Scheme u ∈ _)) eqn:Es; [|done]. cbn [negb] in E.
  destruct (nonempty (u_Host u)) eqn:Eh; [|done]. cbn [negb] in E. apply nonempty_spec in Eh. apply bool_decide_eq_true in Es.
  destruct (nonempty (u_Path u) && _); [done|]. destruct (nonempty (u_RawQuery u) || _); [done|]. injection E as <-.
  assert (web (u_Scheme u)) as Hweb by (unfold web; set_solver). destruct (host_plain _ _ Eu) as [Hplain Hname].
  unfold with_port. destruct (nonempty (u_Port u)) eqn:Ep; cbn [negb andb].
  - split; [|by exists (u_Scheme u), (u_Host u)]. unfold origin at 1.
    rewrite (normalize_clean _ _ _ port' Hweb Eh Hplain (host_read _ _ Eu Eh) eq_refl eq_refl eq_refl eq_refl eq_refl).
    unfold with_port. cbn [u_Port u_Host]. by rewrite Ep.
  - apply nonempty_false in Ep. rewrite (proj2 (Z.ltb_lt 0 port) Hport). set (host := u_Hostname u +:+ ":" +:+ pretty port).
    assert (host <> "") as Hne by (unfold host; by destruct (u_Hostname u)).
    assert (existsb_char (fun c => Ascii.eqb "/" c || is_space c) host = false) as Hp.
    { unfold host. rewrite !existsb_char_app, Hname. cbn. by apply port_plain. }
    split; [|by exists (u_Scheme u), host]. unfold origin at 1.
    rewrite (normalize_clean _ _ _ port' Hweb Hne Hp (port_read _ _ _ Eu Eh Ep Hport Hcolon) eq_refl eq_refl eq_refl eq_refl eq_refl).
    unfold with_port. cbn [u_Port u_Host]. destruct (pretty port) eqn:Epp; [by destruct (port_there port Hport)|done].
Qed.
End Endpoints.

(** ** A provider that is added *)

Section Adding.
Context `{AEADLaws} `{ConfigEnv} `{FactoryEnv} `{ProvisionEnv} `{Terminal} `{CommandEnv}.
Abbreviation MM := (M Machine).

Lemma ping_pve_wp client s : wp (ping_pve client) (fun r s' => settled s s' /\ mc_admin s' = mc_admin s /\ r = r) s.
Proof.
  apply wp_bind, wp_modify, wp_on_service. assert (returns (@Ping (pe_service client))) as Hp.
  { eapply (answers_bind (fun _ => True)); [intros w; by eexists _, _|]. intros r _. by apply answers_ret. }
  eapply wp_mono; [apply wp_answers, Hp|]. intros r w _. by split_and!.
Qed.
Lemma testProvider_wp key p s : wp (testProvider key p) (fun r s' => settled s s') s.
Proof.
  unfold testProvider. destruct (HasRole p RoleHypervisor); apply wp_attempt, wp_ret.
  - destruct (NewHypervisor key p) as [e|client]; [done|]. eapply wp_mono; [apply ping_pve_wp|]. by intros r s' (Hs & _).
  - destruct (NewBackup key p) as [e|[client|client]]; [done| |].
    + eapply wp_mono; [apply ping_pve_wp|]. by intros r s' (Hs & _).
    + eexists _, s. split; [|done]. unfold ping_pbs, PbsPing, mbind, M_bind, pbs_get. reflexivity.
Qed.
Lemma loaded_wp s : wp loaded (fun r s' =>
  cl_file (mc_cli s') = cl_file (mc_cli s) /\ mc_keys s' = mc_keys s /\ mc_key s' = mc_key s /\
  forall c, r = inr c -> cl_cfg (mc_cli s') = Some c /\ started_from s c) s.
Proof.
  apply wp_bind. eapply wp_mono; [apply read_config_wp|]. intros r s1 (_ & Hf & Hk & Hk' & Hr). apply wp_ret. split; [done|]. split; [done|].
  split; [done|]. intros c E. destruct r; [done|]. by injection E as ->.
Qed.
Lemma tested_wp key c f s : wp (tested key c f) (fun r s' => settled s s') s.
Proof.
  unfold tested. destruct (pf_noTest f); [by apply wp_ret|]. destruct (provider_of _ c); [by apply wp_ret|]. apply wp_bind.
  eapply wp_mono; [apply testProvider_wp|]. intros r s1 Hs. by apply wp_ret.
Qed.

(** The entry that was asked for, with its secret. *)
Definition added (kind endpoint secret : string) (f : providerFlags) (key : Key) (c0 c : Config) : Prop :=
  (exists e, provider_of (pf_id f) c = inr e /\ with_secret "" e = flag_entry kind endpoint f /\ Secret key e = inr secret) /\
  (forall j, j <> pf_id f -> provider_of j c = provider_of j c0) /\ cg_Notifications c = cg_Notifications c0 /\ cg_Defaults c = cg_Defaults c0.
Lemma flag_entry_id kind endpoint f : prv_ID (flag_entry kind endpoint f) = pf_id f /\ prv_TokenSecret (flag_entry kind endpoint f) = "".
Proof. unfold flag_entry. destruct (bool_decide _); [done|]. by destruct (bool_decide _). Qed.
Lemma SetProviderSecret_added kind endpoint secret f key nonce c c' :
  (forall b, nonce = inr b -> String.length b = nonceSize) ->
  SetProviderSecret (pf_id f) secret nonce key (Upsert (flag_entry kind endpoint f) c) = (None, c') -> added kind endpoint secret f key c c'.
Proof.
  intros Hn. destruct (flag_entry_id kind endpoint f) as [Hid Hs]. pose proof (fun j => provider_of_upsert j (flag_entry kind endpoint f) c) as Hu.
  assert (cg_Notifications (Upsert (flag_entry kind endpoint f) c) = cg_Notifications c /\ cg_Defaults (Upsert (flag_entry kind endpoint f) c) = cg_Defaults c)
    as [Hnt Hdf] by done.
  revert Hu Hnt Hdf. generalize (Upsert (flag_entry kind endpoint f) c). intros c1 Hu Hnt Hdf. unfold SetProviderSecret. rewrite Hu, Hid, bool_decide_eq_true_2 by done.
  destruct nonce as [e|nonce]; [done|]. destruct (Seal (inr nonce) key secret) as [e|sealed] eqn:Ese; [done|]. intros E. injection E as <-.
  injection Ese as <-. destruct (Seal_opens nonce key secret _ eq_refl (Hn _ eq_refl)) as [Hse Ho]. split.
  - eexists. split; [by rewrite provider_of_alter, Hu, Hid, bool_decide_eq_true_2 by done|].
    split; [destruct (flag_entry kind endpoint f); cbn in *; by subst|].
    unfold Secret. cbn [prv_TokenSecret with_secret]. by rewrite Hse, Ho.
  - split; [|done]. intros j Hj. by rewrite provider_of_alter, Hu, Hid, !bool_decide_eq_false_2 by done.
Qed.

(** Adding a provider is all or nothing on disk. Whatever fails, the command returns; with
    an error the file is as it was; without one it holds a valid configuration, every
    secret sealed, in which the provider is the one of the flags and its secret opens to
    the one that was given, every other provider and channel as it was. *)
Theorem addProvider_spec kind f s :
  (forall t b, pe_nonce t = inr b -> String.length b = nonceSize) ->
  exists r s', addProvider kind f s = (Ret r, s') /\ mc_keys s' = mc_keys s /\
    match r with
    | inl _ => cl_file (mc_cli s') = cl_file (mc_cli s)
    | inr _ => exists endpoint secret c0 c key, normalizeEndpoint (pf_endpoint f) (default_port kind) = inr endpoint /\ readSecret f = inr secret /\
        started_from s c0 /\ mc_key s' = Some key /\ added kind endpoint secret f key c0 c /\ ValidateConfig c = None /\ on_disk c s'
    end.
Proof.
  intros Hnonce. cut (wp (addProvider kind f) (fun r s' => mc_keys s' = mc_keys s /\
    match r with
    | inl _ => cl_file (mc_cli s') = cl_file (mc_cli s)
    | inr _ => exists endpoint secret c0 c key, normalizeEndpoint (pf_endpoint f) (default_port kind) = inr endpoint /\ readSecret f = inr secret /\
        started_from s c0 /\ mc_key s' = Some key /\ added kind endpoint secret f key c0 c /\ ValidateConfig c = None /\ on_disk c s'
    end) s); [done|].
  unfold addProvider. destruct (missing_flags f); [by apply wp_ret|]. apply wp_attempt, wp_ret. destruct (normalizeEndpoint _ _) as [e|endpoint] eqn:Ee; [done|].
  destruct (_ && _); [by apply wp_ret|]. apply wp_attempt, wp_ret. destruct (readSecret f) as [e|secret] eqn:Es; [done|].
  apply wp_attempt. eapply wp_mono; [apply loaded_wp|]. intros r1 s1 (Hf1 & Hk1 & Hkey1 & Hr1). destruct r1 as [e|c]; [done|].
  destruct (Hr1 c eq_refl) as [Hc1 Hst]. apply wp_attempt. eapply wp_mono; [apply masterKey_wp|]. intros r2 s2 (_ & [Hc2 Hf2] & Hk2 & Hr2).
  destruct r2 as [e|key]; [split; congruence|]. destruct (Hr2 key eq_refl) as [Hkey2 _]. cbv zeta. apply wp_bind, edit_wp, wp_bind, wp_outside.
  destruct (SetProviderSecret _ _ _ _ _) as [err c'] eqn:Eset. apply wp_bind, edit_wp, wp_attempt, wp_ret.
  destruct err as [e|]; [cbn; split; congruence|]. cbn [checked].
  apply SetProviderSecret_added in Eset; [|by intros b; apply Hnonce]. apply wp_attempt. eapply wp_mono; [apply tested_wp|].
  intros r3 s3 [Hc3 Hf3 Hk3 Hkey3 _]. cbn in Hc3, Hf3, Hk3, Hkey3. destruct r3 as [e|[]]; [split; congruence|]. apply wp_attempt, wp_ret.
  destruct (ValidateConfig c') as [e|] eqn:Ev; [cbn; split; congruence|]. cbn [checked]. eapply wp_mono; [apply save_config_wp|].
  intros r4 s4 (_ & Hk4 & Hkey4 & Hc4 & Hr4). split; [congruence|]. destruct r4 as [e|[]]; [congruence|]. destruct Hr4 as (Hsealed & data & Hd & Hf4).
  exists endpoint, secret, c, c', key. split_and!; [done..|congruence|done|done|]. split; [congruence|]. split; [done|]. by exists data.
Qed.

Lemma keyed_filter_not (id j : string) l :
  keyed prv_ID j (not_named id l) = if bool_decide (j = id) then None else keyed prv_ID j l.
Proof.
  unfold not_named. induction l as [|p l IH]; [by case_bool_decide|]. cbn [List.filter]. destruct (bool_decide_reflect (prv_ID p = id)) as [Hp|Hp]; cbn [negb].
  - rewrite IH, keyed_cons. destruct (bool_decide_reflect (j = id)); [done|]. by rewrite bool_decide_eq_false_2 by congruence.
  - rewrite !keyed_cons, IH. destruct (bool_decide_reflect (prv_ID p = j)), (bool_decide_reflect (j = id)); congruence.
Qed.
(** Removing a provider forgets it, and what named it by default, and nothing else; with an
    error the file is as it was. *)
Theorem removeProvider_spec id s :
  exists r s', removeProvider id s = (Ret r, s') /\
    match r with
    | inl _ => cl_file (mc_cli s') = cl_file (mc_cli s)
    | inr _ => exists c0 c, started_from s c0 /\ on_disk c s' /\ (exists e, provider_of id c = inl e) /\
        (forall j, j <> id -> provider_of j c = provider_of j c0) /\ cg_Notifications c = cg_Notifications c0 /\
        (id <> "" -> df_Provider (cg_Defaults c) <> id /\ df_BackupProvider (cg_Defaults c) <> id)
    end.
Proof.
  cut (wp (removeProvider id) (fun r s' => match r with
    | inl _ => cl_file (mc_cli s') = cl_file (mc_cli s)
    | inr _ => exists c0 c, started_from s c0 /\ on_disk c s' /\ (exists e, provider_of id c = inl e) /\
        (forall j, j <> id -> provider_of j c = provider_of j c0) /\ cg_Notifications c = cg_Notifications c0 /\
        (id <> "" -> df_Provider (cg_Defaults c) <> id /\ df_BackupProvider (cg_Defaults c) <> id)
    end) s); [done|].
  apply wp_attempt. eapply wp_mono; [apply loaded_wp|]. intros r1 s1 (Hf1 & _ & _ & Hr1). destruct r1 as [e|c]; [done|].
  destruct (Hr1 c eq_refl) as [Hc1 Hst]. destruct (bool_decide _); [by apply wp_ret|]. apply wp_bind, edit_wp. eapply wp_mono; [apply save_config_wp|].
  intros r2 s2 (_ & _ & _ & Hc2 & Hr2). cbn in Hc2. destruct r2 as [e|[]]; [cbn in Hr2; congruence|]. destruct Hr2 as (Hsealed & data & Hd & Hf2).
  exists c, (without_provider id c). split; [done|]. split; [split; [done|]; split; [done|]; by exists data|].
  assert (forall j, provider_of j (without_provider id c) = if bool_decide (j = id) then inl (ENew (Sprintf "no provider %q in config" [AStr j])) else provider_of j c) as Hp.
  { intros j. unfold provider_of. cbn [cg_Providers without_provider]. rewrite keyed_filter_not. by case_bool_decide. }
  split; [eexists; by rewrite Hp, bool_decide_eq_true_2|]. split; [intros j Hj; by rewrite Hp, bool_decide_eq_false_2|]. split; [done|].
  intros Hid. cbn. split; case_bool_decide; congruence.
Qed.
End Adding.

(** ** What drills left is destroyed, and nothing else *)

Section Cleaning.
Context `{AEAD} `{ConfigEnv} `{FactoryEnv} `{ProvisionEnv} `{Terminal} `{CommandEnv}.
Context (client : PveConfig).
Let E : PveEnv := pe_service client.
Definition calls_of (s : Machine) : list exchange := pv_log (mc_service s).

(** The deletions of a list of workloads, in their order, until one does not return. *)
Definition cleaned (ids : list string) (runs : list (list exchange)) (all_done : Prop) : Prop :=
  exists k, Forall2 (fun id new => exists o, gated_run client id new o /\ (all_done -> o = Ret (inr tt))) (firstn k ids) runs /\
    (all_done -> (length ids <= k)%nat).

Lemma undone (P Q : Prop) (R : string -> list exchange -> outcome (error + unit) -> Prop) ids runs : ~ Q ->
  Forall2 (fun id new => exists o, R id new o /\ (P -> o = Ret (inr tt))) ids runs ->
  Forall2 (fun id new => exists o, R id new o /\ (Q -> o = Ret (inr tt))) ids runs.
Proof. intros HQ Hf. eapply Forall2_impl; [exact Hf|]. intros x y (o & Ho & _). by exists o. Qed.

Lemma destroy_all_runs ids s : exists o s' runs, destroy_all client ids s = (o, s') /\ calls_of s' = calls_of s ++ concat runs /\
  cleaned ids runs (o = Ret 0) /\ (forall n, o = Ret n -> 0 <= n).
Proof.
  revert s. induction ids as [|id ids IH]; intros s.
  - exists (Ret 0), s, []. split; [done|]. split; [by rewrite app_nil_r|]. split; [|by intros n [= <-]]. exists 0%nat. split; [done|cbn; lia].
  - cbn [destroy_all]. destruct (@Delete_runs E client id (mc_service s)) as (new & o & w & Ed & Hlog & Hrun). fold E.
    assert (on_service (@Delete E client id) s = (o, set_mc_service w s)) as E1 by (unfold on_service; by rewrite Ed).
    assert (forall o' : outcome Z, (forall n, o' <> Ret n) -> exists o1 s' runs, (o', set_mc_service w s) = (o1, s') /\ calls_of s' = calls_of s ++ concat runs /\
      cleaned (id :: ids) runs (o1 = Ret 0) /\ (forall n, o1 = Ret n -> 0 <= n)) as Hstopped.
    { intros o' Ho. exists o', (set_mc_service w s), [new]. split; [done|]. split; [unfold calls_of; cbn; by rewrite app_nil_r|].
      split; [|by intros n ->; destruct (Ho n)]. exists 1%nat. split; [|by intros Hd; destruct (Ho _ Hd)].
      constructor; [|constructor]. exists o. split; [done|]. intros Hd. by destruct (Ho _ Hd). }
    unfold mbind at 1, M_bind at 1. rewrite E1. destruct o as [r|msg|]; [|by apply Hstopped..]. clear Hstopped.
    destruct (IH (set_mc_service w s)) as (o2 & s2 & runs & E2 & Hl2 & (k & Hk & Hall) & Hn). unfold mbind, M_bind. rewrite E2.
    assert (calls_of s2 = calls_of s ++ concat (new :: runs)) as Hl by (rewrite Hl2; unfold calls_of; cbn; by rewrite Hlog, <- app_assoc).
    destruct o2 as [n|msg|]; (eexists _, s2, (new :: runs); split; [reflexivity|]; split; [done|]).
    + specialize (Hn n eq_refl). split; [|intros m [= <-]; destruct r; lia]. exists (S k). cbn [firstn]. destruct r as [e|[]].
      * assert (Ret (n + 1) <> Ret 0) as Hne by (intros [= ?]; lia). split; [|by intros Hd]. constructor; [by exists (Ret (inl e))|by eapply undone].
      * split; [constructor; [by exists (Ret (inr tt))|done]|]. intros Hd. specialize (Hall Hd). cbn. lia.
    + split; [|done]. exists (S k). split; [|done]. constructor; [by exists (Ret r)|by eapply undone].
    + split; [|done]. exists (S k). split; [|done]. constructor; [by exists (Ret r)|by eapply undone].
Qed.

(** Somebody is at the terminal and answers yes. *)
Definition somebody_agreed : Prop := tm_interactive = true /\ exists t l, tm_line t = Some l /\ ToLower (TrimSpace l) ∈ ["y"; "yes"].
Lemma confirm_answers s : exists b s', confirm s = (Ret b, s') /\ calls_of s' = calls_of s /\ (b = true -> somebody_agreed).
Proof.
  unfold confirm, somebody_agreed. destruct tm_interactive; cbn [negb]; [|by eexists _, _]. unfold mbind, M_bind, outside, on_cli.
  eexists _, _. split; [reflexivity|]. split; [done|]. destruct (tm_line _) as [l|] eqn:El; [|done]. cbv zeta. intros Hb. split; [done|].
  eexists _, l. split; [exact El|]. apply orb_true_iff in Hb as [->%bool_decide_eq_true| ->%bool_decide_eq_true]; set_solver.
Qed.
Lemma ListWorkloads_reads w : exists o w' pre, @ListWorkloads E w = (o, w') /\ pv_log w' = pv_log w ++ pre /\ Forall reading pre.
Proof.
  assert (keeps (grew is_get) (@ListWorkloads E)) as Hk.
  { unfold ListWorkloads. pose proof (@clusterResources_grew E is_get (fun _ H => H) "vm") as Hc. keeps_auto. }
  specialize (Hk w). destruct (@ListWorkloads E w) as [o w'] eqn:Ew. destruct Hk as (pre & Hpre & Hget). by exists o, w', pre.
Qed.

(** [cleanup --all] destroys what drills left, and nothing else. It reads the workloads
    of the cluster; and then, only when it was told not to ask or somebody agreed, it
    deletes those that carry the mark, one after the other, each behind the two gates of a
    deletion (its identifier is in the reserved range, and its configuration, read again,
    carries the mark). It succeeds only if every one of them was destroyed, or if nobody
    agreed, or if there was nothing to destroy. *)
Theorem cleanup_destroys_orphans yes s :
  exists o s' pre runs, destroy_listed client yes s = (o, s') /\ calls_of s' = calls_of s ++ pre ++ concat runs /\ Forall reading pre /\
    (runs = [] \/
     (yes = true \/ somebody_agreed) /\ exists workloads w, @ListWorkloads E (mc_service s) = (Ret (inr workloads), w) /\
       cleaned (orphans workloads) runs (o = Ret (inr tt))).
Proof.
  unfold destroy_listed. destruct (ListWorkloads_reads (mc_service s)) as (o & w & pre & Ew & Hpre & Hget). fold E.
  assert (on_service (@ListWorkloads E) s = (o, set_mc_service w s)) as E1 by (unfold on_service; by rewrite Ew).
  assert (forall o' : outcome (error + unit), forall s', calls_of s' = calls_of s ++ pre -> exists o1 s1 pre runs, (o', s') = (o1, s1) /\
    calls_of s1 = calls_of s ++ pre ++ concat runs /\ Forall reading pre /\ (runs = [] \/ (yes = true \/ somebody_agreed) /\ exists workloads w0,
      (o, w) = (Ret (inr workloads), w0) /\ cleaned (orphans workloads) runs (o1 = Ret (inr tt)))) as Hread.
  { intros o' s' Hs'. exists o', s', pre, []. cbn. rewrite app_nil_r. split_and!; [done|done|done|by left]. }
  rewrite Ew. unfold attempt, mbind at 1, M_bind at 1. rewrite E1. destruct o as [[e|workloads]|msg|]; [by apply Hread| |by apply Hread..].
  destruct (orphans workloads) as [|id ids] eqn:Eo; [by apply Hread|]. rewrite <- Eo.
  assert (exists agreed s1, (if yes then mret true else confirm) (set_mc_service w s) = (Ret agreed, s1) /\ calls_of s1 = calls_of s ++ pre /\
    (agreed = true -> yes = true \/ somebody_agreed)) as (agreed & s1 & Ea & Hl1 & Hag).
  { destruct yes; [by exists true, (set_mc_service w s); split_and!; [| |left]|].
    destruct (confirm_answers (set_mc_service w s)) as (b & s1 & Eb & Hl & Hb). exists b, s1. split_and!; [done|by rewrite Hl|]. intros Hb'. right. by apply Hb. }
  rewrite (bind_Ret _ _ _ _ _ Ea). destruct agreed; cbn [negb]; [|by apply Hread]. clear Hread.
  destruct (destroy_all_runs (orphans workloads) s1) as (o2 & s2 & runs & E2 & Hl2 & Hc & Hn). unfold mbind, M_bind. rewrite E2.
  assert (forall o' : outcome (error + unit), (o' = Ret (inr tt) -> o2 = Ret 0) -> exists o1 s3 pre runs, (o', s2) = (o1, s3) /\
    calls_of s3 = calls_of s ++ pre ++ concat runs /\ Forall reading pre /\ (runs = [] \/ (yes = true \/ somebody_agreed) /\ exists workloads0 w0,
      (Ret (inr workloads), w) = (Ret (inr workloads0) : outcome (error + list Workload), w0) /\ cleaned (orphans workloads0) runs (o1 = Ret (inr tt)))) as Hend.
  { intros o' Ho. exists o', s2, pre, runs. split; [done|]. split; [by rewrite Hl2, Hl1, <- app_assoc|]. split; [done|]. right. split; [by apply Hag|].
    exists workloads, w. split; [done|]. destruct Hc as (k & Hk & Hd). exists k. split.
    - eapply Forall2_impl; [exact Hk|]. intros x y (o1 & Ho1 & Hd1). exists o1. split; [done|]. intros Hr. by apply Hd1, Ho.
    - intros Hr. by apply Hd, Ho. }
  destruct o2 as [n|msg|]; apply Hend; [|done|done]. specialize (Hn n eq_refl). destruct (0 <? n) eqn:En; [done|]. intros _. f_equal. lia.
Qed.
End Cleaning.

(** ** The terminal and the worker agree *)

Section Agreement.
Context `{AEAD} `{ConfigEnv} `{CliEnv} `{FactoryEnv} `{ScheduleEnv} (decode : string -> error + Plan).

Lemma firstNonEmpty_two a b : firstNonEmpty [a; b] = if nonempty a then a else b.
Proof. cbn. destruct (nonempty a); [done|]. by destruct b. Qed.
Lemma firstNonEmpty_skip (l : list string) : firstNonEmpty ("" :: l) = firstNonEmpty l.
Proof. done. Qed.

(** A drill lands the same from a terminal and from the queue. Without flags, what the
    terminal hands the engine for a plan of a named provider is what the worker hands it
    for the same plan when the queue names the plan's two providers: the same clients, and
    the same options but for the identifier of the run. *)
Theorem terminal_lands_like_worker c p q s s' sv l :
  cl_cfg s = Some c -> current c sv ->
  Parse (decode (q_PlanSnapshot q)) = inr p -> wr_Provider (pl_Workload p) <> "" -> wr_Provider (pl_Workload p) = q_ProviderID q ->
  bs_Provider (pl_Backup p) = q_BackupProviderID q ->
  runPlan p no_flags s = (Ret (inr l), s') ->
  s' = s /\ exists sv', prepare_drill decode (Some c) q sv =
    (Ret (inr (mkLaunch p (ln_Hypervisor l) (ln_Backups l)
       (let o := ln_Options l in mkRunOptions (q_ID q) (op_Network o) (op_Node o) (op_Storage o) (op_Pool o) (op_DryRun o) (op_KeepWorkload o)))), sv').
Proof.
  intros Hc Hsv Hp Hne Hprov Hbp. unfold runPlan, attempt. rewrite (bind_Ret _ _ _ _ _ (app_config_loaded _ _ Hc)). cbv zeta.
  cbn [no_flags rf_providerID rf_backupID]. rewrite !firstNonEmpty_skip.
  assert (firstNonEmpty [wr_Provider (pl_Workload p)] = q_ProviderID q) as -> by (rewrite <- Hprov; cbn; by destruct (wr_Provider (pl_Workload p))).
  assert (providerEntry (q_ProviderID q) RoleHypervisor s = (Ret (entry_for (q_ProviderID q) RoleHypervisor c), s)) as He
    by (unfold providerEntry; by rewrite (bind_Ret _ _ _ _ _ (app_config_loaded _ _ Hc))).
  rewrite (bind_Ret _ _ _ _ _ He). destruct (entry_for (q_ProviderID q) RoleHypervisor c) as [|entry] eqn:Ee; [done|].
  pose proof (entry_for_spec _ _ _ _ Ee) as (_ & _ & Hid). rewrite (Hid ltac:(by rewrite <- Hprov)).
  rewrite (bind_Ret _ _ _ _ _ (app_hypervisor_loaded _ _ _ Hc)). destruct (fresh_hypervisor c (q_ProviderID q)) as [|hv] eqn:Eh; [done|].
  rewrite Hbp, (bind_Ret _ _ _ _ _ (app_backups_loaded _ _ _ Hc)). destruct (fresh_backups c _) as [|bp] eqn:Eb; [done|]. rewrite firstNonEmpty_skip in Eb.
  destruct (run_network c p no_flags) as [|net] eqn:En; [done|]. intros [= <- <-]. split; [done|]. unfold prepare_drill. rewrite Hp.
  destruct (Hypervisor_current c sv (q_ProviderID q) Hsv) as (s1 & E1 & Hs1). rewrite (bind_Ret _ _ _ _ _ E1), Eh.
  destruct (Backups_current c s1 (firstNonEmpty [q_BackupProviderID q; q_ProviderID q]) Hs1) as (s2 & E2 & Hs2).
  rewrite (bind_Ret _ _ _ _ _ E2), Eb. assert (resolveNetwork (Some c) p = inr net) as ->.
  { rewrite <- En. unfold resolveNetwork, run_network, no_flags. cbn [rf_network]. rewrite firstNonEmpty_skip. by destruct (ResolveNetwork _ c). }
  exists s2. cbn [ln_Options ln_Hypervisor ln_Backups ln_Plan]. unfold run_options, launch_options, placement. cbn [no_flags rf_node rf_storage rf_pool rf_dryRun rf_keep op_Network op_Node op_Storage op_Pool op_DryRun op_KeepWorkload].
  rewrite !firstNonEmpty_skip, !firstNonEmpty_two. assert (provider_of (q_ProviderID q) c = inr entry) as ->; [|done].
  unfold entry_for in Ee. apply nonempty_spec in Hne. rewrite Hprov in Hne. rewrite !Hne in Ee. cbn [negb] in Ee.
  destruct (provider_of (q_ProviderID q) c) as [|e]; [done|]. destruct (HasRole e RoleHypervisor); [by injection Ee as ->|done].

Qed.
End Agreement.

(** ** Endpoints that are typed *)

Module Typed.
Import Pbs.Datastores.
(** A parser that knows one host, by name and with a port. *)
Definition is_port (s : string) : bool := nonempty s && negb (existsb_char (fun c => negb (is_digit c)) s).
Definition lab (host port : string) : url := mkUrl "https" host "pve" port "" "" "".
Definition lab_read (s : string) : error + url :=
  if bool_decide (s = "https://pve") then inr (lab "pve" "")
  else if HasPrefix s "https://pve:" && is_port (TrimPrefix s "https://pve:")
  then inr (lab ("pve:" +:+ TrimPrefix s "https://pve:") (TrimPrefix s "https://pve:"))
  else if bool_decide (s = "https://[::1]") then inr (mkUrl "https" "[::1]" "::1" "" "" "" "")
  else inl (ENew (Sprintf "parse %q: unknown host" [AStr s])).
#[export] Instance lab_env : CommandEnv := {| url_read := lab_read; cm_token_secret := ""; cm_pbs _ := server |}.

Lemma lab_port port : is_port port = true -> lab_read ("https://pve:" +:+ port) = inr (lab ("pve:" +:+ port) port).
Proof.
  intros Hp. unfold lab_read. rewrite bool_decide_eq_false_2 by (by destruct port). by rewrite HasPrefix_app, TrimPrefix_app, Hp.
Qed.
Lemma lab_inv s u : lab_read s = inr u ->
  u = lab "pve" "" \/ (exists port, is_port port = true /\ u = lab ("pve:" +:+ port) port) \/ u = mkUrl "https" "[::1]" "::1" "" "" "" "".
Proof.
  unfold lab_read. case_bool_decide; [intros [= <-]; by left|]. destruct (HasPrefix _ _ && is_port _) eqn:Hp.
  - apply andb_true_iff in Hp as [_ Hp]. intros [= <-]. right. left. by eexists.
  - case_bool_decide; [|done]. intros [= <-]. by right; right.
Qed.
Lemma is_port_plain port : is_port port = true -> existsb_char (fun c => Ascii.eqb "/" c || is_space c) port = false.
Proof.
  unfold is_port. intros [_ Hd%negb_true_iff]%andb_true_iff. induction port as [|c port IH]; [done|]. cbn in *. apply orb_false_iff in Hd as [Hc Hd].
  rewrite (IH Hd), orb_false_r. by apply digit_plain, negb_false_iff.
Qed.
#[export] Instance lab_laws : UrlLaws.
Proof.
  split.
  - intros raw u [->|[(port & Hp & ->)| ->]]%lab_inv; [done| |done]. split; [|done].
    cbn [lab u_Host]. rewrite existsb_char_app. rewrite (is_port_plain _ Hp). done.
  - intros raw u [->|[(port & Hp & ->)| ->]]%lab_inv _; [done| |done]. by apply lab_port.
  - intros raw u port [->|[(p & Hp & ->)| ->]]%lab_inv _ Hport Hz Hc; [| |done].
    + apply lab_port. unfold is_port. rewrite (digits_only (fun c => negb (is_digit c)) (fun c Hd => f_equal negb Hd) _ Hz). by rewrite (proj2 (nonempty_spec _) (port_there _ Hz)).
    + by apply andb_true_iff in Hp as [Hp%nonempty_spec _].
Qed.

Definition typed : string := " https://pve/ ".
Lemma normalizeEndpoint_idempotent_witness :
  normalizeEndpoint typed proxmoxPort = inr "https://pve:8006" /\ normalizeEndpoint "https://pve:8006" pbsPort = inr "https://pve:8006".
Proof.
  split; [vm_compute; reflexivity|].
  apply (normalizeEndpoint_idempotent typed proxmoxPort pbsPort "https://pve:8006"); [reflexivity|vm_compute; reflexivity|].
  intros u E. vm_compute in E. injection E as <-. reflexivity.
Defined.
(** An address of the sixth version of IP without a port loses its brackets: what is
    kept is not the address of a host and a port any more. *)
Example brackets_are_lost : normalizeEndpoint "https://[::1]" proxmoxPort = inr "https://::1:8006".
Proof. vm_compute. reflexivity. Qed.
Example slash_is_missing : exists e, normalizeEndpoint "https:/pve" proxmoxPort = inl e /\
  e = ENew (Sprintf "invalid endpoint %q: did you mean %q?" [AStr "https:/pve"; AStr "https://pve"]).
Proof. by eexists. Qed.
End Typed.
