(* ===== verification/ApiPlans.v ===== *)
(** * The plans and the schedule of the API

    Models internal/api/plans.go and schedule.go: the handlers over the catalogue of
    plans ([PlanCatalog]) and the table of slots ([Catalog]). *)

From Stdlib Require Import ZArith Lia String Ascii List.
From S2P Require Import Prelude GoTime Errors Core GoString GoStrconv Plan Config Channels Queue Listing Paging Timeline Catalog Confidence Story Credentials ApiBase PlanCatalog Auth.

Section Plans.
Context `{ScheduleEnv} `{ApiEnv} `{Collation} `{Site}.
Abbreviation AM := (M Api).
Abbreviation save_plan := (Save site_dialect yaml_Unmarshal).
Abbreviation stored_plan := (get_plan site_dialect).

(** [newPlanDTO]. *)
Definition newPlanDTO (p : StoredPlan) (withDocument : bool) : json :=
  JObject ([("id", JStr (sp_ID p)); ("name", JStr (sp_Name p))] ++ omitempty "description" (sp_Description p)
    ++ [("workload_id", JStr (sp_WorkloadID p))] ++ omitempty "provider_id" (sp_ProviderID p)
    ++ [("version", JInt (sp_Version p)); ("created_at", json_time (sp_CreatedAt p)); ("updated_at", json_time (sp_UpdatedAt p))]
    ++ (if withDocument then omitempty "yaml" (sp_YAML p) else [])).

Definition plan_problem (r : HttpRequest) (e : api_error) : Response := writeProblem r (problemForPlan e).

(** [handleListPlans] and [handleGetPlan]. *)
Definition handleListPlans : Handler := fun r _ _ =>
  match parseLimit (hr_Query r "limit") with
  | inl msg => mret (writeBadRequest r (Lit msg))
  | inr limit =>
    plans ← list_plans (hr_Query r "workload") limit;
    mret (match plans with
          | inl e => plan_problem r e
          | inr plans => writeJSON (page_json (map (fun p => newPlanDTO p false) plans) "")
          end)
  end.
Definition handleGetPlan : Handler := fun r _ _ =>
  p ← stored_plan (hr_PathValue r "ref");
  mret (match p with
        | inl e => plan_problem r e
        | inr p =>
          if bool_decide (hr_Query r "format" = "yaml") then
            mkResponse 200 [("Content-Type", "application/yaml; charset=utf-8")] None (PayloadText "application/yaml; charset=utf-8" (sp_YAML p))
          else writeJSON (newPlanDTO p true)
        end).

(** [readDocument]. *)
Definition readDocument (r : HttpRequest) : Response + string :=
  match hr_Body r with
  | None => inl (writeBadRequest r (Lit "the body could not be read"))
  | Some raw =>
    let document := limited raw in
    if nonempty document then inr document else inl (writeBadRequest r (Lit "the body must carry the plan document"))
  end.

(** [handleCreatePlan]. *)
Definition handleCreatePlan : Handler := fun r _ _ =>
  match readDocument r with
  | inl answer => mret answer
  | inr document =>
    saved ← save_plan document CreateOnly;
    mret (match saved with
          | inl e => plan_problem r e
          | inr (p, _) => with_header "Location" ("/api/v1/plans/" +:+ sp_ID p) (writeJSONStatus 201 (newPlanDTO p true))
          end)
  end.

(** [parseExpectedVersion]. *)
Definition errBadVersion : text := Lit "version must be a positive integer: it is the version you expect this plan to be at".
Definition parseExpectedVersion (raw : string) : option Z :=
  if negb (nonempty raw) then Some 0 else
  match Atoi raw with Some n => if n <=? 0 then None else Some n | None => None end.

(** [handleUpdatePlan]. *)
Definition rename_refused (r : HttpRequest) (name current : string) : Response :=
  writeProblem r (newProblem "rename-not-supported" "A plan cannot be renamed in place" 409
    (Sprintf "the document names %s, but this URL is %s; delete the old plan and create the new one" [AStr name; AStr current])).
Definition handleUpdatePlan : Handler := fun r _ _ =>
  match parseExpectedVersion (hr_Query r "version") with
  | None => mret (writeBadRequest r errBadVersion)
  | Some expected =>
    current ← stored_plan (hr_PathValue r "ref");
    match current with
    | inl e => mret (plan_problem r e)
    | inr current =>
      match readDocument r with
      | inl answer => mret answer
      | inr document =>
        match Name yaml_Unmarshal document with
        | inl e => mret (plan_problem r e)
        | inr name =>
          if negb (bool_decide (name = sp_Name current)) then mret (rename_refused r name (sp_Name current)) else
          saved ← save_plan document expected;
          mret (match saved with inl e => plan_problem r e | inr (p, _) => writeJSON (newPlanDTO p true) end)
        end
      end
    end
  end.

(** [handleDeletePlan]. *)
Definition no_content : Response := mkResponse 204 [] None PayloadNone.
Definition handleDeletePlan : Handler := fun r _ _ =>
  gone ← Delete site_dialect (hr_PathValue r "ref");
  mret (match gone with inl e => plan_problem r e | inr _ => no_content end).

(** [handleValidatePlan]. *)
Definition validatedDTO (v : Validated) : json :=
  JObject ([("valid", JBool true); ("name", JStr (vd_Name v))] ++ omitempty "description" (vd_Description v)
    ++ [("workload_id", JStr (vd_WorkloadID v))] ++ omitempty "provider_id" (vd_ProviderID v)
    ++ [("normalized_yaml", JStr (vd_Normalised v))] ++ omitempty "proof_level" (vd_ProofLevel v) ++ omitempty "proof_summary" (vd_ProofSummary v)).
Definition handleValidatePlan : Handler := fun r _ _ =>
  mret (match readDocument r with
        | inl answer => answer
        | inr document =>
          match ValidateDocument yaml_Unmarshal yaml_Marshal document with
          | inl e => plan_problem r e
          | inr v => writeJSON (validatedDTO v)
          end
        end).

(** ** The schedule (schedule.go) *)

(** [newSlotDTO]. *)
Definition SlotOutcome_to_string (o : SlotOutcome) : string := match o with SlotQueued => "queued" | SlotSkipped => "skipped" end.
Definition newSlotDTO (s : Slot) (planName : string) : json :=
  JObject ([("plan_id", JStr (slot_PlanID s))] ++ omitempty "plan_name" planName
    ++ [("slot_at", json_time (slot_SlotAt s)); ("decided_at", json_time (slot_DecidedAt s)); ("outcome", JStr (SlotOutcome_to_string (slot_Outcome s)))]
    ++ omit_text "reason" (slot_Reason s) ++ omitempty "run_id" (slot_RunID s)).

(** [scheduledPlanDTO]. *)
Record scheduledPlanDTO := mkScheduledPlanDTO {
  sd_PlanID : string;
  sd_Name : string;
  sd_WorkloadID : string;
  sd_Schedule : string;
  sd_Timezone : string;
  sd_NextSlotAt : option Z;
  sd_Error : text;
  sd_LastSlot : option Slot;
}.
Definition scheduled_json (s : scheduledPlanDTO) : json :=
  JObject ([("plan_id", JStr (sd_PlanID s)); ("name", JStr (sd_Name s)); ("workload_id", JStr (sd_WorkloadID s)); ("schedule", JStr (sd_Schedule s))]
    ++ omitempty "timezone" (sd_Timezone s)
    ++ [("next_slot_at", match sd_NextSlotAt s with Some at_ => json_time at_ | None => JNull end)]
    ++ omit_text "error" (sd_Error s)
    ++ match sd_LastSlot s with Some slot => [("last_slot", newSlotDTO slot (sd_Name s))] | None => [] end).

(** [scheduledPlan]: [None] when the plan has no schedule. *)
Definition scheduledPlan (row : StoredPlan) (now : Z) : AM (option scheduledPlanDTO) :=
  let dto := mkScheduledPlanDTO (sp_ID row) (sp_Name row) (sp_WorkloadID row) in
  match Parse (yaml_Unmarshal (sp_YAML row)) with
  | inl e => mret (Some (dto "" "" None (Sprintf "the stored plan is not valid: %s" [AText (Error e)]) None))
  | inr p =>
    let dto := dto (pl_Schedule p) (pl_ScheduleTimezone p) in
    match ParseSchedule (pl_Schedule p) (pl_ScheduleTimezone p) with
    | inl e => mret (Some (dto None (Error e) None))
    | inr None => mret None
    | inr (Some sched) =>
      last ← read_store (fun s => LastSlot (sp_ID row) (ap_db s));
      let '(slot, err) := match last with
                          | inr slot => (Some slot, Lit "")
                          | inl (EStore (ErrNotFound _)) => (None, Lit "")
                          | inl e => (None, Sprintf "the last slot could not be read: %s" [AText (api_error_text e)])
                          end in
      let after := match slot with Some slot => if Time.After (slot_SlotAt slot) now then slot_SlotAt slot else now | None => now end in
      mret (Some (dto (Some (Next sched after)) err slot))
    end
  end.
Fixpoint scheduled_plans (rows : list StoredPlan) (now : Z) : AM (list scheduledPlanDTO) :=
  match rows with
  | [] => mret []
  | row :: rows =>
    dto ← scheduledPlan row now;
    dtos ← scheduled_plans rows now;
    mret (match dto with Some dto => dto :: dtos | None => dtos end)
  end.

(** [handleGetSchedule]. *)
Definition handleGetSchedule : Handler := fun r _ _ =>
  rows ← list_plans "" 0;
  match rows with
  | inl e => mret (plan_problem r e)
  | inr rows =>
    now ← a_now;
    items ← scheduled_plans rows now;
    mret (writeJSON (page_json (map scheduled_json items) ""))
  end.

(** [handleListSlots]: one lookup of a name for each plan met. *)
Fixpoint named_slots (slots : list Slot) (names : gmap string string) : AM (list json) :=
  match slots with
  | [] => mret []
  | slot :: slots =>
    name ← match names !! slot_PlanID slot with
           | Some name => mret name
           | None =>
             row ← stored_plan (slot_PlanID slot);
             mret (match row with inr row => sp_Name row | inl _ => "" end)
           end;
    rest ← named_slots slots (<[slot_PlanID slot := name]> names);
    mret (newSlotDTO slot name :: rest)
  end.
Definition slot_limit (raw : string) : option Z :=
  if negb (nonempty raw) then Some 0 else
  match Atoi raw with Some n => if n <? 1 then None else Some n | None => None end.
Definition handleListSlots : Handler := fun r _ _ =>
  plan ← (if negb (nonempty (hr_Query r "plan")) then mret (inr "") else
          row ← stored_plan (hr_Query r "plan");
          mret (match row with inl e => inl e | inr row => inr (sp_ID row) end));
  match plan with
  | inl e => mret (plan_problem r e)
  | inr planID =>
    match slot_limit (hr_Query r "limit") with
    | None => mret (writeBadRequest r (Lit "limit must be a positive whole number"))
    | Some limit =>
      slots ← a_read (fun s => inr (ListSlots planID (hr_Query r "workload") limit (ap_db s)));
      match slots with
      | inl e => mret (writeProblem r (problemFor e))
      | inr slots =>
        items ← named_slots slots ∅;
        mret (writeJSON (page_json items ""))
      end
    end
  end.
End Plans.
