(* ===== verification/ApiRuns.v ===== *)
(** * The drills of the API

    Models internal/api/runs.go and trigger.go: the handlers that read runs, and
    those that queue a drill, cancel one, or remove what one left. A client that
    asks for a stream of events, and a report as a page, are not here. *)

From Stdlib Require Import ZArith Lia String Ascii List.
From S2P Require Import Prelude GoTime GoFloat Errors Core GoString GoStrconv Plan Adhoc Config Channels Queue Listing Paging Timeline Catalog Pve Confidence Story Credentials ApiBase PlanCatalog Auth.

(** The states and results that a query can name. *)
Definition all_states : list RunState :=
  [RunQueued; RunDiscoveringBackup; RunPreparing; RunRestoring; RunStarting; RunWaitingForGuest; RunRunningChecks;
   RunGeneratingReport; RunCleaningUp; RunSuccess; RunFailed; RunCancelled; RunCleanupFailed; RunInconclusive].
Definition all_results : list RunResult := [ResultSuccess; ResultDegraded; ResultFailed].
(** The value that a parameter names: the empty one when it is absent, none when no
    row can have it. *)
Definition named_by {A} (show : A -> string) (empty : A) (all : list A) (raw : string) : option A :=
  if negb (nonempty raw) then Some empty else List.find (fun a => bool_decide (show a = raw)) all.

Section Runs.
Context `{ScheduleEnv} `{ApiEnv} `{JSON} `{Collation} `{Site} `{ProviderSet}.
Abbreviation AM := (M Api).

(** [newRunSummaryDTO] and [newRunDTO]. *)
Definition newRunSummaryDTO (r : RunSummary) : list (string * json) :=
  [("id", JStr (sum_ID r)); ("plan_name", JStr (sum_PlanName r))] ++ omitempty "plan_id" (sum_PlanID r)
  ++ [("source_workload_id", JStr (sum_SourceWorkloadID r))] ++ omitempty "source_name" (sum_SourceName r)
  ++ [("state", JStr (RunState_to_string (sum_State r)))] ++ omitempty "result" (RunResult_to_string (sum_Result r))
  ++ [("started_at", json_time (sum_StartedAt r));
      ("completed_at", if Time.IsZero (sum_CompletedAt r) then JNull else json_time (sum_CompletedAt r));
      ("rto_seconds", JFloat (Seconds (sum_RTO r))); ("rto", JStr (FormatDuration (sum_RTO r)))]
  ++ (if sum_RTOTarget r =? 0 then [] else [("rto_target_seconds", JFloat (Seconds (sum_RTOTarget r)))])
  ++ [("rto_exceeded", JBool ((0 <? sum_RTOTarget r) && (sum_RTOTarget r <? sum_RTO r))); ("cleanup_done", JBool (sum_CleanupDone r))]
  ++ omitempty "proof_level" (ProofLevel_to_string (sum_ProofLevel r)).
Definition summary_of (run : RecoveryRun) : RunSummary :=
  mkRunSummary (run_ID run) (run_PlanName run) (run_PlanID run) (run_SourceWorkloadID run) (run_SourceName run) (run_State run)
    (run_Result run) (run_StartedAt run) (run_CompletedAt run) (run_RTO run) (run_RTOTarget run) (run_CleanupDone run) ProofUnknown.
Definition newRunDTO (run : RecoveryRun) : json := JObject (newRunSummaryDTO (summary_of run)).
(** [newQueuedDTO]. *)
Definition started_at (at_ : Z) (s : RunSummary) : RunSummary :=
  mkRunSummary (sum_ID s) (sum_PlanName s) (sum_PlanID s) (sum_SourceWorkloadID s) (sum_SourceName s) (sum_State s) (sum_Result s) at_
    (sum_CompletedAt s) (sum_RTO s) (sum_RTOTarget s) (sum_CleanupDone s) (sum_ProofLevel s).
Definition newQueuedDTO (run : RecoveryRun) (at_ : Z) : json := JObject (newRunSummaryDTO (started_at at_ (summary_of run))).

(** [newEventDTO]. *)
Definition newEventDTO (e : StoredEvent) : json :=
  JObject ([("seq", JInt (se_Seq e)); ("at", json_time (se_At e)); ("state", JStr (RunState_to_string (se_State e)))]
    ++ omitempty "step" (se_Step e) ++ omitempty "status" (StepStatus_to_string (se_Status e)) ++ omit_text "message" (se_Message e)
    ++ match se_Check e with Some c => [("check", NewCheckDTO c)] | None => [] end ++ omit_text "error" (se_Err e)).

(** [parseSince] (page.go), on a clock in UTC. *)
Definition parseSince (s : string) (now : Z) : text + Z :=
  let days := if HasSuffix s "d" then match Atoi (TrimSuffix s "d") with Some n => if 0 <=? n then Some n else None | None => None end else None in
  match days with
  | Some n => inr (now - n * Time.day_ns)
  | None =>
    match ParseDuration s with
    | Some d => if 0 <=? d then inr (Time.Add now (- d)) else inl (Sprintf "could not read %q as a date: use 30d, 12h, 2026-08-01, or an RFC 3339 instant" [AStr s])
    | None =>
      match parse_instant s with
      | Some t => inr t
      | None => inl (Sprintf "could not read %q as a date: use 30d, 12h, 2026-08-01, or an RFC 3339 instant" [AStr s])
      end
    end
  end.

(** The page of a listing, as [handleListRuns] renders what [Paging] reads; a state or
    a result that no run has lists nothing. *)
Definition list_page (limit cursor : string) (f : option Filter) (t : Table) : string + page :=
  match f with
  | Some f => Paging.handleListRuns limit cursor f t
  | None =>
    match parseLimit limit with
    | inl err => inl err
    | inr _ => if nonempty cursor then match decodeCursor cursor with inl err => inl err | inr _ => inr (mkPage [] "") end else inr (mkPage [] "")
    end
  end.
Definition run_filter (r : HttpRequest) (since : Z) : option Filter :=
  match named_by RunState_to_string RunStateEmpty all_states (ToUpper (hr_Query r "state")),
        named_by RunResult_to_string ResultNone all_results (ToUpper (hr_Query r "result")) with
  | Some state, Some result => Some (mkFilter (hr_Query r "workload") state result since 0 None false)
  | _, _ => None
  end.
Definition handleListRuns : Handler := fun r _ _ =>
  match parseLimit (hr_Query r "limit") with
  | inl err => mret (writeBadRequest r (Lit err))
  | inr _ =>
    since ← (if negb (nonempty (hr_Query r "since")) then mret (inr Time.zero) else now ← a_now; mret (parseSince (hr_Query r "since") now));
    match since with
    | inl err => mret (writeBadRequest r err)
    | inr since =>
      match list_page (hr_Query r "limit") (hr_Query r "cursor") (run_filter r since) ∅ with
      | inl err => mret (writeBadRequest r (Lit err))
      | inr _ =>
        pg ← a_read (fun s => match list_page (hr_Query r "limit") (hr_Query r "cursor") (run_filter r since) (db_runs (ap_db s)) with
                              | inl err => inl (EOther (Lit err))
                              | inr pg => inr pg
                              end);
        mret (match pg with
              | inl e => writeProblem r (problemFor e)
              | inr pg => writeJSON (page_json (map (fun s => JObject (newRunSummaryDTO s)) (pg_Items pg)) (pg_NextCursor pg))
              end)
      end
    end
  end.

(** [resolveRun]. *)
Definition run_problem (r : HttpRequest) (e : api_error) : Response :=
  let p := problemFor e in
  writeProblem r (match e with
                  | EStore (ErrNotFound _) =>
                    mkProblem (pb_Type p) (pb_Title p) (pb_Status p) (Sprintf "no recorded drill matches %q" [AStr (hr_PathValue r "id")]) (pb_Instance p)
                  | _ => p
                  end).
Definition read_run_of (ref : string) : AM (api_error + RecoveryRun) :=
  read_store (fun s => GetWholeRun site_dialect ref (timeline_of s)).
Definition resolveRun (r : HttpRequest) : AM (Response + RecoveryRun) :=
  run ← read_run_of (hr_PathValue r "id");
  mret (match run with inl e => inl (run_problem r e) | inr run => inr run end).

(** [handleGetRun], and the page of [handleRunEvents]. *)
Definition handleGetRun : Handler := fun r _ _ =>
  run ← resolveRun r;
  match run with
  | inl answer => mret answer
  | inr run => now ← a_now; mret (writeJSON (NewDocument run now))
  end.
Definition after_param (raw : string) : option Z :=
  if negb (nonempty raw) then Some 0 else
  match Atoi raw with Some n => if n <? 0 then None else Some n | None => None end.
Definition handleRunEvents : Handler := fun r _ _ =>
  run ← resolveRun r;
  match run with
  | inl answer => mret answer
  | inr run =>
    match after_param (hr_Query r "after") with
    | None => mret (writeBadRequest r (Lit "after must be a sequence number"))
    | Some after =>
      events ← a_read (fun s => inr (Events (run_ID run) after (timeline_of s)));
      mret (match events with
            | inl e => writeProblem r (problemFor e)
            | inr events => writeJSON (page_json (map newEventDTO events) "")
            end)
    end
  end.

(** [handleRunReport], for a format other than html. *)
Definition handleRunReport : Handler := fun r _ _ =>
  if negb (bool_decide (hr_Query r "format" ∈ [""; "json"; "html"])) then mret (writeBadRequest r (Lit "format must be json or html")) else
  run ← resolveRun r;
  match run with
  | inl answer => mret answer
  | inr run => now ← a_now; mret (writeJSON (NewDocument run now))
  end.
(** A client that asks for a stream of events, or for a report as a page, gets what is
    not modelled. *)
Definition streamed (r : HttpRequest) : bool :=
  (HasSuffix (hr_Path r) "/events" && Contains (hr_Header r "Accept") "text/event-stream") ||
  (HasSuffix (hr_Path r) "/report" && bool_decide (hr_Query r "format" = "html")).

(** ** Asking for a drill (trigger.go) *)

(** [adhocFields], sorted. *)
Definition adhocFields (q : triggerRequest) : list string :=
  omap (fun f => if (f.2 : bool) then Some f.1 else None)
    [("backup", nonempty (tg_Backup q)); ("checks", negb (bool_decide (tg_Checks q = []))); ("network", nonempty (tg_Network q));
     ("node", nonempty (tg_Node q)); ("pool", nonempty (tg_Pool q)); ("provider", nonempty (tg_Provider q));
     ("rto_target", nonempty (tg_RTOTarget q)); ("skip_startup", tg_SkipStartup q); ("storage", nonempty (tg_Storage q));
     ("workload_id", nonempty (tg_WorkloadID q))].

Definition defaultProvider : string := match site_config with Some c => df_Provider (cg_Defaults c) | None => "" end.
(** [adhocPlanForTrigger]. *)
Definition adhocPlanForTrigger (r : HttpRequest) (q : triggerRequest) : Response + Plan :=
  if negb (nonempty (tg_WorkloadID q)) then inl (writeBadRequest r (Lit "workload_id is required: it names what to recovery-test")) else
  match (if nonempty (tg_RTOTarget q) then ParseDuration (tg_RTOTarget q) else Some 0) with
  | None => inl (writeBadRequest r (Lit "rto_target must be a duration such as 5m"))
  | Some target =>
    let provider := if nonempty (tg_Provider q) then tg_Provider q else defaultProvider in
    match AdhocPlan (mkAdhocOptions (tg_WorkloadID q) provider "" (tg_Backup q) (tg_Node q) (tg_Storage q) (tg_Pool q) (tg_Network q)
                       (tg_Checks q) 0 0 0 target 0 0 (tg_SkipStartup q)) with
    | inl e => inl (writeBadRequest r (Error e))
    | inr p => inr p
    end
  end.
(** [planForTrigger]. *)
Definition mixed_request (r : HttpRequest) (fields : list string) : Response :=
  writeBadRequest r (Sprintf "a request either names a plan or describes a drill, not both: drop %s, or drop %q" [AStr (Join ", " fields); AStr "plan"]).
Definition planForTrigger (r : HttpRequest) (q : triggerRequest) : AM (Response + Plan * option StoredPlan) :=
  if negb (nonempty (tg_Plan q)) then
    mret (match adhocPlanForTrigger r q with inl answer => inl answer | inr p => inr (p, None) end)
  else
    match adhocFields q with
    | _ :: _ => mret (inl (mixed_request r (adhocFields q)))
    | [] =>
      row ← Resolve site_dialect yaml_Unmarshal (tg_Plan q);
      mret (match row with inl e => inl (writeProblem r (problemForPlan e)) | inr (row, p) => inr (p, Some row) end)
    end.

(** [trigger.Enqueue] over the database of the server: what is in flight is read,
    then the run is written. *)
Definition prepare_problem (r : HttpRequest) (e : prepare_error) : Response :=
  match e with
  | AlreadyRunning w a => writeProblem r (newProblem "already-running" "This workload already has a drill in flight" 409 (busy_text w a))
  | NeedsPlan => writeProblem r (problemFor (EOther (Lit "trigger: a request needs a plan")))
  | StoreFailed e => writeProblem r (problemFor (EStore e))
  | MarshalFailed e => writeProblem r (problemFor (ECore e))
  end.
Definition enqueue (r : HttpRequest) (req : Request) : AM (Response + RecoveryRun) :=
  active ← a_read (fun s => inr (ActiveRunForWorkload (match rq_Plan req with Some p => wr_ID (pl_Workload p) | None => "" end) (db_runs (ap_db s))));
  match active with
  | inl e => mret (inl (writeProblem r (problemFor e)))
  | inr active =>
    match Prepare yaml_Marshal (fun _ => inr active) req with
    | inl e => mret (inl (prepare_problem r e))
    | inr pd =>
      written ← a_write (queue_run (pd_Run pd) (pd_PlanYAML pd) (rq_At req));
      mret (match written with inl e => inl (writeProblem r (problemFor e)) | inr _ => inr (pd_Run pd) end)
    end
  end.

(** [handleTriggerRun]. *)
Definition bad_body (r : HttpRequest) : Response := writeBadRequest r (Lit "the body is not the JSON this endpoint expects").
Definition handleTriggerRun : Handler := fun r _ _ =>
  match hr_Body r ≫= (fun raw => json_trigger (limited raw)) with
  | None => mret (bad_body r)
  | Some q =>
    plan ← planForTrigger r q;
    match plan with
    | inl answer => mret answer
    | inr (p, stored) =>
      id ← a_newID;
      now ← a_now;
      queued ← enqueue r (mkRequest (Some p) stored defaultProvider id now);
      match queued with
      | inl answer => mret answer
      | inr run =>
        now ← a_now;
        mret (with_header "Location" ("/api/v1/recovery-runs/" +:+ run_ID run) (writeJSONStatus 201 (newQueuedDTO run now)))
      end
    end
  end.

(** [handleCancelRun]. *)
Definition a_cancel (id : string) (now : Z) : AM (api_error + bool) := a_store (fun s =>
  let '(answer, t) := RequestCancel id now (db_runs (ap_db s)) in
  (match answer with inl e => inl (EStore e) | inr settled => inr settled end,
   set_ap_db (mkDB t (db_plans (ap_db s)) (db_slots (ap_db s))) s)).
Definition handleCancelRun : Handler := fun r _ _ =>
  run ← resolveRun r;
  match run with
  | inl answer => mret answer
  | inr run =>
    now ← a_now;
    settled ← a_cancel (run_ID run) now;
    match settled with
    | inl e => mret (writeProblem r (problemFor e))
    | inr settled =>
      current ← read_run_of (run_ID run);
      mret (match current with
            | inl e => writeProblem r (problemFor e)
            | inr current => writeJSONStatus (if (settled : bool) then 200 else 202) (newRunDTO current)
            end)
    end
  end.

(** [tempIDRange]: the first entry of the provider with both bounds. *)
Definition tempIDRange (providerID : string) : Z * Z :=
  match site_config with
  | None => (DefaultTempIDMin, DefaultTempIDMax)
  | Some c =>
    let id := if nonempty providerID then providerID else df_Provider (cg_Defaults c) in
    match List.find (fun p => bool_decide (prv_ID p = id) && (0 <? prv_TempIDMin p) && (0 <? prv_TempIDMax p)) (cg_Providers c) with
    | Some p => (prv_TempIDMin p, prv_TempIDMax p)
    | None => (DefaultTempIDMin, DefaultTempIDMax)
    end
  end.
(** [handleCleanup]. *)
Definition outside_range (vmid : string) (low high : Z) : bool :=
  match Atoi vmid with Some n => (n <? low) || (high <? n) | None => true end.
Definition cleanup_refused (r : HttpRequest) (vmid : string) (low high : Z) : Response :=
  writeBadRequest r (Sprintf "refusing to clean up %s: RestoreLab only ever creates workloads in its reserved range %d-%d, so anything outside it is not one of ours"
    [AText (Sprintf "%q" [AStr vmid]); AInt low; AInt high]).
Definition handleCleanup : Handler := fun r _ _ =>
  let vmid := hr_PathValue r "vmid" in
  let providerID := hr_Query r "provider" in
  let '(low, high) := tempIDRange providerID in
  if outside_range vmid low high then mret (cleanup_refused r vmid low high) else
  hv ← a_outside (fun n => ps_Hypervisor n providerID);
  match hv with
  | inl e => mret (writeProblem r (problemForUpstream (ECore e)))
  | inr hv =>
    _ ← a_call (AskDelete hv vmid);
    gone ← a_outside (fun n => ps_Delete n hv vmid);
    mret (match gone with
          | Some e => writeProblem r (problemForUpstream (ECore e))
          | None => writeJSON (JObject [("workload_id", JStr vmid); ("removed", JBool true)])
          end)
  end.

(** [newQueueEntryDTO] and [handleQueue]. *)
Definition queue_entry (run : RunSummary) (lease : api_error + string * Z) : json :=
  JObject (newRunSummaryDTO run ++
    match lease with
    | inl _ => []
    | inr (owner, expires) => omitempty "worker" owner ++ (if Time.IsZero expires then [] else [("lease_expires_at", json_time expires)])
    end).
Fixpoint queue_entries (runs : list RunSummary) : AM (list json) :=
  match runs with
  | [] => mret []
  | run :: runs =>
    lease ← read_store (fun s => RunLease (sum_ID run) (db_runs (ap_db s)));
    rest ← queue_entries runs;
    mret (queue_entry run lease :: rest)
  end.
Definition handleQueue : Handler := fun r _ _ =>
  match parseLimit (hr_Query r "limit") with
  | inl err => mret (writeBadRequest r (Lit err))
  | inr limit =>
    runs ← a_read (fun s => inr (ListRuns (mkFilter "" RunStateEmpty ResultNone Time.zero limit None true) (db_runs (ap_db s))));
    match runs with
    | inl e => mret (writeProblem r (problemFor e))
    | inr runs => items ← queue_entries runs; mret (writeJSON (page_json items ""))
    end
  end.
End Runs.
