(* ===== verification/Stream.v ===== *)
(** * The event stream of a run

    Models internal/api/sse.go: the frames that a client following a run is sent, over
    the class [StreamEnv] of what the connection meets (the tables as they are at each
    instant, their faults, the clock, how a wait ends, the JSON library), and a client
    that reconnects with the last identifier it saw. *)

From Stdlib Require Import ZArith Lia String Ascii List.
From stdpp Require Import sorting.
From S2P Require Import Prelude GoTime GoFloat Errors Core GoString GoStrconv GoFmt Queue Timeline Story ApiBase ApiRuns.

Definition sseHeartbeat : Z := 15 * Duration.Second.
Definition ssePoll : Z := Duration.Second.

(** ** What is written to the connection *)

Inductive Frame :=
| FrameEvent (seq : Z) (payload : string)
| FrameDone (state : RunState)
| FrameHeartbeat
| FrameDisconnected (state : RunState).

Definition newline : string := String "010" EmptyString.
Definition json_field (name value : string) : string := quoted name +:+ ":" +:+ value.
Definition frame_text (f : Frame) : string :=
  match f with
  | FrameEvent seq payload =>
    "id: " +:+ pretty seq +:+ newline +:+ "event: progress" +:+ newline +:+ "data: " +:+ payload +:+ newline +:+ newline
  | FrameDone state =>
    "event: done" +:+ newline +:+ "data: {" +:+ json_field "state" (Quote (RunState_to_string state)) +:+ "}" +:+ newline +:+ newline
  | FrameHeartbeat => ": heartbeat" +:+ newline +:+ newline
  | FrameDisconnected state =>
    "event: disconnected" +:+ newline +:+ "data: {" +:+ json_field "state" (Quote (RunState_to_string state)) +:+ "," +:+
    json_field "reason" (quoted "the server is shutting down") +:+ "}" +:+ newline +:+ newline
  end.

(** How the wait between two passes ends. *)
Inductive Ending := WaitGone | WaitStopping | WaitPoll.

(** The world, instant by instant: every call outside takes one. *)
Class StreamEnv := {
  sw_tables : nat -> Timeline;
  sw_down : nat -> bool;
  sw_clock : nat -> Z;
  sw_wait : nat -> Z -> Ending;
  sw_marshal : json -> option string;
  sw_dialect : dialect;
}.

Record Sse := mkSse { sse_instant : nat; sse_frames : list Frame }.

Section Stream.
Context {SE : StreamEnv}.
Abbreviation SM := (M Sse).

Definition later (s : Sse) : Sse := mkSse (S (sse_instant s)) (sse_frames s).
Definition s_outside {A} (f : nat -> A) : SM A := fun s => (Ret (f (sse_instant s)), later s).
Definition s_now : SM Z := s_outside sw_clock.
Definition s_query {A} (f : Timeline -> A) : SM (option A) :=
  s_outside (fun n => if sw_down n then None else Some (f (sw_tables n))).
Definition send (f : Frame) : SM unit := modify (fun s => mkSse (sse_instant s) (sse_frames s ++ [f])).

(** The events of a pass: one that cannot be encoded is passed over. *)
Fixpoint send_events (events : list StoredEvent) (after lastBeat : Z) : SM (Z * Z) :=
  match events with
  | [] => mret (after, lastBeat)
  | e :: events =>
    match sw_marshal (newEventDTO e) with
    | None => send_events events after lastBeat
    | Some payload => _ ← send (FrameEvent (se_Seq e) payload); now ← s_now; send_events events (se_Seq e) now
    end
  end.

(** What a pass learns of the run; none when it could not be read. *)
Definition read_state (runID : string) : SM (option RunState) :=
  current ← s_query (GetWholeRun sw_dialect runID);
  mret (match current with Some (inr run) => Some (run_State run) | _ => None end).
Definition beat (lastBeat : Z) : SM Z :=
  now ← s_now;
  if sseHeartbeat <=? Time.Sub now lastBeat then _ ← send FrameHeartbeat; s_now else mret lastBeat.

(** The loop of [streamEvents]. *)
Fixpoint stream_loop (passes : nat) (runID : string) (after lastBeat : Z) (state : RunState) : SM unit :=
  match passes with
  | O => fun s => (Diverge, s)
  | S passes =>
    events ← s_query (Events runID after);
    match events with
    | None => mret tt
    | Some events =>
      sent ← send_events events after lastBeat;
      found ← read_state runID;
      let state := default state found in
      if match found with Some state => Terminal state | None => false end then send (FrameDone state) else
      lastBeat ← beat sent.2;
      ending ← s_outside (fun n => sw_wait n ssePoll);
      match ending with
      | WaitGone => mret tt
      | WaitStopping => send (FrameDisconnected state)
      | WaitPoll => stream_loop passes runID sent.1 lastBeat state
      end
    end
  end.

(** [streamEvents]: nothing is streamed over a connection that cannot be flushed. *)
Definition last_event_id (raw : string) : Z :=
  if nonempty raw then match Atoi raw with Some n => if 0 <? n then n else 0 | None => 0 end else 0.
Definition stream_headers : list (string * string) :=
  [("Content-Type", "text/event-stream"); ("Cache-Control", "no-cache"); ("Connection", "keep-alive")].
Definition streamEvents (passes : nat) (can_flush : bool) (r : HttpRequest) (run : RecoveryRun) : SM (Response + unit) :=
  if negb can_flush then
    mret (inl (writeProblem r (newProblem "streaming-unsupported" "Streaming is not available" 500 (Lit "this server cannot flush a response"))))
  else
    lastBeat ← s_now;
    over ← stream_loop passes (run_ID run) (last_event_id (hr_Header r "Last-Event-ID")) lastBeat (run_State run);
    mret (inr over).

(** A client that follows a run over several connections: each comes some time after
    the one before, lasts some passes, and resumes on the last identifier it saw. *)
Definition received (frames : list Frame) : list (Z * string) :=
  omap (fun f => match f with FrameEvent seq payload => Some (seq, payload) | _ => None end) frames.
Definition last_seen (frames : list Frame) : Z := default 0 (fst <$> last (received frames)).
Definition resume_header (seq : Z) : string := if seq =? 0 then "" else pretty seq.
Definition resuming (runID : string) (header : string) : HttpRequest :=
  mkHttpRequest "GET" ("/api/v1/recovery-runs/" +:+ runID +:+ "/events") "" true
    (fun name => if bool_decide (name = "Last-Event-ID") then header else "") None (fun _ => "") (fun _ => runID) None.
Fixpoint follow (connections : list (nat * nat)) (run : RecoveryRun) (s : Sse) : Sse :=
  match connections with
  | [] => s
  | (gap, passes) :: connections =>
    let s1 := mkSse (sse_instant s + gap) (sse_frames s) in
    let r := resuming (run_ID run) (resume_header (last_seen (sse_frames s))) in
    follow connections run (streamEvents passes true r run s1).2
  end.
End Stream.

(** ** Every event once *)

(** A run whose events are only appended: an event stays, under its own number, and one
    that is new comes after those that were there. *)
Record appended (runID : string) (t1 t2 : Timeline) : Prop := {
  ap_stays seq e : tl_events t1 !! (runID, seq) = Some e -> tl_events t2 !! (runID, seq) = Some e;
  ap_after seq : is_Some (tl_events t2 !! (runID, seq)) -> tl_events t1 !! (runID, seq) = None ->
    forall seq', is_Some (tl_events t1 !! (runID, seq')) -> seq' < seq;
}.
Definition numbered (runID : string) (t : Timeline) : Prop :=
  forall seq e, tl_events t !! (runID, seq) = Some e -> se_Seq e = seq /\ seq < 2 ^ 63.

Lemma appended_refl runID t : appended runID t t.
Proof. split; [done|]. intros seq Hin E. rewrite E in Hin. by destruct Hin. Qed.
(** What the journal writes: an event under a number of the run that is the next. *)
Lemma AppendEvent_appended `{JSON} runID e t t' : AppendEvent runID e t = Some t' ->
  (forall seq, is_Some (tl_events t !! (runID, seq)) -> seq < se_Seq e) -> appended runID t t'.
Proof.
  intros Hw Hnext. assert (tl_events t !! (runID, se_Seq e) = None) as Hfree.
  { destruct (tl_events t !! (runID, se_Seq e)) as [x|] eqn:E; [|done]. specialize (Hnext (se_Seq e) ltac:(by exists x)). lia. }
  assert (exists check, tl_events t' = <[(runID, se_Seq e) := stored_event e check]> (tl_events t)) as [check E].
  { unfold AppendEvent in Hw. rewrite Hfree in Hw. destruct (se_Check e) as [c|]; [destruct (json_check c) as [c'|]; [|done]|];
      (destruct (has_run runID t); [|done]); injection Hw as <-; by eexists. }
  split; rewrite E.
  - intros seq x Hx. rewrite lookup_insert_ne; [done|]. intros [= <-]. congruence.
  - intros seq Hin Hnone seq' Hin'. destruct (decide (seq = se_Seq e)) as [->|Hne]; [by apply Hnext|].
    rewrite lookup_insert_ne in Hin by (intros [= <-]; done). rewrite Hnone in Hin. by destruct Hin.
Qed.

(** The numbers after one, and those of a table that was appended to. *)
Definition seqs_after (runID : string) (after : Z) (t : Timeline) : list Z := filter (fun seq => after < seq) (seqs_of runID (tl_events t)).
Lemma Events_seqs runID after t : Events runID after t = omap (fun seq => tl_events t !! (runID, seq)) (seqs_after runID after t).
Proof.
  unfold Events, seqs_after. induction (seqs_of runID (tl_events t)) as [|seq l IH]; [done|]. rewrite filter_cons.
  destruct (decide (after < seq)) as [Hlt|Hlt]; cbn.
  - by rewrite (proj2 (Z.ltb_lt _ _) Hlt), IH.
  - by rewrite (proj2 (Z.ltb_ge after seq)), IH by lia.
Qed.
Lemma elem_seqs_after runID after t seq : seq ∈ seqs_after runID after t <-> after < seq /\ is_Some (tl_events t !! (runID, seq)).
Proof. unfold seqs_after. by rewrite list_elem_of_filter, elem_seqs. Qed.
Lemma sorted_seqs_after runID after t : StronglySorted Z.le (seqs_after runID after t).
Proof.
  unfold seqs_after. induction (sorted_seqs runID (tl_events t)) as [|x l Hl IH Hx]; [constructor|]. rewrite filter_cons.
  destruct (decide _); [|done]. constructor; [done|]. rewrite Forall_forall in Hx |- *. intros y [_ Hy]%list_elem_of_filter. by apply Hx.
Qed.
Lemma nodup_seqs_after runID after t : NoDup (seqs_after runID after t).
Proof. apply NoDup_filter, nodup_seqs. Qed.
Definition greatest (l : list Z) : Z := default 0 (last l).
Lemma greatest_spec l : StronglySorted Z.le l -> forall x, x ∈ l -> x <= greatest l.
Proof.
  unfold greatest. induction 1 as [|y l Hl IH Hy]; intros x; [by intros ?%not_elem_of_nil|]. intros [->|Hx]%elem_of_cons.
  - destruct l as [|z l]; [done|]. rewrite last_cons_cons. rewrite Forall_forall in Hy.
    destruct (last (z :: l)) as [w|] eqn:E; [|by apply last_None in E]. apply Hy. by apply last_Some_elem_of.
  - destruct l as [|z l]; [by apply not_elem_of_nil in Hx|]. rewrite last_cons_cons. by apply IH.
Qed.
Lemma greatest_elem l : l = [] /\ greatest l = 0 \/ greatest l ∈ l.
Proof.
  unfold greatest. destruct (last l) as [x|] eqn:E; [right; by apply last_Some_elem_of|left]. by apply last_None in E.
Qed.
Lemma sorted_app_seqs (l1 l2 : list Z) : StronglySorted Z.le l1 -> StronglySorted Z.le l2 ->
  (forall x y, x ∈ l1 -> y ∈ l2 -> x <= y) -> StronglySorted Z.le (l1 ++ l2).
Proof.
  intros H1 H2 H12. induction H1 as [|x l1 Hl IH Hx]; [done|]. cbn. constructor.
  - apply IH. intros y z Hy. apply H12. by right.
  - rewrite Forall_forall in Hx |- *. intros y [Hy|Hy]%elem_of_app; [by apply Hx|]. apply H12; [by left|done].
Qed.
(** What a reader that saw [t1] is missing of [t2] is what comes after the last event
    that it saw. *)
Lemma seqs_resume runID t1 t2 : appended runID t1 t2 ->
  seqs_after runID 0 t2 = seqs_after runID 0 t1 ++ seqs_after runID (greatest (seqs_after runID 0 t1)) t2.
Proof.
  intros [Hs Ha]. set (l1 := seqs_after runID 0 t1). set (g := greatest l1).
  assert (forall x, x ∈ l1 -> x <= g) as Hg by apply greatest_spec, sorted_seqs_after.
  assert (0 <= g) as Hg0. { destruct (greatest_elem l1) as [[_ E]|E%elem_seqs_after]; fold g in E |- *; lia. }
  apply (StronglySorted_unique Z.le); [apply sorted_seqs_after| |].
  - apply sorted_app_seqs; [apply sorted_seqs_after..|]. intros x y Hx [Hy _]%elem_seqs_after. specialize (Hg x Hx). lia.
  - apply NoDup_Permutation; [apply nodup_seqs_after| |].
    + apply NoDup_app. split_and!; [apply nodup_seqs_after| |apply nodup_seqs_after]. intros x Hx [Hy _]%elem_seqs_after. specialize (Hg x Hx). lia.
    + intros x. rewrite elem_of_app, !elem_seqs_after. unfold l1. rewrite elem_seqs_after. split.
      * intros [Hx Hin]. destruct (tl_events t1 !! (runID, x)) as [e|] eqn:E; [left; by eauto|]. right. split; [|done].
        destruct (greatest_elem l1) as [[_ Eg]|[_ Eg]%elem_seqs_after]; fold g in Eg; [lia|]. by apply (Ha x Hin E).
      * intros [[Hx [e He]]|[Hx Hin]]; [split; [done|]; exists e; by apply Hs|split; [lia|done]].
Qed.
Lemma Events_resume runID t1 t2 : appended runID t1 t2 -> 
  Events runID 0 t2 = Events runID 0 t1 ++ Events runID (greatest (seqs_after runID 0 t1)) t2.
Proof.
  intros Ht. rewrite !Events_seqs. rewrite (seqs_resume runID t1 t2 Ht) at 1. rewrite omap_app. f_equal.
  destruct Ht as [Hs _]. assert (Forall (fun x => is_Some (tl_events t1 !! (runID, x))) (seqs_after runID 0 t1)) as Hl.
  { apply Forall_forall. intros x [_ Hx]%elem_seqs_after. done. }
  induction Hl as [|x l [e He] _ IH]; [done|]. cbn. rewrite He, (Hs x e He), IH. done.
Qed.

Section Followed.
Context {SE : StreamEnv} (run : RecoveryRun).
Abbreviation runID := (run_ID run).
Hypothesis Happended : forall i j, (i <= j)%nat -> appended runID (sw_tables i) (sw_tables j).
Hypothesis Hnumbered : forall i, numbered runID (sw_tables i).
Hypothesis Hencoded : forall e, is_Some (sw_marshal (newEventDTO e)).

(** The frames of events, and those of all the events at an instant. *)
Definition framed (e : StoredEvent) : Z * string := (se_Seq e, default "" (sw_marshal (newEventDTO e))).
Definition told_at (m : nat) : list (Z * string) := map framed (Events runID 0 (sw_tables m)).
Lemma Events_numbers after m : map se_Seq (Events runID after (sw_tables m)) = seqs_after runID after (sw_tables m).
Proof.
  rewrite Events_seqs. assert (Forall (fun x => is_Some (tl_events (sw_tables m) !! (runID, x))) (seqs_after runID after (sw_tables m))) as Hl.
  { apply Forall_forall. by intros x [_ Hx]%elem_seqs_after. }
  induction Hl as [|x l [e He] _ IH]; [done|]. cbn. rewrite He. cbn. rewrite IH. f_equal. by apply (Hnumbered m).
Qed.
Lemma last_told m frames : received frames = told_at m -> last_seen frames = greatest (seqs_after runID 0 (sw_tables m)).
Proof.
  intros E. unfold last_seen, greatest. rewrite E, <- Events_numbers. unfold told_at. rewrite <- fmap_last, map_map. done.
Qed.
Lemma last_seen_range m frames : received frames = told_at m -> 0 <= last_seen frames < 2 ^ 63.
Proof.
  intros ->%last_told. destruct (greatest_elem (seqs_after runID 0 (sw_tables m))) as [[_ ->]|[Hp [e He]]%elem_seqs_after]; [lia|].
  destruct (Hnumbered m _ _ He). lia.
Qed.
Lemma resume_read seq : 0 <= seq < 2 ^ 63 -> last_event_id (resume_header seq) = seq.
Proof.
  intros Hs. unfold resume_header, last_event_id. destruct (Z.eqb_spec seq 0) as [->|Hn]; [done|].
  assert (nonempty (pretty seq) = true) as ->.
  { destruct (pretty_read seq ltac:(lia)) as [_ Hh]. destruct (pretty seq); [done|reflexivity]. }
  rewrite Atoi_pretty by lia. by destruct (Z.ltb_spec 0 seq); [|lia].
Qed.

(** What a client has been told, [n0] being the instant it first connected. *)
Definition settled_at (m : nat) (st : RunState) : Prop :=
  exists run', GetWholeRun sw_dialect runID (sw_tables m) = inr run' /\ run_State run' = st /\ Terminal st = true.
(** The frame that ends the stream: the pass that sent it read the events at the
    instant [m], sent those that the client did not have yet, one instant each, and
    then read the state, which is settled; and the client now has every event that
    there was at [m]. *)
Definition event_frames (sent : list (Z * string)) : list Frame := map (fun f => FrameEvent f.1 f.2) sent.
Definition done_properly (n0 : nat) (s : Sse) (st : RunState) : Prop :=
  exists m before sent, let m' := (m + 1 + length sent)%nat in (n0 <= m)%nat /\ (m' < sse_instant s)%nat /\
    sse_frames s = before ++ event_frames sent ++ [FrameDone st] /\
    received (sse_frames s) = told_at m /\ settled_at m' st.
Record faithful (n0 : nat) (s : Sse) : Prop := {
  fa_since : (n0 <= sse_instant s)%nat;
  fa_events : received (sse_frames s) = [] \/ exists m, (n0 <= m < sse_instant s)%nat /\ received (sse_frames s) = told_at m;
  fa_done st : last (sse_frames s) = Some (FrameDone st) -> done_properly n0 s st;
}.
Lemma faithful_later n0 s s' : faithful n0 s -> sse_frames s' = sse_frames s -> (sse_instant s <= sse_instant s')%nat -> faithful n0 s'.
Proof.
  intros [H1 H2 H3] Hf Hi. split; rewrite ?Hf; [lia| |].
  - destruct H2 as [?|(m & ? & ?)]; [by left|right]. exists m. split; [lia|done].
  - intros st Hst. destruct (H3 st Hst) as (m & before & sent & ? & ? & ? & ? & ?). exists m, before, sent. cbv zeta. rewrite Hf.
    split_and!; (done || lia).
Qed.
Lemma received_app f1 f2 : received (f1 ++ f2) = received f1 ++ received f2.
Proof. apply omap_app. Qed.
Lemma faithful_beat n0 s f : faithful n0 s -> match f with FrameHeartbeat | FrameDisconnected _ => True | _ => False end ->
  faithful n0 (mkSse (sse_instant s) (sse_frames s ++ [f])).
Proof.
  intros [H1 H2 H3] Hf. split; cbn; [done| |]; rewrite ?received_app.
  - destruct f; try done; cbn; by rewrite app_nil_r.
  - intros st. rewrite last_snoc. intros [= ->]. done.
Qed.

Lemma send_events_spec events after beat s :
  exists beat' s', send_events events after beat s = (Ret (default after (last (map se_Seq events)), beat'), s') /\
    sse_frames s' = sse_frames s ++ event_frames (map framed events) /\ sse_instant s' = (sse_instant s + length events)%nat.
Proof.
  revert after beat s. induction events as [|e events IH]; intros after beat s.
  { exists beat, s. cbn. rewrite app_nil_r, Nat.add_0_r. by split_and!. }
  cbn [send_events]. destruct (Hencoded e) as [payload Hp]. rewrite Hp.
  set (s1 := later (mkSse (sse_instant s) (sse_frames s ++ [FrameEvent (se_Seq e) payload]))).
  change (exists beat' s', send_events events (se_Seq e) (sw_clock (sse_instant s)) s1 = (Ret (default after (last (map se_Seq (e :: events))), beat'), s') /\
    sse_frames s' = sse_frames s ++ event_frames (map framed (e :: events)) /\ sse_instant s' = (sse_instant s + length (e :: events))%nat).
  destruct (IH (se_Seq e) (sw_clock (sse_instant s)) s1) as (beat' & s' & -> & Hr & Hi).
  exists beat', s'. split_and!.
  - cbn [map]. destruct (map se_Seq events) as [|x l] eqn:E; [done|]. rewrite last_cons_cons. cbn. by destruct (last (x :: l)) eqn:El; [|apply last_None in El].
  - rewrite Hr. unfold s1. cbn [later sse_frames]. rewrite <- app_assoc. cbn. unfold framed at 2. cbn. by rewrite Hp.
  - rewrite Hi. cbn. lia.
Qed.
Lemma received_events sent : received (event_frames sent) = sent.
Proof. unfold received, event_frames. induction sent as [|[seq payload] sent IH]; [done|]. cbn. by rewrite IH. Qed.
Lemma last_event_frames frames sent st : last (frames ++ event_frames sent) = Some (FrameDone st) -> sent = [].
Proof.
  destruct sent as [|f sent] using rev_ind; [done|]. unfold event_frames. rewrite map_app, app_assoc. cbn. rewrite last_snoc. done.
Qed.

(** A pass that read at the instant [m]. *)
Lemma events_read n0 s : faithful n0 s ->
  received (sse_frames s) ++ map framed (Events runID (last_seen (sse_frames s)) (sw_tables (sse_instant s))) = told_at (sse_instant s).
Proof.
  intros [_ [E|(m & Hm & E)] _].
  - unfold last_seen. by rewrite E.
  - rewrite (last_told m _ E), E. unfold told_at. rewrite <- map_app. f_equal. symmetry. apply Events_resume, Happended. lia.
Qed.
Lemma last_seen_app frames frames' events : received frames' = received frames ++ map framed events ->
  last_seen frames' = default (last_seen frames) (last (map se_Seq events)).
Proof.
  intros E. unfold last_seen. rewrite E. destruct events as [|e events] using rev_ind; [cbn; by rewrite app_nil_r|].
  rewrite !map_app, app_assoc. cbn. by rewrite !last_snoc.
Qed.
Lemma beat_faithful n0 beat0 s : faithful n0 s -> exists b s', beat beat0 s = (Ret b, s') /\ faithful n0 s' /\ received (sse_frames s') = received (sse_frames s).
Proof.
  intros Hf. unfold beat. erewrite bind_Ret by reflexivity. destruct (sseHeartbeat <=? _).
  - set (s1 := mkSse (sse_instant (later s)) (sse_frames s ++ [FrameHeartbeat])).
    exists (sw_clock (sse_instant s1)), (later s1). split; [reflexivity|]. split; [|cbn; by rewrite received_app, app_nil_r].
    apply (faithful_later n0 s1); [|done|cbn; lia]. apply (faithful_beat n0 (later s) FrameHeartbeat); [|done]. apply (faithful_later n0 s); [done..|cbn; lia].
  - exists beat0, (later s). split; [done|]. split; [|done]. apply (faithful_later n0 s); [done..|cbn; lia].
Qed.
Lemma stream_loop_faithful n0 passes after beat0 st s : faithful n0 s -> after = last_seen (sse_frames s) ->
  faithful n0 (stream_loop passes runID after beat0 st s).2.
Proof.
  revert after beat0 st s. induction passes as [|passes IH]; intros after beat0 st s Hf ->; [done|]. cbn [stream_loop].
  assert (faithful n0 (later s)) as Hl by (apply (faithful_later n0 s); [done..|cbn; lia]).
  erewrite bind_Ret by reflexivity. destruct (sw_down (sse_instant s)); [exact Hl|].
  set (events := Events runID (last_seen (sse_frames s)) (sw_tables (sse_instant s))).
  destruct (send_events_spec events (last_seen (sse_frames s)) beat0 (later s)) as (beat1 & s2 & E2 & Hf2' & Hi2).
  erewrite bind_Ret by exact E2. cbn [fst snd]. cbn [later sse_frames sse_instant] in Hf2', Hi2.
  assert (received (sse_frames s2) = received (sse_frames s) ++ map framed events) as Hr2 by by rewrite Hf2', received_app, received_events.
  assert (received (sse_frames s2) = told_at (sse_instant s)) as Ht2 by (rewrite Hr2; exact (events_read n0 s Hf)).
  assert (faithful n0 s2) as Hf2.
  { split; [destruct Hl as [? _ _]; cbn in *; lia| |].
    - right. exists (sse_instant s). split; [destruct Hf as [? _ _]; lia|done].
    - intros st' Hst. rewrite Hf2' in Hst. apply last_event_frames in Hst as Hno.
      assert (sse_frames s2 = sse_frames s) as Hsame by by rewrite Hf2', Hno, app_nil_r.
      refine (fa_done n0 s2 _ st' ltac:(by rewrite Hf2')). apply (faithful_later n0 s); [done..|lia]. }
  assert (last_seen (sse_frames s2) = default (last_seen (sse_frames s)) (last (map se_Seq events))) as Hls by by apply last_seen_app.
  assert (exists found, read_state runID s2 = (Ret found, later s2) /\ forall st', found = Some st' -> Terminal st' = true -> settled_at (sse_instant s2) st') as (found & E3 & Hset).
  { unfold read_state. erewrite bind_Ret by reflexivity. eexists. split; [reflexivity|]. intros st'. destruct (sw_down _); [done|].
    destruct (GetWholeRun _ _ _) as [e|run'] eqn:Eg; [done|]. intros [= <-] Hterm. by exists run'. }
  erewrite bind_Ret by exact E3. cbv zeta. set (st1 := default st found).
  assert (faithful n0 (later s2)) as Hl2 by (apply (faithful_later n0 s2); [done..|cbn; lia]).
  destruct (match found with Some state => Terminal state | None => false end) eqn:Eterm.
  - destruct found as [st'|]; [|done]. specialize (Hset st' eq_refl Eterm). cbn [send modify snd]. split; cbn [sse_instant sse_frames later].
    + by apply (fa_since n0 _ Hl2).
    + right. exists (sse_instant s). split; [|rewrite received_app; cbn; by rewrite app_nil_r]. destruct Hf as [? _ _]. lia.
    + intros st''. rewrite last_snoc. intros [= <-]. exists (sse_instant s), (sse_frames s), (map framed events). cbv zeta. cbn [sse_frames sse_instant].
      assert ((sse_instant s + 1 + length (map framed events))%nat = sse_instant s2) as -> by (rewrite length_map, Hi2; lia).
      rewrite received_app. cbn [received omap list_omap]. rewrite app_nil_r.
      destruct Hf as [? _ _]. split_and!; [lia|lia|by rewrite Hf2', <- app_assoc|done|done].
  - destruct (beat_faithful n0 beat1 (later s2) Hl2) as (b & s4 & E4 & Hf4 & Hr4). erewrite bind_Ret by exact E4.
    assert (faithful n0 (later s4)) as Hl4 by (apply (faithful_later n0 s4); [done..|cbn; lia]).
    erewrite bind_Ret by reflexivity. destruct (sw_wait _ _); [exact Hl4|by apply (faithful_beat n0 (later s4) (FrameDisconnected st1))|].
    apply IH; [done|]. unfold last_seen in Hls |- *. cbn [sse_frames later]. by rewrite Hr4, <- Hls.
Qed.

Lemma follow_faithful n0 connections s : faithful n0 s -> faithful n0 (follow connections run s).
Proof.
  revert s. induction connections as [|[gap passes] cs IH]; intros s Hf; [done|]. cbn [follow]. apply IH.
  set (s1 := mkSse (sse_instant s + gap) (sse_frames s)). assert (faithful n0 (later s1)) as Hf1 by (apply (faithful_later n0 s); [done..|cbn; lia]).
  unfold streamEvents. cbn [negb]. erewrite bind_Ret by reflexivity.
  assert (last_event_id (hr_Header (resuming runID (resume_header (last_seen (sse_frames s)))) "Last-Event-ID") = last_seen (sse_frames s)) as ->.
  { apply (resume_read (last_seen (sse_frames s))). destruct (fa_events n0 s Hf) as [E|(m & _ & E)]; [unfold last_seen; rewrite E; cbn; lia|by eapply last_seen_range]. }
  pose proof (stream_loop_faithful n0 passes (last_seen (sse_frames s)) (sw_clock (sse_instant s1)) (run_State run) (later s1) Hf1 eq_refl) as Hloop.
  unfold mbind, M_bind. destruct (stream_loop _ _ _ _ _ _) as [[a|e|] s2]; exact Hloop.
Qed.

(** C31: a client that follows a run misses nothing and hears nothing twice. When the
    events of the run are only appended, under increasing numbers, and each can be
    encoded, then however often the client's connection is cut, whenever it comes back
    and whatever queries fail, if it resumes on the identifier of the last event that it
    received, the events it was sent over all its connections are, in order and each
    once, those the run had at some instant since it first connected. And when the last
    thing it was told is that the run is done, the pass that told it read the events
    first, sent those that were new, and read the state last, with nothing else in
    between: the run was in that settled state at that last reading, and the client has
    every event that the run had at that first one. *)
Theorem every_event_once connections n :
  let s := follow connections run (mkSse n []) in
  (received (sse_frames s) = [] \/ exists m, (n <= m < sse_instant s)%nat /\ received (sse_frames s) = told_at m) /\
  forall st, last (sse_frames s) = Some (FrameDone st) ->
    exists m before sent, let m' := (m + 1 + length sent)%nat in (n <= m)%nat /\ (m' < sse_instant s)%nat /\
      sse_frames s = before ++ event_frames sent ++ [FrameDone st] /\
      received (sse_frames s) = told_at m /\ settled_at m' st.
Proof.
  intros s. assert (faithful n s) as [_ H1 H2]; [|by split]. apply follow_faithful. split; [done|by left|done].
Qed.
End Followed.

(** ** The theorems at work *)

Module Streaming.
Definition note (seq : Z) (step : string) : StoredEvent := mkStoredEvent seq 6 RunRestoring step StepDone (Lit "") None (Lit "").
Definition tables (state : RunState) (events : list StoredEvent) : Timeline :=
  mkTimeline {["r1" := with_state state (queued_row sample_run "yaml" 5)]} ∅ ∅ (list_to_map (map (fun e => (("r1", se_Seq e), e)) events)) ∅.
Definition first : list StoredEvent := [note 1 "allocate"; note 2 "restore"].
(** The drill restores until the fifth instant, and is then over. *)
Definition at_ (i : nat) : Timeline :=
  if (i <? 5)%nat then tables RunRestoring first else tables RunFailed (first ++ [note 3 "cleanup"]).
Definition encoded (j : json) : option string := match j with JObject (("seq", JInt seq) :: _) => Some (pretty seq) | _ => Some "" end.
Definition world (wait : nat -> Ending) : StreamEnv := {|
  sw_tables := at_; sw_down i := (i =? 11)%nat; sw_clock i := Z.of_nat i * Duration.Second;
  sw_wait i _ := wait i; sw_marshal := encoded; sw_dialect := SQLite |}.
(** The first connection is cut after a pass, the second one meets a database that is
    away, the third one sees the run settle. *)
Definition cut : nat -> Ending := fun i => if (i <? 9)%nat then WaitGone else WaitPoll.
Definition visits : list (nat * nat) := [(0, 4); (3, 4); (0, 4)]%nat.

Lemma tables_numbered state events : Forall (fun e => se_Seq e < 2 ^ 63) events -> numbered "r1" (tables state events).
Proof.
  intros Hf seq e He%elem_of_list_to_map_2. apply list_elem_of_fmap in He as (e' & Eq & Hin).
  injection Eq as -> ->. rewrite Forall_forall in Hf. split; [done|]. by apply Hf.
Qed.
Lemma at_numbered i : numbered "r1" (at_ i).
Proof. unfold at_. destruct (i <? 5)%nat; apply tables_numbered; repeat constructor. Qed.
Lemma at_appended i j : (i <= j)%nat -> appended "r1" (at_ i) (at_ j).
Proof.
  intros Hij. unfold at_. destruct (Nat.ltb_spec i 5), (Nat.ltb_spec j 5); try (apply appended_refl || lia).
  assert (forall seq, tl_events (tables RunFailed (first ++ [note 3 "cleanup"])) !! ("r1", seq) =
    if decide (seq = 3) then Some (note 3 "cleanup") else tl_events (tables RunRestoring first) !! ("r1", seq)) as E.
  { intros seq. cbn [tl_events tables first app map list_to_map foldr uncurry note se_Seq].
    destruct (decide (seq = 3)) as [->|Hne]; [reflexivity|].
    destruct (decide (seq = 1)) as [->|Hn1]; [reflexivity|]. destruct (decide (seq = 2)) as [->|Hn2]; [reflexivity|].
    rewrite !lookup_insert_ne by (intros [= <-]; done). done. }
  assert (forall seq, is_Some (tl_events (tables RunRestoring first) !! ("r1", seq)) -> seq < 3) as Hlt.
  { intros seq [e He%elem_of_list_to_map_2]. cbn in He. rewrite !elem_of_cons in He. destruct He as [?|[?|?%not_elem_of_nil]]; [simplify_eq..|done]; lia. }
  split; setoid_rewrite E.
  - intros seq e He. destruct (decide (seq = 3)) as [->|]; [|done]. specialize (Hlt 3 ltac:(by exists e)). lia.
  - intros seq Hin Hnone seq' Hin'. destruct (decide (seq = 3)) as [->|]; [by apply Hlt|]. rewrite Hnone in Hin. by destruct Hin.
Qed.
Lemma encodes wait e : is_Some (sw_marshal (StreamEnv := world wait) (newEventDTO e)).
Proof. eexists. reflexivity. Qed.

Lemma every_event_once_witness :
  let s := @follow (world cut) visits sample_run (mkSse 0 []) in
  sse_frames s = [FrameEvent 1 "1"; FrameEvent 2 "2"; FrameEvent 3 "3"; FrameDone RunFailed] /\
  exists m before sent, let m' := (m + 1 + length sent)%nat in (0 <= m)%nat /\ (m' < sse_instant s)%nat /\
    sse_frames s = before ++ event_frames sent ++ [FrameDone RunFailed] /\
    received (sse_frames s) = @told_at (world cut) sample_run m /\ @settled_at (world cut) sample_run m' RunFailed.
Proof.
  split; [vm_compute; reflexivity|].
  apply (@every_event_once (world cut) sample_run at_appended at_numbered (encodes cut) visits 0%nat). vm_compute. reflexivity.
Defined.

(** An event that is written between the two reads of the pass that ends the stream is
    never sent: what the run had just before is all that the theorem promises. *)
Example the_last_event_is_lost :
  let s := @follow (world (fun _ => WaitPoll)) [(3, 4)]%nat sample_run (mkSse 0 []) in
  received (sse_frames s) = [(1, "1"); (2, "2")] /\ last (sse_frames s) = Some (FrameDone RunFailed).
Proof. vm_compute. by split. Qed.
End Streaming.
