(* ===== verification/ApiChannels.v ===== *)
(** * The notification channels of the API

    Models internal/api/notifications.go: the handlers that list, write, remove and
    try the channels of a server ([Channels]). *)

From Stdlib Require Import ZArith Lia String Ascii List.
From S2P Require Import Prelude GoTime GoFloat Errors Core GoString GoStrconv GoFmt Base64 Secrets Config Channels Queue Listing Catalog Confidence Story Deliveries Dispatcher Credentials ApiBase Auth ApiPlans.

(** [DeliveryState], as it is written. *)
Definition DeliveryState_to_string (s : DeliveryState) : string :=
  match s with DeliveryPending => "pending" | DeliverySent => "sent" | DeliveryFailed => "failed" end.

(** [sampleMessage]: the transition that [Decide] finds, or the zero value. *)
Definition sampleMessage (now : Z) : Message :=
  let current := mkStory ResultSuccess ProofService in
  let previous := Some (mkStory ResultFailed ProofBoot) in
  let transition := default (mkTransition KindVerdict current previous (Lit "")) (Decide RunSuccess current previous false) in
  mkMessage "restorelab notification test" "test" "sent by hand, no drill ran" "test" "" now transition (3 * Duration.Minute).
Example sample_headline : tr_Headline (ms_Transition (sampleMessage 0)) = Sprintf "%s, was %s" [AStr "SUCCESS"; AStr "FAILED"].
Proof. reflexivity. Qed.

Section Notifications.
Context `{AEAD} `{ConfigEnv} `{CliEnv} `{Collation} `{ApiEnv} `{Site} `{ProviderSet}.
Abbreviation AM := (M Api).

(** [notificationDTO]: a channel, and its last delivery. *)
Definition last_fields (last : option Delivery) : list (string * json) :=
  match last with
  | None => []
  | Some d =>
    [("last_state", JStr (DeliveryState_to_string (dl_State d)))]
    ++ (if Time.IsZero (dl_SentAt d) then [] else [("last_sent", json_time (dl_SentAt d))])
    ++ omit_zero "last_status" (dl_Status d) ++ omit_text "last_error" (dl_Err d)
  end.
Definition newNotificationDTO (ch : NotificationChannel) (last : option Delivery) : json :=
  JObject ([("id", JStr (nc_ID ch)); ("kind", JStr (nc_Kind ch)); ("host", JStr (nc_Host ch)); ("enabled", JBool (nc_Enabled ch))]
    ++ last_fields last).

(** [channels] and [findChannel]. *)
Definition notifications_unavailable (r : HttpRequest) : Response :=
  writeProblem r (newProblem "notifications-unavailable" "Notification channels are unavailable" 503
    (Lit "this RestoreLab was started without a configuration file to write back to; configure channels with `restorelab notify add`")).
Definition no_such_channel (r : HttpRequest) (id : string) : Response :=
  writeProblem r (newProblem "not-found" "No such notification channel" 404 (Sprintf "no channel is configured with the id %s" [AStr id])).
Definition with_channels (r : HttpRequest) (k : AM Response) : AM Response :=
  if site_channels then k else mret (notifications_unavailable r).
Definition channel_called (id : string) (l : list NotificationChannel) : option NotificationChannel :=
  List.find (fun ch => bool_decide (nc_ID ch = id)) l.
Definition findChannel (r : HttpRequest) (k : NotificationChannel -> AM Response) : AM Response :=
  with_channels r (
    l ← a_cli Channels;
    match channel_called (hr_PathValue r "id") l with
    | None => mret (no_such_channel r (hr_PathValue r "id"))
    | Some ch => k ch
    end).

(** [withLastDeliveries]: nothing is read for an empty page, and a fault leaves it as
    it is. *)
Definition deliveries_db (s : Api) : NotifyDB := mkNotifyDB (db_runs (ap_db s)) ∅ ∅ (ap_deliveries s).
Definition withLastDeliveries (items : list NotificationChannel) : AM (list json) :=
  match items with
  | [] => mret []
  | _ =>
    last ← a_read (fun s => inr (LastDeliveries (map nc_ID items) (deliveries_db s)));
    mret (match last with
          | inl _ => map (fun ch => newNotificationDTO ch None) items
          | inr last => map (fun ch => newNotificationDTO ch (last !! nc_ID ch)) items
          end)
  end.

(** [readBack]. *)
Definition readBack (r : HttpRequest) (id : string) (answer : json -> Response) : AM Response :=
  l ← a_cli Channels;
  match channel_called id l with
  | None => mret (writeProblem r (newProblem "internal" "Internal error" 500 (Lit "the channel was saved but could not be read back")))
  | Some ch =>
    items ← withLastDeliveries [ch];
    mret (answer (default JNull (head items)))
  end.

(** [readNotification], and what is refused of it. *)
Definition readNotification (r : HttpRequest) : Response + notificationRequest :=
  match hr_Body r ≫= (fun raw => json_notification (limited raw)) with
  | None => inl (writeBadRequest r (Lit "the body is not the JSON this endpoint expects"))
  | Some q => inr q
  end.
Definition validNotificationID (r : HttpRequest) (id : string) : option Response :=
  if negb (nonempty id) then Some (writeBadRequest r (Lit "id is required: it is how this channel is named everywhere else"))
  else if ContainsAny id (String "/" (String " " (String "009" EmptyString))) then
    Some (writeBadRequest r (Lit "id must not contain a slash or a space: it is a path segment"))
  else None.
Definition writeInvalidKind (r : HttpRequest) (kind : string) : Response :=
  writeProblem r (newProblem "invalid-channel-kind" "That is not a channel RestoreLab can render for" 400
    (Sprintf "kind %q is not supported: use one of %s" [AStr kind; AStr (Join ", " ["discord"; "slack"; "webhook"])])).
Definition validNotificationKind (r : HttpRequest) (kind : string) : option Response :=
  match ChannelFor kind with None => Some (writeInvalidKind r kind) | Some _ => None end.
Definition validNotificationURL (r : HttpRequest) (raw : string) : option Response :=
  match ValidateNotificationURL raw with
  | Some err => Some (writeProblem r (newProblem "invalid-channel-url" "That webhook URL cannot be used" 400 (Error err)))
  | None => None
  end.
Definition id_taken (r : HttpRequest) (id : string) : Response :=
  writeProblem r (newProblem "id-taken" "That channel id is already used" 409
    (Sprintf "a channel called %s already exists: edit it, or choose another id" [AStr id])).

(** [handleListNotifications]. *)
Definition handleListNotifications : Handler := fun r _ _ =>
  with_channels r (l ← a_cli Channels; items ← withLastDeliveries l; mret (writeJSON (page_json items ""))).

(** A channel saved, then read back. *)
Definition save_and_answer (r : HttpRequest) (ch : NotificationChannel) (target : string) (answer : json -> Response) : AM Response :=
  err ← a_cli (SaveChannel ch target);
  match err with
  | Some e => mret (writeProblem r (problemFor (ECore e)))
  | None => readBack r (nc_ID ch) answer
  end.

(** [handleCreateNotification]. *)
Definition created_refusal (r : HttpRequest) (q : notificationRequest) : option Response :=
  match validNotificationKind r (nr_Kind q) with
  | Some answer => Some answer
  | None =>
    if negb (nonempty (nr_URL q)) then
      Some (writeBadRequest r (Lit "url is required: a channel with no destination would never send anything"))
    else validNotificationURL r (nr_URL q)
  end.
Definition handleCreateNotification : Handler := fun r _ _ =>
  with_channels r (
    match readNotification r with
    | inl answer => mret answer
    | inr q =>
      match validNotificationID r (nr_ID q) with
      | Some answer => mret answer
      | None =>
        l ← a_cli Channels;
        match channel_called (nr_ID q) l with
        | Some _ => mret (id_taken r (nr_ID q))
        | None =>
          match created_refusal r q with
          | Some answer => mret answer
          | None =>
            save_and_answer r (mkNotificationChannel (nr_ID q) (nr_Kind q) "" (default true (nr_Enabled q))) (nr_URL q)
              (fun saved => with_header "Location" ("/api/v1/notifications/" +:+ nr_ID q) (writeJSONStatus 201 saved))
          end
        end
      end
    end).

(** [handleUpdateNotification]: a field that is absent keeps what is stored. *)
Definition updated_refusal (r : HttpRequest) (q : notificationRequest) : option Response :=
  match (if nonempty (nr_Kind q) then validNotificationKind r (nr_Kind q) else None) with
  | Some answer => Some answer
  | None => if nonempty (nr_URL q) then validNotificationURL r (nr_URL q) else None
  end.
Definition handleUpdateNotification : Handler := fun r _ _ =>
  findChannel r (fun current =>
    match readNotification r with
    | inl answer => mret answer
    | inr q =>
      match updated_refusal r q with
      | Some answer => mret answer
      | None =>
        let kind := if nonempty (nr_Kind q) then nr_Kind q else nc_Kind current in
        save_and_answer r (mkNotificationChannel (nc_ID current) kind (nc_Host current) (default (nc_Enabled current) (nr_Enabled q)))
          (nr_URL q) writeJSON
      end
    end).

(** [handleDeleteNotification]. *)
Definition handleDeleteNotification : Handler := fun r _ _ =>
  findChannel r (fun ch =>
    err ← a_cli (RemoveChannel (nc_ID ch));
    mret (match err with Some e => writeProblem r (problemFor (ECore e)) | None => no_content end)).

(** [refusedChannelProblem]. *)
Definition refusedChannelProblem (status : Z) (err : error) (target : string) : Problem :=
  let detail := if nonempty target && Contains (GoFmt.render (Error err)) target then Lit "the channel could not be reached" else Error err in
  let detail := if 0 <? status then Sprintf "the channel answered %s: %s" [AStr (StatusText status); AText detail] else detail in
  newProblem "channel-refused" "The channel refused the message" 502 detail.

(** [handleTestNotification]: one message, and nothing is recorded. *)
Definition channel_unusable (r : HttpRequest) (e : error) : Response :=
  writeProblem r (newProblem "channel-unusable" "This channel's webhook URL cannot be read" 500
    (Sprintf "re-add the channel so its url is sealed with the current master key: %s" [AText (Error e)])).
Definition handleTestNotification : Handler := fun r _ _ =>
  findChannel r (fun ch =>
    match ChannelFor (nc_Kind ch) with
    | None => mret (writeInvalidKind r (nc_Kind ch))
    | Some render =>
      now ← a_now;
      let body := render (sampleMessage now) in
      target ← a_cli (ChannelTarget (nc_ID ch));
      match target with
      | inl e => mret (channel_unusable r e)
      | inr target =>
        _ ← a_call (AskPost target body);
        res ← a_outside (fun n => Post (sender_Do n target body) (sender_ctx n));
        match rs_Err res with
        | Some e => mret (writeProblem r (refusedChannelProblem (rs_Status res) e target))
        | None =>
          now ← a_now;
          mret (writeJSON (JObject [("id", JStr (nc_ID ch)); ("kind", JStr (nc_Kind ch)); ("status", JInt (rs_Status res)); ("sent_at", json_time now)]))
        end
      end
    end).
End Notifications.
