(* ===== verification/ApiWorkloads.v ===== *)
(** * The workloads of the API

    Models internal/api/workloads.go, with the providers and the diagnosis of meta.go
    and the health of server.go: what a server says of the clusters it is connected to. *)

From Stdlib Require Import ZArith Lia String Ascii List.
From S2P Require Import Prelude GoTime GoFloat Errors Core GoString Secrets Plan Config Channels Queue Listing Timeline Catalog Confidence Story Deliveries Dispatcher Diag Credentials ApiBase Auth ApiRuns ApiChannels.

Definition confidenceHistoryDepth : Z := 20.

Definition WorkloadKind_to_string (k : WorkloadKind) : string :=
  match k with WorkloadKindVM => "vm" | WorkloadKindContainer => "container" | WorkloadKindUnknown => "unknown" end.
Definition omit_list (name : string) (l : list string) : list (string * json) :=
  match l with [] => [] | _ => [(name, JArray (map JStr l))] end.

(** [newWorkloadDTO], [applyLastRun] and [newWorkloadStatusDTO]. *)
Definition last_run_fields (last : option RunSummary) : list (string * json) :=
  match last with
  | None => []
  | Some run =>
    omitempty "last_run_id" (sum_ID run)
    ++ (if Time.IsZero (sum_StartedAt run) then [] else [("last_run_at", json_time (sum_StartedAt run))])
    ++ omitempty "last_run_state" (RunState_to_string (sum_State run)) ++ omitempty "last_run_result" (RunResult_to_string (sum_Result run))
    ++ omitempty "last_run_proof" (ProofLevel_to_string (sum_ProofLevel run))
  end.
Definition newWorkloadStatusDTO (s : WorkloadStatus) : json :=
  JObject ([("power_state", JStr (PowerState_to_string (ws_PowerState s))); ("uptime_seconds", JFloat (Seconds (ws_Uptime s)));
            ("agent_ready", JBool (ws_AgentReady s))]
    ++ omit_list "ips" (ws_IPs s) ++ [("cpu_usage", JFloat (ws_CPUUsage s)); ("memory_bytes", JInt (ws_MemoryBytes s))]).
Definition newWorkloadDTO (w : Workload) (last : option RunSummary) (status : option WorkloadStatus) : json :=
  JObject ([("id", JStr (wl_ID w)); ("name", JStr (wl_Name w)); ("kind", JStr (WorkloadKind_to_string (wl_Kind w)))]
    ++ omitempty "node" (wl_Node w) ++ omitempty "cluster" (wl_Cluster w) ++ omit_list "tags" (wl_Tags w)
    ++ [("cpu_cores", JInt (wl_CPUCores w)); ("memory_bytes", JInt (wl_MemoryBytes w)); ("disk_bytes", JInt (wl_DiskBytes w));
        ("power_state", JStr (PowerState_to_string (wl_PowerState w))); ("template", JBool (wl_Template w)); ("managed", JBool (wl_Managed w))]
    ++ omitempty "recovery_run_id" (wl_RecoveryRunID w) ++ last_run_fields last
    ++ match status with Some s => [("status", newWorkloadStatusDTO s)] | None => [] end).

(** [newProviderDTO] (meta.go). *)
Definition newProviderDTO (cfg : option Config) (p : Provider) : json :=
  JObject ([("id", JStr (prv_ID p)); ("kind", JStr (prv_Kind p))] ++ omit_list "roles" (prv_Roles p)
    ++ [("endpoint", JStr (prv_Endpoint p))] ++ omitempty "node" (prv_Node p) ++ omitempty "datastore" (prv_Datastore p)
    ++ [("insecure", JBool (prv_Insecure p))]
    ++ match cfg with
       | Some c => if bool_decide (df_Provider (cg_Defaults c) = prv_ID p) then [("default", JBool true)] else []
       | None => []
       end).

(** [runFromSummary]. *)
Definition runFromSummary (s : RunSummary) : RecoveryRun :=
  mkRecoveryRun (sum_ID s) "" "" 0 "" "" (sum_SourceWorkloadID s) "" "" "" "" None (sum_State s) (sum_Result s) (sum_ProofLevel s)
    (sum_StartedAt s) (sum_CompletedAt s) [] [] (sum_RTO s) (sum_RTOTarget s) (sum_CleanupDone s) (Lit "").

Section Workloads.
Context `{AEAD} `{ConfigEnv} `{CliEnv} `{Collation} `{ApiEnv} `{Site} `{ProviderSet}.
Abbreviation AM := (M Api).

(** [withLastRuns]: nothing is read for an empty page, and a fault leaves it as it
    is. *)
Definition withLastRuns (items : list Workload) : AM (Workload -> option RunSummary) :=
  match items with
  | [] => mret (fun _ => None)
  | _ =>
    last ← a_read (fun s => inr (LastRuns (map wl_ID items) (db_runs (ap_db s))));
    mret (match last with inl _ => fun _ => None | inr last => fun w => last !! wl_ID w end)
  end.

(** [writeProviderProblem], [hypervisor] and [backups]. *)
Definition writeProviderProblem (r : HttpRequest) (id : string) (e : error) : Response :=
  if nonempty id then
    writeProblem r (newProblem "no-such-provider" "No such provider" 404 (Sprintf "no usable provider %q: %s" [AStr id; AText (Error e)]))
  else writeProblem r (newProblem "provider-unavailable" "No usable provider" 503 (Error e)).
Definition with_provider (find : nat -> string -> error + string) (r : HttpRequest) (k : string -> AM Response) : AM Response :=
  client ← a_outside (fun n => find n (hr_Query r "provider"));
  match client with
  | inl e => mret (writeProviderProblem r (hr_Query r "provider") e)
  | inr client => k client
  end.
(** A question to a cluster. *)
Definition a_ask {A} (what : string) (f : nat -> A) : AM A := _ ← a_call (AskRead what); a_outside f.

(** [handleListWorkloads]. *)
Definition listed (temporary : bool) (w : Workload) : bool := negb (wl_Template w) && (negb (wl_Managed w) || temporary).
Definition handleListWorkloads : Handler := fun r _ _ =>
  with_provider ps_Hypervisor r (fun hv =>
    workloads ← a_ask "ListWorkloads" (fun n => ps_ListWorkloads n hv);
    match workloads with
    | inl e => mret (writeProblem r (problemForUpstream (ECore e)))
    | inr workloads =>
      let items := List.filter (listed (bool_decide (hr_Query r "temporary" = "true"))) workloads in
      last ← withLastRuns items;
      mret (writeJSON (page_json (map (fun w => newWorkloadDTO w (last w) None) items) ""))
    end).

(** [handleGetWorkload]. *)
Definition handleGetWorkload : Handler := fun r _ _ =>
  with_provider ps_Hypervisor r (fun hv =>
    w ← a_ask "GetWorkload" (fun n => ps_GetWorkload n hv (hr_PathValue r "id"));
    match w with
    | inl e => mret (writeProblem r (problemForUpstream (ECore e)))
    | inr w =>
      status ← a_ask "GetStatus" (fun n => ps_GetStatus n hv (wl_ID w));
      last ← withLastRuns [w];
      mret (writeJSON (newWorkloadDTO w (last w) (match status with inr s => Some s | inl _ => None end)))
    end).

(** [handleWorkloadBackups]: no backup is an empty list; the clock is read for each. *)
Fixpoint backup_items (l : list Backup) : AM (list json) :=
  match l with
  | [] => mret []
  | b :: l => now ← a_now; rest ← backup_items l; mret (NewBackupDTOAt (Some b) now site_time_Now :: rest)
  end.
Definition handleWorkloadBackups : Handler := fun r _ _ =>
  with_provider ps_Backups r (fun bp =>
    backups ← a_ask "ListBackups" (fun n => ps_ListBackups n bp (hr_PathValue r "id"));
    match backups with
    | inl e =>
      if Is e ErrNoBackup then mret (writeJSON (page_json [] ""))
      else mret (writeProblem r (problemForUpstream (ECore e)))
    | inr backups => items ← backup_items backups; mret (writeJSON (page_json items ""))
    end).

(** [handleWorkloadConfidence]: the last twenty drills, and the last backup when it
    can be looked up. *)
Definition latest_backup_at (r : HttpRequest) : AM Z :=
  bp ← a_outside (fun n => ps_Backups n (hr_Query r "provider"));
  match bp with
  | inl _ => mret Time.zero
  | inr bp =>
    backup ← a_ask "GetLatestBackup" (fun n => ps_GetLatestBackup n bp (hr_PathValue r "id"));
    mret (match backup with inr (Some b) => bk_CreatedAt b | _ => Time.zero end)
  end.
Definition confidence_input (runs : list RunSummary) (backup now : Z) : ConfidenceInput :=
  match map runFromSummary runs with
  | [] => mkConfidenceInput None [] backup now
  | last :: history => mkConfidenceInput (Some last) (map Some history) backup now
  end.
Definition confidence_json (id : string) (runs : list RunSummary) (score : Confidence) : json :=
  JObject ([("workload_id", JStr id); ("score", if cf_Tested score then JInt (cf_Score score) else JNull); ("tested", JBool (cf_Tested score));
            ("reasons", JArray (map JText (cf_Reasons score)))]
    ++ (if cf_Tested score then match runs with run :: _ => omitempty "last_run_id" (sum_ID run) | [] => [] end else [])
    ++ [("runs_considered", JInt (Z.of_nat (length runs)))]
    ++ (if Recorded (cf_Proof score) then
          omitempty "proof_level" (ProofLevel_to_string (cf_Proof score))
          ++ (if 0 <? ProofCap site_weights (cf_Proof score) then [("proof_cap", JInt (ProofCap site_weights (cf_Proof score)))] else [])
        else [])).
Definition handleWorkloadConfidence : Handler := fun r _ _ =>
  let id := hr_PathValue r "id" in
  runs ← a_read (fun s => inr (ListRuns (mkFilter id RunStateEmpty ResultNone Time.zero confidenceHistoryDepth None false) (db_runs (ap_db s))));
  match runs with
  | inl e => mret (writeProblem r (problemFor e))
  | inr runs =>
    now ← a_now;
    backup ← latest_backup_at r;
    mret (writeJSON (confidence_json id runs (Score site_time_Now site_int_overflow (confidence_input runs backup now) site_weights)))
  end.

(** [handleProviders] and [handleHealth]. *)
Definition handleProviders : Handler := fun _ _ _ =>
  entries ← a_outside ps_Entries;
  mret (writeJSON (page_json (map (newProviderDTO site_config) entries) "")).
Definition handleHealth (r : HttpRequest) : AM Response :=
  mret (writeJSON (JObject [("status", JStr "ok"); ("version", JStr site_version)])).

(** ** The diagnosis (meta.go) *)

(** What [diag] is given: the provider asked for, and the backups when there are some. *)
Definition api_prober (hv : string) : Prober Api :=
  mkProber (a_ask "Ping" (fun n => ps_Ping n hv)) (a_ask "ListNodes" (fun n => ps_ListNodes n hv))
    (fun id => a_ask "GetWorkload" (fun n => on_ok Some (ps_GetWorkload n hv id)))
    (fun id => a_ask "GetStatus" (fun n => on_ok Some (ps_GetStatus n hv id)))
    ((fun f node network => a_ask "ValidateIsolation" (fun n => f n hv node network)) <$> ps_ValidateIsolation)
    ((fun f node => a_ask "ListStorages" (fun n => f n hv node)) <$> ps_ListStorages)
    (fun node storage id => a_ask "CountBackups" (fun n => ps_CountBackups n hv node storage id)).
Definition api_diag (hv : string) (bp : option string) : DiagEnv Api := {|
  dg_Provider := Some (api_prober hv);
  dg_Backups := (fun bp id => a_ask "GetLatestBackup" (fun n => ps_GetLatestBackup n bp id)) <$> bp;
  dg_Deliveries := Some (fun ids => last ← a_read (fun s => inr (LastDeliveries ids (deliveries_db s)));
                                    mret (match last with inl e => inl (api_error_text e) | inr last => inr last end));
  dg_now := mret site_time_Now;
|}.

(** [network]: the default profile. *)
Definition default_network : string * NetworkConfig * option error :=
  match site_config with
  | None => ("isolated", mkNetworkConfig "" "" 0 false false, None)
  | Some c =>
    let name := if nonempty (df_Network (cg_Defaults c)) then df_Network (cg_Defaults c) else "isolated" in
    match ResolveNetwork name c with
    | inl e => (name, mkNetworkConfig "" "" 0 false false, Some e)
    | inr net => (name, net, None)
    end
  end.
(** [handleDoctor]: always 200 once there is a provider, findings and all. *)
Definition finding_json (f : Finding) : json :=
  JObject ([("level", JStr (Level_to_string (fd_Level f))); ("area", JStr (fd_Area f)); ("title", JText (fd_Title f))]
    ++ omit_text "detail" (fd_Detail f)).
Definition report_json (r : Report) : json :=
  JObject ([("provider_id", JStr (rep_ProviderID r))] ++ omitempty "endpoint" (rep_Endpoint r)
    ++ [("ok", JBool (report_ok r)); ("problems", JInt (Problems r)); ("findings", JArray (map finding_json (rep_Findings r)))]).
Definition handleDoctor : Handler := fun r _ _ =>
  with_provider ps_Hypervisor r (fun hv =>
    bp ← a_outside (fun n => ps_Backups n (hr_Query r "provider"));
    entries ← a_outside ps_Entries;
    let entry := List.find (fun p => bool_decide (prv_ID p = hv)) entries in
    let '(name, net, net_err) := default_network in
    channels ← (if site_channels then a_cli Channels else mret []);
    rep ← Run (H := api_diag hv (match bp with inr bp => Some bp | inl _ => None end))
            (mkInput hv (match entry with Some p => prv_Endpoint p | None => "" end) (match entry with Some p => prv_Node p | None => "" end)
               name net net_err (hr_Query r "workload") "" (map (fun ch => mkDiagChannel (nc_ID ch) (nc_Kind ch) (nc_Enabled ch)) channels)
               site_NotifyDispatcherOff);
    mret (writeJSON (report_json rep))).
End Workloads.
