(* ===== verification/Routes.v ===== *)
(** * The routes of the API

    Models [routes] of internal/api/server.go, with the fallback of static.go: which
    handler a request reaches, and behind which scope. The streams of events, the
    pages and the files of the dashboard are not here: [serve] answers them with
    nothing. *)

From Stdlib Require Import ZArith Lia String Ascii List.
From S2P Require Import Prelude GoTime GoFloat Errors Core GoString Base64 Secrets Plan Config Channels Queue Listing Timeline Catalog Confidence Story Deliveries Dispatcher Diag Credentials ApiBase PlanCatalog Auth Setup ApiPlans ApiRuns ApiChannels ApiWorkloads.

Section Routes.
Context `{AEAD} `{ConfigEnv} `{CliEnv} `{ScheduleEnv} `{ApiEnv} `{JSON} `{Collation} `{Site} `{ProviderSet} `{SetupEnv}.
Context (unconfigured : bool) (touchInterval : Z).
Abbreviation AM := (M Api).

(** [mux.HandleFunc] of a handler that asks for nothing, and [mux.Handle] of one
    behind a scope. *)
Inductive Serving := Open (h : HttpRequest -> AM Response) | Needs (scope : string) (h : Handler).
Definition read : Handler -> Serving := Needs ScopeRead.

Definition routes : list (string * string * Serving) :=
  [("GET", "/api/v1/health", Open handleHealth)] ++
  (if unconfigured then [("GET", "/api/v1/setup", Open handleSetupState); ("POST", "/api/v1/setup", Open handleSetup)] else []) ++
  [("GET", "/api/v1/recovery-runs", read handleListRuns);
   ("GET", "/api/v1/recovery-runs/{id}", read handleGetRun);
   ("GET", "/api/v1/recovery-runs/{id}/events", read handleRunEvents);
   ("GET", "/api/v1/recovery-runs/{id}/report", read handleRunReport);
   ("GET", "/api/v1/workloads", read handleListWorkloads);
   ("GET", "/api/v1/workloads/{id}", read handleGetWorkload);
   ("GET", "/api/v1/workloads/{id}/backups", read handleWorkloadBackups);
   ("GET", "/api/v1/workloads/{id}/confidence", read handleWorkloadConfidence);
   ("POST", "/api/v1/session", Open (handleCreateSession json_login));
   ("GET", "/api/v1/session", read handleGetSession);
   ("DELETE", "/api/v1/session", read handleDeleteSession);
   ("GET", "/api/v1/schedule", read handleGetSchedule);
   ("GET", "/api/v1/schedule/slots", read handleListSlots);
   ("GET", "/api/v1/plans", read handleListPlans);
   ("GET", "/api/v1/plans/{ref}", read handleGetPlan);
   ("POST", "/api/v1/plans/validate", Needs ScopeManage handleValidatePlan);
   ("POST", "/api/v1/plans", Needs ScopeManage handleCreatePlan);
   ("PUT", "/api/v1/plans/{ref}", Needs ScopeManage handleUpdatePlan);
   ("DELETE", "/api/v1/plans/{ref}", Needs ScopeManage handleDeletePlan);
   ("GET", "/api/v1/notifications", read handleListNotifications);
   ("POST", "/api/v1/notifications", Needs ScopeManage handleCreateNotification);
   ("PUT", "/api/v1/notifications/{id}", Needs ScopeManage handleUpdateNotification);
   ("DELETE", "/api/v1/notifications/{id}", Needs ScopeManage handleDeleteNotification);
   ("POST", "/api/v1/notifications/{id}/test", Needs ScopeOperate handleTestNotification);
   ("GET", "/api/v1/providers", read handleProviders);
   ("GET", "/api/v1/doctor", read handleDoctor);
   ("GET", "/api/v1/queue", read handleQueue);
   ("POST", "/api/v1/recovery-runs", Needs ScopeOperate handleTriggerRun);
   ("POST", "/api/v1/recovery-runs/{id}/cancel", Needs ScopeOperate handleCancelRun);
   ("POST", "/api/v1/cleanup/{vmid}", Needs ScopeOperate handleCleanup)].

(** [ServeMux] on these patterns: no two of them match one request. A segment in
    braces matches any segment that is not empty; GET also matches HEAD. *)
Definition wildcard (seg : string) : option string :=
  if HasPrefix seg "{" then Some (TrimSuffix (TrimPrefix seg "{") "}") else None.
Fixpoint match_segments (pattern path : list string) : option (list (string * string)) :=
  match pattern, path with
  | [], [] => Some []
  | p :: pattern, s :: path =>
    match wildcard p with
    | Some name => if nonempty s then cons (name, s) <$> match_segments pattern path else None
    | None => if bool_decide (p = s) then match_segments pattern path else None
    end
  | _, _ => None
  end.
Definition matches (r : HttpRequest) (route : string * string * Serving) : option (list (string * string) * Serving) :=
  let '(method, pattern, serving) := route in
  let method_ok := bool_decide (hr_Method r = method) || (bool_decide (method = "GET") && bool_decide (hr_Method r = "HEAD")) in
  if method_ok then (fun vars => (vars, serving)) <$> match_segments (Split "/" pattern) (Split "/" (hr_Path r)) else None.
Definition route_of (r : HttpRequest) : option (list (string * string) * Serving) := head (omap (matches r) routes).
Definition with_vars (r : HttpRequest) (vars : list (string * string)) : HttpRequest :=
  mkHttpRequest (hr_Method r) (hr_Path r) (hr_Host r) (hr_TLS r) (hr_Header r) (hr_SessionCookie r) (hr_Query r)
    (fun name => default "" (list_to_map (M := gmap string string) vars !! name)) (hr_Body r).

(** [handleUnknown]. *)
Definition handleUnknown (r : HttpRequest) : AM Response :=
  mret (writeProblem r (newProblem "no-such-route" "No such endpoint" 404 (Lit "this API serves /api/v1; see docs/api.md"))).
(** What a request is answered by. *)
Definition serving (r : HttpRequest) (s : Serving) : AM Response :=
  match s with Open h => h r | Needs scope h => requireScope unconfigured touchInterval scope h r end.
Definition serve (r : HttpRequest) : option (AM Response) :=
  if streamed r then None else
  match route_of r with
  | Some (vars, s) => Some (serving (with_vars r vars) s)
  | None => if HasPrefix (hr_Path r) "/api/" then Some (handleUnknown r) else None
  end.
End Routes.

(** * What each scope lets a request change

    The frames of the handlers: what a handler behind a scope leaves as it was. *)

(** A run without the plan it came from. *)
Definition detached (row : Row) : Row := forget_plan (row_plan_id row) row.
Lemma detached_forget id row : detached (forget_plan id row) = detached row.
Proof.
  unfold detached, forget_plan. destruct (bool_decide_reflect (row_plan_id row = id)) as [->|Hne]; [|by rewrite (bool_decide_true _ eq_refl)].
  cbn. by rewrite !bool_decide_true.
Qed.

Definition only_reads (c : cluster_call) : Prop := match c with AskRead _ => True | _ => False end.
(** The configuration is read from its file at most. *)
Definition cli_kept (c c' : Cli) : Prop := cl_file c' = cl_file c /\ forall x, cl_cfg c = Some x -> cl_cfg c' = Some x.
#[export] Instance cli_kept_preorder : PreOrder cli_kept.
Proof. split; [by split|]. intros a b c [F1 C1] [F2 C2]. split; [congruence|auto]. Qed.

(** What changes without the scopes to operate and to manage. Without the first, no
    drill is queued or altered, and the clusters are only read; without the second,
    no plan, no slot and no channel; without either, nothing but credentials. *)
Record kept (operate manage : bool) (s s' : Api) : Prop := {
  kp_runs : operate = false -> detached <$> db_runs (ap_db s') = detached <$> db_runs (ap_db s);
  kp_plan_of : operate = false -> manage = false -> db_runs (ap_db s') = db_runs (ap_db s);
  kp_calls : operate = false -> extends only_reads (ap_calls s) (ap_calls s');
  kp_plans : manage = false -> db_plans (ap_db s') = db_plans (ap_db s) /\ db_slots (ap_db s') = db_slots (ap_db s);
  kp_cli : manage = false -> cli_kept (ap_cli s) (ap_cli s');
  kp_timeline : ap_timeline s' = ap_timeline s;
  kp_deliveries : ap_deliveries s' = ap_deliveries s;
  kp_setup : ap_setupToken s' = ap_setupToken s;
}.
#[export] Instance kept_preorder operate manage : PreOrder (kept operate manage).
Proof.
  split; [by split|]. intros a b c [] []. split; try congruence; intros; try (by etransitivity; eauto).
  - rewrite kp_runs1 by done. auto.
  - rewrite kp_plan_of1 by done. auto.
  - destruct (kp_plans0 ltac:(done)), (kp_plans1 ltac:(done)). split; congruence.
Qed.

Section Frames.
Context `{ApiEnv} (operate manage : bool).
Abbreviation frame := (keeps (kept operate manage)).

Lemma same_but_use_kept s s' : same_but_use s s' -> kept operate manage s s'.
Proof. intros [E1 E2 E3 E4 E5 E6 _ _]. split; intros; rewrite ?E1, ?E2, ?E3, ?E4, ?E5, ?E6; done. Qed.
Lemma outside_kept {A} (f : nat -> A) : frame (a_outside f).
Proof. intros s. by apply same_but_use_kept, tick_same. Qed.
Lemma now_kept : frame a_now.
Proof. apply outside_kept. Qed.
Lemma newID_kept : frame a_newID.
Proof. apply outside_kept. Qed.
Lemma read_kept {A} (f : Api -> api_error + A) : frame (a_read f).
Proof. intros s. apply same_but_use_kept, read_keeps. Qed.
Lemma read_store_kept {A} (f : Api -> store_error + A) : frame (read_store f).
Proof. apply read_kept. Qed.
Lemma ask_kept {A} what (f : nat -> A) : frame (a_ask what f).
Proof.
  unfold a_ask. apply keeps_bind; [apply _| |intros; apply outside_kept]. intros s. split; try done; cbn.
  intros _. by apply extends_snoc.
Qed.
Lemma cred_kept o : frame (a_cred o).
Proof.
  intros s. unfold a_cred, a_store. destruct (ae_fault _); [by split|]. by destruct (cred_exec o (ap_cred s)) as [[]|].
Qed.
Lemma cli_frame {A} (m : M Cli A) : manage = true \/ keeps cli_kept m -> frame (a_cli m).
Proof.
  intros Hm s. unfold a_cli. destruct (m (ap_cli s)) as [o c] eqn:E. split; try done; cbn. intros ->.
  destruct Hm as [?|Hm]; [done|]. pose proof (Hm (ap_cli s)) as Hc. by rewrite E in Hc.
Qed.
End Frames.
#[export] Hint Resolve outside_kept now_kept newID_kept read_kept read_store_kept ask_kept cred_kept : keeps.

(** ** The configuration of the channels *)

Section Cli.
Context `{AEAD} `{ConfigEnv} `{CliEnv}.
Lemma app_config_kept : keeps cli_kept app_config.
Proof.
  intros s. unfold app_config. destruct (cl_cfg s) eqn:E; [done|]. destruct (Load _ _); [done|]. split; [done|]. intros x. by rewrite E.
Qed.
Hint Resolve app_config_kept : keeps.
Lemma Channels_kept : keeps cli_kept Channels.
Proof. unfold Channels. keeps_auto. Qed.
Lemma ChannelTarget_kept id : keeps cli_kept (ChannelTarget id).
Proof. unfold ChannelTarget. keeps_auto. Qed.
End Cli.
#[export] Hint Resolve Channels_kept ChannelTarget_kept : keeps.

(** ** Writes to the database *)

Section Writes.
Context `{ApiEnv}.
Lemma write_kept operate manage f :
  (forall s db, f (ap_db s) = inr db -> kept operate manage s (set_ap_db db s)) -> keeps (kept operate manage) (a_write f).
Proof.
  intros Hf s. destruct (a_write_cases f s) as [(e & _ & ->)|[(err & _ & ->)|(db & Edb & ->)]]; [by split..|].
  cbn. transitivity (set_ap_db db s); [by apply Hf|by split].
Qed.
(** The plans are written with the scope to manage, the drills with the one to operate. *)
Lemma plans_written s db : detached <$> db_runs db = detached <$> db_runs (ap_db s) -> kept false true s (set_ap_db db s).
Proof. intros Hr. split; try done. Qed.
Lemma runs_written s db : db_plans db = db_plans (ap_db s) -> db_slots db = db_slots (ap_db s) -> kept true false s (set_ap_db db s).
Proof. intros Hp Hs. by split. Qed.
Lemma CreatePlan_kept p : keeps (kept false true) (a_write (CreatePlan p)).
Proof. apply write_kept. intros s db. unfold CreatePlan. do 2 (case_match; [discriminate|]). intros [= <-]. by apply plans_written. Qed.
Lemma UpdatePlan_kept d p expected : keeps (kept false true) (a_write (UpdatePlan d p expected)).
Proof.
  apply write_kept. intros s db. unfold UpdatePlan. case_match; [discriminate|]. case_match; [|discriminate].
  do 2 (case_match; [discriminate|]). intros [= <-]. by apply plans_written.
Qed.
Lemma DeletePlan_kept d ref : keeps (kept false true) (a_write (DeletePlan d ref)).
Proof.
  apply write_kept. intros s db. unfold DeletePlan. case_match; [discriminate|]. case_match; [|discriminate]. intros [= <-].
  apply plans_written. cbn. apply map_eq. intros i. rewrite !lookup_fmap. destruct (db_runs (ap_db s) !! i); cbn; [|done].
  by rewrite detached_forget.
Qed.
Lemma queue_run_kept run yaml at_ : keeps (kept true false) (a_write (queue_run run yaml at_)).
Proof.
  apply write_kept. intros s db. unfold queue_run. do 2 (case_match; [discriminate|]). intros [= <-]. by apply runs_written.
Qed.
Lemma cancel_kept id now : keeps (kept true false) (a_cancel id now).
Proof.
  intros s. unfold a_cancel, a_store. destruct (ae_fault _); [by split|]. destruct (RequestCancel _ _ _). by split.
Qed.
(** What is asked of a cluster with the scope to operate. *)
Lemma call_kept c : keeps (kept true false) (a_call c).
Proof. intros s. by split. Qed.
End Writes.
#[export] Hint Resolve CreatePlan_kept UpdatePlan_kept DeletePlan_kept queue_run_kept cancel_kept call_kept : keeps.

(** ** The handlers *)

Create HintDb handlers.
#[export] Hint Unfold handleListRuns handleGetRun handleRunEvents handleRunReport handleListWorkloads handleGetWorkload handleWorkloadBackups handleWorkloadConfidence
  handleGetSession handleDeleteSession handleGetSchedule handleListSlots handleListPlans handleGetPlan handleValidatePlan handleCreatePlan handleUpdatePlan
  handleDeletePlan handleListNotifications handleCreateNotification handleUpdateNotification handleDeleteNotification handleTestNotification
  handleProviders handleDoctor handleQueue handleTriggerRun handleCancelRun handleCleanup : handlers.

Section Handlers.
Context `{AEAD} `{ConfigEnv} `{CliEnv} `{ScheduleEnv} `{ApiEnv} `{JSON} `{Collation} `{Site} `{ProviderSet} `{SetupEnv}.
Context (r : HttpRequest) (tok : APIToken) (sess : option Session).

Lemma get_plan_kept operate manage d ref : keeps (kept operate manage) (get_plan d ref).
Proof. unfold get_plan. auto with keeps. Qed.
Lemma list_plans_kept operate manage id limit : keeps (kept operate manage) (list_plans id limit).
Proof. unfold list_plans. auto with keeps. Qed.
Hint Resolve get_plan_kept list_plans_kept : keeps.
Lemma Save_kept d decode document expected : keeps (kept false true) (Save d decode document expected).
Proof. unfold Save, write_then_read, read_back. keeps_auto. Qed.
Lemma Delete_kept d ref : keeps (kept false true) (Delete d ref).
Proof. unfold Delete. keeps_auto. Qed.
Lemma Resolve_kept operate manage d decode ref : keeps (kept operate manage) (Resolve d decode ref).
Proof. unfold Resolve. keeps_auto. Qed.
Hint Resolve Save_kept Delete_kept Resolve_kept : keeps.
Lemma scheduled_plans_kept rows now : keeps (kept false false) (scheduled_plans rows now).
Proof. induction rows as [|row rows IH]; cbn [scheduled_plans]; unfold scheduledPlan; keeps_auto. Qed.
Lemma named_slots_kept slots names : keeps (kept false false) (named_slots slots names).
Proof. revert names. induction slots as [|x slots IH]; intros names; cbn [named_slots]; keeps_auto. Qed.
Lemma resolveRun_kept operate manage : keeps (kept operate manage) (resolveRun r).
Proof. unfold resolveRun, read_run_of. keeps_auto. Qed.
Lemma read_run_kept operate manage id : keeps (kept operate manage) (read_run_of id).
Proof. unfold read_run_of. keeps_auto. Qed.
Lemma queue_entries_kept runs : keeps (kept false false) (queue_entries runs).
Proof. induction runs as [|x runs IH]; cbn [queue_entries]; keeps_auto. Qed.
Lemma enqueue_kept req : keeps (kept true false) (enqueue r req).
Proof. unfold enqueue. keeps_auto. Qed.
Lemma planForTrigger_kept q : keeps (kept true false) (planForTrigger r q).
Proof. unfold planForTrigger. keeps_auto. Qed.
Hint Resolve scheduled_plans_kept named_slots_kept resolveRun_kept read_run_kept queue_entries_kept enqueue_kept planForTrigger_kept : keeps.

(** The channels. *)
Lemma channels_read_kept operate manage : keeps (kept operate manage) (a_cli Channels).
Proof. apply cli_frame. right. apply Channels_kept. Qed.
Lemma target_read_kept operate manage id : keeps (kept operate manage) (a_cli (ChannelTarget id)).
Proof. apply cli_frame. right. apply ChannelTarget_kept. Qed.
Lemma cli_written {A} (m : M Cli A) : keeps (kept false true) (a_cli m).
Proof. apply cli_frame. by left. Qed.
Hint Resolve channels_read_kept target_read_kept cli_written : keeps.
Lemma withLastDeliveries_kept operate manage items : keeps (kept operate manage) (withLastDeliveries items).
Proof. unfold withLastDeliveries. keeps_auto. Qed.
Hint Resolve withLastDeliveries_kept : keeps.
Lemma readBack_kept operate manage id answer : keeps (kept operate manage) (readBack r id answer).
Proof. unfold readBack. keeps_auto. Qed.
Hint Resolve readBack_kept : keeps.
Lemma save_and_answer_kept ch target answer : keeps (kept false true) (save_and_answer r ch target answer).
Proof. unfold save_and_answer. keeps_auto. Qed.
Hint Resolve save_and_answer_kept : keeps.
Lemma findChannel_kept operate manage k : (forall ch, keeps (kept operate manage) (k ch)) -> keeps (kept operate manage) (findChannel r k).
Proof. intros Hk. unfold findChannel, with_channels. keeps_auto; apply Hk. Qed.

(** The clusters. *)
Lemma with_provider_kept find k : (forall c, keeps (kept false false) (k c)) -> keeps (kept false false) (with_provider find r k).
Proof. intros Hk. unfold with_provider. keeps_auto; apply Hk. Qed.
Lemma withLastRuns_kept items : keeps (kept false false) (withLastRuns items).
Proof. unfold withLastRuns. keeps_auto. Qed.
Lemma backup_items_kept l : keeps (kept false false) (backup_items l).
Proof. induction l as [|x l IH]; cbn [backup_items]; keeps_auto. Qed.
Hint Resolve withLastRuns_kept backup_items_kept : keeps.
Lemma count_storages_kept hv node id l : keeps (kept false false) (count_storages (api_prober hv) node id l).
Proof. induction l as [|x l IH]; cbn [count_storages api_prober pb_CountBackups]; keeps_auto. Qed.
Lemma diagnosis_kept hv bp i : keeps (kept false false) (Run (H := api_diag hv bp) i).
Proof.
  unfold Run, appendCluster, appendStorages, appendNetwork, appendWorkload, appendBackups, appendNotifications, last_deliveries.
  cbn [dg_Provider dg_Backups dg_Deliveries dg_now api_diag pb_Ping pb_ListNodes pb_GetWorkload pb_GetStatus pb_ValidateIsolation
    pb_ListStorages api_prober]. pose proof (count_storages_kept hv) as Hc.
  destruct ps_ValidateIsolation, ps_ListStorages, bp; cbn [fmap option_fmap option_map]; keeps_auto; apply Hc.
Qed.
Hint Resolve diagnosis_kept : keeps.

(** A handler behind a scope keeps what the scope does not open. *)
Definition confined (s : Serving) : Prop :=
  match s with
  | Open _ => True
  | Needs scope h => exists operate manage, keeps (kept operate manage) (h r tok sess) /\
      (operate = true -> scope = ScopeOperate) /\ (manage = true -> scope = ScopeManage)
  end.
Lemma confined_read h : keeps (kept false false) (h r tok sess) -> confined (read h).
Proof. intros Hh. by exists false, false. Qed.
Lemma confined_operate h : keeps (kept true false) (h r tok sess) -> confined (Needs ScopeOperate h).
Proof. intros Hh. by exists true, false. Qed.
Lemma confined_manage h : keeps (kept false true) (h r tok sess) -> confined (Needs ScopeManage h).
Proof. intros Hh. by exists false, true. Qed.

Ltac confine :=
  first [exact I | apply confined_read | apply confined_operate | apply confined_manage];
  autounfold with handlers; unfold with_channels, latest_backup_at;
  repeat match goal with
  | |- keeps _ (with_provider _ _ _) => apply with_provider_kept; intros ?
  | |- keeps _ (findChannel _ _) => apply findChannel_kept; intros ?
  | _ => keeps_step
  end.
Lemma routes_confined unconfigured : Forall (fun route => confined route.2) (routes unconfigured).
Proof.
  unfold routes. apply Forall_app; split; [by repeat constructor|]. apply Forall_app; split; [destruct unconfigured; repeat constructor|].
  repeat first [apply Forall_nil_2 | apply Forall_cons; split]; cbn [snd].
  all: confine.
Qed.
End Handlers.
