(* ===== verification/Answers.v ===== *)
(** * Answers

    Every handler of the API comes back with a response, whatever fails, and the
    response is of the type its status announces: [answers] of [Prelude]. *)

From Stdlib Require Import ZArith Lia String Ascii List.
From S2P Require Import Prelude GoTime GoFloat Errors Core GoString Base64 Secrets Plan Config Channels Queue Listing Paging Timeline Catalog Confidence Story Deliveries Dispatcher Diag Credentials ApiBase PlanCatalog Auth Setup ApiPlans ApiRuns ApiChannels ApiWorkloads Routes.

Section Outside.
Context `{ApiEnv}.
Lemma outside_returns {A} (f : nat -> A) : returns (a_outside f).
Proof. intros s. by eexists _, _. Qed.
Lemma now_returns : returns a_now.
Proof. apply outside_returns. Qed.
Lemma newID_returns : returns a_newID.
Proof. apply outside_returns. Qed.
Lemma store_returns {A} (f : Api -> (api_error + A) * Api) : returns (a_store f).
Proof. intros s. unfold a_store. destruct (ae_fault _); [by eexists _, _|]. destruct (f s). by eexists _, _. Qed.
Lemma read_returns {A} (f : Api -> api_error + A) : returns (a_read f).
Proof. apply store_returns. Qed.
Lemma read_store_returns {A} (f : Api -> store_error + A) : returns (read_store f).
Proof. apply store_returns. Qed.
Lemma write_returns f : returns (a_write f).
Proof. apply store_returns. Qed.
Lemma cred_returns o : returns (a_cred o).
Proof. apply store_returns. Qed.
Lemma cancel_returns id now : returns (a_cancel id now).
Proof. apply store_returns. Qed.
Lemma call_returns c : returns (a_call c).
Proof. apply answers_modify. Qed.
Lemma ask_returns {A} what (f : nat -> A) : returns (a_ask what f).
Proof. unfold a_ask. eapply answers_bind; [apply call_returns|]. intros _ _. apply outside_returns. Qed.
Lemma cli_returns {A} (P : A -> Prop) (m : M Cli A) : answers P m -> answers P (a_cli m).
Proof. intros Hm s. unfold a_cli. destruct (Hm (ap_cli s)) as (a & c & -> & Ha). by eexists _, _. Qed.
End Outside.
#[export] Hint Resolve outside_returns now_returns newID_returns read_returns read_store_returns write_returns cred_returns cancel_returns
  call_returns ask_returns : answers.

(** The configuration of the channels. *)
Section Cli.
Context `{AEAD} `{ConfigEnv} `{CliEnv}.
Lemma app_config_returns : returns app_config.
Proof. intros s. unfold app_config. destruct (cl_cfg s); [by eexists _, _|]. destruct (Load _ _); by eexists _, _. Qed.
Lemma write_config_returns c : returns (write_config c).
Proof. intros s. unfold write_config. destruct (SaveConfig _ _ _ _ _). by eexists _, _. Qed.
Lemma read_nonce_returns : returns read_nonce.
Proof. intros s. by eexists _, _. Qed.
Hint Resolve app_config_returns write_config_returns read_nonce_returns : answers.
Lemma persist_returns c : returns (persist c).
Proof. unfold persist. answers_auto. Qed.
Hint Resolve persist_returns : answers.
Lemma Channels_returns : returns Channels.
Proof. unfold Channels. answers_auto. Qed.
Lemma ChannelTarget_returns id : returns (ChannelTarget id).
Proof. unfold ChannelTarget. answers_auto. Qed.
Lemma SaveChannel_returns ch target : returns (SaveChannel ch target).
Proof. unfold SaveChannel. answers_auto. Qed.
Lemma RemoveChannel_returns id : returns (RemoveChannel id).
Proof. unfold RemoveChannel. answers_auto. Qed.
End Cli.
#[export] Hint Resolve cli_returns Channels_returns ChannelTarget_returns SaveChannel_returns RemoveChannel_returns : answers.

(** ** Responses *)

(** A problem with the status it announces, of this API. *)
Definition problem_ok (p : Problem) : Prop := 400 <= pb_Status p < 600 /\ HasPrefix (pb_Type p) problemBase = true.
(** A response to [r] of the type its status announces: a document, a text, or nothing;
    or else a problem that repeats the status and names the path. *)
Definition proper (r : HttpRequest) (p : Response) : Prop :=
  match rp_Payload p with
  | PayloadProblem q | PayloadSetupFailure q _ =>
    problem_ok q /\ pb_Status q = rp_Status p /\ pb_Instance q = hr_Path r /\ ("Content-Type", problemContentType) ∈ rp_Headers p
  | PayloadJSON _ => 200 <= rp_Status p <= 202 /\ ("Content-Type", "application/json") ∈ rp_Headers p
  | PayloadText type _ => rp_Status p = 200 /\ ("Content-Type", type) ∈ rp_Headers p
  | PayloadNone => rp_Status p = 204
  end.
(** What a handler decides on the way: a response, or what it goes on with. *)
Definition proper_or {A} (r : HttpRequest) (x : Response + A) : Prop := match x with inl p => proper r p | inr _ => True end.
Definition proper_refusal (r : HttpRequest) (x : option Response) : Prop := match x with Some p => proper r p | None => True end.

Lemma newProblem_ok kind title status detail : 400 <= status < 600 -> problem_ok (newProblem kind title status detail).
Proof. intros Hs. split; [done|]. apply HasPrefix_app. Qed.
Lemma problemFor_ok e : problem_ok (problemFor e).
Proof. destruct e as [[]| | |err|]; cbn; try case_match; try case_match; apply newProblem_ok; lia. Qed.
Lemma problemForPlan_ok e : problem_ok (problemForPlan e).
Proof. destruct e as [[]| | |err|]; try apply problemFor_ok; cbn; apply newProblem_ok; lia. Qed.
Lemma problemForUpstream_ok e : problem_ok (problemForUpstream e).
Proof.
  unfold problemForUpstream. destruct e as [[]| | |err|]; try apply problemFor_ok; try (apply newProblem_ok; lia).
  do 3 (case_match; try apply problemFor_ok; try (apply newProblem_ok; lia)).
Qed.
Lemma write_proper r p : problem_ok p -> proper r (writeProblem r p).
Proof. intros Hp. split; [exact Hp|]. do 2 (split; [done|]). by left. Qed.
Lemma problem_proper r kind title status detail : 400 <= status < 600 -> proper r (writeProblem r (newProblem kind title status detail)).
Proof. intros Hs. by apply write_proper, newProblem_ok. Qed.
Lemma bad_proper r detail : proper r (writeBadRequest r detail).
Proof. apply problem_proper. lia. Qed.
Lemma unauthorized_proper r : proper r (writeUnauthorized r).
Proof. split; [by apply newProblem_ok|]. do 2 (split; [done|]). right. by left. Qed.
Lemma json_proper r status body : 200 <= status <= 202 -> proper r (writeJSONStatus status body).
Proof. intros Hs. split; [done|]. cbn. by left. Qed.
Lemma ok_proper r body : proper r (writeJSON body).
Proof. apply json_proper. lia. Qed.
Lemma header_proper r name value p : proper r p -> proper r (with_header name value p).
Proof. unfold proper. destruct p as [st hd ck [q|q steps|b|t b|]]; cbn; intuition; by right. Qed.
Lemma cookie_proper r c p : proper r p -> proper r (with_cookie c p).
Proof. done. Qed.
Lemma none_proper r : proper r no_content.
Proof. reflexivity. Qed.
Create HintDb proper.
#[export] Hint Resolve problemFor_ok problemForPlan_ok problemForUpstream_ok write_proper bad_proper unauthorized_proper ok_proper header_proper
  cookie_proper none_proper : proper.
#[export] Hint Extern 1 (proper _ (writeProblem _ (newProblem _ _ _ _))) => apply problem_proper; lia : proper.
#[export] Hint Extern 1 (proper _ (writeJSONStatus _ _)) => apply json_proper; lia : proper.

(** A response, or a decision, by cases. *)
Ltac proper_step :=
  match goal with
  | |- proper_or _ (inl _) => unfold proper_or
  | |- proper_or _ (inr _) => exact I
  | |- proper_refusal _ (Some _) => unfold proper_refusal
  | |- proper_refusal _ None => exact I
  | H : proper_or _ (inl ?p) |- proper _ ?p => exact H
  | |- proper _ _ => solve [eauto 4 with proper]
  | |- context [if ?b then _ else _] => destruct b eqn:?
  | |- context [match ?x with _ => _ end] => destruct x eqn:?
  end.
Ltac proper_auto := repeat proper_step.

(** ** The handlers *)

Section Handlers.
Context `{AEAD} `{ConfigEnv} `{CliEnv} `{ScheduleEnv} `{ApiEnv} `{JSON} `{Collation} `{Site} `{ProviderSet} `{SetupEnv}.
Context (r : HttpRequest).

(** What the handlers read and write comes back. *)
Lemma get_plan_returns d ref : returns (get_plan d ref).
Proof. apply read_returns. Qed.
Lemma list_plans_returns id limit : returns (list_plans id limit).
Proof. apply read_returns. Qed.
Lemma read_run_returns id : returns (read_run_of id).
Proof. apply read_store_returns. Qed.
Hint Resolve get_plan_returns list_plans_returns read_run_returns : answers.
Lemma write_then_read_returns d f id created : returns (write_then_read d f id created).
Proof. unfold write_then_read, read_back. answers_auto. Qed.
Hint Resolve write_then_read_returns : answers.
Lemma Save_returns d decode document expected : returns (Save d decode document expected).
Proof. unfold Save. answers_auto. Qed.
Lemma Delete_returns d ref : returns (Delete d ref).
Proof. unfold Delete. answers_auto. Qed.
Lemma Resolve_returns d decode ref : returns (Resolve d decode ref).
Proof. unfold Resolve. answers_auto. Qed.
Lemma scheduledPlan_returns row now : returns (scheduledPlan row now).
Proof. unfold scheduledPlan. answers_auto. Qed.
Hint Resolve scheduledPlan_returns : answers.
Lemma scheduled_plans_returns rows now : returns (scheduled_plans rows now).
Proof. induction rows as [|row rows IH]; cbn [scheduled_plans]; answers_auto. Qed.
Lemma named_slots_returns slots names : returns (named_slots slots names).
Proof.
  revert names. induction slots as [|x slots IH]; intros names; cbn [named_slots]; [answers_auto|].
  eapply (answers_bind (fun _ => True)); [answers_auto|]. intros name _. answers_auto.
Qed.
Lemma queue_entries_returns runs : returns (queue_entries runs).
Proof. induction runs as [|x runs IH]; cbn [queue_entries]; answers_auto. Qed.
Lemma withLastDeliveries_returns items : returns (withLastDeliveries items).
Proof. unfold withLastDeliveries. answers_auto. Qed.
Lemma withLastRuns_returns items : returns (withLastRuns items).
Proof. unfold withLastRuns. answers_auto. Qed.
Lemma backup_items_returns l : returns (backup_items l).
Proof. induction l as [|x l IH]; cbn [backup_items]; answers_auto. Qed.
Lemma latest_backup_returns : returns (latest_backup_at r).
Proof. unfold latest_backup_at. answers_auto. Qed.

(** The diagnosis: a workload that was read is there. *)
Lemma count_storages_returns hv node id l : returns (count_storages (api_prober hv) node id l).
Proof. induction l as [|x l IH]; cbn [count_storages api_prober pb_CountBackups]; answers_auto. Qed.
Lemma read_workload_there hv id : answers (fun w => w <> inr None) (pb_GetWorkload (api_prober hv) id).
Proof.
  cbn. unfold a_ask. eapply answers_bind; [apply call_returns|]. intros _ _ s. eexists _, _. split; [reflexivity|].
  unfold on_ok. by destruct (ps_GetWorkload _ _ _).
Qed.
Section Diagnosis.
Context (hv : string) (bp : option string) (i : Input).
#[local] Instance asked_diag : DiagEnv Api := api_diag hv bp.
Hint Resolve count_storages_returns : answers.
Lemma storages_return node : returns (appendStorages (api_prober hv) i node).
Proof. unfold appendStorages. cbn [api_prober pb_ListStorages]. destruct ps_ListStorages; cbn [fmap option_fmap option_map]; answers_auto. Qed.
Lemma network_returns node : returns (appendNetwork (api_prober hv) i node).
Proof. unfold appendNetwork. cbn [api_prober pb_ValidateIsolation]. destruct ps_ValidateIsolation; cbn [fmap option_fmap option_map]; answers_auto. Qed.
Lemma backups_return id : returns (appendBackups id).
Proof. unfold appendBackups. cbn [dg_Backups dg_now api_diag asked_diag]. destruct bp; cbn [fmap option_fmap option_map]; answers_auto. Qed.
Hint Resolve storages_return network_returns backups_return : answers.
Lemma workload_returns : returns (appendWorkload (api_prober hv) i).
Proof.
  unfold appendWorkload. eapply answers_bind; [apply read_workload_there|]. intros w Hw. destruct w as [|[w|]]; [by apply answers_ret| |done].
  cbn [api_prober pb_GetStatus]. answers_auto.
Qed.
Hint Resolve workload_returns : answers.
Lemma cluster_returns : returns (appendCluster i).
Proof.
  unfold appendCluster. cbn [dg_Provider api_diag asked_diag]. cbn [api_prober pb_Ping pb_ListNodes].
  eapply answers_bind; [apply ask_returns|]. intros ping _. destruct ping; [by apply answers_ret|].
  do 3 (eapply answers_bind; [eauto with answers|]; intros ? _).
  eapply (answers_bind (fun _ => True)); [|intros; by apply answers_ret]. answers_auto.
Qed.
Lemma notifications_return : returns (appendNotifications i).
Proof.
  unfold appendNotifications, last_deliveries. cbn [dg_Deliveries api_diag asked_diag]. destruct (in_Notifications i); [by apply answers_ret|].
  eapply (answers_bind (fun _ => True)); [|intros; by apply answers_ret]. destruct (enabled _); answers_auto.
Qed.
Lemma diagnosis_returns : returns (Run i).
Proof. unfold Run. eapply answers_bind; [apply cluster_returns|]. intros ? _. eapply answers_bind; [apply notifications_return|]. intros ? _. by apply answers_ret. Qed.
End Diagnosis.
End Handlers.
#[export] Hint Resolve get_plan_returns list_plans_returns read_run_returns Save_returns Delete_returns Resolve_returns scheduled_plans_returns
  named_slots_returns queue_entries_returns withLastDeliveries_returns withLastRuns_returns backup_items_returns latest_backup_returns
  diagnosis_returns : answers.

(** The decisions that end in a response. *)
Section Decisions.
Context `{AEAD} `{ConfigEnv} `{CliEnv} `{ScheduleEnv} `{ApiEnv} `{JSON} `{Collation} `{Site} `{ProviderSet} `{SetupEnv}.
Context (r : HttpRequest).

Lemma plan_problem_proper e : proper r (plan_problem r e).
Proof. unfold plan_problem. auto with proper. Qed.
Lemma run_problem_proper e : proper r (run_problem r e).
Proof.
  unfold run_problem. apply write_proper. pose proof (problemFor_ok e) as Hp. destruct e as [[]| | | |]; exact Hp.
Qed.
Lemma prepare_problem_proper e : proper r (prepare_problem r e).
Proof. unfold prepare_problem. destruct e; auto with proper. Qed.
Lemma provider_problem_proper id e : proper r (writeProviderProblem r id e).
Proof. unfold writeProviderProblem. proper_auto. Qed.
Lemma readDocument_proper : proper_or r (readDocument r).
Proof. unfold readDocument. proper_auto. Qed.
Lemma readNotification_proper : proper_or r (readNotification r).
Proof. unfold readNotification. proper_auto. Qed.
Lemma adhoc_proper q : proper_or r (adhocPlanForTrigger r q).
Proof. unfold adhocPlanForTrigger. proper_auto. Qed.
Lemma id_proper id : proper_refusal r (validNotificationID r id).
Proof. unfold validNotificationID. proper_auto. Qed.
Lemma kind_proper kind : proper_refusal r (validNotificationKind r kind).
Proof. unfold validNotificationKind, writeInvalidKind. proper_auto. Qed.
Lemma url_proper raw : proper_refusal r (validNotificationURL r raw).
Proof. unfold validNotificationURL. proper_auto. Qed.
Lemma created_proper q : proper_refusal r (created_refusal r q).
Proof.
  unfold created_refusal. pose proof (kind_proper (nr_Kind q)). pose proof (url_proper (nr_URL q)).
  destruct (validNotificationKind r (nr_Kind q)); [done|]. destruct (negb _); [apply bad_proper|done].
Qed.
Lemma updated_proper q : proper_refusal r (updated_refusal r q).
Proof.
  unfold updated_refusal. pose proof (kind_proper (nr_Kind q)). pose proof (url_proper (nr_URL q)).
  destruct (nonempty (nr_Kind q)); [destruct (validNotificationKind r (nr_Kind q)); [done|]|]; by destruct (nonempty (nr_URL q)).
Qed.

Lemma resolveRun_answers : answers (proper_or r) (resolveRun r).
Proof. unfold resolveRun. eapply answers_bind; [eauto with answers|]. intros run _. apply answers_ret. destruct run; [apply run_problem_proper|done]. Qed.
Lemma planForTrigger_answers q : answers (proper_or r) (planForTrigger r q).
Proof.
  unfold planForTrigger. destruct (negb _).
  - apply answers_ret. pose proof (adhoc_proper q) as Hp. by destruct (adhocPlanForTrigger r q).
  - destruct (adhocFields q); [|apply answers_ret; apply bad_proper]. eapply answers_bind; [eauto with answers|]. intros row _.
    apply answers_ret. destruct row as [e|[]]; [apply plan_problem_proper|done].
Qed.
Lemma enqueue_answers req : answers (proper_or r) (enqueue r req).
Proof.
  unfold enqueue. eapply answers_bind; [eauto with answers|]. intros active _. destruct active; [apply answers_ret; unfold proper_or; auto with proper|].
  case_match; [apply answers_ret, prepare_problem_proper|]. eapply answers_bind; [eauto with answers|]. intros written _.
  apply answers_ret. destruct written; unfold proper_or; auto with proper.
Qed.
Lemma readBack_answers id answer : (forall j, proper r (answer j)) -> answers (proper r) (readBack r id answer).
Proof. intros Ha. unfold readBack. answers_auto; auto with proper. Qed.
Lemma save_answers ch target answer : (forall j, proper r (answer j)) -> answers (proper r) (save_and_answer r ch target answer).
Proof.
  intros Ha. unfold save_and_answer. eapply answers_bind; [eauto with answers|]. intros err _. destruct err; [apply answers_ret; auto with proper|].
  by apply readBack_answers.
Qed.
Lemma with_channels_answers k : answers (proper r) k -> answers (proper r) (with_channels r k).
Proof. intros Hk. unfold with_channels. destruct site_channels; [done|]. apply answers_ret. unfold notifications_unavailable. auto with proper. Qed.
Lemma findChannel_answers k : (forall ch, answers (proper r) (k ch)) -> answers (proper r) (findChannel r k).
Proof.
  intros Hk. unfold findChannel. apply with_channels_answers. eapply answers_bind; [eauto with answers|]. intros l _.
  destruct (channel_called _ _); [apply Hk|]. apply answers_ret. unfold no_such_channel. auto with proper.
Qed.
Lemma with_provider_answers find k : (forall c, answers (proper r) (k c)) -> answers (proper r) (with_provider find r k).
Proof.
  intros Hk. unfold with_provider. eapply answers_bind; [eauto with answers|]. intros c _. destruct c; [|apply Hk].
  apply answers_ret, provider_problem_proper.
Qed.
Lemma refused_channel_proper status e target : proper r (writeProblem r (refusedChannelProblem status e target)).
Proof. apply write_proper. unfold refusedChannelProblem. by apply newProblem_ok. Qed.
End Decisions.
#[export] Hint Resolve plan_problem_proper run_problem_proper prepare_problem_proper refused_channel_proper : proper.
#[export] Hint Resolve resolveRun_answers planForTrigger_answers enqueue_answers : answers.

(** ** Every route *)

Section Routes.
Context `{AEAD} `{ConfigEnv} `{CliEnv} `{ScheduleEnv} `{ApiEnv} `{JSON} `{Collation} `{Site} `{ProviderSet} `{SetupEnv}.
Context (unconfigured : bool) (touchInterval : Z) (r : HttpRequest).

(** What a decision of the way is worth is known once it is made. *)
Ltac decided :=
  match goal with
  | E : readDocument r = inl ?p |- proper r ?p => pose proof (readDocument_proper r) as Hd; rewrite E in Hd; exact Hd
  | E : readNotification r = inl ?p |- proper r ?p => pose proof (readNotification_proper r) as Hd; rewrite E in Hd; exact Hd
  | E : validNotificationID r ?id = Some ?p |- proper r ?p => pose proof (id_proper r id) as Hd; rewrite E in Hd; exact Hd
  | E : created_refusal r ?q = Some ?p |- proper r ?p => pose proof (created_proper r q) as Hd; rewrite E in Hd; exact Hd
  | E : updated_refusal r ?q = Some ?p |- proper r ?p => pose proof (updated_proper r q) as Hd; rewrite E in Hd; exact Hd
  | H : proper_or _ (inl ?p) |- proper _ ?p => exact H
  end.
Ltac answer :=
  repeat match goal with
  | |- answers _ (with_provider _ _ _) => apply with_provider_answers; intros ?
  | |- answers _ (findChannel _ _) => apply findChannel_answers; intros ?
  | |- answers _ (save_and_answer _ _ _ _) => apply save_answers; intros ?
  | |- answers _ (with_channels _ _) => apply with_channels_answers
  | |- proper _ _ => first [decided | proper_step]
  | _ => answers_step
  end.

(** A step whose answer matters to nothing. *)
Ltac pass := eapply (answers_bind (fun _ => True)); [answers_auto|]; intros ? _.

Lemma admitted_proper token : proper_or r (admitted_by token r).
Proof.
  unfold admitted_by, read_setup. proper_auto.
Qed.
Lemma setup_answer_proper x : proper r (setup_answer r x).
Proof.
  unfold setup_answer. destruct x as [[result|] [e|]]; auto with proper; (split; [by apply newProblem_ok|]; do 2 (split; [done|]); by left).
Qed.
Lemma handleSetup_answers : answers (proper r) (handleSetup r).
Proof.
  unfold handleSetup. pass. pose proof (admitted_proper a) as Ha. destruct (admitted_by a r) as [p|q]; [by apply answers_ret|].
  pass. destruct (consumeSetupToken _ _); [|apply answers_ret; auto with proper]. do 3 pass. apply answers_ret, setup_answer_proper.
Qed.
Lemma refuse_proper e : proper r (refuse r e).
Proof. unfold refuse. proper_auto. Qed.
Lemma handleCreateSession_answers : answers (proper r) (handleCreateSession json_login r).
Proof.
  unfold handleCreateSession. destruct (negb _); [apply answers_ret; auto with proper|].
  destruct (hr_Body r ≫= _) as [token|]; [|apply answers_ret; auto with proper].
  destruct (negb _); [apply answers_ret; auto with proper|]. pass. destruct a as [e|tok]; [apply answers_ret, refuse_proper|]. pass.
  unfold NewSession, a_secret. eapply (answers_bind (fun _ => True)); [pass; destruct a0; answers_auto|]. intros opened _. answer.
Qed.
Lemma handleListRuns_answers tok sess : answers (proper r) (handleListRuns r tok sess).
Proof. unfold handleListRuns. destruct (parseLimit _); [apply answers_ret; auto with proper|]. pass. answer. Qed.
Lemma handleListSlots_answers tok sess : answers (proper r) (handleListSlots r tok sess).
Proof. unfold handleListSlots. pass. answer. Qed.
Lemma handleGetPlan_answers tok sess : answers (proper r) (handleGetPlan r tok sess).
Proof.
  unfold handleGetPlan. pass. apply answers_ret. destruct a; [auto with proper|]. destruct (bool_decide _); [|auto with proper].
  split; [done|]. by left.
Qed.
Lemma handleUpdatePlan_answers tok sess : answers (proper r) (handleUpdatePlan r tok sess).
Proof. unfold handleUpdatePlan, rename_refused. answer. Qed.
Lemma handleCreateNotification_answers tok sess : answers (proper r) (handleCreateNotification r tok sess).
Proof. unfold handleCreateNotification, id_taken. answer; auto with proper. Qed.
Lemma handleTestNotification_answers tok sess : answers (proper r) (handleTestNotification r tok sess).
Proof. unfold handleTestNotification, writeInvalidKind, channel_unusable. answer. Qed.
Lemma handleDoctor_answers tok sess : answers (proper r) (handleDoctor r tok sess).
Proof. unfold handleDoctor. apply with_provider_answers. intros hv. do 2 pass. destruct default_network as [[name net] err]. do 2 pass. apply answers_ret. auto with proper. Qed.

Definition answered (tok : APIToken) (sess : option Session) (s : Serving) : Prop :=
  match s with Open h => answers (proper r) (h r) | Needs _ h => answers (proper r) (h r tok sess) end.
Lemma routes_answer tok sess : Forall (fun route => answered tok sess route.2) (routes unconfigured).
Proof.
  unfold routes. apply Forall_app; split; [|apply Forall_app; split; [destruct unconfigured|]].
  all: repeat first [apply Forall_nil_2 | apply Forall_cons; split]; cbn [snd read answered].
  all: first
    [ apply handleSetup_answers | apply handleCreateSession_answers | apply handleListRuns_answers | apply handleListSlots_answers
    | apply handleGetPlan_answers | apply handleUpdatePlan_answers | apply handleCreateNotification_answers
    | apply handleTestNotification_answers | apply handleDoctor_answers
    | solve [unfold handleHealth, handleSetupState; answer] | solve [autounfold with handlers; answer]].
Qed.
End Routes.
