(* ===== verification/RoutesTheorems.v ===== *)
(** * What a request can do, and how it is answered

    Without the scope to operate a request queues, cancels, deletes and posts nothing;
    without the one to manage it changes no plan, slot or channel
    ([least_privilege]). Every request is answered, by a document of the type its
    status announces ([answers_are_typed]). *)

From Stdlib Require Import ZArith Lia String Ascii List.
From S2P Require Import Prelude GoTime GoFloat Errors Core GoString GoStrconv Base64 Secrets Plan Adhoc Config Channels Queue Listing Timeline Catalog Pve Confidence Story Deliveries Dispatcher Diag Credentials ApiBase PlanCatalog Auth Setup ApiPlans ApiRuns ApiChannels ApiWorkloads Routes Answers.

(** ** Least privilege *)

Section Privilege.
Context `{AEAD} `{ConfigEnv} `{CliEnv} `{ScheduleEnv} `{ApiEnv} `{JSON} `{Collation} `{Site} `{ProviderSet} `{SetupEnv}.
Context (touchInterval : Z).

(** The request carries a live credential with this scope. *)
Definition may (scope : string) (s : Api) (r : HttpRequest) : Prop :=
  exists tok sess, holds (ap_cred s) (ae_now (ap_time s)) r tok sess /\ Can tok scope = true.

Lemma holds_with_vars db now r vars tok sess : holds db now (with_vars r vars) tok sess -> holds db now r tok sess.
Proof. intros [secret id row Hb E Hh Hl|value i a row Hb Hc Hv Ea Hh Hx Er Hl Ho]; [by eapply holds_bearer|by eapply holds_cookie]. Qed.

Lemma route_of_in unconfigured r vars s : route_of unconfigured r = Some (vars, s) ->
  exists method pattern, (method, pattern, s) ∈ routes unconfigured.
Proof.
  unfold route_of. intros E. assert ((vars, s) ∈ omap (matches r) (routes unconfigured)) as Hin.
  { destruct (omap (matches r) (routes unconfigured)); [done|]. injection E as ->. by left. }
  apply list_elem_of_omap in Hin as ([[method pattern] s'] & Hin & Em). unfold matches in Em.
  destruct (_ || _); [|done]. destruct (match_segments _ _); [|done]. injection Em as _ <-. eauto.
Qed.

Lemma open_kept r s : forall method pattern h, (method, pattern, Open h) ∈ routes false -> kept false false s (h r s).2.
Proof.
  intros method pattern h Hin.
  assert (Forall (fun route => match route.2 with Open h => keeps (kept false false) (h r) | Needs _ _ => True end) (routes false)) as Hall.
  { unfold routes. repeat first [apply Forall_nil_2 | apply Forall_cons; split]; try exact I; cbn [snd read].
    - unfold handleHealth. keeps_auto.
    - unfold handleCreateSession, NewSession, a_secret. keeps_auto. }
  rewrite Forall_forall in Hall. apply (Hall _ Hin).
Qed.

(** C29: no request goes beyond its scopes. On a configured server, whatever a request
    asks and whatever fails, there are two flags, the first of which is up only for
    who may operate and the second only for who may manage, such that: without the
    first, no drill is queued, cancelled or altered but for the plan it came from,
    and clusters and channels are sent nothing but reads; without the second, no
    plan, slot or channel changes; without either, no run changes at all; and never
    does a timeline or a delivery. (Opening and closing one's own session, and the date
    a token was last used, need neither.) *)
Theorem least_privilege r m s : serve false touchInterval r = Some m ->
  exists operate manage, kept operate manage s (m s).2 /\
    (operate = true -> may ScopeOperate s r) /\ (manage = true -> may ScopeManage s r).
Proof.
  unfold serve. destruct (streamed r); [done|]. destruct (route_of false r) as [[vars sv]|] eqn:Er.
  2:{ destruct (HasPrefix _ _); [|done]. intros [= <-]. by exists false, false. }
  intros [= <-]. destruct (route_of_in _ _ _ _ Er) as (method & pattern & Hin). destruct sv as [h|scope h]; cbn [serving].
  - exists false, false. split; [by eapply open_kept|done].
  - pose proof (requireScope_cases touchInterval false scope h (with_vars r vars) s) as Ho.
    destruct (requireScope false touchInterval scope h (with_vars r vars) s) as [o s'].
    destruct Ho as [(tok & sess & s1 & _ & Hh & Hcan & Hs & E)|(resp & -> & _ & Hs)].
    + pose proof (proj1 (Forall_forall _ _) (routes_confined (with_vars r vars) tok sess false) _ Hin) as Hc. cbn in Hc.
      destruct Hc as (operate & manage & Hk & Hop & Hmg). exists operate, manage. specialize (Hk s1). rewrite E in Hk. cbn in *.
      assert (may scope s r) as Hmay by (exists tok, sess; split; [by eapply holds_with_vars|done]).
      split_and!; [|by intros ->%Hop|by intros ->%Hmg]. etransitivity; [|exact Hk]. by apply same_but_use_kept.
    + exists false, false. split; [by apply same_but_use_kept|done].
Qed.
End Privilege.

(** ** Types of answers *)

Section Typed.
Context `{AEAD} `{ConfigEnv} `{CliEnv} `{ScheduleEnv} `{ApiEnv} `{JSON} `{Collation} `{Site} `{ProviderSet} `{SetupEnv}.
Context (unconfigured : bool) (touchInterval : Z).

Lemma authenticate_answers r : answers (proper_or r) (authenticate touchInterval r).
Proof.
  intros s. destruct (authenticate_spec touchInterval r s) as (a & s' & E & _ & Ha). exists a, s'. split; [exact E|].
  destruct Ha as [->|(k & e & _ & ->)]; [|apply refuse_proper]. unfold identify, cross_origin. proper_auto.
Qed.
Lemma serving_answers r s : (forall tok sess, answered r tok sess s) -> answers (proper r) (serving unconfigured touchInterval r s).
Proof.
  intros Hs. destruct s as [h|scope h]; cbn [serving]; [apply (Hs (mkAPIToken "" "" "" 0 0 0 []) None)|].
  unfold requireScope. destruct unconfigured; [apply answers_ret; unfold not_configured; auto with proper|].
  eapply answers_bind; [apply authenticate_answers|]. intros who Hw. destruct who as [p|[tok sess]]; [by apply answers_ret|].
  destruct (negb _); [apply answers_ret; unfold insufficient_scope; auto with proper|]. apply (Hs tok sess).
Qed.

(** C30: every request is answered, and the answer is of the type it announces. On a
    server set up or not, whatever the request (but for the event stream of a run and
    the files of the dashboard, which are served apart) and whatever fails, a response comes:
    a JSON document under 200, 201 or 202, a text under 200, nothing under 204, each
    with its content type; or a problem of this API, under a status from 400 to 599
    that it repeats, that names the path of the request. *)
Theorem answers_are_typed r m s : serve unconfigured touchInterval r = Some m ->
  exists p s', m s = (Ret p, s') /\ proper r p.
Proof.
  unfold serve. destruct (streamed r); [done|]. destruct (route_of unconfigured r) as [[vars sv]|] eqn:Er.
  - intros [= <-]. destruct (route_of_in _ _ _ _ Er) as (method & pattern & Hin).
    apply (serving_answers (with_vars r vars) sv). intros tok sess.
    apply (proj1 (Forall_forall _ _) (routes_answer unconfigured (with_vars r vars) tok sess) _ Hin).
  - destruct (HasPrefix _ _); [|done]. intros [= <-]. eexists _, s. split; [reflexivity|]. auto with proper.
Qed.
End Typed.

(** ** A server at work *)

Module Served.
Import Sealed Config.Lab Auth.Browser.
#[local] Existing Instance Adhoc.Described.no_schedule.
#[local] Existing Instance byte_order.
#[local] Instance plain : JSON := {| json_details d := Some d; json_check c := Some c |}.
#[local] Instance files : CliEnv := {|
  cli_key := inr key; cli_path := "config.yaml"; cli_dir := "/etc"; cli_nonce _ := inr nonce; cli_faults _ := no_config_faults;
|}.
(** A body names a workload to drill, or the channel to post to. *)
#[local] Instance site : Site := {|
  site_dialect := SQLite; site_config := Some (lab 9000 9099); site_channels := true; site_weights := DefaultWeights;
  site_time_Now := 60; site_int_overflow _ := 0;
  yaml_Unmarshal _ := inl (ENew (Lit "yaml")); yaml_Marshal p := inr (pl_Name p);
  json_trigger s := Some (mkTriggerRequest "" s "pve" "" ["tcp:22"] "" "" "" "" "" false);
  json_notification s := Some (mkNotificationRequest s "slack" "https://hooks.lab/T1/B1" None);
  json_login s := Some s; parse_instant _ := None; StatusText _ := "status"; site_version := "dev"; site_NotifyDispatcherOff := false;
|}.
#[local] Instance clusters : ProviderSet := {|
  ps_Entries _ := [pve 9000 9099];
  ps_Hypervisor _ id := inr id; ps_Backups _ id := inr id; ps_Ping _ _ := inr tt; ps_ListNodes _ _ := inr [];
  ps_ValidateIsolation := None; ps_ListStorages := None; ps_CountBackups _ _ _ _ _ := inr 0;
  ps_ListWorkloads _ _ := inl (ESentinel ErrTimeout); ps_GetWorkload _ _ _ := inl (ESentinel Errors.ErrNotFound);
  ps_GetStatus _ _ _ := inl (ESentinel Errors.ErrNotFound); ps_ListBackups _ _ _ := inl (ESentinel ErrNoBackup);
  ps_GetLatestBackup _ _ _ := inl (ESentinel ErrNoBackup); ps_Delete _ _ _ := None;
  sender_Do _ _ _ := Dispatcher.Answered 204 "" ""; sender_ctx _ := None;
|}.
#[local] Instance no_setup : SetupEnv := {| json_setup _ := None; setup_Connect _ _ := (None, None) |}.
(** The server of [Browser], whose configuration is loaded. *)
Definition running : Api := set_ap_cli (mkCli (Some (lab 9000 9099)) None 0) server.
Definition ask (method path body : string) : HttpRequest :=
  mkHttpRequest method path "lab" true (fun h => if bool_decide (h = "Origin") then "lab" else "") (Some "rls_1") (fun _ => "") (fun _ => "") (Some body).
(** The status, how many runs there are after, and what was asked of a cluster. *)
Definition seen (method path body : string) : option (Z * nat * list cluster_call) :=
  m ← serve false Duration.Minute (ask method path body);
  match m running with
  | (Ret p, s) => Some (rp_Status p, size (db_runs (ap_db s)), ap_calls s)
  | _ => None
  end.
(** The browser may operate, and not manage. *)
Example requests :
  map (fun x => seen x.1 x.2 "101")
    [("POST", "/api/v1/recovery-runs"); ("POST", "/api/v1/cleanup/9001"); ("POST", "/api/v1/cleanup/101");
     ("POST", "/api/v1/notifications"); ("GET", "/api/v1/workloads"); ("GET", "/api/v1/nothing"); ("GET", "/")] =
  [Some (201, 1%nat, []); Some (200, 0%nat, [AskDelete "" "9001"]); Some (400, 0%nat, []);
   Some (403, 0%nat, []); Some (504, 0%nat, [AskRead "ListWorkloads"]); Some (404, 0%nat, []); None].
Proof. vm_compute. reflexivity. Qed.

Definition triggering : M Api Response := default (mret (mkResponse 0 [] None PayloadNone)) (serve false Duration.Minute (ask "POST" "/api/v1/recovery-runs" "101")).
Lemma least_privilege_witness : exists operate manage, kept operate manage running (triggering running).2 /\
  (operate = true -> may ScopeOperate running (ask "POST" "/api/v1/recovery-runs" "101")) /\
  (manage = true -> may ScopeManage running (ask "POST" "/api/v1/recovery-runs" "101")).
Proof. apply (least_privilege Duration.Minute (ask "POST" "/api/v1/recovery-runs" "101") triggering running). reflexivity. Defined.
Lemma answers_are_typed_witness : exists p s', triggering running = (Ret p, s') /\ proper (ask "POST" "/api/v1/recovery-runs" "101") p.
Proof. apply (answers_are_typed false Duration.Minute (ask "POST" "/api/v1/recovery-runs" "101") triggering running). reflexivity. Defined.
End Served.

(** * Asking for a drill, and removing what one left

    A request for a drill is one call of [EnqueueDrill] or nothing
    ([trigger_outcome]); a cleanup reaches a cluster only for an identifier of the
    range reserved for drills ([cleanup_gated]). *)

Section Trigger.
Context `{ScheduleEnv} `{ApiEnv} `{JSON} `{Collation} `{Site} `{ProviderSet}.

(** A response that is a problem. *)
Definition refusal (r : HttpRequest) (p : Response) : Prop := exists q, p = writeProblem r q /\ problem_ok q.
Lemma refusal_problem r q : problem_ok q -> refusal r (writeProblem r q).
Proof. intros Hq. by exists q. Qed.
Lemma refusal_bad r detail : refusal r (writeBadRequest r detail).
Proof. apply refusal_problem, newProblem_ok. lia. Qed.
Lemma refusal_status r p : refusal r p -> 400 <= rp_Status p < 600.
Proof. intros (q & -> & Hq). apply Hq. Qed.
Lemma prepare_refusal r e : refusal r (prepare_problem r e).
Proof. destruct e; apply refusal_problem; auto with proper; apply newProblem_ok; lia. Qed.
Lemma adhoc_refusal r q p : adhocPlanForTrigger r q = inl p -> refusal r p.
Proof.
  unfold adhocPlanForTrigger. repeat case_match; try discriminate; intros [= <-]; apply refusal_bad.
Qed.

(** The databases and the calls are as they were. *)
Definition unasked (s s' : Api) : Prop := ap_db s' = ap_db s /\ ap_calls s' = ap_calls s.
Lemma planForTrigger_cases r q s : exists x s', planForTrigger r q s = (Ret x, s') /\ unasked s s' /\ forall p, x = inl p -> refusal r p.
Proof.
  unfold planForTrigger. destruct (negb _).
  { eexists _, s. split; [reflexivity|]. split; [done|]. destruct (adhocPlanForTrigger r q) eqn:E; [|done]. intros p [= <-]. by eapply adhoc_refusal. }
  destruct (adhocFields q); [|eexists _, s; split; [reflexivity|]; split; [done|]; intros p [= <-]; apply refusal_bad].
  destruct (Resolve_returns site_dialect yaml_Unmarshal (tg_Plan q) s) as (row & s' & E & _). rewrite (bind_Ret _ _ _ _ _ E).
  pose proof (Resolve_kept false false site_dialect yaml_Unmarshal (tg_Plan q) s) as Hk. rewrite E in Hk. cbn in Hk.
  assert (unasked s s') as Hu.
  { revert E. unfold Resolve, get_plan. set (f := fun s : Api => _). intros (row' & s1 & E1 & E)%bind_Ret_inv.
    destruct (a_read_cases f s) as [(e & _ & E2)|E2]; rewrite E2 in E1; injection E1 as <- <-; injection E as _ <-; done. }
  eexists _, s'. split; [reflexivity|]. split; [exact Hu|]. intros p. destruct row as [e|[row pl]]; [|discriminate].
  intros [= <-]. apply refusal_problem, problemForPlan_ok.
Qed.

(** What is queued is what [EnqueueDrill] queues, and a refusal queues nothing. *)
Lemma enqueue_cases r req s : exists x s', enqueue r req s = (Ret x, s') /\ ap_calls s' = ap_calls s /\
  match x with
  | inr run => EnqueueDrill yaml_Marshal req (ap_db s) = (inr run, ap_db s')
  | inl p => refusal r p /\ ap_db s' = ap_db s
  end.
Proof.
  unfold enqueue, EnqueueDrill. set (f := fun s : Api => inr (ActiveRunForWorkload _ (db_runs (ap_db s)))).
  destruct (a_read_cases f s) as [(e & _ & E)|E]; rewrite (bind_Ret _ _ _ _ _ E); clear E.
  { eexists _, _. split; [reflexivity|]. split; [done|]. split; [apply refusal_problem, problemFor_ok|done]. }
  assert (forall marshal, Prepare marshal (fun w => inr (ActiveRunForWorkload w (db_runs (ap_db s)))) req =
    Prepare marshal (fun _ => inr (ActiveRunForWorkload (match rq_Plan req with Some p => wr_ID (pl_Workload p) | None => "" end) (db_runs (ap_db s)))) req) as ->
    by (intros marshal; unfold Prepare; by destruct (rq_Plan req)).
  unfold f. destruct (Prepare _ _ _) as [e|pd].
  { eexists _, _. split; [reflexivity|]. split; [done|]. split; [apply prepare_refusal|done]. }
  set (g := queue_run (pd_Run pd) (pd_PlanYAML pd) (rq_At req)).
  destruct (a_write_cases g (tick s)) as [(e & _ & E)|[(err & Eg & E)|(db & Eg & E)]]; rewrite (bind_Ret _ _ _ _ _ E); clear E.
  - eexists _, _. split; [reflexivity|]. split; [done|]. split; [apply refusal_problem, problemFor_ok|done].
  - eexists _, _. split; [reflexivity|]. split; [done|]. split; [apply refusal_problem, problemFor_ok|done].
  - eexists _, _. split; [reflexivity|]. split; [done|]. cbn in Eg |- *. by rewrite Eg.
Qed.

(** A request for a drill queues one drill or nothing. Whatever it asks and
    whatever fails, it is answered, without a word to a cluster: 201, with the
    address of the run, when [EnqueueDrill] queued that one run under a new
    identifier, for the plan that the request described or named; else a problem, and
    the database is as it was. *)
Theorem trigger_outcome r tok sess s : exists p s', handleTriggerRun r tok sess s = (Ret p, s') /\ ap_calls s' = ap_calls s /\
  ((exists q pl stored k at_ run, hr_Body r ≫= (fun raw => json_trigger (limited raw)) = Some q /\
      (exists s1, planForTrigger r q s = (Ret (inr (pl, stored)), s1)) /\
      EnqueueDrill yaml_Marshal (mkRequest (Some pl) stored defaultProvider (ae_newID k) at_) (ap_db s) = (inr run, ap_db s') /\
      rp_Status p = 201 /\ ("Location", "/api/v1/recovery-runs/" +:+ run_ID run) ∈ rp_Headers p) \/
   (refusal r p /\ ap_db s' = ap_db s)).
Proof.
  unfold handleTriggerRun. destruct (hr_Body r ≫= _) as [q|] eqn:Eq.
  2:{ eexists _, s. split; [reflexivity|]. split; [done|]. right. split; [apply refusal_bad|done]. }
  destruct (planForTrigger_cases r q s) as (x & s1 & E & [Hdb1 Hc1] & Hx). rewrite (bind_Ret _ _ _ _ _ E).
  destruct x as [p|[pl stored]]; [eexists _, s1; split; [reflexivity|]; split; [done|]; right; split; [by apply Hx|done]|].
  rewrite (bind_Ret a_newID _ s1 (ae_newID (ap_time s1)) (tick s1) eq_refl).
  rewrite (bind_Ret a_now _ (tick s1) (ae_now (S (ap_time s1))) (tick (tick s1)) eq_refl).
  set (req := mkRequest _ _ _ _ _). destruct (enqueue_cases r req (tick (tick s1))) as (y & s2 & E2 & Hc2 & Hy). rewrite (bind_Ret _ _ _ _ _ E2).
  cbn in Hc2, Hy. rewrite Hdb1 in Hy. destruct y as [p|run].
  - eexists _, s2. split; [reflexivity|]. split; [congruence|]. right. destruct Hy as [Hp Hd]. split; [done|congruence].
  - rewrite (bind_Ret a_now _ s2 (ae_now (ap_time s2)) (tick s2) eq_refl). eexists _, _. split; [reflexivity|]. split; [cbn; congruence|]. left.
    exists q, pl, stored, (ap_time s1), (ae_now (S (ap_time s1))), run. split_and!; [done|by exists s1|exact Hy|done|by left].
Qed.

(** A cleanup deletes nothing outside of the range reserved for drills. What
    [handleCleanup] asks of a cluster is at most one deletion, of the identifier in
    the path, which is a number within the bounds of the provider; and the answer
    says that it was removed only when the cluster deleted it. *)
Theorem cleanup_gated r tok sess s : exists p s' asked, handleCleanup r tok sess s = (Ret p, s') /\ ap_calls s' = ap_calls s ++ asked /\
  ap_db s' = ap_db s /\
  match asked with
  | [] => refusal r p
  | [AskDelete hv id] => exists n k k', id = hr_PathValue r "vmid" /\ Atoi id = Some n /\
      (tempIDRange (hr_Query r "provider")).1 <= n <= (tempIDRange (hr_Query r "provider")).2 /\
      ps_Hypervisor k (hr_Query r "provider") = inr hv /\
      match ps_Delete k' hv id with Some _ => refusal r p | None => rp_Status p = 200 end
  | _ => False
  end.
Proof.
  unfold handleCleanup, outside_range. destruct (tempIDRange _) as [low high]. cbn [fst snd].
  destruct (Atoi (hr_PathValue r "vmid")) as [n|] eqn:En.
  2:{ eexists _, s, []. split; [reflexivity|]. rewrite app_nil_r. split_and!; [done..|apply refusal_bad]. }
  destruct ((n <? low) || (high <? n)) eqn:Hr.
  { eexists _, s, []. split; [reflexivity|]. rewrite app_nil_r. split_and!; [done..|apply refusal_bad]. }
  set (found := ps_Hypervisor (ap_time s) (hr_Query r "provider")).
  rewrite (bind_Ret (a_outside (fun n => ps_Hypervisor n (hr_Query r "provider"))) _ s found (tick s) eq_refl).
  destruct found as [e|hv] eqn:Ehv.
  { eexists _, _, []. split; [reflexivity|]. rewrite app_nil_r. split_and!; [done..|]. apply refusal_problem, problemForUpstream_ok. }
  set (id := hr_PathValue r "vmid") in *.
  rewrite (bind_Ret (a_call (AskDelete hv id)) _ (tick s) tt (log_call (AskDelete hv id) (tick s)) eq_refl).
  rewrite (bind_Ret (a_outside (fun n => ps_Delete n hv id)) _ (log_call (AskDelete hv id) (tick s)) (ps_Delete (S (ap_time s)) hv id) (tick (log_call (AskDelete hv id) (tick s))) eq_refl).
  eexists _, _, [AskDelete hv id]. split; [reflexivity|]. split_and!; [done..|].
  apply orb_false_iff in Hr as [Hlow%Z.ltb_ge Hhigh%Z.ltb_ge].
  exists n, (ap_time s), (S (ap_time s)). split_and!; [done|done|lia|lia|exact Ehv|].
  destruct (ps_Delete _ _ _); [apply refusal_problem, problemForUpstream_ok|done].
Qed.
End Trigger.
