(* ===== verification/PlanCatalogTheorems.v ===== *)
(** * What saving a plan does

    [Save] writes the document verbatim as the next version of the plan it found,
    or as the first of a new one, and nothing else; whatever fails before the
    write leaves the table as it was. *)

From Stdlib Require Import ZArith Lia String Ascii List.
From S2P Require Import Prelude GoTime Errors Core GoString Plan Config Channels Queue Timeline Catalog Scheduler Story Credentials ApiBase PlanCatalog Auth.

(** ** Names and identifiers *)

(** No plan is called like an identifier: [resolvePlanRef] looks at names first. *)
Record ids_apart (ids : string -> Prop) (db : DB) : Prop := {
  ia_rows : forall id q, db_plans db !! id = Some q -> sp_ID q = id /\ id <> "" /\ ids id;
  ia_names : forall id q, db_plans db !! id = Some q -> ~ ids (sp_Name q);
}.

Lemma GetPlan_cases d ref db row :
  GetPlan d ref db = inr row ->
  exists id, db_plans db !! id = Some row /\ resolvePlanRef d ref (db_plans db) = inr id /\
    (sp_Name row = ref \/ id = ref \/ like_prefix d ref id = true).
Proof.
  unfold GetPlan. destruct (resolvePlanRef _ _ _) as [|id] eqn:E; [done|].
  destruct (db_plans db !! id) as [q|] eqn:Eq; [|done]. intros [= ->]. exists id. split_and!; [done..|].
  revert E. unfold resolvePlanRef. destruct (negb _); [done|].
  destruct (List.filter (Catalog.named ref) _) as [|[k q] l] eqn:Ef.
  - destruct (db_plans db !! ref) eqn:Er; [intros [= ->]; by right; left|].
    destruct (List.filter (like_prefix d ref) _) as [|k [|]] eqn:El; [done| |done]. intros [= ->]. right; right.
    assert (In id (id :: nil)) as Hin by by left. rewrite <- El in Hin. by apply List.filter_In in Hin as [_ ?].
  - intros [= ->]. left. assert ((id, q) ∈ List.filter (Catalog.named ref) (plan_rows (db_plans db))) as Hin by (rewrite Ef; left).
    apply in_plan_rows in Hin as [E Hn]. rewrite E in Eq. simplify_eq. unfold named in Hn. by apply bool_decide_eq_true in Hn.
Qed.

Lemma GetPlan_key d ids db id row :
  ids_apart ids db -> db_plans db !! id = Some row -> GetPlan d id db = inr row.
Proof.
  intros Ha E. destruct (ia_rows _ _ Ha _ _ E) as (_ & Hne & Hi). unfold GetPlan.
  rewrite (resolvePlanRef_key d id _ row E Hne); [by rewrite E|].
  intros k q Eq <-. by apply (ia_names _ _ Ha k q Eq).
Qed.

(** ** What a write stores *)

(** One row is new or is the next version of one; the rest is as it was. *)
Record stored (d : dialect) (p : Plan) (document : string) (expected : Z) (created : bool) (row : StoredPlan) (db db' : DB) : Prop := {
  st_plans : db_plans db' = <[sp_ID row := row]> (db_plans db);
  st_runs : db_runs db' = db_runs db;
  st_slots : db_slots db' = db_slots db;
  st_document : sp_YAML row = document;
  st_name : sp_Name row = pl_Name p;
  st_workload : sp_WorkloadID row = wr_ID (pl_Workload p);
  st_version :
    if created then db_plans db !! sp_ID row = None /\ sp_Version row = 1
    else exists old, db_plans db !! sp_ID row = Some old /\ expected <> CreateOnly /\
      (0 < expected -> sp_Version old = expected) /\ sp_Version row = sp_Version old + 1 /\ sp_CreatedAt row = sp_CreatedAt old /\
      (sp_Name old = pl_Name p \/ like_prefix d (pl_Name p) (sp_ID old) = true);
}.

Lemma CreatePlan_stored d p document expected id now db db' :
  CreatePlan (document_row p document id now) db = inr db' ->
  stored d p document expected true (first_version (document_row p document id now)) db db'.
Proof.
  unfold CreatePlan. destruct (existsb _ _); [done|]. cbn [sp_ID document_row].
  destruct (db_plans db !! id) eqn:E; [done|]. intros [= <-]. by split.
Qed.

Lemma UpdatePlan_stored d p document expected now ids db db' old :
  ids_apart ids db -> ~ ids (pl_Name p) -> GetPlan d (pl_Name p) db = inr old -> expected <> CreateOnly ->
  UpdatePlan d (document_row p document (sp_ID old) now) (if expected <? 0 then 0 else expected) db = inr db' ->
  stored d p document expected false (next_version (document_row p document (sp_ID old) now) old) db db'.
Proof.
  intros Ha Hp Hg Hx. destruct (GetPlan_cases _ _ _ _ Hg) as (id & E & _ & Hn).
  destruct (ia_rows _ _ Ha _ _ E) as (Hid & Hne & Hi). unfold UpdatePlan. cbn [sp_ID document_row]. rewrite Hid.
  rewrite (resolvePlanRef_key d id _ old E Hne); [|intros k q Eq Hk; apply (ia_names _ _ Ha k q Eq); by rewrite Hk].
  rewrite E. destruct (_ && negb (_ =? _)) eqn:Eg; [done|]. destruct (existsb _ _); [done|]. intros [= <-].
  split; cbn; rewrite ?Hid; try done. exists old. split_and!; try done.
  - intros Hpos. destruct (expected <? 0) eqn:E0; [lia|]. destruct (0 <? expected) eqn:E1; [|lia]. cbn in Eg.
    apply negb_false_iff in Eg. lia.
  - destruct Hn as [?|[Hk|?]]; [by left|by rewrite Hk in Hi|right; by rewrite ?Hid].
Qed.

Lemma stored_apart d p document expected created row db db' ids :
  ids_apart ids db -> sp_ID row <> "" -> ids (sp_ID row) -> ~ ids (pl_Name p) ->
  stored d p document expected created row db db' -> ids_apart ids db'.
Proof.
  intros Ha Hne Hi Hp []. split; intros k q; rewrite st_plans0, lookup_insert_Some; intros [[<- <-]|[_ Eq]].
  - done.
  - by apply (ia_rows _ _ Ha).
  - by rewrite st_name0.
  - by apply (ia_names _ _ Ha k).
Qed.

Section Saving.
Context `{ScheduleEnv} `{ApiEnv} (d : dialect).
Context (yaml_Unmarshal : string -> error + Plan).

(** The table as the statements of [Save] find it, and what came of it. *)
Definition save_outcome (p : Plan) (document : string) (expected : Z) (s s' : Api) (a : api_error + (StoredPlan * bool)) : Prop :=
  match a with
  | inr (row, created) => stored d p document expected created row (ap_db s) (ap_db s')
  | inl e =>
    ap_db s' = ap_db s \/
    (exists k o row created, ae_fault k = Some o /\ e = outage_error o /\ stored d p document expected created row (ap_db s) (ap_db s'))
  end.

Lemma read_back_spec ids p document expected created row s s1 :
  ids_apart ids (ap_db s1) -> stored d p document expected created row (ap_db s) (ap_db s1) ->
  exists a s', read_back d (sp_ID row) created s1 = (Ret a, s') /\ save_outcome p document expected s s' a.
Proof.
  intros Ha Hs. unfold read_back, get_plan.
  destruct (a_read_cases (fun s => match GetPlan d (sp_ID row) (ap_db s) with inl err => inl (EStore err) | inr p => inr p end) s1)
    as [(o & Eo & E)|E]; rewrite (bind_Ret _ _ _ _ _ E); eexists _, _; (split; [reflexivity|]).
  - right. eauto 10.
  - rewrite (GetPlan_key d ids _ _ row Ha); [done|]. rewrite (st_plans _ _ _ _ _ _ _ _ Hs). apply lookup_insert_eq.
Qed.

Lemma write_then_read_spec ids p document expected created row id f s s1 :
  ap_db s1 = ap_db s -> sp_ID row = id ->
  (forall db', f (ap_db s) = inr db' -> ids_apart ids db' /\ stored d p document expected created row (ap_db s) db') ->
  exists a s', write_then_read d f id created s1 = (Ret a, s') /\ save_outcome p document expected s s' a.
Proof.
  intros E1 <- Hf. unfold write_then_read.
  destruct (a_write_cases f s1) as [(o & Eo & E)|[(err & Ef & E)|(db & Ef & E)]]; rewrite (bind_Ret _ _ _ _ _ E).
  - eexists _, _. split; [reflexivity|]. by left.
  - eexists _, _. split; [reflexivity|]. by left.
  - rewrite E1 in Ef. destruct (Hf _ Ef). by eapply read_back_spec.
Qed.

(** Saving a plan document. A document that is not a plan is refused, and the
    catalogue is untouched. Otherwise what is reported is what is stored: exactly
    one row is new or changed, it carries the document verbatim under the name the
    document gives, and it is version one of a new plan, or the next version of the
    plan that was there, at the version the caller expected, never for a caller who
    asked for a new plan. A failure leaves the tables as they were, but for an
    outage right after the write. *)
Theorem Save_stores ids document expected s :
  ids_apart ids (ap_db s) -> (forall k, ids (ae_newID k) /\ ae_newID k <> "") ->
  (forall p, parse yaml_Unmarshal document = inr p -> ~ ids (pl_Name p)) ->
  exists a s', Save d yaml_Unmarshal document expected s = (Ret a, s') /\
    match parse yaml_Unmarshal document with
    | inl e => a = inl e /\ s' = s
    | inr p => save_outcome p document expected s s' a
    end.
Proof.
  intros Ha Hnew Hname. unfold Save. destruct (parse _ _) as [e|p]; [by eexists _, _|].
  specialize (Hname _ eq_refl). set (now := ae_now (ap_time s)). set (id := ae_newID (ap_time (tick s))).
  destruct (Hnew (ap_time (tick s))) as [Hi Hne].
  rewrite (bind_Ret a_now _ s now (tick s) eq_refl), (bind_Ret a_newID _ (tick s) id (tick (tick s)) eq_refl).
  set (s1 := tick (tick s)).
  assert (forall row, sp_ID row = id -> forall db', stored d p document expected true row (ap_db s) db' -> ids_apart ids db') as Hapart.
  { intros row Er db' Hs. eapply stored_apart; [exact Ha|by rewrite Er..|exact Hname|exact Hs]. }
  destruct (a_read_cases (fun s => match GetPlan d (pl_Name p) (ap_db s) with inl err => inl (EStore err) | inr p => inr p end) s1)
    as [(o & Eo & E)|E]; unfold get_plan at 1; rewrite (bind_Ret _ _ _ _ _ E).
  { destruct o; (eexists _, _; split; [reflexivity|by left]). }
  change (ap_db s1) with (ap_db s). destruct (GetPlan d (pl_Name p) (ap_db s)) as [err|old] eqn:Eg.
  - destruct err; try (eexists _, _; split; [reflexivity|by left]).
    apply (write_then_read_spec ids p document expected true (first_version (document_row p document id now))); [done..|].
    intros db' Ec. apply (CreatePlan_stored d p document expected) in Ec. split; [exact (Hapart (first_version (document_row p document id now)) eq_refl _ Ec)|done].
  - destruct (expected =? CreateOnly) eqn:Ex; [eexists _, _; split; [reflexivity|by left]|].
    destruct (GetPlan_cases _ _ _ _ Eg) as (oid & Eold & _ & _). destruct (ia_rows _ _ Ha _ _ Eold) as (Hid & Hone & Hoi).
    apply (write_then_read_spec ids p document expected false (next_version (document_row p document (sp_ID old) now) old)); [done..|].
    intros db' Eu. eapply UpdatePlan_stored in Eu; [|done..|lia]. split; [|done].
    eapply stored_apart; [exact Ha| | |exact Hname|exact Eu]; cbn; by rewrite Hid.
Qed.
End Saving.

(** ** The theorem at work *)

(** A decoder that reads a document as the name of a plan, on a catalogue of one
    plan. *)
Module Saving.
#[local] Existing Instance Nightly.nightly.
#[local] Existing Instance Browser.env.
Definition named_plan (name : string) : Plan := let p := nightly_plan in {|
  pl_Name := name; pl_Description := ""; pl_Tags := []; pl_Workload := mkWorkloadRef "pve" "101" "db";
  pl_Backup := pl_Backup p; pl_Restore := pl_Restore p; pl_Startup := pl_Startup p; pl_Checks := [];
  pl_Cleanup := pl_Cleanup p; pl_RTOTarget := 0; pl_Schedule := ""; pl_ScheduleTimezone := "" |}.
Definition decode (document : string) : error + Plan := inr (named_plan document).
Definition row : StoredPlan := mkStoredPlan "id0" "nightly" "" "101" "pve" "nightly" 1 5 5.
Definition server : Api := mkApi (mkDB ∅ {["id0" := row]} ∅) (mkTimeline ∅ ∅ ∅ ∅ ∅) cred_empty ∅ (mkCli None None 0) ∅ "" 0 [].
Definition ids (s : string) : Prop := String.prefix "id" s = true.

(** The row that a save reports: its identifier, its name and its version. *)
Definition report (document : string) (expected : Z) : option (string * string * Z * bool) :=
  match Save SQLite decode document expected server with
  | (Ret (inr (p, created)), _) => Some (sp_ID p, sp_Name p, sp_Version p, created)
  | _ => None
  end.
Example saves :
  map (fun x => report x.1 x.2) [("weekly", 0); ("weekly", CreateOnly); ("nightly", 1); ("nightly", 2); ("nightly", CreateOnly)]
  = [Some ("id1", "weekly", 1, true); Some ("id1", "weekly", 1, true); Some ("id0", "nightly", 2, false); None; None].
Proof. vm_compute. reflexivity. Qed.

(** A new plan whose name begins the identifier of another plan replaces it. *)
Example a_name_that_begins_an_identifier : report "i" 0 = Some ("id0", "i", 2, false) /\ report "i" CreateOnly = None.
Proof. split; vm_compute; reflexivity. Qed.

Lemma decode_parses : parse decode "nightly" = inr (ApplyDefaults (named_plan "nightly")).
Proof. vm_compute. reflexivity. Qed.
Lemma server_apart : ids_apart ids (ap_db server).
Proof.
  split; intros id q E; cbn in E; apply lookup_singleton_Some in E as [<- <-]; [|by vm_compute].
  split_and!; [reflexivity|discriminate|reflexivity].
Qed.
Lemma new_ids k : ids (ae_newID k) /\ ae_newID k <> "".
Proof. split; [|discriminate]. unfold ids. cbn. by destruct (pretty k). Qed.
Lemma nightly_name p : parse decode "nightly" = inr p -> ~ ids (pl_Name p).
Proof. rewrite decode_parses. intros [= <-]. by vm_compute. Qed.

Lemma Save_stores_witness : exists a s', Save SQLite decode "nightly" 1 server = (Ret a, s') /\
  match parse decode "nightly" with
  | inl e => a = inl e /\ s' = server
  | inr p => save_outcome SQLite p "nightly" 1 server s' a
  end.
Proof. exact (Save_stores SQLite decode ids "nightly" 1 server server_apart new_ids nightly_name). Defined.
End Saving.
